(* ===== verification/_CoqProject ===== *)
-Q . S2P
Prelude.v
Words.v
Structures.v
KernelState.v
Bitfields.v
DList.v
SchedQueue.v
VSpace.v
Gic.v
Scheduler.v
CapOps.v
MDB.v
CSpace.v
Endpoint.v
Delete.v
Ipc.v
Untyped.v
TcbOps.v
CNodeOps.v
Interrupt.v
VSpaceInv.v
Syscall.v
System.v
SchedulerSpec.v
MdbSpec.v
EndpointQueues.v
EndpointSpec.v
CapSpec.v
CSpaceSpec.v
UntypedSpec.v
Fastpath.v
FastpathLookup.v
FastpathTransfer.v
FastpathCall.v
FastpathReply.v
FastpathSpec.v
Boot.v
BootSpec.v
DeleteSpec.v
BitfieldsSpec.v
Confined.v
ConfinedOps.v
ConfinedKernel.v
ConfinedCalls.v
ConfinedSpec.v
VSpaceSpec.v
AllocBase.v
KrMalloc.v
KrRing.v
KrFree.v
KrAlloc.v
KrMallocSpec.v
CspaceAlloc.v
CspaceAllocSpec.v
UtSpace.v
UtLists.v
UtTree.v
UtSplit.v
UtSplitSpec.v
Hashmap.v
HashmapTable.v
HashmapSpec.v
Cpio.v
CpioFormat.v
CpioSpec.v
VSpaceEntries.v
VSpaceMap.v
VSpaceMapSpec.v
Allocman.v
AllocmanLedger.v
AllocmanRun.v
AllocmanRefill.v
AllocmanDemo.v
AllocmanSpec.v
UVspace.v
UVspaceTable.v
UVspaceList.v
UVspaceOps.v
UVspacePages.v
UVspaceSpec.v
