(* ===== verification/Prelude.v ===== *)
(** * The Zener microkernel and its allocators: a model and its correctness

    The repository's operating system consists of a microkernel of the seL4
    family (src/zener/kernel, in C), its user-level libraries and test
    applications (src/zener/libs, src/zener/apps), and the imported Elastos
    runtime that runs above it (src/crust, src/mantle). The core logic is the
    kernel's, in the configuration for ARMv7-A on OMAP4 without debugging, and most of
    these files model it. The others model the parts of the user level whose data
    structures the rest of it relies on: the allocators of memory, of capability slots and
    of untyped memory, the manager of virtual address spaces, the hash map of the runtime and the archive of the boot image.
    File names of the kernel are relative to src/zener/kernel, those of the user level to src/zener
    (and to src for the runtime); a definition has the name of the C function it translates
    unless its comment says otherwise.

    ** How the model reads

    Machine words are integers in [0, 2^32) with explicit wrap-around
    ([+w], [-w], [&w], [<<w], ...). The kernel's global variables are the fields
    of one record, [KernelState.kstate]. Kernel objects live in typed heaps
    indexed by address (slots, TCBs, endpoints, asynchronous endpoints); page
    tables, ASID pools and user memory are a map from word addresses to words.
    Every operation is a function in the monad [M kstate]: it returns a value
    and a new state, or stops: [Failed] is a failed assertion or a call of fail
    ([Overflow] the failed assertion that a queue of the allocation manager has room, with the
    numbers it compares), [Undefined] an access to memory that holds no object of the type, an access out
    of an array's bounds or a shift the language leaves undefined, [NoFuel] a loop
    that was not given enough iterations. The assertions of the source are kept, though a
    build without debugging compiles them out: where an operation returns, they hold. A theorem stated with [wp] says that the operation
    returns, without any of these, in a state that satisfies the postcondition:
    it is total correctness.

    ** The components

    - Prelude: words, the monad, its [wp] calculus and tactics.
    - Structures, KernelState: the data types (include/object/structures.bf and
      .h, include/arch/arm/.../structures.bf and .h, register sets) and the
      global state (src/model/statedata.c).
    - DList, SchedQueue: intrusive doubly linked queues (src/object/tcb.c) and
      their refinement to lists.
    - Scheduler: src/kernel/thread.c: thread states, priorities, domains, time
      slices, switching, [schedule].
    - Gic: interrupt controller, timer, preemption point
      (src/arch/arm/machine/gic_pl390.c, src/model/preemption.c). The values read
      from device registers are streams in the state; writes go to a log.
    - VSpace, VSpaceInv: src/arch/arm/kernel/vspace.c: page table walks, ASIDs
      and hardware ASIDs, unmapping, flushing, context switch; and the decoding
      and execution of all address space invocations. VSpaceEntries, VSpaceMap: an
      address space in memory ([space_ok], [translation]) and what writing and removing
      the entries of a page do to it.
    - CapOps, MDB, CSpace: src/object/objecttype.c, src/object/cnode.c,
      src/kernel/cspace.c: operations on one capability, the derivation list that
      links all slots, the resolution of capability addresses.
    - Endpoint, Ipc: src/object/endpoint.c, src/object/asyncendpoint.c and the
      message transfer of src/kernel/thread.c and src/object/tcb.c.
    - Delete: finalisation, deletion, revocation, recycling.
    - Untyped, TcbOps, CNodeOps, Interrupt: the invocations of untyped memory,
      threads, capability nodes and interrupts, decoding and execution.
    - Syscall: src/api/syscall.c and src/kernel/faulthandler.c: the entry points,
      which decode, invoke, and end in [schedule] and [activateThread].
    - Fastpath: src/arch/arm/fastpath/fastpath.c: the short paths of SysCall and
      SysReplyWait, with their checks and their direct writes of fields; where the
      checks fail they end in [handleSyscall].
    - Boot: src/kernel/boot.c, src/arch/arm/kernel/boot.c, the initialisation in
      src/arch/arm/kernel/vspace.c and the tables of src/plat/omap4: what the
      kernel does from its start to the first thread.
    - Bitfields: the blocks of the .bf files and the packing into words that
      tools/bitfield_gen.py generates for them.
    - Confined, ConfinedOps, ConfinedKernel, ConfinedCalls: [confined], every thread has at most a given
      priority and a domain of the configuration, and a lemma for every operation that it preserves this.

    The user level. What a component gets from outside (the kernel's calls, the C library,
    the other allocators) is a parameter, with its documented behaviour as hypotheses.
    - AllocBase, Words: what the allocators share, and arithmetic of words.
    - KrMalloc: libs/libsel4allocman/src/mspace/k_r_malloc.c, the K&R heap, on a memory of
      words, with the function that gets more memory as a parameter; fixed_pool.c. KrRing,
      KrFree, KrAlloc: the circular list of free blocks and what the operations do to it.
    - CspaceAlloc: libs/libsel4allocman/src/cspace/simple1level.c, single_level.c and
      two_level.c: capability slots from a range, a bitmap, and a node of nodes.
    - UtSpace: libs/libsel4allocman/src/utspace/twinkle.c and split.c: objects carved off a
      list of untypeds, and untypeds split in halves and merged. UtLists, UtTree, UtSplit: the
      lists of nodes, the forest of blocks they represent, and the operations on it.
    - Allocman: libs/libsel4allocman/src/allocman.c, the manager that ties these allocators together:
      they call it and it calls them, with reserves for requests and queues for frees that come while an
      allocator may not be entered. AllocmanLedger: accounts of resources as multisets, and the
      contract of an allocator ([Allocators]); AllocmanRun, AllocmanRefill: nested calls, and refilling; AllocmanDemo:
      allocators that keep the contract.
    - UVspace: libs/libsel4utils/src/vspace/vspace.c, the manager of an address space (its tables of two levels and
      its list of reservations; the structure sel4utils_alloc_data_t is the record [sel4utils_alloc_data]), the mapping of
      a page in src/mapping.c, and of bootstrap.c the making of tables and of a new space. The
      allocator, the address space the tables come from, the system calls and malloc are parameters, with the laws
      [calls_laws]. UVspaceTable: the invariant of the table and what the loops over ranges do to it;
      UVspaceList: the list of reservations; UVspaceOps, UVspacePages: the operations as changes of an abstract address
      space, a function from pages and a set of reservations ([manages]).
    - Hashmap: crust/libs/c_hashmap/hashmap.c, open addressing with a bounded probe and a
      table that doubles. HashmapTable: the values of a key along its chain ([stack]), the invariant of the table.
    - Cpio: libs/libcpio/src/cpio.c, reading an archive in memory. CpioFormat: what the bytes
      of an archive are.

    The operations call each other as in the source. What one component
    promises to its clients is stated by [wp_] lemmas about abstract values:
    [sched_rep] (the lists the ready queues represent), [ep_rep] and [aep_rep]
    (an endpoint's queue), [mdb_chain] (a derivation list), [hwasid_wf] (the
    hardware ASIDs), [resolves] (address resolution bit by bit).

    ** The theorems

    They are in the files named ...Spec, numbered by the labels of their
    comments, each followed by a witness that applies it to the concrete state
    [System.sys] or to concrete arguments.
    - SchedulerSpec: queues refine lists; schedule(), priorities, wake-ups, time
      slices.
    - MdbSpec: insertion, move, swap and removal of capabilities on derivation
      lists.
    - EndpointSpec: waiting in order, waking, cancelling, accumulation of
      signals.
    - CapSpec: rights, regions, badges, zombies, message information words.
    - CSpaceSpec: address resolution against its specification.
    - UntypedSpec: Retype creates objects inside the untyped region only.
    - FastpathSpec (with FastpathLookup, FastpathTransfer, FastpathCall,
      FastpathReply): the fast path has the result of [handleSyscall].
    - BootSpec: the untyped capabilities given out tile a region, frames are
      allocated inside the free memory and leave it, the free memory excludes the
      kernel, device frames go into consecutive slots or the boot fails.
    - DeleteSpec: revoking a capability deletes its descendants one after the other, all of them
      unless the preemption point finds an interrupt pending.
    - BitfieldsSpec: packing and reading back.
    - ConfinedSpec: no execution raises a thread's priority above the highest there is, or leaves
      the domains of the configuration.
    - VSpaceSpec, VSpaceMapSpec: threads run in their own address space; mapping and
      unmapping a page change the translation of that page alone.
    - KrMallocSpec, CspaceAllocSpec, UtSplitSpec: what is allocated was free and overlaps nothing
      in use, what is freed can be allocated again, errors leave what is in use as it was.
    - AllocmanSpec: under the manager no resource is lost or given out twice, whatever the allocators call,
      and every operation returns unless a queue for frees is full.
    - UVspaceSpec: reservations stay apart, pages are mapped only where they are reserved or free, and what
      every operation changes, its errors and the shortage of tables included.
    - HashmapSpec: what the operations make of the values each key has, more than one after a removal
      (see its comment), and when they are those of a finite map; CpioSpec: the reader returns the
      entries the archive was built from.

    ** Bounds and fuel

    A loop over a queue of threads takes [thread_fuel], one more than the number
    of threads: a queue without repetition is no longer, and the theorems on
    queues prove that this is enough. Address resolution takes one more than the
    number of bits: every node resolves at least one bit (proved enough).
    Deletion takes the square of the number of slots plus two. The splitting of a
    region into untyped capabilities takes [untypeds_fuel] = 65 rounds; at most 60
    are needed (proved).
    In the user level: [ring_fuel], one more than the words of memory, which the list of
    free blocks cannot exceed (allocation walks it at most twice); [split_fuel] = 32, the
    number of sizes; the search for a second-level node, one more than their number; the
    search for a free bit, the number of words of the bitmap; [hashmap_fuel] = 30, as the
    table doubles at most 20 times; [memory_fuel], one more than the bytes of memory;
    [allocman_depth] = 9, the outermost operation of the manager and, while it refills,
    two levels of calls and two more for each of the three allocators; for the loops over the
    manager's queues, any bound on what is given out; [bootstrap_depth] = 4 tables that need one another (a bound, not
    reached by the theorem, which is about spaces that have a loader); [res_fuel], one more than the reservations in
    memory; [steps_to], one more than the pages of a range. The theorems state that the
    operations return, so they prove that these are enough.

    ** Not modelled

    Assembly entry code, the debugging and benchmark system calls, other
    architectures and platforms, the drivers of the interrupt controller, timer and
    caches that only program their devices ([init_plat] among them). Of the user level,
    everything but the parts above: bootstrap.c of libsel4allocman, which sets up a manager from the boot
    information; the bootstrap of the first address space in libsel4utils, its client and server version and the
    contents of the pages an address space maps; the pools of memory on virtual addresses; trickle.c, compiled only with
    CONFIG_KERNEL_STABLE, which no configuration sets; the C library, the drivers, the test
    programs and the imported runtime and file systems. The arrays of the allocation
    manager are lists with the size of their memory, and its theorem is about allocating,
    freeing and filling; the functions that configure it are definitions only. Cache and TLB maintenance
    is the log of the operations requested; barriers are omitted. The width
    assertions of the generated bit-field accessors are not modelled: setters and constructors
    truncate, as the accessors do in the configuration without debugging. Nothing is claimed
    about bits that are lost so; minting truncates badges (CapSpec). *)
From stdpp Require Import base list gmap numbers.
From Stdlib Require Import ZArith Lia.

(** ** 32-bit machine words

    [word_t], pointers and all the [uint32_t] types of the kernel are integers
    in [0, 2^32); the operations that can leave the range wrap explicitly. *)

Declare Scope word_scope.
Delimit Scope word_scope with word.
Global Open Scope Z_scope.

Definition wordBits : Z := 32.
Definition wordMax : Z := 2 ^ 32 - 1.
Definition wrap (x : Z) : Z := x mod 2 ^ 32.
Definition wadd (a b : Z) : Z := wrap (a + b).
Definition wsub (a b : Z) : Z := wrap (a - b).
Definition wshl (a n : Z) : Z := wrap (Z.shiftl a n).
Definition wshr (a n : Z) : Z := Z.shiftr a n.
Definition wnot (a : Z) : Z := Z.lxor a wordMax.
Definition BIT (n : Z) : Z := wshl 1 n.
Definition MASK (n : Z) : Z := wsub (BIT n) 1.
Definition NULL : Z := 0.

Infix "+w" := wadd (at level 50, left associativity) : word_scope.
Infix "-w" := wsub (at level 50, left associativity) : word_scope.
Infix "<<w" := wshl (at level 53, left associativity) : word_scope.
Infix ">>w" := wshr (at level 53, left associativity) : word_scope.
Infix "&w" := Z.land (at level 56, left associativity) : word_scope.
Infix "|w" := Z.lor (at level 57, left associativity) : word_scope.
Global Open Scope word_scope.

(** A value fits a word. *)
Definition is_word (x : Z) : Prop := 0 <= x < 2 ^ 32.

(** A bit field of [w] bits keeps the low [w] bits of what is stored in it, a
    [field_high] of [w] bits the high [w] bits of the 32-bit word. *)
Definition field (w v : Z) : Z := Z.land v (Z.ones w).
Definition field_high (w v : Z) : Z := Z.land v (Z.shiftl (Z.ones w) (32 - w)).

(** Fields of packed words: [width] bits from bit [shift] on. *)
Definition bf_get (w shift width : Z) : Z := Z.land (Z.shiftr w shift) (Z.ones width).
Definition bf_set (w shift width v : Z) : Z :=
  Z.lor (Z.ldiff w (Z.shiftl (Z.ones width) shift))
        (Z.land (Z.shiftl v shift) (Z.shiftl (Z.ones width) shift)).
Definition bf_flag (w shift : Z) : bool := Z.testbit w shift.

(** C's truth values and the equality test of enumerations. *)
Definition bool_word (b : bool) : Z := if b then 1 else 0.
Definition word_bool (w : Z) : bool := negb (w =? 0).
Notation "a == b" := (bool_decide (a = b)) (at level 70, no associativity) : word_scope.
Notation "a != b" := (negb (bool_decide (a = b))) (at level 70, no associativity) : word_scope.

(** ** The state monad with failure

    A kernel function takes a state and either returns a value and the new
    state, or stops: [Failed] is a failed [assert] or a call of [fail],
    [Undefined] an access to memory that holds no object of the accessed type,
    [NoFuel] the exhaustion of the bound of a loop. [Overflow n m] is the failed
    assertion that a queue of [n] elements has room for another one, where [m] are allowed. *)
Inductive stop := Failed | Undefined | NoFuel | Overflow (n m : Z).

Inductive outcome (S A : Type) :=
| Ret (a : A) (s : S)
| Stop (e : stop).
Arguments Ret {S A} a s.
Arguments Stop {S A} e.

Definition M (S A : Type) : Type := S -> outcome S A.

Section monad.
Context {S : Type}.

Definition ret {A} (a : A) : M S A := fun s => Ret a s.

Definition bind {A B} (m : M S A) (k : A -> M S B) : M S B :=
  fun s => match m s with Ret a s' => k a s' | Stop e => Stop e end.

Definition get : M S S := fun s => Ret s s.
Definition gets {A} (f : S -> A) : M S A := fun s => Ret (f s) s.
Definition modify (f : S -> S) : M S unit := fun s => Ret tt (f s).
Definition halt_with {A} (e : stop) : M S A := fun _ => Stop e.

(** [assert(e)] and [fail(s)] of assert.h *)
Definition assert (b : bool) : M S unit := if b then ret tt else halt_with Failed.
Definition fail {A} : M S A := halt_with Failed.

Definition of_option {A} (o : option A) : M S A :=
  match o with Some a => ret a | None => halt_with Undefined end.

(** [for (i = first; i < first + n; i++) f(i)] *)
Fixpoint for_upto (n : nat) (first : Z) (f : Z -> M S unit) : M S unit :=
  match n with
  | O => ret tt
  | Datatypes.S n' => fun s =>
      match f first s with
      | Ret _ s' => for_upto n' (first + 1) f s'
      | Stop e => Stop e
      end
  end.

(** The same loop, left as soon as the body returns [true]; says whether it was left. *)
Fixpoint for_until (n : nat) (first : Z) (f : Z -> M S bool) : M S bool :=
  match n with
  | O => ret false
  | Datatypes.S n' => fun s =>
      match f first s with
      | Ret true s' => Ret true s'
      | Ret false s' => for_until n' (first + 1) f s'
      | Stop e => Stop e
      end
  end.

Definition when (b : bool) (m : M S unit) : M S unit := if b then m else ret tt.
End monad.

Notation "'let*' x ':=' m 'in' k" := (bind m (fun x => k))
  (at level 10, x pattern, m at level 200, k at level 200).
Notation "m ;;; k" := (bind m (fun _ => k)) (at level 199, right associativity).

(** *** Total correctness

    [wp m Q s]: from [s], [m] returns a value and a state that satisfy [Q]. *)
Definition wp {S A} (m : M S A) (Q : A -> S -> Prop) (s : S) : Prop :=
  match m s with Ret a s' => Q a s' | Stop _ => False end.

Section wp.
Context {S : Type}.
Implicit Types s : S.

Lemma wp_ret {A} (a : A) Q s : Q a s -> wp (ret a) Q s.
Proof. done. Qed.

Lemma wp_bind {A B} (m : M S A) (k : A -> M S B) Q s :
  wp m (fun a => wp (k a) Q) s -> wp (bind m k) Q s.
Proof. unfold wp, bind. by destruct (m s). Qed.

Lemma wp_mono {A} (m : M S A) (P Q : A -> S -> Prop) s :
  wp m P s -> (forall a s', P a s' -> Q a s') -> wp m Q s.
Proof. unfold wp. destruct (m s); naive_solver. Qed.

Lemma wp_get (Q : S -> S -> Prop) s : Q s s -> wp get Q s.
Proof. done. Qed.

Lemma wp_gets {A} (f : S -> A) Q s : Q (f s) s -> wp (gets f) Q s.
Proof. done. Qed.

Lemma wp_modify (f : S -> S) (Q : unit -> S -> Prop) s :
  Q tt (f s) -> wp (modify f) Q s.
Proof. done. Qed.

Lemma wp_assert (b : bool) (Q : unit -> S -> Prop) s :
  b = true -> Q tt s -> wp (assert b) Q s.
Proof. by intros ->. Qed.

Lemma wp_of_option {A} (o : option A) (a : A) Q s :
  o = Some a -> Q a s -> wp (of_option o) Q s.
Proof. by intros ->. Qed.

Lemma wp_exact {A} (m : M S A) Q s a s' : m s = Ret a s' -> Q a s' -> wp m Q s.
Proof. unfold wp. by intros ->. Qed.

Lemma wp_inv {A} (m : M S A) Q s :
  wp m Q s -> exists a s', m s = Ret a s' /\ Q a s'.
Proof. unfold wp. destruct (m s); naive_solver. Qed.

Lemma bind_ret {A B} (m : M S A) (k : A -> M S B) s a s' :
  m s = Ret a s' -> bind m k s = k a s'.
Proof. unfold bind. by intros ->. Qed.

Lemma bind_assoc {A B C} (m : M S A) (k : A -> M S B) (h : B -> M S C) s :
  bind (bind m k) h s = bind m (fun a => bind (k a) h) s.
Proof. unfold bind. by destruct (m s). Qed.

(** A run that returned went through both parts of a [bind]. *)
Lemma bind_inv {A B} (m : M S A) (k : A -> M S B) s b s'' :
  bind m k s = Ret b s'' -> exists a s', m s = Ret a s' /\ k a s' = Ret b s''.
Proof. unfold bind. destruct (m s); naive_solver. Qed.

(** A loop by an invariant of its index and state *)
Lemma wp_for_upto (I : Z -> S -> Prop) n i f (Q : unit -> S -> Prop) s :
  I i s ->
  (forall j s, i <= j < i + Z.of_nat n -> I j s -> wp (f j) (fun _ => I (j + 1)) s) ->
  (forall s, I (i + Z.of_nat n) s -> Q tt s) ->
  wp (for_upto n i f) Q s.
Proof.
  revert i s. induction n as [|n IH]; intros i s HI Hf HQ.
  - apply wp_ret, HQ. by rewrite Z.add_0_r.
  - assert (wp (f i) (fun _ => I (i + 1)) s) as W by (apply Hf; [lia|done]).
    unfold wp in *. simpl. destruct (f i s) as [[] s'|]; [|done].
    apply IH; [done| |].
    + intros j s'' Hj. apply Hf. lia.
    + intros s'' HI'. apply HQ. by replace (i + Z.of_nat (Datatypes.S n)) with (i + 1 + Z.of_nat n) by lia.
Qed.
End wp.
