(* ===== verification/Words.v ===== *)
(** * Words by their bits and by arithmetic

    Powers of two, masks, single bits of a word, and fields that do not overlap. *)
From stdpp Require Import base list numbers.
From Stdlib Require Import ZArith Lia.
From S2P Require Import Prelude.

Lemma wordMax_ones : wordMax = Z.ones 32.
Proof. reflexivity. Qed.

Lemma BIT_pow n : 0 <= n < 32 -> BIT n = 2 ^ n.
Proof.
  intros H. unfold BIT, wshl, wrap. rewrite Z.shiftl_1_l. apply Z.mod_small.
  split; [apply Z.pow_nonneg; lia|]. apply Z.pow_lt_mono_r; lia.
Qed.

Lemma MASK_ones n : 0 <= n < 32 -> MASK n = Z.ones n.
Proof.
  intros H. unfold MASK, wsub, wrap. rewrite BIT_pow by done. rewrite Z.ones_equiv.
  pose proof (Z.pow_pos_nonneg 2 n ltac:(lia) ltac:(lia)).
  assert (2 ^ n < 2 ^ 32) by (apply Z.pow_lt_mono_r; lia).
  rewrite Z.mod_small; lia.
Qed.

Lemma MASK_pow n : 0 <= n < 32 -> MASK n = 2 ^ n - 1.
Proof. intros. by rewrite MASK_ones, Z.ones_equiv, Z.sub_1_r. Qed.

Lemma land_MASK x n : 0 <= n < 32 -> x &w MASK n = x mod 2 ^ n.
Proof. intros. rewrite MASK_ones, Z.land_ones by lia. done. Qed.

(** [x &w wnot (MASK n)] clears the low [n] bits of a word. *)
Lemma land_not_MASK x n : is_word x -> 0 <= n < 32 -> x &w wnot (MASK n) = 2 ^ n * (x / 2 ^ n).
Proof.
  intros Hx Hn. rewrite MASK_ones by done.
  assert (x &w wnot (Z.ones n) = Z.ldiff x (Z.ones n)) as ->.
  { unfold wnot. rewrite wordMax_ones. apply Z.bits_inj'. intros i Hi.
    rewrite Z.land_spec, Z.lxor_spec, Z.ldiff_spec.
    destruct (Z.lt_ge_cases i 32) as [H32|H32].
    - rewrite (Z.ones_spec_low 32) by lia. by destruct (Z.testbit (Z.ones n) i), (Z.testbit x i).
    - replace (Z.testbit x i) with false; [done|]. symmetry.
      destruct (decide (x = 0)) as [->|]; [apply Z.bits_0|]. apply Z.bits_above_log2; [apply Hx|].
      apply Z.lt_le_trans with 32; [|done]. apply Z.log2_lt_pow2; unfold is_word in Hx; lia. }
  rewrite Z.ldiff_ones_r by lia. rewrite Z.shiftl_mul_pow2, Z.shiftr_div_pow2 by lia. lia.
Qed.

(** Two fields that do not overlap *)
Lemma lor_disjoint x y n : 0 <= n -> 0 <= y < 2 ^ n -> Z.shiftl x n |w y = x * 2 ^ n + y.
Proof.
  intros Hn Hy. rewrite <- Z.shiftl_mul_pow2 by done. symmetry. apply Z.add_nocarry_lor.
  apply Z.bits_inj'. intros i Hi. rewrite Z.land_spec, Z.bits_0. destruct (Z.lt_ge_cases i n).
  - by rewrite Z.shiftl_spec_low.
  - rewrite <- (Z.mod_small y (2 ^ n)) by done. by rewrite Z.mod_pow2_bits_high, andb_false_r.
Qed.

(** ** Single bits *)
Lemma wordMax_bits i : 0 <= i -> Z.testbit wordMax i = (i <? 32).
Proof.
  intros Hi. change wordMax with (Z.ones 32). destruct (Z.ltb_spec i 32) as [H|H].
  - apply Z.ones_spec_low. lia.
  - apply Z.ones_spec_high. lia.
Qed.
Lemma BIT_bits n i : 0 <= n < 32 -> 0 <= i -> Z.testbit (BIT n) i = (n =? i).
Proof. intros Hn Hi. rewrite BIT_pow by done. apply Z.pow2_bits_eqb. lia. Qed.

(** Being a word, by bits *)
Lemma is_word_bits w : is_word w <-> 0 <= w /\ forall i, 32 <= i -> Z.testbit w i = false.
Proof.
  split.
  - intros [H0 H1]. split; [done|]. intros i Hi. destruct (decide (w = 0)) as [-> |Hw]; [apply Z.bits_0|].
    apply Z.bits_above_log2; [done|]. apply Z.log2_lt_pow2; [lia|]. apply Z.lt_le_trans with (2 ^ 32); [done|]. apply Z.pow_le_mono_r; lia.
  - intros [H0 H1]. split; [done|]. destruct (decide (w = 0)) as [-> |Hw]; [lia|].
    destruct (Z.lt_ge_cases w (2 ^ 32)) as [|Hge]; [done|]. exfalso.
    assert (32 <= Z.log2 w) as Hl by (apply Z.log2_le_pow2; lia).
    pose proof (Z.bit_log2 w ltac:(lia)) as Hb. by rewrite H1 in Hb.
Qed.

Definition clear_bit (w j : Z) : Z := w &w wnot (BIT j).
Lemma clear_bit_bits w j i : is_word w -> 0 <= j < 32 -> 0 <= i -> Z.testbit (clear_bit w j) i = Z.testbit w i && negb (j =? i).
Proof.
  intros Hw Hj Hi. unfold clear_bit, wnot. rewrite Z.land_spec, Z.lxor_spec, wordMax_bits, BIT_bits by done.
  destruct (Z.ltb_spec i 32) as [H|H]; [by rewrite xorb_true_r|].
  apply is_word_bits in Hw as [_ Hw]. by rewrite Hw.
Qed.
Lemma clear_bit_word w j : is_word w -> 0 <= j < 32 -> is_word (clear_bit w j).
Proof.
  intros Hw Hj. apply is_word_bits. split; [apply Z.land_nonneg; left; by destruct Hw|].
  intros i Hi. rewrite clear_bit_bits by (done || lia). apply is_word_bits in Hw as [_ Hw]. by rewrite Hw.
Qed.
Lemma set_bit_bits w j i : 0 <= j < 32 -> 0 <= i -> Z.testbit (w |w BIT j) i = Z.testbit w i || (j =? i).
Proof. intros Hj Hi. by rewrite Z.lor_spec, BIT_bits. Qed.
Lemma set_bit_word w j : is_word w -> 0 <= j < 32 -> is_word (w |w BIT j).
Proof.
  intros Hw Hj. apply is_word_bits. split; [apply Z.lor_nonneg; split; [by destruct Hw|rewrite BIT_pow by done; lia]|].
  intros i Hi. rewrite set_bit_bits by (done || lia). apply is_word_bits in Hw as [_ Hw]. rewrite Hw by done. cbn. lia.
Qed.
(** The test of one bit *)
Lemma land_BIT w j : 0 <= j < 32 -> (w &w BIT j =? 0) = negb (Z.testbit w j).
Proof.
  intros Hj. destruct (Z.testbit w j) eqn:E.
  - apply Z.eqb_neq. intros H. assert (Z.testbit (w &w BIT j) j = false) as F by (rewrite H; apply Z.bits_0).
    rewrite Z.land_spec, E, BIT_bits, Z.eqb_refl in F by lia. done.
  - apply Z.eqb_eq. apply Z.bits_inj'. intros i Hi. rewrite Z.land_spec, BIT_bits, Z.bits_0 by done.
    destruct (Z.eqb_spec j i) as [->|]; [by rewrite E|by rewrite andb_false_r].
Qed.
