(* ===== verification/Structures.v ===== *)
(** * Kernel data structures

    The types of include/object/structures.{h,bf},
    include/arch/arm/arch/object/structures.{h,bf}, include/api/types.{h,bf},
    include/api/failures.h, include/config.h and libsel4's constants, for the
    ARM configuration: capabilities, capability table entries, thread control
    blocks, endpoints, faults and errors, with the accessors the kernel uses.
    Tagged unions are inductive types, structs are records; a constructor
    function [X_new] or a C-named setter truncates its arguments to the widths
    the .bf files give, as the generated code does. *)
From stdpp Require Import base list gmap.
From Stdlib Require Import ZArith Lia.
From S2P Require Import Prelude.

(** ** Configuration (defaults of include/config.h) *)
Definition CONFIG_TIME_SLICE : Z := 5.
Definition CONFIG_NUM_DOMAINS : Z := 16.
Definition CONFIG_NUM_PRIORITIES : Z := 256.
Definition CONFIG_RETYPE_FAN_OUT_LIMIT : Z := 256.
Definition CONFIG_MAX_NUM_WORK_UNITS_PER_PREEMPTION : Z := 100.
Definition seL4_MaxPrio : Z := CONFIG_NUM_PRIORITIES - 1.
Definition NUM_READY_QUEUES : Z := CONFIG_NUM_DOMAINS * CONFIG_NUM_PRIORITIES.
Definition seL4_MsgMaxLength : Z := 120.
Definition seL4_MsgMaxExtraCaps : Z := BIT 2 - 1.
Definition maxIRQ : Z := 95.
Definition irqInvalid : Z := 255.

(** ** Object sizes *)
Definition EP_SIZE_BITS : Z := 4.
Definition AEP_SIZE_BITS : Z := 4.
Definition CTE_SIZE_BITS : Z := 4.
Definition TCB_CNODE_RADIX : Z := 4.
Definition TCB_SIZE_BITS : Z := TCB_CNODE_RADIX + CTE_SIZE_BITS.
Definition TCB_BLOCK_SIZE_BITS : Z := TCB_SIZE_BITS + 1.
Definition TCB_OFFSET : Z := Z.shiftl 1 TCB_SIZE_BITS.
Definition PT_SIZE_BITS : Z := 8 + 2.
Definition PD_BITS : Z := 12.
Definition PD_SIZE_BITS : Z := PD_BITS + 2.
Definition asidHighBits : Z := 8.
Definition asidLowBits : Z := 10.
Definition asidInvalid : Z := 0.
Definition ASID_POOL_SIZE_BITS : Z := asidLowBits + 2.
Definition ARMSmallPage : Z := 0.
Definition ARMLargePage : Z := 1.
Definition ARMSection : Z := 2.
Definition ARMSuperSection : Z := 3.
Definition ARMSmallPageBits : Z := 12.
Definition ARMLargePageBits : Z := 16.
Definition ARMSectionBits : Z := 20.
Definition ARMSuperSectionBits : Z := 24.
Definition VMNoAccess : Z := 0.
Definition VMKernelOnly : Z := 1.
Definition VMReadOnly : Z := 2.
Definition VMReadWrite : Z := 3.

Definition pageBitsForSize (pagesize : Z) : Z :=
  if pagesize =? ARMSmallPage then ARMSmallPageBits
  else if pagesize =? ARMLargePage then ARMLargePageBits
  else if pagesize =? ARMSection then ARMSectionBits
  else ARMSuperSectionBits.

(** Addresses inside arrays and TCB blocks *)
Definition cte_at (base i : Z) : Z := base +w (wshl i CTE_SIZE_BITS).
Definition TCB_PTR_CTE_PTR (p i : Z) : Z :=
  cte_at (Z.land p (wnot (MASK TCB_BLOCK_SIZE_BITS))) i.
Definition tcbCTable : Z := 0.
Definition tcbVTable : Z := 1.
Definition tcbReply : Z := 2.
Definition tcbCaller : Z := 3.
Definition tcbBuffer : Z := 4.
Definition tcbCNodeEntries : Z := 5.

(** ** Exceptions and errors *)
Inductive exception_t :=
| EXCEPTION_NONE | EXCEPTION_FAULT | EXCEPTION_LOOKUP_FAULT
| EXCEPTION_SYSCALL_ERROR | EXCEPTION_PREEMPTED.
Global Instance exception_t_eq_dec : EqDecision exception_t.
Proof. solve_decision. Defined.

Definition seL4_NoError : Z := 0.
Definition seL4_InvalidArgument : Z := 1.
Definition seL4_InvalidCapability : Z := 2.
Definition seL4_IllegalOperation : Z := 3.
Definition seL4_RangeError : Z := 4.
Definition seL4_AlignmentError : Z := 5.
Definition seL4_FailedLookup : Z := 6.
Definition seL4_TruncatedMessage : Z := 7.
Definition seL4_DeleteFirst : Z := 8.
Definition seL4_RevokeFirst : Z := 9.
Definition seL4_NotEnoughMemory : Z := 10.

(** [struct syscall_error]; its [type] is [se_type]. *)
Record syscall_error := mk_syscall_error {
  invalidArgumentNumber : Z;
  invalidCapNumber : Z;
  rangeErrorMin : Z;
  rangeErrorMax : Z;
  memoryLeft : Z;
  failedLookupWasSource : bool;
  se_type : Z }.
Definition upd_invalidArgumentNumber (v : Z) (r : syscall_error) : syscall_error :=
    mk_syscall_error v r.(invalidCapNumber) r.(rangeErrorMin) r.(rangeErrorMax) r.(memoryLeft)
    r.(failedLookupWasSource) r.(se_type).
Definition upd_invalidCapNumber (v : Z) (r : syscall_error) : syscall_error :=
    mk_syscall_error r.(invalidArgumentNumber) v r.(rangeErrorMin) r.(rangeErrorMax)
    r.(memoryLeft) r.(failedLookupWasSource) r.(se_type).
Definition upd_rangeErrorMin (v : Z) (r : syscall_error) : syscall_error :=
    mk_syscall_error r.(invalidArgumentNumber) r.(invalidCapNumber) v r.(rangeErrorMax)
    r.(memoryLeft) r.(failedLookupWasSource) r.(se_type).
Definition upd_rangeErrorMax (v : Z) (r : syscall_error) : syscall_error :=
    mk_syscall_error r.(invalidArgumentNumber) r.(invalidCapNumber) r.(rangeErrorMin) v
    r.(memoryLeft) r.(failedLookupWasSource) r.(se_type).
Definition upd_memoryLeft (v : Z) (r : syscall_error) : syscall_error :=
    mk_syscall_error r.(invalidArgumentNumber) r.(invalidCapNumber) r.(rangeErrorMin)
    r.(rangeErrorMax) v r.(failedLookupWasSource) r.(se_type).
Definition upd_failedLookupWasSource (v : bool) (r : syscall_error) : syscall_error :=
    mk_syscall_error r.(invalidArgumentNumber) r.(invalidCapNumber) r.(rangeErrorMin)
    r.(rangeErrorMax) r.(memoryLeft) v r.(se_type).
Definition upd_se_type (v : Z) (r : syscall_error) : syscall_error :=
    mk_syscall_error r.(invalidArgumentNumber) r.(invalidCapNumber) r.(rangeErrorMin)
    r.(rangeErrorMax) r.(memoryLeft) r.(failedLookupWasSource) v.

(** ** Faults *)
Inductive lookup_fault :=
| lookup_fault_invalid_root
| lookup_fault_missing_capability (bitsLeft : Z)
| lookup_fault_depth_mismatch (bitsFound bitsLeft : Z)
| lookup_fault_guard_mismatch (guardFound bitsLeft bitsFound : Z).

Definition lookup_fault_missing_capability_new (bitsLeft : Z) : lookup_fault :=
  lookup_fault_missing_capability (field 6 bitsLeft).
Definition lookup_fault_depth_mismatch_new (bitsFound bitsLeft : Z) : lookup_fault :=
  lookup_fault_depth_mismatch (field 6 bitsFound) (field 6 bitsLeft).
Definition lookup_fault_guard_mismatch_new (guardFound bitsLeft bitsFound : Z) : lookup_fault :=
  lookup_fault_guard_mismatch (field 32 guardFound) (field 6 bitsLeft) (field 6 bitsFound).
Definition lookup_fault_get_lufType (luf : lookup_fault) : Z :=
  match luf with
  | lookup_fault_invalid_root => 0
  | lookup_fault_missing_capability _ => 1
  | lookup_fault_depth_mismatch _ _ => 2
  | lookup_fault_guard_mismatch _ _ _ => 3
  end.

Inductive fault :=
| fault_null_fault
| fault_cap_fault (address : Z) (inReceivePhase : bool)
| fault_vm_fault (address FSR : Z) (instructionFault : bool)
| fault_unknown_syscall (syscallNumber : Z)
| fault_user_exception (number code : Z).
Definition fault_cap_fault_new (address : Z) (inReceivePhase : bool) : fault :=
  fault_cap_fault (field 32 address) inReceivePhase.
Definition fault_vm_fault_new (address FSR : Z) (instructionFault : bool) : fault :=
  fault_vm_fault (field 32 address) (field 14 FSR) instructionFault.
Definition fault_unknown_syscall_new (n : Z) : fault := fault_unknown_syscall (field 32 n).
Definition fault_user_exception_new (number code : Z) : fault :=
  fault_user_exception (field 32 number) (field 29 code).
Definition fault_get_faultType (f : fault) : Z :=
  match f with
  | fault_null_fault => 0
  | fault_cap_fault _ _ => 1
  | fault_vm_fault _ _ _ => 2
  | fault_unknown_syscall _ => 3
  | fault_user_exception _ _ => 4
  end.

(** ** Capabilities *)
Inductive cap :=
| Cap_null
| Cap_untyped (capFreeIndex capBlockSize capPtr : Z)
| Cap_endpoint (capEPBadge : Z) (capCanGrant capCanSend capCanReceive : bool) (capEPPtr : Z)
| Cap_async_endpoint (capAEPBadge : Z) (capAEPCanSend capAEPCanReceive : bool) (capAEPPtr : Z)
| Cap_reply (capReplyMaster : bool) (capTCBPtr : Z)
| Cap_cnode (capCNodeRadix capCNodeGuardSize capCNodeGuard capCNodePtr : Z)
| Cap_thread (capTCBPtr : Z)
| Cap_irq_control
| Cap_irq_handler (capIRQ : Z)
| Cap_zombie (capZombieID capZombieType : Z)
| Cap_domain
| Cap_small_frame (capFMappedASIDLow capFVMRights capFMappedAddress capFMappedASIDHigh capFBasePtr : Z)
| Cap_frame (capFSize capFMappedASIDLow capFVMRights capFMappedAddress capFMappedASIDHigh capFBasePtr : Z)
| Cap_page_table (capPTIsMapped : bool) (capPTMappedASID capPTMappedAddress capPTBasePtr : Z)
| Cap_page_directory (capPDMappedASID : Z) (capPDIsMapped : bool) (capPDBasePtr : Z)
| Cap_asid_control
| Cap_asid_pool (capASIDBase capASIDPool : Z).
Global Instance cap_eq_dec : EqDecision cap.
Proof. solve_decision. Defined.

Inductive cap_tag :=
| cap_null_cap | cap_untyped_cap | cap_endpoint_cap | cap_async_endpoint_cap
| cap_reply_cap | cap_cnode_cap | cap_thread_cap | cap_irq_control_cap
| cap_irq_handler_cap | cap_zombie_cap | cap_domain_cap
| cap_small_frame_cap | cap_frame_cap | cap_asid_pool_cap | cap_page_table_cap
| cap_page_directory_cap | cap_asid_control_cap.
Global Instance cap_tag_eq_dec : EqDecision cap_tag.
Proof. solve_decision. Defined.

(** The numbers of the tags ([tagged_union cap capType]) *)
Definition cap_tag_value (t : cap_tag) : Z :=
  match t with
  | cap_null_cap => 0 | cap_untyped_cap => 2 | cap_endpoint_cap => 4
  | cap_async_endpoint_cap => 6 | cap_reply_cap => 8 | cap_cnode_cap => 10
  | cap_thread_cap => 12 | cap_small_frame_cap => 1 | cap_frame_cap => 3
  | cap_asid_pool_cap => 5 | cap_page_table_cap => 7 | cap_page_directory_cap => 9
  | cap_asid_control_cap => 11 | cap_irq_control_cap => 0x0e
  | cap_irq_handler_cap => 0x1e | cap_zombie_cap => 0x2e | cap_domain_cap => 0x3e
  end.

Definition cap_get_capType (c : cap) : cap_tag :=
  match c with
  | Cap_null => cap_null_cap
  | Cap_untyped _ _ _ => cap_untyped_cap
  | Cap_endpoint _ _ _ _ _ => cap_endpoint_cap
  | Cap_async_endpoint _ _ _ _ => cap_async_endpoint_cap
  | Cap_reply _ _ => cap_reply_cap
  | Cap_cnode _ _ _ _ => cap_cnode_cap
  | Cap_thread _ => cap_thread_cap
  | Cap_irq_control => cap_irq_control_cap
  | Cap_irq_handler _ => cap_irq_handler_cap
  | Cap_zombie _ _ => cap_zombie_cap
  | Cap_domain => cap_domain_cap
  | Cap_small_frame _ _ _ _ _ => cap_small_frame_cap
  | Cap_frame _ _ _ _ _ _ => cap_frame_cap
  | Cap_page_table _ _ _ _ => cap_page_table_cap
  | Cap_page_directory _ _ _ => cap_page_directory_cap
  | Cap_asid_control => cap_asid_control_cap
  | Cap_asid_pool _ _ => cap_asid_pool_cap
  end.

Definition isArchCap (c : cap) : bool := cap_tag_value (cap_get_capType c) mod 2 =? 1.

Definition cap_untyped_cap_new (freeIndex blockSize ptr : Z) : cap :=
  Cap_untyped (field 27 freeIndex) (field 5 blockSize) (field_high 28 ptr).
Definition cap_endpoint_cap_new (badge : Z) (grant send recv : bool) (ptr : Z) : cap :=
  Cap_endpoint (field 28 badge) grant send recv (field_high 28 ptr).
Definition cap_async_endpoint_cap_new (badge : Z) (send recv : bool) (ptr : Z) : cap :=
  Cap_async_endpoint (field 28 badge) send recv (field_high 28 ptr).
Definition cap_reply_cap_new (master : bool) (tcb : Z) : cap :=
  Cap_reply master (field_high 27 tcb).
Definition cap_cnode_cap_new (radix guardSize guard ptr : Z) : cap :=
  Cap_cnode (field 5 radix) (field 5 guardSize) (field 18 guard) (field_high 27 ptr).
Definition cap_thread_cap_new (tcb : Z) : cap := Cap_thread (field_high 28 tcb).
Definition cap_irq_handler_cap_new (irq : Z) : cap := Cap_irq_handler (field 8 irq).
Definition cap_zombie_cap_new (id type : Z) : cap := Cap_zombie (field 32 id) (field 6 type).
Definition cap_small_frame_cap_new (asidLow rights addr asidHigh base : Z) : cap :=
  Cap_small_frame (field 10 asidLow) (field 2 rights) (field_high 20 addr) (field 8 asidHigh)
    (field_high 20 base).
Definition cap_frame_cap_new (size asidLow rights addr asidHigh base : Z) : cap :=
  Cap_frame (field 2 size) (field 10 asidLow) (field 2 rights) (field_high 18 addr)
    (field 8 asidHigh) (field_high 18 base).
Definition cap_page_table_cap_new (mapped : bool) (asid addr base : Z) : cap :=
  Cap_page_table mapped (field 18 asid) (field_high 12 addr) (field_high 22 base).
Definition cap_page_directory_cap_new (mapped : bool) (asid base : Z) : cap :=
  Cap_page_directory (field 18 asid) mapped (field_high 18 base).
Definition cap_asid_pool_cap_new (base pool : Z) : cap :=
  Cap_asid_pool (field 18 base) (field_high 28 pool).

(** *** Zombies *)
Definition ZombieType_ZombieTCB : Z := BIT 5.
Definition ZombieType_ZombieCNode (n : Z) : Z := n &w MASK 5.

Definition Zombie_new (number type ptr : Z) : cap :=
  let mask :=
    if type =? ZombieType_ZombieTCB then MASK (TCB_CNODE_RADIX + 1) else MASK (type + 1) in
  cap_zombie_cap_new ((ptr &w wnot mask) |w (number &w mask)) type.

Definition zombie_bits (type : Z) : Z :=
  if type =? ZombieType_ZombieTCB then TCB_CNODE_RADIX else ZombieType_ZombieCNode type.
Definition zombie_number (id type : Z) : Z := id &w MASK (zombie_bits type + 1).
Definition zombie_ptr (id type : Z) : Z := id &w wnot (MASK (zombie_bits type + 1)).
Definition zombie_set_number (id type n : Z) : cap :=
  let ptr := id &w wnot (MASK (zombie_bits type + 1)) in
  Cap_zombie (field 32 (ptr |w (n &w MASK (zombie_bits type + 1)))) type.

(** *** Frames: the 4k frames have a capability type of their own *)
Definition asid_of (high low : Z) : Z := wshl high asidLowBits +w low.

Definition frame_set_MappedASID (c : cap) (asid : Z) : cap :=
  match c with
  | Cap_small_frame _ r a _ b =>
      Cap_small_frame (field 10 (asid &w MASK asidLowBits)) r a
        (field 8 ((asid >>w asidLowBits) &w MASK asidHighBits)) b
  | Cap_frame sz _ r a _ b =>
      Cap_frame sz (field 10 (asid &w MASK asidLowBits)) r a
        (field 8 ((asid >>w asidLowBits) &w MASK asidHighBits)) b
  | _ => c
  end.

Definition generic_frame_cap_get_capFMappedASID (c : cap) : Z :=
  match c with
  | Cap_small_frame lo _ _ hi _ => asid_of hi lo
  | Cap_frame _ lo _ _ hi _ => asid_of hi lo
  | _ => 0
  end.
Definition generic_frame_cap_get_capFVMRights (c : cap) : Z :=
  match c with
  | Cap_small_frame _ r _ _ _ => r
  | Cap_frame _ _ r _ _ _ => r
  | _ => VMNoAccess
  end.
Definition generic_frame_cap_get_capFBasePtr (c : cap) : Z :=
  match c with
  | Cap_small_frame _ _ _ _ b => b
  | Cap_frame _ _ _ _ _ b => b
  | _ => 0
  end.
Definition generic_frame_cap_get_capFSize (c : cap) : Z :=
  match c with
  | Cap_small_frame _ _ _ _ _ => ARMSmallPage
  | Cap_frame sz _ _ _ _ _ => sz
  | _ => 0
  end.
Definition generic_frame_cap_get_capFMappedAddress (c : cap) : Z :=
  match c with
  | Cap_small_frame _ _ a _ _ => a
  | Cap_frame _ _ _ a _ _ => a
  | _ => 0
  end.
Definition generic_frame_cap_get_capFIsMapped (c : cap) : bool :=
  negb (generic_frame_cap_get_capFMappedASID c =? 0).
Definition generic_frame_cap_set_capFMappedAddress (c : cap) (asid addr : Z) : cap :=
  match frame_set_MappedASID c asid with
  | Cap_small_frame lo r _ hi b => Cap_small_frame lo r (field_high 20 addr) hi b
  | Cap_frame sz lo r _ hi b => Cap_frame sz lo r (field_high 18 addr) hi b
  | c' => c'
  end.

(** *** The memory a capability covers *)
Definition cap_get_capSizeBits (c : cap) : Z :=
  match c with
  | Cap_untyped _ blockSize _ => blockSize
  | Cap_endpoint _ _ _ _ _ => EP_SIZE_BITS
  | Cap_async_endpoint _ _ _ _ => AEP_SIZE_BITS
  | Cap_cnode radix _ _ _ => radix + CTE_SIZE_BITS
  | Cap_thread _ => TCB_BLOCK_SIZE_BITS
  | Cap_small_frame _ _ _ _ _ | Cap_frame _ _ _ _ _ _ =>
      pageBitsForSize (generic_frame_cap_get_capFSize c)
  | Cap_page_table _ _ _ _ => PT_SIZE_BITS
  | Cap_page_directory _ _ _ => PD_SIZE_BITS
  | Cap_asid_pool _ _ => ASID_POOL_SIZE_BITS
  | Cap_zombie _ type =>
      if type =? ZombieType_ZombieTCB then TCB_BLOCK_SIZE_BITS
      else ZombieType_ZombieCNode type + CTE_SIZE_BITS
  | Cap_null | Cap_domain | Cap_reply _ _ | Cap_irq_control | Cap_irq_handler _
  | Cap_asid_control => 0
  end.

Definition cap_get_capPtr (c : cap) : Z :=
  match c with
  | Cap_untyped _ _ ptr => ptr
  | Cap_endpoint _ _ _ _ ptr => ptr
  | Cap_async_endpoint _ _ _ ptr => ptr
  | Cap_cnode _ _ _ ptr => ptr
  | Cap_thread tcb => TCB_PTR_CTE_PTR tcb 0
  | Cap_small_frame _ _ _ _ _ | Cap_frame _ _ _ _ _ _ => generic_frame_cap_get_capFBasePtr c
  | Cap_page_table _ _ _ base => base
  | Cap_page_directory _ _ base => base
  | Cap_asid_pool _ pool => pool
  | Cap_zombie id type => zombie_ptr id type
  | Cap_null | Cap_domain | Cap_reply _ _ | Cap_irq_control | Cap_irq_handler _
  | Cap_asid_control => NULL
  end.

(** ** Capability table entries and the mapping database *)
Record mdb_node := mk_mdb_node {
  mdbNext : Z;
  mdbRevocable : bool;
  mdbFirstBadged : bool;
  mdbPrev : Z }.
Definition upd_mdbNext (v : Z) (r : mdb_node) : mdb_node :=
    mk_mdb_node v r.(mdbRevocable) r.(mdbFirstBadged) r.(mdbPrev).
Definition upd_mdbRevocable (v : bool) (r : mdb_node) : mdb_node :=
    mk_mdb_node r.(mdbNext) v r.(mdbFirstBadged) r.(mdbPrev).
Definition upd_mdbFirstBadged (v : bool) (r : mdb_node) : mdb_node :=
    mk_mdb_node r.(mdbNext) r.(mdbRevocable) v r.(mdbPrev).
Definition upd_mdbPrev (v : Z) (r : mdb_node) : mdb_node :=
    mk_mdb_node r.(mdbNext) r.(mdbRevocable) r.(mdbFirstBadged) v.

Definition mdb_node_new (next : Z) (revocable firstBadged : bool) (prev : Z) : mdb_node :=
  mk_mdb_node (field_high 29 next) revocable firstBadged (field_high 29 prev).
Definition nullMDBNode : mdb_node := mdb_node_new 0 false false 0.
Definition mdb_node_set_mdbNext (v : Z) : mdb_node -> mdb_node := upd_mdbNext (field_high 29 v).
Definition mdb_node_set_mdbPrev (v : Z) : mdb_node -> mdb_node := upd_mdbPrev (field_high 29 v).
Definition mdb_node_set_mdbRevocable (v : bool) : mdb_node -> mdb_node := upd_mdbRevocable v.
Definition mdb_node_set_mdbFirstBadged (v : bool) : mdb_node -> mdb_node := upd_mdbFirstBadged v.

(** [struct cte]; its [cap] is [cte_cap]. *)
Record cte := mk_cte {
  cte_cap : cap;
  cteMDBNode : mdb_node }.
Definition upd_cte_cap (v : cap) (r : cte) : cte :=
    mk_cte v r.(cteMDBNode).
Definition upd_cteMDBNode (v : mdb_node) (r : cte) : cte :=
    mk_cte r.(cte_cap) v.

(** ** Threads *)
Inductive thread_state_type :=
| ThreadState_Inactive | ThreadState_Running | ThreadState_Restart
| ThreadState_BlockedOnReceive | ThreadState_BlockedOnSend | ThreadState_BlockedOnReply
| ThreadState_BlockedOnAsyncEvent | ThreadState_IdleThreadState.
Global Instance thread_state_type_eq_dec : EqDecision thread_state_type.
Proof. solve_decision. Defined.

Record thread_state := mk_thread_state {
  blockingIPCBadge : Z;
  blockingIPCCanGrant : bool;
  blockingIPCIsCall : bool;
  tcbQueued : bool;
  blockingIPCDiminishCaps : bool;
  blockingIPCEndpoint : Z;
  tsType : thread_state_type }.
Definition upd_blockingIPCBadge (v : Z) (r : thread_state) : thread_state :=
    mk_thread_state v r.(blockingIPCCanGrant) r.(blockingIPCIsCall) r.(tcbQueued)
    r.(blockingIPCDiminishCaps) r.(blockingIPCEndpoint) r.(tsType).
Definition upd_blockingIPCCanGrant (v : bool) (r : thread_state) : thread_state :=
    mk_thread_state r.(blockingIPCBadge) v r.(blockingIPCIsCall) r.(tcbQueued)
    r.(blockingIPCDiminishCaps) r.(blockingIPCEndpoint) r.(tsType).
Definition upd_blockingIPCIsCall (v : bool) (r : thread_state) : thread_state :=
    mk_thread_state r.(blockingIPCBadge) r.(blockingIPCCanGrant) v r.(tcbQueued)
    r.(blockingIPCDiminishCaps) r.(blockingIPCEndpoint) r.(tsType).
Definition upd_tcbQueued (v : bool) (r : thread_state) : thread_state :=
    mk_thread_state r.(blockingIPCBadge) r.(blockingIPCCanGrant) r.(blockingIPCIsCall) v
    r.(blockingIPCDiminishCaps) r.(blockingIPCEndpoint) r.(tsType).
Definition upd_blockingIPCDiminishCaps (v : bool) (r : thread_state) : thread_state :=
    mk_thread_state r.(blockingIPCBadge) r.(blockingIPCCanGrant) r.(blockingIPCIsCall)
    r.(tcbQueued) v r.(blockingIPCEndpoint) r.(tsType).
Definition upd_blockingIPCEndpoint (v : Z) (r : thread_state) : thread_state :=
    mk_thread_state r.(blockingIPCBadge) r.(blockingIPCCanGrant) r.(blockingIPCIsCall)
    r.(tcbQueued) r.(blockingIPCDiminishCaps) v r.(tsType).
Definition upd_tsType (v : thread_state_type) (r : thread_state) : thread_state :=
    mk_thread_state r.(blockingIPCBadge) r.(blockingIPCCanGrant) r.(blockingIPCIsCall)
    r.(tcbQueued) r.(blockingIPCDiminishCaps) r.(blockingIPCEndpoint) v.

Definition thread_state_set_blockingIPCBadge (v : Z) : thread_state -> thread_state :=
  upd_blockingIPCBadge (field 28 v).
Definition thread_state_set_blockingIPCEndpoint (v : Z) : thread_state -> thread_state :=
  upd_blockingIPCEndpoint (field_high 28 v).

Record tcb := mk_tcb {
  tcbContext : list Z;
  tcbState : thread_state;
  tcbFault : fault;
  tcbLookupFailure : lookup_fault;
  tcbDomain : Z;
  tcbPriority : Z;
  tcbPolicy : Z;
  tcbTimeSlice : Z;
  tcbFaultHandler : Z;
  tcbIPCBuffer : Z;
  tcbSchedNext : Z;
  tcbSchedPrev : Z;
  tcbEPNext : Z;
  tcbEPPrev : Z }.
Definition upd_tcbContext (v : list Z) (r : tcb) : tcb :=
    mk_tcb v r.(tcbState) r.(tcbFault) r.(tcbLookupFailure) r.(tcbDomain) r.(tcbPriority)
    r.(tcbPolicy) r.(tcbTimeSlice) r.(tcbFaultHandler) r.(tcbIPCBuffer) r.(tcbSchedNext)
    r.(tcbSchedPrev) r.(tcbEPNext) r.(tcbEPPrev).
Definition upd_tcbState (v : thread_state) (r : tcb) : tcb :=
    mk_tcb r.(tcbContext) v r.(tcbFault) r.(tcbLookupFailure) r.(tcbDomain) r.(tcbPriority)
    r.(tcbPolicy) r.(tcbTimeSlice) r.(tcbFaultHandler) r.(tcbIPCBuffer) r.(tcbSchedNext)
    r.(tcbSchedPrev) r.(tcbEPNext) r.(tcbEPPrev).
Definition upd_tcbFault (v : fault) (r : tcb) : tcb :=
    mk_tcb r.(tcbContext) r.(tcbState) v r.(tcbLookupFailure) r.(tcbDomain) r.(tcbPriority)
    r.(tcbPolicy) r.(tcbTimeSlice) r.(tcbFaultHandler) r.(tcbIPCBuffer) r.(tcbSchedNext)
    r.(tcbSchedPrev) r.(tcbEPNext) r.(tcbEPPrev).
Definition upd_tcbLookupFailure (v : lookup_fault) (r : tcb) : tcb :=
    mk_tcb r.(tcbContext) r.(tcbState) r.(tcbFault) v r.(tcbDomain) r.(tcbPriority)
    r.(tcbPolicy) r.(tcbTimeSlice) r.(tcbFaultHandler) r.(tcbIPCBuffer) r.(tcbSchedNext)
    r.(tcbSchedPrev) r.(tcbEPNext) r.(tcbEPPrev).
Definition upd_tcbDomain (v : Z) (r : tcb) : tcb :=
    mk_tcb r.(tcbContext) r.(tcbState) r.(tcbFault) r.(tcbLookupFailure) v r.(tcbPriority)
    r.(tcbPolicy) r.(tcbTimeSlice) r.(tcbFaultHandler) r.(tcbIPCBuffer) r.(tcbSchedNext)
    r.(tcbSchedPrev) r.(tcbEPNext) r.(tcbEPPrev).
Definition upd_tcbPriority (v : Z) (r : tcb) : tcb :=
    mk_tcb r.(tcbContext) r.(tcbState) r.(tcbFault) r.(tcbLookupFailure) r.(tcbDomain) v
    r.(tcbPolicy) r.(tcbTimeSlice) r.(tcbFaultHandler) r.(tcbIPCBuffer) r.(tcbSchedNext)
    r.(tcbSchedPrev) r.(tcbEPNext) r.(tcbEPPrev).
Definition upd_tcbPolicy (v : Z) (r : tcb) : tcb :=
    mk_tcb r.(tcbContext) r.(tcbState) r.(tcbFault) r.(tcbLookupFailure) r.(tcbDomain)
    r.(tcbPriority) v r.(tcbTimeSlice) r.(tcbFaultHandler) r.(tcbIPCBuffer) r.(tcbSchedNext)
    r.(tcbSchedPrev) r.(tcbEPNext) r.(tcbEPPrev).
Definition upd_tcbTimeSlice (v : Z) (r : tcb) : tcb :=
    mk_tcb r.(tcbContext) r.(tcbState) r.(tcbFault) r.(tcbLookupFailure) r.(tcbDomain)
    r.(tcbPriority) r.(tcbPolicy) v r.(tcbFaultHandler) r.(tcbIPCBuffer) r.(tcbSchedNext)
    r.(tcbSchedPrev) r.(tcbEPNext) r.(tcbEPPrev).
Definition upd_tcbFaultHandler (v : Z) (r : tcb) : tcb :=
    mk_tcb r.(tcbContext) r.(tcbState) r.(tcbFault) r.(tcbLookupFailure) r.(tcbDomain)
    r.(tcbPriority) r.(tcbPolicy) r.(tcbTimeSlice) v r.(tcbIPCBuffer) r.(tcbSchedNext)
    r.(tcbSchedPrev) r.(tcbEPNext) r.(tcbEPPrev).
Definition upd_tcbIPCBuffer (v : Z) (r : tcb) : tcb :=
    mk_tcb r.(tcbContext) r.(tcbState) r.(tcbFault) r.(tcbLookupFailure) r.(tcbDomain)
    r.(tcbPriority) r.(tcbPolicy) r.(tcbTimeSlice) r.(tcbFaultHandler) v r.(tcbSchedNext)
    r.(tcbSchedPrev) r.(tcbEPNext) r.(tcbEPPrev).
Definition upd_tcbSchedNext (v : Z) (r : tcb) : tcb :=
    mk_tcb r.(tcbContext) r.(tcbState) r.(tcbFault) r.(tcbLookupFailure) r.(tcbDomain)
    r.(tcbPriority) r.(tcbPolicy) r.(tcbTimeSlice) r.(tcbFaultHandler) r.(tcbIPCBuffer) v
    r.(tcbSchedPrev) r.(tcbEPNext) r.(tcbEPPrev).
Definition upd_tcbSchedPrev (v : Z) (r : tcb) : tcb :=
    mk_tcb r.(tcbContext) r.(tcbState) r.(tcbFault) r.(tcbLookupFailure) r.(tcbDomain)
    r.(tcbPriority) r.(tcbPolicy) r.(tcbTimeSlice) r.(tcbFaultHandler) r.(tcbIPCBuffer)
    r.(tcbSchedNext) v r.(tcbEPNext) r.(tcbEPPrev).
Definition upd_tcbEPNext (v : Z) (r : tcb) : tcb :=
    mk_tcb r.(tcbContext) r.(tcbState) r.(tcbFault) r.(tcbLookupFailure) r.(tcbDomain)
    r.(tcbPriority) r.(tcbPolicy) r.(tcbTimeSlice) r.(tcbFaultHandler) r.(tcbIPCBuffer)
    r.(tcbSchedNext) r.(tcbSchedPrev) v r.(tcbEPPrev).
Definition upd_tcbEPPrev (v : Z) (r : tcb) : tcb :=
    mk_tcb r.(tcbContext) r.(tcbState) r.(tcbFault) r.(tcbLookupFailure) r.(tcbDomain)
    r.(tcbPriority) r.(tcbPolicy) r.(tcbTimeSlice) r.(tcbFaultHandler) r.(tcbIPCBuffer)
    r.(tcbSchedNext) r.(tcbSchedPrev) r.(tcbEPNext) v.

Definition thread_state_zero : thread_state :=
  mk_thread_state 0 false false false false 0 ThreadState_Inactive.
(** A zeroed TCB *)
Definition tcb_zero : tcb :=
  mk_tcb (replicate 18 0) thread_state_zero fault_null_fault lookup_fault_invalid_root
    0 0 0 0 0 0 0 0 0 0.

(** *** Registers (include/arch/arm/arch/machine/registerset.h, registerset.c) *)
Definition n_msgRegisters : Z := 4.
Definition n_frameRegisters : Z := 10.
Definition n_gpRegisters : Z := 7.
Definition n_exceptionMessage : Z := 3.
Definition n_syscallMessage : Z := 12.
Definition capRegister : Z := 0.
Definition badgeRegister : Z := 0.
Definition msgInfoRegister : Z := 1.
Definition SP : Z := 13.
Definition LR : Z := 14.
Definition LR_svc : Z := 15.
Definition CPSR : Z := 16.
Definition FaultInstruction : Z := 17.
Definition msgRegisters : list Z := [2; 3; 4; 5].
Definition frameRegisters : list Z := [FaultInstruction; SP; CPSR; 0; 1; 8; 9; 10; 11; 12].
Definition gpRegisters : list Z := [2; 3; 4; 5; 6; 7; 14].
Definition exceptionMessage : list Z := [FaultInstruction; SP; CPSR].
Definition syscallMessage : list Z := [0; 1; 2; 3; 4; 5; 6; 7; FaultInstruction; SP; LR; CPSR].
(* a build without DEBUG: PMASK_ASYNC_ABORT (machine/hardware.h) *)
Definition CPSR_EXTRA_FLAGS : Z := Z.shiftl 1 8.
Definition CPSR_USER : Z := Z.lor (Z.lor (Z.shiftl 1 6) 0x10) CPSR_EXTRA_FLAGS.
Definition CPSR_IDLETHREAD : Z := Z.lor (Z.lor (Z.shiftl 1 6) 0x13) CPSR_EXTRA_FLAGS.
Definition Arch_initContext (context : list Z) : list Z := <[Z.to_nat CPSR := CPSR_USER]> context.
Definition sanitiseRegister (reg v : Z) : Z :=
  if reg =? CPSR then Z.lor (Z.land v 0xf8000000) CPSR_USER else v.

(** ** Queues, endpoints *)
Record tcb_queue := mk_queue { q_head : Z; q_end : Z }.

Inductive endpoint_state := EPState_Idle | EPState_Send | EPState_Recv.
Global Instance endpoint_state_eq_dec : EqDecision endpoint_state.
Proof. solve_decision. Defined.
Record endpoint := mk_endpoint {
  epQueue_head : Z;
  epQueue_tail : Z;
  ep_state : endpoint_state }.
Definition upd_epQueue_head (v : Z) (r : endpoint) : endpoint :=
    mk_endpoint v r.(epQueue_tail) r.(ep_state).
Definition upd_epQueue_tail (v : Z) (r : endpoint) : endpoint :=
    mk_endpoint r.(epQueue_head) v r.(ep_state).
Definition upd_ep_state (v : endpoint_state) (r : endpoint) : endpoint :=
    mk_endpoint r.(epQueue_head) r.(epQueue_tail) v.

Inductive async_endpoint_state := AEPState_Idle | AEPState_Waiting | AEPState_Active.
Global Instance async_endpoint_state_eq_dec : EqDecision async_endpoint_state.
Proof. solve_decision. Defined.
Record async_endpoint := mk_async_endpoint {
  aepData : Z;
  aepMsgIdentifier : Z;
  aepQueue_head : Z;
  aepQueue_tail : Z;
  aep_state : async_endpoint_state }.
Definition upd_aepData (v : Z) (r : async_endpoint) : async_endpoint :=
    mk_async_endpoint v r.(aepMsgIdentifier) r.(aepQueue_head) r.(aepQueue_tail) r.(aep_state).
Definition upd_aepMsgIdentifier (v : Z) (r : async_endpoint) : async_endpoint :=
    mk_async_endpoint r.(aepData) v r.(aepQueue_head) r.(aepQueue_tail) r.(aep_state).
Definition upd_aepQueue_head (v : Z) (r : async_endpoint) : async_endpoint :=
    mk_async_endpoint r.(aepData) r.(aepMsgIdentifier) v r.(aepQueue_tail) r.(aep_state).
Definition upd_aepQueue_tail (v : Z) (r : async_endpoint) : async_endpoint :=
    mk_async_endpoint r.(aepData) r.(aepMsgIdentifier) r.(aepQueue_head) v r.(aep_state).
Definition upd_aep_state (v : async_endpoint_state) (r : async_endpoint) : async_endpoint :=
    mk_async_endpoint r.(aepData) r.(aepMsgIdentifier) r.(aepQueue_head) r.(aepQueue_tail) v.

Definition ep_ptr_get_queue (e : endpoint) : tcb_queue :=
  mk_queue e.(epQueue_head) e.(epQueue_tail).
Definition ep_ptr_set_queue (q : tcb_queue) (e : endpoint) : endpoint :=
  upd_epQueue_tail (field_high 28 q.(q_end)) (upd_epQueue_head (field_high 28 q.(q_head)) e).
Definition aep_ptr_get_queue (e : async_endpoint) : tcb_queue :=
  mk_queue e.(aepQueue_head) e.(aepQueue_tail).
Definition aep_ptr_set_queue (q : tcb_queue) (e : async_endpoint) : async_endpoint :=
  upd_aepQueue_tail (field_high 28 q.(q_end)) (upd_aepQueue_head (field_high 28 q.(q_head)) e).

Inductive irq_state := IRQInactive | IRQNotifyAEP | IRQTimer | IRQReserved.
Global Instance irq_state_eq_dec : EqDecision irq_state.
Proof. solve_decision. Defined.

(** ** Message information and rights: packed words *)
Definition message_info_get_msgLabel (mi : Z) : Z := bf_get mi 12 20.
Definition message_info_get_msgCapsUnwrapped (mi : Z) : Z := bf_get mi 9 3.
Definition message_info_get_msgExtraCaps (mi : Z) : Z := bf_get mi 7 2.
Definition message_info_get_msgLength (mi : Z) : Z := bf_get mi 0 7.
Definition message_info_set_msgCapsUnwrapped (mi v : Z) : Z := bf_set mi 9 3 v.
Definition message_info_set_msgExtraCaps (mi v : Z) : Z := bf_set mi 7 2 v.
Definition message_info_set_msgLength (mi v : Z) : Z := bf_set mi 0 7 v.
Definition message_info_new (label capsUnwrapped extraCaps length : Z) : Z :=
  Z.lor (Z.lor (Z.lor (Z.shiftl (field 20 label) 12) (Z.shiftl (field 3 capsUnwrapped) 9))
    (Z.shiftl (field 2 extraCaps) 7)) (field 7 length).
Definition messageInfoFromWord (w : Z) : Z :=
  if message_info_get_msgLength w >? seL4_MsgMaxLength
  then message_info_set_msgLength w seL4_MsgMaxLength else w.
Definition wordFromMessageInfo (mi : Z) : Z := mi.

(** [cap_rights_t] *)
Definition cap_rights_get_capAllowGrant (r : Z) : bool := bf_flag r 2.
Definition cap_rights_get_capAllowRead (r : Z) : bool := bf_flag r 1.
Definition cap_rights_get_capAllowWrite (r : Z) : bool := bf_flag r 0.
Definition cap_rights_new (grant read write : bool) : Z :=
  Z.lor (Z.lor (Z.shiftl (bool_word grant) 2) (Z.shiftl (bool_word read) 1)) (bool_word write).
Definition rightsFromWord (w : Z) : Z := w.
Definition wordFromRights (r : Z) : Z := Z.land r (MASK 3).
Definition allRights : Z := cap_rights_new true true true.
Definition noWrite : Z := cap_rights_new true true false.

(** [cnode_capdata] *)
Definition cnode_capdata_get_guard (w : Z) : Z := bf_get w 8 18.
Definition cnode_capdata_get_guardSize (w : Z) : Z := bf_get w 3 5.

(** [cap_transfer_t] *)
Record cap_transfer := mk_cap_transfer {
  ctReceiveRoot : Z; ctReceiveIndex : Z; ctReceiveDepth : Z }.

(** ** Invocation labels

    The numbering of libsel4's interface descriptions: sel4.xml from 1 on, then
    sel4arch.xml. *)
Definition InvalidInvocation : Z := 0.
Definition UntypedRetype : Z := 1.
Definition TCBReadRegisters : Z := 2.
Definition TCBWriteRegisters : Z := 3.
Definition TCBCopyRegisters : Z := 4.
Definition TCBConfigure : Z := 5.
Definition TCBSetPriority : Z := 6.
Definition TCBSetPolicy : Z := 7.
Definition TCBSetIPCBuffer : Z := 8.
Definition TCBSetSpace : Z := 9.
Definition TCBSuspend : Z := 10.
Definition TCBResume : Z := 11.
Definition CNodeRevoke : Z := 12.
Definition CNodeDelete : Z := 13.
Definition CNodeRecycle : Z := 14.
Definition CNodeCopy : Z := 15.
Definition CNodeMint : Z := 16.
Definition CNodeMove : Z := 17.
Definition CNodeMutate : Z := 18.
Definition CNodeRotate : Z := 19.
Definition CNodeSaveCaller : Z := 20.
Definition IRQIssueIRQHandler : Z := 21.
Definition IRQInterruptControl : Z := 22.
Definition IRQAckIRQ : Z := 23.
Definition IRQSetIRQHandler : Z := 24.
Definition IRQClearIRQHandler : Z := 25.
Definition IRQSetMode : Z := 26.
Definition DomainSetSet : Z := 27.
Definition ARMPDClean_Data : Z := 28.
Definition ARMPDInvalidate_Data : Z := 29.
Definition ARMPDCleanInvalidate_Data : Z := 30.
Definition ARMPDUnify_Instruction : Z := 31.
Definition ARMPageTableMap : Z := 32.
Definition ARMPageTableUnmap : Z := 33.
Definition ARMPageMap : Z := 34.
Definition ARMPageRemap : Z := 35.
Definition ARMPageUnmap : Z := 36.
Definition ARMPageClean_Data : Z := 37.
Definition ARMPageInvalidate_Data : Z := 38.
Definition ARMPageCleanInvalidate_Data : Z := 39.
Definition ARMPageUnify_Instruction : Z := 40.
Definition ARMPageGetAddress : Z := 41.
Definition ARMASIDControlMakePool : Z := 42.
Definition ARMASIDPoolAssign : Z := 43.

(** [vm_attributes_t] *)
Definition vmAttributesFromWord (w : Z) : Z := w.
Definition vm_attributes_get_armExecuteNever (a : Z) : bool := bf_flag a 2.
Definition vm_attributes_get_armParityEnabled (a : Z) : bool := bf_flag a 1.
Definition vm_attributes_get_armPageCacheable (a : Z) : bool := bf_flag a 0.
