(* ===== verification/KernelState.v ===== *)
(** * The kernel state

    The globals of src/model/statedata.c and src/arch/arm/model/statedata.c, the
    kernel objects reached through pointers, the frames' memory as words, and the
    hardware the kernel drives; the monad [K] of kernel functions and the
    accesses its functions are made of.

    Objects live in one map per type, keyed by address, and an access through a
    pointer to an address that holds no object of the type is [Undefined]. The
    hardware registers the kernel reads are input streams of [hw_state], and
    what it writes is appended to [hw_log]. *)
From stdpp Require Import base list gmap.
From Stdlib Require Import ZArith Lia.
From S2P Require Import Prelude.
From S2P Require Import Structures.

(** ** Hardware operations and their log *)
Inductive hw_op :=
| HwEnableClr (word bits : Z)        (* gic_dist->enable_clr[word] = bits *)
| HwEnableSet (word bits : Z)        (* gic_dist->enable_set[word] = bits *)
| HwPendingClr (word bits : Z)       (* gic_dist->pending_clr[word] = bits *)
| HwEoi (irq : Z)                    (* gic_cpuiface->eoi = irq *)
| HwTimerInts (v : Z)                (* priv_timer->ints = v *)
| HwWriteTTBR0 (addr : Z)
| HwWriteContextID (id : Z)
| HwClearExMonitor
| HwInvalidateTLB_ASID (hw_asid : Z)
| HwInvalidateTLB_VAASID (mva : Z)
| HwCleanByVA_PoU (va pa : Z)
| HwCleanCacheRange_PoU (start last pstart : Z)
| HwCleanCacheRange_RAM (start last pstart : Z)
| HwCleanCaches_PoU
| HwInvalidateCacheRange_RAM (start last pstart : Z)
| HwCleanInvalidateCacheRange_RAM (start last pstart : Z)
| HwInvalidateCacheRange_I (start last pstart : Z)
| HwBranchFlushRange (start last pstart : Z).

(** [hw_int_ack] and [hw_hi_pend] are the values successive reads of the GIC's
    int_ack and hi_pend registers return (IRQ_NONE once exhausted),
    [hw_gic_config] the contents of its config registers, [active_irq] the
    static variable of gic_pl390.c. *)
Record hw_state := mk_hw_state {
  hw_int_ack : list Z;
  hw_hi_pend : list Z;
  hw_gic_config : Z -> Z;
  active_irq : Z;
  hw_faultAddress : Z;
  hw_dataFaultStatus : Z;
  hw_instFaultStatus : Z;
  hw_log : list hw_op }.
Definition upd_hw_int_ack (v : list Z) (r : hw_state) : hw_state :=
    mk_hw_state v r.(hw_hi_pend) r.(hw_gic_config) r.(active_irq) r.(hw_faultAddress)
    r.(hw_dataFaultStatus) r.(hw_instFaultStatus) r.(hw_log).
Definition upd_hw_hi_pend (v : list Z) (r : hw_state) : hw_state :=
    mk_hw_state r.(hw_int_ack) v r.(hw_gic_config) r.(active_irq) r.(hw_faultAddress)
    r.(hw_dataFaultStatus) r.(hw_instFaultStatus) r.(hw_log).
Definition upd_hw_gic_config (v : Z -> Z) (r : hw_state) : hw_state :=
    mk_hw_state r.(hw_int_ack) r.(hw_hi_pend) v r.(active_irq) r.(hw_faultAddress)
    r.(hw_dataFaultStatus) r.(hw_instFaultStatus) r.(hw_log).
Definition upd_active_irq (v : Z) (r : hw_state) : hw_state :=
    mk_hw_state r.(hw_int_ack) r.(hw_hi_pend) r.(hw_gic_config) v r.(hw_faultAddress)
    r.(hw_dataFaultStatus) r.(hw_instFaultStatus) r.(hw_log).
Definition upd_hw_faultAddress (v : Z) (r : hw_state) : hw_state :=
    mk_hw_state r.(hw_int_ack) r.(hw_hi_pend) r.(hw_gic_config) r.(active_irq) v
    r.(hw_dataFaultStatus) r.(hw_instFaultStatus) r.(hw_log).
Definition upd_hw_dataFaultStatus (v : Z) (r : hw_state) : hw_state :=
    mk_hw_state r.(hw_int_ack) r.(hw_hi_pend) r.(hw_gic_config) r.(active_irq)
    r.(hw_faultAddress) v r.(hw_instFaultStatus) r.(hw_log).
Definition upd_hw_instFaultStatus (v : Z) (r : hw_state) : hw_state :=
    mk_hw_state r.(hw_int_ack) r.(hw_hi_pend) r.(hw_gic_config) r.(active_irq)
    r.(hw_faultAddress) r.(hw_dataFaultStatus) v r.(hw_log).
Definition upd_hw_log (v : list hw_op) (r : hw_state) : hw_state :=
    mk_hw_state r.(hw_int_ack) r.(hw_hi_pend) r.(hw_gic_config) r.(active_irq)
    r.(hw_faultAddress) r.(hw_dataFaultStatus) r.(hw_instFaultStatus) v.

(** ** Kernel state *)
Record kstate := mk_kstate {
  ksCtes : gmap Z cte;
  ksTcbs : gmap Z tcb;
  ksEps : gmap Z endpoint;
  ksAeps : gmap Z async_endpoint;
  ksMem : Z -> option Z;
  ksReadyQueues : gmap Z tcb_queue;
  ksCurThread : Z;
  ksIdleThread : Z;
  ksSchedulerAction : Z;
  ksWorkUnitsCompleted : Z;
  intStateIRQTable : gmap Z irq_state;
  intStateIRQNode : Z;
  ksCurDomain : Z;
  ksDomainTime : Z;
  ksDomScheduleIdx : Z;
  current_lookup_fault : lookup_fault;
  current_fault : fault;
  current_syscall_error : syscall_error;
  current_extra_caps : list Z;
  armKSASIDTable : gmap Z Z;
  armKSHWASIDTable : gmap Z Z;
  armKSNextASID : Z;
  armKSGlobalsFrame : Z;
  armKSGlobalPD : Z;
  ksHw : hw_state }.
Definition upd_ksCtes (v : gmap Z cte) (r : kstate) : kstate :=
    mk_kstate v r.(ksTcbs) r.(ksEps) r.(ksAeps) r.(ksMem) r.(ksReadyQueues) r.(ksCurThread)
    r.(ksIdleThread) r.(ksSchedulerAction) r.(ksWorkUnitsCompleted) r.(intStateIRQTable)
    r.(intStateIRQNode) r.(ksCurDomain) r.(ksDomainTime) r.(ksDomScheduleIdx)
    r.(current_lookup_fault) r.(current_fault) r.(current_syscall_error) r.(current_extra_caps)
    r.(armKSASIDTable) r.(armKSHWASIDTable) r.(armKSNextASID) r.(armKSGlobalsFrame)
    r.(armKSGlobalPD) r.(ksHw).
Definition upd_ksTcbs (v : gmap Z tcb) (r : kstate) : kstate :=
    mk_kstate r.(ksCtes) v r.(ksEps) r.(ksAeps) r.(ksMem) r.(ksReadyQueues) r.(ksCurThread)
    r.(ksIdleThread) r.(ksSchedulerAction) r.(ksWorkUnitsCompleted) r.(intStateIRQTable)
    r.(intStateIRQNode) r.(ksCurDomain) r.(ksDomainTime) r.(ksDomScheduleIdx)
    r.(current_lookup_fault) r.(current_fault) r.(current_syscall_error) r.(current_extra_caps)
    r.(armKSASIDTable) r.(armKSHWASIDTable) r.(armKSNextASID) r.(armKSGlobalsFrame)
    r.(armKSGlobalPD) r.(ksHw).
Definition upd_ksEps (v : gmap Z endpoint) (r : kstate) : kstate :=
    mk_kstate r.(ksCtes) r.(ksTcbs) v r.(ksAeps) r.(ksMem) r.(ksReadyQueues) r.(ksCurThread)
    r.(ksIdleThread) r.(ksSchedulerAction) r.(ksWorkUnitsCompleted) r.(intStateIRQTable)
    r.(intStateIRQNode) r.(ksCurDomain) r.(ksDomainTime) r.(ksDomScheduleIdx)
    r.(current_lookup_fault) r.(current_fault) r.(current_syscall_error) r.(current_extra_caps)
    r.(armKSASIDTable) r.(armKSHWASIDTable) r.(armKSNextASID) r.(armKSGlobalsFrame)
    r.(armKSGlobalPD) r.(ksHw).
Definition upd_ksAeps (v : gmap Z async_endpoint) (r : kstate) : kstate :=
    mk_kstate r.(ksCtes) r.(ksTcbs) r.(ksEps) v r.(ksMem) r.(ksReadyQueues) r.(ksCurThread)
    r.(ksIdleThread) r.(ksSchedulerAction) r.(ksWorkUnitsCompleted) r.(intStateIRQTable)
    r.(intStateIRQNode) r.(ksCurDomain) r.(ksDomainTime) r.(ksDomScheduleIdx)
    r.(current_lookup_fault) r.(current_fault) r.(current_syscall_error) r.(current_extra_caps)
    r.(armKSASIDTable) r.(armKSHWASIDTable) r.(armKSNextASID) r.(armKSGlobalsFrame)
    r.(armKSGlobalPD) r.(ksHw).
Definition upd_ksMem (v : Z -> option Z) (r : kstate) : kstate :=
    mk_kstate r.(ksCtes) r.(ksTcbs) r.(ksEps) r.(ksAeps) v r.(ksReadyQueues) r.(ksCurThread)
    r.(ksIdleThread) r.(ksSchedulerAction) r.(ksWorkUnitsCompleted) r.(intStateIRQTable)
    r.(intStateIRQNode) r.(ksCurDomain) r.(ksDomainTime) r.(ksDomScheduleIdx)
    r.(current_lookup_fault) r.(current_fault) r.(current_syscall_error) r.(current_extra_caps)
    r.(armKSASIDTable) r.(armKSHWASIDTable) r.(armKSNextASID) r.(armKSGlobalsFrame)
    r.(armKSGlobalPD) r.(ksHw).
Definition upd_ksReadyQueues (v : gmap Z tcb_queue) (r : kstate) : kstate :=
    mk_kstate r.(ksCtes) r.(ksTcbs) r.(ksEps) r.(ksAeps) r.(ksMem) v r.(ksCurThread)
    r.(ksIdleThread) r.(ksSchedulerAction) r.(ksWorkUnitsCompleted) r.(intStateIRQTable)
    r.(intStateIRQNode) r.(ksCurDomain) r.(ksDomainTime) r.(ksDomScheduleIdx)
    r.(current_lookup_fault) r.(current_fault) r.(current_syscall_error) r.(current_extra_caps)
    r.(armKSASIDTable) r.(armKSHWASIDTable) r.(armKSNextASID) r.(armKSGlobalsFrame)
    r.(armKSGlobalPD) r.(ksHw).
Definition upd_ksCurThread (v : Z) (r : kstate) : kstate :=
    mk_kstate r.(ksCtes) r.(ksTcbs) r.(ksEps) r.(ksAeps) r.(ksMem) r.(ksReadyQueues) v
    r.(ksIdleThread) r.(ksSchedulerAction) r.(ksWorkUnitsCompleted) r.(intStateIRQTable)
    r.(intStateIRQNode) r.(ksCurDomain) r.(ksDomainTime) r.(ksDomScheduleIdx)
    r.(current_lookup_fault) r.(current_fault) r.(current_syscall_error) r.(current_extra_caps)
    r.(armKSASIDTable) r.(armKSHWASIDTable) r.(armKSNextASID) r.(armKSGlobalsFrame)
    r.(armKSGlobalPD) r.(ksHw).
Definition upd_ksIdleThread (v : Z) (r : kstate) : kstate :=
    mk_kstate r.(ksCtes) r.(ksTcbs) r.(ksEps) r.(ksAeps) r.(ksMem) r.(ksReadyQueues)
    r.(ksCurThread) v r.(ksSchedulerAction) r.(ksWorkUnitsCompleted) r.(intStateIRQTable)
    r.(intStateIRQNode) r.(ksCurDomain) r.(ksDomainTime) r.(ksDomScheduleIdx)
    r.(current_lookup_fault) r.(current_fault) r.(current_syscall_error) r.(current_extra_caps)
    r.(armKSASIDTable) r.(armKSHWASIDTable) r.(armKSNextASID) r.(armKSGlobalsFrame)
    r.(armKSGlobalPD) r.(ksHw).
Definition upd_ksSchedulerAction (v : Z) (r : kstate) : kstate :=
    mk_kstate r.(ksCtes) r.(ksTcbs) r.(ksEps) r.(ksAeps) r.(ksMem) r.(ksReadyQueues)
    r.(ksCurThread) r.(ksIdleThread) v r.(ksWorkUnitsCompleted) r.(intStateIRQTable)
    r.(intStateIRQNode) r.(ksCurDomain) r.(ksDomainTime) r.(ksDomScheduleIdx)
    r.(current_lookup_fault) r.(current_fault) r.(current_syscall_error) r.(current_extra_caps)
    r.(armKSASIDTable) r.(armKSHWASIDTable) r.(armKSNextASID) r.(armKSGlobalsFrame)
    r.(armKSGlobalPD) r.(ksHw).
Definition upd_ksWorkUnitsCompleted (v : Z) (r : kstate) : kstate :=
    mk_kstate r.(ksCtes) r.(ksTcbs) r.(ksEps) r.(ksAeps) r.(ksMem) r.(ksReadyQueues)
    r.(ksCurThread) r.(ksIdleThread) r.(ksSchedulerAction) v r.(intStateIRQTable)
    r.(intStateIRQNode) r.(ksCurDomain) r.(ksDomainTime) r.(ksDomScheduleIdx)
    r.(current_lookup_fault) r.(current_fault) r.(current_syscall_error) r.(current_extra_caps)
    r.(armKSASIDTable) r.(armKSHWASIDTable) r.(armKSNextASID) r.(armKSGlobalsFrame)
    r.(armKSGlobalPD) r.(ksHw).
Definition upd_intStateIRQTable (v : gmap Z irq_state) (r : kstate) : kstate :=
    mk_kstate r.(ksCtes) r.(ksTcbs) r.(ksEps) r.(ksAeps) r.(ksMem) r.(ksReadyQueues)
    r.(ksCurThread) r.(ksIdleThread) r.(ksSchedulerAction) r.(ksWorkUnitsCompleted) v
    r.(intStateIRQNode) r.(ksCurDomain) r.(ksDomainTime) r.(ksDomScheduleIdx)
    r.(current_lookup_fault) r.(current_fault) r.(current_syscall_error) r.(current_extra_caps)
    r.(armKSASIDTable) r.(armKSHWASIDTable) r.(armKSNextASID) r.(armKSGlobalsFrame)
    r.(armKSGlobalPD) r.(ksHw).
Definition upd_intStateIRQNode (v : Z) (r : kstate) : kstate :=
    mk_kstate r.(ksCtes) r.(ksTcbs) r.(ksEps) r.(ksAeps) r.(ksMem) r.(ksReadyQueues)
    r.(ksCurThread) r.(ksIdleThread) r.(ksSchedulerAction) r.(ksWorkUnitsCompleted)
    r.(intStateIRQTable) v r.(ksCurDomain) r.(ksDomainTime) r.(ksDomScheduleIdx)
    r.(current_lookup_fault) r.(current_fault) r.(current_syscall_error) r.(current_extra_caps)
    r.(armKSASIDTable) r.(armKSHWASIDTable) r.(armKSNextASID) r.(armKSGlobalsFrame)
    r.(armKSGlobalPD) r.(ksHw).
Definition upd_ksCurDomain (v : Z) (r : kstate) : kstate :=
    mk_kstate r.(ksCtes) r.(ksTcbs) r.(ksEps) r.(ksAeps) r.(ksMem) r.(ksReadyQueues)
    r.(ksCurThread) r.(ksIdleThread) r.(ksSchedulerAction) r.(ksWorkUnitsCompleted)
    r.(intStateIRQTable) r.(intStateIRQNode) v r.(ksDomainTime) r.(ksDomScheduleIdx)
    r.(current_lookup_fault) r.(current_fault) r.(current_syscall_error) r.(current_extra_caps)
    r.(armKSASIDTable) r.(armKSHWASIDTable) r.(armKSNextASID) r.(armKSGlobalsFrame)
    r.(armKSGlobalPD) r.(ksHw).
Definition upd_ksDomainTime (v : Z) (r : kstate) : kstate :=
    mk_kstate r.(ksCtes) r.(ksTcbs) r.(ksEps) r.(ksAeps) r.(ksMem) r.(ksReadyQueues)
    r.(ksCurThread) r.(ksIdleThread) r.(ksSchedulerAction) r.(ksWorkUnitsCompleted)
    r.(intStateIRQTable) r.(intStateIRQNode) r.(ksCurDomain) v r.(ksDomScheduleIdx)
    r.(current_lookup_fault) r.(current_fault) r.(current_syscall_error) r.(current_extra_caps)
    r.(armKSASIDTable) r.(armKSHWASIDTable) r.(armKSNextASID) r.(armKSGlobalsFrame)
    r.(armKSGlobalPD) r.(ksHw).
Definition upd_ksDomScheduleIdx (v : Z) (r : kstate) : kstate :=
    mk_kstate r.(ksCtes) r.(ksTcbs) r.(ksEps) r.(ksAeps) r.(ksMem) r.(ksReadyQueues)
    r.(ksCurThread) r.(ksIdleThread) r.(ksSchedulerAction) r.(ksWorkUnitsCompleted)
    r.(intStateIRQTable) r.(intStateIRQNode) r.(ksCurDomain) r.(ksDomainTime) v
    r.(current_lookup_fault) r.(current_fault) r.(current_syscall_error) r.(current_extra_caps)
    r.(armKSASIDTable) r.(armKSHWASIDTable) r.(armKSNextASID) r.(armKSGlobalsFrame)
    r.(armKSGlobalPD) r.(ksHw).
Definition upd_current_lookup_fault (v : lookup_fault) (r : kstate) : kstate :=
    mk_kstate r.(ksCtes) r.(ksTcbs) r.(ksEps) r.(ksAeps) r.(ksMem) r.(ksReadyQueues)
    r.(ksCurThread) r.(ksIdleThread) r.(ksSchedulerAction) r.(ksWorkUnitsCompleted)
    r.(intStateIRQTable) r.(intStateIRQNode) r.(ksCurDomain) r.(ksDomainTime) r.(ksDomScheduleIdx)
    v r.(current_fault) r.(current_syscall_error) r.(current_extra_caps) r.(armKSASIDTable)
    r.(armKSHWASIDTable) r.(armKSNextASID) r.(armKSGlobalsFrame) r.(armKSGlobalPD) r.(ksHw).
Definition upd_current_fault (v : fault) (r : kstate) : kstate :=
    mk_kstate r.(ksCtes) r.(ksTcbs) r.(ksEps) r.(ksAeps) r.(ksMem) r.(ksReadyQueues)
    r.(ksCurThread) r.(ksIdleThread) r.(ksSchedulerAction) r.(ksWorkUnitsCompleted)
    r.(intStateIRQTable) r.(intStateIRQNode) r.(ksCurDomain) r.(ksDomainTime) r.(ksDomScheduleIdx)
    r.(current_lookup_fault) v r.(current_syscall_error) r.(current_extra_caps) r.(armKSASIDTable)
    r.(armKSHWASIDTable) r.(armKSNextASID) r.(armKSGlobalsFrame) r.(armKSGlobalPD) r.(ksHw).
Definition upd_current_syscall_error (v : syscall_error) (r : kstate) : kstate :=
    mk_kstate r.(ksCtes) r.(ksTcbs) r.(ksEps) r.(ksAeps) r.(ksMem) r.(ksReadyQueues)
    r.(ksCurThread) r.(ksIdleThread) r.(ksSchedulerAction) r.(ksWorkUnitsCompleted)
    r.(intStateIRQTable) r.(intStateIRQNode) r.(ksCurDomain) r.(ksDomainTime) r.(ksDomScheduleIdx)
    r.(current_lookup_fault) r.(current_fault) v r.(current_extra_caps) r.(armKSASIDTable)
    r.(armKSHWASIDTable) r.(armKSNextASID) r.(armKSGlobalsFrame) r.(armKSGlobalPD) r.(ksHw).
Definition upd_current_extra_caps (v : list Z) (r : kstate) : kstate :=
    mk_kstate r.(ksCtes) r.(ksTcbs) r.(ksEps) r.(ksAeps) r.(ksMem) r.(ksReadyQueues)
    r.(ksCurThread) r.(ksIdleThread) r.(ksSchedulerAction) r.(ksWorkUnitsCompleted)
    r.(intStateIRQTable) r.(intStateIRQNode) r.(ksCurDomain) r.(ksDomainTime) r.(ksDomScheduleIdx)
    r.(current_lookup_fault) r.(current_fault) r.(current_syscall_error) v r.(armKSASIDTable)
    r.(armKSHWASIDTable) r.(armKSNextASID) r.(armKSGlobalsFrame) r.(armKSGlobalPD) r.(ksHw).
Definition upd_armKSASIDTable (v : gmap Z Z) (r : kstate) : kstate :=
    mk_kstate r.(ksCtes) r.(ksTcbs) r.(ksEps) r.(ksAeps) r.(ksMem) r.(ksReadyQueues)
    r.(ksCurThread) r.(ksIdleThread) r.(ksSchedulerAction) r.(ksWorkUnitsCompleted)
    r.(intStateIRQTable) r.(intStateIRQNode) r.(ksCurDomain) r.(ksDomainTime) r.(ksDomScheduleIdx)
    r.(current_lookup_fault) r.(current_fault) r.(current_syscall_error) r.(current_extra_caps) v
    r.(armKSHWASIDTable) r.(armKSNextASID) r.(armKSGlobalsFrame) r.(armKSGlobalPD) r.(ksHw).
Definition upd_armKSHWASIDTable (v : gmap Z Z) (r : kstate) : kstate :=
    mk_kstate r.(ksCtes) r.(ksTcbs) r.(ksEps) r.(ksAeps) r.(ksMem) r.(ksReadyQueues)
    r.(ksCurThread) r.(ksIdleThread) r.(ksSchedulerAction) r.(ksWorkUnitsCompleted)
    r.(intStateIRQTable) r.(intStateIRQNode) r.(ksCurDomain) r.(ksDomainTime) r.(ksDomScheduleIdx)
    r.(current_lookup_fault) r.(current_fault) r.(current_syscall_error) r.(current_extra_caps)
    r.(armKSASIDTable) v r.(armKSNextASID) r.(armKSGlobalsFrame) r.(armKSGlobalPD) r.(ksHw).
Definition upd_armKSNextASID (v : Z) (r : kstate) : kstate :=
    mk_kstate r.(ksCtes) r.(ksTcbs) r.(ksEps) r.(ksAeps) r.(ksMem) r.(ksReadyQueues)
    r.(ksCurThread) r.(ksIdleThread) r.(ksSchedulerAction) r.(ksWorkUnitsCompleted)
    r.(intStateIRQTable) r.(intStateIRQNode) r.(ksCurDomain) r.(ksDomainTime) r.(ksDomScheduleIdx)
    r.(current_lookup_fault) r.(current_fault) r.(current_syscall_error) r.(current_extra_caps)
    r.(armKSASIDTable) r.(armKSHWASIDTable) v r.(armKSGlobalsFrame) r.(armKSGlobalPD) r.(ksHw).
Definition upd_armKSGlobalsFrame (v : Z) (r : kstate) : kstate :=
    mk_kstate r.(ksCtes) r.(ksTcbs) r.(ksEps) r.(ksAeps) r.(ksMem) r.(ksReadyQueues)
    r.(ksCurThread) r.(ksIdleThread) r.(ksSchedulerAction) r.(ksWorkUnitsCompleted)
    r.(intStateIRQTable) r.(intStateIRQNode) r.(ksCurDomain) r.(ksDomainTime) r.(ksDomScheduleIdx)
    r.(current_lookup_fault) r.(current_fault) r.(current_syscall_error) r.(current_extra_caps)
    r.(armKSASIDTable) r.(armKSHWASIDTable) r.(armKSNextASID) v r.(armKSGlobalPD) r.(ksHw).
Definition upd_armKSGlobalPD (v : Z) (r : kstate) : kstate :=
    mk_kstate r.(ksCtes) r.(ksTcbs) r.(ksEps) r.(ksAeps) r.(ksMem) r.(ksReadyQueues)
    r.(ksCurThread) r.(ksIdleThread) r.(ksSchedulerAction) r.(ksWorkUnitsCompleted)
    r.(intStateIRQTable) r.(intStateIRQNode) r.(ksCurDomain) r.(ksDomainTime) r.(ksDomScheduleIdx)
    r.(current_lookup_fault) r.(current_fault) r.(current_syscall_error) r.(current_extra_caps)
    r.(armKSASIDTable) r.(armKSHWASIDTable) r.(armKSNextASID) r.(armKSGlobalsFrame) v r.(ksHw).
Definition upd_ksHw (v : hw_state) (r : kstate) : kstate :=
    mk_kstate r.(ksCtes) r.(ksTcbs) r.(ksEps) r.(ksAeps) r.(ksMem) r.(ksReadyQueues)
    r.(ksCurThread) r.(ksIdleThread) r.(ksSchedulerAction) r.(ksWorkUnitsCompleted)
    r.(intStateIRQTable) r.(intStateIRQNode) r.(ksCurDomain) r.(ksDomainTime) r.(ksDomScheduleIdx)
    r.(current_lookup_fault) r.(current_fault) r.(current_syscall_error) r.(current_extra_caps)
    r.(armKSASIDTable) r.(armKSHWASIDTable) r.(armKSNextASID) r.(armKSGlobalsFrame)
    r.(armKSGlobalPD) v.

Abbreviation K := (M kstate).

(** ** Access to objects *)
Definition get_cte (p : Z) : K cte :=
  let* s := get in of_option (ksCtes s !! p).
Definition mod_cte (p : Z) (f : cte -> cte) : K unit :=
  let* c := get_cte p in modify (fun s => upd_ksCtes (<[p := f c]> (ksCtes s)) s).
Definition mod_mdb (p : Z) (f : mdb_node -> mdb_node) : K unit :=
  mod_cte p (fun c => upd_cteMDBNode (f c.(cteMDBNode)) c).
Definition set_cap (p : Z) (c : cap) : K unit := mod_cte p (upd_cte_cap c).
Definition get_cap (p : Z) : K cap := let* c := get_cte p in ret c.(cte_cap).

Definition get_tcb (p : Z) : K tcb :=
  let* s := get in of_option (ksTcbs s !! p).
Definition mod_tcb (p : Z) (f : tcb -> tcb) : K unit :=
  let* t := get_tcb p in modify (fun s => upd_ksTcbs (<[p := f t]> (ksTcbs s)) s).
Definition mod_tcbState (p : Z) (f : thread_state -> thread_state) : K unit :=
  mod_tcb p (fun t => upd_tcbState (f t.(tcbState)) t).

Definition get_ep (p : Z) : K endpoint :=
  let* s := get in of_option (ksEps s !! p).
Definition mod_ep (p : Z) (f : endpoint -> endpoint) : K unit :=
  let* e := get_ep p in modify (fun s => upd_ksEps (<[p := f e]> (ksEps s)) s).
Definition get_aep (p : Z) : K async_endpoint :=
  let* s := get in of_option (ksAeps s !! p).
Definition mod_aep (p : Z) (f : async_endpoint -> async_endpoint) : K unit :=
  let* e := get_aep p in modify (fun s => upd_ksAeps (<[p := f e]> (ksAeps s)) s).

(** ** Access to words of frames *)
Definition mem_set (m : Z -> option Z) (a v : Z) : Z -> option Z :=
  fun x => if x =? a then Some v else m x.
Definition read_word (a : Z) : K Z :=
  let* s := get in of_option (ksMem s a).
Definition write_word (a v : Z) : K unit :=
  let* _ := read_word a in modify (fun s => upd_ksMem (mem_set (ksMem s) a v) s).
(** [buffer[i]] of a [word_t *buffer] *)
Definition word_at (buffer i : Z) : Z := buffer +w wshl i 2.

(** ** Registers (include/machine/registerset.h, src/arch/arm/machine/hardware.c) *)
Definition getRegister (thread reg : Z) : K Z :=
  let* t := get_tcb thread in of_option (t.(tcbContext) !! Z.to_nat reg).
Definition setRegister (thread reg w : Z) : K unit :=
  let* _ := getRegister thread reg in
  mod_tcb thread (fun t => upd_tcbContext (<[Z.to_nat reg := w]> t.(tcbContext)) t).
Definition getRestartPC (thread : Z) : K Z := getRegister thread FaultInstruction.
Definition setNextPC (thread v : Z) : K unit := setRegister thread LR_svc v.

(** ** Ready queues: an array of NUM_READY_QUEUES entries, zero at boot *)
Definition queue_nil : tcb_queue := mk_queue NULL NULL.
Definition ready_queue (s : kstate) (idx : Z) : tcb_queue :=
  default queue_nil (ksReadyQueues s !! idx).
Definition get_ready_queue (idx : Z) : K tcb_queue :=
  if (0 <=? idx) && (idx <? NUM_READY_QUEUES)
  then gets (fun s => ready_queue s idx) else halt_with Undefined.
Definition set_ready_queue (idx : Z) (q : tcb_queue) : K unit :=
  modify (fun s => upd_ksReadyQueues (<[idx := q]> (ksReadyQueues s)) s).

(** ** Errors and faults *)
Definition syscall_error_with (f : syscall_error -> syscall_error) : K unit :=
  modify (fun s => upd_current_syscall_error (f (current_syscall_error s)) s).
Definition set_current_lookup_fault (f : lookup_fault) : K unit :=
  modify (upd_current_lookup_fault f).
Definition set_current_fault (f : fault) : K unit := modify (upd_current_fault f).
(** [current_syscall_error.type = t; return EXCEPTION_SYSCALL_ERROR;] *)
Definition throw (t : Z) : K exception_t :=
  syscall_error_with (upd_se_type t) ;;; ret EXCEPTION_SYSCALL_ERROR.
Definition throw_invalid_cap (n : Z) : K exception_t :=
  syscall_error_with (fun e => upd_invalidCapNumber n (upd_se_type seL4_InvalidCapability e)) ;;;
  ret EXCEPTION_SYSCALL_ERROR.
Definition throw_invalid_arg (n : Z) : K exception_t :=
  syscall_error_with (fun e => upd_invalidArgumentNumber n (upd_se_type seL4_InvalidArgument e)) ;;;
  ret EXCEPTION_SYSCALL_ERROR.
Definition throw_range (lo hi : Z) : K exception_t :=
  syscall_error_with (fun e =>
    upd_rangeErrorMax hi (upd_rangeErrorMin lo (upd_se_type seL4_RangeError e))) ;;;
  ret EXCEPTION_SYSCALL_ERROR.
Definition throw_failed_lookup (wasSource : bool) : K exception_t :=
  syscall_error_with (fun e => upd_failedLookupWasSource wasSource (upd_se_type seL4_FailedLookup e)) ;;;
  ret EXCEPTION_SYSCALL_ERROR.

Definition hw_emit (op : hw_op) : K unit :=
  modify (fun s => upd_ksHw (upd_hw_log (hw_log (ksHw s) ++ [op]) (ksHw s)) s).

(** The bound of the loops that walk a list of threads. *)
Definition thread_fuel (s : kstate) : nat := S (size (ksTcbs s)).

(** ** Weakest preconditions of the accesses *)
Section wp_access.
Context {s : kstate}.

Lemma wp_get_cte p c Q : ksCtes s !! p = Some c -> Q c s -> wp (get_cte p) Q s.
Proof. unfold wp, get_cte, bind, get. by intros ->. Qed.
Lemma wp_mod_cte p f c Q :
  ksCtes s !! p = Some c -> Q tt (upd_ksCtes (<[p := f c]> (ksCtes s)) s) ->
  wp (mod_cte p f) Q s.
Proof. unfold wp, mod_cte, get_cte, bind, get. by intros ->. Qed.
Lemma wp_mod_mdb p f c Q :
  ksCtes s !! p = Some c ->
  Q tt (upd_ksCtes (<[p := mk_cte c.(cte_cap) (f c.(cteMDBNode))]> (ksCtes s)) s) ->
  wp (mod_mdb p f) Q s.
Proof. intros H HQ; eapply wp_mod_cte; [exact H|exact HQ]. Qed.
Lemma wp_set_cap p k c Q :
  ksCtes s !! p = Some c ->
  Q tt (upd_ksCtes (<[p := mk_cte k c.(cteMDBNode)]> (ksCtes s)) s) ->
  wp (set_cap p k) Q s.
Proof. intros H HQ; eapply wp_mod_cte; [exact H|exact HQ]. Qed.
Lemma wp_get_cap p c Q : ksCtes s !! p = Some c -> Q c.(cte_cap) s -> wp (get_cap p) Q s.
Proof. unfold wp, get_cap, get_cte, bind, get. by intros ->. Qed.
Lemma wp_get_tcb p t Q : ksTcbs s !! p = Some t -> Q t s -> wp (get_tcb p) Q s.
Proof. unfold wp, get_tcb, bind, get. by intros ->. Qed.
Lemma wp_mod_tcb p f t Q :
  ksTcbs s !! p = Some t -> Q tt (upd_ksTcbs (<[p := f t]> (ksTcbs s)) s) ->
  wp (mod_tcb p f) Q s.
Proof. unfold wp, mod_tcb, get_tcb, bind, get. by intros ->. Qed.
Lemma wp_mod_tcbState p f t Q :
  ksTcbs s !! p = Some t ->
  Q tt (upd_ksTcbs (<[p := upd_tcbState (f t.(tcbState)) t]> (ksTcbs s)) s) ->
  wp (mod_tcbState p f) Q s.
Proof. intros H HQ; eapply wp_mod_tcb; [exact H|exact HQ]. Qed.
Lemma wp_get_ep p e Q : ksEps s !! p = Some e -> Q e s -> wp (get_ep p) Q s.
Proof. unfold wp, get_ep, bind, get. by intros ->. Qed.
Lemma wp_mod_ep p f e Q :
  ksEps s !! p = Some e -> Q tt (upd_ksEps (<[p := f e]> (ksEps s)) s) ->
  wp (mod_ep p f) Q s.
Proof. unfold wp, mod_ep, get_ep, bind, get. by intros ->. Qed.
Lemma wp_get_aep p e Q : ksAeps s !! p = Some e -> Q e s -> wp (get_aep p) Q s.
Proof. unfold wp, get_aep, bind, get. by intros ->. Qed.
Lemma wp_mod_aep p f e Q :
  ksAeps s !! p = Some e -> Q tt (upd_ksAeps (<[p := f e]> (ksAeps s)) s) ->
  wp (mod_aep p f) Q s.
Proof. unfold wp, mod_aep, get_aep, bind, get. by intros ->. Qed.
Lemma wp_read_word a v Q : ksMem s a = Some v -> Q v s -> wp (read_word a) Q s.
Proof. unfold wp, read_word, bind, get. by intros ->. Qed.
Lemma wp_write_word a v v0 Q :
  ksMem s a = Some v0 -> Q tt (upd_ksMem (mem_set (ksMem s) a v) s) ->
  wp (write_word a v) Q s.
Proof. unfold wp, write_word, read_word, bind, get. by intros ->. Qed.
Lemma wp_getRegister p r t v Q :
  ksTcbs s !! p = Some t -> t.(tcbContext) !! Z.to_nat r = Some v -> Q v s ->
  wp (getRegister p r) Q s.
Proof. unfold wp, getRegister, get_tcb, bind, get. intros -> H. cbn. by rewrite H. Qed.
Lemma wp_setRegister p r t v w Q :
  ksTcbs s !! p = Some t -> t.(tcbContext) !! Z.to_nat r = Some v ->
  Q tt (upd_ksTcbs (<[p := upd_tcbContext (<[Z.to_nat r := w]> t.(tcbContext)) t]>
          (ksTcbs s)) s) ->
  wp (setRegister p r w) Q s.
Proof.
  unfold wp, setRegister, getRegister, mod_tcb, get_tcb, bind, get.
  intros Ht Hr. rewrite Ht. cbn. rewrite Hr. cbn. by rewrite Ht.
Qed.
Lemma wp_get_ready_queue idx Q :
  0 <= idx < NUM_READY_QUEUES -> Q (ready_queue s idx) s -> wp (get_ready_queue idx) Q s.
Proof.
  unfold wp, get_ready_queue. intros H.
  replace ((0 <=? idx) && (idx <? NUM_READY_QUEUES)) with true; [done|].
  symmetry. apply andb_true_iff. lia.
Qed.
Lemma wp_set_ready_queue idx q (Q : unit -> kstate -> Prop) :
  Q tt (upd_ksReadyQueues (<[idx := q]> (ksReadyQueues s)) s) ->
  wp (set_ready_queue idx q) Q s.
Proof. done. Qed.
End wp_access.

(** ** Symbolic execution

    [wstep] executes one access of the program in front of the goal, looking
    for the object it needs in the context; [wrun] repeats it and simplifies. *)
Ltac wlookup :=
  first [ eassumption | reflexivity | by simplify_map_eq | (cbn; eassumption)
        | (cbn; by simplify_map_eq) ].

Ltac wstep :=
  lazymatch goal with
  | |- wp (bind _ _) _ _ => apply wp_bind
  | |- wp (ret _) _ _ => apply wp_ret
  | |- wp get _ _ => apply wp_get
  | |- wp (gets _) _ _ => apply wp_gets
  | |- wp (modify _) _ _ => apply wp_modify
  | |- wp (set_ready_queue _ _) _ _ => apply wp_set_ready_queue
  | |- wp (get_cte _) _ _ => eapply wp_get_cte; [wlookup|]
  | |- wp (get_cap _) _ _ => eapply wp_get_cap; [wlookup|]
  | |- wp (mod_mdb _ _) _ _ => eapply wp_mod_mdb; [wlookup|]
  | |- wp (set_cap _ _) _ _ => eapply wp_set_cap; [wlookup|]
  | |- wp (mod_cte _ _) _ _ => eapply wp_mod_cte; [wlookup|]
  | |- wp (get_tcb _) _ _ => eapply wp_get_tcb; [wlookup|]
  | |- wp (mod_tcbState _ _) _ _ => eapply wp_mod_tcbState; [wlookup|]
  | |- wp (mod_tcb _ _) _ _ => eapply wp_mod_tcb; [wlookup|]
  | |- wp (get_ep _) _ _ => eapply wp_get_ep; [wlookup|]
  | |- wp (mod_ep _ _) _ _ => eapply wp_mod_ep; [wlookup|]
  | |- wp (get_aep _) _ _ => eapply wp_get_aep; [wlookup|]
  | |- wp (mod_aep _ _) _ _ => eapply wp_mod_aep; [wlookup|]
  | |- wp (getRegister _ _) _ _ => eapply wp_getRegister; [wlookup|wlookup|]
  | |- wp (setRegister _ _ _) _ _ => eapply wp_setRegister; [wlookup|wlookup|]
  | |- wp (read_word _) _ _ => eapply wp_read_word; [wlookup|]
  | |- wp (write_word _ _) _ _ => eapply wp_write_word; [wlookup|]
  end.

(** *** Normal form of an updated state: one write per component, in a fixed order *)
Lemma upd_ksCtes_twice a b s : upd_ksCtes a (upd_ksCtes b s) = upd_ksCtes a s.
Proof. done. Qed.
Lemma upd_ksTcbs_twice a b s : upd_ksTcbs a (upd_ksTcbs b s) = upd_ksTcbs a s.
Proof. done. Qed.
Lemma upd_ksEps_twice a b s : upd_ksEps a (upd_ksEps b s) = upd_ksEps a s.
Proof. done. Qed.
Lemma upd_ksAeps_twice a b s : upd_ksAeps a (upd_ksAeps b s) = upd_ksAeps a s.
Proof. done. Qed.
Lemma upd_ksReadyQueues_twice a b s : upd_ksReadyQueues a (upd_ksReadyQueues b s) = upd_ksReadyQueues a s.
Proof. done. Qed.
Lemma upd_ksSchedulerAction_twice a b s : upd_ksSchedulerAction a (upd_ksSchedulerAction b s) = upd_ksSchedulerAction a s.
Proof. done. Qed.
Lemma upd_ksCtes_ksTcbs a b s : upd_ksCtes a (upd_ksTcbs b s) = upd_ksTcbs b (upd_ksCtes a s).
Proof. done. Qed.
Lemma upd_ksCtes_ksEps a b s : upd_ksCtes a (upd_ksEps b s) = upd_ksEps b (upd_ksCtes a s).
Proof. done. Qed.
Lemma upd_ksCtes_ksAeps a b s : upd_ksCtes a (upd_ksAeps b s) = upd_ksAeps b (upd_ksCtes a s).
Proof. done. Qed.
Lemma upd_ksCtes_ksReadyQueues a b s : upd_ksCtes a (upd_ksReadyQueues b s) = upd_ksReadyQueues b (upd_ksCtes a s).
Proof. done. Qed.
Lemma upd_ksCtes_ksSchedulerAction a b s : upd_ksCtes a (upd_ksSchedulerAction b s) = upd_ksSchedulerAction b (upd_ksCtes a s).
Proof. done. Qed.
Lemma upd_ksTcbs_ksEps a b s : upd_ksTcbs a (upd_ksEps b s) = upd_ksEps b (upd_ksTcbs a s).
Proof. done. Qed.
Lemma upd_ksTcbs_ksAeps a b s : upd_ksTcbs a (upd_ksAeps b s) = upd_ksAeps b (upd_ksTcbs a s).
Proof. done. Qed.
Lemma upd_ksTcbs_ksReadyQueues a b s : upd_ksTcbs a (upd_ksReadyQueues b s) = upd_ksReadyQueues b (upd_ksTcbs a s).
Proof. done. Qed.
Lemma upd_ksTcbs_ksSchedulerAction a b s : upd_ksTcbs a (upd_ksSchedulerAction b s) = upd_ksSchedulerAction b (upd_ksTcbs a s).
Proof. done. Qed.
Lemma upd_ksEps_ksAeps a b s : upd_ksEps a (upd_ksAeps b s) = upd_ksAeps b (upd_ksEps a s).
Proof. done. Qed.
Lemma upd_ksEps_ksReadyQueues a b s : upd_ksEps a (upd_ksReadyQueues b s) = upd_ksReadyQueues b (upd_ksEps a s).
Proof. done. Qed.
Lemma upd_ksEps_ksSchedulerAction a b s : upd_ksEps a (upd_ksSchedulerAction b s) = upd_ksSchedulerAction b (upd_ksEps a s).
Proof. done. Qed.
Lemma upd_ksAeps_ksReadyQueues a b s : upd_ksAeps a (upd_ksReadyQueues b s) = upd_ksReadyQueues b (upd_ksAeps a s).
Proof. done. Qed.
Lemma upd_ksAeps_ksSchedulerAction a b s : upd_ksAeps a (upd_ksSchedulerAction b s) = upd_ksSchedulerAction b (upd_ksAeps a s).
Proof. done. Qed.
Lemma upd_ksReadyQueues_ksSchedulerAction a b s : upd_ksReadyQueues a (upd_ksSchedulerAction b s) = upd_ksSchedulerAction b (upd_ksReadyQueues a s).
Proof. done. Qed.
Create Rewrite HintDb kst.
#[export] Hint Rewrite
  upd_ksCtes_twice upd_ksTcbs_twice upd_ksEps_twice upd_ksAeps_twice
  upd_ksReadyQueues_twice upd_ksSchedulerAction_twice upd_ksCtes_ksTcbs upd_ksCtes_ksEps
  upd_ksCtes_ksAeps upd_ksCtes_ksReadyQueues upd_ksCtes_ksSchedulerAction upd_ksTcbs_ksEps
  upd_ksTcbs_ksAeps upd_ksTcbs_ksReadyQueues upd_ksTcbs_ksSchedulerAction upd_ksEps_ksAeps
  upd_ksEps_ksReadyQueues upd_ksEps_ksSchedulerAction upd_ksAeps_ksReadyQueues upd_ksAeps_ksSchedulerAction
  upd_ksReadyQueues_ksSchedulerAction : kst.

(** Projections of updated records compute; repeated writes to one object collapse. *)
Ltac ksimp :=
  cbn [
        ksCtes ksTcbs ksEps ksAeps ksMem ksReadyQueues ksCurThread ksIdleThread ksSchedulerAction
        ksWorkUnitsCompleted intStateIRQTable intStateIRQNode ksCurDomain ksDomainTime
        ksDomScheduleIdx current_lookup_fault current_fault current_syscall_error
        current_extra_caps armKSASIDTable armKSHWASIDTable armKSNextASID armKSGlobalsFrame ksHw
        armKSGlobalPD upd_armKSGlobalPD
        upd_ksCtes upd_ksTcbs upd_ksEps upd_ksAeps upd_ksMem upd_ksReadyQueues upd_ksCurThread
        upd_ksIdleThread upd_ksSchedulerAction upd_ksWorkUnitsCompleted upd_intStateIRQTable
        upd_intStateIRQNode upd_ksCurDomain upd_ksDomainTime upd_ksDomScheduleIdx
        upd_current_lookup_fault upd_current_fault upd_current_syscall_error
        upd_current_extra_caps upd_armKSASIDTable upd_armKSHWASIDTable upd_armKSNextASID
        upd_armKSGlobalsFrame upd_ksHw hw_int_ack hw_hi_pend hw_gic_config active_irq
        hw_faultAddress hw_dataFaultStatus hw_instFaultStatus hw_log upd_hw_int_ack upd_hw_hi_pend
        upd_hw_gic_config upd_active_irq upd_hw_faultAddress upd_hw_dataFaultStatus
        upd_hw_instFaultStatus upd_hw_log tcbContext tcbState tcbFault tcbLookupFailure tcbDomain
        tcbPriority tcbPolicy tcbTimeSlice tcbFaultHandler tcbIPCBuffer tcbSchedNext tcbSchedPrev
        tcbEPNext tcbEPPrev upd_tcbContext upd_tcbState upd_tcbFault upd_tcbLookupFailure
        upd_tcbDomain upd_tcbPriority upd_tcbPolicy upd_tcbTimeSlice upd_tcbFaultHandler
        upd_tcbIPCBuffer upd_tcbSchedNext upd_tcbSchedPrev upd_tcbEPNext upd_tcbEPPrev
        blockingIPCBadge blockingIPCCanGrant blockingIPCIsCall tcbQueued blockingIPCDiminishCaps
        blockingIPCEndpoint tsType upd_blockingIPCBadge upd_blockingIPCCanGrant
        upd_blockingIPCIsCall upd_tcbQueued upd_blockingIPCDiminishCaps upd_blockingIPCEndpoint
        upd_tsType cte_cap cteMDBNode upd_cte_cap upd_cteMDBNode mdbNext mdbRevocable
        mdbFirstBadged mdbPrev upd_mdbNext upd_mdbRevocable upd_mdbFirstBadged upd_mdbPrev
        epQueue_head epQueue_tail ep_state upd_epQueue_head upd_epQueue_tail upd_ep_state aepData
        aepMsgIdentifier aepQueue_head aepQueue_tail aep_state upd_aepData upd_aepMsgIdentifier
        upd_aepQueue_head upd_aepQueue_tail upd_aep_state q_head q_end];
  rewrite ?insert_insert_eq; autorewrite with kst.
Ltac wrun := repeat (wstep; cbn beta; ksimp).
