(* ===== verification/Bitfields.v ===== *)
(** * Bit fields (include/object/structures.bf, include/arch/arm/arch/object/structures.bf)

    The kernel's packed structures are blocks of fields, listed from the highest bit
    to the lowest, from which tools/bitfield_gen.py generates the accessors. A
    packed value is the number its words make up, the first word the lowest. The
    rest of the model works on the values of the fields; here they are packed. *)
From stdpp Require Import base list gmap.
From Stdlib Require Import ZArith Lia.
From S2P Require Import Prelude.
From S2P Require Import Structures.

(** ** Blocks *)
Inductive bf_slot := Pad (size : Z) | Field (size : Z) | Field_high (size : Z).
Definition block := list bf_slot.
Definition slot_size (f : bf_slot) : Z := match f with Pad w | Field w | Field_high w => w end.
Definition block_size (b : block) : Z := foldr (fun f n => slot_size f + n) 0 b.

(** The offset of a field is the size of what follows it; no field crosses a word. *)
Fixpoint within_words (b : block) : bool :=
  match b with
  | [] => true
  | Pad _ :: b' => within_words b'
  | (Field w | Field_high w) :: b' =>
      let offset := block_size b' in (offset / wordBits =? (offset + w - 1) / wordBits) && within_words b'
  end.

(** The bits of a value in its field, and the value of the bits *)
Definition to_bits (f : bf_slot) (v : Z) : Z :=
  match f with Pad _ => 0 | Field w => field w v | Field_high w => field w (v >>w (32 - w)) end.
Definition of_bits (f : bf_slot) (x : Z) : Z :=
  match f with Pad _ => 0 | Field w => x | Field_high w => Z.shiftl x (32 - w) end.

Fixpoint pack (b : block) (vs : list Z) : Z :=
  match b with
  | [] => 0
  | Pad _ :: b' => pack b' vs
  | f :: b' =>
      match vs with
      | [] => 0
      | v :: vs' => Z.shiftl (to_bits f v) (block_size b') |w pack b' vs'
      end
  end.
Fixpoint unpack (b : block) (z : Z) : list Z :=
  match b with
  | [] => []
  | Pad _ :: b' => unpack b' z
  | f :: b' => of_bits f (bf_get z (block_size b') (slot_size f)) :: unpack b' z
  end.

(** A value fits a field when the field keeps it. *)
Definition fits_slot (f : bf_slot) (v : Z) : bool :=
  match f with Pad _ => true | Field w => field w v =? v | Field_high w => field_high w v =? v end.
Fixpoint block_fits (b : block) (vs : list Z) : bool :=
  match b with
  | [] => match vs with [] => true | _ => false end
  | Pad _ :: b' => block_fits b' vs
  | f :: b' => match vs with [] => false | v :: vs' => fits_slot f v && block_fits b' vs' end
  end.

(** A packed type: the block of a value, which may depend on its tag, the values of
    the fields, and how a packed number is read *)
Class Packed (A : Type) := {
  bf_block : A -> block;
  bf_values : A -> list Z;
  bf_read : Z -> option A }.
Definition bf_encode {A} `{Packed A} (a : A) : Z := pack (bf_block a) (bf_values a).
Definition bf_ok {A} `{Packed A} (a : A) : bool := block_fits (bf_block a) (bf_values a).
Definition bf_word (z i : Z) : Z := bf_get z (wordBits * i) wordBits.
Definition flag (v : Z) : bool := negb (v =? 0).

(** ** Capabilities *)
Definition cap_block (t : cap_tag) : block :=
  match t with
  | cap_null_cap => [Pad 32; Pad 28; Field 4]
  | cap_untyped_cap => [Field 27; Field 5; Field_high 28; Field 4]
  | cap_endpoint_cap => [Field_high 28; Pad 1; Field 1; Field 1; Field 1; Field 28; Field 4]
  | cap_async_endpoint_cap => [Field 28; Pad 2; Field 1; Field 1; Field_high 28; Field 4]
  | cap_reply_cap => [Pad 32; Field_high 27; Field 1; Field 4]
  | cap_cnode_cap => [Pad 4; Field 5; Field 5; Field 18; Field_high 27; Pad 1; Field 4]
  | cap_thread_cap => [Pad 32; Field_high 28; Field 4]
  | cap_irq_control_cap => [Pad 32; Pad 24; Field 8]
  | cap_irq_handler_cap => [Pad 24; Field 8; Pad 24; Field 8]
  | cap_zombie_cap => [Field 32; Pad 18; Field 6; Field 8]
  | cap_domain_cap => [Pad 32; Pad 24; Field 8]
  | cap_small_frame_cap => [Field 10; Field 2; Field_high 20; Field 8; Field_high 20; Field 4]
  | cap_frame_cap => [Field 2; Field 10; Field 2; Field_high 18; Pad 2; Field 8; Field_high 18; Field 4]
  | cap_page_table_cap => [Pad 1; Field 1; Field 18; Field_high 12; Field_high 22; Pad 6; Field 4]
  | cap_page_directory_cap => [Pad 14; Field 18; Field_high 18; Pad 9; Field 1; Field 4]
  | cap_asid_control_cap => [Pad 32; Pad 28; Field 4]
  | cap_asid_pool_cap => [Pad 14; Field 18; Field_high 28; Field 4]
  end.

Definition cap_fields (c : cap) : list Z :=
  match c with
  | Cap_untyped freeIndex blockSize ptr => [freeIndex; blockSize; ptr]
  | Cap_endpoint badge grant send recv ptr => [ptr; bool_word grant; bool_word recv; bool_word send; badge]
  | Cap_async_endpoint badge send recv ptr => [badge; bool_word recv; bool_word send; ptr]
  | Cap_reply master tcb => [tcb; bool_word master]
  | Cap_cnode radix guardSize guard ptr => [guardSize; radix; guard; ptr]
  | Cap_thread tcb => [tcb]
  | Cap_irq_handler irq => [irq]
  | Cap_zombie id type => [id; type]
  | Cap_small_frame lo rights addr hi base => [lo; rights; addr; hi; base]
  | Cap_frame size lo rights addr hi base => [size; lo; rights; addr; hi; base]
  | Cap_page_table mapped asid addr base => [bool_word mapped; asid; addr; base]
  | Cap_page_directory asid mapped base => [asid; base; bool_word mapped]
  | Cap_asid_pool base pool => [base; pool]
  | Cap_null | Cap_irq_control | Cap_domain | Cap_asid_control => []
  end.

(** The generated cap_get_capType *)
Definition cap_tag_number (w : Z) : Z := if negb (w &w 0xe =? 0xe) then w &w 0xf else w &w 0xff.
Definition cap_tags : list cap_tag :=
  [cap_null_cap; cap_untyped_cap; cap_endpoint_cap; cap_async_endpoint_cap; cap_reply_cap; cap_cnode_cap;
   cap_thread_cap; cap_small_frame_cap; cap_frame_cap; cap_asid_pool_cap; cap_page_table_cap;
   cap_page_directory_cap; cap_asid_control_cap; cap_irq_control_cap; cap_irq_handler_cap; cap_zombie_cap;
   cap_domain_cap].
Definition cap_tag_of (z : Z) : option cap_tag :=
  find (fun t => cap_tag_value t =? cap_tag_number (bf_word z 0)) cap_tags.

Definition cap_of_fields (t : cap_tag) (vs : list Z) : option cap :=
  match t, vs with
  | cap_null_cap, [_] => Some Cap_null
  | cap_untyped_cap, [freeIndex; blockSize; ptr; _] => Some (Cap_untyped freeIndex blockSize ptr)
  | cap_endpoint_cap, [ptr; grant; recv; send; badge; _] =>
      Some (Cap_endpoint badge (flag grant) (flag send) (flag recv) ptr)
  | cap_async_endpoint_cap, [badge; recv; send; ptr; _] => Some (Cap_async_endpoint badge (flag send) (flag recv) ptr)
  | cap_reply_cap, [tcb; master; _] => Some (Cap_reply (flag master) tcb)
  | cap_cnode_cap, [guardSize; radix; guard; ptr; _] => Some (Cap_cnode radix guardSize guard ptr)
  | cap_thread_cap, [tcb; _] => Some (Cap_thread tcb)
  | cap_irq_control_cap, [_] => Some Cap_irq_control
  | cap_irq_handler_cap, [irq; _] => Some (Cap_irq_handler irq)
  | cap_zombie_cap, [id; type; _] => Some (Cap_zombie id type)
  | cap_domain_cap, [_] => Some Cap_domain
  | cap_small_frame_cap, [lo; rights; addr; hi; base; _] => Some (Cap_small_frame lo rights addr hi base)
  | cap_frame_cap, [size; lo; rights; addr; hi; base; _] => Some (Cap_frame size lo rights addr hi base)
  | cap_page_table_cap, [mapped; asid; addr; base; _] => Some (Cap_page_table (flag mapped) asid addr base)
  | cap_page_directory_cap, [asid; base; mapped; _] => Some (Cap_page_directory asid (flag mapped) base)
  | cap_asid_control_cap, [_] => Some Cap_asid_control
  | cap_asid_pool_cap, [base; pool; _] => Some (Cap_asid_pool base pool)
  | _, _ => None
  end.
#[export] Instance cap_packed : Packed cap := {
  bf_block c := cap_block (cap_get_capType c);
  bf_values c := cap_fields c ++ [cap_tag_value (cap_get_capType c)];
  bf_read z := t ← cap_tag_of z; cap_of_fields t (unpack (cap_block t) z) }.

(** ** Derivation nodes, thread states and endpoints *)
Definition mdb_node_block : block := [Field_high 29; Pad 1; Field 1; Field 1; Field_high 29; Pad 3].
#[export] Instance mdb_node_packed : Packed mdb_node := {
  bf_block _ := mdb_node_block;
  bf_values m := [m.(mdbNext); bool_word m.(mdbRevocable); bool_word m.(mdbFirstBadged); m.(mdbPrev)];
  bf_read z := match unpack mdb_node_block z with
    | [next; revocable; first; prev] => Some (mk_mdb_node next (flag revocable) (flag first) prev)
    | _ => None end }.

Definition thread_state_number (t : thread_state_type) : Z :=
  match t with
  | ThreadState_Inactive => 0 | ThreadState_Running => 1 | ThreadState_Restart => 2
  | ThreadState_BlockedOnReceive => 3 | ThreadState_BlockedOnSend => 4 | ThreadState_BlockedOnReply => 5
  | ThreadState_BlockedOnAsyncEvent => 6 | ThreadState_IdleThreadState => 7
  end.
Definition thread_state_types : list thread_state_type :=
  [ThreadState_Inactive; ThreadState_Running; ThreadState_Restart; ThreadState_BlockedOnReceive;
   ThreadState_BlockedOnSend; ThreadState_BlockedOnReply; ThreadState_BlockedOnAsyncEvent;
   ThreadState_IdleThreadState].
Definition thread_state_block : block :=
  [Field 28; Field 1; Field 1; Pad 1; Field 1; Pad 31; Field 1; Field_high 28; Field 4].
#[export] Instance thread_state_packed : Packed thread_state := {
  bf_block _ := thread_state_block;
  bf_values t := [t.(blockingIPCBadge); bool_word t.(blockingIPCCanGrant); bool_word t.(blockingIPCIsCall);
    bool_word t.(blockingIPCDiminishCaps); bool_word t.(tcbQueued); t.(blockingIPCEndpoint);
    thread_state_number t.(tsType)];
  bf_read z := match unpack thread_state_block z with
    | [badge; grant; call; diminish; queued; ep; n] =>
        t ← find (fun t => thread_state_number t =? n) thread_state_types;
        Some (mk_thread_state badge (flag grant) (flag call) (flag queued) (flag diminish) ep t)
    | _ => None end }.

Definition endpoint_state_number (t : endpoint_state) : Z :=
  match t with EPState_Idle => 0 | EPState_Send => 1 | EPState_Recv => 2 end.
Definition endpoint_block : block := [Pad 64; Field_high 28; Pad 4; Field_high 28; Pad 2; Field 2].
#[export] Instance endpoint_packed : Packed endpoint := {
  bf_block _ := endpoint_block;
  bf_values e := [e.(epQueue_head); e.(epQueue_tail); endpoint_state_number e.(ep_state)];
  bf_read z := match unpack endpoint_block z with
    | [h; t; n] => st ← find (fun st => endpoint_state_number st =? n) [EPState_Idle; EPState_Send; EPState_Recv];
                   Some (mk_endpoint h t st)
    | _ => None end }.
