(* ===== verification/DList.v ===== *)
(** * Doubly linked lists in a heap

    The kernel threads three kinds of intrusive doubly linked lists through its
    objects: the ready queues ([tcbSchedPrev]/[tcbSchedNext]), the endpoint
    queues ([tcbEPPrev]/[tcbEPNext]) and the mapping database
    ([mdbPrev]/[mdbNext]). A heap of links [L] gives for an address the pair of
    its previous and next pointers, or [None] where there is no object;
    [dseg L prev l next] says that the addresses [l] are linked in this order
    between [prev] and [next]. The lemmas say how a segment changes when one
    pointer at its border is redirected. *)
From stdpp Require Import base list gmap.
From Stdlib Require Import ZArith Lia.
From S2P Require Import Prelude.
From S2P Require Import Structures.

Definition links : Type := Z -> option (Z * Z).

Fixpoint dseg (L : links) (prev : Z) (l : list Z) (next : Z) : Prop :=
  match l with
  | [] => True
  | p :: l' => p <> NULL /\ L p = Some (prev, hd next l') /\ dseg L p l' next
  end.

(** The last address of a list, [d] if it is empty. *)
Fixpoint lastd (d : Z) (l : list Z) : Z :=
  match l with [] => d | p :: l' => lastd p l' end.

Section dseg.
Implicit Types (L : links) (l : list Z).

Lemma lastd_app d l1 l2 : lastd d (l1 ++ l2) = lastd (lastd d l1) l2.
Proof. revert d. induction l1; simpl; auto. Qed.

Lemma lastd_snoc d l e : lastd d (l ++ [e]) = e.
Proof. by rewrite lastd_app. Qed.

Lemma lastd_in d l : l <> [] -> lastd d l ∈ l.
Proof.
  revert d. induction l as [|p l IH]; intros d H; [done|]. simpl.
  destruct l; [apply list_elem_of_here|]. apply list_elem_of_further, IH. done.
Qed.

Lemma hd_in d l : l <> [] -> hd d l ∈ l.
Proof. destruct l; [done|]. intros _. apply list_elem_of_here. Qed.

Lemma lastd_default d d' l : l <> [] -> lastd d l = lastd d' l.
Proof. by destruct l. Qed.

Lemma hd_default d d' l : l <> [] -> hd d l = hd d' l.
Proof. by destruct l. Qed.

Lemma hd_app d l1 l2 : hd d (l1 ++ l2) = hd (hd d l2) l1.
Proof. by destruct l1. Qed.

Lemma dseg_app L prev l1 l2 next :
  dseg L prev (l1 ++ l2) next <->
  dseg L prev l1 (hd next l2) /\ dseg L (lastd prev l1) l2 next.
Proof.
  revert prev. induction l1 as [|p l1 IH]; intros prev; simpl; [tauto|].
  rewrite IH, hd_app. tauto.
Qed.

(** A segment depends only on the links of its own addresses. *)
Lemma dseg_ext L L' prev l next :
  (forall p, p ∈ l -> L' p = L p) -> dseg L prev l next -> dseg L' prev l next.
Proof.
  revert prev. induction l as [|p l IH]; intros prev H; simpl; [done|].
  intros (Hp & HL & Hl). repeat split; [done| |].
  - rewrite H; [done|apply list_elem_of_here].
  - apply IH; [|done]. intros q Hq. apply H. by apply list_elem_of_further.
Qed.

Lemma dseg_in L prev l next p : dseg L prev l next -> p ∈ l -> p <> NULL /\ is_Some (L p).
Proof.
  revert prev. induction l as [|q l IH]; intros prev; simpl; [by intros _ ?%elem_of_nil|].
  intros (Hq & HL & Hl) [->|Hp]%elem_of_cons; [rewrite HL; eauto|eauto].
Qed.

Lemma dseg_head L prev p l next : dseg L prev (p :: l) next -> L p = Some (prev, hd next l).
Proof. by intros (_ & ? & _). Qed.

Lemma dseg_null_head L prev l : dseg L prev l NULL -> hd NULL l = NULL -> l = [].
Proof. destruct l; [done|]. by intros (? & _) ?. Qed.

Lemma dseg_null_last L prev l next : dseg L prev l next -> lastd NULL l = NULL -> l = [].
Proof.
  intros H E. destruct l as [|p l]; [done|]. exfalso.
  destruct (dseg_in _ _ _ _ (lastd NULL (p :: l)) H); [by apply lastd_in|done].
Qed.

(** Redirecting the back pointer of the first address. *)
Lemma dseg_set_prev L L' prev prev' l next :
  NoDup l -> dseg L prev l next ->
  (forall p l', l = p :: l' -> L' p = Some (prev', hd next l')) ->
  (forall p, p ∈ tail l -> L' p = L p) ->
  dseg L' prev' l next.
Proof.
  destruct l as [|p l]; [done|]. intros _ (Hp & _ & Hl) H1 H2.
  repeat split; [done|by apply H1|]. by eapply dseg_ext.
Qed.

(** Redirecting the forward pointer of the last address. *)
Lemma dseg_set_next L L' prev l e next next' a :
  NoDup (l ++ [e]) -> dseg L prev (l ++ [e]) next ->
  L e = Some (a, next) -> L' e = Some (a, next') ->
  (forall p, p ∈ l -> L' p = L p) ->
  dseg L' prev (l ++ [e]) next'.
Proof.
  rewrite !dseg_app. simpl. intros _ (H1 & He & HLe & _) E1 E2 Hl.
  repeat split; [by eapply dseg_ext|done|]. congruence.
Qed.

Lemma list_snoc_view l : l = [] \/ exists l' e, l = l' ++ [e].
Proof. destruct l using rev_ind; eauto. Qed.

(** A chain that ends in [NULL] never comes back to an address. *)
Lemma dseg_hd_in L prev prev' l l' next :
  dseg L prev l next -> dseg L prev' l' next -> hd next l = hd next l' ->
  next = NULL -> l = l'.
Proof.
  intros H H' E ->. revert prev prev' l' H H' E.
  induction l as [|p l IH]; intros prev prev' [|p' l'] H H' E; simpl in *; [done| | |].
  - destruct H' as (? & _). congruence.
  - destruct H as (? & _). congruence.
  - subst p'. destruct H as (? & E1 & H), H' as (? & E2 & H').
    f_equal. eapply IH; eauto. congruence.
Qed.

Lemma dseg_NoDup L prev l : dseg L prev l NULL -> NoDup l.
Proof.
  revert prev. induction l as [|p l IH]; intros prev H; [constructor|].
  pose proof H as (Hp & HL & Hl). constructor; [|by eapply IH].
  intros (l1 & l2 & ->)%list_elem_of_split.
  pose proof Hl as (_ & H2)%dseg_app.
  assert (p :: l2 = p :: l1 ++ p :: l2) as E.
  { eapply (dseg_hd_in L _ _ _ _ NULL); eauto. }
  apply (f_equal length) in E. simpl in E. rewrite length_app in E. simpl in E. lia.
Qed.
End dseg.

(** ** Links

    [link a b L] is [L] after the two writes that make [b] follow [a]; a [NULL]
    end is not written, for no object lives there. Insertion and removal are
    compositions of links. *)
Definition link (a b : Z) (L : links) : links := fun q =>
  (fun '(u, v) => (if q =? b then a else u, if q =? a then b else v)) <$> L q.

Section link.
Implicit Types (L : links) (l : list Z).

Lemma link_other a b L q : q <> a -> q <> b -> link a b L q = L q.
Proof.
  intros Ha Hb. unfold link. apply Z.eqb_neq in Ha, Hb. rewrite Ha, Hb.
  by destruct (L q) as [[]|].
Qed.

Lemma link_some a b L q : is_Some (link a b L q) <-> is_Some (L q).
Proof. unfold link. by rewrite fmap_is_Some. Qed.

(** Only the boundary between the two halves changes. *)
Lemma dseg_link L prev l1 l2 x y next :
  NoDup (l1 ++ l2) -> hd next l2 ∉ l1 -> lastd prev l1 ∉ l2 ->
  dseg L prev l1 x -> dseg L y l2 next ->
  dseg (link (lastd prev l1) (hd next l2) L) prev (l1 ++ l2) next.
Proof.
  intros Hnd Hn Hp H1 H2. apply NoDup_app in Hnd as (Hnd1 & Hdis & Hnd2).
  apply dseg_app. split.
  - destruct (list_snoc_view l1) as [->|(l & e & ->)]; [done|].
    rewrite lastd_app in *. simpl.
    apply NoDup_app in Hnd1 as (_ & Hle & _).
    assert (e ∉ l) as He by (intros He; apply (Hle _ He), list_elem_of_here).
    assert (forall q, q ∈ l ++ [e] -> q <> hd next l2) as Hq.
    { intros q Hq ->. done. }
    apply dseg_app in H1 as (H1 & He0 & HeL & _). apply dseg_app. simpl. split_and!.
    + eapply dseg_ext; [|done]. intros q Hql. apply link_other; [by intros ->|].
      apply Hq, elem_of_app. by left.
    + done.
    + unfold link. rewrite HeL. simpl. rewrite Z.eqb_refl.
      destruct (Z.eqb_spec e (hd next l2)) as [E|_]; [|done].
      destruct (Hq e); [apply elem_of_app; right; apply list_elem_of_here|done].
    + done.
  - destruct l2 as [|p l2]; [done|]. simpl. simpl in H2.
    apply NoDup_cons in Hnd2 as [Hpl _]. destruct H2 as (Hp0 & HpL & H2).
    assert (forall q, q ∈ p :: l2 -> q <> lastd prev l1) as Hq.
    { intros q Hq ->. done. }
    split_and!; [done| |].
    + unfold link. rewrite HpL. simpl. rewrite Z.eqb_refl.
      destruct (Z.eqb_spec p (lastd prev l1)) as [E|_]; [|done].
      by destruct (Hq p); [left|].
    + eapply dseg_ext; [|done]. intros q Hq'. apply link_other; [apply Hq; by right|].
      by intros ->.
Qed.

Lemma hd_not_in d l1 l2 : NoDup (l1 ++ l2) -> d ∉ l1 -> hd d l2 ∉ l1.
Proof.
  intros (_ & Hd & _)%NoDup_app H. destruct l2; [done|]. intros Hin.
  eapply Hd; [exact Hin|apply list_elem_of_here].
Qed.

Lemma lastd_not_in d l1 l2 : NoDup (l1 ++ l2) -> d ∉ l2 -> lastd d l1 ∉ l2.
Proof.
  intros (_ & Hd & _)%NoDup_app H. destruct (decide (l1 = [])) as [->|]; [done|].
  by apply Hd, lastd_in.
Qed.

Lemma dseg_null_not_in L prev l next : dseg L prev l next -> NULL ∉ l.
Proof. by intros H [? _]%(dseg_in _ _ _ _ _ H). Qed.

(** Taking [x] out of a list *)
Lemma dlist_remove L l1 x l2 :
  dseg L NULL (l1 ++ x :: l2) NULL ->
  dseg (link (lastd NULL l1) (hd NULL l2) L) NULL (l1 ++ l2) NULL.
Proof.
  intros H. pose proof (dseg_NoDup _ _ _ H) as Hnd.
  pose proof (dseg_null_not_in _ _ _ _ H) as H0.
  apply not_elem_of_app in H0 as [? [? ?]%not_elem_of_cons].
  assert (NoDup (l1 ++ l2)).
  { apply NoDup_app in Hnd as (? & Hd & [? ?]%NoDup_cons). apply NoDup_app.
    split_and!; [done| |done]. intros q Hq ?. eapply Hd; [exact Hq|by right]. }
  apply dseg_app in H as (Hs1 & _ & _ & Hs2).
  eapply dseg_link; eauto using hd_not_in, lastd_not_in.
Qed.

(** Inserting [x] *)
Lemma dlist_insert L l1 x l2 :
  dseg L NULL (l1 ++ l2) NULL -> x <> NULL -> x ∉ l1 ++ l2 -> is_Some (L x) ->
  dseg (link x (hd NULL l2) (link (lastd NULL l1) x L)) NULL (l1 ++ x :: l2) NULL.
Proof.
  intros H Hx Hnin [[u v] HLx]. pose proof (dseg_NoDup _ _ _ H) as Hnd.
  pose proof (dseg_null_not_in _ _ _ _ H) as [? ?]%not_elem_of_app.
  apply not_elem_of_app in Hnin as [? ?].
  pose proof Hnd as (Hnd1 & Hdis & Hnd2)%NoDup_app.
  assert (NoDup (l1 ++ [x])) as Hnd1'.
  { apply NoDup_app. split_and!; [done|set_solver|apply NoDup_singleton]. }
  assert (lastd NULL l1 ∉ l2) by eauto using lastd_not_in.
  apply dseg_app in H as (Hs1 & Hs2).
  assert (dseg (link (lastd NULL l1) x L) NULL (l1 ++ [x]) v) as H1'.
  { apply (dseg_link L NULL l1 [x] (hd NULL l2) u v); simpl; try done.
    apply lastd_not_in; [done|]. set_solver. }
  assert (dseg (link (lastd NULL l1) x L) (lastd NULL l1) l2 NULL) as H2'.
  { eapply dseg_ext; [|exact Hs2]. intros q Hq. apply link_other; congruence. }
  replace (l1 ++ x :: l2) with ((l1 ++ [x]) ++ l2) by (by rewrite <- app_assoc).
  assert (NoDup ((l1 ++ [x]) ++ l2)).
  { apply NoDup_app. split_and!; [done|set_solver|done]. }
  rewrite <- (lastd_snoc NULL l1 x) at 1.
  eapply dseg_link; eauto.
  - apply hd_not_in; [done|set_solver].
  - by rewrite lastd_snoc.
Qed.
End link.

(** ** Heaps of objects as links

    A pointer write is [alter] on the heap of objects. A write guarded by a test
    for [NULL] is one as well, for no object lives there. *)
Section heap.
Context {A : Type} (prv nxt : A -> Z).
Implicit Types m : gmap Z A.

Definition links_of m : links := fun p => (fun t => (prv t, nxt t)) <$> m !! p.

Lemma fmap_alter_id {B} (g : A -> B) f p m q :
  (forall t, g (f t) = g t) -> g <$> alter f p m !! q = g <$> m !! q.
Proof.
  intros H. destruct (decide (p = q)) as [->|E].
  - rewrite lookup_alter_eq. destruct (m !! q); simpl; congruence.
  - by rewrite lookup_alter_ne.
Qed.

Lemma fmap_alter_const {B} (g : A -> B) (b : B) f p m :
  (forall t, g (f t) = b) -> is_Some (m !! p) -> g <$> alter f p m !! p = Some b.
Proof. intros H [t Ht]. rewrite lookup_alter_eq, Ht. simpl. by rewrite H. Qed.

Lemma is_Some_alter f p m q : is_Some (alter f p m !! q) <-> is_Some (m !! q).
Proof. by rewrite lookup_alter_is_Some. Qed.

Lemma alter_None f p m : m !! p = None -> alter f p m = m.
Proof. intros H. apply alter_id. congruence. Qed.

Lemma insert_alter f p m t : m !! p = Some t -> <[p := f t]> m = alter f p m.
Proof. intros H. symmetry. by apply alter_alt_Some. Qed.

Lemma links_of_next f v p m q :
  (forall t, prv (f t) = prv t) -> (forall t, nxt (f t) = v) ->
  links_of (alter f p m) q = (fun '(a, b) => (a, if q =? p then v else b)) <$> links_of m q.
Proof.
  intros H1 H2. unfold links_of. destruct (Z.eqb_spec q p) as [->|E].
  - rewrite lookup_alter_eq. destruct (m !! p); simpl; congruence.
  - rewrite lookup_alter_ne by congruence. by destruct (m !! q).
Qed.

Lemma links_of_prev f v p m q :
  (forall t, prv (f t) = v) -> (forall t, nxt (f t) = nxt t) ->
  links_of (alter f p m) q = (fun '(a, b) => (if q =? p then v else a, b)) <$> links_of m q.
Proof.
  intros H1 H2. unfold links_of. destruct (Z.eqb_spec q p) as [->|E].
  - rewrite lookup_alter_eq. destruct (m !! p); simpl; congruence.
  - rewrite lookup_alter_ne by congruence. by destruct (m !! q).
Qed.

Lemma links_of_same f p m q :
  (forall t, prv (f t) = prv t) -> (forall t, nxt (f t) = nxt t) ->
  links_of (alter f p m) q = links_of m q.
Proof. intros H1 H2. apply fmap_alter_id. congruence. Qed.

Lemma links_of_is_Some m q : is_Some (links_of m q) <-> is_Some (m !! q).
Proof. unfold links_of. by rewrite fmap_is_Some. Qed.
End heap.

(** Ends of lists that miss an address, and lookups after a write *)
Lemma lastd_ne (x d : Z) l : x <> d -> x ∉ l -> lastd d l <> x.
Proof. intros H Hl. destruct (decide (l = [])) as [->|]; [done|]. intros <-. by apply Hl, lastd_in. Qed.
Lemma hd_ne (x d : Z) l : x <> d -> x ∉ l -> hd d l <> x.
Proof. intros H Hl. destruct l; [done|]. simpl. intros ->. apply Hl. left. Qed.

Lemma lookup_alter_at {A} (f : A -> A) (m : gmap Z A) i j :
  alter f i m !! j = if decide (i = j) then f <$> m !! j else m !! j.
Proof. rewrite lookup_alter. by case_decide; subst. Qed.

(** ** Queues: a list with a head and an end pointer *)
Definition queue_rep (L : links) (q : tcb_queue) (l : list Z) : Prop :=
  q_head q = hd NULL l /\ q_end q = lastd NULL l /\ dseg L NULL l NULL.

Lemma queue_rep_ext L L' q l :
  (forall p, p ∈ l -> L' p = L p) -> queue_rep L q l -> queue_rep L' q l.
Proof. intros H (? & ? & ?). repeat split; [done|done|]. by eapply dseg_ext. Qed.

Lemma queue_rep_NoDup L q l : queue_rep L q l -> NoDup l.
Proof. intros (_ & _ & H). by eapply dseg_NoDup. Qed.

Lemma queue_rep_in L q l p : queue_rep L q l -> p ∈ l -> p <> NULL /\ is_Some (L p).
Proof. intros (_ & _ & H). by eapply dseg_in. Qed.

Lemma queue_rep_nil L q l : queue_rep L q l -> q_head q = NULL -> l = [].
Proof. intros (E & _ & H) ?. eapply dseg_null_head; eauto; congruence. Qed.

Lemma queue_rep_nil_end L q l : queue_rep L q l -> q_end q = NULL -> l = [].
Proof. intros (_ & E & H) ?. eapply dseg_null_last; eauto; congruence. Qed.
