(* ===== verification/SchedQueue.v ===== *)
(** * Thread queues (src/object/tcb.c, lines 27-160)

    The ready queues, one doubly linked list of TCBs per domain and priority,
    and the endpoint queues. [sched_rep s rq] relates a kernel state to the
    abstract ready queues [rq : Z -> list Z]; the theorems show that the pointer
    manipulations are cons, append and removal on [rq]. *)
From stdpp Require Import base list gmap.
From Stdlib Require Import ZArith Lia.
From S2P Require Import Prelude.
From S2P Require Import Structures.
From S2P Require Import KernelState.
From S2P Require Import DList.

(** ** Operations *)
Definition ready_queues_index (dom prio : Z) : Z := dom * CONFIG_NUM_PRIORITIES +w prio.

Definition tcbSchedEnqueue (t : Z) : K unit :=
  let* tc := get_tcb t in
  if negb tc.(tcbState).(tcbQueued) then
    let idx := ready_queues_index tc.(tcbDomain) tc.(tcbPriority) in
    let* queue := get_ready_queue idx in
    let* q_end' := (if q_end queue =? NULL then ret t
                    else mod_tcb (q_head queue) (upd_tcbSchedPrev t) ;;; ret (q_end queue)) in
    mod_tcb t (upd_tcbSchedPrev NULL) ;;;
    mod_tcb t (upd_tcbSchedNext (q_head queue)) ;;;
    set_ready_queue idx (mk_queue t q_end') ;;;
    mod_tcbState t (upd_tcbQueued true)
  else ret tt.

Definition tcbSchedAppend (t : Z) : K unit :=
  let* tc := get_tcb t in
  if negb tc.(tcbState).(tcbQueued) then
    let idx := ready_queues_index tc.(tcbDomain) tc.(tcbPriority) in
    let* queue := get_ready_queue idx in
    let* q_head' := (if q_head queue =? NULL then ret t
                     else mod_tcb (q_end queue) (upd_tcbSchedNext t) ;;; ret (q_head queue)) in
    mod_tcb t (upd_tcbSchedPrev (q_end queue)) ;;;
    mod_tcb t (upd_tcbSchedNext NULL) ;;;
    set_ready_queue idx (mk_queue q_head' t) ;;;
    mod_tcbState t (upd_tcbQueued true)
  else ret tt.

Definition tcbSchedDequeue (t : Z) : K unit :=
  let* tc := get_tcb t in
  if tc.(tcbState).(tcbQueued) then
    let idx := ready_queues_index tc.(tcbDomain) tc.(tcbPriority) in
    let* queue := get_ready_queue idx in
    let* q_head' := (if negb (tc.(tcbSchedPrev) =? NULL)
                     then mod_tcb tc.(tcbSchedPrev) (upd_tcbSchedNext tc.(tcbSchedNext)) ;;;
                          ret (q_head queue)
                     else ret tc.(tcbSchedNext)) in
    let* tc := get_tcb t in
    let* q_end' := (if negb (tc.(tcbSchedNext) =? NULL)
                    then mod_tcb tc.(tcbSchedNext) (upd_tcbSchedPrev tc.(tcbSchedPrev)) ;;;
                         ret (q_end queue)
                    else ret tc.(tcbSchedPrev)) in
    set_ready_queue idx (mk_queue q_head' q_end') ;;;
    mod_tcbState t (upd_tcbQueued false)
  else ret tt.

Definition tcbEPAppend (t : Z) (queue : tcb_queue) : K tcb_queue :=
  let* q_head' := (if q_head queue =? NULL then ret t
                   else mod_tcb (q_end queue) (upd_tcbEPNext t) ;;; ret (q_head queue)) in
  mod_tcb t (upd_tcbEPPrev (q_end queue)) ;;;
  mod_tcb t (upd_tcbEPNext NULL) ;;;
  ret (mk_queue q_head' t).

Definition tcbEPDequeue (t : Z) (queue : tcb_queue) : K tcb_queue :=
  let* tc := get_tcb t in
  let* q_head' := (if negb (tc.(tcbEPPrev) =? NULL)
                   then mod_tcb tc.(tcbEPPrev) (upd_tcbEPNext tc.(tcbEPNext)) ;;;
                        ret (q_head queue)
                   else ret tc.(tcbEPNext)) in
  let* tc := get_tcb t in
  let* q_end' := (if negb (tc.(tcbEPNext) =? NULL)
                  then mod_tcb tc.(tcbEPNext) (upd_tcbEPPrev tc.(tcbEPPrev)) ;;;
                       ret (q_end queue)
                  else ret tc.(tcbEPPrev)) in
  ret (mk_queue q_head' q_end').

(** ** The abstract ready queues *)
Definition sched_links : gmap Z tcb -> links := links_of tcbSchedPrev tcbSchedNext.
Definition ep_links : gmap Z tcb -> links := links_of tcbEPPrev tcbEPNext.

Definition tcb_index (t : tcb) : Z := ready_queues_index t.(tcbDomain) t.(tcbPriority).
Definition sched_key (t : tcb) : bool * Z := (t.(tcbState).(tcbQueued), tcb_index t).

Record sched_rep (s : kstate) (rq : Z -> list Z) : Prop := {
  sr_null : ksTcbs s !! NULL = None;
  sr_range : forall p t, ksTcbs s !! p = Some t ->
    0 <= t.(tcbDomain) < CONFIG_NUM_DOMAINS /\ 0 <= t.(tcbPriority) < CONFIG_NUM_PRIORITIES;
  sr_queue : forall idx, queue_rep (sched_links (ksTcbs s)) (ready_queue s idx) (rq idx);
  sr_mem : forall idx p, p ∈ rq idx <-> sched_key <$> ksTcbs s !! p = Some (true, idx) }.

Definition rq_set (rq : Z -> list Z) (idx : Z) (l : list Z) : Z -> list Z :=
  fun i => if i =? idx then l else rq i.

(** What an operation on the ready queues leaves alone: all of the state but
    the queues, and all of a TCB but its links and its queued flag. *)
Definition unsched (t : tcb) : tcb :=
  upd_tcbSchedNext 0 (upd_tcbSchedPrev 0
    (upd_tcbState (upd_tcbQueued false t.(tcbState)) t)).
Definition sched_frame (s s' : kstate) : Prop :=
  s' = upd_ksTcbs (ksTcbs s') (upd_ksReadyQueues (ksReadyQueues s') s) /\
  forall p, unsched <$> ksTcbs s' !! p = unsched <$> ksTcbs s !! p.

Lemma ready_queues_index_range dom prio :
  0 <= dom < CONFIG_NUM_DOMAINS -> 0 <= prio < CONFIG_NUM_PRIORITIES ->
  ready_queues_index dom prio = dom * CONFIG_NUM_PRIORITIES + prio /\
  0 <= ready_queues_index dom prio < NUM_READY_QUEUES.
Proof.
  unfold ready_queues_index, NUM_READY_QUEUES, CONFIG_NUM_DOMAINS, CONFIG_NUM_PRIORITIES, wadd, wrap.
  intros. rewrite Z.mod_small; lia.
Qed.

Lemma tcb_index_range s rq p t :
  sched_rep s rq -> ksTcbs s !! p = Some t -> 0 <= tcb_index t < NUM_READY_QUEUES.
Proof. intros R H. destruct (sr_range _ _ R _ _ H). by apply ready_queues_index_range. Qed.

Lemma sched_frame_refl s : sched_frame s s.
Proof. split; [by destruct s|done]. Qed.

Lemma sched_frame_trans s1 s2 s3 : sched_frame s1 s2 -> sched_frame s2 s3 -> sched_frame s1 s3.
Proof.
  intros [E1 H1] [E2 H2]. split; [|intros p; by rewrite H2].
  rewrite E2, E1. done.
Qed.

(** The fields of a thread the queues do not use are unchanged. *)
Lemma sched_frame_proj {A} (f : tcb -> A) s s' p :
  (forall t, f (unsched t) = f t) -> sched_frame s s' ->
  f <$> ksTcbs s' !! p = f <$> ksTcbs s !! p.
Proof.
  intros Hf [_ H]. specialize (H p).
  destruct (ksTcbs s' !! p) as [t'|], (ksTcbs s !! p) as [t|]; simpl in *; try done.
  assert (unsched t' = unsched t) as E by congruence.
  by rewrite <- (Hf t'), <- (Hf t), E.
Qed.

Lemma sched_frame_lookup s s' p t :
  sched_frame s s' -> ksTcbs s !! p = Some t ->
  exists t', ksTcbs s' !! p = Some t' /\ unsched t' = unsched t.
Proof.
  intros [_ H] Ht. specialize (H p). rewrite Ht in H. simpl in H.
  destruct (ksTcbs s' !! p); simpl in H; [|done]. eexists; split; [done|congruence].
Qed.

(** Threads in the queues exist, and are in no other queue. *)
Lemma sched_rep_in s rq idx p :
  sched_rep s rq -> p ∈ rq idx ->
  exists t, ksTcbs s !! p = Some t /\ t.(tcbState).(tcbQueued) = true /\ tcb_index t = idx.
Proof.
  intros R H. apply (sr_mem _ _ R) in H.
  apply fmap_Some in H as (t & Ht & E). injection E as E1 E2. eauto.
Qed.

Lemma sched_rep_unqueued s rq idx p t :
  sched_rep s rq -> ksTcbs s !! p = Some t -> t.(tcbState).(tcbQueued) = false -> p ∉ rq idx.
Proof. intros R Ht Hq (t' & Ht' & Hq' & _)%(sched_rep_in _ _ _ _ R). congruence. Qed.

Lemma sched_rep_not_null s rq p t : sched_rep s rq -> ksTcbs s !! p = Some t -> p <> NULL.
Proof. intros R H ->. rewrite (sr_null _ _ R) in H. done. Qed.

(** How a change of one queue is checked: thread [t] (of index [idx]) becomes
    queued or not ([b]), the queue of [idx] becomes [l], the links of the
    threads that are neither [t] nor in the old queue stay. *)
Lemma sched_rep_update s s' rq idx t tc l (b : bool) :
  sched_rep s rq -> sched_frame s s' ->
  ksTcbs s !! t = Some tc -> tcb_index tc = idx ->
  queue_rep (sched_links (ksTcbs s')) (ready_queue s' idx) l ->
  (forall i, i <> idx -> ready_queue s' i = ready_queue s i) ->
  (forall p, p <> t -> p ∉ rq idx -> sched_links (ksTcbs s') p = sched_links (ksTcbs s) p) ->
  (forall p, p <> t -> sched_key <$> ksTcbs s' !! p = sched_key <$> ksTcbs s !! p) ->
  sched_key <$> ksTcbs s' !! t = Some (b, idx) ->
  (forall p, p ∈ l <-> (p = t /\ b = true) \/ (p <> t /\ p ∈ rq idx)) ->
  sched_rep s' (rq_set rq idx l).
Proof.
  intros R F Ht Hidx Hq Hother Hlinks Hkeys Hkey Hl. split.
  - destruct F as [_ F]. specialize (F NULL). rewrite (sr_null _ _ R) in F.
    by destruct (ksTcbs s' !! NULL).
  - intros p t' Ht'.
    pose proof (sched_frame_proj (fun t => (t.(tcbDomain), t.(tcbPriority))) _ _ p ltac:(done) F) as E.
    rewrite Ht' in E. simpl in E. symmetry in E. apply fmap_Some in E as (t0 & Ht0 & E).
    injection E as -> ->. by apply (sr_range _ _ R p).
  - intros i. unfold rq_set. destruct (Z.eqb_spec i idx) as [->|Hi]; [done|].
    rewrite Hother by done. eapply queue_rep_ext; [|apply R].
    intros p Hp. pose proof (sched_rep_in _ _ _ _ R Hp) as (t0 & Ht0 & _ & Hi0).
    apply Hlinks; [congruence|]. intros (? & ? & _ & ?)%(sched_rep_in _ _ _ _ R). congruence.
  - intros i p. unfold rq_set. destruct (Z.eqb_spec i idx) as [->|Hi].
    + rewrite Hl. destruct (decide (p = t)) as [->|Hp].
      * rewrite Hkey. split; [intros [[_ ->]|[? _]]; done|]. intros E. left. naive_solver.
      * rewrite Hkeys, (sr_mem _ _ R) by done. naive_solver.
    + destruct (decide (p = t)) as [->|Hp].
      * rewrite Hkey. rewrite (sr_mem _ _ R), Ht. simpl. unfold sched_key. naive_solver.
      * rewrite Hkeys, (sr_mem _ _ R) by done. done.
Qed.

Lemma wp_alter_tcb s p f (Q : unit -> kstate -> Prop) :
  is_Some (ksTcbs s !! p) -> Q tt (upd_ksTcbs (alter f p (ksTcbs s)) s) -> wp (mod_tcb p f) Q s.
Proof.
  intros [t Ht] H. eapply wp_mod_tcb; [exact Ht|]. by rewrite (insert_alter f p _ t Ht).
Qed.

Lemma upd_ksTcbs_id s : upd_ksTcbs (ksTcbs s) s = s.
Proof. by destruct s. Qed.

(** A write guarded by a test [b] for the absence of the object *)
Lemma wp_guarded_tcb {A} s (b : bool) p f (x y : A) (Q : A -> kstate -> Prop) :
  (if b then ksTcbs s !! p = None else is_Some (ksTcbs s !! p)) ->
  Q (if b then x else y) (upd_ksTcbs (alter f p (ksTcbs s)) s) ->
  wp (if b then ret x else mod_tcb p f ;;; ret y) Q s.
Proof.
  destruct b; intros Hp HQ.
  - apply wp_ret. by rewrite alter_None, upd_ksTcbs_id in HQ.
  - apply wp_bind, wp_alter_tcb; [done|]. by apply wp_ret.
Qed.

Lemma wp_guarded_tcb' {A} s (b : bool) p f (x y : A) (Q : A -> kstate -> Prop) :
  (if b then is_Some (ksTcbs s !! p) else ksTcbs s !! p = None) ->
  Q (if b then x else y) (upd_ksTcbs (alter f p (ksTcbs s)) s) ->
  wp (if b then mod_tcb p f ;;; ret x else ret y) Q s.
Proof.
  intros H HQ. pose proof (wp_guarded_tcb s (negb b) p f y x Q) as W.
  destruct b; by apply W.
Qed.

(** ** The operations refine cons, append and removal *)
Definition enqueue_abs (rq : Z -> list Z) (t : Z) (tc : tcb) : Z -> list Z :=
  if tc.(tcbState).(tcbQueued) then rq
  else rq_set rq (tcb_index tc) (t :: rq (tcb_index tc)).
Definition append_abs (rq : Z -> list Z) (t : Z) (tc : tcb) : Z -> list Z :=
  if tc.(tcbState).(tcbQueued) then rq
  else rq_set rq (tcb_index tc) (rq (tcb_index tc) ++ [t]).
Definition dequeue_abs (rq : Z -> list Z) (t : Z) (tc : tcb) : Z -> list Z :=
  if tc.(tcbState).(tcbQueued)
  then rq_set rq (tcb_index tc) (filter (fun p => p <> t) (rq (tcb_index tc)))
  else rq.

(** An update of one queue by pointer writes and the queued flag of [t] *)
Lemma sched_rep_writes s rq t tc idx m q l (b : bool) :
  let s' := upd_ksReadyQueues (<[idx := q]> (ksReadyQueues s)) (upd_ksTcbs m s) in
  sched_rep s rq -> ksTcbs s !! t = Some tc -> tcb_index tc = idx ->
  (forall p, unsched <$> m !! p = unsched <$> ksTcbs s !! p) ->
  (forall p, p <> t -> (fun x => x.(tcbState).(tcbQueued)) <$> m !! p =
                       (fun x => x.(tcbState).(tcbQueued)) <$> ksTcbs s !! p) ->
  (fun x => x.(tcbState).(tcbQueued)) <$> m !! t = Some b ->
  queue_rep (sched_links m) q l ->
  (forall p, p <> t -> p ∉ rq idx -> p <> NULL -> sched_links m p = sched_links (ksTcbs s) p) ->
  (forall p, p ∈ l <-> (p = t /\ b = true) \/ (p <> t /\ p ∈ rq idx)) ->
  sched_rep s' (rq_set rq idx l) /\ sched_frame s s'.
Proof.
  intros s' R Ht Hidx HF HK HKt HQ HL Hl.
  assert (sched_frame s s') as F by (split; done).
  assert (forall p, tcb_index <$> m !! p = tcb_index <$> ksTcbs s !! p) as Hi.
  { intros p. by apply (sched_frame_proj tcb_index s s' p). }
  split; [|done]. apply (sched_rep_update s s' rq idx t tc l b); try done.
  - unfold s', ready_queue. ksimp. by rewrite lookup_insert_eq.
  - intros i E. unfold s', ready_queue. ksimp. by rewrite lookup_insert_ne.
  - intros p Hpt Hp. destruct (decide (p = NULL)) as [->|]; [|by apply HL].
    specialize (HF NULL). rewrite (sr_null _ _ R) in HF. unfold sched_links, links_of, s'. ksimp.
    rewrite (sr_null _ _ R). by destruct (m !! NULL).
  - intros p Hp. specialize (HK p Hp). specialize (Hi p). unfold s'. ksimp.
    destruct (m !! p), (ksTcbs s !! p); simpl in *; try done. unfold sched_key. congruence.
  - specialize (Hi t). rewrite Ht in Hi. unfold s'. ksimp. destruct (m !! t); simpl in *; [|done].
    unfold sched_key. congruence.
Qed.

(** The links after a pointer write *)
Section links.
Context (m : gmap Z tcb) (p q v : Z).
Lemma sched_links_next :
  sched_links (alter (upd_tcbSchedNext v) p m) q =
  (fun '(a, b) => (a, if q =? p then v else b)) <$> sched_links m q.
Proof. by apply links_of_next. Qed.
Lemma sched_links_prev :
  sched_links (alter (upd_tcbSchedPrev v) p m) q =
  (fun '(a, b) => (if q =? p then v else a, b)) <$> sched_links m q.
Proof. by apply links_of_prev. Qed.
Lemma sched_links_state f :
  sched_links (alter (fun t => upd_tcbState (f t.(tcbState)) t) p m) q = sched_links m q.
Proof. by apply links_of_same. Qed.
Lemma ep_links_next :
  ep_links (alter (upd_tcbEPNext v) p m) q =
  (fun '(a, b) => (a, if q =? p then v else b)) <$> ep_links m q.
Proof. by apply links_of_next. Qed.
Lemma ep_links_prev :
  ep_links (alter (upd_tcbEPPrev v) p m) q =
  (fun '(a, b) => (if q =? p then v else a, b)) <$> ep_links m q.
Proof. by apply links_of_prev. Qed.
Lemma ep_links_state f :
  ep_links (alter (fun t => upd_tcbState (f t.(tcbState)) t) p m) q = ep_links m q.
Proof. by apply links_of_same. Qed.
End links.
Create Rewrite HintDb tcb_links.
#[export] Hint Rewrite sched_links_next sched_links_prev sched_links_state
  ep_links_next ep_links_prev ep_links_state : tcb_links.

(** Evaluate the links of a written heap at one address. *)
Ltac links_eval :=
  ksimp; unfold link; autorewrite with tcb_links;
  match goal with
  | |- context [sched_links ?m ?q] => destruct (sched_links m q) as [[? ?]|]
  | |- context [ep_links ?m ?q] => destruct (ep_links m q) as [[? ?]|]
  end; simpl; try done;
  repeat match goal with |- context [?a =? ?b] => destruct (Z.eqb_spec a b) end;
  try done; try congruence.

Lemma wp_tcbSchedEnqueue s rq t tc :
  sched_rep s rq -> ksTcbs s !! t = Some tc ->
  wp (tcbSchedEnqueue t) (fun _ s' =>
    sched_rep s' (enqueue_abs rq t tc) /\ sched_frame s s') s.
Proof.
  intros R Ht. unfold tcbSchedEnqueue, enqueue_abs. wrun.
  destruct (tcbQueued (tcbState tc)) eqn:Hq; simpl.
  { wstep. split; [done|apply sched_frame_refl]. }
  pose proof (sr_queue _ _ R (tcb_index tc)) as Q.
  pose proof (sched_rep_unqueued _ _ (tcb_index tc) _ _ R Ht Hq) as Hnin.
  pose proof (sched_rep_not_null _ _ _ _ R Ht) as Ht0.
  wstep. apply wp_get_ready_queue; [by eapply tcb_index_range|].
  fold (tcb_index tc).
  pose proof Q as (Qh & Qe & Ql). wstep. apply wp_guarded_tcb.
  { rewrite Qh. destruct (rq (tcb_index tc)) as [|h l] eqn:El; simpl in *.
    - rewrite Qe. apply (sr_null _ _ R).
    - destruct (Z.eqb_spec (q_end (ready_queue s (tcb_index tc))) NULL) as [E|E].
      + by pose proof (queue_rep_nil_end _ _ _ Q E).
      + destruct (sched_rep_in s rq (tcb_index tc) h R) as (th & Hth & _); [|by eexists].
        rewrite El. apply list_elem_of_here. }
  wstep. apply wp_alter_tcb; [ksimp; by rewrite is_Some_alter|]. ksimp.
  wstep. apply wp_alter_tcb; [ksimp; by rewrite !is_Some_alter|]. ksimp.
  wstep. wstep. apply wp_alter_tcb; [ksimp; by rewrite !is_Some_alter|]. ksimp.
  eapply (sched_rep_writes s rq t tc _ _ _ _ true); try done.
  - intros p. by rewrite !fmap_alter_id.
  - intros p Hp. rewrite lookup_alter_ne by done. by rewrite !fmap_alter_id.
  - apply fmap_alter_const; [done|]. by rewrite !is_Some_alter.
  - split; [done|split].
    { simpl. rewrite Qe. destruct (rq (tcb_index tc)) as [|h l] eqn:El; [done|]. simpl.
      destruct (Z.eqb_spec (lastd h l) NULL) as [E|E]; [|done].
      by pose proof (dseg_null_last _ _ _ _ Ql E). }
    eapply dseg_ext; [|apply (dlist_insert (sched_links (ksTcbs s)) []); try done].
    + assert (q_head (ready_queue s (tcb_index tc)) <> t).
      { rewrite Qh. destruct (rq (tcb_index tc)); set_solver. }
      intros p Hp. assert (p <> NULL).
      { apply elem_of_cons in Hp as [->|Hp]; [done|]. by eapply dseg_in in Ql as [? _]. }
      simpl. rewrite <- Qh. links_eval.
    + by apply links_of_is_Some.
  - intros p Hp Hpq Hp0. assert (p <> q_head (ready_queue s (tcb_index tc))).
    { rewrite Qh. destruct (rq (tcb_index tc)); set_solver. }
    links_eval.
  - intros p. clear -Hnin. set_solver.
Qed.

Lemma wp_tcbSchedAppend s rq t tc :
  sched_rep s rq -> ksTcbs s !! t = Some tc ->
  wp (tcbSchedAppend t) (fun _ s' =>
    sched_rep s' (append_abs rq t tc) /\ sched_frame s s') s.
Proof.
  intros R Ht. unfold tcbSchedAppend, append_abs. wrun.
  destruct (tcbQueued (tcbState tc)) eqn:Hq; simpl.
  { wstep. split; [done|apply sched_frame_refl]. }
  pose proof (sr_queue _ _ R (tcb_index tc)) as Q.
  pose proof (sched_rep_unqueued _ _ (tcb_index tc) _ _ R Ht Hq) as Hnin.
  pose proof (sched_rep_not_null _ _ _ _ R Ht) as Ht0.
  wstep. apply wp_get_ready_queue; [by eapply tcb_index_range|].
  fold (tcb_index tc).
  pose proof Q as (Qh & Qe & Ql). wstep. apply wp_guarded_tcb.
  { rewrite Qe. destruct (rq (tcb_index tc)) as [|h l] eqn:El; simpl in *.
    - rewrite Qh. apply (sr_null _ _ R).
    - rewrite Qh. destruct Ql as [Hh0%Z.eqb_neq _]. rewrite Hh0.
      destruct (sched_rep_in s rq (tcb_index tc) (lastd h l) R) as (th & Hth & _); [|by eexists].
      rewrite El. by apply (lastd_in NULL (h :: l)). }
  wstep. apply wp_alter_tcb; [ksimp; by rewrite is_Some_alter|]. ksimp.
  wstep. apply wp_alter_tcb; [ksimp; by rewrite !is_Some_alter|]. ksimp.
  wstep. wstep. apply wp_alter_tcb; [ksimp; by rewrite !is_Some_alter|]. ksimp.
  eapply (sched_rep_writes s rq t tc _ _ _ _ true); try done.
  - intros p. by rewrite !fmap_alter_id.
  - intros p Hp. rewrite lookup_alter_ne by done. by rewrite !fmap_alter_id.
  - apply fmap_alter_const; [done|]. by rewrite !is_Some_alter.
  - split; [|split; [by rewrite lastd_snoc|]].
    { simpl. rewrite Qh. destruct (rq (tcb_index tc)) as [|h l] eqn:El; [done|]. simpl.
      destruct (Z.eqb_spec h NULL) as [E|E]; [|done]. by destruct Ql. }
    eapply dseg_ext; [|apply (dlist_insert (sched_links (ksTcbs s)) _ t []); rewrite ?app_nil_r; try done].
    + assert (q_end (ready_queue s (tcb_index tc)) <> t).
      { rewrite Qe. intros <-. destruct (rq (tcb_index tc)); [done|]. by apply Hnin, lastd_in. }
      intros p Hp. assert (p <> NULL).
      { apply elem_of_app in Hp as [Hp|Hp%list_elem_of_singleton]; [|congruence].
        by eapply dseg_in in Ql as [? _]. }
      simpl. rewrite <- Qe. links_eval.
    + by apply links_of_is_Some.
  - intros p Hp Hpq Hp0. assert (p <> q_end (ready_queue s (tcb_index tc))).
    { rewrite Qe. intros ->. destruct (rq (tcb_index tc)); [done|]. by apply Hpq, lastd_in. }
    links_eval.
  - intros p. clear -Hnin. set_solver.
Qed.

Lemma filter_remove (l1 : list Z) t l2 :
  NoDup (l1 ++ t :: l2) -> filter (fun p : Z => p <> t) (l1 ++ t :: l2) = l1 ++ l2.
Proof.
  intros Hnd. apply NoDup_app in Hnd as (_ & H1 & [H2 _]%NoDup_cons).
  assert (forall l : list Z, t ∉ l -> filter (fun p : Z => p <> t) l = l) as Hid.
  { induction l as [|a l IH]; intros Hn; [done|]. apply not_elem_of_cons in Hn as [Hn1 Hn2].
    rewrite filter_cons_True by congruence. by rewrite IH. }
  rewrite filter_app, filter_cons_False by (intros E; by apply E).
  rewrite !Hid; [done|done|]. intros Hin. specialize (H1 _ Hin). apply H1, list_elem_of_here.
Qed.

(** The neighbours of a queued thread *)
Lemma sched_neighbours s rq t tc :
  sched_rep s rq -> ksTcbs s !! t = Some tc -> tc.(tcbState).(tcbQueued) = true ->
  exists l1 l2, rq (tcb_index tc) = l1 ++ t :: l2 /\
    tc.(tcbSchedPrev) = lastd NULL l1 /\ tc.(tcbSchedNext) = hd NULL l2.
Proof.
  intros R Ht Hq.
  assert (t ∈ rq (tcb_index tc)) as Hin.
  { apply (sr_mem _ _ R). rewrite Ht. simpl. by rewrite <- Hq. }
  apply list_elem_of_split in Hin as (l1 & l2 & El). exists l1, l2.
  pose proof (sr_queue _ _ R (tcb_index tc)) as (_ & _ & Ql). rewrite El in Ql.
  apply dseg_app in Ql as (_ & _ & E & _). unfold sched_links, links_of in E. rewrite Ht in E.
  simpl in E. split_and!; congruence.
Qed.

(** A neighbour pointer is [NULL] or points to another thread. *)
Lemma neighbour_cases s rq idx l1 t l2 p :
  sched_rep s rq -> rq idx = l1 ++ t :: l2 -> NoDup (l1 ++ t :: l2) ->
  p = lastd NULL l1 \/ p = hd NULL l2 ->
  if negb (p =? NULL) then is_Some (ksTcbs s !! p) else ksTcbs s !! p = None.
Proof.
  intros R El Hnd Hp. destruct (Z.eqb_spec p NULL) as [->|E].
  { apply R. }
  assert (p ∈ rq idx) as Hin.
  { rewrite El. apply elem_of_app. destruct Hp as [->| ->].
    - left. apply lastd_in. by intros ->.
    - right. apply elem_of_cons. right. apply hd_in. by intros ->. }
  destruct (sched_rep_in _ _ _ _ R Hin) as (? & ? & _). by eexists.
Qed.

Lemma wp_tcbSchedDequeue s rq t tc :
  sched_rep s rq -> ksTcbs s !! t = Some tc ->
  wp (tcbSchedDequeue t) (fun _ s' =>
    sched_rep s' (dequeue_abs rq t tc) /\ sched_frame s s') s.
Proof.
  intros R Ht. unfold tcbSchedDequeue, dequeue_abs. wrun.
  destruct (tcbQueued (tcbState tc)) eqn:Hq; simpl.
  2: { wstep. split; [done|apply sched_frame_refl]. }
  destruct (sched_neighbours _ _ _ _ R Ht Hq) as (l1 & l2 & El & Hp & Hn).
  pose proof (sr_queue _ _ R (tcb_index tc)) as (Qh & Qe & Ql).
  pose proof (sched_rep_not_null _ _ _ _ R Ht) as Ht0.
  rewrite El in Qh, Qe, Ql. pose proof (dseg_NoDup _ _ _ Ql) as Hnd.
  assert ((t ∉ l1) /\ (t ∉ l2)) as [Ht1 Ht2].
  { apply NoDup_app in Hnd as (_ & Hd & [? _]%NoDup_cons). split; [|done].
    intros Hin. eapply Hd; [exact Hin|apply list_elem_of_here]. }
  assert (lastd NULL l1 <> t) as Hpt.
  { intros <-. destruct l1; [done|]. by apply Ht1, lastd_in. }
  assert (hd NULL l2 <> t) as Hnt.
  { intros <-. destruct l2; [done|]. by apply Ht2, hd_in. }
  wstep. apply wp_get_ready_queue; [by eapply tcb_index_range|]. fold (tcb_index tc).
  wstep. apply wp_guarded_tcb'; [rewrite Hp; eapply neighbour_cases; eauto|]. ksimp. rewrite Hp, Hn.
  wstep. eapply wp_get_tcb; [ksimp; by rewrite lookup_alter_ne|]. rewrite Hp, Hn.
  wstep. apply wp_guarded_tcb'.
  { ksimp. pose proof (neighbour_cases _ _ _ _ _ _ (hd NULL l2) R El Hnd ltac:(by right)) as C.
    destruct (negb (hd NULL l2 =? NULL)); [by rewrite is_Some_alter|by rewrite lookup_alter_None]. }
  ksimp. wstep. wstep. apply wp_alter_tcb; [ksimp; by rewrite !is_Some_alter|]. ksimp.
  rewrite El, filter_remove by done.
  eapply (sched_rep_writes s rq t tc _ _ _ _ false); try done.
  - intros p. by rewrite !fmap_alter_id.
  - intros p Hpt'. rewrite lookup_alter_ne by done. by rewrite !fmap_alter_id.
  - apply fmap_alter_const; [done|]. by rewrite !is_Some_alter.
  - split; [|split].
    + simpl. rewrite Qh. rewrite !hd_app. destruct l1 as [|a l1]; [done|].
      simpl hd. destruct (Z.eqb_spec (lastd NULL (a :: l1)) NULL) as [E|E]; [|done].
      apply dseg_app in Ql as [Ql _]. by pose proof (dseg_null_last _ _ _ _ Ql E).
    + simpl. rewrite Qe. rewrite !lastd_app. destruct l2 as [|a l2]; [done|].
      simpl hd. apply dseg_app in Ql as (_ & _ & _ & Ha & _).
      apply Z.eqb_neq in Ha. by rewrite Ha.
    + eapply dseg_ext; [|apply (dlist_remove _ _ _ _ Ql)].
      intros p Hin. assert (p <> NULL).
      { eapply (dseg_in _ _ _ _ p Ql). rewrite elem_of_app, elem_of_cons. apply elem_of_app in Hin. tauto. }
      links_eval.
  - intros p Hpt' Hin Hp0. rewrite El in Hin.
    assert (p <> lastd NULL l1).
    { intros ->. apply Hin, elem_of_app. left. apply lastd_in. by intros ->. }
    assert (p <> hd NULL l2).
    { intros ->. apply Hin, elem_of_app. right. apply elem_of_cons. right. apply hd_in. by intros ->. }
    links_eval.
  - intros p. rewrite El, !elem_of_app, elem_of_cons. clear -Ht1 Ht2.
    destruct (decide (p = t)) as [->|]; naive_solver.
Qed.

(** ** Endpoint queues *)
Definition unep (t : tcb) : tcb := upd_tcbEPNext 0 (upd_tcbEPPrev 0 t).

(** What an operation on an endpoint queue leaves alone: all of the state but
    the threads, all of a thread but its queue links, and the links of the
    threads outside [l]. *)
Definition ep_frame (l : list Z) (s s' : kstate) : Prop :=
  s' = upd_ksTcbs (ksTcbs s') s /\
  (forall p, unep <$> ksTcbs s' !! p = unep <$> ksTcbs s !! p) /\
  (forall p, p ∉ l -> p <> NULL -> ep_links (ksTcbs s') p = ep_links (ksTcbs s) p).

Lemma ep_queue_threads m q l p :
  queue_rep (ep_links m) q l -> p ∈ l -> p <> NULL /\ is_Some (m !! p).
Proof.
  intros H Hp. destruct (queue_rep_in _ _ _ _ H Hp) as [? S]. by apply links_of_is_Some in S.
Qed.

Lemma wp_tcbEPAppend s q l t :
  queue_rep (ep_links (ksTcbs s)) q l -> ksTcbs s !! NULL = None ->
  is_Some (ksTcbs s !! t) -> t ∉ l ->
  wp (tcbEPAppend t q) (fun q' s' =>
    queue_rep (ep_links (ksTcbs s')) q' (l ++ [t]) /\ ep_frame (l ++ [t]) s s') s.
Proof.
  intros Q H0 Ht Hnin. pose proof Q as (Qh & Qe & Ql).
  assert (t <> NULL) as Ht0 by (intros ->; rewrite H0 in Ht; by destruct Ht).
  unfold tcbEPAppend. wstep. apply wp_guarded_tcb.
  { rewrite Qh, Qe. destruct l as [|h l]; [done|]. simpl hd.
    destruct Ql as [Hh%Z.eqb_neq _]. rewrite Hh.
    eapply ep_queue_threads; [exact Q|]. by apply (lastd_in NULL (h :: l)). }
  wstep. apply wp_alter_tcb; [ksimp; by rewrite is_Some_alter|]. ksimp.
  wstep. apply wp_alter_tcb; [ksimp; by rewrite !is_Some_alter|]. ksimp. wstep.
  assert (q_end q <> t) as Het.
  { rewrite Qe. intros <-. destruct l; [done|]. by apply Hnin, lastd_in. }
  split; [|split; [done|split]].
  - split; [|split; [by rewrite lastd_snoc|]].
    { simpl. rewrite Qh. destruct l as [|h l]; [done|]. simpl.
      destruct (Z.eqb_spec h NULL) as [E|E]; [|done]. by destruct Ql. }
    eapply dseg_ext; [|apply (dlist_insert (ep_links (ksTcbs s)) _ t []); rewrite ?app_nil_r; try done].
    + intros p Hp. assert (p <> NULL).
      { apply elem_of_app in Hp as [Hp|Hp%list_elem_of_singleton]; [|congruence].
        by eapply dseg_in in Ql as [? _]. }
      simpl. rewrite <- Qe. links_eval.
    + by apply links_of_is_Some.
  - intros p. ksimp. by rewrite !fmap_alter_id.
  - intros p Hp Hp0. ksimp. apply not_elem_of_app in Hp as [Hp1 Hp2%not_elem_of_cons].
    assert (p <> q_end q). { rewrite Qe. intros ->. apply Hp1, lastd_in. by intros ->. }
    destruct Hp2. links_eval.
Qed.

Lemma wp_tcbEPDequeue s q l1 t l2 :
  queue_rep (ep_links (ksTcbs s)) q (l1 ++ t :: l2) -> ksTcbs s !! NULL = None ->
  wp (tcbEPDequeue t q) (fun q' s' =>
    queue_rep (ep_links (ksTcbs s')) q' (l1 ++ l2) /\ ep_frame (l1 ++ l2) s s') s.
Proof.
  intros Q H0. pose proof Q as (Qh & Qe & Ql). pose proof (dseg_NoDup _ _ _ Ql) as Hnd.
  assert (t <> NULL /\ is_Some (ksTcbs s !! t)) as [Ht0 [tc Ht]].
  { eapply ep_queue_threads; [exact Q|]. apply elem_of_app. right. apply list_elem_of_here. }
  assert (tc.(tcbEPPrev) = lastd NULL l1 /\ tc.(tcbEPNext) = hd NULL l2) as [Hp Hn].
  { apply dseg_app in Ql as (_ & _ & E & _). unfold ep_links, links_of in E.
    rewrite Ht in E. simpl in E. split; congruence. }
  assert ((t ∉ l1) /\ (t ∉ l2)) as [Ht1 Ht2].
  { apply NoDup_app in Hnd as (_ & Hd & [? _]%NoDup_cons). split; [|done].
    intros Hin. eapply Hd; [exact Hin|apply list_elem_of_here]. }
  assert (lastd NULL l1 <> t) as Hpt.
  { intros <-. destruct l1; [done|]. by apply Ht1, lastd_in. }
  assert (hd NULL l2 <> t) as Hnt.
  { intros <-. destruct l2; [done|]. by apply Ht2, hd_in. }
  assert (forall p, p = lastd NULL l1 \/ p = hd NULL l2 ->
    if negb (p =? NULL) then is_Some (ksTcbs s !! p) else ksTcbs s !! p = None) as Hnb.
  { intros p Hp'. destruct (Z.eqb_spec p NULL) as [->|E]; [done|].
    eapply ep_queue_threads; [exact Q|]. apply elem_of_app.
    destruct Hp' as [->| ->].
    - left. apply lastd_in. by intros ->.
    - right. apply elem_of_cons. right. apply hd_in. by intros ->. }
  unfold tcbEPDequeue. wstep. eapply wp_get_tcb; [done|].
  wstep. apply wp_guarded_tcb'; [rewrite Hp; apply Hnb; by left|]. ksimp. rewrite Hp, Hn.
  wstep. eapply wp_get_tcb; [ksimp; by rewrite lookup_alter_ne|]. rewrite Hp, Hn.
  wstep. apply wp_guarded_tcb'.
  { ksimp. specialize (Hnb (hd NULL l2) ltac:(by right)).
    destruct (negb (hd NULL l2 =? NULL)); [by rewrite is_Some_alter|by rewrite lookup_alter_None]. }
  ksimp. wstep. split; [|split; [done|split]].
  - split; [|split].
    + simpl. rewrite Qh, !hd_app. destruct l1 as [|a l1]; [done|].
      simpl hd. destruct (Z.eqb_spec (lastd NULL (a :: l1)) NULL) as [E|E]; [|done].
      apply dseg_app in Ql as [Ql _]. by pose proof (dseg_null_last _ _ _ _ Ql E).
    + simpl. rewrite Qe, !lastd_app. destruct l2 as [|a l2]; [done|].
      simpl hd. apply dseg_app in Ql as (_ & _ & _ & Ha & _).
      apply Z.eqb_neq in Ha. by rewrite Ha.
    + eapply dseg_ext; [|apply (dlist_remove _ _ _ _ Ql)].
      intros p Hin. assert (p <> NULL).
      { eapply (dseg_in _ _ _ _ p Ql). rewrite elem_of_app, elem_of_cons. apply elem_of_app in Hin. tauto. }
      links_eval.
  - intros p. ksimp. by rewrite !fmap_alter_id.
  - intros p Hin Hp0. ksimp. apply not_elem_of_app in Hin as [Hi1 Hi2].
    assert (p <> lastd NULL l1). { intros ->. apply Hi1, lastd_in. by intros ->. }
    assert (p <> hd NULL l2). { intros ->. apply Hi2, hd_in. by intros ->. }
    links_eval.
Qed.
