(* ===== verification/VSpace.v ===== *)
(** * Address spaces (src/arch/arm/kernel/vspace.c, lines 71-962)

    Page directories, page tables and ASID pools are words of [ksMem]; the
    hardware operations are events of [hw_log]. This file holds the lookups,
    the hardware ASID allocator, the flushes and the unmap operations; the
    invocations are in [VSpaceInv]. *)
From stdpp Require Import base list gmap.
From Stdlib Require Import ZArith Lia.
From S2P Require Import Prelude.
From S2P Require Import Structures.
From S2P Require Import KernelState.

(** ** Addresses (include/plat/omap4/plat/machine/hardware.h) *)
Definition physBase : Z := 0x80000000.
Definition kernelBase : Z := 0xf0000000.
Definition physMappingOffset : Z := kernelBase - physBase.
Definition ptrFromPAddr (paddr : Z) : Z := paddr +w physMappingOffset.
Definition addrFromPPtr (pptr : Z) : Z := pptr -w physMappingOffset.

Definition PD_ASID_SLOT : Z := 0xff0.
Definition PT_BITS : Z := 8.
Definition PAGES_PER_LARGE_PAGE : Z := BIT (ARMLargePageBits - ARMSmallPageBits).
Definition SECTIONS_PER_SUPER_SECTION : Z := BIT (ARMSuperSectionBits - ARMSectionBits).
Definition nASIDPools : Z := BIT asidHighBits.
(** The address of the last byte of the [n] entries from [p] on *)
Definition LAST_BYTE (p n : Z) : Z := word_at p (n - 1) +w 3.

(** ** Table entries: packed words *)
Inductive pde_tag := pde_pde_invalid | pde_pde_coarse | pde_pde_section | pde_pde_reserved.
Global Instance pde_tag_eq_dec : EqDecision pde_tag.
Proof. solve_decision. Defined.
Definition pde_get_pdeType (w : Z) : pde_tag :=
  let t := bf_get w 0 2 in
  if t =? 0 then pde_pde_invalid else if t =? 1 then pde_pde_coarse
  else if t =? 2 then pde_pde_section else pde_pde_reserved.
Definition put (w v shift : Z) : Z := Z.shiftl (field w v) shift.

Definition pde_pde_invalid_new (stored_hw_asid : Z) (valid : bool) : Z :=
  put 8 stored_hw_asid 24 |w put 1 (bool_word valid) 23.
Definition pde_pde_invalid_get_stored_hw_asid (w : Z) : Z := bf_get w 24 8.
Definition pde_pde_invalid_get_stored_asid_valid (w : Z) : bool := bf_flag w 23.
Definition pde_pde_coarse_new (address : Z) (P : bool) (Domain : Z) : Z :=
  field_high 22 address |w put 1 (bool_word P) 9 |w put 4 Domain 5 |w 1.
Definition pde_pde_coarse_get_address (w : Z) : Z := field_high 22 w.
Definition pde_pde_section_new (address size nG S APX TEX AP : Z) (P : bool) (Domain : Z)
    (XN : bool) (C B : Z) : Z :=
  field_high 12 address |w put 1 size 18 |w put 1 nG 17 |w put 1 S 16 |w put 1 APX 15
  |w put 3 TEX 12 |w put 2 AP 10 |w put 1 (bool_word P) 9 |w put 4 Domain 5
  |w put 1 (bool_word XN) 4 |w put 1 C 3 |w put 1 B 2 |w 2.
Definition pde_pde_section_get_address (w : Z) : Z := field_high 12 w.
Definition pde_pde_section_get_size (w : Z) : Z := bf_get w 18 1.

Inductive pte_tag := pte_pte_large | pte_pte_small | pte_pte_invalid.
Global Instance pte_tag_eq_dec : EqDecision pte_tag.
Proof. solve_decision. Defined.
Definition pte_get_pteType (w : Z) : pte_tag :=
  if bf_flag w 1 then pte_pte_small else if bf_flag w 0 then pte_pte_large else pte_pte_invalid.
Definition pte_pte_small_new (address nG S APX TEX AP C B : Z) (XN : bool) : Z :=
  field_high 20 address |w put 1 nG 11 |w put 1 S 10 |w put 1 APX 9 |w put 3 TEX 6
  |w put 2 AP 4 |w put 1 C 3 |w put 1 B 2 |w 2 |w put 1 (bool_word XN) 0.
Definition pte_pte_small_get_address (w : Z) : Z := field_high 20 w.
Definition pte_pte_large_new (address : Z) (XN : bool) (TEX nG S APX AP C B reserved : Z) : Z :=
  field_high 16 address |w put 1 (bool_word XN) 15 |w put 3 TEX 12 |w put 1 nG 11
  |w put 1 S 10 |w put 1 APX 9 |w put 2 AP 4 |w put 1 C 3 |w put 1 B 2 |w put 1 reserved 0.
Definition pte_pte_large_get_address (w : Z) : Z := field_high 16 w.
Definition pte_pte_invalid_new : Z := 0.

Definition APFromVMRights (vm_rights : Z) : K Z :=
  if vm_rights =? VMNoAccess then ret 0
  else if vm_rights =? VMKernelOnly then ret 1
  else if vm_rights =? VMReadOnly then ret 2
  else if vm_rights =? VMReadWrite then ret 3
  else fail.

(** ** Cache and TLB operations *)
Definition cleanByVA_PoU (va pa : Z) : K unit := hw_emit (HwCleanByVA_PoU va pa).
Definition cleanCacheRange_PoU (start last pstart : Z) : K unit :=
  hw_emit (HwCleanCacheRange_PoU start last pstart).
Definition invalidateTLB_ASID (hw_asid : Z) : K unit := hw_emit (HwInvalidateTLB_ASID hw_asid).
Definition invalidateTLB_VAASID (mva : Z) : K unit := hw_emit (HwInvalidateTLB_VAASID mva).
Definition cleanCaches_PoU : K unit := hw_emit HwCleanCaches_PoU.
(** The address is masked to its high 19 bits and the cache bits are set *)
Definition writeTTBR0 (addr : Z) : K unit := hw_emit (HwWriteTTBR0 ((addr &w 0xffffe000) |w 0x18)).
Definition setCurrentPD (addr : Z) : K unit := writeTTBR0 addr.

(** [memzero] of util.c: [n] bytes, a word at a time *)
Definition memzero (p n : Z) : K unit :=
  assert (p mod 4 =? 0) ;;; assert (n mod 4 =? 0) ;;;
  for_upto (Z.to_nat (n / 4)) 0 (fun i => write_word (word_at p i) 0).
Definition clearMemory (p bits : Z) : K unit :=
  memzero p (BIT bits) ;;;
  cleanCacheRange_PoU p ((p +w BIT bits) -w 1) (addrFromPPtr p).

(** ** The IPC buffer *)
Definition lookupIPCBuffer (isReceiver : bool) (thread : Z) : K Z :=
  let* t := get_tcb thread in
  let w_bufferPtr := t.(tcbIPCBuffer) in
  let* bufferCap := get_cap (TCB_PTR_CTE_PTR thread tcbBuffer) in
  if (cap_get_capType bufferCap != cap_small_frame_cap)
     && (cap_get_capType bufferCap != cap_frame_cap) then ret NULL
  else
    let vm_rights := generic_frame_cap_get_capFVMRights bufferCap in
    if (vm_rights =? VMReadWrite) || (negb isReceiver && (vm_rights =? VMReadOnly)) then
      let basePtr := generic_frame_cap_get_capFBasePtr bufferCap in
      let pageBits := pageBitsForSize (generic_frame_cap_get_capFSize bufferCap) in
      ret (basePtr +w (w_bufferPtr &w MASK pageBits))
    else ret NULL.

(** ** Lookups *)
Definition get_asid_table (i : Z) : K Z :=
  if (0 <=? i) && (i <? nASIDPools)
  then gets (fun s => default NULL (armKSASIDTable s !! i)) else halt_with Undefined.
Definition set_asid_table (i v : Z) : K unit :=
  if (0 <=? i) && (i <? nASIDPools)
  then modify (fun s => upd_armKSASIDTable (<[i := v]> (armKSASIDTable s)) s)
  else halt_with Undefined.
Definition hwasid_entry (s : kstate) (h : Z) : Z := default asidInvalid (armKSHWASIDTable s !! h).
Definition set_hwasid (h asid : Z) : K unit :=
  modify (fun s => upd_armKSHWASIDTable (<[h := asid]> (armKSHWASIDTable s)) s).

Definition findPDForASID (asid : Z) : K (exception_t * Z) :=
  let* poolPtr := get_asid_table (asid >>w asidLowBits) in
  if poolPtr =? NULL then
    set_current_lookup_fault lookup_fault_invalid_root ;;;
    ret (EXCEPTION_LOOKUP_FAULT, NULL)
  else
    let* pd := read_word (word_at poolPtr (asid &w MASK asidLowBits)) in
    if pd =? NULL then
      set_current_lookup_fault lookup_fault_invalid_root ;;;
      ret (EXCEPTION_LOOKUP_FAULT, NULL)
    else ret (EXCEPTION_NONE, pd).

Definition lookupPDSlot (pd vptr : Z) : Z := word_at pd (vptr >>w 20).

Definition lookupPTSlot (pd vptr : Z) : K (exception_t * Z) :=
  let* pde := read_word (lookupPDSlot pd vptr) in
  if pde_get_pdeType pde != pde_pde_coarse then
    set_current_lookup_fault (lookup_fault_missing_capability_new 20) ;;;
    ret (EXCEPTION_LOOKUP_FAULT, NULL)
  else
    let pt := ptrFromPAddr (pde_pde_coarse_get_address pde) in
    ret (EXCEPTION_NONE, word_at pt ((vptr >>w 12) &w 0xff)).

Definition lookupPTSlot_nofail (pt vptr : Z) : Z := word_at pt ((vptr >>w 12) &w MASK 8).

(** ** Faults of the memory management unit *)
Inductive vm_fault_type := ARMDataAbort | ARMPrefetchAbort.

Definition handleVMFault (thread : Z) (vm_faultType : vm_fault_type) : K exception_t :=
  match vm_faultType with
  | ARMDataAbort =>
      let* hw := gets ksHw in
      set_current_fault (fault_vm_fault_new hw.(hw_faultAddress) hw.(hw_dataFaultStatus) false) ;;;
      ret EXCEPTION_FAULT
  | ARMPrefetchAbort =>
      let* pc := getRestartPC thread in
      let* hw := gets ksHw in
      set_current_fault (fault_vm_fault_new pc hw.(hw_instFaultStatus) true) ;;;
      ret EXCEPTION_FAULT
  end.

(** ** Hardware ASIDs *)

(** The page directory of an ASID; the pool and the directory must exist. *)
Definition asid_pd (asid : Z) : K Z :=
  let* asidPool := get_asid_table (asid >>w asidLowBits) in
  assert (negb (asidPool =? NULL)) ;;;
  let* pd := read_word (word_at asidPool (asid &w MASK asidLowBits)) in
  assert (negb (pd =? NULL)) ;;;
  ret pd.

Definition invalidateASID (asid : Z) : K unit :=
  let* pd := asid_pd asid in
  write_word (word_at pd PD_ASID_SLOT) (pde_pde_invalid_new 0 false).

Definition loadHWASID (asid : Z) : K Z :=
  let* pd := asid_pd asid in
  read_word (word_at pd PD_ASID_SLOT).

Definition storeHWASID (asid hw_asid : Z) : K unit :=
  let* pd := asid_pd asid in
  write_word (word_at pd PD_ASID_SLOT) (pde_pde_invalid_new hw_asid true) ;;;
  set_hwasid hw_asid asid.

Definition invalidateASIDEntry (asid : Z) : K unit :=
  let* stored_hw_asid := loadHWASID asid in
  when (pde_pde_invalid_get_stored_asid_valid stored_hw_asid)
    (set_hwasid (pde_pde_invalid_get_stored_hw_asid stored_hw_asid) asidInvalid) ;;;
  invalidateASID asid.

(** The scan of findFreeHWASID: [n] offsets from [off] on; [hw_asid_t] is 8 bits wide *)
Fixpoint scanHWASID (s : kstate) (n : nat) (off : Z) : option Z :=
  match n with
  | O => None
  | S n' =>
      let hw_asid := (armKSNextASID s + off) mod 256 in
      if hwasid_entry s hw_asid =? asidInvalid then Some hw_asid
      else scanHWASID s n' (off + 1)
  end.

Definition findFreeHWASID : K Z :=
  let* s := get in
  match scanHWASID s 256 0 with
  | Some hw_asid => ret hw_asid
  | None =>
      let hw_asid := armKSNextASID s in
      invalidateASID (hwasid_entry s hw_asid) ;;;
      invalidateTLB_ASID hw_asid ;;;
      set_hwasid hw_asid asidInvalid ;;;
      modify (fun s => upd_armKSNextASID ((armKSNextASID s + 1) mod 256) s) ;;;
      ret hw_asid
  end.

Definition getHWASID (asid : Z) : K Z :=
  let* stored_hw_asid := loadHWASID asid in
  if pde_pde_invalid_get_stored_asid_valid stored_hw_asid
  then ret (pde_pde_invalid_get_stored_hw_asid stored_hw_asid)
  else
    let* new_hw_asid := findFreeHWASID in
    storeHWASID asid new_hw_asid ;;;
    ret new_hw_asid.

(** include/arch/arm/armv/armv7-a/armv/context_switch.h *)
Definition armv_contextSwitch_HWASID (cap_pd hw_asid : Z) : K unit :=
  let* s := get in
  writeTTBR0 (addrFromPPtr (armKSGlobalPD s)) ;;;
  hw_emit (HwWriteContextID hw_asid) ;;;
  writeTTBR0 (addrFromPPtr cap_pd).
Definition armv_contextSwitch (cap_pd asid : Z) : K unit :=
  let* hw_asid := getHWASID asid in
  armv_contextSwitch_HWASID cap_pd hw_asid.

(** ** The current address space *)
Definition setVMRoot (tcb : Z) : K unit :=
  let* threadRoot := get_cap (TCB_PTR_CTE_PTR tcb tcbVTable) in
  let* s := get in
  match threadRoot with
  | Cap_page_directory asid true pd =>
      let* find_ret := findPDForASID asid in
      if (fst find_ret != EXCEPTION_NONE) || negb (snd find_ret =? pd)
      then setCurrentPD (addrFromPPtr (armKSGlobalPD s))
      else armv_contextSwitch pd asid
  | _ => setCurrentPD (addrFromPPtr (armKSGlobalPD s))
  end.

Definition setVMRootForFlush (pd asid : Z) : K bool :=
  let* s := get in
  let* threadRoot := get_cap (TCB_PTR_CTE_PTR (ksCurThread s) tcbVTable) in
  match threadRoot with
  | Cap_page_directory _ true pd' =>
      if pd' =? pd then ret false else armv_contextSwitch pd asid ;;; ret true
  | _ => armv_contextSwitch pd asid ;;; ret true
  end.

Definition isValidVTableRoot (c : cap) : bool :=
  match c with Cap_page_directory _ mapped _ => mapped | _ => false end.

Definition checkValidIPCBuffer (vptr : Z) (c : cap) : K exception_t :=
  if (cap_get_capType c != cap_small_frame_cap) && (cap_get_capType c != cap_frame_cap)
  then throw seL4_IllegalOperation
  else if negb ((vptr &w MASK 9) =? 0) then throw seL4_AlignmentError
  else ret EXCEPTION_NONE.

Definition maskVMRights (vm_rights cap_rights_mask : Z) : Z :=
  if vm_rights =? VMNoAccess then VMNoAccess
  else if (vm_rights =? VMReadOnly) && cap_rights_get_capAllowRead cap_rights_mask
  then VMReadOnly
  else if (vm_rights =? VMReadWrite) && cap_rights_get_capAllowRead cap_rights_mask
  then if negb (cap_rights_get_capAllowWrite cap_rights_mask) then VMReadOnly else VMReadWrite
  else VMKernelOnly.

(** ** Flushes *)
Definition flushPage (page_size pd asid vptr : Z) : K unit :=
  assert ((vptr &w MASK (pageBitsForSize page_size)) =? 0) ;;;
  let* root_switched := setVMRootForFlush pd asid in
  let* stored_hw_asid := loadHWASID asid in
  when (pde_pde_invalid_get_stored_asid_valid stored_hw_asid)
    (let base_addr := vptr &w wnot (MASK 12) in
     invalidateTLB_VAASID (base_addr |w pde_pde_invalid_get_stored_hw_asid stored_hw_asid) ;;;
     let* s := get in
     when root_switched (setVMRoot (ksCurThread s))).

Definition flushTable (pd asid vptr pt : Z) : K unit :=
  assert ((vptr &w MASK (PT_BITS + ARMSmallPageBits)) =? 0) ;;;
  let* root_switched := setVMRootForFlush pd asid in
  let* stored_hw_asid := loadHWASID asid in
  when (pde_pde_invalid_get_stored_asid_valid stored_hw_asid)
    (invalidateTLB_ASID (pde_pde_invalid_get_stored_hw_asid stored_hw_asid) ;;;
     let* s := get in
     when root_switched (setVMRoot (ksCurThread s))).

Definition flushSpace (asid : Z) : K unit :=
  let* stored_hw_asid := loadHWASID asid in
  cleanCaches_PoU ;;;
  if negb (pde_pde_invalid_get_stored_asid_valid stored_hw_asid) then ret tt
  else invalidateTLB_ASID (pde_pde_invalid_get_stored_hw_asid stored_hw_asid).

Definition invalidateTLBByASID (asid : Z) : K unit :=
  let* stored_hw_asid := loadHWASID asid in
  if negb (pde_pde_invalid_get_stored_asid_valid stored_hw_asid) then ret tt
  else invalidateTLB_ASID (pde_pde_invalid_get_stored_hw_asid stored_hw_asid).

(** ** Deletion of ASIDs and unmapping *)
Definition setVMRoot_current : K unit := let* s := get in setVMRoot (ksCurThread s).

Definition deleteASIDPool (asid_base pool : Z) : K unit :=
  assert ((asid_base &w MASK asidLowBits) =? 0) ;;;
  let* poolPtr := get_asid_table (asid_base >>w asidLowBits) in
  when (poolPtr =? pool)
    (for_upto (Z.to_nat (BIT asidLowBits)) 0 (fun offset =>
       let* pd := read_word (word_at pool offset) in
       when (negb (pd =? NULL))
         (flushSpace (asid_base +w offset) ;;;
          invalidateASIDEntry (asid_base +w offset))) ;;;
     set_asid_table (asid_base >>w asidLowBits) NULL ;;;
     setVMRoot_current).

Definition deleteASID (asid pd : Z) : K unit :=
  let* poolPtr := get_asid_table (asid >>w asidLowBits) in
  if poolPtr =? NULL then ret tt
  else
    let* entry := read_word (word_at poolPtr (asid &w MASK asidLowBits)) in
    when (entry =? pd)
      (flushSpace asid ;;;
       invalidateASIDEntry asid ;;;
       write_word (word_at poolPtr (asid &w MASK asidLowBits)) NULL ;;;
       setVMRoot_current).

Definition pageTableMapped (asid vaddr pt : Z) : K Z :=
  let* find_ret := findPDForASID asid in
  if fst find_ret != EXCEPTION_NONE then ret NULL
  else
    let* pde := read_word (word_at (snd find_ret) (vaddr >>w 20)) in
    if (pde_get_pdeType pde == pde_pde_coarse)
       && (ptrFromPAddr (pde_pde_coarse_get_address pde) =? pt)
    then ret (snd find_ret) else ret NULL.

Definition unmapPageTable (asid vaddr pt : Z) : K unit :=
  let* pd := pageTableMapped asid vaddr pt in
  when (negb (pd =? NULL))
    (let pdSlot := word_at pd (vaddr >>w 20) in
     write_word pdSlot (pde_pde_invalid_new 0 false) ;;;
     cleanByVA_PoU pdSlot (addrFromPPtr pdSlot) ;;;
     flushTable pd asid vaddr pt).

(** Removal of the mapping of a page, by page size: whether there was one to remove *)
Definition unmapSmallPage (pd vptr addr : Z) : K bool :=
  let* lu_ret := lookupPTSlot pd vptr in
  if fst lu_ret != EXCEPTION_NONE then ret false
  else
    let* pte := read_word (snd lu_ret) in
    if pte_get_pteType pte != pte_pte_small then ret false
    else if negb (pte_pte_small_get_address pte =? addr) then ret false
    else
      write_word (snd lu_ret) pte_pte_invalid_new ;;;
      cleanByVA_PoU (snd lu_ret) (addrFromPPtr (snd lu_ret)) ;;;
      ret true.

Definition unmapLargePage (pd vptr addr : Z) : K bool :=
  let* lu_ret := lookupPTSlot pd vptr in
  if fst lu_ret != EXCEPTION_NONE then ret false
  else
    let slot := snd lu_ret in
    let* pte := read_word slot in
    if pte_get_pteType pte != pte_pte_large then ret false
    else if negb (pte_pte_large_get_address pte =? addr) then ret false
    else
      for_upto (Z.to_nat PAGES_PER_LARGE_PAGE) 0 (fun i =>
        write_word (word_at slot i) pte_pte_invalid_new) ;;;
      cleanCacheRange_PoU slot (LAST_BYTE slot PAGES_PER_LARGE_PAGE) (addrFromPPtr slot) ;;;
      ret true.

Definition unmapSection (pd vptr addr : Z) : K bool :=
  let slot := lookupPDSlot pd vptr in
  let* pde := read_word slot in
  if pde_get_pdeType pde != pde_pde_section then ret false
  else if negb (pde_pde_section_get_size pde =? 0) then ret false
  else if negb (pde_pde_section_get_address pde =? addr) then ret false
  else
    write_word slot (pde_pde_invalid_new 0 false) ;;;
    cleanByVA_PoU slot (addrFromPPtr slot) ;;;
    ret true.

Definition unmapSuperSection (pd vptr addr : Z) : K bool :=
  let slot := lookupPDSlot pd vptr in
  let* pde := read_word slot in
  if pde_get_pdeType pde != pde_pde_section then ret false
  else if negb (pde_pde_section_get_size pde =? 1) then ret false
  else if negb (pde_pde_section_get_address pde =? addr) then ret false
  else
    for_upto (Z.to_nat SECTIONS_PER_SUPER_SECTION) 0 (fun i =>
      write_word (word_at slot i) (pde_pde_invalid_new 0 false)) ;;;
    cleanCacheRange_PoU slot (LAST_BYTE slot SECTIONS_PER_SUPER_SECTION) (addrFromPPtr slot) ;;;
    ret true.

Definition unmapPage (page_size asid vptr pptr : Z) : K unit :=
  let addr := addrFromPPtr pptr in
  let* find_ret := findPDForASID asid in
  if fst find_ret != EXCEPTION_NONE then ret tt
  else
    let pd := snd find_ret in
    let* unmapped :=
      (if page_size =? ARMSmallPage then unmapSmallPage pd vptr addr
       else if page_size =? ARMLargePage then unmapLargePage pd vptr addr
       else if page_size =? ARMSection then unmapSection pd vptr addr
       else if page_size =? ARMSuperSection then unmapSuperSection pd vptr addr
       else fail) in
    when unmapped (flushPage page_size pd asid vptr).

(** ** The initial contents of a page directory *)
Definition copyGlobalMappings (newPD : Z) : K unit :=
  let* s := get in
  let first := kernelBase >>w ARMSectionBits in
  for_upto (Z.to_nat (BIT PD_BITS - first)) first (fun i =>
    when (negb (i =? PD_ASID_SLOT))
      (let* w := read_word (word_at (armKSGlobalPD s) i) in
       write_word (word_at newPD i) w)).

(** ** Hardware ASIDs: the allocator's invariant

    [asid_pd_of s asid] is the page directory of an ASID, [hwasid_wf] says that
    the table of hardware ASIDs and the numbers stored in the directories agree. *)
Definition numASIDs : Z := 2 ^ (asidHighBits + asidLowBits).
Definition asid_pool (s : kstate) (i : Z) : Z := default NULL (armKSASIDTable s !! i).
Definition asid_entry (s : kstate) (asid : Z) : Z :=
  word_at (asid_pool s (asid >>w asidLowBits)) (asid &w MASK asidLowBits).
Definition asid_pd_of (s : kstate) (asid : Z) : option Z :=
  if asid_pool s (asid >>w asidLowBits) =? NULL then None
  else match ksMem s (asid_entry s asid) with
       | Some pd => if pd =? NULL then None else Some pd
       | None => None
       end.
Definition pd_asid_slot (pd : Z) : Z := word_at pd PD_ASID_SLOT.
Definition stored_valid (w : Z) : bool := pde_pde_invalid_get_stored_asid_valid w.
Definition stored_hwasid (w : Z) : Z := pde_pde_invalid_get_stored_hw_asid w.

Record hwasid_wf (s : kstate) : Prop := {
  hw_next : 0 <= armKSNextASID s < 256;
  (* pools are readable, and hold no directory *)
  hw_pool : forall asid, 0 <= asid < numASIDs -> asid_pool s (asid >>w asidLowBits) <> NULL ->
    is_Some (ksMem s (asid_entry s asid)) /\
    forall asid' pd, 0 < asid' < numASIDs -> asid_pd_of s asid' = Some pd ->
      asid_entry s asid <> pd_asid_slot pd;
  (* an entry of the table names an ASID whose directory stores it *)
  hw_entry : forall h, 0 <= h < 256 -> hwasid_entry s h <> asidInvalid ->
    0 < hwasid_entry s h < numASIDs /\
    exists pd w, asid_pd_of s (hwasid_entry s h) = Some pd /\
      ksMem s (pd_asid_slot pd) = Some w /\ stored_valid w = true /\ stored_hwasid w = h;
  (* a number stored in a directory is the table's *)
  hw_stored : forall asid pd, 0 < asid < numASIDs -> asid_pd_of s asid = Some pd ->
    exists w, ksMem s (pd_asid_slot pd) = Some w /\
      (stored_valid w = true -> hwasid_entry s (stored_hwasid w) = asid);
  (* ASIDs have different directories *)
  hw_inj : forall a a' pd pd', 0 < a < numASIDs -> 0 < a' < numASIDs ->
    asid_pd_of s a = Some pd -> asid_pd_of s a' = Some pd' ->
    pd_asid_slot pd = pd_asid_slot pd' -> a = a' }.

(** What the operations on address spaces leave alone *)
Definition vm_frame (s s' : kstate) : Prop :=
  s' = upd_ksMem (ksMem s') (upd_armKSHWASIDTable (armKSHWASIDTable s')
         (upd_armKSNextASID (armKSNextASID s') (upd_ksHw (ksHw s')
           (upd_current_lookup_fault (current_lookup_fault s') s)))).
Lemma vm_frame_refl s : vm_frame s s.
Proof. by destruct s. Qed.
Lemma vm_frame_trans s1 s2 s3 : vm_frame s1 s2 -> vm_frame s2 s3 -> vm_frame s1 s3.
Proof. unfold vm_frame. intros E1 E2. rewrite E2, E1. done. Qed.

Lemma asid_index asid : 0 <= asid < numASIDs ->
  0 <= asid >>w asidLowBits < nASIDPools.
Proof.
  unfold numASIDs, nASIDPools, wshr. change (BIT asidHighBits) with 256.
  change (2 ^ (asidHighBits + asidLowBits)) with (1024 * 256). intros H.
  rewrite Z.shiftr_div_pow2 by done. change (2 ^ asidLowBits) with 1024.
  split; [apply Z.div_pos; lia|apply Z.div_lt_upper_bound; lia].
Qed.

Lemma wp_get_asid_table s i Q :
  0 <= i < nASIDPools -> Q (asid_pool s i) s -> wp (get_asid_table i) Q s.
Proof.
  intros H HQ. unfold get_asid_table.
  replace ((0 <=? i) && (i <? nASIDPools)) with true; [done|]. symmetry. apply andb_true_iff. lia.
Qed.

(** The stored number of a directory entry *)
Lemma stored_hwasid_range w : 0 <= stored_hwasid w < 256.
Proof.
  unfold stored_hwasid, pde_pde_invalid_get_stored_hw_asid, bf_get.
  rewrite Z.land_ones by done. apply Z.mod_pos_bound. done.
Qed.

Lemma stored_new h : 0 <= h < 256 ->
  stored_valid (pde_pde_invalid_new h true) = true /\ stored_hwasid (pde_pde_invalid_new h true) = h.
Proof.
  intros H. unfold stored_valid, stored_hwasid, pde_pde_invalid_get_stored_asid_valid,
    pde_pde_invalid_get_stored_hw_asid, pde_pde_invalid_new, put, field, bf_flag, bf_get.
  rewrite !Z.land_ones by done. change (2 ^ 8) with 256.
  rewrite (Z.mod_small h) by done. split.
  - rewrite Z.lor_spec, !Z.shiftl_spec by done.
    rewrite Z.testbit_neg_r by done. done.
  - rewrite Z.shiftr_lor, (Z.shiftr_shiftl_l h 24 24) by done.
    change (Z.shiftl h (24 - 24)) with (Z.shiftl h 0). rewrite Z.shiftl_0_r.
    replace (Z.shiftr (Z.shiftl (bool_word true mod 2 ^ 1) 23) 24) with 0 by done.
    rewrite Z.lor_0_r. by apply Z.mod_small.
Qed.

Lemma stored_invalid h : stored_valid (pde_pde_invalid_new h false) = false.
Proof.
  unfold stored_valid, pde_pde_invalid_get_stored_asid_valid, pde_pde_invalid_new, put, bf_flag.
  rewrite Z.lor_spec, !Z.shiftl_spec by done. rewrite Z.testbit_neg_r by done. done.
Qed.

Lemma asid_pd_of_inv s asid pd :
  asid_pd_of s asid = Some pd ->
  asid_pool s (asid >>w asidLowBits) <> NULL /\ ksMem s (asid_entry s asid) = Some pd /\ pd <> NULL.
Proof.
  unfold asid_pd_of. destruct (Z.eqb_spec (asid_pool s (asid >>w asidLowBits)) NULL); [done|].
  destruct (ksMem s (asid_entry s asid)) as [x|]; [|done].
  destruct (Z.eqb_spec x NULL); [done|]. intros [= ->]. done.
Qed.

Lemma wp_asid_pd s asid pd Q :
  0 <= asid < numASIDs -> asid_pd_of s asid = Some pd -> Q pd s -> wp (asid_pd asid) Q s.
Proof.
  intros Ha (Hp & Hm & Hnz)%asid_pd_of_inv HQ. unfold asid_pd. wstep.
  apply wp_get_asid_table; [by apply asid_index|].
  wstep. apply wp_assert; [by apply negb_true_iff, Z.eqb_neq|].
  wstep. eapply wp_read_word; [exact Hm|].
  wstep. apply wp_assert; [by apply negb_true_iff, Z.eqb_neq|]. wstep. done.
Qed.

Lemma mem_set_eq m a v : mem_set m a v a = Some v.
Proof. unfold mem_set. by rewrite Z.eqb_refl. Qed.
Lemma mem_set_ne m a v x : x <> a -> mem_set m a v x = m x.
Proof. intros H. unfold mem_set. by rewrite (proj2 (Z.eqb_neq x a)). Qed.

(** A write of a directory's stored number, with a change of the table *)
Section store.
Context (s : kstate) (asid pd : Z) (v : Z) (t : gmap Z Z).
Hypotheses (W : hwasid_wf s) (Ha : 0 < asid < numASIDs) (Hpd : asid_pd_of s asid = Some pd).
Let s' := upd_armKSHWASIDTable t (upd_ksMem (mem_set (ksMem s) (pd_asid_slot pd) v) s).

Lemma store_entry a : 0 <= a < numASIDs -> asid_pool s (a >>w asidLowBits) <> NULL ->
  ksMem s' (asid_entry s a) = ksMem s (asid_entry s a).
Proof using W Ha Hpd.
  intros H Hp. apply mem_set_ne. destruct (hw_pool _ W _ H Hp) as [_ D]. by apply (D asid).
Qed.

Lemma store_pd_of a : 0 <= a < numASIDs -> asid_pd_of s' a = asid_pd_of s a.
Proof using W Ha Hpd.
  intros H. unfold asid_pd_of.
  change (asid_pool s' (a >>w asidLowBits)) with (asid_pool s (a >>w asidLowBits)).
  change (asid_entry s' a) with (asid_entry s a).
  destruct (Z.eqb_spec (asid_pool s (a >>w asidLowBits)) NULL); [done|].
  by rewrite store_entry.
Qed.

(** The invariant holds after the write if the new table and the new word agree. *)
Lemma store_wf :
  (forall h, 0 <= h < 256 -> default asidInvalid (t !! h) <> asidInvalid ->
    (default asidInvalid (t !! h) = asid /\ stored_valid v = true /\ stored_hwasid v = h) \/
    (default asidInvalid (t !! h) = hwasid_entry s h /\ hwasid_entry s h <> asid)) ->
  (stored_valid v = true -> default asidInvalid (t !! stored_hwasid v) = asid) ->
  (forall h, 0 <= h < 256 -> hwasid_entry s h <> asid -> hwasid_entry s h <> asidInvalid ->
    default asidInvalid (t !! h) = hwasid_entry s h) ->
  hwasid_wf s'.
Proof using W Ha Hpd.
  intros H1 H2 H3. split.
  - apply W.
  - intros a H Hp. change (asid_pool s' (a >>w asidLowBits)) with (asid_pool s (a >>w asidLowBits)) in Hp.
    change (asid_entry s' a) with (asid_entry s a).
    destruct (hw_pool _ W _ H Hp) as [E D]. rewrite store_entry by done. split; [done|].
    intros a' pd' Ha'. rewrite store_pd_of by lia. apply D, Ha'.
  - intros h Hh. change (hwasid_entry s' h) with (default asidInvalid (t !! h)). intros Hn.
    destruct (H1 h Hh Hn) as [(E & Ev & Eh)|(E & Ene)]; rewrite E in *.
    + split; [done|]. exists pd, v. rewrite store_pd_of by lia. split_and!; [done| |done|done].
      apply mem_set_eq.
    + destruct (hw_entry _ W _ Hh Hn) as (Hr & pd' & w & Ep & Ew & Ev & Eh). split; [done|].
      exists pd', w. rewrite store_pd_of by lia. split_and!; [done| |done|done].
      unfold s'. ksimp. rewrite mem_set_ne; [done|]. intros Es.
      by apply Ene, (hw_inj _ W _ _ _ _ Hr Ha Ep Hpd).
  - intros a pd' Ha'. rewrite store_pd_of by lia. intros Ep. destruct (decide (a = asid)) as [->|Hne].
    + assert (pd' = pd) as -> by congruence. exists v. split; [apply mem_set_eq|done].
    + destruct (hw_stored _ W _ _ Ha' Ep) as (w & Ew & Es). exists w. split.
      * unfold s'. ksimp. rewrite mem_set_ne; [done|]. intros E. by apply Hne, (hw_inj _ W _ _ _ _ Ha' Ha Ep Hpd).
      * intros Hv. specialize (Es Hv). change (hwasid_entry s' (stored_hwasid w)) with
          (default asidInvalid (t !! stored_hwasid w)).
        rewrite <- Es. apply H3; [apply stored_hwasid_range|congruence|]. rewrite Es. unfold asidInvalid. lia.
  - intros a a' p p' ? ?. rewrite !store_pd_of by lia. by apply (hw_inj _ W).
Qed.
End store.

Lemma scanHWASID_some s n off h :
  scanHWASID s n off = Some h -> hwasid_entry s h = asidInvalid /\ 0 <= h < 256.
Proof.
  revert off. induction n as [|n IH]; intros off; simpl; [done|].
  destruct (Z.eqb_spec (hwasid_entry s ((armKSNextASID s + off) mod 256)) asidInvalid); [|eauto].
  intros [= <-]. split; [done|]. by apply Z.mod_pos_bound.
Qed.

Lemma scanHWASID_none s n off :
  scanHWASID s n off = None ->
  forall i, off <= i < off + Z.of_nat n -> hwasid_entry s ((armKSNextASID s + i) mod 256) <> asidInvalid.
Proof.
  revert off. induction n as [|n IH]; intros off; simpl; [lia|].
  destruct (Z.eqb_spec (hwasid_entry s ((armKSNextASID s + off) mod 256)) asidInvalid); [done|].
  intros H i Hi. destruct (decide (i = off)) as [->|]; [done|]. apply (IH (off + 1)); [done|lia].
Qed.

(** What the allocator leaves of the directories: a stored number may become invalid. *)
Definition numbers_kept (s s' : kstate) : Prop := forall x w, ksMem s x = Some w ->
  ksMem s' x = Some w \/ (stored_valid w = true /\ ksMem s' x = Some (pde_pde_invalid_new 0 false)).

(** A number taken from another ASID is flushed from the TLB. *)
Definition hwasid_log (s s' : kstate) (h : Z) : Prop :=
  (hw_log (ksHw s') = hw_log (ksHw s) /\ hwasid_entry s h = asidInvalid) \/
  hw_log (ksHw s') = hw_log (ksHw s) ++ [HwInvalidateTLB_ASID h].

(** The only words that the allocator writes are the stored numbers of the directories. *)
Definition slots_only (s s' : kstate) : Prop :=
  (forall a, 0 <= a < numASIDs -> asid_pd_of s' a = asid_pd_of s a) /\
  (forall x, (forall a p, 0 < a < numASIDs -> asid_pd_of s a = Some p -> x <> pd_asid_slot p) -> ksMem s' x = ksMem s x) /\
  (forall x, is_Some (ksMem s x) -> is_Some (ksMem s' x)).
Lemma slots_only_refl s : slots_only s s.
Proof. done. Qed.
Lemma slots_only_trans s1 s2 s3 : slots_only s1 s2 -> slots_only s2 s3 -> slots_only s1 s3.
Proof.
  intros (P1 & M1 & D1) (P2 & M2 & D2). split; [|split; [|by auto]].
  - intros a Ha. by rewrite P2, P1.
  - intros x Hx. rewrite M2, M1; [done|done|]. intros a p Ha. rewrite P1 by lia. by apply Hx.
Qed.
Lemma slots_only_same s s' : armKSASIDTable s' = armKSASIDTable s -> ksMem s' = ksMem s -> slots_only s s'.
Proof.
  intros E1 E2. split; [|by rewrite E2]. intros a _. unfold asid_pd_of, asid_entry, asid_pool. by rewrite E1, E2.
Qed.
Lemma slots_only_store s asid pd v t : hwasid_wf s -> 0 < asid < numASIDs -> asid_pd_of s asid = Some pd ->
  slots_only s (upd_armKSHWASIDTable t (upd_ksMem (mem_set (ksMem s) (pd_asid_slot pd) v) s)).
Proof.
  intros W Ha Hpd. split; [|split].
  - intros a Ha'. by apply (store_pd_of s asid pd).
  - intros x Hx. ksimp. apply mem_set_ne. by eapply Hx.
  - intros x Hx. ksimp. destruct (decide (x = pd_asid_slot pd)) as [->|]; [by rewrite mem_set_eq|by rewrite mem_set_ne].
Qed.

Lemma wp_findFreeHWASID s :
  hwasid_wf s ->
  wp findFreeHWASID (fun h s' => hwasid_wf s' /\ 0 <= h < 256 /\ hwasid_entry s' h = asidInvalid /\
    vm_frame s s' /\ slots_only s s' /\ numbers_kept s s' /\ hwasid_log s s' h) s.
Proof.
  intros W. unfold findFreeHWASID. wstep. wstep.
  destruct (scanHWASID s 256 0) as [h|] eqn:E.
  - apply scanHWASID_some in E as [E Hh]. wstep.
    split; [done|split; [done|split; [done|split; [apply vm_frame_refl|split; [done|split]]]]].
    + intros x w Hx. by left.
    + by left.
  - pose proof (hw_next _ W) as Hn. set (h := armKSNextASID s) in *.
    assert (hwasid_entry s h <> asidInvalid) as Hv.
    { pose proof (scanHWASID_none _ _ _ E 0 ltac:(lia)) as H. fold h in H.
      rewrite Z.add_0_r, Z.mod_small in H by done. done. }
    destruct (hw_entry _ W _ Hn Hv) as (Hr & pd & w & Ep & Ew & Ev & Eh).
    wstep. unfold invalidateASID. wstep. eapply wp_asid_pd; [lia|exact Ep|].
    eapply wp_write_word; [exact Ew|]. wstep. unfold invalidateTLB_ASID, hw_emit. wstep.
    wstep. unfold set_hwasid. wstep. ksimp. wstep. wstep. wstep. ksimp.
    set (s1 := upd_armKSHWASIDTable (<[h := asidInvalid]> (armKSHWASIDTable s))
                 (upd_ksMem (mem_set (ksMem s) (pd_asid_slot pd) (pde_pde_invalid_new 0 false)) s)).
    assert (hwasid_wf s1) as W1.
    { apply (store_wf s (hwasid_entry s h) pd); try done.
      - intros h' Hh' Hne. right. destruct (decide (h' = h)) as [->|N].
        + rewrite lookup_insert_eq in Hne. done.
        + rewrite lookup_insert_ne in * by done. split; [done|]. intros Eq.
          pose proof Hne as Hne'. destruct (hw_entry _ W _ Hh' Hne') as (_ & pd' & w' & Ep' & Ew' & _ & Eh').
          rewrite Eq in Ep'. simplify_eq.
      - intros h' Hh' Hne _. rewrite lookup_insert_ne; [done|]. intros ->. done. }
    split; [|split; [done|split; [|split; [done|split; [|split]]]]].
    + destruct W1 as [? ? ? ? ?]. split; try done. ksimp. by apply Z.mod_pos_bound.
    + unfold hwasid_entry. ksimp. by rewrite lookup_insert_eq.
    + by apply (slots_only_store s (hwasid_entry s h)).
    + intros x w0 Hx. ksimp. destruct (decide (x = pd_asid_slot pd)) as [->|N].
      * right. rewrite mem_set_eq. split; [congruence|done].
      * left. by rewrite mem_set_ne.
    + by right.
Qed.

(** getHWASID returns the number the table has for the ASID, and keeps the invariant. *)
Lemma wp_getHWASID s asid pd :
  hwasid_wf s -> 0 < asid < numASIDs -> asid_pd_of s asid = Some pd ->
  wp (getHWASID asid) (fun h s' => hwasid_wf s' /\ 0 <= h < 256 /\ hwasid_entry s' h = asid /\
    (exists w, ksMem s' (pd_asid_slot pd) = Some w /\ stored_valid w = true /\ stored_hwasid w = h) /\
    vm_frame s s' /\ slots_only s s' /\ (stored_valid (default 0 (ksMem s (pd_asid_slot pd))) = true -> s' = s) /\
    (s' = s /\ hwasid_entry s h = asid \/ hwasid_log s s' h)) s.
Proof.
  intros W Ha Hpd. destruct (hw_stored _ W _ _ Ha Hpd) as (w & Hw & Hs).
  unfold getHWASID, loadHWASID. wstep. wstep. eapply wp_asid_pd; [lia|exact Hpd|].
  eapply wp_read_word; [exact Hw|]. fold (stored_valid w) (stored_hwasid w).
  destruct (stored_valid w) eqn:Ev.
  { wstep. split_and!; try done; try apply stored_hwasid_range; eauto 10 using vm_frame_refl, slots_only_refl. }
  wstep. eapply wp_mono; [by apply wp_findFreeHWASID|].
  intros h s1 (W1 & Hh & He & F & Hpds & Hk & HL).
  assert (ksMem s1 (pd_asid_slot pd) = Some w) as Hw1 by (destruct (Hk _ _ Hw) as [|[? _]]; congruence).
  wstep. unfold storeHWASID. wstep. eapply wp_asid_pd; [lia|by rewrite (proj1 Hpds) by lia|].
  wstep. eapply wp_write_word; [exact Hw1|]. unfold set_hwasid. wstep. wstep. ksimp.
  destruct (stored_new h Hh) as [Nv Nh].
  assert (asid_pd_of s1 asid = Some pd) as Hpd1 by (rewrite (proj1 Hpds); [done|lia]).
  split; [|split; [done|split; [|split; [|split; [|split; [|split]]]]]].
  - apply (store_wf s1 asid pd); try done.
    + intros h' Hh' Hne. destruct (decide (h' = h)) as [->|N].
      * left. rewrite lookup_insert_eq. done.
      * right. rewrite lookup_insert_ne in * by done. split; [done|]. intros Eq.
        destruct (hw_entry _ W1 _ Hh' Hne) as (_ & pd' & w' & Ep' & Ew' & Ev' & _).
        fold (hwasid_entry s1 h') in *. rewrite Eq in Ep'. assert (pd' = pd) as -> by congruence. congruence.
    + intros _. rewrite Nh. by rewrite lookup_insert_eq.
    + intros h' Hh' Hne Hnz. rewrite lookup_insert_ne; [done|]. intros ->. done.
  - unfold hwasid_entry. ksimp. by rewrite lookup_insert_eq.
  - exists (pde_pde_invalid_new h true). rewrite mem_set_eq. done.
  - by apply (vm_frame_trans s s1).
  - eapply slots_only_trans; [exact Hpds|]. by apply (slots_only_store s1 asid).
  - intros Hv. rewrite Hw in Hv. change (stored_valid w = true) in Hv. congruence.
  - right. exact HL.
Qed.

(** The directory that setVMRoot selects: the capability's, if the ASID table has it *)
Definition selected_pd (s : kstate) (c : cap) : option (Z * Z) :=
  match c with
  | Cap_page_directory asid true pd =>
      match asid_pd_of s asid with
      | Some pd' => if pd' =? pd then Some (asid, pd) else None
      | None => None
      end
  | _ => None
  end.
(** [writeTTBR0 addr], as an event *)
Definition ttbr0 (pd : Z) : hw_op := HwWriteTTBR0 ((addrFromPPtr pd &w 0xffffe000) |w 0x18).

Lemma asid_pd_of_same s s' : armKSASIDTable s' = armKSASIDTable s -> ksMem s' = ksMem s ->
  forall a, asid_pd_of s' a = asid_pd_of s a.
Proof. intros E1 E2 a. unfold asid_pd_of, asid_entry, asid_pool. by rewrite E1, E2. Qed.

Lemma hwasid_wf_fault s f : hwasid_wf s -> hwasid_wf (upd_current_lookup_fault f s).
Proof. by destruct 1; split. Qed.

Lemma wp_findPDForASID s asid :
  hwasid_wf s -> 0 <= asid < numASIDs ->
  wp (findPDForASID asid) (fun r s' =>
    match asid_pd_of s asid with
    | Some pd => r = (EXCEPTION_NONE, pd) /\ s' = s
    | None => r = (EXCEPTION_LOOKUP_FAULT, NULL) /\
        s' = upd_current_lookup_fault lookup_fault_invalid_root s
    end) s.
Proof.
  intros W Ha. unfold findPDForASID, asid_pd_of. wstep.
  apply wp_get_asid_table; [by apply asid_index|].
  destruct (Z.eqb_spec (asid_pool s (asid >>w asidLowBits)) NULL) as [E|E].
  { unfold set_current_lookup_fault. wrun. done. }
  destruct (hw_pool _ W _ Ha E) as [[x Hx] _]. rewrite Hx. wstep.
  eapply wp_read_word; [exact Hx|]. destruct (x =? NULL).
  - unfold set_current_lookup_fault. wrun. done.
  - wstep. done.
Qed.

Lemma wp_armv_contextSwitch s asid pd :
  hwasid_wf s -> 0 < asid < numASIDs -> asid_pd_of s asid = Some pd ->
  wp (armv_contextSwitch pd asid) (fun _ s' => hwasid_wf s' /\ vm_frame s s' /\ slots_only s s' /\
    (stored_valid (default 0 (ksMem s (pd_asid_slot pd))) = true -> ksMem s' = ksMem s) /\
    (exists w, ksMem s' (pd_asid_slot pd) = Some w /\ stored_valid w = true) /\
    exists h l, 0 <= h < 256 /\ hwasid_entry s' h = asid /\
      (hwasid_entry s h <> asid -> hwasid_entry s h <> asidInvalid -> l = [HwInvalidateTLB_ASID h]) /\
      hw_log (ksHw s') = hw_log (ksHw s) ++ l ++
        [ttbr0 (armKSGlobalPD s); HwWriteContextID h; ttbr0 pd]) s.
Proof.
  intros W Ha Hpd. unfold armv_contextSwitch. wstep. eapply wp_mono; [by eapply wp_getHWASID|].
  intros h s1 (W1 & Hh & He & (w & Hw & Hwv & _) & F & Hp & Hsame & HL).
  unfold armv_contextSwitch_HWASID, writeTTBR0, hw_emit. wrun.
  split; [|split; [|split; [|split; [|split]]]].
  - by destruct W1; split.
  - by eapply vm_frame_trans; [exact F|].
  - eapply slots_only_trans; [exact Hp|]. by apply slots_only_same.
  - intros Hv. by rewrite (Hsame Hv).
  - by exists w.
  - assert (armKSGlobalPD s1 = armKSGlobalPD s) as Eg by (rewrite F; done).
    rewrite Eg. unfold ttbr0. destruct HL as [[-> E]|[[E E']|E]].
    + exists h, []. split_and!; try done; try lia. by rewrite <- !app_assoc.
    + exists h, []. split_and!; try done; try lia. rewrite E. by rewrite <- !app_assoc.
    + exists h, [HwInvalidateTLB_ASID h]. split_and!; try done; try lia.
      rewrite E. by rewrite <- !app_assoc.
Qed.

Lemma wp_setVMRoot s tcb c :
  hwasid_wf s -> ksCtes s !! TCB_PTR_CTE_PTR tcb tcbVTable = Some c ->
  (forall asid pd, c.(cte_cap) = Cap_page_directory asid true pd -> 0 < asid < numASIDs) ->
  wp (setVMRoot tcb) (fun _ s' => hwasid_wf s' /\ vm_frame s s' /\ slots_only s s' /\
    match selected_pd s c.(cte_cap) with
    | Some (asid, pd) => exists h l, 0 <= h < 256 /\ hwasid_entry s' h = asid /\
        (hwasid_entry s h <> asid -> hwasid_entry s h <> asidInvalid -> l = [HwInvalidateTLB_ASID h]) /\
        hw_log (ksHw s') = hw_log (ksHw s) ++ l ++
          [ttbr0 (armKSGlobalPD s); HwWriteContextID h; ttbr0 pd]
    | None => hw_log (ksHw s') = hw_log (ksHw s) ++ [ttbr0 (armKSGlobalPD s)]
    end) s.
Proof.
  intros W Hc Hv. unfold setVMRoot. wrun.
  assert (forall Q : unit -> kstate -> Prop,
    Q tt (upd_ksHw (upd_hw_log (hw_log (ksHw s) ++ [ttbr0 (armKSGlobalPD s)]) (ksHw s)) s) ->
    wp (setCurrentPD (addrFromPPtr (armKSGlobalPD s))) Q s) as HG by done.
  assert (hwasid_wf (upd_ksHw (upd_hw_log (hw_log (ksHw s) ++ [ttbr0 (armKSGlobalPD s)]) (ksHw s)) s))
    as WG by (by destruct W; split).
  assert (slots_only s (upd_ksHw (upd_hw_log (hw_log (ksHw s) ++ [ttbr0 (armKSGlobalPD s)]) (ksHw s)) s))
    as SG by (by apply slots_only_same).
  destruct (cte_cap c) eqn:Ec; try (apply HG; split_and!; done).
  destruct capPDIsMapped; [|apply HG; split_and!; done].
  pose proof (Hv _ _ eq_refl) as Ha. wstep. eapply wp_mono; [apply wp_findPDForASID; [done|lia]|].
  intros r s1 Hr. unfold selected_pd. destruct (asid_pd_of s capPDMappedASID) as [pd|] eqn:Ep.
  - destruct Hr as [-> ->]. simpl. destruct (Z.eqb_spec pd capPDBasePtr) as [->|]; simpl.
    + eapply wp_mono; [by apply wp_armv_contextSwitch|]. intros _ s2 (? & ? & ? & _ & _ & ?). done.
    + apply HG. split_and!; done.
  - destruct Hr as [-> ->]. simpl. unfold setCurrentPD, writeTTBR0, hw_emit. wstep.
    split; [by destruct W; split|]. split; [done|]. split; [|done]. by apply slots_only_same.
Qed.
