(* ===== verification/Gic.v ===== *)
(** * The interrupt controller (src/arch/arm/machine/gic_pl390.c) and preemption

    The registers read are the streams of [hw_state], the registers written are
    events of the log; [active_irq] is the file's static variable. *)
From stdpp Require Import base list gmap.
From Stdlib Require Import ZArith Lia.
From S2P Require Import Prelude.
From S2P Require Import Structures.
From S2P Require Import KernelState.

Definition IRQ_MASK : Z := MASK 10.
Definition SPECIAL_IRQ_START : Z := 1020.
Definition IRQ_NONE : Z := 1023.
Definition IS_IRQ_VALID (x : Z) : bool := (x &w IRQ_MASK) <? SPECIAL_IRQ_START.

Definition mod_hw (f : hw_state -> hw_state) : K unit :=
  modify (fun s => upd_ksHw (f (ksHw s)) s).

(** Reading [gic_cpuiface->int_ack] and [gic_cpuiface->hi_pend] *)
Definition read_int_ack : K Z :=
  let* hw := gets ksHw in
  mod_hw (upd_hw_int_ack (tail hw.(hw_int_ack))) ;;;
  ret (hd IRQ_NONE hw.(hw_int_ack)).
Definition read_hi_pend : K Z :=
  let* hw := gets ksHw in
  mod_hw (upd_hw_hi_pend (tail hw.(hw_hi_pend))) ;;;
  ret (hd IRQ_NONE hw.(hw_hi_pend)).

Definition is_irq_edge_triggered (irq : Z) : K bool :=
  let* hw := gets ksHw in
  ret (negb (Z.land (hw.(hw_gic_config) (irq / 16)) (BIT ((irq &w 0xf) * 2 + 1)) =? 0)).
Definition dist_pending_clr (irq : Z) : K unit :=
  hw_emit (HwPendingClr (irq / 32) (BIT (irq &w 0x1f))).
Definition dist_enable_clr (irq : Z) : K unit :=
  hw_emit (HwEnableClr (irq / 32) (BIT (irq &w 0x1f))).
Definition dist_enable_set (irq : Z) : K unit :=
  hw_emit (HwEnableSet (irq / 32) (BIT (irq &w 0x1f))).

Definition getActiveIRQ : K Z :=
  let* hw := gets ksHw in
  when (negb (IS_IRQ_VALID hw.(active_irq)))
    (let* i := read_int_ack in mod_hw (upd_active_irq i)) ;;;
  let* hw := gets ksHw in
  if IS_IRQ_VALID hw.(active_irq)
  then ret (hw.(active_irq) &w IRQ_MASK) else ret irqInvalid.

Definition isIRQPending : K bool :=
  let* p := read_hi_pend in ret (IS_IRQ_VALID p).

Definition maskInterrupt (disable : bool) (irq : Z) : K unit :=
  if disable then dist_enable_clr irq else dist_enable_set irq.

Definition ackInterrupt (irq : Z) : K unit :=
  let* hw := gets ksHw in
  assert (IS_IRQ_VALID hw.(active_irq) && ((hw.(active_irq) &w IRQ_MASK) =? irq)) ;;;
  let* edge := is_irq_edge_triggered irq in
  when edge (dist_pending_clr irq) ;;;
  hw_emit (HwEoi hw.(active_irq)) ;;;
  mod_hw (upd_active_irq IRQ_NONE).

Definition handleSpuriousIRQ : K unit := ret tt.

(** src/plat/omap4/machine/hardware.c *)
Definition KERNEL_TIMER_IRQ : Z := 29.
Definition isReservedIRQ (irq : Z) : bool := irq =? KERNEL_TIMER_IRQ.
Definition handleReservedIRQ (irq : Z) : K unit := maskInterrupt true irq.
Definition TMR_INTS_EVENT : Z := BIT 0.
Definition resetTimer : K unit := hw_emit (HwTimerInts TMR_INTS_EVENT).

(** ** Preemption points (src/model/preemption.c) *)
Definition preemptionPoint : K exception_t :=
  modify (fun s => upd_ksWorkUnitsCompleted (ksWorkUnitsCompleted s +w 1) s) ;;;
  let* s := get in
  if ksWorkUnitsCompleted s >=? CONFIG_MAX_NUM_WORK_UNITS_PER_PREEMPTION then
    modify (upd_ksWorkUnitsCompleted 0) ;;;
    let* pending := isIRQPending in
    if pending then ret EXCEPTION_PREEMPTED else ret EXCEPTION_NONE
  else ret EXCEPTION_NONE.
