(* ===== verification/Scheduler.v ===== *)
(** * The scheduler (src/kernel/thread.c, lines 30-109 and 289-486)

    Domains, priorities, the scheduler action and the thread states. *)
From stdpp Require Import base list gmap.
From Stdlib Require Import ZArith Lia.
From S2P Require Import Prelude.
From S2P Require Import Structures.
From S2P Require Import KernelState.
From S2P Require Import DList.
From S2P Require Import SchedQueue.
From S2P Require Import VSpace.

(** ** Thread states *)
Definition isBlocked_ts (ts : thread_state_type) : bool :=
  match ts with
  | ThreadState_Inactive | ThreadState_BlockedOnReceive | ThreadState_BlockedOnSend
  | ThreadState_BlockedOnAsyncEvent | ThreadState_BlockedOnReply => true
  | _ => false
  end.
Definition isRunnable_ts (ts : thread_state_type) : bool :=
  match ts with ThreadState_Running | ThreadState_Restart => true | _ => false end.
Definition get_tsType (thread : Z) : K thread_state_type :=
  let* t := get_tcb thread in ret t.(tcbState).(tsType).
Definition isBlocked (thread : Z) : K bool := let* ts := get_tsType thread in ret (isBlocked_ts ts).
Definition isRunnable (thread : Z) : K bool := let* ts := get_tsType thread in ret (isRunnable_ts ts).

(** ** The scheduler action: a thread or one of two reserved values *)
Definition SchedulerAction_ResumeCurrentThread : Z := 0.
Definition SchedulerAction_ChooseNewThread : Z := wordMax.
Definition set_action (a : Z) : K unit := modify (upd_ksSchedulerAction a).

Definition rescheduleRequired : K unit :=
  let* s := get in
  when (negb (ksSchedulerAction s =? SchedulerAction_ResumeCurrentThread)
        && negb (ksSchedulerAction s =? SchedulerAction_ChooseNewThread))
    (tcbSchedEnqueue (ksSchedulerAction s)) ;;;
  set_action SchedulerAction_ChooseNewThread.

Definition scheduleTCB (tptr : Z) : K unit :=
  let* s := get in
  if (tptr =? ksCurThread s)
     && (ksSchedulerAction s =? SchedulerAction_ResumeCurrentThread)
  then let* r := isRunnable tptr in when (negb r) rescheduleRequired
  else ret tt.

Definition setThreadState (tptr : Z) (ts : thread_state_type) : K unit :=
  mod_tcbState tptr (upd_tsType ts) ;;;
  scheduleTCB tptr.

Definition possibleSwitchTo (target : Z) (onSamePriority : bool) : K unit :=
  let* s := get in
  let curDom := ksCurDomain s in
  let* cur := get_tcb (ksCurThread s) in
  let* t := get_tcb target in
  let curPrio := cur.(tcbPriority) in
  let targetDom := t.(tcbDomain) in
  let targetPrio := t.(tcbPriority) in
  let action := ksSchedulerAction s in
  if negb (targetDom =? curDom) then tcbSchedEnqueue target
  else
    (if ((targetPrio >? curPrio) || ((targetPrio =? curPrio) && onSamePriority))
        && (action =? SchedulerAction_ResumeCurrentThread)
     then set_action target
     else tcbSchedEnqueue target) ;;;
    when (negb (action =? SchedulerAction_ResumeCurrentThread)
          && negb (action =? SchedulerAction_ChooseNewThread))
      rescheduleRequired.

Definition attemptSwitchTo (target : Z) : K unit := possibleSwitchTo target true.
Definition switchIfRequiredTo (target : Z) : K unit := possibleSwitchTo target false.

(** ** Domains, priorities and policies *)
Definition set_and_requeue (tptr : Z) (f : tcb -> tcb) : K unit :=
  tcbSchedDequeue tptr ;;;
  mod_tcb tptr f ;;;
  let* r := isRunnable tptr in
  when r (tcbSchedEnqueue tptr) ;;;
  let* s := get in
  when (tptr =? ksCurThread s) rescheduleRequired.

Definition setDomain (tptr dom : Z) : K unit := set_and_requeue tptr (upd_tcbDomain dom).
Definition setPriority (tptr prio : Z) : K unit := set_and_requeue tptr (upd_tcbPriority prio).
Definition setPolicy (tptr policy : Z) : K unit := set_and_requeue tptr (upd_tcbPolicy policy).

(** src/config/default_domain.c: the domains and lengths of the schedule *)
Definition ksDomSchedule : list (Z * Z) := [(0, 1)].
Definition ksDomScheduleLength : Z := Z.of_nat (length ksDomSchedule).

Definition nextDomain : K unit :=
  let* s := get in
  let idx := ksDomScheduleIdx s +w 1 in
  let idx := if idx >=? ksDomScheduleLength then 0 else idx in
  modify (upd_ksDomScheduleIdx idx) ;;;
  modify (upd_ksWorkUnitsCompleted 0) ;;;
  let* entry := of_option (ksDomSchedule !! Z.to_nat idx) in
  modify (upd_ksCurDomain (fst entry)) ;;;
  modify (upd_ksDomainTime (snd entry)).

(** ** Switching threads (with src/arch/arm/kernel/thread.c) *)
Definition Arch_switchToThread (tcb : Z) : K unit :=
  setVMRoot tcb ;;;
  let* t := get_tcb tcb in
  modify (upd_armKSGlobalsFrame t.(tcbIPCBuffer)) ;;;
  hw_emit HwClearExMonitor.
Definition Arch_switchToIdleThread : K unit := modify (upd_armKSGlobalsFrame 0).
Definition Arch_activateIdleThread (tcb : Z) : K unit := ret tt.

Definition switchToThread (thread : Z) : K unit :=
  Arch_switchToThread thread ;;;
  tcbSchedDequeue thread ;;;
  modify (upd_ksCurThread thread).

Definition switchToIdleThread : K unit :=
  Arch_switchToIdleThread ;;;
  modify (fun s => upd_ksCurThread (ksIdleThread s) s).

(** The loop over the priorities, from [p] down to 0 *)
Fixpoint choose_from (n : nat) : K unit :=
  match n with
  | O => switchToIdleThread
  | S p =>
      let* s := get in
      let domprio := ksCurDomain s * CONFIG_NUM_PRIORITIES +w Z.of_nat p in
      let* queue := get_ready_queue domprio in
      let thread := q_head queue in
      if negb (thread =? NULL) then
        let* r := isRunnable thread in
        assert r ;;;
        switchToThread thread
      else choose_from p
  end.
Definition chooseThread : K unit := choose_from (Z.to_nat (seL4_MaxPrio + 1)).

Definition schedule : K unit :=
  let* s := get in
  let action := ksSchedulerAction s in
  if action =? SchedulerAction_ChooseNewThread then
    let* r := isRunnable (ksCurThread s) in
    when r (tcbSchedEnqueue (ksCurThread s)) ;;;
    let* s := get in
    when (ksDomainTime s =? 0) nextDomain ;;;
    chooseThread ;;;
    set_action SchedulerAction_ResumeCurrentThread
  else if negb (action =? SchedulerAction_ResumeCurrentThread) then
    let* r := isRunnable (ksCurThread s) in
    when r (tcbSchedEnqueue (ksCurThread s)) ;;;
    switchToThread action ;;;
    set_action SchedulerAction_ResumeCurrentThread
  else ret tt.

Definition activateThread : K unit :=
  let* s := get in
  let cur := ksCurThread s in
  let* ts := get_tsType cur in
  match ts with
  | ThreadState_Running => ret tt
  | ThreadState_Restart =>
      let* pc := getRestartPC cur in
      setNextPC cur pc ;;;
      setThreadState cur ThreadState_Running
  | ThreadState_IdleThreadState => Arch_activateIdleThread cur
  | _ => fail
  end.

Definition timerTick : K unit :=
  let* s := get in
  let cur := ksCurThread s in
  let* t := get_tcb cur in
  (if t.(tcbState).(tsType) == ThreadState_Running then
     if t.(tcbTimeSlice) >? 1
     then mod_tcb cur (upd_tcbTimeSlice (t.(tcbTimeSlice) - 1))
     else
       mod_tcb cur (upd_tcbTimeSlice CONFIG_TIME_SLICE) ;;;
       tcbSchedAppend cur ;;;
       rescheduleRequired
   else ret tt) ;;;
  when (CONFIG_NUM_DOMAINS >? 1)
    (modify (fun s => upd_ksDomainTime (ksDomainTime s -w 1) s) ;;;
     let* s := get in
     when (ksDomainTime s =? 0) rescheduleRequired).

(** src/arch/arm/kernel/thread.c and thread.c, at boot *)
Definition configureIdleThread (idleThreadStart tcb : Z) : K unit :=
  setRegister tcb CPSR CPSR_IDLETHREAD ;;;
  setRegister tcb LR_svc idleThreadStart ;;;
  setThreadState tcb ThreadState_IdleThreadState.

(** ** The scheduler keeps the ready queues

    [sched_rep] depends on the TCBs and the queues only. *)
Lemma sched_rep_ext s s' rq :
  ksTcbs s' = ksTcbs s -> ksReadyQueues s' = ksReadyQueues s -> sched_rep s rq -> sched_rep s' rq.
Proof.
  intros E1 E2 [H0 Hr Hq Hm]. split; unfold ready_queue in *; by rewrite ?E1, ?E2.
Qed.

(** A write to a TCB that leaves its links, its flag, its domain and its priority *)
Lemma sched_rep_alter s rq t f :
  (forall x, (f x).(tcbSchedPrev) = x.(tcbSchedPrev) /\ (f x).(tcbSchedNext) = x.(tcbSchedNext) /\
     (f x).(tcbState).(tcbQueued) = x.(tcbState).(tcbQueued) /\
     (f x).(tcbDomain) = x.(tcbDomain) /\ (f x).(tcbPriority) = x.(tcbPriority)) ->
  sched_rep s rq -> sched_rep (upd_ksTcbs (alter f t (ksTcbs s)) s) rq.
Proof.
  intros Hf [H0 Hr Hq Hm]. split; ksimp.
  - by apply lookup_alter_None.
  - intros p x Hx. rewrite lookup_alter_at in Hx. case_decide; [|eauto].
    destruct (ksTcbs s !! p) as [y|] eqn:Ey; simplify_eq/=.
    destruct (Hf y) as (_ & _ & _ & -> & ->). eauto.
  - intros idx. eapply queue_rep_ext; [|apply Hq]. intros p _. apply links_of_same; intros x; apply Hf.
  - intros idx p. rewrite Hm, fmap_alter_id; [done|].
    intros x. unfold sched_key, tcb_index. destruct (Hf x) as (_ & _ & -> & -> & ->). done.
Qed.

(** A write that moves an unqueued thread to another domain or priority *)
Lemma sched_rep_alter_unqueued s rq t tc f :
  ksTcbs s !! t = Some tc -> tc.(tcbState).(tcbQueued) = false ->
  (forall x, (f x).(tcbSchedPrev) = x.(tcbSchedPrev) /\ (f x).(tcbSchedNext) = x.(tcbSchedNext) /\
     (f x).(tcbState).(tcbQueued) = x.(tcbState).(tcbQueued)) ->
  0 <= (f tc).(tcbDomain) < CONFIG_NUM_DOMAINS -> 0 <= (f tc).(tcbPriority) < CONFIG_NUM_PRIORITIES ->
  sched_rep s rq -> sched_rep (upd_ksTcbs (alter f t (ksTcbs s)) s) rq.
Proof.
  intros Ht Hq Hf Hd Hp [H0 Hr HQ Hm]. split; ksimp.
  - by apply lookup_alter_None.
  - intros p x Hx. rewrite lookup_alter_at in Hx. case_decide; [|eauto].
    subst p. rewrite Ht in Hx. simplify_eq/=. done.
  - intros idx. eapply queue_rep_ext; [|apply HQ]. intros p _. apply links_of_same; intros x; apply Hf.
  - intros idx p. rewrite Hm, lookup_alter_at. case_decide; [|done]. subst p. rewrite Ht. simpl.
    unfold sched_key. destruct (Hf tc) as (_ & _ & ->). rewrite Hq. naive_solver.
Qed.

Lemma wp_isRunnable s t tc Q :
  ksTcbs s !! t = Some tc -> Q (isRunnable_ts tc.(tcbState).(tsType)) s -> wp (isRunnable t) Q s.
Proof. intros Ht HQ. unfold isRunnable, get_tsType. wrun. done. Qed.

Section steps.
Context {s : kstate}.
(** The state after setThreadState *)
Definition set_state (t : Z) (ts : thread_state_type) : kstate :=
  upd_ksSchedulerAction
    (if (t =? ksCurThread s) && (ksSchedulerAction s =? SchedulerAction_ResumeCurrentThread)
        && negb (isRunnable_ts ts)
     then SchedulerAction_ChooseNewThread else ksSchedulerAction s)
    (upd_ksTcbs (alter (fun x => upd_tcbState (upd_tsType ts x.(tcbState)) x) t (ksTcbs s)) s).

Lemma upd_ksSchedulerAction_id s0 : upd_ksSchedulerAction (ksSchedulerAction s0) s0 = s0.
Proof. by destruct s0. Qed.

Lemma wp_setThreadState t ts Q :
  is_Some (ksTcbs s !! t) -> Q tt (set_state t ts) -> wp (setThreadState t ts) Q s.
Proof.
  intros [tc Ht] HQ. unfold setThreadState. wstep. apply wp_alter_tcb; [by eexists|].
  unfold scheduleTCB. wrun. unfold set_state in HQ.
  destruct ((t =? ksCurThread s) && (ksSchedulerAction s =? SchedulerAction_ResumeCurrentThread)) eqn:E.
  - simpl in HQ. wstep. eapply wp_isRunnable; [ksimp; by rewrite lookup_alter_eq, Ht|]. ksimp.
    destruct (isRunnable_ts ts); simpl in *.
    + wstep. rewrite <- (upd_ksSchedulerAction_id (upd_ksTcbs _ s)). exact HQ.
    + unfold rescheduleRequired. wrun. apply andb_true_iff in E as [_ ->]. simpl.
      unfold set_action. wrun. exact HQ.
  - simpl in HQ. wstep. rewrite <- (upd_ksSchedulerAction_id (upd_ksTcbs _ s)). exact HQ.
Qed.
End steps.
Arguments set_state : clear implicits.

Lemma set_state_rep s t ts rq : sched_rep s rq -> sched_rep (set_state s t ts) rq.
Proof.
  intros H. eapply sched_rep_ext; [..|by apply (sched_rep_alter s rq t
    (fun x => upd_tcbState (upd_tsType ts x.(tcbState)) x))]; done.
Qed.

(** Actions that name a thread *)
Definition is_thread_action (a : Z) : bool :=
  negb (a =? SchedulerAction_ResumeCurrentThread) && negb (a =? SchedulerAction_ChooseNewThread).
Definition action_ok (s : kstate) : Prop :=
  is_thread_action (ksSchedulerAction s) = true -> is_Some (ksTcbs s !! ksSchedulerAction s).

(** The queues after [tcbSchedEnqueue t], by the contents of the heap *)
Definition enqueued (s : kstate) (rq : Z -> list Z) (t : Z) : Z -> list Z :=
  match ksTcbs s !! t with Some tc => enqueue_abs rq t tc | None => rq end.

(** What the scheduler's operations leave alone: all but the queues, the links
    of the TCBs and the scheduler action *)
Definition act_frame (s s' : kstate) : Prop :=
  s' = upd_ksSchedulerAction (ksSchedulerAction s')
         (upd_ksTcbs (ksTcbs s') (upd_ksReadyQueues (ksReadyQueues s') s)) /\
  forall p, unsched <$> ksTcbs s' !! p = unsched <$> ksTcbs s !! p.

Lemma act_frame_sched s s' : sched_frame s s' -> act_frame s s'.
Proof. intros [E H]. split; [|done]. rewrite E. by destruct s. Qed.
Lemma act_frame_refl s : act_frame s s.
Proof. apply act_frame_sched, sched_frame_refl. Qed.
Lemma act_frame_trans s1 s2 s3 : act_frame s1 s2 -> act_frame s2 s3 -> act_frame s1 s3.
Proof. intros [E1 H1] [E2 H2]. split; [|intros p; by rewrite H2]. rewrite E2, E1. done. Qed.
Lemma act_frame_action s a : act_frame s (upd_ksSchedulerAction a s).
Proof. split; [|done]. by destruct s. Qed.
Lemma act_frame_lookup s s' p t :
  act_frame s s' -> ksTcbs s !! p = Some t ->
  exists t', ksTcbs s' !! p = Some t' /\ unsched t' = unsched t.
Proof.
  intros [_ H] Ht. specialize (H p). rewrite Ht in H. simpl in H.
  destruct (ksTcbs s' !! p); simpl in H; [|done]. eexists; split; [done|congruence].
Qed.

(** Threads equal up to their links and their flag agree on everything else. *)
Lemma unsched_tsType t t' : unsched t' = unsched t -> t'.(tcbState).(tsType) = t.(tcbState).(tsType).
Proof. intros E. by apply (f_equal (fun x => x.(tcbState).(tsType))) in E. Qed.
Lemma unsched_index t t' : unsched t' = unsched t -> tcb_index t' = tcb_index t.
Proof. intros E. by apply (f_equal tcb_index) in E. Qed.

Lemma unsched_domain t t' : unsched t' = unsched t -> t'.(tcbDomain) = t.(tcbDomain).
Proof. intros E. by apply (f_equal tcbDomain) in E. Qed.
Lemma unsched_priority t t' : unsched t' = unsched t -> t'.(tcbPriority) = t.(tcbPriority).
Proof. intros E. by apply (f_equal tcbPriority) in E. Qed.

Lemma wp_rescheduleRequired s rq :
  sched_rep s rq -> action_ok s ->
  wp rescheduleRequired (fun _ s' =>
    sched_rep s' (if is_thread_action (ksSchedulerAction s)
                  then enqueued s rq (ksSchedulerAction s) else rq) /\
    ksSchedulerAction s' = SchedulerAction_ChooseNewThread /\ act_frame s s') s.
Proof.
  intros R A. unfold rescheduleRequired. wstep. wstep. wstep.
  fold (is_thread_action (ksSchedulerAction s)). unfold action_ok, enqueued in *.
  destruct (is_thread_action (ksSchedulerAction s)); simpl.
  - destruct (A eq_refl) as [tc Ht]. rewrite Ht.
    eapply wp_mono; [by apply wp_tcbSchedEnqueue|]. intros _ s1 [R1 F1].
    unfold set_action. wstep. split_and!; [|done|].
    + by eapply sched_rep_ext; [..|exact R1].
    + eapply act_frame_trans; [by apply act_frame_sched|]. apply act_frame_action.
  - wstep. unfold set_action. wstep. split_and!; [|done|apply act_frame_action].
    by eapply sched_rep_ext; [..|exact R].
Qed.

(** *** Changes of domain, priority and policy *)
Definition requeue_abs (rq : Z -> list Z) (t : Z) (tc tc' : tcb) : Z -> list Z :=
  let rq1 := dequeue_abs rq t tc in
  if isRunnable_ts tc.(tcbState).(tsType)
  then rq_set rq1 (tcb_index tc') (t :: rq1 (tcb_index tc')) else rq1.

Lemma dequeue_unqueued s rq t tc s' tc' :
  sched_rep s rq -> ksTcbs s !! t = Some tc -> sched_rep s' (dequeue_abs rq t tc) ->
  sched_frame s s' -> ksTcbs s' !! t = Some tc' -> tc'.(tcbState).(tcbQueued) = false.
Proof.
  intros R Ht R' F Ht'. destruct (tcbQueued (tcbState tc')) eqn:Eq; [|done]. exfalso.
  assert (t ∈ dequeue_abs rq t tc (tcb_index tc')) as Hin.
  { apply (sr_mem _ _ R'). rewrite Ht'. unfold sched_key. simpl. by rewrite Eq. }
  destruct (sched_frame_lookup _ _ _ _ F Ht) as (tc1 & Ht1 & E).
  assert (tc1 = tc') as -> by congruence. rewrite (unsched_index _ _ E) in Hin. unfold dequeue_abs, rq_set in Hin.
  destruct (tcbQueued (tcbState tc)) eqn:Eq0.
  - rewrite Z.eqb_refl in Hin. apply list_elem_of_filter in Hin as [? _]. done.
  - by apply (sched_rep_unqueued _ _ _ _ _ R Ht Eq0) in Hin.
Qed.

Section requeue.
Context (s : kstate) (rq : Z -> list Z) (t : Z) (tc : tcb) (f : tcb -> tcb).
Hypotheses (R : sched_rep s rq) (Ht : ksTcbs s !! t = Some tc)
  (Hu : forall x, unsched (f x) = f (unsched x))
  (Hst : forall x, (f x).(tcbSchedPrev) = x.(tcbSchedPrev) /\
     (f x).(tcbSchedNext) = x.(tcbSchedNext) /\ (f x).(tcbState) = x.(tcbState))
  (Hd : 0 <= (f tc).(tcbDomain) < CONFIG_NUM_DOMAINS)
  (Hp : 0 <= (f tc).(tcbPriority) < CONFIG_NUM_PRIORITIES).

(** The state of all threads but their queueing: [f] at [t] *)
Definition threads_updated (s' : kstate) : Prop :=
  forall p, unsched <$> ksTcbs s' !! p = unsched <$> alter f t (ksTcbs s) !! p.

Lemma threads_updated_act s1 s2 : threads_updated s1 -> act_frame s1 s2 -> threads_updated s2.
Proof. intros H [_ E] p. by rewrite E. Qed.

Lemma wp_set_and_requeue :
  (t = ksCurThread s -> is_thread_action (ksSchedulerAction s) = false) ->
  wp (set_and_requeue t f) (fun _ s' =>
    sched_rep s' (requeue_abs rq t tc (f tc)) /\ threads_updated s' /\
    ksSchedulerAction s' = (if t =? ksCurThread s then SchedulerAction_ChooseNewThread
                            else ksSchedulerAction s) /\
    s' = upd_ksSchedulerAction (ksSchedulerAction s')
           (upd_ksTcbs (ksTcbs s') (upd_ksReadyQueues (ksReadyQueues s') s))) s.
Proof using R Ht Hu Hst Hd Hp.
  intros Hcur. unfold set_and_requeue. wstep. eapply wp_mono; [by apply wp_tcbSchedDequeue|].
  intros _ s1 [R1 F1]. destruct (sched_frame_lookup _ _ _ _ F1 Ht) as (tc1 & Ht1 & E1).
  pose proof (dequeue_unqueued _ _ _ _ _ _ R Ht R1 F1 Ht1) as Hq1.
  assert (unsched (f tc1) = unsched (f tc)) as Ef by congruence.
  wstep. apply wp_alter_tcb; [by eexists|]. set (s2 := upd_ksTcbs _ s1).
  assert (sched_rep s2 (dequeue_abs rq t tc)) as R2.
  { apply (sched_rep_alter_unqueued s1 _ t tc1); try done.
    - intros x. destruct (Hst x) as (-> & -> & ->). done.
    - by rewrite (unsched_domain _ _ Ef).
    - by rewrite (unsched_priority _ _ Ef). }
  assert (ksTcbs s2 !! t = Some (f tc1)) as Ht2 by (unfold s2; ksimp; by rewrite lookup_alter_eq, Ht1).
  assert (tcbQueued (tcbState (f tc1)) = false) as Hq2 by (destruct (Hst tc1) as (_ & _ & ->); done).
  assert (threads_updated s2) as U2.
  { intros p. destruct F1 as [_ F1]. unfold s2. ksimp. specialize (F1 p).
    rewrite !lookup_alter_at. case_decide as Hpt; [|done].
    subst p. rewrite Ht1, Ht. simpl. by rewrite Ef. }
  assert (isRunnable_ts (tsType (tcbState (f tc1))) = isRunnable_ts (tsType (tcbState tc))) as Er.
  { destruct (Hst tc1) as (_ & _ & ->). by rewrite (unsched_tsType _ _ E1). }
  wstep. eapply wp_isRunnable; [exact Ht2|]. rewrite Er. unfold requeue_abs.
  wstep. eapply (wp_mono _ (fun _ s3 => sched_rep s3 (requeue_abs rq t tc (f tc)) /\ sched_frame s2 s3)).
  { unfold requeue_abs. destruct (isRunnable_ts (tsType (tcbState tc))); simpl.
    - eapply wp_mono; [by eapply wp_tcbSchedEnqueue|]. intros _ s3 [R3 F3]. split; [|done].
      unfold enqueue_abs in R3. rewrite Hq2 in R3. by rewrite (unsched_index _ _ Ef) in R3.
    - wstep. split; [done|apply sched_frame_refl]. }
  intros _ s3 [R3 F3]. apply act_frame_sched in F3 as A3.
  assert (ksCurThread s3 = ksCurThread s /\ ksSchedulerAction s3 = ksSchedulerAction s) as [Ec3 Ea3].
  { destruct F3 as [E3 _], F1 as [E1' _]. rewrite E3. unfold s2. by rewrite E1'. }
  assert (s3 = upd_ksSchedulerAction (ksSchedulerAction s3)
           (upd_ksTcbs (ksTcbs s3) (upd_ksReadyQueues (ksReadyQueues s3) s))) as E3.
  { destruct F3 as [E3 _], F1 as [E1' _]. rewrite E3. unfold s2. rewrite E1'. by destruct s. }
  wstep. wstep. rewrite Ec3. destruct (Z.eqb_spec t (ksCurThread s)) as [Et|Et]; simpl.
  - eapply wp_mono; [apply (wp_rescheduleRequired s3); [exact R3|]|].
    { intros H. rewrite Ea3, Hcur in H by done. done. }
    intros _ s4 (R4 & Ha4 & F4). rewrite Ea3, Hcur in R4 by done.
    split; [done|split; [|split; [done|]]].
    + eapply threads_updated_act; [|done]. by eapply threads_updated_act.
    + destruct F4 as [E4 _]. rewrite E4, E3. done.
  - wstep. split; [done|split; [|split; [done|done]]].
    by eapply threads_updated_act.
Qed.
End requeue.

(** ** Switching *)

(** What a scheduling decision may change *)
Definition run_frame (s s' : kstate) : Prop :=
  s' = upd_ksMem (ksMem s') (upd_armKSHWASIDTable (armKSHWASIDTable s')
    (upd_armKSNextASID (armKSNextASID s') (upd_ksHw (ksHw s')
    (upd_current_lookup_fault (current_lookup_fault s') (upd_armKSGlobalsFrame (armKSGlobalsFrame s')
    (upd_ksCurThread (ksCurThread s') (upd_ksReadyQueues (ksReadyQueues s') (upd_ksTcbs (ksTcbs s')
    (upd_ksSchedulerAction (ksSchedulerAction s') (upd_ksCurDomain (ksCurDomain s')
    (upd_ksDomainTime (ksDomainTime s') (upd_ksDomScheduleIdx (ksDomScheduleIdx s')
    (upd_ksWorkUnitsCompleted (ksWorkUnitsCompleted s') s))))))))))))) /\
  forall p, unsched <$> ksTcbs s' !! p = unsched <$> ksTcbs s !! p.

Lemma run_frame_refl s : run_frame s s.
Proof. split; [by destruct s|done]. Qed.
Lemma run_frame_trans s1 s2 s3 : run_frame s1 s2 -> run_frame s2 s3 -> run_frame s1 s3.
Proof. intros [E1 H1] [E2 H2]. split; [|intros p; by rewrite H2]. rewrite E2, E1. done. Qed.
Lemma run_frame_vm s s' : vm_frame s s' -> run_frame s s'.
Proof.
  intros E. unfold vm_frame in E. assert (ksTcbs s' = ksTcbs s) as Et by (by rewrite E).
  split; [|by rewrite Et]. rewrite E. by destruct s.
Qed.
Lemma run_frame_act s s' : act_frame s s' -> run_frame s s'.
Proof. intros [E H]. split; [|done]. rewrite E. by destruct s. Qed.

Lemma hwasid_wf_ext s s' :
  armKSASIDTable s' = armKSASIDTable s -> armKSHWASIDTable s' = armKSHWASIDTable s ->
  armKSNextASID s' = armKSNextASID s -> ksMem s' = ksMem s -> hwasid_wf s -> hwasid_wf s'.
Proof.
  intros E1 E2 E3 E4 [? ? ? ? ?].
  split; unfold asid_pd_of, asid_entry, asid_pool, hwasid_entry in *; by rewrite ?E1, ?E2, ?E3, ?E4.
Qed.

(** A thread whose address space can be switched to *)
Definition thread_vm (s : kstate) (t : Z) : Prop :=
  exists c, ksCtes s !! TCB_PTR_CTE_PTR t tcbVTable = Some c /\
    forall asid pd, c.(cte_cap) = Cap_page_directory asid true pd -> 0 < asid < numASIDs.

(** The action and the domain stay. *)
Definition same_turn (s s' : kstate) : Prop :=
  ksSchedulerAction s' = ksSchedulerAction s /\ ksCurDomain s' = ksCurDomain s /\ ksDomainTime s' = ksDomainTime s.

Lemma wp_switchToThread s rq t tc :
  sched_rep s rq -> hwasid_wf s -> ksTcbs s !! t = Some tc -> thread_vm s t ->
  wp (switchToThread t) (fun _ s' => sched_rep s' (dequeue_abs rq t tc) /\ hwasid_wf s' /\
    ksCurThread s' = t /\ same_turn s s' /\ run_frame s s') s.
Proof.
  intros R W Ht (c & Hc & Hv). unfold switchToThread, Arch_switchToThread.
  wstep. wstep. eapply wp_mono; [by eapply wp_setVMRoot|].
  intros _ s1 (W1 & F1 & _). cbn beta.
  assert (ksTcbs s1 = ksTcbs s /\ ksReadyQueues s1 = ksReadyQueues s /\
          same_turn s s1) as (Et1 & Eq1 & Ea1) by (by rewrite F1).
  wstep. eapply wp_get_tcb; [by rewrite Et1|]. unfold hw_emit. wstep. wstep. ksimp. wstep. ksimp.
  match goal with |- wp _ _ ?x => set (s2 := x) end.
  assert (run_frame s s2) as F2.
  { eapply run_frame_trans; [by apply run_frame_vm|]. split; [|done]. unfold s2. by destruct s1. }
  assert (sched_rep s2 rq) as R2 by (by apply (sched_rep_ext s)).
  assert (hwasid_wf s2) as W2 by (by apply (hwasid_wf_ext s1)).
  wstep. eapply wp_mono; [apply (wp_tcbSchedDequeue s2 rq t tc); [done|unfold s2; ksimp; by rewrite Et1]|].
  intros _ s3 [R3 F3]. wstep. split; [|split; [|split; [done|split]]].
  - by eapply sched_rep_ext; [..|exact R3].
  - destruct F3 as [E3 _]. eapply (hwasid_wf_ext s2); [..|exact W2]; ksimp; by rewrite E3.
  - destruct F3 as [E3 _]. unfold same_turn. ksimp. rewrite E3. exact Ea1.
  - eapply run_frame_trans; [exact F2|].
    eapply run_frame_trans; [by apply run_frame_act, act_frame_sched|]. split; [|done]. by destruct s3.
Qed.

Definition thread_ready (s : kstate) (t : Z) : Prop :=
  thread_vm s t /\ forall tc, ksTcbs s !! t = Some tc -> isRunnable_ts tc.(tcbState).(tsType) = true.

Lemma filter_head (t : Z) l : NoDup (t :: l) -> filter (fun p => p <> t) (t :: l) = l.
Proof.
  intros [Hn _]%NoDup_cons. rewrite filter_cons_False by tauto.
  induction l as [|x l IH]; [done|]. apply not_elem_of_cons in Hn as [? ?].
  rewrite filter_cons_True by done. by rewrite IH.
Qed.

(** The outcome of a choice among the [n] lowest priorities of the domain [dom]:
    the head of the first non-empty queue from the top, or the idle thread *)
Definition chosen_in (dom idle : Z) (rq : Z -> list Z) (n : Z) (s' : kstate) : Prop :=
  let queue p := rq (ready_queues_index dom p) in
  (exists p t l, 0 <= p < n /\ queue p = t :: l /\ (forall p', p < p' < n -> queue p' = []) /\
     ksCurThread s' = t /\ sched_rep s' (rq_set rq (ready_queues_index dom p) l)) \/
  ((forall p', 0 <= p' < n -> queue p' = []) /\ ksCurThread s' = idle /\ sched_rep s' rq).
Definition chosen (s : kstate) : (Z -> list Z) -> Z -> kstate -> Prop :=
  chosen_in (ksCurDomain s) (ksIdleThread s).

Lemma wp_choose_from n s rq :
  sched_rep s rq -> hwasid_wf s -> 0 <= ksCurDomain s < CONFIG_NUM_DOMAINS ->
  Z.of_nat n <= CONFIG_NUM_PRIORITIES ->
  (forall p t l, 0 <= p < Z.of_nat n -> rq (ready_queues_index (ksCurDomain s) p) = t :: l -> thread_ready s t) ->
  wp (choose_from n) (fun _ s' => hwasid_wf s' /\ run_frame s s' /\
    same_turn s s' /\ chosen s rq (Z.of_nat n) s') s.
Proof.
  intros R W Hd. induction n as [|n IH]; intros Hn Hr; simpl.
  - unfold switchToIdleThread, Arch_switchToIdleThread. wrun. split; [|split; [|split; [by split_and!|]]].
    + by apply (hwasid_wf_ext s).
    + split; [|done]. by destruct s.
    + right. split; [lia|]. split; [done|]. by eapply sched_rep_ext; [..|exact R].
  - destruct (ready_queues_index_range (ksCurDomain s) (Z.of_nat n)) as [_ Hi]; [done|lia|].
    set (idx := ready_queues_index (ksCurDomain s) (Z.of_nat n)) in *.
    wstep. wstep. wstep. apply wp_get_ready_queue; [done|].
    pose proof (sr_queue _ _ R idx) as Q. pose proof Q as (Qh & _ & _). cbn beta zeta.
    fold (ready_queues_index (ksCurDomain s) (Z.of_nat n)). fold idx. rewrite Qh.
    destruct (rq idx) as [|t l] eqn:El; simpl.
    + eapply wp_mono; [apply IH; [lia|intros; eapply Hr; [|done]; lia]|].
      intros _ s' (W' & F' & A' & [(p & t & l & Hp & Eq & Hh & HC)|(Hh & HC)]).
      * split; [done|split; [done|split; [done|]]]. left. exists p, t, l.
        split; [lia|split; [done|split; [|done]]]. intros p' Hp'.
        destruct (decide (p' = Z.of_nat n)) as [->|]; [done|]. apply Hh. lia.
      * split; [done|split; [done|split; [done|]]]. right. split; [|done]. intros p' Hp'.
        destruct (decide (p' = Z.of_nat n)) as [->|]; [done|]. apply Hh. lia.
    + destruct (sched_rep_in s rq idx t R) as (tc & Ht & Hq & Hidx); [rewrite El; left|].
      pose proof (sched_rep_not_null _ _ _ _ R Ht) as Hnz.
      destruct (Hr (Z.of_nat n) t l ltac:(lia) El) as [Hvm Hrun].
      rewrite (proj2 (Z.eqb_neq t NULL)) by done. simpl.
      wstep. eapply wp_isRunnable; [exact Ht|]. wstep. apply wp_assert; [by apply Hrun|].
      eapply wp_mono; [by eapply wp_switchToThread|].
      intros _ s' (R' & W' & Hc & A' & F'). split; [done|split; [done|split; [done|]]].
      left. exists (Z.of_nat n), t, l. split; [lia|split; [done|split; [lia|split; [done|]]]].
      unfold dequeue_abs in R'. rewrite Hq, Hidx, El, filter_head in R'; [done|].
      by eapply queue_rep_NoDup.
Qed.

Lemma wp_chooseThread s rq :
  sched_rep s rq -> hwasid_wf s -> 0 <= ksCurDomain s < CONFIG_NUM_DOMAINS ->
  (forall p t l, 0 <= p < CONFIG_NUM_PRIORITIES ->
     rq (ready_queues_index (ksCurDomain s) p) = t :: l -> thread_ready s t) ->
  wp chooseThread (fun _ s' => hwasid_wf s' /\ run_frame s s' /\
    same_turn s s' /\ chosen s rq CONFIG_NUM_PRIORITIES s') s.
Proof. intros. by apply wp_choose_from. Qed.

(** ** schedule *)

(** The queues with the current thread put back, if it can run *)
Definition with_current (s : kstate) (rq : Z -> list Z) : Z -> list Z :=
  match ksTcbs s !! ksCurThread s with
  | Some tc => if isRunnable_ts tc.(tcbState).(tsType)
               then enqueue_abs rq (ksCurThread s) tc else rq
  | None => rq
  end.

(** The domain in which the next thread is chosen *)
Definition next_domain (s : kstate) : Z :=
  if ksDomainTime s =? 0 then
    let idx := ksDomScheduleIdx s +w 1 in
    fst (default (0, 0) (ksDomSchedule !! Z.to_nat (if idx >=? ksDomScheduleLength then 0 else idx)))
  else ksCurDomain s.
(** The time it has: each entry of the schedule of the default configuration has one tick. *)
Definition next_time (s : kstate) : Z := if ksDomainTime s =? 0 then 1 else ksDomainTime s.

Lemma wp_enqueue_current s rq :
  sched_rep s rq -> is_Some (ksTcbs s !! ksCurThread s) ->
  wp (let* r := isRunnable (ksCurThread s) in when r (tcbSchedEnqueue (ksCurThread s)))
    (fun _ s' => sched_rep s' (with_current s rq) /\ sched_frame s s') s.
Proof.
  intros R [tc Ht]. unfold with_current. rewrite Ht. wstep. eapply wp_isRunnable; [exact Ht|].
  destruct (isRunnable_ts _); simpl; [by apply wp_tcbSchedEnqueue|].
  wstep. split; [done|apply sched_frame_refl].
Qed.

(** The schedule of the default configuration has one entry. *)
Lemma next_schedule_index i : (if i +w 1 >=? ksDomScheduleLength then 0 else i +w 1) = 0.
Proof.
  pose proof (Z.mod_pos_bound (i + 1) (2 ^ 32) ltac:(lia)).
  unfold ksDomScheduleLength, ksDomSchedule, wadd, wrap. simpl length.
  destruct (Z.geb_spec ((i + 1) mod 2 ^ 32) (Z.of_nat 1)); lia.
Qed.

Lemma wp_nextDomain_when s :
  wp (when (ksDomainTime s =? 0) nextDomain) (fun _ s' =>
    ksCurDomain s' = next_domain s /\ ksDomainTime s' = next_time s /\
    s' = upd_ksCurDomain (ksCurDomain s') (upd_ksDomainTime (ksDomainTime s')
           (upd_ksDomScheduleIdx (ksDomScheduleIdx s')
             (upd_ksWorkUnitsCompleted (ksWorkUnitsCompleted s') s)))) s.
Proof.
  unfold next_domain, next_time. destruct (ksDomainTime s =? 0); simpl.
  - unfold nextDomain. wstep. wstep. cbn zeta. rewrite !next_schedule_index. wrun.
    eapply wp_of_option; [reflexivity|]. wrun. done.
  - wstep. split; [done|]. split; [done|]. by destruct s.
Qed.

Lemma wp_bind2 {A B C} (m : K A) (k : A -> K B) (h : B -> K C) Q s :
  wp (bind m k) (fun b => wp (h b) Q) s -> wp (bind m (fun a => bind (k a) h)) Q s.
Proof. intros H. unfold wp. rewrite <- bind_assoc. by apply wp_bind. Qed.

Lemma thread_ready_ext s s' t :
  ksCtes s' = ksCtes s -> (forall p, unsched <$> ksTcbs s' !! p = unsched <$> ksTcbs s !! p) ->
  thread_ready s t -> thread_ready s' t.
Proof.
  intros Ec Et [Hv Hr]. split; [unfold thread_vm in *; by rewrite Ec|].
  intros tc Ht. specialize (Et t). rewrite Ht in Et. destruct (ksTcbs s !! t) as [tc0|] eqn:E0; [|done].
  assert (unsched tc = unsched tc0) as E by (simpl in Et; congruence).
  rewrite (unsched_tsType _ _ E). by apply Hr.
Qed.

Lemma next_domain_range s :
  0 <= ksCurDomain s < CONFIG_NUM_DOMAINS -> 0 <= next_domain s < CONFIG_NUM_DOMAINS.
Proof.
  intros H. unfold next_domain. destruct (ksDomainTime s =? 0); [|done].
  cbn zeta. rewrite next_schedule_index. done.
Qed.

Lemma wp_schedule_choose s rq :
  sched_rep s rq -> hwasid_wf s -> 0 <= ksCurDomain s < CONFIG_NUM_DOMAINS ->
  is_Some (ksTcbs s !! ksCurThread s) ->
  ksSchedulerAction s = SchedulerAction_ChooseNewThread ->
  (forall idx t, t ∈ with_current s rq idx -> thread_ready s t) ->
  wp schedule (fun _ s' => hwasid_wf s' /\ run_frame s s' /\
    ksSchedulerAction s' = SchedulerAction_ResumeCurrentThread /\
    chosen_in (next_domain s) (ksIdleThread s) (with_current s rq) CONFIG_NUM_PRIORITIES s' /\
    ksCurDomain s' = next_domain s /\ ksDomainTime s' = next_time s) s.
Proof.
  intros R W Hd Hc Ha Hr. unfold schedule. wstep. wstep. rewrite Ha. simpl.
  eapply (wp_bind2 _ (fun r => when r _)).
  eapply wp_mono; [by apply wp_enqueue_current|]. intros _ s1 [R1 F1]. cbn beta.
  wstep. wstep. wstep. eapply wp_mono; [apply wp_nextDomain_when|].
  intros _ s2 (Hd2 & Ht2 & E2). cbn beta.
  assert (ksTcbs s2 = ksTcbs s1 /\ ksReadyQueues s2 = ksReadyQueues s1 /\ ksIdleThread s2 = ksIdleThread s1 /\
    ksCtes s2 = ksCtes s1) as (Et & Eq & Ei & Ec) by (by rewrite E2).
  assert (next_domain s1 = next_domain s /\ next_time s1 = next_time s /\ ksIdleThread s1 = ksIdleThread s /\
    ksCtes s1 = ksCtes s) as (En & Em & Ei1 & Ec1).
  { destruct F1 as [-> _]. done. }
  wstep. eapply wp_mono; [apply (wp_chooseThread s2 (with_current s rq))|].
  - by apply (sched_rep_ext s1).
  - apply (hwasid_wf_ext s1); try (by rewrite E2). destruct F1 as [E1 _].
    by apply (hwasid_wf_ext s); try (by rewrite E1).
  - rewrite Hd2, En. by apply next_domain_range.
  - intros p t l _ El. apply (thread_ready_ext s); [by rewrite Ec| |].
    + rewrite Et. apply F1.
    + eapply Hr. rewrite El. left.
  - intros _ s3 (W3 & F3 & (_ & D3 & T3) & C3). unfold set_action. wstep. split; [|split; [|split; [done|split]]].
    + by apply (hwasid_wf_ext s3).
    + apply (run_frame_trans s s1); [by apply run_frame_act, act_frame_sched|].
      apply (run_frame_trans s1 s2); [split; [rewrite E2; by destruct s1|by rewrite Et]|].
      apply (run_frame_trans s2 s3); [done|]. split; [by destruct s3|done].
    + unfold chosen in C3. rewrite Hd2, Ei, En, Ei1 in C3. destruct C3 as [(p & t & l & ? & ? & ? & ? & R3)|(? & ? & R3)].
      * left. exists p, t, l. split_and!; try done; try lia. by eapply sched_rep_ext; [..|exact R3].
      * right. split_and!; try done. by eapply sched_rep_ext; [..|exact R3].
    + ksimp. by rewrite D3, T3, Hd2, Ht2, En, Em.
Qed.

Lemma in_with_current s rq p idx : p ∈ with_current s rq idx -> p = ksCurThread s \/ p ∈ rq idx.
Proof.
  unfold with_current. destruct (ksTcbs s !! ksCurThread s) as [tc|]; [|by right].
  destruct (isRunnable_ts _); [|by right]. unfold enqueue_abs, rq_set.
  destruct (tcbQueued _); [by right|]. case_match; [|by right].
  intros [->|]%elem_of_cons; [by left|right]. by apply Z.eqb_eq in H as ->.
Qed.

Lemma wp_schedule_switch s rq t tc :
  sched_rep s rq -> hwasid_wf s -> is_Some (ksTcbs s !! ksCurThread s) ->
  ksSchedulerAction s = t -> is_thread_action t = true -> ksTcbs s !! t = Some tc ->
  tc.(tcbState).(tcbQueued) = false -> t <> ksCurThread s -> thread_vm s t ->
  wp schedule (fun _ s' => hwasid_wf s' /\ run_frame s s' /\
    ksSchedulerAction s' = SchedulerAction_ResumeCurrentThread /\
    ksCurThread s' = t /\ sched_rep s' (with_current s rq)) s.
Proof.
  intros R W Hc Ha Hact Ht Hq Hne Hv. unfold schedule. wstep. wstep. rewrite Ha.
  apply andb_true_iff in Hact as [N1 N2]. rewrite N1. apply negb_true_iff in N2. rewrite N2.
  eapply (wp_bind2 _ (fun r => when r _)).
  eapply wp_mono; [by apply wp_enqueue_current|]. intros _ s1 [R1 F1]. cbn beta.
  destruct (sched_frame_lookup _ _ _ _ F1 Ht) as (tc1 & Ht1 & E1).
  assert (ksCtes s1 = ksCtes s) as Ec1 by (by destruct F1 as [-> _]).
  wstep. eapply wp_mono; [apply (wp_switchToThread s1 (with_current s rq) t tc1); try done|].
  - destruct F1 as [E _]. by apply (hwasid_wf_ext s); try (by rewrite E).
  - unfold thread_vm. by rewrite Ec1.
  - intros _ s2 (R2 & W2 & Hc2 & _ & F2). unfold set_action. wstep.
    split; [|split; [|split; [done|split; [done|]]]].
    + by apply (hwasid_wf_ext s2).
    + apply (run_frame_trans s s1); [by apply run_frame_act, act_frame_sched|].
      apply (run_frame_trans s1 s2); [done|]. split; [by destruct s2|done].
    + assert (tcbQueued (tcbState tc1) = false) as Hq1.
      { destruct (tcbQueued (tcbState tc1)) eqn:E; [|done]. exfalso.
        assert (t ∈ with_current s rq (tcb_index tc1)) as [?|Hin]%in_with_current; [|done|].
        - apply (sr_mem _ _ R1). rewrite Ht1. unfold sched_key. simpl. by rewrite E.
        - by apply (sched_rep_unqueued _ _ _ _ _ R Ht Hq) in Hin. }
      unfold dequeue_abs in R2. rewrite Hq1 in R2. by eapply sched_rep_ext; [..|exact R2].
Qed.
