(* ===== verification/CapOps.v ===== *)
(** * Capabilities: rights, regions, derived data

    The functions on capabilities that read nothing else: src/object/objecttype.c
    lines 33-54 and 265-490, and src/arch/arm/object/objecttype.c lines 74-102,
    153-170 and 254-361. *)
From stdpp Require Import base list gmap.
From Stdlib Require Import ZArith Lia.
From S2P Require Import Prelude.
From S2P Require Import Structures.
From S2P Require Import KernelState.
From S2P Require Import VSpace.

(** ** Object types and sizes *)
Definition seL4_UntypedObject : Z := 0.
Definition seL4_TCBObject : Z := 1.
Definition seL4_EndpointObject : Z := 2.
Definition seL4_AsyncEndpointObject : Z := 3.
Definition seL4_CapTableObject : Z := 4.
Definition seL4_NonArchObjectTypeCount : Z := 5.
Definition seL4_ARM_SmallPageObject : Z := 5.
Definition seL4_ARM_LargePageObject : Z := 6.
Definition seL4_ARM_SectionObject : Z := 7.
Definition seL4_ARM_SuperSectionObject : Z := 8.
Definition seL4_ARM_PageTableObject : Z := 9.
Definition seL4_ARM_PageDirectoryObject : Z := 10.
Definition seL4_ObjectTypeCount : Z := 11.

Definition Arch_getObjectSize (t : Z) : option Z :=
  if t =? seL4_ARM_SmallPageObject then Some ARMSmallPageBits
  else if t =? seL4_ARM_LargePageObject then Some ARMLargePageBits
  else if t =? seL4_ARM_SectionObject then Some ARMSectionBits
  else if t =? seL4_ARM_SuperSectionObject then Some ARMSuperSectionBits
  else if t =? seL4_ARM_PageTableObject then Some PT_SIZE_BITS
  else if t =? seL4_ARM_PageDirectoryObject then Some PD_SIZE_BITS
  else None.

(** [None] is the call of [fail]. *)
Definition getObjectSize (t userObjSize : Z) : option Z :=
  if t >=? seL4_NonArchObjectTypeCount then Arch_getObjectSize t
  else if t =? seL4_TCBObject then Some TCB_BLOCK_SIZE_BITS
  else if t =? seL4_EndpointObject then Some EP_SIZE_BITS
  else if t =? seL4_AsyncEndpointObject then Some AEP_SIZE_BITS
  else if t =? seL4_CapTableObject then Some (CTE_SIZE_BITS +w userObjSize)
  else if t =? seL4_UntypedObject then Some userObjSize
  else None.

(** ** Recycle rights *)
Definition Arch_hasRecycleRights (c : cap) : bool :=
  match c with
  | Cap_small_frame _ _ _ _ _ | Cap_frame _ _ _ _ _ _ =>
      generic_frame_cap_get_capFVMRights c =? VMReadWrite
  | _ => true
  end.

Definition hasRecycleRights (c : cap) : bool :=
  match c with
  | Cap_null | Cap_domain => false
  | Cap_endpoint _ grant send recv _ => send && recv && grant
  | Cap_async_endpoint _ send recv _ => send && recv
  | _ => if isArchCap c then Arch_hasRecycleRights c else true
  end.

(** ** Regions and objects *)
Definition Arch_sameRegionAs (a b : cap) : bool :=
  match a, b with
  | (Cap_small_frame _ _ _ _ _ | Cap_frame _ _ _ _ _ _),
    (Cap_small_frame _ _ _ _ _ | Cap_frame _ _ _ _ _ _) =>
      let botA := generic_frame_cap_get_capFBasePtr a in
      let botB := generic_frame_cap_get_capFBasePtr b in
      let topA := botA +w MASK (pageBitsForSize (generic_frame_cap_get_capFSize a)) in
      let topB := botB +w MASK (pageBitsForSize (generic_frame_cap_get_capFSize b)) in
      (botA <=? botB) && (topA >=? topB) && (botB <=? topB)
  | Cap_page_table _ _ _ pa, Cap_page_table _ _ _ pb => pa =? pb
  | Cap_page_directory _ _ pa, Cap_page_directory _ _ pb => pa =? pb
  | Cap_asid_control, Cap_asid_control => true
  | Cap_asid_pool _ pa, Cap_asid_pool _ pb => pa =? pb
  | _, _ => false
  end.

Definition sameRegionAs (a b : cap) : bool :=
  match a with
  | Cap_untyped _ aSize aBase =>
      let bBase := cap_get_capPtr b in
      let aTop := aBase +w MASK aSize in
      let bTop := bBase +w MASK (cap_get_capSizeBits b) in
      negb (bBase =? 0) && (aBase <=? bBase) && (bTop <=? aTop) && (bBase <=? bTop)
  | Cap_endpoint _ _ _ _ pa =>
      match b with Cap_endpoint _ _ _ _ pb => pa =? pb | _ => false end
  | Cap_async_endpoint _ _ _ pa =>
      match b with Cap_async_endpoint _ _ _ pb => pa =? pb | _ => false end
  | Cap_cnode ra _ _ pa =>
      match b with Cap_cnode rb _ _ pb => (pa =? pb) && (ra =? rb) | _ => false end
  | Cap_thread pa => match b with Cap_thread pb => pa =? pb | _ => false end
  | Cap_reply _ pa => match b with Cap_reply _ pb => pa =? pb | _ => false end
  | Cap_domain => match b with Cap_domain => true | _ => false end
  | Cap_irq_control => match b with Cap_irq_control | Cap_irq_handler _ => true | _ => false end
  | Cap_irq_handler ia => match b with Cap_irq_handler ib => ia =? ib | _ => false end
  | _ => if isArchCap a && isArchCap b then Arch_sameRegionAs a b else false
  end.

Definition Arch_sameObjectAs (a b : cap) : bool :=
  match a, b with
  | Cap_small_frame _ _ _ _ pa, Cap_small_frame _ _ _ _ pb => pa =? pb
  | Cap_small_frame _ _ _ _ _, Cap_frame _ _ _ _ _ _ => false
  | Cap_frame sa _ _ _ _ pa, Cap_frame sb _ _ _ _ pb => (pa =? pb) && (sa =? sb)
  | Cap_frame _ _ _ _ _ _, Cap_small_frame _ _ _ _ _ => false
  | _, _ => Arch_sameRegionAs a b
  end.

Definition sameObjectAs (a b : cap) : bool :=
  if cap_get_capType a == cap_untyped_cap then false
  else if (cap_get_capType a == cap_irq_control_cap) && (cap_get_capType b == cap_irq_handler_cap)
  then false
  else if isArchCap a && isArchCap b then Arch_sameObjectAs a b
  else sameRegionAs a b.

(** ** Badges and guards *)
Definition Arch_updateCapData (preserve : bool) (data : Z) (c : cap) : cap := c.

Definition updateCapData (preserve : bool) (newData : Z) (c : cap) : cap :=
  if isArchCap c then Arch_updateCapData preserve newData c
  else
    match c with
    | Cap_endpoint badge grant send recv ptr =>
        if negb preserve && (badge =? 0)
        then Cap_endpoint (field 28 newData) grant send recv ptr else Cap_null
    | Cap_async_endpoint badge send recv ptr =>
        if negb preserve && (badge =? 0)
        then Cap_async_endpoint (field 28 newData) send recv ptr else Cap_null
    | Cap_cnode radix _ _ ptr =>
        let guardSize := cnode_capdata_get_guardSize newData in
        if guardSize + radix >? wordBits then Cap_null
        else
          let guard := cnode_capdata_get_guard newData &w MASK guardSize in
          Cap_cnode radix (field 5 guardSize) (field 18 guard) ptr
    | _ => c
    end.

(** ** Rights *)
Definition Arch_maskCapRights (cap_rights_mask : Z) (c : cap) : cap :=
  match c with
  | Cap_small_frame lo rights addr hi base =>
      Cap_small_frame lo (field 2 (maskVMRights rights cap_rights_mask)) addr hi base
  | Cap_frame size lo rights addr hi base =>
      Cap_frame size lo (field 2 (maskVMRights rights cap_rights_mask)) addr hi base
  | _ => c
  end.

Definition maskCapRights (cap_rights : Z) (c : cap) : cap :=
  if isArchCap c then Arch_maskCapRights cap_rights c
  else
    match c with
    | Cap_endpoint badge grant send recv ptr =>
        Cap_endpoint badge
          (grant && cap_rights_get_capAllowGrant cap_rights)
          (send && cap_rights_get_capAllowWrite cap_rights)
          (recv && cap_rights_get_capAllowRead cap_rights) ptr
    | Cap_async_endpoint badge send recv ptr =>
        Cap_async_endpoint badge
          (send && cap_rights_get_capAllowWrite cap_rights)
          (recv && cap_rights_get_capAllowRead cap_rights) ptr
    | _ => c
    end.

(** ** Unmapped versions of memory capabilities *)
Definition resetMemMapping (c : cap) : cap :=
  match c with
  | Cap_small_frame _ _ _ _ _ | Cap_frame _ _ _ _ _ _ => frame_set_MappedASID c asidInvalid
  | Cap_page_table _ asid addr base => Cap_page_table false asid addr base
  | Cap_page_directory asid _ base => Cap_page_directory asid false base
  | _ => c
  end.
