(* ===== verification/MDB.v ===== *)
(** * Capability slots and the mapping database (src/object/cnode.c)

    The mapping database is a doubly linked list of the slots that hold
    capabilities. This file holds the operations of cnode.c that change the
    list one link at a time; deletion and revocation, which call back into
    object finalisation, are in [Delete]. *)
From stdpp Require Import base list gmap.
From Stdlib Require Import ZArith Lia.
From S2P Require Import Prelude.
From S2P Require Import Structures.
From S2P Require Import KernelState.
From S2P Require Import DList.
From S2P Require Import VSpace.
From S2P Require Import CapOps.
From S2P Require Import Gic.

Definition mdb_next (p : Z) : K Z := let* c := get_cte p in ret c.(cteMDBNode).(mdbNext).
Definition set_mdb (p : Z) (m : mdb_node) : K unit := mod_cte p (upd_cteMDBNode m).
Definition MIN_SIZE_BITS : Z := 4.
Definition MAX_FREE_INDEX (sizeBits : Z) : Z := BIT (sizeBits - MIN_SIZE_BITS).

(** ** Interrupt states (src/object/interrupt.c) *)
Definition irq_state_of (s : kstate) (irq : Z) : irq_state :=
  default IRQInactive (intStateIRQTable s !! irq).
Definition get_irq_state (irq : Z) : K irq_state :=
  if (0 <=? irq) && (irq <=? maxIRQ) then gets (fun s => irq_state_of s irq)
  else halt_with Undefined.
Definition isIRQActive (irq : Z) : K bool :=
  let* st := get_irq_state irq in ret (st != IRQInactive).
Definition setIRQState (irqState : irq_state) (irq : Z) : K unit :=
  let* _ := get_irq_state irq in
  modify (fun s => upd_intStateIRQTable (<[irq := irqState]> (intStateIRQTable s)) s) ;;;
  maskInterrupt (irqState == IRQInactive) irq.
Definition deletedIRQHandler (irq : Z) : K unit := setIRQState IRQInactive irq.

(** ** Insertion *)
Definition cap_untyped_cap_set_capFreeIndex (c : cap) (i : Z) : cap :=
  match c with Cap_untyped _ size ptr => Cap_untyped (field 27 i) size ptr | _ => c end.

Definition setUntypedCapAsFull (srcCap newCap : cap) (srcSlot : Z) : K unit :=
  match srcCap, newCap with
  | Cap_untyped _ srcSize srcPtr, Cap_untyped _ newSize newPtr =>
      if (srcPtr =? newPtr) && (newSize =? srcSize) then
        let* c := get_cap srcSlot in
        set_cap srcSlot (cap_untyped_cap_set_capFreeIndex c (MAX_FREE_INDEX srcSize))
      else ret tt
  | _, _ => ret tt
  end.

(** Whether the new capability starts a subtree that can be revoked. Reading the
    badge of a capability of another type fails. *)
Definition newCapIsRevocable (newCap srcCap : cap) : K bool :=
  match newCap, srcCap with
  | Cap_endpoint newBadge _ _ _ _, Cap_endpoint srcBadge _ _ _ _ => ret (negb (newBadge =? srcBadge))
  | Cap_endpoint _ _ _ _ _, _ => fail
  | Cap_async_endpoint newBadge _ _ _, Cap_async_endpoint srcBadge _ _ _ =>
      ret (negb (newBadge =? srcBadge))
  | Cap_async_endpoint _ _ _ _, _ => fail
  | Cap_irq_handler _, _ => ret (cap_get_capType srcCap == cap_irq_control_cap)
  | Cap_untyped _ _ _, _ => ret true
  | _, _ => ret false
  end.

(** The assertions on an empty destination *)
Definition assert_empty_slot (destSlot : Z) : K unit :=
  let* d := get_cte destSlot in
  assert (d.(cte_cap) == Cap_null) ;;;
  assert ((d.(cteMDBNode).(mdbNext) =? NULL) && (d.(cteMDBNode).(mdbPrev) =? NULL)).

Definition cteInsert (newCap : cap) (srcSlot destSlot : Z) : K unit :=
  let* src := get_cte srcSlot in
  let srcMDB := src.(cteMDBNode) in
  let srcCap := src.(cte_cap) in
  let* revocable := newCapIsRevocable newCap srcCap in
  let newMDB := mdb_node_set_mdbFirstBadged revocable
                  (mdb_node_set_mdbRevocable revocable (mdb_node_set_mdbPrev srcSlot srcMDB)) in
  assert_empty_slot destSlot ;;;
  setUntypedCapAsFull srcCap newCap srcSlot ;;;
  set_cap destSlot newCap ;;;
  set_mdb destSlot newMDB ;;;
  mod_mdb srcSlot (mdb_node_set_mdbNext destSlot) ;;;
  when (negb (newMDB.(mdbNext) =? NULL))
    (mod_mdb newMDB.(mdbNext) (mdb_node_set_mdbPrev destSlot)).

Definition insertNewCap (parent slot : Z) (c : cap) : K unit :=
  let* next := mdb_next parent in
  set_cap slot c ;;;
  set_mdb slot (mdb_node_new next true true parent) ;;;
  when (negb (next =? NULL)) (mod_mdb next (mdb_node_set_mdbPrev slot)) ;;;
  mod_mdb parent (mdb_node_set_mdbNext slot).

(** ** Moves *)
Definition cteMove (newCap : cap) (srcSlot destSlot : Z) : K unit :=
  assert_empty_slot destSlot ;;;
  let* src := get_cte srcSlot in
  let mdb := src.(cteMDBNode) in
  set_cap destSlot newCap ;;;
  set_cap srcSlot Cap_null ;;;
  set_mdb destSlot mdb ;;;
  set_mdb srcSlot nullMDBNode ;;;
  let prev_ptr := mdb.(mdbPrev) in
  when (negb (prev_ptr =? NULL)) (mod_mdb prev_ptr (mdb_node_set_mdbNext destSlot)) ;;;
  let next_ptr := mdb.(mdbNext) in
  when (negb (next_ptr =? NULL)) (mod_mdb next_ptr (mdb_node_set_mdbPrev destSlot)).

Definition cteSwap (cap1 : cap) (slot1 : Z) (cap2 : cap) (slot2 : Z) : K unit :=
  set_cap slot1 cap2 ;;;
  set_cap slot2 cap1 ;;;
  let* c1 := get_cte slot1 in
  let mdb1 := c1.(cteMDBNode) in
  when (negb (mdb1.(mdbPrev) =? NULL)) (mod_mdb mdb1.(mdbPrev) (mdb_node_set_mdbNext slot2)) ;;;
  when (negb (mdb1.(mdbNext) =? NULL)) (mod_mdb mdb1.(mdbNext) (mdb_node_set_mdbPrev slot2)) ;;;
  let* c2 := get_cte slot2 in
  let mdb2 := c2.(cteMDBNode) in
  set_mdb slot1 mdb2 ;;;
  set_mdb slot2 mdb1 ;;;
  when (negb (mdb2.(mdbPrev) =? NULL)) (mod_mdb mdb2.(mdbPrev) (mdb_node_set_mdbNext slot1)) ;;;
  when (negb (mdb2.(mdbNext) =? NULL)) (mod_mdb mdb2.(mdbNext) (mdb_node_set_mdbPrev slot1)).

Definition capSwapForDelete (slot1 slot2 : Z) : K unit :=
  if slot1 =? slot2 then ret tt
  else
    let* cap1 := get_cap slot1 in
    let* cap2 := get_cap slot2 in
    cteSwap cap1 slot1 cap2 slot2.

(** ** Removal *)
Definition emptySlot (slot irq : Z) : K unit :=
  let* c := get_cte slot in
  if c.(cte_cap) != Cap_null then
    let mdbNode := c.(cteMDBNode) in
    let prev := mdbNode.(mdbPrev) in
    let next := mdbNode.(mdbNext) in
    when (negb (prev =? NULL)) (mod_mdb prev (mdb_node_set_mdbNext next)) ;;;
    when (negb (next =? NULL)) (mod_mdb next (mdb_node_set_mdbPrev prev)) ;;;
    when (negb (next =? NULL))
      (mod_mdb next (fun m =>
         mdb_node_set_mdbFirstBadged (m.(mdbFirstBadged) || mdbNode.(mdbFirstBadged)) m)) ;;;
    set_cap slot Cap_null ;;;
    set_mdb slot nullMDBNode ;;;
    when (negb (irq =? irqInvalid)) (deletedIRQHandler irq)
  else ret tt.

(** ** The master reply capability *)
Definition setupReplyMaster (thread : Z) : K unit :=
  let slot := TCB_PTR_CTE_PTR thread tcbReply in
  let* c := get_cap slot in
  when (c == Cap_null)
    (set_cap slot (cap_reply_cap_new true thread) ;;;
     set_mdb slot nullMDBNode ;;;
     mod_mdb slot (mdb_node_set_mdbRevocable true) ;;;
     mod_mdb slot (mdb_node_set_mdbFirstBadged true)).

(** ** The parent relation *)
Definition isMDBParentOf_ctes (a b : cte) : bool :=
  if negb a.(cteMDBNode).(mdbRevocable) then false
  else if negb (sameRegionAs a.(cte_cap) b.(cte_cap)) then false
  else
    match a.(cte_cap), b.(cte_cap) with
    | Cap_endpoint badge _ _ _ _, Cap_endpoint badge_b _ _ _ _ =>
        if badge =? 0 then true
        else (badge =? badge_b) && negb b.(cteMDBNode).(mdbFirstBadged)
    | Cap_async_endpoint badge _ _ _, Cap_async_endpoint badge_b _ _ _ =>
        if badge =? 0 then true
        else (badge =? badge_b) && negb b.(cteMDBNode).(mdbFirstBadged)
    | _, _ => true
    end.
Definition isMDBParentOf (cte_a cte_b : Z) : K bool :=
  let* a := get_cte cte_a in
  let* b := get_cte cte_b in
  ret (isMDBParentOf_ctes a b).

Definition ensureNoChildren (slot : Z) : K exception_t :=
  let* next := mdb_next slot in
  if negb (next =? 0) then
    let* parent := isMDBParentOf slot next in
    if parent then throw seL4_RevokeFirst else ret EXCEPTION_NONE
  else ret EXCEPTION_NONE.

Definition ensureEmptySlot (slot : Z) : K exception_t :=
  let* c := get_cap slot in
  if c != Cap_null then throw seL4_DeleteFirst else ret EXCEPTION_NONE.

Definition isFinalCapability (slot : Z) : K bool :=
  let* c := get_cte slot in
  let mdb := c.(cteMDBNode) in
  let* prevIsSameObject :=
    (if mdb.(mdbPrev) =? 0 then ret false
     else let* prev := get_cte mdb.(mdbPrev) in ret (sameObjectAs prev.(cte_cap) c.(cte_cap))) in
  if prevIsSameObject then ret false
  else if mdb.(mdbNext) =? 0 then ret true
  else
    let* next := get_cte mdb.(mdbNext) in
    ret (negb (sameObjectAs c.(cte_cap) next.(cte_cap))).

Definition slotCapLongRunningDelete (slot : Z) : K bool :=
  let* c := get_cap slot in
  if c == Cap_null then ret false
  else
    let* final := isFinalCapability slot in
    if negb final then ret false
    else ret (match c with
              | Cap_thread _ | Cap_zombie _ _ | Cap_cnode _ _ _ _ => true
              | _ => false
              end).

(** ** Zombies *)
Definition capRemovable (c : cap) (slot : Z) : K bool :=
  match c with
  | Cap_null => ret true
  | Cap_zombie id type =>
      let n := zombie_number id type in
      let z_slot := zombie_ptr id type in
      ret ((n =? 0) || ((n =? 1) && (slot =? z_slot)))
  | _ => fail
  end.

Definition capCyclicZombie (c : cap) (slot : Z) : bool :=
  match c with Cap_zombie id type => zombie_ptr id type =? slot | _ => false end.

(** ** Derivation of capabilities (objecttype.c) *)
Definition Arch_deriveCap (slot : Z) (c : cap) : K (exception_t * cap) :=
  match c with
  | Cap_page_table mapped _ _ _ =>
      if mapped then ret (EXCEPTION_NONE, c)
      else let* e := throw seL4_IllegalOperation in ret (e, Cap_null)
  | Cap_page_directory _ mapped _ =>
      if mapped then ret (EXCEPTION_NONE, c)
      else let* e := throw seL4_IllegalOperation in ret (e, Cap_null)
  | Cap_small_frame _ _ _ _ _ | Cap_frame _ _ _ _ _ _ =>
      ret (EXCEPTION_NONE, frame_set_MappedASID c asidInvalid)
  | Cap_asid_control | Cap_asid_pool _ _ => ret (EXCEPTION_NONE, c)
  | _ => fail
  end.

Definition deriveCap (slot : Z) (c : cap) : K (exception_t * cap) :=
  if isArchCap c then Arch_deriveCap slot c
  else
    match c with
    | Cap_zombie _ _ | Cap_irq_control | Cap_reply _ _ => ret (EXCEPTION_NONE, Cap_null)
    | Cap_untyped _ _ _ =>
        let* status := ensureNoChildren slot in
        if status != EXCEPTION_NONE then ret (status, Cap_null) else ret (EXCEPTION_NONE, c)
    | _ => ret (EXCEPTION_NONE, c)
    end.

(** ** The mapping database as a list

    [mdb_links] are the links of the nodes; [mdb_chain s l] says that the slots
    [l] are one whole chain of the database. *)
Definition cte_prev (c : cte) : Z := c.(cteMDBNode).(mdbPrev).
Definition cte_next (c : cte) : Z := c.(cteMDBNode).(mdbNext).
Definition mdb_links : gmap Z cte -> links := links_of cte_prev cte_next.
Definition mdb_chain (s : kstate) (l : list Z) : Prop := dseg (mdb_links (ksCtes s)) NULL l NULL.
Definition mdb_flags (c : cte) : bool * bool :=
  (c.(cteMDBNode).(mdbRevocable), c.(cteMDBNode).(mdbFirstBadged)).

(** Slots are not at [NULL], and their addresses fit the fields of a node. *)
Definition slots_wf (s : kstate) : Prop :=
  ksCtes s !! NULL = None /\ forall p, is_Some (ksCtes s !! p) -> field_high 29 p = p.

(** What an operation on slots leaves alone *)
Definition ctes_frame (s s' : kstate) : Prop := s' = upd_ksCtes (ksCtes s') s.

Definition on_mdb (f : mdb_node -> mdb_node) (c : cte) : cte := upd_cteMDBNode (f c.(cteMDBNode)) c.

Lemma upd_ksCtes_id s : upd_ksCtes (ksCtes s) s = s.
Proof. by destruct s. Qed.

Section writes.
Context {s : kstate}.
Lemma wp_alter_cte p f Q :
  is_Some (ksCtes s !! p) -> Q tt (upd_ksCtes (alter f p (ksCtes s)) s) -> wp (mod_cte p f) Q s.
Proof. intros [c Hc] H. eapply wp_mod_cte; [exact Hc|]. by rewrite (insert_alter f p _ c Hc). Qed.
Lemma wp_alter_mdb p f Q :
  is_Some (ksCtes s !! p) -> Q tt (upd_ksCtes (alter (on_mdb f) p (ksCtes s)) s) ->
  wp (mod_mdb p f) Q s.
Proof. apply wp_alter_cte. Qed.
(** A write guarded by a test for [NULL] is a write, for no slot is there. *)
Lemma wp_guarded_mdb p f Q :
  ksCtes s !! NULL = None -> (p <> NULL -> is_Some (ksCtes s !! p)) ->
  Q tt (upd_ksCtes (alter (on_mdb f) p (ksCtes s)) s) ->
  wp (when (negb (p =? NULL)) (mod_mdb p f)) Q s.
Proof.
  intros H0 Hp HQ. destruct (Z.eqb_spec p NULL) as [->|E]; simpl.
  - apply wp_ret. by rewrite alter_None, upd_ksCtes_id in HQ.
  - apply wp_alter_mdb; auto.
Qed.
End writes.

Lemma field_high_NULL w : field_high w NULL = NULL.
Proof. done. Qed.

Lemma mdb_chain_nz s l p : mdb_chain s l -> p ∈ l -> p <> NULL /\ is_Some (ksCtes s !! p).
Proof.
  intros H Hp. destruct (dseg_in _ _ _ _ _ H Hp) as [? E]. split; [done|].
  by apply links_of_is_Some in E.
Qed.

(** The neighbours of a slot *)
Lemma mdb_chain_at s l1 p l2 :
  mdb_chain s (l1 ++ p :: l2) ->
  exists c, ksCtes s !! p = Some c /\ cte_prev c = lastd NULL l1 /\ cte_next c = hd NULL l2.
Proof.
  intros (_ & _ & E & _)%dseg_app. unfold mdb_links, links_of in E.
  destruct (ksCtes s !! p) as [c|]; simpl in E; [|done]. injection E as E1 E2. eauto.
Qed.

Lemma mdb_chain_last s l p : mdb_chain s l -> (p = lastd NULL l \/ p = hd NULL l) -> p <> NULL ->
  is_Some (ksCtes s !! p).
Proof.
  intros H E Hp. destruct (decide (l = [])) as [->|Hl]; [by destruct E|].
  eapply mdb_chain_nz; [exact H|]. destruct E as [->| ->]; auto using lastd_in, hd_in.
Qed.

Lemma slots_wf_aligned s p : slots_wf s -> (p <> NULL -> is_Some (ksCtes s !! p)) -> field_high 29 p = p.
Proof. intros [_ H] Hp. destruct (decide (p = NULL)) as [->|]; auto. Qed.

(** The links after a write *)
Section mdb_writes.
Context (m : gmap Z cte) (p q v : Z).
Lemma mdb_links_next :
  mdb_links (alter (on_mdb (mdb_node_set_mdbNext v)) p m) q =
  (fun '(a, b) => (a, if q =? p then field_high 29 v else b)) <$> mdb_links m q.
Proof. by apply links_of_next. Qed.
Lemma mdb_links_prev :
  mdb_links (alter (on_mdb (mdb_node_set_mdbPrev v)) p m) q =
  (fun '(a, b) => (if q =? p then field_high 29 v else a, b)) <$> mdb_links m q.
Proof. by apply links_of_prev. Qed.
Lemma mdb_links_badged f :
  mdb_links (alter (on_mdb (fun m => mdb_node_set_mdbFirstBadged (f m) m)) p m) q = mdb_links m q.
Proof. by apply links_of_same. Qed.
Lemma mdb_links_cap c : mdb_links (alter (upd_cte_cap c) p m) q = mdb_links m q.
Proof. by apply links_of_same. Qed.
Lemma mdb_links_node n :
  mdb_links (alter (upd_cteMDBNode n) p m) q =
  (fun '(a, b) => if q =? p then (n.(mdbPrev), n.(mdbNext)) else (a, b)) <$> mdb_links m q.
Proof.
  unfold mdb_links, links_of. rewrite lookup_alter.
  destruct (Z.eqb_spec q p) as [->|E].
  - rewrite decide_True by done. by destruct (m !! p).
  - rewrite decide_False by congruence. by destruct (m !! q).
Qed.
End mdb_writes.
Create Rewrite HintDb mdb_links.
#[export] Hint Rewrite mdb_links_next mdb_links_prev mdb_links_badged mdb_links_cap mdb_links_node
  : mdb_links.

(** Evaluate the links of a written heap at one address. *)
Ltac mdb_links_eval :=
  unfold link; autorewrite with mdb_links;
  match goal with |- context [mdb_links ?m ?q] => destruct (mdb_links m q) as [[? ?]|] end;
  simpl; try done;
  repeat match goal with |- context [?a =? ?b] => destruct (Z.eqb_spec a b) end;
  try done; try congruence.

Lemma mdb_chain_unlinked s l p c :
  mdb_chain s l -> ksCtes s !! p = Some c -> cte_prev c = NULL -> cte_next c = NULL ->
  p ∈ l -> l = [p].
Proof.
  intros H Hc Hp Hn (l1 & l2 & ->)%list_elem_of_split.
  pose proof (mdb_chain_at _ _ _ _ H) as (c' & Hc' & Hp' & Hn').
  assert (c' = c) as -> by congruence.
  apply dseg_app in H as (H1 & _ & _ & H2).
  assert (l1 = []) as -> by (eapply dseg_null_last; [exact H1|congruence]).
  assert (l2 = []) as -> by (eapply dseg_null_head; [exact H2|congruence]). done.
Qed.

(** A slot is not one of its neighbours, and neither is one outside of the chain. *)
Lemma mdb_chain_distinct s l1 p l2 :
  mdb_chain s (l1 ++ p :: l2) ->
  p <> NULL /\ (p ∉ l1) /\ (p ∉ l2) /\ lastd NULL l1 <> p /\ hd NULL l2 <> p.
Proof.
  intros H. pose proof (dseg_NoDup _ _ _ H) as (_ & Hd & [Hl2 _]%NoDup_cons)%NoDup_app.
  destruct (mdb_chain_nz _ _ p H) as [Hp _]; [apply elem_of_app; right; left|].
  assert (p ∉ l1) by (intros Hin; apply (Hd _ Hin); left).
  split_and!; auto using lastd_ne, hd_ne.
Qed.

(** Evaluate a lookup in a written heap of slots. *)
Ltac slot_eval :=
  rewrite ?lookup_alter_at;
  match goal with |- context [ksCtes ?s !! ?q] => destruct (ksCtes s !! q) as [[? []]|] eqn:? end;
  repeat case_decide; simplify_eq; try done; try congruence.

(** The same for a slot whose contents are known. *)
Ltac slot_at H :=
  rewrite ?lookup_alter_at, H; repeat case_decide; try congruence; simpl;
  unfold on_mdb, mdb_node_set_mdbNext, mdb_node_set_mdbPrev, mdb_node_set_mdbFirstBadged; ksimp.


(** Run a program of slot accesses, every write an [alter]. *)
Ltac is_some_slot := ksimp; rewrite ?is_Some_alter; eauto.
Ltac cte_step :=
  lazymatch goal with
  | |- wp (mod_mdb _ _) _ _ => apply wp_alter_mdb; [is_some_slot|]
  | |- wp (mod_cte _ _) _ _ => apply wp_alter_cte; [is_some_slot|]
  | |- wp (set_cap _ _) _ _ => apply wp_alter_cte; [is_some_slot|]
  | |- wp (set_mdb _ _) _ _ => apply wp_alter_cte; [is_some_slot|]
  | |- wp (when (negb (_ =? NULL)) (mod_mdb _ _)) _ _ =>
      apply wp_guarded_mdb; [ksimp; rewrite ?lookup_alter_None; done|is_some_slot|]
  | |- _ => wstep
  end; ksimp.
Ltac crun := repeat cte_step.

(** The neighbours of a slot are slots. *)
Lemma mdb_neighbours s l1 p l2 :
  mdb_chain s (l1 ++ p :: l2) ->
  (lastd NULL l1 <> NULL -> is_Some (ksCtes s !! (lastd NULL l1))) /\
  (hd NULL l2 <> NULL -> is_Some (ksCtes s !! (hd NULL l2))).
Proof.
  intros H. split; intros E.
  - eapply mdb_chain_nz; [exact H|]. apply elem_of_app. left.
    apply lastd_in. by intros ->.
  - eapply mdb_chain_nz; [exact H|]. apply elem_of_app. right. right.
    apply hd_in. by intros ->.
Qed.

(** An empty slot is outside of every chain that holds another slot. *)
Lemma mdb_chain_fresh s l1 p l2 q k :
  mdb_chain s (l1 ++ p :: l2) -> ksCtes s !! q = Some (mk_cte k nullMDBNode) -> p <> q ->
  q ∉ l1 ++ p :: l2.
Proof.
  intros Hch Hq Hne Hin.
  pose proof (mdb_chain_unlinked _ _ _ _ Hch Hq eq_refl eq_refl Hin) as E.
  assert (p ∈ l1 ++ p :: l2) as Hp by (apply elem_of_app; right; left).
  rewrite E in Hp. set_solver.
Qed.

(** What the proofs about a slot of a chain and a slot outside of it start from *)
Lemma mdb_insert_facts s l1 p l2 q :
  slots_wf s -> mdb_chain s (l1 ++ p :: l2) -> is_Some (ksCtes s !! q) -> q ∉ l1 ++ p :: l2 ->
  field_high 29 p = p /\ field_high 29 q = q /\ q <> NULL /\ p <> q /\
  lastd NULL l1 <> q /\ hd NULL l2 <> q /\ (q ∉ l1) /\ (q ∉ l2) /\
  field_high 29 (hd NULL l2) = hd NULL l2 /\ field_high 29 (lastd NULL l1) = lastd NULL l1.
Proof.
  intros Hwf Hch Hq Hnin. pose proof Hwf as [H0 Hal].
  pose proof (mdb_neighbours _ _ _ _ Hch) as [Hsp Hsn].
  assert (q <> NULL) by (intros ->; rewrite H0 in Hq; by destruct Hq).
  pose proof (mdb_chain_at _ _ _ _ Hch) as (c & Hc & _).
  split_and!; eauto using slots_wf_aligned; try (apply lastd_ne; set_solver);
    try (apply hd_ne; set_solver); set_solver.
Qed.

Lemma wp_cteMove s l1 src l2 dest newCap c :
  slots_wf s -> mdb_chain s (l1 ++ src :: l2) ->
  ksCtes s !! src = Some c ->
  ksCtes s !! dest = Some (mk_cte Cap_null nullMDBNode) ->
  src <> dest ->
  wp (cteMove newCap src dest) (fun _ s' => ctes_frame s s' /\
    mdb_chain s' (l1 ++ dest :: l2) /\
    ksCtes s' !! src = Some (mk_cte Cap_null nullMDBNode) /\
    ksCtes s' !! dest = Some (mk_cte newCap c.(cteMDBNode)) /\
    forall p, p <> src -> p <> dest ->
      cte_cap <$> ksCtes s' !! p = cte_cap <$> ksCtes s !! p /\
      mdb_flags <$> ksCtes s' !! p = mdb_flags <$> ksCtes s !! p /\
      (p ∉ l1 ++ l2 -> ksCtes s' !! p = ksCtes s !! p)) s.
Proof.
  intros Hwf Hch Hsrc Hdest Hne.
  pose proof Hwf as [H0 Hal].
  pose proof (mdb_chain_at _ _ _ _ Hch) as (c' & Hc' & Hp & Hn).
  assert (c' = c) as -> by congruence.
  pose proof (mdb_neighbours _ _ _ _ Hch) as [Hsp Hsn].
  unfold cteMove, assert_empty_slot. cte_step. cte_step.
  eapply wp_get_cte; [exact Hdest|]. ksimp.
  cte_step. apply wp_assert; [done|]. apply wp_assert; [done|].
  cte_step. eapply wp_get_cte; [exact Hsrc|].
  fold (cte_prev c) (cte_next c). rewrite Hp, Hn. crun.
  pose proof (mdb_chain_fresh _ _ _ _ _ _ Hch Hdest Hne) as Hdl.
  pose proof (mdb_insert_facts _ _ _ _ dest Hwf Hch ltac:(eauto) Hdl)
    as (Hfs & Hfd & Hd0 & _ & Hld & Hhd & Hd1 & Hd2 & Hfn & Hfp).
  pose proof (mdb_chain_distinct _ _ _ _ Hch) as (Hs0 & Hs1 & Hs2 & Hls & Hhs).
  split_and!; [done| | | |].
  - unfold mdb_chain. ksimp.
    apply (dseg_ext (link dest (hd NULL l2) (link (lastd NULL l1) dest
             (link (lastd NULL l1) (hd NULL l2) (mdb_links (ksCtes s)))))).
    + intros q Hq.
      assert (q <> src) by set_solver.
      unfold cte_prev, cte_next in *. mdb_links_eval.
    + apply dlist_insert; [by apply dlist_remove in Hch|done|set_solver|].
      rewrite link_some. apply links_of_is_Some. eauto.
  - slot_eval.
  - slot_eval.
  - intros p Hps Hpd. split; [|split].
    + slot_eval.
    + slot_eval.
    + intros Hpl. destruct (decide (p = NULL)) as [->|Hp0].
      * rewrite H0. by rewrite !lookup_alter_None.
      * assert (lastd NULL l1 <> p) by (apply lastd_ne; set_solver).
        assert (hd NULL l2 <> p) by (apply hd_ne; set_solver). slot_eval.
Qed.

(** The source of an insertion: an untyped capability copied whole is marked full. *)
Definition full_if_untyped (srcCap newCap : cap) : cap :=
  match srcCap, newCap with
  | Cap_untyped _ srcSize srcPtr, Cap_untyped _ newSize newPtr =>
      if (srcPtr =? newPtr) && (newSize =? srcSize)
      then cap_untyped_cap_set_capFreeIndex srcCap (MAX_FREE_INDEX srcSize) else srcCap
  | _, _ => srcCap
  end.

Lemma upd_cte_cap_id (m : gmap Z cte) p c :
  m !! p = Some c -> alter (upd_cte_cap c.(cte_cap)) p m = m.
Proof. intros H. apply alter_id. intros c' H'. assert (c' = c) as -> by congruence. by destruct c. Qed.

Lemma wp_setUntypedCapAsFull s newCap srcSlot c Q :
  ksCtes s !! srcSlot = Some c ->
  Q tt (upd_ksCtes (alter (upd_cte_cap (full_if_untyped c.(cte_cap) newCap)) srcSlot (ksCtes s)) s) ->
  wp (setUntypedCapAsFull c.(cte_cap) newCap srcSlot) Q s.
Proof.
  intros Hc HQ. unfold setUntypedCapAsFull, full_if_untyped in *.
  assert (Q tt (upd_ksCtes (alter (upd_cte_cap c.(cte_cap)) srcSlot (ksCtes s)) s) -> Q tt s) as Hid.
  { by rewrite (upd_cte_cap_id _ _ _ Hc), upd_ksCtes_id. }
  destruct (cte_cap c) eqn:Ec; auto using wp_ret. destruct newCap; auto using wp_ret.
  destruct (_ && _); auto using wp_ret.
  cte_step. eapply wp_get_cap; [exact Hc|]. rewrite Ec. cte_step. exact HQ.
Qed.

Lemma wp_cteInsert s l1 src l2 dest newCap c r :
  slots_wf s -> mdb_chain s (l1 ++ src :: l2) ->
  ksCtes s !! src = Some c ->
  ksCtes s !! dest = Some (mk_cte Cap_null nullMDBNode) ->
  src <> dest ->
  newCapIsRevocable newCap c.(cte_cap) s = Ret r s ->
  wp (cteInsert newCap src dest) (fun _ s' => ctes_frame s s' /\
    mdb_chain s' (l1 ++ src :: dest :: l2) /\
    ksCtes s' !! dest = Some (mk_cte newCap (mk_mdb_node (hd NULL l2) r r src)) /\
    ksCtes s' !! src = Some (mk_cte (full_if_untyped c.(cte_cap) newCap)
      (upd_mdbNext dest c.(cteMDBNode))) /\
    forall p, p <> src -> p <> dest ->
      cte_cap <$> ksCtes s' !! p = cte_cap <$> ksCtes s !! p /\
      mdb_flags <$> ksCtes s' !! p = mdb_flags <$> ksCtes s !! p /\
      (p ∉ l2 -> ksCtes s' !! p = ksCtes s !! p)) s.
Proof.
  intros Hwf Hch Hsrc Hdest Hne Hr.
  pose proof Hwf as [H0 Hal].
  pose proof (mdb_chain_at _ _ _ _ Hch) as (c' & Hc' & Hp & Hn).
  assert (c' = c) as -> by congruence. clear Hc'.
  pose proof (mdb_neighbours _ _ _ _ Hch) as [Hsp Hsn].
  pose proof (mdb_chain_fresh _ _ _ _ _ _ Hch Hdest Hne) as Hdl.
  pose proof (mdb_insert_facts _ _ _ _ dest Hwf Hch ltac:(eauto) Hdl)
    as (Hfs & Hfd & Hd0 & _ & Hld & Hhd & Hd1 & Hd2 & Hfn & Hfp).
  pose proof (mdb_chain_distinct _ _ _ _ Hch) as (Hs0 & Hs1 & Hs2 & Hls & Hhs).
  unfold cteInsert, assert_empty_slot. cte_step. eapply wp_get_cte; [exact Hsrc|].
  cte_step. eapply wp_exact; [exact Hr|].
  cte_step. cte_step. eapply wp_get_cte; [exact Hdest|].
  cte_step. apply wp_assert; [done|]. apply wp_assert; [done|].
  cte_step. eapply wp_setUntypedCapAsFull; [exact Hsrc|].
  ksimp.
  assert (mdb_node_set_mdbFirstBadged r (mdb_node_set_mdbRevocable r
            (mdb_node_set_mdbPrev src c.(cteMDBNode))) = mk_mdb_node (hd NULL l2) r r src) as ->.
  { rewrite <- Hn. unfold mdb_node_set_mdbPrev. by rewrite Hfs. }
  ksimp. crun.
  split_and!; [done| | | |].
  - unfold mdb_chain. ksimp.
    apply (dseg_ext (link dest (hd NULL l2) (link (lastd NULL (l1 ++ [src])) dest
             (mdb_links (ksCtes s))))).
    + intros q Hq. rewrite lastd_snoc. unfold cte_prev, cte_next in *. mdb_links_eval.
    + pose proof (dlist_insert (mdb_links (ksCtes s)) (l1 ++ [src]) dest l2) as W.
      rewrite <- !app_assoc in W. apply W; [done|done|set_solver|].
      apply links_of_is_Some. eauto.
  - slot_eval.
  - slot_at Hsrc. by rewrite Hfd.
  - intros p Hps Hpd. split; [|split].
    + slot_eval.
    + slot_eval.
    + intros Hpl. destruct (decide (p = NULL)) as [->|Hp0].
      * rewrite H0. by rewrite !lookup_alter_None.
      * assert (hd NULL l2 <> p) by (apply hd_ne; set_solver). slot_eval.
Qed.

Lemma wp_insertNewCap s l1 parent l2 slot newCap c n0 k :
  slots_wf s -> mdb_chain s (l1 ++ parent :: l2) ->
  ksCtes s !! parent = Some c ->
  ksCtes s !! slot = Some (mk_cte k n0) -> slot ∉ l1 ++ parent :: l2 ->
  wp (insertNewCap parent slot newCap) (fun _ s' => ctes_frame s s' /\
    mdb_chain s' (l1 ++ parent :: slot :: l2) /\
    ksCtes s' !! slot = Some (mk_cte newCap (mk_mdb_node (hd NULL l2) true true parent)) /\
    ksCtes s' !! parent = Some (upd_cteMDBNode (upd_mdbNext slot c.(cteMDBNode)) c) /\
    forall p, p <> parent -> p <> slot ->
      cte_cap <$> ksCtes s' !! p = cte_cap <$> ksCtes s !! p /\
      mdb_flags <$> ksCtes s' !! p = mdb_flags <$> ksCtes s !! p /\
      (p ∉ l2 -> ksCtes s' !! p = ksCtes s !! p)) s.
Proof.
  intros Hwf Hch Hpar Hslot Hnin.
  pose proof Hwf as [H0 Hal].
  pose proof (mdb_chain_at _ _ _ _ Hch) as (c' & Hc' & Hp & Hn).
  assert (c' = c) as -> by congruence. clear Hc'.
  pose proof (mdb_neighbours _ _ _ _ Hch) as [Hsp Hsn].
  pose proof (mdb_insert_facts _ _ _ _ slot Hwf Hch ltac:(eauto) Hnin)
    as (Hfs & Hfd & Hd0 & Hne & Hld & Hhd & Hd1 & Hd2 & Hfn & Hfp).
  pose proof (mdb_chain_distinct _ _ _ _ Hch) as (Hs0 & Hs1 & Hs2 & Hls & Hhs).
  unfold insertNewCap, mdb_next. cte_step. cte_step. eapply wp_get_cte; [exact Hpar|].
  cte_step. fold (cte_next c). rewrite Hn. unfold mdb_node_new. rewrite Hfn, Hfs. crun.
  split_and!; [done| | | |].
  - unfold mdb_chain. ksimp.
    apply (dseg_ext (link slot (hd NULL l2) (link (lastd NULL (l1 ++ [parent])) slot
             (mdb_links (ksCtes s))))).
    + intros q Hq. rewrite lastd_snoc. unfold cte_prev, cte_next in *. mdb_links_eval.
    + pose proof (dlist_insert (mdb_links (ksCtes s)) (l1 ++ [parent]) slot l2) as W.
      rewrite <- !app_assoc in W. apply W; [done|done|done|].
      apply links_of_is_Some. eauto.
  - slot_eval.
  - slot_at Hpar. by rewrite Hfd.
  - intros p Hps Hpd. split; [|split].
    + slot_eval.
    + slot_eval.
    + intros Hpl. destruct (decide (p = NULL)) as [->|Hp0].
      * rewrite H0. by rewrite !lookup_alter_None.
      * assert (hd NULL l2 <> p) by (apply hd_ne; set_solver). slot_eval.
Qed.

(** The node after an emptied slot takes over its mark of a first badge. *)
Definition inherit_badged (b : bool) (c : cte) : cte :=
  on_mdb (fun m => mdb_node_set_mdbFirstBadged (m.(mdbFirstBadged) || b) m) c.

Lemma wp_emptySlot s l1 slot l2 c :
  slots_wf s -> mdb_chain s (l1 ++ slot :: l2) ->
  ksCtes s !! slot = Some c -> c.(cte_cap) <> Cap_null ->
  wp (emptySlot slot irqInvalid) (fun _ s' => ctes_frame s s' /\
    mdb_chain s' (l1 ++ l2) /\
    ksCtes s' !! slot = Some (mk_cte Cap_null nullMDBNode) /\
    forall p, p <> slot ->
      cte_cap <$> ksCtes s' !! p = cte_cap <$> ksCtes s !! p /\
      mdb_flags <$> ksCtes s' !! p =
        mdb_flags <$> ((if p =? hd NULL l2 then inherit_badged c.(cteMDBNode).(mdbFirstBadged)
                        else id) <$> ksCtes s !! p) /\
      (p ∉ l1 ++ l2 -> ksCtes s' !! p = ksCtes s !! p)) s.
Proof.
  intros Hwf Hch Hsrc Hnn.
  pose proof Hwf as [H0 Hal].
  pose proof (mdb_chain_at _ _ _ _ Hch) as (c' & Hc' & Hp & Hn).
  assert (c' = c) as -> by congruence. clear Hc'.
  pose proof (mdb_neighbours _ _ _ _ Hch) as [Hsp Hsn].
  pose proof (mdb_chain_distinct _ _ _ _ Hch) as (Hs0 & Hs1 & Hs2 & Hls & Hhs).
  assert (field_high 29 (hd NULL l2) = hd NULL l2) as Hfn by eauto using slots_wf_aligned.
  assert (field_high 29 (lastd NULL l1) = lastd NULL l1) as Hfp by eauto using slots_wf_aligned.
  unfold emptySlot. cte_step. eapply wp_get_cte; [exact Hsrc|].
  rewrite bool_decide_false by done. simpl.
  fold (cte_prev c) (cte_next c). rewrite Hp, Hn. crun.
  split_and!; [done| | |].
  - unfold mdb_chain. ksimp.
    apply (dseg_ext (link (lastd NULL l1) (hd NULL l2) (mdb_links (ksCtes s)))).
    + intros q Hq. assert (q <> slot) by set_solver. mdb_links_eval.
    + by eapply dlist_remove.
  - slot_at Hsrc. done.
  - intros p Hps. split; [|split].
    + slot_eval.
    + destruct (Z.eqb_spec p (hd NULL l2)); slot_eval.
    + intros Hpl. destruct (decide (p = NULL)) as [->|Hp0].
      * rewrite H0. by rewrite !lookup_alter_None.
      * assert (lastd NULL l1 <> p) by (apply lastd_ne; set_solver).
        assert (hd NULL l2 <> p) by (apply hd_ne; set_solver). slot_eval.
Qed.

(** *** Swapping two slots renames them in the whole database. *)
Definition swap_addr (a b p : Z) : Z := if p =? a then b else if p =? b then a else p.

(** The links of every slot are mutual. *)
Definition linked (L : links) : Prop := forall p a b, L p = Some (a, b) ->
  (b <> NULL -> exists b', L b = Some (p, b')) /\ (a <> NULL -> exists a', L a = Some (a', p)).
Definition mdb_linked (s : kstate) : Prop := linked (mdb_links (ksCtes s)).

Lemma swap_addr_cases a b p :
  (p = a /\ swap_addr a b p = b) \/ (p <> a /\ p = b /\ swap_addr a b p = a) \/
  (p <> a /\ p <> b /\ swap_addr a b p = p).
Proof.
  unfold swap_addr. destruct (Z.eqb_spec p a); [auto|]. destruct (Z.eqb_spec p b); auto.
Qed.

Lemma swap_addr_invol a b p : swap_addr a b (swap_addr a b p) = p.
Proof.
  destruct (swap_addr_cases a b p) as [[-> ->]|[(? & -> & ->)|(? & ? & ->)]].
  - unfold swap_addr. destruct (Z.eqb_spec b a); [done|]. by rewrite Z.eqb_refl.
  - unfold swap_addr. by rewrite Z.eqb_refl.
  - unfold swap_addr. by rewrite (proj2 (Z.eqb_neq p a)), (proj2 (Z.eqb_neq p b)).
Qed.

Lemma dseg_rename (f : Z -> Z) L L' prev l next :
  (forall p, p <> NULL -> f p <> NULL) ->
  (forall p, p ∈ l -> L' (f p) = (fun '(a, b) => (f a, f b)) <$> L p) ->
  dseg L prev l next -> dseg L' (f prev) (f <$> l) (f next).
Proof.
  intros Hf. revert prev. induction l as [|p l IH]; intros prev HL; simpl; [done|].
  intros (Hp & E & H). split_and!.
  - auto.
  - rewrite HL, E by left. simpl. by destruct l.
  - apply IH; [|done]. intros q Hq. apply HL. by right.
Qed.

(** A slot of a chain that ends is not its own neighbour. *)
Lemma mdb_chain_no_loop s l p a b :
  mdb_chain s l -> p ∈ l -> mdb_links (ksCtes s) p = Some (a, b) -> a <> p /\ b <> p.
Proof.
  intros H (l1 & l2 & ->)%list_elem_of_split E.
  pose proof (mdb_chain_distinct _ _ _ _ H) as (_ & _ & _ & Hl & Hh).
  apply dseg_app in H as (_ & _ & E' & _). rewrite E in E'. simplify_eq. done.
Qed.

Lemma linked_eqb L p q a b c d :
  linked L -> L NULL = None -> L p = Some (a, b) -> L q = Some (c, d) -> (q =? b) = (p =? c).
Proof.
  intros HL H0 Ep Eq. assert (p <> NULL) as Hp by congruence. assert (q <> NULL) as Hq by congruence.
  destruct (Z.eqb_spec q b) as [->|N]; symmetry; [apply Z.eqb_eq|apply Z.eqb_neq; intros ->].
  - destruct (HL _ _ _ Ep) as [H _]. destruct (H Hq) as [b' E]. congruence.
  - destruct (HL _ _ _ Eq) as [_ H]. destruct (H Hp) as [a' E]. congruence.
Qed.

(** The links after the writes of cteSwap; [(a1, b1)] are the links of slot 1
    before, [(a2', b2')] those of slot 2 after the first two writes. *)
Definition swap_links (s1 s2 a1 b1 a2' b2' : Z) (L : links) : links := fun q =>
  (fun '(u, v) =>
     let u0 := if q =? b1 then s2 else u in
     let v0 := if q =? a1 then s2 else v in
     let u1 := if q =? s2 then a1 else if q =? s1 then a2' else u0 in
     let v1 := if q =? s2 then b1 else if q =? s1 then b2' else v0 in
     (if q =? b2' then s1 else u1, if q =? a2' then s1 else v1)) <$> L q.

Lemma swap_links_rename L s1 s2 a1 b1 a2 b2 p :
  linked L -> L NULL = None -> s1 <> s2 ->
  L s1 = Some (a1, b1) -> L s2 = Some (a2, b2) ->
  a1 <> s1 -> b1 <> s1 -> a2 <> s2 -> b2 <> s2 ->
  swap_links s1 s2 a1 b1 (if s2 =? b1 then s2 else a2) (if s2 =? a1 then s2 else b2) L
    (swap_addr s1 s2 p) =
  (fun '(a, b) => (swap_addr s1 s2 a, swap_addr s1 s2 b)) <$> L p.
Proof.
  intros HL H0 Hne E1 E2 Ha1%Z.eqb_neq Hb1%Z.eqb_neq Ha2%Z.eqb_neq Hb2%Z.eqb_neq.
  pose proof (linked_eqb _ _ _ _ _ _ _ HL H0 E1 E2) as I12.
  pose proof (linked_eqb _ _ _ _ _ _ _ HL H0 E2 E1) as I21.
  pose proof Hne as Hne'%Z.eqb_neq.
  assert ((s2 =? s1) = false) as Hne'' by (by rewrite Z.eqb_sym).
  unfold swap_links.
  destruct (swap_addr_cases s1 s2 p) as [[-> ->]|[(? & -> & ->)|(Hps1 & Hps2 & ->)]].
  - rewrite E1, E2. simpl. unfold swap_addr. rewrite Ha1, Hb1, !Z.eqb_refl. f_equal. f_equal.
    + rewrite (Z.eqb_sym a1 s2). destruct (Z.eqb_spec s2 a1); [by rewrite Z.eqb_refl|].
      rewrite (Z.eqb_sym s2 b2), Hb2. done.
    + rewrite (Z.eqb_sym b1 s2). destruct (Z.eqb_spec s2 b1); [by rewrite Z.eqb_refl|].
      rewrite (Z.eqb_sym s2 a2), Ha2. done.
  - rewrite E1, E2. simpl. unfold swap_addr. rewrite Ha2, Hb2, Hne', !Z.eqb_refl. f_equal. f_equal.
    + rewrite (Z.eqb_sym a2 s1), <- I12. destruct (Z.eqb_spec s2 a1) as [<-|].
      * rewrite Hne'. by destruct (s2 =? b1).
      * by rewrite I21.
    + rewrite (Z.eqb_sym b2 s1), I21. destruct (Z.eqb_spec s2 b1) as [<-|].
      * rewrite Hne'. by destruct (s2 =? a1).
      * by rewrite <- I12.
  - destruct (L p) as [[a b]|] eqn:Ep; [|done]. simpl.
    pose proof (linked_eqb _ _ _ _ _ _ _ HL H0 E1 Ep) as J1.
    pose proof (linked_eqb _ _ _ _ _ _ _ HL H0 E2 Ep) as J2.
    pose proof (linked_eqb _ _ _ _ _ _ _ HL H0 Ep E1) as J3.
    pose proof (linked_eqb _ _ _ _ _ _ _ HL H0 Ep E2) as J4.
    apply Z.eqb_neq in Hps1, Hps2. unfold swap_addr. rewrite Hps1, Hps2. f_equal. f_equal.
    + rewrite (Z.eqb_sym a s1), <- J1, (Z.eqb_sym a s2), <- J2.
      destruct (Z.eqb_spec s2 a1) as [<-|N].
      * apply Z.eqb_eq in I21 as <-. by rewrite Hps2, Hps1.
      * destruct (p =? b2) eqn:B2; [|done]. destruct (p =? b1) eqn:B1; [|done].
        exfalso. apply Hne. symmetry in J1, J2. apply Z.eqb_eq in J1, J2. congruence.
    + rewrite (Z.eqb_sym b s1), J3, (Z.eqb_sym b s2), J4.
      destruct (Z.eqb_spec s2 b1) as [<-|N].
      * symmetry in I12. apply Z.eqb_eq in I12 as <-. by rewrite Hps2, Hps1.
      * destruct (p =? a2) eqn:A2; [|done]. destruct (p =? a1) eqn:A1; [|done].
        exfalso. apply Hne. apply Z.eqb_eq in J3, J4. congruence.
Qed.

Lemma swap_addr_nz a b p : a <> NULL -> b <> NULL -> p <> NULL -> swap_addr a b p <> NULL.
Proof. intros. unfold swap_addr. by repeat case_match. Qed.

Lemma swap_addr_NULL a b : a <> NULL -> b <> NULL -> swap_addr a b NULL = NULL.
Proof.
  intros Ha Hb. unfold swap_addr. destruct (Z.eqb_spec NULL a); [congruence|].
  destruct (Z.eqb_spec NULL b); congruence.
Qed.

Lemma linked_rename s1 s2 L L' :
  s1 <> NULL -> s2 <> NULL ->
  (forall p, L' (swap_addr s1 s2 p) = (fun '(a, b) => (swap_addr s1 s2 a, swap_addr s1 s2 b)) <$> L p) ->
  linked L -> linked L'.
Proof.
  intros H1 H2 HR HL p a b E.
  pose proof (HR (swap_addr s1 s2 p)) as R. rewrite swap_addr_invol, E in R.
  destruct (L (swap_addr s1 s2 p)) as [[a0 b0]|] eqn:E0; simplify_eq/=.
  destruct (HL _ _ _ E0) as [Hn Hp]. split; intros Hnz.
  - destruct Hn as [b' Eb]; [intros ->; by apply Hnz, swap_addr_NULL|].
    pose proof (HR b0) as R'. rewrite Eb in R'. simpl in R'. rewrite swap_addr_invol in R'. eauto.
  - destruct Hp as [a' Ea]; [intros ->; by apply Hnz, swap_addr_NULL|].
    pose proof (HR a0) as R'. rewrite Ea in R'. simpl in R'. rewrite swap_addr_invol in R'. eauto.
Qed.

Lemma mdb_links_Some m q x : mdb_links m q = Some x -> is_Some (m !! q).
Proof. intros H. apply (links_of_is_Some cte_prev cte_next). unfold mdb_links in H. eauto. Qed.

Lemma linked_is_Some m p a b :
  linked (mdb_links m) -> mdb_links m p = Some (a, b) ->
  (a <> NULL -> is_Some (m !! a)) /\ (b <> NULL -> is_Some (m !! b)).
Proof.
  intros HL E. destruct (HL _ _ _ E) as [Hb Ha].
  split; intros H; [destruct (Ha H)|destruct (Hb H)]; eauto using mdb_links_Some.
Qed.

(** The two guarded writes of cteSwap to the neighbours of slot 1, seen from slot 2 *)
Lemma swap_second_read (m : gmap Z cte) s2 a1 b1 c2 :
  field_high 29 s2 = s2 -> m !! s2 = Some c2 ->
  exists c2', alter (on_mdb (mdb_node_set_mdbPrev s2)) b1
                (alter (on_mdb (mdb_node_set_mdbNext s2)) a1 m) !! s2 = Some c2' /\
    cte_cap c2' = cte_cap c2 /\ mdb_flags c2' = mdb_flags c2 /\
    cte_prev c2' = (if s2 =? b1 then s2 else cte_prev c2) /\
    cte_next c2' = (if s2 =? a1 then s2 else cte_next c2).
Proof.
  intros Hf H. rewrite !lookup_alter_at, H. unfold cte_prev, cte_next.
  destruct (Z.eqb_spec s2 b1), (Z.eqb_spec s2 a1); repeat case_decide; try congruence;
    eexists; split_and!; try reflexivity; done.
Qed.

(** The slots after cteSwap, [c2] being what it reads from slot 2 *)
Definition swap_heap (cap1 : cap) (s1 : Z) (cap2 : cap) (s2 : Z) (c1 c2 : cte) (m : gmap Z cte) : gmap Z cte :=
  alter (on_mdb (mdb_node_set_mdbPrev s1)) (cte_next c2)
    (alter (on_mdb (mdb_node_set_mdbNext s1)) (cte_prev c2)
      (alter (upd_cteMDBNode c1.(cteMDBNode)) s2
        (alter (upd_cteMDBNode c2.(cteMDBNode)) s1
          (alter (on_mdb (mdb_node_set_mdbPrev s2)) (cte_next c1)
            (alter (on_mdb (mdb_node_set_mdbNext s2)) (cte_prev c1)
              (alter (upd_cte_cap cap1) s2 (alter (upd_cte_cap cap2) s1 m))))))).

Lemma swap_heap_links cap1 s1 cap2 s2 c1 c2 m q :
  field_high 29 s1 = s1 -> field_high 29 s2 = s2 ->
  mdb_links (swap_heap cap1 s1 cap2 s2 c1 c2 m) q =
  swap_links s1 s2 (cte_prev c1) (cte_next c1) (cte_prev c2) (cte_next c2) (mdb_links m) q.
Proof.
  intros H1 H2. unfold swap_heap, swap_links. autorewrite with mdb_links. rewrite H1, H2.
  destruct (mdb_links m q) as [[u v]|]; simpl; [|done].
  by destruct (q =? s1), (q =? s2).
Qed.

Lemma swap_heap_flags cap1 s1 cap2 s2 c1 c2 m q :
  s1 <> s2 -> mdb_flags <$> m !! s1 = Some (mdb_flags c1) -> mdb_flags <$> m !! s2 = Some (mdb_flags c2) ->
  mdb_flags <$> swap_heap cap1 s1 cap2 s2 c1 c2 m !! swap_addr s1 s2 q = mdb_flags <$> m !! q.
Proof.
  intros Hne H1 H2. unfold swap_heap. rewrite !lookup_alter_at.
  destruct (swap_addr_cases s1 s2 q) as [[-> ->]|[(? & -> & ->)|(? & ? & ->)]].
  - rewrite H1. destruct (m !! s2); [|done].
    rewrite !(decide_True (P := s2 = s2)), !(decide_False (P := s1 = s2)) by done.
    repeat case_decide; done.
  - rewrite H2. destruct (m !! s1); [|done].
    rewrite !(decide_True (P := s1 = s1)), !(decide_False (P := s2 = s1)) by done.
    repeat case_decide; done.
  - rewrite !(decide_False (P := s1 = q)), !(decide_False (P := s2 = q)) by done.
    destruct (m !! q); [|by repeat case_decide]. repeat case_decide; done.
Qed.

Lemma swap_heap_caps cap1 s1 cap2 s2 c1 c2 m q :
  s1 <> s2 -> is_Some (m !! s1) -> is_Some (m !! s2) ->
  cte_cap <$> swap_heap cap1 s1 cap2 s2 c1 c2 m !! q =
  if decide (q = s1) then Some cap2 else if decide (q = s2) then Some cap1 else cte_cap <$> m !! q.
Proof.
  intros Hne [x1 H1] [x2 H2]. unfold swap_heap. rewrite !lookup_alter_at.
  destruct (decide (q = s1)) as [->|Hq1]; [|destruct (decide (q = s2)) as [->|Hq2]].
  - rewrite H1, !(decide_True (P := s1 = s1)), !(decide_False (P := s2 = s1)) by done.
    repeat case_decide; done.
  - rewrite H2, !(decide_True (P := s2 = s2)), !(decide_False (P := s1 = s2)) by done.
    repeat case_decide; done.
  - rewrite !(decide_False (P := s1 = q)), !(decide_False (P := s2 = q)) by done.
    destruct (m !! q); [|by repeat case_decide]. repeat case_decide; done.
Qed.

Lemma wp_cteSwap s la lb slot1 slot2 cap1 cap2 c1 c2 :
  slots_wf s -> mdb_linked s ->
  mdb_chain s la -> slot1 ∈ la -> mdb_chain s lb -> slot2 ∈ lb ->
  ksCtes s !! slot1 = Some c1 -> ksCtes s !! slot2 = Some c2 -> slot1 <> slot2 ->
  wp (cteSwap cap1 slot1 cap2 slot2) (fun _ s' => ctes_frame s s' /\ mdb_linked s' /\
    (forall l, mdb_chain s l -> mdb_chain s' (swap_addr slot1 slot2 <$> l)) /\
    (forall p, mdb_flags <$> ksCtes s' !! swap_addr slot1 slot2 p = mdb_flags <$> ksCtes s !! p) /\
    cte_cap <$> ksCtes s' !! slot1 = Some cap2 /\ cte_cap <$> ksCtes s' !! slot2 = Some cap1 /\
    forall p, p <> slot1 -> p <> slot2 -> cte_cap <$> ksCtes s' !! p = cte_cap <$> ksCtes s !! p) s.
Proof.
  intros Hwf HL Hla Hs1 Hlb Hs2 Hc1 Hc2 Hne. pose proof Hwf as [H0 Hal].
  assert (mdb_links (ksCtes s) slot1 = Some (cte_prev c1, cte_next c1)) as E1
    by (unfold mdb_links, links_of; by rewrite Hc1).
  assert (mdb_links (ksCtes s) slot2 = Some (cte_prev c2, cte_next c2)) as E2
    by (unfold mdb_links, links_of; by rewrite Hc2).
  destruct (mdb_chain_no_loop _ _ _ _ _ Hla Hs1 E1) as [Ha1 Hb1].
  destruct (mdb_chain_no_loop _ _ _ _ _ Hlb Hs2 E2) as [Ha2 Hb2].
  assert (mdb_links (ksCtes s) NULL = None) as HL0
    by (unfold mdb_links, links_of; by rewrite H0).
  pose proof (fun p => swap_links_rename _ _ _ _ _ _ _ p HL HL0 Hne E1 E2 Ha1 Hb1 Ha2 Hb2) as HR.
  destruct (linked_is_Some _ _ _ _ HL E1) as [Hpn1 Hnn1].
  unfold cteSwap. do 4 cte_step. cte_step.
  eapply wp_get_cte.
  { ksimp. rewrite !lookup_alter_at, Hc1, decide_False, decide_True by congruence. reflexivity. }
  ksimp. fold (cte_prev c1) (cte_next c1). do 4 cte_step. cte_step.
  destruct (swap_second_read (alter (upd_cte_cap cap1) slot2 (alter (upd_cte_cap cap2) slot1 (ksCtes s)))
    slot2 (cte_prev c1) (cte_next c1) (upd_cte_cap cap1 c2)) as (c2' & Ec2 & _ & Hfl2 & Hp2 & Hn2).
  { eauto. }
  { rewrite !lookup_alter_at, Hc2, decide_True, decide_False by congruence. done. }
  eapply wp_get_cte; [exact Ec2|]. 
  destruct (linked_is_Some _ _ _ _ HL E2) as [Hpn2 Hnn2].
  change (cte_prev (upd_cte_cap cap1 c2)) with (cte_prev c2) in Hp2.
  change (cte_next (upd_cte_cap cap1 c2)) with (cte_next c2) in Hn2.
  fold (cte_prev c2') (cte_next c2').
  crun.
  { rewrite Hp2. destruct (slot2 =? cte_next c1); eauto. }
  { rewrite Hn2. destruct (slot2 =? cte_prev c1); eauto. }
  fold (swap_heap cap1 slot1 cap2 slot2 c1 c2' (ksCtes s)).
  assert (forall p, mdb_links (swap_heap cap1 slot1 cap2 slot2 c1 c2' (ksCtes s)) (swap_addr slot1 slot2 p)
    = (fun '(a, b) => (swap_addr slot1 slot2 a, swap_addr slot1 slot2 b)) <$> mdb_links (ksCtes s) p) as HR'.
  { intros p. rewrite swap_heap_links, Hp2, Hn2; eauto. }
  assert (slot1 <> NULL) by congruence. assert (slot2 <> NULL) by congruence.
  split_and!; [done| | | | | |].
  - by apply (linked_rename slot1 slot2 (mdb_links (ksCtes s))).
  - intros l Hl. unfold mdb_chain. ksimp. rewrite <- (swap_addr_NULL slot1 slot2) by done.
    eapply dseg_rename; [by intros; apply swap_addr_nz|by intros; apply HR'|done].
  - intros p. apply swap_heap_flags; [done|by rewrite Hc1|by rewrite Hc2, Hfl2].
  - rewrite swap_heap_caps, decide_True; eauto.
  - rewrite swap_heap_caps, decide_False, decide_True; eauto.
  - intros p ? ?. rewrite swap_heap_caps, !decide_False; eauto.
Qed.
