(* ===== verification/CSpace.v ===== *)
(** * Capability address resolution (src/kernel/cspace.c) *)
From stdpp Require Import base list gmap.
From Stdlib Require Import ZArith Lia.
From S2P Require Import Prelude.
From S2P Require Import Structures.
From S2P Require Import KernelState.

(** [resolveAddressBits_ret_t] *)
Record resolve_ret := mk_resolve_ret {
  rr_status : exception_t; rr_slot : Z; rr_bitsRemaining : Z }.

(** The loop of resolveAddressBits. Every round resolves at least one bit, so
    [n_bits] rounds are enough: the fuel is spent only after that. *)
Fixpoint resolve_loop (fuel : nat) (nodeCap : cap) (capptr n_bits bits0 : Z) : K resolve_ret :=
  match fuel with
  | O => halt_with NoFuel
  | S fuel' =>
      match nodeCap with
      | Cap_cnode radixBits guardBits capGuard ptr =>
          let levelBits := radixBits + guardBits in
          assert (negb (levelBits =? 0)) ;;;
          let guard := (capptr >>w ((n_bits -w guardBits) &w MASK 5)) &w MASK guardBits in
          if (guardBits >? n_bits) || negb (guard =? capGuard) then
            set_current_lookup_fault (lookup_fault_guard_mismatch_new capGuard n_bits guardBits) ;;;
            ret (mk_resolve_ret EXCEPTION_LOOKUP_FAULT NULL bits0)
          else if levelBits >? n_bits then
            set_current_lookup_fault (lookup_fault_depth_mismatch_new levelBits n_bits) ;;;
            ret (mk_resolve_ret EXCEPTION_LOOKUP_FAULT NULL bits0)
          else
            let offset := (capptr >>w (n_bits - levelBits)) &w MASK radixBits in
            let slot := cte_at ptr offset in
            if n_bits <=? levelBits then ret (mk_resolve_ret EXCEPTION_NONE slot 0)
            else
              let* nodeCap' := get_cap slot in
              if cap_get_capType nodeCap' != cap_cnode_cap
              then ret (mk_resolve_ret EXCEPTION_NONE slot (n_bits - levelBits))
              else resolve_loop fuel' nodeCap' capptr (n_bits - levelBits) bits0
      | _ => fail
      end
  end.

Definition resolveAddressBits (nodeCap : cap) (capptr n_bits : Z) : K resolve_ret :=
  if cap_get_capType nodeCap != cap_cnode_cap then
    set_current_lookup_fault lookup_fault_invalid_root ;;;
    ret (mk_resolve_ret EXCEPTION_LOOKUP_FAULT NULL n_bits)
  else resolve_loop (S (Z.to_nat n_bits)) nodeCap capptr n_bits n_bits.

Definition lookupSlot (thread capptr : Z) : K (exception_t * Z) :=
  let* threadRoot := get_cap (TCB_PTR_CTE_PTR thread tcbCTable) in
  let* res_ret := resolveAddressBits threadRoot capptr wordBits in
  ret (rr_status res_ret, rr_slot res_ret).

Definition lookupCap (thread cPtr : Z) : K (exception_t * cap) :=
  let* lu_ret := lookupSlot thread cPtr in
  if fst lu_ret != EXCEPTION_NONE then ret (fst lu_ret, Cap_null)
  else let* c := get_cap (snd lu_ret) in ret (EXCEPTION_NONE, c).

Definition lookupCapAndSlot (thread cPtr : Z) : K (exception_t * Z * cap) :=
  let* lu_ret := lookupSlot thread cPtr in
  if fst lu_ret != EXCEPTION_NONE then ret (fst lu_ret, NULL, Cap_null)
  else let* c := get_cap (snd lu_ret) in ret (EXCEPTION_NONE, snd lu_ret, c).

Definition lookupSlotForCNodeOp (isSource : bool) (root : cap) (capptr depth : Z)
    : K (exception_t * Z) :=
  if cap_get_capType root != cap_cnode_cap then
    let* e := throw_failed_lookup isSource in
    set_current_lookup_fault lookup_fault_invalid_root ;;;
    ret (e, NULL)
  else if (depth <? 1) || (depth >? wordBits) then
    let* e := throw_range 1 wordBits in ret (e, NULL)
  else
    let* res_ret := resolveAddressBits root capptr depth in
    if rr_status res_ret != EXCEPTION_NONE then
      let* e := throw_failed_lookup isSource in ret (e, NULL)
    else if negb (rr_bitsRemaining res_ret =? 0) then
      let* e := throw_failed_lookup isSource in
      set_current_lookup_fault (lookup_fault_depth_mismatch_new 0 (rr_bitsRemaining res_ret)) ;;;
      ret (e, NULL)
    else ret (EXCEPTION_NONE, rr_slot res_ret).

Definition lookupSourceSlot (root : cap) (capptr depth : Z) := lookupSlotForCNodeOp true root capptr depth.
Definition lookupTargetSlot (root : cap) (capptr depth : Z) := lookupSlotForCNodeOp false root capptr depth.
Definition lookupPivotSlot (root : cap) (capptr depth : Z) := lookupSlotForCNodeOp true root capptr depth.
