(* ===== verification/Endpoint.v ===== *)
(** * Endpoint queues: cancellation (src/object/endpoint.c, asyncendpoint.c)

    Cancellation of all the threads of an endpoint, of the senders with one
    badge, and of one thread. The transfers, which need the capability
    operations, are in [Ipc]. *)
From stdpp Require Import base list gmap.
From Stdlib Require Import ZArith Lia.
From S2P Require Import Prelude.
From S2P Require Import Structures.
From S2P Require Import KernelState.
From S2P Require Import DList.
From S2P Require Import SchedQueue.
From S2P Require Import VSpace.
From S2P Require Import Scheduler.

Definition set_ep_queue (epptr : Z) (q : tcb_queue) : K unit := mod_ep epptr (ep_ptr_set_queue q).
Definition set_aep_queue (aepptr : Z) (q : tcb_queue) : K unit := mod_aep aepptr (aep_ptr_set_queue q).

(** The loop over the threads of a queue, by their [tcbEPNext] pointers *)
Fixpoint restart_all (fuel : nat) (thread : Z) : K unit :=
  match fuel with
  | O => halt_with NoFuel
  | S fuel' =>
      if thread =? NULL then ret tt
      else
        setThreadState thread ThreadState_Restart ;;;
        tcbSchedEnqueue thread ;;;
        let* t := get_tcb thread in
        restart_all fuel' t.(tcbEPNext)
  end.

Definition epCancelAll (epptr : Z) : K unit :=
  let* ep := get_ep epptr in
  match ep.(ep_state) with
  | EPState_Idle => ret tt
  | _ =>
      let thread := ep.(epQueue_head) in
      mod_ep epptr (upd_ep_state EPState_Idle) ;;;
      mod_ep epptr (upd_epQueue_head 0) ;;;
      mod_ep epptr (upd_epQueue_tail 0) ;;;
      let* s := get in
      restart_all (thread_fuel s) thread ;;;
      rescheduleRequired
  end.

Definition aepCancelAll (aepptr : Z) : K unit :=
  let* aep := get_aep aepptr in
  if aep.(aep_state) == AEPState_Waiting then
    let thread := aep.(aepQueue_head) in
    mod_aep aepptr (upd_aep_state AEPState_Idle) ;;;
    mod_aep aepptr (upd_aepQueue_head 0) ;;;
    mod_aep aepptr (upd_aepQueue_tail 0) ;;;
    let* s := get in
    restart_all (thread_fuel s) thread ;;;
    rescheduleRequired
  else ret tt.

(** The loop of epCancelBadgedSends: the queue without the cancelled threads *)
Fixpoint cancel_badged (fuel : nat) (thread badge : Z) (queue : tcb_queue) : K tcb_queue :=
  match fuel with
  | O => halt_with NoFuel
  | S fuel' =>
      if thread =? NULL then ret queue
      else
        let* t := get_tcb thread in
        let b := t.(tcbState).(blockingIPCBadge) in
        let next := t.(tcbEPNext) in
        let* queue' :=
          (if b =? badge then
             setThreadState thread ThreadState_Restart ;;;
             tcbSchedEnqueue thread ;;;
             tcbEPDequeue thread queue
           else ret queue) in
        cancel_badged fuel' next badge queue'
  end.

Definition epCancelBadgedSends (epptr badge : Z) : K unit :=
  let* ep := get_ep epptr in
  match ep.(ep_state) with
  | EPState_Idle | EPState_Recv => ret tt
  | EPState_Send =>
      let queue := ep_ptr_get_queue ep in
      mod_ep epptr (upd_ep_state EPState_Idle) ;;;
      mod_ep epptr (upd_epQueue_head 0) ;;;
      mod_ep epptr (upd_epQueue_tail 0) ;;;
      let* s := get in
      let* queue := cancel_badged (thread_fuel s) (q_head queue) badge queue in
      set_ep_queue epptr queue ;;;
      when (negb (q_head queue =? NULL)) (mod_ep epptr (upd_ep_state EPState_Send)) ;;;
      rescheduleRequired
  end.

Definition asyncIPCCancel (threadPtr aepptr : Z) : K unit :=
  let* aep := get_aep aepptr in
  assert (aep.(aep_state) == AEPState_Waiting) ;;;
  let* aep_queue := tcbEPDequeue threadPtr (aep_ptr_get_queue aep) in
  set_aep_queue aepptr aep_queue ;;;
  when (q_head aep_queue =? NULL) (mod_aep aepptr (upd_aep_state AEPState_Idle)) ;;;
  setThreadState threadPtr ThreadState_Inactive.

(** The case of ipcCancel for a thread blocked on an endpoint *)
Definition blockedIPCCancel (tptr epptr : Z) : K unit :=
  let* ep := get_ep epptr in
  assert (ep.(ep_state) != EPState_Idle) ;;;
  let* queue := tcbEPDequeue tptr (ep_ptr_get_queue ep) in
  set_ep_queue epptr queue ;;;
  when (q_head queue =? NULL) (mod_ep epptr (upd_ep_state EPState_Idle)) ;;;
  setThreadState tptr ThreadState_Inactive.
