(* ===== verification/Delete.v ===== *)
(** * Finalisation, deletion, revocation and recycling

    [finaliseCap] of src/object/objecttype.c and the functions of
    src/object/cnode.c that delete capabilities, with ipcCancel, suspend and
    restart. In the source these functions call each other; the calls form two
    levels only, and the definitions follow them:
    - [cteDeleteOne] finalises with [exposed = true], where finaliseCap stops
      before it suspends a thread;
    - [cteDelete slot false] reduces zombies by swapping and deletes nothing
      else, so that [cteDelete slot true] calls it one level deep.
    The loops have a bound computed from the number of slots. *)
From stdpp Require Import base list gmap.
From Stdlib Require Import ZArith Lia.
From S2P Require Import Prelude.
From S2P Require Import Structures.
From S2P Require Import KernelState.
From S2P Require Import DList.
From S2P Require Import SchedQueue.
From S2P Require Import VSpace.
From S2P Require Import Gic.
From S2P Require Import Scheduler.
From S2P Require Import CapOps.
From S2P Require Import MDB.
From S2P Require Import Endpoint.

(** ** Architecture (src/arch/arm/object/objecttype.c) *)
Definition Arch_finaliseCap (c : cap) (final : bool) : K cap :=
  match c with
  | Cap_asid_pool base pool => when final (deleteASIDPool base pool)
  | Cap_page_directory asid mapped pd => when (final && mapped) (deleteASID asid pd)
  | Cap_page_table mapped asid addr pt => when (final && mapped) (unmapPageTable asid addr pt)
  | Cap_small_frame lo _ addr hi base =>
      when (negb (asid_of hi lo =? 0)) (unmapPage ARMSmallPage (asid_of hi lo) addr base)
  | Cap_frame size lo _ addr hi base =>
      when (negb (asid_of hi lo =? 0)) (unmapPage size (asid_of hi lo) addr base)
  | _ => ret tt
  end ;;;
  ret Cap_null.

Definition Arch_prepareThreadDelete (thread : Z) : K unit := ret tt.

Definition Arch_recycleCap (is_final : bool) (c : cap) : K cap :=
  match c with
  | Cap_small_frame _ _ _ _ _ | Cap_frame _ _ _ _ _ _ =>
      clearMemory (cap_get_capPtr c) (cap_get_capSizeBits c) ;;;
      let* _ := Arch_finaliseCap c is_final in
      ret (resetMemMapping c)
  | Cap_page_table mapped asid vptr pt =>
      clearMemory pt (cap_get_capSizeBits c) ;;;
      when mapped
        (let* pd := pageTableMapped asid vptr pt in
         when (negb (pd =? NULL)) (invalidateTLBByASID asid)) ;;;
      let* _ := Arch_finaliseCap c is_final in
      ret (if is_final then resetMemMapping c else c)
  | Cap_page_directory asid mapped pdPtr =>
      memzero pdPtr (wshl (kernelBase >>w ARMSectionBits) 2) ;;;
      cleanCacheRange_PoU pdPtr ((pdPtr +w BIT PD_SIZE_BITS) -w 1) (addrFromPPtr pdPtr) ;;;
      when mapped
        (let* find_ret := findPDForASID asid in
         when ((fst find_ret == EXCEPTION_NONE) && (snd find_ret =? pdPtr))
           (invalidateTLBByASID asid)) ;;;
      let* _ := Arch_finaliseCap c is_final in
      ret (if is_final then resetMemMapping c else c)
  | Cap_asid_control => ret c
  | Cap_asid_pool base ptr =>
      let* entry := get_asid_table (base >>w asidLowBits) in
      when (entry =? ptr)
        (deleteASIDPool base ptr ;;;
         memzero ptr (wshl 4 asidLowBits) ;;;
         set_asid_table (base >>w asidLowBits) ptr) ;;;
      ret c
  | _ => fail
  end.

(** ** finaliseCap: the part before the test of [exposed] *)
Definition finaliseCap_basic (c : cap) (final : bool) : K (option (cap * Z)) :=
  if isArchCap c then
    let* remainder := Arch_finaliseCap c final in ret (Some (remainder, irqInvalid))
  else
    match c with
    | Cap_endpoint _ _ _ _ ep => when final (epCancelAll ep) ;;; ret (Some (Cap_null, irqInvalid))
    | Cap_async_endpoint _ _ _ aep =>
        when final (aepCancelAll aep) ;;; ret (Some (Cap_null, irqInvalid))
    | Cap_reply _ _ | Cap_null | Cap_domain => ret (Some (Cap_null, irqInvalid))
    | _ => ret None
    end.

(** [finaliseCap(cap, final, true)] *)
Definition finaliseCap_exposed (c : cap) (final : bool) : K (cap * Z) :=
  let* r := finaliseCap_basic c final in
  match r with Some fc_ret => ret fc_ret | None => fail end.

Definition cteDeleteOne (slot : Z) : K unit :=
  let* c := get_cap slot in
  if c != Cap_null then
    let* final := isFinalCapability slot in
    let* fc_ret := finaliseCap_exposed c final in
    let* removable := capRemovable (fst fc_ret) slot in
    assert (removable && (snd fc_ret =? irqInvalid)) ;;;
    emptySlot slot irqInvalid
  else ret tt.

Definition deletingIRQHandler (irq : Z) : K unit :=
  let* s := get in cteDeleteOne (cte_at (intStateIRQNode s) irq).

(** ** Cancelling the operation a thread waits for *)
Definition ipcCancel (tptr : Z) : K unit :=
  let* t := get_tcb tptr in
  match t.(tcbState).(tsType) with
  | ThreadState_BlockedOnSend | ThreadState_BlockedOnReceive =>
      blockedIPCCancel tptr t.(tcbState).(blockingIPCEndpoint)
  | ThreadState_BlockedOnAsyncEvent => asyncIPCCancel tptr t.(tcbState).(blockingIPCEndpoint)
  | ThreadState_BlockedOnReply =>
      mod_tcb tptr (upd_tcbFault fault_null_fault) ;;;
      let* callerCap := mdb_next (TCB_PTR_CTE_PTR tptr tcbReply) in
      when (negb (callerCap =? NULL)) (cteDeleteOne callerCap)
  | _ => ret tt
  end.

Definition suspend (target : Z) : K unit :=
  ipcCancel target ;;;
  setThreadState target ThreadState_Inactive ;;;
  tcbSchedDequeue target.

Definition restart (target : Z) : K unit :=
  let* blocked := isBlocked target in
  when blocked
    (ipcCancel target ;;;
     setupReplyMaster target ;;;
     setThreadState target ThreadState_Restart ;;;
     tcbSchedEnqueue target ;;;
     switchIfRequiredTo target).

(** [finaliseCap(cap, final, exposed)] *)
Definition finaliseCap (c : cap) (final exposed : bool) : K (cap * Z) :=
  let* r := finaliseCap_basic c final in
  match r with
  | Some fc_ret => ret fc_ret
  | None =>
      if exposed then fail
      else
        match c with
        | Cap_cnode radix _ _ ptr =>
            if final then ret (Zombie_new (wshl 1 radix) radix ptr, irqInvalid)
            else ret (Cap_null, irqInvalid)
        | Cap_thread tcb =>
            if final then
              let cte_ptr := TCB_PTR_CTE_PTR tcb tcbCTable in
              suspend tcb ;;;
              Arch_prepareThreadDelete tcb ;;;
              ret (Zombie_new tcbCNodeEntries ZombieType_ZombieTCB cte_ptr, irqInvalid)
            else ret (Cap_null, irqInvalid)
        | Cap_zombie _ _ => ret (c, irqInvalid)
        | Cap_irq_handler irq =>
            if final then deletingIRQHandler irq ;;; ret (Cap_null, irq)
            else ret (Cap_null, irqInvalid)
        | _ => ret (Cap_null, irqInvalid)
        end
  end.

(** ** Deletion *)
Record finaliseSlot_ret := mk_fs_ret { fs_status : exception_t; fs_success : bool; fs_irq : Z }.

Definition delete_fuel (s : kstate) : nat := (2 + size (ksCtes s)) * (2 + size (ksCtes s)).

(** The loop of finaliseSlot, over the zombie reduction it calls *)
Fixpoint finaliseSlot_loop (reduceZombie : Z -> bool -> K exception_t) (fuel : nat)
    (slot : Z) (immediate : bool) : K finaliseSlot_ret :=
  match fuel with
  | O => halt_with NoFuel
  | S fuel' =>
      let* c := get_cap slot in
      if c == Cap_null then ret (mk_fs_ret EXCEPTION_NONE true irqInvalid)
      else
        let* final := isFinalCapability slot in
        let* c := get_cap slot in
        let* fc_ret := finaliseCap c final false in
        let remainder := fst fc_ret in
        let* removable := capRemovable remainder slot in
        if removable then ret (mk_fs_ret EXCEPTION_NONE true (snd fc_ret))
        else
          set_cap slot remainder ;;;
          if negb immediate && capCyclicZombie remainder slot
          then ret (mk_fs_ret EXCEPTION_NONE false (snd fc_ret))
          else
            let* status := reduceZombie slot immediate in
            if status != EXCEPTION_NONE then ret (mk_fs_ret status false irqInvalid)
            else
              let* status := preemptionPoint in
              if status != EXCEPTION_NONE then ret (mk_fs_ret status false irqInvalid)
              else finaliseSlot_loop reduceZombie fuel' slot immediate
  end.
Definition finaliseSlot_with (reduceZombie : Z -> bool -> K exception_t) (slot : Z)
    (immediate : bool) : K finaliseSlot_ret :=
  let* s := get in finaliseSlot_loop reduceZombie (delete_fuel s) slot immediate.

Definition cteDelete_with (finaliseSlot : Z -> bool -> K finaliseSlot_ret) (slot : Z)
    (exposed : bool) : K exception_t :=
  let* fs_ret := finaliseSlot slot exposed in
  if fs_status fs_ret != EXCEPTION_NONE then ret (fs_status fs_ret)
  else
    when (exposed || fs_success fs_ret) (emptySlot slot (fs_irq fs_ret)) ;;;
    ret EXCEPTION_NONE.

Definition reduceZombie_with (cteDelete : Z -> bool -> K exception_t) (slot : Z)
    (immediate : bool) : K exception_t :=
  let* c := get_cap slot in
  match c with
  | Cap_zombie id type =>
      let ptr := zombie_ptr id type in
      let n := zombie_number id type in
      assert (n >? 0) ;;;
      if immediate then
        let endSlot := cte_at ptr (n - 1) in
        let* status := cteDelete endSlot false in
        if status != EXCEPTION_NONE then ret status
        else
          let* c := get_cap slot in
          match c with
          | Cap_null => ret tt
          | Cap_zombie id2 type2 =>
              let ptr2 := zombie_ptr id2 type2 in
              if (ptr =? ptr2) && (zombie_number id2 type2 =? n) && (type2 =? type) then
                let* endCap := get_cap endSlot in
                assert (endCap == Cap_null) ;;;
                set_cap slot (zombie_set_number id2 type2 (n - 1))
              else assert ((ptr2 =? slot) && negb (ptr =? slot))
          | _ => fail
          end ;;;
          ret EXCEPTION_NONE
      else
        assert (negb (ptr =? slot)) ;;;
        let* pc := get_cap ptr in
        match pc with
        | Cap_zombie id2 type2 => assert (negb (ptr =? zombie_ptr id2 type2))
        | _ => ret tt
        end ;;;
        capSwapForDelete ptr slot ;;;
        ret EXCEPTION_NONE
  | _ => fail
  end.

(** [cteDelete(slot, false)]: the reduction calls no further deletion. *)
Definition reduceZombie_unexposed : Z -> bool -> K exception_t :=
  reduceZombie_with (fun _ _ => halt_with NoFuel).
Definition cteDelete_unexposed : Z -> bool -> K exception_t :=
  cteDelete_with (finaliseSlot_with reduceZombie_unexposed).

Definition reduceZombie : Z -> bool -> K exception_t := reduceZombie_with cteDelete_unexposed.
Definition finaliseSlot : Z -> bool -> K finaliseSlot_ret := finaliseSlot_with reduceZombie.
Definition cteDelete : Z -> bool -> K exception_t := cteDelete_with finaliseSlot.

(** ** Revocation: a round per descendant *)
Fixpoint cteRevoke_loop (fuel : nat) (slot : Z) : K exception_t :=
  match fuel with
  | O => halt_with NoFuel
  | S fuel' =>
      let* nextPtr := mdb_next slot in
      if nextPtr =? NULL then ret EXCEPTION_NONE
      else
        let* parent := isMDBParentOf slot nextPtr in
        if negb parent then ret EXCEPTION_NONE
        else
          let* status := cteDelete nextPtr true in
          if status != EXCEPTION_NONE then ret status
          else
            let* status := preemptionPoint in
            if status != EXCEPTION_NONE then ret status
            else cteRevoke_loop fuel' slot
  end.
Definition cteRevoke (slot : Z) : K exception_t :=
  let* s := get in cteRevoke_loop (delete_fuel s) slot.

(** ** Recycling *)
Definition recycleCap (is_final : bool) (c : cap) : K cap :=
  if isArchCap c then Arch_recycleCap is_final c
  else
    match c with
    | Cap_null => fail
    | Cap_domain | Cap_cnode _ _ _ _ | Cap_thread _ => ret c
    | Cap_zombie id type =>
        if type =? ZombieType_ZombieTCB then
          let tcb := zombie_ptr id type +w TCB_OFFSET in
          let* t := get_tcb tcb in
          let ts := t.(tcbState).(tsType) in
          assert ((ts == ThreadState_Inactive) || (ts != ThreadState_IdleThreadState)) ;;;
          assert (negb t.(tcbState).(tcbQueued)) ;;;
          mod_tcb tcb (fun _ => tcb_zero) ;;;
          mod_tcb tcb (fun t => upd_tcbContext (Arch_initContext t.(tcbContext)) t) ;;;
          mod_tcb tcb (upd_tcbTimeSlice CONFIG_TIME_SLICE) ;;;
          let* s := get in
          mod_tcb tcb (upd_tcbDomain (ksCurDomain s)) ;;;
          ret (cap_thread_cap_new tcb)
        else ret (cap_cnode_cap_new type 0 0 (zombie_ptr id type))
    | Cap_endpoint badge _ _ _ ep =>
        when (negb (badge =? 0)) (epCancelBadgedSends ep badge) ;;;
        ret c
    | _ => ret c
    end.

Definition cteRecycle (slot : Z) : K exception_t :=
  let* status := cteRevoke slot in
  if status != EXCEPTION_NONE then ret status
  else
    let* fc_ret := finaliseSlot slot true in
    if fs_status fc_ret != EXCEPTION_NONE then ret (fs_status fc_ret)
    else
      let* c := get_cap slot in
      when (c != Cap_null)
        (let* is_final := isFinalCapability slot in
         let* c := get_cap slot in
         let* new_cap := recycleCap is_final c in
         set_cap slot new_cap) ;;;
      ret EXCEPTION_NONE.
