(* ===== verification/Ipc.v ===== *)
(** * Message transfer and IPC

    Message registers and faults (src/arch/arm/object/tcb.c,
    src/arch/arm/api/faults.c, parts of src/object/tcb.c), the transfers of
    src/kernel/thread.c, the send and receive operations of
    src/object/endpoint.c and src/object/asyncendpoint.c. *)
From stdpp Require Import base list gmap.
From Stdlib Require Import ZArith Lia.
From S2P Require Import Prelude.
From S2P Require Import Structures.
From S2P Require Import KernelState.
From S2P Require Import DList.
From S2P Require Import SchedQueue.
From S2P Require Import VSpace.
From S2P Require Import Scheduler.
From S2P Require Import CapOps.
From S2P Require Import MDB.
From S2P Require Import CSpace.
From S2P Require Import Endpoint.
From S2P Require Import Delete.

(** ** Arguments and message registers *)
Definition msgRegister (i : Z) : K Z := of_option (msgRegisters !! Z.to_nat i).

(** include/api/syscall.h *)
Definition getSyscallArg (i ipc_buffer : Z) : K Z :=
  if i <? n_msgRegisters then
    let* s := get in
    let* r := msgRegister i in
    getRegister (ksCurThread s) r
  else
    assert (negb (ipc_buffer =? NULL)) ;;;
    read_word (word_at ipc_buffer (i + 1)).

Definition getExtraCPtr (bufferPtr i : Z) : K Z :=
  read_word (word_at bufferPtr (seL4_MsgMaxLength + 2 + i)).
Definition setExtraBadge (bufferPtr badge i : Z) : K unit :=
  write_word (word_at bufferPtr (seL4_MsgMaxLength + 2 + i)) badge.

(** [excaprefs[i]] of the array of extra capability slots *)
Definition excapref (extraCaps : list Z) (i : Z) : Z := nth (Z.to_nat i) extraCaps NULL.
Definition set_excapref (i slot : Z) : K unit :=
  modify (fun s => upd_current_extra_caps (<[Z.to_nat i := slot]> (current_extra_caps s)) s).

Definition setMR (receiver receiveIPCBuffer offset reg : Z) : K Z :=
  if offset >=? n_msgRegisters then
    if negb (receiveIPCBuffer =? NULL) then
      write_word (word_at receiveIPCBuffer (offset + 1)) reg ;;;
      ret (offset + 1)
    else ret n_msgRegisters
  else
    let* r := msgRegister offset in
    setRegister receiver r reg ;;;
    ret (offset + 1).

Definition setMRs_lookup_failure (receiver receiveIPCBuffer : Z) (luf : lookup_fault)
    (offset : Z) : K Z :=
  let lufType := lookup_fault_get_lufType luf in
  let* i := setMR receiver receiveIPCBuffer offset (lufType + 1) in
  match luf with
  | lookup_fault_invalid_root => ret i
  | lookup_fault_missing_capability bitsLeft =>
      setMR receiver receiveIPCBuffer (offset + 1) bitsLeft
  | lookup_fault_depth_mismatch bitsFound bitsLeft =>
      let* _ := setMR receiver receiveIPCBuffer (offset + 1) bitsLeft in
      setMR receiver receiveIPCBuffer (offset + 2) bitsFound
  | lookup_fault_guard_mismatch guardFound bitsLeft bitsFound =>
      let* _ := setMR receiver receiveIPCBuffer (offset + 1) bitsLeft in
      let* _ := setMR receiver receiveIPCBuffer (offset + 2) guardFound in
      setMR receiver receiveIPCBuffer (offset + 3) bitsFound
  end.

Definition setMRs_fault (sender receiver receiveIPCBuffer : Z) : K Z :=
  let* t := get_tcb sender in
  match t.(tcbFault) with
  | fault_cap_fault address inReceivePhase =>
      let* pc := getRestartPC sender in
      let* _ := setMR receiver receiveIPCBuffer 0 pc in
      let* _ := setMR receiver receiveIPCBuffer 1 address in
      let* _ := setMR receiver receiveIPCBuffer 2 (bool_word inReceivePhase) in
      setMRs_lookup_failure receiver receiveIPCBuffer t.(tcbLookupFailure) 3
  | fault_vm_fault address FSR instructionFault =>
      let* pc := getRestartPC sender in
      let* _ := setMR receiver receiveIPCBuffer 0 pc in
      let* _ := setMR receiver receiveIPCBuffer 1 address in
      let* _ := setMR receiver receiveIPCBuffer 2 (bool_word instructionFault) in
      setMR receiver receiveIPCBuffer 3 FSR
  | fault_unknown_syscall syscallNumber =>
      assert (n_syscallMessage >=? n_msgRegisters) ;;;
      for_upto (Z.to_nat n_msgRegisters) 0 (fun i =>
        let* r := of_option (syscallMessage !! Z.to_nat i) in
        let* v := getRegister sender r in
        let* m := msgRegister i in
        setRegister receiver m v) ;;;
      if negb (receiveIPCBuffer =? NULL) then
        for_upto (Z.to_nat (n_syscallMessage - n_msgRegisters)) n_msgRegisters (fun i =>
          let* r := of_option (syscallMessage !! Z.to_nat i) in
          let* v := getRegister sender r in
          write_word (word_at receiveIPCBuffer (i + 1)) v) ;;;
        write_word (word_at receiveIPCBuffer (n_syscallMessage + 1)) syscallNumber ;;;
        ret (n_syscallMessage + 1)
      else ret n_msgRegisters
  | fault_user_exception number code =>
      assert (n_exceptionMessage <? n_msgRegisters) ;;;
      for_upto (Z.to_nat n_exceptionMessage) 0 (fun i =>
        let* r := of_option (exceptionMessage !! Z.to_nat i) in
        let* v := getRegister sender r in
        let* m := msgRegister i in
        setRegister receiver m v) ;;;
      let* _ := setMR receiver receiveIPCBuffer n_exceptionMessage number in
      setMR receiver receiveIPCBuffer (n_exceptionMessage + 1) code
  | fault_null_fault => fail
  end.

Definition setMRs_syscall_error (thread receiveIPCBuffer : Z) : K Z :=
  let* s := get in
  let e := current_syscall_error s in
  let type := e.(se_type) in
  if type =? seL4_InvalidArgument then
    setMR thread receiveIPCBuffer 0 e.(invalidArgumentNumber)
  else if type =? seL4_InvalidCapability then
    setMR thread receiveIPCBuffer 0 e.(invalidCapNumber)
  else if type =? seL4_IllegalOperation then ret 0
  else if type =? seL4_RangeError then
    let* _ := setMR thread receiveIPCBuffer 0 e.(rangeErrorMin) in
    setMR thread receiveIPCBuffer 1 e.(rangeErrorMax)
  else if type =? seL4_AlignmentError then ret 0
  else if type =? seL4_FailedLookup then
    let* _ := setMR thread receiveIPCBuffer 0 (bool_word e.(failedLookupWasSource)) in
    setMRs_lookup_failure thread receiveIPCBuffer (current_lookup_fault s) 1
  else if (type =? seL4_TruncatedMessage) || (type =? seL4_DeleteFirst)
          || (type =? seL4_RevokeFirst) then ret 0
  else if type =? seL4_NotEnoughMemory then setMR thread receiveIPCBuffer 0 e.(memoryLeft)
  else fail.

(** ** Replies to faults *)

(** Copy [n] registers of the reply into the registers [regs] of the receiver. *)
Definition fault_reply_registers (receiver sender : Z) (regs : list Z) (n : Z) : K unit :=
  for_upto (Z.to_nat n) 0 (fun i =>
    let* r := of_option (regs !! Z.to_nat i) in
    let* m := msgRegister i in
    let* v := getRegister sender m in
    setRegister receiver r (sanitiseRegister r v)).

Definition handleFaultReply (receiver sender : Z) : K bool :=
  let* w := getRegister sender msgInfoRegister in
  let tag := messageInfoFromWord w in
  let label := message_info_get_msgLabel tag in
  let length := message_info_get_msgLength tag in
  let* t := get_tcb receiver in
  match t.(tcbFault) with
  | fault_cap_fault _ _ => ret true
  | fault_vm_fault _ _ _ => ret true
  | fault_unknown_syscall _ =>
      let* sendBuf := lookupIPCBuffer false sender in
      fault_reply_registers receiver sender syscallMessage (Z.min length n_msgRegisters) ;;;
      when (negb (sendBuf =? NULL))
        (for_upto (Z.to_nat (Z.min length n_syscallMessage - n_msgRegisters)) n_msgRegisters (fun i =>
           let* r := of_option (syscallMessage !! Z.to_nat i) in
           let* v := read_word (word_at sendBuf (i + 1)) in
           setRegister receiver r (sanitiseRegister r v))) ;;;
      ret (label =? 0)
  | fault_user_exception _ _ =>
      fault_reply_registers receiver sender exceptionMessage (Z.min length n_exceptionMessage) ;;;
      ret (label =? 0)
  | fault_null_fault => fail
  end.

(** ** Extra capabilities (src/object/tcb.c) *)
Fixpoint lookupExtraCaps_loop (n : nat) (i thread bufferPtr : Z) : K (exception_t * Z) :=
  match n with
  | O => ret (EXCEPTION_NONE, i)
  | S n' =>
      let* cptr := getExtraCPtr bufferPtr i in
      let* lu_ret := lookupSlot thread cptr in
      if fst lu_ret != EXCEPTION_NONE then
        set_current_fault (fault_cap_fault_new cptr false) ;;;
        ret (fst lu_ret, i)
      else
        set_excapref i (snd lu_ret) ;;;
        lookupExtraCaps_loop n' (i + 1) thread bufferPtr
  end.

Definition lookupExtraCaps (thread bufferPtr info : Z) : K exception_t :=
  if bufferPtr =? NULL then set_excapref 0 NULL ;;; ret EXCEPTION_NONE
  else
    let length := message_info_get_msgExtraCaps info in
    let* r := lookupExtraCaps_loop (Z.to_nat length) 0 thread bufferPtr in
    if fst r != EXCEPTION_NONE then ret (fst r)
    else
      when (snd r <? seL4_MsgMaxExtraCaps) (set_excapref (snd r) NULL) ;;;
      ret EXCEPTION_NONE.

Definition copyMRs (sender sendBuf receiver recvBuf n : Z) : K Z :=
  let inline := Z.min n n_msgRegisters in
  for_upto (Z.to_nat inline) 0 (fun i =>
    let* m := msgRegister i in
    let* v := getRegister sender m in
    setRegister receiver m v) ;;;
  if (recvBuf =? NULL) || (sendBuf =? NULL) then ret inline
  else
    for_upto (Z.to_nat (n - inline)) inline (fun i =>
      let* v := read_word (word_at sendBuf (i + 1)) in
      write_word (word_at recvBuf (i + 1)) v) ;;;
    ret n.

(** ** The slot for a received capability (src/object/cnode.c) *)
Definition loadCapTransfer (buffer : Z) : K cap_transfer :=
  let offset := seL4_MsgMaxLength + seL4_MsgMaxExtraCaps + 2 in
  let* root := read_word (word_at buffer offset) in
  let* index := read_word (word_at buffer (offset + 1)) in
  let* depth := read_word (word_at buffer (offset + 2)) in
  ret (mk_cap_transfer root index depth).

Definition getReceiveSlots (thread buffer : Z) : K Z :=
  if buffer =? NULL then ret NULL
  else
    let* ct := loadCapTransfer buffer in
    let* luc_ret := lookupCap thread ct.(ctReceiveRoot) in
    if fst luc_ret != EXCEPTION_NONE then ret NULL
    else
      let* lus_ret := lookupTargetSlot (snd luc_ret) ct.(ctReceiveIndex) ct.(ctReceiveDepth) in
      if fst lus_ret != EXCEPTION_NONE then ret NULL
      else
        let* c := get_cap (snd lus_ret) in
        if c != Cap_null then ret NULL else ret (snd lus_ret).

(** ** Reply capabilities (src/object/tcb.c) *)
Definition setupCallerCap (sender receiver : Z) : K unit :=
  setThreadState sender ThreadState_BlockedOnReply ;;;
  let replySlot := TCB_PTR_CTE_PTR sender tcbReply in
  let* masterCap := get_cap replySlot in
  match masterCap with
  | Cap_reply master tcb => assert master ;;; assert (tcb =? sender)
  | _ => fail
  end ;;;
  let callerSlot := TCB_PTR_CTE_PTR receiver tcbCaller in
  let* callerCap := get_cap callerSlot in
  assert (callerCap == Cap_null) ;;;
  cteInsert (cap_reply_cap_new false sender) replySlot callerSlot.

Definition deleteCallerCap (receiver : Z) : K unit :=
  cteDeleteOne (TCB_PTR_CTE_PTR receiver tcbCaller).

(** ** Transfers (src/kernel/thread.c) *)

(** The loop of transferCaps: the message info and the number of slots treated *)
Fixpoint transferCaps_loop (n : nat) (i : Z) (caps : list Z) (endpoint receiveBuffer : Z)
    (diminish : bool) (info destSlot : Z) : K (Z * Z) :=
  match n with
  | O => ret (info, i)
  | S n' =>
      let slot := excapref caps i in
      if slot =? NULL then ret (info, i)
      else
        let* c := get_cap slot in
        match (match c with
               | Cap_endpoint badge _ _ _ ep => if ep =? endpoint then Some badge else None
               | _ => None
               end) with
        | Some badge =>
            setExtraBadge receiveBuffer badge i ;;;
            let info := message_info_set_msgCapsUnwrapped info
                          (message_info_get_msgCapsUnwrapped info |w Z.shiftl 1 i) in
            transferCaps_loop n' (i + 1) caps endpoint receiveBuffer diminish info destSlot
        | None =>
            if destSlot =? NULL then ret (info, i)
            else
              let* dc_ret := deriveCap slot (if diminish then maskCapRights noWrite c else c) in
              if fst dc_ret != EXCEPTION_NONE then ret (info, i)
              else if snd dc_ret == Cap_null then ret (info, i)
              else
                cteInsert (snd dc_ret) slot destSlot ;;;
                transferCaps_loop n' (i + 1) caps endpoint receiveBuffer diminish info NULL
        end
  end.

Definition transferCaps (info : Z) (caps : list Z) (endpoint receiver receiveBuffer : Z)
    (diminish : bool) : K Z :=
  let info := message_info_set_msgExtraCaps info 0 in
  let info := message_info_set_msgCapsUnwrapped info 0 in
  if (excapref caps 0 =? NULL) || (receiveBuffer =? NULL) then ret info
  else
    let* destSlot := getReceiveSlots receiver receiveBuffer in
    let* r := transferCaps_loop (Z.to_nat seL4_MsgMaxExtraCaps) 0 caps endpoint receiveBuffer
                diminish info destSlot in
    ret (message_info_set_msgExtraCaps (fst r) (snd r)).

Definition doNormalTransfer (sender sendBuffer endpoint badge : Z) (canGrant : bool)
    (receiver receiveBuffer : Z) (diminish : bool) : K unit :=
  let* w := getRegister sender msgInfoRegister in
  let tag := messageInfoFromWord w in
  let* caps :=
    (if canGrant then
       let* status := lookupExtraCaps sender sendBuffer tag in
       let* s := get in
       ret (if status != EXCEPTION_NONE
            then <[0%nat := NULL]> (current_extra_caps s) else current_extra_caps s)
     else
       let* s := get in ret (<[0%nat := NULL]> (current_extra_caps s))) in
  let* msgTransferred :=
    copyMRs sender sendBuffer receiver receiveBuffer (message_info_get_msgLength tag) in
  let* tag := transferCaps tag caps endpoint receiver receiveBuffer diminish in
  let tag := message_info_set_msgLength tag msgTransferred in
  setRegister receiver msgInfoRegister (wordFromMessageInfo tag) ;;;
  setRegister receiver badgeRegister badge.

Definition doFaultTransfer (badge sender receiver receiverIPCBuffer : Z) : K unit :=
  let* sent := setMRs_fault sender receiver receiverIPCBuffer in
  let* t := get_tcb sender in
  let msgInfo := message_info_new (fault_get_faultType t.(tcbFault)) 0 0 sent in
  setRegister receiver msgInfoRegister (wordFromMessageInfo msgInfo) ;;;
  setRegister receiver badgeRegister badge.

Definition doIPCTransfer (sender endpoint badge : Z) (grant : bool) (receiver : Z)
    (diminish : bool) : K unit :=
  let* receiveBuffer := lookupIPCBuffer true receiver in
  let* t := get_tcb sender in
  if fault_get_faultType t.(tcbFault) =? 0 then
    let* sendBuffer := lookupIPCBuffer false sender in
    doNormalTransfer sender sendBuffer endpoint badge grant receiver receiveBuffer diminish
  else doFaultTransfer badge sender receiver receiveBuffer.

Definition doReplyTransfer (sender receiver slot : Z) : K unit :=
  let* t := get_tcb receiver in
  assert (t.(tcbState).(tsType) == ThreadState_BlockedOnReply) ;;;
  if fault_get_faultType t.(tcbFault) =? 0 then
    doIPCTransfer sender NULL 0 true receiver false ;;;
    cteDeleteOne slot ;;;
    setThreadState receiver ThreadState_Running ;;;
    attemptSwitchTo receiver
  else
    cteDeleteOne slot ;;;
    let* restart := handleFaultReply receiver sender in
    mod_tcb receiver (upd_tcbFault fault_null_fault) ;;;
    if restart then
      setThreadState receiver ThreadState_Restart ;;;
      attemptSwitchTo receiver
    else setThreadState receiver ThreadState_Inactive.

(** The registers of n_msgRegisters = 4 are there, so the buffer branch is not taken. *)
Definition doAsyncTransfer (badge msgWord thread : Z) : K unit :=
  let* msgTransferred :=
    (if n_msgRegisters <? 1 then
       let* ipcBuffer := lookupIPCBuffer true thread in
       if negb (ipcBuffer =? NULL) then write_word (word_at ipcBuffer 1) msgWord ;;; ret 1
       else ret 0
     else
       let* m := msgRegister 0 in
       setRegister thread m msgWord ;;; ret 1) in
  setRegister thread badgeRegister badge ;;;
  setRegister thread msgInfoRegister (wordFromMessageInfo (message_info_new 0 0 0 msgTransferred)).

(** ** Synchronous endpoints (src/object/endpoint.c) *)
Definition sendIPC (blocking do_call : bool) (badge : Z) (canGrant : bool) (thread epptr : Z)
    : K unit :=
  let* ep := get_ep epptr in
  match ep.(ep_state) with
  | EPState_Idle | EPState_Send =>
      when blocking
        (mod_tcbState thread (upd_tsType ThreadState_BlockedOnSend) ;;;
         mod_tcbState thread (thread_state_set_blockingIPCEndpoint epptr) ;;;
         mod_tcbState thread (thread_state_set_blockingIPCBadge badge) ;;;
         mod_tcbState thread (upd_blockingIPCCanGrant canGrant) ;;;
         mod_tcbState thread (upd_blockingIPCIsCall do_call) ;;;
         scheduleTCB thread ;;;
         let* ep := get_ep epptr in
         let* queue := tcbEPAppend thread (ep_ptr_get_queue ep) in
         mod_ep epptr (upd_ep_state EPState_Send) ;;;
         set_ep_queue epptr queue)
  | EPState_Recv =>
      let queue := ep_ptr_get_queue ep in
      let dest := q_head queue in
      assert (negb (dest =? NULL)) ;;;
      let* queue := tcbEPDequeue dest queue in
      set_ep_queue epptr queue ;;;
      when (q_head queue =? NULL) (mod_ep epptr (upd_ep_state EPState_Idle)) ;;;
      let* d := get_tcb dest in
      let diminish := d.(tcbState).(blockingIPCDiminishCaps) in
      doIPCTransfer thread epptr badge canGrant dest diminish ;;;
      setThreadState dest ThreadState_Running ;;;
      attemptSwitchTo dest ;;;
      let* t := get_tcb thread in
      when (do_call || negb (fault_get_faultType t.(tcbFault) =? 0))
        (if canGrant && negb diminish then setupCallerCap thread dest
         else setThreadState thread ThreadState_Inactive)
  end.

Definition receiveIPC (thread : Z) (c : cap) : K unit :=
  match c with
  | Cap_endpoint _ _ canSend _ epptr =>
      let diminish := negb canSend in
      let* ep := get_ep epptr in
      match ep.(ep_state) with
      | EPState_Idle | EPState_Recv =>
          mod_tcbState thread (upd_tsType ThreadState_BlockedOnReceive) ;;;
          mod_tcbState thread (thread_state_set_blockingIPCEndpoint epptr) ;;;
          mod_tcbState thread (upd_blockingIPCDiminishCaps diminish) ;;;
          scheduleTCB thread ;;;
          let* ep := get_ep epptr in
          let* queue := tcbEPAppend thread (ep_ptr_get_queue ep) in
          mod_ep epptr (upd_ep_state EPState_Recv) ;;;
          set_ep_queue epptr queue
      | EPState_Send =>
          let queue := ep_ptr_get_queue ep in
          let sender := q_head queue in
          assert (negb (sender =? NULL)) ;;;
          let* queue := tcbEPDequeue sender queue in
          set_ep_queue epptr queue ;;;
          when (q_head queue =? NULL) (mod_ep epptr (upd_ep_state EPState_Idle)) ;;;
          let* t := get_tcb sender in
          let badge := t.(tcbState).(blockingIPCBadge) in
          let canGrant := t.(tcbState).(blockingIPCCanGrant) in
          doIPCTransfer sender epptr badge canGrant thread diminish ;;;
          let* t := get_tcb sender in
          let do_call := t.(tcbState).(blockingIPCIsCall) in
          if do_call || negb (fault_get_faultType t.(tcbFault) =? 0) then
            if canGrant && negb diminish then setupCallerCap sender thread
            else setThreadState sender ThreadState_Inactive
          else
            setThreadState sender ThreadState_Running ;;;
            switchIfRequiredTo sender
      end
  | _ => fail
  end.

Definition replyFromKernel_error (thread : Z) : K unit :=
  let* ipcBuffer := lookupIPCBuffer true thread in
  setRegister thread badgeRegister 0 ;;;
  let* len := setMRs_syscall_error thread ipcBuffer in
  let* s := get in
  setRegister thread msgInfoRegister
    (wordFromMessageInfo (message_info_new (current_syscall_error s).(se_type) 0 0 len)).

Definition replyFromKernel_success_empty (thread : Z) : K unit :=
  setRegister thread badgeRegister 0 ;;;
  setRegister thread msgInfoRegister (wordFromMessageInfo (message_info_new 0 0 0 0)).

(** ** Asynchronous endpoints (src/object/asyncendpoint.c) *)
Definition sendAsyncIPC (aepptr badge val : Z) : K unit :=
  let* aep := get_aep aepptr in
  match aep.(aep_state) with
  | AEPState_Idle =>
      mod_aep aepptr (upd_aep_state AEPState_Active) ;;;
      mod_aep aepptr (upd_aepMsgIdentifier badge) ;;;
      mod_aep aepptr (upd_aepData val)
  | AEPState_Waiting =>
      let aep_queue := aep_ptr_get_queue aep in
      let dest := q_head aep_queue in
      assert (negb (dest =? NULL)) ;;;
      let* aep_queue := tcbEPDequeue dest aep_queue in
      set_aep_queue aepptr aep_queue ;;;
      when (q_head aep_queue =? NULL) (mod_aep aepptr (upd_aep_state AEPState_Idle)) ;;;
      setThreadState dest ThreadState_Running ;;;
      doAsyncTransfer badge val dest ;;;
      switchIfRequiredTo dest
  | AEPState_Active =>
      let val2 := aep.(aepData) |w val in
      let badge2 := aep.(aepMsgIdentifier) |w badge in
      mod_aep aepptr (upd_aepMsgIdentifier badge2) ;;;
      mod_aep aepptr (upd_aepData val2)
  end.

Definition receiveAsyncIPC (thread : Z) (c : cap) : K unit :=
  match c with
  | Cap_async_endpoint _ _ _ aepptr =>
      let* aep := get_aep aepptr in
      match aep.(aep_state) with
      | AEPState_Idle | AEPState_Waiting =>
          mod_tcbState thread (upd_tsType ThreadState_BlockedOnAsyncEvent) ;;;
          mod_tcbState thread (thread_state_set_blockingIPCEndpoint aepptr) ;;;
          scheduleTCB thread ;;;
          let* aep := get_aep aepptr in
          let* aep_queue := tcbEPAppend thread (aep_ptr_get_queue aep) in
          mod_aep aepptr (upd_aep_state AEPState_Waiting) ;;;
          set_aep_queue aepptr aep_queue
      | AEPState_Active =>
          doAsyncTransfer aep.(aepMsgIdentifier) aep.(aepData) thread ;;;
          mod_aep aepptr (upd_aep_state AEPState_Idle)
      end
  | _ => fail
  end.
