(* ===== verification/Untyped.v ===== *)
(** * Untyped memory: retyping

    src/object/untyped.c, createObject and createNewObjects of
    src/object/objecttype.c, and Arch_createObject of
    src/arch/arm/object/objecttype.c. The source's AUXUPD annotations say when a
    region loses its objects and which objects it then holds;
    [typ_region_bytes] and the [ptr_retyp] operations below are those updates. *)
From stdpp Require Import base list gmap.
From Stdlib Require Import ZArith Lia.
From S2P Require Import Prelude.
From S2P Require Import Structures.
From S2P Require Import KernelState.
From S2P Require Import VSpace.
From S2P Require Import Scheduler.
From S2P Require Import CapOps.
From S2P Require Import MDB.
From S2P Require Import CSpace.
From S2P Require Import Ipc.

(** ** Regions *)
Definition in_region (p size a : Z) : bool := (p <=? a) && (a <? p + size).

(** The region becomes words of memory that hold no object. *)
Definition typ_region_bytes (p bits : Z) : K unit :=
  let keep {A} (m : gmap Z A) : gmap Z A := filter (fun kv => in_region p (2 ^ bits) (fst kv) = false) m in
  modify (fun s => upd_ksCtes (keep (ksCtes s)) s) ;;;
  modify (fun s => upd_ksTcbs (keep (ksTcbs s)) s) ;;;
  modify (fun s => upd_ksEps (keep (ksEps s)) s) ;;;
  modify (fun s => upd_ksAeps (keep (ksAeps s)) s) ;;;
  modify (fun s => upd_ksMem (fun x =>
    if in_region p (2 ^ bits) x && (x mod 4 =? 0) then Some (default 0 (ksMem s x)) else ksMem s x) s).

(** Memory taken for an object is no longer addressed as words. *)
Definition take_words (p size : Z) : K unit :=
  modify (fun s => upd_ksMem (fun x => if in_region p size x then None else ksMem s x) s).

Definition cte_zero : cte := mk_cte Cap_null (mk_mdb_node 0 false false 0).
Definition endpoint_zero : endpoint := mk_endpoint 0 0 EPState_Idle.
Definition async_endpoint_zero : async_endpoint := mk_async_endpoint 0 0 0 0 AEPState_Idle.

(** [n] zeroed slots from [p] on *)
Definition ptr_retyps_cte (n p : Z) : K unit :=
  take_words p (n * 2 ^ CTE_SIZE_BITS) ;;;
  for_upto (Z.to_nat n) 0 (fun i =>
    modify (fun s => upd_ksCtes (<[cte_at p i := cte_zero]> (ksCtes s)) s)).
Definition ptr_retyp_tcb (p : Z) : K unit :=
  take_words p (2 ^ TCB_SIZE_BITS) ;;;
  modify (fun s => upd_ksTcbs (<[p := tcb_zero]> (ksTcbs s)) s).
Definition ptr_retyp_ep (p : Z) : K unit :=
  take_words p (2 ^ EP_SIZE_BITS) ;;;
  modify (fun s => upd_ksEps (<[p := endpoint_zero]> (ksEps s)) s).
Definition ptr_retyp_aep (p : Z) : K unit :=
  take_words p (2 ^ AEP_SIZE_BITS) ;;;
  modify (fun s => upd_ksAeps (<[p := async_endpoint_zero]> (ksAeps s)) s).

(** ** Creation of objects *)

(** A zeroed, cleaned region of words *)
Definition create_words (regionBase bits : Z) : K unit :=
  memzero regionBase (wshl 1 bits) ;;;
  cleanCacheRange_PoU regionBase ((regionBase +w wshl 1 bits) -w 1) (addrFromPPtr regionBase).

Definition Arch_createObject (t regionBase userSize : Z) : K cap :=
  if t =? seL4_ARM_SmallPageObject then
    create_words regionBase ARMSmallPageBits ;;;
    ret (cap_small_frame_cap_new 0 VMReadWrite 0 0 regionBase)
  else if t =? seL4_ARM_LargePageObject then
    create_words regionBase ARMLargePageBits ;;;
    ret (cap_frame_cap_new ARMLargePage 0 VMReadWrite 0 0 regionBase)
  else if t =? seL4_ARM_SectionObject then
    create_words regionBase ARMSectionBits ;;;
    ret (cap_frame_cap_new ARMSection 0 VMReadWrite 0 0 regionBase)
  else if t =? seL4_ARM_SuperSectionObject then
    create_words regionBase ARMSuperSectionBits ;;;
    ret (cap_frame_cap_new ARMSuperSection 0 VMReadWrite 0 0 regionBase)
  else if t =? seL4_ARM_PageTableObject then
    create_words regionBase PT_SIZE_BITS ;;;
    ret (cap_page_table_cap_new false asidInvalid 0 regionBase)
  else if t =? seL4_ARM_PageDirectoryObject then
    memzero regionBase (wshl 1 PD_SIZE_BITS) ;;;
    copyGlobalMappings regionBase ;;;
    cleanCacheRange_PoU regionBase ((regionBase +w wshl 1 PD_SIZE_BITS) -w 1)
      (addrFromPPtr regionBase) ;;;
    ret (cap_page_directory_cap_new false asidInvalid regionBase)
  else fail.

Definition createObject (t regionBase userSize : Z) : K cap :=
  if t >=? seL4_NonArchObjectTypeCount then Arch_createObject t regionBase userSize
  else if t =? seL4_TCBObject then
    memzero regionBase (wshl 1 TCB_BLOCK_SIZE_BITS) ;;;
    let tcb := regionBase +w TCB_OFFSET in
    ptr_retyps_cte tcbCNodeEntries regionBase ;;;
    ptr_retyp_tcb tcb ;;;
    mod_tcb tcb (fun t => upd_tcbContext (Arch_initContext t.(tcbContext)) t) ;;;
    mod_tcb tcb (upd_tcbTimeSlice CONFIG_TIME_SLICE) ;;;
    let* s := get in
    mod_tcb tcb (upd_tcbDomain (ksCurDomain s)) ;;;
    ret (cap_thread_cap_new tcb)
  else if t =? seL4_EndpointObject then
    memzero regionBase (wshl 1 EP_SIZE_BITS) ;;;
    ptr_retyp_ep regionBase ;;;
    ret (cap_endpoint_cap_new 0 true true true regionBase)
  else if t =? seL4_AsyncEndpointObject then
    memzero regionBase (wshl 1 AEP_SIZE_BITS) ;;;
    ptr_retyp_aep regionBase ;;;
    ret (cap_async_endpoint_cap_new 0 true true regionBase)
  else if t =? seL4_CapTableObject then
    memzero regionBase (wshl 1 (CTE_SIZE_BITS +w userSize)) ;;;
    ptr_retyps_cte (2 ^ userSize) regionBase ;;;
    ret (cap_cnode_cap_new userSize 0 0 regionBase)
  else if t =? seL4_UntypedObject then ret (cap_untyped_cap_new 0 userSize regionBase)
  else fail.

(** [slot_range_t] *)
Record slot_range := mk_slot_range { sr_cnode : Z; sr_offset : Z; sr_length : Z }.

Definition fail_option {A} (o : option A) : K A :=
  match o with Some a => ret a | None => fail end.

Definition createNewObjects (t parent : Z) (slots : slot_range) (regionBase userSize : Z) : K unit :=
  let* objectSize := fail_option (getObjectSize t userSize) in
  for_upto (Z.to_nat slots.(sr_length)) 0 (fun i =>
    let base := regionBase +w wshl i objectSize in
    typ_region_bytes base objectSize ;;;
    let* c := createObject t base userSize in
    insertNewCap parent (cte_at slots.(sr_cnode) (slots.(sr_offset) +w i)) c).

(** ** The Retype invocation *)
Definition alignUp (baseValue alignment : Z) : Z :=
  (baseValue +w (BIT alignment -w 1)) &w wnot (MASK alignment).

Definition FREE_INDEX_TO_OFFSET (freeIndex : Z) : Z := wshl freeIndex 4.
Definition GET_FREE_REF (base freeIndex : Z) : Z := base +w FREE_INDEX_TO_OFFSET freeIndex.
Definition GET_FREE_INDEX (base free : Z) : Z := (free -w base) >>w 4.

Definition invokeUntyped_Retype (srcSlot regionBase freeRegionBase newType userSize : Z)
    (destSlots : slot_range) (call : bool) : K exception_t :=
  let* srcCap := get_cap srcSlot in
  let size_ign := match srcCap with Cap_untyped _ blockSize _ => blockSize | _ => 0 end in
  when (freeRegionBase =? regionBase) (typ_region_bytes regionBase size_ign) ;;;
  let* objectSize := fail_option (getObjectSize newType userSize) in
  let totalObjectSize := wshl destSlots.(sr_length) objectSize in
  let freeRef := freeRegionBase +w totalObjectSize in
  let* srcCap := get_cap srcSlot in
  set_cap srcSlot (cap_untyped_cap_set_capFreeIndex srcCap (GET_FREE_INDEX regionBase freeRef)) ;;;
  createNewObjects newType srcSlot destSlots freeRegionBase userSize ;;;
  ret EXCEPTION_NONE.

(** The loop over the destination window: the first status that is not EXCEPTION_NONE *)
Fixpoint ensureEmptySlots (n : nat) (cnode i : Z) : K exception_t :=
  match n with
  | O => ret EXCEPTION_NONE
  | S n' =>
      let* status := ensureEmptySlot (cte_at cnode i) in
      if status != EXCEPTION_NONE then ret status else ensureEmptySlots n' cnode (i + 1)
  end.

(** The capability of the destination node: the first extra capability, or what
    [nodeIndex] names below it *)
Definition lookupNodeCap (rootSlot nodeIndex nodeDepth : Z) : K (exception_t * cap) :=
  let* rootCap := get_cap rootSlot in
  if nodeDepth =? 0 then ret (EXCEPTION_NONE, rootCap)
  else
    let* lu_ret := lookupTargetSlot rootCap nodeIndex nodeDepth in
    if fst lu_ret != EXCEPTION_NONE then ret (fst lu_ret, Cap_null)
    else let* c := get_cap (snd lu_ret) in ret (EXCEPTION_NONE, c).

Definition decodeUntypedInvocation (label length slot : Z) (c : cap) (extraCaps : list Z)
    (call : bool) (buffer : Z) : K exception_t :=
  if negb (label =? UntypedRetype) then throw seL4_IllegalOperation
  else if (length <? 6) || (excapref extraCaps 0 =? NULL) then throw seL4_TruncatedMessage
  else
    let* newType := getSyscallArg 0 buffer in
    let* userObjSize := getSyscallArg 1 buffer in
    let* nodeIndex := getSyscallArg 2 buffer in
    let* nodeDepth := getSyscallArg 3 buffer in
    let* nodeOffset := getSyscallArg 4 buffer in
    let* nodeWindow := getSyscallArg 5 buffer in
    let rootSlot := excapref extraCaps 0 in
    if newType >=? seL4_ObjectTypeCount then throw_invalid_arg 0
    else if userObjSize >=? wordBits - 1 then throw_range 0 (wordBits - 2)
    else if (newType =? seL4_CapTableObject) && (userObjSize =? 0) then throw_invalid_arg 1
    else if (newType =? seL4_UntypedObject) && (userObjSize <? 4) then throw_invalid_arg 1
    else
      let* node := lookupNodeCap rootSlot nodeIndex nodeDepth in
      if fst node != EXCEPTION_NONE then ret (fst node)
      else
        match snd node with
        | Cap_cnode radix _ _ cnodePtr =>
            let nodeSize := wshl 1 radix in
            if nodeOffset >? nodeSize -w 1 then throw_range 0 (nodeSize -w 1)
            else if (nodeWindow <? 1) || (nodeWindow >? CONFIG_RETYPE_FAN_OUT_LIMIT)
            then throw_range 1 CONFIG_RETYPE_FAN_OUT_LIMIT
            else if nodeWindow >? nodeSize -w nodeOffset then throw_range 1 (nodeSize -w nodeOffset)
            else
              let slots := mk_slot_range cnodePtr nodeOffset nodeWindow in
              let* status := ensureEmptySlots (Z.to_nat nodeWindow) cnodePtr nodeOffset in
              if status != EXCEPTION_NONE then ret status
              else
                let* status := ensureNoChildren slot in
                match c with
                | Cap_untyped capFreeIndex blockSize capPtr =>
                    let freeIndex := if status != EXCEPTION_NONE then capFreeIndex else 0 in
                    let freeRef := GET_FREE_REF capPtr freeIndex in
                    let* objectSize := fail_option (getObjectSize newType userObjSize) in
                    let untypedFreeBytes := BIT blockSize -w FREE_INDEX_TO_OFFSET freeIndex in
                    if (objectSize >=? wordBits)
                       || ((untypedFreeBytes >>w objectSize) <? nodeWindow)
                    then
                      syscall_error_with (fun e =>
                        upd_memoryLeft untypedFreeBytes (upd_se_type seL4_NotEnoughMemory e)) ;;;
                      ret EXCEPTION_SYSCALL_ERROR
                    else
                      let alignedFreeRef := alignUp freeRef objectSize in
                      let* s := get in
                      setThreadState (ksCurThread s) ThreadState_Restart ;;;
                      invokeUntyped_Retype slot capPtr alignedFreeRef newType userObjSize slots call
                | _ => fail
                end
        | _ =>
            let* e := throw_failed_lookup false in
            set_current_lookup_fault (lookup_fault_missing_capability_new nodeDepth) ;;;
            ret e
        end.
