(* ===== verification/TcbOps.v ===== *)
(** * Thread invocations (src/object/tcb.c, lines 265-1033)

    The decoding of the TCB and domain invocations and the operations they
    invoke. The flags of the register transfers are words tested against one
    bit; Arch_decodeTransfer and Arch_performTransfer do nothing on ARM. *)
From stdpp Require Import base list gmap.
From Stdlib Require Import ZArith Lia.
From S2P Require Import Prelude.
From S2P Require Import Structures.
From S2P Require Import KernelState.
From S2P Require Import SchedQueue.
From S2P Require Import VSpace.
From S2P Require Import Scheduler.
From S2P Require Import CapOps.
From S2P Require Import MDB.
From S2P Require Import CSpace.
From S2P Require Import Delete.
From S2P Require Import Ipc.

Definition cap_thread_cap_get_capTCBPtr (c : cap) : Z :=
  match c with Cap_thread p => p | _ => NULL end.

(** [setThreadState(ksCurThread, ThreadState_Restart)], before an invocation *)
Definition restart_current : K unit :=
  let* s := get in setThreadState (ksCurThread s) ThreadState_Restart.

Definition Arch_decodeTransfer (flags : Z) : Z := 0.
Definition Arch_performTransfer (arch tcb_src tcb_dest : Z) : K exception_t := ret EXCEPTION_NONE.

(** ** Operations *)
Definition invokeTCB_Suspend (thread : Z) : K exception_t := suspend thread ;;; ret EXCEPTION_NONE.
Definition invokeTCB_Resume (thread : Z) : K exception_t := restart thread ;;; ret EXCEPTION_NONE.

Definition thread_control_update_priority : Z := 1.
Definition thread_control_update_ipc_buffer : Z := 2.
Definition thread_control_update_space : Z := 4.
Definition thread_control_update_all : Z := 7.
Definition thread_control_update_policy : Z := 8.

(** [if (sameObjectAs(newCap, srcSlot->cap) && sameObjectAs(tCap, slot->cap)) cteInsert(...)] *)
Definition insert_if_current (newCap : cap) (srcSlot : Z) (tCap : cap) (slot destSlot : Z) : K unit :=
  let* srcCap := get_cap srcSlot in
  if sameObjectAs newCap srcCap then
    let* slotCap := get_cap slot in
    when (sameObjectAs tCap slotCap) (cteInsert newCap srcSlot destSlot)
  else ret tt.

(** Replacement of the capability of a root slot of the thread *)
Definition replace_root (rootSlot : Z) (newCap : cap) (srcSlot : Z) (tCap : cap) (slot : Z)
    : K exception_t :=
  let* e := cteDelete rootSlot true in
  if e != EXCEPTION_NONE then ret e
  else insert_if_current newCap srcSlot tCap slot rootSlot ;;; ret EXCEPTION_NONE.

Definition replace_buffer (target bufferAddr : Z) (bufferCap : cap) (bufferSrcSlot : Z)
    (tCap : cap) (slot : Z) : K exception_t :=
  let bufferSlot := TCB_PTR_CTE_PTR target tcbBuffer in
  let* e := cteDelete bufferSlot true in
  if e != EXCEPTION_NONE then ret e
  else
    mod_tcb target (upd_tcbIPCBuffer bufferAddr) ;;;
    when (negb (bufferSrcSlot =? NULL))
      (insert_if_current bufferCap bufferSrcSlot tCap slot bufferSlot) ;;;
    ret EXCEPTION_NONE.

Definition invokeTCB_ThreadControl (target slot faultep priority : Z) (cRoot_newCap : cap)
    (cRoot_srcSlot : Z) (vRoot_newCap : cap) (vRoot_srcSlot bufferAddr : Z) (bufferCap : cap)
    (bufferSrcSlot updateFlags : Z) : K exception_t :=
  let tCap := cap_thread_cap_new target in
  let update flag := negb (Z.land updateFlags flag =? 0) in
  when (update thread_control_update_space) (mod_tcb target (upd_tcbFaultHandler faultep)) ;;;
  when (update thread_control_update_priority) (setPriority target priority) ;;;
  when (update thread_control_update_policy) (setPolicy target priority) ;;;
  let* e :=
    (if update thread_control_update_space
     then replace_root (TCB_PTR_CTE_PTR target tcbCTable) cRoot_newCap cRoot_srcSlot tCap slot
     else ret EXCEPTION_NONE) in
  if e != EXCEPTION_NONE then ret e
  else
    let* e :=
      (if update thread_control_update_space
       then replace_root (TCB_PTR_CTE_PTR target tcbVTable) vRoot_newCap vRoot_srcSlot tCap slot
       else ret EXCEPTION_NONE) in
    if e != EXCEPTION_NONE then ret e
    else if update thread_control_update_ipc_buffer
    then replace_buffer target bufferAddr bufferCap bufferSrcSlot tCap slot
    else ret EXCEPTION_NONE.

(** [setRegister(dest, regs[i], getRegister(src, regs[i]))] for [i] below [n] *)
Definition copy_registers (src dest : Z) (regs : list Z) (n : Z) : K unit :=
  for_upto (Z.to_nat n) 0 (fun i =>
    let* r := of_option (regs !! Z.to_nat i) in
    let* v := getRegister src r in
    setRegister dest r v).

Definition invokeTCB_CopyRegisters (dest tcb_src : Z)
    (suspendSource resumeTarget transferFrame transferInteger : bool) (transferArch : Z)
    : K exception_t :=
  when suspendSource (suspend tcb_src) ;;;
  when resumeTarget (restart dest) ;;;
  when transferFrame
    (copy_registers tcb_src dest frameRegisters n_frameRegisters ;;;
     let* pc := getRestartPC dest in
     setNextPC dest pc) ;;;
  when transferInteger (copy_registers tcb_src dest gpRegisters n_gpRegisters) ;;;
  Arch_performTransfer transferArch tcb_src dest.

(** Registers [regs[i]] of [src], for [first <= i < last], into the message of
    [thread], [base] words on: into the message registers, or into the buffer *)
Definition read_into_registers (src thread : Z) (regs : list Z) (base first last : Z) : K unit :=
  for_upto (Z.to_nat (last - first)) first (fun i =>
    let* r := of_option (regs !! Z.to_nat i) in
    let* m := msgRegister (i + base) in
    let* v := getRegister src r in
    setRegister thread m v).
Definition read_into_buffer (src ipcBuffer : Z) (regs : list Z) (base first last : Z) : K unit :=
  for_upto (Z.to_nat (last - first)) first (fun i =>
    let* r := of_option (regs !! Z.to_nat i) in
    let* v := getRegister src r in
    write_word (word_at ipcBuffer (i + base + 1)) v).

Definition invokeTCB_ReadRegisters (tcb_src : Z) (suspendSource : bool) (n arch : Z) (call : bool)
    : K exception_t :=
  let* s := get in
  let thread := ksCurThread s in
  when suspendSource (suspend tcb_src) ;;;
  let* e := Arch_performTransfer arch tcb_src thread in
  if e != EXCEPTION_NONE then ret e
  else
    when call
      (let* ipcBuffer := lookupIPCBuffer true thread in
       setRegister thread badgeRegister 0 ;;;
       let i := Z.min (Z.min n n_frameRegisters) n_msgRegisters in
       read_into_registers tcb_src thread frameRegisters 0 0 i ;;;
       let i_end := Z.min n n_frameRegisters in
       when (negb (ipcBuffer =? NULL))
         (read_into_buffer tcb_src ipcBuffer frameRegisters 0 i i_end) ;;;
       let j := if ipcBuffer =? NULL then i else i_end in
       let i := Z.max 0 (Z.min (Z.min n_gpRegisters (n - n_frameRegisters))
                           (n_msgRegisters - n_frameRegisters)) in
       read_into_registers tcb_src thread gpRegisters n_frameRegisters 0 i ;;;
       let i_end := Z.max i (Z.min n_gpRegisters (n - n_frameRegisters)) in
       when (negb (ipcBuffer =? NULL))
         (read_into_buffer tcb_src ipcBuffer gpRegisters n_frameRegisters i i_end) ;;;
       let i := if ipcBuffer =? NULL then i else i_end in
       setRegister thread msgInfoRegister (wordFromMessageInfo (message_info_new 0 0 0 (i + j)))) ;;;
    setThreadState thread ThreadState_Running ;;;
    ret EXCEPTION_NONE.

(** [setRegister(dest, regs[i], sanitiseRegister(regs[i], getSyscallArg(i + base, buffer)))] *)
Definition write_registers (dest : Z) (regs : list Z) (base n buffer : Z) : K unit :=
  for_upto (Z.to_nat n) 0 (fun i =>
    let* r := of_option (regs !! Z.to_nat i) in
    let* v := getSyscallArg (i + base) buffer in
    setRegister dest r (sanitiseRegister r v)).

Definition invokeTCB_WriteRegisters (dest : Z) (resumeTarget : bool) (n arch buffer : Z)
    : K exception_t :=
  let* s := get in
  let* e := Arch_performTransfer arch (ksCurThread s) dest in
  if e != EXCEPTION_NONE then ret e
  else
    let n := if n >? n_frameRegisters + n_gpRegisters
             then n_frameRegisters + n_gpRegisters else n in
    write_registers dest frameRegisters 2 (Z.min n_frameRegisters n) buffer ;;;
    write_registers dest gpRegisters (n_frameRegisters + 2)
      (Z.min n_gpRegisters (n - n_frameRegisters)) buffer ;;;
    let* pc := getRestartPC dest in
    setNextPC dest pc ;;;
    when resumeTarget (restart dest) ;;;
    ret EXCEPTION_NONE.

(** ** Decoding *)
Definition flag_set (flags bit : Z) : bool := negb (Z.land flags (BIT bit) =? 0).

Definition decodeCopyRegisters (c : cap) (length : Z) (extraCaps : list Z) (buffer : Z)
    : K exception_t :=
  if (length <? 1) || (excapref extraCaps 0 =? NULL) then throw seL4_TruncatedMessage
  else
    let* flags := getSyscallArg 0 buffer in
    let transferArch := Arch_decodeTransfer (flags >>w 8) in
    let* source_cap := get_cap (excapref extraCaps 0) in
    match source_cap with
    | Cap_thread srcTCB =>
        restart_current ;;;
        invokeTCB_CopyRegisters (cap_thread_cap_get_capTCBPtr c) srcTCB
          (flag_set flags 0) (flag_set flags 1) (flag_set flags 2) (flag_set flags 3) transferArch
    | _ => throw_invalid_cap 1
    end.

Definition decodeReadRegisters (c : cap) (length : Z) (call : bool) (buffer : Z) : K exception_t :=
  if length <? 2 then throw seL4_TruncatedMessage
  else
    let* flags := getSyscallArg 0 buffer in
    let* n := getSyscallArg 1 buffer in
    if (n <? 1) || (n >? n_frameRegisters + n_gpRegisters)
    then throw_range 1 (n_frameRegisters + n_gpRegisters)
    else
      let transferArch := Arch_decodeTransfer (flags >>w 8) in
      let thread := cap_thread_cap_get_capTCBPtr c in
      let* s := get in
      if thread =? ksCurThread s then throw seL4_IllegalOperation
      else
        restart_current ;;;
        invokeTCB_ReadRegisters thread (flag_set flags 0) n transferArch call.

Definition decodeWriteRegisters (c : cap) (length buffer : Z) : K exception_t :=
  if length <? 2 then throw seL4_TruncatedMessage
  else
    let* flags := getSyscallArg 0 buffer in
    let* w := getSyscallArg 1 buffer in
    if length - 2 <? w then throw seL4_TruncatedMessage
    else
      let transferArch := Arch_decodeTransfer (flags >>w 8) in
      let thread := cap_thread_cap_get_capTCBPtr c in
      let* s := get in
      if thread =? ksCurThread s then throw seL4_IllegalOperation
      else
        restart_current ;;;
        invokeTCB_WriteRegisters thread (flag_set flags 0) w transferArch buffer.

(** A capability for the IPC buffer, derived and checked unless the address is 0 *)
Definition derive_buffer (bufferAddr bufferSlot : Z) (bufferCap : cap)
    : K (exception_t * cap * Z) :=
  if bufferAddr =? 0 then ret (EXCEPTION_NONE, bufferCap, NULL)
  else
    let* dc_ret := deriveCap bufferSlot bufferCap in
    if fst dc_ret != EXCEPTION_NONE then ret (fst dc_ret, Cap_null, bufferSlot)
    else
      let* e := checkValidIPCBuffer bufferAddr (snd dc_ret) in
      ret (e, snd dc_ret, bufferSlot).

Definition roots_being_deleted (tcb : Z) : K bool :=
  let* d := slotCapLongRunningDelete (TCB_PTR_CTE_PTR tcb tcbCTable) in
  if d then ret true else slotCapLongRunningDelete (TCB_PTR_CTE_PTR tcb tcbVTable).

(** The capability for a root: its data updated unless 0, derived, and tested *)
Definition derive_root (valid : cap -> bool) (data slot : Z) (rootCap : cap)
    : K (exception_t * cap) :=
  let rootCap := if negb (data =? 0) then updateCapData false data rootCap else rootCap in
  let* dc_ret := deriveCap slot rootCap in
  if fst dc_ret != EXCEPTION_NONE then ret (fst dc_ret, Cap_null)
  else if negb (valid (snd dc_ret)) then
    let* e := throw seL4_IllegalOperation in ret (e, Cap_null)
  else ret (EXCEPTION_NONE, snd dc_ret).
Definition is_cnode_cap (c : cap) : bool := cap_get_capType c == cap_cnode_cap.

Definition decodeTCBConfigure (c : cap) (length slot : Z) (rootCaps : list Z) (buffer : Z)
    : K exception_t :=
  if (length <? 5) || (excapref rootCaps 0 =? NULL) || (excapref rootCaps 1 =? NULL)
     || (excapref rootCaps 2 =? NULL)
  then throw seL4_TruncatedMessage
  else
    let* faultEP := getSyscallArg 0 buffer in
    let* prio := getSyscallArg 1 buffer in
    let* cRootData := getSyscallArg 2 buffer in
    let* vRootData := getSyscallArg 3 buffer in
    let* bufferAddr := getSyscallArg 4 buffer in
    let cRootSlot := excapref rootCaps 0 in
    let vRootSlot := excapref rootCaps 1 in
    let* cRootCap := get_cap cRootSlot in
    let* vRootCap := get_cap vRootSlot in
    let* bufferCap := get_cap (excapref rootCaps 2) in
    let prio := prio &w MASK 8 in
    let* s := get in
    let* cur := get_tcb (ksCurThread s) in
    if prio >? cur.(tcbPriority) then throw seL4_IllegalOperation
    else
      let* b := derive_buffer bufferAddr (excapref rootCaps 2) bufferCap in
      let '(e, bufferCap, bufferSlot) := b in
      if e != EXCEPTION_NONE then ret e
      else
        let tcb := cap_thread_cap_get_capTCBPtr c in
        let* deleting := roots_being_deleted tcb in
        if deleting then throw seL4_IllegalOperation
        else
          let* cRoot := derive_root is_cnode_cap cRootData cRootSlot cRootCap in
          if fst cRoot != EXCEPTION_NONE then ret (fst cRoot)
          else
            let* vRoot := derive_root isValidVTableRoot vRootData vRootSlot vRootCap in
            if fst vRoot != EXCEPTION_NONE then ret (fst vRoot)
            else
              restart_current ;;;
              invokeTCB_ThreadControl tcb slot faultEP prio (snd cRoot) cRootSlot
                (snd vRoot) vRootSlot bufferAddr bufferCap bufferSlot thread_control_update_all.

Definition decodeSetPriority (c : cap) (length buffer : Z) : K exception_t :=
  if length <? 1 then throw seL4_TruncatedMessage
  else
    let* newPrio := getSyscallArg 0 buffer in
    let newPrio := newPrio &w MASK 8 in
    let* s := get in
    let* cur := get_tcb (ksCurThread s) in
    if newPrio >? cur.(tcbPriority) then throw seL4_IllegalOperation
    else
      restart_current ;;;
      invokeTCB_ThreadControl (cap_thread_cap_get_capTCBPtr c) NULL 0 newPrio
        Cap_null NULL Cap_null NULL 0 Cap_null NULL thread_control_update_priority.

Definition decodeSetPolicy (c : cap) (length buffer : Z) : K exception_t :=
  if length <? 1 then throw seL4_TruncatedMessage
  else
    let* newPolicy := getSyscallArg 0 buffer in
    let newPolicy := newPolicy &w MASK 8 in
    if newPolicy >? 5 then throw seL4_IllegalOperation
    else
      restart_current ;;;
      invokeTCB_ThreadControl (cap_thread_cap_get_capTCBPtr c) NULL 0 newPolicy
        Cap_null NULL Cap_null NULL 0 Cap_null NULL thread_control_update_policy.

Definition decodeSetIPCBuffer (c : cap) (length slot : Z) (extraCaps : list Z) (buffer : Z)
    : K exception_t :=
  if (length <? 1) || (excapref extraCaps 0 =? NULL) then throw seL4_TruncatedMessage
  else
    let* cptr_bufferPtr := getSyscallArg 0 buffer in
    let* bufferCap := get_cap (excapref extraCaps 0) in
    let* b := derive_buffer cptr_bufferPtr (excapref extraCaps 0) bufferCap in
    let '(e, bufferCap, bufferSlot) := b in
    if e != EXCEPTION_NONE then ret e
    else
      restart_current ;;;
      invokeTCB_ThreadControl (cap_thread_cap_get_capTCBPtr c) slot 0 0
        Cap_null NULL Cap_null NULL cptr_bufferPtr bufferCap bufferSlot
        thread_control_update_ipc_buffer.

Definition decodeSetSpace (c : cap) (length slot : Z) (extraCaps : list Z) (buffer : Z)
    : K exception_t :=
  if (length <? 3) || (excapref extraCaps 0 =? NULL) || (excapref extraCaps 1 =? NULL)
  then throw seL4_TruncatedMessage
  else
    let* faultEP := getSyscallArg 0 buffer in
    let* cRootData := getSyscallArg 1 buffer in
    let* vRootData := getSyscallArg 2 buffer in
    let cRootSlot := excapref extraCaps 0 in
    let vRootSlot := excapref extraCaps 1 in
    let* cRootCap := get_cap cRootSlot in
    let* vRootCap := get_cap vRootSlot in
    let tcb := cap_thread_cap_get_capTCBPtr c in
    let* deleting := roots_being_deleted tcb in
    if deleting then throw seL4_IllegalOperation
    else
      let* cRoot := derive_root is_cnode_cap cRootData cRootSlot cRootCap in
      if fst cRoot != EXCEPTION_NONE then ret (fst cRoot)
      else
        let* vRoot := derive_root isValidVTableRoot vRootData vRootSlot vRootCap in
        if fst vRoot != EXCEPTION_NONE then ret (fst vRoot)
        else
          restart_current ;;;
          invokeTCB_ThreadControl tcb slot faultEP 0 (snd cRoot) cRootSlot (snd vRoot) vRootSlot
            0 Cap_null NULL thread_control_update_space.

Definition decodeDomainInvocation (label length : Z) (extraCaps : list Z) (buffer : Z)
    : K exception_t :=
  if negb (label =? DomainSetSet) then throw seL4_IllegalOperation
  else if length =? 0 then throw seL4_TruncatedMessage
  else
    let* domain := getSyscallArg 0 buffer in
    if domain >=? CONFIG_NUM_DOMAINS then throw_invalid_arg 0
    else if excapref extraCaps 0 =? NULL then throw seL4_TruncatedMessage
    else
      let* tcap := get_cap (excapref extraCaps 0) in
      match tcap with
      | Cap_thread tcb => restart_current ;;; setDomain tcb domain ;;; ret EXCEPTION_NONE
      | _ => throw_invalid_arg 1
      end.

Definition decodeTCBInvocation (label length : Z) (c : cap) (slot : Z) (extraCaps : list Z)
    (call : bool) (buffer : Z) : K exception_t :=
  if label =? TCBReadRegisters then decodeReadRegisters c length call buffer
  else if label =? TCBWriteRegisters then decodeWriteRegisters c length buffer
  else if label =? TCBCopyRegisters then decodeCopyRegisters c length extraCaps buffer
  else if label =? TCBSuspend then
    restart_current ;;; invokeTCB_Suspend (cap_thread_cap_get_capTCBPtr c)
  else if label =? TCBResume then
    restart_current ;;; invokeTCB_Resume (cap_thread_cap_get_capTCBPtr c)
  else if label =? TCBConfigure then decodeTCBConfigure c length slot extraCaps buffer
  else if label =? TCBSetPriority then decodeSetPriority c length buffer
  else if label =? TCBSetPolicy then decodeSetPolicy c length buffer
  else if label =? TCBSetIPCBuffer then decodeSetIPCBuffer c length slot extraCaps buffer
  else if label =? TCBSetSpace then decodeSetSpace c length slot extraCaps buffer
  else throw seL4_IllegalOperation.
