(* ===== verification/CNodeOps.v ===== *)
(** * CNode invocations (src/object/cnode.c, lines 40-382) *)
From stdpp Require Import base list gmap.
From Stdlib Require Import ZArith Lia.
From S2P Require Import Prelude.
From S2P Require Import Structures.
From S2P Require Import KernelState.
From S2P Require Import VSpace.
From S2P Require Import Scheduler.
From S2P Require Import CapOps.
From S2P Require Import MDB.
From S2P Require Import CSpace.
From S2P Require Import Delete.
From S2P Require Import Ipc.
From S2P Require Import TcbOps.

Definition invokeCNodeRevoke (destSlot : Z) : K exception_t := cteRevoke destSlot.
Definition invokeCNodeDelete (destSlot : Z) : K exception_t := cteDelete destSlot true.
Definition invokeCNodeRecycle (destSlot : Z) : K exception_t := cteRecycle destSlot.
Definition invokeCNodeInsert (c : cap) (srcSlot destSlot : Z) : K exception_t :=
  cteInsert c srcSlot destSlot ;;; ret EXCEPTION_NONE.
Definition invokeCNodeMove (c : cap) (srcSlot destSlot : Z) : K exception_t :=
  cteMove c srcSlot destSlot ;;; ret EXCEPTION_NONE.

Definition invokeCNodeRotate (cap1 cap2 : cap) (slot1 slot2 slot3 : Z) : K exception_t :=
  (if slot1 =? slot3 then cteSwap cap1 slot1 cap2 slot2
   else cteMove cap2 slot2 slot3 ;;; cteMove cap1 slot1 slot2) ;;;
  ret EXCEPTION_NONE.

Definition invokeCNodeSaveCaller (destSlot : Z) : K exception_t :=
  let* s := get in
  let srcSlot := TCB_PTR_CTE_PTR (ksCurThread s) tcbCaller in
  let* c := get_cap srcSlot in
  match c with
  | Cap_null => ret tt
  | Cap_reply master _ => when (negb master) (cteMove c srcSlot destSlot)
  | _ => fail
  end ;;;
  ret EXCEPTION_NONE.

(** A source or pivot slot found empty *)
Definition throw_missing_capability (wasSource : bool) (depth : Z) : K exception_t :=
  let* e := throw_failed_lookup wasSource in
  set_current_lookup_fault (lookup_fault_missing_capability_new depth) ;;;
  ret e.

(** The [switch] of Copy, Mint, Move and Mutate: a status, the new capability,
    and whether it replaces the source *)
Definition decode_new_cap (label length srcSlot : Z) (srcCap : cap) (buffer : Z)
    : K (exception_t * cap * bool) :=
  if label =? CNodeCopy then
    if length <? 5 then let* e := throw seL4_TruncatedMessage in ret (e, Cap_null, false)
    else
      let* rights := getSyscallArg 4 buffer in
      let* dc_ret := deriveCap srcSlot (maskCapRights (rightsFromWord rights) srcCap) in
      ret (fst dc_ret, snd dc_ret, false)
  else if label =? CNodeMint then
    if length <? 6 then let* e := throw seL4_TruncatedMessage in ret (e, Cap_null, false)
    else
      let* rights := getSyscallArg 4 buffer in
      let* capData := getSyscallArg 5 buffer in
      let* dc_ret := deriveCap srcSlot
        (updateCapData false capData (maskCapRights (rightsFromWord rights) srcCap)) in
      ret (fst dc_ret, snd dc_ret, false)
  else if label =? CNodeMove then ret (EXCEPTION_NONE, srcCap, true)
  else if label =? CNodeMutate then
    if length <? 5 then let* e := throw seL4_TruncatedMessage in ret (e, Cap_null, true)
    else
      let* capData := getSyscallArg 4 buffer in
      ret (EXCEPTION_NONE, updateCapData true capData srcCap, true)
  else fail.

Definition decode_cnode_copy (label length destSlot : Z) (extraCaps : list Z) (buffer : Z)
    : K exception_t :=
  if (length <? 4) || (excapref extraCaps 0 =? NULL) then throw seL4_TruncatedMessage
  else
    let* srcIndex := getSyscallArg 2 buffer in
    let* srcDepth := getSyscallArg 3 buffer in
    let* srcRoot := get_cap (excapref extraCaps 0) in
    let* status := ensureEmptySlot destSlot in
    if status != EXCEPTION_NONE then ret status
    else
      let* lu_ret := lookupSourceSlot srcRoot srcIndex srcDepth in
      if fst lu_ret != EXCEPTION_NONE then ret (fst lu_ret)
      else
        let srcSlot := snd lu_ret in
        let* srcCap := get_cap srcSlot in
        if srcCap == Cap_null then throw_missing_capability true srcDepth
        else
          let* r := decode_new_cap label length srcSlot srcCap buffer in
          let '(status, newCap, isMove) := r in
          if status != EXCEPTION_NONE then ret status
          else if newCap == Cap_null then throw seL4_IllegalOperation
          else
            restart_current ;;;
            if isMove then invokeCNodeMove newCap srcSlot destSlot
            else invokeCNodeInsert newCap srcSlot destSlot.

Definition decode_cnode_rotate (length destSlot : Z) (extraCaps : list Z) (buffer : Z)
    : K exception_t :=
  if (length <? 8) || (excapref extraCaps 0 =? NULL) || (excapref extraCaps 1 =? NULL)
  then throw seL4_TruncatedMessage
  else
    let* pivotNewData := getSyscallArg 2 buffer in
    let* pivotIndex := getSyscallArg 3 buffer in
    let* pivotDepth := getSyscallArg 4 buffer in
    let* srcNewData := getSyscallArg 5 buffer in
    let* srcIndex := getSyscallArg 6 buffer in
    let* srcDepth := getSyscallArg 7 buffer in
    let* pivotRoot := get_cap (excapref extraCaps 0) in
    let* srcRoot := get_cap (excapref extraCaps 1) in
    let* lu_ret := lookupSourceSlot srcRoot srcIndex srcDepth in
    if fst lu_ret != EXCEPTION_NONE then ret (fst lu_ret)
    else
      let srcSlot := snd lu_ret in
      let* lu_ret := lookupPivotSlot pivotRoot pivotIndex pivotDepth in
      if fst lu_ret != EXCEPTION_NONE then ret (fst lu_ret)
      else
        let pivotSlot := snd lu_ret in
        if (pivotSlot =? srcSlot) || (pivotSlot =? destSlot) then throw seL4_IllegalOperation
        else
          let* status :=
            (if negb (srcSlot =? destSlot) then ensureEmptySlot destSlot
             else ret EXCEPTION_NONE) in
          if status != EXCEPTION_NONE then ret status
          else
            let* srcCap := get_cap srcSlot in
            let* pivotCap := get_cap pivotSlot in
            if srcCap == Cap_null then throw_missing_capability true srcDepth
            else if pivotCap == Cap_null then throw_missing_capability false pivotDepth
            else
              let newSrcCap := updateCapData true srcNewData srcCap in
              let newPivotCap := updateCapData true pivotNewData pivotCap in
              if newSrcCap == Cap_null then throw seL4_IllegalOperation
              else if newPivotCap == Cap_null then throw seL4_IllegalOperation
              else
                restart_current ;;;
                invokeCNodeRotate newSrcCap newPivotCap srcSlot pivotSlot destSlot.

Definition decodeCNodeInvocation (label length : Z) (c : cap) (extraCaps : list Z) (buffer : Z)
    : K exception_t :=
  assert (cap_get_capType c == cap_cnode_cap) ;;;
  if (label <? CNodeRevoke) || (label >? CNodeSaveCaller) then throw seL4_IllegalOperation
  else if length <? 2 then throw seL4_TruncatedMessage
  else
    let* index := getSyscallArg 0 buffer in
    let* w_bits := getSyscallArg 1 buffer in
    let* lu_ret := lookupTargetSlot c index w_bits in
    if fst lu_ret != EXCEPTION_NONE then ret (fst lu_ret)
    else
      let destSlot := snd lu_ret in
      if (label >=? CNodeCopy) && (label <=? CNodeMutate)
      then decode_cnode_copy label length destSlot extraCaps buffer
      else if label =? CNodeRevoke then restart_current ;;; invokeCNodeRevoke destSlot
      else if label =? CNodeDelete then restart_current ;;; invokeCNodeDelete destSlot
      else if label =? CNodeSaveCaller then
        let* status := ensureEmptySlot destSlot in
        if status != EXCEPTION_NONE then ret status
        else restart_current ;;; invokeCNodeSaveCaller destSlot
      else if label =? CNodeRecycle then
        let* destCap := get_cap destSlot in
        if negb (hasRecycleRights destCap) then throw seL4_IllegalOperation
        else restart_current ;;; invokeCNodeRecycle destSlot
      else if label =? CNodeRotate then decode_cnode_rotate length destSlot extraCaps buffer
      else ret EXCEPTION_NONE.
