(* ===== verification/Interrupt.v ===== *)
(** * Interrupts (src/object/interrupt.c)

    The control and handler invocations and the delivery of an interrupt. The
    states of the interrupt table are set by the operations of [MDB]. *)
From stdpp Require Import base list gmap.
From Stdlib Require Import ZArith Lia.
From S2P Require Import Prelude.
From S2P Require Import Structures.
From S2P Require Import KernelState.
From S2P Require Import VSpace.
From S2P Require Import Gic.
From S2P Require Import Scheduler.
From S2P Require Import CapOps.
From S2P Require Import MDB.
From S2P Require Import CSpace.
From S2P Require Import Delete.
From S2P Require Import Ipc.
From S2P Require Import TcbOps.

(** [irq_t] is 16 bits wide; [intStateIRQNode + irq] *)
Definition irq_of_word (w : Z) : Z := field 16 w.
Definition irq_slot (s : kstate) (irq : Z) : Z := cte_at (intStateIRQNode s) irq.

Definition invokeIRQControl (irq handlerSlot controlSlot : Z) : K exception_t :=
  setIRQState IRQNotifyAEP irq ;;;
  cteInsert (cap_irq_handler_cap_new irq) controlSlot handlerSlot ;;;
  ret EXCEPTION_NONE.

Definition invokeIRQHandler_AckIRQ (irq : Z) : K unit := maskInterrupt false irq.

(** gic_pl390.h: the triggering mode cannot be set. *)
Definition setInterruptMode (irq : Z) (levelTrigger polarityLow : bool) : K unit := ret tt.
Definition invokeIRQHandler_SetMode (irq : Z) (levelTrigger polarityLow : bool) : K unit :=
  setInterruptMode irq levelTrigger polarityLow.

Definition invokeIRQHandler_SetIRQHandler (irq : Z) (c : cap) (slot : Z) : K unit :=
  let* s := get in
  let irqSlot := irq_slot s irq in
  cteDeleteOne irqSlot ;;;
  cteInsert c slot irqSlot.

Definition invokeIRQHandler_ClearIRQHandler (irq : Z) : K unit :=
  let* s := get in cteDeleteOne (irq_slot s irq).

Definition Arch_decodeInterruptControl (length : Z) (extraCaps : list Z) : K exception_t :=
  throw seL4_IllegalOperation.

Definition decodeIRQControlInvocation (label length srcSlot : Z) (extraCaps : list Z)
    (buffer : Z) : K exception_t :=
  if label =? IRQIssueIRQHandler then
    if (length <? 3) || (excapref extraCaps 0 =? NULL) then throw seL4_TruncatedMessage
    else
      let* irq_w := getSyscallArg 0 buffer in
      let irq := irq_of_word irq_w in
      let* index := getSyscallArg 1 buffer in
      let* depth := getSyscallArg 2 buffer in
      let* cnodeCap := get_cap (excapref extraCaps 0) in
      if irq_w >? maxIRQ then throw_range 0 maxIRQ
      else
        let* active := isIRQActive irq in
        if active then throw seL4_RevokeFirst
        else
          let* lu_ret := lookupTargetSlot cnodeCap index depth in
          if fst lu_ret != EXCEPTION_NONE then ret (fst lu_ret)
          else
            let destSlot := snd lu_ret in
            let* status := ensureEmptySlot destSlot in
            if status != EXCEPTION_NONE then ret status
            else
              restart_current ;;;
              invokeIRQControl irq destSlot srcSlot
  else if label =? IRQInterruptControl then Arch_decodeInterruptControl length extraCaps
  else throw seL4_IllegalOperation.

Definition decodeIRQHandlerInvocation (label length irq : Z) (extraCaps : list Z) (buffer : Z)
    : K exception_t :=
  if label =? IRQAckIRQ then
    restart_current ;;; invokeIRQHandler_AckIRQ irq ;;; ret EXCEPTION_NONE
  else if label =? IRQSetIRQHandler then
    if excapref extraCaps 0 =? NULL then throw seL4_TruncatedMessage
    else
      let slot := excapref extraCaps 0 in
      let* aepCap := get_cap slot in
      match aepCap with
      | Cap_async_endpoint _ true _ _ =>
          restart_current ;;;
          invokeIRQHandler_SetIRQHandler irq aepCap slot ;;;
          ret EXCEPTION_NONE
      | _ => throw_invalid_cap 0
      end
  else if label =? IRQClearIRQHandler then
    restart_current ;;; invokeIRQHandler_ClearIRQHandler irq ;;; ret EXCEPTION_NONE
  else if label =? IRQSetMode then
    if length <? 2 then throw seL4_TruncatedMessage
    else
      let* trig := getSyscallArg 0 buffer in
      let* pol := getSyscallArg 1 buffer in
      restart_current ;;;
      invokeIRQHandler_SetMode irq (word_bool trig) (word_bool pol) ;;;
      ret EXCEPTION_NONE
  else throw seL4_IllegalOperation.

Definition handleInterrupt (irq : Z) : K unit :=
  let* st := get_irq_state irq in
  match st with
  | IRQNotifyAEP =>
      let* s := get in
      let* c := get_cap (irq_slot s irq) in
      match c with
      | Cap_async_endpoint badge true _ aep => sendAsyncIPC aep badge (wshl 1 (irq mod wordBits))
      | _ => ret tt
      end ;;;
      maskInterrupt true irq
  | IRQTimer => timerTick ;;; resetTimer
  | IRQReserved => handleReservedIRQ irq
  | IRQInactive => maskInterrupt true irq
  end ;;;
  ackInterrupt irq.
