(* ===== verification/VSpaceInv.v ===== *)
(** * Address space invocations (src/arch/arm/kernel/vspace.c, lines 966-2301)

    The decoding of the page table, page, page directory, ASID control and ASID
    pool invocations and the operations that carry them out. *)
From stdpp Require Import base list gmap.
From Stdlib Require Import ZArith Lia.
From S2P Require Import Prelude.
From S2P Require Import Structures.
From S2P Require Import KernelState.
From S2P Require Import VSpace.
From S2P Require Import Scheduler.
From S2P Require Import CapOps.
From S2P Require Import MDB.
From S2P Require Import CSpace.
From S2P Require Import Ipc.
From S2P Require Import TcbOps.
From S2P Require Import Untyped.

(** ** Table entries *)
Definition makeUserPTE (page_size paddr : Z) (cacheable nonexecutable : bool) (vm_rights : Z) : K Z :=
  let* ap := APFromVMRights vm_rights in
  if page_size =? ARMSmallPage then
    ret (if cacheable then pte_pte_small_new paddr 1 0 0 5 ap 0 1 nonexecutable
         else pte_pte_small_new paddr 1 1 0 0 ap 0 0 nonexecutable)
  else if page_size =? ARMLargePage then
    ret (if cacheable then pte_pte_large_new paddr nonexecutable 5 1 0 0 ap 0 1 1
         else pte_pte_large_new paddr nonexecutable 0 1 1 0 ap 0 0 1)
  else fail.

Definition makeUserPDE (page_size paddr : Z) (parity cacheable nonexecutable : bool)
    (domain vm_rights : Z) : K Z :=
  let* ap := APFromVMRights vm_rights in
  let* size2 := (if page_size =? ARMSection then ret 0
                 else if page_size =? ARMSuperSection then ret 1 else fail) in
  ret (if cacheable
       then pde_pde_section_new paddr size2 1 0 0 5 ap parity domain nonexecutable 0 1
       else pde_pde_section_new paddr size2 1 1 0 0 ap parity domain nonexecutable 0 0).

Definition checkVPAlignment (sz w : Z) : bool := (w &w MASK (pageBitsForSize sz)) =? 0.

(** ** Operations *)
Definition pteCheckIfMapped (pte : Z) : K bool :=
  let* w := read_word pte in ret (pte_get_pteType w != pte_pte_invalid).
Definition pdeCheckIfMapped (pde : Z) : K bool :=
  let* w := read_word pde in ret (pde_get_pdeType w != pde_pde_invalid).

(** [length] entries from [base] on are set to [entry] and cleaned; the TLB is
    flushed if the first one was mapped. *)
Definition write_entries (mapped : Z -> K bool) (asid entry base length : Z) : K unit :=
  let* tlbflush_required := mapped base in
  for_upto (Z.to_nat length) 0 (fun i => write_word (word_at base i) entry) ;;;
  cleanCacheRange_PoU base (LAST_BYTE base length) (addrFromPPtr base) ;;;
  when tlbflush_required (invalidateTLBByASID asid).

Definition performPageInvocationMapPTE (asid : Z) (c : cap) (ctSlot pte base length : Z)
    : K exception_t :=
  set_cap ctSlot c ;;;
  write_entries pteCheckIfMapped asid pte base length ;;;
  ret EXCEPTION_NONE.
Definition performPageInvocationMapPDE (asid : Z) (c : cap) (ctSlot pde base length : Z)
    : K exception_t :=
  set_cap ctSlot c ;;;
  write_entries pdeCheckIfMapped asid pde base length ;;;
  ret EXCEPTION_NONE.
Definition performPageInvocationRemapPTE (asid pte base length : Z) : K exception_t :=
  write_entries pteCheckIfMapped asid pte base length ;;; ret EXCEPTION_NONE.
Definition performPageInvocationRemapPDE (asid pde base length : Z) : K exception_t :=
  write_entries pdeCheckIfMapped asid pde base length ;;; ret EXCEPTION_NONE.

Definition performPageInvocationUnmap (c : cap) (ctSlot : Z) : K exception_t :=
  when (generic_frame_cap_get_capFIsMapped c)
    (unmapPage (generic_frame_cap_get_capFSize c) (generic_frame_cap_get_capFMappedASID c)
       (generic_frame_cap_get_capFMappedAddress c) (generic_frame_cap_get_capFBasePtr c)) ;;;
  let* slotCap := get_cap ctSlot in
  set_cap ctSlot (generic_frame_cap_set_capFMappedAddress slotCap asidInvalid 0) ;;;
  ret EXCEPTION_NONE.

Definition performPageGetAddress (vbase_ptr : Z) : K exception_t :=
  let capFBasePtr := addrFromPPtr vbase_ptr in
  let* s := get in
  let* m := msgRegister 0 in
  setRegister (ksCurThread s) m capFBasePtr ;;;
  setRegister (ksCurThread s) msgInfoRegister (wordFromMessageInfo (message_info_new 0 0 0 1)) ;;;
  ret EXCEPTION_NONE.

Definition performPageTableInvocationMap (c : cap) (ctSlot pde pdSlot : Z) : K exception_t :=
  set_cap ctSlot c ;;;
  write_word pdSlot pde ;;;
  cleanByVA_PoU pdSlot (addrFromPPtr pdSlot) ;;;
  ret EXCEPTION_NONE.

Definition cap_page_table_cap_set_capPTIsMapped (c : cap) (v : bool) : cap :=
  match c with Cap_page_table _ asid addr base => Cap_page_table v asid addr base | _ => c end.

Definition performPageTableInvocationUnmap (c : cap) (ctSlot : Z) : K exception_t :=
  match c with
  | Cap_page_table true asid addr pt =>
      unmapPageTable asid addr pt ;;;
      clearMemory pt (cap_get_capSizeBits c)
  | _ => ret tt
  end ;;;
  let* slotCap := get_cap ctSlot in
  set_cap ctSlot (cap_page_table_cap_set_capPTIsMapped slotCap false) ;;;
  ret EXCEPTION_NONE.

Definition performASIDControlInvocation (frame slot parent asid_base : Z) : K exception_t :=
  typ_region_bytes frame 12 ;;;
  let* parentCap := get_cap parent in
  match parentCap with
  | Cap_untyped _ blockSize _ =>
      set_cap parent (cap_untyped_cap_set_capFreeIndex parentCap (MAX_FREE_INDEX blockSize))
  | _ => fail
  end ;;;
  memzero frame (wshl 1 ARMSmallPageBits) ;;;
  cteInsert (cap_asid_pool_cap_new asid_base frame) parent slot ;;;
  assert ((asid_base &w MASK asidLowBits) =? 0) ;;;
  set_asid_table (asid_base >>w asidLowBits) frame ;;;
  ret EXCEPTION_NONE.

Definition performASIDPoolInvocation (asid poolPtr pdCapSlot : Z) : K exception_t :=
  let* pdCap := get_cap pdCapSlot in
  match pdCap with
  | Cap_page_directory _ _ pd =>
      set_cap pdCapSlot (Cap_page_directory (field 18 asid) true pd) ;;;
      write_word (word_at poolPtr (asid &w MASK asidLowBits)) pd
  | _ => fail
  end ;;;
  ret EXCEPTION_NONE.

(** ** Cache maintenance *)
Definition doFlush (label start last pstart : Z) : K unit :=
  if (label =? ARMPDClean_Data) || (label =? ARMPageClean_Data) then
    hw_emit (HwCleanCacheRange_RAM start last pstart)
  else if (label =? ARMPDInvalidate_Data) || (label =? ARMPageInvalidate_Data) then
    hw_emit (HwInvalidateCacheRange_RAM start last pstart)
  else if (label =? ARMPDCleanInvalidate_Data) || (label =? ARMPageCleanInvalidate_Data) then
    hw_emit (HwCleanInvalidateCacheRange_RAM start last pstart)
  else if (label =? ARMPDUnify_Instruction) || (label =? ARMPageUnify_Instruction) then
    cleanCacheRange_PoU start last pstart ;;;
    hw_emit (HwInvalidateCacheRange_I start last pstart) ;;;
    hw_emit (HwBranchFlushRange start last pstart)
  else fail.

Definition performPageFlush (label pd asid start last pstart : Z) : K exception_t :=
  when (start <? last)
    (let* root_switched := setVMRootForFlush pd asid in
     doFlush label start last pstart ;;;
     when root_switched setVMRoot_current) ;;;
  ret EXCEPTION_NONE.
Definition performPDFlush (label pd asid start last pstart : Z) : K exception_t :=
  when (start <? last)
    (let* root_switched := setVMRootForFlush pd asid in
     doFlush label start last pstart ;;;
     when root_switched setVMRoot_current) ;;;
  ret EXCEPTION_NONE.

(** [resolve_ret_t]: the frame that holds an address, its base and size *)
Definition resolveVAddr (pd vaddr : Z) : K (option (Z * Z)) :=
  let* pde := read_word (lookupPDSlot pd vaddr) in
  match pde_get_pdeType pde with
  | pde_pde_section =>
      ret (Some (pde_pde_section_get_address pde,
                 if pde_pde_section_get_size pde =? 0 then ARMSection else ARMSuperSection))
  | pde_pde_coarse =>
      let pt := ptrFromPAddr (pde_pde_coarse_get_address pde) in
      let* pte := read_word (lookupPTSlot_nofail pt vaddr) in
      match pte_get_pteType pte with
      | pte_pte_large => ret (Some (pte_pte_large_get_address pte, ARMLargePage))
      | pte_pte_small => ret (Some (pte_pte_small_get_address pte, ARMSmallPage))
      | pte_pte_invalid => ret None
      end
  | _ => ret None
  end.
Definition pageBase (vaddr size : Z) : Z := vaddr &w wnot (MASK (pageBitsForSize size)).

(** ** Decoding *)

(** The page directory of the ASID must be the one of the capability: a status *)
Definition check_pd (asid pd badCapNumber : Z) : K exception_t :=
  let* find_ret := findPDForASID asid in
  if fst find_ret != EXCEPTION_NONE then throw_failed_lookup false
  else if negb (snd find_ret =? pd) then throw_invalid_cap badCapNumber
  else ret EXCEPTION_NONE.

Definition decodeARMPageTableInvocation (label length slot : Z) (c : cap) (extraCaps : list Z)
    (buffer : Z) : K exception_t :=
  if label =? ARMPageTableUnmap then
    let* final := isFinalCapability slot in
    if negb final then throw seL4_RevokeFirst
    else restart_current ;;; performPageTableInvocationUnmap c slot
  else if negb (label =? ARMPageTableMap) then throw seL4_IllegalOperation
  else if (length <? 2) || (excapref extraCaps 0 =? NULL) then throw seL4_TruncatedMessage
  else
    match c with
    | Cap_page_table true _ _ _ => throw_invalid_cap 0
    | Cap_page_table false _ _ ptBase =>
        let* vaddr := getSyscallArg 0 buffer in
        let* attr_w := getSyscallArg 1 buffer in
        let attr := vmAttributesFromWord attr_w in
        let* pdCap := get_cap (excapref extraCaps 0) in
        match pdCap with
        | Cap_page_directory asid true pd =>
            if vaddr >=? kernelBase then throw_invalid_arg 0
            else
              let* status := check_pd asid pd 1 in
              if status != EXCEPTION_NONE then ret status
              else
                let pdSlot := word_at pd (vaddr >>w 20) in
                let* old := read_word pdSlot in
                if pde_get_pdeType old != pde_pde_invalid then throw seL4_DeleteFirst
                else
                  let paddr := addrFromPPtr ptBase in
                  let pde := pde_pde_coarse_new paddr (vm_attributes_get_armParityEnabled attr) 0 in
                  let c := Cap_page_table true (field 18 asid) (field_high 12 vaddr) ptBase in
                  restart_current ;;;
                  performPageTableInvocationMap c slot pde pdSlot
        | _ => throw_invalid_cap 1
        end
    | _ => fail
    end.

(** A status, the entry, and the range of entries to set *)
Record create_mappings_ret := mk_cm_ret {
  cm_status : exception_t; cm_entry : Z; cm_base : Z; cm_length : Z }.
Definition cm_error (e : exception_t) : create_mappings_ret := mk_cm_ret e 0 NULL 0.

Definition createSafeMappingEntries_PTE (base vaddr frameSize vmRights attr pd : Z)
    : K create_mappings_ret :=
  if frameSize =? ARMSmallPage then
    let* pte := makeUserPTE ARMSmallPage base (vm_attributes_get_armPageCacheable attr)
                  (vm_attributes_get_armExecuteNever attr) vmRights in
    let* lu_ret := lookupPTSlot pd vaddr in
    if fst lu_ret != EXCEPTION_NONE then
      let* e := throw_failed_lookup false in ret (cm_error e)
    else
      let* old := read_word (snd lu_ret) in
      if pte_get_pteType old == pte_pte_large then
        let* e := throw seL4_DeleteFirst in ret (cm_error e)
      else ret (mk_cm_ret EXCEPTION_NONE pte (snd lu_ret) 1)
  else if frameSize =? ARMLargePage then
    let* pte := makeUserPTE ARMLargePage base (vm_attributes_get_armPageCacheable attr)
                  (vm_attributes_get_armExecuteNever attr) vmRights in
    let* lu_ret := lookupPTSlot pd vaddr in
    if fst lu_ret != EXCEPTION_NONE then
      let* e := throw_failed_lookup false in ret (cm_error e)
    else
      let* clash := for_until (Z.to_nat PAGES_PER_LARGE_PAGE) 0 (fun i =>
        let* old := read_word (word_at (snd lu_ret) i) in
        ret (pte_get_pteType old == pte_pte_small)) in
      if clash then let* e := throw seL4_DeleteFirst in ret (cm_error e)
      else ret (mk_cm_ret EXCEPTION_NONE pte (snd lu_ret) PAGES_PER_LARGE_PAGE)
  else fail.

(** An entry that a section of the given size bit may not replace *)
Definition pde_clash (size w : Z) : bool :=
  (pde_get_pdeType w != pde_pde_invalid)
  && ((pde_get_pdeType w != pde_pde_section) || negb (pde_pde_section_get_size w =? size)).

Definition createSafeMappingEntries_PDE (base vaddr frameSize vmRights attr pd : Z)
    : K create_mappings_ret :=
  let slot := lookupPDSlot pd vaddr in
  if frameSize =? ARMSection then
    let* pde := makeUserPDE ARMSection base (vm_attributes_get_armParityEnabled attr)
                  (vm_attributes_get_armPageCacheable attr)
                  (vm_attributes_get_armExecuteNever attr) 0 vmRights in
    let* old := read_word slot in
    if pde_clash 0 old then let* e := throw seL4_DeleteFirst in ret (cm_error e)
    else ret (mk_cm_ret EXCEPTION_NONE pde slot 1)
  else if frameSize =? ARMSuperSection then
    let* pde := makeUserPDE ARMSuperSection base (vm_attributes_get_armParityEnabled attr)
                  (vm_attributes_get_armPageCacheable attr)
                  (vm_attributes_get_armExecuteNever attr) 0 vmRights in
    let* clash := for_until (Z.to_nat SECTIONS_PER_SUPER_SECTION) 0 (fun i =>
      let* old := read_word (word_at slot i) in ret (pde_clash 1 old)) in
    if clash then let* e := throw seL4_DeleteFirst in ret (cm_error e)
    else ret (mk_cm_ret EXCEPTION_NONE pde slot SECTIONS_PER_SUPER_SECTION)
  else fail.

Definition decode_page_map (length slot : Z) (c : cap) (extraCaps : list Z) (buffer : Z)
    : K exception_t :=
  if (length <? 3) || (excapref extraCaps 0 =? NULL) then throw seL4_TruncatedMessage
  else
    let* vaddr := getSyscallArg 0 buffer in
    let* w_rightsMask := getSyscallArg 1 buffer in
    let* attr_w := getSyscallArg 2 buffer in
    let attr := vmAttributesFromWord attr_w in
    let* pdCap := get_cap (excapref extraCaps 0) in
    let frameSize := generic_frame_cap_get_capFSize c in
    let capVMRights := generic_frame_cap_get_capFVMRights c in
    if generic_frame_cap_get_capFIsMapped c then throw_invalid_cap 0
    else
      match pdCap with
      | Cap_page_directory asid true pd =>
          let* status := check_pd asid pd 1 in
          if status != EXCEPTION_NONE then ret status
          else
            let vtop := (vaddr +w BIT (pageBitsForSize frameSize)) -w 1 in
            if vtop >=? kernelBase then throw_invalid_arg 0
            else
              let vmRights := maskVMRights capVMRights (rightsFromWord w_rightsMask) in
              if negb (checkVPAlignment frameSize vaddr) then throw seL4_AlignmentError
              else
                let capFBasePtr := addrFromPPtr (generic_frame_cap_get_capFBasePtr c) in
                let c := generic_frame_cap_set_capFMappedAddress c asid vaddr in
                if (frameSize =? ARMSmallPage) || (frameSize =? ARMLargePage) then
                  let* map_ret := createSafeMappingEntries_PTE capFBasePtr vaddr frameSize
                                    vmRights attr pd in
                  if cm_status map_ret != EXCEPTION_NONE then ret (cm_status map_ret)
                  else
                    restart_current ;;;
                    performPageInvocationMapPTE asid c slot (cm_entry map_ret)
                      (cm_base map_ret) (cm_length map_ret)
                else
                  let* map_ret := createSafeMappingEntries_PDE capFBasePtr vaddr frameSize
                                    vmRights attr pd in
                  if cm_status map_ret != EXCEPTION_NONE then ret (cm_status map_ret)
                  else
                    restart_current ;;;
                    performPageInvocationMapPDE asid c slot (cm_entry map_ret)
                      (cm_base map_ret) (cm_length map_ret)
      | _ => throw_invalid_cap 1
      end.

Definition decode_page_remap (length : Z) (c : cap) (extraCaps : list Z) (buffer : Z)
    : K exception_t :=
  if (length <? 2) || (excapref extraCaps 0 =? NULL) then throw seL4_TruncatedMessage
  else
    let* w_rightsMask := getSyscallArg 0 buffer in
    let* attr_w := getSyscallArg 1 buffer in
    let attr := vmAttributesFromWord attr_w in
    let* pdCap := get_cap (excapref extraCaps 0) in
    match pdCap with
    | Cap_page_directory pdASID true pd =>
        if negb (generic_frame_cap_get_capFIsMapped c) then throw_invalid_cap 0
        else
          let vaddr := generic_frame_cap_get_capFMappedAddress c in
          let mappedASID := generic_frame_cap_get_capFMappedASID c in
          let* find_ret := findPDForASID mappedASID in
          if fst find_ret != EXCEPTION_NONE then throw_failed_lookup false
          else if negb (snd find_ret =? pd) || negb (pdASID =? mappedASID)
          then throw_invalid_cap 1
          else
            let frameSize := generic_frame_cap_get_capFSize c in
            let capVMRights := generic_frame_cap_get_capFVMRights c in
            let vmRights := maskVMRights capVMRights (rightsFromWord w_rightsMask) in
            if negb (checkVPAlignment frameSize vaddr) then throw seL4_AlignmentError
            else
              let capFBasePtr := addrFromPPtr (generic_frame_cap_get_capFBasePtr c) in
              if (frameSize =? ARMSmallPage) || (frameSize =? ARMLargePage) then
                let* map_ret := createSafeMappingEntries_PTE capFBasePtr vaddr frameSize
                                  vmRights attr pd in
                if cm_status map_ret != EXCEPTION_NONE then ret (cm_status map_ret)
                else
                  restart_current ;;;
                  performPageInvocationRemapPTE mappedASID (cm_entry map_ret)
                    (cm_base map_ret) (cm_length map_ret)
              else
                let* map_ret := createSafeMappingEntries_PDE capFBasePtr vaddr frameSize
                                  vmRights attr pd in
                if cm_status map_ret != EXCEPTION_NONE then ret (cm_status map_ret)
                else
                  restart_current ;;;
                  performPageInvocationRemapPDE mappedASID (cm_entry map_ret)
                    (cm_base map_ret) (cm_length map_ret)
    | _ => throw_invalid_cap 1
    end.

Definition decode_page_flush (label length : Z) (c : cap) (buffer : Z) : K exception_t :=
  if length <? 2 then throw seL4_TruncatedMessage
  else
    let asid := generic_frame_cap_get_capFMappedASID c in
    let vaddr := generic_frame_cap_get_capFMappedAddress c in
    if negb (generic_frame_cap_get_capFIsMapped c) then throw seL4_IllegalOperation
    else
      let* pd := findPDForASID asid in
      if fst pd != EXCEPTION_NONE then throw_failed_lookup false
      else
        let* start := getSyscallArg 0 buffer in
        let* last := getSyscallArg 1 buffer in
        if last <=? start then throw_invalid_arg 1
        else
          let page_size := wshl 1 (pageBitsForSize (generic_frame_cap_get_capFSize c)) in
          let page_base := addrFromPPtr (generic_frame_cap_get_capFBasePtr c) in
          if (start >=? page_size) || (last >? page_size) then throw_invalid_arg 0
          else
            let pstart := page_base +w start in
            let start := start +w vaddr in
            let last := last +w vaddr in
            restart_current ;;;
            performPageFlush label (snd pd) asid start (last -w 1) pstart.

Definition is_page_flush (label : Z) : bool :=
  (label =? ARMPageClean_Data) || (label =? ARMPageInvalidate_Data)
  || (label =? ARMPageCleanInvalidate_Data) || (label =? ARMPageUnify_Instruction).
Definition is_pd_flush (label : Z) : bool :=
  (label =? ARMPDClean_Data) || (label =? ARMPDInvalidate_Data)
  || (label =? ARMPDCleanInvalidate_Data) || (label =? ARMPDUnify_Instruction).

Definition decodeARMFrameInvocation (label length slot : Z) (c : cap) (extraCaps : list Z)
    (buffer : Z) : K exception_t :=
  if label =? ARMPageMap then decode_page_map length slot c extraCaps buffer
  else if label =? ARMPageRemap then decode_page_remap length c extraCaps buffer
  else if label =? ARMPageUnmap then restart_current ;;; performPageInvocationUnmap c slot
  else if is_page_flush label then decode_page_flush label length c buffer
  else if label =? ARMPageGetAddress then
    assert (n_msgRegisters >=? 1) ;;;
    restart_current ;;;
    performPageGetAddress (generic_frame_cap_get_capFBasePtr c)
  else throw seL4_IllegalOperation.

Definition decodeARMPageDirectoryInvocation (label length cptr slot : Z) (c : cap)
    (extraCaps : list Z) (buffer : Z) : K exception_t :=
  if is_pd_flush label then
    if length <? 2 then throw seL4_TruncatedMessage
    else
      let* start := getSyscallArg 0 buffer in
      let* last := getSyscallArg 1 buffer in
      if last <=? start then throw_invalid_arg 1
      else if (start >=? kernelBase) || (last >? kernelBase) then throw seL4_IllegalOperation
      else
        match c with
        | Cap_page_directory asid true pd =>
            let* status := check_pd asid pd 0 in
            if status != EXCEPTION_NONE then ret status
            else
              let* resolve_ret := resolveVAddr pd start in
              match resolve_ret with
              | None => restart_current ;;; ret EXCEPTION_NONE
              | Some (frameBase, frameSize) =>
                  if negb (pageBase start frameSize =? pageBase (last -w 1) frameSize) then
                    throw_range start
                      (pageBase start frameSize +w MASK (pageBitsForSize frameSize))
                  else
                    let pstart := frameBase +w (start &w MASK (pageBitsForSize frameSize)) in
                    restart_current ;;;
                    performPDFlush label pd asid start (last -w 1) pstart
              end
        | _ => throw_invalid_cap 0
        end
  else throw seL4_IllegalOperation.

(** The first free entry of the ASID table, from [i] on: [n] entries are left *)
Fixpoint find_free_pool (n : nat) (i : Z) : K Z :=
  match n with
  | O => ret i
  | S n' =>
      let* entry := get_asid_table i in
      if negb (entry =? NULL) then find_free_pool n' (i + 1) else ret i
  end.

Definition decode_asid_control (label length : Z) (extraCaps : list Z) (buffer : Z)
    : K exception_t :=
  if negb (label =? ARMASIDControlMakePool) then throw seL4_IllegalOperation
  else if (length <? 2) || (excapref extraCaps 0 =? NULL) || (excapref extraCaps 1 =? NULL)
  then throw seL4_TruncatedMessage
  else
    let* index := getSyscallArg 0 buffer in
    let* depth := getSyscallArg 1 buffer in
    let parentSlot := excapref extraCaps 0 in
    let* untyped := get_cap parentSlot in
    let* root := get_cap (excapref extraCaps 1) in
    let* i := find_free_pool (Z.to_nat nASIDPools) 0 in
    if i =? nASIDPools then throw seL4_DeleteFirst
    else
      let asid_base := wshl i asidLowBits in
      match (match untyped with
             | Cap_untyped _ blockSize ptr =>
                 if blockSize =? ASID_POOL_SIZE_BITS then Some ptr else None
             | _ => None
             end) with
      | None => throw_invalid_cap 1
      | Some frame =>
          let* status := ensureNoChildren parentSlot in
          if status != EXCEPTION_NONE then ret status
          else
            let* lu_ret := lookupTargetSlot root index depth in
            if fst lu_ret != EXCEPTION_NONE then ret (fst lu_ret)
            else
              let destSlot := snd lu_ret in
              let* status := ensureEmptySlot destSlot in
              if status != EXCEPTION_NONE then ret status
              else
                restart_current ;;;
                performASIDControlInvocation frame destSlot parentSlot asid_base
      end.

(** The first free ASID of a pool, from the offset [i] on; ASID 0 is never free. *)
Fixpoint find_free_asid (n : nat) (i asid pool : Z) : K Z :=
  match n with
  | O => ret i
  | S n' =>
      if asid +w i =? 0 then find_free_asid n' (i + 1) asid pool
      else
        let* entry := read_word (word_at pool i) in
        if negb (entry =? NULL) then find_free_asid n' (i + 1) asid pool else ret i
  end.

Definition decode_asid_pool (label : Z) (base capPool : Z) (extraCaps : list Z) : K exception_t :=
  if negb (label =? ARMASIDPoolAssign) then throw seL4_IllegalOperation
  else if excapref extraCaps 0 =? NULL then throw seL4_TruncatedMessage
  else
    let pdCapSlot := excapref extraCaps 0 in
    let* pdCap := get_cap pdCapSlot in
    match pdCap with
    | Cap_page_directory _ false _ =>
        let* pool := get_asid_table (base >>w asidLowBits) in
        if pool =? NULL then
          let* e := throw_failed_lookup false in
          set_current_lookup_fault lookup_fault_invalid_root ;;;
          ret e
        else if negb (pool =? capPool) then throw_invalid_cap 0
        else
          let* i := find_free_asid (Z.to_nat (wshl 1 asidLowBits)) 0 base pool in
          if i =? wshl 1 asidLowBits then throw seL4_DeleteFirst
          else
            restart_current ;;;
            performASIDPoolInvocation (base +w i) pool pdCapSlot
    | _ => throw_invalid_cap 1
    end.

Definition decodeARMMMUInvocation (label length cptr slot : Z) (c : cap) (extraCaps : list Z)
    (buffer : Z) : K exception_t :=
  match c with
  | Cap_page_directory _ _ _ =>
      decodeARMPageDirectoryInvocation label length cptr slot c extraCaps buffer
  | Cap_page_table _ _ _ _ => decodeARMPageTableInvocation label length slot c extraCaps buffer
  | Cap_small_frame _ _ _ _ _ | Cap_frame _ _ _ _ _ _ =>
      decodeARMFrameInvocation label length slot c extraCaps buffer
  | Cap_asid_control => decode_asid_control label length extraCaps buffer
  | Cap_asid_pool base pool => decode_asid_pool label base pool extraCaps
  | _ => fail
  end.
