(* ===== verification/Syscall.v ===== *)
(** * Kernel entries

    The dispatch of invocations (src/object/objecttype.c, lines 589-715), the
    delivery of faults (src/kernel/faulthandler.c) and the handlers of the
    events that enter the kernel (src/api/syscall.c, without its DEBUG parts). *)
From stdpp Require Import base list gmap.
From Stdlib Require Import ZArith Lia.
From S2P Require Import Prelude.
From S2P Require Import Structures.
From S2P Require Import KernelState.
From S2P Require Import SchedQueue.
From S2P Require Import VSpace.
From S2P Require Import Gic.
From S2P Require Import Scheduler.
From S2P Require Import CapOps.
From S2P Require Import MDB.
From S2P Require Import CSpace.
From S2P Require Import Endpoint.
From S2P Require Import Delete.
From S2P Require Import Ipc.
From S2P Require Import Untyped.
From S2P Require Import TcbOps.
From S2P Require Import CNodeOps.
From S2P Require Import Interrupt.
From S2P Require Import VSpaceInv.

(** ** Dispatch *)
Definition performInvocation_Endpoint (ep badge : Z) (canGrant block call : bool) : K exception_t :=
  let* s := get in
  sendIPC block call badge canGrant (ksCurThread s) ep ;;; ret EXCEPTION_NONE.
Definition performInvocation_AsyncEndpoint (aep badge message : Z) : K exception_t :=
  sendAsyncIPC aep badge message ;;; ret EXCEPTION_NONE.
Definition performInvocation_Reply (thread slot : Z) : K exception_t :=
  let* s := get in
  doReplyTransfer (ksCurThread s) thread slot ;;; ret EXCEPTION_NONE.

Definition Arch_decodeInvocation (label length cptr slot : Z) (c : cap) (extraCaps : list Z)
    (buffer : Z) : K exception_t :=
  decodeARMMMUInvocation label length cptr slot c extraCaps buffer.

Definition decodeInvocation (label length capIndex slot : Z) (c : cap) (extraCaps : list Z)
    (block call : bool) (buffer : Z) : K exception_t :=
  if isArchCap c then Arch_decodeInvocation label length capIndex slot c extraCaps buffer
  else
    match c with
    | Cap_null | Cap_zombie _ _ => throw_invalid_cap 0
    | Cap_endpoint badge canGrant canSend _ ep =>
        if negb canSend then throw_invalid_cap 0
        else restart_current ;;; performInvocation_Endpoint ep badge canGrant block call
    | Cap_async_endpoint badge canSend _ aep =>
        if negb canSend then throw_invalid_cap 0
        else
          let* msg := (if length =? 0 then ret 0 else getSyscallArg 0 buffer) in
          restart_current ;;; performInvocation_AsyncEndpoint aep badge msg
    | Cap_reply master tcb =>
        if master then throw_invalid_cap 0
        else restart_current ;;; performInvocation_Reply tcb slot
    | Cap_thread _ => decodeTCBInvocation label length c slot extraCaps call buffer
    | Cap_domain => decodeDomainInvocation label length extraCaps buffer
    | Cap_cnode _ _ _ _ => decodeCNodeInvocation label length c extraCaps buffer
    | Cap_untyped _ _ _ => decodeUntypedInvocation label length slot c extraCaps call buffer
    | Cap_irq_control => decodeIRQControlInvocation label length slot extraCaps buffer
    | Cap_irq_handler irq => decodeIRQHandlerInvocation label length irq extraCaps buffer
    | _ => fail
    end.

(** ** Faults *)
Definition sendFaultIPC (tptr : Z) : K exception_t :=
  let* s := get in
  let original_lookup_fault := current_lookup_fault s in
  let* t := get_tcb tptr in
  let handlerCPtr := t.(tcbFaultHandler) in
  let* lu_ret := lookupCap tptr handlerCPtr in
  if fst lu_ret != EXCEPTION_NONE then
    set_current_fault (fault_cap_fault_new handlerCPtr false) ;;;
    ret EXCEPTION_FAULT
  else
    match snd lu_ret with
    | Cap_endpoint badge true true _ ep =>
        let* s := get in
        mod_tcb tptr (upd_tcbFault (current_fault s)) ;;;
        when (fault_get_faultType (current_fault s) =? 1)
          (mod_tcb tptr (upd_tcbLookupFailure original_lookup_fault)) ;;;
        sendIPC true false badge true tptr ep ;;;
        ret EXCEPTION_NONE
    | _ =>
        set_current_fault (fault_cap_fault_new handlerCPtr false) ;;;
        set_current_lookup_fault (lookup_fault_missing_capability_new 0) ;;;
        ret EXCEPTION_FAULT
    end.

Definition handleDoubleFault (tptr : Z) (ex1 : fault) : K unit :=
  setThreadState tptr ThreadState_Inactive.

Definition handleFault (tptr : Z) : K unit :=
  let* s := get in
  let* status := sendFaultIPC tptr in
  when (status != EXCEPTION_NONE) (handleDoubleFault tptr (current_fault s)).

(** [handleFault(ksCurThread)] *)
Definition handleFault_current : K unit := let* s := get in handleFault (ksCurThread s).

(** ** Events *)

(** What every event ends with *)
Definition resume : K exception_t := schedule ;;; activateThread ;;; ret EXCEPTION_NONE.

Definition handleInterruptEntry : K exception_t :=
  let* irq := getActiveIRQ in
  (if negb (irq =? irqInvalid) then handleInterrupt irq else handleSpuriousIRQ) ;;;
  resume.

Definition handleUnknownSyscall (w : Z) : K exception_t :=
  set_current_fault (fault_unknown_syscall_new w) ;;;
  handleFault_current ;;;
  resume.

Definition handleUserLevelFault (w_a w_b : Z) : K exception_t :=
  set_current_fault (fault_user_exception_new w_a w_b) ;;;
  handleFault_current ;;;
  resume.

Definition handleVMFaultEvent (vm_faultType : vm_fault_type) : K exception_t :=
  let* s := get in
  let* status := handleVMFault (ksCurThread s) vm_faultType in
  when (status != EXCEPTION_NONE) handleFault_current ;;;
  resume.

(** What follows the invocation itself: the reply, and the state of the caller *)
Definition finish_invocation (thread : Z) (isCall : bool) (status : exception_t) : K exception_t :=
  if status == EXCEPTION_PREEMPTED then ret status
  else if status == EXCEPTION_SYSCALL_ERROR then
    when isCall (replyFromKernel_error thread) ;;;
    ret EXCEPTION_NONE
  else
    let* ts := get_tsType thread in
    when (ts == ThreadState_Restart)
      (when isCall (replyFromKernel_success_empty thread) ;;;
       setThreadState thread ThreadState_Running) ;;;
    ret EXCEPTION_NONE.

Definition handleInvocation (isCall isBlocking : bool) : K exception_t :=
  let* s := get in
  let thread := ksCurThread s in
  let* w := getRegister thread msgInfoRegister in
  let info := messageInfoFromWord w in
  let* cptr := getRegister thread capRegister in
  let* lu_ret := lookupCapAndSlot thread cptr in
  let '(status, slot, c) := lu_ret in
  if status != EXCEPTION_NONE then
    set_current_fault (fault_cap_fault_new cptr false) ;;;
    when isBlocking (handleFault thread) ;;;
    ret EXCEPTION_NONE
  else
    let* buffer := lookupIPCBuffer false thread in
    let* status := lookupExtraCaps thread buffer info in
    if status != EXCEPTION_NONE then
      when isBlocking (handleFault thread) ;;;
      ret EXCEPTION_NONE
    else
      let length := message_info_get_msgLength info in
      let length := if (length >? n_msgRegisters) && (buffer =? NULL)
                    then n_msgRegisters else length in
      let* s := get in
      let* status := decodeInvocation (message_info_get_msgLabel info) length cptr slot c
                       (current_extra_caps s) isBlocking isCall buffer in
      finish_invocation thread isCall status.

Definition handleReply : K unit :=
  let* s := get in
  let callerSlot := TCB_PTR_CTE_PTR (ksCurThread s) tcbCaller in
  let* callerCap := get_cap callerSlot in
  match callerCap with
  | Cap_reply false caller =>
      assert (negb (caller =? ksCurThread s)) ;;;
      doReplyTransfer (ksCurThread s) caller callerSlot
  | Cap_null => ret tt
  | _ => fail
  end.

(** A wait on a capability that cannot be waited on *)
Definition wait_fault (epCPtr : Z) : K unit :=
  set_current_lookup_fault (lookup_fault_missing_capability_new 0) ;;;
  set_current_fault (fault_cap_fault_new epCPtr true) ;;;
  handleFault_current.

Definition handleWait : K unit :=
  let* s := get in
  let cur := ksCurThread s in
  let* epCPtr := getRegister cur capRegister in
  let* lu_ret := lookupCap cur epCPtr in
  if fst lu_ret != EXCEPTION_NONE then
    set_current_fault (fault_cap_fault_new epCPtr true) ;;;
    handleFault_current
  else
    match snd lu_ret with
    | Cap_endpoint _ _ _ canReceive _ =>
        if negb canReceive then wait_fault epCPtr
        else
          deleteCallerCap cur ;;;
          receiveIPC cur (snd lu_ret)
    | Cap_async_endpoint _ _ canReceive _ =>
        if negb canReceive then wait_fault epCPtr
        else receiveAsyncIPC cur (snd lu_ret)
    | _ => wait_fault epCPtr
    end.

Definition handleYield : K unit :=
  let* s := get in
  tcbSchedDequeue (ksCurThread s) ;;;
  tcbSchedAppend (ksCurThread s) ;;;
  rescheduleRequired.

Inductive syscall_t :=
| SysCall | SysReplyWait | SysSend | SysNBSend | SysWait | SysReply | SysYield.
Global Instance syscall_t_eq_dec : EqDecision syscall_t.
Proof. solve_decision. Defined.

(** An invocation that was preempted: the pending interrupt is handled. *)
Definition invocation_syscall (isCall isBlocking : bool) : K unit :=
  let* ret_ := handleInvocation isCall isBlocking in
  when (ret_ != EXCEPTION_NONE)
    (let* irq := getActiveIRQ in
     when (negb (irq =? irqInvalid)) (handleInterrupt irq)).

Definition handleSyscall (syscall : syscall_t) : K exception_t :=
  match syscall with
  | SysSend => invocation_syscall false true
  | SysNBSend => invocation_syscall false false
  | SysCall => invocation_syscall true true
  | SysWait => handleWait
  | SysReply => handleReply
  | SysReplyWait => handleReply ;;; handleWait
  | SysYield => handleYield
  end ;;;
  resume.
