(* ===== verification/System.v ===== *)
(** * A small system

    Executable checkers of the invariants and a concrete kernel state: a
    capability node of 16 slots, seven threads and the idle thread, two
    endpoints, an asynchronous endpoint, an ASID pool with two address spaces.
    The hypotheses of the theorems are shown to hold in it. *)
From stdpp Require Import base list gmap.
From Stdlib Require Import ZArith Lia.
From S2P Require Import Prelude.
From S2P Require Import Structures.
From S2P Require Import KernelState.
From S2P Require Import DList.
From S2P Require Import SchedQueue.
From S2P Require Import VSpace.
From S2P Require Import Scheduler.
From S2P Require Import MDB.

(** ** Checkers *)
Fixpoint dseg_b (L : links) (prev : Z) (l : list Z) (next : Z) : bool :=
  match l with
  | [] => true
  | p :: l' => negb (p =? NULL) && bool_decide (L p = Some (prev, hd next l')) && dseg_b L p l' next
  end.

Lemma dseg_b_sound L prev l next : dseg_b L prev l next = true -> dseg L prev l next.
Proof.
  revert prev. induction l as [|p l IH]; intros prev; simpl; [done|].
  rewrite !andb_true_iff, negb_true_iff, Z.eqb_neq, bool_decide_eq_true. naive_solver.
Qed.

Definition queue_rep_b (L : links) (q : tcb_queue) (l : list Z) : bool :=
  (q_head q =? hd NULL l) && (q_end q =? lastd NULL l) && dseg_b L NULL l NULL.

Lemma queue_rep_b_sound L q l : queue_rep_b L q l = true -> queue_rep L q l.
Proof.
  unfold queue_rep_b. rewrite !andb_true_iff, !Z.eqb_eq. intros [[? ?] ?%dseg_b_sound]. by split.
Qed.

Definition queues_of (m : gmap Z (list Z)) (idx : Z) : list Z := default [] (m !! idx).

Definition sched_rep_b (s : kstate) (m : gmap Z (list Z)) : bool :=
  bool_decide (ksTcbs s !! NULL = None) &&
  bool_decide (map_Forall (fun _ t =>
    (0 <= t.(tcbDomain) /\ t.(tcbDomain) < CONFIG_NUM_DOMAINS) /\
    (0 <= t.(tcbPriority) /\ t.(tcbPriority) < CONFIG_NUM_PRIORITIES)) (ksTcbs s)) &&
  forallb (fun idx => queue_rep_b (sched_links (ksTcbs s)) (ready_queue s idx) (queues_of m idx) &&
      forallb (fun p => bool_decide (sched_key <$> ksTcbs s !! p = Some (true, idx))) (queues_of m idx))
    ((map_to_list m).*1 ++ (map_to_list (ksReadyQueues s)).*1) &&
  bool_decide (map_Forall (fun p t => t.(tcbState).(tcbQueued) = true -> p ∈ queues_of m (tcb_index t)) (ksTcbs s)).

Lemma lookup_not_listed {A} (m : gmap Z A) idx : idx ∉ (map_to_list m).*1 -> m !! idx = None.
Proof.
  intros H. destruct (m !! idx) eqn:E; [|done]. exfalso. apply H.
  apply elem_of_map_to_list in E. by apply (list_elem_of_fmap_2 fst) in E.
Qed.

Lemma sched_rep_b_sound s m : sched_rep_b s m = true -> sched_rep s (queues_of m).
Proof.
  unfold sched_rep_b. rewrite !andb_true_iff, !bool_decide_eq_true, forallb_forall.
  intros [[[H0 Hr] Hq] Hm].
  assert (forall idx, queue_rep (sched_links (ksTcbs s)) (ready_queue s idx) (queues_of m idx) /\
    forall p, p ∈ queues_of m idx -> sched_key <$> ksTcbs s !! p = Some (true, idx)) as HQ.
  { intros idx. destruct (decide (idx ∈ (map_to_list m).*1 ++ (map_to_list (ksReadyQueues s)).*1)) as [Hin|Hn].
    - apply list_elem_of_In in Hin. specialize (Hq idx Hin).
      apply andb_true_iff in Hq as [?%queue_rep_b_sound Hk]. split; [done|].
      intros p Hp%list_elem_of_In. rewrite forallb_forall in Hk. apply Hk in Hp.
      by apply bool_decide_eq_true in Hp.
    - apply not_elem_of_app in Hn as [?%lookup_not_listed E]. apply lookup_not_listed in E.
      unfold queues_of, ready_queue. rewrite H, E. split; [done|]. by intros p ?%elem_of_nil. }
  split; [done| |apply HQ|].
  - intros p t Ht. apply Hr in Ht. lia.
  - intros idx p. split; [apply HQ|]. intros H. apply fmap_Some in H as (t & Ht & E).
    injection E as E1 ->. by apply (Hm p).
Qed.

Definition slots_wf_b (s : kstate) : bool :=
  bool_decide (ksCtes s !! NULL = None) &&
  bool_decide (map_Forall (fun p _ => field_high 29 p = p) (ksCtes s)).
Lemma slots_wf_b_sound s : slots_wf_b s = true -> slots_wf s.
Proof.
  unfold slots_wf_b. rewrite andb_true_iff, !bool_decide_eq_true. intros [H0 H].
  split; [done|]. intros p [c Hc]. by apply (H p c).
Qed.

Definition mdb_linked_b (s : kstate) : bool :=
  bool_decide (map_Forall (fun p c =>
    (cte_next c <> NULL -> cte_prev <$> ksCtes s !! cte_next c = Some p) /\
    (cte_prev c <> NULL -> cte_next <$> ksCtes s !! cte_prev c = Some p)) (ksCtes s)).
Lemma mdb_linked_b_sound s : mdb_linked_b s = true -> mdb_linked s.
Proof.
  unfold mdb_linked_b. rewrite bool_decide_eq_true. intros H p a b E.
  unfold mdb_links, links_of in *. destruct (ksCtes s !! p) as [c|] eqn:Ec; [|done].
  simplify_eq/=. destruct (H p c Ec) as [Hn Hp]. split; intros Hz.
  - apply Hn, fmap_Some in Hz as (c' & -> & E). simpl. rewrite E. by eexists.
  - apply Hp, fmap_Some in Hz as (c' & -> & E). simpl. rewrite E. by eexists.
Qed.

Definition mdb_chain_b (s : kstate) (l : list Z) : bool := dseg_b (mdb_links (ksCtes s)) NULL l NULL.
Lemma mdb_chain_b_sound s l : mdb_chain_b s l = true -> mdb_chain s l.
Proof. apply dseg_b_sound. Qed.

(** ** The state *)
Definition rootNode : Z := 0xe0001000.
Definition slotAt (i : Z) : Z := cte_at rootNode i.
Definition threadA : Z := 0xe0002100.
Definition threadB : Z := 0xe0002300.
Definition threadC : Z := 0xe0002500.
Definition threadD : Z := 0xe0002700.
Definition threadE : Z := 0xe0002900.
Definition threadF : Z := 0xe0002b00.
Definition threadG : Z := 0xe0002d00.
Definition threadIdle : Z := 0xe0002f00.
Definition epRecv : Z := 0xe0003000.
Definition epSend : Z := 0xe0003010.
Definition aepWait : Z := 0xe0003020.
Definition aepFree : Z := 0xe0003030.
Definition irqNode : Z := 0xe0005000.
Definition poolAt : Z := 0xe0006000.
Definition pd1 : Z := 0xe0008000.
Definition pd2 : Z := 0xe000c000.

Definition blocked (ts : thread_state_type) (badge ep : Z) : thread_state :=
  mk_thread_state badge false false false false ep ts.
Definition thread (ts : thread_state) (prio epPrev epNext : Z) : tcb :=
  mk_tcb (replicate 18 0) ts fault_null_fault lookup_fault_invalid_root 0 prio 0 CONFIG_TIME_SLICE
    0 0 NULL NULL epNext epPrev.
Definition queued (prev next : Z) (t : tcb) : tcb :=
  upd_tcbSchedPrev prev (upd_tcbSchedNext next (upd_tcbState (upd_tcbQueued true t.(tcbState)) t)).
Definition running : thread_state := blocked ThreadState_Running 0 0.

(** A is the current thread, B and D are ready with the same priority, C waits
    for a message, E and F for a receiver, G for an event. *)
Definition sysTcbs : gmap Z tcb := list_to_map [
  (threadA, thread running 100 0 0);
  (threadB, queued NULL threadD (thread running 100 0 0));
  (threadC, thread (blocked ThreadState_BlockedOnReceive 0 epRecv) 150 NULL NULL);
  (threadD, queued threadB NULL (thread running 100 0 0));
  (threadE, thread (blocked ThreadState_BlockedOnSend 5 epSend) 90 NULL threadF);
  (threadF, thread (blocked ThreadState_BlockedOnSend 7 epSend) 90 threadE NULL);
  (threadG, thread (blocked ThreadState_BlockedOnAsyncEvent 0 aepWait) 120 NULL NULL);
  (threadIdle, thread (blocked ThreadState_IdleThreadState 0 0) 0 0 0)].

Definition empty_cte : cte := mk_cte Cap_null nullMDBNode.
Definition slots (base : Z) (n : nat) : list (Z * cte) :=
  (fun i => (cte_at base (Z.of_nat i), empty_cte)) <$> seq 0 n.

(** The node's slots 0, 1, 2 hold an untyped capability, an endpoint
    capability derived from it and a badged copy; slot 3 a capability to the node. *)
Definition sysCtes : gmap Z cte :=
  list_to_map ([
    (slotAt 0, mk_cte (Cap_untyped 4 12 0xe0003000) (mk_mdb_node (slotAt 1) true true NULL));
    (slotAt 1, mk_cte (Cap_endpoint 0 true true true epSend) (mk_mdb_node (slotAt 2) true true (slotAt 0)));
    (slotAt 2, mk_cte (Cap_endpoint 5 false true false epSend) (mk_mdb_node NULL false true (slotAt 1)));
    (slotAt 3, mk_cte (Cap_cnode 4 0 0 rootNode) (mk_mdb_node NULL true true NULL))]
    ++ slots rootNode 16
    ++ (slots (threadA - 256) 5) ++ (slots (threadB - 256) 5) ++ (slots (threadC - 256) 5)
    ++ (slots (threadD - 256) 5) ++ (slots (threadE - 256) 5) ++ (slots (threadF - 256) 5)
    ++ (slots (threadG - 256) 5) ++ (slots (threadIdle - 256) 5) ++ slots irqNode 96).

(** All memory reads as zero, but the pool's entries 1 and 2 and the number 3
    stored in the second directory. *)
Definition sysMem : Z -> option Z := fun a =>
  Some (if a =? poolAt + 4 then pd1
        else if a =? poolAt + 8 then pd2
        else if a =? word_at pd2 PD_ASID_SLOT then pde_pde_invalid_new 3 true
        else 0).

Definition sysHw : hw_state := mk_hw_state [] [] (fun _ => 0) irqInvalid 0 0 0 [].

Definition sys : kstate := {|
  ksCtes := sysCtes;
  ksTcbs := sysTcbs;
  ksEps := list_to_map [(epRecv, mk_endpoint threadC threadC EPState_Recv);
                        (epSend, mk_endpoint threadE threadF EPState_Send)];
  ksAeps := list_to_map [(aepWait, mk_async_endpoint 0 0 threadG threadG AEPState_Waiting);
                         (aepFree, mk_async_endpoint 0 0 0 0 AEPState_Idle)];
  ksMem := sysMem;
  ksReadyQueues := {[ 100 := mk_queue threadB threadD ]};
  ksCurThread := threadA;
  ksIdleThread := threadIdle;
  ksSchedulerAction := SchedulerAction_ResumeCurrentThread;
  ksWorkUnitsCompleted := 0;
  intStateIRQTable := {[ 40 := IRQNotifyAEP; 29 := IRQTimer ]};
  intStateIRQNode := irqNode;
  ksCurDomain := 0;
  ksDomainTime := 1;
  ksDomScheduleIdx := 0;
  current_lookup_fault := lookup_fault_invalid_root;
  current_fault := fault_null_fault;
  current_syscall_error := mk_syscall_error 0 0 0 0 0 false seL4_NoError;
  current_extra_caps := [0; 0; 0];
  armKSASIDTable := {[ 0 := poolAt ]};
  armKSHWASIDTable := {[ 3 := 2 ]};
  armKSNextASID := 0;
  armKSGlobalsFrame := 0;
  armKSGlobalPD := 0xe0010000;
  ksHw := sysHw |}.

Definition sysQueues : gmap Z (list Z) := {[ 100 := [threadB; threadD] ]}.
Definition sysQ : Z -> list Z := queues_of sysQueues.

Lemma sys_sched : sched_rep sys sysQ.
Proof. apply sched_rep_b_sound. vm_compute. reflexivity. Qed.
Lemma sys_slots : slots_wf sys.
Proof. apply slots_wf_b_sound. vm_compute. reflexivity. Qed.
Lemma sys_chain : mdb_chain sys [slotAt 0; slotAt 1; slotAt 2].
Proof. apply mdb_chain_b_sound. vm_compute. reflexivity. Qed.
Lemma sys_linked : mdb_linked sys.
Proof. apply mdb_linked_b_sound. vm_compute. reflexivity. Qed.

(** The two address spaces *)
Lemma sys_pool asid : 0 <= asid < numASIDs -> asid_pool sys (asid >>w asidLowBits) <> NULL ->
  asid < 1024 /\ asid_entry sys asid = poolAt + 4 * asid.
Proof.
  intros H Hp. assert (asid >>w asidLowBits = 0) as E.
  { destruct (decide (asid >>w asidLowBits = 0)) as [|Hne]; [done|].
    exfalso. apply Hp. unfold asid_pool. change (armKSASIDTable sys) with ({[ 0 := poolAt ]} : gmap Z Z).
    by rewrite lookup_singleton_ne. }
  assert (asid < 1024) as Hlt.
  { unfold wshr in E. rewrite Z.shiftr_div_pow2 in E by done.
    change (2 ^ asidLowBits) with 1024 in E. apply Z.div_small_iff in E; lia. }
  split; [done|]. unfold asid_entry. rewrite E. change (asid_pool sys 0) with poolAt.
  change (MASK asidLowBits) with (Z.ones 10). rewrite Z.land_ones by done.
  rewrite Z.mod_small by (change (2 ^ 10) with 1024; lia).
  unfold word_at, wshl, wadd, wrap, poolAt. rewrite Z.shiftl_mul_pow2 by done. change (2 ^ 2) with 4.
  rewrite (Z.mod_small (asid * 4)) by lia. rewrite Z.mod_small by lia. lia.
Qed.

Lemma sys_pds asid pd : 0 <= asid < numASIDs -> asid_pd_of sys asid = Some pd ->
  (asid = 1 /\ pd = pd1) \/ (asid = 2 /\ pd = pd2).
Proof.
  intros H (Hp & Hm & Hpd)%asid_pd_of_inv. destruct (sys_pool asid H Hp) as [Hlt E].
  rewrite E in Hm. change (ksMem sys) with sysMem in Hm. unfold sysMem in Hm.
  change (word_at pd2 PD_ASID_SLOT) with 0xe000ffc0 in Hm.
  destruct (Z.eqb_spec (poolAt + 4 * asid) (poolAt + 4)); [left; split; [lia|by injection Hm]|].
  destruct (Z.eqb_spec (poolAt + 4 * asid) (poolAt + 8)); [right; split; [lia|by injection Hm]|].
  destruct (Z.eqb_spec (poolAt + 4 * asid) 0xe000ffc0); [unfold poolAt in *; lia|].
  injection Hm as <-. done.
Qed.

Lemma sys_hwasid : hwasid_wf sys.
Proof.
  split.
  - done.
  - intros asid H Hp. destruct (sys_pool asid H Hp) as [Hlt E]. rewrite E.
    split; [by eexists|]. intros asid' pd H' [[_ ->]|[_ ->]]%sys_pds; [| |lia].
    + change (pd_asid_slot pd1) with 0xe000bfc0. unfold poolAt. lia.
    + change (pd_asid_slot pd2) with 0xe000ffc0. unfold poolAt. lia.
  - intros h Hh. unfold hwasid_entry. change (armKSHWASIDTable sys) with ({[ 3 := 2 ]} : gmap Z Z).
    destruct (decide (h = 3)) as [->|]; [|by rewrite lookup_singleton_ne].
    intros _. split; [done|]. exists pd2, (pde_pde_invalid_new 3 true). done.
  - intros asid pd H [[-> ->]|[-> ->]]%sys_pds; [| |lia]; by eexists.
  - intros a a' pd pd' H H' [[-> ->]|[-> ->]]%sys_pds [[-> ->]|[-> ->]]%sys_pds; done || lia.
Qed.
