(* ===== verification/SchedulerSpec.v ===== *)
(** * Properties of the scheduler

    The operations of the ready queues refine operations on lists; schedule,
    possibleSwitchTo, setPriority and timerTick by what they do to the queues, the
    current thread and the scheduler action. *)
From stdpp Require Import base list gmap.
From Stdlib Require Import ZArith Lia.
From S2P Require Import Prelude.
From S2P Require Import Structures.
From S2P Require Import KernelState.
From S2P Require Import DList.
From S2P Require Import SchedQueue.
From S2P Require Import VSpace.
From S2P Require Import Scheduler.
From S2P Require Import System.

(** ** The frames are preorders *)
#[global] Instance sched_frame_preorder : PreOrder sched_frame.
Proof. split; [exact sched_frame_refl|exact sched_frame_trans]. Qed.
#[global] Instance act_frame_preorder : PreOrder act_frame.
Proof. split; [exact act_frame_refl|exact act_frame_trans]. Qed.
#[global] Instance run_frame_preorder : PreOrder run_frame.
Proof. split; [exact run_frame_refl|exact run_frame_trans]. Qed.
#[global] Instance sched_act_frame : subrelation sched_frame act_frame.
Proof. exact act_frame_sched. Qed.

(** ** Switching to a woken thread *)

(** Whether a thread is queued is what its membership says. *)
Lemma queued_iff s rq p t : sched_rep s rq -> ksTcbs s !! p = Some t ->
  t.(tcbState).(tcbQueued) = true <-> p ∈ rq (tcb_index t).
Proof.
  intros R Ht. rewrite (sr_mem _ _ R), Ht. simpl. unfold sched_key. split; congruence.
Qed.

Lemma in_enqueued s rq t p idx : p <> t -> p ∈ enqueued s rq t idx <-> p ∈ rq idx.
Proof.
  intros Hp. unfold enqueued, enqueue_abs, rq_set. destruct (ksTcbs s !! t) as [tc|]; [|done].
  destruct (tcbQueued _); [done|]. destruct (Z.eqb_spec idx (tcb_index tc)) as [->|]; [|done].
  rewrite elem_of_cons. naive_solver.
Qed.

Lemma enqueued_again s s1 rq t a :
  sched_rep s rq -> sched_rep s1 (enqueued s rq t) -> sched_frame s s1 -> a <> t ->
  enqueued s1 (enqueued s rq t) a = enqueued s (enqueued s rq t) a.
Proof.
  intros R R1 F Ha. set (rq1 := enqueued s rq t) at 1 2. unfold enqueued.
  destruct (ksTcbs s !! a) as [ta|] eqn:E.
  - destruct (sched_frame_lookup _ _ _ _ F E) as (ta1 & E1 & U). rewrite E1.
    pose proof (queued_iff _ _ _ _ R E) as Q. pose proof (queued_iff _ _ _ _ R1 E1) as Q1.
    rewrite (unsched_index _ _ U), in_enqueued in Q1 by done. unfold enqueue_abs.
    rewrite (unsched_index _ _ U).
    replace (tcbQueued (tcbState ta1)) with (tcbQueued (tcbState ta)); [done|].
    apply Bool.eq_iff_eq_true. by rewrite Q, Q1.
  - destruct F as [_ F]. specialize (F a). rewrite E in F. by destruct (ksTcbs s1 !! a).
Qed.

(** The queues after possibleSwitchTo and the action it leaves *)
Definition switch_now (s : kstate) (cur t : tcb) (onSamePriority : bool) : bool :=
  (t.(tcbDomain) =? ksCurDomain s) &&
  ((t.(tcbPriority) >? cur.(tcbPriority)) || ((t.(tcbPriority) =? cur.(tcbPriority)) && onSamePriority)) &&
  (ksSchedulerAction s =? SchedulerAction_ResumeCurrentThread).
Definition switch_later (s : kstate) (t : tcb) : bool :=
  (t.(tcbDomain) =? ksCurDomain s) && is_thread_action (ksSchedulerAction s).
Definition switch_abs (s : kstate) (rq : Z -> list Z) (target : Z) (cur t : tcb) (same : bool)
    : (Z -> list Z) * Z :=
  if switch_now s cur t same then (rq, target)
  else
    let rq1 := enqueued s rq target in
    if switch_later s t then
      (if ksSchedulerAction s =? target then rq1 else enqueued s rq1 (ksSchedulerAction s),
       SchedulerAction_ChooseNewThread)
    else (rq1, ksSchedulerAction s).

Lemma wp_possibleSwitchTo s rq target cur t same :
  sched_rep s rq -> action_ok s ->
  ksTcbs s !! ksCurThread s = Some cur -> ksTcbs s !! target = Some t ->
  wp (possibleSwitchTo target same) (fun _ s' =>
    sched_rep s' (fst (switch_abs s rq target cur t same)) /\
    ksSchedulerAction s' = snd (switch_abs s rq target cur t same) /\ act_frame s s') s.
Proof.
  intros R A Hc Ht. unfold possibleSwitchTo, switch_abs, switch_now, switch_later, is_thread_action.
  wrun. destruct (tcbDomain t =? ksCurDomain s); cbn [negb andb].
  2: { eapply wp_mono; [by eapply wp_tcbSchedEnqueue|]. intros _ s1 [R1 F1]. unfold enqueued. rewrite Ht.
       split; [done|]. split; [by destruct F1 as [-> _]|by apply act_frame_sched]. }
  destruct (_ && (ksSchedulerAction s =? SchedulerAction_ResumeCurrentThread)) eqn:E.
  - apply andb_true_iff in E as [_ Ea]. unfold set_action. wrun. rewrite Ea. cbn [negb andb when].
    wstep. split; [|split; [done|apply act_frame_action]]. by eapply sched_rep_ext; [..|exact R].
  - clear E. wstep. eapply wp_mono; [by eapply wp_tcbSchedEnqueue|]. intros _ s1 [R1 F1].
    assert (ksSchedulerAction s1 = ksSchedulerAction s) as Ea by (by destruct F1 as [-> _]).
    assert (enqueue_abs rq target t = enqueued s rq target) as Ee by (unfold enqueued; by rewrite Ht).
    rewrite Ee in R1. cbn beta.
    fold (is_thread_action (ksSchedulerAction s)). destruct (is_thread_action (ksSchedulerAction s)) eqn:Et.
    + simpl. eapply wp_mono; [apply (wp_rescheduleRequired s1); [exact R1|]|].
      { intros _. rewrite Ea. destruct (A Et) as [ta Hta].
        destruct (sched_frame_lookup _ _ _ _ F1 Hta) as (? & ? & _). by eexists. }
      intros _ s2 (R2 & A2 & F2). rewrite Ea, Et in R2. split; [|split; [done|]].
      * destruct (Z.eqb_spec (ksSchedulerAction s) target) as [Eat|Hne].
        -- rewrite Eat in R2. unfold enqueued at 1 in R2. destruct (sched_frame_lookup _ _ _ _ F1 Ht) as (t1 & Ht1 & U).
           rewrite Ht1 in R2. unfold enqueue_abs in R2.
           replace (tcbQueued (tcbState t1)) with true in R2; [done|]. symmetry.
           apply (queued_iff _ _ _ _ R1 Ht1). unfold enqueued. rewrite Ht, (unsched_index _ _ U).
           unfold enqueue_abs. destruct (tcbQueued (tcbState t)) eqn:Eq; [by apply (queued_iff _ _ _ _ R Ht)|].
           unfold rq_set. rewrite Z.eqb_refl. left.
        -- by rewrite (enqueued_again s) in R2.
      * etrans; [by apply act_frame_sched|done].
    + simpl. wstep. split; [done|]. split; [done|by apply act_frame_sched].
Qed.

(** ** The timer *)
Definition slice_expired (tc : tcb) : bool :=
  (tc.(tcbState).(tsType) == ThreadState_Running) && negb (tc.(tcbTimeSlice) >? 1).
Definition tick_slice (tc : tcb) : tcb :=
  if tc.(tcbState).(tsType) == ThreadState_Running then
    upd_tcbTimeSlice (if tc.(tcbTimeSlice) >? 1 then tc.(tcbTimeSlice) - 1 else CONFIG_TIME_SLICE) tc
  else tc.

(** What a tick changes: the queues and their links, the slice of the current
    thread, the scheduler action and the time left to the domain *)
Definition tick_frame (s s' : kstate) : Prop :=
  s' = upd_ksDomainTime (ksDomainTime s') (upd_ksSchedulerAction (ksSchedulerAction s')
         (upd_ksTcbs (ksTcbs s') (upd_ksReadyQueues (ksReadyQueues s') s))) /\
  forall p, unsched <$> ksTcbs s' !! p =
            unsched <$> ((if p =? ksCurThread s then tick_slice else id) <$> ksTcbs s !! p).

Lemma tick_slice_id tc : tc.(tcbState).(tsType) <> ThreadState_Running -> tick_slice tc = tc.
Proof. intros H. unfold tick_slice. by rewrite bool_decide_eq_false_2. Qed.

Lemma fmap_if_alter {A} (f : A -> A) (m : gmap Z A) k p :
  alter f k m !! p = (if p =? k then f else id) <$> m !! p.
Proof.
  destruct (Z.eqb_spec p k) as [->|]; [by rewrite lookup_alter_eq|].
  rewrite lookup_alter_ne by done. by destruct (m !! p).
Qed.

Lemma wp_timerTick s rq tc :
  sched_rep s rq -> ksTcbs s !! ksCurThread s = Some tc -> tc.(tcbState).(tcbQueued) = false ->
  ksSchedulerAction s = SchedulerAction_ResumeCurrentThread ->
  wp timerTick (fun _ s' =>
    sched_rep s' (if slice_expired tc then append_abs rq (ksCurThread s) tc else rq) /\
    ksDomainTime s' = ksDomainTime s -w 1 /\
    ksSchedulerAction s' = (if slice_expired tc || (ksDomainTime s' =? 0)
      then SchedulerAction_ChooseNewThread else SchedulerAction_ResumeCurrentThread) /\
    tick_frame s s') s.
Proof.
  intros R Hc Hq Ha. set (cur := ksCurThread s).
  unfold timerTick. wstep. wstep. wstep. eapply wp_get_tcb; [exact Hc|].
  (* the slice of the current thread *)
  wstep. apply (wp_mono _ (fun _ s1 =>
    sched_rep s1 (if slice_expired tc then append_abs rq cur tc else rq) /\
    ksDomainTime s1 = ksDomainTime s /\
    ksSchedulerAction s1 = (if slice_expired tc then SchedulerAction_ChooseNewThread
      else SchedulerAction_ResumeCurrentThread) /\ tick_frame s s1)).
  { unfold slice_expired. case_bool_decide as Er; simpl.
    - destruct (Z.gtb_spec (tcbTimeSlice tc) 1) as [Eg|Eg]; simpl.
      + apply wp_alter_tcb; [by eexists|].
        split; [by apply (sched_rep_alter s rq)|]. split; [done|split; [done|split; [by destruct s|]]].
        intros p. ksimp. rewrite fmap_if_alter. f_equal. destruct (Z.eqb_spec p (ksCurThread s)) as [->|]; [|done].
        rewrite Hc. simpl. unfold tick_slice. rewrite bool_decide_eq_true_2 by done.
        rewrite (proj2 (Z.gtb_lt _ _)) by lia. done.
      + wstep. apply wp_alter_tcb; [by eexists|].
        match goal with |- wp _ _ ?x => set (s1 := x) end.
        assert (sched_rep s1 rq) as R1 by (by apply (sched_rep_alter s rq)).
        assert (ksTcbs s1 !! cur = Some (upd_tcbTimeSlice CONFIG_TIME_SLICE tc)) as Hc1.
        { unfold s1. ksimp. by rewrite lookup_alter_eq, Hc. }
        wstep. eapply wp_mono; [by apply (wp_tcbSchedAppend s1 rq cur _ R1 Hc1)|].
        intros _ s2 [R2 F2]. eapply wp_mono; [apply wp_rescheduleRequired; [exact R2|]|].
        { intros E. exfalso. destruct F2 as [E2 _]. rewrite E2 in E. simpl in E. by rewrite Ha in E. }
        intros _ s3 (R3 & A3 & F3).
        replace (ksSchedulerAction s2) with SchedulerAction_ResumeCurrentThread in R3
          by (destruct F2 as [-> _]; done).
        split; [exact R3|]. split; [destruct F3 as [-> _], F2 as [-> _]; done|].
        split; [done|]. split.
        * destruct F3 as [-> _], F2 as [-> _]. done.
        * intros p. destruct F3 as [_ ->], F2 as [_ ->]. unfold s1. ksimp. rewrite fmap_if_alter.
          f_equal. destruct (Z.eqb_spec p (ksCurThread s)) as [->|]; [|done].
          rewrite Hc. simpl. unfold tick_slice. rewrite bool_decide_eq_true_2 by done.
          destruct (Z.gtb_spec (tcbTimeSlice tc) 1); [lia|done].
    - wstep. split; [done|]. split; [done|split; [done|split; [by destruct s|]]].
      intros p. f_equal. destruct (Z.eqb_spec p (ksCurThread s)) as [->|]; [|by destruct (ksTcbs s !! p)].
      rewrite Hc. simpl. by rewrite tick_slice_id. }
  (* the time of the domain *)
  intros _ s1 (R1 & D1 & A1 & F1). change (CONFIG_NUM_DOMAINS >? 1) with true. cbn [when].
  wstep. wstep. wstep. wstep. ksimp. rewrite D1.
  assert (forall x, sched_rep (upd_ksDomainTime x s1) (if slice_expired tc then append_abs rq cur tc else rq)) as R1'
    by (intros x; by eapply sched_rep_ext; [..|exact R1]).
  destruct (ksDomainTime s -w 1 =? 0) eqn:E0.
  - cbn [when]. eapply wp_mono; [eapply wp_rescheduleRequired; [apply R1'|]|].
    { intros E. exfalso. revert E. ksimp. rewrite A1. by destruct (slice_expired tc). }
    intros _ s2 (R2 & A2 & F2). ksimp. revert R2. ksimp. rewrite A1.
    replace (is_thread_action _) with false by (by destruct (slice_expired tc)).
    intros R2. assert (ksDomainTime s2 = ksDomainTime s -w 1) as D2 by (by destruct F2 as [-> _]).
    split; [done|]. rewrite D2, E0, orb_true_r. split; [done|split; [done|]]. split.
    + destruct F2 as [-> _], F1 as [-> _]. done.
    + intros p. destruct F2 as [_ ->], F1 as [_ <-]. done.
  - cbn [when]. wstep. ksimp. rewrite E0, orb_false_r. split; [done|split; [done|split; [done|]]].
    destruct F1 as [E1 U1]. split; [|exact U1]. rewrite E1. done.
Qed.

(** ** The properties *)

(** C3: the pointer manipulations of the ready queues refine operations on lists:
    on every state whose queues represent the lists [rq], tcbSchedEnqueue puts a
    thread that is in no queue at the head of the queue of its domain and
    priority, tcbSchedAppend at the end, tcbSchedDequeue takes a queued thread
    out; they do nothing otherwise, and change no other part of the state. *)
Theorem ready_queue_operations_refine (s : kstate) (rq : Z -> list Z) (t : Z) (tc : tcb)
    (R : sched_rep s rq) (Ht : ksTcbs s !! t = Some tc) :
  wp (tcbSchedEnqueue t) (fun _ s' => sched_rep s' (enqueue_abs rq t tc) /\ sched_frame s s') s /\
  wp (tcbSchedAppend t) (fun _ s' => sched_rep s' (append_abs rq t tc) /\ sched_frame s s') s /\
  wp (tcbSchedDequeue t) (fun _ s' => sched_rep s' (dequeue_abs rq t tc) /\ sched_frame s s') s.
Proof.
  split_and!; [by apply wp_tcbSchedEnqueue|by apply wp_tcbSchedAppend|by apply wp_tcbSchedDequeue].
Qed.

Lemma ready_queue_operations_refine_witness :
  wp (tcbSchedDequeue threadD) (fun _ s' =>
    sched_rep s' (dequeue_abs sysQ threadD (queued threadB NULL (thread running 100 0 0))) /\
    sched_frame sys s') sys.
Proof. apply (ready_queue_operations_refine sys sysQ threadD); [exact sys_sched|reflexivity]. Defined.

(** C1: schedule() does what the scheduler action says. It always returns, with
    the action ResumeCurrentThread and the queues and hardware ASIDs consistent;
    with ResumeCurrentThread it does nothing; with a thread it makes that thread
    current; with ChooseNewThread it makes current the first thread of the
    highest non-empty priority of the domain (of the next domain when the
    domain's time is over), or the idle thread. In both cases a runnable current
    thread is first put back at the head of its queue. *)
Theorem schedule_correct (s : kstate) (rq : Z -> list Z)
    (R : sched_rep s rq) (W : hwasid_wf s) (Hd : 0 <= ksCurDomain s < CONFIG_NUM_DOMAINS)
    (Hc : is_Some (ksTcbs s !! ksCurThread s))
    (Hr : forall idx t, t ∈ with_current s rq idx -> thread_ready s t)
    (Ha : is_thread_action (ksSchedulerAction s) = true ->
      ksSchedulerAction s <> ksCurThread s /\ thread_vm s (ksSchedulerAction s) /\
      exists tc, ksTcbs s !! ksSchedulerAction s = Some tc /\ tc.(tcbState).(tcbQueued) = false) :
  wp schedule (fun _ s' => hwasid_wf s' /\ run_frame s s' /\
    ksSchedulerAction s' = SchedulerAction_ResumeCurrentThread /\
    (ksSchedulerAction s = SchedulerAction_ResumeCurrentThread -> s' = s) /\
    (is_thread_action (ksSchedulerAction s) = true ->
      ksCurThread s' = ksSchedulerAction s /\ sched_rep s' (with_current s rq)) /\
    (ksSchedulerAction s = SchedulerAction_ChooseNewThread ->
      chosen_in (next_domain s) (ksIdleThread s) (with_current s rq) CONFIG_NUM_PRIORITIES s')) s.
Proof.
  destruct (is_thread_action (ksSchedulerAction s)) eqn:Ea.
  - destruct (Ha eq_refl) as (Hne & Hv & tc & Ht & Hq).
    eapply wp_mono; [by eapply wp_schedule_switch|]. intros _ s' (? & ? & ? & ? & ?).
    split_and!; try done; intros E; by rewrite E in Ea.
  - apply andb_false_iff in Ea. rewrite !negb_false_iff, !Z.eqb_eq in Ea. destruct Ea as [Ea|Ea].
    + unfold schedule. wstep. wstep. rewrite Ea. simpl. wstep. split_and!; done.
    + eapply wp_mono; [by apply (wp_schedule_choose s rq)|]. intros _ s' (? & ? & ? & ? & _).
      split_and!; try done. by rewrite Ea.
Qed.

Lemma schedule_correct_witness :
  wp schedule (fun _ s' => ksCurThread s' = threadA)
    (upd_ksSchedulerAction SchedulerAction_ChooseNewThread sys).
Proof.
  eapply wp_mono.
  - apply (schedule_correct (upd_ksSchedulerAction SchedulerAction_ChooseNewThread sys) sysQ).
    + apply (sched_rep_ext sys); [reflexivity|reflexivity|exact sys_sched].
    + apply (hwasid_wf_ext sys); [reflexivity..|exact sys_hwasid].
    + split; [discriminate|reflexivity].
    + eexists; reflexivity.
    + intros idx t Hin. apply in_with_current in Hin as [->|Hin].
      * split; [exists empty_cte; split; [reflexivity|discriminate]|]. intros tc [= <-]. reflexivity.
      * unfold sysQ, queues_of, sysQueues in Hin. destruct (decide (idx = 100)) as [->|Hne].
        -- rewrite lookup_singleton_eq in Hin. cbn in Hin.
           apply elem_of_cons in Hin as [->|Hin]; [|apply list_elem_of_singleton in Hin as ->].
           all: split; [exists empty_cte; split; [reflexivity|discriminate]|]; intros tc [= <-]; reflexivity.
        -- rewrite lookup_singleton_ne in Hin by congruence. cbn in Hin. by apply elem_of_nil in Hin.
    + discriminate.
  - intros _ s' (_ & _ & _ & _ & _ & H). destruct (H eq_refl) as [(p & t & l & Hp & E & Hh & Hc & _)|(H' & _)].
    + destruct (decide (p = 100)) as [->|Hne].
      * change (next_domain _) with 0 in E. vm_compute in E. rewrite Hc. by injection E as <- _.
      * exfalso. destruct (decide (p < 100)) as [Hlt|Hge].
        -- specialize (Hh 100 ltac:(unfold CONFIG_NUM_PRIORITIES; lia)). vm_compute in Hh. discriminate.
        -- assert (ready_queues_index (next_domain (upd_ksSchedulerAction SchedulerAction_ChooseNewThread sys)) p = p) as Ei.
           { change (next_domain _) with 0. apply (ready_queues_index_range 0 p); [done|lia]. }
           assert (t ∈ with_current (upd_ksSchedulerAction SchedulerAction_ChooseNewThread sys) sysQ p) as Hin.
           { rewrite Ei in E. rewrite E. left. }
           change (t ∈ rq_set sysQ 100 (threadA :: sysQ 100) p) in Hin.
           unfold rq_set, sysQ, queues_of, sysQueues in Hin.
           rewrite (proj2 (Z.eqb_neq p 100)), lookup_singleton_ne in Hin by lia.
           by apply elem_of_nil in Hin.
    + exfalso. specialize (H' 100 ltac:(unfold CONFIG_NUM_PRIORITIES; lia)). vm_compute in H'. discriminate.
Defined.

(** C35: setPriority takes a thread out of its queue, changes its priority and
    puts it, if it can run, at the head of the queue of the new priority; when it
    is the current thread, a new thread is chosen. The queues stay consistent,
    all other threads and the rest of the state stay as they are. *)
Theorem setPriority_requeues (s : kstate) (rq : Z -> list Z) (t prio : Z) (tc : tcb)
    (R : sched_rep s rq) (Ht : ksTcbs s !! t = Some tc) (Hp : 0 <= prio < CONFIG_NUM_PRIORITIES)
    (Hc : t = ksCurThread s -> is_thread_action (ksSchedulerAction s) = false) :
  wp (setPriority t prio) (fun _ s' =>
    sched_rep s' (requeue_abs rq t tc (upd_tcbPriority prio tc)) /\
    threads_updated s t (upd_tcbPriority prio) s' /\
    ksSchedulerAction s' = (if t =? ksCurThread s then SchedulerAction_ChooseNewThread
                            else ksSchedulerAction s) /\
    s' = upd_ksSchedulerAction (ksSchedulerAction s')
           (upd_ksTcbs (ksTcbs s') (upd_ksReadyQueues (ksReadyQueues s') s))) s.
Proof. destruct (sr_range _ _ R _ _ Ht). by apply wp_set_and_requeue. Qed.

Lemma setPriority_requeues_witness :
  wp (setPriority threadB 17) (fun _ s' =>
    sched_rep s' (requeue_abs sysQ threadB (queued NULL threadD (thread running 100 0 0))
      (queued NULL threadD (thread running 17 0 0)))) sys.
Proof.
  eapply wp_mono.
  - apply (setPriority_requeues sys sysQ threadB 17 (queued NULL threadD (thread running 100 0 0)) sys_sched);
      [reflexivity|split; [discriminate|reflexivity]|discriminate].
  - intros _ s' [H _]. exact H.
Defined.

(** C34: possibleSwitchTo, which wakes a thread, keeps the queues consistent and
    loses no thread: in the current domain, a thread of higher priority (or equal
    priority, where the caller asks for it) becomes the thread to switch to when
    the current thread was to be resumed; otherwise it is queued, together with
    the thread a pending switch named, for which a new choice is then requested. *)
Theorem possibleSwitchTo_correct (s : kstate) (rq : Z -> list Z) (target : Z) (cur t : tcb) (same : bool)
    (R : sched_rep s rq) (A : action_ok s)
    (Hc : ksTcbs s !! ksCurThread s = Some cur) (Ht : ksTcbs s !! target = Some t) :
  wp (possibleSwitchTo target same) (fun _ s' =>
    sched_rep s' (fst (switch_abs s rq target cur t same)) /\
    ksSchedulerAction s' = snd (switch_abs s rq target cur t same) /\ act_frame s s') s.
Proof. by apply wp_possibleSwitchTo. Qed.

Lemma possibleSwitchTo_correct_witness :
  wp (possibleSwitchTo threadG false) (fun _ s' => ksSchedulerAction s' = threadG) sys.
Proof.
  eapply wp_mono.
  - apply (possibleSwitchTo_correct sys sysQ threadG (thread running 100 0 0)
      (thread (blocked ThreadState_BlockedOnAsyncEvent 0 aepWait) 120 NULL NULL) false sys_sched);
      [discriminate|reflexivity|reflexivity].
  - intros _ s' (_ & E & _). exact E.
Defined.

(** *** Rounds

    What the kernel does at an interrupt of the timer: a tick, then a new choice if one was requested *)
Definition round : K unit := timerTick ;;; schedule.
Fixpoint rounds (n : nat) : K unit :=
  match n with O => ret tt | S n' => round ;;; rounds n' end.

(** The slice of a thread set to [k] *)
Definition set_slice (t k : Z) (s : kstate) : kstate := upd_ksTcbs (alter (upd_tcbTimeSlice k) t (ksTcbs s)) s.
Lemma set_slice_frame t k k' s s1 s2 :
  run_frame (set_slice t k s) s1 -> run_frame (set_slice t k' s1) s2 -> run_frame (set_slice t k' s) s2.
Proof.
  intros [E1 H1] [E2 H2]. split; [rewrite E2; unfold set_slice; rewrite E1; by destruct s|].
  intros p. rewrite H2. unfold set_slice in *. ksimp. rewrite !fmap_if_alter. specialize (H1 p). revert H1. ksimp. rewrite fmap_if_alter.
  destruct (Z.eqb_spec p t) as [->|].
  - destruct (ksTcbs s1 !! t) as [x|], (ksTcbs s !! t) as [y|]; cbn; [|done..]. intros E. apply Some_inj in E. apply (f_equal Some).
    change (upd_tcbTimeSlice k' (unsched x) = upd_tcbTimeSlice k' (unsched y)).
    change (unsched x = upd_tcbTimeSlice k (unsched y)) in E. by rewrite E.
  - by destruct (ksTcbs s1 !! p), (ksTcbs s !! p).
Qed.

Lemma sched_rep_same s rq rq' : (forall i, rq i = rq' i) -> sched_rep s rq -> sched_rep s rq'.
Proof.
  intros E [H0 Hr Hq Hm]. split; [done|done|intros i; rewrite <- E; apply Hq|intros i p; rewrite <- E; apply Hm].
Qed.

Lemma chosen_in_same dom idle rq rq' n s : (forall i, rq i = rq' i) -> chosen_in dom idle rq n s -> chosen_in dom idle rq' n s.
Proof.
  intros E [(p & t & l & Hp & Eq & Hn & Hc & R)|(Hn & Hc & R)]; [left; exists p, t, l|right]; cbv zeta.
  - split; [done|]. split; [by rewrite <- E|]. split; [intros q Hq; rewrite <- E; by apply Hn|]. split; [done|].
    eapply sched_rep_same; [|exact R]. intros i. unfold rq_set. by rewrite E.
  - split; [intros q Hq; rewrite <- E; by apply Hn|]. split; [done|]. by eapply sched_rep_same.
Qed.

Section round_robin.
Context (p : Z) (Hp : 0 <= p < CONFIG_NUM_PRIORITIES).
(** The queue of the priority [p] in the only domain of the schedule *)
Abbreviation idx := (ready_queues_index 0 p).

(** The thread [cur] is on, with the priority [p]; the threads of [rq] are ready, none with a higher priority. The
    domain has one tick, as in every state between kernel entries. *)
Record on_turn (rq : Z -> list Z) (cur : Z) (s : kstate) : Prop := {
  ot_rep : sched_rep s rq;
  ot_hwasid : hwasid_wf s;
  ot_cur : ksCurThread s = cur;
  ot_action : ksSchedulerAction s = SchedulerAction_ResumeCurrentThread;
  ot_domain : ksCurDomain s = 0;
  ot_time : ksDomainTime s = 1;
  ot_highest : forall p', p < p' < CONFIG_NUM_PRIORITIES -> rq (ready_queues_index 0 p') = [];
  ot_ready : forall i t, t ∈ rq i -> thread_ready s t;
  ot_vm : thread_vm s cur;
  ot_thread : exists tc, ksTcbs s !! cur = Some tc /\ tc.(tcbState).(tcbQueued) = false /\ tcb_index tc = idx }.
(** It is running and has [n] ticks left. *)
Definition has_slice (cur n : Z) (s : kstate) : Prop :=
  exists tc, ksTcbs s !! cur = Some tc /\ tc.(tcbState).(tsType) = ThreadState_Running /\ tc.(tcbTimeSlice) = n.

Lemma tick_run_frame s s' tc : tick_frame s s' -> ksTcbs s !! ksCurThread s = Some tc -> tc.(tcbState).(tsType) = ThreadState_Running ->
  run_frame (set_slice (ksCurThread s) (if tc.(tcbTimeSlice) >? 1 then tc.(tcbTimeSlice) - 1 else CONFIG_TIME_SLICE) s) s'.
Proof.
  intros [E H] Hc Hr. split; [rewrite E; by destruct s|]. intros q. rewrite H. unfold set_slice. ksimp. rewrite fmap_if_alter.
  destruct (Z.eqb_spec q (ksCurThread s)) as [->|]; [|done]. rewrite Hc. cbn. unfold tick_slice. by rewrite Hr, bool_decide_eq_true_2.
Qed.


Lemma thread_ready_slice c k s s' t : run_frame (set_slice c k s) s' -> thread_ready s t -> thread_ready s' t.
Proof using.
  intros [E H] Hr. apply (thread_ready_ext (set_slice c k s)); [by rewrite E|exact H|].
  destruct Hr as [Hv Hr]. split; [exact Hv|]. intros tc. unfold set_slice. ksimp. rewrite fmap_if_alter.
  destruct (ksTcbs s !! t) as [x|] eqn:Ex; [|done]. cbn. intros [= <-]. specialize (Hr x eq_refl). by destruct (t =? c).
Qed.
Lemma slice_index c k s s' t tc : run_frame (set_slice c k s) s' -> ksTcbs s !! t = Some tc ->
  exists tc', ksTcbs s' !! t = Some tc' /\ tcb_index tc' = tcb_index tc /\ tsType (tcbState tc') = tsType (tcbState tc) /\
    tcbTimeSlice tc' = if t =? c then k else tcbTimeSlice tc.
Proof using.
  intros [_ H] Ht. specialize (H t). revert H. unfold set_slice. ksimp. rewrite fmap_if_alter, Ht. cbn.
  destruct (ksTcbs s' !! t) as [tc'|]; [|done]. cbn. intros U%Some_inj. exists tc'. split; [done|].
  rewrite (unsched_index _ _ U), (unsched_tsType _ _ U). apply (f_equal tcbTimeSlice) in U. cbn in U. rewrite U. by destruct (t =? c).
Qed.
(** The choice, when only the queue [idx] and lower ones hold threads *)
Lemma chosen_head idle rq q s : (forall p', p < p' < CONFIG_NUM_PRIORITIES -> rq (ready_queues_index 0 p') = []) -> q <> [] ->
  chosen_in 0 idle (rq_set rq idx q) CONFIG_NUM_PRIORITIES s ->
  exists t l, q = t :: l /\ ksCurThread s = t /\ sched_rep s (rq_set rq idx l).
Proof using Hp.
  intros Hh Hq. assert (forall p', 0 <= p' < CONFIG_NUM_PRIORITIES -> (ready_queues_index 0 p' =? idx) = (p' =? p)) as Hi.
  { intros p' H. destruct (ready_queues_index_range 0 p' ltac:(done) H) as [-> _], (ready_queues_index_range 0 p ltac:(done) Hp) as [-> _]. lia. }
  unfold chosen_in. cbv zeta. intros [(p' & t & l & Hp' & E & Hn & Hc & R)|[Hn _]].
  - assert (p' = p) as ->.
    { unfold rq_set in E, Hn. destruct (Z.lt_trichotomy p' p) as [Hlt|[|Hlt]]; [|done|].
      - specialize (Hn p). rewrite Z.eqb_refl in Hn. by rewrite Hn in Hq by lia.
      - rewrite Hi, (proj2 (Z.eqb_neq _ _)), Hh in E by lia. done. }
    unfold rq_set at 1 in E. rewrite Z.eqb_refl in E. exists t, l. split_and!; [done..|]. eapply sched_rep_same; [|exact R].
    intros i. unfold rq_set. by destruct (i =? idx).
  - specialize (Hn p Hp). unfold rq_set in Hn. by rewrite Z.eqb_refl in Hn.
Qed.

(** The queue of the priority after a tick that leaves [n - 1] ticks of the slice *)
Definition queue_after (rq : Z -> list Z) (cur n : Z) : list Z := if n >? 1 then cur :: rq idx else rq idx ++ [cur].
Lemma in_queue_after rq cur n t : t ∈ queue_after rq cur n <-> t = cur \/ t ∈ rq idx.
Proof using Hp. unfold queue_after. destruct (n >? 1); rewrite ?elem_of_cons, ?elem_of_app, ?list_elem_of_singleton; tauto. Qed.
Lemma queue_after_not_nil rq cur n : queue_after rq cur n <> [].
Proof using Hp. unfold queue_after. destruct (n >? 1); [done|]. by destruct (rq idx). Qed.
Lemma wp_tick rq cur n s : on_turn rq cur s -> has_slice cur n s -> 0 < n ->
  wp timerTick (fun _ s' => run_frame (set_slice cur (if n >? 1 then n - 1 else CONFIG_TIME_SLICE) s) s' /\
    ksSchedulerAction s' = SchedulerAction_ChooseNewThread /\ ksDomainTime s' = 0 /\ ksCurDomain s' = 0 /\ ksCurThread s' = cur /\
    hwasid_wf s' /\ exists rq', sched_rep s' rq' /\ (forall i, i <> idx -> rq' i = rq i) /\ (forall i t, t ∈ rq' i -> t = cur \/ t ∈ rq i) /\
      forall i, with_current s' rq' i = rq_set rq idx (queue_after rq cur n) i) s.
Proof using Hp.
  intros [R W <- Ha Hd Ht _ _ _ (tc & Hc & Hq & Hi)] (tc' & Hc' & Hr & Hn) Hp0. assert (tc' = tc) as -> by congruence. clear Hc'.
  eapply wp_mono; [by eapply wp_timerTick|]. intros _ s' (R' & D' & A' & F'). rewrite Ht in D'. change (1 -w 1) with 0 in D'.
  rewrite D', Z.eqb_refl, orb_true_r in A'. pose proof (tick_run_frame _ _ _ F' Hc Hr) as F. rewrite Hn in F. split; [exact F|].
  destruct F' as [E' _]. split; [done|]. split; [done|]. split; [by rewrite E'|]. split; [by rewrite E'|].
  split; [by apply (hwasid_wf_ext s); try (by rewrite E')|]. eexists. split; [exact R'|].
  destruct (slice_index _ _ _ _ _ _ F Hc) as (tc' & Hc' & Hi' & Hr' & _).
  assert (ksCurThread s' = ksCurThread s) as Ec by (by rewrite E').
  unfold with_current. rewrite Ec, Hc', Hr', Hr. cbn [isRunnable_ts]. unfold enqueue_abs. rewrite Hi', Hi.
  pose proof (queued_iff _ _ _ _ R' Hc') as Hm. rewrite Hi', Hi in Hm. revert R' Hm. unfold slice_expired, queue_after, append_abs.
  rewrite Hr, Hn, Hq, Hi, bool_decide_eq_true_2 by done. destruct (n >? 1); cbn [andb negb]; intros R' Hm.
  - assert (tcbQueued (tcbState tc') = false) as ->.
    { destruct (tcbQueued (tcbState tc')); [|done]. exfalso. apply (sched_rep_unqueued _ _ idx _ _ R Hc Hq). by apply Hm. }
    split_and!; auto.
  - unfold rq_set at 1 in Hm. rewrite Z.eqb_refl in Hm. rewrite (proj2 Hm) by (apply elem_of_app; right; left).
    split; [|split; [|done]].
    + intros i Hi0. unfold rq_set. by rewrite (proj2 (Z.eqb_neq _ _)).
    + intros i t. unfold rq_set. destruct (Z.eqb_spec i idx) as [->|]; [|by right]. rewrite elem_of_app, list_elem_of_singleton. tauto.
Qed.

(** Who is on after a choice *)
Lemma on_turn_next rq cur k s s' t l n : on_turn rq cur s -> run_frame (set_slice cur k s) s' -> hwasid_wf s' ->
  ksCurThread s' = t -> ksSchedulerAction s' = SchedulerAction_ResumeCurrentThread -> ksCurDomain s' = 0 -> ksDomainTime s' = 1 ->
  queue_after rq cur n = t :: l -> thread_ready s cur -> sched_rep s' (rq_set rq idx l) -> on_turn (rq_set rq idx l) t s'.
Proof using Hp.
  intros [R W Ec Ha Hd Ht Hh Hr Hv (tc & Hc & Hq & Hi)] F W' Ec' Ha' Hd' Ht' E Hrc R'.
  assert (forall x, x ∈ queue_after rq cur n -> thread_ready s' x) as Hr'.
  { intros x [->|Hx]%in_queue_after; eapply thread_ready_slice; [exact F|done|exact F|by eapply Hr]. }
  assert (forall x, x ∈ queue_after rq cur n -> exists tx, ksTcbs s !! x = Some tx /\ tcb_index tx = idx) as Hx.
  { intros x [->|Hx]%in_queue_after; [eauto|]. destruct (sched_rep_in s rq idx x R Hx) as (tx & ? & _ & ?). eauto. }
  assert (NoDup (queue_after rq cur n)) as ND.
  { pose proof (queue_rep_NoDup _ _ _ (sr_queue _ _ R idx)) as ND. pose proof (sched_rep_unqueued _ _ idx _ _ R Hc Hq) as Hn.
    unfold queue_after. destruct (n >? 1); [by apply NoDup_cons|]. apply NoDup_app. split; [done|]. split; [|by apply NoDup_singleton].
    intros x Hx0 ->%list_elem_of_singleton. done. }
  rewrite E in Hr', Hx, ND. destruct (Hx t ltac:(left)) as (tx & Htx & Hix). destruct (slice_index _ _ _ _ _ _ F Htx) as (ty & Hty & Hiy & _).
  split; try done.
  - intros p' Hp'. unfold rq_set. destruct (ready_queues_index_range 0 p' ltac:(done) ltac:(lia)) as [E1 _].
    destruct (ready_queues_index_range 0 p ltac:(done) Hp) as [E2 _]. rewrite (proj2 (Z.eqb_neq _ _)) by lia. by apply Hh.
  - intros i x. unfold rq_set. destruct (Z.eqb_spec i idx) as [->|]; [intros Hin; apply Hr'; by right|].
    intros Hin. eapply thread_ready_slice; [exact F|by eapply Hr].
  - apply (Hr' t). left.
  - exists ty. split; [done|]. split; [|by rewrite Hiy]. destruct (tcbQueued (tcbState ty)) eqn:Eq; [|done]. exfalso.
    apply (queued_iff _ _ _ _ R' Hty) in Eq. rewrite Hiy, Hix in Eq. unfold rq_set in Eq. rewrite Z.eqb_refl in Eq.
    by apply NoDup_cons in ND as [? _].
Qed.
Lemma wp_round rq cur n s : on_turn rq cur s -> has_slice cur n s -> 0 < n ->
  wp round (fun _ s' => run_frame (set_slice cur (if n >? 1 then n - 1 else CONFIG_TIME_SLICE) s) s' /\
    exists t l, queue_after rq cur n = t :: l /\ on_turn (rq_set rq idx l) t s') s.
Proof using Hp.
  intros T Hs Hn. pose proof T as [R W Ec Ha Hd Ht Hh Hr Hv _]. destruct Hs as (tc & Hc & Hst & Hsl) eqn:Es.
  assert (thread_ready s cur) as Hrc by (split; [exact Hv|]; intros tc' Hc'; rewrite Hc in Hc'; injection Hc' as <-; by rewrite Hst).
  unfold round. wstep. eapply wp_mono; [by eapply wp_tick|]. clear Es.
  intros _ s1 (F1 & A1 & T1 & D1 & C1 & W1 & rq1 & R1 & Ho & Hin & Hw).
  assert (next_domain s1 = 0) as Hnd by (unfold next_domain; rewrite T1; cbn [Z.eqb]; cbv zeta; by rewrite next_schedule_index).
  assert (next_time s1 = 1) as Hnt by (unfold next_time; by rewrite T1).
  eapply wp_mono; [apply (wp_schedule_choose s1 rq1); try done|].
  - by rewrite D1.
  - rewrite C1. destruct (slice_index _ _ _ _ _ _ F1 Hc) as (? & ? & _). eauto.
  - intros i t. rewrite Hw. unfold rq_set. intros Hin'. eapply thread_ready_slice; [exact F1|].
    destruct (i =? idx); [apply in_queue_after in Hin' as [->|Hin']; [done|]|]; by eapply Hr.
  - intros _ s2 (W2 & F2 & A2 & Hch & D2 & T2). rewrite Hnd in Hch, D2. rewrite Hnt in T2. pose proof (run_frame_trans _ _ _ F1 F2) as F.
    split; [exact F|].
    assert (chosen_in 0 (ksIdleThread s1) (rq_set rq idx (queue_after rq cur n)) CONFIG_NUM_PRIORITIES s2) as Hch'.
    { by eapply chosen_in_same. }
    destruct (chosen_head _ _ _ _ Hh (queue_after_not_nil _ _ _) Hch') as (t & l & E & C2 & R2).
    exists t, l. split; [done|]. by eapply on_turn_next.
Qed.
End round_robin.

(** A slice of [n] ticks *)
Lemma on_turn_same p rq rq' cur s : (forall i, rq i = rq' i) -> on_turn p rq cur s -> on_turn p rq' cur s.
Proof.
  intros E [R ? ? ? ? ? Hh Hr ? ?]. split; try done; [by eapply sched_rep_same|intros p' Hp; rewrite <- E; auto|intros i t; rewrite <- E; apply Hr].
Qed.
Lemma has_slice_frame cur k s s' tc : ksTcbs s !! cur = Some tc -> tc.(tcbState).(tsType) = ThreadState_Running ->
  run_frame (set_slice cur k s) s' -> has_slice cur k s'.
Proof.
  intros Hc Hr F. destruct (slice_index _ _ _ _ _ _ F Hc) as (tc' & ? & _ & ? & Hk). rewrite Z.eqb_refl in Hk. exists tc'. split_and!; congruence.
Qed.
Lemma wp_round_before p rq cur n s : 0 <= p < CONFIG_NUM_PRIORITIES -> on_turn p rq cur s -> has_slice cur n s -> 1 < n ->
  wp round (fun _ s' => run_frame (set_slice cur (n - 1) s) s' /\ on_turn p rq cur s' /\ has_slice cur (n - 1) s') s.
Proof.
  intros Hp T Hs Hn. eapply wp_mono; [eapply (wp_round p); [done|exact T|exact Hs|lia]|]. intros _ s' (F & t & l & E & T').
  unfold queue_after in *. rewrite (proj2 (Z.gtb_lt n 1)) in * by lia. injection E as <- <-. split; [done|]. split.
  - eapply on_turn_same; [|exact T']. intros i. unfold rq_set. by destruct (Z.eqb_spec i (ready_queues_index 0 p)) as [->|].
  - destruct Hs as (tc & ? & ? & _). by eapply has_slice_frame.
Qed.
Lemma wp_rounds_before p rq cur k n s : 0 <= p < CONFIG_NUM_PRIORITIES -> on_turn p rq cur s -> has_slice cur n s -> Z.of_nat k < n ->
  wp (rounds k) (fun _ s' => run_frame (set_slice cur (n - Z.of_nat k) s) s' /\ on_turn p rq cur s' /\ has_slice cur (n - Z.of_nat k) s') s.
Proof.
  intros Hp. revert n s. induction k as [|k IH]; intros n s T Hs Hk; cbn [rounds].
  - wstep. rewrite Z.sub_0_r. split; [|done]. destruct Hs as (tc & Hc & _ & <-). split; [by destruct s|]. intros q.
    unfold set_slice. ksimp. rewrite fmap_if_alter. destruct (Z.eqb_spec q cur) as [->|]; [|by destruct (ksTcbs s !! q)]. rewrite Hc. cbn. by destruct tc.
  - wstep. eapply wp_mono; [eapply wp_round_before; try done; lia|]. intros _ s1 (F1 & T1 & S1). cbn beta.
    eapply wp_mono; [apply (IH _ _ T1 S1); lia|]. intros _ s2 (F2 & T2 & S2). replace (n - 1 - Z.of_nat k) with (n - Z.of_nat (S k)) in * by lia.
    split; [exact (set_slice_frame _ _ _ _ _ _ F1 F2)|split; [exact T2|exact S2]].
Qed.
Lemma wp_rounds_snoc k (Q : unit -> kstate -> Prop) s : wp (rounds k) (fun _ s' => wp round Q s') s -> wp (rounds (S k)) Q s.
Proof.
  revert s. induction k as [|k IH]; intros s H; cbn [rounds].
  - apply wp_bind. eapply wp_mono; [exact H|]. intros [] s' H'. by apply wp_ret.
  - apply wp_bind. unfold wp in H |- *. cbn [rounds] in H. unfold bind in H.
    destruct (round s) as [[] s1|] eqn:E; [|done]. by apply IH.
Qed.

(** C36: round robin: take a thread with [n] ticks left in its slice that runs with the highest priority of its domain
    that has ready threads. For fewer than [n] interrupts of the timer - each a timerTick and a schedule - it stays
    current, with the queues as they were and [n - k] ticks left after [k]. At the [n]-th it is put at the
    end of the queue of its priority with a fresh slice and the head of that queue takes its turn. Each time
    the domain's one tick is used up and renewed; the threads but for the slice, and all that scheduling has nothing to do with, stay. *)
Theorem timer_round_robin (s : kstate) (rq : Z -> list Z) (n : nat) (cur p : Z)
    (Hp : 0 <= p < CONFIG_NUM_PRIORITIES) (T : on_turn p rq cur s) (Hs : has_slice cur (Z.of_nat n) s) (Hn : (0 < n)%nat) :
  let idx := ready_queues_index 0 p in
  (forall k, (k < n)%nat -> wp (rounds k) (fun _ s' => on_turn p rq cur s' /\ has_slice cur (Z.of_nat n - Z.of_nat k) s' /\
    run_frame (set_slice cur (Z.of_nat n - Z.of_nat k) s) s') s) /\
  wp (rounds n) (fun _ s' => run_frame (set_slice cur CONFIG_TIME_SLICE s) s' /\
    exists t l, rq idx ++ [cur] = t :: l /\ on_turn p (rq_set rq idx l) t s') s.
Proof.
  intros idx. split.
  - intros k Hk. eapply wp_mono; [apply (wp_rounds_before p rq cur k (Z.of_nat n)); try done; lia|]. intros _ s' (? & ? & ?). done.
  - destruct n as [|n]; [lia|]. apply wp_rounds_snoc. eapply wp_mono; [apply (wp_rounds_before p rq cur n (Z.of_nat (S n))); try done; lia|].
    intros _ s1 (F1 & T1 & S1). replace (Z.of_nat (S n) - Z.of_nat n) with 1 in * by lia.
    eapply wp_mono; [by eapply (wp_round p)|]. intros _ s2 (F2 & t & l & E & T2). split; [exact (set_slice_frame _ _ _ _ _ _ F1 F2)|]. exists t, l. split; [exact E|exact T2].
Qed.

(** Thread A has its slice before it, B and D wait in its queue. *)
Lemma sys_ready i t : t ∈ sysQ i -> thread_ready sys t.
Proof.
  unfold sysQ, queues_of, sysQueues. destruct (decide (i = 100)) as [->|Hne].
  - rewrite lookup_singleton_eq. cbn. intros Hin; apply elem_of_cons in Hin as [->|Hin]; [|apply list_elem_of_singleton in Hin as ->];
      (split; [exists empty_cte; split; [reflexivity|discriminate]|]; intros tc [= <-]; reflexivity).
  - rewrite lookup_singleton_ne by congruence. cbn. intros Hin. by apply elem_of_nil in Hin.
Qed.
Lemma sys_on_turn : on_turn 100 sysQ threadA sys.
Proof.
  split; [exact sys_sched|exact sys_hwasid|reflexivity..| |exact sys_ready| |].
  - intros p' Hp. destruct (ready_queues_index_range 0 p' ltac:(done) ltac:(lia)) as [-> _]. unfold sysQ, queues_of, sysQueues.
    rewrite lookup_singleton_ne; [done|]. change (0 * CONFIG_NUM_PRIORITIES) with 0. lia.
  - exists empty_cte. split; [reflexivity|discriminate].
  - eexists. split; [reflexivity|]. split; reflexivity.
Qed.
Lemma timer_round_robin_witness :
  wp (rounds 4) (fun _ s' => ksCurThread s' = threadA /\ has_slice threadA 1 s') sys /\
  wp (rounds 5) (fun _ s' => ksCurThread s' = threadB /\ sched_rep s' (rq_set sysQ 100 [threadD; threadA])) sys.
Proof.
  destruct (timer_round_robin sys sysQ 5 threadA 100) as [H4 H5].
  - split; [discriminate|reflexivity].
  - exact sys_on_turn.
  - eexists. split; [reflexivity|]. split; reflexivity.
  - lia.
  - split.
    + eapply wp_mono; [apply (H4 4%nat); lia|]. intros _ s' (T & S & _). split; [exact (ot_cur _ _ _ _ T)|exact S].
    + eapply wp_mono; [exact H5|]. intros _ s' (_ & t & l & E & T). change (sysQ (ready_queues_index 0 100) ++ [threadA]) with [threadB; threadD; threadA] in E.
      injection E as <- <-. split; [exact (ot_cur _ _ _ _ T)|exact (ot_rep _ _ _ _ T)].
Defined.

