(* ===== verification/MdbSpec.v ===== *)
(** * Properties of the mapping database

    What the operations on capability slots do to the derivation lists, the flags
    and the other slots. *)
From stdpp Require Import base list gmap.
From Stdlib Require Import ZArith Lia.
From S2P Require Import Prelude.
From S2P Require Import Structures.
From S2P Require Import KernelState.
From S2P Require Import DList.
From S2P Require Import VSpace.
From S2P Require Import MDB.
From S2P Require Import System.

(** A capability inserted and deleted again: the list is as before. *)
#[global] Instance ctes_frame_preorder : PreOrder ctes_frame.
Proof.
  split; [intros s; by destruct s|]. intros s1 s2 s3 E1 E2. unfold ctes_frame in *. by rewrite E2, E1.
Qed.

(** What every operation leaves: other capabilities and their flags *)
Definition others_kept (s s' : kstate) (touched : list Z) (moved : list Z) : Prop :=
  forall p, p ∉ touched ->
    cte_cap <$> ksCtes s' !! p = cte_cap <$> ksCtes s !! p /\
    mdb_flags <$> ksCtes s' !! p = mdb_flags <$> ksCtes s !! p /\
    (p ∉ moved -> ksCtes s' !! p = ksCtes s !! p).

(** C5: cteInsert links the new capability right behind its parent in the
    derivation list, with the flags newCapIsRevocable computes; an untyped parent
    covered by the new capability is marked full; every other slot keeps its
    capability and flags, and slots outside the list are untouched. *)
Theorem cteInsert_links (s : kstate) (l1 l2 : list Z) (src dest : Z) (newCap : cap) (c : cte) (r : bool)
    (W : slots_wf s) (L : mdb_chain s (l1 ++ src :: l2))
    (Hs : ksCtes s !! src = Some c) (Hd : ksCtes s !! dest = Some (mk_cte Cap_null nullMDBNode))
    (Hne : src <> dest) (Hr : newCapIsRevocable newCap c.(cte_cap) s = Ret r s) :
  wp (cteInsert newCap src dest) (fun _ s' => ctes_frame s s' /\
    mdb_chain s' (l1 ++ src :: dest :: l2) /\
    ksCtes s' !! dest = Some (mk_cte newCap (mk_mdb_node (hd NULL l2) r r src)) /\
    ksCtes s' !! src = Some (mk_cte (full_if_untyped c.(cte_cap) newCap)
      (upd_mdbNext dest c.(cteMDBNode))) /\
    others_kept s s' [src; dest] l2) s.
Proof.
  eapply wp_mono; [by eapply wp_cteInsert|]. intros _ s' (F & L' & D' & S' & O). split_and!; try done.
  intros p Hp. apply O; set_solver.
Qed.

Lemma cteInsert_links_witness :
  wp (cteInsert (Cap_endpoint 9 false true true epSend) (slotAt 1) (slotAt 7))
    (fun _ s' => mdb_chain s' [slotAt 0; slotAt 1; slotAt 7; slotAt 2]) sys.
Proof.
  eapply wp_mono.
  - apply (cteInsert_links sys [slotAt 0] [slotAt 2] (slotAt 1) (slotAt 7)
      (Cap_endpoint 9 false true true epSend)
      (mk_cte (Cap_endpoint 0 true true true epSend) (mk_mdb_node (slotAt 2) true true (slotAt 0))) true
      sys_slots sys_chain); [reflexivity|reflexivity|discriminate|reflexivity].
  - intros _ s' (_ & H & _). exact H.
Defined.

(** cteMove puts the destination slot in the source's place of the derivation
    list, with its flags, and empties the source. *)
Lemma cteMove_links (s : kstate) (l1 l2 : list Z) (src dest : Z) (newCap : cap) (c : cte)
    (W : slots_wf s) (L : mdb_chain s (l1 ++ src :: l2))
    (Hs : ksCtes s !! src = Some c) (Hd : ksCtes s !! dest = Some (mk_cte Cap_null nullMDBNode))
    (Hne : src <> dest) :
  wp (cteMove newCap src dest) (fun _ s' => ctes_frame s s' /\
    mdb_chain s' (l1 ++ dest :: l2) /\
    ksCtes s' !! src = Some (mk_cte Cap_null nullMDBNode) /\
    ksCtes s' !! dest = Some (mk_cte newCap c.(cteMDBNode)) /\
    others_kept s s' [src; dest] (l1 ++ l2)) s.
Proof.
  eapply wp_mono; [by eapply wp_cteMove|]. intros _ s' (F & L' & D' & S' & O). split_and!; try done.
  intros p Hp. apply O; set_solver.
Qed.

Lemma cteMove_links_witness :
  wp (cteMove (Cap_endpoint 0 true true true epSend) (slotAt 1) (slotAt 7))
    (fun _ s' => mdb_chain s' [slotAt 0; slotAt 7; slotAt 2]) sys.
Proof.
  eapply wp_mono.
  - apply (cteMove_links sys [slotAt 0] [slotAt 2] (slotAt 1) (slotAt 7)
      (Cap_endpoint 0 true true true epSend)
      (mk_cte (Cap_endpoint 0 true true true epSend) (mk_mdb_node (slotAt 2) true true (slotAt 0)))
      sys_slots sys_chain); [reflexivity|reflexivity|discriminate].
  - intros _ s' (_ & H & _). exact H.
Defined.

(** C6: cteSwap exchanges two slots in every derivation list, wherever they are
    (also when they are neighbours): the new list is the old one with the two
    addresses exchanged, the flags move with the slots, the capabilities given as
    arguments are stored, and all links stay mutual. *)
Theorem cteSwap_renames (s : kstate) (la lb : list Z) (slot1 slot2 : Z) (cap1 cap2 : cap) (c1 c2 : cte)
    (W : slots_wf s) (M : mdb_linked s)
    (La : mdb_chain s la) (H1 : slot1 ∈ la) (Lb : mdb_chain s lb) (H2 : slot2 ∈ lb)
    (E1 : ksCtes s !! slot1 = Some c1) (E2 : ksCtes s !! slot2 = Some c2) (Hne : slot1 <> slot2) :
  wp (cteSwap cap1 slot1 cap2 slot2) (fun _ s' => ctes_frame s s' /\ mdb_linked s' /\
    (forall l, mdb_chain s l -> mdb_chain s' (swap_addr slot1 slot2 <$> l)) /\
    (forall p, mdb_flags <$> ksCtes s' !! swap_addr slot1 slot2 p = mdb_flags <$> ksCtes s !! p) /\
    cte_cap <$> ksCtes s' !! slot1 = Some cap2 /\ cte_cap <$> ksCtes s' !! slot2 = Some cap1 /\
    forall p, p <> slot1 -> p <> slot2 -> cte_cap <$> ksCtes s' !! p = cte_cap <$> ksCtes s !! p) s.
Proof. exact (wp_cteSwap s la lb slot1 slot2 cap1 cap2 c1 c2 W M La H1 Lb H2 E1 E2 Hne). Qed.

Lemma cteSwap_renames_witness :
  wp (cteSwap Cap_null (slotAt 1) Cap_irq_control (slotAt 2))
    (fun _ s' => mdb_chain s' [slotAt 0; slotAt 2; slotAt 1]) sys.
Proof.
  eapply wp_mono.
  - apply (cteSwap_renames sys [slotAt 0; slotAt 1; slotAt 2] [slotAt 0; slotAt 1; slotAt 2]
      (slotAt 1) (slotAt 2) Cap_null Cap_irq_control
      (mk_cte (Cap_endpoint 0 true true true epSend) (mk_mdb_node (slotAt 2) true true (slotAt 0)))
      (mk_cte (Cap_endpoint 5 false true false epSend) (mk_mdb_node NULL false true (slotAt 1)))
      sys_slots sys_linked sys_chain).
    + apply (bool_decide_unpack (slotAt 1 ∈ _)). vm_compute. exact I.
    + exact sys_chain.
    + apply (bool_decide_unpack (slotAt 2 ∈ _)). vm_compute. exact I.
    + reflexivity.
    + reflexivity.
    + discriminate.
  - intros _ s' (_ & _ & H & _). exact (H _ sys_chain).
Defined.

(** *** Emptying a slot *)
(** The state after the handler of an interrupt is gone: inactive in the table, masked at the controller *)
Definition irq_deleted (irq : Z) (s : kstate) : kstate :=
  upd_ksHw (upd_hw_log (hw_log (ksHw s) ++ [HwEnableClr (irq / 32) (BIT (irq &w 0x1f))]) (ksHw s))
    (upd_intStateIRQTable (<[irq := IRQInactive]> (intStateIRQTable s)) s).
Definition without_handler (irq : Z) (s : kstate) : kstate := if irq =? irqInvalid then s else irq_deleted irq s.
Lemma deletedIRQHandler_eq irq s : 0 <= irq <= maxIRQ -> deletedIRQHandler irq s = Ret tt (irq_deleted irq s).
Proof.
  intros H. unfold deletedIRQHandler, setIRQState, get_irq_state. by rewrite (proj2 (Z.leb_le 0 irq)), (proj2 (Z.leb_le irq maxIRQ)) by lia.
Qed.
Lemma get_cte_eq p c s : ksCtes s !! p = Some c -> get_cte p s = Ret c s.
Proof. unfold get_cte, bind, get. by intros ->. Qed.
(** The handler is deleted after the slot is emptied. *)
Lemma emptySlot_irq slot irq c s : ksCtes s !! slot = Some c -> c.(cte_cap) <> Cap_null ->
  emptySlot slot irq s = (emptySlot slot irqInvalid ;;; when (negb (irq =? irqInvalid)) (deletedIRQHandler irq)) s.
Proof.
  intros Hs Hn. unfold emptySlot, bind. rewrite (get_cte_eq slot c s Hs).
  rewrite bool_decide_false by done. cbn [negb].
  repeat match goal with |- match ?m ?x with _ => _ end = _ => destruct (m x); [|done] end. done.
Qed.
Lemma wp_emptySlot_irq slot irq c Q s : ksCtes s !! slot = Some c -> c.(cte_cap) <> Cap_null ->
  wp (emptySlot slot irqInvalid ;;; when (negb (irq =? irqInvalid)) (deletedIRQHandler irq)) Q s -> wp (emptySlot slot irq) Q s.
Proof. intros Hs Hn. unfold wp. by rewrite (emptySlot_irq _ _ c). Qed.
Lemma emptySlot_null slot irq c s : ksCtes s !! slot = Some c -> c.(cte_cap) = Cap_null -> emptySlot slot irq s = Ret tt s.
Proof.
  intros Hs Hn. unfold emptySlot, bind. rewrite (get_cte_eq slot c s Hs).
  by rewrite Hn.
Qed.

(** C32: emptySlot takes a slot out of the derivation list and clears it; the next
    capability of the list inherits the mark of a first badged one. With an interrupt as
    second argument, whose handler goes with the capability, that becomes inactive in the table and is masked
    at the controller; nothing else changes. A slot that is empty already is left as it is. *)
Theorem emptySlot_unlinks (s : kstate) (l1 l2 : list Z) (slot irq : Z) (c : cte)
    (W : slots_wf s) (L : mdb_chain s (l1 ++ slot :: l2))
    (Hs : ksCtes s !! slot = Some c) (Hn : c.(cte_cap) <> Cap_null) (Hi : irq = irqInvalid \/ 0 <= irq <= maxIRQ) :
  wp (emptySlot slot irq) (fun _ s' => s' = upd_ksCtes (ksCtes s') (without_handler irq s) /\
    mdb_chain s' (l1 ++ l2) /\
    ksCtes s' !! slot = Some (mk_cte Cap_null nullMDBNode) /\
    forall p, p <> slot ->
      cte_cap <$> ksCtes s' !! p = cte_cap <$> ksCtes s !! p /\
      mdb_flags <$> ksCtes s' !! p =
        mdb_flags <$> ((if p =? hd NULL l2 then inherit_badged c.(cteMDBNode).(mdbFirstBadged)
                        else id) <$> ksCtes s !! p) /\
      (p ∉ l1 ++ l2 -> ksCtes s' !! p = ksCtes s !! p)) s /\
  forall slot0 c0, ksCtes s !! slot0 = Some c0 -> c0.(cte_cap) = Cap_null -> emptySlot slot0 irq s = Ret tt s.
Proof.
  split; [|intros ? ?; apply emptySlot_null].
  eapply wp_emptySlot_irq; [exact Hs|exact Hn|].
  apply wp_bind. eapply wp_mono; [by eapply wp_emptySlot|]. intros _ s' (F & Hl & Hc & O). unfold without_handler.
  destruct (Z.eqb_spec irq irqInvalid) as [|Hq]; cbn [negb when]; [by apply wp_ret|].
  unfold wp. rewrite deletedIRQHandler_eq by tauto. split; [by rewrite F|]. split; [exact Hl|]. split; [exact Hc|exact O].
Qed.

(** Interrupt 40 loses its handler. *)
Lemma emptySlot_unlinks_witness :
  wp (emptySlot (slotAt 1) 40) (fun _ s' => mdb_chain s' [slotAt 0; slotAt 2] /\
    intStateIRQTable s' !! 40 = Some IRQInactive /\ last (hw_log (ksHw s')) = Some (HwEnableClr 1 256)) sys.
Proof.
  eapply wp_mono.
  - apply (emptySlot_unlinks sys [slotAt 0] [slotAt 2] (slotAt 1) 40
      (mk_cte (Cap_endpoint 0 true true true epSend) (mk_mdb_node (slotAt 2) true true (slotAt 0)))
      sys_slots sys_chain); [reflexivity|discriminate|right; split; discriminate].
  - intros _ s' (-> & H & _). split; [exact H|]. split; reflexivity.
Defined.

(** C33: insertNewCap, which gives out the capability of a created object, links
    it right behind the untyped capability it was made from, revocable and first
    badged. *)
Theorem insertNewCap_links (s : kstate) (l1 l2 : list Z) (parent slot : Z) (newCap : cap) (c c0 : cte)
    (W : slots_wf s) (L : mdb_chain s (l1 ++ parent :: l2))
    (Hp : ksCtes s !! parent = Some c) (Hs : ksCtes s !! slot = Some c0) (Hn : slot ∉ l1 ++ parent :: l2) :
  wp (insertNewCap parent slot newCap) (fun _ s' => ctes_frame s s' /\
    mdb_chain s' (l1 ++ parent :: slot :: l2) /\
    ksCtes s' !! slot = Some (mk_cte newCap (mk_mdb_node (hd NULL l2) true true parent)) /\
    ksCtes s' !! parent = Some (upd_cteMDBNode (upd_mdbNext slot c.(cteMDBNode)) c) /\
    others_kept s s' [parent; slot] l2) s.
Proof.
  destruct c0 as [k n0]. eapply wp_mono; [by eapply wp_insertNewCap|].
  intros _ s' (F & L' & D' & S' & O). split_and!; try done. intros p Hp'. apply O; set_solver.
Qed.

Lemma insertNewCap_links_witness :
  wp (insertNewCap (slotAt 0) (slotAt 9) (Cap_thread threadA))
    (fun _ s' => mdb_chain s' [slotAt 0; slotAt 9; slotAt 1; slotAt 2]) sys.
Proof.
  eapply wp_mono.
  - apply (insertNewCap_links sys [] [slotAt 1; slotAt 2] (slotAt 0) (slotAt 9) (Cap_thread threadA)
      (mk_cte (Cap_untyped 4 12 0xe0003000) (mk_mdb_node (slotAt 1) true true NULL)) empty_cte
      sys_slots sys_chain); [reflexivity|reflexivity|].
    apply (bool_decide_unpack (slotAt 9 ∉ [slotAt 0; slotAt 1; slotAt 2])). vm_compute. exact I.
  - intros _ s' (_ & H & _). exact H.
Defined.
