(* ===== verification/EndpointQueues.v ===== *)
(** * Endpoint queues: representation and lemmas

    What the state of an endpoint and the links of its threads represent, and what
    blocking, cancelling, dequeuing and waking do to it and to the ready queues. *)
From stdpp Require Import base list gmap.
From Stdlib Require Import ZArith Lia.
From S2P Require Import Prelude.
From S2P Require Import Structures.
From S2P Require Import KernelState.
From S2P Require Import DList.
From S2P Require Import SchedQueue.
From S2P Require Import VSpace.
From S2P Require Import Scheduler.
From S2P Require Import MDB.
From S2P Require Import CSpace.
From S2P Require Import CapOps.
From S2P Require Import Endpoint.
From S2P Require Import Delete.
From S2P Require Import Ipc.
From S2P Require Import System.
From S2P Require Import SchedulerSpec.

#[global] Instance ep_frame_refl l : Reflexive (ep_frame l).
Proof. intros s. split; [by destruct s|done]. Qed.

(** ** Endpoints and their queues

    [ep_rep s epptr st l]: the endpoint is in state [st] and its queue links the
    threads [l]; [aep_rep] the same for an asynchronous endpoint. *)
Definition threads_wf (s : kstate) : Prop :=
  ksTcbs s !! NULL = None /\ forall p, is_Some (ksTcbs s !! p) -> field_high 28 p = p.

Record ep_rep (s : kstate) (epptr : Z) (st : endpoint_state) (l : list Z) : Prop := {
  er_ep : ksEps s !! epptr = Some (mk_endpoint (hd NULL l) (lastd NULL l) st);
  er_queue : dseg (ep_links (ksTcbs s)) NULL l NULL;
  er_idle : st = EPState_Idle <-> l = [] }.

Record aep_rep (s : kstate) (aepptr : Z) (st : async_endpoint_state) (badge val : Z) (l : list Z) : Prop := {
  ar_aep : ksAeps s !! aepptr = Some (mk_async_endpoint val badge (hd NULL l) (lastd NULL l) st);
  ar_queue : dseg (ep_links (ksTcbs s)) NULL l NULL;
  ar_waiting : st = AEPState_Waiting <-> l <> [] }.

Lemma dseg_queue_rep L l : dseg L NULL l NULL -> queue_rep L (mk_queue (hd NULL l) (lastd NULL l)) l.
Proof. done. Qed.

Lemma threads_wf_aligned s l p :
  threads_wf s -> dseg (ep_links (ksTcbs s)) NULL l NULL -> p = hd NULL l \/ p = lastd NULL l ->
  field_high 28 p = p.
Proof.
  intros [H0 Hw] L Hp. destruct l as [|x l]; [destruct Hp; subst; done|].
  apply Hw. assert (p ∈ x :: l) as Hin.
  { destruct Hp as [-> | ->]; [by apply (hd_in NULL)|by apply (lastd_in NULL (x :: l))]. }
  by destruct (ep_queue_threads _ _ _ _ (dseg_queue_rep _ _ L) Hin).
Qed.

(** A queue stored in an endpoint *)
Lemma stored_queue s l e :
  threads_wf s -> dseg (ep_links (ksTcbs s)) NULL l NULL ->
  ep_ptr_set_queue (mk_queue (hd NULL l) (lastd NULL l)) e = mk_endpoint (hd NULL l) (lastd NULL l) e.(ep_state).
Proof.
  intros W L. unfold ep_ptr_set_queue. simpl.
  rewrite !(threads_wf_aligned s l) by auto. done.
Qed.
Lemma stored_aqueue s l e :
  threads_wf s -> dseg (ep_links (ksTcbs s)) NULL l NULL ->
  aep_ptr_set_queue (mk_queue (hd NULL l) (lastd NULL l)) e =
  mk_async_endpoint e.(aepData) e.(aepMsgIdentifier) (hd NULL l) (lastd NULL l) e.(aep_state).
Proof.
  intros W L. unfold aep_ptr_set_queue. simpl.
  rewrite !(threads_wf_aligned s l) by auto. done.
Qed.

Lemma queue_rep_mk L q l : queue_rep L q l -> q = mk_queue (hd NULL l) (lastd NULL l).
Proof. intros (<- & <- & _). by destruct q. Qed.

(** Writes to the endpoint links keep the ready queues. *)
Lemma sched_rep_unep s s' rq :
  ksReadyQueues s' = ksReadyQueues s ->
  (forall p, unep <$> ksTcbs s' !! p = unep <$> ksTcbs s !! p) -> sched_rep s rq -> sched_rep s' rq.
Proof.
  intros Eq Et [H0 Hr HQ Hm].
  assert (forall {A} (f : tcb -> A) p, (forall x, f (unep x) = f x) ->
    f <$> ksTcbs s' !! p = f <$> ksTcbs s !! p) as Hf.
  { intros A f p Hu. specialize (Et p). destruct (ksTcbs s' !! p) as [a|], (ksTcbs s !! p) as [b|]; simpl in *; try done.
    assert (unep a = unep b) as E by congruence. by rewrite <- (Hu a), <- (Hu b), E. }
  split.
  - specialize (Et NULL). rewrite H0 in Et. by destruct (ksTcbs s' !! NULL).
  - intros p t Ht. pose proof (Hf _ (fun x => (x.(tcbDomain), x.(tcbPriority))) p ltac:(done)) as E.
    rewrite Ht in E. simpl in E. symmetry in E. apply fmap_Some in E as (x & Hx & [= -> ->]). by apply (Hr p).
  - intros idx. unfold ready_queue in *. rewrite Eq. eapply queue_rep_ext; [|apply HQ].
    intros p _. pose proof (Hf _ (fun x => (x.(tcbSchedPrev), x.(tcbSchedNext))) p ltac:(done)) as E.
    unfold sched_links, links_of. destruct (ksTcbs s' !! p), (ksTcbs s !! p); simpl in *; congruence.
  - intros idx p. rewrite Hm, (Hf _ sched_key p); done.
Qed.

(** ** Blocking *)
Definition block_action (s : kstate) (t : Z) (ts : thread_state_type) : Z :=
  if (t =? ksCurThread s) && (ksSchedulerAction s =? SchedulerAction_ResumeCurrentThread)
     && negb (isRunnable_ts ts)
  then SchedulerAction_ChooseNewThread else ksSchedulerAction s.

Lemma wp_scheduleTCB s t tc Q :
  ksTcbs s !! t = Some tc ->
  Q tt (upd_ksSchedulerAction (block_action s t tc.(tcbState).(tsType)) s) -> wp (scheduleTCB t) Q s.
Proof.
  intros Ht HQ. unfold scheduleTCB. wrun. unfold block_action in HQ.
  destruct ((t =? ksCurThread s) && (ksSchedulerAction s =? SchedulerAction_ResumeCurrentThread)) eqn:E.
  - simpl in HQ. wstep. eapply wp_isRunnable; [done|].
    destruct (isRunnable_ts _); simpl in *.
    + wstep. by rewrite upd_ksSchedulerAction_id in HQ.
    + unfold rescheduleRequired. wrun. apply andb_true_iff in E as [_ ->]. simpl.
      unfold set_action. wrun. exact HQ.
  - simpl in HQ. wstep. by rewrite upd_ksSchedulerAction_id in HQ.
Qed.

(** The last steps of sendIPC and receiveIPC when the thread has to wait *)
Definition ep_wait (thread epptr : Z) (st : endpoint_state) : K unit :=
  scheduleTCB thread ;;;
  let* ep := get_ep epptr in
  let* queue := tcbEPAppend thread (ep_ptr_get_queue ep) in
  mod_ep epptr (upd_ep_state st) ;;;
  set_ep_queue epptr queue.
Definition aep_wait (thread aepptr : Z) : K unit :=
  scheduleTCB thread ;;;
  let* aep := get_aep aepptr in
  let* aep_queue := tcbEPAppend thread (aep_ptr_get_queue aep) in
  mod_aep aepptr (upd_aep_state AEPState_Waiting) ;;;
  set_aep_queue aepptr aep_queue.

(** What linking threads into an endpoint's queue [l] leaves of the threads *)
Definition wait_frame (l : list Z) (s s' : kstate) : Prop :=
  (forall p, unep <$> ksTcbs s' !! p = unep <$> ksTcbs s !! p) /\
  (forall p, p ∉ l -> p <> NULL -> ep_links (ksTcbs s') p = ep_links (ksTcbs s) p).

Lemma unep_is_Some s s' : (forall p, unep <$> ksTcbs s' !! p = unep <$> ksTcbs s !! p) ->
  forall p, is_Some (ksTcbs s' !! p) <-> is_Some (ksTcbs s !! p).
Proof.
  intros H p. specialize (H p). destruct (ksTcbs s' !! p), (ksTcbs s !! p); simpl in H; try done;
  split; intros; by eexists.
Qed.

Lemma threads_wf_unep s s' : (forall p, unep <$> ksTcbs s' !! p = unep <$> ksTcbs s !! p) ->
  threads_wf s -> threads_wf s'.
Proof.
  intros H [H0 Hw]. pose proof (unep_is_Some _ _ H) as Hs. split.
  - apply eq_None_not_Some. rewrite Hs. by rewrite H0; intros [? ?].
  - intros p Hp. apply Hw. by apply Hs.
Qed.

Lemma wp_ep_wait s epptr st0 st l t tc :
  threads_wf s -> ep_rep s epptr st0 l -> ksTcbs s !! t = Some tc -> t ∉ l -> st <> EPState_Idle ->
  wp (ep_wait t epptr st) (fun _ s' =>
    ep_rep s' epptr st (l ++ [t]) /\ wait_frame (l ++ [t]) s s' /\
    s' = upd_ksSchedulerAction (block_action s t tc.(tcbState).(tsType))
           (upd_ksEps (<[epptr := mk_endpoint (hd NULL (l ++ [t])) (lastd NULL (l ++ [t])) st]> (ksEps s))
             (upd_ksTcbs (ksTcbs s') s))) s.
Proof.
  intros W [He Hl _] Ht Hn Hst. unfold ep_wait. wstep. eapply wp_scheduleTCB; [done|].
  set (s1 := upd_ksSchedulerAction _ s). wstep. eapply wp_get_ep; [exact He|].
  wstep. eapply wp_mono.
  { apply (wp_tcbEPAppend s1 _ l t); [by apply dseg_queue_rep|apply W|by eexists|done]. }
  intros q s2 [Q2 F2]. pose proof F2 as (E2 & U2 & L2). cbn beta.
  pose proof (queue_rep_mk _ _ _ Q2) as ->. destruct Q2 as (_ & _ & Q2).
  assert (threads_wf s2) as W2 by (by eapply threads_wf_unep; [|exact W]).
  wstep. eapply wp_mod_ep; [rewrite E2; exact He|].
  unfold set_ep_queue. eapply wp_mod_ep; [ksimp; by rewrite lookup_insert_eq|]. ksimp.
  rewrite (stored_queue s2) by done. simpl.
  split; [|split].
  - split; ksimp; [by rewrite lookup_insert_eq|done|].
    split; [done|]. by intros []%app_nil.
  - split; [exact U2|]. intros p Hp Hp0. by apply L2.
  - rewrite E2. unfold s1. ksimp. done.
Qed.

Lemma wp_aep_wait s aepptr st0 badge val l t tc :
  threads_wf s -> aep_rep s aepptr st0 badge val l -> ksTcbs s !! t = Some tc -> t ∉ l ->
  wp (aep_wait t aepptr) (fun _ s' =>
    aep_rep s' aepptr AEPState_Waiting badge val (l ++ [t]) /\ wait_frame (l ++ [t]) s s' /\
    s' = upd_ksSchedulerAction (block_action s t tc.(tcbState).(tsType))
           (upd_ksAeps (<[aepptr := mk_async_endpoint val badge (hd NULL (l ++ [t])) (lastd NULL (l ++ [t]))
              AEPState_Waiting]> (ksAeps s))
             (upd_ksTcbs (ksTcbs s') s))) s.
Proof.
  intros W [He Hl _] Ht Hn. unfold aep_wait. wstep. eapply wp_scheduleTCB; [done|].
  set (s1 := upd_ksSchedulerAction _ s). wstep. eapply wp_get_aep; [exact He|].
  wstep. eapply wp_mono.
  { apply (wp_tcbEPAppend s1 _ l t); [by apply dseg_queue_rep|apply W|by eexists|done]. }
  intros q s2 [Q2 F2]. pose proof F2 as (E2 & U2 & L2). cbn beta.
  pose proof (queue_rep_mk _ _ _ Q2) as ->. destruct Q2 as (_ & _ & Q2).
  assert (threads_wf s2) as W2 by (by eapply threads_wf_unep; [|exact W]).
  wstep. eapply wp_mod_aep; [rewrite E2; exact He|].
  unfold set_aep_queue. eapply wp_mod_aep; [ksimp; by rewrite lookup_insert_eq|]. ksimp.
  rewrite (stored_aqueue s2) by done. simpl.
  split; [|split].
  - split; ksimp; [by rewrite lookup_insert_eq|done|].
    split; [|done]. by intros _ []%app_nil.
  - split; [exact U2|]. intros p Hp Hp0. by apply L2.
  - rewrite E2. unfold s1. ksimp. done.
Qed.

(** A write to the state of a thread *)
Section state_write.
Context (s : kstate) (t : Z) (tc : tcb) (ts : thread_state).
Hypothesis (Ht : ksTcbs s !! t = Some tc).
Definition write_state : kstate := upd_ksTcbs (<[t := upd_tcbState ts tc]> (ksTcbs s)) s.

Lemma write_state_links p : ep_links (ksTcbs write_state) p = ep_links (ksTcbs s) p.
Proof using Ht.
  unfold write_state, ep_links, links_of. ksimp. destruct (decide (p = t)) as [->|].
  - by rewrite lookup_insert_eq, Ht.
  - by rewrite lookup_insert_ne.
Qed.
Lemma write_state_wf : threads_wf s -> threads_wf write_state.
Proof using Ht.
  intros [H0 Hw]. unfold write_state. split; ksimp.
  - rewrite lookup_insert_ne; [done|]. intros ->. by rewrite H0 in Ht.
  - intros p Hp. apply Hw. destruct (decide (p = t)) as [->|]; [by eexists|].
    by rewrite lookup_insert_ne in Hp.
Qed.
Lemma write_state_ep epptr st l : ep_rep s epptr st l -> ep_rep write_state epptr st l.
Proof using Ht.
  intros [He Hl Hi]. split; [done| |done]. eapply dseg_ext; [|exact Hl].
  intros p _. apply write_state_links.
Qed.
Lemma write_state_aep aepptr st b v l : aep_rep s aepptr st b v l -> aep_rep write_state aepptr st b v l.
Proof using Ht.
  intros [He Hl Hi]. split; [done| |done]. eapply dseg_ext; [|exact Hl].
  intros p _. apply write_state_links.
Qed.
Lemma write_state_sched rq :
  ts.(tcbQueued) = tc.(tcbState).(tcbQueued) -> sched_rep s rq -> sched_rep write_state rq.
Proof using Ht.
  intros Hq [H0 Hr HQ Hm]. unfold write_state. split; ksimp.
  - rewrite lookup_insert_ne; [done|]. intros ->. by rewrite H0 in Ht.
  - intros p x. rewrite lookup_insert_Some. intros [[<- <-]|[_ Hx]]; [exact (Hr t _ Ht)|exact (Hr p _ Hx)].
  - intros idx. eapply queue_rep_ext; [|apply HQ]. intros p _. unfold sched_links, links_of.
    destruct (decide (p = t)) as [->|]; [by rewrite lookup_insert_eq, Ht|by rewrite lookup_insert_ne].
  - intros idx p. rewrite Hm. destruct (decide (p = t)) as [->|]; [|by rewrite lookup_insert_ne].
    rewrite lookup_insert_eq, Ht. unfold sched_key. simpl. rewrite Hq. done.
Qed.
End state_write.

(** *** Waiting to send and to receive *)
Definition blocked_send (tc : tcb) (epptr badge : Z) (canGrant do_call : bool) : thread_state :=
  mk_thread_state (field 28 badge) canGrant do_call tc.(tcbState).(tcbQueued)
    tc.(tcbState).(blockingIPCDiminishCaps) (field_high 28 epptr) ThreadState_BlockedOnSend.
Definition blocked_receive (tc : tcb) (epptr : Z) (diminish : bool) : thread_state :=
  mk_thread_state tc.(tcbState).(blockingIPCBadge) tc.(tcbState).(blockingIPCCanGrant)
    tc.(tcbState).(blockingIPCIsCall) tc.(tcbState).(tcbQueued) diminish (field_high 28 epptr)
    ThreadState_BlockedOnReceive.
Definition blocked_event (tc : tcb) (aepptr : Z) : thread_state :=
  mk_thread_state tc.(tcbState).(blockingIPCBadge) tc.(tcbState).(blockingIPCCanGrant)
    tc.(tcbState).(blockingIPCIsCall) tc.(tcbState).(tcbQueued)
    tc.(tcbState).(blockingIPCDiminishCaps) (field_high 28 aepptr) ThreadState_BlockedOnAsyncEvent.

(** The outcome of a thread [t] blocking in state [ts] at the end of the queue [l] *)
Definition waits (s : kstate) (rq : Z -> list Z) (t : Z) (tc : tcb) (ts : thread_state) (l : list Z)
    (s' : kstate) : Prop :=
  sched_rep s' rq /\ threads_wf s' /\ wait_frame (l ++ [t]) (write_state s t tc ts) s' /\
  ksSchedulerAction s' = (if (t =? ksCurThread s) && (ksSchedulerAction s =? SchedulerAction_ResumeCurrentThread)
                          then SchedulerAction_ChooseNewThread else ksSchedulerAction s).

Lemma waits_intro s rq t tc ts l s1 s' :
  sched_rep s rq -> threads_wf s -> ksTcbs s !! t = Some tc ->
  ts.(tcbQueued) = tc.(tcbState).(tcbQueued) -> isRunnable_ts ts.(tsType) = false ->
  s1 = write_state s t tc ts -> wait_frame (l ++ [t]) s1 s' ->
  ksReadyQueues s' = ksReadyQueues s1 ->
  ksSchedulerAction s' = block_action s1 t ts.(tsType) ->
  waits s rq t tc ts l s'.
Proof.
  intros R W Ht Hq Hb -> F Eq Ea. destruct F as [U L]. split; [|split; [|split; [done|]]].
  - eapply sched_rep_unep; [exact Eq|exact U|]. by apply write_state_sched.
  - eapply threads_wf_unep; [exact U|]. by apply write_state_wf.
  - rewrite Ea. unfold block_action. rewrite Hb, andb_true_r. done.
Qed.

Lemma wp_sendIPC_wait s rq epptr st l t tc badge canGrant do_call :
  sched_rep s rq -> threads_wf s -> ep_rep s epptr st l -> ksTcbs s !! t = Some tc -> t ∉ l ->
  st <> EPState_Recv ->
  wp (sendIPC true do_call badge canGrant t epptr) (fun _ s' =>
    ep_rep s' epptr EPState_Send (l ++ [t]) /\
    waits s rq t tc (blocked_send tc epptr badge canGrant do_call) l s') s.
Proof.
  intros R W E Ht Hn Hst. unfold sendIPC. pose proof (er_ep _ _ _ _ E) as He.
  wstep. eapply wp_get_ep; [exact He|]. simpl ep_state.
  set (Q := fun (_ : unit) s' => _).
  assert (wp (when true
    (mod_tcbState t (upd_tsType ThreadState_BlockedOnSend) ;;;
     mod_tcbState t (thread_state_set_blockingIPCEndpoint epptr) ;;;
     mod_tcbState t (thread_state_set_blockingIPCBadge badge) ;;;
     mod_tcbState t (upd_blockingIPCCanGrant canGrant) ;;;
     mod_tcbState t (upd_blockingIPCIsCall do_call) ;;;
     ep_wait t epptr EPState_Send)) Q s) as H; [|by destruct st].
  cbn [when]. do 5 (wstep; eapply wp_mod_tcbState; [first [exact Ht|apply lookup_insert_eq]|]; ksimp).
  set (s1 := upd_ksTcbs _ s).
  assert (s1 = write_state s t tc (blocked_send tc epptr badge canGrant do_call)) as Es1 by done.
  eapply wp_mono.
  { apply (wp_ep_wait s1 epptr st EPState_Send l t (upd_tcbState (blocked_send tc epptr badge canGrant do_call) tc)); try done.
    - rewrite Es1. by apply write_state_wf.
    - rewrite Es1. by apply write_state_ep.
    - rewrite Es1. unfold write_state. ksimp. by rewrite lookup_insert_eq. }
  intros [] s' (E' & F' & Es'). split; [done|].
  eapply waits_intro; try done; by rewrite Es'.
Qed.

Lemma wp_receiveIPC_wait s rq epptr st l t tc badge grant send recv :
  sched_rep s rq -> threads_wf s -> ep_rep s epptr st l -> ksTcbs s !! t = Some tc -> t ∉ l ->
  st <> EPState_Send ->
  wp (receiveIPC t (Cap_endpoint badge grant send recv epptr)) (fun _ s' =>
    ep_rep s' epptr EPState_Recv (l ++ [t]) /\
    waits s rq t tc (blocked_receive tc epptr (negb send)) l s') s.
Proof.
  intros R W E Ht Hn Hst. unfold receiveIPC. pose proof (er_ep _ _ _ _ E) as He.
  wstep. eapply wp_get_ep; [exact He|]. simpl ep_state.
  set (Q := fun (_ : unit) s' => _).
  assert (wp
    (mod_tcbState t (upd_tsType ThreadState_BlockedOnReceive) ;;;
     mod_tcbState t (thread_state_set_blockingIPCEndpoint epptr) ;;;
     mod_tcbState t (upd_blockingIPCDiminishCaps (negb send)) ;;;
     ep_wait t epptr EPState_Recv) Q s) as H; [|by destruct st].
  do 3 (wstep; eapply wp_mod_tcbState; [first [exact Ht|apply lookup_insert_eq]|]; ksimp).
  set (s1 := upd_ksTcbs _ s).
  assert (s1 = write_state s t tc (blocked_receive tc epptr (negb send))) as Es1 by done.
  eapply wp_mono.
  { apply (wp_ep_wait s1 epptr st EPState_Recv l t (upd_tcbState (blocked_receive tc epptr (negb send)) tc)); try done.
    - rewrite Es1. by apply write_state_wf.
    - rewrite Es1. by apply write_state_ep.
    - rewrite Es1. unfold write_state. ksimp. by rewrite lookup_insert_eq. }
  intros [] s' (E' & F' & Es'). split; [done|].
  eapply waits_intro; try done; by rewrite Es'.
Qed.

Lemma wp_receiveAsyncIPC_wait s rq aepptr st b v l t tc badge send recv :
  sched_rep s rq -> threads_wf s -> aep_rep s aepptr st b v l -> ksTcbs s !! t = Some tc -> t ∉ l ->
  st <> AEPState_Active ->
  wp (receiveAsyncIPC t (Cap_async_endpoint badge send recv aepptr)) (fun _ s' =>
    aep_rep s' aepptr AEPState_Waiting b v (l ++ [t]) /\
    waits s rq t tc (blocked_event tc aepptr) l s') s.
Proof.
  intros R W E Ht Hn Hst. unfold receiveAsyncIPC. pose proof (ar_aep _ _ _ _ _ _ E) as He.
  wstep. eapply wp_get_aep; [exact He|]. simpl aep_state.
  set (Q := fun (_ : unit) s' => _).
  assert (wp
    (mod_tcbState t (upd_tsType ThreadState_BlockedOnAsyncEvent) ;;;
     mod_tcbState t (thread_state_set_blockingIPCEndpoint aepptr) ;;;
     aep_wait t aepptr) Q s) as H; [|by destruct st].
  do 2 (wstep; eapply wp_mod_tcbState; [first [exact Ht|apply lookup_insert_eq]|]; ksimp).
  set (s1 := upd_ksTcbs _ s).
  assert (s1 = write_state s t tc (blocked_event tc aepptr)) as Es1 by done.
  eapply wp_mono.
  { apply (wp_aep_wait s1 aepptr st b v l t (upd_tcbState (blocked_event tc aepptr) tc)); try done.
    - rewrite Es1. by apply write_state_wf.
    - rewrite Es1. by apply write_state_aep.
    - rewrite Es1. unfold write_state. ksimp. by rewrite lookup_insert_eq. }
  intros [] s' (E' & F' & Es'). split; [done|].
  eapply waits_intro; try done; by rewrite Es'.
Qed.

(** ** Cancellation *)
Lemma enqueued_key s s1 rq t :
  sched_key <$> ksTcbs s1 !! t = sched_key <$> ksTcbs s !! t -> enqueued s1 rq t = enqueued s rq t.
Proof.
  unfold enqueued, enqueue_abs. destruct (ksTcbs s1 !! t), (ksTcbs s !! t); simpl; try done.
  unfold sched_key. intros [= -> ->]. done.
Qed.

(** Membership decides the keys of the threads that keep their place. *)
Lemma sched_key_same s s1 rq rq1 p :
  sched_rep s rq -> sched_rep s1 rq1 -> (forall idx, p ∈ rq1 idx <-> p ∈ rq idx) ->
  tcb_index <$> ksTcbs s1 !! p = tcb_index <$> ksTcbs s !! p ->
  sched_key <$> ksTcbs s1 !! p = sched_key <$> ksTcbs s !! p.
Proof.
  intros R R1 H Hi. destruct (ksTcbs s1 !! p) as [x1|] eqn:E1, (ksTcbs s !! p) as [x|] eqn:E; simpl in *; try done.
  injection Hi as Hi. unfold sched_key. rewrite Hi. do 2 f_equal.
  apply Bool.eq_iff_eq_true. rewrite (queued_iff _ _ _ _ R1 E1), (queued_iff _ _ _ _ R E), Hi. apply H.
Qed.

Definition restarted (t : tcb) : tcb := upd_tcbState (upd_tsType ThreadState_Restart t.(tcbState)) t.

(** The threads [l] restarted and put, one after the other, at the head of their queues *)
Definition restart_abs (s : kstate) (rq : Z -> list Z) (l : list Z) : Z -> list Z :=
  foldl (enqueued s) rq l.

Definition restart_frame (l : list Z) (s s' : kstate) : Prop :=
  s' = upd_ksTcbs (ksTcbs s') (upd_ksReadyQueues (ksReadyQueues s') s) /\
  forall p, unsched <$> ksTcbs s' !! p =
            unsched <$> ((if bool_decide (p ∈ l) then restarted else id) <$> ksTcbs s !! p).

Lemma restart_abs_key s s1 rq l :
  (forall p, p ∈ l -> sched_key <$> ksTcbs s1 !! p = sched_key <$> ksTcbs s !! p) ->
  restart_abs s1 rq l = restart_abs s rq l.
Proof.
  revert rq. induction l as [|t l IH]; intros rq H; [done|]. unfold restart_abs in *. simpl.
  rewrite (enqueued_key s s1) by (apply H; left). apply IH. intros p Hp. apply H. by right.
Qed.

(** One round of the loop *)
Lemma wp_restart_one s rq t tc :
  sched_rep s rq -> ksTcbs s !! t = Some tc ->
  wp (setThreadState t ThreadState_Restart ;;; tcbSchedEnqueue t) (fun _ s' =>
    sched_rep s' (enqueued s rq t) /\ restart_frame [t] s s' /\
    forall p, ep_links (ksTcbs s') p = ep_links (ksTcbs s) p) s.
Proof.
  intros R Ht. wstep. apply wp_setThreadState; [by eexists|].
  set (s1 := set_state s t ThreadState_Restart).
  assert (sched_rep s1 rq) as R1 by by apply set_state_rep.
  assert (ksTcbs s1 !! t = Some (restarted tc)) as Ht1
    by (unfold s1, set_state; ksimp; by rewrite lookup_alter_eq, Ht).
  assert (s1 = upd_ksTcbs (ksTcbs s1) s) as E1.
  { unfold s1, set_state. simpl isRunnable_ts. rewrite andb_false_r. by destruct s. }
  eapply wp_mono; [by eapply wp_tcbSchedEnqueue|]. intros _ s2 [R2 F2].
  split; [|split].
  - replace (enqueued s rq t) with (enqueue_abs rq t (restarted tc)); [done|].
    unfold enqueued. by rewrite Ht.
  - destruct F2 as [E2 U2]. split; [by rewrite E2, E1|].
    intros p. rewrite U2. f_equal. unfold s1, set_state. ksimp. rewrite lookup_alter_at.
    case_decide as Hpt.
    + subst p. rewrite bool_decide_eq_true_2 by apply list_elem_of_singleton, eq_refl. done.
    + assert (p <> t) by congruence. rewrite bool_decide_eq_false_2 by (by rewrite list_elem_of_singleton). by destruct (ksTcbs s !! p).
  - intros p. pose proof (sched_frame_proj (fun x => (x.(tcbEPPrev), x.(tcbEPNext))) _ _ p ltac:(done) F2) as Hp.
    trans (ep_links (ksTcbs s1) p).
    + unfold ep_links, links_of. destruct (ksTcbs s2 !! p), (ksTcbs s1 !! p); simpl in *; congruence.
    + unfold s1, set_state. ksimp. apply ep_links_state.
Qed.

Lemma wp_restart_all l : forall fuel s rq prev,
  sched_rep s rq -> dseg (ep_links (ksTcbs s)) prev l NULL -> NoDup l -> (length l < fuel)%nat ->
  wp (restart_all fuel (hd NULL l)) (fun _ s' =>
    sched_rep s' (restart_abs s rq l) /\ restart_frame l s s' /\
    forall p, ep_links (ksTcbs s') p = ep_links (ksTcbs s) p) s.
Proof.
  induction l as [|t l IH]; intros fuel s rq prev R L N Hf; (destruct fuel as [|fuel]; [simpl in Hf; lia|]).
  - simpl. wstep. split; [done|]. split; [|done]. split; [by destruct s|].
    intros p. rewrite bool_decide_eq_false_2 by (by intros ?%elem_of_nil). by destruct (ksTcbs s !! p).
  - simpl hd. apply NoDup_cons in N as [Hn N]. pose proof L as (Ht0 & Ht & L').
    cbn [restart_all]. rewrite (proj2 (Z.eqb_neq t NULL)) by done.
    destruct (ksTcbs s !! t) as [tc|] eqn:Etc; [|by unfold ep_links, links_of in Ht; rewrite Etc in Ht].
    assert (forall (m1 m2 : K unit) (k : unit -> K unit) Q, wp (m1 ;;; m2) (fun a => wp (k a) Q) s ->
      wp (m1 ;;; m2 ;;; k tt) Q s) as Hseq.
    { intros m1 m2 k Q. unfold wp, bind. destruct (m1 s) as [[] s1|]; [|done]. by destruct (m2 s1) as [[] s2|]. }
    apply (Hseq _ _ (fun _ => let* t0 := get_tcb t in restart_all fuel (tcbEPNext t0))).
    eapply wp_mono; [by eapply wp_restart_one|]. intros _ s1 (R1 & F1 & L1). cbn beta.
    assert (exists tc1, ksTcbs s1 !! t = Some tc1 /\ tcbEPNext tc1 = hd NULL l) as (tc1 & Etc1 & Hnext).
    { pose proof (L1 t) as E. unfold ep_links, links_of in E, Ht. rewrite Etc in E, Ht.
      destruct (ksTcbs s1 !! t) as [tc1|]; [|done]. exists tc1. split; [done|]. simpl in *. congruence. }
    wstep. eapply wp_get_tcb; [done|]. rewrite Hnext.
    assert (forall p, p <> t -> sched_key <$> ksTcbs s1 !! p = sched_key <$> ksTcbs s !! p) as Hk.
    { intros p Hp. apply (sched_key_same s s1 rq _ p R R1).
      - intros idx. by apply in_enqueued.
      - destruct F1 as [_ U1]. specialize (U1 p).
        rewrite bool_decide_eq_false_2 in U1 by (by rewrite list_elem_of_singleton).
        destruct (ksTcbs s1 !! p) as [x1|], (ksTcbs s !! p) as [x|]; simpl in U1; try done. simpl. f_equal.
        apply unsched_index. congruence. }
    eapply wp_mono; [apply (IH fuel s1 (enqueued s rq t) t)|].
    + exact R1.
    + eapply dseg_ext; [intros p _; apply L1|exact L'].
    + done.
    + simpl in Hf. lia.
    + intros _ s2 (R2 & F2 & L2). split; [|split].
      * rewrite (restart_abs_key s s1) in R2; [done|]. intros p Hp. apply Hk. intros ->. done.
      * destruct F1 as [E1 U1], F2 as [E2 U2]. split; [by rewrite E2, E1|].
        intros p. rewrite U2. specialize (U1 p).
        destruct (decide (p = t)) as [->|Hp].
        -- rewrite (bool_decide_eq_false_2 (t ∈ l)) by done. rewrite bool_decide_eq_true_2 in * by left.
           by rewrite option_fmap_id.
        -- rewrite (bool_decide_eq_false_2 (p ∈ [t])) in U1 by (by rewrite list_elem_of_singleton).
           rewrite option_fmap_id in U1.
           replace (bool_decide (p ∈ t :: l)) with (bool_decide (p ∈ l)).
           2: { apply bool_decide_ext. rewrite elem_of_cons. naive_solver. }
           case_bool_decide; [|by rewrite !option_fmap_id].
           destruct (ksTcbs s1 !! p) as [x1|], (ksTcbs s !! p) as [x|]; simpl in *; try done.
           assert (unsched x1 = unsched x) as U by congruence.
           f_equal. change (unsched (restarted x1)) with (restarted (unsched x1)).
           change (unsched (restarted x)) with (restarted (unsched x)). by rewrite U.
      * intros p. by rewrite L2, L1.
Qed.

Lemma NoDup_bounded {A} (m : gmap Z A) l :
  NoDup l -> (forall p, p ∈ l -> is_Some (m !! p)) -> (length l <= size m)%nat.
Proof.
  intros N H. rewrite <- size_dom. rewrite <- (size_list_to_set (C := gset Z) l) by done.
  apply subseteq_size. intros p Hp%elem_of_list_to_set. apply elem_of_dom. by apply H.
Qed.

Lemma queue_length s l :
  dseg (ep_links (ksTcbs s)) NULL l NULL -> (length l < thread_fuel s)%nat.
Proof.
  intros L. unfold thread_fuel. assert (length l <= size (ksTcbs s))%nat; [|lia].
  apply NoDup_bounded; [by eapply (queue_rep_NoDup _ _ _ (dseg_queue_rep _ _ L))|].
  intros p Hp. by destruct (ep_queue_threads _ _ _ _ (dseg_queue_rep _ _ L) Hp).
Qed.

(** The queues after the cancellation: the threads [l], and the thread a pending
    switch named *)
Definition cancel_abs (s : kstate) (rq : Z -> list Z) (l : list Z) : Z -> list Z :=
  let rq' := restart_abs s rq l in
  if is_thread_action (ksSchedulerAction s) then enqueued s rq' (ksSchedulerAction s) else rq'.

Lemma in_restart_abs s rq l p idx : p ∉ l -> p ∈ restart_abs s rq l idx <-> p ∈ rq idx.
Proof.
  revert rq. induction l as [|t l IH]; intros rq Hp; [done|]. apply not_elem_of_cons in Hp as [Hp Hl].
  unfold restart_abs in *. simpl. rewrite IH by done. by apply in_enqueued.
Qed.

Lemma wp_restart_queue s rq l :
  sched_rep s rq -> dseg (ep_links (ksTcbs s)) NULL l NULL -> action_ok s ->
  ksSchedulerAction s ∉ l ->
  wp (let* s0 := get in restart_all (thread_fuel s0) (hd NULL l) ;;; rescheduleRequired) (fun _ s' =>
    sched_rep s' (cancel_abs s rq l) /\ ksSchedulerAction s' = SchedulerAction_ChooseNewThread /\
    (forall p, unsched <$> ksTcbs s' !! p =
       unsched <$> ((if bool_decide (p ∈ l) then restarted else id) <$> ksTcbs s !! p)) /\
    s' = upd_ksSchedulerAction SchedulerAction_ChooseNewThread
           (upd_ksTcbs (ksTcbs s') (upd_ksReadyQueues (ksReadyQueues s') s))) s.
Proof.
  intros R L A Hn. wstep. wstep. wstep. eapply wp_mono.
  { apply (wp_restart_all l _ s rq NULL); [done|done| |by apply queue_length].
    by eapply (queue_rep_NoDup _ _ _ (dseg_queue_rep _ _ L)). }
  intros _ s1 (R1 & [E1 U1] & _). cbn beta.
  assert (ksSchedulerAction s1 = ksSchedulerAction s) as Ea by (by rewrite E1).
  assert (forall p, p ∉ l -> unsched <$> ksTcbs s1 !! p = unsched <$> ksTcbs s !! p) as Hout.
  { intros p Hp. rewrite U1, bool_decide_eq_false_2 by done. by rewrite option_fmap_id. }
  eapply wp_mono; [apply (wp_rescheduleRequired s1); [exact R1|]|].
  { unfold action_ok. rewrite Ea. intros Ht. destruct (A Ht) as [ta Hta]. specialize (Hout _ Hn).
    rewrite Hta in Hout. destruct (ksTcbs s1 !! ksSchedulerAction s); [by eexists|done]. }
  intros _ s2 (R2 & A2 & F2). rewrite Ea in R2. split; [|split; [done|split]].
  - unfold cancel_abs. destruct (is_thread_action _); [|done].
    rewrite (enqueued_key s s1) in R2; [done|].
    apply (sched_key_same s s1 rq _ _ R R1); [intros idx; by apply in_restart_abs|].
    specialize (Hout _ Hn). destruct (ksTcbs s1 !! _) as [x1|], (ksTcbs s !! _) as [x|]; simpl in *; try done.
    f_equal. apply unsched_index. congruence.
  - destruct F2 as [_ U2]. intros p. by rewrite U2.
  - destruct F2 as [E2 _]. rewrite A2 in E2. rewrite E2. rewrite E1 at 1. done.
Qed.

(** What cancelling the queue [l] of an endpoint does *)
Definition cancelled (s : kstate) (rq : Z -> list Z) (l : list Z) (s' : kstate) : Prop :=
  sched_rep s' (cancel_abs s rq l) /\ ksSchedulerAction s' = SchedulerAction_ChooseNewThread /\
  forall p, unsched <$> ksTcbs s' !! p =
    unsched <$> ((if bool_decide (p ∈ l) then restarted else id) <$> ksTcbs s !! p).

Lemma wp_epCancelAll s rq epptr st l :
  sched_rep s rq -> ep_rep s epptr st l -> action_ok s -> ksSchedulerAction s ∉ l ->
  st <> EPState_Idle ->
  wp (epCancelAll epptr) (fun _ s' =>
    ep_rep s' epptr EPState_Idle [] /\ cancelled s rq l s' /\
    s' = upd_ksSchedulerAction SchedulerAction_ChooseNewThread
           (upd_ksTcbs (ksTcbs s') (upd_ksReadyQueues (ksReadyQueues s')
             (upd_ksEps (<[epptr := mk_endpoint 0 0 EPState_Idle]> (ksEps s)) s)))) s.
Proof.
  intros R [He Hl _] A Hn Hst. unfold epCancelAll. wstep. eapply wp_get_ep; [exact He|]. simpl ep_state.
  set (Q := fun (_ : unit) s' => _).
  assert (wp
    (mod_ep epptr (upd_ep_state EPState_Idle) ;;;
     mod_ep epptr (upd_epQueue_head 0) ;;; mod_ep epptr (upd_epQueue_tail 0) ;;;
     let* s0 := get in restart_all (thread_fuel s0) (hd NULL l) ;;; rescheduleRequired) Q s) as H; [|by destruct st].
  do 3 (wstep; eapply wp_mod_ep; [first [exact He|apply lookup_insert_eq]|]; ksimp).
  eapply wp_mono; [apply (wp_restart_queue _ rq l); [by eapply sched_rep_ext; [..|exact R]|done..]|].
  intros [] s' (R' & A' & U' & E'). split; [|split].
  - split; [|done|done]. rewrite E'. ksimp. by rewrite lookup_insert_eq.
  - split; [exact R'|]. split; [done|exact U'].
  - exact E'.
Qed.

Lemma wp_aepCancelAll s rq aepptr b v l :
  sched_rep s rq -> aep_rep s aepptr AEPState_Waiting b v l -> action_ok s -> ksSchedulerAction s ∉ l ->
  wp (aepCancelAll aepptr) (fun _ s' =>
    aep_rep s' aepptr AEPState_Idle b v [] /\ cancelled s rq l s' /\
    s' = upd_ksSchedulerAction SchedulerAction_ChooseNewThread
           (upd_ksTcbs (ksTcbs s') (upd_ksReadyQueues (ksReadyQueues s')
             (upd_ksAeps (<[aepptr := mk_async_endpoint v b 0 0 AEPState_Idle]> (ksAeps s)) s)))) s.
Proof.
  intros R [He Hl _] A Hn. unfold aepCancelAll. wstep. eapply wp_get_aep; [exact He|]. simpl aep_state.
  rewrite bool_decide_eq_true_2 by done. simpl aepQueue_head.
  do 3 (wstep; eapply wp_mod_aep; [first [exact He|apply lookup_insert_eq]|]; ksimp).
  eapply wp_mono; [apply (wp_restart_queue _ rq l); [by eapply sched_rep_ext; [..|exact R]|done..]|].
  intros _ s' (R' & A' & U' & E'). split; [|split].
  - split; [|done|split; done]. rewrite E'. ksimp. by rewrite lookup_insert_eq.
  - split; [exact R'|]. split; [done|exact U'].
  - exact E'.
Qed.

(** ** Dequeuing the first thread *)

(** [t] leaves the head of the queue of an endpoint. *)
Lemma wp_ep_first s epptr st t l :
  threads_wf s -> ep_rep s epptr st (t :: l) ->
  wp (let* queue := tcbEPDequeue t (mk_queue t (lastd NULL (t :: l))) in
      set_ep_queue epptr queue ;;;
      when (q_head queue =? NULL) (mod_ep epptr (upd_ep_state EPState_Idle))) (fun _ s' =>
    ep_rep s' epptr (if bool_decide (l = []) then EPState_Idle else st) l /\ wait_frame l s s' /\
    s' = upd_ksEps (ksEps s') (upd_ksTcbs (ksTcbs s') s) /\
    (forall p, p <> epptr -> ksEps s' !! p = ksEps s !! p)) s.
Proof.
  intros W [He Hl Hi]. wstep.
  assert (queue_rep (ep_links (ksTcbs s)) (mk_queue t (lastd NULL (t :: l))) ([] ++ t :: l)) as Q
    by exact (dseg_queue_rep _ (t :: l) Hl).
  eapply wp_mono; [apply (wp_tcbEPDequeue s _ [] t l Q); apply W|].
  intros q s1 [Q1 (E1 & U1 & L1)]. cbn beta. simpl app in *.
  pose proof (queue_rep_mk _ _ _ Q1) as ->. destruct Q1 as (_ & _ & Q1).
  assert (threads_wf s1) as W1 by (by eapply threads_wf_unep; [|exact W]).
  unfold set_ep_queue. wstep. eapply wp_mod_ep; [rewrite E1; exact He|]. ksimp.
  rewrite (stored_queue s1) by done. simpl q_head. simpl ep_state.
  destruct l as [|x l].
  - simpl. eapply wp_mod_ep; [ksimp; by rewrite lookup_insert_eq|]. ksimp.
    split; [|split; [|split]].
    + split; [ksimp; by rewrite lookup_insert_eq|done|done].
    + split; [exact U1|exact L1].
    + rewrite E1. done.
    + intros p Hp. rewrite lookup_insert_ne by done. by rewrite E1.
  - pose proof Q1 as (Hx & _). simpl hd. rewrite (proj2 (Z.eqb_neq x NULL)) by done. simpl. wstep.
    split; [|split; [|split]].
    + split; [ksimp; by rewrite lookup_insert_eq|done|]. split; [|done].
      intros ->. by apply proj1 in Hi; discriminate Hi.
    + split; [exact U1|exact L1].
    + rewrite E1. done.
    + intros p Hp. ksimp. rewrite lookup_insert_ne by done. by rewrite E1.
Qed.

Lemma wp_aep_first s aepptr b v t l :
  threads_wf s -> aep_rep s aepptr AEPState_Waiting b v (t :: l) ->
  wp (let* queue := tcbEPDequeue t (mk_queue t (lastd NULL (t :: l))) in
      set_aep_queue aepptr queue ;;;
      when (q_head queue =? NULL) (mod_aep aepptr (upd_aep_state AEPState_Idle))) (fun _ s' =>
    aep_rep s' aepptr (if bool_decide (l = []) then AEPState_Idle else AEPState_Waiting) b v l /\
    wait_frame l s s' /\
    s' = upd_ksAeps (ksAeps s') (upd_ksTcbs (ksTcbs s') s) /\
    (forall p, p <> aepptr -> ksAeps s' !! p = ksAeps s !! p)) s.
Proof.
  intros W [He Hl Hi]. wstep.
  assert (queue_rep (ep_links (ksTcbs s)) (mk_queue t (lastd NULL (t :: l))) ([] ++ t :: l)) as Q
    by exact (dseg_queue_rep _ (t :: l) Hl).
  eapply wp_mono; [apply (wp_tcbEPDequeue s _ [] t l Q); apply W|].
  intros q s1 [Q1 (E1 & U1 & L1)]. cbn beta. simpl app in *.
  pose proof (queue_rep_mk _ _ _ Q1) as ->. destruct Q1 as (_ & _ & Q1).
  assert (threads_wf s1) as W1 by (by eapply threads_wf_unep; [|exact W]).
  unfold set_aep_queue. wstep. eapply wp_mod_aep; [rewrite E1; exact He|]. ksimp.
  rewrite (stored_aqueue s1) by done. simpl q_head. simpl aep_state. simpl aepData. simpl aepMsgIdentifier.
  destruct l as [|x l].
  - simpl. eapply wp_mod_aep; [ksimp; by rewrite lookup_insert_eq|]. ksimp.
    split; [|split; [|split]].
    + split; [ksimp; by rewrite lookup_insert_eq|done|done].
    + split; [exact U1|exact L1].
    + rewrite E1. done.
    + intros p Hp. rewrite lookup_insert_ne by done. by rewrite E1.
  - pose proof Q1 as (Hx & _). simpl hd. rewrite (proj2 (Z.eqb_neq x NULL)) by done. simpl. wstep.
    split; [|split; [|split]].
    + split; [ksimp; by rewrite lookup_insert_eq|done|done].
    + split; [exact U1|exact L1].
    + rewrite E1. done.
    + intros p Hp. ksimp. rewrite lookup_insert_ne by done. by rewrite E1.
Qed.

(** ** Signals *)

(** The registers of a thread that receives a signal *)
Definition event_context (badge val : Z) (ctx : list Z) : list Z :=
  <[1%nat := message_info_new 0 0 0 1]> (<[0%nat := badge]> (<[2%nat := val]> ctx)).
Definition with_context (f : list Z -> list Z) (t : tcb) : tcb := upd_tcbContext (f t.(tcbContext)) t.

(** A register of the context *)
Ltac ctx_len :=
  unfold with_context, badgeRegister, msgInfoRegister; ksimp; rewrite ?length_insert; lia.

Lemma wp_setRegister' s t r w tc (Q : unit -> kstate -> Prop) :
  ksTcbs s !! t = Some tc -> (Z.to_nat r < length tc.(tcbContext))%nat ->
  Q tt (upd_ksTcbs (<[t := with_context (<[Z.to_nat r := w]>) tc]> (ksTcbs s)) s) ->
  wp (setRegister t r w) Q s.
Proof.
  intros Ht Hl HQ. destruct (lookup_lt_is_Some_2 _ _ Hl) as [v Hv]. by eapply wp_setRegister.
Qed.

Lemma wp_doAsyncTransfer s badge val t tc :
  ksTcbs s !! t = Some tc -> (3 <= length tc.(tcbContext))%nat ->
  wp (doAsyncTransfer badge val t) (fun _ s' =>
    s' = upd_ksTcbs (<[t := with_context (event_context badge val) tc]> (ksTcbs s)) s) s.
Proof.
  intros Ht Hl. unfold doAsyncTransfer. change (n_msgRegisters <? 1) with false. cbn match.
  wstep. wstep. apply (wp_exact _ _ _ 2 s); [done|].
  wstep. eapply wp_setRegister'; [done|ctx_len|]. wstep. ksimp.
  wstep. eapply wp_setRegister'; [apply lookup_insert_eq|ctx_len|]. ksimp.
  eapply wp_setRegister'; [apply lookup_insert_eq|ctx_len|]. ksimp.
  done.
Qed.

Lemma wp_bind3 {A B} (m : K A) (a b : A -> K unit) (k : K B) Q s :
  wp (let* q := m in a q ;;; b q) (fun _ => wp k Q) s -> wp (let* q := m in a q ;;; b q ;;; k) Q s.
Proof.
  unfold wp, bind. destruct (m s) as [q s1|]; [|done].
  destruct (a q s1) as [[] s2|]; [|done]. by destruct (b q s2) as [[] s3|].
Qed.

(** A thread but for its place in the queues *)
Definition core (t : tcb) : tcb := unep (unsched t).
Definition cores_updated (t : Z) (f : tcb -> tcb) (s s' : kstate) : Prop :=
  forall p, core <$> ksTcbs s' !! p = core <$> ((if p =? t then f else id) <$> ksTcbs s !! p).

Lemma unep_proj {A} (f : tcb -> A) (m m' : gmap Z tcb) p :
  (forall x, f (unep x) = f x) -> unep <$> m' !! p = unep <$> m !! p -> f <$> m' !! p = f <$> m !! p.
Proof.
  intros Hf E. destruct (m' !! p) as [a|], (m !! p) as [b|]; simpl in *; try done.
  assert (unep a = unep b) as U by congruence. by rewrite <- (Hf a), <- (Hf b), U.
Qed.

(** The states between which a woken thread is scheduled agree on what matters. *)
Lemma switch_abs_same s s1 rq target cur cur1 t t1 same :
  (forall p, sched_key <$> ksTcbs s1 !! p = sched_key <$> ksTcbs s !! p) ->
  ksCurDomain s1 = ksCurDomain s -> ksSchedulerAction s1 = ksSchedulerAction s ->
  cur1.(tcbPriority) = cur.(tcbPriority) -> t1.(tcbPriority) = t.(tcbPriority) ->
  t1.(tcbDomain) = t.(tcbDomain) ->
  switch_abs s1 rq target cur1 t1 same = switch_abs s rq target cur t same.
Proof.
  intros Hk Hd Ha Hc Hp Ht. unfold switch_abs, switch_now, switch_later. rewrite Hd, Ha, Hc, Hp, Ht.
  rewrite !(enqueued_key s s1) by done. done.
Qed.

Definition signalled (badge val : Z) (t : tcb) : tcb :=
  with_context (event_context badge val) (upd_tcbState (upd_tsType ThreadState_Running t.(tcbState)) t).

Lemma wp_signal_waiter s rq aepptr b v t l tc cur badge val :
  sched_rep s rq -> threads_wf s -> action_ok s ->
  aep_rep s aepptr AEPState_Waiting b v (t :: l) ->
  ksTcbs s !! t = Some tc -> (3 <= length tc.(tcbContext))%nat ->
  ksTcbs s !! ksCurThread s = Some cur ->
  wp (sendAsyncIPC aepptr badge val) (fun _ s' =>
    aep_rep s' aepptr (if bool_decide (l = []) then AEPState_Idle else AEPState_Waiting) b v l /\
    sched_rep s' (fst (switch_abs s rq t cur tc false)) /\
    ksSchedulerAction s' = snd (switch_abs s rq t cur tc false) /\
    cores_updated t (signalled badge val) s s') s.
Proof.
  intros R W A E Ht Hl Hc. pose proof (ar_aep _ _ _ _ _ _ E) as He.
  unfold sendAsyncIPC. wstep. eapply wp_get_aep; [exact He|].
  cbn [aep_state aep_ptr_get_queue aepQueue_head aepQueue_tail q_head hd].
  pose proof (ar_queue _ _ _ _ _ _ E) as (Ht0 & _ & _).
  wstep. apply wp_assert. { simpl. by rewrite (proj2 (Z.eqb_neq t NULL)). }
  apply (wp_bind3 (tcbEPDequeue _ _) (fun q => set_aep_queue aepptr q)
    (fun q => when (q_head q =? NULL) (mod_aep aepptr (upd_aep_state AEPState_Idle)))).
  eapply wp_mono; [by apply (wp_aep_first s aepptr b v t l)|].
  intros _ s1 (E1 & [U1 L1] & Es1 & O1). cbn beta.
  assert (forall p, sched_key <$> ksTcbs s1 !! p = sched_key <$> ksTcbs s !! p) as K1.
  { intros p. by apply unep_proj. }
  assert (sched_rep s1 rq) as R1.
  { eapply sched_rep_unep; [|exact U1|exact R]. by rewrite Es1. }
  destruct (ksTcbs s1 !! t) as [tc1|] eqn:Ht1.
  2: { specialize (U1 t). by rewrite Ht1, Ht in U1. }
  assert (unep tc1 = unep tc) as Utc by (specialize (U1 t); rewrite Ht1, Ht in U1; simpl in U1; congruence).
  wstep. apply wp_setThreadState; [by eexists|]. set (s2 := set_state s1 t ThreadState_Running).
  assert (s2 = upd_ksTcbs (ksTcbs s2) s1) as Es2.
  { unfold s2, set_state. simpl isRunnable_ts. rewrite andb_false_r. by destruct s1. }
  assert (sched_rep s2 rq) as R2 by by apply set_state_rep.
  set (tc2 := upd_tcbState (upd_tsType ThreadState_Running tc1.(tcbState)) tc1).
  assert (ksTcbs s2 !! t = Some tc2) as Ht2 by (unfold s2, set_state; ksimp; by rewrite lookup_alter_eq, Ht1).
  assert (length tc2.(tcbContext) = length tc.(tcbContext)) as Hl2.
  { change (tcbContext tc2) with (tcbContext (unep tc1)). by rewrite Utc. }
  wstep. eapply wp_mono; [apply wp_doAsyncTransfer; [exact Ht2|by rewrite Hl2]|]. intros [] s3 Es3. cbn beta.
  rewrite (insert_alter _ _ _ _ Ht2) in Es3.
  assert (sched_rep s3 rq) as R3 by (rewrite Es3; by apply sched_rep_alter).
  assert (forall p, unep <$> ksTcbs s3 !! p = unep <$> ((if p =? t then signalled badge val else id) <$> ksTcbs s !! p)) as U3.
  { intros p. rewrite Es3. ksimp. rewrite lookup_alter_at. unfold s2, set_state. ksimp. rewrite lookup_alter_at.
    specialize (U1 p). case_decide as Hp.
    - subst p. rewrite Z.eqb_refl, Ht1, Ht.
      change (Some (signalled badge val (unep tc1)) = Some (signalled badge val (unep tc))).
      by rewrite Utc.
    - rewrite (proj2 (Z.eqb_neq p t)) by congruence. rewrite U1. by rewrite option_fmap_id. }
  assert (forall p, sched_key <$> ksTcbs s3 !! p = sched_key <$> ksTcbs s !! p) as K3.
  { intros p. specialize (U3 p). destruct (p =? t).
    - destruct (ksTcbs s3 !! p) as [x3|], (ksTcbs s !! p) as [x|]; simpl in U3; try done. simpl. f_equal.
      assert (unep x3 = unep (signalled badge val x)) as U by congruence.
      by apply (f_equal sched_key) in U.
    - rewrite option_fmap_id in U3. by apply unep_proj. }
  assert (exists cur3, ksTcbs s3 !! ksCurThread s3 = Some cur3 /\ tcbPriority cur3 = tcbPriority cur) as (cur3 & Hc3 & Hpc).
  { replace (ksCurThread s3) with (ksCurThread s) by (by rewrite Es3, Es2, Es1).
    specialize (U3 (ksCurThread s)). rewrite Hc in U3. destruct (ksTcbs s3 !! ksCurThread s) as [x|]; simpl in U3; [|done].
    exists x. split; [done|]. destruct (ksCurThread s =? t); injection U3; congruence. }
  assert (exists t3, ksTcbs s3 !! t = Some t3 /\ tcbPriority t3 = tcbPriority tc /\ tcbDomain t3 = tcbDomain tc) as (t3 & Ht3 & Hpt & Hdt).
  { specialize (U3 t). rewrite Ht, Z.eqb_refl in U3. destruct (ksTcbs s3 !! t) as [x|]; [|done].
    exists x. split; [done|]. simpl in U3. injection U3; intros; split; congruence. }
  assert (ksSchedulerAction s3 = ksSchedulerAction s) as Ea by (by rewrite Es3, Es2, Es1).
  unfold switchIfRequiredTo. eapply wp_mono; [eapply (wp_possibleSwitchTo s3 rq); [done| |done|done]|].
  { unfold action_ok. rewrite Ea. intros [x Hx]%A. specialize (K3 (ksSchedulerAction s)). rewrite Hx in K3.
    destruct (ksTcbs s3 !! ksSchedulerAction s); [by eexists|done]. }
  rewrite (switch_abs_same s s3 rq t cur cur3 tc t3) by (try done; by rewrite Es3, Es2, Es1).
  intros _ s4 (R4 & A4 & F4). destruct F4 as [E4 U4]. split; [|split; [done|split; [done|]]].
  - destruct E1 as [Q1 Q2 Q3]. split; [|eapply dseg_ext; [|exact Q2]|done].
    + rewrite E4, Es3, Es2. exact Q1.
    + intros p _. trans (ep_links (ksTcbs s3) p).
      * specialize (U4 p). unfold ep_links, links_of.
        destruct (ksTcbs s4 !! p) as [x4|], (ksTcbs s3 !! p) as [x3|]; simpl in U4; try done.
        assert (unsched x4 = unsched x3) as V by congruence.
        apply (f_equal (fun x => (tcbEPPrev x, tcbEPNext x))) in V. simpl in *. congruence.
      * rewrite Es3. ksimp. unfold ep_links. rewrite links_of_same by done.
        unfold s2, set_state. ksimp. by rewrite links_of_same.
  - intros p. specialize (U4 p). specialize (U3 p).
    destruct (ksTcbs s4 !! p) as [x4|], (ksTcbs s3 !! p) as [x3|]; simpl in U4; try done.
    2: by destruct (ksTcbs s !! p).
    assert (unsched x4 = unsched x3) as V by congruence. simpl. unfold core at 1. rewrite V.
    destruct (ksTcbs s !! p) as [x|]; simpl in *; [|done]. f_equal.
    assert (unep x3 = unep ((if p =? t then signalled badge val else id) x)) as V3 by congruence.
    change (unep (unsched x3)) with (unsched (unep x3)). by rewrite V3.
Qed.
