(* ===== verification/EndpointSpec.v ===== *)
(** * Properties of endpoints

    Waiting, cancellation, signals: the queues of endpoints as lists, the states of
    the threads, and the accumulation of signals nobody waits for. *)
From stdpp Require Import base list gmap.
From Stdlib Require Import ZArith Lia.
From S2P Require Import Prelude.
From S2P Require Import Structures.
From S2P Require Import KernelState.
From S2P Require Import DList.
From S2P Require Import SchedQueue.
From S2P Require Import VSpace.
From S2P Require Import Scheduler.
From S2P Require Import MDB.
From S2P Require Import CSpace.
From S2P Require Import CapOps.
From S2P Require Import Endpoint.
From S2P Require Import Delete.
From S2P Require Import Ipc.
From S2P Require Import System.
From S2P Require Import SchedulerSpec.
From S2P Require Import EndpointQueues.

(** *** Signals to an endpoint nobody waits at accumulate *)
Definition send_all (aepptr : Z) (l : list (Z * Z)) : K unit :=
  foldr (fun bv k => sendAsyncIPC aepptr (fst bv) (snd bv) ;;; k) (ret tt) l.
Definition or_all (l : list Z) : Z := foldl Z.lor 0 l.

Lemma wp_send_active s aepptr l : forall b v h e, ksAeps s !! aepptr = Some (mk_async_endpoint v b h e AEPState_Active) ->
  wp (send_all aepptr l) (fun _ s' =>
    s' = upd_ksAeps (<[aepptr := mk_async_endpoint (foldl Z.lor v (snd <$> l)) (foldl Z.lor b (fst <$> l)) h e
                        AEPState_Active]> (ksAeps s)) s) s.
Proof.
  revert s. induction l as [|[b1 v1] l IH]; intros s b v h e He; simpl.
  - wstep. rewrite insert_id by done. by destruct s.
  - wstep. unfold sendAsyncIPC. wstep. eapply wp_get_aep; [exact He|]. cbn [aep_state].
    wstep. eapply wp_mod_aep; [exact He|]. ksimp.
    eapply wp_mod_aep; [apply lookup_insert_eq|]. ksimp.
    eapply wp_mono; [eapply IH; ksimp; apply lookup_insert_eq|]. intros [] s' ->. ksimp. done.
Qed.

Lemma wp_send_idle s aepptr b v l b0 v0 h e :
  ksAeps s !! aepptr = Some (mk_async_endpoint v0 b0 h e AEPState_Idle) ->
  wp (send_all aepptr ((b, v) :: l)) (fun _ s' =>
    s' = upd_ksAeps (<[aepptr := mk_async_endpoint (or_all (v :: (snd <$> l))) (or_all (b :: (fst <$> l))) h e
                        AEPState_Active]> (ksAeps s)) s) s.
Proof.
  intros He. simpl send_all. wstep. unfold sendAsyncIPC. wstep. eapply wp_get_aep; [exact He|]. cbn [aep_state].
  wstep. eapply wp_mod_aep; [exact He|]. ksimp.
  wstep. eapply wp_mod_aep; [apply lookup_insert_eq|]. ksimp.
  eapply wp_mod_aep; [apply lookup_insert_eq|]. ksimp.
  eapply wp_mono; [eapply wp_send_active; ksimp; apply lookup_insert_eq|]. intros [] s' ->. ksimp.
  unfold or_all. simpl. done.
Qed.

Lemma wp_receive_active s aepptr b v h e t tc badge send recv :
  ksAeps s !! aepptr = Some (mk_async_endpoint v b h e AEPState_Active) ->
  ksTcbs s !! t = Some tc -> (3 <= length tc.(tcbContext))%nat ->
  wp (receiveAsyncIPC t (Cap_async_endpoint badge send recv aepptr)) (fun _ s' =>
    s' = upd_ksAeps (<[aepptr := mk_async_endpoint v b h e AEPState_Idle]> (ksAeps s))
           (upd_ksTcbs (<[t := with_context (event_context b v) tc]> (ksTcbs s)) s)) s.
Proof.
  intros He Ht Hl. unfold receiveAsyncIPC. wstep. eapply wp_get_aep; [exact He|]. cbn [aep_state].
  wstep. eapply wp_mono; [by apply wp_doAsyncTransfer|]. intros [] s1 ->. cbn [aepMsgIdentifier aepData].
  eapply wp_mod_aep; [exact He|]. done.
Qed.

(** ** The properties *)

(** C28: a thread that sends to an endpoint without a receiver, or receives from one
    without a sender, is put at the end of the endpoint's queue in the blocked
    state that records the badge, the rights and the kind of operation; the
    endpoint is then in the state Send (Recv); ready queues and all other threads
    are unchanged, and a new thread is chosen when the current one blocked. *)
Theorem ipc_wait_fifo (s : kstate) (rq : Z -> list Z) (epptr : Z) (st : endpoint_state) (l : list Z)
    (t : Z) (tc : tcb) (badge : Z) (canGrant do_call send recv : bool)
    (R : sched_rep s rq) (W : threads_wf s) (E : ep_rep s epptr st l)
    (Ht : ksTcbs s !! t = Some tc) (Hn : t ∉ l) :
  (st <> EPState_Recv -> wp (sendIPC true do_call badge canGrant t epptr) (fun _ s' =>
     ep_rep s' epptr EPState_Send (l ++ [t]) /\
     waits s rq t tc (blocked_send tc epptr badge canGrant do_call) l s') s) /\
  (st <> EPState_Send -> wp (receiveIPC t (Cap_endpoint badge canGrant send recv epptr)) (fun _ s' =>
     ep_rep s' epptr EPState_Recv (l ++ [t]) /\
     waits s rq t tc (blocked_receive tc epptr (negb send)) l s') s).
Proof. split; intros Hst; [by eapply wp_sendIPC_wait|by eapply wp_receiveIPC_wait]. Qed.

Lemma sys_threads : threads_wf sys.
Proof.
  split; [reflexivity|]. intros p [t Ht].
  assert (map_Forall (fun p (_ : tcb) => field_high 28 p = p) sysTcbs) as H.
  { apply (bool_decide_unpack (map_Forall _ _)). vm_compute. exact I. }
  exact (H p t Ht).
Qed.
Lemma sys_action : action_ok sys.
Proof. intros H. vm_compute in H. discriminate H. Qed.
Lemma sys_epSend : ep_rep sys epSend EPState_Send [threadE; threadF].
Proof. split; [reflexivity|apply dseg_b_sound; reflexivity|split; discriminate]. Qed.
Lemma sys_aepWait : aep_rep sys aepWait AEPState_Waiting 0 0 [threadG].
Proof. split; [reflexivity|apply dseg_b_sound; reflexivity|split; [discriminate|reflexivity]]. Qed.

Lemma ipc_wait_fifo_witness :
  wp (sendIPC true false 9 true threadA epSend) (fun _ s' =>
    ep_rep s' epSend EPState_Send [threadE; threadF; threadA]) sys.
Proof.
  eapply wp_mono.
  - refine (proj1 (ipc_wait_fifo sys sysQ epSend EPState_Send [threadE; threadF] threadA (thread running 100 0 0)
      9 true false true true sys_sched sys_threads sys_epSend eq_refl _) _); [|discriminate].
    apply (bool_decide_unpack (threadA ∉ _)). vm_compute. exact I.
  - intros _ s' [H _]. exact H.
Defined.

(** C29: epCancelAll and aepCancelAll empty the queue of an endpoint whatever its
    length: the endpoint becomes idle, every thread of the queue is restarted and
    put at the head of its ready queue, the thread of a pending switch is queued
    too, a new choice is requested; no other thread changes. *)
Theorem cancelAll_restarts (s : kstate) (rq : Z -> list Z) (epptr aepptr : Z) (st : endpoint_state)
    (b v : Z) (l la : list Z)
    (R : sched_rep s rq) (A : action_ok s) (E : ep_rep s epptr st l) (Hst : st <> EPState_Idle)
    (Hn : ksSchedulerAction s ∉ l)
    (EA : aep_rep s aepptr AEPState_Waiting b v la) (Hna : ksSchedulerAction s ∉ la) :
  wp (epCancelAll epptr) (fun _ s' => ep_rep s' epptr EPState_Idle [] /\ cancelled s rq l s' /\
    s' = upd_ksSchedulerAction SchedulerAction_ChooseNewThread
           (upd_ksTcbs (ksTcbs s') (upd_ksReadyQueues (ksReadyQueues s')
             (upd_ksEps (<[epptr := mk_endpoint 0 0 EPState_Idle]> (ksEps s)) s)))) s /\
  wp (aepCancelAll aepptr) (fun _ s' => aep_rep s' aepptr AEPState_Idle b v [] /\ cancelled s rq la s' /\
    s' = upd_ksSchedulerAction SchedulerAction_ChooseNewThread
           (upd_ksTcbs (ksTcbs s') (upd_ksReadyQueues (ksReadyQueues s')
             (upd_ksAeps (<[aepptr := mk_async_endpoint v b 0 0 AEPState_Idle]> (ksAeps s)) s)))) s.
Proof. split; [by eapply wp_epCancelAll|by eapply wp_aepCancelAll]. Qed.

Lemma cancelAll_restarts_witness :
  wp (epCancelAll epSend) (fun _ s' => ep_rep s' epSend EPState_Idle [] /\
    sched_rep s' (restart_abs sys sysQ [threadE; threadF])) sys.
Proof.
  eapply wp_mono.
  - refine (proj1 (cancelAll_restarts sys sysQ epSend aepWait EPState_Send 0 0 [threadE; threadF] [threadG]
      sys_sched sys_action sys_epSend _ _ _ _)).
    + discriminate.
    + apply (bool_decide_unpack (_ ∉ [threadE; threadF])). vm_compute. exact I.
    + exact sys_aepWait.
    + apply (bool_decide_unpack (_ ∉ [threadG])). vm_compute. exact I.
  - intros _ s' (H1 & (H2 & _) & _). split; [exact H1|exact H2].
Defined.

(** C30: a signal to an asynchronous endpoint where threads wait wakes exactly the
    first of them: it leaves the queue (the endpoint is idle when none is left),
    becomes Running with the badge, a message of length one and the data in its
    registers, and is scheduled as possibleSwitchTo says; no other thread changes. *)
Theorem sendAsyncIPC_wakes_first (s : kstate) (rq : Z -> list Z) (aepptr b v t : Z) (l : list Z)
    (tc cur : tcb) (badge val : Z)
    (R : sched_rep s rq) (W : threads_wf s) (A : action_ok s)
    (E : aep_rep s aepptr AEPState_Waiting b v (t :: l))
    (Ht : ksTcbs s !! t = Some tc) (Hl : (3 <= length tc.(tcbContext))%nat)
    (Hc : ksTcbs s !! ksCurThread s = Some cur) :
  wp (sendAsyncIPC aepptr badge val) (fun _ s' =>
    aep_rep s' aepptr (if bool_decide (l = []) then AEPState_Idle else AEPState_Waiting) b v l /\
    sched_rep s' (fst (switch_abs s rq t cur tc false)) /\
    ksSchedulerAction s' = snd (switch_abs s rq t cur tc false) /\
    cores_updated t (signalled badge val) s s') s.
Proof. by apply wp_signal_waiter. Qed.

Lemma sendAsyncIPC_wakes_first_witness :
  wp (sendAsyncIPC aepWait 4 77) (fun _ s' =>
    aep_rep s' aepWait AEPState_Idle 0 0 [] /\ ksSchedulerAction s' = threadG) sys.
Proof.
  eapply wp_mono.
  - apply (sendAsyncIPC_wakes_first sys sysQ aepWait 0 0 threadG []
      (thread (blocked ThreadState_BlockedOnAsyncEvent 0 aepWait) 120 NULL NULL) (thread running 100 0 0) 4 77
      sys_sched sys_threads sys_action sys_aepWait); [reflexivity|cbn; lia|reflexivity].
  - intros _ s' (H1 & _ & H2 & _). split; [exact H1|exact H2].
Defined.

(** C31: signals are never lost: after any number of signals to an idle
    asynchronous endpoint, the next receiver gets the bitwise or of all the badges
    and the bitwise or of all the data, at once and without blocking, and the
    endpoint is idle again; nothing else changes. *)
Theorem signals_accumulate (s : kstate) (aepptr t : Z) (bv : Z * Z) (l : list (Z * Z))
    (b0 v0 h e : Z) (tc : tcb) (badge : Z) (send recv : bool)
    (He : ksAeps s !! aepptr = Some (mk_async_endpoint v0 b0 h e AEPState_Idle))
    (Ht : ksTcbs s !! t = Some tc) (Hl : (3 <= length tc.(tcbContext))%nat) :
  let badges := or_all (fst <$> bv :: l) in
  let vals := or_all (snd <$> bv :: l) in
  wp (send_all aepptr (bv :: l) ;;; receiveAsyncIPC t (Cap_async_endpoint badge send recv aepptr)) (fun _ s' =>
    s' = upd_ksAeps (<[aepptr := mk_async_endpoint vals badges h e AEPState_Idle]> (ksAeps s))
           (upd_ksTcbs (<[t := with_context (event_context badges vals) tc]> (ksTcbs s)) s)) s.
Proof.
  intros badges vals. destruct bv as [b v]. wstep. eapply wp_mono; [by eapply wp_send_idle|].
  intros [] s1 ->. eapply wp_mono; [eapply wp_receive_active; [ksimp; apply lookup_insert_eq|exact Ht|exact Hl]|].
  intros [] s2 ->. ksimp. done.
Qed.

Lemma signals_accumulate_witness :
  wp (send_all aepFree [(1, 16); (4, 3)] ;;; receiveAsyncIPC threadA (Cap_async_endpoint 0 true true aepFree))
    (fun _ s' => (fun t => firstn 3 t.(tcbContext)) <$> ksTcbs s' !! threadA = Some [5; 1; 19]) sys.
Proof.
  eapply wp_mono.
  - apply (signals_accumulate sys aepFree threadA (1, 16) [(4, 3)] 0 0 0 0 (thread running 100 0 0) 0 true true);
      [reflexivity|reflexivity|cbn; lia].
  - intros _ s' ->. reflexivity.
Defined.
