(* ===== verification/CapSpec.v ===== *)
(** * Properties of capabilities

    Rights, regions, badges and guards, zombies, message information: the functions
    on capabilities and packed words that read no state. *)
From stdpp Require Import base list gmap.
From Stdlib Require Import ZArith Lia.
From S2P Require Import Prelude.
From S2P Require Import Words.
From S2P Require Import Structures.
From S2P Require Import KernelState.
From S2P Require Import VSpace.
From S2P Require Import CapOps.

(** ** Rights

    The rights a capability carries: grant, write (send) and read (receive). A frame's are those of user programs. *)
Definition vm_access (r : Z) : bool * bool * bool :=
  (false, r =? VMReadWrite, (r =? VMReadWrite) || (r =? VMReadOnly)).
Definition cap_rights_of (c : cap) : option (bool * bool * bool) :=
  match c with
  | Cap_endpoint _ grant send recv _ => Some (grant, send, recv)
  | Cap_async_endpoint _ send recv _ => Some (false, send, recv)
  | Cap_small_frame _ r _ _ _ | Cap_frame _ _ r _ _ _ => Some (vm_access r)
  | _ => None
  end.
(** What a mask leaves of them: bit 0 of the mask is the right to write, bit 1 to read, bit 2 to grant. A frame that cannot
    be read cannot be written either. *)
Definition allowed_rights (m : Z) (c : cap) (x : bool * bool * bool) : bool * bool * bool :=
  let '(grant, write, read) := x in
  let frame := bool_decide (cap_get_capType c ∈ [cap_small_frame_cap; cap_frame_cap]) in
  (grant && Z.testbit m 2, write && Z.testbit m 0 && (negb frame || Z.testbit m 1), read && Z.testbit m 1).
(** The capability without its rights *)
Definition without_rights (c : cap) : cap :=
  match c with
  | Cap_endpoint b _ _ _ p => Cap_endpoint b false false false p
  | Cap_async_endpoint b _ _ p => Cap_async_endpoint b false false p
  | Cap_small_frame lo _ a hi b => Cap_small_frame lo VMNoAccess a hi b
  | Cap_frame sz lo _ a hi b => Cap_frame sz lo VMNoAccess a hi b
  | c => c
  end.
Definition no_access (c : cap) : bool :=
  match c with Cap_small_frame _ r _ _ _ | Cap_frame _ _ r _ _ _ => r =? VMNoAccess | _ => false end.

(** A stored rights field *)
Definition vm_rights_wf (c : cap) : Prop :=
  match c with
  | Cap_small_frame _ r _ _ _ | Cap_frame _ _ r _ _ _ => 0 <= r < 4
  | _ => True
  end.

Lemma flag_land a b i : 0 <= i -> bf_flag (Z.land a b) i = bf_flag a i && bf_flag b i.
Proof. intros. unfold bf_flag. by rewrite Z.land_spec. Qed.

Lemma maskVMRights_cases r m : 0 <= r < 4 ->
  vm_access (maskVMRights r m) = allowed_rights m (Cap_small_frame 0 r 0 0 0) (vm_access r) /\
  (maskVMRights r m =? VMNoAccess) = (r =? VMNoAccess) /\ field 2 (maskVMRights r m) = maskVMRights r m.
Proof.
  intros H. assert (r = 0 \/ r = 1 \/ r = 2 \/ r = 3) as Hr by lia. unfold maskVMRights, allowed_rights.
  unfold cap_rights_get_capAllowRead, cap_rights_get_capAllowWrite, bf_flag.
  destruct Hr as [->|[->|[->| ->]]], (Z.testbit m 0), (Z.testbit m 1); done.
Qed.

Lemma maskVMRights_twice r m1 m2 : 0 <= r < 4 ->
  maskVMRights (maskVMRights r m1) m2 = maskVMRights r (Z.land m2 m1).
Proof.
  intros H. assert (r = 0 \/ r = 1 \/ r = 2 \/ r = 3) as Hr by lia. unfold maskVMRights.
  unfold cap_rights_get_capAllowRead, cap_rights_get_capAllowWrite. rewrite !flag_land by done.
  destruct Hr as [->|[->|[->| ->]]], (bf_flag m1 1), (bf_flag m2 1), (bf_flag m1 0), (bf_flag m2 0); simpl; done.
Qed.

Section mask.
Context (m : Z).
Lemma mask_endpoint b g s r p : maskCapRights m (Cap_endpoint b g s r p) =
  Cap_endpoint b (g && cap_rights_get_capAllowGrant m) (s && cap_rights_get_capAllowWrite m)
    (r && cap_rights_get_capAllowRead m) p.
Proof. reflexivity. Qed.
Lemma mask_async_endpoint b s r p : maskCapRights m (Cap_async_endpoint b s r p) =
  Cap_async_endpoint b (s && cap_rights_get_capAllowWrite m) (r && cap_rights_get_capAllowRead m) p.
Proof. reflexivity. Qed.
Lemma mask_small_frame lo r a hi b : maskCapRights m (Cap_small_frame lo r a hi b) =
  Cap_small_frame lo (field 2 (maskVMRights r m)) a hi b.
Proof. reflexivity. Qed.
Lemma mask_frame sz lo r a hi b : maskCapRights m (Cap_frame sz lo r a hi b) =
  Cap_frame sz lo (field 2 (maskVMRights r m)) a hi b.
Proof. reflexivity. Qed.
End mask.

Lemma andb_swap a b c : a && b && c = a && (c && b).
Proof. by destruct a, b, c. Qed.

(** C37: maskCapRights leaves of the rights of a capability exactly those that the mask has as well, each of the three by
    its own bit; a frame that user programs may not read they may not write either, and the kernel keeps it, unless nobody
    had access. Nothing but the rights changes, and a capability of a type without rights not at all. Masking twice is
    masking with the intersection of the masks. *)
Theorem maskCapRights_intersects (r1 r2 : Z) (c : cap) (W : vm_rights_wf c) :
  cap_rights_of (maskCapRights r1 c) = allowed_rights r1 c <$> cap_rights_of c /\
  without_rights (maskCapRights r1 c) = without_rights c /\
  no_access (maskCapRights r1 c) = no_access c /\
  (cap_rights_of c = None -> maskCapRights r1 c = c) /\
  maskCapRights r2 (maskCapRights r1 c) = maskCapRights (Z.land r2 r1) c.
Proof.
  destruct c; try (split_and!; by simpl).
  - rewrite !mask_endpoint. unfold cap_rights_get_capAllowRead, cap_rights_get_capAllowWrite, cap_rights_get_capAllowGrant.
    rewrite !flag_land by done. split_and!; try done; [cbn; by rewrite andb_true_r|f_equal; apply andb_swap].
  - rewrite !mask_async_endpoint. unfold cap_rights_get_capAllowRead, cap_rights_get_capAllowWrite.
    rewrite !flag_land by done. split_and!; try done; [cbn; by rewrite andb_true_r|f_equal; apply andb_swap].
  - destruct (maskVMRights_cases capFVMRights r1 W) as (Ha & Hn & E).
    rewrite mask_small_frame, E, !mask_small_frame, maskVMRights_twice by done. split_and!; try done. cbn [cap_rights_of]. by rewrite Ha.
  - destruct (maskVMRights_cases capFVMRights r1 W) as (Ha & Hn & E).
    rewrite mask_frame, E, !mask_frame, maskVMRights_twice by done. split_and!; try done. cbn [cap_rights_of]. by rewrite Ha.
Qed.

(** A mask that allows to write and grant takes the access to a frame away; one that allows to read makes it read-only. *)
Lemma maskCapRights_intersects_witness :
  cap_rights_of (maskCapRights 5 (Cap_frame 1 0 VMReadWrite 0 0 0x80010000)) = Some (false, false, false) /\
  maskCapRights 3 (maskCapRights 6 (Cap_frame 1 0 VMReadWrite 0 0 0x80010000)) = Cap_frame 1 0 VMReadOnly 0 0 0x80010000.
Proof.
  assert (vm_rights_wf (Cap_frame 1 0 VMReadWrite 0 0 0x80010000)) as W by (split; [discriminate|reflexivity]).
  split.
  - rewrite (proj1 (maskCapRights_intersects 5 3 _ W)). reflexivity.
  - destruct (maskCapRights_intersects 6 3 _ W) as (_ & _ & _ & _ & ->). reflexivity.
Defined.

(** ** Regions *)

(** A capability that names memory: its region is a range of words of the address
    space, not at 0. *)
Definition region_wf (c : cap) : Prop :=
  0 < cap_get_capPtr c /\ 0 <= cap_get_capSizeBits c < 32 /\
  cap_get_capPtr c + 2 ^ cap_get_capSizeBits c <= 2 ^ 32.
Definition in_cap (c : cap) (a : Z) : Prop :=
  cap_get_capPtr c <= a < cap_get_capPtr c + 2 ^ cap_get_capSizeBits c.

Lemma region_top c : region_wf c ->
  cap_get_capPtr c +w MASK (cap_get_capSizeBits c) = cap_get_capPtr c + 2 ^ cap_get_capSizeBits c - 1.
Proof.
  intros (H1 & H2 & H3). rewrite MASK_pow by done. unfold wadd, wrap.
  pose proof (Z.pow_pos_nonneg 2 (cap_get_capSizeBits c) ltac:(lia) ltac:(lia)).
  rewrite Z.mod_small; lia.
Qed.

(** C38: an untyped capability covers another capability exactly when every byte of
    the other one's object is a byte of its region; two frames are in this
    relation under the same condition. *)
Theorem sameRegionAs_contains (a b : cap) (Wa : region_wf a) (Wb : region_wf b)
    (Ha : cap_get_capType a = cap_untyped_cap \/
          (cap_get_capType a ∈ [cap_small_frame_cap; cap_frame_cap] /\
           cap_get_capType b ∈ [cap_small_frame_cap; cap_frame_cap])) :
  sameRegionAs a b = true <-> forall x, in_cap b x -> in_cap a x.
Proof.
  assert (sameRegionAs a b = (cap_get_capPtr a <=? cap_get_capPtr b) &&
    (cap_get_capPtr b +w MASK (cap_get_capSizeBits b) <=? cap_get_capPtr a +w MASK (cap_get_capSizeBits a)) &&
    (cap_get_capPtr b <=? cap_get_capPtr b +w MASK (cap_get_capSizeBits b))) as ->.
  { assert (negb (cap_get_capPtr b =? 0) = true) as Hnz.
    { destruct Wb as (H & _). apply negb_true_iff, Z.eqb_neq. lia. }
    destruct Ha as [Ha|[Ha Hb]].
    - destruct a; try done. unfold sameRegionAs. by rewrite Hnz.
    - rewrite !elem_of_cons, elem_of_nil in Ha, Hb.
      destruct Ha as [Ha|[Ha|[]]], Hb as [Hb|[Hb|[]]]; destruct a, b; try done;
        match goal with |- sameRegionAs ?a ?b = _ => change (sameRegionAs a b) with (Arch_sameRegionAs a b) end;
        unfold Arch_sameRegionAs; by rewrite Z.geb_leb. }
  rewrite !region_top by done. rewrite !andb_true_iff, !Z.leb_le. unfold in_cap.
  destruct Wa as (A1 & A2 & A3), Wb as (B1 & B2 & B3).
  pose proof (Z.pow_pos_nonneg 2 (cap_get_capSizeBits a) ltac:(lia) ltac:(lia)).
  pose proof (Z.pow_pos_nonneg 2 (cap_get_capSizeBits b) ltac:(lia) ltac:(lia)).
  split; [intros [[? ?] ?] x; lia|]. intros H1.
  pose proof (H1 (cap_get_capPtr b) ltac:(lia)).
  pose proof (H1 (cap_get_capPtr b + 2 ^ cap_get_capSizeBits b - 1) ltac:(lia)). lia.
Qed.

Lemma sameRegionAs_contains_witness :
  sameRegionAs (Cap_untyped 0 20 0x80000000) (Cap_endpoint 5 true true true 0x80000400) = true.
Proof.
  apply (sameRegionAs_contains (Cap_untyped 0 20 0x80000000) (Cap_endpoint 5 true true true 0x80000400)).
  - split; [reflexivity|]. split; [split; [discriminate|reflexivity]|discriminate].
  - split; [reflexivity|]. split; [split; [discriminate|reflexivity]|discriminate].
  - left. reflexivity.
  - intros x. unfold in_cap, cap_get_capPtr, cap_get_capSizeBits, EP_SIZE_BITS. lia.
Defined.

(** ** Badges *)

(** C39: updateCapData gives an endpoint capability a badge only once: an unbadged
    capability takes the low 28 bits of the data when the update need not preserve
    the capability, a badged one is never changed but becomes the null capability.
    A guard it sets on a node capability fits the address space and its own size. *)
Theorem updateCapData_once (preserve : bool) (data : Z) (c : cap) :
  match c, updateCapData preserve data c with
  | Cap_endpoint b g s r p, c' =>
      if negb preserve && (b =? 0) then c' = Cap_endpoint (data mod 2 ^ 28) g s r p else c' = Cap_null
  | Cap_async_endpoint b s r p, c' =>
      if negb preserve && (b =? 0) then c' = Cap_async_endpoint (data mod 2 ^ 28) s r p else c' = Cap_null
  | Cap_cnode radix _ _ ptr, Cap_cnode radix' guardSize guard ptr' =>
      radix' = radix /\ ptr' = ptr /\ guardSize + radix <= wordBits /\ 0 <= guard < 2 ^ guardSize
  | Cap_cnode radix _ _ _, c' => c' = Cap_null /\ cnode_capdata_get_guardSize data + radix > wordBits
  | _, c' => c' = c
  end.
Proof.
  destruct c; try reflexivity.
  - unfold updateCapData. simpl isArchCap. cbn match. destruct (_ && _); [|done].
    unfold field. by rewrite Z.land_ones.
  - unfold updateCapData. simpl isArchCap. cbn match. destruct (_ && _); [|done].
    unfold field. by rewrite Z.land_ones.
  - unfold updateCapData. simpl isArchCap. cbn match.
    set (gs := cnode_capdata_get_guardSize data).
    assert (0 <= gs < 32) as Hgs.
    { unfold gs, cnode_capdata_get_guardSize, bf_get. rewrite Z.land_ones by done. by apply Z.mod_pos_bound. }
    destruct (Z.gtb_spec (gs + capCNodeRadix) wordBits) as [H|H]; [split; [done|lia]|].
    assert (field 5 gs = gs) as ->.
    { unfold field. rewrite Z.land_ones by done. apply Z.mod_small. done. }
    split_and!; try done; try lia.
    + unfold field. rewrite Z.land_ones by done. by apply Z.mod_pos_bound.
    + rewrite land_MASK by done. unfold field. rewrite Z.land_ones by done.
      pose proof (Z.mod_pos_bound (cnode_capdata_get_guard data) (2 ^ gs)
        ltac:(apply Z.pow_pos_nonneg; lia)) as Hg.
      eapply Z.le_lt_trans; [|apply Hg]. apply Z.mod_le; lia.
Qed.

(** ** Zombies *)

(** C0: the number and the pointer packed in a zombie capability are the ones it was
    made with, and setting the number keeps the pointer: for the node of a TCB, and
    for a node of [2^n] slots at an address aligned to its size. *)
Lemma zombie_roundtrip (type bits ptr n m : Z)
    (Ht : (type = ZombieType_ZombieTCB /\ bits = TCB_CNODE_RADIX) \/ (type = bits /\ 0 <= bits < 28))
    (Hp : is_word ptr) (Ha : ptr mod 2 ^ (bits + 1) = 0)
    (Hn : 0 <= n <= 2 ^ bits) (Hm : 0 <= m <= 2 ^ bits) :
  exists id, Zombie_new n type ptr = Cap_zombie id type /\
    zombie_number id type = n /\ zombie_ptr id type = ptr /\
    exists id', zombie_set_number id type m = Cap_zombie id' type /\
      zombie_number id' type = m /\ zombie_ptr id' type = ptr.
Proof.
  assert (zombie_bits type = bits /\ 0 <= bits < 28 /\ field 6 type = type /\
    (if type =? ZombieType_ZombieTCB then MASK (TCB_CNODE_RADIX + 1) else MASK (type + 1)) = MASK (bits + 1)) as (Eb & Hb & Ef & Em).
  { destruct Ht as [[-> ->]|[-> Hb]].
    - split_and!; done.
    - assert (bits <> ZombieType_ZombieTCB) as Hne by (change ZombieType_ZombieTCB with 32; lia).
      unfold zombie_bits. rewrite (proj2 (Z.eqb_neq _ _) Hne). split_and!; try done; try lia.
      + unfold ZombieType_ZombieCNode. rewrite land_MASK by done. apply Z.mod_small. change (2 ^ 5) with 32. lia.
      + unfold field. rewrite Z.land_ones by done. apply Z.mod_small. change (2 ^ 6) with 64. lia. }
  assert (2 ^ bits < 2 ^ (bits + 1)) as Hpow.
  { apply Z.pow_lt_mono_r; lia. }
  assert (forall k, 0 <= k <= 2 ^ bits -> let id := field 32 (ptr |w (k &w MASK (bits + 1))) in
    id = ptr + k) as Hid.
  { intros k Hk id. unfold id. rewrite land_MASK by lia. rewrite (Z.mod_small k) by lia.
    assert (ptr |w k = ptr + k) as ->.
    { rewrite <- (Z.add_lor_land ptr k). replace (ptr &w k) with 0; [lia|]. symmetry.
      apply Z.bits_inj'. intros i Hi. rewrite Z.bits_0, Z.land_spec.
      destruct (Z.lt_ge_cases i (bits + 1)) as [Hlt|Hge].
      - rewrite <- (Z.mod_pow2_bits_low ptr (bits + 1) i) by lia. by rewrite Ha, Z.bits_0.
      - rewrite <- (Z.mod_small k (2 ^ (bits + 1))) by lia. rewrite Z.mod_pow2_bits_high by lia. apply andb_false_r. }
    unfold field. rewrite Z.land_ones by done. apply Z.mod_small. unfold is_word in Hp.
    apply Z.mod_divide in Ha as [q Hq]; [|lia]. split; [lia|].
    assert (2 ^ 32 = 2 ^ (31 - bits) * 2 ^ (bits + 1)) as E32 by (rewrite <- Z.pow_add_r by lia; f_equal; lia).
    set (P := 2 ^ (bits + 1)) in *. set (C := 2 ^ (31 - bits)) in *.
    assert (q < C) by (apply (Z.mul_lt_mono_pos_r P); lia).
    assert ((q + 1) * P <= C * P) by (apply Z.mul_le_mono_nonneg_r; lia). lia. }
  assert (forall k, 0 <= k <= 2 ^ bits -> zombie_number (ptr + k) type = k /\ zombie_ptr (ptr + k) type = ptr) as Hget.
  { intros k Hk. unfold zombie_number, zombie_ptr. rewrite Eb.
    assert (is_word (ptr + k)).
    { rewrite <- (Hid k Hk). unfold is_word, field. rewrite Z.land_ones by done. by apply Z.mod_pos_bound. }
    rewrite land_MASK, land_not_MASK by (done || lia).
    apply Z.mod_divide in Ha as [q ->]; [|lia].
    split.
    - rewrite Z.add_comm, Z.mod_add by lia. apply Z.mod_small. lia.
    - rewrite Z.div_add_l by lia. rewrite (Z.div_small k) by lia. lia. }
  exists (ptr + n). destruct (Hget n Hn) as [G1 G2]. destruct (Hget m Hm) as [G3 G4].
  split_and!; try done.
  - unfold Zombie_new. rewrite Em. unfold cap_zombie_cap_new. rewrite Ef. f_equal.
    rewrite <- (Hid n Hn). f_equal. f_equal. rewrite land_not_MASK by (done || lia).
    apply Z.mod_divide in Ha as [q ->]; [|lia]. rewrite Z.div_mul by lia. lia.
  - exists (ptr + m). split_and!; try done. unfold zombie_set_number. rewrite Eb. f_equal.
    rewrite <- (Hid m Hm). f_equal. f_equal. fold (zombie_bits type).
    unfold zombie_ptr in G2. rewrite Eb in G2. exact G2.
Qed.

Lemma zombie_roundtrip_witness :
  exists id, Zombie_new 5 ZombieType_ZombieTCB 0xe0002000 = Cap_zombie id ZombieType_ZombieTCB /\
    zombie_number id ZombieType_ZombieTCB = 5.
Proof.
  destruct (zombie_roundtrip ZombieType_ZombieTCB TCB_CNODE_RADIX 0xe0002000 5 4) as (id & H1 & H2 & _).
  - left. split; reflexivity.
  - split; [discriminate|reflexivity].
  - reflexivity.
  - split; discriminate.
  - split; discriminate.
  - exists id. split; [exact H1|exact H2].
Defined.

(** ** Message information *)
Lemma bf_set_get w s n v : 0 <= s -> 0 <= n -> bf_get (bf_set w s n v) s n = v mod 2 ^ n.
Proof.
  intros Hs Hn. unfold bf_get, bf_set. rewrite <- (Z.land_ones v n) by done. apply Z.bits_inj'. intros i Hi.
  rewrite !Z.land_spec, Z.shiftr_spec, Z.lor_spec, Z.ldiff_spec, Z.land_spec, !Z.shiftl_spec by lia.
  replace (i + s - s) with i by lia.
  destruct (Z.lt_ge_cases i n).
  - rewrite Z.ones_spec_low by lia. by rewrite andb_false_r, !andb_true_r.
  - rewrite Z.ones_spec_high by lia. by rewrite !andb_false_r.
Qed.

Lemma bf_set_other w s n v s' n' : 0 <= s -> 0 <= n -> 0 <= s' -> 0 <= n' -> (s' + n' <= s \/ s + n <= s') ->
  bf_get (bf_set w s n v) s' n' = bf_get w s' n'.
Proof.
  intros. unfold bf_get, bf_set. apply Z.bits_inj'. intros i Hi.
  rewrite !Z.land_spec, !Z.shiftr_spec, Z.lor_spec, Z.ldiff_spec, Z.land_spec by lia.
  destruct (Z.lt_ge_cases i n').
  - rewrite (Z.ones_spec_low n') by lia. rewrite !andb_true_r.
    assert (Z.testbit (Z.shiftl (Z.ones n) s) (i + s') = false) as ->.
    { destruct (Z.lt_ge_cases (i + s') s).
      - by apply Z.shiftl_spec_low.
      - rewrite Z.shiftl_spec by lia. apply Z.ones_spec_high. lia. }
    by rewrite andb_false_r, orb_false_r, andb_true_r.
  - rewrite (Z.ones_spec_high n') by lia. by rewrite !andb_false_r.
Qed.

(** C40: messageInfoFromWord bounds the message length a thread can claim by
    seL4_MsgMaxLength and keeps the label and the capability fields. *)
Theorem messageInfoFromWord_bounds (w : Z) :
  0 <= message_info_get_msgLength (messageInfoFromWord w) <= seL4_MsgMaxLength /\
  message_info_get_msgLength (messageInfoFromWord w) = Z.min (message_info_get_msgLength w) seL4_MsgMaxLength /\
  message_info_get_msgLabel (messageInfoFromWord w) = message_info_get_msgLabel w /\
  message_info_get_msgExtraCaps (messageInfoFromWord w) = message_info_get_msgExtraCaps w /\
  message_info_get_msgCapsUnwrapped (messageInfoFromWord w) = message_info_get_msgCapsUnwrapped w.
Proof.
  unfold messageInfoFromWord. assert (0 <= message_info_get_msgLength w).
  { unfold message_info_get_msgLength, bf_get. rewrite Z.land_ones by done. by apply Z.mod_pos_bound. }
  destruct (Z.gtb_spec (message_info_get_msgLength w) seL4_MsgMaxLength); [|split_and!; lia].
  assert (message_info_get_msgLength (message_info_set_msgLength w seL4_MsgMaxLength) = seL4_MsgMaxLength) as E.
  { unfold message_info_get_msgLength, message_info_set_msgLength. by rewrite bf_set_get. }
  rewrite E. split; [done|]. split; [lia|].
  unfold message_info_get_msgLabel, message_info_get_msgExtraCaps, message_info_get_msgCapsUnwrapped,
    message_info_set_msgLength. by rewrite !bf_set_other by lia.
Qed.
