(* ===== verification/CSpaceSpec.v ===== *)
(** * Properties of capability address resolution

    A bit-by-bit description of the resolution of an address, and the proof that
    resolveAddressBits terminates and implements it. *)
From stdpp Require Import base list gmap.
From Stdlib Require Import ZArith Lia.
From S2P Require Import Prelude.
From S2P Require Import Words.
From S2P Require Import Structures.
From S2P Require Import KernelState.
From S2P Require Import VSpace.
From S2P Require Import MDB.
From S2P Require Import CSpace.
From S2P Require Import System.
From S2P Require Import CapSpec.

(** ** Addresses as sequences of bits *)

(** The low [n] bits of a word, from the highest one, and the number bits denote *)
Fixpoint bits (n : nat) (w : Z) : list bool :=
  match n with O => [] | S n' => Z.testbit w (Z.of_nat n') :: bits n' w end.
Definition bits_val (l : list bool) : Z := foldl (fun acc b => 2 * acc + Z.b2z b) 0 l.

Lemma bits_length n w : length (bits n w) = n.
Proof. induction n; simpl; congruence. Qed.

Lemma bits_mod n m w : (n <= m)%nat -> bits n (w mod 2 ^ Z.of_nat m) = bits n w.
Proof.
  induction n as [|n IH]; intros H; [done|]. simpl. rewrite IH by lia. f_equal.
  apply Z.mod_pow2_bits_low. lia.
Qed.

Lemma foldl_bits acc l : foldl (fun acc b => 2 * acc + Z.b2z b) acc l = acc * 2 ^ Z.of_nat (length l) + bits_val l.
Proof.
  revert acc. unfold bits_val. induction l as [|b l IH]; intros acc; simpl length; [cbn; lia|].
  cbn [foldl]. rewrite IH, (IH (2 * 0 + Z.b2z b)). rewrite Nat2Z.inj_succ, Z.pow_succ_r by lia. ring.
Qed.

Lemma bits_val_cons b l : bits_val (b :: l) = Z.b2z b * 2 ^ Z.of_nat (length l) + bits_val l.
Proof. unfold bits_val at 1. cbn [foldl]. rewrite foldl_bits. f_equal. Qed.

Lemma bits_val_bits n w : bits_val (bits n w) = w mod 2 ^ Z.of_nat n.
Proof.
  induction n as [|n IH]; [symmetry; apply Z.mod_1_r|].
  cbn [bits]. rewrite bits_val_cons, bits_length, IH, Nat2Z.inj_succ.
  rewrite (Z.testbit_spec' w (Z.of_nat n)) by lia.
  rewrite Z.pow_succ_r by lia. rewrite (Z.mul_comm 2 (2 ^ Z.of_nat n)).
  rewrite Z.rem_mul_r by lia. lia.
Qed.

Lemma bits_val_inj l1 l2 : length l1 = length l2 -> bits_val l1 = bits_val l2 -> l1 = l2.
Proof.
  revert l2. induction l1 as [|a l1 IH]; intros [|b l2] Hl; try done. injection Hl as Hl.
  rewrite !bits_val_cons, <- Hl. intros E.
  assert (forall l, 0 <= bits_val l < 2 ^ Z.of_nat (length l)) as Hb.
  { clear. induction l as [|b l IH]; [done|]. rewrite bits_val_cons. simpl length.
    rewrite Nat2Z.inj_succ, Z.pow_succ_r by lia. destruct b; simpl; lia. }
  pose proof (Hb l1). pose proof (Hb l2). rewrite <- Hl in *.
  assert (a = b) as -> by (destruct a, b; simpl in E; done || lia). f_equal. apply IH; [done|lia].
Qed.

Lemma bits_take k n w : (k <= n)%nat -> take k (bits n w) = bits k (Z.shiftr w (Z.of_nat (n - k))).
Proof.
  revert k. induction n as [|n IH]; intros k H; [by replace k with 0%nat by lia|].
  destruct k as [|k]; [done|]. cbn [bits take]. f_equal.
  - rewrite Z.shiftr_spec by lia. f_equal. lia.
  - rewrite IH by lia. done.
Qed.

Lemma bits_drop k n w : drop k (bits n w) = bits (n - k) w.
Proof.
  revert k. induction n as [|n IH]; intros [|k]; try done. cbn [bits drop]. by rewrite IH.
Qed.

(** The value of a field of an address, as the kernel computes it *)
Lemma field_bits k n w : (k <= n)%nat -> (k < 32)%nat ->
  (w >>w Z.of_nat (n - k)) &w MASK (Z.of_nat k) = bits_val (take k (bits n w)).
Proof.
  intros H Hk. rewrite bits_take by done. rewrite bits_val_bits. apply land_MASK. lia.
Qed.

(** ** Resolution of an address, bit by bit

    An address is a list of bits; a node capability with guard [g] and radix [r]
    takes the bits of its guard off the address, and uses the next [r] as index of
    a slot; when bits remain and the slot holds a node, it goes on from there. *)
Inductive resolved :=
| ResolvedSlot (slot : Z) (bitsRemaining : nat)
| ResolvedFault (f : lookup_fault).

Inductive resolves (caps : Z -> option cap) : cap -> list bool -> resolved -> Prop :=
| resolves_guard r gs g p a :
    bits_val (take (Z.to_nat gs) a) <> g \/ Z.of_nat (length a) < gs ->
    resolves caps (Cap_cnode r gs g p) a
      (ResolvedFault (lookup_fault_guard_mismatch_new g (Z.of_nat (length a)) gs))
| resolves_depth r gs g p a :
    gs <= Z.of_nat (length a) < r + gs -> bits_val (take (Z.to_nat gs) a) = g ->
    resolves caps (Cap_cnode r gs g p) a
      (ResolvedFault (lookup_fault_depth_mismatch_new (r + gs) (Z.of_nat (length a))))
| resolves_here r gs g p a1 a2 slot :
    bits_val a1 = g -> Z.of_nat (length a1) = gs -> Z.of_nat (length a2) = r ->
    slot = cte_at p (bits_val a2) ->
    resolves caps (Cap_cnode r gs g p) (a1 ++ a2) (ResolvedSlot slot 0)
| resolves_leaf r gs g p a1 a2 a3 slot c :
    bits_val a1 = g -> Z.of_nat (length a1) = gs -> Z.of_nat (length a2) = r -> a3 <> [] ->
    slot = cte_at p (bits_val a2) -> caps slot = Some c -> cap_get_capType c <> cap_cnode_cap ->
    resolves caps (Cap_cnode r gs g p) (a1 ++ a2 ++ a3) (ResolvedSlot slot (length a3))
| resolves_step r gs g p a1 a2 a3 slot c res :
    bits_val a1 = g -> Z.of_nat (length a1) = gs -> Z.of_nat (length a2) = r -> a3 <> [] ->
    slot = cte_at p (bits_val a2) -> caps slot = Some c -> cap_get_capType c = cap_cnode_cap ->
    resolves caps c a3 res ->
    resolves caps (Cap_cnode r gs g p) (a1 ++ a2 ++ a3) res.

Definition caps_of (s : kstate) (p : Z) : option cap := cte_cap <$> ksCtes s !! p.

(** A node: its fields have their widths, it resolves at least one bit, and its slots exist. *)
Definition node_wf (s : kstate) (c : cap) : Prop :=
  match c with
  | Cap_cnode r gs g p => 0 <= r < 32 /\ 0 <= gs < 32 /\ 0 < r + gs /\
      forall i, 0 <= i < 2 ^ r -> is_Some (ksCtes s !! cte_at p i)
  | _ => True
  end.
Definition nodes_wf (s : kstate) : Prop := forall p c, caps_of s p = Some c -> node_wf s c.

(** What a result says of the resolution *)
Definition result_of (s : kstate) (n_bits : Z) (rr : resolve_ret) (s' : kstate) (res : resolved) : Prop :=
  match res with
  | ResolvedSlot slot rest =>
      s' = s /\ rr = mk_resolve_ret EXCEPTION_NONE slot (Z.of_nat rest)
  | ResolvedFault f =>
      s' = upd_current_lookup_fault f s /\ rr = mk_resolve_ret EXCEPTION_LOOKUP_FAULT NULL n_bits
  end.

Lemma wp_resolve_loop s c capptr bits0 : nodes_wf s -> forall fuel n_bits,
  node_wf s c -> cap_get_capType c = cap_cnode_cap -> (n_bits <= 32)%nat -> (n_bits < fuel)%nat ->
  wp (resolve_loop fuel c capptr (Z.of_nat n_bits) bits0) (fun rr s' =>
    exists res, resolves (caps_of s) c (bits n_bits capptr) res /\ result_of s bits0 rr s' res) s.
Proof.
  intros Hwf fuel. revert c. induction fuel as [|fuel IH]; intros c n Hc Ht Hn Hf; [lia|].
  destruct c as [| | | | |r gs g p| | | | | | | | | | |]; try done. destruct Hc as (Hr & Hg & Hpos & Hslots).
  cbn [resolve_loop]. wstep. apply wp_assert. { apply negb_true_iff, Z.eqb_neq. lia. }
  destruct (Z.gtb_spec gs (Z.of_nat n)) as [Hlt|Hle]; cbn [orb].
  { unfold set_current_lookup_fault. wrun.
    eexists; split; [apply resolves_guard; rewrite bits_length; by right|].
    rewrite bits_length. done. }
  pose (kg := Z.to_nat gs). assert (Z.of_nat kg = gs) as Ekg by (unfold kg; lia).
  assert ((capptr >>w ((Z.of_nat n -w gs) &w MASK 5)) &w MASK gs = bits_val (take kg (bits n capptr))) as ->.
  { rewrite <- Ekg. rewrite <- (field_bits kg n) by lia.
    destruct (decide (kg = 0%nat)) as [E0|E0].
    - rewrite E0. rewrite !land_MASK by done. change (2 ^ Z.of_nat 0) with 1. by rewrite !Z.mod_1_r.
    - do 2 f_equal. rewrite land_MASK by done. unfold wsub, wrap.
      rewrite (Z.mod_small (_ - _) (2 ^ 32)) by lia. rewrite Z.mod_small by (change (2 ^ 5) with 32; lia). lia. }
  destruct (Z.eqb_spec (bits_val (take kg (bits n capptr))) g) as [Eg|Eg]; cbn [negb].
  2: { unfold set_current_lookup_fault. wrun.
       eexists; split; [apply resolves_guard; by left|]. rewrite bits_length. done. }
  destruct (Z.gtb_spec (r + gs) (Z.of_nat n)) as [Hd|Hd].
  { unfold set_current_lookup_fault. wrun.
    eexists; split; [apply resolves_depth; [rewrite bits_length; lia|done]|]. rewrite bits_length. done. }
  pose (kr := Z.to_nat r). assert (Z.of_nat kr = r) as Ekr by (unfold kr; lia).
  set (a1 := take kg (bits n capptr)) in *. set (a2 := take kr (bits (n - kg) capptr)).
  assert (bits n capptr = a1 ++ a2 ++ bits (n - kg - kr) capptr) as Ea.
  { unfold a1, a2. rewrite <- (bits_drop kr (n - kg)), take_drop, <- (bits_drop kg n), take_drop. done. }
  assert (Z.of_nat (length a1) = gs /\ Z.of_nat (length a2) = r) as [El1 El2].
  { unfold a1, a2. rewrite !length_take, !bits_length. lia. }
  assert ((capptr >>w (Z.of_nat n - (r + gs))) &w MASK r = bits_val a2) as ->.
  { unfold a2. rewrite <- (field_bits kr (n - kg)) by lia. rewrite Ekr. do 2 f_equal. lia. }
  destruct (Z.leb_spec (Z.of_nat n) (r + gs)) as [Hend|Hmore].
  { wstep. exists (ResolvedSlot (cte_at p (bits_val a2)) 0). split; [|done].
    rewrite Ea. replace (n - kg - kr)%nat with 0%nat by lia. rewrite app_nil_r. by apply resolves_here. }
  assert (bits (n - kg - kr) capptr <> []) as Hne.
  { intros E. apply (f_equal length) in E. rewrite bits_length in E. simpl in E. lia. }
  destruct (Hslots (bits_val a2)) as [slot Hslot].
  { unfold a2. rewrite bits_take by lia. rewrite bits_val_bits. rewrite Ekr. apply Z.mod_pos_bound.
    apply Z.pow_pos_nonneg; lia. }
  wstep. eapply wp_get_cap; [exact Hslot|].
  assert (caps_of s (cte_at p (bits_val a2)) = Some slot.(cte_cap)) as Hcap by (unfold caps_of; by rewrite Hslot).
  assert (Z.of_nat n - (r + gs) = Z.of_nat (n - kg - kr)) as En by lia. rewrite En.
  case_bool_decide as Htype; cbn [negb].
  - eapply wp_mono; [apply (IH slot.(cte_cap) (n - kg - kr)%nat); try lia; [by eapply Hwf|done]|].
    intros rr s' (res & Hres & Hout). exists res. split; [|done]. rewrite Ea. by eapply resolves_step.
  - wstep. eexists; split; [rewrite Ea; by eapply resolves_leaf|]. rewrite bits_length. done.
Qed.

Lemma wp_resolveAddressBits s c capptr n : nodes_wf s -> node_wf s c ->
  cap_get_capType c = cap_cnode_cap -> 0 <= n <= 32 ->
  wp (resolveAddressBits c capptr n) (fun rr s' => exists res,
    resolves (caps_of s) c (bits (Z.to_nat n) capptr) res /\ result_of s n rr s' res) s.
Proof.
  intros Hwf Hc Ht Hn. unfold resolveAddressBits. rewrite bool_decide_eq_true_2 by done. cbn [negb].
  rewrite <- (Z2Nat.id n) at 2 by lia. by apply wp_resolve_loop; try lia.
Qed.

(** Two resolutions of an address agree. *)
Lemma resolves_split (a1 a2 a3 b1 b2 b3 : list bool) :
  Z.of_nat (length a1) = Z.of_nat (length b1) -> Z.of_nat (length a2) = Z.of_nat (length b2) ->
  a1 ++ a2 ++ a3 = b1 ++ b2 ++ b3 -> a1 = b1 /\ a2 = b2 /\ a3 = b3.
Proof.
  intros H1%Nat2Z.inj H2%Nat2Z.inj E. apply app_inj_1 in E as [-> E]; [|done]. by apply app_inj_1 in E as [-> ->].
Qed.
Lemma resolves_guard_bits gs (a1 a : list bool) : Z.of_nat (length a1) = gs -> take (Z.to_nat gs) (a1 ++ a) = a1.
Proof. intros <-. by rewrite Nat2Z.id, take_app_length. Qed.

Lemma resolves_det caps c a res1 res2 : resolves caps c a res1 -> resolves caps c a res2 -> res1 = res2.
Proof.
  intros H. revert res2. induction H as [r gs g p a Hg|r gs g p a Hd Hg|r gs g p a1 a2 slot E1 L1 L2 ->
    |r gs g p a1 a2 a3 slot c E1 L1 L2 Hne -> Hc Ht|r gs g p a1 a2 a3 slot c res E1 L1 L2 Hne -> Hc Ht Hr IH];
    intros res2 H2; inversion H2; subst; try done.
  all: try match goal with H : _ ++ _ = _ ++ _ |- _ => pose proof (f_equal length H) end.
  all: repeat match goal with
    | H : context [length (_ ++ _)] |- _ => rewrite !length_app in H
    | H : ?a3 <> [] |- _ => match goal with _ : (0 < length a3)%nat |- _ => fail 1
        | _ => assert (0 < length a3)%nat by (destruct a3; simpl; [done|lia]) end
    end.
  all: try (exfalso; lia).
  all: try (match goal with H : bits_val (take _ (_ ++ _)) <> _ \/ _ |- _ =>
       exfalso; destruct H as [H|H]; [rewrite resolves_guard_bits in H by lia; congruence|lia] end).
  all: try (match goal with H : bits_val (take _ _) <> _ \/ _ |- _ => exfalso; destruct H; [congruence|lia] end).
  - match goal with H : ?x ++ ?y = a1 ++ a2 |- _ =>
      destruct (resolves_split x y [] a1 a2 []) as (-> & -> & _); [lia|lia|by rewrite !app_nil_r|done] end.
  - match goal with H : ?x ++ ?y ++ ?z = a1 ++ a2 ++ a3 |- _ =>
      destruct (resolves_split x y z a1 a2 a3) as (-> & -> & ->); [lia|lia|done|done] end.
  - match goal with H : ?x ++ ?y ++ ?z = a1 ++ a2 ++ a3 |- _ =>
      destruct (resolves_split x y z a1 a2 a3) as (-> & -> & ->); [lia|lia|done|congruence] end.
  - match goal with H : ?x ++ ?y ++ ?z = a1 ++ a2 ++ a3 |- _ =>
      destruct (resolves_split x y z a1 a2 a3) as (-> & -> & ->); [lia|lia|done|congruence] end.
  - match goal with H : ?x ++ ?y ++ ?z = a1 ++ a2 ++ a3 |- _ =>
      destruct (resolves_split x y z a1 a2 a3) as (-> & -> & ->); [lia|lia|done|] end.
    apply IH. congruence.
Qed.

(** C4: resolveAddressBits terminates and resolves addresses as the bit-by-bit
    description says: at every node the guard bits are compared, the radix bits
    select the slot, and resolution goes on in the node found there while bits
    remain; it returns the slot and the number of unresolved bits, or records the
    lookup fault (guard or depth mismatch, with the bits left) in the state and
    changes nothing else. It needs that nodes resolve at least one bit and that
    their slots exist. The result is the only one the description allows. *)
Theorem resolveAddressBits_correct (s : kstate) (c : cap) (capptr n : Z)
    (W : nodes_wf s) (Wc : node_wf s c) (Ht : cap_get_capType c = cap_cnode_cap) (Hn : 0 <= n <= 32) :
  wp (resolveAddressBits c capptr n) (fun rr s' => exists res,
    resolves (caps_of s) c (bits (Z.to_nat n) capptr) res /\ result_of s n rr s' res /\
    forall res', resolves (caps_of s) c (bits (Z.to_nat n) capptr) res' -> res' = res) s.
Proof.
  eapply wp_mono; [by apply wp_resolveAddressBits|]. intros rr s' (res & Hr & Ho).
  exists res. split_and!; [done|done|]. intros res' Hr'. by eapply resolves_det.
Qed.

Definition nodes_wf_b (s : kstate) (c : cap) : bool :=
  match c with
  | Cap_cnode r gs g p => (0 <=? r) && (r <? 32) && (0 <=? gs) && (gs <? 32) && (0 <? r + gs) &&
      forallb (fun i => bool_decide (is_Some (ksCtes s !! cte_at p (Z.of_nat i)))) (seq 0 (Z.to_nat (2 ^ r)))
  | _ => true
  end.
Lemma node_wf_b_sound s c : nodes_wf_b s c = true -> node_wf s c.
Proof.
  destruct c; try done. simpl. rewrite !andb_true_iff, !Z.leb_le, !Z.ltb_lt, forallb_forall.
  intros [[[[[? ?] ?] ?] ?] Hs]. split_and!; try done. intros i Hi.
  specialize (Hs (Z.to_nat i)). rewrite Z2Nat.id in Hs by lia. apply (proj1 (bool_decide_eq_true _)), Hs.
  apply in_seq. pose proof (Z2Nat.inj_lt i (2 ^ capCNodeRadix)). lia.
Qed.
Lemma sys_nodes : nodes_wf sys.
Proof.
  intros p c Hc. unfold caps_of in Hc. apply fmap_Some in Hc as (x & Hx & ->).
  assert (map_Forall (fun _ x => nodes_wf_b sys x.(cte_cap) = true) sysCtes) as H.
  { apply (bool_decide_unpack (map_Forall _ _)). vm_compute. exact I. }
  apply node_wf_b_sound. exact (H p x Hx).
Qed.

Lemma resolveAddressBits_correct_witness :
  wp (resolveAddressBits (Cap_cnode 4 0 0 rootNode) 0x20 8) (fun rr s' => exists res,
    resolves (caps_of sys) (Cap_cnode 4 0 0 rootNode) (bits 8 0x20) res /\ result_of sys 8 rr s' res) sys.
Proof.
  eapply wp_mono.
  - apply (resolveAddressBits_correct sys (Cap_cnode 4 0 0 rootNode) 0x20 8 sys_nodes).
    + apply node_wf_b_sound. vm_compute. reflexivity.
    + reflexivity.
    + split; discriminate.
  - intros rr s' (res & H1 & H2 & _). exists res. split; [exact H1|exact H2].
Defined.
