(* ===== verification/UntypedSpec.v ===== *)
(** * Properties of Retype

    Inversion of runs, alignment, and the placement of the objects a Retype
    invocation creates. *)
From stdpp Require Import base list gmap.
From Stdlib Require Import ZArith Lia.
From S2P Require Import Prelude.
From S2P Require Import Words.
From S2P Require Import Structures.
From S2P Require Import KernelState.
From S2P Require Import VSpace.
From S2P Require Import Scheduler.
From S2P Require Import CapOps.
From S2P Require Import MDB.
From S2P Require Import CSpace.
From S2P Require Import Ipc.
From S2P Require Import Untyped.
From S2P Require Import CapSpec.
From S2P Require Import System.

(** ** Inversion of runs

    [minv H] takes a run [H : m s = Ret a s'] apart along the binds and
    conditionals of [m]; branches that end otherwise are closed. *)
Lemma ret_inv {S A} (a b : A) (s s' : S) : ret a s = Ret b s' -> a = b /\ s = s'.
Proof. by intros [= -> ->]. Qed.
Lemma throw_inv t s e s' : throw t s = Ret e s' -> e = EXCEPTION_SYSCALL_ERROR.
Proof. by intros [= <- _]. Qed.
Lemma throw_arg_inv t s e s' : throw_invalid_arg t s = Ret e s' -> e = EXCEPTION_SYSCALL_ERROR.
Proof. by intros [= <- _]. Qed.
Lemma throw_cap_inv t s e s' : throw_invalid_cap t s = Ret e s' -> e = EXCEPTION_SYSCALL_ERROR.
Proof. by intros [= <- _]. Qed.
Lemma throw_range_inv a b s e s' : throw_range a b s = Ret e s' -> e = EXCEPTION_SYSCALL_ERROR.
Proof. by intros [= <- _]. Qed.
Lemma throw_failed_inv w s e s' : throw_failed_lookup w s = Ret e s' -> e = EXCEPTION_SYSCALL_ERROR.
Proof. by intros [= <- _]. Qed.
Lemma get_inv {S} (s a s' : S) : get s = Ret a s' -> a = s /\ s' = s.
Proof. by intros [= -> ->]. Qed.
Lemma of_option_inv {S A} (o : option A) (s s' : S) a : of_option o s = Ret a s' -> o = Some a /\ s' = s.
Proof. destruct o; [|done]. by intros [= -> ->]. Qed.
Lemma fail_option_inv {A} (o : option A) s s' a : fail_option o s = Ret a s' -> o = Some a /\ s' = s.
Proof. destruct o; [|done]. by intros [= -> ->]. Qed.
Lemma assert_inv {S} b (s s' : S) u : assert b s = Ret u s' -> b = true /\ s' = s.
Proof. destruct b; [|done]. by intros [= _ ->]. Qed.

Ltac minv1 H :=
  lazymatch type of H with
  | bind _ _ _ = Ret _ _ => let a := fresh "a" in let s1 := fresh "s" in let E := fresh "E" in
      apply bind_inv in H as (a & s1 & E & H)
  | ret _ _ = Ret _ _ => apply ret_inv in H as [? ?]
  | get _ = Ret _ _ => apply get_inv in H as [? ?]
  | assert _ _ = Ret _ _ => apply assert_inv in H as [? ?]
  | of_option _ _ = Ret _ _ => apply of_option_inv in H as [? ?]
  | fail_option _ _ = Ret _ _ => apply fail_option_inv in H as [? ?]
  | throw _ _ = Ret _ _ => apply throw_inv in H
  | throw_invalid_arg _ _ = Ret _ _ => apply throw_arg_inv in H
  | throw_invalid_cap _ _ = Ret _ _ => apply throw_cap_inv in H
  | throw_range _ _ _ = Ret _ _ => apply throw_range_inv in H
  | throw_failed_lookup _ _ = Ret _ _ => apply throw_failed_inv in H
  | fail _ = Ret _ _ => discriminate H
  | (if ?b then _ else _) _ = Ret _ _ => let Eb := fresh "Eb" in destruct b eqn:Eb
  end.

(** ** Reads do not change the state *)
Lemma get_tcb_state p s t s1 : get_tcb p s = Ret t s1 -> s1 = s /\ ksTcbs s !! p = Some t.
Proof. unfold get_tcb. intros H. minv1 H. minv1 E. subst. minv1 H. by subst. Qed.
Lemma get_cap_state p s c s1 : get_cap p s = Ret c s1 -> s1 = s /\ exists x, ksCtes s !! p = Some x /\ c = x.(cte_cap).
Proof.
  unfold get_cap, get_cte. intros H. minv1 H. minv1 E. minv1 E0. minv1 E. minv1 H. subst. eauto.
Qed.
Lemma getRegister_state t r s v s1 : getRegister t r s = Ret v s1 ->
  s1 = s /\ exists tc, ksTcbs s !! t = Some tc /\ tc.(tcbContext) !! Z.to_nat r = Some v.
Proof. unfold getRegister. intros H. minv1 H. apply get_tcb_state in E as [-> ?]. minv1 H. subst. eauto. Qed.
Lemma read_word_state p s v s1 : read_word p s = Ret v s1 -> s1 = s /\ ksMem s p = Some v.
Proof. unfold read_word. intros H. minv1 H. minv1 E. subst. minv1 H. by subst. Qed.

(** Registers and memory hold words. *)
Definition words_wf (s : kstate) : Prop :=
  (forall p t, ksTcbs s !! p = Some t -> Forall is_word t.(tcbContext)) /\
  (forall a v, ksMem s a = Some v -> is_word v).

Lemma getSyscallArg_word i buffer s v s1 : words_wf s -> getSyscallArg i buffer s = Ret v s1 -> s1 = s /\ is_word v.
Proof.
  intros [Hr Hm] H. unfold getSyscallArg in H. minv1 H.
  - minv1 H. minv1 E. subst. minv1 H. unfold msgRegister in E. minv1 E. subst.
    apply getRegister_state in H as (-> & tc & Ht & Hv). split; [done|].
    apply Hr in Ht. rewrite Forall_lookup in Ht. eauto.
  - minv1 H. minv1 E. subst. apply read_word_state in H as [-> Hv]. eauto.
Qed.

(** ** Alignment *)
Lemma alignUp_correct a n : 0 <= n < 32 -> is_word a -> a + 2 ^ n <= 2 ^ 32 ->
  alignUp a n = 2 ^ n * ((a + 2 ^ n - 1) / 2 ^ n).
Proof.
  intros Hn Ha Hb. unfold alignUp. unfold wsub, wadd, wrap at 2. rewrite BIT_pow by done.
  pose proof (Z.pow_pos_nonneg 2 n ltac:(lia) ltac:(lia)). unfold is_word in Ha.
  assert (2 ^ n < 2 ^ 32) by (apply Z.pow_lt_mono_r; lia).
  rewrite (Z.mod_small (2 ^ n - 1)) by lia. unfold wrap. rewrite Z.mod_small by lia.
  rewrite land_not_MASK by (unfold is_word; lia). do 2 f_equal. lia.
Qed.

Lemma alignUp_least a n : 0 <= n < 32 -> is_word a -> a + 2 ^ n <= 2 ^ 32 ->
  (2 ^ n | alignUp a n) /\ a <= alignUp a n < a + 2 ^ n /\
  forall x, a <= x -> (2 ^ n | x) -> alignUp a n <= x.
Proof.
  intros Hn Ha Hb. rewrite alignUp_correct by done.
  pose proof (Z.pow_pos_nonneg 2 n ltac:(lia) ltac:(lia)) as Hp.
  pose proof (Z.div_mod (a + 2 ^ n - 1) (2 ^ n) ltac:(lia)) as Hd.
  pose proof (Z.mod_pos_bound (a + 2 ^ n - 1) (2 ^ n) Hp) as Hm.
  set (q := (a + 2 ^ n - 1) / 2 ^ n) in *. split; [exists q; lia|]. split; [lia|].
  intros x Hx [k ->]. rewrite Z.mul_comm. apply Z.mul_le_mono_nonneg_r; [lia|].
  assert (q * 2 ^ n < (k + 1) * 2 ^ n) as Hlt by lia.
  apply Z.mul_lt_mono_pos_r in Hlt; lia.
Qed.

(** ** Where Retype puts the objects *)
Section placement.
Context (ptr bs fi osz len : Z).
Hypotheses (Hbs : 0 <= bs < 32) (Hosz : 0 <= osz < 32) (Hptr : 0 <= ptr) (Hend : ptr + 2 ^ bs <= 2 ^ 32)
  (Hal : (2 ^ bs | ptr)) (Hfi : 0 <= fi * 16 <= 2 ^ bs) (Hlen : 1 <= len).

Local Abbreviation free := (ptr + fi * 16).

Lemma placement_free : 0 <= fi -> FREE_INDEX_TO_OFFSET fi = fi * 16.
Proof using Hbs Hfi.
  intros H. unfold FREE_INDEX_TO_OFFSET, wshl, wrap. rewrite Z.shiftl_mul_pow2 by done. change (2 ^ 4) with 16.
  assert (2 ^ bs < 2 ^ 32) by (apply Z.pow_lt_mono_r; lia). apply Z.mod_small. lia.
Qed.

(** The test of decodeUntypedInvocation *)
Hypothesis (Hfit : len <= (BIT bs -w FREE_INDEX_TO_OFFSET fi) >>w osz).

Lemma placement : 
  GET_FREE_REF ptr fi = wrap free /\
  (BIT bs -w FREE_INDEX_TO_OFFSET fi) = 2 ^ bs - fi * 16 /\
  let aligned := alignUp (GET_FREE_REF ptr fi) osz in
  (2 ^ osz | aligned) /\ free <= aligned /\ aligned + len * 2 ^ osz <= ptr + 2 ^ bs /\ is_word aligned.
Proof using Hbs Hosz Hptr Hend Hal Hfi Hlen Hfit.
  assert (2 ^ bs < 2 ^ 32) as Hb32 by (apply Z.pow_lt_mono_r; lia).
  pose proof (Z.pow_pos_nonneg 2 osz ltac:(lia) ltac:(lia)) as Ho.
  pose proof (Z.pow_pos_nonneg 2 bs ltac:(lia) ltac:(lia)) as Hb.
  assert (0 <= fi) as Hfi0 by lia.
  assert (BIT bs -w FREE_INDEX_TO_OFFSET fi = 2 ^ bs - fi * 16) as Ef.
  { rewrite placement_free by done. unfold wsub, wrap. rewrite BIT_pow by done. apply Z.mod_small. lia. }
  rewrite Ef in *. unfold wshr in Hfit. rewrite Z.shiftr_div_pow2 in Hfit by lia.
  assert (len * 2 ^ osz <= 2 ^ bs - fi * 16) as Hfit'.
  { pose proof (Z.mul_div_le (2 ^ bs - fi * 16) (2 ^ osz) Ho).
    apply Z.le_trans with (2 ^ osz * ((2 ^ bs - fi * 16) / 2 ^ osz)); [|done].
    rewrite Z.mul_comm. apply Z.mul_le_mono_nonneg_l; lia. }
  assert (1 * 2 ^ osz <= len * 2 ^ osz) as H1 by (apply Z.mul_le_mono_nonneg_r; lia).
  assert (osz <= bs) as Hob by (apply (Z.pow_le_mono_r_iff 2); lia).
  assert ((2 ^ osz | ptr + 2 ^ bs)) as [E HE].
  { apply Z.divide_add_r.
    - eapply Z.divide_trans; [|exact Hal]. exists (2 ^ (bs - osz)). rewrite <- Z.pow_add_r by lia. f_equal. lia.
    - exists (2 ^ (bs - osz)). rewrite <- Z.pow_add_r by lia. f_equal. lia. }
  assert (GET_FREE_REF ptr fi = free) as Eg.
  { unfold GET_FREE_REF. rewrite placement_free by done. unfold wadd, wrap. apply Z.mod_small. lia. }
  assert (is_word free) as Hw by (unfold is_word; lia).
  split; [rewrite Eg; unfold wrap; by rewrite Z.mod_small|]. split; [done|].
  cbn zeta. rewrite Eg. destruct (alignUp_least free osz) as (Hd & Hr & Hleast); [done|done|lia|].
  split; [done|]. split; [lia|].
  assert (alignUp free osz <= (E - len) * 2 ^ osz) as Hle.
  { apply Hleast; [|by exists (E - len)]. lia. }
  unfold is_word in *. lia.
Qed.
End placement.

(** The invocation a successful decode performs *)
Record retype_call := mk_retype_call {
  rc_type : Z; rc_userSize : Z; rc_objectSize : Z; rc_aligned : Z; rc_slots : slot_range }.

(** The objects of a call lie in the untyped region from the free index on, at
    addresses aligned to their size, and the free index of the region stays in
    range. *)
Definition retype_ok (ptr bs fi : Z) (rc : retype_call) : Prop :=
  getObjectSize rc.(rc_type) rc.(rc_userSize) = Some rc.(rc_objectSize) /\
  0 <= rc.(rc_objectSize) < 32 /\
  1 <= sr_length rc.(rc_slots) <= CONFIG_RETYPE_FAN_OUT_LIMIT /\
  (2 ^ rc.(rc_objectSize) | rc.(rc_aligned)) /\
  ptr + fi * 16 <= rc.(rc_aligned) /\
  rc.(rc_aligned) + sr_length rc.(rc_slots) * 2 ^ rc.(rc_objectSize) <= ptr + 2 ^ bs.

Lemma getObjectSize_nonneg t u o : is_word t -> is_word u -> u < 31 -> getObjectSize t u = Some o -> 0 <= o.
Proof.
  unfold getObjectSize, Arch_getObjectSize. intros Ht Hu Hu31.
  repeat match goal with |- context [if ?b then _ else _] => destruct b end; intros [= <-]; try done; try apply Hu.
  unfold wadd, wrap. apply Z.mod_pos_bound. done.
Qed.

Lemma ensureEmptySlots_first n cnode i s s' : ensureEmptySlots n cnode i s = Ret EXCEPTION_NONE s' ->
  s' = s /\ forall k, i <= k < i + Z.of_nat n -> cte_cap <$> ksCtes s !! cte_at cnode k = Some Cap_null.
Proof.
  revert i s. induction n as [|n IH]; intros i s H.
  - apply ret_inv in H as [_ ->]. split; [done|lia].
  - cbn [ensureEmptySlots] in H. minv1 H. unfold ensureEmptySlot in E. minv1 E.
    apply get_cap_state in E0 as (-> & x & Hx & ->). minv1 E.
    + apply throw_inv in E. subst. simpl in H. apply ret_inv in H as [? _]. done.
    + minv1 E. subst. simpl in H. apply IH in H as [-> Hk]. split; [done|].
      intros k Hik. destruct (decide (k = i)) as [->|]; [|apply Hk; lia].
      rewrite Hx. apply negb_false_iff, bool_decide_eq_true in Eb. simpl. by rewrite Eb.
Qed.

Lemma ensureNoChildren_ctes slot s e s' : ensureNoChildren slot s = Ret e s' ->
  ksCtes s' = ksCtes s /\ (e = EXCEPTION_NONE -> s' = s).
Proof.
  unfold ensureNoChildren, mdb_next, isMDBParentOf, get_cte, of_option, bind, get.
  destruct (ksCtes s !! slot) as [c|] eqn:Ec; cbn; [|done].
  destruct (negb _); [|by intros [<- <-]%ret_inv]. rewrite Ec. cbn.
  destruct (ksCtes s !! mdbNext (cteMDBNode c)) as [c2|]; cbn; [|done].
  destruct (isMDBParentOf_ctes c c2); intros H; inversion H; done.
Qed.

Section decode.
Context (label length slot fi bs ptr : Z) (extraCaps : list Z) (call : bool) (buffer : Z) (s s' : kstate).
Hypotheses (W : words_wf s) (Hbs : 0 <= bs < 32) (Hptr : 0 <= ptr) (Hend : ptr + 2 ^ bs <= 2 ^ 32)
  (Hal : (2 ^ bs | ptr)) (Hfi : 0 <= fi * 16 <= 2 ^ bs).

Lemma decode_retype :
  decodeUntypedInvocation label length slot (Cap_untyped fi bs ptr) extraCaps call buffer s = Ret EXCEPTION_NONE s' ->
  exists rc fi' s0 s1, (fi' = fi \/ (fi' = 0 /\ ensureNoChildren slot s0 = Ret EXCEPTION_NONE s0)) /\ retype_ok ptr bs fi' rc /\
    (forall k, 0 <= k < sr_length rc.(rc_slots) ->
       cte_cap <$> ksCtes s0 !! cte_at (sr_cnode rc.(rc_slots)) (sr_offset rc.(rc_slots) + k) = Some Cap_null) /\
    setThreadState (ksCurThread s0) ThreadState_Restart s0 = Ret tt s1 /\
    invokeUntyped_Retype slot ptr rc.(rc_aligned) rc.(rc_type) rc.(rc_userSize) rc.(rc_slots) call s1
      = Ret EXCEPTION_NONE s'.
Proof using W Hbs Hptr Hend Hal Hfi.
  intros H. unfold decodeUntypedInvocation in H. minv1 H; [by minv1 H|]. minv1 H; [by minv1 H|].
  do 6 (minv1 H; apply getSyscallArg_word in E as [-> ?]; [|done]).
  cbn zeta in H. minv1 H; [by minv1 H|]. minv1 H; [by minv1 H|]. minv1 H; [by minv1 H|]. minv1 H; [by minv1 H|].
  minv1 H. minv1 H; [minv1 H; simplify_eq; by rewrite bool_decide_eq_true_2 in *|].
  destruct (snd a5) as [| | | | |radix gs g cnodePtr| | | | | | | | | | |];
    try (minv1 H; minv1 E0; minv1 H; minv1 H; congruence).
  minv1 H; [by minv1 H|]. minv1 H; [by minv1 H|]. minv1 H; [by minv1 H|].
  minv1 H. minv1 H; [minv1 H; simplify_eq; by rewrite bool_decide_eq_true_2 in *|].
  minv1 H. minv1 H. minv1 H; [by minv1 H; minv1 H|].
  minv1 E2. subst s3.
  apply negb_false_iff, bool_decide_eq_true in Eb9. subst a6. apply ensureEmptySlots_first in E0 as [-> Hempty].
  destruct (ensureNoChildren_ctes _ _ _ _ E1) as [Ec En].
  set (fi' := if a7 != EXCEPTION_NONE then fi else 0) in *.
  minv1 H. minv1 E0. subst. minv1 H. destruct a6.
  apply orb_false_iff in Eb10 as [Ho Hfit]. apply Z.geb_leb, Z.leb_gt in Ho || (rewrite Z.geb_leb in Ho; apply Z.leb_gt in Ho).
  apply Z.ltb_ge in Hfit.
  apply orb_false_iff in Eb7 as [Hl1 Hl2]. apply Z.ltb_ge in Hl1. rewrite Z.gtb_ltb in Hl2. apply Z.ltb_ge in Hl2.
  rewrite Z.geb_leb in Eb2. apply Z.leb_gt in Eb2. unfold wordBits in *.
  pose proof (getObjectSize_nonneg a a0 a8) as Ho0.
  assert (0 <= a8 < 32) as Hosz by (split; [apply Ho0; try done; lia|lia]).
  assert (0 <= fi' * 16 <= 2 ^ bs) as Hfi' by (unfold fi'; destruct (a7 != EXCEPTION_NONE); lia).
  destruct (placement ptr bs fi' a8 a4) as (_ & _ & Hdiv & Hfree & Hin & _); try done; try lia.
  exists (mk_retype_call a a0 a8 (alignUp (GET_FREE_REF ptr fi') a8) (mk_slot_range cnodePtr a3 a4)), fi', s2, s1.
  split; [|split; [unfold retype_ok; cbn [rc_type rc_userSize rc_objectSize rc_aligned rc_slots sr_length]; repeat split; try done; lia|split; [|split; [exact E0|exact H]]]].
  - unfold fi'. destruct (decide (a7 = EXCEPTION_NONE)) as [E7|E7].
    2: { left. by rewrite bool_decide_eq_false_2. }
    right. rewrite bool_decide_eq_true_2 by done. split; [done|].
    specialize (En E7). rewrite E7, En in E1. by rewrite En.
  - intros k Hk. cbn in Hk |- *. rewrite Ec. rewrite <- (Hempty (a3 + k)); [done|lia].
Qed.
End decode.


(** C2: when decodeUntypedInvocation accepts a Retype, the objects it creates lie
    inside the untyped region: at or after the free index (or anywhere in the region,
    but only when the capability has no children), each aligned to its size, the
    last one ending before the region does, without any address wrapping around; the
    destination slots are empty and at most 256; the call that then runs is
    invokeUntyped_Retype with exactly these arguments. *)
Theorem retype_stays_in_untyped (s s' : kstate) (label length slot fi bs ptr : Z) (extraCaps : list Z)
    (call : bool) (buffer : Z)
    (W : words_wf s) (Hbs : 0 <= bs < 32) (Hptr : 0 <= ptr) (Hend : ptr + 2 ^ bs <= 2 ^ 32)
    (Hal : (2 ^ bs | ptr)) (Hfi : 0 <= fi * 16 <= 2 ^ bs)
    (H : decodeUntypedInvocation label length slot (Cap_untyped fi bs ptr) extraCaps call buffer s
         = Ret EXCEPTION_NONE s') :
  exists rc fi' s0 s1, (fi' = fi \/ (fi' = 0 /\ ensureNoChildren slot s0 = Ret EXCEPTION_NONE s0)) /\
    retype_ok ptr bs fi' rc /\
    (forall k, 0 <= k < sr_length rc.(rc_slots) ->
       cte_cap <$> ksCtes s0 !! cte_at (sr_cnode rc.(rc_slots)) (sr_offset rc.(rc_slots) + k) = Some Cap_null) /\
    setThreadState (ksCurThread s0) ThreadState_Restart s0 = Ret tt s1 /\
    invokeUntyped_Retype slot ptr rc.(rc_aligned) rc.(rc_type) rc.(rc_userSize) rc.(rc_slots) call s1
      = Ret EXCEPTION_NONE s'.
Proof. by eapply decode_retype. Qed.

(** Two endpoints into the slots 10 and 11 of the root node *)
Definition retypeBuffer : Z := 0xe0020000.
Definition retypeState : kstate :=
  upd_ksMem (mem_set (mem_set (ksMem sys) (word_at retypeBuffer 5) 10) (word_at retypeBuffer 6) 2)
    (upd_ksTcbs (alter (upd_tcbContext (<[2%nat := seL4_EndpointObject]> (replicate 18 0))) threadA (ksTcbs sys)) sys).

Definition accepted (o : outcome kstate exception_t) : bool :=
  match o with Ret EXCEPTION_NONE _ => true | _ => false end.
Lemma accepted_run o : accepted o = true -> exists s', o = Ret EXCEPTION_NONE s'.
Proof. destruct o as [[] s'|]; try done. by exists s'. Qed.

Lemma retypeState_words : words_wf retypeState.
Proof.
  split.
  - intros p t Ht.
    assert (map_Forall (fun _ t => Forall (fun w => 0 <= w /\ w < 2 ^ 32) t.(tcbContext)) (ksTcbs retypeState)) as H.
    { apply (bool_decide_unpack (map_Forall _ _)). vm_compute. exact I. }
    eapply Forall_impl; [exact (H p t Ht)|]. intros x Hx. exact Hx.
  - intros a v. change (ksMem retypeState) with
      (mem_set (mem_set sysMem (word_at retypeBuffer 5) 10) (word_at retypeBuffer 6) 2).
    unfold mem_set, sysMem. intros Hv.
    repeat match type of Hv with context [if ?b then _ else _] => destruct b end;
      injection Hv as <-; unfold is_word, pd1, pd2; (split; [discriminate|reflexivity]).
Qed.

Lemma retype_stays_in_untyped_witness :
  exists rc fi' s1 s', retype_ok 0xe0003000 12 fi' rc /\
    invokeUntyped_Retype (slotAt 0) 0xe0003000 rc.(rc_aligned) rc.(rc_type) rc.(rc_userSize) rc.(rc_slots) true s1
      = Ret EXCEPTION_NONE s'.
Proof.
  destruct (accepted_run (decodeUntypedInvocation UntypedRetype 6 (slotAt 0) (Cap_untyped 4 12 0xe0003000)
    [slotAt 3; 0; 0] true retypeBuffer retypeState)) as [s' H]; [vm_compute; reflexivity|].
  destruct (retype_stays_in_untyped retypeState s' UntypedRetype 6 (slotAt 0) 4 12 0xe0003000
    [slotAt 3; 0; 0] true retypeBuffer retypeState_words) as (rc & fi' & s0 & s1 & Hfi & Hok & _ & _ & Hrun).
  - split; [discriminate|reflexivity].
  - discriminate.
  - discriminate.
  - exists 0xe0003. reflexivity.
  - split; discriminate.
  - exact H.
  - exists rc, fi', s1, s'. split; [exact Hok|exact Hrun].
Defined.
