(* ===== verification/Fastpath.v ===== *)
(** * The fast path of IPC (src/arch/arm/fastpath/fastpath.c)

    [fastpath_call] and [fastpath_reply_wait] are entered by the assembly code of
    src/arch/arm/traps.S for the two system calls SysCall and SysReplyWait: they
    check that the common case applies and do it with direct writes of words of
    the objects; in all other cases they leave to [slowpath], which is
    handleSyscall. The functions here write the fields that the words hold
    (include/object/structures.bf). *)
From stdpp Require Import base list gmap.
From Stdlib Require Import ZArith Lia.
From S2P Require Import Prelude.
From S2P Require Import Structures.
From S2P Require Import KernelState.
From S2P Require Import SchedQueue.
From S2P Require Import VSpace.
From S2P Require Import Scheduler.
From S2P Require Import CapOps.
From S2P Require Import MDB.
From S2P Require Import CSpace.
From S2P Require Import Ipc.
From S2P Require Import Syscall.

(** ** Lookup of a capability *)

(** A right shift of a word by 32 is undefined in C. *)
Definition shift_right (w n : Z) : K Z := if n <? wordBits then ret (w >>w n) else halt_with Undefined.

(** The loop of lookup_fp from bit [bits] of the address on; every round takes at
    least one bit. *)
Fixpoint lookup_fp_loop (fuel : nat) (c : cap) (cptr bits : Z) : K cap :=
  match fuel with
  | O => halt_with NoFuel
  | S fuel' =>
      match c with
      | Cap_cnode radixBits guardBits capGuard ptr =>
          let cptr2 := wshl cptr bits in
          if negb (guardBits =? 0) && negb ((cptr2 >>w (32 - guardBits)) =? capGuard)
          then ret Cap_null
          else
            let* radix := shift_right (wshl cptr2 guardBits) (32 - radixBits) in
            let* c' := get_cap (cte_at ptr radix) in
            let bits := bits + guardBits + radixBits in
            if (bits <? 32) && (cap_get_capType c' == cap_cnode_cap)
            then lookup_fp_loop fuel' c' cptr bits
            else if bits >? 32 then ret Cap_null
            else ret c'
      | _ => fail
      end
  end.

Definition lookup_fp (c : cap) (cptr : Z) : K cap :=
  if cap_get_capType c != cap_cnode_cap then ret Cap_null
  else lookup_fp_loop (S (Z.to_nat wordBits)) c cptr 0.

(** ** Writes of whole words *)

(** [words[0]] of a thread state holds blockingIPCEndpoint and tsType, [words[2]]
    the badge, the flags of the operation and blockingIPCDiminishCaps; tcbQueued
    is alone in [words[1]]. *)
Definition thread_state_ptr_set_tsType_np (t : thread_state_type) (ts : thread_state) : thread_state :=
  upd_tsType t (upd_blockingIPCEndpoint 0 ts).
Definition thread_state_ptr_mset_blockingIPCEndpoint_tsType (ep_ref : Z) (t : thread_state_type)
    (ts : thread_state) : thread_state :=
  upd_tsType t (thread_state_set_blockingIPCEndpoint ep_ref ts).
Definition thread_state_ptr_set_blockingIPCDiminish_np (dim : bool) (ts : thread_state) : thread_state :=
  upd_blockingIPCDiminishCaps dim (upd_blockingIPCIsCall false
    (upd_blockingIPCCanGrant false (upd_blockingIPCBadge 0 ts))).
Definition mdb_node_ptr_mset_mdbNext_mdbRevocable_mdbFirstBadged (next : Z)
    (revocable firstBadged : bool) (m : mdb_node) : mdb_node :=
  mdb_node_set_mdbFirstBadged firstBadged (mdb_node_set_mdbRevocable revocable (mdb_node_set_mdbNext next m)).
Definition mdb_node_ptr_set_mdbPrev_np (prev : Z) (m : mdb_node) : mdb_node := mdb_node_set_mdbPrev prev m.
Definition cap_reply_cap_ptr_new_np (master : bool) (tcb : Z) : cap := cap_reply_cap_new master tcb.
Definition endpoint_ptr_mset_epQueue_tail_state (tail : Z) (st : endpoint_state) (e : endpoint) : endpoint :=
  upd_ep_state st (upd_epQueue_tail (field_high 28 tail) e).
Definition endpoint_ptr_set_epQueue_head_np (head : Z) (e : endpoint) : endpoint :=
  upd_epQueue_head (field_high 28 head) e.

(** ** Checks and transfers *)
Definition fastpath_mi_check (msgInfo : Z) : Z :=
  ((msgInfo &w MASK 9) +w 3) &w wnot (MASK 3).

Definition fastpath_copy_mrs (length src dest : Z) : K unit :=
  for_upto (Z.to_nat length) 0 (fun i =>
    let* r := msgRegister 0 in
    let* v := getRegister src (r + i) in
    setRegister dest (r + i) v).

Definition switchToThread_fp (thread cap_pd stored_hw_asid : Z) : K unit :=
  let hw_asid := pde_pde_invalid_get_stored_hw_asid stored_hw_asid in
  armv_contextSwitch_HWASID cap_pd hw_asid ;;;
  let* t := get_tcb thread in
  modify (upd_armKSGlobalsFrame t.(tcbIPCBuffer)) ;;;
  modify (upd_ksCurThread thread) ;;;
  hw_emit HwClearExMonitor.

(** traps.S: the thread goes on in user mode with [badge] and [msgInfo] in the
    registers 0 and 1 and its context in the others. The context of a thread that
    runs stands for the registers of the processor. *)
Definition fastpath_restore (badge msgInfo cur_thread : Z) : K exception_t :=
  setRegister cur_thread 0 badge ;;;
  setRegister cur_thread 1 msgInfo ;;;
  ret EXCEPTION_NONE.

(** traps.S *)
Definition slowpath (syscall : syscall_t) : K exception_t := handleSyscall syscall.

Definition maxDom : Z := CONFIG_NUM_DOMAINS - 1.

(** ** SysCall

    isValidVTableRoot_fp is the pattern [Cap_page_directory _ true _]: word 0 of the
    capability holds its type and capPDIsMapped. *)

(** From the point of no return on *)
Definition fastpath_call_commit (cur dest ep_ptr badge info length cap_pd stored_hw_asid : Z)
    : K exception_t :=
  let* d := get_tcb dest in
  mod_ep ep_ptr (endpoint_ptr_set_epQueue_head_np d.(tcbEPNext)) ;;;
  (if negb (d.(tcbEPNext) =? NULL)
   then mod_tcb d.(tcbEPNext) (upd_tcbEPPrev NULL)
   else mod_ep ep_ptr (endpoint_ptr_mset_epQueue_tail_state 0 EPState_Idle)) ;;;
  mod_tcbState cur (thread_state_ptr_set_tsType_np ThreadState_BlockedOnReply) ;;;
  let replySlot := TCB_PTR_CTE_PTR cur tcbReply in
  let callerSlot := TCB_PTR_CTE_PTR dest tcbCaller in
  set_cap callerSlot (cap_reply_cap_ptr_new_np false cur) ;;;
  mod_mdb callerSlot (mdb_node_ptr_set_mdbPrev_np replySlot) ;;;
  mod_mdb replySlot (mdb_node_ptr_mset_mdbNext_mdbRevocable_mdbFirstBadged callerSlot true true) ;;;
  fastpath_copy_mrs length cur dest ;;;
  mod_tcbState dest (thread_state_ptr_set_tsType_np ThreadState_Running) ;;;
  switchToThread_fp dest cap_pd stored_hw_asid ;;;
  let* s := get in
  fastpath_restore badge (wordFromMessageInfo (message_info_set_msgCapsUnwrapped info 0)) (ksCurThread s).

Definition fastpath_call (cptr msgInfo : Z) : K exception_t :=
  let* s := get in
  let cur := ksCurThread s in
  let info := msgInfo in
  let length := message_info_get_msgLength info in
  let* t := get_tcb cur in
  let fault_type := fault_get_faultType t.(tcbFault) in
  if negb (fastpath_mi_check msgInfo =? 0) || negb (fault_type =? 0) then slowpath SysCall
  else
    let* root := get_cap (TCB_PTR_CTE_PTR cur tcbCTable) in
    let* ep_cap := lookup_fp root cptr in
    match ep_cap with
    | Cap_endpoint badge canGrant true _ ep_ptr =>
        let* ep := get_ep ep_ptr in
        let dest := ep.(epQueue_head) in
        if ep.(ep_state) != EPState_Recv then slowpath SysCall
        else
          let* newVTable := get_cap (TCB_PTR_CTE_PTR dest tcbVTable) in
          match newVTable with
          | Cap_page_directory _ true cap_pd =>
              let* stored_hw_asid := read_word (word_at cap_pd PD_ASID_SLOT) in
              let* d := get_tcb dest in
              if d.(tcbPriority) <? t.(tcbPriority) then slowpath SysCall
              else if negb canGrant || d.(tcbState).(blockingIPCDiminishCaps) then slowpath SysCall
              else if negb (pde_pde_invalid_get_stored_asid_valid stored_hw_asid) then slowpath SysCall
              else if negb (d.(tcbDomain) =? ksCurDomain s) && negb (maxDom =? 0) then slowpath SysCall
              else fastpath_call_commit cur dest ep_ptr badge info length cap_pd stored_hw_asid
          | _ => slowpath SysCall
          end
    | _ => slowpath SysCall
    end.

(** ** SysReplyWait *)

(** From the point of no return on *)
Definition fastpath_reply_wait_commit (cur caller ep_ptr : Z) (canSend : bool)
    (callerSlot info length cap_pd stored_hw_asid : Z) : K exception_t :=
  mod_tcbState cur (thread_state_ptr_mset_blockingIPCEndpoint_tsType ep_ptr ThreadState_BlockedOnReceive) ;;;
  mod_tcbState cur (thread_state_ptr_set_blockingIPCDiminish_np (negb canSend)) ;;;
  let* ep := get_ep ep_ptr in
  let endpointTail := ep.(epQueue_tail) in
  (if endpointTail =? NULL then
     mod_tcb cur (upd_tcbEPPrev NULL) ;;;
     mod_tcb cur (upd_tcbEPNext NULL) ;;;
     mod_ep ep_ptr (endpoint_ptr_set_epQueue_head_np cur) ;;;
     mod_ep ep_ptr (endpoint_ptr_mset_epQueue_tail_state cur EPState_Recv)
   else
     mod_tcb endpointTail (upd_tcbEPNext cur) ;;;
     mod_tcb cur (upd_tcbEPPrev endpointTail) ;;;
     mod_tcb cur (upd_tcbEPNext NULL) ;;;
     mod_ep ep_ptr (endpoint_ptr_mset_epQueue_tail_state cur EPState_Recv)) ;;;
  let* c := get_cte callerSlot in
  mod_mdb c.(cteMDBNode).(mdbPrev) (mdb_node_ptr_mset_mdbNext_mdbRevocable_mdbFirstBadged 0 true true) ;;;
  set_cap callerSlot Cap_null ;;;
  set_mdb callerSlot nullMDBNode ;;;
  fastpath_copy_mrs length cur caller ;;;
  mod_tcbState caller (thread_state_ptr_set_tsType_np ThreadState_Running) ;;;
  switchToThread_fp caller cap_pd stored_hw_asid ;;;
  let* s := get in
  fastpath_restore 0 (wordFromMessageInfo (message_info_set_msgCapsUnwrapped info 0)) (ksCurThread s).

Definition fastpath_reply_wait (cptr msgInfo : Z) : K exception_t :=
  let* s := get in
  let cur := ksCurThread s in
  let info := msgInfo in
  let length := message_info_get_msgLength info in
  let* t := get_tcb cur in
  let fault_type := fault_get_faultType t.(tcbFault) in
  if negb (fastpath_mi_check msgInfo =? 0) || negb (fault_type =? 0) then slowpath SysReplyWait
  else
    let* root := get_cap (TCB_PTR_CTE_PTR cur tcbCTable) in
    let* ep_cap := lookup_fp root cptr in
    match ep_cap with
    | Cap_endpoint _ _ canSend true ep_ptr =>
        let* ep := get_ep ep_ptr in
        if ep.(ep_state) == EPState_Send then slowpath SysReplyWait
        else
          let callerSlot := TCB_PTR_CTE_PTR cur tcbCaller in
          let* callerCap := get_cap callerSlot in
          match callerCap with
          | Cap_reply false caller =>
              let* c := get_tcb caller in
              if negb (fault_get_faultType c.(tcbFault) =? 0) then slowpath SysReplyWait
              else
                let* newVTable := get_cap (TCB_PTR_CTE_PTR caller tcbVTable) in
                match newVTable with
                | Cap_page_directory _ true cap_pd =>
                    let* stored_hw_asid := read_word (word_at cap_pd PD_ASID_SLOT) in
                    if c.(tcbPriority) <? t.(tcbPriority) then slowpath SysReplyWait
                    else if negb (pde_pde_invalid_get_stored_asid_valid stored_hw_asid) then slowpath SysReplyWait
                    else if negb (c.(tcbDomain) =? ksCurDomain s) && negb (maxDom =? 0) then slowpath SysReplyWait
                    else fastpath_reply_wait_commit cur caller ep_ptr canSend callerSlot info length
                           cap_pd stored_hw_asid
                | _ => slowpath SysReplyWait
                end
          | _ => slowpath SysReplyWait
          end
    | _ => slowpath SysReplyWait
    end.
