(* ===== verification/FastpathLookup.v ===== *)
(** * The capability lookup of the fast path

    lookup_fp shifts the address to the left and compares and indexes with its top
    bits, where resolveAddressBits counts the bits that remain. Both follow the
    same bit-by-bit resolution (CSpaceSpec). *)
From stdpp Require Import base list gmap.
From Stdlib Require Import ZArith Lia.
From S2P Require Import Prelude.
From S2P Require Import Words.
From S2P Require Import Structures.
From S2P Require Import KernelState.
From S2P Require Import VSpace.
From S2P Require Import MDB.
From S2P Require Import CSpace.
From S2P Require Import Ipc.
From S2P Require Import Syscall.
From S2P Require Import Fastpath.
From S2P Require Import System.
From S2P Require Import CapSpec.
From S2P Require Import CSpaceSpec.


(** ** The address arithmetic of lookup_fp *)

(** The field of [k] bits that begins at bit [32 - n] from the top of a word *)
Lemma top_bits n k w : 0 <= k <= n -> n <= 32 ->
  (wshl w (32 - n)) >>w (32 - k) = Z.shiftr w (n - k) mod 2 ^ k.
Proof.
  intros Hk Hn. unfold wshl, wrap, wshr. apply Z.bits_inj'. intros i Hi.
  rewrite Z.shiftr_spec, Z.testbit_mod_pow2 by lia. rewrite Z.testbit_mod_pow2 by lia.
  destruct (Z.ltb_spec i k).
  - rewrite (proj2 (Z.ltb_lt (i + (32 - k)) 32)) by lia. rewrite Z.shiftl_spec, Z.shiftr_spec by lia.
    cbn [andb]. f_equal. lia.
  - by rewrite (proj2 (Z.ltb_ge (i + (32 - k)) 32)) by lia.
Qed.

Lemma top_field n k w : (k <= n)%nat -> (n <= 32)%nat ->
  (wshl w (32 - Z.of_nat n)) >>w (32 - Z.of_nat k) = bits_val (take k (bits n w)).
Proof.
  intros Hk Hn. rewrite top_bits by lia. rewrite bits_take by done. rewrite bits_val_bits.
  do 2 f_equal. lia.
Qed.

Lemma wshl_wshl w a b : 0 <= a -> 0 <= b -> wshl (wshl w a) b = wshl w (a + b).
Proof.
  intros Ha Hb. unfold wshl, wrap. apply Z.bits_inj'. intros i Hi.
  rewrite !Z.testbit_mod_pow2 by lia. destruct (Z.ltb_spec i 32); [|done]. cbn [andb].
  rewrite !Z.shiftl_spec by done. destruct (decide (0 <= i - b)).
  - rewrite Z.testbit_mod_pow2 by lia. rewrite (proj2 (Z.ltb_lt (i - b) 32)) by lia. cbn [andb].
    rewrite Z.shiftl_spec by lia. f_equal. lia.
  - rewrite !Z.testbit_neg_r by lia. done.
Qed.

Lemma top_range w b k : 0 <= k <= 32 -> 0 <= (wshl w b) >>w (32 - k) < 2 ^ k.
Proof.
  intros Hk. unfold wshl, wrap, wshr. pose proof (Z.mod_pos_bound (Z.shiftl w b) (2 ^ 32) ltac:(done)) as H.
  set (x := Z.shiftl w b mod 2 ^ 32) in *. rewrite Z.shiftr_div_pow2 by lia.
  pose proof (Z.pow_pos_nonneg 2 (32 - k) ltac:(done) ltac:(lia)).
  split; [apply Z.div_pos; lia|]. apply Z.div_lt_upper_bound; [lia|].
  rewrite <- Z.pow_add_r by lia. replace (32 - k + k) with 32 by lia. lia.
Qed.

Lemma bits_val_range l : 0 <= bits_val l < 2 ^ Z.of_nat (length l).
Proof.
  induction l as [|b l IH]; [done|]. rewrite bits_val_cons. simpl length.
  rewrite Nat2Z.inj_succ, Z.pow_succ_r by lia. destruct b; simpl; lia.
Qed.

(** ** lookup_fp follows the resolution of the address

    The nodes of the fast path: at least one bit of index, as Retype makes them,
    and a guard that fits its size, as updateCapData makes it. *)
Definition fast_node (c : cap) : Prop :=
  match c with Cap_cnode r gs g p => 1 <= r /\ 0 <= g < 2 ^ gs | _ => True end.
Definition fast_nodes (s : kstate) : Prop := forall p c, caps_of s p = Some c -> fast_node c.

(** What lookup_fp returns for a resolution *)
Definition found_cap (s : kstate) (res : resolved) : cap :=
  match res with
  | ResolvedSlot slot _ => default Cap_null (caps_of s slot)
  | ResolvedFault _ => Cap_null
  end.

Lemma get_cap_caps s p c : caps_of s p = Some c -> get_cap p s = Ret c s.
Proof.
  unfold caps_of, get_cap, get_cte, bind, get. intros (x & Hx & ->)%fmap_Some. by rewrite Hx.
Qed.

(** One round, at a node [Cap_cnode r gs g p] with [n] bits of the address left *)
Section round.
Context (s : kstate) (cptr : Z) (r gs g p : Z) (n : nat).
Hypotheses (W : node_wf s (Cap_cnode r gs g p)) (F : fast_node (Cap_cnode r gs g p)) (Hn : (n <= 32)%nat).

Lemma round_guard : gs <= Z.of_nat n ->
  negb (gs =? 0) && negb ((wshl cptr (32 - Z.of_nat n) >>w (32 - gs)) =? g) =
  negb (bits_val (take (Z.to_nat gs) (bits n cptr)) =? g).
Proof using W F Hn.
  intros Hgs. destruct W as (_ & Hg & _), F as [_ Hgr]. destruct (Z.eqb_spec gs 0) as [->|Hne].
  - change (2 ^ 0) with 1 in Hgr. assert (g = 0) as -> by lia. done.
  - cbn [negb andb]. rewrite <- (Z2Nat.id gs) at 1 by lia. rewrite top_field by lia. done.
Qed.

Lemma round_slot : exists c, forall k : cap -> K cap,
  bind (shift_right (wshl (wshl cptr (32 - Z.of_nat n)) gs) (32 - r)) (fun radix =>
    bind (get_cap (cte_at p radix)) k) s = k c s /\
  (r + gs <= Z.of_nat n ->
   caps_of s (cte_at p (bits_val (take (Z.to_nat r) (bits (n - Z.to_nat gs) cptr)))) = Some c).
Proof using W F Hn.
  destruct W as (Hr & Hg & _ & Hs), F as [Hr1 _].
  rewrite wshl_wshl by lia. set (x := wshl cptr (32 - Z.of_nat n + gs) >>w (32 - r)).
  destruct (Hs x) as [c Hc]. { apply top_range. lia. }
  exists c.(cte_cap). intros k. split.
  - unfold shift_right, wordBits. rewrite (proj2 (Z.ltb_lt (32 - r) 32)) by lia.
    unfold bind at 1. cbn. fold x. unfold bind. rewrite (get_cap_caps s (cte_at p x) c.(cte_cap)); [done|].
    unfold caps_of. by rewrite Hc.
  - intros Hle. replace (bits_val _) with x; [unfold caps_of; by rewrite Hc|]. unfold x.
    rewrite <- (Z2Nat.id r) at 1 by lia. rewrite <- top_field by lia. do 2 f_equal. lia.
Qed.
End round.

(** The parts of an address *)
Lemma bits_parts n w (a1 a2 a3 : list bool) :
  a1 ++ a2 ++ a3 = bits n w ->
  (length a1 + length a2 + length a3 = n)%nat /\ a1 = take (length a1) (bits n w) /\
  a2 = take (length a2) (bits (n - length a1) w) /\ a3 = bits (n - length a1 - length a2) w.
Proof.
  intros E. pose proof (f_equal length E) as El. rewrite bits_length, !length_app in El.
  rewrite <- (bits_drop (length a2) (n - length a1)), <- (bits_drop (length a1) n), <- E.
  rewrite take_app_length, drop_app_length, take_app_length, drop_app_length. split_and!; done || lia.
Qed.

Lemma lookup_fp_loop_resolves s cptr c a res :
  nodes_wf s -> fast_nodes s -> resolves (caps_of s) c a res ->
  forall n fuel, a = bits n cptr -> (n <= 32)%nat -> (n < fuel)%nat -> node_wf s c -> fast_node c ->
  lookup_fp_loop fuel c cptr (32 - Z.of_nat n) s = Ret (found_cap s res) s.
Proof.
  intros W F H. induction H as [r gs g p a Hm|r gs g p a Hd Hg|r gs g p a1 a2 slot Eg L1 L2 Es
    |r gs g p a1 a2 a3 slot c Eg L1 L2 Hne Es Hc Ht|r gs g p a1 a2 a3 slot c res Eg L1 L2 Hne Es Hc Ht Hr IH];
    intros n [|fuel] Ea Hn Hf Wc Fc; try lia; cbn [lookup_fp_loop];
    pose proof (round_guard s cptr r gs g p n Wc Fc Hn) as Hgd;
    destruct (round_slot s cptr r gs g p n Wc Fc Hn) as (c' & Hs);
    pose proof Wc as (Wr & Wg & Wp & _); pose proof Fc as (F1 & _).
  - subst a. rewrite bits_length in *. destruct (decide (gs <= Z.of_nat n)) as [Hle|Hgt].
    + rewrite Hgd by done. destruct Hm as [Hm|]; [|lia].
      rewrite (proj2 (Z.eqb_neq _ _)) by exact Hm. done.
    + destruct (negb (gs =? 0) && _); [done|].
      erewrite (proj1 (Hs _)). rewrite (proj2 (Z.ltb_ge _ 32)) by lia. cbn [andb].
      by rewrite (proj2 (Z.gtb_lt (32 - Z.of_nat n + gs + r) 32)) by lia.
  - subst a. rewrite bits_length in *. rewrite Hgd by lia.
    rewrite (proj2 (Z.eqb_eq _ _) Hg). cbn [negb].
    erewrite (proj1 (Hs _)). rewrite (proj2 (Z.ltb_ge _ 32)) by lia. cbn [andb].
    by rewrite (proj2 (Z.gtb_lt (32 - Z.of_nat n + gs + r) 32)) by lia.
  - rewrite <- (app_nil_r a2) in Ea.
    destruct (bits_parts n cptr a1 a2 [] Ea) as (El & E1 & E2 & _). simpl in El.
    rewrite Hgd by lia.
    replace (Z.to_nat gs) with (length a1) in * by lia. replace (Z.to_nat r) with (length a2) in * by lia.
    rewrite <- E1, (proj2 (Z.eqb_eq _ _) Eg). cbn [negb].
    erewrite (proj1 (Hs _)). rewrite (proj2 (Z.ltb_ge _ 32)) by lia. cbn [andb].
    replace (32 - Z.of_nat n + gs + r >? 32) with false by (symmetry; rewrite Z.gtb_ltb; apply Z.ltb_ge; lia).
    pose proof (proj2 (Hs (fun _ => fail)) ltac:(lia)) as Hslot. rewrite <- E2, <- Es in Hslot.
    unfold found_cap. by rewrite Hslot.
  - destruct (bits_parts n cptr a1 a2 a3 Ea) as (El & E1 & E2 & E3).
    assert (0 < length a3)%nat by (destruct a3; simpl; [done|lia]).
    rewrite Hgd by lia.
    replace (Z.to_nat gs) with (length a1) in * by lia. replace (Z.to_nat r) with (length a2) in * by lia.
    rewrite <- E1, (proj2 (Z.eqb_eq _ _) Eg). cbn [negb].
    pose proof (proj2 (Hs (fun _ => fail)) ltac:(lia)) as Hslot. rewrite <- E2, <- Es, Hc in Hslot.
    injection Hslot as <-.
    erewrite (proj1 (Hs _)). rewrite (bool_decide_eq_false_2 _ Ht), andb_false_r.
    replace (32 - Z.of_nat n + gs + r >? 32) with false by (symmetry; rewrite Z.gtb_ltb; apply Z.ltb_ge; lia).
    unfold found_cap. by rewrite Hc.
  - destruct (bits_parts n cptr a1 a2 a3 Ea) as (El & E1 & E2 & E3).
    assert (0 < length a3)%nat by (destruct a3; simpl; [done|lia]).
    rewrite Hgd by lia.
    replace (Z.to_nat gs) with (length a1) in * by lia. replace (Z.to_nat r) with (length a2) in * by lia.
    rewrite <- E1, (proj2 (Z.eqb_eq _ _) Eg). cbn [negb].
    pose proof (proj2 (Hs (fun _ => fail)) ltac:(lia)) as Hslot. rewrite <- E2, <- Es, Hc in Hslot.
    injection Hslot as <-.
    erewrite (proj1 (Hs _)). rewrite (bool_decide_eq_true_2 _ Ht).
    rewrite (proj2 (Z.ltb_lt (32 - Z.of_nat n + gs + r) 32)) by lia. cbn [andb].
    replace (32 - Z.of_nat n + gs + r) with (32 - Z.of_nat (n - length a1 - length a2)) by lia.
    apply IH; [done|lia|lia|by eapply W|by eapply F].
Qed.

(** The slot of a resolution exists. *)
Lemma resolves_slot_cap s c a res : nodes_wf s -> resolves (caps_of s) c a res -> node_wf s c ->
  match res with ResolvedSlot slot _ => is_Some (caps_of s slot) | _ => True end.
Proof.
  intros W H. induction H as [| |r gs g p a1 a2 slot Eg L1 L2 -> | |r gs g p a1 a2 a3 slot c res Eg L1 L2 Hne Es Hc Ht Hr IH];
    intros Wc; try done.
  - destruct Wc as (_ & _ & _ & Hs). unfold caps_of. destruct (Hs (bits_val a2)) as [x ->]; [|done].
    rewrite <- L2. apply bits_val_range.
  - apply IH. by eapply W.
Qed.

(** [lookup_fp] returns what lookupCap finds, and the null capability where it fails;
    it changes nothing, and neither does a lookup that succeeds. *)
Lemma wp_lookup_fp s thread cptr root :
  nodes_wf s -> fast_nodes s -> caps_of s (TCB_PTR_CTE_PTR thread tcbCTable) = Some root ->
  wp (lookupCapAndSlot thread cptr) (fun r s' =>
    let '(status, slot, c) := r in
    lookup_fp root cptr s = Ret c s /\
    (status = EXCEPTION_NONE -> s' = s /\ caps_of s slot = Some c) /\
    (status <> EXCEPTION_NONE -> c = Cap_null)) s.
Proof.
  intros W F Hroot. unfold lookupCapAndSlot, lookupSlot. wstep. wstep.
  eapply wp_exact; [by apply get_cap_caps|]. wstep. unfold lookup_fp.
  destruct (decide (cap_get_capType root = cap_cnode_cap)) as [Ht|Ht].
  2: { unfold resolveAddressBits. rewrite (bool_decide_eq_false_2 _ Ht). cbn [negb].
       unfold set_current_lookup_fault. repeat (wstep; cbn beta iota). done. }
  rewrite (bool_decide_eq_true_2 _ Ht). cbn [negb].
  eapply wp_mono; [apply wp_resolveAddressBits; try done; by eapply W|].
  intros rr s' (res & Hres & Hout).
  assert (lookup_fp_loop (S (Z.to_nat wordBits)) root cptr 0 s = Ret (found_cap s res) s) as E.
  { apply (lookup_fp_loop_resolves s cptr root _ res W F Hres 32); [done|lia|change (Z.to_nat wordBits) with 32%nat; lia|by eapply W|by eapply F]. }
  wstep. destruct res as [slot rest|f]; destruct Hout as [-> ->]; cbn -[lookup_fp_loop wordBits].
  - assert (is_Some (caps_of s slot)) as [c Hc]
      by (apply (resolves_slot_cap s root _ _ W Hres); by eapply W).
    change (EXCEPTION_NONE != EXCEPTION_NONE) with false. cbn iota.
    wstep. eapply wp_exact; [by apply get_cap_caps|]. wstep. rewrite E. unfold found_cap. by rewrite Hc.
  - change (EXCEPTION_LOOKUP_FAULT != EXCEPTION_NONE) with true. cbn iota. wstep. done.
Qed.
