(* ===== verification/FastpathTransfer.v ===== *)
(** * Short messages, direct switches, and what two runs must agree on

    The steps of the IPC operations in the case the fast path is made for: the
    transfer of a message that fits the registers, the dequeuing of the first
    thread of an endpoint, the switch to a thread whose address space has a
    hardware ASID, as the general code and as the fast path perform them; and the
    equivalence [alike] of states up to fields that no later operation reads. *)
From stdpp Require Import base list gmap.
From Stdlib Require Import ZArith Lia.
From S2P Require Import Prelude.
From S2P Require Import Words.
From S2P Require Import Structures.
From S2P Require Import KernelState.
From S2P Require Import DList.
From S2P Require Import SchedQueue.
From S2P Require Import VSpace.
From S2P Require Import Scheduler.
From S2P Require Import CapOps.
From S2P Require Import MDB.
From S2P Require Import CSpace.
From S2P Require Import Endpoint.
From S2P Require Import Delete.
From S2P Require Import Ipc.
From S2P Require Import TcbOps.
From S2P Require Import Syscall.
From S2P Require Import Fastpath.
From S2P Require Import System.
From S2P Require Import CapSpec.
From S2P Require Import CSpaceSpec.
From S2P Require Import SchedulerSpec.
From S2P Require Import EndpointQueues.
From S2P Require Import FastpathLookup.


(** ** Short messages

    The check of the fast path: at most four words and no capabilities. *)
Lemma fastpath_mi_check_spec w : is_word w ->
  fastpath_mi_check w = 0 <->
  0 <= message_info_get_msgLength w <= n_msgRegisters /\ message_info_get_msgExtraCaps w = 0.
Proof.
  intros Hw. unfold fastpath_mi_check, message_info_get_msgLength, message_info_get_msgExtraCaps, bf_get, n_msgRegisters.
  rewrite (land_MASK w 9) by done. rewrite Z.shiftr_0_r, !Z.land_ones by done. 
  rewrite Z.shiftr_div_pow2 by done.
  pose proof (Z.mod_pos_bound w (2 ^ 9) ltac:(done)) as Hb. set (x := w mod 2 ^ 9) in *.
  assert (w mod 2 ^ 7 = x mod 2 ^ 7) as ->.
  { unfold x. symmetry. apply Z.mod_mod_divide. by exists 4. }
  assert ((w / 2 ^ 7) mod 2 ^ 2 = x / 2 ^ 7) as ->.
  { unfold x. change (2 ^ 9) with (2 ^ 7 * 2 ^ 2). rewrite Z.rem_mul_r by lia.
    pose proof (Z.mod_pos_bound w (2 ^ 7) ltac:(done)).
    rewrite (Z.mul_comm (2 ^ 7)), Z.div_add by lia. rewrite (Z.div_small (w mod 2 ^ 7)) by lia. done. }
  unfold wadd, wrap. rewrite (Z.mod_small (x + 3)) by lia.
  rewrite (land_not_MASK (x + 3) 3) by (unfold is_word; lia).
  change (2 ^ 7) with 128. change (2 ^ 3) with 8. change (2 ^ 9) with 512 in *.
  Z.to_euclidean_division_equations; lia.
Qed.

(** Writing back what a field holds *)
Lemma bf_set_same w shift width : 0 <= shift -> 0 <= width -> bf_set w shift width (bf_get w shift width) = w.
Proof.
  intros Hs Hw. unfold bf_set, bf_get. apply Z.bits_inj'. intros i Hi.
  rewrite Z.lor_spec, Z.ldiff_spec, Z.land_spec, !Z.shiftl_spec by done.
  destruct (Z.testbit (Z.ones width) (i - shift)) eqn:E; [|by rewrite andb_true_r, andb_false_r, orb_false_r].
  rewrite andb_false_r, orb_false_l, andb_true_r.
  assert (0 <= i - shift) by (destruct (decide (0 <= i - shift)); [done|rewrite Z.testbit_neg_r in E by lia; done]).
  rewrite Z.land_spec, E, andb_true_r, Z.shiftr_spec by done. f_equal. lia.
Qed.

(** The message information a short message arrives with: transferCaps clears two
    fields, one of which is clear, and the length is the one sent. *)
Lemma short_info w : 0 <= message_info_get_msgLength w <= n_msgRegisters -> message_info_get_msgExtraCaps w = 0 ->
  messageInfoFromWord w = w /\
  message_info_set_msgLength (message_info_set_msgCapsUnwrapped (message_info_set_msgExtraCaps w 0) 0)
    (message_info_get_msgLength w) = message_info_set_msgCapsUnwrapped w 0.
Proof.
  intros Hl He. split.
  - unfold messageInfoFromWord. rewrite Z.gtb_ltb, (proj2 (Z.ltb_ge seL4_MsgMaxLength (message_info_get_msgLength w))); [done|]. unfold n_msgRegisters, seL4_MsgMaxLength in *. lia.
  - assert (message_info_set_msgExtraCaps w 0 = w) as ->.
    { rewrite <- He. apply bf_set_same; done. }
    set (w' := message_info_set_msgCapsUnwrapped w 0).
    assert (message_info_get_msgLength w = message_info_get_msgLength w') as ->.
    { symmetry. apply bf_set_other; done || lia. }
    apply bf_set_same; done.
Qed.

(** ** The transfer of a short message *)
Definition copy_reg (src dst i : Z) : K unit :=
  let* v := getRegister src (2 + i) in setRegister dst (2 + i) v.
(** The registers 2 + i, for [n] values of i, copied *)
Fixpoint copy_regs (n : nat) (i : Z) (src dst : list Z) : list Z :=
  match n with
  | O => dst
  | S n' => copy_regs n' (i + 1) src (<[Z.to_nat (2 + i) := default 0 (src !! Z.to_nat (2 + i))]> dst)
  end.
Lemma copy_regs_length n i src dst : length (copy_regs n i src dst) = length dst.
Proof. revert i dst. induction n as [|n IH]; intros i dst; [done|]. simpl. rewrite IH. apply length_insert. Qed.

Lemma msgRegister_spec i s : 0 <= i < 4 -> msgRegister i s = Ret (2 + i) s.
Proof. intros H. assert (i = 0 \/ i = 1 \/ i = 2 \/ i = 3) as [-> | [-> | [-> | ->]]] by lia; done. Qed.

Lemma wp_copy_loop src dst f (n : nat) : forall i s ts td (Q : unit -> kstate -> Prop),
  (forall j s', 0 <= j < 4 -> f j s' = copy_reg src dst j s') ->
  ksTcbs s !! src = Some ts -> ksTcbs s !! dst = Some td -> src <> dst ->
  (6 <= length ts.(tcbContext))%nat -> (6 <= length td.(tcbContext))%nat -> 0 <= i -> i + Z.of_nat n <= 4 ->
  Q tt (upd_ksTcbs (<[dst := upd_tcbContext (copy_regs n i ts.(tcbContext) td.(tcbContext)) td]> (ksTcbs s)) s) ->
  wp (for_upto n i f) Q s.
Proof.
  induction n as [|n IH]; intros i s ts td Q Hf Hs Hd Hne Ls Ld Hi Hn HQ.
  - apply wp_ret. cbn [copy_regs] in HQ. replace (upd_ksTcbs _ s) with s in HQ; [done|].
    assert (upd_tcbContext td.(tcbContext) td = td) as -> by (by destruct td).
    rewrite insert_id by done. by destruct s.
  - destruct (lookup_lt_is_Some_2 ts.(tcbContext) (Z.to_nat (2 + i))) as [v Hv]; [lia|].
    destruct (lookup_lt_is_Some_2 td.(tcbContext) (Z.to_nat (2 + i))) as [v0 Hv0]; [lia|].
    assert (wp (copy_reg src dst i) (fun _ s' => wp (for_upto n (i + 1) f) Q s') s) as W.
    { unfold copy_reg. wstep. eapply wp_getRegister; [done|done|].
      eapply wp_setRegister; [done|done|]. eapply (IH (i + 1) _ ts (upd_tcbContext (<[Z.to_nat (2 + i) := v]> td.(tcbContext)) td)); ksimp; try done; try lia.
      - rewrite lookup_insert_ne by congruence. exact Hs.
      - by rewrite lookup_insert_eq.
      - ksimp. rewrite length_insert. done.
      - ksimp. cbn [copy_regs] in HQ. rewrite Hv in HQ. cbn [default] in HQ. exact HQ. }
    unfold wp in *. cbn [for_upto]. rewrite Hf by lia. destruct (copy_reg src dst i s); done.
Qed.

(** The two loops *)
Lemma wp_copyMRs s src dst sbuf rbuf n ts td (Q : Z -> kstate -> Prop) :
  ksTcbs s !! src = Some ts -> ksTcbs s !! dst = Some td -> src <> dst ->
  (6 <= length ts.(tcbContext))%nat -> (6 <= length td.(tcbContext))%nat -> 0 <= n <= n_msgRegisters ->
  Q n (upd_ksTcbs (<[dst := upd_tcbContext (copy_regs (Z.to_nat n) 0 ts.(tcbContext) td.(tcbContext)) td]> (ksTcbs s)) s) ->
  wp (copyMRs src sbuf dst rbuf n) Q s.
Proof.
  unfold n_msgRegisters. intros Hs Hd Hne Ls Ld Hn HQ. unfold copyMRs, n_msgRegisters.
  rewrite (Z.min_l n 4) by lia. wstep. eapply (wp_copy_loop src dst _ _ 0 s ts td); try done; try lia.
  - intros j s' Hj. exact (bind_ret _ _ _ _ _ (msgRegister_spec j s' Hj)).
  - cbn beta. destruct ((rbuf =? NULL) || (sbuf =? NULL)); [by apply wp_ret|].
    rewrite Z.sub_diag. wstep. apply wp_ret. by apply wp_ret.
Qed.

Lemma wp_fastpath_copy_mrs s src dst n ts td (Q : unit -> kstate -> Prop) :
  ksTcbs s !! src = Some ts -> ksTcbs s !! dst = Some td -> src <> dst ->
  (6 <= length ts.(tcbContext))%nat -> (6 <= length td.(tcbContext))%nat -> 0 <= n <= n_msgRegisters ->
  Q tt (upd_ksTcbs (<[dst := upd_tcbContext (copy_regs (Z.to_nat n) 0 ts.(tcbContext) td.(tcbContext)) td]> (ksTcbs s)) s) ->
  wp (fastpath_copy_mrs n src dst) Q s.
Proof.
  unfold n_msgRegisters. intros Hs Hd Hne Ls Ld Hn HQ. eapply (wp_copy_loop src dst _ _ 0 s ts td); try done; lia.
Qed.

Lemma lookupIPCBuffer_pure s r t tc c :
  ksTcbs s !! t = Some tc -> ksCtes s !! TCB_PTR_CTE_PTR t tcbBuffer = Some c ->
  exists b, lookupIPCBuffer r t s = Ret b s.
Proof.
  intros Ht Hc. assert (wp (lookupIPCBuffer r t) (fun _ s' => s' = s) s) as (b & s' & E & ->)%wp_inv; [|eauto].
  unfold lookupIPCBuffer. wstep. wstep. wstep. wstep.
  destruct (_ && _); [by apply wp_ret|]. destruct (_ || _); by apply wp_ret.
Qed.

Definition no_extra_caps (s : kstate) : kstate :=
  upd_current_extra_caps (<[0%nat := NULL]> (current_extra_caps s)) s.

Lemma wp_lookupExtraCaps_none s t b info (Q : exception_t -> kstate -> Prop) :
  message_info_get_msgExtraCaps info = 0 -> Q EXCEPTION_NONE (no_extra_caps s) ->
  wp (lookupExtraCaps t b info) Q s.
Proof.
  intros He HQ. unfold lookupExtraCaps, set_excapref. rewrite He. destruct (b =? NULL).
  - wstep. wstep. by wstep.
  - cbn. exact HQ.
Qed.

(** doIPCTransfer of a short message from a thread without fault *)
Definition received (n info badge : Z) (src dst : list Z) : list Z :=
  <[0%nat := badge]> (<[1%nat := message_info_set_msgCapsUnwrapped info 0]> (copy_regs (Z.to_nat n) 0 src dst)).

Lemma wp_doIPCTransfer_short s src dst ep badge dim ts td csrc cdst info (Q : unit -> kstate -> Prop) :
  ksTcbs s !! src = Some ts -> ksTcbs s !! dst = Some td -> src <> dst ->
  ksCtes s !! TCB_PTR_CTE_PTR src tcbBuffer = Some csrc -> ksCtes s !! TCB_PTR_CTE_PTR dst tcbBuffer = Some cdst ->
  (6 <= length ts.(tcbContext))%nat -> (6 <= length td.(tcbContext))%nat ->
  fault_get_faultType ts.(tcbFault) = 0 -> ts.(tcbContext) !! 1%nat = Some info ->
  0 <= message_info_get_msgLength info <= n_msgRegisters -> message_info_get_msgExtraCaps info = 0 ->
  current_extra_caps s <> [] ->
  Q tt (no_extra_caps (upd_ksTcbs (<[dst :=
    upd_tcbContext (received (message_info_get_msgLength info) info badge ts.(tcbContext) td.(tcbContext)) td]>
    (ksTcbs s)) s)) ->
  wp (doIPCTransfer src ep badge true dst dim) Q s.
Proof.
  intros Hs Hd Hne Cs Cd Ls Ld Hf Hi Hl He Hx HQ. unfold doIPCTransfer.
  destruct (lookupIPCBuffer_pure s true dst td cdst Hd Cd) as [rb Hrb].
  destruct (lookupIPCBuffer_pure s false src ts csrc Hs Cs) as [sb Hsb].
  destruct (short_info info Hl He) as [E1 E2].
  wstep. eapply wp_exact; [exact Hrb|]. wstep. wstep. rewrite Hf. cbn [Z.eqb].
  wstep. eapply wp_exact; [exact Hsb|]. unfold doNormalTransfer. wstep.
  eapply wp_getRegister; [done|exact Hi|]. wstep. wstep.
  rewrite E1. apply wp_lookupExtraCaps_none; [done|]. wstep. wstep. wstep.
  change (EXCEPTION_NONE != EXCEPTION_NONE) with false. cbn iota.
  wstep. eapply wp_copyMRs; ksimp; try done. wstep. unfold transferCaps.
  assert (excapref (current_extra_caps (no_extra_caps s)) 0 = NULL) as Ex.
  { unfold excapref, no_extra_caps. ksimp. by destruct (current_extra_caps s). }
  match goal with |- context [excapref ?l 0 =? NULL] => replace (excapref l 0) with NULL by (symmetry; exact Ex) end.
  cbn [Z.eqb NULL orb]. wstep. rewrite E2. unfold wordFromMessageInfo.
  assert (forall i, (i < 6)%nat -> is_Some (copy_regs (Z.to_nat (message_info_get_msgLength info)) 0 ts.(tcbContext) td.(tcbContext) !! i)) as Hc.
  { intros i Hi'. apply lookup_lt_is_Some_2. rewrite copy_regs_length. lia. }
  destruct (Hc 1%nat ltac:(lia)) as [v1 Hv1]. destruct (Hc 0%nat ltac:(lia)) as [v0 Hv0].
  wstep. eapply wp_setRegister; [ksimp; by rewrite lookup_insert_eq|exact Hv1|]. ksimp.
  eapply wp_setRegister; [ksimp; by rewrite lookup_insert_eq| |].
  { ksimp. change (Z.to_nat badgeRegister) with 0%nat. change (Z.to_nat msgInfoRegister) with 1%nat.
    rewrite list_lookup_insert_ne by done. exact Hv0. }
  ksimp. exact HQ.
Qed.

(** ** Dequeuing the first thread of an endpoint *)
Definition pop_next (l : list Z) (T : gmap Z tcb) : gmap Z tcb :=
  match l with [] => T | n :: _ => alter (upd_tcbEPPrev NULL) n T end.

Lemma wp_tcbEPDequeue_head s t l (Q : tcb_queue -> kstate -> Prop) :
  dseg (ep_links (ksTcbs s)) NULL (t :: l) NULL ->
  Q (mk_queue (hd NULL l) (lastd NULL l)) (upd_ksTcbs (pop_next l (ksTcbs s)) s) ->
  wp (tcbEPDequeue t (mk_queue t (lastd NULL (t :: l)))) Q s.
Proof.
  intros (Hnz & Hl & Hr) HQ. unfold ep_links, links_of in Hl.
  destruct (ksTcbs s !! t) as [tc|] eqn:Et; [|done]. simpl in Hl. injection Hl as Hp Hn.
  unfold tcbEPDequeue. wstep. wstep. rewrite Hp, Hn. cbn [Z.eqb NULL negb]. wstep. wstep. wstep. wstep.
  rewrite Hp, Hn. destruct l as [|n l].
  - simpl in *. wstep. wstep. wstep. simpl. by rewrite upd_ksTcbs_id in HQ.
  - cbn [hd] in *. destruct Hr as (Hnz' & Hl' & _). unfold ep_links, links_of in Hl'.
    destruct (ksTcbs s !! n) as [nc|] eqn:En; [|done].
    rewrite (proj2 (Z.eqb_neq n NULL)) by done. cbn [negb]. wstep. wstep.
    eapply wp_mod_tcb; [exact En|]. wstep. wstep. cbn [pop_next] in HQ.
    rewrite (insert_alter _ _ _ nc En). exact HQ.
Qed.

(** ** Switching to a thread whose address space has a hardware ASID *)
Definition switched (t pd h buf : Z) (s : kstate) : kstate :=
  upd_ksHw (upd_hw_log (hw_log (ksHw s) ++
      [ttbr0 (armKSGlobalPD s); HwWriteContextID h; ttbr0 pd; HwClearExMonitor]) (ksHw s))
    (upd_armKSGlobalsFrame buf (upd_ksCurThread t s)).

Lemma wp_switchToThread_fp s t tc pd w (Q : unit -> kstate -> Prop) :
  ksTcbs s !! t = Some tc -> Q tt (switched t pd (stored_hwasid w) tc.(tcbIPCBuffer) s) ->
  wp (switchToThread_fp t pd w) Q s.
Proof.
  intros Ht HQ. unfold switchToThread_fp, armv_contextSwitch_HWASID, writeTTBR0, hw_emit. wrun.
  unfold switched, ttbr0 in HQ. rewrite <- !app_assoc. exact HQ.
Qed.

(** The address space of a thread: mapped, with a valid number stored in it *)
Definition vm_ready (s : kstate) (t pd w : Z) : Prop := exists c asid,
  ksCtes s !! TCB_PTR_CTE_PTR t tcbVTable = Some c /\ c.(cte_cap) = Cap_page_directory asid true pd /\
  ksMem s (pd_asid_slot pd) = Some w /\ stored_valid w = true /\
  0 <= asid < numASIDs /\ asid_pd_of s asid = Some pd.

Lemma wp_setVMRoot_ready s t pd w (Q : unit -> kstate -> Prop) :
  vm_ready s t pd w ->
  Q tt (upd_ksHw (upd_hw_log (hw_log (ksHw s) ++
      [ttbr0 (armKSGlobalPD s); HwWriteContextID (stored_hwasid w); ttbr0 pd]) (ksHw s)) s) ->
  wp (setVMRoot t) Q s.
Proof.
  intros (c & asid & Hc & Ec & Hw & Hv & Ha & Hpd) HQ. unfold setVMRoot. wstep. wstep. wstep. wstep. rewrite Ec.
  pose proof (asid_pd_of_inv _ _ _ Hpd) as (Hp & Hm & Hnz).
  wstep. unfold findPDForASID. wstep. apply wp_get_asid_table; [by apply asid_index|].
  rewrite (proj2 (Z.eqb_neq _ NULL)) by exact Hp. wstep. eapply wp_read_word; [exact Hm|].
  rewrite (proj2 (Z.eqb_neq pd NULL)) by done. wstep. cbn [fst snd].
  change (EXCEPTION_NONE != EXCEPTION_NONE) with false. rewrite Z.eqb_refl. cbn [negb orb].
  unfold armv_contextSwitch, getHWASID, loadHWASID. wstep. wstep. wstep.
  eapply wp_asid_pd; [done|exact Hpd|]. eapply wp_read_word; [exact Hw|].
  unfold stored_valid in Hv. rewrite Hv. wstep.
  unfold armv_contextSwitch_HWASID, writeTTBR0, hw_emit. wrun.
  unfold ttbr0 in HQ. rewrite <- !app_assoc. exact HQ.
Qed.

Lemma vm_ready_ext s s' t pd w :
  ksCtes s' !! TCB_PTR_CTE_PTR t tcbVTable = ksCtes s !! TCB_PTR_CTE_PTR t tcbVTable ->
  ksMem s' = ksMem s -> armKSASIDTable s' = armKSASIDTable s -> vm_ready s t pd w -> vm_ready s' t pd w.
Proof.
  intros E1 E2 E3 (c & asid & Hc & Ec & Hw & Hv & Ha & Hpd). exists c, asid.
  rewrite E1, E2, (asid_pd_of_same s s') by done. done.
Qed.

(** [resume] after a direct switch to an unqueued running thread was requested by a
    thread that blocked *)
Lemma wp_resume_switch s t tc cur curc pd w (Q : exception_t -> kstate -> Prop) :
  ksSchedulerAction s = t -> is_thread_action t = true ->
  ksCurThread s = cur -> ksTcbs s !! cur = Some curc -> isRunnable_ts curc.(tcbState).(tsType) = false ->
  ksTcbs s !! t = Some tc -> tc.(tcbState).(tcbQueued) = false -> tc.(tcbState).(tsType) = ThreadState_Running ->
  vm_ready s t pd w ->
  Q EXCEPTION_NONE (switched t pd (stored_hwasid w) tc.(tcbIPCBuffer)
    (upd_ksSchedulerAction SchedulerAction_ResumeCurrentThread s)) ->
  wp resume Q s.
Proof.
  intros Ea Ht Ec Hcur Hr Htc Hq Hrun Hvm HQ. unfold resume, schedule. wstep. wstep. wstep.
  rewrite Ea. unfold is_thread_action in Ht. apply andb_true_iff in Ht as [H1 H2].
  apply negb_true_iff in H1, H2. rewrite H2, H1. cbn [negb].
  wstep. rewrite Ec. eapply wp_isRunnable; [exact Hcur|]. rewrite Hr. cbn [when]. repeat wstep.
  unfold switchToThread, Arch_switchToThread. repeat wstep.
  eapply wp_setVMRoot_ready; [exact Hvm|]. wstep. eapply wp_get_tcb; [exact Htc|]. unfold hw_emit. wrun.
  unfold tcbSchedDequeue. wstep. eapply wp_get_tcb; [ksimp; exact Htc|]. rewrite Hq. wstep. wstep. unfold set_action. wstep.
  wstep. unfold activateThread. wstep. wstep. unfold get_tsType. wstep. wstep.
  eapply wp_get_tcb; [ksimp; exact Htc|]. wstep. rewrite Hrun. wstep. wstep.
  unfold switched in HQ. rewrite <- !app_assoc. exact HQ.
Qed.

(** ** States that no later system call tells apart

    A thread state keeps fields of an operation that is over; the fast path clears
    some that the slow path leaves. [live_ts] clears all those that have no meaning
    in the state the thread is in. The extra capabilities are looked up anew by
    every invocation. *)
Definition live_ts (ts : thread_state) : thread_state :=
  match ts.(tsType) with
  | ThreadState_BlockedOnSend => ts
  | ThreadState_BlockedOnReceive =>
      upd_blockingIPCBadge 0 (upd_blockingIPCCanGrant false (upd_blockingIPCIsCall false ts))
  | ThreadState_BlockedOnAsyncEvent => mk_thread_state 0 false false ts.(tcbQueued) false ts.(blockingIPCEndpoint) ts.(tsType)
  | _ => mk_thread_state 0 false false ts.(tcbQueued) false 0 ts.(tsType)
  end.
(** The state of a thread changed *)
Definition with_ts (f : thread_state -> thread_state) (t : tcb) : tcb := upd_tcbState (f t.(tcbState)) t.
Definition live (s : kstate) : kstate := upd_current_extra_caps [] (upd_ksTcbs (with_ts live_ts <$> ksTcbs s) s).
Definition alike (s1 s2 : kstate) : Prop := live s1 = live s2.

#[export] Instance alike_equiv : Equivalence alike.
Proof. split; unfold alike; [by intros ?|by intros ???|intros ??? -> ->; done]. Qed.

Lemma alike_no_extra_caps s : alike (no_extra_caps s) s.
Proof. by destruct s. Qed.

#[export] Instance no_extra_caps_alike : Proper (alike ==> alike) no_extra_caps.
Proof. intros s1 s2 H. by rewrite !alike_no_extra_caps. Qed.

#[export] Instance switched_alike t pd h buf : Proper (alike ==> alike) (switched t pd h buf).
Proof.
  intros s1 s2 H. unfold alike, live, switched in *. destruct s1, s2. unfold upd_current_extra_caps, upd_ksTcbs in *. 
  ksimp. injection H; intros; subst. by f_equal.
Qed.

(** Two runs with the same end *)
Definition agree {A} (r1 r2 : outcome kstate A) : Prop :=
  match r1, r2 with
  | Ret a s1, Ret b s2 => a = b /\ alike s1 s2
  | Stop e1, Stop e2 => e1 = e2
  | _, _ => False
  end.

#[export] Instance agree_refl A : Reflexive (@agree A).
Proof. intros [a s|e]; [by split|done]. Qed.

Lemma agree_wp {A} (m1 m2 : K A) s :
  wp m1 (fun a s1 => wp m2 (fun b s2 => a = b /\ alike s1 s2) s) s -> agree (m1 s) (m2 s).
Proof. unfold wp. destruct (m1 s); [|done]. by destruct (m2 s). Qed.

(** Steps that both runs share *)
Lemma agree_step {A B} (m : K A) (k : A -> K B) s a r :
  m s = Ret a s -> agree (k a s) r -> agree (bind m k s) r.
Proof. unfold bind. by intros ->. Qed.

Lemma get_tcb_at s p t : ksTcbs s !! p = Some t -> get_tcb p s = Ret t s.
Proof. unfold get_tcb, bind, get. by intros ->. Qed.
Lemma get_ep_at s p e : ksEps s !! p = Some e -> get_ep p s = Ret e s.
Proof. unfold get_ep, bind, get. by intros ->. Qed.
Lemma read_word_at s p w : ksMem s p = Some w -> read_word p s = Ret w s.
Proof. unfold read_word, bind, get. by intros ->. Qed.
