(* ===== verification/FastpathCall.v ===== *)
(** * SysCall to a waiting receiver, by both paths

    The run of handleSyscall, in the state the fast path requires, down to the
    state it ends in, and that of the writes of [fastpath_call_commit]. *)
From stdpp Require Import base list gmap.
From Stdlib Require Import ZArith Lia.
From S2P Require Import Prelude.
From S2P Require Import Words.
From S2P Require Import Structures.
From S2P Require Import KernelState.
From S2P Require Import DList.
From S2P Require Import SchedQueue.
From S2P Require Import VSpace.
From S2P Require Import Scheduler.
From S2P Require Import CapOps.
From S2P Require Import MDB.
From S2P Require Import CSpace.
From S2P Require Import Endpoint.
From S2P Require Import Delete.
From S2P Require Import Ipc.
From S2P Require Import TcbOps.
From S2P Require Import Syscall.
From S2P Require Import Fastpath.
From S2P Require Import System.
From S2P Require Import CapSpec.
From S2P Require Import CSpaceSpec.
From S2P Require Import SchedulerSpec.
From S2P Require Import EndpointQueues.
From S2P Require Import FastpathLookup.
From S2P Require Import FastpathTransfer.

(** ** A call that finds a receiver: the slow path *)
Definition replySlotOf (t : Z) : Z := TCB_PTR_CTE_PTR t tcbReply.
Definition callerSlotOf (t : Z) : Z := TCB_PTR_CTE_PTR t tcbCaller.
Definition master_slot (t next : Z) : cte := mk_cte (Cap_reply true t) (mk_mdb_node next true true NULL).
Definition caller_slot (t : Z) : cte := mk_cte (Cap_reply false t) (mk_mdb_node NULL false false (replySlotOf t)).
Definition free_slot : cte := mk_cte Cap_null nullMDBNode.

(** setupCallerCap, from its second step on: the reply capability of [cur] in the
    caller slot of [dest] *)
Lemma wp_setupCallerCap s cur t dest (Q : unit -> kstate -> Prop) :
  slots_wf s -> field_high 27 cur = cur -> ksTcbs s !! cur = Some t ->
  ksSchedulerAction s <> SchedulerAction_ResumeCurrentThread ->
  ksCtes s !! replySlotOf cur = Some (master_slot cur NULL) -> ksCtes s !! callerSlotOf dest = Some free_slot ->
  Q tt (upd_ksCtes (<[replySlotOf cur := master_slot cur (callerSlotOf dest)]> (<[callerSlotOf dest := caller_slot cur]> (ksCtes s)))
         (upd_ksTcbs (<[cur := upd_tcbState (upd_tsType ThreadState_BlockedOnReply t.(tcbState)) t]> (ksTcbs s)) s)) ->
  wp (setupCallerCap cur dest) Q s.
Proof.
  intros [_ Hs] Hcur Ht Ha Hr Hc HQ. unfold setupCallerCap, setThreadState, scheduleTCB.
  fold (replySlotOf cur) (callerSlotOf dest).
  assert (replySlotOf cur <> callerSlotOf dest) as Hne by (intros E; rewrite E, Hc in Hr; done).
  assert (field_high 29 (replySlotOf cur) = replySlotOf cur) as Er by (apply Hs; by eexists).
  assert (field_high 29 (callerSlotOf dest) = callerSlotOf dest) as Ec by (apply Hs; by eexists).
  wstep. wstep. wstep. wstep. wstep. ksimp. rewrite (proj2 (Z.eqb_neq (ksSchedulerAction s) _)) by exact Ha.
  rewrite andb_false_r. wstep. wstep. eapply wp_get_cap; [ksimp; exact Hr|]. wstep. unfold master_slot at 1. cbn [cte_cap].
  wstep. apply wp_assert; [done|]. apply wp_assert; [apply Z.eqb_refl|].
  wstep. eapply wp_get_cap; [ksimp; exact Hc|]. wstep. apply wp_assert; [done|].
  unfold cteInsert. wstep. eapply wp_get_cte; [ksimp; exact Hr|]. wstep. cbn [cte_cap master_slot].
  unfold newCapIsRevocable, cap_reply_cap_new. apply wp_ret. wstep. unfold assert_empty_slot.
  wstep. eapply wp_get_cte; [ksimp; exact Hc|]. wstep. apply wp_assert; [done|]. apply wp_assert; [done|].
  wstep. unfold setUntypedCapAsFull. wstep. wstep. eapply wp_set_cap; [ksimp; exact Hc|].
  wstep. unfold set_mdb. eapply wp_mod_cte; [ksimp; by rewrite lookup_insert_eq|].
  wstep. eapply wp_mod_mdb; [ksimp; rewrite lookup_insert_ne by congruence; exact Hr|].
  cbn. ksimp. rewrite Hcur. unfold mdb_node_set_mdbPrev, mdb_node_set_mdbNext, caller_slot, master_slot in *. 
  cbn in *. rewrite Er, Ec. cbn. ksimp. exact HQ.
Qed.

(** The threads and the endpoint after the call: [cur] waits for the reply, [dest]
    runs with the message, and leaves the queue [dest :: l]. *)
Definition popped (l : list Z) : endpoint :=
  mk_endpoint (hd NULL l) (lastd NULL l) (if bool_decide (l = []) then EPState_Idle else EPState_Recv).

Lemma pop_next_ne l T p : p ∉ l -> pop_next l T !! p = T !! p.
Proof. destruct l as [|n l]; [done|]. intros H. apply lookup_alter_ne. set_solver. Qed.

Lemma wp_pop s epptr dest l (Q : unit -> kstate -> Prop) :
  threads_wf s -> ep_rep s epptr EPState_Recv (dest :: l) ->
  Q tt (upd_ksEps (<[epptr := popped l]> (ksEps s)) (upd_ksTcbs (pop_next l (ksTcbs s)) s)) ->
  wp (let* queue := tcbEPDequeue dest (mk_queue dest (lastd NULL (dest :: l))) in
      set_ep_queue epptr queue ;;;
      when (q_head queue =? NULL) (mod_ep epptr (upd_ep_state EPState_Idle))) Q s.
Proof.
  intros W [He Hl Hi] HQ. wstep. apply wp_tcbEPDequeue_head; [done|]. unfold set_ep_queue.
  assert (forall p, p ∈ dest :: l -> field_high 28 p = p) as Hal.
  { intros p Hp. apply W. by destruct (ep_queue_threads _ _ _ _ (dseg_queue_rep _ _ Hl) Hp). }
  assert (field_high 28 (hd NULL l) = hd NULL l /\ field_high 28 (lastd NULL l) = lastd NULL l) as [Eh El].
  { destruct l as [|n l]; [done|]. split; apply Hal; apply list_elem_of_further;
      [by apply (hd_in NULL)|by apply (lastd_in NULL (n :: l))]. }
  wstep. eapply wp_mod_ep; [exact He|]. unfold ep_ptr_set_queue. ksimp. cbn [q_head]. rewrite Eh, El.
  unfold popped in HQ. destruct l as [|n l].
  - cbn [hd Z.eqb NULL when]. eapply wp_mod_ep; [ksimp; by rewrite lookup_insert_eq|]. ksimp. exact HQ.
  - cbn [hd]. destruct Hl as (_ & _ & Hn & _). rewrite (proj2 (Z.eqb_neq n NULL)) by done. cbn [when]. wstep. exact HQ.
Qed.

(** A thread of the current domain and of no lower priority is made running and
    becomes the one to switch to. *)
Lemma wp_wake s cur t1 dest d (Q : unit -> kstate -> Prop) :
  ksCurThread s = cur -> ksSchedulerAction s = SchedulerAction_ResumeCurrentThread ->
  ksTcbs s !! cur = Some t1 -> ksTcbs s !! dest = Some d -> dest <> cur ->
  d.(tcbDomain) = ksCurDomain s -> t1.(tcbPriority) <= d.(tcbPriority) ->
  Q tt (upd_ksSchedulerAction dest (upd_ksTcbs (<[dest := with_ts (upd_tsType ThreadState_Running) d]> (ksTcbs s)) s)) ->
  wp (setThreadState dest ThreadState_Running ;;; attemptSwitchTo dest) Q s.
Proof.
  intros Ec Ea Hc Hd Hne Hdom Hprio HQ. wstep. unfold setThreadState, scheduleTCB. wstep.
  eapply wp_mod_tcbState; [exact Hd|]. wstep. wstep. ksimp. rewrite Ec, (proj2 (Z.eqb_neq dest cur)) by done.
  cbn [andb]. wstep. unfold attemptSwitchTo, possibleSwitchTo. wstep. wstep. ksimp.
  wstep. eapply wp_get_tcb; [ksimp; rewrite lookup_insert_ne by congruence; rewrite Ec; exact Hc|].
  wstep. eapply wp_get_tcb; [ksimp; by rewrite lookup_insert_eq|]. cbn [upd_tcbState tcbDomain tcbPriority].
  rewrite Hdom, Z.eqb_refl, Ea. cbn [negb].
  replace ((tcbPriority d >? tcbPriority t1) || (tcbPriority d =? tcbPriority t1) && true) with true.
  2: { symmetry. rewrite andb_true_r, Z.gtb_ltb. apply orb_true_iff. rewrite Z.ltb_lt, Z.eqb_eq. lia. }
  cbn [Z.eqb SchedulerAction_ResumeCurrentThread andb negb when]. wstep. unfold set_action. wstep. wstep. exact HQ.
Qed.

(** What the two threads, their slots and the message must satisfy *)
Record call_ready (s : kstate) (cur : Z) (t : tcb) (dest : Z) (d : tcb) (l : list Z) (epptr info : Z) : Prop := {
  cr_threads : threads_wf s;
  cr_slots : slots_wf s;
  cr_cur : ksTcbs s !! cur = Some t;
  cr_curThread : ksCurThread s = cur;
  cr_running : t.(tcbState).(tsType) = ThreadState_Running;
  cr_ref : field_high 27 cur = cur;
  cr_fault : fault_get_faultType t.(tcbFault) = 0;
  cr_info : t.(tcbContext) !! 1%nat = Some info;
  cr_length : 0 <= message_info_get_msgLength info <= n_msgRegisters;
  cr_caps : message_info_get_msgExtraCaps info = 0;
  cr_extra : current_extra_caps s <> [];
  cr_regs : (6 <= length t.(tcbContext))%nat /\ (6 <= length d.(tcbContext))%nat;
  cr_buffers : is_Some (ksCtes s !! TCB_PTR_CTE_PTR cur tcbBuffer) /\ is_Some (ksCtes s !! TCB_PTR_CTE_PTR dest tcbBuffer);
  cr_action : ksSchedulerAction s = SchedulerAction_ResumeCurrentThread;
  cr_ep : ep_rep s epptr EPState_Recv (dest :: l);
  cr_dest : ksTcbs s !! dest = Some d;
  cr_dest_action : is_thread_action dest = true;
  cr_waiting : d.(tcbState).(tsType) = ThreadState_BlockedOnReceive;
  cr_unqueued : d.(tcbState).(tcbQueued) = false;
  cr_cur_out : cur ∉ dest :: l;
  cr_domain : d.(tcbDomain) = ksCurDomain s;
  cr_priority : t.(tcbPriority) <= d.(tcbPriority);
  cr_diminish : d.(tcbState).(blockingIPCDiminishCaps) = false;
  cr_master : ksCtes s !! replySlotOf cur = Some (master_slot cur NULL);
  cr_callerSlot : ksCtes s !! callerSlotOf dest = Some free_slot }.

(** The message in the context of the receiver *)
Definition msg_ctx (info badge : Z) (t d : tcb) : list Z :=
  received (message_info_get_msgLength info) info badge t.(tcbContext) d.(tcbContext).

Section call.
Context (s : kstate) (cur : Z) (t : tcb) (dest : Z) (d : tcb) (l : list Z) (epptr info badge : Z).
Hypothesis R : call_ready s cur t dest d l epptr info.

Lemma call_distinct : dest <> cur /\ (cur ∉ l) /\ (dest ∉ l) /\ cur <> NULL.
Proof using R.
  destruct R. pose proof (dseg_NoDup _ _ _ (er_queue _ _ _ _ cr_ep0)) as Hnd.
  apply NoDup_cons in Hnd as [? _]. apply not_elem_of_cons in cr_cur_out0 as [? ?].
  split_and!; [congruence|done|done|]. intros E. rewrite E in cr_cur0. destruct cr_threads0 as [E0 _]. by rewrite E0 in cr_cur0.
Qed.

(** The threads after the call *)
Definition call_tcbs (cts dts : thread_state -> thread_state) (ctx : list Z) : gmap Z tcb :=
  <[cur := with_ts cts t]> (<[dest := with_ts dts (upd_tcbContext ctx d)]> (pop_next l (ksTcbs s))).
Definition call_ctes : gmap Z cte :=
  <[replySlotOf cur := master_slot cur (callerSlotOf dest)]> (<[callerSlotOf dest := caller_slot cur]> (ksCtes s)).

(** sendIPC from the state in which the system call has put the caller *)
Lemma wp_sendIPC_call (Q : unit -> kstate -> Prop) s1 :
  s1 = upd_ksTcbs (<[cur := with_ts (upd_tsType ThreadState_Restart) t]> (ksTcbs s)) (no_extra_caps s) ->
  Q tt (upd_ksSchedulerAction dest (upd_ksCtes call_ctes (upd_ksEps (<[epptr := popped l]> (ksEps s))
         (upd_ksTcbs (call_tcbs (upd_tsType ThreadState_BlockedOnReply) (upd_tsType ThreadState_Running)
            (msg_ctx info badge t d)) (no_extra_caps s))))) ->
  wp (sendIPC true true badge true cur epptr) Q s1.
Proof using R.
  intros -> HQ. destruct call_distinct as (Hdc & Hcl & Hdl & Hcz). destruct R.
  set (t1 := with_ts (upd_tsType ThreadState_Restart) t) in *.
  set (s1 := upd_ksTcbs (<[cur := t1]> (ksTcbs s)) (no_extra_caps s)).
  assert (ep_rep s1 epptr EPState_Recv (dest :: l)) as E1.
  { destruct cr_ep0 as [He Hq Hi]. split; [exact He| |exact Hi].
    eapply dseg_ext; [|exact Hq]. intros p Hp. unfold ep_links, links_of, s1. ksimp.
    rewrite lookup_insert_ne; [done|]. intros ->. done. }
  assert (threads_wf s1) as W1.
  { destruct cr_threads0 as [H0 Hw]. split; unfold s1; ksimp.
    - by rewrite lookup_insert_ne.
    - intros p. destruct (decide (p = cur)) as [->|]; [|rewrite lookup_insert_ne by done; apply Hw].
      intros _. apply Hw. by eexists. }
  unfold sendIPC. wstep. eapply wp_get_ep; [exact (er_ep _ _ _ _ E1)|]. cbn [ep_state ep_ptr_get_queue q_head epQueue_head epQueue_tail hd].
  assert (dest <> NULL) as Hdz by (destruct (er_queue _ _ _ _ E1); done).

  wstep. apply wp_assert; [by apply negb_true_iff, Z.eqb_neq|].
  apply wp_bind3. apply wp_pop; [done|done|]. unfold s1 at 1. ksimp.
  assert (pop_next l (<[cur := t1]> (ksTcbs s)) = <[cur := t1]> (pop_next l (ksTcbs s))) as Ep.
  { destruct l as [|n l']; [done|]. simpl. rewrite alter_insert_ne; [done|]. intros ->. apply Hcl, list_elem_of_here. }
  unfold s1. ksimp. rewrite Ep. set (T := pop_next l (ksTcbs s)) in *.
  assert (T !! cur = Some t /\ T !! dest = Some d) as [Tc Td] by (unfold T; rewrite !pop_next_ne by done; done).
  wstep. eapply wp_get_tcb; [ksimp; rewrite lookup_insert_ne by congruence; exact Td|]. rewrite cr_diminish0.
  destruct cr_buffers0 as [[cb Hcb] [db Hdb]]. destruct cr_regs0 as [Lt Ld].
  wstep. eapply wp_doIPCTransfer_short; [ksimp; by rewrite lookup_insert_eq|ksimp; rewrite lookup_insert_ne by congruence; exact Td
    |congruence|exact Hcb|exact Hdb|done|done|done|exact cr_info0|done|done| |].
  { unfold no_extra_caps. ksimp. by destruct (current_extra_caps s). }
  unfold no_extra_caps. ksimp. rewrite list_insert_insert_eq.
  apply wp_bind2. eapply (wp_wake _ cur t1 dest (upd_tcbContext (msg_ctx info badge t d) d)); ksimp; try done.
  { rewrite lookup_insert_ne by congruence. by rewrite lookup_insert_eq. }
  { by rewrite lookup_insert_eq. }
  wstep. eapply wp_get_tcb; [ksimp; rewrite !lookup_insert_ne by congruence; by rewrite lookup_insert_eq|].
  cbn [orb negb andb when].
  eapply wp_setupCallerCap; ksimp; try done.
  { rewrite !lookup_insert_ne by congruence. by rewrite lookup_insert_eq. }
  match goal with |- Q tt (upd_ksSchedulerAction _ (upd_ksTcbs ?x _)) =>
    replace x with (call_tcbs (upd_tsType ThreadState_BlockedOnReply) (upd_tsType ThreadState_Running)
      (msg_ctx info badge t d)) end; [exact HQ|].
  unfold call_tcbs. rewrite (insert_insert_ne _ dest cur) by done. rewrite insert_insert_eq. done.
Qed.

Lemma call_ctes_vtable pd w : vm_ready s dest pd w ->
  call_ctes !! TCB_PTR_CTE_PTR dest tcbVTable = ksCtes s !! TCB_PTR_CTE_PTR dest tcbVTable.
Proof using R.
  intros (c & asid & Hc & Ec & _). destruct R. unfold call_ctes.
  rewrite lookup_insert_ne; [rewrite lookup_insert_ne; [done|]|]; intros E; rewrite <- E in Hc; simplify_eq.
Qed.

(** The state after the call, by the slow path and by the fast path: they differ in
    what is left in the states of the two threads and in the extra capabilities. *)
Definition call_state (cts dts : thread_state -> thread_state) (pd w : Z) : kstate :=
  switched dest pd (stored_hwasid w) d.(tcbIPCBuffer)
    (upd_ksCtes call_ctes (upd_ksEps (<[epptr := popped l]> (ksEps s))
      (upd_ksTcbs (call_tcbs cts dts (msg_ctx info badge t d)) s))).

Lemma wp_slow_call cptr slot sd pd w (Q : exception_t -> kstate -> Prop) :
  t.(tcbContext) !! 0%nat = Some cptr ->
  lookupCapAndSlot cur cptr s = Ret (EXCEPTION_NONE, slot, Cap_endpoint badge true true sd epptr) s ->
  vm_ready s dest pd w ->
  Q EXCEPTION_NONE (no_extra_caps
    (call_state (upd_tsType ThreadState_BlockedOnReply) (upd_tsType ThreadState_Running) pd w)) ->
  wp (handleSyscall SysCall) Q s.
Proof using R.
  intros Hcptr HL Hvm HQ. destruct call_distinct as (Hdc & Hcl & Hdl & Hcz).
  pose proof (call_ctes_vtable _ _ Hvm) as Ev. pose proof R as R'. destruct R'.
  destruct cr_buffers0 as [[cb Hcb] _]. destruct (short_info info cr_length0 cr_caps0) as [Ei _].
  destruct (lookupIPCBuffer_pure s false cur t cb cr_cur0 Hcb) as [sb Hsb].
  unfold handleSyscall, invocation_syscall, handleInvocation. wstep. wstep. wstep. wstep. rewrite cr_curThread0.
  wstep. eapply wp_getRegister; [exact cr_cur0|exact cr_info0|]. rewrite Ei.
  wstep. eapply wp_getRegister; [exact cr_cur0|exact Hcptr|].
  wstep. eapply wp_exact; [exact HL|]. cbn beta iota. change (EXCEPTION_NONE != EXCEPTION_NONE) with false. cbn iota.
  wstep. eapply wp_exact; [exact Hsb|]. wstep. apply wp_lookupExtraCaps_none; [done|].
  change (EXCEPTION_NONE != EXCEPTION_NONE) with false. cbn iota. wstep. wstep. wstep.
  unfold decodeInvocation. change (isArchCap _) with false. cbn iota. cbn [negb].
  wstep. unfold restart_current, setThreadState, scheduleTCB. wstep. wstep.
  unfold no_extra_caps. ksimp. rewrite cr_curThread0. wstep. eapply wp_mod_tcbState; [exact cr_cur0|].
  wstep. wstep. ksimp. rewrite cr_curThread0, cr_action0, !Z.eqb_refl. cbn [andb].
  wstep. eapply wp_isRunnable; [ksimp; by rewrite lookup_insert_eq|]. cbn [isRunnable_ts upd_tcbState tcbState tsType upd_tsType negb when].
  wstep. unfold performInvocation_Endpoint. wstep. wstep. ksimp. rewrite cr_curThread0. wstep.
  eapply wp_sendIPC_call; [reflexivity|]. wstep. unfold finish_invocation.
  change (EXCEPTION_NONE == EXCEPTION_PREEMPTED) with false. change (EXCEPTION_NONE == EXCEPTION_SYSCALL_ERROR) with false.
  cbn iota. wstep. unfold get_tsType. wstep. eapply wp_get_tcb; [ksimp; unfold call_tcbs; by rewrite lookup_insert_eq|].
  wstep. cbn [with_ts upd_tcbState tcbState tsType upd_tsType]. change (ThreadState_BlockedOnReply == ThreadState_Restart) with false. cbn [when]. wstep. wstep. wstep.
  change (EXCEPTION_NONE != EXCEPTION_NONE) with false. cbn [when]. wstep.
  eapply (wp_resume_switch _ dest (with_ts (upd_tsType ThreadState_Running) (upd_tcbContext (msg_ctx info badge t d) d))
    cur (with_ts (upd_tsType ThreadState_BlockedOnReply) t) pd w); ksimp; try done.
  - unfold call_tcbs. by rewrite lookup_insert_eq.
  - unfold call_tcbs. by rewrite lookup_insert_ne, lookup_insert_eq by congruence.
  - eapply vm_ready_ext; [exact Ev|done|done|exact Hvm].
  - rewrite <- cr_action0. exact HQ.
Qed.

(** The writes of the fast path to the endpoint and its queue *)
Lemma wp_pop_fp (Q : unit -> kstate -> Prop) :
  Q tt (upd_ksEps (<[epptr := popped l]> (ksEps s)) (upd_ksTcbs (pop_next l (ksTcbs s)) s)) ->
  wp (mod_ep epptr (endpoint_ptr_set_epQueue_head_np d.(tcbEPNext)) ;;;
      (if negb (d.(tcbEPNext) =? NULL)
       then mod_tcb d.(tcbEPNext) (upd_tcbEPPrev NULL)
       else mod_ep epptr (endpoint_ptr_mset_epQueue_tail_state 0 EPState_Idle))) Q s.
Proof using R.
  intros HQ. destruct R. destruct cr_ep0 as [He Hq _].
  pose proof (ep_queue_threads _ _ _ (hd NULL l) (dseg_queue_rep _ _ Hq)) as Hal.
  destruct Hq as (_ & Hl & Hr). unfold ep_links, links_of in Hl. rewrite cr_dest0 in Hl. simpl in Hl. injection Hl as _ Hn.
  wstep. eapply wp_mod_ep; [exact He|]. unfold endpoint_ptr_set_epQueue_head_np. ksimp. rewrite Hn. destruct l as [|n l'].
  - cbn [hd Z.eqb NULL negb]. eapply wp_mod_ep; [ksimp; by rewrite lookup_insert_eq|]. ksimp. exact HQ.
  - cbn [hd] in *. destruct Hr as (Hnz & _). rewrite (proj2 (Z.eqb_neq n NULL)) by done. cbn [negb].
    destruct Hal as [_ [nc Hnc]]; [set_solver|]. eapply wp_mod_tcb; [ksimp; exact Hnc|]. ksimp.
    destruct cr_threads0 as [_ Hw]. rewrite (Hw n) by by eexists.
    unfold popped in HQ. cbn [pop_next] in HQ. rewrite (insert_alter _ _ _ nc Hnc). exact HQ.
Qed.

(** The writes of the fast path to the two slots *)
Lemma wp_caller_links_fp s1 (Q : unit -> kstate -> Prop) :
  ksCtes s1 = ksCtes s ->
  Q tt (upd_ksCtes call_ctes s1) ->
  wp (set_cap (callerSlotOf dest) (cap_reply_cap_ptr_new_np false cur) ;;;
      mod_mdb (callerSlotOf dest) (mdb_node_ptr_set_mdbPrev_np (replySlotOf cur)) ;;;
      mod_mdb (replySlotOf cur) (mdb_node_ptr_mset_mdbNext_mdbRevocable_mdbFirstBadged (callerSlotOf dest) true true)) Q s1.
Proof using R.
  intros E1 HQ. destruct R. destruct cr_slots0 as [_ Hs].
  assert (replySlotOf cur <> callerSlotOf dest) as Hne by (intros E; rewrite E, cr_callerSlot0 in cr_master0; done).
  assert (field_high 29 (replySlotOf cur) = replySlotOf cur) as Er by (apply Hs; by eexists).
  assert (field_high 29 (callerSlotOf dest) = callerSlotOf dest) as Ec by (apply Hs; by eexists).
  wstep. eapply wp_set_cap; [rewrite E1; exact cr_callerSlot0|].
  wstep. eapply wp_mod_mdb; [ksimp; by rewrite lookup_insert_eq|].
  eapply wp_mod_mdb; [ksimp; rewrite !lookup_insert_ne, E1 by congruence; exact cr_master0|].
  unfold cap_reply_cap_ptr_new_np, cap_reply_cap_new, mdb_node_ptr_set_mdbPrev_np,
    mdb_node_ptr_mset_mdbNext_mdbRevocable_mdbFirstBadged, mdb_node_set_mdbPrev, mdb_node_set_mdbNext,
    mdb_node_set_mdbRevocable, mdb_node_set_mdbFirstBadged. ksimp. rewrite cr_ref0, Er, Ec, E1. exact HQ.
Qed.

Lemma wp_fastpath_call_commit pd w (Q : exception_t -> kstate -> Prop) :
  Q EXCEPTION_NONE (call_state (thread_state_ptr_set_tsType_np ThreadState_BlockedOnReply)
    (thread_state_ptr_set_tsType_np ThreadState_Running) pd w) ->
  wp (fastpath_call_commit cur dest epptr badge info (message_info_get_msgLength info) pd w) Q s.
Proof using R.
  intros HQ. destruct call_distinct as (Hdc & Hcl & Hdl & Hcz). pose proof wp_pop_fp as Hpop.
  pose proof wp_caller_links_fp as Hlinks. destruct R. destruct cr_regs0 as [Lt Ld].
  unfold fastpath_call_commit. wstep. wstep. apply wp_bind2. apply Hpop.
  set (T := pop_next l (ksTcbs s)) in *.
  assert (T !! cur = Some t /\ T !! dest = Some d) as [Tc Td] by (unfold T; rewrite !pop_next_ne by done; done).
  fold (replySlotOf cur) (callerSlotOf dest).
  wstep. eapply wp_mod_tcbState; [ksimp; exact Tc|].
  apply wp_bind3. apply Hlinks; [done|].
  wstep. eapply (wp_fastpath_copy_mrs _ cur dest _ (with_ts (thread_state_ptr_set_tsType_np ThreadState_BlockedOnReply) t) d);
    ksimp; try done.
  { by rewrite lookup_insert_eq. }
  { rewrite lookup_insert_ne by congruence. exact Td. }
  cbn [with_ts upd_tcbState tcbContext].
  wstep. eapply wp_mod_tcbState; [ksimp; by rewrite lookup_insert_eq|].
  wstep. eapply wp_switchToThread_fp; [ksimp; by rewrite lookup_insert_eq|].
  wstep. wstep. unfold switched, fastpath_restore. ksimp.
  set (regs := copy_regs _ _ _ _).
  assert (length regs = length (tcbContext d)) as Hlen by apply copy_regs_length.
  destruct (lookup_lt_is_Some_2 regs 0%nat) as [v0 Hv0]; [lia|].
  destruct (lookup_lt_is_Some_2 regs 1%nat) as [v1 Hv1]; [lia|].
  wstep. eapply wp_setRegister; [ksimp; by rewrite lookup_insert_eq|exact Hv0|].
  wstep. eapply wp_setRegister; [ksimp; by rewrite lookup_insert_eq| |].
  { ksimp. rewrite list_lookup_insert_ne by done. exact Hv1. }
  wstep. ksimp.
  match goal with |- Q _ (upd_ksTcbs ?x ?y) =>
    replace x with (call_tcbs (thread_state_ptr_set_tsType_np ThreadState_BlockedOnReply)
      (thread_state_ptr_set_tsType_np ThreadState_Running) (msg_ctx info badge t d)) end; [exact HQ|].
  unfold call_tcbs. fold T. rewrite (insert_insert_ne _ cur dest) by done. f_equal.
  unfold msg_ctx, received. fold regs. rewrite (list_insert_insert_ne _ 0%nat 1%nat) by done. done.
Qed.
End call.
