(* ===== verification/FastpathReply.v ===== *)
(** * SysReplyWait after a call, by both paths

    The run of handleSyscall, in the state the fast path requires, down to the
    state it ends in, and that of the writes of [fastpath_reply_wait_commit]. *)
From stdpp Require Import base list gmap.
From Stdlib Require Import ZArith Lia.
From S2P Require Import Prelude.
From S2P Require Import Words.
From S2P Require Import Structures.
From S2P Require Import KernelState.
From S2P Require Import DList.
From S2P Require Import SchedQueue.
From S2P Require Import VSpace.
From S2P Require Import Scheduler.
From S2P Require Import CapOps.
From S2P Require Import MDB.
From S2P Require Import CSpace.
From S2P Require Import Endpoint.
From S2P Require Import Delete.
From S2P Require Import Ipc.
From S2P Require Import TcbOps.
From S2P Require Import Syscall.
From S2P Require Import Fastpath.
From S2P Require Import System.
From S2P Require Import CapSpec.
From S2P Require Import CSpaceSpec.
From S2P Require Import SchedulerSpec.
From S2P Require Import EndpointQueues.
From S2P Require Import FastpathLookup.
From S2P Require Import FastpathTransfer.
From S2P Require Import FastpathCall.
(** ** Lookups again, after slots have lost capabilities that name no node *)
Lemma resolves_caps (caps caps' : Z -> option cap) c a res :
  (forall p c, caps p = Some c -> exists c', caps' p = Some c' /\
    (c' = c \/ cap_get_capType c <> cap_cnode_cap /\ cap_get_capType c' <> cap_cnode_cap)) ->
  resolves caps c a res -> resolves caps' c a res.
Proof.
  intros H R. induction R as [r gs g p a Hg|r gs g p a Hd Hg|r gs g p a1 a2 slot E1 L1 L2 Es
    |r gs g p a1 a2 a3 slot c E1 L1 L2 Hne Es Hc Ht|r gs g p a1 a2 a3 slot c res E1 L1 L2 Hne Es Hc Ht Hr IH].
  - by apply resolves_guard.
  - by apply resolves_depth.
  - by apply resolves_here.
  - destruct (H _ _ Hc) as (c' & Hc' & Hor). eapply resolves_leaf; try done. destruct Hor as [-> |[_ ?]]; done.
  - destruct (H _ _ Hc) as (c' & Hc' & [-> |[? _]]); [|done]. by eapply resolves_step.
Qed.

(** What a lookup that succeeds says *)
Lemma lookup_resolves s thread cptr slot c :
  nodes_wf s -> lookupCapAndSlot thread cptr s = Ret (EXCEPTION_NONE, slot, c) s ->
  exists root rest, caps_of s (TCB_PTR_CTE_PTR thread tcbCTable) = Some root /\
    cap_get_capType root = cap_cnode_cap /\
    resolves (caps_of s) root (bits 32 cptr) (ResolvedSlot slot rest) /\ caps_of s slot = Some c.
Proof.
  intros W E. unfold lookupCapAndSlot, lookupSlot in E.
  apply bind_inv in E as (lu & s1 & E & E'). apply bind_inv in E as (root & s2 & Hr & E).
  apply bind_inv in E as (rr & s3 & E & El). injection El as <- <-. cbn [fst snd] in E'.
  unfold get_cap, get_cte, bind, get in Hr. destruct (ksCtes s !! _) as [rc|] eqn:Erc; [|done]. injection Hr as <- <-.
  unfold resolveAddressBits in E. destruct (decide (cap_get_capType rc.(cte_cap) = cap_cnode_cap)) as [Ht|Ht].
  2: { rewrite (bool_decide_eq_false_2 _ Ht) in E. cbn [negb] in E.
       apply bind_inv in E as ([] & ? & _ & E). injection E as <- <-. done. }
  rewrite (bool_decide_eq_true_2 _ Ht) in E. cbn [negb] in E.
  assert (caps_of s (TCB_PTR_CTE_PTR thread tcbCTable) = Some rc.(cte_cap)) as Hroot by (unfold caps_of; by rewrite Erc).
  pose proof (wp_resolveAddressBits s rc.(cte_cap) cptr 32 W ltac:(by eapply W) Ht ltac:(lia)) as Hw.
  unfold wp, resolveAddressBits in Hw. rewrite (bool_decide_eq_true_2 _ Ht) in Hw. cbn [negb] in Hw.
  change wordBits with 32 in E. rewrite E in Hw. destruct Hw as (res & Hres & Hout).
  destruct res as [sl rest|f]; destruct Hout as [-> ->]; [|done].
  cbn in E'. change (EXCEPTION_NONE != EXCEPTION_NONE) with false in E'. cbn iota in E'.
  apply bind_inv in E' as (c' & s4 & Hc & E'). injection E' as <- -> ->.
  unfold get_cap, get_cte, bind, get in Hc. destruct (ksCtes s !! sl) as [x|] eqn:Ex; [|done]. injection Hc as <-.
  exists rc.(cte_cap), rest. split_and!; try done. unfold caps_of. by rewrite Ex.
Qed.

Lemma resolves_lookup s thread cptr root slot rest c :
  nodes_wf s -> caps_of s (TCB_PTR_CTE_PTR thread tcbCTable) = Some root -> cap_get_capType root = cap_cnode_cap ->
  resolves (caps_of s) root (bits 32 cptr) (ResolvedSlot slot rest) -> caps_of s slot = Some c ->
  lookupCap thread cptr s = Ret (EXCEPTION_NONE, c) s.
Proof.
  intros W Hr Ht Hres Hc. assert (wp (lookupCap thread cptr) (fun r s' => r = (EXCEPTION_NONE, c) /\ s' = s) s) as H.
  2: { apply wp_inv in H as (? & ? & E & -> & ->). done. }
  unfold lookupCap, lookupSlot. wstep. wstep. eapply wp_exact; [by apply get_cap_caps|]. wstep.
  eapply wp_mono; [apply (wp_resolveAddressBits s root cptr 32); try done; by eapply W|].
  intros rr s' (res & Hres' & Hout). pose proof (resolves_det _ _ _ _ _ Hres Hres') as <-. destruct Hout as [-> ->].
  wstep. cbn [fst snd rr_status rr_slot]. change (EXCEPTION_NONE != EXCEPTION_NONE) with false. cbn iota.
  wstep. eapply wp_exact; [by apply get_cap_caps|]. by wstep.
Qed.

(** ** The reply *)
Lemma wp_delete_caller s cur caller (Q : unit -> kstate -> Prop) :
  slots_wf s -> ksCtes s !! callerSlotOf cur = Some (caller_slot caller) ->
  ksCtes s !! replySlotOf caller = Some (master_slot caller (callerSlotOf cur)) ->
  Q tt (upd_ksCtes (<[callerSlotOf cur := free_slot]> (<[replySlotOf caller := master_slot caller NULL]> (ksCtes s))) s) ->
  wp (cteDeleteOne (callerSlotOf cur)) Q s.
Proof.
  intros [H0 Hs] Hc Hr HQ. assert (replySlotOf caller <> callerSlotOf cur) as Hne by (intros E; rewrite E, Hc in Hr; done).
  assert (replySlotOf caller <> NULL) as Hz by (intros E; by rewrite E, H0 in Hr).
  unfold cteDeleteOne. wstep. eapply wp_get_cap; [exact Hc|]. cbn [caller_slot cte_cap].
  rewrite (bool_decide_eq_false_2 (Cap_reply _ _ = _)) by done. cbn [negb].
  wstep. unfold isFinalCapability. wstep. eapply wp_get_cte; [exact Hc|]. cbn [caller_slot cteMDBNode mdbPrev mdbNext cte_cap].
  rewrite (proj2 (Z.eqb_neq (replySlotOf caller) 0)) by exact Hz. wstep. wstep. eapply wp_get_cte; [exact Hr|]. wstep.
  match goal with |- wp (if ?b then _ else _) ?R ?x => assert (exists v, (if b then ret false else if NULL =? 0 then ret true else
    let* next := get_cte NULL in ret (negb (sameObjectAs (Cap_reply false caller) (cte_cap next)))) x = Ret v x) as [v Hv] by (destruct b; by eexists) end.
  eapply wp_exact; [exact Hv|]. wstep. unfold finaliseCap_exposed. wstep. unfold finaliseCap_basic.
  change (isArchCap (Cap_reply false caller)) with false. cbn iota. wstep. wstep. unfold capRemovable. cbn [fst snd].
  wstep. wstep. wstep. apply wp_assert; [done|]. unfold emptySlot. wstep. eapply wp_get_cte; [exact Hc|].
  cbn [caller_slot cte_cap cteMDBNode mdbPrev mdbNext]. rewrite (bool_decide_eq_false_2 (Cap_reply _ _ = _)) by done. cbn [negb].
  rewrite (proj2 (Z.eqb_neq (replySlotOf caller) NULL)) by exact Hz. cbn [negb when Z.eqb NULL].
  wstep. eapply wp_mod_mdb; [exact Hr|]. wstep. wstep. wstep. wstep.
  wstep. eapply wp_set_cap; [ksimp; rewrite lookup_insert_ne by done; exact Hc|].
  wstep. unfold set_mdb. eapply wp_mod_cte; [ksimp; by rewrite lookup_insert_eq|].
  change (irqInvalid =? irqInvalid) with true. cbn [negb when]. wstep. ksimp. exact HQ.
Qed.

Lemma wp_delete_free s slot (Q : unit -> kstate -> Prop) :
  ksCtes s !! slot = Some free_slot -> Q tt s -> wp (cteDeleteOne slot) Q s.
Proof. intros Hc HQ. unfold cteDeleteOne. wstep. eapply wp_get_cap; [exact Hc|]. exact HQ. Qed.

Lemma wp_bind4 {A B} (m : K A) (a b d : A -> K unit) (k : K B) Q s :
  wp (let* q := m in a q ;;; b q ;;; d q) (fun _ => wp k Q) s -> wp (let* q := m in a q ;;; b q ;;; d q ;;; k) Q s.
Proof.
  unfold wp, bind. destruct (m s) as [q s1|]; [|done]. destruct (a q s1) as [[] s2|]; [|done].
  destruct (b q s2) as [[] s3|]; [|done]. by destruct (d q s3) as [[] s4|].
Qed.

(** What the two threads, their slots and the endpoint must satisfy *)
Record reply_ready (s : kstate) (cur : Z) (t : tcb) (caller : Z) (c : tcb) (epptr : Z) (st : endpoint_state)
    (l : list Z) (info : Z) : Prop := {
  rr_threads : threads_wf s;
  rr_slots : slots_wf s;
  rr_cur : ksTcbs s !! cur = Some t;
  rr_curThread : ksCurThread s = cur;
  rr_running : t.(tcbState).(tsType) = ThreadState_Running;
  rr_fault : fault_get_faultType t.(tcbFault) = 0;
  rr_info : t.(tcbContext) !! 1%nat = Some info;
  rr_length : 0 <= message_info_get_msgLength info <= n_msgRegisters;
  rr_caps : message_info_get_msgExtraCaps info = 0;
  rr_extra : current_extra_caps s <> [];
  rr_regs : (6 <= length t.(tcbContext))%nat /\ (6 <= length c.(tcbContext))%nat;
  rr_buffers : is_Some (ksCtes s !! TCB_PTR_CTE_PTR cur tcbBuffer) /\ is_Some (ksCtes s !! TCB_PTR_CTE_PTR caller tcbBuffer);
  rr_action : ksSchedulerAction s = SchedulerAction_ResumeCurrentThread;
  rr_caller : ksTcbs s !! caller = Some c;
  rr_caller_action : is_thread_action caller = true;
  rr_waiting : c.(tcbState).(tsType) = ThreadState_BlockedOnReply;
  rr_unqueued : c.(tcbState).(tcbQueued) = false;
  rr_nofault : fault_get_faultType c.(tcbFault) = 0;
  rr_domain : c.(tcbDomain) = ksCurDomain s;
  rr_priority : t.(tcbPriority) <= c.(tcbPriority);
  rr_ep : ep_rep s epptr st l;
  rr_recv : st <> EPState_Send;
  rr_out : (cur ∉ l) /\ (caller ∉ l);
  rr_callerSlot : ksCtes s !! callerSlotOf cur = Some (caller_slot caller);
  rr_master : ksCtes s !! replySlotOf caller = Some (master_slot caller (callerSlotOf cur)) }.

Section reply.
Context (s : kstate) (cur : Z) (t : tcb) (caller : Z) (c : tcb) (epptr : Z) (st : endpoint_state) (l : list Z) (info : Z).
Hypothesis R : reply_ready s cur t caller c epptr st l info.

Definition reply_ctx : list Z := received (message_info_get_msgLength info) info 0 t.(tcbContext) c.(tcbContext).

(** The threads, slots and endpoint after the system call *)
Definition append_next (T : gmap Z tcb) : gmap Z tcb :=
  match l with [] => T | _ => alter (upd_tcbEPNext cur) (lastd NULL l) T end.
Definition waiter (ts : thread_state -> thread_state) : tcb :=
  with_ts ts (upd_tcbEPNext NULL (upd_tcbEPPrev (lastd NULL l) t)).
Definition reply_tcbs (cts dts : thread_state -> thread_state) : gmap Z tcb :=
  <[cur := waiter cts]> (<[caller := with_ts dts (upd_tcbContext reply_ctx c)]> (append_next (ksTcbs s))).
Definition reply_ctes : gmap Z cte :=
  <[callerSlotOf cur := free_slot]> (<[replySlotOf caller := master_slot caller NULL]> (ksCtes s)).
Definition wait_ep : endpoint := mk_endpoint (hd cur l) cur EPState_Recv.

Definition reply_state (cts dts : thread_state -> thread_state) (pd w : Z) : kstate :=
  switched caller pd (stored_hwasid w) c.(tcbIPCBuffer)
    (upd_ksCtes reply_ctes (upd_ksEps (<[epptr := wait_ep]> (ksEps s)) (upd_ksTcbs (reply_tcbs cts dts) s))).

Lemma reply_distinct : caller <> cur /\ cur <> NULL /\ caller <> NULL.
Proof using R.
  destruct R. split_and!.
  - intros ->. congruence.
  - intros ->. destruct rr_threads0 as [E0 _]. by rewrite E0 in rr_cur0.
  - intros ->. destruct rr_threads0 as [E0 _]. by rewrite E0 in rr_caller0.
Qed.

(** The reply of the slow path *)
Definition replied : kstate :=
  upd_ksSchedulerAction caller (upd_ksCtes reply_ctes
    (upd_ksTcbs (<[caller := with_ts (upd_tsType ThreadState_Running) (upd_tcbContext reply_ctx c)]> (ksTcbs s)) (no_extra_caps s))).

Lemma wp_handleReply_fast (Q : unit -> kstate -> Prop) : Q tt replied -> wp handleReply Q s.
Proof using R.
  intros HQ. destruct reply_distinct as (Hd & Hcz & Hrz). destruct R.
  destruct rr_buffers0 as [[cb Hcb] [db Hdb]]. destruct rr_regs0 as [Lt Lc].
  unfold handleReply. wstep. wstep. rewrite rr_curThread0. fold (callerSlotOf cur).
  wstep. eapply wp_get_cap; [exact rr_callerSlot0|]. cbn [caller_slot cte_cap].
  wstep. apply wp_assert; [by apply negb_true_iff, Z.eqb_neq|]. unfold doReplyTransfer.
  wstep. eapply wp_get_tcb; [exact rr_caller0|]. wstep. apply wp_assert; [by rewrite rr_waiting0|].
  rewrite rr_nofault0. cbn [Z.eqb].
  wstep. eapply (wp_doIPCTransfer_short s cur caller _ _ _ t c _ _ info); try done; try congruence.
  unfold no_extra_caps. ksimp. wstep. apply (wp_delete_caller _ cur caller); ksimp; try done.
  eapply (wp_wake _ cur t caller (upd_tcbContext reply_ctx c)); ksimp; try done.
  { rewrite lookup_insert_ne by congruence. exact rr_cur0. }
  { by rewrite lookup_insert_eq. }
Qed.

(** The second half finds the same endpoint again. *)
Lemma caps_reply : forall p x, caps_of s p = Some x -> exists x', cte_cap <$> reply_ctes !! p = Some x' /\
  (x' = x \/ cap_get_capType x <> cap_cnode_cap /\ cap_get_capType x' <> cap_cnode_cap).
Proof using R.
  intros p x Hx. destruct R. unfold reply_ctes, caps_of in *.
  destruct (decide (p = callerSlotOf cur)) as [->|].
  { rewrite lookup_insert_eq. rewrite rr_callerSlot0 in Hx. injection Hx as <-. eexists. split; [done|]. by right. }
  rewrite lookup_insert_ne by done. destruct (decide (p = replySlotOf caller)) as [->|].
  { rewrite lookup_insert_eq. rewrite rr_master0 in Hx. injection Hx as <-. eexists. split; [done|]. by left. }
  rewrite lookup_insert_ne by done. eauto.
Qed.

Lemma ctes_reply_some p : is_Some (ksCtes s !! p) -> is_Some (reply_ctes !! p).
Proof. unfold reply_ctes. intros H. rewrite !lookup_insert_is_Some. destruct (decide (p = callerSlotOf cur)); [by left|right].
  split; [done|]. destruct (decide (p = replySlotOf caller)); [by left|right]. done. Qed.

Lemma reply_lookup s1 cptr slot x :
  nodes_wf s -> ksCtes s1 = reply_ctes ->
  lookupCapAndSlot cur cptr s = Ret (EXCEPTION_NONE, slot, x) s -> x <> Cap_reply false caller ->
  lookupCap cur cptr s1 = Ret (EXCEPTION_NONE, x) s1.
Proof using R.
  intros W E1 E Hx. destruct (lookup_resolves _ _ _ _ _ W E) as (root & rest & Hroot & Ht & Hres & Hslot).
  assert (forall p y, caps_of s p = Some y -> y <> Cap_reply false caller -> caps_of s1 p = Some y) as Hkeep.
  { intros p y Hy Hny. destruct R. unfold caps_of in *. rewrite E1. unfold reply_ctes.
    rewrite lookup_insert_ne by (intros <-; rewrite rr_callerSlot0 in Hy; simplify_eq/=).
    destruct (decide (p = replySlotOf caller)) as [->|]; [|by rewrite lookup_insert_ne].
    rewrite lookup_insert_eq. by rewrite rr_master0 in Hy. }
  eapply (resolves_lookup s1 _ _ root slot rest); try done.
  - intros p y Hy. assert (node_wf s y) as Hwf.
    { destruct R. unfold caps_of in Hy. rewrite E1 in Hy. unfold reply_ctes in Hy.
      destruct (decide (p = callerSlotOf cur)) as [->|].
      { rewrite lookup_insert_eq in Hy. by injection Hy as <-. }
      rewrite lookup_insert_ne in Hy by done. destruct (decide (p = replySlotOf caller)) as [->|].
      { rewrite lookup_insert_eq in Hy. by injection Hy as <-. }
      rewrite lookup_insert_ne in Hy by done. by eapply (W p). }
    destruct y; try done. destruct Hwf as (? & ? & ? & Hs). split_and!; try lia.
    intros i Hi. rewrite E1. by apply ctes_reply_some, Hs.
  - apply Hkeep; [done|]. intros ->. done.
  - eapply resolves_caps; [|exact Hres]. intros p y Hy. destruct (caps_reply _ _ Hy) as (y' & Hy' & Hor).
    exists y'. unfold caps_of. by rewrite E1.
  - by apply Hkeep.
Qed.

(** Joining the queue of the endpoint: what both paths write *)
Definition joined (t1 : tcb) (s1 : kstate) : kstate :=
  upd_ksEps (<[epptr := wait_ep]> (ksEps s1))
    (upd_ksTcbs (<[cur := upd_tcbEPNext NULL (upd_tcbEPPrev (lastd NULL l) t1)]> (append_next (ksTcbs s1))) s1).

Definition queue_ok (s1 : kstate) (t1 : tcb) : Prop :=
  ksTcbs s1 !! cur = Some t1 /\ ksEps s1 = ksEps s /\
  (l <> [] -> is_Some (ksTcbs s1 !! lastd NULL l)).

Lemma queue_aligned : field_high 28 (hd cur l) = hd cur l /\ field_high 28 cur = cur /\
  (l <> [] -> hd NULL l <> NULL /\ lastd NULL l <> NULL /\ lastd NULL l <> cur /\ hd cur l = hd NULL l).
Proof using R.
  destruct R. destruct rr_ep0 as [_ Hq _]. destruct rr_threads0 as [_ Hw]. destruct rr_out0 as [Hout _].
  assert (field_high 28 cur = cur) as Ec by (apply Hw; by eexists). destruct l as [|n l']; [done|].
  pose proof (lastd_in NULL (n :: l') ltac:(done)) as Hin.
  assert (forall p, p ∈ n :: l' -> p <> NULL /\ field_high 28 p = p) as Hal.
  { intros p Hp. destruct (ep_queue_threads _ _ _ _ (dseg_queue_rep _ _ Hq) Hp) as [? ?]. split; [done|by apply Hw]. }
  cbn [hd]. split; [apply Hal, list_elem_of_here|]. split; [done|]. intros _.
  split_and!; [apply Hal, list_elem_of_here|by apply Hal| |done]. intros E. by rewrite E in Hin.
Qed.

Lemma wp_join_slow s1 t1 (Q : unit -> kstate -> Prop) :
  queue_ok s1 t1 -> Q tt (joined t1 s1) ->
  wp (let* ep := get_ep epptr in
      let* queue := tcbEPAppend cur (ep_ptr_get_queue ep) in
      mod_ep epptr (upd_ep_state EPState_Recv) ;;;
      set_ep_queue epptr queue) Q s1.
Proof using R.
  intros (Hc & He & Hl) HQ. destruct queue_aligned as (Eh & Ec & Hne). destruct R. destruct rr_ep0 as [Hep _ _].
  wstep. eapply wp_get_ep; [rewrite He; exact Hep|]. unfold tcbEPAppend, ep_ptr_get_queue, set_ep_queue.
  cbn [epQueue_head epQueue_tail q_head q_end].
  unfold joined, wait_ep, append_next in HQ. rewrite He in HQ. destruct l as [|n l'].
  - cbn [hd Z.eqb NULL]. wstep. wstep. wstep. wstep. eapply wp_mod_tcb; [exact Hc|].
    wstep. eapply wp_mod_tcb; [ksimp; by rewrite lookup_insert_eq|]. wstep.
    wstep. eapply wp_mod_ep; [ksimp; rewrite He; exact Hep|].
    eapply wp_mod_ep; [ksimp; by rewrite lookup_insert_eq|]. unfold ep_ptr_set_queue. ksimp. cbn [hd] in Eh. rewrite Ec, He.
    exact HQ.
  - destruct Hne as (Hh & Hz & Hn & _); [done|]. rewrite (proj2 (Z.eqb_neq _ NULL)) by exact Hh.
    destruct Hl as [tl Htl]; [done|].
    wstep. wstep. wstep. eapply wp_mod_tcb; [exact Htl|]. wstep. wstep. eapply wp_mod_tcb; [ksimp; rewrite lookup_insert_ne by done; exact Hc|].
    wstep. eapply wp_mod_tcb; [ksimp; by rewrite lookup_insert_eq|]. wstep.
    wstep. eapply wp_mod_ep; [ksimp; rewrite He; exact Hep|].
    eapply wp_mod_ep; [ksimp; by rewrite lookup_insert_eq|]. unfold ep_ptr_set_queue. ksimp. cbn [hd] in *. rewrite Eh, Ec, He.
    rewrite (insert_alter _ _ _ tl Htl). exact HQ.
Qed.

Lemma wp_join_fp s1 t1 (Q : unit -> kstate -> Prop) :
  queue_ok s1 t1 -> Q tt (joined t1 s1) ->
  wp (let* ep := get_ep epptr in
      let endpointTail := ep.(epQueue_tail) in
      if endpointTail =? NULL then
        mod_tcb cur (upd_tcbEPPrev NULL) ;;;
        mod_tcb cur (upd_tcbEPNext NULL) ;;;
        mod_ep epptr (endpoint_ptr_set_epQueue_head_np cur) ;;;
        mod_ep epptr (endpoint_ptr_mset_epQueue_tail_state cur EPState_Recv)
      else
        mod_tcb endpointTail (upd_tcbEPNext cur) ;;;
        mod_tcb cur (upd_tcbEPPrev endpointTail) ;;;
        mod_tcb cur (upd_tcbEPNext NULL) ;;;
        mod_ep epptr (endpoint_ptr_mset_epQueue_tail_state cur EPState_Recv)) Q s1.
Proof using R.
  intros (Hc & He & Hl) HQ. destruct queue_aligned as (Eh & Ec & Hne). destruct R. destruct rr_ep0 as [Hep _ _].
  wstep. eapply wp_get_ep; [rewrite He; exact Hep|]. cbn [epQueue_head epQueue_tail]. cbv zeta.
  unfold joined, wait_ep, append_next in HQ. rewrite He in HQ.
  unfold endpoint_ptr_set_epQueue_head_np, endpoint_ptr_mset_epQueue_tail_state. destruct l as [|n l'].
  - change (lastd NULL [] =? NULL) with true. cbn iota. wstep. eapply wp_mod_tcb; [exact Hc|].
    wstep. eapply wp_mod_tcb; [ksimp; by rewrite lookup_insert_eq|].
    wstep. eapply wp_mod_ep; [ksimp; rewrite He; exact Hep|].
    eapply wp_mod_ep; [ksimp; by rewrite lookup_insert_eq|]. ksimp. rewrite Ec, He. exact HQ.
  - destruct Hne as (Hh & Hz & Hn & _); [done|]. rewrite (proj2 (Z.eqb_neq _ NULL)) by exact Hz.
    destruct Hl as [tl Htl]; [done|].
    wstep. eapply wp_mod_tcb; [exact Htl|].
    wstep. eapply wp_mod_tcb; [ksimp; rewrite lookup_insert_ne by done; exact Hc|].
    wstep. eapply wp_mod_tcb; [ksimp; by rewrite lookup_insert_eq|].
    eapply wp_mod_ep; [ksimp; rewrite He; exact Hep|]. ksimp. cbn [hd] in *. rewrite Ec, He.
    rewrite (insert_alter _ _ _ tl Htl). exact HQ.
Qed.

(** How [cur] waits: the fields each path writes *)
Definition waits_slow (canSend : bool) (ts : thread_state) : thread_state :=
  upd_blockingIPCDiminishCaps (negb canSend) (thread_state_set_blockingIPCEndpoint epptr
    (upd_tsType ThreadState_BlockedOnReceive ts)).
Definition waits_fp (canSend : bool) (ts : thread_state) : thread_state :=
  thread_state_ptr_set_blockingIPCDiminish_np (negb canSend)
    (thread_state_ptr_mset_blockingIPCEndpoint_tsType epptr ThreadState_BlockedOnReceive ts).

Lemma append_next_insert p x T : p <> lastd NULL l -> append_next (<[p := x]> T) = <[p := x]> (append_next T).
Proof. unfold append_next. destruct l; [done|]. intros H. by apply alter_insert_ne. Qed.

Lemma append_next_lookup p T : p ∉ l -> append_next T !! p = T !! p.
Proof.
  unfold append_next. destruct l as [|n l']; [done|]. intros H. apply lookup_alter_ne.
  intros <-. apply H, (lastd_in NULL (n :: l')). done.
Qed.

Lemma last_other p : p ∉ l -> p <> NULL -> p <> lastd NULL l.
Proof. intros H H0 ->. destruct l as [|n l']; [done|]. apply H, (lastd_in NULL (n :: l')). done. Qed.

Lemma queue_last : l <> [] -> is_Some (ksTcbs s !! lastd NULL l).
Proof using R.
  intros Hl. destruct R. destruct rr_ep0 as [_ Hq _].
  by destruct (ep_queue_threads _ _ _ _ (dseg_queue_rep _ _ Hq) (lastd_in NULL l Hl)).
Qed.

(** The wait of the slow path *)
Definition waited (canSend : bool) : kstate :=
  joined (with_ts (waits_slow canSend) t)
    (upd_ksTcbs (<[cur := with_ts (waits_slow canSend) t]> (ksTcbs replied)) replied).

Lemma wp_handleWait_fast cptr b cs canSend slot (Q : unit -> kstate -> Prop) :
  nodes_wf s -> t.(tcbContext) !! 0%nat = Some cptr ->
  lookupCapAndSlot cur cptr s = Ret (EXCEPTION_NONE, slot, Cap_endpoint b cs canSend true epptr) s ->
  Q tt (waited canSend) -> wp handleWait Q replied.
Proof using R.
  intros W Hcptr HL HQ. destruct reply_distinct as (Hd & Hcz & Hrz). 
  pose proof (reply_lookup replied cptr slot _ W eq_refl HL ltac:(done)) as HL'.
  pose proof wp_join_slow as Hjoin. pose proof queue_last as Hlast. pose proof (last_other caller) as Hoth. pose proof R as R'. destruct R'.
  destruct rr_out0 as [Ho1 Ho2].
  assert (ksTcbs replied !! cur = Some t) as Ht by (unfold replied; ksimp; rewrite lookup_insert_ne by congruence; done).
  unfold handleWait. wstep. wstep. change (ksCurThread replied) with (ksCurThread s). rewrite rr_curThread0.
  wstep. eapply wp_getRegister; [exact Ht|exact Hcptr|].
  wstep. eapply wp_exact; [exact HL'|]. cbn [fst snd]. change (EXCEPTION_NONE != EXCEPTION_NONE) with false. cbn iota. cbn [negb].
  wstep. unfold deleteCallerCap. apply wp_delete_free.
  { change (ksCtes replied) with reply_ctes. unfold reply_ctes. by rewrite lookup_insert_eq. }
  unfold receiveIPC. wstep. eapply wp_get_ep; [exact (er_ep _ _ _ _ rr_ep0)|]. cbn [ep_state].
  match goal with |- wp (match st with EPState_Idle => ?k | _ => _ end) _ _ =>
    enough (wp k Q replied) as Hk by (destruct st; [exact Hk|done|exact Hk]) end.
  wstep. eapply wp_mod_tcbState; [exact Ht|].
  wstep. eapply wp_mod_tcbState; [ksimp; by rewrite lookup_insert_eq|].
  wstep. eapply wp_mod_tcbState; [ksimp; by rewrite lookup_insert_eq|].
  wstep. unfold scheduleTCB. wstep. wstep. ksimp.
  change (ksSchedulerAction replied) with caller. unfold is_thread_action in rr_caller_action0.
  apply andb_true_iff in rr_caller_action0 as [Ha%negb_true_iff _]. rewrite Ha, andb_false_r. wstep.
  eapply Hjoin; [|exact HQ]. split; [ksimp; by rewrite lookup_insert_eq|]. split; [done|].
  intros Hl. unfold replied. ksimp. rewrite !lookup_insert_is_Some'. auto.
Qed.

(** The threads both paths leave *)
Lemma waited_tcbs canSend : ksTcbs (waited canSend) = reply_tcbs (waits_slow canSend) (upd_tsType ThreadState_Running).
Proof using R.
  destruct reply_distinct as (Hd & Hcz & Hrz). destruct R. destruct rr_out0 as [Ho1 Ho2].
  unfold waited, joined, replied, reply_tcbs, waiter. ksimp.
  rewrite !append_next_insert, insert_insert_eq by by apply last_other. done.
Qed.

Lemma reply_vtable pd w : vm_ready s caller pd w ->
  reply_ctes !! TCB_PTR_CTE_PTR caller tcbVTable = ksCtes s !! TCB_PTR_CTE_PTR caller tcbVTable.
Proof using R.
  intros (x & asid & Hx & Ex & _). destruct R. unfold reply_ctes.
  rewrite !lookup_insert_ne; [done| |]; intros E; rewrite <- E in Hx; simplify_eq.
Qed.

Lemma wp_slow_reply cptr b cs canSend slot pd w (Q : exception_t -> kstate -> Prop) :
  nodes_wf s -> t.(tcbContext) !! 0%nat = Some cptr ->
  lookupCapAndSlot cur cptr s = Ret (EXCEPTION_NONE, slot, Cap_endpoint b cs canSend true epptr) s ->
  vm_ready s caller pd w ->
  Q EXCEPTION_NONE (no_extra_caps (reply_state (waits_slow canSend) (upd_tsType ThreadState_Running) pd w)) ->
  wp (handleSyscall SysReplyWait) Q s.
Proof using R.
  intros W Hcptr HL Hvm HQ. destruct reply_distinct as (Hd & Hcz & Hrz). pose proof (waited_tcbs canSend) as Ew.
  unfold handleSyscall. apply wp_bind. apply wp_bind. apply wp_handleReply_fast.
  eapply wp_handleWait_fast; [done|exact Hcptr|exact HL|].
  pose proof (reply_vtable _ _ Hvm) as Ev. destruct R.
  assert (ksTcbs (waited canSend) !! cur = Some (waiter (waits_slow canSend))) as Hcur.
  { rewrite Ew. unfold reply_tcbs. by rewrite lookup_insert_eq. }
  assert (ksTcbs (waited canSend) !! caller = Some (with_ts (upd_tsType ThreadState_Running) (upd_tcbContext reply_ctx c))) as Hcaller.
  { rewrite Ew. unfold reply_tcbs. rewrite lookup_insert_ne by congruence. by rewrite lookup_insert_eq. }
  eapply (wp_resume_switch _ caller _ cur _ pd w); [done|done|exact rr_curThread0|exact Hcur|done|exact Hcaller|done|done| |].
  - eapply vm_ready_ext; [exact Ev|done|done|exact Hvm].
  - replace (upd_ksSchedulerAction SchedulerAction_ResumeCurrentThread (waited canSend)) with
      (no_extra_caps (upd_ksCtes reply_ctes (upd_ksEps (<[epptr := wait_ep]> (ksEps s))
        (upd_ksTcbs (ksTcbs (waited canSend)) s)))).
    { rewrite Ew. exact HQ. }
    unfold waited, joined, replied, no_extra_caps. ksimp. rewrite <- rr_action0. by destruct s.
Qed.

(** The writes of the fast path to the two slots *)
Lemma wp_unlink_caller_fp s1 (Q : unit -> kstate -> Prop) :
  ksCtes s1 = ksCtes s -> Q tt (upd_ksCtes reply_ctes s1) ->
  wp (let* x := get_cte (callerSlotOf cur) in
      mod_mdb (mdbPrev (cteMDBNode x)) (mdb_node_ptr_mset_mdbNext_mdbRevocable_mdbFirstBadged 0 true true) ;;;
      set_cap (callerSlotOf cur) Cap_null ;;;
      set_mdb (callerSlotOf cur) nullMDBNode) Q s1.
Proof using R.
  intros E1 HQ. destruct R.
  assert (replySlotOf caller <> callerSlotOf cur) as Hne by (intros E; rewrite E, rr_callerSlot0 in rr_master0; done).
  wstep. eapply wp_get_cte; [rewrite E1; exact rr_callerSlot0|]. cbn [caller_slot cteMDBNode mdbPrev].
  wstep. eapply wp_mod_mdb; [rewrite E1; exact rr_master0|].
  wstep. eapply wp_set_cap; [ksimp; rewrite lookup_insert_ne, E1 by done; exact rr_callerSlot0|].
  unfold set_mdb. eapply wp_mod_cte; [ksimp; by rewrite lookup_insert_eq|]. ksimp. rewrite E1. exact HQ.
Qed.

Lemma joined_fp_tcbs canSend s1 : ksTcbs s1 = ksTcbs s ->
  joined (with_ts (waits_fp canSend) t) (upd_ksTcbs (<[cur := with_ts (waits_fp canSend) t]> (ksTcbs s1)) s1) =
  upd_ksEps (<[epptr := wait_ep]> (ksEps s1)) (upd_ksTcbs (<[cur := waiter (waits_fp canSend)]> (append_next (ksTcbs s1))) s1).
Proof using R.
  intros E. destruct reply_distinct as (_ & Hcz & _). destruct R. destruct rr_out0 as [Ho1 _].
  unfold joined, waiter. ksimp. rewrite !append_next_insert, insert_insert_eq by by apply last_other. done.
Qed.

(** The writes of the fast path *)
Lemma wp_fastpath_reply_wait_commit canSend pd w (Q : exception_t -> kstate -> Prop) :
  Q EXCEPTION_NONE (reply_state (waits_fp canSend) (thread_state_ptr_set_tsType_np ThreadState_Running) pd w) ->
  wp (fastpath_reply_wait_commit cur caller epptr canSend (callerSlotOf cur) info (message_info_get_msgLength info) pd w) Q s.
Proof using R.
  intros HQ. destruct reply_distinct as (Hd & Hcz & Hrz). pose proof wp_join_fp as Hjoin. pose proof queue_last as Hlast.
  pose proof wp_unlink_caller_fp as Hun. pose proof (joined_fp_tcbs canSend) as Ej. destruct R.
  destruct rr_regs0 as [Lt Lc]. destruct rr_out0 as [Ho1 Ho2].
  unfold fastpath_reply_wait_commit. wstep. eapply wp_mod_tcbState; [exact rr_cur0|].
  wstep. eapply wp_mod_tcbState; [ksimp; by rewrite lookup_insert_eq|]. ksimp.
  apply wp_bind2. eapply Hjoin; [split; [ksimp; by rewrite lookup_insert_eq|split; [done|]]|].
  { intros Hl. ksimp. rewrite lookup_insert_is_Some'. auto. }
  match goal with |- wp _ _ ?x => change x with
    (joined (with_ts (waits_fp canSend) t) (upd_ksTcbs (<[cur := with_ts (waits_fp canSend) t]> (ksTcbs s)) s)) end.
  rewrite Ej by done. apply wp_bind4. apply Hun; [done|].
  wstep. eapply (wp_fastpath_copy_mrs _ cur caller _ (waiter (waits_fp canSend)) c); ksimp; try done.
  { by rewrite lookup_insert_eq. }
  { rewrite lookup_insert_ne, append_next_lookup by congruence. done. }
  cbn [waiter with_ts upd_tcbState upd_tcbEPNext upd_tcbEPPrev tcbContext].
  wstep. eapply wp_mod_tcbState; [ksimp; by rewrite lookup_insert_eq|].
  wstep. eapply wp_switchToThread_fp; [ksimp; by rewrite lookup_insert_eq|].
  wstep. wstep. unfold switched, fastpath_restore. ksimp.
  set (regs := copy_regs _ _ _ _).
  assert (length regs = length (tcbContext c)) as Hlen by apply copy_regs_length.
  destruct (lookup_lt_is_Some_2 regs 0%nat) as [v0 Hv0]; [lia|].
  destruct (lookup_lt_is_Some_2 regs 1%nat) as [v1 Hv1]; [lia|].
  wstep. eapply wp_setRegister; [ksimp; by rewrite lookup_insert_eq|exact Hv0|].
  wstep. eapply wp_setRegister; [ksimp; by rewrite lookup_insert_eq| |].
  { ksimp. rewrite list_lookup_insert_ne by done. exact Hv1. }
  wstep. ksimp.
  match goal with |- Q _ (upd_ksTcbs ?x ?y) =>
    replace x with (reply_tcbs (waits_fp canSend) (thread_state_ptr_set_tsType_np ThreadState_Running)) end; [exact HQ|].
  unfold reply_tcbs. rewrite (insert_insert_ne _ caller cur) by done. f_equal.
  unfold reply_ctx, received. fold regs. rewrite (list_insert_insert_ne _ 0%nat 1%nat) by done. done.
Qed.
End reply.
