(* ===== verification/FastpathSpec.v ===== *)
(** * The fast path agrees with the general code

    [fast_wf] collects what the fast path takes for granted of the kernel's state,
    and [calling] what it does of the caller; then a system call ends the same way
    by [fastpath_call] or [fastpath_reply_wait] as by handleSyscall. *)
From stdpp Require Import base list gmap.
From Stdlib Require Import ZArith Lia.
From S2P Require Import Prelude.
From S2P Require Import Words.
From S2P Require Import Structures.
From S2P Require Import KernelState.
From S2P Require Import DList.
From S2P Require Import SchedQueue.
From S2P Require Import VSpace.
From S2P Require Import Scheduler.
From S2P Require Import CapOps.
From S2P Require Import MDB.
From S2P Require Import CSpace.
From S2P Require Import Endpoint.
From S2P Require Import Delete.
From S2P Require Import Ipc.
From S2P Require Import TcbOps.
From S2P Require Import Syscall.
From S2P Require Import Fastpath.
From S2P Require Import System.
From S2P Require Import CapSpec.
From S2P Require Import CSpaceSpec.
From S2P Require Import SchedulerSpec.
From S2P Require Import EndpointQueues.
From S2P Require Import FastpathLookup.
From S2P Require Import FastpathTransfer.
From S2P Require Import FastpathCall.
From S2P Require Import FastpathReply.

(** ** The state at a system call

    What holds of every reachable state of the kernel and the fast path relies on,
    and what the caller's own state must be for it to make system calls. *)
Record fast_wf (s : kstate) : Prop := {
  fw_threads : threads_wf s;
  fw_slots : slots_wf s;
  fw_nodes : nodes_wf s;
  fw_fast : fast_nodes s;
  fw_action : ksSchedulerAction s = SchedulerAction_ResumeCurrentThread;
  fw_extra : current_extra_caps s <> [];
  (* threads are objects of 512 bytes with 18 registers, and the slots of a node *)
  fw_thread : forall p t, ksTcbs s !! p = Some t ->
    field_high 27 p = p /\ is_thread_action p = true /\ (6 <= length t.(tcbContext))%nat /\
    forall i, 0 <= i < 5 -> is_Some (ksCtes s !! TCB_PTR_CTE_PTR p i);
  (* the endpoint of a capability, and the threads that wait to receive from it *)
  fw_eps : forall p b cs cr cg e, caps_of s p = Some (Cap_endpoint b cs cr cg e) -> exists st l, ep_rep s e st l;
  fw_receivers : forall e l p, ep_rep s e EPState_Recv l -> p ∈ l -> exists t,
    ksTcbs s !! p = Some t /\ t.(tcbState).(tsType) = ThreadState_BlockedOnReceive /\
    t.(tcbState).(tcbQueued) = false /\ ksCtes s !! callerSlotOf p = Some free_slot;
  (* a caller slot and the thread that waits for the reply *)
  fw_callers : forall t caller, caps_of s (callerSlotOf t) = Some (Cap_reply false caller) -> exists c,
    ksCtes s !! callerSlotOf t = Some (caller_slot caller) /\
    ksCtes s !! replySlotOf caller = Some (master_slot caller (callerSlotOf t)) /\
    ksTcbs s !! caller = Some c /\ c.(tcbState).(tsType) = ThreadState_BlockedOnReply /\
    c.(tcbState).(tcbQueued) = false;
  (* a directory whose stored number is valid is that of its address space *)
  fw_vtables : forall t asid pd, caps_of s (TCB_PTR_CTE_PTR t tcbVTable) = Some (Cap_page_directory asid true pd) ->
    exists w, ksMem s (pd_asid_slot pd) = Some w /\
      (stored_valid w = true -> 0 <= asid < numASIDs /\ asid_pd_of s asid = Some pd) }.

(** A thread that runs, with the two arguments of the call in its registers; it
    waits for no reply. *)
Record calling (s : kstate) (t : tcb) (cptr msgInfo : Z) : Prop := {
  ca_cur : ksTcbs s !! ksCurThread s = Some t;
  ca_running : t.(tcbState).(tsType) = ThreadState_Running;
  ca_cptr : t.(tcbContext) !! 0%nat = Some cptr;
  ca_info : t.(tcbContext) !! 1%nat = Some msgInfo;
  ca_word : is_word msgInfo;
  ca_master : ksCtes s !! replySlotOf (ksCurThread s) = Some (master_slot (ksCurThread s) NULL) }.

Section calls.
Context (s : kstate) (t : tcb) (cptr msgInfo : Z).
Hypotheses (W : fast_wf s) (C : calling s t cptr msgInfo).

Lemma fast_vm_ready d asid pd w :
  caps_of s (TCB_PTR_CTE_PTR d tcbVTable) = Some (Cap_page_directory asid true pd) ->
  ksMem s (pd_asid_slot pd) = Some w -> stored_valid w = true -> vm_ready s d pd w.
Proof using W.
  intros Hc Hw Hv. destruct (fw_vtables _ W _ _ _ Hc) as (w' & Hw' & Ha). rewrite Hw in Hw'. injection Hw' as <-.
  unfold caps_of in Hc. apply fmap_Some in Hc as (c & Hc & E). destruct (Ha Hv). by exists c, asid.
Qed.

Lemma fast_slot p d i : ksTcbs s !! p = Some d -> 0 <= i < 5 -> exists c, caps_of s (TCB_PTR_CTE_PTR p i) = Some c.
Proof using W.
  intros Hp Hi. destruct (fw_thread _ W _ _ Hp) as (_ & _ & _ & Hs). destruct (Hs i Hi) as [c Hc].
  exists c.(cte_cap). unfold caps_of. by rewrite Hc.
Qed.

(** The lookup of the fast path: its result, and that of the slow path *)
Lemma fast_lookup root : caps_of s (TCB_PTR_CTE_PTR (ksCurThread s) tcbCTable) = Some root ->
  exists c, lookup_fp root cptr s = Ret c s /\
    (c <> Cap_null -> exists slot, lookupCapAndSlot (ksCurThread s) cptr s = Ret (EXCEPTION_NONE, slot, c) s /\
      caps_of s slot = Some c).
Proof using W.
  intros Hr. destruct (wp_inv _ _ _ (wp_lookup_fp s (ksCurThread s) cptr root (fw_nodes _ W) (fw_fast _ W) Hr))
    as ([[st slot] c] & s' & E & Hl & Hok & Hno).
  exists c. split; [done|]. intros Hne. exists slot.
  destruct (decide (st = EXCEPTION_NONE)) as [->|Hst]; [|by rewrite (Hno Hst) in Hne].
  destruct (Hok eq_refl) as [-> ?]. done.
Qed.

Lemma call_ready_fast e l dest d st :
  ep_rep s e st (dest :: l) -> st = EPState_Recv -> ksTcbs s !! dest = Some d ->
  t.(tcbPriority) <= d.(tcbPriority) -> d.(tcbDomain) = ksCurDomain s ->
  d.(tcbState).(blockingIPCDiminishCaps) = false -> fault_get_faultType t.(tcbFault) = 0 ->
  fastpath_mi_check msgInfo = 0 ->
  call_ready s (ksCurThread s) t dest d l e msgInfo.
Proof using W C.
  intros He -> Hd Hp Hdom Hdim Hf Hmi. destruct W, C.
  apply fastpath_mi_check_spec in Hmi as [Hlen Hcaps]; [|done].
  destruct (fw_thread0 _ _ ca_cur0) as (? & ? & ? & Hs). destruct (fw_thread0 _ _ Hd) as (? & ? & ? & Hs').
  assert (forall p, p ∈ dest :: l -> exists x, ksTcbs s !! p = Some x /\ tsType (tcbState x) = ThreadState_BlockedOnReceive
    /\ tcbQueued (tcbState x) = false /\ ksCtes s !! callerSlotOf p = Some free_slot) as Hrec by (intros p; by apply (fw_receivers0 e (dest :: l))).
  destruct (Hrec dest) as (x & Hx & Hxt & Hxq & Hxc); [set_solver|]. rewrite Hd in Hx. injection Hx as <-.
  split; try done.
  - split; [apply Hs|apply Hs']; done.
  - intros Hin. destruct (Hrec _ Hin) as (x & Hx & Hxt2 & _). congruence.
Qed.

(** The run past the checks *)
Lemma fast_commit_agrees e badge sd l dest d asid pd w slot :
  ep_rep s e EPState_Recv (dest :: l) -> ksTcbs s !! dest = Some d ->
  t.(tcbPriority) <= d.(tcbPriority) -> d.(tcbDomain) = ksCurDomain s ->
  d.(tcbState).(blockingIPCDiminishCaps) = false -> fault_get_faultType t.(tcbFault) = 0 ->
  fastpath_mi_check msgInfo = 0 ->
  lookupCapAndSlot (ksCurThread s) cptr s = Ret (EXCEPTION_NONE, slot, Cap_endpoint badge true true sd e) s ->
  caps_of s (TCB_PTR_CTE_PTR dest tcbVTable) = Some (Cap_page_directory asid true pd) ->
  ksMem s (pd_asid_slot pd) = Some w -> stored_valid w = true ->
  agree (fastpath_call_commit (ksCurThread s) dest e badge msgInfo (message_info_get_msgLength msgInfo) pd w s)
        (handleSyscall SysCall s).
Proof using W C.
  intros He Hd Hp Hdom Hdim Hf Hmi Hl Hv Hw Hval.
  assert (call_ready s (ksCurThread s) t dest d l e msgInfo) as R by by eapply call_ready_fast.
  apply agree_wp. eapply wp_fastpath_call_commit; [exact R|].
  eapply wp_slow_call; [exact R|apply C|exact Hl|by eapply fast_vm_ready|]. split; [done|].
  rewrite alike_no_extra_caps. unfold call_state. apply switched_alike. unfold alike, live. ksimp.
  do 2 f_equal. unfold call_tcbs. rewrite !fmap_insert. done.
Qed.

Lemma reply_ready_fast e st l caller c :
  ep_rep s e st l -> st <> EPState_Send -> caps_of s (callerSlotOf (ksCurThread s)) = Some (Cap_reply false caller) ->
  ksTcbs s !! caller = Some c ->
  t.(tcbPriority) <= c.(tcbPriority) -> c.(tcbDomain) = ksCurDomain s ->
  fault_get_faultType t.(tcbFault) = 0 -> fault_get_faultType c.(tcbFault) = 0 ->
  fastpath_mi_check msgInfo = 0 ->
  reply_ready s (ksCurThread s) t caller c e st l msgInfo.
Proof using W C.
  intros He Hst Hcap Hc Hp Hdom Hf Hcf Hmi. destruct W, C.
  apply fastpath_mi_check_spec in Hmi as [Hlen Hcaps]; [|done].
  destruct (fw_thread0 _ _ ca_cur0) as (? & ? & ? & Hs). destruct (fw_thread0 _ _ Hc) as (? & ? & ? & Hs').
  destruct (fw_callers0 _ _ Hcap) as (x & Hcs & Hm & Hx & Hxt & Hxq). rewrite Hc in Hx. injection Hx as <-.
  assert (forall p, p ∈ l -> exists x, ksTcbs s !! p = Some x /\ tsType (tcbState x) = ThreadState_BlockedOnReceive) as Hrec.
  { intros p Hin. destruct st; [|done|].
    - rewrite (proj1 (er_idle _ _ _ _ He) eq_refl) in Hin. by apply elem_of_nil in Hin.
    - destruct (fw_receivers0 e l p He Hin) as (x & ? & ? & _). by exists x. }
  split; try done.
  - split; [apply Hs|apply Hs']; done.
  - split; intros Hin; destruct (Hrec _ Hin) as (x & Hx & Hxr); congruence.
Qed.

Lemma fast_reply_commit_agrees e st l caller c b cs cr asid pd w slot :
  ep_rep s e st l -> st <> EPState_Send -> caps_of s (callerSlotOf (ksCurThread s)) = Some (Cap_reply false caller) ->
  ksTcbs s !! caller = Some c ->
  t.(tcbPriority) <= c.(tcbPriority) -> c.(tcbDomain) = ksCurDomain s ->
  fault_get_faultType t.(tcbFault) = 0 -> fault_get_faultType c.(tcbFault) = 0 ->
  fastpath_mi_check msgInfo = 0 ->
  lookupCapAndSlot (ksCurThread s) cptr s = Ret (EXCEPTION_NONE, slot, Cap_endpoint b cs cr true e) s ->
  caps_of s (TCB_PTR_CTE_PTR caller tcbVTable) = Some (Cap_page_directory asid true pd) ->
  ksMem s (pd_asid_slot pd) = Some w -> stored_valid w = true ->
  agree (fastpath_reply_wait_commit (ksCurThread s) caller e cr (callerSlotOf (ksCurThread s)) msgInfo
           (message_info_get_msgLength msgInfo) pd w s)
        (handleSyscall SysReplyWait s).
Proof using W C.
  intros He Hst Hcap Hc Hp Hdom Hf Hcf Hmi Hl Hv Hw Hval.
  assert (reply_ready s (ksCurThread s) t caller c e st l msgInfo) as R by by eapply reply_ready_fast.
  apply agree_wp. eapply wp_fastpath_reply_wait_commit; [exact R|].
  eapply wp_slow_reply; [exact R|apply W|apply C|exact Hl|by eapply fast_vm_ready|]. split; [done|].
  rewrite alike_no_extra_caps. unfold reply_state. apply switched_alike. unfold alike, live. ksimp.
  do 2 f_equal. unfold reply_tcbs. rewrite !fmap_insert. done.
Qed.
End calls.

(** C7: For every system call SysCall of a running thread, in every state that
    satisfies the kernel's invariants, the fast path does what the general code
    does: [fastpath_call] and handleSyscall end in the same way, and in states that
    agree on everything but fields that no later system call reads. *)
Theorem fastpath_call_agrees s t cptr msgInfo (W : fast_wf s) (C : calling s t cptr msgInfo) :
  agree (fastpath_call cptr msgInfo s) (handleSyscall SysCall s).
Proof.
  pose proof (ca_cur _ _ _ _ C) as Hc. unfold fastpath_call, slowpath.
  apply (agree_step get _ s s); [done|]. cbv zeta.
  eapply agree_step; [exact (get_tcb_at _ _ _ Hc)|].
  destruct (Z.eqb_spec (fastpath_mi_check msgInfo) 0) as [Hmi|]; [|reflexivity].
  destruct (Z.eqb_spec (fault_get_faultType t.(tcbFault)) 0) as [Hf|]; [|reflexivity]. cbn [negb orb].
  destruct (fast_slot s W _ _ tcbCTable Hc) as [root Hroot]; [done|].
  apply (agree_step _ _ s root); [by apply get_cap_caps|].
  destruct (fast_lookup s cptr W root Hroot) as (c & Hfp & Hslow). apply (agree_step _ _ s c); [done|].
  destruct c as [| |badge canGrant [|] sd e| | | | | | | | | | | | | |]; try reflexivity.
  destruct Hslow as (slot & Hl & Hcap); [done|]. destruct (fw_eps _ W _ _ _ _ _ _ Hcap) as (st & q & He).
  eapply agree_step; [exact (get_ep_at _ _ _ (er_ep _ _ _ _ He))|].
  cbn [epQueue_head ep_state]. case_bool_decide as Hst; [|reflexivity]. cbn [negb]. subst st.
  destruct q as [|dest l]; [by pose proof (proj2 (er_idle _ _ _ _ He) eq_refl)|]. cbn [hd].
  destruct (fw_receivers _ W _ _ dest He) as (d & Hd & _); [set_solver|].
  destruct (fast_slot s W _ _ tcbVTable Hd) as [vt Hvt]; [done|].
  apply (agree_step _ _ s vt); [by apply get_cap_caps|].
  destruct vt as [| | | | | | | | | | | | | |asid [|] pd| |]; try reflexivity.
  destruct (fw_vtables _ W _ _ _ Hvt) as (w & Hw & _).
  eapply agree_step; [exact (read_word_at _ _ _ Hw)|].
  eapply agree_step; [exact (get_tcb_at _ _ _ Hd)|].
  destruct (Z.ltb_spec d.(tcbPriority) t.(tcbPriority)) as [|Hp]; [reflexivity|].
  destruct canGrant; [|reflexivity]. cbn [negb orb].
  destruct (blockingIPCDiminishCaps _) eqn:Hdim; [reflexivity|].
  destruct (pde_pde_invalid_get_stored_asid_valid w) eqn:Hval; [|reflexivity]. cbn [negb].
  change (negb (maxDom =? 0)) with true. rewrite andb_true_r.
  destruct (Z.eqb_spec d.(tcbDomain) (ksCurDomain s)) as [Hdom|]; [|reflexivity]. cbn [negb].
  by eapply fast_commit_agrees.
Qed.

(** C8: The same for SysReplyWait: the reply to the caller and the wait on the
    endpoint. *)
Theorem fastpath_reply_wait_agrees s t cptr msgInfo (W : fast_wf s) (C : calling s t cptr msgInfo) :
  agree (fastpath_reply_wait cptr msgInfo s) (handleSyscall SysReplyWait s).
Proof.
  pose proof (ca_cur _ _ _ _ C) as Hc. unfold fastpath_reply_wait, slowpath.
  apply (agree_step get _ s s); [done|]. cbv zeta.
  eapply agree_step; [exact (get_tcb_at _ _ _ Hc)|].
  destruct (Z.eqb_spec (fastpath_mi_check msgInfo) 0) as [Hmi|]; [|reflexivity].
  destruct (Z.eqb_spec (fault_get_faultType t.(tcbFault)) 0) as [Hf|]; [|reflexivity]. cbn [negb orb].
  destruct (fast_slot s W _ _ tcbCTable Hc) as [root Hroot]; [done|].
  apply (agree_step _ _ s root); [by apply get_cap_caps|].
  destruct (fast_lookup s cptr W root Hroot) as (c & Hfp & Hslow). apply (agree_step _ _ s c); [done|].
  destruct c as [| |b cs canSend [|] e| | | | | | | | | | | | | |]; try reflexivity.
  destruct Hslow as (slot & Hl & Hcap); [done|]. destruct (fw_eps _ W _ _ _ _ _ _ Hcap) as (st & q & He).
  eapply agree_step; [exact (get_ep_at _ _ _ (er_ep _ _ _ _ He))|].
  cbn [ep_state]. case_bool_decide as Hst; [reflexivity|].
  destruct (fast_slot s W _ _ tcbCaller Hc) as [cc Hcc]; [done|].
  apply (agree_step _ _ s cc); [by apply get_cap_caps|].
  destruct cc as [| | | |[|] caller| | | | | | | | | | | |]; try reflexivity.
  destruct (fw_callers _ W _ _ Hcc) as (c & Hcs & Hm & Hcaller & _).
  eapply agree_step; [exact (get_tcb_at _ _ _ Hcaller)|].
  destruct (Z.eqb_spec (fault_get_faultType c.(tcbFault)) 0) as [Hcf|]; [|reflexivity]. cbn [negb].
  destruct (fast_slot s W _ _ tcbVTable Hcaller) as [vt Hvt]; [done|].
  apply (agree_step _ _ s vt); [by apply get_cap_caps|].
  destruct vt as [| | | | | | | | | | | | | |asid [|] pd| |]; try reflexivity.
  destruct (fw_vtables _ W _ _ _ Hvt) as (w & Hw & _).
  eapply agree_step; [exact (read_word_at _ _ _ Hw)|].
  destruct (Z.ltb_spec c.(tcbPriority) t.(tcbPriority)) as [|Hp]; [reflexivity|].
  destruct (pde_pde_invalid_get_stored_asid_valid w) eqn:Hval; [|reflexivity]. cbn [negb].
  change (negb (maxDom =? 0)) with true. rewrite andb_true_r.
  destruct (Z.eqb_spec c.(tcbDomain) (ksCurDomain s)) as [Hdom|]; [|reflexivity]. cbn [negb].
  by eapply fast_reply_commit_agrees.
Qed.

(** ** A state in which both calls take the fast path

    Thread A runs, holds in its caller slot the reply capability of G, which waits
    for the reply, and its capability space finds an endpoint at address 4 where C
    waits. C and G share the second address space. *)
Definition fastCtes : gmap Z cte :=
  list_to_map [
    (TCB_PTR_CTE_PTR threadA tcbCTable, mk_cte (Cap_cnode 4 28 0 rootNode) nullMDBNode);
    (slotAt 4, mk_cte (Cap_endpoint 9 true true true epRecv) nullMDBNode);
    (TCB_PTR_CTE_PTR threadC tcbVTable, mk_cte (Cap_page_directory 2 true pd2) nullMDBNode);
    (TCB_PTR_CTE_PTR threadG tcbVTable, mk_cte (Cap_page_directory 2 true pd2) nullMDBNode);
    (replySlotOf threadA, master_slot threadA NULL);
    (callerSlotOf threadA, caller_slot threadG);
    (replySlotOf threadG, master_slot threadG (callerSlotOf threadA))] ∪ sysCtes.

(** The registers of A: the address, the length of the message, two words *)
Definition fastThread : tcb := upd_tcbContext ([4; 2; 11; 12] ++ replicate 14 0) (thread running 100 0 0).
Definition fastTcbs : gmap Z tcb :=
  <[threadA := fastThread]> (<[threadG := thread (blocked ThreadState_BlockedOnReply 0 0) 120 0 0]> sysTcbs).

Definition fastSys : kstate :=
  upd_ksCtes fastCtes (upd_ksTcbs fastTcbs (upd_ksAeps (<[aepWait := mk_async_endpoint 0 0 0 0 AEPState_Idle]> (ksAeps sys)) sys)).

(** Checkers *)
Definition fast_cap_b (s : kstate) (p : Z) (c : cte) : bool :=
  nodes_wf_b s c.(cte_cap) &&
  match c.(cte_cap) with
  | Cap_cnode r gs g _ => (1 <=? r) && (0 <=? g) && (g <? 2 ^ gs)
  | Cap_endpoint _ _ _ _ e => (e =? epRecv) || (e =? epSend)
  | Cap_page_directory asid true pd => (asid =? 2) && (pd =? pd2)
  | Cap_reply false caller => (p =? callerSlotOf threadA) && (caller =? threadG)
  | _ => true
  end.
Definition fast_thread_b (s : kstate) (p : Z) (t : tcb) : bool :=
  (field_high 27 p =? p) && (field_high 28 p =? p) && is_thread_action p && (6 <=? length t.(tcbContext))%nat &&
  forallb (fun i => bool_decide (is_Some (ksCtes s !! TCB_PTR_CTE_PTR p i))) [0; 1; 2; 3; 4].

Lemma fastSys_caps p c : caps_of fastSys p = Some c -> exists x, c = x.(cte_cap) /\ fast_cap_b fastSys p x = true.
Proof.
  intros (x & Hx & ->)%fmap_Some. exists x. split; [done|].
  assert (map_Forall (fun p x => fast_cap_b fastSys p x = true) fastCtes) as H.
  { apply (bool_decide_unpack _). vm_compute. exact I. }
  by apply (H p x).
Qed.
Lemma fastSys_threads p t : ksTcbs fastSys !! p = Some t -> fast_thread_b fastSys p t = true.
Proof.
  intros Hp. assert (map_Forall (fun p x => fast_thread_b fastSys p x = true) fastTcbs) as H.
  { apply (bool_decide_unpack _). vm_compute. exact I. }
  by apply (H p t).
Qed.

Lemma fastSys_receivers e l p : ep_rep fastSys e EPState_Recv l -> p ∈ l -> p = threadC.
Proof.
  intros [He Hq _] Hin. change (ksEps fastSys) with (ksEps sys) in He.
  assert (e = epRecv /\ hd NULL l = threadC) as [-> Hh].
  { cbn [ksEps sys list_to_map foldr] in He. rewrite lookup_insert_Some in He. destruct He as [[<- He]|[_ He]].
    { injection He as <- _. done. }
    rewrite lookup_insert_Some in He. destruct He as [[<- He]|[_ He]]; [by injection He|by rewrite lookup_empty in He]. }
  destruct l as [|x l]; [done|]. cbn in Hh. subst x. destruct Hq as (_ & Hl & Hr).
  change (ep_links (ksTcbs fastSys) threadC) with (Some (NULL, NULL)) in Hl. injection Hl as Hl.
  destruct l as [|n l]; [by apply list_elem_of_singleton in Hin|]. cbn in Hl. destruct Hr as [Hn _]. by subst n.
Qed.

Lemma fastSys_ep e : e = epRecv \/ e = epSend -> exists st l, ep_rep fastSys e st l.
Proof.
  intros [-> | ->].
  - exists EPState_Recv, [threadC]. split; [done| |done]. by apply dseg_b_sound.
  - exists EPState_Send, [threadE; threadF]. split; [done| |done]. by apply dseg_b_sound.
Qed.

Lemma fastSys_wf : fast_wf fastSys.
Proof.
  split.
  - split; [done|]. intros p [t Ht]. apply fastSys_threads in Ht. unfold fast_thread_b in Ht.
    rewrite !andb_true_iff, !Z.eqb_eq in Ht. tauto.
  - apply slots_wf_b_sound. vm_compute. reflexivity.
  - intros p c (x & -> & Hx)%fastSys_caps. apply andb_true_iff in Hx as [Hx _]. by apply node_wf_b_sound.
  - intros p c (x & -> & Hx)%fastSys_caps. apply andb_true_iff in Hx as [_ Hx]. unfold fast_node.
    destruct (cte_cap x); try done. rewrite !andb_true_iff, !Z.leb_le, Z.ltb_lt in Hx. lia.
  - done.
  - done.
  - intros p t Ht. apply fastSys_threads in Ht. unfold fast_thread_b in Ht.
    rewrite !andb_true_iff, !Z.eqb_eq, Nat.leb_le, forallb_forall in Ht.
    destruct Ht as ((((? & _) & ?) & ?) & Hs). split_and!; try done. intros i Hi. 
    assert (In i [0; 1; 2; 3; 4]) as Hin by (assert (i = 0 \/ i = 1 \/ i = 2 \/ i = 3 \/ i = 4) as Hc by lia; simpl; naive_solver).
    apply (proj1 (bool_decide_eq_true _)), Hs, Hin.
  - intros p b cs cr cg e (x & Ec & Hx)%fastSys_caps. apply andb_true_iff in Hx as [_ Hx]. rewrite <- Ec in Hx.
    apply fastSys_ep. by rewrite orb_true_iff, !Z.eqb_eq in Hx.
  - intros e l p He Hp. rewrite (fastSys_receivers e l p He Hp). by eexists.
  - intros t caller (x & Ec & Hx)%fastSys_caps. apply andb_true_iff in Hx as [_ Hx]. rewrite <- Ec in Hx.
    apply andb_true_iff in Hx as [->%Z.eqb_eq ->%Z.eqb_eq]. by eexists.
  - intros t asid pd (x & Ec & Hx)%fastSys_caps. apply andb_true_iff in Hx as [_ Hx]. rewrite <- Ec in Hx.
    apply andb_true_iff in Hx as [->%Z.eqb_eq ->%Z.eqb_eq]. eexists. split; [reflexivity|]. done.
Qed.

Lemma fastSys_calling : calling fastSys fastThread 4 2.
Proof. by split. Qed.

Lemma fastpath_call_agrees_witness : agree (fastpath_call 4 2 fastSys) (handleSyscall SysCall fastSys) /\
  match fastpath_call 4 2 fastSys with Ret _ s' => ksCurThread s' = threadC | Stop _ => False end.
Proof.
  split; [exact (fastpath_call_agrees fastSys fastThread 4 2 fastSys_wf fastSys_calling)|vm_compute; reflexivity].
Defined.

Lemma fastpath_reply_wait_agrees_witness :
  agree (fastpath_reply_wait 4 2 fastSys) (handleSyscall SysReplyWait fastSys) /\
  match fastpath_reply_wait 4 2 fastSys with Ret _ s' => ksCurThread s' = threadG | Stop _ => False end.
Proof.
  split; [exact (fastpath_reply_wait_agrees fastSys fastThread 4 2 fastSys_wf fastSys_calling)|vm_compute; reflexivity].
Defined.

(** C9: The fast path's lookup of a capability, [lookup_fp], is lookupCapAndSlot
    without its error reports: it returns the same capability where that succeeds
    and the null capability where that fails, and it leaves the state alone. *)
Theorem lookup_fp_agrees s thread cptr root (W : nodes_wf s) (F : fast_nodes s)
    (Hroot : caps_of s (TCB_PTR_CTE_PTR thread tcbCTable) = Some root) :
  wp (lookupCapAndSlot thread cptr) (fun r s' =>
    let '(status, slot, c) := r in
    lookup_fp root cptr s = Ret c s /\
    (status = EXCEPTION_NONE -> s' = s /\ caps_of s slot = Some c) /\
    (status <> EXCEPTION_NONE -> c = Cap_null)) s.
Proof. by apply wp_lookup_fp. Qed.

Lemma lookup_fp_agrees_witness :
  wp (lookupCapAndSlot threadA 4) (fun r s' =>
    let '(status, slot, c) := r in
    lookup_fp (Cap_cnode 4 28 0 rootNode) 4 fastSys = Ret c fastSys /\
    (status = EXCEPTION_NONE -> s' = fastSys /\ caps_of fastSys slot = Some c) /\
    (status <> EXCEPTION_NONE -> c = Cap_null)) fastSys.
Proof.
  exact (lookup_fp_agrees fastSys threadA 4 _ (fw_nodes _ fastSys_wf) (fw_fast _ fastSys_wf) eq_refl).
Defined.
