(* ===== verification/Boot.v ===== *)
(** * Initialisation (src/kernel/boot.c, src/arch/arm/kernel/boot.c)

    The kernel starts with the machine's free memory as at most two regions,
    takes from them the objects of the initial thread, turns the rest into untyped
    capabilities, and describes what it made in the boot information frame. The
    initialisation works on [bstate]: the kernel's state, ndks_boot, and the boot
    information, kept as a record and not as the words of its frame. The symbols
    of the linker script are the record [image]. Memory that becomes an object is
    retyped as in createObject. *)
From stdpp Require Import base list gmap.
From Stdlib Require Import ZArith Lia.
From S2P Require Import Prelude.
From S2P Require Import Structures.
From S2P Require Import KernelState.
From S2P Require Import VSpace.
From S2P Require Import Gic.
From S2P Require Import Scheduler.
From S2P Require Import CapOps.
From S2P Require Import MDB.
From S2P Require Import Untyped.

(** ** Constants *)
Definition CONFIG_ROOT_CNODE_SIZE_BITS : Z := 12.
Definition CONFIG_MAX_NUM_BOOTINFO_DEVICE_REGIONS : Z := 199.
Definition CONFIG_MAX_NUM_BOOTINFO_UNTYPED_CAPS : Z := 166.
Definition MAX_NUM_FREEMEM_REG : Z := 2.
Definition IT_ASID : Z := 1.
Definition PAGE_BITS : Z := 12.
Definition BI_FRAME_SIZE_BITS : Z := PAGE_BITS.
Definition PPTR_TOP : Z := 0xfff00000.
Definition PADDR_TOP : Z := PPTR_TOP - physMappingOffset.
Definition PPTR_VECTOR_TABLE : Z := 0xffff0000.
Definition PPTR_GLOBALS_PAGE : Z := 0xffffc000.
Definition PPTR_KERNEL_STACK : Z := 0xfffff000.
Definition BI_CAP_IT_TCB : Z := 1.
Definition BI_CAP_IT_CNODE : Z := 2.
Definition BI_CAP_IT_VSPACE : Z := 3.
Definition BI_CAP_IRQ_CTRL : Z := 4.
Definition BI_CAP_ASID_CTRL : Z := 5.
Definition BI_CAP_IT_ASID_POOL : Z := 6.
Definition BI_CAP_BI_FRAME : Z := 9.
Definition BI_CAP_IT_IPCBUF : Z := 10.
Definition BI_CAP_DOM : Z := 11.
Definition BI_CAP_DYN_START : Z := 12.

Definition IS_ALIGNED (n b : Z) : bool := (n &w MASK b) =? 0.
Definition ROUND_DOWN (n b : Z) : Z := wshl (n >>w b) b.
Definition ROUND_UP (n b : Z) : Z := wshl (((n -w 1) >>w b) +w 1) b.
(** CLZ and CTZ are undefined at 0. *)
Definition clz (x : Z) : Z := wordBits - 1 - Z.log2 x.
Fixpoint ctz_pos (p : positive) : Z := match p with xO p' => 1 + ctz_pos p' | _ => 0 end.
Definition ctz (x : Z) : Z := match x with Zpos p => ctz_pos p | _ => 0 end.

(** ** Data *)

(** [region_t], [p_region_t] and [v_region_t]; [slot_region_t] *)
Record region := mk_region { r_start : Z; r_end : Z }.
Definition REG_EMPTY : region := mk_region 0 0.
Definition is_reg_empty (reg : region) : bool := reg.(r_start) =? reg.(r_end).
Definition reg_size (reg : region) : Z := reg.(r_end) -w reg.(r_start).
Record slot_region := mk_slot_region { s_start : Z; s_end : Z }.
Definition S_REG_EMPTY : slot_region := mk_slot_region 0 0.
Record bi_dev_reg := mk_bi_dev_reg { base_paddr : Z; frame_size_bits : Z; frame_caps : slot_region }.

(** The boot information *)
Record bi := mk_bi {
  bi_ComputeEnvType : Z;
  bi_node_id : Z;
  bi_num_nodes : Z;
  bi_num_iopt_levels : Z;
  bi_ipcbuf_vptr : Z;
  bi_null_caps : slot_region;
  bi_sh_frame_caps : slot_region;
  bi_ui_frame_caps : slot_region;
  bi_ui_pd_caps : slot_region;
  bi_ui_pt_caps : slot_region;
  bi_ut_obj_caps : slot_region;
  bi_ut_obj_paddr_list : gmap Z Z;
  bi_ut_obj_size_bits_list : gmap Z Z;
  bi_it_cnode_size_bits : Z;
  bi_num_dev_regs : Z;
  bi_dev_reg_list : gmap Z bi_dev_reg;
  bi_it_domain : Z }.
Definition upd_bi_null_caps (v : slot_region) (r : bi) : bi :=
  mk_bi r.(bi_ComputeEnvType) r.(bi_node_id) r.(bi_num_nodes) r.(bi_num_iopt_levels)
    r.(bi_ipcbuf_vptr) v r.(bi_sh_frame_caps) r.(bi_ui_frame_caps) r.(bi_ui_pd_caps)
    r.(bi_ui_pt_caps) r.(bi_ut_obj_caps) r.(bi_ut_obj_paddr_list) r.(bi_ut_obj_size_bits_list)
    r.(bi_it_cnode_size_bits) r.(bi_num_dev_regs) r.(bi_dev_reg_list) r.(bi_it_domain).
Definition upd_bi_sh_frame_caps (v : slot_region) (r : bi) : bi :=
  mk_bi r.(bi_ComputeEnvType) r.(bi_node_id) r.(bi_num_nodes) r.(bi_num_iopt_levels)
    r.(bi_ipcbuf_vptr) r.(bi_null_caps) v r.(bi_ui_frame_caps) r.(bi_ui_pd_caps) r.(bi_ui_pt_caps)
    r.(bi_ut_obj_caps) r.(bi_ut_obj_paddr_list) r.(bi_ut_obj_size_bits_list)
    r.(bi_it_cnode_size_bits) r.(bi_num_dev_regs) r.(bi_dev_reg_list) r.(bi_it_domain).
Definition upd_bi_ui_frame_caps (v : slot_region) (r : bi) : bi :=
  mk_bi r.(bi_ComputeEnvType) r.(bi_node_id) r.(bi_num_nodes) r.(bi_num_iopt_levels)
    r.(bi_ipcbuf_vptr) r.(bi_null_caps) r.(bi_sh_frame_caps) v r.(bi_ui_pd_caps) r.(bi_ui_pt_caps)
    r.(bi_ut_obj_caps) r.(bi_ut_obj_paddr_list) r.(bi_ut_obj_size_bits_list)
    r.(bi_it_cnode_size_bits) r.(bi_num_dev_regs) r.(bi_dev_reg_list) r.(bi_it_domain).
Definition upd_bi_ui_pt_caps (v : slot_region) (r : bi) : bi :=
  mk_bi r.(bi_ComputeEnvType) r.(bi_node_id) r.(bi_num_nodes) r.(bi_num_iopt_levels)
    r.(bi_ipcbuf_vptr) r.(bi_null_caps) r.(bi_sh_frame_caps) r.(bi_ui_frame_caps) r.(bi_ui_pd_caps)
    v r.(bi_ut_obj_caps) r.(bi_ut_obj_paddr_list) r.(bi_ut_obj_size_bits_list)
    r.(bi_it_cnode_size_bits) r.(bi_num_dev_regs) r.(bi_dev_reg_list) r.(bi_it_domain).
Definition upd_bi_ut_obj_caps (v : slot_region) (r : bi) : bi :=
  mk_bi r.(bi_ComputeEnvType) r.(bi_node_id) r.(bi_num_nodes) r.(bi_num_iopt_levels)
    r.(bi_ipcbuf_vptr) r.(bi_null_caps) r.(bi_sh_frame_caps) r.(bi_ui_frame_caps) r.(bi_ui_pd_caps)
    r.(bi_ui_pt_caps) v r.(bi_ut_obj_paddr_list) r.(bi_ut_obj_size_bits_list)
    r.(bi_it_cnode_size_bits) r.(bi_num_dev_regs) r.(bi_dev_reg_list) r.(bi_it_domain).
Definition upd_bi_ut_obj_paddr_list (v : gmap Z Z) (r : bi) : bi :=
  mk_bi r.(bi_ComputeEnvType) r.(bi_node_id) r.(bi_num_nodes) r.(bi_num_iopt_levels)
    r.(bi_ipcbuf_vptr) r.(bi_null_caps) r.(bi_sh_frame_caps) r.(bi_ui_frame_caps) r.(bi_ui_pd_caps)
    r.(bi_ui_pt_caps) r.(bi_ut_obj_caps) v r.(bi_ut_obj_size_bits_list) r.(bi_it_cnode_size_bits)
    r.(bi_num_dev_regs) r.(bi_dev_reg_list) r.(bi_it_domain).
Definition upd_bi_ut_obj_size_bits_list (v : gmap Z Z) (r : bi) : bi :=
  mk_bi r.(bi_ComputeEnvType) r.(bi_node_id) r.(bi_num_nodes) r.(bi_num_iopt_levels)
    r.(bi_ipcbuf_vptr) r.(bi_null_caps) r.(bi_sh_frame_caps) r.(bi_ui_frame_caps) r.(bi_ui_pd_caps)
    r.(bi_ui_pt_caps) r.(bi_ut_obj_caps) r.(bi_ut_obj_paddr_list) v r.(bi_it_cnode_size_bits)
    r.(bi_num_dev_regs) r.(bi_dev_reg_list) r.(bi_it_domain).
Definition upd_bi_num_dev_regs (v : Z) (r : bi) : bi :=
  mk_bi r.(bi_ComputeEnvType) r.(bi_node_id) r.(bi_num_nodes) r.(bi_num_iopt_levels)
    r.(bi_ipcbuf_vptr) r.(bi_null_caps) r.(bi_sh_frame_caps) r.(bi_ui_frame_caps) r.(bi_ui_pd_caps)
    r.(bi_ui_pt_caps) r.(bi_ut_obj_caps) r.(bi_ut_obj_paddr_list) r.(bi_ut_obj_size_bits_list)
    r.(bi_it_cnode_size_bits) v r.(bi_dev_reg_list) r.(bi_it_domain).
Definition upd_bi_dev_reg_list (v : gmap Z bi_dev_reg) (r : bi) : bi :=
  mk_bi r.(bi_ComputeEnvType) r.(bi_node_id) r.(bi_num_nodes) r.(bi_num_iopt_levels)
    r.(bi_ipcbuf_vptr) r.(bi_null_caps) r.(bi_sh_frame_caps) r.(bi_ui_frame_caps) r.(bi_ui_pd_caps)
    r.(bi_ui_pt_caps) r.(bi_ut_obj_caps) r.(bi_ut_obj_paddr_list) r.(bi_ut_obj_size_bits_list)
    r.(bi_it_cnode_size_bits) r.(bi_num_dev_regs) v r.(bi_it_domain).

(** ndks_boot, the boot information frame and the kernel's state *)
Record bstate := mk_bstate {
  bs_kernel : kstate;
  freemem : list region;
  bi_frame : bi;
  slot_pos_cur : Z;
  slot_pos_max : Z }.
Definition upd_bs_kernel (v : kstate) (r : bstate) : bstate :=
  mk_bstate v r.(freemem) r.(bi_frame) r.(slot_pos_cur) r.(slot_pos_max).
Definition upd_freemem (v : list region) (r : bstate) : bstate :=
  mk_bstate r.(bs_kernel) v r.(bi_frame) r.(slot_pos_cur) r.(slot_pos_max).
Definition upd_bi_frame (v : bi) (r : bstate) : bstate :=
  mk_bstate r.(bs_kernel) r.(freemem) v r.(slot_pos_cur) r.(slot_pos_max).
Definition upd_slot_pos_cur (v : Z) (r : bstate) : bstate :=
  mk_bstate r.(bs_kernel) r.(freemem) r.(bi_frame) v r.(slot_pos_max).
Definition upd_slot_pos_max (v : Z) (r : bstate) : bstate :=
  mk_bstate r.(bs_kernel) r.(freemem) r.(bi_frame) r.(slot_pos_cur) v.

(** The linker's symbols: the ends of the boot code and of the image, and the
    addresses of the tables and pages the image contains *)
Record image := mk_image {
  ki_boot_end : Z; ki_end : Z; armKSGlobalPT : Z; arm_vector_table : Z; arm_kernel_stack : Z;
  globals_frame_at : Z; idleThreadStart : Z }.

Abbreviation B := (M bstate).

(** A function of the kernel in the initialisation *)
Definition lift {A} (m : K A) : B A := fun b =>
  match m (bs_kernel b) with Ret a s => Ret a (upd_bs_kernel s b) | Stop e => Stop e end.
Definition mod_bi (f : bi -> bi) : B unit := modify (fun b => upd_bi_frame (f (bi_frame b)) b).

(** [for (f = first; f < last; f += step) if (!body(f)) return false;] *)
Fixpoint for_step (fuel : nat) (f last step : Z) (body : Z -> B bool) : B bool :=
  match fuel with
  | O => halt_with NoFuel
  | S fuel' =>
      if f <? last then
        let* ok := body f in
        if ok then for_step fuel' (f +w step) last step body else ret false
      else ret true
  end.
Definition step_fuel (first last step : Z) : nat := S (Z.to_nat ((last - first) / step + 1)).

(** ** Free memory *)

(** The first empty entry is overwritten. *)
Fixpoint insert_free (reg : region) (l : list region) : option (list region) :=
  match l with
  | [] => None
  | r :: l' => if is_reg_empty r then Some (reg :: l') else cons r <$> insert_free reg l'
  end.
Definition insert_region (reg : region) : B bool :=
  assert (reg.(r_start) <=? reg.(r_end)) ;;;
  if is_reg_empty reg then ret true
  else
    let* b := get in
    match insert_free reg (freemem b) with
    | Some l => modify (upd_freemem l) ;;; ret true
    | None => ret false
    end.

(** The search of alloc_region: the best placement so far and what it leaves *)
Record placement := mk_placement { pl_reg : region; pl_small : region; pl_large : region; pl_index : nat }.

(** Where an object of the size would go in a region: at the end that leaves the
    smaller rest *)
Definition place_at (size_bits : Z) (r : region) : region :=
  if (ROUND_UP r.(r_start) size_bits -w r.(r_start)) <? (r.(r_end) -w ROUND_DOWN r.(r_end) size_bits)
  then let start := ROUND_UP r.(r_start) size_bits in mk_region start (start +w BIT size_bits)
  else let last := ROUND_DOWN r.(r_end) size_bits in mk_region (last -w BIT size_bits) last.
Definition fits (new r : region) : bool :=
  (new.(r_end) >? new.(r_start)) && (new.(r_start) >=? r.(r_start)) && (new.(r_end) <=? r.(r_end)).
(** The smaller and the larger rest *)
Definition rests (new r : region) : region * region :=
  let low := mk_region r.(r_start) new.(r_start) in
  let high := mk_region new.(r_end) r.(r_end) in
  if (new.(r_start) -w r.(r_start)) <? (r.(r_end) -w new.(r_end)) then (low, high) else (high, low).
Definition consider (size_bits : Z) (i : nat) (r : region) (best : placement) : placement :=
  let new := place_at size_bits r in
  if fits new r then
    let (small, large) := rests new r in
    if is_reg_empty best.(pl_reg)
       || (reg_size small <? reg_size best.(pl_small))
       || ((reg_size small =? reg_size best.(pl_small)) && (reg_size large <? reg_size best.(pl_large)))
    then mk_placement new small large i
    else best
  else best.
Fixpoint search (size_bits : Z) (i : nat) (l : list region) (best : placement) : placement :=
  match l with
  | [] => best
  | r :: l' => search size_bits (S i) l' (consider size_bits i r best)
  end.

Definition alloc_region (size_bits : Z) : B Z :=
  let* b := get in
  let best := search size_bits 0 (freemem b) (mk_placement REG_EMPTY REG_EMPTY REG_EMPTY 0) in
  if is_reg_empty best.(pl_reg) then ret 0
  else
    modify (upd_freemem (<[best.(pl_index) := REG_EMPTY]> (freemem b))) ;;;
    let* _ := insert_region best.(pl_large) in
    let* _ := insert_region best.(pl_small) in
    ret best.(pl_reg).(r_start).

(** The part of [mem] below the reserved region is inserted, that above returned. *)
Definition insert_region_excluded (mem reserved : region) : B region :=
  let '(low, residual) :=
    if reserved.(r_start) <? mem.(r_start) then
      (REG_EMPTY,
       if reserved.(r_end) >? mem.(r_start) then mk_region reserved.(r_end) mem.(r_end) else mem)
    else if mem.(r_end) >? reserved.(r_start) then
      (mk_region mem.(r_start) reserved.(r_start), mk_region reserved.(r_end) mem.(r_end))
    else (mem, REG_EMPTY) in
  (if low.(r_start) <? low.(r_end) then let* result := insert_region low in assert result else ret tt) ;;;
  ret (if residual.(r_start) >? residual.(r_end) then mk_region residual.(r_end) residual.(r_end) else residual).

(** src/plat/omap4/machine/hardware.c *)
Definition avail_p_regs : list region := [mk_region 0x80000000 0xa0000000].
Definition paddr_to_pptr_reg (r : region) : region :=
  mk_region (r.(r_start) +w physMappingOffset) (r.(r_end) +w physMappingOffset).

(** The body of the loop of init_freemem: a region of physical memory *)
Definition insert_avail (res0 res1 res2 p_reg : region) : B unit :=
  let cur := paddr_to_pptr_reg p_reg in
  let cur := if addrFromPPtr cur.(r_end) >? PADDR_TOP then mk_region cur.(r_start) PPTR_TOP else cur in
  let cur := if addrFromPPtr cur.(r_start) >? PADDR_TOP then mk_region PPTR_TOP cur.(r_end) else cur in
  let* cur := insert_region_excluded cur res0 in
  let* cur := insert_region_excluded cur res1 in
  let* cur := insert_region_excluded cur res2 in
  if negb (cur.(r_start) =? cur.(r_end))
  then let* result := insert_region cur in assert result else ret tt.

Definition init_freemem (im : image) (ui_reg : region) : B unit :=
  let res0 := mk_region kernelBase im.(ki_end) in
  let res2 := mk_region (wshl PD_ASID_SLOT ARMSectionBits) (wshl (PD_ASID_SLOT + 1) ARMSectionBits) in
  modify (upd_freemem [REG_EMPTY; REG_EMPTY]) ;;;
  assert (res0.(r_start) <? res0.(r_end)) ;;;
  assert (ui_reg.(r_start) <? ui_reg.(r_end)) ;;;
  assert (res2.(r_start) <? res2.(r_end)) ;;;
  assert (res0.(r_end) <=? ui_reg.(r_start)) ;;;
  assert (ui_reg.(r_end) <=? res2.(r_start)) ;;;
  for_upto (length avail_p_regs) 0 (fun i =>
    let* p_reg := of_option (avail_p_regs !! Z.to_nat i) in
    insert_avail res0 ui_reg res2 p_reg).

(** ** Capabilities of the initial thread *)
Definition write_slot (slot_ptr : Z) (c : cap) : B unit :=
  lift (set_cap slot_ptr c ;;;
        set_mdb slot_ptr nullMDBNode ;;;
        mod_mdb slot_ptr (mdb_node_set_mdbRevocable true) ;;;
        mod_mdb slot_ptr (mdb_node_set_mdbFirstBadged true)).
Definition pptr_of_cap (c : cap) : Z := cap_get_capPtr c.
Definition SLOT_PTR (pptr pos : Z) : Z := cte_at pptr pos.
Definition root_slot (root_cnode_cap : cap) (pos : Z) : Z := SLOT_PTR (pptr_of_cap root_cnode_cap) pos.

Definition provide_cap (root_cnode_cap c : cap) : B bool :=
  let* b := get in
  if slot_pos_cur b >=? slot_pos_max b then ret false
  else
    write_slot (root_slot root_cnode_cap (slot_pos_cur b)) c ;;;
    modify (fun b => upd_slot_pos_cur (slot_pos_cur b +w 1) b) ;;;
    ret true.

Definition create_root_cnode : B cap :=
  modify (upd_slot_pos_max (BIT CONFIG_ROOT_CNODE_SIZE_BITS)) ;;;
  let* pptr := alloc_region (CONFIG_ROOT_CNODE_SIZE_BITS + CTE_SIZE_BITS) in
  if pptr =? 0 then ret Cap_null
  else
    lift (memzero pptr (wshl 1 (CONFIG_ROOT_CNODE_SIZE_BITS + CTE_SIZE_BITS)) ;;;
          ptr_retyps_cte (2 ^ CONFIG_ROOT_CNODE_SIZE_BITS) pptr) ;;;
    let c := cap_cnode_cap_new CONFIG_ROOT_CNODE_SIZE_BITS (32 - CONFIG_ROOT_CNODE_SIZE_BITS) 0 pptr in
    write_slot (SLOT_PTR pptr BI_CAP_IT_CNODE) c ;;;
    ret c.

Definition create_irq_cnode : B bool :=
  let* pptr := alloc_region PAGE_BITS in
  if pptr =? 0 then ret false
  else
    lift (memzero pptr (wshl 1 PAGE_BITS) ;;;
          ptr_retyps_cte (2 ^ (PAGE_BITS - CTE_SIZE_BITS)) pptr ;;;
          modify (upd_intStateIRQNode pptr)) ;;;
    ret true.

Definition create_domain_cap (root_cnode_cap : cap) : B unit :=
  assert (ksDomScheduleLength >? 0) ;;;
  assert (forallb (fun e => (fst e <? CONFIG_NUM_DOMAINS) && (snd e >? 0)) ksDomSchedule) ;;;
  write_slot (root_slot root_cnode_cap BI_CAP_DOM) Cap_domain.

Definition init_irqs (root_cnode_cap : cap) : B unit :=
  lift (for_upto (Z.to_nat (maxIRQ + 1)) 0 (fun i => setIRQState IRQInactive i) ;;;
        setIRQState IRQTimer KERNEL_TIMER_IRQ) ;;;
  write_slot (root_slot root_cnode_cap BI_CAP_IRQ_CTRL) Cap_irq_control.

(** ** The initial address space *)
Definition map_it_pt_cap (pd_cap pt_cap : cap) : K unit :=
  match pd_cap, pt_cap with
  | Cap_page_directory _ _ pd, Cap_page_table mapped _ vptr pt =>
      assert mapped ;;;
      write_word (word_at pd (vptr >>w ARMSectionBits)) (pde_pde_coarse_new (addrFromPPtr pt) true 0)
  | _, _ => fail
  end.

Definition map_it_frame_cap (pd_cap frame_cap : cap) (executable : bool) : K unit :=
  let frame := generic_frame_cap_get_capFBasePtr frame_cap in
  let vptr := generic_frame_cap_get_capFMappedAddress frame_cap in
  match pd_cap with
  | Cap_page_directory _ _ pd =>
      assert (negb (generic_frame_cap_get_capFMappedASID frame_cap =? 0)) ;;;
      let* pde := read_word (word_at pd (vptr >>w ARMSectionBits)) in
      let pt := ptrFromPAddr (pde_pde_coarse_get_address pde) in
      let* ap := APFromVMRights VMReadWrite in
      write_word (word_at pt ((vptr &w MASK ARMSectionBits) >>w ARMSmallPageBits))
        (pte_pte_small_new (addrFromPPtr frame) 1 0 0 0 ap 1 1 (negb executable))
  | _ => fail
  end.

Definition create_it_frame_cap (pptr vptr asid : Z) (use_large : bool) : cap :=
  let low := asid &w MASK asidLowBits in
  let high := (asid >>w asidLowBits) &w MASK asidHighBits in
  if use_large then cap_frame_cap_new ARMSection low VMReadWrite vptr high pptr
  else cap_small_frame_cap_new low VMReadWrite vptr high pptr.
Definition create_unmapped_it_frame_cap (pptr : Z) (use_large : bool) : cap :=
  create_it_frame_cap pptr 0 asidInvalid use_large.
Definition create_mapped_it_frame_cap (pd_cap : cap) (pptr vptr asid : Z) (use_large executable : bool) : B cap :=
  let c := create_it_frame_cap pptr vptr asid use_large in
  lift (map_it_frame_cap pd_cap c executable) ;;;
  ret c.
Definition create_it_page_table_cap (pd : cap) (pptr vptr asid : Z) : B cap :=
  let c := cap_page_table_cap_new true asid vptr pptr in
  when (negb (asid =? asidInvalid)) (lift (map_it_pt_cap pd c)) ;;;
  ret c.

Definition create_it_address_space (root_cnode_cap : cap) (it_v_reg : region) : B cap :=
  let* pd_pptr := alloc_region PD_SIZE_BITS in
  if pd_pptr =? 0 then ret Cap_null
  else
    lift (memzero pd_pptr (wshl 1 PD_SIZE_BITS) ;;;
          copyGlobalMappings pd_pptr ;;;
          cleanCacheRange_PoU pd_pptr ((pd_pptr +w wshl 1 PD_SIZE_BITS) -w 1) (addrFromPPtr pd_pptr)) ;;;
    let pd_cap := cap_page_directory_cap_new true IT_ASID pd_pptr in
    write_slot (root_slot root_cnode_cap BI_CAP_IT_VSPACE) pd_cap ;;;
    let* before := gets slot_pos_cur in
    let first := ROUND_DOWN it_v_reg.(r_start) (PT_BITS + PAGE_BITS) in
    let step := BIT (PT_BITS + PAGE_BITS) in
    let* ok := for_step (step_fuel first it_v_reg.(r_end) step) first it_v_reg.(r_end) step (fun pt_vptr =>
      let* pt_pptr := alloc_region PT_SIZE_BITS in
      if pt_pptr =? 0 then ret false
      else
        lift (memzero pt_pptr (wshl 1 PT_SIZE_BITS)) ;;;
        let* c := create_it_page_table_cap pd_cap pt_pptr pt_vptr IT_ASID in
        provide_cap root_cnode_cap c) in
    if negb ok then ret Cap_null
    else
      let* after := gets slot_pos_cur in
      mod_bi (upd_bi_ui_pt_caps (mk_slot_region before after)) ;;;
      ret pd_cap.

Definition create_bi_frame_cap (root_cnode_cap pd_cap : cap) (pptr vptr : Z) : B unit :=
  let* c := create_mapped_it_frame_cap pd_cap pptr vptr IT_ASID false false in
  write_slot (root_slot root_cnode_cap BI_CAP_BI_FRAME) c.

Definition create_ipcbuf_frame (root_cnode_cap pd_cap : cap) (vptr : Z) : B cap :=
  let* pptr := alloc_region PAGE_BITS in
  if pptr =? 0 then ret Cap_null
  else
    lift (clearMemory pptr PAGE_BITS) ;;;
    let* c := create_mapped_it_frame_cap pd_cap pptr vptr IT_ASID false false in
    write_slot (root_slot root_cnode_cap BI_CAP_IT_IPCBUF) c ;;;
    ret c.

Definition allocate_bi_frame (node_id num_nodes ipcbuf_vptr : Z) : B Z :=
  let* pptr := alloc_region BI_FRAME_SIZE_BITS in
  if pptr =? 0 then ret 0
  else
    lift (clearMemory pptr PAGE_BITS) ;;;
    modify (upd_slot_pos_cur BI_CAP_DYN_START) ;;;
    let* b := get in
    let* entry := of_option (ksDomSchedule !! Z.to_nat (ksDomScheduleIdx (bs_kernel b))) in
    modify (upd_bi_frame (mk_bi 0 node_id num_nodes 0 ipcbuf_vptr S_REG_EMPTY S_REG_EMPTY S_REG_EMPTY S_REG_EMPTY
      S_REG_EMPTY S_REG_EMPTY empty empty CONFIG_ROOT_CNODE_SIZE_BITS 0 empty (fst entry))) ;;;
    ret pptr.

(** The slots filled, or [None] when the slots ran out *)
Definition create_frames_of_region (root_cnode_cap pd_cap : cap) (reg : region) (do_map : bool) (pv_offset : Z)
    : B (option slot_region) :=
  let* before := gets slot_pos_cur in
  let step := BIT PAGE_BITS in
  let* ok := for_step (step_fuel reg.(r_start) reg.(r_end) step) reg.(r_start) reg.(r_end) step (fun f =>
    let* c := (if do_map
               then create_mapped_it_frame_cap pd_cap f ((f -w physMappingOffset) -w pv_offset) IT_ASID false true
               else ret (create_unmapped_it_frame_cap f false)) in
    provide_cap root_cnode_cap c) in
  if negb ok then ret None
  else
    let* after := gets slot_pos_cur in
    ret (Some (mk_slot_region before after)).

Definition create_it_asid_pool (root_cnode_cap : cap) : B cap :=
  let* ap_pptr := alloc_region ASID_POOL_SIZE_BITS in
  if ap_pptr =? 0 then ret Cap_null
  else
    lift (memzero ap_pptr (wshl 1 ASID_POOL_SIZE_BITS)) ;;;
    let ap_cap := cap_asid_pool_cap_new (IT_ASID >>w asidLowBits) ap_pptr in
    write_slot (root_slot root_cnode_cap BI_CAP_IT_ASID_POOL) ap_cap ;;;
    write_slot (root_slot root_cnode_cap BI_CAP_ASID_CTRL) Cap_asid_control ;;;
    ret ap_cap.

Definition write_it_asid_pool (it_ap_cap it_pd_cap : cap) : B unit :=
  let ap := pptr_of_cap it_ap_cap in
  lift (write_word (word_at ap IT_ASID) (pptr_of_cap it_pd_cap) ;;;
        set_asid_table (IT_ASID >>w asidLowBits) ap).

(** ** Threads *)
Definition new_tcb (pptr : Z) : K Z :=
  memzero pptr (wshl 1 TCB_BLOCK_SIZE_BITS) ;;;
  let tcb := pptr +w TCB_OFFSET in
  ptr_retyps_cte tcbCNodeEntries pptr ;;;
  ptr_retyp_tcb tcb ;;;
  ret tcb.

Definition create_idle_thread (im : image) : B bool :=
  let* pptr := alloc_region TCB_BLOCK_SIZE_BITS in
  if pptr =? 0 then ret false
  else
    lift (let* tcb := new_tcb pptr in
          modify (upd_ksIdleThread tcb) ;;;
          configureIdleThread im.(idleThreadStart) tcb) ;;;
    ret true.

Definition create_initial_thread (root_cnode_cap it_pd_cap : cap) (ui_v_entry bi_frame_vptr ipcbuf_vptr : Z)
    (ipcbuf_cap : cap) : B bool :=
  let* pptr := alloc_region TCB_BLOCK_SIZE_BITS in
  if pptr =? 0 then ret false
  else
    let* tcb := lift (new_tcb pptr) in
    lift (mod_tcb tcb (upd_tcbTimeSlice CONFIG_TIME_SLICE) ;;;
          mod_tcb tcb (fun t => upd_tcbContext (Arch_initContext t.(tcbContext)) t)) ;;;
    let* dc_ret := lift (deriveCap (root_slot root_cnode_cap BI_CAP_IT_IPCBUF) ipcbuf_cap) in
    if fst dc_ret != EXCEPTION_NONE then ret false
    else
      lift (cteInsert root_cnode_cap (root_slot root_cnode_cap BI_CAP_IT_CNODE) (SLOT_PTR pptr tcbCTable) ;;;
            cteInsert it_pd_cap (root_slot root_cnode_cap BI_CAP_IT_VSPACE) (SLOT_PTR pptr tcbVTable) ;;;
            cteInsert (snd dc_ret) (root_slot root_cnode_cap BI_CAP_IT_IPCBUF) (SLOT_PTR pptr tcbBuffer) ;;;
            mod_tcb tcb (upd_tcbIPCBuffer ipcbuf_vptr) ;;;
            setRegister tcb capRegister bi_frame_vptr ;;;
            setNextPC tcb ui_v_entry ;;;
            mod_tcb tcb (upd_tcbPriority seL4_MaxPrio) ;;;
            setupReplyMaster tcb ;;;
            setThreadState tcb ThreadState_Running ;;;
            modify (upd_ksSchedulerAction SchedulerAction_ResumeCurrentThread) ;;;
            let* s := get in
            modify (upd_ksCurThread (ksIdleThread s)) ;;;
            let* entry := of_option (ksDomSchedule !! Z.to_nat (ksDomScheduleIdx s)) in
            modify (upd_ksCurDomain (fst entry)) ;;;
            modify (upd_ksDomainTime (snd entry)) ;;;
            assert ((fst entry <? CONFIG_NUM_DOMAINS) && (snd entry >? 0)) ;;;
            switchToThread tcb) ;;;
      write_slot (root_slot root_cnode_cap BI_CAP_IT_TCB) (cap_thread_cap_new tcb) ;;;
      ret true.

(** ** Untyped memory *)
Definition provide_untyped_cap (root_cnode_cap : cap) (pptr size_bits first_untyped_slot : Z) : B bool :=
  let* b := get in
  let i := slot_pos_cur b -w first_untyped_slot in
  if i <? CONFIG_MAX_NUM_BOOTINFO_UNTYPED_CAPS then
    mod_bi (fun f => upd_bi_ut_obj_paddr_list (<[i := addrFromPPtr pptr]> (bi_ut_obj_paddr_list f)) f) ;;;
    mod_bi (fun f => upd_bi_ut_obj_size_bits_list (<[i := size_bits]> (bi_ut_obj_size_bits_list f)) f) ;;;
    provide_cap root_cnode_cap (cap_untyped_cap_new 0 size_bits pptr)
  else ret true.

Definition boot_clz (x : Z) : B Z := if x =? 0 then halt_with Undefined else ret (clz x).
Definition boot_ctz (x : Z) : B Z := if x =? 0 then halt_with Undefined else ret (ctz x).

(** A region is cut into at most 2 * 32 blocks. *)
Definition untypeds_fuel : nat := S (Z.to_nat (2 * wordBits)).
Fixpoint create_untypeds_loop (fuel : nat) (root_cnode_cap : cap) (reg : region) (first_untyped_slot : Z) : B bool :=
  match fuel with
  | O => halt_with NoFuel
  | S fuel' =>
      if is_reg_empty reg then ret true
      else
        let* lead := boot_clz (reg.(r_end) -w reg.(r_start)) in
        let size_bits := wordBits - 1 - lead in
        let* align_bits := boot_ctz reg.(r_start) in
        let size_bits := if align_bits <? size_bits then align_bits else size_bits in
        assert (size_bits >=? wordBits / 8) ;;;
        let* ok := provide_untyped_cap root_cnode_cap reg.(r_start) size_bits first_untyped_slot in
        if ok then
          create_untypeds_loop fuel' root_cnode_cap (mk_region (reg.(r_start) +w BIT size_bits) reg.(r_end))
            first_untyped_slot
        else ret false
  end.
Definition create_untypeds_for_region (root_cnode_cap : cap) (reg : region) (first_untyped_slot : Z) : B bool :=
  create_untypeds_loop untypeds_fuel root_cnode_cap reg first_untyped_slot.

Definition create_untypeds (root_cnode_cap : cap) (boot_mem_reuse_reg : region) : B bool :=
  let* before := gets slot_pos_cur in
  let* ok := create_untypeds_for_region root_cnode_cap boot_mem_reuse_reg before in
  if negb ok then ret false
  else
    let* ok := for_step (S (Z.to_nat MAX_NUM_FREEMEM_REG)) 0 MAX_NUM_FREEMEM_REG 1 (fun i =>
      let* b := get in
      let* reg := of_option (freemem b !! Z.to_nat i) in
      modify (upd_freemem (<[Z.to_nat i := REG_EMPTY]> (freemem b))) ;;;
      create_untypeds_for_region root_cnode_cap reg before) in
    if negb ok then ret false
    else
      let* after := gets slot_pos_cur in
      mod_bi (upd_bi_ut_obj_caps (mk_slot_region before after)) ;;;
      ret true.

(** ** Devices *)
Definition dev_reg (paddr n bits : Z) : region := mk_region paddr (paddr + Z.shiftl n bits).
Definition dev_p_regs : list region := [
  dev_reg 0x2c000000 1 PAGE_BITS; (* ETHERNET_BASE_PADDR *)
  dev_reg 0x48002000 2 PAGE_BITS; (* SYSTEM_CONTROL_MODULE_PADDR *)
  dev_reg 0x48004000 2 PAGE_BITS; (* CLOCK_MANAGER_PADDR *)
  dev_reg 0x48040000 2 PAGE_BITS; (* L4_CORE_CONFIG_PADDR *)
  dev_reg 0x48040000 2 PAGE_BITS; (* DISPLAY_SUBSYSTEM_PADDR *)
  dev_reg 0x48056000 2 PAGE_BITS; (* SDMA_PADDR *)
  dev_reg 0x48060000 2 PAGE_BITS; (* I2C3_PADDR *)
  dev_reg 0x48062000 2 PAGE_BITS; (* USBTLL_PADDR *)
  dev_reg 0x48064000 2 PAGE_BITS; (* HS_USB_HOST_PADDR *)
  dev_reg 0x4806a000 2 PAGE_BITS; (* UART1_PADDR *)
  dev_reg 0x4806c000 2 PAGE_BITS; (* UART2_PADDR *)
  dev_reg 0x48070000 2 PAGE_BITS; (* I2C1_PADDR *)
  dev_reg 0x48072000 2 PAGE_BITS; (* I2C2_PADDR *)
  dev_reg 0x48074000 2 PAGE_BITS; (* MCBSP1_PADDR *)
  dev_reg 0x48086000 2 PAGE_BITS; (* GPTIMER10_PADDR *)
  dev_reg 0x4a0f4000 2 PAGE_BITS; (* MAILBOX_PADDR *)
  dev_reg 0x48096000 2 PAGE_BITS; (* MCBSP5_PADDR *)
  dev_reg 0x48098000 2 PAGE_BITS; (* MCSPI1_PADDR *)
  dev_reg 0x4809a000 2 PAGE_BITS; (* MCSPI2_PADDR *)
  dev_reg 0x4809c000 2 PAGE_BITS; (* MMC_SD_SDIO1_PADDR *)
  dev_reg 0x480ab000 2 PAGE_BITS; (* HS_USB_OTG_PADDR *)
  dev_reg 0x480ad000 2 PAGE_BITS; (* MMC_SD_SDIO3_PADDR *)
  dev_reg 0x480b2000 2 PAGE_BITS; (* HDQ_TM_1WIRE_PADDR *)
  dev_reg 0x480b4000 2 PAGE_BITS; (* MMC_SD_SDIO2_PADDR *)
  dev_reg 0x480b6000 2 PAGE_BITS; (* ICR_MPU_PORT_PADDR *)
  dev_reg 0x480b8000 2 PAGE_BITS; (* MCSPI3_PADDR *)
  dev_reg 0x480ba000 2 PAGE_BITS; (* MCSPI4_PADDR *)
  dev_reg 0x480bc000 2 PAGE_BITS; (* CAMERA_ISP_PADDR *)
  dev_reg 0x480c9000 2 PAGE_BITS; (* SR1_PADDR *)
  dev_reg 0x480cb000 2 PAGE_BITS; (* SR2_PADDR *)
  dev_reg 0x480cd000 2 PAGE_BITS; (* ICR_MODEM_PORT_PADDR *)
  dev_reg 0x48300000 2 PAGE_BITS; (* L4_WAKEUP_INTERCONNECT_A_PADDR *)
  dev_reg 0x4830a000 2 PAGE_BITS; (* CONTROL_MODULE_ID_CODE_PADDR *)
  dev_reg 0x4830c000 2 PAGE_BITS; (* L4_WAKEUP_INTERCONNECT_B_PADDR *)
  dev_reg 0x48306000 2 PAGE_BITS; (* PWR_AND_RST_MANAGER_PADDR *)
  dev_reg 0x4a310000 2 PAGE_BITS; (* GPIO1_PADDR *)
  dev_reg 0x48314000 2 PAGE_BITS; (* WDT2_PADDR *)
  dev_reg 0x4a318000 2 PAGE_BITS; (* GPTIMER1_PADDR *)
  dev_reg 0x48320000 2 PAGE_BITS; (* TIMER32K_PADDR *)
  dev_reg 0x48328000 2 PAGE_BITS; (* L4_WAKEUP_CONFIG_PADDR *)
  dev_reg 0x49000000 2 PAGE_BITS; (* L4_PER_CONFIG_PADDR *)
  dev_reg 0x48020000 2 PAGE_BITS; (* UART3_PADDR *)
  dev_reg 0x49022000 2 PAGE_BITS; (* MCBSP2_PADDR *)
  dev_reg 0x49024000 2 PAGE_BITS; (* MCBSP3_PADDR *)
  dev_reg 0x49026000 2 PAGE_BITS; (* MCBSP4_PADDR *)
  dev_reg 0x49028000 2 PAGE_BITS; (* MCBSP2_SIDETONE_PADDR *)
  dev_reg 0x4902a000 2 PAGE_BITS; (* MCBSP3_SIDETONE_PADDR *)
  dev_reg 0x49030000 2 PAGE_BITS; (* WDT3_PADDR *)
  dev_reg 0x48032000 2 PAGE_BITS; (* GPTIMER2_PADDR *)
  dev_reg 0x48034000 2 PAGE_BITS; (* GPTIMER3_PADDR *)
  dev_reg 0x48036000 2 PAGE_BITS; (* GPTIMER4_PADDR *)
  dev_reg 0x40138000 2 PAGE_BITS; (* GPTIMER5_PADDR *)
  dev_reg 0x4013a000 2 PAGE_BITS; (* GPTIMER6_PADDR *)
  dev_reg 0x4013c000 2 PAGE_BITS; (* GPTIMER7_PADDR *)
  dev_reg 0x4013e000 2 PAGE_BITS; (* GPTIMER8_PADDR *)
  dev_reg 0x4803e000 2 PAGE_BITS; (* GPTIMER9_PADDR *)
  dev_reg 0x4806e000 2 PAGE_BITS; (* UART4_PADDR *)
  dev_reg 0x48055000 2 PAGE_BITS; (* GPIO2_PADDR *)
  dev_reg 0x48057000 2 PAGE_BITS; (* GPIO3_PADDR *)
  dev_reg 0x48059000 2 PAGE_BITS; (* GPIO4_PADDR *)
  dev_reg 0x4805b000 2 PAGE_BITS; (* GPIO5_PADDR *)
  dev_reg 0x4805d000 2 PAGE_BITS; (* GPIO6_PADDR *)
  dev_reg 0x50000000 16 PAGE_BITS; (* SGX_PADDR *)
  dev_reg 0x54019000 2 PAGE_BITS; (* EMU_TPIU_PADDR *)
  dev_reg 0x5401b000 2 PAGE_BITS; (* EMU_ETB_PADDR *)
  dev_reg 0x5401d000 2 PAGE_BITS; (* EMU_DAPCTL_PADDR *)
  dev_reg 0x5401f000 1 PAGE_BITS; (* EMU_SDTI_L4_INTERCONNECT_PADDR *)
  dev_reg 0x54500000 1 PAGE_BITS; (* EMU_SDTI_CONFIG_PADDR *)
  dev_reg 0x54600000 1 20; (* EMU_SDTI_WINDOW_PADDR *)
  dev_reg 0x54706000 4 PAGE_BITS; (* EMU_PWR_AND_RST_MANAGER_PADDR *)
  dev_reg 0x54710000 2 PAGE_BITS; (* EMU_GPIO1_PADDR *)
  dev_reg 0x54718000 2 PAGE_BITS; (* EMU_GPTIMER1_PADDR *)
  dev_reg 0x54720000 2 PAGE_BITS; (* EMU_32KTIMER_PADDR *)
  dev_reg 0x54728000 3 PAGE_BITS; (* EMU_L4_WAKEUP_CONFIG_PADDR *)
  dev_reg 0x5c000000 48 20; (* IVA_22_PADDR *)
  dev_reg 0x68000000 16 20] (* L3_CONTROL_PADDR *).

(** The frames of one region, which are sections where its ends allow *)
Definition create_device_frames_region (root_cnode_cap : cap) (i : Z) (p_reg : region) : B bool :=
  let dev_reg := paddr_to_pptr_reg p_reg in
  let large := IS_ALIGNED dev_reg.(r_start) ARMSectionBits && IS_ALIGNED dev_reg.(r_end) ARMSectionBits in
  let bits := if large then ARMSectionBits else ARMSmallPageBits in
  let* before := gets slot_pos_cur in
  let* ok := for_step (step_fuel dev_reg.(r_start) dev_reg.(r_end) (BIT bits)) dev_reg.(r_start) dev_reg.(r_end)
    (BIT bits) (fun f => provide_cap root_cnode_cap (create_it_frame_cap f 0 asidInvalid large)) in
  if negb ok then ret false
  else
    let* after := gets slot_pos_cur in
    mod_bi (fun f => upd_bi_dev_reg_list (<[i := mk_bi_dev_reg (addrFromPPtr dev_reg.(r_start)) bits
      (mk_slot_region before after)]> (bi_dev_reg_list f)) f) ;;;
    ret true.

Definition create_device_frames (root_cnode_cap : cap) : B bool :=
  mod_bi (upd_bi_num_dev_regs (Z.of_nat (length dev_p_regs))) ;;;
  let* n := gets (fun b => bi_num_dev_regs (bi_frame b)) in
  when (n >? CONFIG_MAX_NUM_BOOTINFO_DEVICE_REGIONS)
    (mod_bi (upd_bi_num_dev_regs CONFIG_MAX_NUM_BOOTINFO_DEVICE_REGIONS)) ;;;
  let* n := gets (fun b => bi_num_dev_regs (bi_frame b)) in
  for_step (S (Z.to_nat n)) 0 n 1 (fun i =>
    let* p_reg := of_option (dev_p_regs !! Z.to_nat i) in
    create_device_frames_region root_cnode_cap i p_reg).

Definition bi_finalise : B unit :=
  let* b := get in
  mod_bi (upd_bi_null_caps (mk_slot_region (slot_pos_cur b) (slot_pos_max b))).

(** ** The kernel's own mappings (src/arch/arm/kernel/vspace.c) *)
Definition map_kernel_frame (im : image) (paddr vaddr vm_rights attributes : Z) : K unit :=
  let idx := (vaddr &w MASK ARMSectionBits) >>w ARMSmallPageBits in
  assert (vaddr >=? PPTR_TOP) ;;;
  let* ap := APFromVMRights vm_rights in
  write_word (word_at im.(armKSGlobalPT) idx)
    (pte_pte_small_new paddr 0 0 0 0 ap (bool_word (vm_attributes_get_armPageCacheable attributes)) 1 false).

Definition vm_attributes_new (armExecuteNever armParityEnabled armPageCacheable : bool) : Z :=
  put 1 (bool_word armExecuteNever) 2 |w put 1 (bool_word armParityEnabled) 1 |w put 1 (bool_word armPageCacheable) 0.

Definition ARM_MP_PADDR : Z := 0x48240000.
Definition ARM_MP_PPTR1 : Z := 0xfff04000.
Definition ARM_MP_PPTR2 : Z := 0xfff05000.
Definition L2CC_L2C310_PADDR : Z := 0x48242000.
Definition L2CC_L2C310_PPTR : Z := 0xfff02000.
Definition map_kernel_devices (im : image) : K unit :=
  map_kernel_frame im ARM_MP_PADDR ARM_MP_PPTR1 VMKernelOnly (vm_attributes_new true false false) ;;;
  map_kernel_frame im (ARM_MP_PADDR +w BIT PAGE_BITS) ARM_MP_PPTR2 VMKernelOnly (vm_attributes_new true false false) ;;;
  map_kernel_frame im L2CC_L2C310_PADDR L2CC_L2C310_PPTR VMKernelOnly (vm_attributes_new true false false).

(** The entry of a section or, with [size] 1, of a supersection of the kernel *)
Definition kernel_section (phys size : Z) : Z := pde_pde_section_new phys size 0 0 0 0 1 true 0 false 1 1.

(** The two loops have a fixed number of rounds: [n] supersections and 15 sections. *)
Definition map_kernel_window (im : image) : K unit :=
  let* pd := gets armKSGlobalPD in
  let first := kernelBase >>w ARMSectionBits in
  let n := (BIT PD_BITS - SECTIONS_PER_SUPER_SECTION - first) / SECTIONS_PER_SUPER_SECTION in
  for_upto (Z.to_nat n) 0 (fun k =>
    for_upto (Z.to_nat SECTIONS_PER_SUPER_SECTION) (first + k * SECTIONS_PER_SUPER_SECTION) (fun idx2 =>
      write_word (word_at pd idx2) (kernel_section (physBase +w wshl k ARMSuperSectionBits) 1))) ;;;
  let idx := first + n * SECTIONS_PER_SUPER_SECTION in
  let phys := physBase +w wshl n ARMSuperSectionBits in
  for_upto (Z.to_nat (BIT PD_BITS - 1 - idx)) 0 (fun k =>
    write_word (word_at pd (idx + k)) (kernel_section (phys +w wshl k ARMSectionBits) 0)) ;;;
  assert ((phys +w wshl (BIT PD_BITS - 1 - idx) ARMSectionBits) =? PADDR_TOP) ;;;
  write_word (word_at pd (BIT PD_BITS - 1)) (pde_pde_coarse_new (addrFromPPtr im.(armKSGlobalPT)) true 0) ;;;
  memzero im.(armKSGlobalPT) (wshl 1 PT_SIZE_BITS) ;;;
  map_kernel_frame im (addrFromPPtr im.(arm_vector_table)) PPTR_VECTOR_TABLE VMKernelOnly (vm_attributes_new false true true) ;;;
  map_kernel_frame im (addrFromPPtr im.(globals_frame_at)) PPTR_GLOBALS_PAGE VMReadOnly (vm_attributes_new true true true) ;;;
  map_kernel_frame im (addrFromPPtr im.(arm_kernel_stack)) PPTR_KERNEL_STACK VMKernelOnly (vm_attributes_new true true true) ;;;
  map_kernel_devices im.

(** ** The whole

    [None] where try_init_kernel returns false. The steps that only program the
    processor's caches and the devices, init_plat and the cleaning of the caches,
    are left out; of init_cpu the page directory is set. *)
Definition or_fail {A} (ok : bool) (k : B (option A)) : B (option A) := if ok then k else ret None.

Definition try_init_kernel (im : image) (ui_p_reg_start ui_p_reg_end pv_offset v_entry : Z) : B (option unit) :=
  let ui_reg := paddr_to_pptr_reg (mk_region ui_p_reg_start ui_p_reg_end) in
  let ui_v_start := ui_p_reg_start -w pv_offset in
  let ipcbuf_vptr := ui_p_reg_end -w pv_offset in
  let bi_frame_vptr := ipcbuf_vptr +w BIT PAGE_BITS in
  let it_v_reg := mk_region ui_v_start (bi_frame_vptr +w BIT PAGE_BITS) in
  lift (map_kernel_window im) ;;;
  let* b := get in
  lift (setCurrentPD (addrFromPPtr (armKSGlobalPD (bs_kernel b)))) ;;;
  init_freemem im ui_reg ;;;
  let* root_cnode_cap := create_root_cnode in
  or_fail (root_cnode_cap != Cap_null) (
    create_domain_cap root_cnode_cap ;;;
    let* ok := create_irq_cnode in
    or_fail ok (
      init_irqs root_cnode_cap ;;;
      let* bi_frame_pptr := allocate_bi_frame 0 1 ipcbuf_vptr in
      or_fail (negb (bi_frame_pptr =? 0)) (
        let* it_pd_cap := create_it_address_space root_cnode_cap it_v_reg in
        or_fail (it_pd_cap != Cap_null) (
          create_bi_frame_cap root_cnode_cap it_pd_cap bi_frame_pptr bi_frame_vptr ;;;
          let* ipcbuf_cap := create_ipcbuf_frame root_cnode_cap it_pd_cap ipcbuf_vptr in
          or_fail (ipcbuf_cap != Cap_null) (
            let* frames := create_frames_of_region root_cnode_cap it_pd_cap ui_reg true pv_offset in
            match frames with
            | None => ret None
            | Some slots =>
                mod_bi (upd_bi_ui_frame_caps slots) ;;;
                let* it_ap_cap := create_it_asid_pool root_cnode_cap in
                or_fail (it_ap_cap != Cap_null) (
                  write_it_asid_pool it_ap_cap it_pd_cap ;;;
                  let* ok := create_idle_thread im in
                  or_fail ok (
                    let* ok := create_initial_thread root_cnode_cap it_pd_cap v_entry bi_frame_vptr ipcbuf_vptr ipcbuf_cap in
                    or_fail ok (
                      let* ok := create_untypeds root_cnode_cap (mk_region kernelBase im.(ki_boot_end)) in
                      or_fail ok (
                        let* ok := create_device_frames root_cnode_cap in
                        or_fail ok (
                          mod_bi (upd_bi_sh_frame_caps S_REG_EMPTY) ;;;
                          bi_finalise ;;;
                          ret (Some tt))))))
            end))))).

Definition init_kernel (im : image) (ui_p_reg_start ui_p_reg_end pv_offset v_entry : Z) : B unit :=
  let* result := try_init_kernel im ui_p_reg_start ui_p_reg_end pv_offset v_entry in
  match result with Some _ => ret tt | None => fail end.
