(* ===== verification/BootSpec.v ===== *)
(** * Initialisation: theorems

    Free memory and its allocation, the first division of the memory into regions,
    and the loops that give the initial thread capabilities to untyped memory and to
    device frames. *)
From stdpp Require Import base list gmap.
From Stdlib Require Import ZArith Lia.
From S2P Require Import Prelude.
From S2P Require Import Words.
From S2P Require Import Structures.
From S2P Require Import KernelState.
From S2P Require Import VSpace.
From S2P Require Import Scheduler.
From S2P Require Import CapOps.
From S2P Require Import MDB.
From S2P Require Import Untyped.
From S2P Require Import System.
From S2P Require Import CapSpec.
From S2P Require Import CSpaceSpec.
From S2P Require Import Boot.


(** ** Rounding *)
Lemma pow_word n : 0 <= n < 32 -> 0 < 2 ^ n <= 2 ^ 31.
Proof. intros H. split; [apply Z.pow_pos_nonneg; lia|apply Z.pow_le_mono_r; lia]. Qed.

Lemma ROUND_DOWN_eq b n : 0 <= n < 32 -> is_word b -> ROUND_DOWN b n = 2 ^ n * (b / 2 ^ n).
Proof.
  intros Hn Hb. pose proof (pow_word n Hn). unfold ROUND_DOWN, wshl, wshr, wrap. unfold is_word in Hb.
  rewrite Z.shiftr_div_pow2, Z.shiftl_mul_pow2 by lia. rewrite (Z.mul_comm _ (2 ^ n)).
  apply Z.mod_small. pose proof (Z.mul_div_le b (2 ^ n) ltac:(lia)). pose proof (Z.div_pos b (2 ^ n) ltac:(lia) ltac:(lia)). nia.
Qed.

Lemma ROUND_UP_eq a n : 0 <= n < 32 -> 0 < a < 2 ^ 32 -> ROUND_UP a n = (2 ^ n * ((a - 1) / 2 ^ n + 1)) mod 2 ^ 32.
Proof.
  intros Hn Ha. pose proof (pow_word n Hn). unfold ROUND_UP, wshl, wshr, wadd, wsub, wrap.
  rewrite (Z.mod_small (a - 1)) by lia. rewrite Z.shiftr_div_pow2, Z.shiftl_mul_pow2 by lia.
  assert (0 <= (a - 1) / 2 ^ n) by (apply Z.div_pos; lia).
  rewrite (Z.mul_comm _ (2 ^ n)), Z.mul_mod_idemp_r by lia. done.
Qed.

(** The block of [2 ^ n] bytes from [p] on is aligned and lies in the region. *)
Definition block_in (n p : Z) (r : region) : Prop := (2 ^ n | p) /\ r.(r_start) <= p /\ p + 2 ^ n <= r.(r_end).
Definition region_ok (r : region) : Prop := r.(r_start) = r.(r_end) \/ 0 < r.(r_start) <= r.(r_end) /\ r.(r_end) < 2 ^ 32.

Lemma fits_block n r : 0 <= n < 32 -> region_ok r -> fits (place_at n r) r = true ->
  block_in n (place_at n r).(r_start) r /\ (place_at n r).(r_end) = (place_at n r).(r_start) + 2 ^ n /\
  0 < (place_at n r).(r_start).
Proof.
  intros Hn Hr Hf. pose proof (pow_word n Hn) as Hp. unfold fits in Hf.
  rewrite !andb_true_iff, Z.gtb_lt, Z.geb_le, Z.leb_le in Hf. destruct Hf as [[H1 H2] H3].
  destruct Hr as [E|Hr]; [lia|]. unfold block_in, place_at in *.
  destruct (_ <? _) eqn:Eb; cbn [r_start r_end] in *; clear Eb.
  - rewrite ROUND_UP_eq in * by lia. unfold wadd, wrap in *. rewrite BIT_pow in * by done.
    set (x := 2 ^ n * ((r_start r - 1) / 2 ^ n + 1)) in *.
    assert (0 < x) as Hx by (pose proof (Z.div_pos (r_start r - 1) (2 ^ n) ltac:(lia) ltac:(lia)); unfold x; nia).
    assert (x <= r_start r - 1 + 2 ^ n) as Hx' by (pose proof (Z.mul_div_le (r_start r - 1) (2 ^ n) ltac:(lia)); unfold x; lia).
    assert (x < 2 ^ 32) as Hxw.
    { destruct (decide (x < 2 ^ 32)); [done|]. exfalso.
      assert (x mod 2 ^ 32 = x - 2 ^ 32) as Em by (rewrite <- (Z.mod_small (x - 2 ^ 32) (2 ^ 32)) by lia; rewrite <- (Z_mod_plus_full (x - 2^32) 1); f_equal; lia).
      assert ((2 ^ n | x - 2 ^ 32)) as [q Hq].
      { apply Z.divide_sub_r; [by exists ((r_start r - 1) / 2 ^ n + 1); unfold x; lia|]. exists (2 ^ (32 - n)). rewrite <- Z.pow_add_r by lia. f_equal. lia. }
      rewrite Em in *. nia. }
    rewrite (Z.mod_small x) in * by lia.
    assert (x + 2 ^ n < 2 ^ 32) as Hs.
    { destruct (decide (x + 2 ^ n < 2 ^ 32)); [done|]. exfalso.
      assert ((x + 2 ^ n) mod 2 ^ 32 = x + 2 ^ n - 2 ^ 32) as Em by (rewrite <- (Z.mod_small (x + 2 ^ n - 2 ^ 32) (2 ^ 32)) by lia; rewrite <- (Z_mod_plus_full (x + 2 ^ n - 2^32) 1); f_equal; lia).
      lia. }
    rewrite Z.mod_small in * by lia. split_and!; try lia. by exists ((r_start r - 1) / 2 ^ n + 1); unfold x; lia.
  - rewrite ROUND_DOWN_eq in * by (unfold is_word; lia). unfold wsub, wrap in *. rewrite BIT_pow in * by done.
    set (x := 2 ^ n * (r_end r / 2 ^ n)) in *.
    assert (0 <= x <= r_end r) as Hx.
    { pose proof (Z.mul_div_le (r_end r) (2 ^ n) ltac:(lia)). pose proof (Z.div_pos (r_end r) (2 ^ n) ltac:(lia) ltac:(lia)). unfold x. nia. }
    assert (2 ^ n <= x) as Hx'.
    { destruct (decide (2 ^ n <= x)); [done|]. exfalso.
      assert ((x - 2 ^ n) mod 2 ^ 32 = x - 2 ^ n + 2 ^ 32) as Em by (rewrite <- (Z.mod_small (x - 2 ^ n + 2 ^ 32) (2 ^ 32)) by lia; rewrite <- (Z_mod_plus_full (x - 2 ^ n) 1); f_equal; lia).
      lia. }
    rewrite Z.mod_small in * by lia. split_and!; try lia. exists (r_end r / 2 ^ n - 1). unfold x. lia.
Qed.

Lemma block_fits n p r : 0 <= n < 32 -> region_ok r -> block_in n p r -> fits (place_at n r) r = true.
Proof.
  intros Hn Hr ([q ->] & Hlo & Hhi). pose proof (pow_word n Hn) as Hp.
  destruct Hr as [E|Hr]; [lia|]. unfold fits. rewrite !andb_true_iff, Z.gtb_lt, Z.geb_le, Z.leb_le.
  unfold place_at. destruct (_ <? _); cbn [r_start r_end].
  - rewrite ROUND_UP_eq by lia. unfold wadd, wrap. rewrite BIT_pow by done.
    assert ((r_start r - 1) / 2 ^ n < q) by (apply Z.div_lt_upper_bound; lia).
    pose proof (Z.div_pos (r_start r - 1) (2 ^ n) ltac:(lia) ltac:(lia)).
    pose proof (Z.mul_succ_div_gt (r_start r - 1) (2 ^ n) ltac:(lia)).
    set (y := (r_start r - 1) / 2 ^ n) in *.
    assert (2 ^ n * (y + 1) <= q * 2 ^ n) by nia.
    rewrite (Z.mod_small (2 ^ n * (y + 1))) by nia. rewrite Z.mod_small by nia. lia.
  - rewrite ROUND_DOWN_eq by (unfold is_word; lia). unfold wsub, wrap. rewrite BIT_pow by done.
    assert (q + 1 <= r_end r / 2 ^ n) by (apply Z.div_le_lower_bound; lia).
    pose proof (Z.mul_div_le (r_end r) (2 ^ n) ltac:(lia)). set (y := r_end r / 2 ^ n) in *.
    assert ((q + 1) * 2 ^ n <= 2 ^ n * y) by nia.
    rewrite Z.mod_small by nia. lia.
Qed.


(** ** The free memory *)
Definition in_reg (r : region) (x : Z) : Prop := r.(r_start) <= x < r.(r_end).
Definition free (l : list region) (x : Z) : Prop := exists r, r ∈ l /\ in_reg r x.
Definition disjoint_regions (l : list region) : Prop :=
  forall i j r r' x, l !! i = Some r -> l !! j = Some r' -> in_reg r x -> in_reg r' x -> i = j.
(** At most two regions, disjoint *)
Record freemem_ok (l : list region) : Prop := {
  fm_regions : forall r, r ∈ l -> region_ok r;
  fm_disjoint : disjoint_regions l }.

(** Empty entries hold nothing. *)
Lemma empty_in_reg r x : is_reg_empty r = true -> ~ in_reg r x.
Proof. unfold is_reg_empty, in_reg. rewrite Z.eqb_eq. lia. Qed.
Lemma empty_ok r : is_reg_empty r = true -> region_ok r.
Proof. unfold is_reg_empty. rewrite Z.eqb_eq. by left. Qed.

Lemma freemem_ok_insert l i r :
  freemem_ok l -> region_ok r -> (forall x, in_reg r x -> forall j r', j <> i -> l !! j = Some r' -> ~ in_reg r' x) ->
  freemem_ok (<[i := r]> l).
Proof.
  intros [Hr Hd] Hok Hx. split.
  - intros r' Hin. apply list_elem_of_lookup_1 in Hin as [j Hj]. apply list_lookup_insert_Some in Hj as [(-> & -> & _)|(Hne & Hj)]; [done|].
    by eapply Hr, list_elem_of_lookup_2.
  - intros j k r1 r2 x Hj Hk H1 H2.
    apply list_lookup_insert_Some in Hj as [(-> & -> & _)|(Hne & Hj)];
      apply list_lookup_insert_Some in Hk as [(-> & -> & _)|(Hne' & Hk)]; try done.
    + exfalso. by eapply (Hx x H1 k).
    + exfalso. by eapply (Hx x H2 j).
    + by eapply Hd.
Qed.

(** Inserting a region that meets no other *)
Lemma insert_free_spec reg l l' : insert_free reg l = Some l' ->
  exists i e, l !! i = Some e /\ is_reg_empty e = true /\ l' = <[i := reg]> l.
Proof.
  revert l'. induction l as [|e l IH]; intros l' H; [done|]. cbn in H. destruct (is_reg_empty e) eqn:Ee.
  - injection H as <-. by exists O, e.
  - apply fmap_Some in H as (l1 & H & ->). destruct (IH _ H) as (i & e' & Hi & He' & ->). by exists (S i), e'.
Qed.
Lemma insert_free_None reg l : insert_free reg l = None -> forall r, r ∈ l -> is_reg_empty r = false.
Proof.
  induction l as [|e l IH]; intros H r Hr; [by apply elem_of_nil in Hr|]. cbn in H. destruct (is_reg_empty e) eqn:Ee; [done|].
  destruct (insert_free reg l); [done|]. apply elem_of_cons in Hr as [->|Hr]; [done|by apply IH].
Qed.

Lemma free_insert l i e reg x : l !! i = Some e -> is_reg_empty e = true ->
  free (<[i := reg]> l) x <-> free l x \/ in_reg reg x.
Proof.
  intros Hi He. split.
  - intros (r & Hr & Hx). apply list_elem_of_lookup_1 in Hr as [j Hj].
    apply list_lookup_insert_Some in Hj as [(-> & -> & _)|(_ & Hj)]; [by right|]. left. exists r. split; [by eapply list_elem_of_lookup_2|done].
  - intros [(r & Hr & Hx)|Hx].
    + apply list_elem_of_lookup_1 in Hr as [j Hj]. destruct (decide (j = i)) as [->|Hne].
      { rewrite Hi in Hj. injection Hj as ->. exfalso. by eapply empty_in_reg. }
      exists r. split; [|done]. apply (list_elem_of_lookup_2 _ j). by rewrite list_lookup_insert_ne.
    + exists reg. split; [|done]. apply (list_elem_of_lookup_2 _ i). rewrite list_lookup_insert_eq; [done|by eapply lookup_lt_Some].
Qed.

(** insert_region: the region joins the free memory, unless there is no entry for it *)
Lemma wp_insert_region b reg (Q : bool -> bstate -> Prop) :
  freemem_ok (freemem b) -> region_ok reg -> reg.(r_start) <= reg.(r_end) -> (forall x, in_reg reg x -> ~ free (freemem b) x) ->
  (forall ok l, freemem_ok l -> length l = length (freemem b) ->
    (forall x, free l x <-> free (freemem b) x \/ ok = true /\ in_reg reg x) ->
    (ok = false -> forall r, r ∈ freemem b -> is_reg_empty r = false) ->
    l = freemem b \/ (exists i e, freemem b !! i = Some e /\ is_reg_empty e = true /\ l = <[i := reg]> (freemem b)) ->
    Q ok (upd_freemem l b)) ->
  wp (insert_region reg) Q b.
Proof.
  intros Hok Hreg Hle Hdis HQ. unfold insert_region. apply wp_bind, wp_assert; [by apply Z.leb_le|].
  assert (upd_freemem (freemem b) b = b) as Eb by (by destruct b).
  destruct (is_reg_empty reg) eqn:Ee.
  { apply wp_ret. rewrite <- Eb. apply HQ; [done|done| |done|by left]. intros x. pose proof (empty_in_reg reg x Ee). tauto. }
  apply wp_bind, wp_get. destruct (insert_free reg (freemem b)) as [l|] eqn:El.
  - apply wp_bind, wp_modify, wp_ret. destruct (insert_free_spec _ _ _ El) as (i & e & Hi & He & ->).
    apply HQ; [|by rewrite length_insert| |done|right; by exists i, e].
    + apply freemem_ok_insert; [done|done|]. intros x Hx j r' _ Hj Hin. apply (Hdis x Hx). exists r'. split; [by eapply list_elem_of_lookup_2|done].
    + intros x. rewrite (free_insert _ _ _ _ _ Hi He). tauto.
  - apply wp_ret. rewrite <- Eb at 1. apply HQ; [done|done| | |by left].
    + intros x. split; [tauto|]. intros [?|[? _]]; done.
    + intros _. by eapply insert_free_None.
Qed.

(** ** alloc_region *)

(** What the search has found in [l] *)
Definition found (n : Z) (l : list region) (best : placement) : Prop := exists r,
  l !! best.(pl_index) = Some r /\ fits (place_at n r) r = true /\ best.(pl_reg) = place_at n r /\
  (best.(pl_small), best.(pl_large)) = rests (place_at n r) r.

Lemma search_spec n l : forall pre best,
  is_reg_empty best.(pl_reg) = true /\ (forall r, r ∈ pre -> fits (place_at n r) r = false) \/ found n (pre ++ l) best ->
  let best' := search n (length pre) l best in
  is_reg_empty best'.(pl_reg) = true /\ (forall r, r ∈ pre ++ l -> fits (place_at n r) r = false) \/ found n (pre ++ l) best'.
Proof.
  induction l as [|r l IH]; intros pre best H; cbn [search].
  { rewrite app_nil_r in *. exact H. }
  specialize (IH (pre ++ [r]) (consider n (length pre) r best)).
  rewrite length_app, Nat.add_1_r, <- app_assoc in IH. apply IH. clear IH.
  unfold consider. destruct (fits (place_at n r) r) eqn:Ef.
  - destruct (rests (place_at n r) r) as [small large] eqn:Er.
    assert (found n (pre ++ [r] ++ l) (mk_placement (place_at n r) small large (length pre))) as Hnew.
    { exists r. cbn [pl_index pl_reg pl_small pl_large]. split_and!; try done. by rewrite lookup_app_r, Nat.sub_diag by done. }
    destruct (is_reg_empty (pl_reg best)) eqn:Ee; [by right|].
    destruct (_ || _); [by right|]. right. destruct H as [[H _]|H]; [done|exact H].
  - destruct H as [[He H]|H]; [|right; exact H]. left. split; [done|]. intros r2 Hr2. apply elem_of_app in Hr2 as [Hr2|Hr2%list_elem_of_singleton]; [by apply H|by subst].
Qed.

(** A region without an aligned block *)
Definition no_block (n : Z) (l : list region) : Prop := forall r p, r ∈ l -> ~ block_in n p r.


Lemma rests_spec n r small large :
  block_in n (place_at n r).(r_start) r -> (place_at n r).(r_end) = (place_at n r).(r_start) + 2 ^ n ->
  0 < (place_at n r).(r_start) -> 0 <= n -> region_ok r ->
  (small, large) = rests (place_at n r) r ->
  (region_ok small /\ small.(r_start) <= small.(r_end)) /\ (region_ok large /\ large.(r_start) <= large.(r_end)) /\
  (forall x, in_reg small x \/ in_reg large x <-> in_reg r x /\ ~ in_reg (place_at n r) x) /\
  (forall x, in_reg small x -> ~ in_reg large x).
Proof.
  intros (_ & H1 & H2) He H0 Hn Hr. pose proof (Z.pow_pos_nonneg 2 n ltac:(lia) Hn). unfold rests, region_ok, in_reg in *.
  destruct (_ <? _); intros [= -> ->]; cbn [r_start r_end]; split_and!; try lia.
Qed.

(** Taking a region out *)
Lemma freemem_take (l : list region) i r : freemem_ok l -> l !! i = Some r ->
  freemem_ok (<[i := REG_EMPTY]> l) /\ forall x, free (<[i := REG_EMPTY]> l) x <-> free l x /\ ~ in_reg r x.
Proof.
  intros Hok Hi. split.
  { apply freemem_ok_insert; [done|by left|]. intros x Hx. exfalso. revert Hx. by apply empty_in_reg. }
  intros x. split.
  - intros (r' & Hr' & Hx). apply list_elem_of_lookup_1 in Hr' as [j Hj].
    apply list_lookup_insert_Some in Hj as [(_ & <- & _)|(Hne & Hj)]; [exfalso; revert Hx; by apply empty_in_reg|].
    split; [exists r'; split; [by eapply list_elem_of_lookup_2|done]|]. intros Hx'. apply Hne.
    by eapply (fm_disjoint _ Hok _ _ _ _ x Hi Hj).
  - intros [(r' & Hr' & Hx) Hnx]. apply list_elem_of_lookup_1 in Hr' as [j Hj]. exists r'. split; [|done].
    apply (list_elem_of_lookup_2 _ j). rewrite list_lookup_insert_ne; [done|].
    intros E. rewrite <- E, Hi in Hj. injection Hj as <-. done.
Qed.

(** After one insertion an entry that was unused, or the one taken, still is. *)
Lemma unused_left (l l2 : list region) i r reg e x :
  l !! i = Some r -> in_reg r x -> e ∈ l -> is_reg_empty e = true ->
  l2 = <[i := REG_EMPTY]> l \/
    (exists k e', <[i := REG_EMPTY]> l !! k = Some e' /\ is_reg_empty e' = true /\ l2 = <[k := reg]> (<[i := REG_EMPTY]> l)) ->
  exists e', e' ∈ l2 /\ is_reg_empty e' = true.
Proof.
  intros Hi Hx He Ee Hl2. apply list_elem_of_lookup_1 in He as [j Hj].
  assert (j <> i) as Hne.
  { intros ->. rewrite Hi in Hj. injection Hj as ->. by apply (empty_in_reg _ x) in Ee. }
  assert (<[i := REG_EMPTY]> l !! j = Some e) as Hj1 by (by rewrite list_lookup_insert_ne).
  assert (<[i := REG_EMPTY]> l !! i = Some REG_EMPTY) as Hi1 by (apply list_lookup_insert_eq; by eapply lookup_lt_Some).
  destruct Hl2 as [->|(k & e' & _ & _ & ->)]; [exists e; split; [by eapply list_elem_of_lookup_2|done]|].
  destruct (decide (k = j)) as [->|].
  - exists REG_EMPTY. split; [|done]. eapply list_elem_of_lookup_2. by rewrite list_lookup_insert_ne.
  - exists e. split; [|done]. eapply list_elem_of_lookup_2. by rewrite list_lookup_insert_ne.
Qed.

Lemma wp_alloc_region b n (Q : Z -> bstate -> Prop) :
  freemem_ok (freemem b) -> 0 <= n < 32 ->
  (no_block n (freemem b) -> Q 0 b) ->
  (forall p r l, r ∈ freemem b -> block_in n p r -> 0 < p -> freemem_ok l -> length l = length (freemem b) ->
    (forall x, free l x -> free (freemem b) x /\ ~ p <= x < p + 2 ^ n) ->
    (forall x, free (freemem b) x -> ~ p <= x < p + 2 ^ n -> free l x \/
       in_reg r x /\ forall e, e ∈ freemem b -> is_reg_empty e = false) ->
    Q p (upd_freemem l b)) ->
  wp (alloc_region n) Q b.
Proof.
  intros Hok Hn H0 HQ. unfold alloc_region. apply wp_bind, wp_get.
  pose proof (search_spec n (freemem b) [] (mk_placement REG_EMPTY REG_EMPTY REG_EMPTY 0)) as H.
  cbn [length app] in H. set (best := search n 0 (freemem b) _) in *.
  destruct H as [[He Hno]|Hf].
  { left. split; [done|]. by intros r ?%elem_of_nil. }
  { rewrite He. apply wp_ret, H0. intros r p Hr Hb.
    pose proof (block_fits n p r Hn (fm_regions _ Hok r Hr) Hb) as Hf. by rewrite Hno in Hf. }
  destruct Hf as (r & Hi & Hfit & Ep & Er).
  assert (r ∈ freemem b) as Hr by by eapply list_elem_of_lookup_2.
  pose proof (fm_regions _ Hok r Hr) as Hrok. destruct (fits_block n r Hn Hrok Hfit) as (Hb & Hend & Hpos).
  destruct (rests_spec n r _ _ Hb Hend Hpos (proj1 Hn) Hrok Er) as ([Hs Hsle] & [Hl Hlle] & Hrest & Hdis).
  pose proof (Z.pow_pos_nonneg 2 n ltac:(lia) (proj1 Hn)) as Hp2.
  rewrite Ep. replace (is_reg_empty (place_at n r)) with false.
  2: { symmetry. apply Z.eqb_neq. lia. }
  apply wp_bind, wp_modify.
  set (l1 := <[pl_index best := REG_EMPTY]> (freemem b)).
  destruct (freemem_take _ _ _ Hok Hi) as [Hok1 Hf1]. fold l1 in Hok1, Hf1.
  assert (forall x, in_reg r x -> free (freemem b) x) as Hfr by (intros x Hx; by exists r).
  assert (forall x, in_reg (place_at n r) x <-> (place_at n r).(r_start) <= x < (place_at n r).(r_start) + 2 ^ n) as Hblk
    by (intros x; unfold in_reg; lia).
  assert (forall x, in_reg (place_at n r) x -> in_reg r x) as Hsub by (intros x; destruct Hb as (_ & ? & ?); unfold in_reg; lia).
  apply wp_bind, wp_insert_region; [done|done|done| |].
  { intros x Hx [_ Hnr]%Hf1. apply Hnr. apply Hrest. by right. }
  intros ok1 l2 Hok2 Hlen2 Hf2 Hfull1 Hl2. cbn [freemem upd_freemem] in *.
  assert (ok1 = true) as ->.
  { destruct ok1; [done|]. exfalso. specialize (Hfull1 eq_refl REG_EMPTY). cbn in Hfull1.
    enough (REG_EMPTY ∈ l1) as Hin by (by specialize (Hfull1 Hin)).
    apply (list_elem_of_lookup_2 _ (pl_index best)). unfold l1. rewrite list_lookup_insert_eq; [done|by eapply lookup_lt_Some]. }
  apply wp_bind, wp_insert_region; [done|done|done| |].
  { intros x Hx. rewrite Hf2, Hf1. intros [[_ Hnr]|[_ Hl']]; [apply Hnr; apply Hrest; by left|by eapply Hdis]. }
  intros ok2 l3 Hok3 Hlen3 Hf3 Hfull2 _. cbn [freemem upd_freemem] in *. apply wp_ret.
  apply (HQ _ r); try done.
  - rewrite Hlen3, Hlen2. unfold l1. by rewrite length_insert.
  - intros x. rewrite Hf3, Hf2, Hf1, <- Hblk. specialize (Hrest x). specialize (Hfr x). specialize (Hsub x). tauto.
  - intros x Hx Hnb. rewrite Hf3, Hf2, Hf1. rewrite <- Hblk in Hnb. specialize (Hrest x).
    destruct ok2; [left; destruct (decide (in_reg r x)); tauto|].
    destruct (decide (in_reg r x)) as [Hxr|]; [|tauto].
    right. split; [done|]. intros e He. destruct (is_reg_empty e) eqn:Ee; [|done]. exfalso.
    destruct (unused_left _ l2 _ _ _ e x Hi Hxr He Ee Hl2) as (e' & Hin & He').
    specialize (Hfull2 eq_refl _ Hin). by rewrite He' in Hfull2.
Qed.


(** ** init_freemem *)
Definition asid_slot_region : region := mk_region (wshl PD_ASID_SLOT ARMSectionBits) (wshl (PD_ASID_SLOT + 1) ARMSectionBits).

Lemma free_pair r1 r2 x : free [r1; r2] x <-> in_reg r1 x \/ in_reg r2 x.
Proof. unfold free. setoid_rewrite elem_of_cons. setoid_rewrite list_elem_of_singleton. naive_solver. Qed.

Lemma freemem_ok_pair r1 r2 : region_ok r1 -> region_ok r2 -> (forall x, in_reg r1 x -> ~ in_reg r2 x) -> freemem_ok [r1; r2].
Proof.
  intros H1 H2 Hd. split.
  - intros r. rewrite elem_of_cons, list_elem_of_singleton. naive_solver.
  - intros [|[|i]] [|[|j]] r r' x Hi Hj Hx Hx'; simplify_eq/=; try done; exfalso; by eapply Hd.
Qed.

(** A reserved region inside the memory splits it. *)
Lemma insert_region_excluded_inside ms me rs re b :
  ms <= rs -> rs < me -> re <= me ->
  insert_region_excluded (mk_region ms me) (mk_region rs re) b =
    if ms <? rs then
      match insert_free (mk_region ms rs) (freemem b) with
      | Some l => Ret (mk_region re me) (upd_freemem l b)
      | None => Stop Failed
      end
    else Ret (mk_region re me) b.
Proof.
  intros H1 H2 H3. unfold insert_region_excluded. cbn [r_start r_end].
  rewrite (proj2 (Z.ltb_ge rs ms)), Z.gtb_ltb, (proj2 (Z.ltb_lt rs me)) by lia. cbn [r_start r_end].
  rewrite Z.gtb_ltb, (proj2 (Z.ltb_ge me re)) by lia. destruct (Z.ltb_spec ms rs) as [Hlt|]; [|done].
  unfold insert_region, is_reg_empty. cbn [r_start r_end]. rewrite (proj2 (Z.leb_le ms rs)), (proj2 (Z.eqb_neq ms rs)) by lia.
  unfold bind, get, assert, ret, modify. by destruct (insert_free _ _).
Qed.

Lemma init_freemem_run im ui b :
  kernelBase < im.(ki_end) -> im.(ki_end) <= ui.(r_start) -> ui.(r_start) < ui.(r_end) ->
  ui.(r_end) <= asid_slot_region.(r_start) ->
  init_freemem im ui b =
    (let top := mk_region asid_slot_region.(r_end) PPTR_TOP in
     if im.(ki_end) <? ui.(r_start) then
       if ui.(r_end) <? asid_slot_region.(r_start) then Stop Failed
       else Ret tt (upd_freemem [mk_region im.(ki_end) ui.(r_start); top] b)
     else
       if ui.(r_end) <? asid_slot_region.(r_start)
       then Ret tt (upd_freemem [mk_region ui.(r_end) asid_slot_region.(r_start); top] b)
       else Ret tt (upd_freemem [top; REG_EMPTY] b)).
Proof.
  destruct im as [be ke pt vt ks gf it]; destruct ui as [us ue]. cbn [ki_end r_start r_end].
  change (r_start asid_slot_region) with 0xff000000. change (r_end asid_slot_region) with 0xff100000.
  change kernelBase with 0xf0000000. intros H1 H2 H3 H4.
  unfold init_freemem. cbn [ki_end r_start r_end].
  change (wshl PD_ASID_SLOT ARMSectionBits) with 0xff000000. change (wshl (PD_ASID_SLOT + 1) ARMSectionBits) with 0xff100000.
  change kernelBase with 0xf0000000.
  cbn [length avail_p_regs for_upto].
  unfold bind, modify, assert, ret.
  rewrite (proj2 (Z.ltb_lt _ _) H1), (proj2 (Z.leb_le _ _) H2), (proj2 (Z.ltb_lt _ _) H3), (proj2 (Z.leb_le _ _) H4).
  change (4278190080 <? 4279238656) with true. cbn iota beta.
  change (of_option (avail_p_regs !! Z.to_nat 0)) with (@ret bstate region (mk_region 0x80000000 0xa0000000)).
  unfold ret. cbn iota beta. unfold insert_avail.
  change (paddr_to_pptr_reg (mk_region 0x80000000 0xa0000000)) with (mk_region 0xf0000000 0x10000000).
  cbn [r_start r_end]. change (addrFromPPtr 0x10000000 >? PADDR_TOP) with true. cbn iota.
  cbn [r_start r_end]. change (addrFromPPtr 0xf0000000 >? PADDR_TOP) with false. cbn iota.
  change PPTR_TOP with 0xfff00000. unfold bind.
  rewrite insert_region_excluded_inside by lia. change (0xf0000000 <? 0xf0000000) with false. cbn iota.
  rewrite insert_region_excluded_inside by lia. cbn [freemem upd_freemem].
  change (insert_free ?r [REG_EMPTY; REG_EMPTY]) with (Some [r; REG_EMPTY]). cbn iota.
  assert (is_reg_empty (mk_region ke us) = false \/ us <= ke) as Hg by (unfold is_reg_empty; cbn; rewrite Z.eqb_neq; lia).
  assert (is_reg_empty (mk_region ue 4278190080) = false \/ ue = 4278190080) as Hb by (unfold is_reg_empty; cbn; rewrite Z.eqb_neq; lia).
  destruct (Z.ltb_spec ke us) as [Hgap|]; rewrite insert_region_excluded_inside by lia; cbn [freemem upd_freemem insert_free];
    destruct (Z.ltb_spec ue 4278190080) as [Hbelow|].
  all: change (is_reg_empty REG_EMPTY) with true; cbn iota.
  all: unfold insert_region, bind, get, assert, ret, modify.
  all: unfold is_reg_empty in *; cbn [r_start r_end] in *.
  - destruct Hg as [Hg|]; [|lia]. destruct Hb as [Hb|]; [|lia]. do 4 (cbn; unfold is_reg_empty; cbn [r_start r_end]; rewrite ?Hg, ?Hb). done.
  - destruct Hg as [Hg|]; [|lia]. do 4 (cbn; unfold is_reg_empty; cbn [r_start r_end]; rewrite ?Hg). done.
  - destruct Hb as [Hb|]; [|lia]. do 4 (cbn; unfold is_reg_empty; cbn [r_start r_end]; rewrite ?Hb). done.
  - done.
Qed.

(** C12: init_freemem leaves free exactly the kernel window less the three reserved
    regions (the kernel image, the image of the initial thread, the section whose
    entry holds the ASID), as disjoint regions; its two entries do not suffice,
    and it fails, exactly when there is memory between the kernel image and the
    user image and memory between the user image and that section; the failure is an
    assertion, which a build without debugging compiles out. *)
Theorem init_freemem_correct im ui b (Hk : kernelBase < im.(ki_end)) (Ho : im.(ki_end) <= ui.(r_start))
    (Hu : ui.(r_start) < ui.(r_end)) (Ha : ui.(r_end) <= asid_slot_region.(r_start)) :
  let full := (im.(ki_end) <? ui.(r_start)) && (ui.(r_end) <? asid_slot_region.(r_start)) in
  match init_freemem im ui b with
  | Ret _ b' => full = false /\ exists l, b' = upd_freemem l b /\ freemem_ok l /\ length l = 2%nat /\
      forall x, free l x <-> kernelBase <= x < PPTR_TOP /\
        ~ in_reg (mk_region kernelBase im.(ki_end)) x /\ ~ in_reg ui x /\ ~ in_reg asid_slot_region x
  | Stop e => full = true /\ e = Failed
  end.
Proof.
  rewrite init_freemem_run by done. unfold asid_slot_region in *. change (wshl PD_ASID_SLOT ARMSectionBits) with 0xff000000 in *.
  change (wshl (PD_ASID_SLOT + 1) ARMSectionBits) with 0xff100000. change kernelBase with 0xf0000000 in *. change PPTR_TOP with 0xfff00000.
  destruct im as [be ke pt vt ks gf it]; destruct ui as [us ue]. cbn [ki_end r_start r_end] in *. cbv zeta.
  assert (forall r1 r2, region_ok r1 -> region_ok r2 -> r_end r1 <= r_start r2 \/ r_start r2 >= r_end r2 ->
    freemem_ok [r1; r2] /\ forall x, free [r1; r2] x <-> in_reg r1 x \/ in_reg r2 x) as Hpair.
  { intros r1 r2 H1 H2 Hd. split; [apply freemem_ok_pair; try done; unfold in_reg; intros x; lia|]. intros x. apply free_pair. }
  destruct (Z.ltb_spec ke us), (Z.ltb_spec ue 0xff000000); cbn [andb]; try done; (split; [done|]); eexists; (split; [done|]);
    match goal with |- freemem_ok [?r1; ?r2] /\ _ => destruct (Hpair r1 r2) as [Hok Hfree];
      [unfold region_ok; cbn; lia|unfold region_ok; cbn; lia|cbn; lia|] end;
    (split; [exact Hok|]); (split; [done|]); intros x; rewrite Hfree; unfold in_reg; cbn [r_start r_end REG_EMPTY]; lia.
Qed.


(** ** Untyped memory from a region *)
Lemma ctz_pos_spec p : exists m, 0 <= m /\ Zpos p = 2 ^ ctz_pos p * (2 * m + 1) /\ 0 <= ctz_pos p.
Proof.
  induction p as [p IH|p IH|]; cbn [ctz_pos].
  - exists (Zpos p). change (2 ^ 0) with 1. lia.
  - destruct IH as (m & Hm & E & Hc). exists m. split_and!; [done| |lia].
    rewrite Pos2Z.inj_xO, E, Z.pow_add_r by lia. change (2 ^ 1) with 2. ring.
  - by exists 0.
Qed.

Lemma ctz_spec x : 0 < x -> exists m, 0 <= m /\ x = 2 ^ ctz x * (2 * m + 1) /\ 0 <= ctz x.
Proof. destruct x as [|p|p]; [done| |done]. intros _. apply ctz_pos_spec. Qed.

Lemma ctz_divides x : 0 < x -> (2 ^ ctz x | x).
Proof. intros (m & _ & E & _)%ctz_spec. exists (2 * m + 1). lia. Qed.

Lemma ctz_ge x k : 0 < x -> 0 <= k -> (2 ^ k | x) -> k <= ctz x.
Proof.
  intros Hx Hk [q Hq]. destruct (ctz_spec x Hx) as (m & Hm & E & Hc).
  destruct (decide (k <= ctz x)) as [|Hlt]; [done|exfalso].
  replace k with (ctz x + 1 + (k - ctz x - 1)) in Hq by lia. rewrite !Z.pow_add_r in Hq by lia.
  change (2 ^ 1) with 2 in Hq. pose proof (Z.pow_pos_nonneg 2 (ctz x) ltac:(lia) Hc).
  set (P := 2 ^ ctz x) in *. set (y := 2 ^ (k - ctz x - 1)) in *. assert (2 * m + 1 = 2 * (q * y)) by nia. lia.
Qed.

(** Aligned blocks, each of at least 16 bytes, that make up [a, e) in order *)
Fixpoint tiles (a e : Z) (l : list (Z * Z)) : Prop :=
  match l with
  | [] => a = e
  | (p, n) :: l' => p = a /\ 4 <= n < 32 /\ (2 ^ n | p) /\ tiles (a + 2 ^ n) e l'
  end.

(** The size of the block the loop takes, and a measure that every round decreases *)
Definition block_bits (a e : Z) : Z := Z.min (ctz a) (Z.log2 (e - a)).
Definition rounds (a e : Z) : Z :=
  if a =? e then 0 else if ctz a <? Z.log2 (e - a) then 64 - ctz a else 1 + Z.log2 (e - a).

Lemma round_step a e : 0 < a < e -> e < 2 ^ 32 -> (16 | a) -> (16 | e) ->
  let n := block_bits a e in
  4 <= n < 32 /\ (2 ^ n | a) /\ a + 2 ^ n <= e /\ (16 | a + 2 ^ n) /\
  0 <= rounds (a + 2 ^ n) e < rounds a e /\ rounds a e <= 60.
Proof.
  intros Ha He Da De n. assert (16 <= e - a) as Hlen.
  { destruct Da as [x ->], De as [y ->]. lia. }
  assert (4 <= ctz a) as Hc by (apply ctz_ge; [lia|lia|exact Da]).
  assert (4 <= Z.log2 (e - a)) as HL by (apply Z.log2_le_pow2; [lia|exact Hlen]).
  assert (Z.log2 (e - a) < 32) as HL' by (apply Z.log2_lt_pow2; lia).
  pose proof (Z.log2_spec (e - a) ltac:(lia)) as [L1 L2]. rewrite Z.pow_succ_r in L2 by lia.
  assert (4 <= n < 32) as Hn by (unfold n, block_bits; lia).
  assert ((2 ^ n | a)) as Dn.
  { apply Z.divide_trans with (2 ^ ctz a); [|apply ctz_divides; lia].
    exists (2 ^ (ctz a - n)). rewrite <- Z.pow_add_r by (unfold n, block_bits; lia). f_equal. lia. }
  assert (2 ^ n <= 2 ^ Z.log2 (e - a)) as Hle by (apply Z.pow_le_mono_r; unfold n, block_bits; lia).
  pose proof (Z.pow_pos_nonneg 2 n ltac:(lia) ltac:(lia)) as Hp.
  assert ((16 | 2 ^ n)) as D16 by (exists (2 ^ (n - 4)); change 16 with (2 ^ 4); rewrite <- Z.pow_add_r by lia; f_equal; lia).
  split; [done|]. split; [done|]. split; [lia|]. split; [by apply Z.divide_add_r|].
  unfold rounds. rewrite (proj2 (Z.eqb_neq a e)) by lia.
  destruct (Z.eqb_spec (a + 2 ^ n) e) as [E|E].
  { destruct (Z.ltb_spec (ctz a) (Z.log2 (e - a))); lia. }
  assert (0 <= Z.log2 (e - (a + 2 ^ n)) <= 31) as HL''.
  { split; [apply Z.log2_nonneg|]. apply Z.lt_succ_r, Z.log2_lt_pow2; [lia|]. change (2 ^ Z.succ 31) with (2 ^ 32). lia. }
  destruct (Z.ltb_spec (ctz a) (Z.log2 (e - a))) as [Hlt|Hge].
  - assert (n = ctz a) as En by (unfold n, block_bits; lia).
    assert (ctz a + 1 <= ctz (a + 2 ^ n)) as Hc'.
    { apply ctz_ge; [lia|lia|]. destruct (ctz_spec a ltac:(lia)) as (m & _ & Em & _). exists (m + 1).
      rewrite En, Z.pow_add_r by lia. change (2 ^ 1) with 2. set (P := 2 ^ ctz a) in *. nia. }
    destruct (Z.ltb_spec (ctz (a + 2 ^ n)) (Z.log2 (e - (a + 2 ^ n)))); lia.
  - assert (n = Z.log2 (e - a)) as En by (unfold n, block_bits; lia). rewrite <- En in L1, L2, Hge.
    assert (n <= ctz (a + 2 ^ n)) as Hc' by (apply ctz_ge; [lia|lia|]; apply Z.divide_add_r; [done|by exists 1; lia]).
    assert (Z.log2 (e - (a + 2 ^ n)) < n) as Hl by (apply Z.log2_lt_pow2; lia).
    rewrite (proj2 (Z.ltb_ge _ _)) by lia. lia.
Qed.

Lemma field_high_aligned v : (16 | v) -> is_word v -> field_high 28 v = v.
Proof.
  intros [q ->] Hv. unfold is_word in Hv. unfold field_high. change (32 - 28) with 4. change 16 with (2 ^ 4).
  rewrite <- Z.shiftl_mul_pow2, <- Z.shiftl_land, Z.land_ones by lia. rewrite Z.mod_small; [done|].
  change (2 ^ 28) with 268435456. lia.
Qed.

Lemma untyped_cap_eq n p : 0 <= n < 32 -> (16 | p) -> is_word p -> cap_untyped_cap_new 0 n p = Cap_untyped 0 n p.
Proof.
  intros Hn Hp Hw. unfold cap_untyped_cap_new. rewrite field_high_aligned by done. unfold field.
  rewrite (Z.land_ones n) by lia. rewrite Z.mod_small by (change (2 ^ 5) with 32; lia). done.
Qed.


Lemma wrap_small x : is_word x -> wrap x = x.
Proof. apply Z.mod_small. Qed.

(** The blocks the loop takes *)
Fixpoint cut (fuel : nat) (a e : Z) : list (Z * Z) :=
  match fuel with
  | O => []
  | S fuel' => if a =? e then [] else (a, block_bits a e) :: cut fuel' (a + 2 ^ block_bits a e) e
  end.

Definition aligned_region (a e : Z) : Prop := 0 < a <= e /\ e < 2 ^ 32 /\ (16 | a) /\ (16 | e).

Lemma aligned_step a e : aligned_region a e -> a <> e ->
  let n := block_bits a e in
  4 <= n < 32 /\ (2 ^ n | a) /\ aligned_region (a + 2 ^ n) e /\ 0 <= rounds (a + 2 ^ n) e < rounds a e.
Proof.
  intros (H1 & H2 & H3 & H4) Hne. cbv zeta.
  destruct (round_step a e) as (Hn & Hd & Hle & Hd' & Hr & _); try done; [lia|].
  unfold aligned_region. pose proof (Z.pow_pos_nonneg 2 (block_bits a e) ltac:(lia) ltac:(lia)). split_and!; try done; lia.
Qed.

Lemma rounds_pos a e : aligned_region a e -> (if a =? e then 0 else 1) <= rounds a e.
Proof.
  intros Ha. destruct (Z.eqb_spec a e) as [->|Hne]; [unfold rounds; by rewrite Z.eqb_refl|].
  destruct (aligned_step a e Ha Hne) as (_ & _ & _ & H). lia.
Qed.

Lemma cut_tiles fuel : forall a e, aligned_region a e -> rounds a e < Z.of_nat fuel -> tiles a e (cut fuel a e).
Proof.
  induction fuel as [|fuel IH]; intros a e Ha Hf; cbn [cut].
  { pose proof (rounds_pos a e Ha). destruct (Z.eqb_spec a e) as [|Hne]; [done|lia]. }
  destruct (Z.eqb_spec a e) as [|Hne]; [done|]. destruct (aligned_step a e Ha Hne) as (Hn & Hd & Hok & Hr).
  cbn [tiles]. split_and!; [done|lia|lia|done|]. apply IH; [done|lia].
Qed.

Lemma cut_length fuel : forall a e, aligned_region a e -> Z.of_nat (length (cut fuel a e)) <= rounds a e.
Proof.
  induction fuel as [|fuel IH]; intros a e Ha; cbn [cut length]; [|destruct (Z.eqb_spec a e) as [|Hne]; cbn [length]].
  1, 2: pose proof (rounds_pos a e Ha); destruct (a =? e); lia.
  destruct (aligned_step a e Ha Hne) as (_ & _ & Hok & Hr). specialize (IH _ _ Hok). lia.
Qed.

(** *** The slots of the root CNode *)
Definition boot_cte (c : cap) : cte := mk_cte c (mdb_node_new 0 true true 0).

(** The free slots of the root CNode hold capabilities and differ from each other. *)
Record root_ok (rc : cap) (b : bstate) : Prop := {
  ro_bound : 0 <= slot_pos_cur b <= slot_pos_max b /\ slot_pos_max b < 2 ^ 32;
  ro_slots : forall pos, slot_pos_cur b <= pos < slot_pos_max b -> is_Some (ksCtes (bs_kernel b) !! root_slot rc pos);
  ro_inj : forall pos pos', 0 <= pos < slot_pos_max b -> 0 <= pos' < slot_pos_max b ->
    root_slot rc pos = root_slot rc pos' -> pos = pos' }.

Definition put_cte (p : Z) (c : cte) (s : kstate) : kstate := upd_ksCtes (<[p := c]> (ksCtes s)) s.

Lemma wp_lift {A} (m : K A) (Q : A -> bstate -> Prop) b :
  wp m (fun a s => Q a (upd_bs_kernel s b)) (bs_kernel b) -> wp (lift m) Q b.
Proof. unfold wp, lift. by destruct (m (bs_kernel b)). Qed.

Lemma wp_write_slot p c c0 (Q : unit -> bstate -> Prop) b :
  ksCtes (bs_kernel b) !! p = Some c0 ->
  Q tt (upd_bs_kernel (put_cte p (boot_cte c) (bs_kernel b)) b) -> wp (write_slot p c) Q b.
Proof.
  intros Hp HQ. unfold write_slot. apply wp_lift. unfold set_mdb.
  apply wp_bind. eapply wp_set_cap; [done|].
  apply wp_bind. eapply wp_mod_cte; [wlookup|].
  apply wp_bind. eapply wp_mod_mdb; [wlookup|].
  eapply wp_mod_mdb; [wlookup|]. unfold put_cte in HQ. ksimp. cbn in *.
  exact HQ.
Qed.

(** The state after the next slot is filled *)
Definition give_cap (rc c : cap) (b : bstate) : bstate :=
  upd_slot_pos_cur (slot_pos_cur b + 1)
    (upd_bs_kernel (put_cte (root_slot rc (slot_pos_cur b)) (boot_cte c) (bs_kernel b)) b).

Lemma root_ok_give rc c b : root_ok rc b -> slot_pos_cur b < slot_pos_max b -> root_ok rc (give_cap rc c b).
Proof.
  intros [H1 H2 H3] Hlt. split; cbn; [lia| |done]. intros pos Hpos. apply lookup_insert_is_Some'. right. apply H2. lia.
Qed.

(** provide_cap fills the next slot; without one it fails and changes nothing. *)
Lemma wp_provide_cap rc c (Q : bool -> bstate -> Prop) b :
  root_ok rc b ->
  (slot_pos_max b <= slot_pos_cur b -> Q false b) ->
  (slot_pos_cur b < slot_pos_max b -> Q true (give_cap rc c b)) ->
  wp (provide_cap rc c) Q b.
Proof.
  intros Hok H1 H2. unfold provide_cap. apply wp_bind, wp_get. rewrite Z.geb_leb.
  destruct (Z.leb_spec (slot_pos_max b) (slot_pos_cur b)) as [Hle|Hlt]; [by apply wp_ret, H1|].
  destruct (ro_slots _ _ Hok (slot_pos_cur b)) as [c0 Hc0]; [lia|].
  apply wp_bind. eapply wp_write_slot; [done|]. apply wp_bind, wp_modify, wp_ret. cbn [slot_pos_cur upd_bs_kernel].
  pose proof (ro_bound _ _ Hok). replace (slot_pos_cur b +w 1) with (slot_pos_cur b + 1) by (symmetry; apply wrap_small; unfold is_word; lia). by apply H2.
Qed.


(** *** Capabilities given out in order

    Slot [x] is one of the next [k] slots of the root CNode. *)
Definition next_slot (rc : cap) (b : bstate) (k : Z) (x : Z) : Prop :=
  exists i, 0 <= i < k /\ slot_pos_cur b + i < slot_pos_max b /\ x = root_slot rc (slot_pos_cur b + i).
(** The next slots hold the capabilities, as far as there are slots; only the slots,
    their counter and the boot information differ. *)
Record granted (rc : cap) (caps : list cap) (b b' : bstate) : Prop := {
  gr_caps : forall i c, caps !! i = Some c -> slot_pos_cur b + Z.of_nat i < slot_pos_max b ->
    ksCtes (bs_kernel b') !! root_slot rc (slot_pos_cur b + Z.of_nat i) = Some (boot_cte c);
  gr_ctes : forall x, ~ next_slot rc b (Z.of_nat (length caps)) x ->
    ksCtes (bs_kernel b') !! x = ksCtes (bs_kernel b) !! x;
  gr_kernel : bs_kernel b' = upd_ksCtes (ksCtes (bs_kernel b')) (bs_kernel b);
  gr_freemem : freemem b' = freemem b;
  gr_max : slot_pos_max b' = slot_pos_max b;
  gr_cur : slot_pos_cur b' = Z.min (slot_pos_cur b + Z.of_nat (length caps)) (slot_pos_max b) }.

Lemma granted_nil rc b : slot_pos_cur b <= slot_pos_max b -> granted rc [] b b.
Proof. intros H. split; try done; [by destruct (bs_kernel b)|cbn; lia]. Qed.

Lemma granted_none rc caps b f : slot_pos_cur b = slot_pos_max b -> granted rc caps b (upd_bi_frame f b).
Proof. intros H. split; cbn; try done; try lia. by destruct (bs_kernel b). Qed.

Lemma granted_cons rc c caps b f b' : root_ok rc b -> slot_pos_cur b < slot_pos_max b ->
  granted rc caps (give_cap rc c (upd_bi_frame f b)) b' ->
  granted rc (c :: caps) b b'.
Proof.
  intros [Hb _ Hinj] Hlt [F1 F2 F4 F5 F6 F7]. cbn in *.
  assert (ksCtes (bs_kernel b') !! root_slot rc (slot_pos_cur b) = Some (boot_cte c)) as Hhead.
  { rewrite F2; [apply lookup_insert_eq|]. intros (i & Hi & Hm & E). cbn in *. apply Hinj in E; lia. }
  split; try done.
  - intros [|i] c' Hi Hpos; cbn in Hi.
    + injection Hi as <-. change (Z.of_nat 0) with 0 in *. by rewrite Z.add_0_r in *.
    + replace (slot_pos_cur b + Z.of_nat (S i)) with (slot_pos_cur b + 1 + Z.of_nat i) in * by lia. by apply F1.
  - intros x Hx. rewrite F2.
    + apply lookup_insert_ne. intros <-. apply Hx. exists 0. rewrite Z.add_0_r. cbn. lia.
    + intros (i & Hi & Hm & ->). apply Hx. exists (i + 1). cbn in *. split_and!; [lia|lia|lia|f_equal; lia].
  - rewrite F7. cbn [length]. lia.
Qed.

(** *** The loop

    What the loop has made of the blocks from state [b] to [b'] *)
Definition block_cap (block : Z * Z) : cap := Cap_untyped 0 (snd block) (fst block).
Record filled (rc : cap) (first : Z) (blocks : list (Z * Z)) (b b' : bstate) : Prop := {
  fi_granted : granted rc (block_cap <$> blocks) b b';
  fi_blocks : forall i p n, blocks !! i = Some (p, n) ->
    let pos := slot_pos_cur b + Z.of_nat i in pos < slot_pos_max b ->
    bi_ut_obj_paddr_list (bi_frame b') !! (pos - first) = Some (addrFromPPtr p) /\
    bi_ut_obj_size_bits_list (bi_frame b') !! (pos - first) = Some n;
  fi_lists : forall i, i < slot_pos_cur b - first ->
    bi_ut_obj_paddr_list (bi_frame b') !! i = bi_ut_obj_paddr_list (bi_frame b) !! i /\
    bi_ut_obj_size_bits_list (bi_frame b') !! i = bi_ut_obj_size_bits_list (bi_frame b) !! i }.

(** The entry of the boot information is written even when the slots are used up. *)
Definition note_untyped (first p n : Z) (b : bstate) : bstate :=
  let i := slot_pos_cur b - first in
  let f := bi_frame b in
  upd_bi_frame (upd_bi_ut_obj_size_bits_list (<[i := n]> (bi_ut_obj_size_bits_list f))
    (upd_bi_ut_obj_paddr_list (<[i := addrFromPPtr p]> (bi_ut_obj_paddr_list f)) f)) b.
Definition give_untyped (rc : cap) (first p n : Z) (b : bstate) : bstate :=
  give_cap rc (Cap_untyped 0 n p) (note_untyped first p n b).

Lemma root_ok_note rc first p n b : root_ok rc b -> root_ok rc (note_untyped first p n b).
Proof. intros []; by split. Qed.

Lemma wp_provide_untyped_cap rc first p n (Q : bool -> bstate -> Prop) b :
  root_ok rc b -> 0 <= first <= slot_pos_cur b -> slot_pos_cur b - first < CONFIG_MAX_NUM_BOOTINFO_UNTYPED_CAPS ->
  0 <= n < 32 -> (16 | p) -> is_word p ->
  (slot_pos_max b <= slot_pos_cur b -> Q false (note_untyped first p n b)) ->
  (slot_pos_cur b < slot_pos_max b -> Q true (give_untyped rc first p n b)) ->
  wp (provide_untyped_cap rc p n first) Q b.
Proof.
  intros Hok Hf Hi Hn Hp Hw H1 H2. pose proof (ro_bound _ _ Hok). unfold provide_untyped_cap. apply wp_bind, wp_get.
  replace (slot_pos_cur b -w first) with (slot_pos_cur b - first) by (symmetry; apply wrap_small; unfold is_word; lia).
  rewrite (proj2 (Z.ltb_lt _ _) Hi). rewrite untyped_cap_eq by done.
  apply wp_bind, wp_modify, wp_bind, wp_modify.
  apply (wp_provide_cap rc _ Q (note_untyped first p n b)); [by apply root_ok_note|done|done].
Qed.

Lemma filled_nil rc first b : slot_pos_cur b <= slot_pos_max b -> filled rc first [] b b.
Proof. intros H. split; try done. by apply granted_nil. Qed.

Lemma filled_none rc first p n l b : slot_pos_cur b = slot_pos_max b ->
  filled rc first ((p, n) :: l) b (note_untyped first p n b).
Proof.
  intros H. split; [by apply granted_none|cbn; lia|]. intros i Hi. cbn. by rewrite !lookup_insert_ne by lia.
Qed.

Lemma filled_cons rc first p n l b b' : root_ok rc b -> slot_pos_cur b < slot_pos_max b ->
  filled rc first l (give_untyped rc first p n b) b' -> filled rc first ((p, n) :: l) b b'.
Proof.
  intros Hok Hlt [F1 F2 F3]. split; [by eapply granted_cons| |]; cbn in F2, F3.
  - intros [|i] p' n' Hi pos Hpos; cbn in Hi.
    + injection Hi as <- <-. subst pos. change (Z.of_nat 0) with 0 in *. rewrite Z.add_0_r in *.
      destruct (F3 (slot_pos_cur b - first) ltac:(lia)) as [-> ->]. by rewrite !lookup_insert_eq.
    + replace pos with (slot_pos_cur b + 1 + Z.of_nat i) in * by lia. by apply F2.
  - intros i Hi. destruct (F3 i ltac:(lia)) as [-> ->]. by rewrite !lookup_insert_ne by lia.
Qed.

(** The size the loop computes *)
Lemma block_size_eq a e : aligned_region a e -> a <> e ->
  (if ctz a <? wordBits - 1 - clz (e -w a) then ctz a else wordBits - 1 - clz (e -w a)) = block_bits a e.
Proof.
  intros (H1 & H2 & _) Hne. replace (e -w a) with (e - a) by (symmetry; apply wrap_small; unfold is_word; lia).
  unfold clz. replace (wordBits - 1 - (wordBits - 1 - Z.log2 (e - a))) with (Z.log2 (e - a)) by lia.
  unfold block_bits. destruct (Z.ltb_spec (ctz a) (Z.log2 (e - a))); lia.
Qed.

Lemma boot_clz_eq x b : x <> 0 -> boot_clz x b = Ret (clz x) b.
Proof. intros H. unfold boot_clz. by rewrite (proj2 (Z.eqb_neq x 0)). Qed.
Lemma boot_ctz_eq x b : x <> 0 -> boot_ctz x b = Ret (ctz x) b.
Proof. intros H. unfold boot_ctz. by rewrite (proj2 (Z.eqb_neq x 0)). Qed.

Lemma untypeds_loop_spec rc e first fuel : forall a b,
  aligned_region a e -> rounds a e < Z.of_nat fuel -> root_ok rc b -> 0 <= first <= slot_pos_cur b ->
  slot_pos_cur b - first + rounds a e <= CONFIG_MAX_NUM_BOOTINFO_UNTYPED_CAPS ->
  let blocks := cut fuel a e in
  wp (create_untypeds_loop fuel rc (mk_region a e) first)
    (fun ok b' => ok = (slot_pos_cur b + Z.of_nat (length blocks) <=? slot_pos_max b) /\ filled rc first blocks b b') b.
Proof.
  induction fuel as [|fuel IH]; intros a b Ha Hfuel Hok Hfirst Hlist; cbn [create_untypeds_loop cut].
  { pose proof (rounds_pos a e Ha). destruct (a =? e); lia. }
  unfold is_reg_empty. cbn [r_start r_end]. destruct (Z.eqb_spec a e) as [|Hne].
  { apply wp_ret. destruct (ro_bound _ _ Hok). split; [symmetry; apply Z.leb_le; cbn [length]; lia|apply filled_nil; lia]. }
  destruct (aligned_step a e Ha Hne) as (Hn & Hd & Hok' & Hr). pose proof Ha as (Ha1 & Ha2 & Ha3 & _). pose proof Hok' as (Hb1 & _).
  set (n := block_bits a e) in *.
  assert (e -w a <> 0) by (unfold wsub; rewrite wrap_small; unfold is_word; lia).
  eapply wp_bind, wp_exact; [by apply boot_clz_eq|]. eapply wp_bind, wp_exact; [apply boot_ctz_eq; lia|].
  rewrite block_size_eq by done. fold n. apply wp_bind, wp_assert; [rewrite Z.geb_leb; apply Z.leb_le; change (wordBits / 8) with 4; lia|].
  apply wp_bind, wp_provide_untyped_cap; [done|done|lia|lia|done|unfold is_word; lia| |].
  - intros Hfull. apply wp_ret. destruct (ro_bound _ _ Hok). split; [symmetry; apply Z.leb_gt; cbn [length]; lia|apply filled_none; lia].
  - intros Hlt. rewrite BIT_pow by lia. replace (a +w 2 ^ n) with (a + 2 ^ n) by (symmetry; apply wrap_small; unfold is_word; lia).
    eapply wp_mono; [apply (IH (a + 2 ^ n)); [done|lia|apply root_ok_give; [by apply root_ok_note|done]|cbn; lia|cbn; lia]|].
    intros ok b' [-> Hf]. split; [cbn -[Z.of_nat]; f_equal; lia|by apply filled_cons].
Qed.

(** C10: create_untypeds_for_region always returns: at most 60 rounds cut a region
    of whole 16-byte units into consecutive aligned blocks that make it up exactly.
    It succeeds exactly when the root CNode has a slot for each of them; the slots
    there are, in order, receive one fresh untyped capability per block, which the
    boot information lists with its address and size, and no other slot changes.
    The list of the boot information must have room for 60 entries more. *)
Theorem create_untypeds_tile rc a e first b (Ha : aligned_region a e) (Hok : root_ok rc b)
    (Hfirst : 0 <= first <= slot_pos_cur b)
    (Hlist : slot_pos_cur b - first + 60 <= CONFIG_MAX_NUM_BOOTINFO_UNTYPED_CAPS) :
  exists blocks ok b', create_untypeds_for_region rc (mk_region a e) first b = Ret ok b' /\
    tiles a e blocks /\ (length blocks <= 60)%nat /\
    ok = (slot_pos_cur b + Z.of_nat (length blocks) <=? slot_pos_max b) /\ filled rc first blocks b b'.
Proof.
  assert (rounds a e <= 60) as Hr.
  { destruct (Z.eq_dec a e) as [->|Hne]; [unfold rounds; by rewrite Z.eqb_refl|].
    destruct Ha as (? & ? & ? & ?). destruct (round_step a e) as (_ & _ & _ & _ & _ & ?); try done. lia. }
  assert (rounds a e < Z.of_nat untypeds_fuel) by (change (Z.of_nat untypeds_fuel) with 65; lia).
  destruct (wp_inv _ _ _ (untypeds_loop_spec rc e first untypeds_fuel a b Ha ltac:(done) Hok Hfirst ltac:(lia)))
    as (ok & b' & E & Hok' & Hf).
  exists (cut untypeds_fuel a e), ok, b'. split_and!; try done; [by apply cut_tiles|].
  pose proof (cut_length untypeds_fuel a e Ha). lia.
Qed.


(** ** Frames of a region *)
Fixpoint frames_of (f step : Z) (k : nat) : list Z :=
  match k with O => [] | S k' => f :: frames_of (f + step) step k' end.

Lemma length_frames_of step k : forall f, length (frames_of f step k) = k.
Proof. induction k as [|k IH]; intros f; cbn; [done|by rewrite IH]. Qed.

(** A loop that gives out one capability per step: it stops when the slots run out. *)
Lemma wp_for_provide rc g step last k : 0 < step -> last < 2 ^ 32 -> forall fuel f b,
  root_ok rc b -> 0 <= f -> last = f + Z.of_nat k * step -> (k < fuel)%nat ->
  wp (for_step fuel f last step (fun x => provide_cap rc (g x)))
    (fun ok b' => ok = (slot_pos_cur b + Z.of_nat k <=? slot_pos_max b) /\
       granted rc (g <$> frames_of f step k) b b' /\ bi_frame b' = bi_frame b) b.
Proof.
  intros Hs Hl. induction k as [|k IH]; intros fuel f b Hok Hf Hlast Hfuel;
    (destruct fuel as [|fuel]; [lia|]); cbn [for_step frames_of fmap list_fmap]; destruct (ro_bound _ _ Hok) as [Hb1 Hb2].
  { rewrite (proj2 (Z.ltb_ge f last)) by lia. apply wp_ret. split_and!; [|apply granted_nil; lia|done].
    symmetry. apply Z.leb_le. lia. }
  rewrite (proj2 (Z.ltb_lt f last)) by nia. apply wp_bind, wp_provide_cap; [done| |].
  - intros Hfull. apply wp_ret. split_and!; [symmetry; apply Z.leb_gt; lia| |done].
    replace b with (upd_bi_frame (bi_frame b) b) at 2 by (by destruct b). apply granted_none. lia.
  - intros Hlt. replace (f +w step) with (f + step) by (symmetry; apply wrap_small; unfold is_word; nia).
    eapply wp_mono; [apply (IH fuel (f + step))|].
    + by apply root_ok_give.
    + lia.
    + lia.
    + lia.
    + intros ok b' (-> & Hg & Hbi). cbn in Hbi. split_and!; [cbn -[Z.of_nat]; f_equal; lia| |done].
      apply (granted_cons _ _ _ _ (bi_frame b)); [done|done|]. by destruct b.
Qed.


(** ** Frames of devices *)
Lemma IS_ALIGNED_spec x n : 0 <= n < 32 -> IS_ALIGNED x n = true -> (2 ^ n | x).
Proof.
  intros Hn. unfold IS_ALIGNED. rewrite land_MASK by done. rewrite Z.eqb_eq. intros H.
  apply Z.mod_divide; [|done]. apply Z.pow_nonzero; lia.
Qed.

(** The size of the frames of a region *)
Definition frame_bits (r : region) : Z :=
  if IS_ALIGNED r.(r_start) ARMSectionBits && IS_ALIGNED r.(r_end) ARMSectionBits then ARMSectionBits else ARMSmallPageBits.
Definition num_frames (r : region) : Z := (r.(r_end) - r.(r_start)) / 2 ^ frame_bits r.
Definition device_caps (r : region) : list cap :=
  (fun f => create_it_frame_cap f 0 asidInvalid (frame_bits r =? ARMSectionBits)) <$>
    frames_of r.(r_start) (2 ^ frame_bits r) (Z.to_nat (num_frames r)).

(** C13: create_device_frames_region fails exactly when the root CNode has fewer
    free slots than the region has frames, and then it has filled them all; it takes
    sections where both ends allow and small pages otherwise, gives out one unmapped
    capability per frame in order of address, and records them in the boot
    information when it succeeds. *)
Theorem device_frames_correct rc i p_reg b
    (Hok : root_ok rc b) (Hr : let r := paddr_to_pptr_reg p_reg in
      0 <= r.(r_start) <= r.(r_end) /\ r.(r_end) < 2 ^ 32 /\ (2 ^ PAGE_BITS | r.(r_start)) /\ (2 ^ PAGE_BITS | r.(r_end))) :
  let r := paddr_to_pptr_reg p_reg in
  exists b', create_device_frames_region rc i p_reg b = Ret (slot_pos_cur b + num_frames r <=? slot_pos_max b) b' /\
    granted rc (device_caps r) b b' /\
    bi_dev_reg_list (bi_frame b') =
      if slot_pos_cur b + num_frames r <=? slot_pos_max b
      then <[i := mk_bi_dev_reg (addrFromPPtr r.(r_start)) (frame_bits r)
                    (mk_slot_region (slot_pos_cur b) (slot_pos_cur b + num_frames r))]> (bi_dev_reg_list (bi_frame b))
      else bi_dev_reg_list (bi_frame b).
Proof.
  cbv zeta in *. set (r := paddr_to_pptr_reg p_reg) in *. destruct Hr as (H1 & H2 & H3 & H4).
  assert ((frame_bits r = ARMSectionBits \/ frame_bits r = ARMSmallPageBits) /\
    (2 ^ frame_bits r | r_start r) /\ (2 ^ frame_bits r | r_end r)) as (Hbits & D1 & D2).
  { unfold frame_bits. destruct (IS_ALIGNED (r_start r) _ && _) eqn:E; [|by repeat split; auto].
    apply andb_true_iff in E as [E1 E2]. repeat split; [by left| |]; by apply IS_ALIGNED_spec. }
  assert (0 < 2 ^ frame_bits r) as Hp by (destruct Hbits as [-> | ->]; done).
  assert ((2 ^ frame_bits r | r_end r - r_start r)) as [q Hq] by by apply Z.divide_sub_r.
  assert (num_frames r = q) as Hn by (unfold num_frames; rewrite Hq; apply Z.div_mul; lia).
  assert (0 <= q) by nia.
  set (large := frame_bits r =? ARMSectionBits).
  assert (IS_ALIGNED (r_start r) ARMSectionBits && IS_ALIGNED (r_end r) ARMSectionBits = large) as El.
  { unfold large, frame_bits. by destruct (_ && _). }
  assert ((if large then ARMSectionBits else ARMSmallPageBits) = frame_bits r) as Eb.
  { unfold large. by destruct Hbits as [-> | ->]. }
  assert (BIT (frame_bits r) = 2 ^ frame_bits r) as EB by (apply BIT_pow; destruct Hbits as [-> | ->]; done).
  enough (wp (create_device_frames_region rc i p_reg) (fun ok b' =>
    ok = (slot_pos_cur b + num_frames r <=? slot_pos_max b) /\ granted rc (device_caps r) b b' /\
    bi_dev_reg_list (bi_frame b') = if ok
      then <[i := mk_bi_dev_reg (addrFromPPtr r.(r_start)) (frame_bits r)
                    (mk_slot_region (slot_pos_cur b) (slot_pos_cur b + num_frames r))]> (bi_dev_reg_list (bi_frame b))
      else bi_dev_reg_list (bi_frame b)) b) as Hwp.
  { destruct (wp_inv _ _ _ Hwp) as (ok & b' & E & -> & Hg & Hl). by exists b'. }
  unfold create_device_frames_region. fold r. rewrite El, Eb, EB. apply wp_bind, wp_gets. apply wp_bind.
  eapply wp_mono; [apply (wp_for_provide rc _ (2 ^ frame_bits r) (r_end r) (Z.to_nat q)); [done|done|done|lia|lia|]|].
  { unfold step_fuel. rewrite Hq, Z.div_mul by lia. lia. }
  intros ok b' (-> & Hg & Hbi). rewrite <- Hn. rewrite <- Hn in Hg. rewrite !Z2Nat.id by lia.
  destruct (Z.leb_spec (slot_pos_cur b + num_frames r) (slot_pos_max b)) as [Hle|Hlt]; cbn [negb].
  - apply wp_bind, wp_gets, wp_bind, wp_modify, wp_ret. split_and!; [done| |].
    + destruct Hg as [G1 G2 G3 G4 G5 G6]. by split.
    + cbn. rewrite Hbi, (gr_cur _ _ _ _ Hg), length_fmap, length_frames_of, Z2Nat.id by lia. do 3 f_equal. lia.
  - apply wp_ret. split_and!; [done|done|by rewrite Hbi].
Qed.

(** C11: alloc_region is total. When some free region holds an aligned block of the
    size it returns such a block, not 0, and takes exactly it out of the free memory,
    which stays a list of disjoint regions (what is cut off is kept whenever an entry
    was unused); when none does it returns 0 and changes nothing. *)
Theorem alloc_region_safe n b (Hok : freemem_ok (freemem b)) (Hn : 0 <= n < 32) :
  exists p b', alloc_region n b = Ret p b' /\ b' = upd_freemem (freemem b') b /\ freemem_ok (freemem b') /\
    (p = 0 <-> no_block n (freemem b)) /\ (p = 0 -> b' = b) /\
    (p <> 0 -> (2 ^ n | p) /\ (forall x, p <= x < p + 2 ^ n -> free (freemem b) x) /\
       (forall x, free (freemem b') x -> free (freemem b) x /\ ~ p <= x < p + 2 ^ n) /\
       ((exists e, e ∈ freemem b /\ is_reg_empty e = true) ->
         forall x, free (freemem b) x -> ~ p <= x < p + 2 ^ n -> free (freemem b') x)).
Proof.
  apply (wp_inv (alloc_region n) (fun p b' => b' = upd_freemem (freemem b') b /\ _)), wp_alloc_region; [done|done| |].
  - intros Hno. split_and!; [by destruct b|done|done|done|done].
  - intros p r l Hr Hb Hp Hl _ H1 H2. cbn. split_and!; [done|done| |lia|intros _].
    { split; [lia|]. intros Hno. by destruct (Hno r p Hr). }
    destruct Hb as (Hd & Hb1 & Hb2). split_and!; [done| |done|].
    + intros x Hx. exists r. split; [done|]. unfold in_reg. lia.
    + intros (e & He & Hee) x Hx Hnx. destruct (H2 x Hx Hnx) as [|[_ Hfull]]; [done|]. by rewrite Hfull in Hee.
Qed.


(** ** A boot in progress

    The image ends where the initial thread's begins; four slots of the root CNode are
    left and, in the memory, two free regions of which one is too small. *)
Definition bootImage : image := mk_image 0xf0010000 0xf0040000 0xf0030000 0xf0020000 0xf0021000 0xf0022000 0xf0001000.
Definition bootBi : bi :=
  mk_bi 0 0 1 0 0 S_REG_EMPTY S_REG_EMPTY S_REG_EMPTY S_REG_EMPTY S_REG_EMPTY S_REG_EMPTY empty empty 12 0 empty 0.
Definition bootRoot : cap := Cap_cnode 4 28 0 rootNode.
Definition bootSys : bstate :=
  mk_bstate sys [mk_region 0xf0044010 0xf0048000; mk_region 0xff100000 0xff101000] bootBi 12 16.

Lemma bootSys_freemem : freemem_ok (freemem bootSys).
Proof. apply freemem_ok_pair; unfold region_ok, in_reg; cbn; intros; lia. Qed.

Lemma bootRoot_slot pos : 0 <= pos < 16 -> root_slot bootRoot pos = rootNode + 16 * pos.
Proof.
  intros H. unfold root_slot, SLOT_PTR, cte_at. change (pptr_of_cap bootRoot) with rootNode.
  assert (wshl pos CTE_SIZE_BITS = 16 * pos) as ->.
  { unfold wshl. rewrite Z.shiftl_mul_pow2 by done. rewrite wrap_small by (unfold is_word; change CTE_SIZE_BITS with 4; lia).
    change (2 ^ CTE_SIZE_BITS) with 16. lia. }
  apply wrap_small. unfold is_word, rootNode. lia.
Qed.

Lemma bootSys_root : root_ok bootRoot bootSys.
Proof.
  split; [done| |].
  - intros pos Hpos. cbn in Hpos. rewrite bootRoot_slot by lia.
    assert (Forall (fun p => is_Some (ksCtes sys !! (rootNode + 16 * p))) [12; 13; 14; 15]) as H.
    { apply (bool_decide_unpack _). vm_compute. exact I. }
    rewrite Forall_forall in H. apply H.
    assert (pos = 12 \/ pos = 13 \/ pos = 14 \/ pos = 15) as [-> | [-> | [-> | ->]]] by lia; set_solver.
  - intros pos pos' Hpos Hpos'. cbn in Hpos, Hpos'. rewrite !bootRoot_slot by lia. lia.
Qed.

(** No memory between the two images: the rest of the window is free. *)
Definition bootFree : list region := [mk_region 0xf0044000 0xff000000; mk_region 0xff100000 PPTR_TOP].
Lemma init_freemem_correct_witness : init_freemem bootImage (mk_region 0xf0040000 0xf0044000) bootSys =
    Ret tt (upd_freemem bootFree bootSys) /\ free bootFree 0xf0044000 /\ ~ free bootFree 0xff000000.
Proof.
  assert (init_freemem bootImage (mk_region 0xf0040000 0xf0044000) bootSys = Ret tt (upd_freemem bootFree bootSys)) as E
    by (rewrite init_freemem_run by done; reflexivity).
  pose proof (init_freemem_correct bootImage (mk_region 0xf0040000 0xf0044000) bootSys ltac:(done) ltac:(done) ltac:(done)
    ltac:(done)) as H.
  rewrite E in H. split; [exact E|]. destruct H as (_ & l & El & _ & _ & Hl). apply (f_equal freemem) in El. change (bootFree = l) in El. subst l. split.
  - apply Hl. unfold in_reg. change asid_slot_region with (mk_region 0xff000000 0xff100000). cbn. change kernelBase with 0xf0000000.
    change PPTR_TOP with 0xfff00000. lia.
  - intros Hin. apply Hl in Hin as (_ & _ & _ & Hin). apply Hin. unfold in_reg. change asid_slot_region with (mk_region 0xff000000 0xff100000). cbn. lia.
Defined.

(** A table of 1024 bytes is taken from the smaller region, a page directory from none. *)
Lemma alloc_region_safe_witness :
  (exists b', alloc_region 10 bootSys = Ret 0xff100c00 b' /\ freemem_ok (freemem b')) /\
  (alloc_region 14 bootSys = Ret 0 bootSys /\ no_block 14 (freemem bootSys)).
Proof.
  split.
  - destruct (alloc_region_safe 10 bootSys bootSys_freemem ltac:(done)) as (p & b' & E & _ & H & _).
    assert (p = 0xff100c00) as ->; [|exists b'; split; [exact E|exact H]].
    assert (match alloc_region 10 bootSys with Ret p _ => p | Stop _ => 0 end = 0xff100c00) as Ep by by vm_compute.
    rewrite E in Ep. exact Ep.
  - destruct (alloc_region_safe 14 bootSys bootSys_freemem ltac:(done)) as (p & b' & E & _ & _ & H1 & H2 & _).
    assert (match alloc_region 14 bootSys with Ret p _ => p | Stop _ => 1 end = 0) as Ep by by vm_compute.
    rewrite E in Ep. cbv beta iota in Ep. subst p. split; [rewrite E; f_equal; exact (H2 eq_refl)|exact (proj1 H1 eq_refl)].
Defined.

(** [0xf0044010, 0xf0048000) needs ten blocks, four of which find a slot. *)
Lemma create_untypeds_tile_witness : exists blocks b',
  create_untypeds_for_region bootRoot (mk_region 0xf0044010 0xf0048000) 12 bootSys = Ret false b' /\
  tiles 0xf0044010 0xf0048000 blocks /\ filled bootRoot 12 blocks bootSys b'.
Proof.
  assert (aligned_region 0xf0044010 0xf0048000) as Ha.
  { split_and!; [lia|lia|lia|by exists 0xf004401|by exists 0xf004800]. }
  destruct (create_untypeds_tile bootRoot 0xf0044010 0xf0048000 12 bootSys Ha bootSys_root ltac:(done) ltac:(done))
    as (blocks & ok & b' & E & Ht & _ & _ & Hf).
  exists blocks, b'. split_and!; [|exact Ht|exact Hf]. rewrite E.
  assert (match create_untypeds_for_region bootRoot (mk_region 0xf0044010 0xf0048000) 12 bootSys with
    Ret ok _ => ok | Stop _ => true end = false) as Eo by by vm_compute.
  rewrite E in Eo. cbv beta iota in Eo. rewrite Eo. reflexivity.
Defined.

(** The two frames of UART3 *)
Lemma device_frames_correct_witness : exists b',
  create_device_frames_region bootRoot 0 (dev_reg 0x48020000 2 PAGE_BITS) bootSys = Ret true b' /\
  granted bootRoot (device_caps (paddr_to_pptr_reg (dev_reg 0x48020000 2 PAGE_BITS))) bootSys b'.
Proof.
  destruct (device_frames_correct bootRoot 0 (dev_reg 0x48020000 2 PAGE_BITS) bootSys bootSys_root) as (b' & E & Hg & _).
  { cbv zeta. split_and!; [done|done|done|by exists 0xb8020|by exists 0xb8022]. }
  exists b'. split; [exact E|exact Hg].
Defined.

(** The table of device regions lists frames more than once: one region appears twice
    and another overlaps two of its successors. *)
Definition overlap (r1 r2 : region) : bool := (r1.(r_start) <? r2.(r_end)) && (r2.(r_start) <? r1.(r_end)).
Lemma dev_p_regs_overlap : forall p, p ∈ [(3, 4); (5, 57); (5, 58)]%nat ->
  exists r1 r2, dev_p_regs !! p.1 = Some r1 /\ dev_p_regs !! p.2 = Some r2 /\ overlap r1 r2 = true.
Proof.
  intros p Hp. rewrite !elem_of_cons in Hp. destruct Hp as [-> | [-> | [-> | []%elem_of_nil]]]; by do 2 eexists.
Qed.
