(* ===== verification/DeleteSpec.v ===== *)
(** * Deletion and revocation: theorems

    Capabilities whose deletion touches no other object, the derivation tree below a
    slot, and the loop of cteRevoke with its preemption points. *)
From stdpp Require Import base list gmap.
From Stdlib Require Import ZArith Lia.
From S2P Require Import Prelude.
From S2P Require Import Structures.
From S2P Require Import KernelState.
From S2P Require Import DList.
From S2P Require Import SchedQueue.
From S2P Require Import VSpace.
From S2P Require Import Gic.
From S2P Require Import Scheduler.
From S2P Require Import CapOps.
From S2P Require Import MDB.
From S2P Require Import Endpoint.
From S2P Require Import Delete.
From S2P Require Import System.


(** ** Capabilities whose deletion touches no other object

    An endpoint nobody waits on, an object that is not mapped, and the kinds of
    capability that finaliseCap passes over *)
Definition quiet (s : kstate) (c : cap) : Prop :=
  match c with
  | Cap_endpoint _ _ _ _ ep => ep_state <$> ksEps s !! ep = Some EPState_Idle
  | Cap_async_endpoint _ _ _ aep => exists a, ksAeps s !! aep = Some a /\ a.(aep_state) <> AEPState_Waiting
  | Cap_page_directory _ mapped _ | Cap_page_table mapped _ _ _ => mapped = false
  | Cap_small_frame lo _ _ hi _ | Cap_frame _ lo _ _ hi _ => asid_of hi lo = 0
  | Cap_untyped _ _ _ | Cap_reply _ _ | Cap_domain | Cap_irq_control | Cap_asid_control => True
  | _ => False
  end.

Lemma quiet_ext s s' c : ksEps s' = ksEps s -> ksAeps s' = ksAeps s -> quiet s c -> quiet s' c.
Proof. intros E1 E2. unfold quiet. by rewrite E1, E2. Qed.

Lemma quiet_not_null s c : quiet s c -> c <> Cap_null.
Proof. by intros H ->. Qed.

(** Nobody waits: nothing is cancelled. *)
Lemma epCancelAll_idle s ep : ep_state <$> ksEps s !! ep = Some EPState_Idle -> epCancelAll ep s = Ret tt s.
Proof.
  intros (e & He & Hidle)%fmap_Some. unfold epCancelAll, get_ep. unfold bind, get, of_option. rewrite He.
  cbv beta iota. unfold ret. by rewrite <- Hidle.
Qed.
Lemma aepCancelAll_idle s aep a : ksAeps s !! aep = Some a -> a.(aep_state) <> AEPState_Waiting ->
  aepCancelAll aep s = Ret tt s.
Proof.
  intros Ha Hs. unfold aepCancelAll, get_aep. unfold bind at 1. unfold bind at 1, get, of_option. rewrite Ha. unfold ret.
  by rewrite bool_decide_false.
Qed.

Lemma Arch_finaliseCap_quiet s c final : quiet s c -> isArchCap c = true -> Arch_finaliseCap c final s = Ret Cap_null s.
Proof.
  intros Hq Ha. unfold Arch_finaliseCap, bind. destruct c; cbn [quiet] in Hq; try done; cbv beta iota;
    rewrite ?Hq, ?andb_false_r; done.
Qed.

Lemma finaliseCap_quiet s c final : quiet s c -> finaliseCap c final false s = Ret (Cap_null, irqInvalid) s.
Proof.
  intros Hq. unfold finaliseCap, finaliseCap_basic. destruct (isArchCap c) eqn:Ha.
  { unfold bind. by rewrite Arch_finaliseCap_quiet. }
  destruct c; cbn [quiet] in Hq; try done; unfold bind, when; destruct final; try done.
  - by rewrite epCancelAll_idle.
  - destruct Hq as (a & Haep & Hs). by erewrite aepCancelAll_idle.
Qed.

(** isFinalCapability looks at the two neighbours of the slot. *)
Lemma wp_isFinalCapability s l1 slot l2 (Q : bool -> kstate -> Prop) : mdb_chain s (l1 ++ slot :: l2) ->
  (forall final, Q final s) -> wp (isFinalCapability slot) Q s.
Proof.
  intros Hch HQ. pose proof (mdb_chain_at _ _ _ _ Hch) as (c & Hc & Hp & Hn).
  pose proof (mdb_neighbours _ _ _ _ Hch) as [Hsp Hsn]. rewrite <- Hp in Hsp. rewrite <- Hn in Hsn.
  assert (wp (if cte_next c =? 0 then ret true
    else let* next := get_cte (cte_next c) in ret (negb (sameObjectAs (cte_cap c) (cte_cap next)))) Q s) as Hnext.
  { destruct (Z.eqb_spec (cte_next c) 0) as [_|E]; [by wstep|]. destruct (Hsn E) as [x Hx].
    wstep. eapply wp_get_cte; [exact Hx|]. by wstep. }
  unfold isFinalCapability. wstep. eapply wp_get_cte; [exact Hc|]. fold (cte_prev c) (cte_next c). wstep.
  destruct (Z.eqb_spec (cte_prev c) 0) as [_|E]; [by wstep|]. destruct (Hsp E) as [x Hx].
  wstep. eapply wp_get_cte; [exact Hx|]. wstep. destruct (sameObjectAs _ _); [by wstep|done].
Qed.

(** cteDelete of such a capability empties its slot. *)
Lemma wp_cteDelete_quiet s l1 slot l2 c (Q : exception_t -> kstate -> Prop) :
  mdb_chain s (l1 ++ slot :: l2) -> ksCtes s !! slot = Some c -> quiet s c.(cte_cap) ->
  wp (emptySlot slot irqInvalid) (fun _ => Q EXCEPTION_NONE) s -> wp (cteDelete slot true) Q s.
Proof.
  intros Hch Hc Hq HQ.
  unfold cteDelete, cteDelete_with, finaliseSlot, finaliseSlot_with. wstep. wstep. wstep.
  unfold delete_fuel. cbn [Nat.mul Nat.add finaliseSlot_loop]. wstep. eapply wp_get_cap; [exact Hc|].
  rewrite bool_decide_false by (by eapply quiet_not_null). wstep.
  eapply wp_isFinalCapability; [exact Hch|]. intros final. wstep. eapply wp_get_cap; [exact Hc|]. wstep. eapply wp_exact; [by apply finaliseCap_quiet|]. cbn [fst snd capRemovable].
  wstep. wstep. wstep. cbn [fs_status fs_success fs_irq]. change (EXCEPTION_NONE != EXCEPTION_NONE) with false. cbn iota.
  cbn [orb when]. wstep. eapply wp_mono; [exact HQ|]. intros [] s' H. by wstep.
Qed.


(** ** Children in the derivation tree *)
Definition child (s : kstate) (p q : Z) : Prop := exists a b,
  ksCtes s !! p = Some a /\ ksCtes s !! q = Some b /\ isMDBParentOf_ctes a b = true.

(** What isMDBParentOf asks of the badges *)
Definition badge_match (a b : cap) (first : bool) : bool :=
  match a, b with
  | Cap_endpoint badge _ _ _ _, Cap_endpoint badge_b _ _ _ _
  | Cap_async_endpoint badge _ _ _, Cap_async_endpoint badge_b _ _ _ =>
      (badge =? 0) || ((badge =? badge_b) && negb first)
  | _, _ => true
  end.
Lemma isMDBParentOf_eq a b : isMDBParentOf_ctes a b =
  a.(cteMDBNode).(mdbRevocable) && sameRegionAs a.(cte_cap) b.(cte_cap) &&
  badge_match a.(cte_cap) b.(cte_cap) b.(cteMDBNode).(mdbFirstBadged).
Proof.
  unfold isMDBParentOf_ctes, badge_match. destruct (mdbRevocable _); [|done]. destruct (sameRegionAs _ _); [|done].
  cbn [negb andb]. destruct (cte_cap a); try done; destruct (cte_cap b); try done; by destruct (_ =? 0).
Qed.

(** A mark handed down by a child makes no difference to the next one. *)
Lemma badge_match_inherit a b d fb fd :
  sameRegionAs a b = true -> sameRegionAs a d = true -> badge_match a d fd = true ->
  badge_match a b (fb || fd) = badge_match a b fb.
Proof.
  intros Hb Hd. destruct a; try done; destruct b; try done; destruct d; try done; cbn [badge_match];
    destruct (_ =? 0); try done; cbn [orb]; rewrite andb_true_iff, negb_true_iff; intros [_ ->]; by rewrite orb_false_r.
Qed.
Lemma badge_match_weaken a b fb fd : badge_match a b (fb || fd) = true -> badge_match a b fb = true.
Proof.
  destruct a; try done; destruct b; try done; cbn [badge_match]; destruct (_ =? 0); try done; cbn [orb];
    rewrite !andb_true_iff, !negb_true_iff, orb_false_iff; tauto.
Qed.

(** *** The revocation of a row of children

    [ds] follows [slot] in its chain, all of it children of [slot] that can be
    deleted quietly; the rest [l2] of the chain begins with no child. *)
Record revocable (s : kstate) (l1 : list Z) (slot : Z) (ds l2 : list Z) : Prop := {
  rv_slots : slots_wf s;
  rv_chain : mdb_chain s (l1 ++ slot :: ds ++ l2);
  rv_child : forall q, q ∈ ds -> child s slot q;
  rv_quiet : forall q x, q ∈ ds -> ksCtes s !! q = Some x -> quiet s x.(cte_cap);
  rv_stop : forall q, head l2 = Some q -> ~ child s slot q }.

Lemma revocable_ext s s' l1 slot ds l2 : ksCtes s' = ksCtes s -> ksEps s' = ksEps s -> ksAeps s' = ksAeps s ->
  revocable s l1 slot ds l2 -> revocable s' l1 slot ds l2.
Proof.
  intros E E1 E2 [H1 H2 H3 H4 H5]. split; unfold slots_wf, mdb_chain, child in *; rewrite ?E; try done.
  intros q x Hq Hx. eapply quiet_ext; [done|done|]. by eapply H4.
Qed.

(** Capabilities and marks after slot [d] was emptied and its mark handed to [h] *)
Definition emptied (s s' : kstate) (d h : Z) (first : bool) : Prop :=
  ksCtes s' !! d = Some (mk_cte Cap_null nullMDBNode) /\
  forall p, p <> d ->
    cte_cap <$> ksCtes s' !! p = cte_cap <$> ksCtes s !! p /\
    mdb_flags <$> ksCtes s' !! p = mdb_flags <$> ((if p =? h then inherit_badged first else id) <$> ksCtes s !! p).

Lemma emptied_lookup s s' d h first p x : emptied s s' d h first -> p <> d -> ksCtes s !! p = Some x ->
  exists x', ksCtes s' !! p = Some x' /\ x'.(cte_cap) = x.(cte_cap) /\
    x'.(cteMDBNode).(mdbRevocable) = x.(cteMDBNode).(mdbRevocable) /\
    x'.(cteMDBNode).(mdbFirstBadged) = x.(cteMDBNode).(mdbFirstBadged) || ((p =? h) && first).
Proof.
  intros [_ H] Hp Hx. destruct (H p Hp) as [H1 H2]. rewrite Hx in H1, H2. cbn in H1.
  apply fmap_Some in H1 as (x' & Hx' & E). exists x'. rewrite Hx' in H2. cbn in H2.
  unfold mdb_flags in H2. split_and!; [done|done| |]; destruct (p =? h); cbn in H2; injection H2 as E1 E2; try done.
  by rewrite orb_false_r.
Qed.
Lemma emptied_lookup' s s' d h first p x' : emptied s s' d h first -> p <> d -> ksCtes s' !! p = Some x' ->
  is_Some (ksCtes s !! p).
Proof. intros [_ H] Hp Hx. destruct (H p Hp) as [H1 _]. rewrite Hx in H1. by destruct (ksCtes s !! p). Qed.

Lemma revocable_step s s' l1 slot d ds l2 c :
  revocable s l1 slot (d :: ds) l2 -> ksCtes s !! d = Some c ->
  emptied s s' d (hd NULL (ds ++ l2)) c.(cteMDBNode).(mdbFirstBadged) ->
  mdb_chain s' (l1 ++ slot :: ds ++ l2) -> ksEps s' = ksEps s -> ksAeps s' = ksAeps s ->
  revocable s' l1 slot ds l2.
Proof.
  intros [H1 H2 H3 H4 H5] Hd Hem Hch E1 E2.
  assert (NoDup (l1 ++ slot :: d :: ds ++ l2)) as Hnd by (by eapply dseg_NoDup).
  apply NoDup_app in Hnd as (_ & _ & [Hslot [Hdn _]%NoDup_cons]%NoDup_cons).
  assert (slot <> d) by set_solver.
  destruct (H3 d ltac:(left)) as (a & c' & Ha & Hc & Hpar). assert (c' = c) as -> by congruence.
  destruct (emptied_lookup _ _ _ _ _ _ _ Hem ltac:(done) Ha) as (a' & Ha' & Ea & Er & _).
  rewrite isMDBParentOf_eq, !andb_true_iff in Hpar. destruct Hpar as [[Hr Hs] Hb].
  split; [|done| | |].
  - destruct H1 as [H0 Hal]. split.
    + destruct (ksCtes s' !! NULL) eqn:E; [|done]. assert (NULL <> d) as Hne by (intros E0; rewrite E0 in H0; congruence).
      destruct (emptied_lookup' _ _ _ _ _ _ _ Hem Hne E) as [x Hx]. congruence.
    + intros p [x Hx]. destruct (decide (p = d)) as [->|Hne]; [apply Hal; eauto|].
      apply Hal. by eapply emptied_lookup'.
  - intros q Hq. destruct (H3 q ltac:(by right)) as (a0 & b & Ha0 & Hbq & Hp). assert (a0 = a) as -> by congruence.
    assert (q <> d) by set_solver. destruct (emptied_lookup _ _ _ _ _ _ _ Hem ltac:(done) Hbq) as (b' & Hb' & Eb & _ & Ef).
    exists a', b'. split_and!; [done|done|]. rewrite isMDBParentOf_eq, !andb_true_iff in Hp. destruct Hp as [[_ Hs'] Hb''].
    rewrite isMDBParentOf_eq, Ea, Er, Eb, Ef, Hr, Hs'. cbn [andb].
    destruct (q =? _); cbn [andb]; [|by rewrite orb_false_r]. by rewrite (badge_match_inherit _ _ (cte_cap c)).
  - intros q x' Hq Hx'. assert (q <> d) by set_solver.
    destruct (emptied_lookup' _ _ _ _ _ _ _ Hem ltac:(done) Hx') as [x Hx].
    destruct (emptied_lookup _ _ _ _ _ _ _ Hem ltac:(done) Hx) as (y & Hy & Ey & _). assert (y = x') as -> by congruence.
    rewrite Ey. eapply quiet_ext; [done|done|]. by apply (H4 q); [right|].
  - intros q Hq (a0 & b' & Ha0 & Hb' & Hp). assert (a0 = a') as -> by congruence.
    assert (q ∈ l2) by (destruct l2; [done|injection Hq as ->; left]). assert (q <> d) by set_solver.
    destruct (emptied_lookup' _ _ _ _ _ _ _ Hem ltac:(done) Hb') as [b Hbq].
    destruct (emptied_lookup _ _ _ _ _ _ _ Hem ltac:(done) Hbq) as (y & Hy & Eb & _ & Ef). assert (y = b') as -> by congruence.
    apply (H5 q Hq). exists a, b. split_and!; [done|done|]. rewrite isMDBParentOf_eq, Ea, Er, Eb, Ef, !andb_true_iff in Hp.
    destruct Hp as [[_ Hs'] Hb'']. rewrite isMDBParentOf_eq, Hr, Hs'. by eapply badge_match_weaken.
Qed.


(** *** The loop of cteRevoke *)
Definition revoke_frame (s s' : kstate) : Prop :=
  s' = upd_ksCtes (ksCtes s') (upd_ksHw (ksHw s') (upd_ksWorkUnitsCompleted (ksWorkUnitsCompleted s') s)).
Lemma revoke_frame_refl s : revoke_frame s s.
Proof. by destruct s. Qed.
Lemma revoke_frame_trans s s1 s2 : revoke_frame s s1 -> revoke_frame s1 s2 -> revoke_frame s s2.
Proof. unfold revoke_frame. intros E1 E2. rewrite E2, E1. by destruct s, s1, s2. Qed.
Lemma revoke_frame_ctes s s' : ctes_frame s s' -> revoke_frame s s'.
Proof. unfold ctes_frame, revoke_frame. intros E. rewrite E. by destruct s. Qed.
Lemma revoke_frame_proj s s' : revoke_frame s s' -> ksEps s' = ksEps s /\ ksAeps s' = ksAeps s /\ ksTcbs s' = ksTcbs s.
Proof. by intros ->. Qed.

(** *** Preemption points

    Every so many preemption points, counted by [ksWorkUnitsCompleted], the interrupt controller is asked for a pending
    interrupt. So many times it is asked at [j] successive points from [s] on, and this is the answer of the [i]th time: *)
Definition polls (s : kstate) (j : nat) : nat :=
  Z.to_nat ((ksWorkUnitsCompleted s + Z.of_nat j) / CONFIG_MAX_NUM_WORK_UNITS_PER_PREEMPTION).
Definition pending (s : kstate) (i : nat) : bool := IS_IRQ_VALID (nth i (hw_hi_pend (ksHw s)) IRQ_NONE).
Definition units_wf (s : kstate) : Prop := 0 <= ksWorkUnitsCompleted s < CONFIG_MAX_NUM_WORK_UNITS_PER_PREEMPTION.
(** [j] points were passed, of which only the last one can have ended in preemption: it did if, and only if, an interrupt
    was pending when the controller was asked there. *)
Record passed (s : kstate) (j : nat) (st : exception_t) (s' : kstate) : Prop := {
  pa_units : ksWorkUnitsCompleted s' = (ksWorkUnitsCompleted s + Z.of_nat j) mod CONFIG_MAX_NUM_WORK_UNITS_PER_PREEMPTION;
  pa_stream : hw_hi_pend (ksHw s') = drop (polls s j) (hw_hi_pend (ksHw s));
  pa_pending : forall i, (i < polls s j)%nat -> pending s i = true <-> st = EXCEPTION_PREEMPTED /\ S i = polls s j;
  pa_preempted : st = EXCEPTION_PREEMPTED -> (0 < j)%nat /\ (ksWorkUnitsCompleted s + Z.of_nat j) mod CONFIG_MAX_NUM_WORK_UNITS_PER_PREEMPTION = 0 }.

Lemma units_div m w : 0 < m -> 0 <= w < m -> (w + 1 = m /\ (w + 1) / m = 1 /\ (w + 1) mod m = 0) \/ (w + 1 < m /\ (w + 1) / m = 0 /\ (w + 1) mod m = w + 1).
Proof.
  intros Hm Hw. destruct (decide (w + 1 = m)) as [E|]; [left; rewrite E, Z.div_same, Z.mod_same by lia; done|right].
  rewrite Z.div_small, Z.mod_small by lia. lia.
Qed.
Lemma passed_wf s j st s' : passed s j st s' -> units_wf s'.
Proof. intros [E _ _ _]. unfold units_wf. rewrite E. by apply Z.mod_pos_bound. Qed.
Lemma passed_refl s : units_wf s -> passed s 0 EXCEPTION_NONE s.
Proof.
  intros H. assert (polls s 0 = 0%nat) as E by (unfold polls; rewrite Z.add_0_r, Z.div_small by exact H; done).
  split; [|by rewrite E|intros i; rewrite E; lia|done]. rewrite Z.add_0_r, Z.mod_small; [done|exact H].
Qed.
Lemma passed_step s s1 j st s' : units_wf s -> passed s 1 EXCEPTION_NONE s1 -> passed s1 j st s' -> passed s (S j) st s'.
Proof.
  intros Hw [U1 S1 P1 _] [U2 S2 P2 N2]. set (m := CONFIG_MAX_NUM_WORK_UNITS_PER_PREEMPTION) in *. assert (0 < m) as Hm by done.
  assert (ksWorkUnitsCompleted s + Z.of_nat (S j) = ksWorkUnitsCompleted s1 + Z.of_nat j + m * ((ksWorkUnitsCompleted s + 1) / m)) as E.
  { rewrite U1. pose proof (Z.div_mod (ksWorkUnitsCompleted s + Z.of_nat 1) m). lia. }
  assert (0 <= (ksWorkUnitsCompleted s + 1) / m) as H0 by (apply Z.div_pos; destruct Hw; lia).
  assert (0 <= (ksWorkUnitsCompleted s1 + Z.of_nat j) / m) as H1 by (apply Z.div_pos; [|done]; rewrite U1; pose proof (Z.mod_pos_bound (ksWorkUnitsCompleted s + Z.of_nat 1) m Hm); lia).
  assert (polls s (S j) = polls s 1 + polls s1 j)%nat as Ep.
  { unfold polls. fold m. rewrite E, (Z.mul_comm m), Z.div_add by lia. change (Z.of_nat 1) with 1. lia. }
  assert (forall i, pending s (polls s 1 + i) = pending s1 i) as Ei.
  { intros i. unfold pending. rewrite S1, nth_skipn. done. }
  split; [| | |intros Hs; split; [lia|]].
  - by rewrite U2, E, (Z.mul_comm m), Z_mod_plus_full.
  - by rewrite S2, S1, drop_drop, Ep.
  - intros i Hi. rewrite Ep in Hi |- *. destruct (decide (i < polls s 1)%nat) as [Hlt|Hge].
    + rewrite P1 by done. split; [by intros [? _]|]. intros [-> Hl]. exfalso. destruct (N2 eq_refl) as [Hj Hmod].
      assert (polls s1 j <> 0%nat); [|lia]. unfold polls. fold m. intros Hz. assert ((ksWorkUnitsCompleted s1 + Z.of_nat j) / m = 0) as Hd by lia.
      pose proof (Z.div_mod (ksWorkUnitsCompleted s1 + Z.of_nat j) m). pose proof (Z.mod_pos_bound (ksWorkUnitsCompleted s + Z.of_nat 1) m Hm). lia.
    + replace i with (polls s 1 + (i - polls s 1))%nat by lia. rewrite Ei, P2 by lia. split; intros [? ?]; (split; [done|lia]).
  - destruct (N2 Hs) as [_ Hmod]. by rewrite E, (Z.mul_comm m), Z_mod_plus_full.
Qed.
Lemma passed_frame s s1 j st s' : ksHw s1 = ksHw s -> ksWorkUnitsCompleted s1 = ksWorkUnitsCompleted s -> passed s1 j st s' -> passed s j st s'.
Proof. intros E1 E2 [? ? ? ?]. split; unfold polls, pending in *; by rewrite <- ?E1, <- ?E2. Qed.

Lemma wp_preemptionPoint s (Q : exception_t -> kstate -> Prop) : units_wf s ->
  (forall e s', e = EXCEPTION_NONE \/ e = EXCEPTION_PREEMPTED -> ksCtes s' = ksCtes s -> revoke_frame s s' -> passed s 1 e s' -> Q e s') ->
  wp preemptionPoint Q s.
Proof.
  intros Hw HQ. assert (ksWorkUnitsCompleted s +w 1 = ksWorkUnitsCompleted s + 1) as E1.
  { unfold wadd, wrap. apply Z.mod_small. unfold units_wf, CONFIG_MAX_NUM_WORK_UNITS_PER_PREEMPTION in Hw. lia. }
  unfold preemptionPoint, isIRQPending, read_hi_pend, mod_hw. wstep. wstep. wstep. wstep. ksimp. rewrite E1.
  destruct (units_div CONFIG_MAX_NUM_WORK_UNITS_PER_PREEMPTION _ ltac:(done) Hw) as [(Em & Ed & Er)|(Em & Ed & Er)].
  - destruct (Z.geb_spec (ksWorkUnitsCompleted s + 1) CONFIG_MAX_NUM_WORK_UNITS_PER_PREEMPTION); [|lia].
    assert (polls s 1 = 1%nat) as Ep by (unfold polls; change (Z.of_nat 1) with 1; by rewrite Ed).
    wstep. wstep. wstep. wstep. wstep. wstep. wstep. wstep. wstep. ksimp.
    assert (IS_IRQ_VALID (hd IRQ_NONE (hw_hi_pend (ksHw s))) = pending s 0) as -> by (unfold pending; by destruct (hw_hi_pend (ksHw s))).
    destruct (pending s 0) eqn:Epd; wstep; (apply HQ; [auto|done|by destruct s|]).
    all: split; rewrite ?Ep; change (Z.of_nat 1) with 1; [by rewrite Er|by destruct (hw_hi_pend (ksHw s))| |split; [lia|exact Er]].
    all: intros i Hi; assert (i = 0%nat) as -> by lia; rewrite Epd; naive_solver.
  - destruct (Z.geb_spec (ksWorkUnitsCompleted s + 1) CONFIG_MAX_NUM_WORK_UNITS_PER_PREEMPTION); [lia|].
    assert (polls s 1 = 0%nat) as Ep by (unfold polls; change (Z.of_nat 1) with 1; by rewrite Ed).
    wstep. apply HQ; [auto|done|by destruct s|]. split; rewrite ?Ep; change (Z.of_nat 1) with 1; [by rewrite Er|done|lia|done].
Qed.

(** What a call that ends with [st] has done: it deleted a first part of the row, passing a preemption point after each one,
    and the whole of it unless it was preempted. *)
Definition revoked (s : kstate) (l1 : list Z) (slot : Z) (ds l2 : list Z) (st : exception_t) (s' : kstate) : Prop :=
  exists ds1 ds2, ds = ds1 ++ ds2 /\ revoke_frame s s' /\ passed s (length ds1) st s' /\
    (st = EXCEPTION_NONE /\ ds2 = [] \/ st = EXCEPTION_PREEMPTED /\ ds1 <> []) /\
    revocable s' l1 slot ds2 l2 /\
    (forall d, d ∈ ds1 -> ksCtes s' !! d = Some (mk_cte Cap_null nullMDBNode)) /\
    (forall p, p ∉ ds1 -> cte_cap <$> ksCtes s' !! p = cte_cap <$> ksCtes s !! p) /\
    (forall p, p ∉ l1 ++ slot :: ds ++ l2 -> ksCtes s' !! p = ksCtes s !! p).

Lemma mdb_links_stop s l1 slot l2 a : mdb_chain s (l1 ++ slot :: l2) -> ksCtes s !! slot = Some a ->
  cte_next a = hd NULL l2.
Proof. intros H Ha. destruct (mdb_chain_at _ _ _ _ H) as (c & Hc & _ & E). congruence. Qed.

Lemma wp_isMDBParentOf s p q a b (Q : bool -> kstate -> Prop) :
  ksCtes s !! p = Some a -> ksCtes s !! q = Some b -> Q (isMDBParentOf_ctes a b) s -> wp (isMDBParentOf p q) Q s.
Proof.
  intros Ha Hb HQ. unfold isMDBParentOf. wstep. eapply wp_get_cte; [exact Ha|]. wstep. eapply wp_get_cte; [exact Hb|]. by wstep.
Qed.

(** The loop ends at the first slot that is no child. *)
Lemma wp_revoke_done s l1 slot l2 fuel : revocable s l1 slot [] l2 ->
  wp (cteRevoke_loop (S fuel) slot) (fun e s' => e = EXCEPTION_NONE /\ s' = s) s.
Proof.
  intros [H1 H2 _ _ H5]. cbn [app] in H2. cbn [cteRevoke_loop].
  destruct (mdb_chain_at _ _ _ _ H2) as (a & Ha & _ & E). pose proof (mdb_neighbours _ _ _ _ H2) as [_ Hn].
  unfold mdb_next. wstep. wstep. eapply wp_get_cte; [exact Ha|]. wstep. fold (cte_next a). rewrite E.
  destruct (Z.eqb_spec (hd NULL l2) NULL) as [_|Hne]; [by wstep|]. destruct (Hn Hne) as [b Hb].
  wstep. eapply wp_isMDBParentOf; [exact Ha|exact Hb|].
  destruct (isMDBParentOf_ctes a b) eqn:Ep; cbn [negb]; [|by wstep].
  exfalso. destruct l2 as [|q l2]; [done|]. apply (H5 q); [done|]. by exists a, b.
Qed.

Lemma wp_revoke_loop slot l1 l2 ds : forall fuel s, revocable s l1 slot ds l2 -> units_wf s -> (length ds < fuel)%nat ->
  wp (cteRevoke_loop fuel slot) (revoked s l1 slot ds l2) s.
Proof.
  induction ds as [|d ds IH]; intros fuel s Hrv Hw Hfuel; (destruct fuel as [|fuel]; [by apply Nat.nlt_0_r in Hfuel|]).
  { eapply wp_mono; [by eapply wp_revoke_done|]. intros e s' [-> ->].
    exists [], []. split_and!; try done; [apply revoke_frame_refl|by apply passed_refl|by left|]. intros x Hx. by apply elem_of_nil in Hx. }
  pose proof Hrv as [H1 H2 H3 H4 _]. cbn [cteRevoke_loop].
  destruct (H3 d ltac:(left)) as (a & c & Ha & Hc & Hpar).
  assert (cte_next a = d) as Hna by (by rewrite (mdb_links_stop _ _ _ _ _ H2 Ha)).
  assert (d <> NULL) as Hd0 by (by eapply (mdb_chain_nz _ _ _ H2); set_solver).
  assert (mdb_chain s ((l1 ++ [slot]) ++ d :: ds ++ l2)) as Hch by (by rewrite <- app_assoc).
  unfold mdb_next. wstep. wstep. eapply wp_get_cte; [exact Ha|]. wstep. fold (cte_next a). rewrite Hna.
  rewrite (proj2 (Z.eqb_neq d NULL) Hd0). wstep. eapply wp_isMDBParentOf; [exact Ha|exact Hc|]. rewrite Hpar. cbn [negb].
  wstep. eapply wp_cteDelete_quiet; [exact Hch|exact Hc|by apply (H4 d); [left|]|].
  eapply wp_mono; [eapply wp_emptySlot; [exact H1|exact Hch|exact Hc|eapply quiet_not_null; by apply (H4 d); [left|]]|].
  intros _ s1 (Hfr & Hch1 & Hd & Hothers). change (EXCEPTION_NONE != EXCEPTION_NONE) with false. cbn iota.
  rewrite <- app_assoc in Hch1. cbn [app] in Hch1.
  assert (revocable s1 l1 slot ds l2) as Hrv1.
  { eapply revocable_step; [exact Hrv|exact Hc| |exact Hch1|by rewrite Hfr|by rewrite Hfr].
    split; [exact Hd|]. intros p Hp. by destruct (Hothers p Hp) as (? & ? & _). }
  assert (ksHw s1 = ksHw s /\ ksWorkUnitsCompleted s1 = ksWorkUnitsCompleted s) as [Eh Eu] by (by rewrite Hfr).
  wstep. apply wp_preemptionPoint; [unfold units_wf; by rewrite Eu|]. intros e s2 He Ectes Hfr2 Hpa%(passed_frame s); [|done..].
  assert (revocable s2 l1 slot ds l2) as Hrv2.
  { destruct (revoke_frame_proj _ _ Hfr2) as (? & ? & _). by apply (revocable_ext s1). }
  assert (revoke_frame s s2) as Hfr02 by (eapply revoke_frame_trans; [by apply revoke_frame_ctes|done]).
  assert (forall p, p <> d -> cte_cap <$> ksCtes s2 !! p = cte_cap <$> ksCtes s !! p) as Hcaps.
  { intros p Hp. rewrite Ectes. by apply Hothers. }
  assert (ksCtes s2 !! d = Some (mk_cte Cap_null nullMDBNode)) as Hd2 by (by rewrite Ectes).
  assert (forall p, p ∉ l1 ++ slot :: (d :: ds) ++ l2 -> ksCtes s2 !! p = ksCtes s !! p) as Hrest.
  { intros p Hp. rewrite Ectes. apply Hothers; set_solver. }
  assert (d ∉ l1 ++ slot :: ds ++ l2) as Hdn.
  { destruct (mdb_chain_distinct _ _ _ _ Hch) as (_ & ? & ? & _). set_solver. }
  destruct He as [-> | ->].
  - change (EXCEPTION_NONE != EXCEPTION_NONE) with false. cbn iota.
    eapply wp_mono; [apply (IH fuel s2 Hrv2); [by eapply passed_wf|cbn in Hfuel; lia]|].
    intros st s3 (ds1 & ds2 & -> & Hf & Hpa3 & Hst & Hrv3 & Hgone & Hkept & Hout). exists (d :: ds1), ds2.
    split_and!; [done|by eapply revoke_frame_trans|by eapply passed_step|destruct Hst as [?|[? _]]; [by left|by right]|done| | |].
    + intros x [->|Hx]%elem_of_cons; [by rewrite Hout|by apply Hgone].
    + intros p Hp. rewrite Hkept by set_solver. apply Hcaps. set_solver.
    + intros p Hp. rewrite Hout by set_solver. by apply Hrest.
  - change (EXCEPTION_PREEMPTED != EXCEPTION_NONE) with true. cbn iota. wstep.
    exists [d], ds. split_and!; [done|done|done|by right|done| | |done].
    + intros x ->%list_elem_of_singleton. done.
    + intros p Hp. apply Hcaps. set_solver.
Qed.

(** C15: revocation by cteRevoke of a row of children that can be deleted without
    side effects on other objects: the loop always returns; it deletes a first part
    of the row, in order, and leaves a chain from which these slots, now empty, are
    unlinked; no other capability changes. It deletes the whole row unless an
    interrupt is pending when the controller is asked for one, which happens whenever
    the work units of [CONFIG_MAX_NUM_WORK_UNITS_PER_PREEMPTION] deletions are completed; it ends as soon as one is
    ([passed]), with at least one child deleted, and what is
    left is a row of children again, so that a restarted call makes progress. *)
Theorem cteRevoke_row s l1 slot ds l2 (Hrv : revocable s l1 slot ds l2) (Hw : units_wf s) :
  wp (cteRevoke slot) (revoked s l1 slot ds l2) s.
Proof.
  unfold cteRevoke. wstep. wstep. apply wp_revoke_loop; [done|done|].
  assert (length ds <= size (ksCtes s))%nat; [|unfold delete_fuel; lia].
  pose proof (rv_chain _ _ _ _ _ Hrv) as Hch.
  assert (NoDup ds) as Hnd.
  { assert (NoDup (l1 ++ slot :: ds ++ l2)) as H by (by eapply dseg_NoDup).
    by apply NoDup_app in H as (_ & _ & [_ [H _]%NoDup_app]%NoDup_cons). }
  rewrite <- (size_list_to_set (C := gset Z)) by done. rewrite <- size_dom. apply subseteq_size. intros p Hp%elem_of_list_to_set.
  apply elem_of_dom. eapply mdb_chain_nz; [exact Hch|]. set_solver.
Qed.

(** Untyped memory with two children: an idle endpoint and its badged copy *)
Definition revokeSys : kstate := upd_ksEps {[epSend := mk_endpoint NULL NULL EPState_Idle]} sys.
Definition revokeParent : cte := mk_cte (Cap_untyped 4 12 0xe0003000) (mk_mdb_node (slotAt 1) true true NULL).
Definition revokeChild : cte :=
  mk_cte (Cap_endpoint 0 true true true epSend) (mk_mdb_node (slotAt 2) true true (slotAt 0)).
Definition revokeCopy : cte :=
  mk_cte (Cap_endpoint 5 false true false epSend) (mk_mdb_node NULL false true (slotAt 1)).
Lemma revokeSys_parent : ksCtes revokeSys !! slotAt 0 = Some revokeParent.
Proof. reflexivity. Qed.
Lemma revokeSys_child : ksCtes revokeSys !! slotAt 1 = Some revokeChild.
Proof. reflexivity. Qed.
Lemma revokeSys_copy : ksCtes revokeSys !! slotAt 2 = Some revokeCopy.
Proof. reflexivity. Qed.
Lemma revokeSys_row : revocable revokeSys [] (slotAt 0) [slotAt 1; slotAt 2] [].
Proof.
  assert (forall q, q ∈ [slotAt 1; slotAt 2] -> q = slotAt 1 \/ q = slotAt 2) as Hin by (intros q; set_solver).
  split; [exact sys_slots|exact sys_chain| | |done].
  - intros q Hq. exists revokeParent. destruct (Hin q Hq) as [-> | ->]; [exists revokeChild|exists revokeCopy];
      (split; [exact revokeSys_parent|]); (split; [first [exact revokeSys_child|exact revokeSys_copy]|by vm_compute]).
  - intros q x [-> | ->]%Hin Hx; [rewrite revokeSys_child in Hx|rewrite revokeSys_copy in Hx];
      injection Hx as <-; reflexivity.
Qed.

(** The same with an interrupt pending and one work unit missing *)
Definition revokeBusy : kstate :=
  upd_ksHw (upd_hw_hi_pend [40] (ksHw revokeSys)) (upd_ksWorkUnitsCompleted (CONFIG_MAX_NUM_WORK_UNITS_PER_PREEMPTION - 1) revokeSys).
Lemma revokeBusy_row : revocable revokeBusy [] (slotAt 0) [slotAt 1; slotAt 2] [].
Proof. by apply (revocable_ext revokeSys), revokeSys_row. Qed.
(** Without an interrupt both children go, with one the call is preempted. *)
Lemma revokeSys_whole st s' : revoked revokeSys [] (slotAt 0) [slotAt 1; slotAt 2] [] st s' -> st = EXCEPTION_NONE.
Proof.
  intros (ds1 & ds2 & E & _ & Hp & [[-> _]|[-> _]] & _); [done|]. destruct (pa_preempted _ _ _ _ Hp eq_refl) as [H0 Hm].
  apply (f_equal length) in E. rewrite length_app in E. cbn in E. change (ksWorkUnitsCompleted revokeSys) with 0 in Hm.
  unfold CONFIG_MAX_NUM_WORK_UNITS_PER_PREEMPTION in Hm. rewrite Z.mod_small in Hm; lia.
Qed.
Lemma revokeBusy_part st s' : revoked revokeBusy [] (slotAt 0) [slotAt 1; slotAt 2] [] st s' -> st = EXCEPTION_PREEMPTED.
Proof.
  intros (ds1 & ds2 & E & _ & Hp & [[-> ->]|[-> _]] & _); [|done]. rewrite app_nil_r in E. subst ds1.
  apply (pa_pending _ _ _ _ Hp 0); [by vm_compute; lia|reflexivity].
Qed.
Lemma cteRevoke_row_witness :
  wp (cteRevoke (slotAt 0)) (fun st _ => st = EXCEPTION_NONE) revokeSys /\
  wp (cteRevoke (slotAt 0)) (fun st _ => st = EXCEPTION_PREEMPTED) revokeBusy.
Proof.
  split.
  - eapply wp_mono; [apply (cteRevoke_row _ _ _ _ _ revokeSys_row); split; [discriminate|reflexivity]|exact revokeSys_whole].
  - eapply wp_mono; [apply (cteRevoke_row _ _ _ _ _ revokeBusy_row); split; [discriminate|reflexivity]|exact revokeBusy_part].
Defined.
