(* ===== verification/BitfieldsSpec.v ===== *)
(** * Bit fields: theorems

    Packing followed by unpacking gives back every value that fits its block; the
    packed number has the size of the block. *)
From stdpp Require Import base list gmap.
From Stdlib Require Import ZArith Lia.
From S2P Require Import Prelude.
From S2P Require Import Words.
From S2P Require Import Structures.
From S2P Require Import KernelState.
From S2P Require Import Bitfields.


(** ** Packing and unpacking *)
Lemma field_mod w v : 0 <= w -> field w v = v mod 2 ^ w.
Proof. intros. unfold field. by apply Z.land_ones. Qed.

Lemma bf_get_div z n w : 0 <= n -> 0 <= w -> bf_get z n w = (z / 2 ^ n) mod 2 ^ w.
Proof. intros. unfold bf_get. by rewrite Z.land_ones, Z.shiftr_div_pow2. Qed.

Definition slot_ok (f : bf_slot) : bool :=
  (0 <=? slot_size f) && match f with Pad _ => true | _ => slot_size f <=? 32 end.
Definition sizes_ok (b : block) : bool := forallb slot_ok b.
Lemma slot_ok_size f : slot_ok f = true -> 0 <= slot_size f.
Proof. intros [?%Z.leb_le _]%andb_true_iff. done. Qed.
Lemma sizes_ok_cons f b : sizes_ok (f :: b) = true -> slot_ok f = true /\ sizes_ok b = true.
Proof. apply andb_true_iff. Qed.
Lemma block_size_nonneg b : sizes_ok b = true -> 0 <= block_size b.
Proof. induction b as [|f b IH]; [done|]. intros [H1%slot_ok_size H2]%sizes_ok_cons. specialize (IH H2). unfold block_size in *. cbn [foldr]. lia. Qed.

Lemma to_bits_range f v : 0 <= slot_size f -> 0 <= to_bits f v < 2 ^ slot_size f.
Proof.
  intros H. assert (0 < 2 ^ slot_size f) by (apply Z.pow_pos_nonneg; lia).
  destruct f; cbn in *; rewrite ?field_mod by lia; [lia| |]; by apply Z.mod_pos_bound.
Qed.

Lemma pack_slot_range x y n w : 0 <= n -> 0 <= w -> 0 <= x < 2 ^ w -> 0 <= y < 2 ^ n -> 0 <= x * 2 ^ n + y < 2 ^ (w + n).
Proof. intros. rewrite Z.pow_add_r by lia. nia. Qed.

Lemma pack_range b vs : sizes_ok b = true -> 0 <= pack b vs < 2 ^ block_size b.
Proof.
  revert vs. induction b as [|f b IH]; intros vs; [done|]. intros [H1%slot_ok_size H2]%sizes_ok_cons.
  pose proof (block_size_nonneg b H2) as Hb. pose proof (fun vs => IH vs H2) as IHb. cbn [block_size foldr]. fold (block_size b).
  assert (0 < 2 ^ block_size b) by (apply Z.pow_pos_nonneg; lia).
  assert (2 ^ block_size b <= 2 ^ (slot_size f + block_size b)) by (apply Z.pow_le_mono_r; lia).
  destruct f as [n1 | n2 | n3]; cbn [pack]; [specialize (IHb vs); cbn [slot_size] in *; lia| |]; (destruct vs as [|v vs]; [lia|]);
    rewrite (lor_disjoint _ _ _ Hb (IHb vs)); (apply (pack_slot_range _ _ _ _ Hb H1); [apply (to_bits_range _ v H1)|apply IHb]).
Qed.

(** The bits above a block do not matter for its fields. *)
Lemma bf_get_above z k n m w : 0 <= n -> 0 <= w -> n + w <= m -> bf_get (k * 2 ^ m + z) n w = bf_get z n w.
Proof.
  intros Hn Hw Hm. rewrite !bf_get_div by done.
  replace (k * 2 ^ m + z) with (z + k * 2 ^ (m - n - w) * 2 ^ w * 2 ^ n).
  - rewrite Z.div_add by (apply Z.pow_nonzero; lia). by rewrite Z.mod_add by (apply Z.pow_nonzero; lia).
  - replace m with ((m - n - w) + w + n) at 2 by lia. rewrite !Z.pow_add_r by lia. ring.
Qed.
Lemma unpack_above b k z m : sizes_ok b = true -> block_size b <= m -> unpack b (k * 2 ^ m + z) = unpack b z.
Proof.
  induction b as [|f b IH]; [done|]. intros [H1%slot_ok_size H2]%sizes_ok_cons Hm. cbn [block_size foldr] in Hm. fold (block_size b) in Hm.
  pose proof (block_size_nonneg b H2). assert (block_size b <= m) by lia.
  destruct f; cbn [unpack slot_size] in *; rewrite IH by done; [done| |]; by rewrite bf_get_above by lia.
Qed.

Lemma of_to_bits f v : slot_ok f = true -> fits_slot f v = true -> (forall w, f <> Pad w) -> of_bits f (to_bits f v) = v.
Proof.
  intros [H1%Z.leb_le H2]%andb_true_iff Hf Hp. destruct f as [n1 | n2 | n3]; cbn in *; [by destruct (Hp n1)|by apply Z.eqb_eq in Hf|].
  apply Z.eqb_eq in Hf. apply Z.leb_le in H2. rewrite <- Hf at 2. unfold field, field_high, wshr.
  apply Z.bits_inj'. intros i Hi. rewrite Z.land_spec, !Z.shiftl_spec, Z.land_spec by lia.
  destruct (Z.lt_ge_cases i (32 - n3)).
  - rewrite (Z.testbit_neg_r _ (i - (32 - n3))) by lia. by rewrite andb_false_l, (Z.testbit_neg_r (Z.ones n3)), andb_false_r by lia.
  - rewrite Z.shiftr_spec by lia. by replace (i - (32 - n3) + (32 - n3)) with i by lia.
Qed.

Lemma unpack_pack b vs : sizes_ok b = true -> block_fits b vs = true -> unpack b (pack b vs) = vs.
Proof.
  revert vs. induction b as [|f b IH]; intros vs; [by destruct vs|]. intros [Hslot H2]%sizes_ok_cons Hf. pose proof (slot_ok_size f Hslot) as H1.
  pose proof (block_size_nonneg b H2). assert (forall v vs, (forall w, f <> Pad w) -> fits_slot f v && block_fits b vs = true ->
    of_bits f (bf_get (Z.shiftl (to_bits f v) (block_size b) |w pack b vs) (block_size b) (slot_size f)) ::
    unpack b (Z.shiftl (to_bits f v) (block_size b) |w pack b vs) = v :: vs) as Hgo.
  { intros v vs' Hp [Hv Hvs]%andb_true_iff. pose proof (pack_range b vs' H2). rewrite lor_disjoint by done.
    rewrite unpack_above, IH by (done || lia). f_equal. rewrite bf_get_div by lia.
    rewrite Z.div_add_l by (apply Z.pow_nonzero; lia). rewrite Z.div_small, Z.add_0_r by done.
    rewrite Z.mod_small by (by apply to_bits_range). by apply of_to_bits. }
  destruct f as [n1 | n2 | n3]; cbn [block_fits unpack pack] in *; [by apply IH| |]; (destruct vs as [|v vs]; [done|]); by apply Hgo.
Qed.

(** ** The tags of capabilities *)
Lemma pack_snoc b vs w v : sizes_ok b = true -> 0 <= w <= 32 -> block_fits b vs = true ->
  pack (b ++ [Field w]) (vs ++ [v]) = pack b vs * 2 ^ w + field w v.
Proof.
  intros Hb Hw. revert vs. induction b as [|f b IH]; intros vs.
  { destruct vs; [|done]. intros _. cbn. by rewrite Z.lor_0_r, Z.shiftl_0_r. }
  apply sizes_ok_cons in Hb as [H1%slot_ok_size H2]. specialize (IH H2).
  assert (block_size (b ++ [Field w]) = block_size b + w) as Hsize.
  { clear. induction b as [|f b IH]; cbn in *; [lia|]. fold (block_size (b ++ [Field w])). rewrite IH. unfold block_size. lia. }
  pose proof (block_size_nonneg b H2).
  assert (forall v0 vs, block_fits b vs = true ->
    Z.shiftl (to_bits f v0) (block_size (b ++ [Field w])) |w pack (b ++ [Field w]) (vs ++ [v]) =
    (Z.shiftl (to_bits f v0) (block_size b) |w pack b vs) * 2 ^ w + field w v) as Hgo.
  { intros v0 vs' Hf. pose proof (pack_range b vs' H2). assert (0 <= field w v < 2 ^ w) by (rewrite field_mod by lia; apply Z.mod_pos_bound, Z.pow_pos_nonneg; lia).
    rewrite IH by done. rewrite !lor_disjoint; try lia; [rewrite Hsize, Z.pow_add_r by lia; ring|].
    rewrite Hsize, Z.add_comm. rewrite (Z.add_comm (block_size b)). rewrite Z.add_comm. rewrite (Z.add_comm w).
    apply pack_slot_range; lia. }
  destruct f as [n1 | n2 | n3]; cbn [block_fits app pack]; [apply IH| |]; (destruct vs as [|v0 vs]; [done|]); cbn [app];
    intros [_ Hf]%andb_true_iff; by apply Hgo.
Qed.

Lemma land_low x m w : 0 <= w -> Z.land m (Z.ones w) = m -> Z.land x m = Z.land (x mod 2 ^ w) m.
Proof. intros Hw Hm. rewrite <- Z.land_ones by done. rewrite <- Z.land_assoc, (Z.land_comm (Z.ones w)). by rewrite Hm. Qed.

Lemma cap_tag_number_4 x v : 0 <= v < 16 -> Z.land v 0xe <> 0xe -> cap_tag_number (bf_word (x * 2 ^ 4 + v) 0) = v.
Proof.
  intros Hv Ht. unfold cap_tag_number, bf_word. change (wordBits * 0) with 0. change wordBits with 32. rewrite bf_get_div by lia. rewrite Z.div_1_r.
  assert (((x * 2 ^ 4 + v) mod 2 ^ 32) mod 2 ^ 4 = v) as E.
  { rewrite Z.mod_mod_divide by (by exists (2 ^ 28)). rewrite Z.add_comm, Z.mod_add by done. by apply Z.mod_small. }
  rewrite (land_low _ 0xe 4) by done. rewrite E. rewrite (proj2 (Z.eqb_neq _ _) Ht). cbn [negb].
  rewrite (land_low _ 0xf 4) by done. rewrite E. change 0xf with (Z.ones 4). rewrite Z.land_ones by done. by apply Z.mod_small.
Qed.
Lemma cap_tag_number_8 x v : 0 <= v < 256 -> Z.land v 0xe = 0xe -> cap_tag_number (bf_word (x * 2 ^ 8 + v) 0) = v.
Proof.
  intros Hv Ht. unfold cap_tag_number, bf_word. change (wordBits * 0) with 0. change wordBits with 32. rewrite bf_get_div by lia. rewrite Z.div_1_r.
  assert (((x * 2 ^ 8 + v) mod 2 ^ 32) mod 2 ^ 8 = v) as E.
  { rewrite Z.mod_mod_divide by (by exists (2 ^ 24)). rewrite Z.add_comm, Z.mod_add by done. by apply Z.mod_small. }
  rewrite (land_low _ 0xe 8) by done. rewrite E, Ht. cbn [negb Z.eqb Pos.eqb].
  rewrite (land_low _ 0xff 8) by done. rewrite E. change 0xff with (Z.ones 8). rewrite Z.land_ones by done. by apply Z.mod_small.
Qed.

Lemma fits_nil b w : block_fits (b ++ [Field w]) [] = false.
Proof. by induction b as [|[] b IH]. Qed.
Lemma fits_snoc b vs w v : block_fits (b ++ [Field w]) (vs ++ [v]) = true -> block_fits b vs = true /\ field w v = v.
Proof.
  revert vs. induction b as [|f b IH]; intros vs; cbn [block_fits app].
  { destruct vs as [|x [|y vs]]; cbn; rewrite ?andb_true_r, ?andb_false_r, ?Z.eqb_eq; done. }
  destruct f; [apply IH| |]; (destruct vs as [|x vs]; cbn [app]; [by rewrite fits_nil, andb_false_r|]);
    rewrite !andb_true_iff; intros [Hx [Hb Hv]%IH]; done.
Qed.

Definition cap_tag_width (t : cap_tag) : Z :=
  match t with cap_irq_control_cap | cap_irq_handler_cap | cap_zombie_cap | cap_domain_cap => 8 | _ => 4 end.
Lemma cap_tag_of_encode (c : cap) : bf_ok c = true -> cap_tag_of (bf_encode c) = Some (cap_get_capType c).
Proof.
  unfold bf_ok, bf_encode. cbn [bf_block bf_values cap_packed]. set (t := cap_get_capType c).
  assert (cap_block t = removelast (cap_block t) ++ [Field (cap_tag_width t)]) as Eb by (by destruct t).
  assert (sizes_ok (removelast (cap_block t)) = true) as Hs by (by destruct t).
  rewrite Eb. intros [Hf Ht]%fits_snoc. rewrite pack_snoc, Ht by (done || (destruct t; done)).
  assert (forall x, cap_tag_number (bf_word (x * 2 ^ cap_tag_width t + cap_tag_value t) 0) = cap_tag_value t) as Hn.
  { intros x. destruct t; first [by apply cap_tag_number_4|by apply cap_tag_number_8]. }
  unfold cap_tag_of. rewrite Hn. by destruct t.
Qed.

Lemma flag_bool_word b : flag (bool_word b) = b.
Proof. by destruct b. Qed.

Lemma cap_roundtrip (c : cap) : bf_ok c = true -> bf_read (bf_encode c) = Some c /\ 0 <= bf_encode c < 2 ^ 64.
Proof.
  intros Hok. split.
  - change (bf_read (bf_encode c)) with (t ← cap_tag_of (bf_encode c); cap_of_fields t (unpack (cap_block t) (bf_encode c))).
    rewrite cap_tag_of_encode by done. cbn [mbind option_bind].
    unfold bf_ok, bf_encode in *. cbn [bf_block bf_values cap_packed] in *.
    rewrite unpack_pack; [|by destruct c|exact Hok]. destruct c; cbn; rewrite ?flag_bool_word; done.
  - replace 64 with (block_size (bf_block c)) by (by destruct c). apply pack_range. by destruct c.
Qed.
Lemma mdb_roundtrip (m : mdb_node) : bf_ok m = true -> bf_read (bf_encode m) = Some m /\ 0 <= bf_encode m < 2 ^ 64.
Proof.
  intros Hok. split; [|by apply (pack_range mdb_node_block)]. cbn [bf_read mdb_node_packed]. unfold bf_encode.
  rewrite (unpack_pack mdb_node_block) by done. destruct m. cbn. by rewrite !flag_bool_word.
Qed.
Lemma ts_roundtrip (t : thread_state) : bf_ok t = true -> bf_read (bf_encode t) = Some t /\ 0 <= bf_encode t < 2 ^ 96.
Proof.
  intros Hok. split; [|by apply (pack_range thread_state_block)]. cbn [bf_read thread_state_packed]. unfold bf_encode.
  rewrite (unpack_pack thread_state_block) by done. destruct t as [? ? ? ? ? ? ty]. cbn. rewrite !flag_bool_word. by destruct ty.
Qed.
Lemma ep_roundtrip (e : endpoint) : bf_ok e = true -> bf_read (bf_encode e) = Some e /\ 0 <= bf_encode e < 2 ^ 128.
Proof.
  intros Hok. split; [|by apply (pack_range endpoint_block)]. cbn [bf_read endpoint_packed]. unfold bf_encode.
  rewrite (unpack_pack endpoint_block) by done. destruct e as [? ? st]. cbn. by destruct st.
Qed.

(** C16: the packed structures of the kernel keep what is put into them: reading the
    words packed from a capability, a derivation node, a thread state or an endpoint
    whose values fit their fields gives it back, tags included; the packed number
    has the size of its block (8, 8, 12 and 16 bytes), and no field of any block
    crosses a word, as the generator of the accessors demands. *)
Theorem bitfields_roundtrip :
  (forall c : cap, bf_ok c = true -> bf_read (bf_encode c) = Some c /\ 0 <= bf_encode c < 2 ^ 64) /\
  (forall m : mdb_node, bf_ok m = true -> bf_read (bf_encode m) = Some m /\ 0 <= bf_encode m < 2 ^ 64) /\
  (forall t : thread_state, bf_ok t = true -> bf_read (bf_encode t) = Some t /\ 0 <= bf_encode t < 2 ^ 96) /\
  (forall e : endpoint, bf_ok e = true -> bf_read (bf_encode e) = Some e /\ 0 <= bf_encode e < 2 ^ 128) /\
  forallb within_words (mdb_node_block :: thread_state_block :: endpoint_block :: (cap_block <$> cap_tags)) = true.
Proof.
  split_and!; [exact cap_roundtrip|exact mdb_roundtrip|exact ts_roundtrip|exact ep_roundtrip|by vm_compute].
Qed.

Lemma bitfields_roundtrip_witness :
  let c := Cap_frame ARMSection 5 VMReadWrite 0x12340000 3 0xe0100000 in
  bf_encode c = 9249347792918807555 /\ bf_read (bf_encode c) = Some c.
Proof. split; [reflexivity|]. apply (proj1 bitfields_roundtrip). reflexivity. Defined.
