(* ===== verification/Confined.v ===== *)
(** * Confined priorities

    A state is confined to a priority when no thread has a higher one, and every thread, and the processor, is in a domain
    that exists. [keeps Q m] says that [m] preserves this whenever it returns, with a result that satisfies [Q]; the rules
    below follow the constructions of the monad, and the tactic [keep] applies them
    together with what the hint database [keeps] has about the operations. *)
From stdpp Require Import base list gmap.
From Stdlib Require Import ZArith Lia.
From S2P Require Import Prelude.
From S2P Require Import Structures.
From S2P Require Import KernelState.
From S2P Require Import SchedQueue.
From S2P Require Import CapOps.
From S2P Require Import MDB.

(** The priority, the same for all of an execution *)
Class Limit := limit : Z.
Definition prio_ok {lim : Limit} (p : Z) : Prop := 0 <= p <= limit.
Definition tcb_ok {lim : Limit} (t : tcb) : Prop := prio_ok t.(tcbPriority) /\ t.(tcbDomain) < CONFIG_NUM_DOMAINS.

Record confined {lim : Limit} (s : kstate) : Prop := {
  cf_limit : 0 <= limit;
  cf_tcbs : map_Forall (fun _ t => tcb_ok t) (ksTcbs s);
  cf_domain : ksCurDomain s < CONFIG_NUM_DOMAINS }.

Lemma confined_ext {lim : Limit} s s' : confined s -> ksTcbs s' = ksTcbs s -> ksCurDomain s' = ksCurDomain s -> confined s'.
Proof. intros [] E1 E2. split; by rewrite ?E1, ?E2. Qed.

Definition keeps {lim : Limit} {A} (Q : A -> Prop) (m : K A) : Prop :=
  forall s a s', confined s -> m s = Ret a s' -> confined s' /\ Q a.
Definition any {A} : A -> Prop := fun _ => True.

(** ** Rules *)
Section rules.
Context {lim : Limit} {A B : Type}.
Implicit Types (Q : A -> Prop) (m : K A).

Lemma keeps_weaken Q (R : A -> Prop) m : keeps Q m -> (forall a, Q a -> R a) -> keeps R m.
Proof. intros H HQ s a s' Hs E. destruct (H s a s' Hs E). auto. Qed.
Lemma keeps_any Q m : keeps Q m -> keeps any m.
Proof. intros H. by eapply keeps_weaken. Qed.
Lemma keeps_ret Q a : Q a -> keeps Q (ret a).
Proof. by intros H s b s' Hs [= <- <-]. Qed.
Lemma keeps_bind (R : B -> Prop) Q (m : K B) (k : B -> K A) :
  keeps R m -> (forall b, R b -> keeps Q (k b)) -> keeps Q (bind m k).
Proof.
  intros Hm Hk s a s'' Hs E. destruct (bind_inv _ _ _ _ _ E) as (b & s' & E1 & E2).
  destruct (Hm _ _ _ Hs E1) as [Hs' Hb]. by apply (Hk b Hb s').
Qed.
Lemma keeps_stop Q e : keeps Q (halt_with e).
Proof. by intros s a s' Hs. Qed.
Lemma keeps_fail Q : keeps Q fail.
Proof. by intros s a s' Hs. Qed.
Lemma keeps_of_option Q (o : option A) : (forall a, o = Some a -> Q a) -> keeps Q (of_option o).
Proof. intros H s a s' Hs E. destruct o; [|done]. injection E as <- <-. auto. Qed.
Lemma keeps_gets (f : kstate -> A) : keeps any (gets f).
Proof. by intros s a s' Hs [= <- <-]. Qed.
End rules.

Lemma keeps_get {lim : Limit} : keeps confined get.
Proof. by intros s a s' Hs [= <- <-]. Qed.
Lemma keeps_modify {lim : Limit} f : (forall s, confined s -> confined (f s)) -> keeps any (modify f).
Proof. intros H s a s' Hs [= _ <-]. split; [by apply H|done]. Qed.
Lemma keeps_assert {lim : Limit} b : keeps (fun _ => b = true) (assert b).
Proof. intros s a s' Hs. destruct b; [|done]. by intros [= _ <-]. Qed.
Lemma keeps_when {lim : Limit} b m : (b = true -> keeps any m) -> keeps any (when b m).
Proof. intros H. destruct b; [by apply H|by apply keeps_ret]. Qed.
Lemma keeps_for_upto {lim : Limit} n f : forall first, (forall i, keeps any (f i)) -> keeps any (for_upto n first f).
Proof.
  induction n as [|n IH]; intros first Hf; [by apply keeps_ret|]. intros s a s' Hs E. cbn in E.
  destruct (f first s) as [[] s1|] eqn:E1; [|done]. destruct (Hf _ _ _ _ Hs E1) as [Hs1 _]. by apply (IH (first + 1) Hf s1).
Qed.
Lemma keeps_for_until {lim : Limit} n f : forall first, (forall i, keeps any (f i)) -> keeps any (for_until n first f).
Proof.
  induction n as [|n IH]; intros first Hf; [by apply keeps_ret|]. intros s a s' Hs E. cbn in E.
  destruct (f first s) as [[] s1|] eqn:E1; [| |done]; destruct (Hf _ _ _ _ Hs E1) as [Hs1 _].
  - by injection E as <- <-.
  - by apply (IH (first + 1) Hf s1).
Qed.

(** ** Threads and domains *)
Section objects.
Context {lim : Limit}.
Lemma keeps_get_tcb p : keeps tcb_ok (get_tcb p).
Proof.
  unfold get_tcb. eapply keeps_bind; [apply keeps_get|]. intros s Hs. apply keeps_of_option. intros t Ht. by apply (cf_tcbs s Hs p).
Qed.
Lemma confined_insert_tcb s p t : confined s -> tcb_ok t -> confined (upd_ksTcbs (<[p := t]> (ksTcbs s)) s).
Proof. intros [] Hc. split; [done|by apply map_Forall_insert_2|done]. Qed.
Lemma confined_new_tcb s : confined s -> tcb_ok tcb_zero.
Proof. intros [Hl _ _]. split; [split; [done|exact Hl]|done]. Qed.
Lemma zero_ok t : tcb_ok t -> tcb_ok tcb_zero.
Proof. intros [[? ?] _]. split; [split; [done|]|done]. cbn. lia. Qed.
Lemma keeps_mod_tcb p f : (forall t, tcb_ok t -> tcb_ok (f t)) -> keeps any (mod_tcb p f).
Proof.
  intros Hf. eapply keeps_bind; [apply keeps_get_tcb|]. intros c Hc. apply keeps_modify. intros s Hs. by apply confined_insert_tcb; auto.
Qed.
(** A priority of a message is checked against that of the caller. *)
Lemma prio_masked t p : tcb_ok t -> ((p &w MASK 8) >? t.(tcbPriority)) = false -> prio_ok (p &w MASK 8).
Proof.
  intros [[_ H] _] E. rewrite Z.gtb_ltb, Z.ltb_ge in E. split; [by apply Z.land_nonneg; right|lia].
Qed.
Lemma prio_set t p : tcb_ok t -> prio_ok p -> tcb_ok (upd_tcbPriority p t).
Proof. intros [_ Hd] Hp. by split. Qed.
Lemma domain_set t d : tcb_ok t -> d < CONFIG_NUM_DOMAINS -> tcb_ok (upd_tcbDomain d t).
Proof. intros [Hp _] Hd. by split. Qed.
Lemma domain_checked d : (d >=? CONFIG_NUM_DOMAINS) = false -> d < CONFIG_NUM_DOMAINS.
Proof. intros E. rewrite Z.geb_leb, Z.leb_gt in E. exact E. Qed.
End objects.

(** ** The tactic

    A goal on facts about values is left to [auto] with the hints of [keeps]; a
    program is taken apart by its construction. *)
Create HintDb keeps.
#[export] Hint Resolve prio_masked prio_set domain_set domain_checked cf_domain confined_new_tcb zero_ok : keeps.
Lemma any_intro {A} (a : A) : any a.
Proof. done. Qed.
#[export] Hint Resolve any_intro : keeps.

#[export] Hint Resolve keeps_get keeps_gets keeps_stop keeps_fail keeps_assert keeps_get_tcb : keeps.

(** A known operation, first with what the hints say of its result *)
Ltac keep_known :=
  first [solve [eauto 5 with keeps nocore] | solve [eapply keeps_any; eauto 5 with keeps nocore]].
(** A write to another field of a TCB *)
Ltac tcb_same := match goal with H : tcb_ok ?t |- tcb_ok _ => exact H end.
(** Facts: of hypotheses, of [auto] *)
Ltac keep_fact :=
  intros; cbn beta in *; cbn [fst snd] in *; solve [assumption | tcb_same | auto 7 with keeps nocore | done | eauto 5 with keeps].
Ltac keep_step :=
  lazymatch goal with
  | |- keeps _ (bind get _) => eapply keeps_bind; [apply keeps_get|]; cbn beta; intros ? ?
  | |- keeps _ (bind _ _) =>
      first [eapply keeps_bind; [keep_known|] | eapply (keeps_bind any); [solve [keep]|]]; cbn beta; intros ? ?
  | |- keeps _ (ret _) => apply keeps_ret; keep_fact
  | |- keeps _ (when _ _) => apply keeps_when; intros ?
  | |- keeps _ (for_upto _ _ _) => apply keeps_for_upto; intros ?
  | |- keeps _ (for_until _ _ _) => apply keeps_for_until; intros ?
  | |- keeps _ (modify _) =>
      apply keeps_modify; intros ? ?;
      first [eapply confined_ext; [eassumption|reflexivity|reflexivity]
            |apply confined_insert_tcb; [assumption|by eapply confined_new_tcb]]
  | |- keeps _ (of_option _) => apply keeps_of_option; keep_fact
  | |- keeps _ (mod_tcb _ _) => apply keeps_mod_tcb; keep_fact
  | |- keeps _ (match ?x with _ => _ end) => destruct x eqn:?
  | |- keeps _ _ => keep_known
  end
with keep := repeat (cbv beta zeta; keep_step).

(** ** Objects *)
Section slots.
Context {lim : Limit}.
Lemma k_get_cte p : keeps any (get_cte p).
Proof. unfold get_cte. keep. Qed.
Lemma k_mod_cte p f : keeps any (mod_cte p f).
Proof. pose proof k_get_cte. unfold mod_cte. keep. Qed.
Lemma k_get_ep p : keeps any (get_ep p).
Proof. unfold get_ep. keep. Qed.
End slots.
#[export] Hint Resolve k_get_cte k_mod_cte k_get_ep : keeps.
Lemma k_get_cap {lim : Limit} p : keeps any (get_cap p).
Proof. unfold get_cap. keep. Qed.
#[export] Hint Resolve k_get_cap : keeps.
Lemma k_set_cap {lim : Limit} p c : keeps any (set_cap p c).
Proof. unfold set_cap. keep. Qed.
#[export] Hint Resolve k_set_cap : keeps.
Lemma k_mod_mdb {lim : Limit} p f : keeps any (mod_mdb p f).
Proof. unfold mod_mdb. keep. Qed.
#[export] Hint Resolve k_mod_mdb : keeps.
Lemma k_set_mdb {lim : Limit} p m : keeps any (set_mdb p m).
Proof. unfold set_mdb. keep. Qed.
#[export] Hint Resolve k_set_mdb : keeps.
Lemma k_mod_ep {lim : Limit} p f : keeps any (mod_ep p f).
Proof. unfold mod_ep. keep. Qed.
#[export] Hint Resolve k_mod_ep : keeps.
Lemma k_mod_tcbState {lim : Limit} p f : keeps any (mod_tcbState p f).
Proof. unfold mod_tcbState. keep. Qed.
#[export] Hint Resolve k_mod_tcbState : keeps.
