(* ===== verification/ConfinedOps.v ===== *)
(** * Confined priorities: scheduling, address spaces, slots

    The operations of the components below the invocations keep the types: each
    lemma is found by the tactic [keep] from those before it. *)
From stdpp Require Import base list gmap.
From Stdlib Require Import ZArith Lia.
From S2P Require Import Prelude.
From S2P Require Import Structures.
From S2P Require Import KernelState.
From S2P Require Import SchedQueue.
From S2P Require Import VSpace.
From S2P Require Import Gic.
From S2P Require Import Scheduler.
From S2P Require Import CapOps.
From S2P Require Import MDB.
From S2P Require Import CSpace.
From S2P Require Import Endpoint.
From S2P Require Import Confined.

Lemma k_get_aep {lim : Limit} p : keeps any (get_aep p).
Proof. unfold get_aep. keep. Qed.
#[export] Hint Resolve k_get_aep : keeps.
Lemma k_mod_aep {lim : Limit} p f : keeps any (mod_aep p f).
Proof. unfold mod_aep. keep. Qed.
#[export] Hint Resolve k_mod_aep : keeps.
Lemma k_read_word {lim : Limit} a : keeps any (read_word a).
Proof. unfold read_word. keep. Qed.
#[export] Hint Resolve k_read_word : keeps.
Lemma k_write_word {lim : Limit} a v : keeps any (write_word a v).
Proof. unfold write_word. keep. Qed.
#[export] Hint Resolve k_write_word : keeps.
Lemma k_getRegister {lim : Limit} thread reg : keeps any (getRegister thread reg).
Proof. unfold getRegister. keep. Qed.
#[export] Hint Resolve k_getRegister : keeps.
Lemma k_setRegister {lim : Limit} thread reg w : keeps any (setRegister thread reg w).
Proof. unfold setRegister. keep. Qed.
#[export] Hint Resolve k_setRegister : keeps.
Lemma k_getRestartPC {lim : Limit} thread : keeps any (getRestartPC thread).
Proof. unfold getRestartPC. keep. Qed.
#[export] Hint Resolve k_getRestartPC : keeps.
Lemma k_setNextPC {lim : Limit} thread v : keeps any (setNextPC thread v).
Proof. unfold setNextPC. keep. Qed.
#[export] Hint Resolve k_setNextPC : keeps.
Lemma k_get_ready_queue {lim : Limit} idx : keeps any (get_ready_queue idx).
Proof. unfold get_ready_queue. keep. Qed.
#[export] Hint Resolve k_get_ready_queue : keeps.
Lemma k_set_ready_queue {lim : Limit} idx q : keeps any (set_ready_queue idx q).
Proof. unfold set_ready_queue. keep. Qed.
#[export] Hint Resolve k_set_ready_queue : keeps.
Lemma k_syscall_error_with {lim : Limit} f : keeps any (syscall_error_with f).
Proof. unfold syscall_error_with. keep. Qed.
#[export] Hint Resolve k_syscall_error_with : keeps.
Lemma k_set_current_lookup_fault {lim : Limit} f : keeps any (set_current_lookup_fault f).
Proof. unfold set_current_lookup_fault. keep. Qed.
#[export] Hint Resolve k_set_current_lookup_fault : keeps.
Lemma k_set_current_fault {lim : Limit} f : keeps any (set_current_fault f).
Proof. unfold set_current_fault. keep. Qed.
#[export] Hint Resolve k_set_current_fault : keeps.
Lemma k_throw {lim : Limit} t : keeps any (throw t).
Proof. unfold throw. keep. Qed.
#[export] Hint Resolve k_throw : keeps.
Lemma k_throw_invalid_cap {lim : Limit} n : keeps any (throw_invalid_cap n).
Proof. unfold throw_invalid_cap. keep. Qed.
#[export] Hint Resolve k_throw_invalid_cap : keeps.
Lemma k_throw_invalid_arg {lim : Limit} n : keeps any (throw_invalid_arg n).
Proof. unfold throw_invalid_arg. keep. Qed.
#[export] Hint Resolve k_throw_invalid_arg : keeps.
Lemma k_throw_range {lim : Limit} lo hi : keeps any (throw_range lo hi).
Proof. unfold throw_range. keep. Qed.
#[export] Hint Resolve k_throw_range : keeps.
Lemma k_throw_failed_lookup {lim : Limit} wasSource : keeps any (throw_failed_lookup wasSource).
Proof. unfold throw_failed_lookup. keep. Qed.
#[export] Hint Resolve k_throw_failed_lookup : keeps.
Lemma k_hw_emit {lim : Limit} op : keeps any (hw_emit op).
Proof. unfold hw_emit. keep. Qed.
#[export] Hint Resolve k_hw_emit : keeps.
Lemma k_tcbSchedEnqueue {lim : Limit} t : keeps any (tcbSchedEnqueue t).
Proof. unfold tcbSchedEnqueue. keep. Qed.
#[export] Hint Resolve k_tcbSchedEnqueue : keeps.
Lemma k_tcbSchedAppend {lim : Limit} t : keeps any (tcbSchedAppend t).
Proof. unfold tcbSchedAppend. keep. Qed.
#[export] Hint Resolve k_tcbSchedAppend : keeps.
Lemma k_tcbSchedDequeue {lim : Limit} t : keeps any (tcbSchedDequeue t).
Proof. unfold tcbSchedDequeue. keep. Qed.
#[export] Hint Resolve k_tcbSchedDequeue : keeps.
Lemma k_tcbEPAppend {lim : Limit} t queue : keeps any (tcbEPAppend t queue).
Proof. unfold tcbEPAppend. keep. Qed.
#[export] Hint Resolve k_tcbEPAppend : keeps.
Lemma k_tcbEPDequeue {lim : Limit} t queue : keeps any (tcbEPDequeue t queue).
Proof. unfold tcbEPDequeue. keep. Qed.
#[export] Hint Resolve k_tcbEPDequeue : keeps.
Lemma k_APFromVMRights {lim : Limit} vm_rights : keeps any (APFromVMRights vm_rights).
Proof. unfold APFromVMRights. keep. Qed.
#[export] Hint Resolve k_APFromVMRights : keeps.
Lemma k_cleanByVA_PoU {lim : Limit} va pa : keeps any (cleanByVA_PoU va pa).
Proof. unfold cleanByVA_PoU. keep. Qed.
#[export] Hint Resolve k_cleanByVA_PoU : keeps.
Lemma k_cleanCacheRange_PoU {lim : Limit} start last pstart : keeps any (cleanCacheRange_PoU start last pstart).
Proof. unfold cleanCacheRange_PoU. keep. Qed.
#[export] Hint Resolve k_cleanCacheRange_PoU : keeps.
Lemma k_invalidateTLB_ASID {lim : Limit} hw_asid : keeps any (invalidateTLB_ASID hw_asid).
Proof. unfold invalidateTLB_ASID. keep. Qed.
#[export] Hint Resolve k_invalidateTLB_ASID : keeps.
Lemma k_invalidateTLB_VAASID {lim : Limit} mva : keeps any (invalidateTLB_VAASID mva).
Proof. unfold invalidateTLB_VAASID. keep. Qed.
#[export] Hint Resolve k_invalidateTLB_VAASID : keeps.
Lemma k_cleanCaches_PoU {lim : Limit} : keeps any (cleanCaches_PoU).
Proof. unfold cleanCaches_PoU. keep. Qed.
#[export] Hint Resolve k_cleanCaches_PoU : keeps.
Lemma k_writeTTBR0 {lim : Limit} addr : keeps any (writeTTBR0 addr).
Proof. unfold writeTTBR0. keep. Qed.
#[export] Hint Resolve k_writeTTBR0 : keeps.
Lemma k_setCurrentPD {lim : Limit} addr : keeps any (setCurrentPD addr).
Proof. unfold setCurrentPD. keep. Qed.
#[export] Hint Resolve k_setCurrentPD : keeps.
Lemma k_memzero {lim : Limit} p n : keeps any (memzero p n).
Proof. unfold memzero. keep. Qed.
#[export] Hint Resolve k_memzero : keeps.
Lemma k_clearMemory {lim : Limit} p bits : keeps any (clearMemory p bits).
Proof. unfold clearMemory. keep. Qed.
#[export] Hint Resolve k_clearMemory : keeps.
Lemma k_lookupIPCBuffer {lim : Limit} isReceiver thread : keeps any (lookupIPCBuffer isReceiver thread).
Proof. unfold lookupIPCBuffer. keep. Qed.
#[export] Hint Resolve k_lookupIPCBuffer : keeps.
Lemma k_get_asid_table {lim : Limit} i : keeps any (get_asid_table i).
Proof. unfold get_asid_table. keep. Qed.
#[export] Hint Resolve k_get_asid_table : keeps.
Lemma k_set_asid_table {lim : Limit} i v : keeps any (set_asid_table i v).
Proof. unfold set_asid_table. keep. Qed.
#[export] Hint Resolve k_set_asid_table : keeps.
Lemma k_set_hwasid {lim : Limit} h asid : keeps any (set_hwasid h asid).
Proof. unfold set_hwasid. keep. Qed.
#[export] Hint Resolve k_set_hwasid : keeps.
Lemma k_findPDForASID {lim : Limit} asid : keeps any (findPDForASID asid).
Proof. unfold findPDForASID. keep. Qed.
#[export] Hint Resolve k_findPDForASID : keeps.
Lemma k_lookupPTSlot {lim : Limit} pd vptr : keeps any (lookupPTSlot pd vptr).
Proof. unfold lookupPTSlot. keep. Qed.
#[export] Hint Resolve k_lookupPTSlot : keeps.
Lemma k_handleVMFault {lim : Limit} thread vm_faultType : keeps any (handleVMFault thread vm_faultType).
Proof. unfold handleVMFault. keep. Qed.
#[export] Hint Resolve k_handleVMFault : keeps.
Lemma k_asid_pd {lim : Limit} asid : keeps any (asid_pd asid).
Proof. unfold asid_pd. keep. Qed.
#[export] Hint Resolve k_asid_pd : keeps.
Lemma k_invalidateASID {lim : Limit} asid : keeps any (invalidateASID asid).
Proof. unfold invalidateASID. keep. Qed.
#[export] Hint Resolve k_invalidateASID : keeps.
Lemma k_loadHWASID {lim : Limit} asid : keeps any (loadHWASID asid).
Proof. unfold loadHWASID. keep. Qed.
#[export] Hint Resolve k_loadHWASID : keeps.
Lemma k_storeHWASID {lim : Limit} asid hw_asid : keeps any (storeHWASID asid hw_asid).
Proof. unfold storeHWASID. keep. Qed.
#[export] Hint Resolve k_storeHWASID : keeps.
Lemma k_invalidateASIDEntry {lim : Limit} asid : keeps any (invalidateASIDEntry asid).
Proof. unfold invalidateASIDEntry. keep. Qed.
#[export] Hint Resolve k_invalidateASIDEntry : keeps.
Lemma k_findFreeHWASID {lim : Limit} : keeps any (findFreeHWASID).
Proof. unfold findFreeHWASID. keep. Qed.
#[export] Hint Resolve k_findFreeHWASID : keeps.
Lemma k_getHWASID {lim : Limit} asid : keeps any (getHWASID asid).
Proof. unfold getHWASID. keep. Qed.
#[export] Hint Resolve k_getHWASID : keeps.
Lemma k_armv_contextSwitch_HWASID {lim : Limit} cap_pd hw_asid : keeps any (armv_contextSwitch_HWASID cap_pd hw_asid).
Proof. unfold armv_contextSwitch_HWASID. keep. Qed.
#[export] Hint Resolve k_armv_contextSwitch_HWASID : keeps.
Lemma k_armv_contextSwitch {lim : Limit} cap_pd asid : keeps any (armv_contextSwitch cap_pd asid).
Proof. unfold armv_contextSwitch. keep. Qed.
#[export] Hint Resolve k_armv_contextSwitch : keeps.
Lemma k_setVMRoot {lim : Limit} tcb : keeps any (setVMRoot tcb).
Proof. unfold setVMRoot. keep. Qed.
#[export] Hint Resolve k_setVMRoot : keeps.
Lemma k_setVMRootForFlush {lim : Limit} pd asid : keeps any (setVMRootForFlush pd asid).
Proof. unfold setVMRootForFlush. keep. Qed.
#[export] Hint Resolve k_setVMRootForFlush : keeps.
Lemma k_checkValidIPCBuffer {lim : Limit} vptr c : keeps any (checkValidIPCBuffer vptr c).
Proof. unfold checkValidIPCBuffer. keep. Qed.
#[export] Hint Resolve k_checkValidIPCBuffer : keeps.
Lemma k_flushPage {lim : Limit} page_size pd asid vptr : keeps any (flushPage page_size pd asid vptr).
Proof. unfold flushPage. keep. Qed.
#[export] Hint Resolve k_flushPage : keeps.
Lemma k_flushTable {lim : Limit} pd asid vptr pt : keeps any (flushTable pd asid vptr pt).
Proof. unfold flushTable. keep. Qed.
#[export] Hint Resolve k_flushTable : keeps.
Lemma k_flushSpace {lim : Limit} asid : keeps any (flushSpace asid).
Proof. unfold flushSpace. keep. Qed.
#[export] Hint Resolve k_flushSpace : keeps.
Lemma k_invalidateTLBByASID {lim : Limit} asid : keeps any (invalidateTLBByASID asid).
Proof. unfold invalidateTLBByASID. keep. Qed.
#[export] Hint Resolve k_invalidateTLBByASID : keeps.
Lemma k_setVMRoot_current {lim : Limit} : keeps any (setVMRoot_current).
Proof. unfold setVMRoot_current. keep. Qed.
#[export] Hint Resolve k_setVMRoot_current : keeps.
Lemma k_deleteASIDPool {lim : Limit} asid_base pool : keeps any (deleteASIDPool asid_base pool).
Proof. unfold deleteASIDPool. keep. Qed.
#[export] Hint Resolve k_deleteASIDPool : keeps.
Lemma k_deleteASID {lim : Limit} asid pd : keeps any (deleteASID asid pd).
Proof. unfold deleteASID. keep. Qed.
#[export] Hint Resolve k_deleteASID : keeps.
Lemma k_pageTableMapped {lim : Limit} asid vaddr pt : keeps any (pageTableMapped asid vaddr pt).
Proof. unfold pageTableMapped. keep. Qed.
#[export] Hint Resolve k_pageTableMapped : keeps.
Lemma k_unmapPageTable {lim : Limit} asid vaddr pt : keeps any (unmapPageTable asid vaddr pt).
Proof. unfold unmapPageTable. keep. Qed.
#[export] Hint Resolve k_unmapPageTable : keeps.
Lemma k_unmapSmallPage {lim : Limit} pd vptr addr : keeps any (unmapSmallPage pd vptr addr).
Proof. unfold unmapSmallPage. keep. Qed.
#[export] Hint Resolve k_unmapSmallPage : keeps.
Lemma k_unmapLargePage {lim : Limit} pd vptr addr : keeps any (unmapLargePage pd vptr addr).
Proof. unfold unmapLargePage. keep. Qed.
#[export] Hint Resolve k_unmapLargePage : keeps.
Lemma k_unmapSection {lim : Limit} pd vptr addr : keeps any (unmapSection pd vptr addr).
Proof. unfold unmapSection. keep. Qed.
#[export] Hint Resolve k_unmapSection : keeps.
Lemma k_unmapSuperSection {lim : Limit} pd vptr addr : keeps any (unmapSuperSection pd vptr addr).
Proof. unfold unmapSuperSection. keep. Qed.
#[export] Hint Resolve k_unmapSuperSection : keeps.
Lemma k_unmapPage {lim : Limit} page_size asid vptr pptr : keeps any (unmapPage page_size asid vptr pptr).
Proof. unfold unmapPage. keep. Qed.
#[export] Hint Resolve k_unmapPage : keeps.
Lemma k_copyGlobalMappings {lim : Limit} newPD : keeps any (copyGlobalMappings newPD).
Proof. unfold copyGlobalMappings. keep. Qed.
#[export] Hint Resolve k_copyGlobalMappings : keeps.
Lemma k_mod_hw {lim : Limit} f : keeps any (mod_hw f).
Proof. unfold mod_hw. keep. Qed.
#[export] Hint Resolve k_mod_hw : keeps.
Lemma k_read_int_ack {lim : Limit} : keeps any (read_int_ack).
Proof. unfold read_int_ack. keep. Qed.
#[export] Hint Resolve k_read_int_ack : keeps.
Lemma k_read_hi_pend {lim : Limit} : keeps any (read_hi_pend).
Proof. unfold read_hi_pend. keep. Qed.
#[export] Hint Resolve k_read_hi_pend : keeps.
Lemma k_is_irq_edge_triggered {lim : Limit} irq : keeps any (is_irq_edge_triggered irq).
Proof. unfold is_irq_edge_triggered. keep. Qed.
#[export] Hint Resolve k_is_irq_edge_triggered : keeps.
Lemma k_dist_pending_clr {lim : Limit} irq : keeps any (dist_pending_clr irq).
Proof. unfold dist_pending_clr. keep. Qed.
#[export] Hint Resolve k_dist_pending_clr : keeps.
Lemma k_dist_enable_clr {lim : Limit} irq : keeps any (dist_enable_clr irq).
Proof. unfold dist_enable_clr. keep. Qed.
#[export] Hint Resolve k_dist_enable_clr : keeps.
Lemma k_dist_enable_set {lim : Limit} irq : keeps any (dist_enable_set irq).
Proof. unfold dist_enable_set. keep. Qed.
#[export] Hint Resolve k_dist_enable_set : keeps.
Lemma k_getActiveIRQ {lim : Limit} : keeps any (getActiveIRQ).
Proof. unfold getActiveIRQ. keep. Qed.
#[export] Hint Resolve k_getActiveIRQ : keeps.
Lemma k_isIRQPending {lim : Limit} : keeps any (isIRQPending).
Proof. unfold isIRQPending. keep. Qed.
#[export] Hint Resolve k_isIRQPending : keeps.
Lemma k_maskInterrupt {lim : Limit} disable irq : keeps any (maskInterrupt disable irq).
Proof. unfold maskInterrupt. keep. Qed.
#[export] Hint Resolve k_maskInterrupt : keeps.
Lemma k_ackInterrupt {lim : Limit} irq : keeps any (ackInterrupt irq).
Proof. unfold ackInterrupt. keep. Qed.
#[export] Hint Resolve k_ackInterrupt : keeps.
Lemma k_handleSpuriousIRQ {lim : Limit} : keeps any (handleSpuriousIRQ).
Proof. unfold handleSpuriousIRQ. keep. Qed.
#[export] Hint Resolve k_handleSpuriousIRQ : keeps.
Lemma k_handleReservedIRQ {lim : Limit} irq : keeps any (handleReservedIRQ irq).
Proof. unfold handleReservedIRQ. keep. Qed.
#[export] Hint Resolve k_handleReservedIRQ : keeps.
Lemma k_resetTimer {lim : Limit} : keeps any (resetTimer).
Proof. unfold resetTimer. keep. Qed.
#[export] Hint Resolve k_resetTimer : keeps.
Lemma k_preemptionPoint {lim : Limit} : keeps any (preemptionPoint).
Proof. unfold preemptionPoint. keep. Qed.
#[export] Hint Resolve k_preemptionPoint : keeps.
Lemma k_get_tsType {lim : Limit} thread : keeps any (get_tsType thread).
Proof. unfold get_tsType. keep. Qed.
#[export] Hint Resolve k_get_tsType : keeps.
Lemma k_isBlocked {lim : Limit} thread : keeps any (isBlocked thread).
Proof. unfold isBlocked. keep. Qed.
#[export] Hint Resolve k_isBlocked : keeps.
Lemma k_isRunnable {lim : Limit} thread : keeps any (isRunnable thread).
Proof. unfold isRunnable. keep. Qed.
#[export] Hint Resolve k_isRunnable : keeps.
Lemma k_set_action {lim : Limit} a : keeps any (set_action a).
Proof. unfold set_action. keep. Qed.
#[export] Hint Resolve k_set_action : keeps.
Lemma k_rescheduleRequired {lim : Limit} : keeps any (rescheduleRequired).
Proof. unfold rescheduleRequired. keep. Qed.
#[export] Hint Resolve k_rescheduleRequired : keeps.
Lemma k_scheduleTCB {lim : Limit} tptr : keeps any (scheduleTCB tptr).
Proof. unfold scheduleTCB. keep. Qed.
#[export] Hint Resolve k_scheduleTCB : keeps.
Lemma k_setThreadState {lim : Limit} tptr ts : keeps any (setThreadState tptr ts).
Proof. unfold setThreadState. keep. Qed.
#[export] Hint Resolve k_setThreadState : keeps.
Lemma k_possibleSwitchTo {lim : Limit} target onSamePriority : keeps any (possibleSwitchTo target onSamePriority).
Proof. unfold possibleSwitchTo. keep. Qed.
#[export] Hint Resolve k_possibleSwitchTo : keeps.
Lemma k_attemptSwitchTo {lim : Limit} target : keeps any (attemptSwitchTo target).
Proof. unfold attemptSwitchTo. keep. Qed.
#[export] Hint Resolve k_attemptSwitchTo : keeps.
Lemma k_switchIfRequiredTo {lim : Limit} target : keeps any (switchIfRequiredTo target).
Proof. unfold switchIfRequiredTo. keep. Qed.
#[export] Hint Resolve k_switchIfRequiredTo : keeps.
Lemma k_set_and_requeue {lim : Limit} tptr f : (forall t, tcb_ok t -> tcb_ok (f t)) -> keeps any (set_and_requeue tptr f).
Proof. intros. unfold set_and_requeue. keep. Qed.
#[export] Hint Resolve k_set_and_requeue : keeps.
Lemma k_setDomain {lim : Limit} tptr dom : dom < CONFIG_NUM_DOMAINS -> keeps any (setDomain tptr dom).
Proof. intros. unfold setDomain. keep. Qed.
#[export] Hint Resolve k_setDomain : keeps.
Lemma k_setPriority {lim : Limit} tptr prio : prio_ok prio -> keeps any (setPriority tptr prio).
Proof. intros. unfold setPriority. keep. Qed.
#[export] Hint Resolve k_setPriority : keeps.
Lemma k_setPolicy {lim : Limit} tptr policy : keeps any (setPolicy tptr policy).
Proof. unfold setPolicy. keep. Qed.
#[export] Hint Resolve k_setPolicy : keeps.
Lemma k_nextDomain {lim : Limit} : keeps any (nextDomain).
Proof.
  unfold nextDomain. eapply keeps_bind; [apply keeps_get|]. intros s _. cbv zeta. do 2 (eapply (keeps_bind any); [keep|intros ? _]).
  eapply (keeps_bind (fun e => e.1 < CONFIG_NUM_DOMAINS)).
  - apply keeps_of_option. intros e He. destruct (Z.to_nat _) as [|n]; [injection He as <-; done|by destruct n].
  - intros e He. eapply keeps_bind; [|intros ? _; keep]. apply keeps_modify. intros s' []. by split.
Qed.
#[export] Hint Resolve k_nextDomain : keeps.
Lemma k_Arch_switchToThread {lim : Limit} tcb : keeps any (Arch_switchToThread tcb).
Proof. unfold Arch_switchToThread. keep. Qed.
#[export] Hint Resolve k_Arch_switchToThread : keeps.
Lemma k_Arch_switchToIdleThread {lim : Limit} : keeps any (Arch_switchToIdleThread).
Proof. unfold Arch_switchToIdleThread. keep. Qed.
#[export] Hint Resolve k_Arch_switchToIdleThread : keeps.
Lemma k_Arch_activateIdleThread {lim : Limit} tcb : keeps any (Arch_activateIdleThread tcb).
Proof. unfold Arch_activateIdleThread. keep. Qed.
#[export] Hint Resolve k_Arch_activateIdleThread : keeps.
Lemma k_switchToThread {lim : Limit} thread : keeps any (switchToThread thread).
Proof. unfold switchToThread. keep. Qed.
#[export] Hint Resolve k_switchToThread : keeps.
Lemma k_switchToIdleThread {lim : Limit} : keeps any (switchToIdleThread).
Proof. unfold switchToIdleThread. keep. Qed.
#[export] Hint Resolve k_switchToIdleThread : keeps.
Lemma k_choose_from {lim : Limit} n : keeps any (choose_from n).
Proof.
  induction n as [|n IH]; intros; cbn [choose_from]; keep.
Qed.
#[export] Hint Resolve k_choose_from : keeps.
Lemma k_chooseThread {lim : Limit} : keeps any (chooseThread).
Proof. unfold chooseThread. keep. Qed.
#[export] Hint Resolve k_chooseThread : keeps.
Lemma k_schedule {lim : Limit} : keeps any (schedule).
Proof. unfold schedule. keep. Qed.
#[export] Hint Resolve k_schedule : keeps.
Lemma k_activateThread {lim : Limit} : keeps any (activateThread).
Proof. unfold activateThread. keep. Qed.
#[export] Hint Resolve k_activateThread : keeps.
Lemma k_timerTick {lim : Limit} : keeps any (timerTick).
Proof. unfold timerTick. keep. Qed.
#[export] Hint Resolve k_timerTick : keeps.
Lemma k_configureIdleThread {lim : Limit} idleThreadStart tcb : keeps any (configureIdleThread idleThreadStart tcb).
Proof. unfold configureIdleThread. keep. Qed.
#[export] Hint Resolve k_configureIdleThread : keeps.
Lemma k_mdb_next {lim : Limit} p : keeps any (mdb_next p).
Proof. unfold mdb_next. keep. Qed.
#[export] Hint Resolve k_mdb_next : keeps.
Lemma k_get_irq_state {lim : Limit} irq : keeps any (get_irq_state irq).
Proof. unfold get_irq_state. keep. Qed.
#[export] Hint Resolve k_get_irq_state : keeps.
Lemma k_isIRQActive {lim : Limit} irq : keeps any (isIRQActive irq).
Proof. unfold isIRQActive. keep. Qed.
#[export] Hint Resolve k_isIRQActive : keeps.
Lemma k_setIRQState {lim : Limit} irqState irq : keeps any (setIRQState irqState irq).
Proof. unfold setIRQState. keep. Qed.
#[export] Hint Resolve k_setIRQState : keeps.
Lemma k_deletedIRQHandler {lim : Limit} irq : keeps any (deletedIRQHandler irq).
Proof. unfold deletedIRQHandler. keep. Qed.
#[export] Hint Resolve k_deletedIRQHandler : keeps.
Lemma k_setUntypedCapAsFull {lim : Limit} srcCap newCap srcSlot : keeps any (setUntypedCapAsFull srcCap newCap srcSlot).
Proof. unfold setUntypedCapAsFull. keep. Qed.
#[export] Hint Resolve k_setUntypedCapAsFull : keeps.
Lemma k_newCapIsRevocable {lim : Limit} newCap srcCap : keeps any (newCapIsRevocable newCap srcCap).
Proof. unfold newCapIsRevocable. keep. Qed.
#[export] Hint Resolve k_newCapIsRevocable : keeps.
Lemma k_assert_empty_slot {lim : Limit} destSlot : keeps any (assert_empty_slot destSlot).
Proof. unfold assert_empty_slot. keep. Qed.
#[export] Hint Resolve k_assert_empty_slot : keeps.
Lemma k_cteInsert {lim : Limit} newCap srcSlot destSlot : keeps any (cteInsert newCap srcSlot destSlot).
Proof. intros. unfold cteInsert. keep. Qed.
#[export] Hint Resolve k_cteInsert : keeps.
Lemma k_insertNewCap {lim : Limit} parent slot c : keeps any (insertNewCap parent slot c).
Proof. intros. unfold insertNewCap. keep. Qed.
#[export] Hint Resolve k_insertNewCap : keeps.
Lemma k_cteMove {lim : Limit} newCap srcSlot destSlot : keeps any (cteMove newCap srcSlot destSlot).
Proof. intros. unfold cteMove. keep. Qed.
#[export] Hint Resolve k_cteMove : keeps.
Lemma k_cteSwap {lim : Limit} cap1 slot1 cap2 slot2 : keeps any (cteSwap cap1 slot1 cap2 slot2).
Proof. intros. unfold cteSwap. keep. Qed.
#[export] Hint Resolve k_cteSwap : keeps.
Lemma k_capSwapForDelete {lim : Limit} slot1 slot2 : keeps any (capSwapForDelete slot1 slot2).
Proof. unfold capSwapForDelete. keep. Qed.
#[export] Hint Resolve k_capSwapForDelete : keeps.
Lemma k_emptySlot {lim : Limit} slot irq : keeps any (emptySlot slot irq).
Proof. unfold emptySlot. keep. Qed.
#[export] Hint Resolve k_emptySlot : keeps.
Lemma k_setupReplyMaster {lim : Limit} thread : keeps any (setupReplyMaster thread).
Proof. unfold setupReplyMaster. keep. Qed.
#[export] Hint Resolve k_setupReplyMaster : keeps.
Lemma k_isMDBParentOf {lim : Limit} cte_a cte_b : keeps any (isMDBParentOf cte_a cte_b).
Proof. unfold isMDBParentOf. keep. Qed.
#[export] Hint Resolve k_isMDBParentOf : keeps.
Lemma k_ensureNoChildren {lim : Limit} slot : keeps any (ensureNoChildren slot).
Proof. unfold ensureNoChildren. keep. Qed.
#[export] Hint Resolve k_ensureNoChildren : keeps.
Lemma k_ensureEmptySlot {lim : Limit} slot : keeps any (ensureEmptySlot slot).
Proof. unfold ensureEmptySlot. keep. Qed.
#[export] Hint Resolve k_ensureEmptySlot : keeps.
Lemma k_isFinalCapability {lim : Limit} slot : keeps any (isFinalCapability slot).
Proof. unfold isFinalCapability. keep. Qed.
#[export] Hint Resolve k_isFinalCapability : keeps.
Lemma k_slotCapLongRunningDelete {lim : Limit} slot : keeps any (slotCapLongRunningDelete slot).
Proof. unfold slotCapLongRunningDelete. keep. Qed.
#[export] Hint Resolve k_slotCapLongRunningDelete : keeps.
Lemma k_capRemovable {lim : Limit} c slot : keeps any (capRemovable c slot).
Proof. unfold capRemovable. keep. Qed.
#[export] Hint Resolve k_capRemovable : keeps.
Lemma k_Arch_deriveCap {lim : Limit} slot c : keeps any (Arch_deriveCap slot c).
Proof. intros. unfold Arch_deriveCap. keep. Qed.
#[export] Hint Resolve k_Arch_deriveCap : keeps.
Lemma k_deriveCap {lim : Limit} slot c : keeps any (deriveCap slot c).
Proof. intros. unfold deriveCap. keep. Qed.
#[export] Hint Resolve k_deriveCap : keeps.
Lemma k_resolve_loop {lim : Limit} fuel nodeCap capptr n_bits bits0 : keeps any (resolve_loop fuel nodeCap capptr n_bits bits0).
Proof.
  revert nodeCap capptr n_bits bits0. induction fuel as [|fuel IH]; intros; cbn [resolve_loop]; keep.
Qed.
#[export] Hint Resolve k_resolve_loop : keeps.
Lemma k_resolveAddressBits {lim : Limit} nodeCap capptr n_bits : keeps any (resolveAddressBits nodeCap capptr n_bits).
Proof. unfold resolveAddressBits. keep. Qed.
#[export] Hint Resolve k_resolveAddressBits : keeps.
Lemma k_lookupSlot {lim : Limit} thread capptr : keeps any (lookupSlot thread capptr).
Proof. unfold lookupSlot. keep. Qed.
#[export] Hint Resolve k_lookupSlot : keeps.
Lemma k_lookupCap {lim : Limit} thread cPtr : keeps any (lookupCap thread cPtr).
Proof. unfold lookupCap. keep. Qed.
#[export] Hint Resolve k_lookupCap : keeps.
Lemma k_lookupCapAndSlot {lim : Limit} thread cPtr : keeps any (lookupCapAndSlot thread cPtr).
Proof. unfold lookupCapAndSlot. keep. Qed.
#[export] Hint Resolve k_lookupCapAndSlot : keeps.
Lemma k_lookupSlotForCNodeOp {lim : Limit} isSource root capptr depth : keeps any (lookupSlotForCNodeOp isSource root capptr depth).
Proof. unfold lookupSlotForCNodeOp. keep. Qed.
#[export] Hint Resolve k_lookupSlotForCNodeOp : keeps.
Lemma k_set_ep_queue {lim : Limit} epptr q : keeps any (set_ep_queue epptr q).
Proof. unfold set_ep_queue. keep. Qed.
#[export] Hint Resolve k_set_ep_queue : keeps.
Lemma k_set_aep_queue {lim : Limit} aepptr q : keeps any (set_aep_queue aepptr q).
Proof. unfold set_aep_queue. keep. Qed.
#[export] Hint Resolve k_set_aep_queue : keeps.
Lemma k_restart_all {lim : Limit} fuel thread : keeps any (restart_all fuel thread).
Proof.
  revert thread. induction fuel as [|fuel IH]; intros; cbn [restart_all]; keep.
Qed.
#[export] Hint Resolve k_restart_all : keeps.
Lemma k_epCancelAll {lim : Limit} epptr : keeps any (epCancelAll epptr).
Proof. unfold epCancelAll. keep. Qed.
#[export] Hint Resolve k_epCancelAll : keeps.
Lemma k_aepCancelAll {lim : Limit} aepptr : keeps any (aepCancelAll aepptr).
Proof. unfold aepCancelAll. keep. Qed.
#[export] Hint Resolve k_aepCancelAll : keeps.
Lemma k_cancel_badged {lim : Limit} fuel thread badge queue : keeps any (cancel_badged fuel thread badge queue).
Proof.
  revert thread badge queue. induction fuel as [|fuel IH]; intros; cbn [cancel_badged]; keep.
Qed.
#[export] Hint Resolve k_cancel_badged : keeps.
Lemma k_epCancelBadgedSends {lim : Limit} epptr badge : keeps any (epCancelBadgedSends epptr badge).
Proof. unfold epCancelBadgedSends. keep. Qed.
#[export] Hint Resolve k_epCancelBadgedSends : keeps.
Lemma k_asyncIPCCancel {lim : Limit} threadPtr aepptr : keeps any (asyncIPCCancel threadPtr aepptr).
Proof. unfold asyncIPCCancel. keep. Qed.
#[export] Hint Resolve k_asyncIPCCancel : keeps.
Lemma k_blockedIPCCancel {lim : Limit} tptr epptr : keeps any (blockedIPCCancel tptr epptr).
Proof. unfold blockedIPCCancel. keep. Qed.
#[export] Hint Resolve k_blockedIPCCancel : keeps.
