(* ===== verification/ConfinedKernel.v ===== *)
(** * Confined priorities: deletion, message transfer, object creation *)
From stdpp Require Import base list gmap.
From Stdlib Require Import ZArith Lia.
From S2P Require Import Prelude.
From S2P Require Import Structures.
From S2P Require Import KernelState.
From S2P Require Import SchedQueue.
From S2P Require Import VSpace.
From S2P Require Import Gic.
From S2P Require Import Scheduler.
From S2P Require Import CapOps.
From S2P Require Import MDB.
From S2P Require Import CSpace.
From S2P Require Import Endpoint.
From S2P Require Import Delete.
From S2P Require Import Ipc.
From S2P Require Import Untyped.
From S2P Require Import Confined.
From S2P Require Import ConfinedOps.

Lemma k_Arch_finaliseCap {lim : Limit} c final : keeps any (Arch_finaliseCap c final).
Proof. unfold Arch_finaliseCap. keep. Qed.
#[export] Hint Resolve k_Arch_finaliseCap : keeps.
Lemma k_Arch_prepareThreadDelete {lim : Limit} thread : keeps any (Arch_prepareThreadDelete thread).
Proof. unfold Arch_prepareThreadDelete. keep. Qed.
#[export] Hint Resolve k_Arch_prepareThreadDelete : keeps.
Lemma k_Arch_recycleCap {lim : Limit} is_final c : keeps any (Arch_recycleCap is_final c).
Proof. intros. unfold Arch_recycleCap. keep. Qed.
#[export] Hint Resolve k_Arch_recycleCap : keeps.
Lemma k_finaliseCap_basic {lim : Limit} c final : keeps any (finaliseCap_basic c final).
Proof. unfold finaliseCap_basic. keep. Qed.
#[export] Hint Resolve k_finaliseCap_basic : keeps.
Lemma k_finaliseCap_exposed {lim : Limit} c final : keeps any (finaliseCap_exposed c final).
Proof. unfold finaliseCap_exposed. keep. Qed.
#[export] Hint Resolve k_finaliseCap_exposed : keeps.
Lemma k_cteDeleteOne {lim : Limit} slot : keeps any (cteDeleteOne slot).
Proof. unfold cteDeleteOne. keep. Qed.
#[export] Hint Resolve k_cteDeleteOne : keeps.
Lemma k_deletingIRQHandler {lim : Limit} irq : keeps any (deletingIRQHandler irq).
Proof. unfold deletingIRQHandler. keep. Qed.
#[export] Hint Resolve k_deletingIRQHandler : keeps.
Lemma k_ipcCancel {lim : Limit} tptr : keeps any (ipcCancel tptr).
Proof. unfold ipcCancel. keep. Qed.
#[export] Hint Resolve k_ipcCancel : keeps.
Lemma k_suspend {lim : Limit} target : keeps any (suspend target).
Proof. unfold suspend. keep. Qed.
#[export] Hint Resolve k_suspend : keeps.
Lemma k_restart {lim : Limit} target : keeps any (restart target).
Proof. unfold restart. keep. Qed.
#[export] Hint Resolve k_restart : keeps.
Lemma k_finaliseCap {lim : Limit} c final exposed : keeps any (finaliseCap c final exposed).
Proof. intros. unfold finaliseCap. keep. Qed.
#[export] Hint Resolve k_finaliseCap : keeps.
Lemma k_finaliseSlot_loop {lim : Limit} reduceZombie fuel slot immediate : (forall slot i, keeps any (reduceZombie slot i)) -> keeps any (finaliseSlot_loop reduceZombie fuel slot immediate).
Proof.
  revert slot immediate. induction fuel as [|fuel IH]; intros; cbn [finaliseSlot_loop]; keep.
Qed.
#[export] Hint Resolve k_finaliseSlot_loop : keeps.
Lemma k_finaliseSlot_with {lim : Limit} reduceZombie slot immediate : (forall slot i, keeps any (reduceZombie slot i)) -> keeps any (finaliseSlot_with reduceZombie slot immediate).
Proof. intros. unfold finaliseSlot_with. keep. Qed.
#[export] Hint Resolve k_finaliseSlot_with : keeps.
Lemma k_cteDelete_with {lim : Limit} finaliseSlot slot exposed : (forall slot i, keeps any (finaliseSlot slot i)) -> keeps any (cteDelete_with finaliseSlot slot exposed).
Proof. intros. unfold cteDelete_with. keep. Qed.
#[export] Hint Resolve k_cteDelete_with : keeps.
Lemma k_reduceZombie_with {lim : Limit} cteDelete slot immediate : (forall slot i, keeps any (cteDelete slot i)) -> keeps any (reduceZombie_with cteDelete slot immediate).
Proof. intros. unfold reduceZombie_with. keep. Qed.
#[export] Hint Resolve k_reduceZombie_with : keeps.
Lemma k_reduceZombie_unexposed {lim : Limit} slot i : keeps any (reduceZombie_unexposed slot i).
Proof. apply k_reduceZombie_with. intros. keep. Qed.
Lemma k_cteDelete_unexposed {lim : Limit} slot i : keeps any (cteDelete_unexposed slot i).
Proof. apply k_cteDelete_with. intros. apply k_finaliseSlot_with, k_reduceZombie_unexposed. Qed.
Lemma k_reduceZombie {lim : Limit} slot i : keeps any (reduceZombie slot i).
Proof. apply k_reduceZombie_with, k_cteDelete_unexposed. Qed.
Lemma k_finaliseSlot {lim : Limit} slot i : keeps any (finaliseSlot slot i).
Proof. apply k_finaliseSlot_with, k_reduceZombie. Qed.
Lemma k_cteDelete {lim : Limit} slot i : keeps any (cteDelete slot i).
Proof. apply k_cteDelete_with, k_finaliseSlot. Qed.
#[export] Hint Resolve k_finaliseSlot k_cteDelete : keeps.
Lemma k_cteRevoke_loop {lim : Limit} fuel slot : keeps any (cteRevoke_loop fuel slot).
Proof.
  revert slot. induction fuel as [|fuel IH]; intros slot; cbn [cteRevoke_loop]; keep.
Qed.
#[export] Hint Resolve k_cteRevoke_loop : keeps.
Lemma k_cteRevoke {lim : Limit} slot : keeps any (cteRevoke slot).
Proof. unfold cteRevoke. keep. Qed.
#[export] Hint Resolve k_cteRevoke : keeps.
Lemma k_recycleCap {lim : Limit} is_final c : keeps any (recycleCap is_final c).
Proof. intros. unfold recycleCap. keep. Qed.
#[export] Hint Resolve k_recycleCap : keeps.
Lemma k_cteRecycle {lim : Limit} slot : keeps any (cteRecycle slot).
Proof. unfold cteRecycle. keep. Qed.
#[export] Hint Resolve k_cteRecycle : keeps.
Lemma k_msgRegister {lim : Limit} i : keeps any (msgRegister i).
Proof. unfold msgRegister. keep. Qed.
#[export] Hint Resolve k_msgRegister : keeps.
Lemma k_getSyscallArg {lim : Limit} i ipc_buffer : keeps any (getSyscallArg i ipc_buffer).
Proof. unfold getSyscallArg. keep. Qed.
#[export] Hint Resolve k_getSyscallArg : keeps.
Lemma k_getExtraCPtr {lim : Limit} bufferPtr i : keeps any (getExtraCPtr bufferPtr i).
Proof. unfold getExtraCPtr. keep. Qed.
#[export] Hint Resolve k_getExtraCPtr : keeps.
Lemma k_setExtraBadge {lim : Limit} bufferPtr badge i : keeps any (setExtraBadge bufferPtr badge i).
Proof. unfold setExtraBadge. keep. Qed.
#[export] Hint Resolve k_setExtraBadge : keeps.
Lemma k_set_excapref {lim : Limit} i slot : keeps any (set_excapref i slot).
Proof. unfold set_excapref. keep. Qed.
#[export] Hint Resolve k_set_excapref : keeps.
Lemma k_setMR {lim : Limit} receiver receiveIPCBuffer offset reg : keeps any (setMR receiver receiveIPCBuffer offset reg).
Proof. unfold setMR. keep. Qed.
#[export] Hint Resolve k_setMR : keeps.
Lemma k_setMRs_lookup_failure {lim : Limit} receiver receiveIPCBuffer luf offset : keeps any (setMRs_lookup_failure receiver receiveIPCBuffer luf offset).
Proof. unfold setMRs_lookup_failure. keep. Qed.
#[export] Hint Resolve k_setMRs_lookup_failure : keeps.
Lemma k_setMRs_fault {lim : Limit} sender receiver receiveIPCBuffer : keeps any (setMRs_fault sender receiver receiveIPCBuffer).
Proof. unfold setMRs_fault. keep. Qed.
#[export] Hint Resolve k_setMRs_fault : keeps.
Lemma k_setMRs_syscall_error {lim : Limit} thread receiveIPCBuffer : keeps any (setMRs_syscall_error thread receiveIPCBuffer).
Proof. unfold setMRs_syscall_error. keep. Qed.
#[export] Hint Resolve k_setMRs_syscall_error : keeps.
Lemma k_fault_reply_registers {lim : Limit} receiver sender regs n : keeps any (fault_reply_registers receiver sender regs n).
Proof. unfold fault_reply_registers. keep. Qed.
#[export] Hint Resolve k_fault_reply_registers : keeps.
Lemma k_handleFaultReply {lim : Limit} receiver sender : keeps any (handleFaultReply receiver sender).
Proof. unfold handleFaultReply. keep. Qed.
#[export] Hint Resolve k_handleFaultReply : keeps.
Lemma k_lookupExtraCaps_loop {lim : Limit} n i thread bufferPtr : keeps any (lookupExtraCaps_loop n i thread bufferPtr).
Proof.
  revert i thread bufferPtr. induction n as [|n IH]; intros; cbn [lookupExtraCaps_loop]; keep.
Qed.
#[export] Hint Resolve k_lookupExtraCaps_loop : keeps.
Lemma k_lookupExtraCaps {lim : Limit} thread bufferPtr info : keeps any (lookupExtraCaps thread bufferPtr info).
Proof. unfold lookupExtraCaps. keep. Qed.
#[export] Hint Resolve k_lookupExtraCaps : keeps.
Lemma k_copyMRs {lim : Limit} sender sendBuf receiver recvBuf n : keeps any (copyMRs sender sendBuf receiver recvBuf n).
Proof. unfold copyMRs. keep. Qed.
#[export] Hint Resolve k_copyMRs : keeps.
Lemma k_loadCapTransfer {lim : Limit} buffer : keeps any (loadCapTransfer buffer).
Proof. unfold loadCapTransfer. keep. Qed.
#[export] Hint Resolve k_loadCapTransfer : keeps.
Lemma k_getReceiveSlots {lim : Limit} thread buffer : keeps any (getReceiveSlots thread buffer).
Proof. unfold getReceiveSlots. keep. Qed.
#[export] Hint Resolve k_getReceiveSlots : keeps.
Lemma k_setupCallerCap {lim : Limit} sender receiver : keeps any (setupCallerCap sender receiver).
Proof. unfold setupCallerCap. keep. Qed.
#[export] Hint Resolve k_setupCallerCap : keeps.
Lemma k_deleteCallerCap {lim : Limit} receiver : keeps any (deleteCallerCap receiver).
Proof. unfold deleteCallerCap. keep. Qed.
#[export] Hint Resolve k_deleteCallerCap : keeps.
Lemma k_transferCaps_loop {lim : Limit} n i caps endpoint receiveBuffer diminish info destSlot : keeps any (transferCaps_loop n i caps endpoint receiveBuffer diminish info destSlot).
Proof.
  revert i caps endpoint receiveBuffer diminish info destSlot. induction n as [|n IH]; intros; cbn [transferCaps_loop]; keep.
Qed.
#[export] Hint Resolve k_transferCaps_loop : keeps.
Lemma k_transferCaps {lim : Limit} info caps endpoint receiver receiveBuffer diminish : keeps any (transferCaps info caps endpoint receiver receiveBuffer diminish).
Proof. unfold transferCaps. keep. Qed.
#[export] Hint Resolve k_transferCaps : keeps.
Lemma k_doNormalTransfer {lim : Limit} sender sendBuffer endpoint badge canGrant receiver receiveBuffer diminish : keeps any (doNormalTransfer sender sendBuffer endpoint badge canGrant receiver receiveBuffer diminish).
Proof. unfold doNormalTransfer. keep. Qed.
#[export] Hint Resolve k_doNormalTransfer : keeps.
Lemma k_doFaultTransfer {lim : Limit} badge sender receiver receiverIPCBuffer : keeps any (doFaultTransfer badge sender receiver receiverIPCBuffer).
Proof. unfold doFaultTransfer. keep. Qed.
#[export] Hint Resolve k_doFaultTransfer : keeps.
Lemma k_doIPCTransfer {lim : Limit} sender endpoint badge grant receiver diminish : keeps any (doIPCTransfer sender endpoint badge grant receiver diminish).
Proof. unfold doIPCTransfer. keep. Qed.
#[export] Hint Resolve k_doIPCTransfer : keeps.
Lemma k_doReplyTransfer {lim : Limit} sender receiver slot : keeps any (doReplyTransfer sender receiver slot).
Proof. unfold doReplyTransfer. keep. Qed.
#[export] Hint Resolve k_doReplyTransfer : keeps.
Lemma k_doAsyncTransfer {lim : Limit} badge msgWord thread : keeps any (doAsyncTransfer badge msgWord thread).
Proof. unfold doAsyncTransfer. keep. Qed.
#[export] Hint Resolve k_doAsyncTransfer : keeps.
Lemma k_sendIPC {lim : Limit} blocking do_call badge canGrant thread epptr : keeps any (sendIPC blocking do_call badge canGrant thread epptr).
Proof. unfold sendIPC. keep. Qed.
#[export] Hint Resolve k_sendIPC : keeps.
Lemma k_receiveIPC {lim : Limit} thread c : keeps any (receiveIPC thread c).
Proof. unfold receiveIPC. keep. Qed.
#[export] Hint Resolve k_receiveIPC : keeps.
Lemma k_replyFromKernel_error {lim : Limit} thread : keeps any (replyFromKernel_error thread).
Proof. unfold replyFromKernel_error. keep. Qed.
#[export] Hint Resolve k_replyFromKernel_error : keeps.
Lemma k_replyFromKernel_success_empty {lim : Limit} thread : keeps any (replyFromKernel_success_empty thread).
Proof. unfold replyFromKernel_success_empty. keep. Qed.
#[export] Hint Resolve k_replyFromKernel_success_empty : keeps.
Lemma k_sendAsyncIPC {lim : Limit} aepptr badge val : keeps any (sendAsyncIPC aepptr badge val).
Proof. unfold sendAsyncIPC. keep. Qed.
#[export] Hint Resolve k_sendAsyncIPC : keeps.
Lemma k_receiveAsyncIPC {lim : Limit} thread c : keeps any (receiveAsyncIPC thread c).
Proof. unfold receiveAsyncIPC. keep. Qed.
#[export] Hint Resolve k_receiveAsyncIPC : keeps.
Lemma map_Forall_filtered {A} (P : Z -> A -> Prop) (Q : Z * A -> Prop) `{forall x, Decision (Q x)} (m : gmap Z A) :
  map_Forall P m -> map_Forall P (filter Q m).
Proof. intros Hm k x [Hk _]%map_lookup_filter_Some. by apply (Hm k). Qed.
Lemma k_typ_region_bytes {lim : Limit} p bits : keeps any (typ_region_bytes p bits).
Proof.
  unfold typ_region_bytes. cbv zeta.
  do 4 (eapply keeps_bind; [apply keeps_modify; intros s []; split; try done; by apply map_Forall_filtered|intros ? ?]). keep.
Qed.
#[export] Hint Resolve k_typ_region_bytes : keeps.
Lemma k_take_words {lim : Limit} p size : keeps any (take_words p size).
Proof. unfold take_words. keep. Qed.
#[export] Hint Resolve k_take_words : keeps.
Lemma k_ptr_retyps_cte {lim : Limit} n p : keeps any (ptr_retyps_cte n p).
Proof. unfold ptr_retyps_cte. keep. Qed.
#[export] Hint Resolve k_ptr_retyps_cte : keeps.
Lemma k_ptr_retyp_tcb {lim : Limit} p : keeps any (ptr_retyp_tcb p).
Proof. unfold ptr_retyp_tcb. keep. Qed.
#[export] Hint Resolve k_ptr_retyp_tcb : keeps.
Lemma k_ptr_retyp_ep {lim : Limit} p : keeps any (ptr_retyp_ep p).
Proof. unfold ptr_retyp_ep. keep. Qed.
#[export] Hint Resolve k_ptr_retyp_ep : keeps.
Lemma k_ptr_retyp_aep {lim : Limit} p : keeps any (ptr_retyp_aep p).
Proof. unfold ptr_retyp_aep. keep. Qed.
#[export] Hint Resolve k_ptr_retyp_aep : keeps.
Lemma k_create_words {lim : Limit} regionBase bits : keeps any (create_words regionBase bits).
Proof. unfold create_words. keep. Qed.
#[export] Hint Resolve k_create_words : keeps.
Lemma k_Arch_createObject {lim : Limit} t regionBase userSize : keeps any (Arch_createObject t regionBase userSize).
Proof. unfold Arch_createObject. keep. Qed.
#[export] Hint Resolve k_Arch_createObject : keeps.
Lemma k_createObject {lim : Limit} t regionBase userSize : keeps any (createObject t regionBase userSize).
Proof. unfold createObject. keep. Qed.
#[export] Hint Resolve k_createObject : keeps.
Lemma k_fail_option {lim : Limit} {A} (o : option A) : keeps (fun a => o = Some a) (fail_option o).
Proof. destruct o; cbn [fail_option]; keep. Qed.
#[export] Hint Resolve k_fail_option : keeps.
Lemma k_createNewObjects {lim : Limit} t parent slots regionBase userSize : keeps any (createNewObjects t parent slots regionBase userSize).
Proof. unfold createNewObjects. keep. Qed.
#[export] Hint Resolve k_createNewObjects : keeps.
Lemma k_invokeUntyped_Retype {lim : Limit} srcSlot regionBase freeRegionBase newType userSize destSlots call : keeps any (invokeUntyped_Retype srcSlot regionBase freeRegionBase newType userSize destSlots call).
Proof. unfold invokeUntyped_Retype. keep. Qed.
#[export] Hint Resolve k_invokeUntyped_Retype : keeps.
Lemma k_ensureEmptySlots {lim : Limit} n cnode i : keeps any (ensureEmptySlots n cnode i).
Proof.
  revert cnode i. induction n as [|n IH]; intros; cbn [ensureEmptySlots]; keep.
Qed.
#[export] Hint Resolve k_ensureEmptySlots : keeps.
Lemma k_lookupNodeCap {lim : Limit} rootSlot nodeIndex nodeDepth : keeps any (lookupNodeCap rootSlot nodeIndex nodeDepth).
Proof. unfold lookupNodeCap. keep. Qed.
#[export] Hint Resolve k_lookupNodeCap : keeps.
Lemma k_decodeUntypedInvocation {lim : Limit} label length slot c extraCaps call buffer : keeps any (decodeUntypedInvocation label length slot c extraCaps call buffer).
Proof. unfold decodeUntypedInvocation. keep. Qed.
#[export] Hint Resolve k_decodeUntypedInvocation : keeps.
