(* ===== verification/ConfinedCalls.v ===== *)
(** * Confined priorities: invocations and entry points *)
From stdpp Require Import base list gmap.
From Stdlib Require Import ZArith Lia.
From S2P Require Import Prelude.
From S2P Require Import Structures.
From S2P Require Import KernelState.
From S2P Require Import SchedQueue.
From S2P Require Import VSpace.
From S2P Require Import Gic.
From S2P Require Import Scheduler.
From S2P Require Import CapOps.
From S2P Require Import MDB.
From S2P Require Import CSpace.
From S2P Require Import Endpoint.
From S2P Require Import Delete.
From S2P Require Import Ipc.
From S2P Require Import Untyped.
From S2P Require Import TcbOps.
From S2P Require Import CNodeOps.
From S2P Require Import Interrupt.
From S2P Require Import VSpaceInv.
From S2P Require Import Syscall.
From S2P Require Import Confined.
From S2P Require Import ConfinedOps.
From S2P Require Import ConfinedKernel.

Lemma k_restart_current {lim : Limit} : keeps any (restart_current).
Proof. unfold restart_current. keep. Qed.
#[export] Hint Resolve k_restart_current : keeps.
Lemma k_Arch_performTransfer {lim : Limit} arch tcb_src tcb_dest : keeps any (Arch_performTransfer arch tcb_src tcb_dest).
Proof. unfold Arch_performTransfer. keep. Qed.
#[export] Hint Resolve k_Arch_performTransfer : keeps.
Lemma k_invokeTCB_Suspend {lim : Limit} thread : keeps any (invokeTCB_Suspend thread).
Proof. unfold invokeTCB_Suspend. keep. Qed.
#[export] Hint Resolve k_invokeTCB_Suspend : keeps.
Lemma k_invokeTCB_Resume {lim : Limit} thread : keeps any (invokeTCB_Resume thread).
Proof. unfold invokeTCB_Resume. keep. Qed.
#[export] Hint Resolve k_invokeTCB_Resume : keeps.
Lemma k_insert_if_current {lim : Limit} newCap srcSlot tCap slot destSlot : keeps any (insert_if_current newCap srcSlot tCap slot destSlot).
Proof. intros. unfold insert_if_current. keep. Qed.
#[export] Hint Resolve k_insert_if_current : keeps.
Lemma k_replace_root {lim : Limit} rootSlot newCap srcSlot tCap slot : keeps any (replace_root rootSlot newCap srcSlot tCap slot).
Proof. intros. unfold replace_root. keep. Qed.
#[export] Hint Resolve k_replace_root : keeps.
Lemma k_replace_buffer {lim : Limit} target bufferAddr bufferCap bufferSrcSlot tCap slot : keeps any (replace_buffer target bufferAddr bufferCap bufferSrcSlot tCap slot).
Proof. intros. unfold replace_buffer. keep. Qed.
#[export] Hint Resolve k_replace_buffer : keeps.
Lemma k_invokeTCB_ThreadControl {lim : Limit} target slot faultep priority cRoot_newCap cRoot_srcSlot vRoot_newCap vRoot_srcSlot bufferAddr bufferCap bufferSrcSlot updateFlags :
  (negb (Z.land updateFlags thread_control_update_priority =? 0) = true -> prio_ok priority) ->
  keeps any (invokeTCB_ThreadControl target slot faultep priority cRoot_newCap cRoot_srcSlot vRoot_newCap vRoot_srcSlot bufferAddr bufferCap bufferSrcSlot updateFlags).
Proof. intros. unfold invokeTCB_ThreadControl. keep. Qed.
#[export] Hint Resolve k_invokeTCB_ThreadControl : keeps.
(** The updates that set no priority *)
Lemma no_prio_policy {lim : Limit} p : negb (Z.land thread_control_update_policy thread_control_update_priority =? 0) = true -> prio_ok p.
Proof. done. Qed.
Lemma no_prio_buffer {lim : Limit} p : negb (Z.land thread_control_update_ipc_buffer thread_control_update_priority =? 0) = true -> prio_ok p.
Proof. done. Qed.
Lemma no_prio_space {lim : Limit} p : negb (Z.land thread_control_update_space thread_control_update_priority =? 0) = true -> prio_ok p.
Proof. done. Qed.
#[export] Hint Resolve no_prio_policy no_prio_buffer no_prio_space : keeps.
Lemma k_copy_registers {lim : Limit} src dest regs n : keeps any (copy_registers src dest regs n).
Proof. unfold copy_registers. keep. Qed.
#[export] Hint Resolve k_copy_registers : keeps.
Lemma k_invokeTCB_CopyRegisters {lim : Limit} dest tcb_src suspendSource resumeTarget transferFrame transferInteger transferArch : keeps any (invokeTCB_CopyRegisters dest tcb_src suspendSource resumeTarget transferFrame transferInteger transferArch).
Proof. unfold invokeTCB_CopyRegisters. keep. Qed.
#[export] Hint Resolve k_invokeTCB_CopyRegisters : keeps.
Lemma k_read_into_registers {lim : Limit} src thread regs base first last : keeps any (read_into_registers src thread regs base first last).
Proof. unfold read_into_registers. keep. Qed.
#[export] Hint Resolve k_read_into_registers : keeps.
Lemma k_read_into_buffer {lim : Limit} src ipcBuffer regs base first last : keeps any (read_into_buffer src ipcBuffer regs base first last).
Proof. unfold read_into_buffer. keep. Qed.
#[export] Hint Resolve k_read_into_buffer : keeps.
Lemma k_invokeTCB_ReadRegisters {lim : Limit} tcb_src suspendSource n arch call : keeps any (invokeTCB_ReadRegisters tcb_src suspendSource n arch call).
Proof. unfold invokeTCB_ReadRegisters. keep. Qed.
#[export] Hint Resolve k_invokeTCB_ReadRegisters : keeps.
Lemma k_write_registers {lim : Limit} dest regs base n buffer : keeps any (write_registers dest regs base n buffer).
Proof. unfold write_registers. keep. Qed.
#[export] Hint Resolve k_write_registers : keeps.
Lemma k_invokeTCB_WriteRegisters {lim : Limit} dest resumeTarget n arch buffer : keeps any (invokeTCB_WriteRegisters dest resumeTarget n arch buffer).
Proof. unfold invokeTCB_WriteRegisters. keep. Qed.
#[export] Hint Resolve k_invokeTCB_WriteRegisters : keeps.
Lemma k_decodeCopyRegisters {lim : Limit} c length extraCaps buffer : keeps any (decodeCopyRegisters c length extraCaps buffer).
Proof. unfold decodeCopyRegisters. keep. Qed.
#[export] Hint Resolve k_decodeCopyRegisters : keeps.
Lemma k_decodeReadRegisters {lim : Limit} c length call buffer : keeps any (decodeReadRegisters c length call buffer).
Proof. unfold decodeReadRegisters. keep. Qed.
#[export] Hint Resolve k_decodeReadRegisters : keeps.
Lemma k_decodeWriteRegisters {lim : Limit} c length buffer : keeps any (decodeWriteRegisters c length buffer).
Proof. unfold decodeWriteRegisters. keep. Qed.
#[export] Hint Resolve k_decodeWriteRegisters : keeps.
Lemma k_derive_buffer {lim : Limit} bufferAddr bufferSlot bufferCap : keeps any (derive_buffer bufferAddr bufferSlot bufferCap).
Proof. intros. unfold derive_buffer. keep. Qed.
#[export] Hint Resolve k_derive_buffer : keeps.
Lemma k_roots_being_deleted {lim : Limit} tcb : keeps any (roots_being_deleted tcb).
Proof. unfold roots_being_deleted. keep. Qed.
#[export] Hint Resolve k_roots_being_deleted : keeps.
Lemma k_derive_root {lim : Limit} valid data slot rootCap : keeps any (derive_root valid data slot rootCap).
Proof. intros. unfold derive_root. keep. Qed.
#[export] Hint Resolve k_derive_root : keeps.
Lemma k_decodeTCBConfigure {lim : Limit} c length slot rootCaps buffer : keeps any (decodeTCBConfigure c length slot rootCaps buffer).
Proof. unfold decodeTCBConfigure. keep. Qed.
#[export] Hint Resolve k_decodeTCBConfigure : keeps.
Lemma k_decodeSetPriority {lim : Limit} c length buffer : keeps any (decodeSetPriority c length buffer).
Proof. unfold decodeSetPriority. keep. Qed.
#[export] Hint Resolve k_decodeSetPriority : keeps.
Lemma k_decodeSetPolicy {lim : Limit} c length buffer : keeps any (decodeSetPolicy c length buffer).
Proof. unfold decodeSetPolicy. keep. Qed.
#[export] Hint Resolve k_decodeSetPolicy : keeps.
Lemma k_decodeSetIPCBuffer {lim : Limit} c length slot extraCaps buffer : keeps any (decodeSetIPCBuffer c length slot extraCaps buffer).
Proof. unfold decodeSetIPCBuffer. keep. Qed.
#[export] Hint Resolve k_decodeSetIPCBuffer : keeps.
Lemma k_decodeSetSpace {lim : Limit} c length slot extraCaps buffer : keeps any (decodeSetSpace c length slot extraCaps buffer).
Proof. unfold decodeSetSpace. keep. Qed.
#[export] Hint Resolve k_decodeSetSpace : keeps.
Lemma k_decodeDomainInvocation {lim : Limit} label length extraCaps buffer : keeps any (decodeDomainInvocation label length extraCaps buffer).
Proof. unfold decodeDomainInvocation. keep. Qed.
#[export] Hint Resolve k_decodeDomainInvocation : keeps.
Lemma k_decodeTCBInvocation {lim : Limit} label length c slot extraCaps call buffer : keeps any (decodeTCBInvocation label length c slot extraCaps call buffer).
Proof. unfold decodeTCBInvocation. keep. Qed.
#[export] Hint Resolve k_decodeTCBInvocation : keeps.
Lemma k_invokeCNodeRevoke {lim : Limit} destSlot : keeps any (invokeCNodeRevoke destSlot).
Proof. unfold invokeCNodeRevoke. keep. Qed.
#[export] Hint Resolve k_invokeCNodeRevoke : keeps.
Lemma k_invokeCNodeDelete {lim : Limit} destSlot : keeps any (invokeCNodeDelete destSlot).
Proof. unfold invokeCNodeDelete. keep. Qed.
#[export] Hint Resolve k_invokeCNodeDelete : keeps.
Lemma k_invokeCNodeRecycle {lim : Limit} destSlot : keeps any (invokeCNodeRecycle destSlot).
Proof. unfold invokeCNodeRecycle. keep. Qed.
#[export] Hint Resolve k_invokeCNodeRecycle : keeps.
Lemma k_invokeCNodeInsert {lim : Limit} c srcSlot destSlot : keeps any (invokeCNodeInsert c srcSlot destSlot).
Proof. intros. unfold invokeCNodeInsert. keep. Qed.
#[export] Hint Resolve k_invokeCNodeInsert : keeps.
Lemma k_invokeCNodeMove {lim : Limit} c srcSlot destSlot : keeps any (invokeCNodeMove c srcSlot destSlot).
Proof. intros. unfold invokeCNodeMove. keep. Qed.
#[export] Hint Resolve k_invokeCNodeMove : keeps.
Lemma k_invokeCNodeRotate {lim : Limit} cap1 cap2 slot1 slot2 slot3 : keeps any (invokeCNodeRotate cap1 cap2 slot1 slot2 slot3).
Proof. intros. unfold invokeCNodeRotate. keep. Qed.
#[export] Hint Resolve k_invokeCNodeRotate : keeps.
Lemma k_invokeCNodeSaveCaller {lim : Limit} destSlot : keeps any (invokeCNodeSaveCaller destSlot).
Proof. unfold invokeCNodeSaveCaller. keep. Qed.
#[export] Hint Resolve k_invokeCNodeSaveCaller : keeps.
Lemma k_throw_missing_capability {lim : Limit} wasSource depth : keeps any (throw_missing_capability wasSource depth).
Proof. unfold throw_missing_capability. keep. Qed.
#[export] Hint Resolve k_throw_missing_capability : keeps.
Lemma k_decode_new_cap {lim : Limit} label length srcSlot srcCap buffer : keeps any (decode_new_cap label length srcSlot srcCap buffer).
Proof. intros. unfold decode_new_cap. keep. Qed.
#[export] Hint Resolve k_decode_new_cap : keeps.
Lemma k_decode_cnode_copy {lim : Limit} label length destSlot extraCaps buffer : keeps any (decode_cnode_copy label length destSlot extraCaps buffer).
Proof. unfold decode_cnode_copy. keep. Qed.
#[export] Hint Resolve k_decode_cnode_copy : keeps.
Lemma k_decode_cnode_rotate {lim : Limit} length destSlot extraCaps buffer : keeps any (decode_cnode_rotate length destSlot extraCaps buffer).
Proof. unfold decode_cnode_rotate. keep. Qed.
#[export] Hint Resolve k_decode_cnode_rotate : keeps.
Lemma k_decodeCNodeInvocation {lim : Limit} label length c extraCaps buffer : keeps any (decodeCNodeInvocation label length c extraCaps buffer).
Proof. unfold decodeCNodeInvocation. keep. Qed.
#[export] Hint Resolve k_decodeCNodeInvocation : keeps.
Lemma k_invokeIRQControl {lim : Limit} irq handlerSlot controlSlot : keeps any (invokeIRQControl irq handlerSlot controlSlot).
Proof. unfold invokeIRQControl. keep. Qed.
#[export] Hint Resolve k_invokeIRQControl : keeps.
Lemma k_invokeIRQHandler_AckIRQ {lim : Limit} irq : keeps any (invokeIRQHandler_AckIRQ irq).
Proof. unfold invokeIRQHandler_AckIRQ. keep. Qed.
#[export] Hint Resolve k_invokeIRQHandler_AckIRQ : keeps.
Lemma k_setInterruptMode {lim : Limit} irq levelTrigger polarityLow : keeps any (setInterruptMode irq levelTrigger polarityLow).
Proof. unfold setInterruptMode. keep. Qed.
#[export] Hint Resolve k_setInterruptMode : keeps.
Lemma k_invokeIRQHandler_SetMode {lim : Limit} irq levelTrigger polarityLow : keeps any (invokeIRQHandler_SetMode irq levelTrigger polarityLow).
Proof. unfold invokeIRQHandler_SetMode. keep. Qed.
#[export] Hint Resolve k_invokeIRQHandler_SetMode : keeps.
Lemma k_invokeIRQHandler_SetIRQHandler {lim : Limit} irq c slot : keeps any (invokeIRQHandler_SetIRQHandler irq c slot).
Proof. intros. unfold invokeIRQHandler_SetIRQHandler. keep. Qed.
#[export] Hint Resolve k_invokeIRQHandler_SetIRQHandler : keeps.
Lemma k_invokeIRQHandler_ClearIRQHandler {lim : Limit} irq : keeps any (invokeIRQHandler_ClearIRQHandler irq).
Proof. unfold invokeIRQHandler_ClearIRQHandler. keep. Qed.
#[export] Hint Resolve k_invokeIRQHandler_ClearIRQHandler : keeps.
Lemma k_Arch_decodeInterruptControl {lim : Limit} length extraCaps : keeps any (Arch_decodeInterruptControl length extraCaps).
Proof. unfold Arch_decodeInterruptControl. keep. Qed.
#[export] Hint Resolve k_Arch_decodeInterruptControl : keeps.
Lemma k_decodeIRQControlInvocation {lim : Limit} label length srcSlot extraCaps buffer : keeps any (decodeIRQControlInvocation label length srcSlot extraCaps buffer).
Proof. unfold decodeIRQControlInvocation. keep. Qed.
#[export] Hint Resolve k_decodeIRQControlInvocation : keeps.
Lemma k_decodeIRQHandlerInvocation {lim : Limit} label length irq extraCaps buffer : keeps any (decodeIRQHandlerInvocation label length irq extraCaps buffer).
Proof. unfold decodeIRQHandlerInvocation. keep. Qed.
#[export] Hint Resolve k_decodeIRQHandlerInvocation : keeps.
Lemma k_handleInterrupt {lim : Limit} irq : keeps any (handleInterrupt irq).
Proof. unfold handleInterrupt. keep. Qed.
#[export] Hint Resolve k_handleInterrupt : keeps.
Lemma k_makeUserPTE {lim : Limit} page_size paddr cacheable nonexecutable vm_rights : keeps any (makeUserPTE page_size paddr cacheable nonexecutable vm_rights).
Proof. unfold makeUserPTE. keep. Qed.
#[export] Hint Resolve k_makeUserPTE : keeps.
Lemma k_makeUserPDE {lim : Limit} page_size paddr parity cacheable nonexecutable domain vm_rights : keeps any (makeUserPDE page_size paddr parity cacheable nonexecutable domain vm_rights).
Proof. unfold makeUserPDE. keep. Qed.
#[export] Hint Resolve k_makeUserPDE : keeps.
Lemma k_pteCheckIfMapped {lim : Limit} pte : keeps any (pteCheckIfMapped pte).
Proof. unfold pteCheckIfMapped. keep. Qed.
#[export] Hint Resolve k_pteCheckIfMapped : keeps.
Lemma k_pdeCheckIfMapped {lim : Limit} pde : keeps any (pdeCheckIfMapped pde).
Proof. unfold pdeCheckIfMapped. keep. Qed.
#[export] Hint Resolve k_pdeCheckIfMapped : keeps.
Lemma k_write_entries {lim : Limit} mapped asid entry base length : (forall z, keeps any (mapped z)) -> keeps any (write_entries mapped asid entry base length).
Proof. intros. unfold write_entries. keep. Qed.
#[export] Hint Resolve k_write_entries : keeps.
Lemma k_performPageInvocationMapPTE {lim : Limit} asid c ctSlot pte base length : keeps any (performPageInvocationMapPTE asid c ctSlot pte base length).
Proof. intros. unfold performPageInvocationMapPTE. keep. Qed.
#[export] Hint Resolve k_performPageInvocationMapPTE : keeps.
Lemma k_performPageInvocationMapPDE {lim : Limit} asid c ctSlot pde base length : keeps any (performPageInvocationMapPDE asid c ctSlot pde base length).
Proof. intros. unfold performPageInvocationMapPDE. keep. Qed.
#[export] Hint Resolve k_performPageInvocationMapPDE : keeps.
Lemma k_performPageInvocationRemapPTE {lim : Limit} asid pte base length : keeps any (performPageInvocationRemapPTE asid pte base length).
Proof. unfold performPageInvocationRemapPTE. keep. Qed.
#[export] Hint Resolve k_performPageInvocationRemapPTE : keeps.
Lemma k_performPageInvocationRemapPDE {lim : Limit} asid pde base length : keeps any (performPageInvocationRemapPDE asid pde base length).
Proof. unfold performPageInvocationRemapPDE. keep. Qed.
#[export] Hint Resolve k_performPageInvocationRemapPDE : keeps.
Lemma k_performPageInvocationUnmap {lim : Limit} c ctSlot : keeps any (performPageInvocationUnmap c ctSlot).
Proof. unfold performPageInvocationUnmap. keep. Qed.
#[export] Hint Resolve k_performPageInvocationUnmap : keeps.
Lemma k_performPageGetAddress {lim : Limit} vbase_ptr : keeps any (performPageGetAddress vbase_ptr).
Proof. unfold performPageGetAddress. keep. Qed.
#[export] Hint Resolve k_performPageGetAddress : keeps.
Lemma k_performPageTableInvocationMap {lim : Limit} c ctSlot pde pdSlot : keeps any (performPageTableInvocationMap c ctSlot pde pdSlot).
Proof. intros. unfold performPageTableInvocationMap. keep. Qed.
#[export] Hint Resolve k_performPageTableInvocationMap : keeps.
Lemma k_performPageTableInvocationUnmap {lim : Limit} c ctSlot : keeps any (performPageTableInvocationUnmap c ctSlot).
Proof. unfold performPageTableInvocationUnmap. keep. Qed.
#[export] Hint Resolve k_performPageTableInvocationUnmap : keeps.
Lemma k_performASIDControlInvocation {lim : Limit} frame slot parent asid_base : keeps any (performASIDControlInvocation frame slot parent asid_base).
Proof. unfold performASIDControlInvocation. keep. Qed.
#[export] Hint Resolve k_performASIDControlInvocation : keeps.
Lemma k_performASIDPoolInvocation {lim : Limit} asid poolPtr pdCapSlot : keeps any (performASIDPoolInvocation asid poolPtr pdCapSlot).
Proof. unfold performASIDPoolInvocation. keep. Qed.
#[export] Hint Resolve k_performASIDPoolInvocation : keeps.
Lemma k_doFlush {lim : Limit} label start last pstart : keeps any (doFlush label start last pstart).
Proof. unfold doFlush. keep. Qed.
#[export] Hint Resolve k_doFlush : keeps.
Lemma k_performPageFlush {lim : Limit} label pd asid start last pstart : keeps any (performPageFlush label pd asid start last pstart).
Proof. unfold performPageFlush. keep. Qed.
#[export] Hint Resolve k_performPageFlush : keeps.
Lemma k_performPDFlush {lim : Limit} label pd asid start last pstart : keeps any (performPDFlush label pd asid start last pstart).
Proof. unfold performPDFlush. keep. Qed.
#[export] Hint Resolve k_performPDFlush : keeps.
Lemma k_resolveVAddr {lim : Limit} pd vaddr : keeps any (resolveVAddr pd vaddr).
Proof. unfold resolveVAddr. keep. Qed.
#[export] Hint Resolve k_resolveVAddr : keeps.
Lemma k_check_pd {lim : Limit} asid pd badCapNumber : keeps any (check_pd asid pd badCapNumber).
Proof. unfold check_pd. keep. Qed.
#[export] Hint Resolve k_check_pd : keeps.
Lemma k_decodeARMPageTableInvocation {lim : Limit} label length slot c extraCaps buffer : keeps any (decodeARMPageTableInvocation label length slot c extraCaps buffer).
Proof. intros. unfold decodeARMPageTableInvocation. keep. Qed.
#[export] Hint Resolve k_decodeARMPageTableInvocation : keeps.
Lemma k_createSafeMappingEntries_PTE {lim : Limit} base vaddr frameSize vmRights attr pd : keeps any (createSafeMappingEntries_PTE base vaddr frameSize vmRights attr pd).
Proof. unfold createSafeMappingEntries_PTE. keep. Qed.
#[export] Hint Resolve k_createSafeMappingEntries_PTE : keeps.
Lemma k_createSafeMappingEntries_PDE {lim : Limit} base vaddr frameSize vmRights attr pd : keeps any (createSafeMappingEntries_PDE base vaddr frameSize vmRights attr pd).
Proof. unfold createSafeMappingEntries_PDE. keep. Qed.
#[export] Hint Resolve k_createSafeMappingEntries_PDE : keeps.
Lemma k_decode_page_map {lim : Limit} length slot c extraCaps buffer : keeps any (decode_page_map length slot c extraCaps buffer).
Proof. intros. unfold decode_page_map. keep. Qed.
#[export] Hint Resolve k_decode_page_map : keeps.
Lemma k_decode_page_remap {lim : Limit} length c extraCaps buffer : keeps any (decode_page_remap length c extraCaps buffer).
Proof. unfold decode_page_remap. keep. Qed.
#[export] Hint Resolve k_decode_page_remap : keeps.
Lemma k_decode_page_flush {lim : Limit} label length c buffer : keeps any (decode_page_flush label length c buffer).
Proof. unfold decode_page_flush. keep. Qed.
#[export] Hint Resolve k_decode_page_flush : keeps.
Lemma k_decodeARMFrameInvocation {lim : Limit} label length slot c extraCaps buffer : keeps any (decodeARMFrameInvocation label length slot c extraCaps buffer).
Proof. intros. unfold decodeARMFrameInvocation. keep. Qed.
#[export] Hint Resolve k_decodeARMFrameInvocation : keeps.
Lemma k_decodeARMPageDirectoryInvocation {lim : Limit} label length cptr slot c extraCaps buffer : keeps any (decodeARMPageDirectoryInvocation label length cptr slot c extraCaps buffer).
Proof. unfold decodeARMPageDirectoryInvocation. keep. Qed.
#[export] Hint Resolve k_decodeARMPageDirectoryInvocation : keeps.
Lemma k_find_free_pool {lim : Limit} n i : keeps any (find_free_pool n i).
Proof.
  revert i. induction n as [|n IH]; intros; cbn [find_free_pool]; keep.
Qed.
#[export] Hint Resolve k_find_free_pool : keeps.
Lemma k_decode_asid_control {lim : Limit} label length extraCaps buffer : keeps any (decode_asid_control label length extraCaps buffer).
Proof. unfold decode_asid_control. keep. Qed.
#[export] Hint Resolve k_decode_asid_control : keeps.
Lemma k_find_free_asid {lim : Limit} n i asid pool : keeps any (find_free_asid n i asid pool).
Proof.
  revert i asid pool. induction n as [|n IH]; intros; cbn [find_free_asid]; keep.
Qed.
#[export] Hint Resolve k_find_free_asid : keeps.
Lemma k_decode_asid_pool {lim : Limit} label base capPool extraCaps : keeps any (decode_asid_pool label base capPool extraCaps).
Proof. unfold decode_asid_pool. keep. Qed.
#[export] Hint Resolve k_decode_asid_pool : keeps.
Lemma k_decodeARMMMUInvocation {lim : Limit} label length cptr slot c extraCaps buffer : keeps any (decodeARMMMUInvocation label length cptr slot c extraCaps buffer).
Proof. intros. unfold decodeARMMMUInvocation. keep. Qed.
#[export] Hint Resolve k_decodeARMMMUInvocation : keeps.
Lemma k_performInvocation_Endpoint {lim : Limit} ep badge canGrant block call : keeps any (performInvocation_Endpoint ep badge canGrant block call).
Proof. unfold performInvocation_Endpoint. keep. Qed.
#[export] Hint Resolve k_performInvocation_Endpoint : keeps.
Lemma k_performInvocation_AsyncEndpoint {lim : Limit} aep badge message : keeps any (performInvocation_AsyncEndpoint aep badge message).
Proof. unfold performInvocation_AsyncEndpoint. keep. Qed.
#[export] Hint Resolve k_performInvocation_AsyncEndpoint : keeps.
Lemma k_performInvocation_Reply {lim : Limit} thread slot : keeps any (performInvocation_Reply thread slot).
Proof. unfold performInvocation_Reply. keep. Qed.
#[export] Hint Resolve k_performInvocation_Reply : keeps.
Lemma k_Arch_decodeInvocation {lim : Limit} label length cptr slot c extraCaps buffer : keeps any (Arch_decodeInvocation label length cptr slot c extraCaps buffer).
Proof. intros. unfold Arch_decodeInvocation. keep. Qed.
#[export] Hint Resolve k_Arch_decodeInvocation : keeps.
Lemma k_decodeInvocation {lim : Limit} label length capIndex slot c extraCaps block call buffer : keeps any (decodeInvocation label length capIndex slot c extraCaps block call buffer).
Proof. intros. unfold decodeInvocation. keep. Qed.
#[export] Hint Resolve k_decodeInvocation : keeps.
Lemma k_sendFaultIPC {lim : Limit} tptr : keeps any (sendFaultIPC tptr).
Proof. unfold sendFaultIPC. keep. Qed.
#[export] Hint Resolve k_sendFaultIPC : keeps.
Lemma k_handleDoubleFault {lim : Limit} tptr ex1 : keeps any (handleDoubleFault tptr ex1).
Proof. unfold handleDoubleFault. keep. Qed.
#[export] Hint Resolve k_handleDoubleFault : keeps.
Lemma k_handleFault {lim : Limit} tptr : keeps any (handleFault tptr).
Proof. unfold handleFault. keep. Qed.
#[export] Hint Resolve k_handleFault : keeps.
Lemma k_handleFault_current {lim : Limit} : keeps any (handleFault_current).
Proof. unfold handleFault_current. keep. Qed.
#[export] Hint Resolve k_handleFault_current : keeps.
Lemma k_resume {lim : Limit} : keeps any (resume).
Proof. unfold resume. keep. Qed.
#[export] Hint Resolve k_resume : keeps.
Lemma k_handleInterruptEntry {lim : Limit} : keeps any (handleInterruptEntry).
Proof. unfold handleInterruptEntry. keep. Qed.
#[export] Hint Resolve k_handleInterruptEntry : keeps.
Lemma k_handleUnknownSyscall {lim : Limit} w : keeps any (handleUnknownSyscall w).
Proof. unfold handleUnknownSyscall. keep. Qed.
#[export] Hint Resolve k_handleUnknownSyscall : keeps.
Lemma k_handleUserLevelFault {lim : Limit} w_a w_b : keeps any (handleUserLevelFault w_a w_b).
Proof. unfold handleUserLevelFault. keep. Qed.
#[export] Hint Resolve k_handleUserLevelFault : keeps.
Lemma k_handleVMFaultEvent {lim : Limit} vm_faultType : keeps any (handleVMFaultEvent vm_faultType).
Proof. unfold handleVMFaultEvent. keep. Qed.
#[export] Hint Resolve k_handleVMFaultEvent : keeps.
Lemma k_finish_invocation {lim : Limit} thread isCall status : keeps any (finish_invocation thread isCall status).
Proof. unfold finish_invocation. keep. Qed.
#[export] Hint Resolve k_finish_invocation : keeps.
Lemma k_handleInvocation {lim : Limit} isCall isBlocking : keeps any (handleInvocation isCall isBlocking).
Proof. unfold handleInvocation. keep. Qed.
#[export] Hint Resolve k_handleInvocation : keeps.
Lemma k_handleReply {lim : Limit} : keeps any (handleReply).
Proof. unfold handleReply. keep. Qed.
#[export] Hint Resolve k_handleReply : keeps.
Lemma k_wait_fault {lim : Limit} epCPtr : keeps any (wait_fault epCPtr).
Proof. unfold wait_fault. keep. Qed.
#[export] Hint Resolve k_wait_fault : keeps.
Lemma k_handleWait {lim : Limit} : keeps any (handleWait).
Proof. unfold handleWait. keep. Qed.
#[export] Hint Resolve k_handleWait : keeps.
Lemma k_handleYield {lim : Limit} : keeps any (handleYield).
Proof. unfold handleYield. keep. Qed.
#[export] Hint Resolve k_handleYield : keeps.
Lemma k_invocation_syscall {lim : Limit} isCall isBlocking : keeps any (invocation_syscall isCall isBlocking).
Proof. unfold invocation_syscall. keep. Qed.
#[export] Hint Resolve k_invocation_syscall : keeps.
Lemma k_handleSyscall {lim : Limit} syscall : keeps any (handleSyscall syscall).
Proof. unfold handleSyscall. keep. Qed.
#[export] Hint Resolve k_handleSyscall : keeps.
