(* ===== verification/ConfinedSpec.v ===== *)
(** * Confined priorities: theorem

    Every way into the kernel, every action of the users and the devices, and the
    executions they make. *)
From stdpp Require Import base list gmap.
From Stdlib Require Import ZArith Lia.
From S2P Require Import Prelude.
From S2P Require Import Structures.
From S2P Require Import KernelState.
From S2P Require Import VSpace.
From S2P Require Import Syscall.
From S2P Require Import System.
From S2P Require Import Confined.
From S2P Require Import ConfinedOps.
From S2P Require Import ConfinedKernel.
From S2P Require Import ConfinedCalls.

(** ** Executions *)

(** What can take the processor into the kernel *)
Inductive event :=
| Ev_syscall (syscall : syscall_t)
| Ev_interrupt
| Ev_unknown_syscall (w : Z)
| Ev_user_level_fault (w_a w_b : Z)
| Ev_vm_fault (vm_faultType : vm_fault_type).

Definition handleEvent (e : event) : K exception_t :=
  match e with
  | Ev_syscall syscall => handleSyscall syscall
  | Ev_interrupt => handleInterruptEntry
  | Ev_unknown_syscall w => handleUnknownSyscall w
  | Ev_user_level_fault w_a w_b => handleUserLevelFault w_a w_b
  | Ev_vm_fault vm_faultType => handleVMFaultEvent vm_faultType
  end.

(** Between two entries the user and the devices run: the registers of a thread, the
    words of memory and the state of the hardware change, whatever the values. *)
Inductive step : kstate -> kstate -> Prop :=
| Step_kernel e s a s' : handleEvent e s = Ret a s' -> step s s'
| Step_user t context mem hw s :
    step s (upd_ksHw hw (upd_ksMem mem (upd_ksTcbs (alter (upd_tcbContext context) t (ksTcbs s)) s))).

Lemma keeps_handleEvent {lim : Limit} e : keeps any (handleEvent e).
Proof. destruct e; cbn [handleEvent]; auto with keeps. Qed.

Lemma step_confined {lim : Limit} s s' : step s s' -> confined s -> confined s'.
Proof.
  intros [e s0 a s1 E|t context mem hw s0] Hs; [by apply (keeps_handleEvent e s0 a s1 Hs E)|].
  destruct Hs as [Hl Ht Hd]. split; [exact Hl| |exact Hd]. intros p x. cbn [ksTcbs upd_ksHw upd_ksMem upd_ksTcbs].
  rewrite lookup_alter_Some. intros [(-> & y & Hy & ->)|[_ Hx]]; [exact (Ht _ _ Hy)|exact (Ht _ _ Hx)].
Qed.
Lemma steps_confined {lim : Limit} s s' : rtc step s s' -> confined s -> confined s'.
Proof. induction 1; eauto using step_confined. Qed.

(** C14: no execution of the kernel raises a priority above the highest there is: whatever system calls, faults and
    interrupts occur and whatever users and devices do in between - write any registers and any memory -, as long as the
    kernel returns, every thread, those created on the way too, has a priority from 0 up to the highest one
    of the first state (or any bound of those), and is in a domain below the number of domains, as
    the processor is. For a priority is set only after a comparison with the one of the caller, and a domain after one with
    their number. *)
Theorem priorities_confined (P : Z) s s' : 0 <= P ->
  (forall t tc, ksTcbs s !! t = Some tc -> 0 <= tc.(tcbPriority) <= P /\ tc.(tcbDomain) < CONFIG_NUM_DOMAINS) ->
  ksCurDomain s < CONFIG_NUM_DOMAINS -> rtc step s s' ->
  (forall t tc, ksTcbs s' !! t = Some tc -> 0 <= tc.(tcbPriority) <= P /\ tc.(tcbDomain) < CONFIG_NUM_DOMAINS) /\
  ksCurDomain s' < CONFIG_NUM_DOMAINS.
Proof.
  intros HP Ht Hd Hr. set (lim := P : Limit). assert (confined s) as Hs by (by split).
  pose proof (steps_confined s s' Hr Hs) as [_ Ht' Hd']. by split.
Qed.

Definition ret_state {A} (o : outcome kstate A) (s : kstate) : kstate := match o with Ret _ s' => s' | _ => s end.

Lemma ret_state_spec {A} (o : outcome kstate A) s :
  (match o with Ret _ _ => true | _ => false end) = true -> exists a, o = Ret a (ret_state o s).
Proof. destruct o; [by eexists|done]. Qed.

(** A yields; B computes until the timer interrupts it. *)
Definition sys_yield : kstate := ret_state (handleEvent (Ev_syscall SysYield) sys) sys.
Definition sys_run : kstate :=
  upd_ksHw (upd_active_irq 29 (ksHw sys_yield))
    (upd_ksMem (fun a => Some a) (upd_ksTcbs (alter (upd_tcbContext (replicate 18 7)) threadB (ksTcbs sys_yield)) sys_yield)).
Definition sys_tick : kstate := ret_state (handleEvent Ev_interrupt sys_run) sys.

Lemma sys_execution : rtc step sys sys_tick.
Proof.
  assert (exists a, handleEvent (Ev_syscall SysYield) sys = Ret a sys_yield) as [a1 E1].
  { apply ret_state_spec. vm_compute. reflexivity. }
  assert (exists a, handleEvent Ev_interrupt sys_run = Ret a sys_tick) as [a2 E2].
  { apply ret_state_spec. vm_compute. reflexivity. }
  eapply rtc_l; [by eapply Step_kernel|]. eapply rtc_l; [by eapply Step_user|].
  eapply rtc_l; [by eapply Step_kernel|]. apply rtc_refl.
Qed.

Lemma sys_priorities : map_Forall (fun _ tc => 0 <= tc.(tcbPriority) /\ tc.(tcbPriority) <= 150 /\ tc.(tcbDomain) < CONFIG_NUM_DOMAINS) (ksTcbs sys).
Proof. apply (bool_decide_unpack _). vm_compute. exact I. Qed.
Lemma priorities_confined_witness :
  ksCurThread sys_yield = threadB /\ forall t tc, ksTcbs sys_tick !! t = Some tc -> 0 <= tc.(tcbPriority) <= 150 /\ tc.(tcbDomain) < CONFIG_NUM_DOMAINS.
Proof.
  split; [vm_compute; reflexivity|]. apply (priorities_confined 150 sys sys_tick); [discriminate| |reflexivity|exact sys_execution].
  intros t tc Ht. destruct (sys_priorities t tc Ht) as (? & ? & ?). split; [split|]; assumption.
Defined.
