(* ===== verification/VSpaceSpec.v ===== *)
(** * Address spaces: theorem

    What a switch of the address space guarantees about the hardware ASIDs. *)
From stdpp Require Import base list gmap.
From Stdlib Require Import ZArith Lia.
From S2P Require Import Prelude.
From S2P Require Import Structures.
From S2P Require Import KernelState.
From S2P Require Import VSpace.
From S2P Require Import Scheduler.
From S2P Require Import System.

(** No other address space has the number [h] stored as its own. *)
Definition number_exclusive (s : kstate) (h asid : Z) : Prop :=
  forall asid' pd' w, 0 < asid' < numASIDs -> asid' <> asid -> asid_pd_of s asid' = Some pd' ->
    ksMem s (pd_asid_slot pd') = Some w -> stored_valid w = true -> stored_hwasid w <> h.

Lemma hwasid_exclusive s h asid : hwasid_wf s -> hwasid_entry s h = asid -> number_exclusive s h asid.
Proof.
  intros W He asid' pd' w Ha' Hne Hpd Hw Hv <-. destruct (hw_stored _ W asid' pd' Ha' Hpd) as (w' & Hw' & Hs).
  assert (w' = w) as -> by congruence. rewrite He in Hs. naive_solver.
Qed.

(** C26: switching address spaces never confuses translations. From a state in which
    the table of hardware ASIDs and the page directories agree, setVMRoot returns,
    keeps them in agreement and touches nothing but the ASID allocator, the hardware
    and the fault registers. If the thread's root is a mapped directory that the
    ASID table has, the directory is installed under a hardware number that is the
    table's for its ASID and that no other address space has; a number taken from
    another ASID has been flushed from the TLB first, and between the two writes of
    the translation base the kernel's own directory is installed. Any other root
    leaves the kernel's directory installed. *)
Theorem setVMRoot_isolates (s : kstate) (tcb : Z) (c : cte) (W : hwasid_wf s)
    (Hc : ksCtes s !! TCB_PTR_CTE_PTR tcb tcbVTable = Some c)
    (Hv : forall asid pd, c.(cte_cap) = Cap_page_directory asid true pd -> 0 < asid < numASIDs) :
  wp (setVMRoot tcb) (fun _ s' => hwasid_wf s' /\ vm_frame s s' /\
    match selected_pd s c.(cte_cap) with
    | Some (asid, pd) => exists h l, 0 <= h < 256 /\ hwasid_entry s' h = asid /\ number_exclusive s' h asid /\
        (hwasid_entry s h <> asid -> hwasid_entry s h <> asidInvalid -> l = [HwInvalidateTLB_ASID h]) /\
        hw_log (ksHw s') = hw_log (ksHw s) ++ l ++
          [ttbr0 (armKSGlobalPD s); HwWriteContextID h; ttbr0 pd]
    | None => hw_log (ksHw s') = hw_log (ksHw s) ++ [ttbr0 (armKSGlobalPD s)]
    end) s.
Proof.
  eapply wp_mono; [by eapply wp_setVMRoot|]. intros _ s' (W' & F & _ & H). split; [done|split; [done|]].
  destruct (selected_pd s (cte_cap c)) as [[asid pd]|]; [|done].
  destruct H as (h & l & Hh & He & Hl & Hlog). exists h, l. split_and!; try lia; auto using hwasid_exclusive.
Qed.

(** Thread A runs in the first address space. *)
Definition sys_rooted : kstate :=
  upd_ksCtes (<[TCB_PTR_CTE_PTR threadA tcbVTable := mk_cte (Cap_page_directory 1 true pd1) nullMDBNode]> (ksCtes sys)) sys.
Lemma sys_rooted_hwasid : hwasid_wf sys_rooted.
Proof. by apply (hwasid_wf_ext sys), sys_hwasid. Qed.
Lemma sys_rooted_selected : selected_pd sys_rooted (Cap_page_directory 1 true pd1) = Some (1, pd1).
Proof. reflexivity. Qed.

Lemma setVMRoot_isolates_witness :
  wp (setVMRoot threadA) (fun _ s' => hwasid_wf s' /\
    exists h, hwasid_entry s' h = 1 /\ last (hw_log (ksHw s')) = Some (ttbr0 pd1)) sys_rooted.
Proof.
  eapply wp_mono.
  - apply (setVMRoot_isolates sys_rooted threadA (mk_cte (Cap_page_directory 1 true pd1) nullMDBNode)).
    + exact sys_rooted_hwasid.
    + apply lookup_insert_eq.
    + intros asid pd [= <- _]. split; reflexivity.
  - intros _ s' (W & _ & H). cbn [cte_cap] in H. rewrite sys_rooted_selected in H.
    destruct H as (h & l & _ & He & _ & _ & Hlog). split; [exact W|]. exists h. split; [exact He|].
    rewrite Hlog, app_assoc, last_app. reflexivity.
Defined.
