(* ===== verification/AllocBase.v ===== *)
(** * What the user-level allocators share

    A state that contains a memory of words, and the loads and stores of C on it.
    The libraries of the user level are 32-bit programs as the kernel is. *)
From stdpp Require Import base list gmap.
From Stdlib Require Import ZArith Lia.
From S2P Require Import Prelude.

(** ** Memory *)
Class Memory (S : Type) := {
  mem : S -> gmap Z Z;
  set_mem : gmap Z Z -> S -> S;
  mem_set_mem m s : mem (set_mem m s) = m;
  set_mem_set_mem m m' s : set_mem m (set_mem m' s) = set_mem m s;
  set_mem_mem s : set_mem (mem s) s = s }.

#[export] Instance Memory_words : Memory (gmap Z Z) := {
  mem s := s; set_mem m _ := m; mem_set_mem _ _ := eq_refl;
  set_mem_set_mem _ _ _ := eq_refl; set_mem_mem _ := eq_refl }.

Section memory.
Context {S : Type} `{!Memory S}.

(** A load or a store of a word that is not mapped is undefined. *)
Definition load (a : Z) : M S Z := fun s => of_option (mem s !! a) s.
Definition store (a v : Z) : M S unit := fun s =>
  match mem s !! a with Some _ => Ret tt (set_mem (<[a := v]> (mem s)) s) | None => Stop Undefined end.
End memory.

(** ** Words *)
Definition wmul (a b : Z) : Z := wrap (a * b).
Infix "*w" := wmul (at level 40, left associativity) : word_scope.

(** ** Paths to slots (libsel4vka/include/vka/cspacepath_t.h) *)
Record cspacepath_t := mk_cspacepath {
  capPtr : Z; capDepth : Z; root : Z; dest : Z; destDepth : Z; offset : Z; window : Z }.
#[export] Instance cspacepath_eq_dec : EqDecision cspacepath_t.
Proof. solve_decision. Defined.

(** ** What the allocators call (libsel4allocman/include/allocman/allocman.h)

    The functions of the allocation manager: memory with an error code, a slot or an
    error code, and objects made from untyped memory, by a cookie. *)
Record allocman_ops (S : Type) := mk_allocman_ops {
  allocman_mspace_alloc : Z -> M S (Z * Z);
  allocman_mspace_free : Z -> Z -> M S unit;
  allocman_cspace_alloc : M S (Z * cspacepath_t);
  allocman_cspace_free : cspacepath_t -> M S unit;
  allocman_utspace_alloc : Z -> Z -> cspacepath_t -> M S (Z * Z);
  allocman_utspace_free : Z -> Z -> M S unit }.
Arguments allocman_mspace_alloc {S}. Arguments allocman_mspace_free {S}.
Arguments allocman_cspace_alloc {S}. Arguments allocman_cspace_free {S}.
Arguments allocman_utspace_alloc {S}. Arguments allocman_utspace_free {S}.

(** An operation on a part of the state *)
Definition zoom {S T A} (read : S -> T) (write : T -> S -> S) (m : M T A) : M S A := fun s =>
  match m (read s) with Ret a t => Ret a (write t s) | Stop e => Stop e end.

(** ** Reasoning *)
Section memory_wp.
Context {S : Type} `{!Memory S}.
Lemma wp_load a v (Q : Z -> S -> Prop) s : mem s !! a = Some v -> Q v s -> wp (load a) Q s.
Proof. intros E HQ. unfold wp, load, of_option. by rewrite E. Qed.
Lemma wp_store a v (Q : unit -> S -> Prop) s :
  is_Some (mem s !! a) -> Q tt (set_mem (<[a := v]> (mem s)) s) -> wp (store a v) Q s.
Proof. intros [w E] HQ. unfold wp, store. by rewrite E. Qed.
End memory_wp.
Lemma wp_zoom {S T A} (read : S -> T) (write : T -> S -> S) (m : M T A) (Q : A -> S -> Prop) s :
  wp m (fun a t => Q a (write t s)) (read s) -> wp (zoom read write m) Q s.
Proof. unfold wp, zoom. by destruct (m (read s)). Qed.

Ltac ustep :=
  lazymatch goal with
  | |- wp (bind _ _) _ _ => apply wp_bind
  | |- wp (ret _) _ _ => apply wp_ret
  | |- wp get _ _ => apply wp_get
  | |- wp (gets _) _ _ => apply wp_gets
  | |- wp (modify _) _ _ => apply wp_modify
  | |- wp (load _) _ _ => eapply wp_load
  | |- wp (store _ _) _ _ => apply wp_store
  | |- wp (let _ := _ in _) _ _ => cbv zeta
  end; rewrite ?mem_set_mem, ?set_mem_set_mem.
