(* ===== verification/KrMalloc.v ===== *)
(** * The heaps of the user-level allocators (libs/libsel4allocman/src/mspace)

    The allocator of K&R's book and the pool of fixed size that feeds it. The
    structures of the allocator are words of the memory, at the offsets of the C
    structures. Paths of the user-level files are relative to src/zener. *)
From stdpp Require Import base list gmap.
From Stdlib Require Import ZArith Lia.
From S2P Require Import Prelude.
From S2P Require Import AllocBase.

(** ** k_r_malloc.c *)

(** [k_r_malloc_header_t]: the address of the next free block, and the size in
    headers; [p + n] on pointers to headers *)
Definition sizeof_header : Z := 8.
Definition hdr_ptr (p : Z) : Z := p.
Definition hdr_size (p : Z) : Z := p +w 4.
Definition hdr_add (p n : Z) : Z := p +w (sizeof_header * n).
Definition hdr_sub (p n : Z) : Z := p -w (sizeof_header * n).
(** [mspace_k_r_malloc_t] *)
Definition krm_base (k : Z) : Z := k.
Definition krm_freep (k : Z) : Z := k +w 8.

Section malloc.
Context {S : Type} `{!Memory S}.

(** Every free block has its own header: a walk around the ring is no longer than
    the memory is large. *)
Definition ring_fuel (s : S) : nat := Datatypes.S (size (mem s)).

(** The cookie and the function that gets memory, which it stores as well, are the
    argument [morecore] of the operations. *)
Definition mspace_k_r_malloc_init (k : Z) : M S unit := store (krm_freep k) NULL.

Fixpoint free_search (fuel : nat) (bp p : Z) : M S Z :=
  match fuel with
  | O => halt_with NoFuel
  | Datatypes.S fuel' =>
      let* next := load (hdr_ptr p) in
      if (p <? bp) && (bp <? next) then ret p
      else if (next <=? p) && ((p <? bp) || (bp <? next)) then ret p
      else free_search fuel' bp next
  end.

Definition mspace_k_r_malloc_free (k ap : Z) : M S unit :=
  if ap =? NULL then ret tt
  else
    let bp := hdr_sub ap 1 in
    let* freep := load (krm_freep k) in
    let* s := get in
    let* p := free_search (ring_fuel s) bp freep in
    let* next := load (hdr_ptr p) in
    let* bsize := load (hdr_size bp) in
    (if hdr_add bp bsize =? next then
       let* nsize := load (hdr_size next) in
       store (hdr_size bp) (bsize +w nsize) ;;;
       let* nptr := load (hdr_ptr next) in
       store (hdr_ptr bp) nptr
     else store (hdr_ptr bp) next) ;;;
    let* psize := load (hdr_size p) in
    (if hdr_add p psize =? bp then
       let* bsize := load (hdr_size bp) in
       store (hdr_size p) (psize +w bsize) ;;;
       let* bptr := load (hdr_ptr bp) in
       store (hdr_ptr p) bptr
     else store (hdr_ptr p) bp) ;;;
    store (krm_freep k) p.

(** The function the heap asks for more memory, in headers; NULL when there is none *)
Context (morecore : Z -> M S Z).

Definition malloc_units (nbytes : Z) : Z := ((nbytes +w sizeof_header) -w 1) / sizeof_header +w 1.

Fixpoint alloc_loop (fuel : nat) (k nunits prevp p : Z) : M S Z :=
  match fuel with
  | O => halt_with NoFuel
  | Datatypes.S fuel' =>
      let* size := load (hdr_size p) in
      if nunits <=? size then
        if size =? nunits then
          let* next := load (hdr_ptr p) in
          store (hdr_ptr prevp) next ;;;
          store (krm_freep k) prevp ;;;
          ret (hdr_add p 1)
        else
          store (hdr_size p) (size -w nunits) ;;;
          let p := hdr_add p (size -w nunits) in
          store (hdr_size p) nunits ;;;
          store (krm_freep k) prevp ;;;
          ret (hdr_add p 1)
      else
        let* freep := load (krm_freep k) in
        if p =? freep then
          let* p := morecore nunits in
          if p =? NULL then ret NULL
          else
            store (hdr_size p) nunits ;;;
            mspace_k_r_malloc_free k (hdr_add p 1) ;;;
            let* p := load (krm_freep k) in
            let* next := load (hdr_ptr p) in
            alloc_loop fuel' k nunits p next
        else
          let* next := load (hdr_ptr p) in
          alloc_loop fuel' k nunits p next
  end.

Definition mspace_k_r_malloc_alloc (k nbytes : Z) : M S Z :=
  let nunits := malloc_units nbytes in
  let* freep := load (krm_freep k) in
  let* prevp :=
    (if freep =? NULL then
       store (krm_freep k) (krm_base k) ;;;
       store (hdr_ptr (krm_base k)) (krm_base k) ;;;
       store (hdr_size (krm_base k)) 0 ;;;
       ret (krm_base k)
     else ret freep) in
  let* p := load (hdr_ptr prevp) in
  let* s := get in
  alloc_loop (ring_fuel s + ring_fuel s + 2) k nunits prevp p.
End malloc.

(** ** fixed_pool.c *)

(** [mspace_fixed_pool_t]: the rest of the pool, and the heap made from it *)
Definition pool_ptr (f : Z) : Z := f.
Definition pool_remaining (f : Z) : Z := f +w 4.
Definition pool_malloc (f : Z) : Z := f +w 8.

Section fixed_pool.
Context {S : Type} `{!Memory S}.

Definition fixed_pool_morecore (f new_units : Z) : M S Z :=
  let new_size := wrap (new_units * sizeof_header) in
  let* remaining := load (pool_remaining f) in
  if remaining <? new_size then ret NULL
  else
    let* new_header := load (pool_ptr f) in
    store (pool_ptr f) (new_header +w new_size) ;;;
    store (pool_remaining f) (remaining -w new_size) ;;;
    ret new_header.

Definition mspace_fixed_pool_create (f pool size : Z) : M S unit :=
  store (pool_ptr f) pool ;;;
  store (pool_remaining f) size ;;;
  let padding := pool mod sizeof_header in
  store (pool_ptr f) (pool +w padding) ;;;
  store (pool_remaining f) (size -w padding) ;;;
  mspace_k_r_malloc_init (pool_malloc f).

(** The result and the error code *)
Definition _mspace_fixed_pool_alloc (f bytes : Z) : M S (Z * Z) :=
  let* p := mspace_k_r_malloc_alloc (fixed_pool_morecore f) (pool_malloc f) bytes in
  ret (p, if p =? NULL then 1 else 0).
Definition _mspace_fixed_pool_free (f ptr bytes : Z) : M S unit :=
  mspace_k_r_malloc_free (pool_malloc f) ptr.
End fixed_pool.
