(* ===== verification/KrRing.v ===== *)
(** * The ring of free blocks

    Blocks and their units, rings of headers in memory, the walk to the place of a
    block, and the heap as an invariant: free blocks, blocks handed out, and all the
    units the heap was ever given. *)
From stdpp Require Import base list gmap sorting.
From Stdlib Require Import ZArith Lia.
From S2P Require Import Prelude.
From S2P Require Import AllocBase.
From S2P Require Import DList.
From S2P Require Import KrMalloc.

(** ** Blocks *)

(** A block is the address of its header and its size in headers, the header
    included; its units are the addresses of the headers it has room for. *)
Definition units (b : Z * Z) : list Z := (fun i => b.1 + 8 * i) <$> seqZ 0 b.2.
Definition units_of (l : list (Z * Z)) : list Z := l ≫= units.
(** [a] is a word of a block of [l]. *)
Definition in_units (E : list Z) (x : Z) : Prop := exists u, u ∈ E /\ u <= x < u + 8.
Definition aligned (a : Z) : Prop := a mod 8 = 0.
Definition block_ok (b : Z * Z) : Prop := 0 < b.1 /\ aligned b.1 /\ 1 <= b.2 /\ b.1 + 8 * b.2 < 2 ^ 32.

Lemma elem_of_units b u : u ∈ units b <-> exists i, u = b.1 + 8 * i /\ 0 <= i < b.2.
Proof. unfold units. set_solver by lia. Qed.
Lemma elem_of_units_of l u : u ∈ units_of l <-> exists b, b ∈ l /\ u ∈ units b.
Proof. unfold units_of. set_solver. Qed.
Lemma units_split a n n' : 0 <= n -> 0 <= n' -> units (a, n + n') = units (a, n) ++ units (a + 8 * n, n').
Proof.
  intros H H'. unfold units. cbn. rewrite seqZ_app, fmap_app by done. f_equal.
  rewrite (Z.add_comm 0 n), <- fmap_add_seqZ, <- list_fmap_compose. apply list_fmap_ext. intros i x _. cbn. lia.
Qed.
Lemma units_of_app l l' : units_of (l ++ l') = units_of l ++ units_of l'.
Proof. apply bind_app. Qed.
Lemma units_of_cons b l : units_of (b :: l) = units b ++ units_of l.
Proof. done. Qed.
Lemma units_0 a : units (a, 0) = [].
Proof. done. Qed.
#[export] Instance units_of_perm : Proper ((≡ₚ) ==> (≡ₚ)) units_of.
Proof. intros l l' E. unfold units_of. by rewrite E. Qed.

(** Blocks without a common unit do not overlap. *)
Lemma blocks_apart b c : aligned b.1 -> aligned c.1 -> 1 <= b.2 -> 1 <= c.2 ->
  (forall u, u ∈ units b -> u ∉ units c) -> b.1 + 8 * b.2 <= c.1 \/ c.1 + 8 * c.2 <= b.1.
Proof.
  unfold aligned. intros Hb Hc Hn Hm H. destruct b as [a n], c as [a' m]. cbn in *.
  apply Z.div_exact in Hb, Hc; [|lia..].
  destruct (Z_lt_ge_dec a' (a + 8 * n)) as [H1|H1]; [|lia]. destruct (Z_lt_ge_dec a (a' + 8 * m)) as [H2|H2]; [|lia].
  exfalso. destruct (Z_le_gt_dec a a').
  - apply (H a'); apply elem_of_units; cbn; [exists (a' / 8 - a / 8)|exists 0]; lia.
  - apply (H a); apply elem_of_units; cbn; [exists 0|exists (a / 8 - a' / 8)]; lia.
Qed.

(** ** Rings of free blocks *)

(** The headers of [l] in memory [m], each pointing to the next, the last to [nx] *)
Fixpoint linked (m : gmap Z Z) (l : list (Z * Z)) (nx : Z) : Prop :=
  match l with
  | [] => True
  | b :: l' => m !! b.1 = Some (hd nx l'.*1) /\ m !! (b.1 + 4) = Some b.2 /\ linked m l' nx
  end.
Definition ring (m : gmap Z Z) (l : list (Z * Z)) : Prop := linked m l (hd 0 l.*1).

Lemma linked_app m l l' nx : linked m (l ++ l') nx <-> linked m l (hd nx l'.*1) /\ linked m l' nx.
Proof. induction l as [|b l IH]; cbn; [tauto|]. rewrite IH, fmap_app, hd_app. tauto. Qed.
Lemma linked_frame m m' l nx :
  (forall b, b ∈ l -> m' !! b.1 = m !! b.1 /\ m' !! (b.1 + 4) = m !! (b.1 + 4)) -> linked m l nx -> linked m' l nx.
Proof.
  induction l as [|b l IH]; [done|]. cbn. intros H (H1 & H2 & H3). destruct (H b) as [-> ->]; [left|].
  split_and!; [done..|]. apply IH; [|done]. intros c Hc. apply H. by right.
Qed.
(** A ring may be entered anywhere. *)
Lemma ring_rotate m l l' : ring m (l ++ l') -> ring m (l' ++ l).
Proof.
  unfold ring. rewrite !linked_app, !fmap_app, !hd_app. intros [H1 H2].
  destruct l as [|b l]; [done|]. destruct l' as [|c l']; [done|]. cbn [hd fmap list_fmap] in *. done.
Qed.
Lemma linked_lookup m l nx i b : linked m l nx -> l !! i = Some b ->
  m !! b.1 = Some (default nx (l.*1 !! Datatypes.S i)) /\ m !! (b.1 + 4) = Some b.2.
Proof.
  revert i. induction l as [|c l IH]; [done|]. intros [|i] (H1 & H2 & H3) E; simplify_eq/=.
  - split; [|done]. rewrite H1. by destruct l.
  - by apply IH.
Qed.
(** The index after [i] *)
Definition after (n i : nat) : nat := if (Datatypes.S i =? n)%nat then 0%nat else Datatypes.S i.
Lemma after_lt n i : (i < n)%nat -> (after n i < n)%nat.
Proof. unfold after. destruct (Nat.eqb_spec (Datatypes.S i) n); lia. Qed.
Lemma ring_next m l i b : ring m l -> l !! i = Some b ->
  m !! b.1 = Some (default 0 (l.*1 !! after (length l) i)) /\ m !! (b.1 + 4) = Some b.2.
Proof.
  intros H E. destruct (linked_lookup _ _ _ _ _ H E) as [H1 H2]. split; [|done]. rewrite H1. unfold after.
  pose proof (lookup_lt_Some _ _ _ E). destruct (Nat.eqb_spec (Datatypes.S i) (length l)) as [Ei|Ei].
  - rewrite (proj2 (lookup_ge_None l.*1 (Datatypes.S i))) by (rewrite length_fmap; lia). by destruct l.
  - destruct (l.*1 !! Datatypes.S i) eqn:E2; [done|]. apply lookup_ge_None in E2. rewrite length_fmap in E2. lia.
Qed.
Lemma NoDup_fst_lookup (l : list (Z * Z)) i j b c : NoDup l.*1 -> l !! i = Some b -> l !! j = Some c -> b.1 = c.1 -> i = j.
Proof.
  intros Hn Hi Hj E. apply (NoDup_lookup l.*1 i j b.1 Hn); rewrite list_lookup_fmap; [by rewrite Hi|by rewrite Hj, E].
Qed.
Lemma keys_bound {A} (m : gmap Z A) (l : list Z) : NoDup l -> (forall x, x ∈ l -> is_Some (m !! x)) -> (length l <= size m)%nat.
Proof.
  intros Hn H. rewrite <- (size_dom (D:=gset Z)), <- (size_list_to_set (C:=gset Z) l) by done.
  apply subseteq_size. intros x. rewrite elem_of_list_to_set, elem_of_dom. apply H.
Qed.

(** ** The walk around the ring *)
Lemma iter_after n i d : (i + d < n)%nat -> Nat.iter d (after n) i = (i + d)%nat.
Proof.
  revert i. induction d as [|d IH]; intros i H; [cbn; lia|]. rewrite Nat.iter_succ_r. unfold after at 2.
  destruct (Nat.eqb_spec (Datatypes.S i) n); [lia|]. rewrite IH; lia.
Qed.
Lemma after_reaches n i t : (i < n)%nat -> (t < n)%nat -> exists d, (d < n)%nat /\ Nat.iter d (after n) i = t.
Proof.
  intros Hi Ht. destruct (le_lt_dec i t) as [H|H].
  - exists (t - i)%nat. rewrite iter_after; lia.
  - exists (t + (n - i))%nat. split; [lia|]. rewrite Nat.iter_add.
    replace (n - i)%nat with (Datatypes.S (n - 1 - i)) by lia. assert (Nat.iter (Datatypes.S (n - 1 - i)) (after n) i = 0%nat) as ->.
    { rewrite Nat.iter_succ, iter_after by lia.
      unfold after. destruct (Nat.eqb_spec (Datatypes.S (i + (n - 1 - i))) n); lia. }
    rewrite iter_after; lia.
Qed.

Definition sep (b c : Z * Z) : Prop := b.1 + 8 * b.2 < c.1.
Lemma sorted_lookup l i j b c : StronglySorted sep l -> (forall x, x ∈ l -> 0 <= x.2) ->
  l !! i = Some b -> l !! j = Some c -> (i < j)%nat -> sep b c.
Proof.
  intros Hs Hz Hi Hj Hij. rewrite <- (take_drop j l) in Hs, Hi.
  apply StronglySorted_app in Hs as (H & _ & _). apply H.
  - apply list_elem_of_lookup. exists i. rewrite lookup_app_l in Hi; [done|].
    rewrite length_take. apply lookup_lt_Some in Hj. lia.
  - apply list_elem_of_lookup. exists 0%nat. rewrite lookup_drop. by rewrite Nat.add_0_r.
Qed.
Lemma sorted_fst l : StronglySorted sep l -> (forall x, x ∈ l -> 0 <= x.2) -> NoDup l.*1.
Proof.
  intros Hs Hz. induction Hs as [|b l Hs IH Hb]; [constructor|]. cbn. constructor.
  - intros (c & E & Hc)%list_elem_of_fmap. rewrite Forall_forall in Hb. specialize (Hb c Hc). unfold sep in Hb.
    specialize (Hz b (list_elem_of_here _ _)). lia.
  - apply IH. intros x Hx. apply Hz. by right.
Qed.

Section walk.
Context {S : Type} `{!Memory S}.
(** The free block after which [bp] belongs: the last one below it, or the last of all *)
Definition target (l1 l2 : list (Z * Z)) : nat := (match length l1 with O => length l2 | n => n end - 1)%nat.

Lemma wp_free_search l1 l2 bp (s : S) : forall fuel d i b,
  StronglySorted sep (l1 ++ l2) -> (forall x, x ∈ l1 ++ l2 -> 0 <= x.2) -> ring (mem s) (l1 ++ l2) ->
  (forall x, x ∈ l1 -> x.1 < bp) -> (forall x, x ∈ l2 -> bp < x.1) ->
  (l1 ++ l2) !! i = Some b -> Nat.iter d (after (length (l1 ++ l2))) i = target l1 l2 -> (d < fuel)%nat ->
  wp (free_search fuel bp b.1) (fun p s' => s' = s /\ exists c, (l1 ++ l2) !! target l1 l2 = Some c /\ p = c.1) s.
Proof.
  induction fuel as [|fuel IH]; intros d i b Hs Hz Hr H1 H2 Hi Hd Hf; [lia|].
  destruct (ring_next _ _ _ _ Hr Hi) as [Hn _]. pose proof (lookup_lt_Some _ _ _ Hi) as Hlt.
  destruct (lookup_lt_is_Some_2 (l1 ++ l2) _ (after_lt _ _ Hlt)) as [c Hc].
  rewrite list_lookup_fmap, Hc in Hn. cbn in Hn.
  cbn [free_search]. unfold hdr_ptr. ustep. ustep; [exact Hn|].
  assert (forall j x, (l1 ++ l2) !! j = Some x -> (j < length l1)%nat /\ x.1 < bp \/ (length l1 <= j)%nat /\ bp < x.1) as Hside.
  { intros j x [Hx|[Hl Hx]]%lookup_app_Some.
    - left. split; [by eapply lookup_lt_Some|]. apply H1. by eapply list_elem_of_lookup_2.
    - right. split; [done|]. apply H2. by eapply list_elem_of_lookup_2. }
  pose proof (Hside _ _ Hi) as Si. pose proof (Hside _ _ Hc) as Sc.
  pose proof (Hz b (list_elem_of_lookup_2 _ _ _ Hi)) as Zb. pose proof (Hz c (list_elem_of_lookup_2 _ _ _ Hc)) as Zc.
  assert (Datatypes.S i = length (l1 ++ l2) /\ after (length (l1 ++ l2)) i = 0%nat /\ c.1 <= b.1 \/
          after (length (l1 ++ l2)) i = Datatypes.S i /\ b.1 < c.1) as Ha.
  { revert Hc. unfold after. destruct (Nat.eqb_spec (Datatypes.S i) (length (l1 ++ l2))) as [E|E]; intros Hc.
    - left. split_and!; [done..|]. destruct (decide (i = 0%nat)) as [->|]; [by simplify_eq|].
      pose proof (sorted_lookup _ 0 i c b Hs Hz Hc Hi ltac:(lia)). unfold sep in *. lia.
    - right. split; [done|]. pose proof (sorted_lookup _ i _ b c Hs Hz Hi Hc ltac:(lia)). unfold sep in *. lia. }
  rewrite length_app in *.
  assert (i = target l1 l2 -> wp (ret b.1) (fun p s' => s' = s /\ exists c, (l1 ++ l2) !! target l1 l2 = Some c /\ p = c.1) s) as Hat.
  { intros <-. apply wp_ret. split; [done|]. by exists b. }
  assert (i <> target l1 l2 -> wp (free_search fuel bp c.1)
    (fun p s' => s' = s /\ exists c, (l1 ++ l2) !! target l1 l2 = Some c /\ p = c.1) s) as Hgo.
  { intros Hne. destruct d as [|d]; [done|]. rewrite Nat.iter_succ_r in Hd.
    by eapply (IH d); [done..|lia]. }
  clear IH. unfold target in *. apply lookup_lt_Some in Hc. rewrite length_app in Hc.
  destruct (Z.ltb_spec b.1 bp), (Z.ltb_spec bp c.1), (Z.leb_spec c.1 b.1); cbn [andb orb];
    first [apply Hat; destruct (length l1) eqn:?; cbn [Nat.sub]; lia|apply Hgo; destruct (length l1) eqn:?; cbn [Nat.sub]; lia|lia].
Qed.
End walk.

(** ** The heap

    [L] are the free blocks in order of their addresses, [A] the blocks handed out,
    [E] all the units the heap was ever given. *)
Definition away (k u : Z) : Prop := u + 8 < k \/ k + 16 <= u.
Record heap (k : Z) (m : gmap Z Z) (A L : list (Z * Z)) (E : list Z) : Prop := {
  h_sorted : StronglySorted sep L;
  h_ring : ring m L;
  h_base : (k, 0) ∈ L;
  h_freep : exists p, m !! (k + 8) = Some p /\ p ∈ L.*1;
  h_free : forall b, b ∈ L -> b = (k, 0) \/ block_ok b;
  h_used : forall b, b ∈ A -> block_ok b /\ m !! (b.1 + 4) = Some b.2;
  h_units : units_of L ++ units_of A ≡ₚ E;
  h_nodup : NoDup E;
  h_mapped : forall u, u ∈ E -> is_Some (m !! u) /\ is_Some (m !! (u + 4));
  h_away : forall u, u ∈ E -> away k u }.
(** Only the units of [E] and the words of the allocator changed. *)
Definition touched (k : Z) (E : list Z) (m m' : gmap Z Z) : Prop :=
  (forall x, ~ in_units E x -> ~ (k <= x < k + 12) -> m' !! x = m !! x) /\
  (forall x, is_Some (m' !! x) <-> is_Some (m !! x)).

Lemma touched_refl k E m : touched k E m m.
Proof. done. Qed.
Lemma touched_trans k E m1 m2 m3 : touched k E m1 m2 -> touched k E m2 m3 -> touched k E m1 m3.
Proof. intros [H1 D1] [H2 D2]. split; intros x; [intros; by rewrite H2, H1|by rewrite D2, D1]. Qed.
Lemma touched_mono k E E' m m' : touched k E m m' -> (forall u, u ∈ E -> u ∈ E') -> touched k E' m m'.
Proof. intros [H D] HE. split; [|done]. intros x Hx. apply H. intros (u & Hu & ?). apply Hx. exists u. auto. Qed.
Lemma is_Some_insert (m : gmap Z Z) a v x : is_Some (m !! a) -> is_Some (<[a := v]> m !! x) <-> is_Some (m !! x).
Proof. intros H. destruct (decide (x = a)) as [->|]; [by rewrite lookup_insert_eq|by rewrite lookup_insert_ne]. Qed.
Lemma touched_insert k E m m' a v :
  touched k E m m' -> in_units E a \/ k <= a < k + 12 -> is_Some (m !! a) -> touched k E m (<[a := v]> m').
Proof.
  intros [H D] Ha Hm. split; intros x; [|by rewrite is_Some_insert by (by apply D)]. intros H1 H2.
  rewrite lookup_insert_ne; [by apply H|]. intros <-. tauto.
Qed.

(** Words of different aligned units are different. *)
Lemma aligned_ne a b : aligned a -> aligned b -> a <> b -> a <> b + 4 /\ a + 4 <> b /\ a + 4 <> b + 4.
Proof.
  unfold aligned. intros Ha Hb Hn. apply Z.div_exact in Ha, Hb; [|lia..]. lia.
Qed.
Lemma hdr_size_eq a : 0 <= a -> a + 8 < 2 ^ 32 -> hdr_size a = a + 4.
Proof. intros. unfold hdr_size, wadd, wrap. apply Z.mod_small. lia. Qed.
Lemma hdr_add_eq a n : 0 <= a -> 0 <= n -> a + 8 * n < 2 ^ 32 -> hdr_add a n = a + 8 * n.
Proof. intros. unfold hdr_add, sizeof_header, wadd, wrap. apply Z.mod_small. lia. Qed.
Lemma hdr_sub_eq a : 0 <= a -> a + 8 < 2 ^ 32 -> hdr_sub (a + 8) 1 = a.
Proof. intros. unfold hdr_sub, sizeof_header, wsub, wrap. replace (a + 8 - 8 * 1) with a by lia. apply Z.mod_small. lia. Qed.

Section joins.
Context {S : Type} `{!Memory S}.
Implicit Types s : S.

(** The block to be freed absorbs the free block after it. *)
Lemma wp_join_upper s bp n (p : Z * Z) T nx (Q : unit -> S -> Prop) :
  0 < bp -> aligned bp -> 1 <= n -> bp + 8 * n < 2 ^ 32 -> mem s !! (bp + 4) = Some n -> is_Some (mem s !! bp) ->
  nx = hd p.1 T.*1 -> linked (mem s) T p.1 -> (T = [] -> bp + 8 * n <> p.1) ->
  (forall c, c ∈ T -> 0 < c.1 /\ aligned c.1 /\ c.1 <> bp /\ 0 <= c.2 /\ c.1 + 8 * c.2 < 2 ^ 32 /\ c.1 + 8 < 2 ^ 32) ->
  (forall m1 T' n', m1 !! bp = Some (hd p.1 T'.*1) -> m1 !! (bp + 4) = Some n' ->
    (forall x, x <> bp -> x <> bp + 4 -> m1 !! x = mem s !! x) ->
    T' = T /\ n' = n /\ bp + 8 * n <> nx \/ (exists c, T = c :: T' /\ n' = n + c.2 /\ c.1 = bp + 8 * n) ->
    Q tt (set_mem m1 s)) ->
  wp (if hdr_add bp n =? nx then
        let* nsize := load (hdr_size nx) in
        store (hdr_size bp) (n +w nsize) ;;;
        let* nptr := load (hdr_ptr nx) in
        store (hdr_ptr bp) nptr
      else store (hdr_ptr bp) nx) Q s.
Proof.
  intros H0 Ha Hn Hb Hs Hm -> HT Hne Hok HQ. rewrite hdr_add_eq by lia. unfold hdr_ptr.
  destruct (Z.eqb_spec (bp + 8 * n) (hd p.1 T.*1)) as [E|E].
  - destruct T as [|c T']; [by destruct (Hne eq_refl)|]. cbn in E, HT. destruct HT as (Hp & Hz & HT).
    destruct (Hok c (list_elem_of_here _ _)) as (Hc0 & Hca & Hcb & Hc2 & Hc3 & Hc4).
    destruct (aligned_ne c.1 bp Hca Ha Hcb) as (N1 & N2 & N3). cbn [hd fmap list_fmap].
    ustep. rewrite !hdr_size_eq by lia. ustep; [exact Hz|]. ustep. ustep; [by eexists|].
    ustep. ustep; [rewrite lookup_insert_ne by done; exact Hp|].
    ustep; [by rewrite is_Some_insert by (by eexists)|].
    assert (n +w c.2 = n + c.2) as -> by (unfold wadd, wrap; apply Z.mod_small; lia).
    apply (HQ _ T' (n + c.2)).
    + by rewrite lookup_insert_eq.
    + rewrite lookup_insert_ne by lia. by rewrite lookup_insert_eq.
    + intros x Hx Hx'. by rewrite !lookup_insert_ne by done.
    + right. by exists c.
  - ustep; [done|]. apply (HQ _ T n).
    + by rewrite lookup_insert_eq.
    + by rewrite lookup_insert_ne by lia.
    + intros x Hx Hx'. by rewrite !lookup_insert_ne by done.
    + by left.
Qed.

(** The free block before it absorbs it, or points to it. *)
Lemma wp_join_lower s bp n (p : Z * Z) T rest (Q : unit -> S -> Prop) :
  0 < bp -> aligned bp -> 1 <= n -> bp + 8 * n < 2 ^ 32 -> mem s !! (bp + 4) = Some n -> mem s !! bp = Some (hd p.1 T.*1) ->
  0 < p.1 -> aligned p.1 -> p.1 <> bp -> 0 <= p.2 -> p.1 + 8 * p.2 < 2 ^ 32 -> p.1 + 8 < 2 ^ 32 ->
  is_Some (mem s !! p.1) -> mem s !! (p.1 + 4) = Some p.2 -> linked (mem s) T p.1 ->
  (forall c, c ∈ T -> aligned c.1 /\ c.1 <> p.1) ->
  (forall m1 P, ring m1 (P ++ T) ->
    (forall x, x <> p.1 -> x <> p.1 + 4 -> m1 !! x = mem s !! x) ->
    (P = [p; (bp, n)] /\ p.1 + 8 * p.2 <> bp) \/ (P = [(p.1, p.2 + n)] /\ p.1 + 8 * p.2 = bp) ->
    wp rest Q (set_mem m1 s)) ->
  wp (let* psize := load (hdr_size p.1) in
      (if hdr_add p.1 psize =? bp then
        let* bsize := load (hdr_size bp) in
        store (hdr_size p.1) (psize +w bsize) ;;;
        let* bptr := load (hdr_ptr bp) in
        store (hdr_ptr p.1) bptr
      else store (hdr_ptr p.1) bp) ;;; rest) Q s.
Proof.
  intros H0 Ha Hn Hb Hs Hm Hp0 Hpa Hpn Hp2 Hp3 Hp4 Hpm Hps HT Hok HQ. unfold hdr_ptr.
  destruct (aligned_ne p.1 bp Hpa Ha Hpn) as (N1 & N2 & N3).
  ustep. rewrite !hdr_size_eq by lia. ustep; [exact Hps|]. rewrite hdr_add_eq by lia. ustep.
  assert (forall m1, (forall x, x <> p.1 -> x <> p.1 + 4 -> m1 !! x = mem s !! x) -> linked m1 T p.1) as HT1.
  { intros m1 Hm1. eapply linked_frame; [|exact HT]. intros c Hc. destruct (Hok c Hc) as [Hca Hcn].
    destruct (aligned_ne c.1 p.1 Hca Hpa Hcn) as (M1 & M2 & M3). by rewrite !Hm1 by done. }
  destruct (Z.eqb_spec (p.1 + 8 * p.2) bp) as [E|E].
  - ustep. ustep; [exact Hs|]. ustep. ustep; [by eexists|]. ustep.
    ustep; [rewrite lookup_insert_ne by lia; exact Hm|].
    ustep; [by rewrite is_Some_insert by (by eexists)|].
    assert (p.2 +w n = p.2 + n) as -> by (unfold wadd, wrap; apply Z.mod_small; lia).
    assert (forall x, x <> p.1 -> x <> p.1 + 4 ->
      (<[p.1:=hd p.1 T.*1]> (<[p.1 + 4:=p.2 + n]> (mem s))) !! x = mem s !! x) as Hm1.
    { intros x Hx Hx'. by rewrite !lookup_insert_ne by done. }
    apply (HQ _ [(p.1, p.2 + n)]); [|exact Hm1|by right].
    cbn. rewrite lookup_insert_eq. rewrite lookup_insert_ne by lia. rewrite lookup_insert_eq. auto.
  - ustep; [done|].
    assert (forall x, x <> p.1 -> x <> p.1 + 4 -> <[p.1:=bp]> (mem s) !! x = mem s !! x) as Hm1.
    { intros x Hx Hx'. by rewrite !lookup_insert_ne by done. }
    apply (HQ _ [p; (bp, n)]); [|exact Hm1|by left].
    cbn. rewrite lookup_insert_eq, !(lookup_insert_ne _ p.1) by lia. split_and!; auto.
Qed.
End joins.
