(* ===== verification/KrFree.v ===== *)
(** * Freeing a block

    A block handed out goes back to its place between the free blocks and is joined
    to its neighbours. *)
From stdpp Require Import base list gmap sorting.
From Stdlib Require Import ZArith Lia.
From S2P Require Import Prelude.
From S2P Require Import AllocBase.
From S2P Require Import DList.
From S2P Require Import KrMalloc.
From S2P Require Import KrRing.

(** ** Freeing *)
Section free.
Context {S : Type} `{!Memory S} (k : Z).
Hypotheses (K0 : 0 < k) (Ka : aligned k) (K1 : k + 24 < 2 ^ 32).
Implicit Types s : S.

Lemma block_ok_base b : b = (k, 0) \/ block_ok b -> 0 < b.1 /\ aligned b.1 /\ 0 <= b.2 /\ b.1 + 8 * b.2 < 2 ^ 32 /\ b.1 + 8 < 2 ^ 32.
Proof. intros [->|(? & ? & ? & ?)]; cbn; split_and!; (done || lia). Qed.

Lemma heap_size m A L E b : heap k m A L E -> b ∈ L -> 0 <= b.2.
Proof. intros H Hb. by apply (block_ok_base b), (h_free _ _ _ _ _ H). Qed.

Lemma heap_fuel m A L E : heap k m A L E -> (length L <= size m)%nat.
Proof.
  intros H. rewrite <- (length_fmap fst). apply keys_bound.
  - apply sorted_fst; [apply H|]. intros x. by apply (heap_size m A L E).
  - intros x (b & -> & [i Hi]%list_elem_of_lookup)%list_elem_of_fmap.
    destruct (ring_next _ _ _ _ (h_ring _ _ _ _ _ H) Hi) as [-> _]. by eexists.
Qed.

Lemma unit_here b : 1 <= b.2 -> b.1 ∈ units b.
Proof. intros H. apply elem_of_units. exists 0. lia. Qed.

(** A block handed out lies between free blocks. *)
Lemma heap_gap m A L E b c : heap k m A L E -> b ∈ A -> c ∈ L ->
  c.1 + 8 * c.2 <= b.1 /\ c.1 < b.1 /\ c.1 + 8 * c.2 <= b.1 \/ b.1 + 8 * b.2 <= c.1 /\ b.1 < c.1.
Proof.
  intros H Hb Hc. destruct (h_used _ _ _ _ _ H b Hb) as [(Hb0 & Hba & Hb1 & Hb2) _].
  destruct (h_free _ _ _ _ _ H c Hc) as [->|(Hc0 & Hca & Hc1 & Hc2)].
  - cbn. assert (away k b.1 /\ away k (b.1 + 8 * (b.2 - 1))) as [Hy Hz].
    { split; apply (h_away _ _ _ _ _ H); rewrite <- (h_units _ _ _ _ _ H); apply elem_of_app; right; apply elem_of_units_of;
        exists b; (split; [done|]); [by apply unit_here|apply elem_of_units; exists (b.2 - 1); lia]. }
    assert (b.1 + 8 * b.2 <= k \/ k + 8 <= b.1) as Hk.
    { destruct (Z_lt_ge_dec k b.1) as [Hlt|Hge].
      - right. unfold aligned in *. apply Z.div_exact in Hba, Ka; lia.
      - left. unfold away in *. destruct (Z_le_gt_dec (b.1 + 8 * b.2) k) as [|Hgt]; [done|exfalso].
        assert (k ∈ units b) as Hku.
        { apply elem_of_units. unfold aligned in *. apply Z.div_exact in Hba, Ka; [|lia..].
          exists (k / 8 - b.1 / 8). lia. }
        assert (away k k) as Hkk; [|unfold away in Hkk; lia].
        apply (h_away _ _ _ _ _ H). rewrite <- (h_units _ _ _ _ _ H). apply elem_of_app. right. apply elem_of_units_of. by exists b. }
    lia.
  - destruct (blocks_apart b c) as [Hd|Hd]; [done..| |lia|lia].
    intros u Hu Hu'. pose proof (h_nodup _ _ _ _ _ H) as Hn. rewrite <- (h_units _ _ _ _ _ H) in Hn.
    apply NoDup_app in Hn as (_ & Hn & _). apply (Hn u); apply elem_of_units_of; eauto.
Qed.

(** No block handed out touches the words of the allocator from below. *)
Lemma heap_away m A L E b : heap k m A L E -> b ∈ A -> b.1 + 8 * b.2 <> k /\ b.1 <> k.
Proof.
  intros H Hb. destruct (h_used _ _ _ _ _ H b Hb) as [(Hb0 & Hba & Hb1 & Hb2) _].
  assert (away k b.1 /\ away k (b.1 + 8 * (b.2 - 1))) as [Hy Hz]; [|unfold away in *; lia].
  split; apply (h_away _ _ _ _ _ H); rewrite <- (h_units _ _ _ _ _ H); apply elem_of_app; right; apply elem_of_units_of;
    exists b; (split; [done|]); [by apply unit_here|apply elem_of_units; exists (b.2 - 1); lia].
Qed.

(** The free blocks around the place of a block *)
Lemma heap_split m A L E b : heap k m A L E -> b ∈ A -> exists l1 l2, L = l1 ++ l2 /\
  (forall x, x ∈ l1 -> x.1 + 8 * x.2 <= b.1 /\ x.1 < b.1) /\ (forall x, x ∈ l2 -> b.1 + 8 * b.2 <= x.1 /\ b.1 < x.1).
Proof.
  intros H Hb. pose proof (heap_gap m A L E b) as Hg.
  assert (forall L', StronglySorted sep L' -> (forall c, c ∈ L' -> c ∈ L) -> exists l1 l2, L' = l1 ++ l2 /\
    (forall x, x ∈ l1 -> x.1 + 8 * x.2 <= b.1 /\ x.1 < b.1) /\ (forall x, x ∈ l2 -> b.1 + 8 * b.2 <= x.1 /\ b.1 < x.1)) as Hgo.
  { induction 1 as [|c L' Hs IH Hc]; intros HL; [by exists [], []; split_and!; [done|..]; intros ? ?%elem_of_nil|].
    destruct (Hg c H Hb (HL c (list_elem_of_here _ _))) as [Hlt|Hge].
    - destruct IH as (l1 & l2 & -> & H1 & H2); [intros; apply HL; by right|]. exists (c :: l1), l2.
      split_and!; [done| |done]. intros x [->|Hx]%elem_of_cons; [lia|by apply H1].
    - exists [], (c :: L'). split_and!; [done|by intros ? ?%elem_of_nil|].
      intros x [->|Hx]%elem_of_cons; [lia|]. rewrite Forall_forall in Hc. specialize (Hc x Hx). unfold sep in Hc.
      pose proof (heap_size m A L E c H (HL c (list_elem_of_here _ _))).
      destruct (Hg x H Hb) as [|]; [apply HL; by right| |]; lia. }
  apply Hgo; [apply H|done].
Qed.

Lemma unit_unique u u' x : aligned u -> aligned u' -> u <= x < u + 8 -> u' <= x < u' + 8 -> u = u'.
Proof. unfold aligned. intros Ha Hb. apply Z.div_exact in Ha, Hb; [|lia..]. lia. Qed.
Lemma units_aligned b u : aligned b.1 -> u ∈ units b -> aligned u.
Proof.
  unfold aligned. intros Hb (i & -> & _)%elem_of_units. rewrite Z.mul_comm, Z.mod_add by done. exact Hb.
Qed.
Lemma heap_aligned m A L E u : heap k m A L E -> u ∈ E -> aligned u.
Proof.
  intros H Hu. rewrite <- (h_units _ _ _ _ _ H) in Hu.
  apply elem_of_app in Hu as [(b & Hb & Hu)%elem_of_units_of|(b & Hb & Hu)%elem_of_units_of]; eapply units_aligned; try done.
  - by apply (block_ok_base b), (h_free _ _ _ _ _ H).
  - by apply (h_used _ _ _ _ _ H b Hb).
Qed.
(** The words of the blocks handed out are no words of the free ones, nor the allocator's. *)
Lemma heap_owned m A L E b x : heap k m A L E -> b ∈ A -> b.1 <= x < b.1 + 8 * b.2 ->
  ~ in_units (units_of L) x /\ ~ (k <= x < k + 12).
Proof.
  intros H Hb Hx. destruct (h_used _ _ _ _ _ H b Hb) as [(Hb0 & Hba & Hb1 & Hb2) _].
  set (u := b.1 + 8 * ((x - b.1) / 8)).
  assert (u ∈ units b) as Hub.
  { apply elem_of_units. exists ((x - b.1) / 8). split; [done|]. split; [apply Z.div_pos; lia|apply Z.div_lt_upper_bound; lia]. }
  assert (u ∈ units_of A) as HuA by (apply elem_of_units_of; eauto).
  assert (u <= x < u + 8) as Hux.
  { unfold u. pose proof (Z.div_mod (x - b.1) 8 ltac:(done)). pose proof (Z.mod_pos_bound (x - b.1) 8 ltac:(done)). lia. }
  assert (u ∈ E) as HuE by (rewrite <- (h_units _ _ _ _ _ H); apply elem_of_app; by right).
  split.
  - intros (u' & Hu' & Hx'). assert (u' ∈ E) as HuE' by (rewrite <- (h_units _ _ _ _ _ H); apply elem_of_app; by left).
    assert (u' = u) as -> by (eapply unit_unique; eauto using heap_aligned).
    pose proof (h_nodup _ _ _ _ _ H) as Hn. rewrite <- (h_units _ _ _ _ _ H) in Hn. apply NoDup_app in Hn as (_ & Hn & _). by apply (Hn u).
  - pose proof (h_away _ _ _ _ _ H u HuE) as Hy. unfold away in Hy. lia.
Qed.
Lemma heap_free_addr m A L E b : heap k m A L E -> b ∈ L -> b.1 <> k + 8 /\ b.1 + 4 <> k + 8.
Proof.
  intros H Hb. destruct (h_free _ _ _ _ _ H b Hb) as [->|(Hb0 & Hba & Hb1 & Hb2)]; [cbn; lia|].
  assert (away k b.1) as Hy; [|unfold away in Hy; lia]. apply (h_away _ _ _ _ _ H). rewrite <- (h_units _ _ _ _ _ H).
  apply elem_of_app. left. apply elem_of_units_of. exists b. split; [done|]. by apply unit_here.
Qed.

(** A heap with a block handed out, seen as one in which it is part of the free memory *)
Lemma heap_move m A L E b m' L' p :
  heap k m (b :: A) L E -> touched k (units_of (b :: L)) m m' ->
  StronglySorted sep L' -> ring m' L' -> (k, 0) ∈ L' -> m' !! (k + 8) = Some p -> p ∈ L'.*1 ->
  (forall c, c ∈ L' -> c = (k, 0) \/ block_ok c) -> units_of L' ≡ₚ units_of (b :: L) ->
  heap k m' A L' E.
Proof.
  intros H [Ht Hd] Hs Hr Hb Hp Hp' Hok Hu. pose proof (h_units _ _ _ _ _ H) as HE. rewrite !units_of_cons in *.
  split; try done.
  - eauto.
  - intros c Hc. destruct (h_used _ _ _ _ _ H c) as [Hc1 Hc2]; [by right|]. split; [done|]. rewrite <- Hc2.
    destruct Hc1 as (Hc0 & Hca & Hc1 & Hc3).
    destruct (heap_owned _ _ _ _ c (c.1 + 4) H) as [Hx Hk]; [by right|lia|]. apply Ht; [|done].
    intros (u & [Hub|HuL]%elem_of_app & Hux); [|apply Hx; by exists u].
    assert (u = c.1) as ->.
    { eapply (unit_unique _ _ (c.1 + 4)); [|done|done|lia]. eapply units_aligned; [|exact Hub]. by apply (h_used _ _ _ _ _ H b (list_elem_of_here _ _)). }
    pose proof (h_nodup _ _ _ _ _ H) as Hn. rewrite <- HE in Hn. apply NoDup_app in Hn as (_ & _ & Hn).
    apply NoDup_app in Hn as (_ & Hn & _). apply (Hn c.1 Hub). apply elem_of_units_of. exists c. split; [done|by apply unit_here].
  - rewrite Hu, <- HE. solve_Permutation.
  - apply H.
  - intros u HuE. rewrite !Hd. by apply (h_mapped _ _ _ _ _ H).
  - apply H.
Qed.

(** The free block after which a block belongs, and those that follow it in the ring:
    before the target the ring is cut, and the new list starts elsewhere. *)
Definition ring_from (l1 l2 : list (Z * Z)) (p : Z * Z) (T : list (Z * Z)) : Prop :=
  (exists l1', l1 = l1' ++ [p] /\ T = l2 ++ l1') \/ (l1 = [] /\ l2 = T ++ [p]).
Lemma ring_from_target l1 l2 p : (l1 ++ l2) !! target l1 l2 = Some p -> exists T, ring_from l1 l2 p T.
Proof.
  unfold target, ring_from. destruct l1 as [|x l1 _] using rev_ind.
  - cbn. intros H. destruct l2 as [|y l2 _] using rev_ind; [done|]. exists l2. right. split; [done|].
    rewrite length_app in H. cbn in H. replace (length l2 + 1 - 1)%nat with (length l2) in H by lia.
    rewrite list_lookup_middle in H by done. by simplify_eq.
  - rewrite length_app. cbn [length]. intros H. exists (l2 ++ l1). left. exists l1. split; [|done].
    replace (match (length l1 + 1)%nat with O => length l2 | Datatypes.S n => Datatypes.S n end - 1)%nat with (length l1) in H
      by (rewrite Nat.add_1_r; cbn; lia).
    rewrite <- app_assoc in H. cbn [app] in H. rewrite list_lookup_middle in H by done. by simplify_eq.
Qed.
Lemma ring_from_ring m l1 l2 p T : ring_from l1 l2 p T -> ring m (l1 ++ l2) -> ring m (p :: T).
Proof.
  intros [(l1' & -> & ->)|[-> ->]] H.
  - rewrite <- app_assoc in H. apply ring_rotate in H. by rewrite <- app_assoc in H.
  - by apply (ring_rotate _ T [p]).
Qed.
Lemma ring_from_elem l1 l2 p T c : ring_from l1 l2 p T -> c ∈ p :: T <-> c ∈ l1 ++ l2.
Proof. intros [(l1' & -> & ->)|[-> ->]]; set_solver. Qed.
Lemma ring_from_perm l1 l2 p T : ring_from l1 l2 p T -> p :: T ≡ₚ l1 ++ l2.
Proof. intros [(l1' & -> & ->)|[-> ->]]; cbn; solve_Permutation. Qed.

(** The end of the block and what it absorbed is below what follows. *)
Lemma sorted_above b b' (q : Z) X Y : StronglySorted sep X -> (forall x, x ∈ X -> 0 <= x.2) ->
  (forall x, x ∈ X -> b.1 + 8 * b.2 <= x.1) ->
  (Y = X /\ b' = b /\ b.1 + 8 * b.2 <> hd q X.*1 \/
   exists c, X = c :: Y /\ b' = (b.1, b.2 + c.2) /\ c.1 = b.1 + 8 * b.2) ->
  b'.1 = b.1 /\ StronglySorted sep Y /\ (forall x, x ∈ Y -> sep b' x) /\ (forall x, x ∈ Y -> x ∈ X).
Proof.
  unfold sep at 3. intros Hs Hz Hb [(-> & -> & Hne)|(c & -> & -> & Hc)]; cbn.
  - split_and!; [done|done| |done]. destruct X as [|y X]; [by intros x ?%elem_of_nil|].
    inversion Hs as [|? ? _ Hy]; subst. rewrite Forall_forall in Hy. cbn in Hne.
    pose proof (Hb y (list_elem_of_here _ _)). intros x [->|Hx]%elem_of_cons; [lia|].
    specialize (Hy x Hx). unfold sep in Hy. pose proof (Hz y (list_elem_of_here _ _)). lia.
  - inversion Hs as [|? ? Hs' Hy]; subst. rewrite Forall_forall in Hy. split_and!; [done|done| |by right].
    intros x Hx. specialize (Hy x Hx). unfold sep in Hy. lia.
Qed.

(** Where the new block goes: [P ++ T'] is the new ring, started at the target. *)
Lemma sorted_insert l1 l2 p T b b' T' P :
  StronglySorted sep (l1 ++ l2) -> (forall x, x ∈ l1 ++ l2 -> 0 <= x.2) -> 1 <= b.2 ->
  (forall x, x ∈ l1 -> x.1 + 8 * x.2 <= b.1 /\ x.1 < b.1) -> (forall x, x ∈ l2 -> b.1 + 8 * b.2 <= x.1 /\ b.1 < x.1) ->
  ring_from l1 l2 p T ->
  (T' = T /\ b' = b /\ b.1 + 8 * b.2 <> hd p.1 T.*1 \/
   exists c, T = c :: T' /\ b' = (b.1, b.2 + c.2) /\ c.1 = b.1 + 8 * b.2) ->
  (P = [p; b'] /\ p.1 + 8 * p.2 <> b.1 \/ P = [(p.1, p.2 + b'.2)] /\ p.1 + 8 * p.2 = b.1) ->
  exists L', StronglySorted sep L' /\ (forall m, ring m (P ++ T') -> ring m L') /\ L' ≡ₚ P ++ T'.
Proof.
  intros Hs Hz Hb H1 H2 HT Hu HP. destruct HT as [(l1' & -> & ->)|[-> ->]].
  - apply StronglySorted_app in Hs as (H12 & Hs1 & Hs2). apply StronglySorted_app in Hs1 as (H1p & Hs1 & _).
    assert (exists l2', T' = l2' ++ l1' /\ b'.1 = b.1 /\ StronglySorted sep l2' /\ (forall x, x ∈ l2' -> sep b' x) /\
      (forall x, x ∈ l2' -> x ∈ l2)) as (l2' & -> & Eb & Hs2' & Hb2 & Hsub).
    { destruct Hu as [(-> & -> & Hne)|(c & Ec & -> & Hc)].
      - exists l2. split; [done|]. destruct l2 as [|y l2]; [by split_and!; [done|done|intros x ?%elem_of_nil..]|].
        apply (sorted_above b b p.1 (y :: l2)); [done|set_solver|intros; by apply H2|by left].
      - destruct l2 as [|y l2].
        + destruct (H1 c) as [_ Hlt]; [cbn in Ec; subst; set_solver|]. lia.
        + cbn in Ec. simplify_eq. exists l2. split; [done|].
          apply (sorted_above b (b.1, b.2 + c.2) p.1 (c :: l2)); [done|set_solver|intros; by apply H2|right; by exists c]. }
    destruct (H1 p) as [Hp1 Hp2]; [set_solver|]. unfold sep in *.
    exists (l1' ++ P ++ l2'). split; [|split].
    + apply StronglySorted_app. split; [|split; [done|]].
      * intros x y Hx [Hy|Hy]%elem_of_app.
        -- specialize (H1p x p Hx (list_elem_of_here _ _)). destruct HP as [[-> _]|[-> _]]; set_unfold in Hy; naive_solver lia.
        -- apply H12; [set_solver|by apply Hsub].
      * assert (forall x, x ∈ l2' -> p.1 + 8 * p.2 < x.1) as Hp by (intros x Hx; apply H12; [set_solver|by apply Hsub]).
        destruct HP as [[-> HP]|[-> HP]]; cbn [app]; repeat apply SSorted_cons; try done; rewrite ?Forall_cons, ?Forall_forall; cbn.
        -- exact Hb2.
        -- split; [lia|exact Hp].
        -- intros x Hx. specialize (Hb2 x Hx). lia.
    + intros m Hm. apply ring_rotate. by rewrite <- app_assoc.
    + solve_Permutation.
  - cbn in Hs, Hz. assert (0 <= p.2) by (apply Hz; set_solver). destruct (H2 p) as [Hp1 Hp2]; [set_solver|].
    destruct HP as [[-> HP]|[_ HP]]; [|lia].
    destruct (sorted_above b b' 0 (T ++ [p]) (T' ++ [p])) as (Eb & Hs' & Hb' & _); [done|done|intros; by apply H2| |].
    { destruct Hu as [(-> & -> & Hne)|(c & -> & -> & Hc)].
      - left. split; [done|]. split; [done|]. by rewrite fmap_app, hd_app.
      - right. by exists c. }
    exists (b' :: T' ++ [p]). split; [|split].
    + constructor; [done|]. by apply Forall_forall.
    + intros m Hm. by apply (ring_rotate m [p] (b' :: T')).
    + cbn. solve_Permutation.
Qed.

Definition freed (s : S) (A L : list (Z * Z)) (E : list Z) (b : Z * Z) (s' : S) : Prop :=
  exists m' L', s' = set_mem m' s /\ heap k m' A L' E /\ touched k (units_of (b :: L)) (mem s) m' /\
    (length L' <= Datatypes.S (length L))%nat /\ exists c, c ∈ L' /\ b.2 <= c.2.

Lemma header_word m A L E b c x : heap k m (b :: A) L E -> c ∈ b :: L -> x = c.1 \/ x = c.1 + 4 ->
  (in_units (units_of (b :: L)) x \/ k <= x < k + 12) /\ is_Some (m !! x) /\ x <> k + 8.
Proof.
  intros H Hc Hx. assert (c = (k, 0) /\ c ∈ L \/ block_ok c /\ c.1 ∈ E) as [[-> HL]|[(Hc0 & Hca & Hc1 & Hc2) HE]].
  { apply elem_of_cons in Hc as [->|Hc].
    - right. split; [by apply (h_used _ _ _ _ _ H b (list_elem_of_here _ _))|]. rewrite <- (h_units _ _ _ _ _ H).
      apply elem_of_app. right. apply elem_of_units_of. exists b. split; [left|]. apply unit_here.
      by apply (h_used _ _ _ _ _ H b (list_elem_of_here _ _)).
    - destruct (h_free _ _ _ _ _ H c Hc) as [->|Hok]; [by left|right]. split; [done|]. rewrite <- (h_units _ _ _ _ _ H).
      apply elem_of_app. left. apply elem_of_units_of. exists c. split; [done|]. apply unit_here, Hok. }
  - apply list_elem_of_lookup in HL as [i Hi]. destruct (ring_next _ _ _ _ (h_ring _ _ _ _ _ H) Hi) as [E1 E2]. cbn in *.
    split; [right; lia|]. split; [destruct Hx as [->| ->]; eauto|lia].
  - split; [|split].
    + left. exists c.1. split; [|lia]. apply elem_of_units_of. exists c. split; [done|by apply unit_here].
    + destruct (h_mapped _ _ _ _ _ H c.1 HE) as [? ?]. by destruct Hx as [->| ->].
    + pose proof (h_away _ _ _ _ _ H c.1 HE) as Hy. unfold away in Hy. lia.
Qed.

(** The execution of the free of [b] at its place: [p] is the free block after which
    it belongs, [m1] the memory after the first join, [m2] after the second. *)
Section place.
Context (m : gmap Z Z) (A L : list (Z * Z)) (E : list Z) (b p : Z * Z) (l1 l2 T : list (Z * Z)).
Hypotheses (H : heap k m (b :: A) L E) (EL : L = l1 ++ l2)
  (H1 : forall x, x ∈ l1 -> x.1 + 8 * x.2 <= b.1 /\ x.1 < b.1)
  (H2 : forall x, x ∈ l2 -> b.1 + 8 * b.2 <= x.1 /\ b.1 < x.1) (HT : ring_from l1 l2 p T).

Lemma place_in c : c ∈ p :: T -> c ∈ L.
Proof. rewrite EL. by apply ring_from_elem. Qed.
Lemma place_ok x : x ∈ L ->
  0 < x.1 /\ aligned x.1 /\ 0 <= x.2 /\ x.1 + 8 * x.2 < 2 ^ 32 /\ x.1 + 8 < 2 ^ 32 /\ x.1 <> b.1.
Proof.
  intros Hx. destruct (block_ok_base x) as (? & ? & ? & ? & ?); [by apply (h_free _ _ _ _ _ H)|].
  split_and!; try done. intros E1. rewrite EL in Hx. apply elem_of_app in Hx as [Hx|Hx]; [apply H1 in Hx|apply H2 in Hx]; lia.
Qed.
Lemma place_block : 0 < b.1 /\ aligned b.1 /\ 1 <= b.2 /\ b.1 + 8 * b.2 < 2 ^ 32 /\
  m !! (b.1 + 4) = Some b.2 /\ is_Some (m !! b.1) /\ b.1 + 8 * b.2 <> k.
Proof.
  destruct (h_used _ _ _ _ _ H b (list_elem_of_here _ _)) as [(? & ? & ? & ?) ?].
  destruct (heap_away _ _ _ _ b H (list_elem_of_here _ _)). split_and!; try done.
  apply (h_mapped _ _ _ _ _ H). rewrite <- (h_units _ _ _ _ _ H). apply elem_of_app. right. apply elem_of_units_of.
  exists b. split; [left|by apply unit_here].
Qed.
Lemma place_ring : m !! p.1 = Some (hd p.1 T.*1) /\ m !! (p.1 + 4) = Some p.2 /\ linked m T p.1.
Proof. pose proof (h_ring _ _ _ _ _ H) as Hr. rewrite EL in Hr. exact (ring_from_ring _ _ _ _ _ HT Hr). Qed.
Lemma place_alone : T = [] -> b.1 + 8 * b.2 <> p.1.
Proof.
  intros ->. assert (p = (k, 0)) as ->; [|apply place_block].
  pose proof (h_base _ _ _ _ _ H) as Hb'. rewrite EL, <- (ring_from_elem _ _ _ _ _ HT) in Hb'. by apply list_elem_of_singleton in Hb'.
Qed.
Lemma place_fresh : p.1 ∉ T.*1.
Proof.
  assert (NoDup (p :: T).*1) as HTn.
  { rewrite (ring_from_perm _ _ _ _ HT), <- EL. apply sorted_fst; [apply H|]. intros x. by apply (heap_size m (b :: A) L E). }
  by apply NoDup_cons in HTn as [? _].
Qed.
Lemma place_p_ne : p.1 <> b.1 /\ p.1 <> b.1 + 4 /\ p.1 + 4 <> b.1 /\ p.1 + 4 <> b.1 + 4.
Proof.
  destruct (place_ok p (place_in p (list_elem_of_here _ _))) as (_ & Hpa & _ & _ & _ & Hn).
  split; [done|]. apply aligned_ne; try done. apply place_block.
Qed.

Context (m1 : gmap Z Z) (T' : list (Z * Z)) (n' : Z).
Hypotheses (Hm1b : m1 !! b.1 = Some (hd p.1 T'.*1)) (Hm1s : m1 !! (b.1 + 4) = Some n')
  (Hm1 : forall x, x <> b.1 -> x <> b.1 + 4 -> m1 !! x = m !! x)
  (Hup : T' = T /\ n' = b.2 /\ b.1 + 8 * b.2 <> hd p.1 T.*1 \/
         exists c, T = c :: T' /\ n' = b.2 + c.2 /\ c.1 = b.1 + 8 * b.2).

Lemma upper_sub c : c ∈ T' -> c ∈ T.
Proof. destruct Hup as [(-> & _)|(d & -> & _)]; [done|by right]. Qed.
Lemma upper_bounds : 1 <= n' /\ b.1 + 8 * n' < 2 ^ 32 /\ b.2 <= n'.
Proof.
  destruct place_block as (_ & _ & ? & ? & _). destruct Hup as [(_ & -> & _)|(c & Ec & -> & Ec')]; [lia|].
  destruct (place_ok c) as (? & ? & ? & ? & _); [apply place_in; rewrite Ec; right; left|lia].
Qed.
Lemma upper_linked : linked m1 T' p.1.
Proof.
  apply (linked_frame m).
  - intros c Hc. destruct (place_ok c) as (_ & Hca & _ & _ & _ & Hn); [apply place_in; right; by apply upper_sub|].
    destruct (aligned_ne c.1 b.1 Hca ltac:(apply place_block) Hn) as (M1 & M2 & M3). by split; apply Hm1.
  - destruct place_ring as (_ & _ & HTl). destruct Hup as [(-> & _)|(c & -> & _)]; [done|]. by destruct HTl as (_ & _ & ?).
Qed.
Lemma upper_units : units (b.1, n') ++ units_of T' ≡ₚ units b ++ units_of T.
Proof.
  destruct place_block as (_ & _ & ? & _). destruct Hup as [(-> & -> & _)|(c & Ec & -> & Ec')]; [by destruct b|].
  rewrite Ec, units_of_cons, units_split; [|lia|apply place_ok, place_in; rewrite Ec; right; left].
  rewrite <- Ec'. destruct b, c. cbn. by rewrite app_assoc.
Qed.

Context (m2 : gmap Z Z) (P : list (Z * Z)).
Hypotheses (HP : ring m2 (P ++ T')) (Hm2 : forall x, x <> p.1 -> x <> p.1 + 4 -> m2 !! x = m1 !! x)
  (HPs : P = [p; (b.1, n')] /\ p.1 + 8 * p.2 <> b.1 \/ P = [(p.1, p.2 + n')] /\ p.1 + 8 * p.2 = b.1).

(** The words written: the headers of [p] and [b] *)
Definition written (x : Z) : Prop := x = p.1 \/ x = p.1 + 4 \/ x = b.1 \/ x = b.1 + 4.
Lemma place_written x : written x ->
  (in_units (units_of (b :: L)) x \/ k <= x < k + 12) /\ is_Some (m !! x) /\ is_Some (m2 !! x) /\ x <> k + 8.
Proof.
  destruct place_p_ne as (N0 & N1 & N2 & N3). assert (exists q P', P = (p.1, q) :: P') as (q & P' & EP).
  { destruct HPs as [[-> _]|[-> _]]; [|by eexists _, []]. exists p.2, [(b.1, n')]. by destruct p. }
  rewrite EP in HP. destruct HP as (Q1 & Q2 & _). cbn [fst snd] in Q1, Q2.
  intros Hx. assert (exists c, c ∈ b :: L /\ (x = c.1 \/ x = c.1 + 4)) as (c & Hc & Hxc).
  { destruct Hx as [Hx|[Hx|Hx]]; [exists p|exists p|exists b]; (split; [|tauto]); [right|right|left]; apply place_in; left. }
  destruct (header_word _ _ _ _ b c x H Hc Hxc) as (X1 & X2 & X3). split_and!; try done.
  destruct Hx as [->|[->|[->| ->]]]; [by eexists..| |]; rewrite Hm2 by lia; by eexists.
Qed.
Lemma place_freep : m2 !! (k + 8) = m !! (k + 8).
Proof.
  assert (~ written (k + 8)) as Hx by (intros Hx; by destruct (place_written (k + 8) Hx) as (_ & _ & _ & [])).
  unfold written in Hx. by rewrite Hm2, Hm1 by tauto.
Qed.
Lemma place_touched : touched k (units_of (b :: L)) m (<[k + 8 := p.1]> m2).
Proof.
  destruct (h_freep _ _ _ _ _ H) as (fp & Hfp & _).
  apply touched_insert; [|right; lia|by eexists]. split; intros x.
  - intros X1 X2. assert (~ written x) as Hx by (intros Hx; destruct (place_written x Hx) as ([?|?] & _); tauto).
    unfold written in Hx. by rewrite Hm2, Hm1 by tauto.
  - assert (written x \/ ~ written x) as [Hx|Hx] by (unfold written; lia).
    + by destruct (place_written x Hx) as (_ & ? & ? & _).
    + unfold written in Hx. by rewrite Hm2, Hm1 by tauto.
Qed.
Lemma place_elem c : c ∈ P ++ T' -> c ∈ L \/ c.1 = b.1 /\ c.2 = n' \/ c.1 = p.1 /\ c.2 = p.2 + n' /\ p.1 + 8 * p.2 = b.1.
Proof.
  intros [Hc|Hc]%elem_of_app; [|left; apply place_in; right; by apply upper_sub].
  destruct HPs as [[EP _]|[EP Ep]]; rewrite EP in Hc.
  - apply elem_of_cons in Hc as [->|Hc]; [left; apply place_in; left|]. apply list_elem_of_singleton in Hc as ->. by right; left.
  - apply list_elem_of_singleton in Hc as ->. right; right. by split_and!.
Qed.
Lemma place_heads c : c ∈ P ++ T' -> c.1 <> k + 8 /\ c.1 + 4 <> k + 8.
Proof.
  intros [Hc|[[-> _]|[-> _]]]%place_elem; [by apply (heap_free_addr _ _ _ _ c H)|..];
    split; apply place_written; unfold written; tauto.
Qed.
Lemma place_base : (k, 0) ∈ P ++ T'.
Proof.
  destruct place_block as (? & _ & ? & _ & _ & _ & Hbk). destruct (heap_away _ _ _ _ b H (list_elem_of_here _ _)) as [_ Hbk'].
  pose proof (h_base _ _ _ _ _ H) as HB. rewrite EL, <- (ring_from_elem _ _ _ _ _ HT) in HB.
  apply elem_of_cons in HB as [HB|HB].
  - destruct HPs as [[-> _]|[_ Ep]]; [rewrite HB; left|]. rewrite <- HB in Ep. cbn in Ep. lia.
  - apply elem_of_app. right. destruct Hup as [(-> & _)|(c & Ec & -> & Ec')]; [done|]. rewrite Ec in HB.
    apply elem_of_cons in HB as [HB|HB]; [rewrite <- HB in Ec'; cbn in Ec'; lia|done].
Qed.
Lemma place_ok' c : c ∈ P ++ T' -> c = (k, 0) \/ block_ok c.
Proof.
  destruct place_block as (? & ? & ? & ? & _). destruct upper_bounds as (? & ? & ?).
  destruct (place_ok p (place_in p (list_elem_of_here _ _))) as (? & ? & ? & ? & ? & _).
  intros [Hc|[[E1 E2]|(E1 & E2 & Ep)]]%place_elem; [by apply (h_free _ _ _ _ _ H)|..]; right; unfold block_ok; rewrite E1, E2;
    split_and!; done || lia.
Qed.
Lemma place_units : units_of (P ++ T') ≡ₚ units_of (b :: L).
Proof.
  destruct upper_bounds as (? & ? & ?). pose proof upper_units as HU.
  destruct (place_ok p (place_in p (list_elem_of_here _ _))) as (_ & _ & ? & _).
  rewrite (units_of_cons b), EL, <- (ring_from_perm _ _ _ _ HT), (units_of_cons p).
  transitivity (units p ++ (units (b.1, n') ++ units_of T')); [|rewrite HU; solve_Permutation].
  destruct HPs as [[-> _]|[-> Ep]]; rewrite units_of_app, !units_of_cons; change (units_of []) with (@nil Z); rewrite app_nil_r;
    [solve_Permutation|].
  rewrite units_split, Ep by lia. destruct p as [pa pn]. cbn [fst snd]. solve_Permutation.
Qed.

Lemma place_freed (s : S) : mem s = m -> freed s A L E b (set_mem (<[k + 8 := p.1]> m2) s).
Proof.
  intros Es. destruct upper_bounds as (Hn1 & Hn2 & Hn3). destruct place_block as (_ & _ & Hb & _).
  destruct (sorted_insert l1 l2 p T b (b.1, n') T' P) as (L' & HLs & HLr & HLp); try done.
  { rewrite <- EL. apply H. }
  { rewrite <- EL. intros x. by apply (heap_size m (b :: A) L E). }
  { destruct Hup as [(-> & -> & ?)|(c & -> & -> & ?)]; [left; split_and!; try done; by destruct b|right; by exists c]. }
  exists (<[k + 8 := p.1]> m2), L'. rewrite Es. split; [done|split; [|split; [exact place_touched|split]]].
  - eapply (heap_move m A L E b _ L' p.1); [exact H|exact place_touched|exact HLs| | |apply lookup_insert_eq| | |].
    + apply HLr. eapply linked_frame; [|exact HP]. intros c Hc. destruct (place_heads c Hc). by rewrite !lookup_insert_ne by lia.
    + rewrite HLp. exact place_base.
    + rewrite HLp. destruct HPs as [[-> _]|[-> _]]; cbn; left.
    + intros c Hc. apply place_ok'. by rewrite <- HLp.
    + rewrite HLp. exact place_units.
  - rewrite (Permutation_length HLp), EL, <- (Permutation_length (ring_from_perm _ _ _ _ HT)), length_app.
    destruct Hup as [(-> & _)|(c & -> & _)]; destruct HPs as [[-> _]|[-> _]]; cbn; lia.
  - destruct HPs as [[EP _]|[EP _]].
    + exists (b.1, n'). split; [rewrite HLp, EP; right; left|done].
    + exists (p.1, p.2 + n'). split; [rewrite HLp, EP; left|cbn].
      destruct (place_ok p (place_in p (list_elem_of_here _ _))) as (_ & _ & ? & _). lia.
Qed.
End place.

(** The search finds the place. *)
Lemma wp_free_place s A L E b fp l1 l2 : heap k (mem s) (b :: A) L E -> mem s !! (k + 8) = Some fp -> L = l1 ++ l2 ->
  (forall x, x ∈ l1 -> x.1 + 8 * x.2 <= b.1 /\ x.1 < b.1) -> (forall x, x ∈ l2 -> b.1 + 8 * b.2 <= x.1 /\ b.1 < x.1) ->
  wp (free_search (ring_fuel s) b.1 fp) (fun p' s' => s' = s /\ exists p T, p' = p.1 /\ ring_from l1 l2 p T) s.
Proof.
  intros H Hfp -> H1 H2. pose proof (heap_fuel _ _ _ _ H) as Hfuel.
  destruct (h_freep _ _ _ _ _ H) as (fp' & Hfp' & (f & -> & [i Hi]%list_elem_of_lookup)%list_elem_of_fmap).
  assert (fp = f.1) as -> by congruence. pose proof (lookup_lt_Some _ _ _ Hi) as Hlt.
  destruct (after_reaches (length (l1 ++ l2)) i (target l1 l2)) as (d & Hd & Hdt); [done|..].
  { rewrite length_app in *. unfold target. destruct (length l1); lia. }
  eapply wp_mono; [eapply (wp_free_search l1 l2 b.1 s _ d i f); try done|].
  - apply H.
  - intros x. by apply (heap_size (mem s) (b :: A) (l1 ++ l2) E).
  - apply H.
  - intros x Hx. by apply H1.
  - intros x Hx. by apply H2.
  - unfold ring_fuel. lia.
  - cbn beta. intros p' s1 (-> & p & Hp & ->). destruct (ring_from_target _ _ _ Hp) as [T HT]. split; [done|]. by exists p, T.
Qed.

Lemma wp_free s A L E b : heap k (mem s) (b :: A) L E ->
  wp (mspace_k_r_malloc_free k (b.1 + 8)) (fun _ => freed s A L E b) s.
Proof.
  intros H. destruct (place_block _ _ _ _ _ H) as (Hb0 & Hba & Hb1 & Hb2 & Hbs & Hbm & Hbk).
  destruct (heap_split _ _ _ _ b H (list_elem_of_here _ _)) as (l1 & l2 & EL & H1 & H2).
  destruct (h_freep _ _ _ _ _ H) as (fp & Hfp & _).
  unfold mspace_k_r_malloc_free. destruct (Z.eqb_spec (b.1 + 8) NULL) as [E0|_]; [unfold NULL in E0; lia|].
  rewrite hdr_sub_eq by lia. ustep. assert (krm_freep k = k + 8) as -> by (unfold krm_freep, wadd, wrap; apply Z.mod_small; lia).
  ustep; [exact Hfp|]. ustep. ustep. ustep. eapply wp_mono; [by eapply wp_free_place|].
  intros p' s1 (-> & p & T & -> & HT). destruct (place_ring _ _ _ _ _ _ _ _ _ H EL HT) as (Hpm & Hps & HTl).
  pose proof (place_in _ _ _ _ _ EL HT) as HTL. pose proof (place_ok _ _ _ _ _ _ _ H EL H1 H2) as Hok.
  destruct (Hok p (HTL p (list_elem_of_here _ _))) as (Hp0 & Hpa & Hp2 & Hp3 & Hp4 & N0).
  destruct (aligned_ne p.1 b.1 Hpa Hba N0) as (N1 & N2 & N3).
  ustep. ustep; [exact Hpm|]. ustep. ustep; [rewrite hdr_size_eq by lia; exact Hbs|]. ustep.
  eapply (wp_join_upper s b.1 b.2 p T); try done.
  { by eapply place_alone. }
  { intros c Hc. destruct (Hok c (HTL c (list_elem_of_further _ _ _ Hc))) as (? & ? & ? & ? & ? & ?). by split_and!. }
  intros m1 T' n' Hm1b Hm1s Hm1 Hup.
  assert (1 <= n' /\ b.1 + 8 * n' < 2 ^ 32 /\ b.2 <= n') as (Hn1 & Hn2 & Hn3) by (by eapply (upper_bounds (mem s))).
  eapply (wp_join_lower (set_mem m1 s) b.1 n' p T'); rewrite ?mem_set_mem; try done.
  { rewrite Hm1 by done. by eexists. }
  { by rewrite Hm1. }
  { by eapply (upper_linked (mem s)). }
  { intros c Hc'. assert (c ∈ T) as Hc by (by eapply upper_sub). split; [apply Hok, HTL; by right|]. intros E1.
    apply (place_fresh _ _ _ _ _ _ _ _ _ H EL HT). rewrite <- E1. apply list_elem_of_fmap. by exists c. }
  intros m2 P HP Hm2 HPs. rewrite set_mem_set_mem. apply wp_store; rewrite mem_set_mem.
  - by erewrite (place_freep (mem s)).
  - rewrite set_mem_set_mem. by eapply (place_freed (mem s)).
Qed.
End free.
