(* ===== verification/KrAlloc.v ===== *)
(** * Allocating a block

    The walk around the ring, the block or the part of a block that is taken, and the
    request for more memory to a source that keeps to the interface [MemorySource]. *)
From stdpp Require Import base list gmap sorting.
From Stdlib Require Import ZArith Lia.
From S2P Require Import Prelude.
From S2P Require Import AllocBase.
From S2P Require Import KrMalloc.
From S2P Require Import KrRing.
From S2P Require Import KrFree.

(** ** Allocating *)
Lemma iter_after_wrap n i d : (i < n)%nat -> (d <= n)%nat ->
  Nat.iter d (after n) i = (if i + d <? n then i + d else i + d - n)%nat.
Proof.
  intros Hi Hd. destruct (Nat.ltb_spec (i + d) n) as [H|H]; [by apply iter_after|].
  replace d with ((d - (n - i)) + Datatypes.S (n - 1 - i))%nat by lia. rewrite Nat.iter_add.
  assert (Nat.iter (Datatypes.S (n - 1 - i)) (after n) i = 0%nat) as ->.
  { rewrite Nat.iter_succ, iter_after by lia. unfold after. destruct (Nat.eqb_spec (Datatypes.S (i + (n - 1 - i))) n); lia. }
  rewrite iter_after; lia.
Qed.

Section take.
Context {S : Type} `{!Memory S} (k : Z).
Hypotheses (K0 : 0 < k) (Ka : aligned k) (K1 : k + 24 < 2 ^ 32).
Implicit Types s : S.

(** A part of the free memory is handed out. *)
Lemma heap_take m A L E b m' L' p :
  heap k m A L E -> touched k (units_of L) m m' ->
  StronglySorted sep L' -> ring m' L' -> (k, 0) ∈ L' -> m' !! (k + 8) = Some p -> p ∈ L'.*1 ->
  (forall c, c ∈ L' -> c = (k, 0) \/ block_ok c) -> block_ok b -> m' !! (b.1 + 4) = Some b.2 ->
  units b ++ units_of L' ≡ₚ units_of L -> heap k m' (b :: A) L' E.
Proof.
  intros H [Ht Hd] Hs Hr Hb Hp Hp' Hok Hbok Hbs Hu. pose proof (h_units _ _ _ _ _ H) as HE.
  split; try done.
  - eauto.
  - intros c [->|Hc]%elem_of_cons; [done|]. destruct (h_used _ _ _ _ _ H c Hc) as [Hc1 Hc2]. split; [done|]. rewrite <- Hc2.
    destruct (heap_owned k K0 Ka K1 _ _ _ _ c (c.1 + 4) H Hc) as [Hx Hk]; [destruct Hc1 as (? & ? & ? & ?); lia|]. by apply Ht.
  - rewrite units_of_cons, <- HE, <- Hu. solve_Permutation.
  - apply H.
  - intros u HuE. rewrite !Hd. by apply (h_mapped _ _ _ _ _ H).
  - apply H.
Qed.

Definition taken (s : S) (A L : list (Z * Z)) (E : list Z) (n r : Z) (s' : S) : Prop :=
  exists m' L' a, s' = set_mem m' s /\ r = a + 8 /\ heap k m' ((a, n) :: A) L' E /\ touched k (units_of L) (mem s) m'.

Section at_fit.
Context (s : S) (A L : list (Z * Z)) (E : list Z) (q c : Z * Z) (h : nat) (n : Z).
Hypotheses (H : heap k (mem s) A L E) (Hh : L !! h = Some q) (Hc : L !! after (length L) h = Some c)
  (Hn : 1 <= n) (Hfit : n <= c.2).

Lemma fit_ok : block_ok c /\ c ∈ L /\ q ∈ L /\ q.1 <> c.1.
Proof.
  assert (c ∈ L) as HcL by (by eapply list_elem_of_lookup_2). assert (q ∈ L) as HqL by (by eapply list_elem_of_lookup_2).
  destruct (h_free _ _ _ _ _ H c HcL) as [->|Hok]; [cbn in Hfit; lia|]. split_and!; try done. intros Eq.
  assert (h = after (length L) h) as Eh.
  { eapply (NoDup_fst_lookup L); try done. apply sorted_fst; [apply H|]. intros x Hx. by eapply heap_size. }
  assert (q = c) as -> by (rewrite <- Eh in Hc; congruence).
  unfold after in Eh. pose proof (lookup_lt_Some _ _ _ Hh). destruct (Nat.eqb_spec (Datatypes.S h) (length L)) as [E1|]; [|lia].
  pose proof (h_base _ _ _ _ _ H) as [j Hj]%list_elem_of_lookup. pose proof (lookup_lt_Some _ _ _ Hj).
  assert (j = h) as -> by lia. rewrite Hh in Hj. simplify_eq. cbn in Hfit. lia.
Qed.

(** The ring from the predecessor on *)
Lemma fit_ring : exists X, (q :: c :: X ≡ₚ L) /\ ring (mem s) (q :: c :: X) /\
  exists L', L' ≡ₚ q :: X /\ StronglySorted sep L' /\ (forall m, ring m (q :: X) -> ring m L').
Proof.
  pose proof (h_ring _ _ _ _ _ H) as Hr. pose proof (h_sorted _ _ _ _ _ H) as Hs. pose proof (lookup_lt_Some _ _ _ Hh) as Hlt.
  destruct fit_ok as (_ & _ & _ & Hqc).
  unfold after in Hc. destruct (Nat.eqb_spec (Datatypes.S h) (length L)) as [E1|E1].
  - destruct L as [|c' X]; [done|]. cbn in Hc. simplify_eq. destruct X as [|y X _] using rev_ind.
    { destruct h; [|done]. cbn in Hh. by simplify_eq. }
    rewrite length_cons, length_app in E1. cbn in E1. rewrite app_comm_cons, list_lookup_middle in Hh by (cbn; lia). simplify_eq. exists X. split; [solve_Permutation|].
    split; [by apply (ring_rotate _ (c :: X) [q])|]. exists (X ++ [q]). split; [solve_Permutation|].
    split; [by inversion Hs|]. intros m. apply (ring_rotate _ [q] X).
  - apply list_elem_of_split_length in Hh as (l1 & l2 & -> & El). rewrite lookup_app_r in Hc by lia.
    replace (Datatypes.S h - length l1)%nat with 1%nat in Hc by lia. cbn in Hc. destruct l2 as [|c' l2]; [done|]. cbn in Hc. simplify_eq.
    exists (l2 ++ l1). split; [solve_Permutation|]. split; [by apply (ring_rotate _ l1 (q :: c :: l2))|].
    exists (l1 ++ q :: l2). split; [solve_Permutation|]. split; [|intros m; apply (ring_rotate _ (q :: l2) l1)].
    rewrite StronglySorted_app in *. destruct Hs as (H12 & Hs1 & Hs2). inversion Hs2 as [|? ? Hs2' Hq]; subst.
    inversion Hs2' as [|? ? Hs2'' Hcs]; subst. split_and!; [|done|].
    + intros x y Hx Hy. apply H12; [done|]. set_solver.
    + constructor; [done|]. apply Forall_cons in Hq. tauto.
Qed.

Lemma fit_words : is_Some (mem s !! q.1) /\ is_Some (mem s !! (q.1 + 4)) /\ mem s !! (c.1 + 4) = Some c.2 /\
  (in_units (units_of L) q.1 \/ k <= q.1 < k + 12).
Proof.
  destruct fit_ok as (Hok & HcL & HqL & Hqc). pose proof (h_ring _ _ _ _ _ H) as Hr.
  destruct (ring_next _ _ _ _ Hr Hh) as [E1 E2]. destruct (ring_next _ _ _ _ Hr Hc) as [E3 E4].
  split_and!; try by eexists. { done. }
  destruct (h_free _ _ _ _ _ H q HqL) as [->|(? & ? & ? & ?)]; [right; cbn; lia|left].
  exists q.1. split; [|lia]. apply elem_of_units_of. exists q. split; [done|by apply unit_here].
Qed.

(** The whole block is taken. *)
Lemma fit_exact (m' := <[k + 8 := q.1]> (<[q.1 := default 0 (mem s !! c.1)]> (mem s))) :
  c.2 = n -> taken s A L E n (c.1 + 8) (set_mem m' s).
Proof.
  intros En. destruct fit_ok as (Hok & HcL & HqL & Hqc). destruct fit_words as (Hq1 & Hq2 & Hc2 & Hqu).
  destruct fit_ring as (X & HX & HR & L' & HL' & HL's & HL'r).
  assert (touched k (units_of L) (mem s) m') as Ht.
  { apply touched_insert; [apply touched_insert; [apply touched_refl|done|done]|right; lia|].
    destruct (h_freep _ _ _ _ _ H) as (fp & -> & _). by eexists. }
  assert (forall d, d ∈ L -> d.1 <> k + 8 /\ d.1 + 4 <> k + 8) as H8.
  { intros d Hd. by eapply (heap_free_addr k). }
  assert (forall d, d ∈ X -> d.1 <> q.1 /\ aligned d.1) as HXq.
  { intros d Hd. assert (d ∈ L) as HdL by (rewrite <- HX; right; by right). split; [|by eapply (block_ok_base k), (h_free _ _ _ _ _ H)].
    assert (NoDup (q :: c :: X).*1) as HN.
    { rewrite HX. apply sorted_fst; [apply H|]. intros x Hx. by eapply heap_size. }
    intros Ed. cbn in HN. apply NoDup_cons in HN as [HN _]. apply HN. right. rewrite <- Ed. by apply list_elem_of_fmap_2. }
  assert (aligned q.1) as Hqa by (by eapply (block_ok_base k), (h_free _ _ _ _ _ H)).
  destruct (aligned_ne c.1 q.1 ltac:(apply Hok) Hqa ltac:(congruence)) as (M1 & M2 & M3).
  destruct (H8 q HqL) as [Q1 Q2]. destruct (H8 c HcL) as [C1 C2].
  destruct HR as (R1 & R2 & R3 & R4 & R5). cbn [hd fmap list_fmap] in R1, R3, R5.
  exists m', L', c.1. split_and!; [done|done| |exact Ht].
  eapply (heap_take (mem s) A L E (c.1, n) m' L' q.1); [exact H|exact Ht|exact HL's| | | | | | | |].
  - apply HL'r. unfold m'. split; [|split].
    + rewrite lookup_insert_ne, lookup_insert_eq by done. by rewrite R3.
    + rewrite !lookup_insert_ne by lia. exact R2.
    + cbn [hd fmap list_fmap]. eapply linked_frame; [|exact R5]. intros d Hd. destruct (HXq d Hd) as [Hdq Hda].
      destruct (aligned_ne d.1 q.1 Hda Hqa Hdq) as (N1 & N2 & N3).
      destruct (H8 d) as [D1 D2]; [rewrite <- HX; right; by right|]. by rewrite !lookup_insert_ne by lia.
  - rewrite HL'. pose proof (h_base _ _ _ _ _ H) as HB. rewrite <- HX in HB. apply elem_of_cons in HB as [->|HB]; [left|].
    apply elem_of_cons in HB as [<-|HB]; [cbn in Hfit; lia|by right].
  - apply lookup_insert_eq.
  - rewrite HL'. left.
  - intros d Hd. rewrite HL' in Hd. apply (h_free _ _ _ _ _ H). rewrite <- HX. apply elem_of_cons in Hd as [->|Hd]; [left|right; by right].
  - by rewrite <- En, <- surjective_pairing.
  - cbn. unfold m'. rewrite !lookup_insert_ne by lia. by rewrite Hc2, En.
  - rewrite HL', <- HX, !units_of_cons, <- En, <- surjective_pairing. solve_Permutation.
Qed.

(** Its end is taken. *)
Lemma fit_tail (a := c.1 + 8 * (c.2 - n)) (m' := <[k + 8 := q.1]> (<[a + 4 := n]> (<[c.1 + 4 := c.2 - n]> (mem s)))) :
  n < c.2 -> taken s A L E n (a + 8) (set_mem m' s) /\ is_Some (mem s !! (a + 4)) /\ a + 8 < 2 ^ 32.
Proof.
  intros En. destruct fit_ok as ((Hc0 & Hca & Hc1 & Hcb) & HcL & HqL & Hqc). destruct fit_words as (Hq1 & Hq2 & Hc2 & _).
  assert (a ∈ units c) as Hau by (apply elem_of_units; exists (c.2 - n); lia).
  assert (a ∈ E) as HaE.
  { rewrite <- (h_units _ _ _ _ _ H). apply elem_of_app. left. apply elem_of_units_of. by exists c. }
  assert (is_Some (mem s !! (a + 4))) as Ham by (by apply (h_mapped _ _ _ _ _ H)).
  assert (aligned a) as Haa by (eapply units_aligned; [exact Hca|exact Hau]).
  assert (away k a) as Hay by (by apply (h_away _ _ _ _ _ H)). unfold away in Hay.
  split; [|split; [done|unfold a; lia]].
  assert (touched k (units_of L) (mem s) m') as Ht.
  { apply touched_insert; [apply touched_insert; [apply touched_insert; [apply touched_refl|..]|..]|right; lia|].
    - left. exists c.1. split; [|lia]. apply elem_of_units_of. exists c. split; [done|]. apply unit_here. lia.
    - by eexists.
    - left. exists a. split; [|lia]. apply elem_of_units_of. by exists c.
    - done.
    - destruct (h_freep _ _ _ _ _ H) as (fp & -> & _). by eexists. }
  pose proof (h_ring _ _ _ _ _ H) as Hr. pose proof (h_sorted _ _ _ _ _ H) as Hs.
  destruct (list_elem_of_split _ _ HcL) as (l1 & l2 & EL).
  assert (forall d, d ∈ l1 ++ l2 -> d.1 <> c.1 /\ d.1 <> a /\ aligned d.1 /\ d ∈ L) as Hothers.
  { intros d Hd. assert (d ∈ L) as HdL by (rewrite EL; set_solver).
    assert (aligned d.1) as Hda by (by eapply (block_ok_base k), (h_free _ _ _ _ _ H)).
    assert (sep d c \/ sep c d) as Hsep.
    { rewrite EL in Hs. apply StronglySorted_app in Hs as (H12 & _ & Hs2). apply elem_of_app in Hd as [Hd|Hd].
      - left. apply H12; [done|left].
      - right. inversion Hs2 as [|? ? _ HF]; subst. rewrite Forall_forall in HF. by apply HF. }
    assert (0 <= d.2) by (eapply heap_size; [..|exact H|exact HdL]; done). unfold sep in Hsep. split_and!; [lia|unfold a; lia|done|done]. }
  exists m', (l1 ++ (c.1, c.2 - n) :: l2), a. split_and!; [done|done| |exact Ht].
  eapply (heap_take (mem s) A L E (a, n) m' _ q.1); [exact H|exact Ht| | | | | | | | |].
  - rewrite EL in Hs. rewrite StronglySorted_app in *. destruct Hs as (H12 & Hs1 & Hs2). inversion Hs2 as [|? ? Hs2' HF]; subst.
    split_and!; [|done|].
    + intros x y Hx [->|Hy]%elem_of_cons; [|apply H12; [done|by right]]. specialize (H12 x c Hx (list_elem_of_here _ _)). done.
    + constructor; [done|]. eapply Forall_impl; [exact HF|]. unfold sep. cbn. intros x Hx. lia.
  - rewrite EL in Hr. unfold ring in *. rewrite linked_app in *. destruct Hr as [HR1 (HR2 & HR3 & HR4)].
    assert (hd 0 (l1 ++ (c.1, c.2 - n) :: l2).*1 = hd 0 (l1 ++ c :: l2).*1) as ->.
    { by rewrite !fmap_app. }
    assert (forall d, d ∈ l1 ++ l2 -> m' !! d.1 = mem s !! d.1 /\ m' !! (d.1 + 4) = mem s !! (d.1 + 4)) as Hsame.
    { intros d Hd. destruct (Hothers d Hd) as (D1 & D2 & D3 & D4).
      destruct (aligned_ne d.1 c.1 D3 Hca D1) as (M1 & M2 & M3). destruct (aligned_ne d.1 a D3 Haa D2) as (N1 & N2 & N3).
      destruct (heap_free_addr k _ _ _ _ d H D4). unfold m'. by rewrite !lookup_insert_ne by lia. }
    destruct (heap_free_addr k _ _ _ _ c H HcL) as [C1 C2].
    split; [|split; [|split]].
    + eapply linked_frame; [|exact HR1]. intros d Hd. apply Hsame. set_solver.
    + cbn [fst]. unfold m'. rewrite !lookup_insert_ne by lia. exact HR2.
    + cbn [fst snd]. unfold m'. rewrite !lookup_insert_ne by lia. by rewrite lookup_insert_eq.
    + eapply linked_frame; [|exact HR4]. intros d Hd. apply Hsame. set_solver.
  - pose proof (h_base _ _ _ _ _ H) as HB. rewrite EL in HB. apply elem_of_app in HB as [HB|HB]; [set_solver|].
    apply elem_of_cons in HB as [<-|HB]; [cbn in Hfit; lia|set_solver].
  - apply lookup_insert_eq.
  - rewrite EL in HqL. rewrite fmap_app. apply elem_of_app in HqL as [HqL|HqL].
    + apply elem_of_app. left. by apply list_elem_of_fmap_2.
    + apply elem_of_cons in HqL as [->|HqL]; [done|]. apply elem_of_app. right. right. by apply list_elem_of_fmap_2.
  - intros d Hd. assert (d = (c.1, c.2 - n) \/ d ∈ L) as [->|HdL] by (rewrite EL; set_solver).
    + right. split_and!; cbn; (done || lia).
    + by apply (h_free _ _ _ _ _ H).
  - split_and!; cbn; try done; unfold a; lia.
  - cbn. unfold m'. rewrite lookup_insert_ne by lia. apply lookup_insert_eq.
  - rewrite EL, !units_of_app, !units_of_cons.
    assert (units c = units (c.1, c.2 - n) ++ units (a, n)) as ->.
    { rewrite <- units_split by lia. replace (c.2 - n + n) with c.2 by lia. by rewrite <- surjective_pairing. }
    solve_Permutation.
Qed.

Lemma wp_take (Q : Z -> S -> Prop) (next : M S Z) : (forall r s', taken s A L E n r s' -> Q r s') ->
  wp (if n <=? c.2 then
        if c.2 =? n then
          let* next := load (hdr_ptr c.1) in
          store (hdr_ptr q.1) next ;;;
          store (krm_freep k) q.1 ;;;
          ret (hdr_add c.1 1)
        else
          store (hdr_size c.1) (c.2 -w n) ;;;
          let p := hdr_add c.1 (c.2 -w n) in
          store (hdr_size p) n ;;;
          store (krm_freep k) q.1 ;;;
          ret (hdr_add p 1)
      else next) Q s.
Proof.
  intros HQ. destruct fit_ok as ((Hc0 & Hca & Hc1 & Hcb) & HcL & HqL & Hqc). destruct fit_words as (Hq1 & Hq2 & Hc2 & _).
  destruct (h_freep _ _ _ _ _ H) as (fp & Hfp & _). destruct (heap_free_addr k _ _ _ _ q H HqL) as [Q1 Q2].
  destruct (heap_free_addr k _ _ _ _ c H HcL) as [C1 C2].
  assert (krm_freep k = k + 8) as -> by (unfold krm_freep, wadd, wrap; apply Z.mod_small; lia).
  destruct (Z.leb_spec n c.2) as [_|]; [|lia]. unfold hdr_ptr. destruct (Z.eqb_spec c.2 n) as [En|En].
  - destruct (ring_next _ _ _ _ (h_ring _ _ _ _ _ H) Hc) as [Hnx _].
    ustep. ustep; [exact Hnx|]. ustep. ustep; [done|]. ustep.
    ustep; [rewrite lookup_insert_ne by done; by eexists|]. ustep. rewrite hdr_add_eq by lia.
    apply HQ. replace (c.1 + 8 * 1) with (c.1 + 8) by lia. pose proof (fit_exact En) as HT. by rewrite Hnx in HT.
  - assert (c.2 -w n = c.2 - n) as -> by (unfold wsub, wrap; apply Z.mod_small; lia).
    destruct (fit_tail ltac:(lia)) as (HT & Ham & Hab). rewrite (hdr_add_eq c.1) by lia.
    cbv zeta. set (a := c.1 + 8 * (c.2 - n)) in *. assert (0 < a) by (unfold a; lia).
    ustep. rewrite !hdr_size_eq, hdr_add_eq by lia. ustep; [by eexists|]. ustep. ustep.
    { rewrite is_Some_insert by (by eexists). exact Ham. }
    ustep. ustep; [rewrite !is_Some_insert; [by eexists|by eexists|rewrite is_Some_insert by (by eexists); exact Ham]|].
    ustep. apply HQ. replace (a + 8 * 1) with (a + 8) by lia. exact HT.
Qed.
End at_fit.
End take.

(** ** The source of memory *)

(** What the function [morecore] promises the heap at [k]: the units it gave out are
    [E]; it leaves them and the heap's own words alone, and gives new ones or none. *)
Definition supplied {S} `{!Memory S} (inv : S -> list Z -> Prop) (k : Z) (E : list Z) (n : Z) (s : S) (p : Z) (s' : S) : Prop :=
  (forall x, in_units E x \/ k <= x < k + 12 -> mem s' !! x = mem s !! x) /\
  (p = NULL /\ inv s' E \/
   block_ok (p, n) /\ inv s' (units (p, n) ++ E) /\ NoDup (units (p, n) ++ E) /\
   forall u, u ∈ units (p, n) -> away k u /\ is_Some (mem s' !! u) /\ is_Some (mem s' !! (u + 4))).
Class MemorySource {S : Type} `{!Memory S} (k : Z) (morecore : Z -> M S Z) := {
  src_inv : S -> list Z -> Prop;
  src_stable s m' E : src_inv s E -> touched k E (mem s) m' -> src_inv (set_mem m' s) E;
  src_more s E n : src_inv s E -> 1 <= n < 2 ^ 29 -> wp (morecore n) (supplied src_inv k E n s) s }.

Section malloc.
Context {S : Type} `{!Memory S} (k : Z) (morecore : Z -> M S Z) `{HS : !MemorySource k morecore}.
Hypotheses (K0 : 0 < k) (Ka : aligned k) (K1 : k + 24 < 2 ^ 32).
Implicit Types s : S.

(** What an allocation does: nothing but changes to the free list and the source when
    there is no memory, otherwise a new block for the caller. The blocks held are
    left alone. *)
Definition in_blocks (A : list (Z * Z)) (x : Z) : Prop := exists b, b ∈ A /\ b.1 <= x < b.1 + 8 * b.2.
Definition allocated s (A : list (Z * Z)) (E : list Z) (n r : Z) (s' : S) : Prop :=
  (forall x, in_blocks A x -> mem s' !! x = mem s !! x) /\
  (r = NULL /\ (exists L', heap k (mem s') A L' E) /\ src_inv s' E \/
   exists a L' E', r = a + 8 /\ heap k (mem s') ((a, n) :: A) L' E' /\ src_inv s' E' /\ (forall u, u ∈ E -> u ∈ E')).

Lemma touched_owned m A L E m' x : heap k m A L E -> touched k (units_of L) m m' -> in_blocks A x -> m' !! x = m !! x.
Proof. intros H [Ht _] (b & Hb & Hx). destruct (heap_owned k K0 Ka K1 _ _ _ _ b x H Hb Hx). by apply Ht. Qed.
Lemma heap_touched m A L E m' : heap k m A L E -> touched k (units_of L) m m' -> touched k E m m'.
Proof.
  intros H Ht. eapply touched_mono; [exact Ht|]. intros u Hu. rewrite <- (h_units _ _ _ _ _ H). apply elem_of_app. by left.
Qed.
Lemma taken_allocated s A L E n r s' : heap k (mem s) A L E -> src_inv s E -> taken k s A L E n r s' -> allocated s A E n r s'.
Proof.
  intros H Hsrc (m' & L' & a & -> & -> & H' & Ht). split; rewrite mem_set_mem.
  - intros x Hx. by eapply touched_owned.
  - right. exists a, L', E. split_and!; try done. apply src_stable; [done|]. by eapply heap_touched.
Qed.

(** The branch of the loop that asks for more memory *)
Definition refill (fuel : nat) (n : Z) : M S Z :=
  let* p := morecore n in
  if p =? NULL then ret NULL
  else
    store (hdr_size p) n ;;;
    mspace_k_r_malloc_free k (hdr_add p 1) ;;;
    let* p := load (krm_freep k) in
    let* next := load (hdr_ptr p) in
    alloc_loop morecore fuel k n p next.

(** One round of the loop *)
Lemma wp_alloc_step n A L E (Q : Z -> S -> Prop) s fuel h q c x : heap k (mem s) A L E -> 1 <= n ->
  (forall r s', taken k s A L E n r s' -> Q r s') -> L !! h = Some q -> L !! after (length L) h = Some c ->
  mem s !! (k + 8) = Some x ->
  (c.2 < n -> c.1 = x -> wp (refill fuel n) Q s) ->
  (c.2 < n -> c.1 <> x -> forall c', L !! after (length L) (after (length L) h) = Some c' ->
    wp (alloc_loop morecore fuel k n c.1 c'.1) Q s) ->
  wp (alloc_loop morecore (Datatypes.S fuel) k n q.1 c.1) Q s.
Proof.
  intros H Hn HQ Hh Hc Hx Hre Hgo. cbn [alloc_loop]. assert (c ∈ L) as HcL by (by eapply list_elem_of_lookup_2).
  destruct (block_ok_base k K0 Ka K1 c (h_free _ _ _ _ _ H c HcL)) as (Hc0 & Hca & Hc2 & Hcb & Hc8).
  destruct (ring_next _ _ _ _ (h_ring _ _ _ _ _ H) Hc) as [Hnx Hsz].
  ustep. ustep; [rewrite hdr_size_eq by lia; exact Hsz|].
  destruct (Z_le_gt_dec n c.2) as [Hfit|Hno]; [by eapply (wp_take k K0 Ka K1 s A L E q c h n)|].
  destruct (Z.leb_spec n c.2) as [|_]; [lia|].
  assert (krm_freep k = k + 8) as Ek by (unfold krm_freep, wadd, wrap; apply Z.mod_small; lia).
  ustep. ustep; [rewrite Ek; exact Hx|]. destruct (Z.eqb_spec c.1 x) as [Ex|Ex]; [apply Hre; [lia|done]|].
  ustep. ustep; [exact Hnx|]. destruct (lookup_lt_is_Some_2 L (after (length L) (after (length L) h))) as [c' Hc'].
  { apply after_lt. by eapply lookup_lt_Some. }
  rewrite list_lookup_fmap, Hc'. cbn. by apply Hgo; [lia|..].
Qed.

(** From a block to the last one of the walk: either one fits, or all are too small. *)
Lemma wp_alloc_walk n A L E (Q : Z -> S -> Prop) s x f : heap k (mem s) A L E -> 1 <= n ->
  (forall r s', taken k s A L E n r s' -> Q r s') -> L !! f = Some x -> mem s !! (k + 8) = Some x.1 ->
  forall d fuel h q c, L !! h = Some q -> L !! after (length L) h = Some c -> (d < length L)%nat ->
  Nat.iter d (after (length L)) (after (length L) h) = f -> (d < fuel)%nat ->
  ((forall j y, (j <= d)%nat -> L !! Nat.iter j (after (length L)) (after (length L) h) = Some y -> y.2 < n) ->
   wp (refill (fuel - d - 1) n) Q s) ->
  wp (alloc_loop morecore fuel k n q.1 c.1) Q s.
Proof.
  intros H Hn HQ Hf Hfp. assert (forall i c, L !! i = Some c -> c.1 = x.1 -> i = f) as Hinj.
  { intros i c Hi E1. eapply (NoDup_fst_lookup L); try done. apply sorted_fst; [apply H|]. intros y Hy.
    eapply heap_size; [..|exact H|exact Hy]; done. }
  induction d as [|d IH]; intros fuel h q c Hh Hc Hd Ed Hfu Hre; (destruct fuel as [|fuel]; [lia|]);
    (eapply wp_alloc_step; [done..| |]).
  - intros Hlt _. replace (Datatypes.S fuel - 0 - 1)%nat with fuel in Hre by lia. apply Hre. intros j y Hj Hy.
    assert (j = 0%nat) as -> by lia. cbn in Hy. by simplify_eq.
  - intros _ Hne. cbn in Ed. rewrite Ed in Hc. by simplify_eq.
  - intros _ Heq. assert (after (length L) h = f) as E1 by (by eapply Hinj). rewrite E1 in Ed.
    pose proof (lookup_lt_Some _ _ _ Hf). rewrite iter_after_wrap in Ed by lia.
    destruct (Nat.ltb_spec (f + Datatypes.S d) (length L)); lia.
  - intros Hlt Hne c' Hc'. eapply (IH fuel _ c c'); try done; [lia|by rewrite <- Nat.iter_succ_r|lia|].
    intros Hall. replace (fuel - d - 1)%nat with (Datatypes.S fuel - Datatypes.S d - 1)%nat by lia. apply Hre.
    intros [|j] y Hj Hy; [cbn in Hy; by simplify_eq|]. apply (Hall j); [lia|]. by rewrite <- Nat.iter_succ_r.
Qed.

(** A walk that starts after [freep] sees every block. *)
Lemma wp_alloc_round n A L E (Q : Z -> S -> Prop) s fuel h q c : heap k (mem s) A L E -> 1 <= n ->
  (forall r s', taken k s A L E n r s' -> Q r s') ->
  L !! h = Some q -> mem s !! (k + 8) = Some q.1 -> L !! after (length L) h = Some c -> (length L <= fuel)%nat ->
  ((forall y, y ∈ L -> y.2 < n) -> wp (refill (fuel - length L) n) Q s) ->
  wp (alloc_loop morecore fuel k n q.1 c.1) Q s.
Proof.
  intros H Hn HQ Hh Hfp Hc Hfu Hre. pose proof (lookup_lt_Some _ _ _ Hh) as Hlt.
  eapply (wp_alloc_walk n A L E Q s q h H Hn HQ Hh Hfp (length L - 1) fuel h q c); try done; [lia| |lia|].
  - rewrite <- Nat.iter_succ_r, iter_after_wrap by lia. destruct (Nat.ltb_spec (h + Datatypes.S (length L - 1)) (length L)); lia.
  - intros Hall. replace (fuel - (length L - 1) - 1)%nat with (fuel - length L)%nat by lia. apply Hre.
    intros y [i Hi]%list_elem_of_lookup. pose proof (lookup_lt_Some _ _ _ Hi).
    destruct (after_reaches (length L) (after (length L) h) i) as (j & Hj & Ej); [by apply after_lt|done|].
    apply (Hall j); [lia|]. by rewrite Ej.
Qed.

(** The heap does not depend on other words, and can be given more memory. *)
Lemma heap_agree m m' A L E : heap k m A L E -> (forall x, in_units E x \/ k <= x < k + 12 -> m' !! x = m !! x) -> heap k m' A L E.
Proof.
  intros H Hm.
  assert (forall b, b ∈ A \/ b ∈ L -> m' !! b.1 = m !! b.1 /\ m' !! (b.1 + 4) = m !! (b.1 + 4)) as Hb.
  { intros b Hb. assert (b = (k, 0) \/ b.1 ∈ E) as [->|HbE]; [|split; apply Hm; cbn; lia|].
    - rewrite <- (h_units _ _ _ _ _ H), elem_of_app. destruct Hb as [Hb|Hb].
      + right. right. apply elem_of_units_of. exists b. split; [done|]. apply unit_here, (h_used _ _ _ _ _ H b Hb).
      + destruct (h_free _ _ _ _ _ H b Hb) as [->|(? & ? & ? & ?)]; [by left|right; left].
        apply elem_of_units_of. exists b. split; [done|by apply unit_here].
    - split; apply Hm; left; exists b.1; (split; [done|lia]). }
  destruct (h_freep _ _ _ _ _ H) as (fp & Hfp & Hfp'). split; try apply H.
  - eapply linked_frame; [|apply H]. intros b HbL. apply Hb. by right.
  - exists fp. split; [|done]. rewrite Hm; [done|lia].
  - intros b HbA. destruct (h_used _ _ _ _ _ H b HbA) as [? ?]. split; [done|]. destruct (Hb b) as [_ ->]; auto.
  - intros u Hu. destruct (h_mapped _ _ _ _ _ H u Hu). rewrite !Hm; [done|left; exists u; (split; [done|lia])..].
Qed.
Lemma heap_supply m m' A L E p n : heap k m A L E -> (forall x, in_units E x \/ k <= x < k + 12 -> m' !! x = m !! x) ->
  block_ok (p, n) -> NoDup (units (p, n) ++ E) ->
  (forall u, u ∈ units (p, n) -> away k u /\ is_Some (m' !! u) /\ is_Some (m' !! (u + 4))) ->
  heap k (<[p + 4 := n]> m') ((p, n) :: A) L (units (p, n) ++ E).
Proof.
  intros H Hm (Hp0 & Hpa & Hp1 & Hpb) Hn Hu. cbn in *. assert (p ∈ units (p, n)) as Hpu by (by apply (unit_here (p, n))).
  destruct (Hu p Hpu) as (Hpy & Hpm & Hpm4). unfold away in Hpy.
  assert (heap k (<[p + 4 := n]> m') A L E) as H'.
  { eapply heap_agree; [exact H|]. intros x Hx. rewrite lookup_insert_ne; [by apply Hm|]. intros <-.
    destruct Hx as [(u & Hu1 & Hu2)|Hx]; [|lia]. assert (u = p) as ->.
    { eapply (unit_unique _ _ (p + 4)); [|exact Hpa|done|lia]. eapply (heap_aligned k); [..|exact H|exact Hu1]; done. }
    apply NoDup_app in Hn as (_ & Hn & _). by apply (Hn p Hpu). }
  split; try apply H'; try done.
  - intros b [->|Hb]%elem_of_cons; [|by apply (h_used _ _ _ _ _ H')]. split; [by split_and!|]. cbn. apply lookup_insert_eq.
  - rewrite units_of_cons, <- (h_units _ _ _ _ _ H'). solve_Permutation.
  - intros u [Hu'|Hu']%elem_of_app; [|by apply (h_mapped _ _ _ _ _ H')]. rewrite !is_Some_insert by done. by apply Hu.
  - intros u [Hu'|Hu']%elem_of_app; [by apply Hu|by apply (h_away _ _ _ _ _ H')].
Qed.

Lemma blocks_in_units m A L E x : heap k m A L E -> in_blocks A x -> in_units E x.
Proof.
  intros H (b & Hb & Hx). exists (b.1 + 8 * ((x - b.1) / 8)). split.
  - rewrite <- (h_units _ _ _ _ _ H). apply elem_of_app. right. apply elem_of_units_of. exists b. split; [done|].
    apply elem_of_units. exists ((x - b.1) / 8). split; [done|]. split; [apply Z.div_pos; lia|apply Z.div_lt_upper_bound; lia].
  - pose proof (Z.div_mod (x - b.1) 8 ltac:(done)). pose proof (Z.mod_pos_bound (x - b.1) 8 ltac:(done)). lia.
Qed.
Lemma allocated_after s s3 A E E3 n r s' : (forall x, in_blocks A x -> mem s3 !! x = mem s !! x) -> (forall u, u ∈ E -> u ∈ E3) ->
  r <> NULL -> allocated s3 A E3 n r s' -> allocated s A E n r s'.
Proof.
  intros Hm HE Hr [H1 [(? & _)|(a & L' & E' & -> & H2 & H3 & H4)]]; [done|]. split.
  - intros x Hx. by rewrite H1, Hm.
  - right. exists a, L', E'. split_and!; auto.
Qed.
Lemma taken_pos s A L E n r s' : taken k s A L E n r s' -> r <> NULL.
Proof. intros (m' & L' & a & _ & -> & H & _). destruct (h_used _ _ _ _ _ H (a, n) (list_elem_of_here _ _)) as [(? & _) _]. cbn in *. unfold NULL. lia. Qed.

Lemma freed_owned m m' A L E b x : heap k m (b :: A) L E -> touched k (units_of (b :: L)) m m' -> in_blocks A x -> m' !! x = m !! x.
Proof.
  intros H [Ht _] (c & Hc & Hx). destruct (heap_owned k K0 Ka K1 _ _ _ _ c x H) as [HnL Hnk]; [by right|done|].
  apply Ht; [|done]. intros (u & [Hu|Hu]%elem_of_app & Hux); [|apply HnL; by exists u].
  destruct (h_used _ _ _ _ _ H c) as [(? & Hca & ? & ?) _]; [by right|].
  destruct (h_used _ _ _ _ _ H b) as [(? & Hba & ? & ?) _]; [left|].
  assert (exists u', u' ∈ units c /\ u' <= x < u' + 8) as (u' & Hu' & Hux').
  { exists (c.1 + 8 * ((x - c.1) / 8)). split.
    - apply elem_of_units. exists ((x - c.1) / 8). split; [done|]. split; [apply Z.div_pos; lia|apply Z.div_lt_upper_bound; lia].
    - pose proof (Z.div_mod (x - c.1) 8 ltac:(done)). pose proof (Z.mod_pos_bound (x - c.1) 8 ltac:(done)). lia. }
  assert (u = u') as -> by (eapply unit_unique; [eapply (units_aligned b)|eapply (units_aligned c)|..]; done).
  pose proof (h_nodup _ _ _ _ _ H) as Hn. rewrite <- (h_units _ _ _ _ _ H), units_of_cons in Hn.
  apply NoDup_app in Hn as (_ & _ & Hn). apply NoDup_app in Hn as (_ & Hn & _). apply (Hn u' Hu).
  apply elem_of_units_of. by exists c.
Qed.

Lemma wp_refill n A L E s fuel : heap k (mem s) A L E -> src_inv s E -> 1 <= n < 2 ^ 29 -> (length L < fuel)%nat ->
  wp (refill fuel n) (allocated s A E n) s.
Proof.
  intros H Hsrc Hn Hfu. unfold refill. ustep. eapply wp_mono; [by apply src_more|]. intros p s1 [Hm [[-> Hi]|(Hb & Hi & Hnd & Hu)]].
  - destruct (Z.eqb_spec NULL NULL); [|done]. ustep. split.
    + intros x Hx. apply Hm. left. by eapply blocks_in_units.
    + left. split_and!; [done|exists L; by eapply heap_agree|done].
  - pose proof Hb as (Hp0 & Hpa & Hp1 & Hpb). cbn in Hp0, Hpa, Hp1, Hpb.
    destruct (Z.eqb_spec p NULL) as [E0|_]; [unfold NULL in E0; lia|].
    pose proof (heap_supply _ _ _ _ _ _ _ H Hm Hb Hnd Hu) as H2.
    ustep. rewrite hdr_size_eq, hdr_add_eq by lia. ustep; [by apply Hu, (unit_here (p, n))|].
    assert (src_inv (set_mem (<[p + 4 := n]> (mem s1)) s1) (units (p, n) ++ E)) as Hi2.
    { apply src_stable; [done|]. apply touched_insert; [apply touched_refl| |by apply Hu, (unit_here (p, n))]. left. exists p.
      split; [apply elem_of_app; left; by apply (unit_here (p, n))|lia]. }
    ustep. replace (p + 8 * 1) with (p + 8) by lia.
    eapply wp_mono; [eapply (wp_free k K0 Ka K1 _ A L _ (p, n)); rewrite mem_set_mem; exact H2|].
    intros _ s3 (m3 & L' & E3 & H3 & Ht & Hlen & c & Hc & Hfit). rewrite mem_set_mem in Ht. rewrite set_mem_set_mem in E3. cbn [snd] in Hfit.
    assert (mem s3 = m3) as Em by (by rewrite E3, mem_set_mem).
    destruct (h_freep _ _ _ _ _ H3) as (fp & Hfp & (q & -> & [h Hh]%list_elem_of_lookup)%list_elem_of_fmap).
    destruct (ring_next _ _ _ _ (h_ring _ _ _ _ _ H3) Hh) as [Hnx _].
    destruct (lookup_lt_is_Some_2 L' (after (length L') h)) as [c' Hc']; [apply after_lt; by eapply lookup_lt_Some|].
    rewrite list_lookup_fmap, Hc' in Hnx. cbn in Hnx.
    assert (krm_freep k = k + 8) as -> by (unfold krm_freep, wadd, wrap; apply Z.mod_small; lia).
    ustep. ustep; [by rewrite Em|]. ustep. ustep; [by rewrite Em|].
    rewrite <- Em in H3, Hfp. eapply wp_alloc_round; [exact H3|lia| |exact Hh|exact Hfp|exact Hc'|lia|].
    + intros r s' Htk. eapply (allocated_after s s3 A E (units (p, n) ++ E)); [| |by eapply taken_pos|].
      * intros x Hx. rewrite Em, (freed_owned _ _ _ _ _ _ x H2 Ht Hx). rewrite lookup_insert_ne.
        -- apply Hm. left. by eapply blocks_in_units.
        -- intros <-. destruct (blocks_in_units _ _ _ _ _ H Hx) as (u & Hu1 & Hu2). assert (u = p) as ->.
           { eapply (unit_unique _ _ (p + 4)); [eapply (heap_aligned k); [..|exact H|exact Hu1]; done|exact Hpa|done|lia]. }
           apply NoDup_app in Hnd as (_ & Hnd & _). apply (Hnd p); [by apply (unit_here (p, n))|done].
      * intros u Hu'. apply elem_of_app. by right.
      * eapply taken_allocated; [exact H3| |exact Htk]. rewrite E3. rewrite <- (set_mem_set_mem m3 (<[p + 4:=n]> (mem s1))).
        apply src_stable; [done|]. rewrite mem_set_mem. eapply touched_mono; [exact Ht|]. intros u Hu'.
        rewrite <- (h_units _ _ _ _ _ H2), elem_of_app, units_of_cons. rewrite units_of_cons in Hu'. set_solver.
    + intros Hall. specialize (Hall c Hc). lia.
Qed.

(** The heap as its clients see it: the blocks [A] are handed out. Before the first
    allocation there is no ring yet. *)
Definition heap_ok s (A : list (Z * Z)) (E : list Z) : Prop :=
  src_inv s E /\
  ((exists L, heap k (mem s) A L E) \/
   mem s !! (k + 8) = Some NULL /\ A = [] /\ E = [] /\ is_Some (mem s !! k) /\ is_Some (mem s !! (k + 4))).

Lemma malloc_units_spec nbytes : 0 <= nbytes <= 2 ^ 32 - 16 ->
  1 <= malloc_units nbytes < 2 ^ 29 /\ nbytes <= 8 * (malloc_units nbytes - 1) < nbytes + 8.
Proof.
  intros H. unfold malloc_units, sizeof_header, wadd, wsub, wrap.
  rewrite (Z.mod_small (nbytes + 8)), (Z.mod_small (nbytes + 8 - 1)) by lia.
  pose proof (Z.div_mod (nbytes + 8 - 1) 8 ltac:(done)). pose proof (Z.mod_pos_bound (nbytes + 8 - 1) 8 ltac:(done)).
  rewrite Z.mod_small by lia. lia.
Qed.

Lemma wp_malloc_ring nbytes s A L E fp : 0 <= nbytes <= 2 ^ 32 - 16 -> heap k (mem s) A L E -> src_inv s E ->
  mem s !! (k + 8) = Some fp ->
  wp (let* p := load (hdr_ptr fp) in
      let* s := get in
      alloc_loop morecore (ring_fuel s + ring_fuel s + 2) k (malloc_units nbytes) fp p)
    (allocated s A E (malloc_units nbytes)) s.
Proof.
  intros Hb H Hsrc Hfp. destruct (malloc_units_spec nbytes Hb) as [Hn _]. pose proof (heap_fuel k K0 Ka K1 _ _ _ _ H) as Hf.
  destruct (h_freep _ _ _ _ _ H) as (fp' & Hfp' & (q & -> & [h Hh]%list_elem_of_lookup)%list_elem_of_fmap).
  assert (fp = q.1) as -> by congruence. destruct (ring_next _ _ _ _ (h_ring _ _ _ _ _ H) Hh) as [Hnx _].
  destruct (lookup_lt_is_Some_2 L (after (length L) h)) as [c Hc]; [apply after_lt; by eapply lookup_lt_Some|].
  rewrite list_lookup_fmap, Hc in Hnx. cbn in Hnx. ustep. ustep; [exact Hnx|]. ustep. ustep.
  eapply wp_alloc_round; try done; [lia| |unfold ring_fuel; lia|].
  - intros r s' Htk. by eapply taken_allocated.
  - intros _. eapply (wp_refill _ _ L); try done. unfold ring_fuel. lia.
Qed.

(** The first call makes the ring of the empty base block. *)
Lemma heap_init m : m !! k = Some k -> m !! (k + 4) = Some 0 -> m !! (k + 8) = Some k -> heap k m [] [(k, 0)] [].
Proof.
  intros E1 E2 E3. split; try done.
  - repeat constructor.
  - left.
  - exists k. split; [done|left].
  - intros b ->%list_elem_of_singleton. by left.
  - by intros b ?%elem_of_nil.
  - constructor.
  - by intros b ?%elem_of_nil.
  - by intros b ?%elem_of_nil.
Qed.

Lemma wp_malloc nbytes s A E : 0 <= nbytes <= 2 ^ 32 - 16 -> heap_ok s A E ->
  wp (mspace_k_r_malloc_alloc morecore k nbytes) (allocated s A E (malloc_units nbytes)) s.
Proof.
  intros Hb [Hsrc Hok]. unfold mspace_k_r_malloc_alloc, krm_base.
  assert (krm_freep k = k + 8) as -> by (unfold krm_freep, wadd, wrap; apply Z.mod_small; lia).
  destruct Hok as [[L H]|(Hfp & -> & -> & Hk & Hk4)].
  - destruct (h_freep _ _ _ _ _ H) as (fp & Hfp & Hfp'). ustep. ustep; [exact Hfp|]. ustep.
    destruct (Z.eqb_spec fp NULL) as [E0|_].
    { apply list_elem_of_fmap in Hfp' as (q & -> & Hq).
      destruct (block_ok_base k K0 Ka K1 q (h_free _ _ _ _ _ H q Hq)) as (? & _). unfold NULL in E0. lia. }
    ustep. by eapply wp_malloc_ring.
  - ustep. ustep; [exact Hfp|]. ustep. destruct (Z.eqb_spec NULL NULL); [|done]. unfold hdr_ptr at 1.
    rewrite hdr_size_eq by lia. ustep. ustep; [by eexists|]. ustep. ustep; [rewrite is_Some_insert by (by eexists); exact Hk|].
    ustep. ustep; [rewrite !is_Some_insert; [done|by eexists|rewrite is_Some_insert; [done|by eexists]]|]. ustep.
    set (m0 := <[k + 4 := 0]> (<[k := k]> (<[k + 8 := k]> (mem s)))).
    assert (touched k [] (mem s) m0) as Ht.
    { apply touched_insert; [apply touched_insert; [apply touched_insert; [apply touched_refl|..]|..]|..]; try done;
        try (right; lia). }
    assert (m0 !! k = Some k /\ m0 !! (k + 4) = Some 0 /\ m0 !! (k + 8) = Some k) as (E1 & E2 & E3).
    { unfold m0. rewrite lookup_insert_ne, lookup_insert_eq by lia. rewrite lookup_insert_eq.
      rewrite !(lookup_insert_ne _ _ (k + 8)) by lia. by rewrite lookup_insert_eq. }
    eapply wp_mono; [eapply (wp_malloc_ring nbytes _ [] [(k, 0)] [] k Hb); rewrite ?mem_set_mem; [by apply heap_init|by apply src_stable|done]|].
    intros r s' [_ [(-> & HL & Hi)|(a & L' & E' & -> & H' & Hi & HE)]].
    + split; [by intros x (b & Hb'%elem_of_nil & _)|]. by left.
    + split; [by intros x (b & Hb'%elem_of_nil & _)|]. right. by exists a, L', E'.
Qed.

End malloc.
