(* ===== verification/KrMallocSpec.v ===== *)
(** * The heap and the fixed pool: theorems

    The heap against the interface of its source of memory, the fixed pool as a
    source, and the clients of a pool. *)
From stdpp Require Import base list gmap sorting.
From Stdlib Require Import ZArith Lia.
From S2P Require Import Prelude.
From S2P Require Import AllocBase.
From S2P Require Import KrMalloc.
From S2P Require Import KrRing.
From S2P Require Import KrFree.
From S2P Require Import KrAlloc.

(** ** The fixed pool *)
Section pool.
Context {S : Type} `{!Memory S} (f pool size : Z).
(** The structure is a static variable or was allocated by another allocator: the
    pool does not overlap it. *)
Definition pool_layout : Prop :=
  0 < f /\ aligned f /\ f + 32 < 2 ^ 32 /\ 0 < pool /\ pool mod 4 = 0 /\ 4 <= size /\ pool + size < 2 ^ 32 /\
  (pool + size <= f \/ f + 32 <= pool).
Hypothesis HL : pool_layout.
Implicit Types s : S.

Record pool_inv s (E : list Z) : Prop := {
  p_words : exists pp r, mem s !! f = Some pp /\ mem s !! (f + 4) = Some r /\ aligned pp /\ pool <= pp /\ 0 <= r /\
    pp + r <= pool + size /\ (forall u, u ∈ E -> u + 8 <= pp) /\
    (forall u, aligned u -> pp <= u -> u + 8 <= pp + r -> is_Some (mem s !! u) /\ is_Some (mem s !! (u + 4)));
  p_units : forall u, u ∈ E -> aligned u /\ pool <= u;
  p_nodup : NoDup E }.

Lemma pool_away u : aligned u -> pool <= u -> u + 8 <= pool + size -> away (f + 8) u.
Proof.
  destruct HL as (? & Hf & ? & ? & ? & ? & ? & ?). unfold away. intros Hu. unfold aligned in *. apply Z.div_exact in Hu, Hf; lia.
Qed.

Lemma pool_stable s m' E : pool_inv s E -> touched (f + 8) E (mem s) m' -> pool_inv (set_mem m' s) E.
Proof.
  intros [(pp & r & H1 & H2 & H3 & H4 & H5 & H6 & H7 & H8) Hu Hn] [Ht Hd]. split; [|done|done]. rewrite mem_set_mem.
  assert (forall x, f <= x < f + 8 -> ~ in_units E x) as Hout.
  { intros x Hx (u & HuE & Hux). destruct (Hu u HuE) as [Hua Hup]. specialize (H7 u HuE).
    pose proof (pool_away u Hua Hup ltac:(lia)) as Hy. unfold away in Hy. destruct HL as (? & Hf & _).
    unfold aligned in *. apply Z.div_exact in Hua, Hf; lia. }
  exists pp, r. rewrite !Ht; [|by apply Hout; lia|lia|by apply Hout; lia|lia]. split_and!; try done.
  intros u Ha Hu1 Hu2. rewrite !Hd. by apply H8.
Qed.

Lemma wp_pool_more s E n : pool_inv s E -> 1 <= n < 2 ^ 29 -> wp (fixed_pool_morecore f n) (supplied pool_inv (f + 8) E n s) s.
Proof.
  intros [(pp & r & H1 & H2 & H3 & H4 & H5 & H6 & H7 & H8) Hu Hnd] Hn.
  pose proof HL as (Hf0 & Hf & Hf1 & Hp0 & _ & _ & Hps & Hdis).
  unfold fixed_pool_morecore, pool_ptr, pool_remaining, sizeof_header. rewrite (Z.mul_comm n 8).
  assert (f +w 4 = f + 4) as -> by (unfold wadd, wrap; apply Z.mod_small; lia).
  assert (wrap (8 * n) = 8 * n) as -> by (unfold wrap; apply Z.mod_small; lia).
  cbv zeta. ustep. ustep; [exact H2|]. destruct (Z.ltb_spec r (8 * n)) as [Hlt|Hge].
  - ustep. split; [done|]. left. split; [done|]. split; [|done|done]. by exists pp, r.
  - ustep. ustep; [exact H1|]. ustep. ustep; [by eexists|]. ustep.
    ustep; [rewrite is_Some_insert by (by eexists); by eexists|]. ustep.
    assert (pp +w 8 * n = pp + 8 * n) as -> by (unfold wadd, wrap; apply Z.mod_small; lia).
    assert (r -w 8 * n = r - 8 * n) as -> by (unfold wsub, wrap; apply Z.mod_small; lia).
    assert (forall u, u ∈ units (pp, n) -> aligned u /\ pp <= u /\ u + 8 <= pp + 8 * n) as Hun.
    { intros u Hu'. split; [by eapply (units_aligned (pp, n))|]. apply elem_of_units in Hu' as (i & -> & Hi). cbn in *. lia. }
    assert (forall u, u ∈ units (pp, n) ++ E -> aligned u /\ pool <= u /\ u + 8 <= pp + 8 * n) as HE.
    { intros u [Hu'|Hu']%elem_of_app; [destruct (Hun u Hu') as (? & ? & ?); split_and!; (done || lia)|].
      destruct (Hu u Hu'). specialize (H7 u Hu'). split_and!; (done || lia). }
    assert (NoDup (units (pp, n) ++ E)) as HnE.
    { apply NoDup_app. split_and!; [|intros u Hu1 Hu2; destruct (Hun u Hu1) as (_ & ? & _); specialize (H7 u Hu2); lia|done].
      unfold units. apply NoDup_fmap_2_strong; [intros x y _ _; cbn; lia|apply NoDup_seqZ]. }
    assert (forall x, x <> f -> x <> f + 4 -> <[f + 4:=r - 8 * n]> (<[f:=pp + 8 * n]> (mem s)) !! x = mem s !! x) as Hm.
    { intros x Hx Hx'. by rewrite !lookup_insert_ne by done. }
    assert (forall u, pool <= u -> u + 8 <= pool + size -> u <> f /\ u <> f + 4 /\ u + 4 <> f /\ u + 4 <> f + 4) as Hne by lia.
    split; [|right; split_and!; [..|exact HnE|]]; rewrite ?mem_set_mem.
    + intros x Hx. apply Hm; intros ->.
      * destruct Hx as [(u & HuE & Hux)|Hx]; [|lia]. destruct (Hu u HuE). specialize (H7 u HuE). lia.
      * destruct Hx as [(u & HuE & Hux)|Hx]; [|lia]. destruct (Hu u HuE). specialize (H7 u HuE). lia.
    + split_and!; cbn; (done || lia).
    + split; [|intros u Hu'; by destruct (HE u Hu') as (? & ? & _)|exact HnE]. rewrite mem_set_mem.
      exists (pp + 8 * n), (r - 8 * n). rewrite lookup_insert_ne by lia. rewrite lookup_insert_eq, lookup_insert_eq.
      split_and!; try done; try lia.
      * unfold aligned in *. by rewrite (Z.mul_comm 8), Z.mod_add.
      * intros u Hu'. by apply HE.
      * intros u Ha Hu1 Hu2. destruct (Hne u) as (? & ? & ? & ?); [lia..|]. rewrite !Hm by done. apply H8; [done|lia..].
    + intros u Hu'. destruct (Hun u Hu') as (Ha & Hu1 & Hu2). destruct (Hne u) as (? & ? & ? & ?); [lia..|].
      split; [apply pool_away; (done || lia)|]. rewrite !Hm by done. apply H8; [done|lia..].
Qed.

#[local] Instance pool_source : MemorySource (f + 8) (fixed_pool_morecore (S:=S) f) := {
  src_inv := pool_inv; src_stable := pool_stable; src_more := wp_pool_more }.

Lemma pool_malloc_eq : pool_malloc f = f + 8.
Proof. destruct HL as (? & ? & ? & _). unfold pool_malloc, wadd, wrap. apply Z.mod_small. lia. Qed.

(** The words of the structure and of the pool are there. *)
Definition pool_mapped s : Prop :=
  (forall i, 0 <= i < 5 -> is_Some (mem s !! (f + 4 * i))) /\
  (forall x, x mod 4 = 0 -> pool <= x < pool + size -> is_Some (mem s !! x)).
Lemma wp_pool_create s : pool_mapped s -> wp (mspace_fixed_pool_create f pool size) (fun _ s' => heap_ok (f + 8) (fixed_pool_morecore f) s' [] []) s.
Proof.
  intros [Hf Hp]. pose proof HL as (Hf0 & Hfa & Hf1 & Hp0 & Hp4 & Hs4 & Hps & Hdis).
  unfold mspace_fixed_pool_create, mspace_k_r_malloc_init. rewrite pool_malloc_eq. unfold pool_ptr, pool_remaining, sizeof_header.
  assert (f +w 4 = f + 4) as -> by (unfold wadd, wrap; apply Z.mod_small; lia).
  assert (krm_freep (f + 8) = f + 16) as -> by (unfold krm_freep, wadd, wrap; rewrite Z.mod_small; lia).
  assert (exists pad, pool mod 8 = pad /\ (pad = 0 \/ pad = 4) /\ aligned (pool + pad)) as (pad & -> & Hpad & Hal).
  { exists (pool mod 8). split; [done|]. unfold aligned. pose proof (Z.div_mod pool 8 ltac:(done)). pose proof (Z.mod_pos_bound pool 8 ltac:(done)).
    pose proof (Z.div_mod pool 4 ltac:(done)). assert (pool mod 8 = 0 \/ pool mod 8 = 4) as Hc by lia. split; [done|].
    destruct Hc as [Hc|Hc]; rewrite Hc; [by rewrite Z.add_0_r|]. symmetry. apply (Z.mod_unique _ _ (pool / 8 + 1)); lia. }
  assert (pool +w pad = pool + pad) as -> by (unfold wadd, wrap; apply Z.mod_small; lia).
  assert (size -w pad = size - pad) as -> by (unfold wsub, wrap; apply Z.mod_small; lia).
  destruct (Hf 0) as [w0 W0]; [lia|]. destruct (Hf 1) as [w1 W1]; [lia|]. destruct (Hf 2) as [w2 W2]; [lia|].
  destruct (Hf 3) as [w3 W3]; [lia|]. destruct (Hf 4) as [w4 W4]; [lia|].
  replace (f + 4 * 0) with f in W0 by lia. replace (f + 4 * 1) with (f + 4) in W1 by lia.
  replace (f + 4 * 2) with (f + 8) in W2 by lia. replace (f + 4 * 3) with (f + 8 + 4) in W3 by lia.
  replace (f + 4 * 4) with (f + 16) in W4 by lia.
  cbv zeta. ustep. ustep; [by eexists|]. ustep. ustep; [rewrite lookup_insert_ne by lia; by eexists|].
  ustep. ustep; [rewrite lookup_insert_ne by lia; rewrite lookup_insert_eq; by eexists|].
  ustep. ustep; [rewrite lookup_insert_ne by lia; rewrite lookup_insert_eq; by eexists|].
  ustep; [rewrite !lookup_insert_ne by lia; by eexists|].
  set (m1 := <[f + 16 := NULL]> _).
  assert (forall x, x <> f -> x <> f + 4 -> x <> f + 16 -> m1 !! x = mem s !! x) as Hm.
  { intros x X1 X2 X3. unfold m1. by rewrite !lookup_insert_ne by lia. }
  split.
  - split; [|by intros u ?%elem_of_nil|constructor]. rewrite mem_set_mem. exists (pool + pad), (size - pad).
    unfold m1 at 1 2. rewrite !(lookup_insert_ne _ (f + 16)) by lia. rewrite lookup_insert_ne by lia. rewrite !lookup_insert_eq.
    split_and!; try done; try lia; [by intros u ?%elem_of_nil|]. intros u Ha Hu1 Hu2.
    assert (u mod 4 = 0 /\ (u + 4) mod 4 = 0) as [M1 M2].
    { unfold aligned in Ha. pose proof (Z.div_mod u 8 ltac:(done)). split; symmetry; [apply (Z.mod_unique _ _ (2 * (u / 8)))|apply (Z.mod_unique _ _ (2 * (u / 8) + 1))]; lia. }
    rewrite !Hm by lia. split; apply Hp; (done || lia).
  - right. rewrite mem_set_mem. replace (f + 8 + 8) with (f + 16) by lia. split_and!; try done.
    + unfold m1. apply lookup_insert_eq.
    + rewrite Hm by lia. by eexists.
    + rewrite Hm by lia. by eexists.
Qed.
End pool.

(** ** Clients *)
Section client.
Context {S : Type} `{!Memory S} (f pool size : Z).
Implicit Types s : S.

(** A client holds the blocks [A]; it allocates, frees what it holds, and writes any
    words of what it holds. *)
Inductive client : S * list (Z * Z) -> S * list (Z * Z) -> Prop :=
| Client_alloc bytes s A p s' : 0 <= bytes <= 2 ^ 32 - 16 ->
    _mspace_fixed_pool_alloc f bytes s = Ret (p, 0) s' -> client (s, A) (s', (p - 8, malloc_units bytes) :: A)
| Client_no_memory bytes s A p s' : 0 <= bytes <= 2 ^ 32 - 16 ->
    _mspace_fixed_pool_alloc f bytes s = Ret (p, 1) s' -> client (s, A) (s', A)
| Client_free b bytes s A A' s' : A ≡ₚ b :: A' -> _mspace_fixed_pool_free f (b.1 + 8) bytes s = Ret tt s' -> client (s, A) (s', A')
| Client_write b a v s A s' : b ∈ A -> b.1 + 8 <= a < b.1 + 8 * b.2 -> store a v s = Ret tt s' -> client (s, A) (s', A).

Hypothesis HL : pool_layout f pool size.
#[local] Existing Instance pool_source.
#[local] Instance pool_src : MemorySource (f + 8) (fixed_pool_morecore (S:=S) f) := pool_source f pool size HL.

Definition pool_ok s A : Prop := exists E, heap_ok (f + 8) (fixed_pool_morecore f) s A E.
Lemma pool_k : 0 < f + 8 /\ aligned (f + 8) /\ f + 8 + 24 < 2 ^ 32.
Proof.
  destruct HL as (? & Ha & ? & _). split; [lia|split; [|lia]]. unfold aligned in *. by rewrite <- (Z.mul_1_l 8) at 1; rewrite Z.mod_add.
Qed.

Lemma heap_perm k m A A' L E : heap k m A L E -> A ≡ₚ A' -> heap k m A' L E.
Proof. intros H HA. split; try apply H; [intros b; rewrite <- HA; apply (h_used _ _ _ _ _ H)|rewrite <- HA; apply H]. Qed.

Lemma wp_pool_alloc bytes s A E : 0 <= bytes <= 2 ^ 32 - 16 -> heap_ok (f + 8) (fixed_pool_morecore f) s A E ->
  wp (_mspace_fixed_pool_alloc f bytes) (fun r s' => (r.2 = if r.1 =? NULL then 1 else 0) /\
    allocated (f + 8) (fixed_pool_morecore f) s A E (malloc_units bytes) r.1 s') s.
Proof.
  intros Hb H. destruct pool_k as (K0 & Ka & K1). unfold _mspace_fixed_pool_alloc. rewrite (pool_malloc_eq f pool size HL).
  ustep. eapply wp_mono; [by apply (wp_malloc (f + 8))|]. intros p s' Hp. by ustep.
Qed.
Lemma allocated_ok s A E n r s' : allocated (f + 8) (fixed_pool_morecore f) s A E n r s' ->
  r = NULL /\ pool_ok s' A \/ 0 < r - 8 /\ pool_ok s' ((r - 8, n) :: A).
Proof.
  intros [_ [(-> & HL' & Hi)|(a & L' & E' & -> & H & Hi & _)]].
  - left. split; [done|]. exists E. split; [done|by left].
  - right. replace (a + 8 - 8) with a by lia. split; [|exists E'; split; [done|left; by exists L']].
    destruct (h_used _ _ _ _ _ H (a, n) (list_elem_of_here _ _)) as [(? & _) _]. done.
Qed.
Lemma wp_pool_free b bytes s A E : heap_ok (f + 8) (fixed_pool_morecore f) s (b :: A) E ->
  wp (_mspace_fixed_pool_free f (b.1 + 8) bytes) (fun _ s' => pool_ok s' A /\ forall x, in_blocks A x -> mem s' !! x = mem s !! x) s.
Proof.
  intros [Hi [[L H]|(_ & ? & _)]]; [|done]. destruct pool_k as (K0 & Ka & K1).
  unfold _mspace_fixed_pool_free. rewrite (pool_malloc_eq f pool size HL). eapply wp_mono; [by apply (wp_free (f + 8))|].
  intros _ s' (m' & L' & -> & H' & Ht & _). rewrite mem_set_mem. split.
  - exists E. split; [|left; exists L'; by rewrite mem_set_mem]. apply src_stable; [done|]. eapply touched_mono; [exact Ht|].
    intros u Hu. rewrite <- (h_units _ _ _ _ _ H), elem_of_app, units_of_cons. rewrite units_of_cons in Hu. set_solver.
  - intros x Hx. by eapply (freed_owned (f + 8)).
Qed.
Lemma used_apart k m A L E b c A' : heap k m A L E -> A ≡ₚ b :: c :: A' -> b.1 + 8 * b.2 <= c.1 \/ c.1 + 8 * c.2 <= b.1.
Proof.
  intros H HA. destruct (h_used _ _ _ _ _ H b) as [(? & ? & ? & ?) _]; [rewrite HA; left|].
  destruct (h_used _ _ _ _ _ H c) as [(? & ? & ? & ?) _]; [rewrite HA; right; left|].
  apply blocks_apart; try done. intros u Hb Hc. pose proof (h_nodup _ _ _ _ _ H) as Hn.
  rewrite <- (h_units _ _ _ _ _ H), HA, !units_of_cons in Hn. apply NoDup_app in Hn as (_ & _ & Hn).
  apply NoDup_app in Hn as (_ & Hn & _). apply (Hn u Hb), elem_of_app. by left.
Qed.
Lemma in_split {A} (l : list A) x : x ∈ l -> exists l', l ≡ₚ x :: l'.
Proof. intros (l1 & l2 & ->)%list_elem_of_split. exists (l1 ++ l2). solve_Permutation. Qed.
(** A write into a block handed out is no concern of the heap. *)
Lemma pool_write s A E b a v : heap_ok (f + 8) (fixed_pool_morecore f) s A E -> b ∈ A -> b.1 + 8 <= a < b.1 + 8 * b.2 ->
  is_Some (mem s !! a) -> heap_ok (f + 8) (fixed_pool_morecore f) (set_mem (<[a := v]> (mem s)) s) A E.
Proof.
  intros [Hi [[L H]|(_ & -> & _)]] Hb Ha Hm; [|by apply elem_of_nil in Hb]. destruct pool_k as (K0 & Ka & K1).
  assert (in_units E a) as HaE by (eapply blocks_in_units; [exact H|]; exists b; split; [done|lia]).
  split; [apply src_stable; [done|]; apply touched_insert; [apply touched_refl|by left|done]|]. left. exists L. rewrite mem_set_mem.
  destruct (heap_owned (f + 8) K0 Ka K1 _ _ _ _ b a H Hb ltac:(lia)) as [HnL Hnk].
  assert (forall c, c ∈ A \/ c ∈ L -> aligned c.1 -> c ∈ L -> c.1 <> a /\ c.1 + 4 <> a) as Hc.
  { intros c _ Hca HcL. destruct (h_free _ _ _ _ _ H c HcL) as [->|(? & ? & ? & ?)]; [cbn; lia|].
    split; intros <-; apply HnL; exists c.1; (split; [apply elem_of_units_of; exists c; split; [done|by apply unit_here]|lia]). }
  destruct (h_freep _ _ _ _ _ H) as (fp & Hfp & Hfp').
  pose proof (h_free _ _ _ _ _ H) as Hfree. pose proof (h_used _ _ _ _ _ H) as Hused. pose proof (h_mapped _ _ _ _ _ H) as Hmapped.
  split; try apply H.
  - eapply linked_frame; [|apply H]. intros c HcL. destruct (block_ok_base (f + 8) K0 Ka K1 c (Hfree c HcL)) as (_ & Hca & _).
    destruct (Hc c ltac:(auto) Hca HcL). by rewrite !lookup_insert_ne by done.
  - exists fp. rewrite lookup_insert_ne by lia. done.
  - intros c HcA. destruct (Hused c HcA) as [Hok Hsz]. split; [done|]. rewrite lookup_insert_ne; [done|].
    intros ->.
    destruct Hok as (_ & _ & Hc1 & _). destruct (in_split A b Hb) as [A' HA]. rewrite HA in HcA.
    apply elem_of_cons in HcA as [->|HcA]; [lia|]. destruct (in_split A' c HcA) as [A'' HA'].
    destruct (used_apart (f + 8) (mem s) A L E b c A''); [exact H|by rewrite HA, HA'|lia|lia].
  - intros u Hu. rewrite !is_Some_insert by done. by apply Hmapped.
Qed.

Lemma client_ok s A s' A' : client (s, A) (s', A') -> pool_ok s A -> pool_ok s' A'.
Proof.
  intros Hc [E H]. inversion Hc as [bytes ? ? p ? Hb Ea|bytes ? ? p ? Hb Ea|b bytes ? ? ? ? HA Ea|b a v ? ? ? Hb Ha Ea]; subst.
  - pose proof (wp_pool_alloc bytes s A E Hb H) as W. unfold wp in W. rewrite Ea in W. destruct W as [We W]. cbn in We, W.
    destruct (Z.eqb_spec p NULL) as [|Hp]; [done|]. by apply allocated_ok in W as [[? _]|[_ ?]].
  - pose proof (wp_pool_alloc bytes s A' E Hb H) as W. unfold wp in W. rewrite Ea in W. destruct W as [We W]. cbn in We, W.
    destruct (Z.eqb_spec p NULL) as [->|]; [|done]. by apply allocated_ok in W as [[_ ?]|[? _]].
  - assert (heap_ok (f + 8) (fixed_pool_morecore f) s (b :: A') E) as H'.
    { destruct H as [Hi [[L HL']|(_ & -> & _)]]; [|by apply Permutation_nil_cons in HA]. split; [done|]. left. exists L. by eapply heap_perm. }
    pose proof (wp_pool_free b bytes s A' E H') as W. unfold wp in W. rewrite Ea in W. apply W.
  - unfold store in Ea. destruct (mem s !! a) eqn:Em; [|done]. injection Ea as <-. exists E. by eapply pool_write.
Qed.
Lemma clients_ok s0 A0 s A : rtc client (s0, A0) (s, A) -> pool_ok s0 A0 -> pool_ok s A.
Proof.
  intros Hr. remember (s0, A0) as x0 eqn:E0. remember (s, A) as x eqn:E. revert s0 A0 E0.
  induction Hr as [x|x [s1 A1] y Hc Hr IH]; intros s0 A0 E0 H; subst; [by simplify_eq|]. eapply IH; [done..|]. by eapply client_ok.
Qed.
Lemma created_ok s0 s1 : pool_mapped f pool size s0 -> mspace_fixed_pool_create f pool size s0 = Ret tt s1 -> pool_ok s1 [].
Proof. intros Hm E. pose proof (wp_pool_create f pool size HL s0 Hm) as W. unfold wp in W. rewrite E in W. by exists []. Qed.
Lemma pool_range s A : pool_ok s A -> forall b, b ∈ A -> pool <= b.1 /\ b.1 + 8 * b.2 <= pool + size /\ aligned b.1.
Proof.
  intros (E & Hi & [[L H]|(_ & -> & _)]) b Hb; [|by apply elem_of_nil in Hb].
  destruct Hi as [(pp & r & _ & _ & _ & _ & Hr & Hpr & Hu & _) Hun _].
  destruct (h_used _ _ _ _ _ H b Hb) as [(? & ? & ? & ?) _].
  assert (b.1 ∈ E /\ b.1 + 8 * (b.2 - 1) ∈ E) as [E1 E2].
  { rewrite <- !(h_units _ _ _ _ _ H), !elem_of_app, !elem_of_units_of.
    split; right; exists b; (split; [done|]); [by apply unit_here|apply elem_of_units; exists (b.2 - 1); lia]. }
  split; [by apply Hun|split; [|done]]. specialize (Hu _ E2). lia.
Qed.
End client.

(** ** The theorems *)
Section spec.
Context {S : Type} `{!Memory S} (k : Z) (morecore : Z -> M S Z) `{HS : !MemorySource k morecore}.
Hypotheses (K0 : 0 < k) (Ka : aligned k) (K1 : k + 24 < 2 ^ 32).

(** C17: the heap gives memory that is nobody else's and takes it back. Whatever source
    of memory it has (any that keeps to its interface), from a heap in which the
    blocks [A] are handed out, malloc of at most 2^32 - 16 bytes returns, within the rounds of its walk: either
    NULL, with the same blocks handed out, or the address of a new block with room
    for the bytes asked for and at most a header more, which overlaps no other block.
    Freeing a block returns and leaves the others handed out. Neither changes a word
    of the other blocks. *)
Theorem malloc_free_correct s A E (H : heap_ok k morecore s A E) :
  (forall nbytes, 0 <= nbytes <= 2 ^ 32 - 16 ->
    wp (mspace_k_r_malloc_alloc morecore k nbytes) (fun p s' =>
      (forall x, in_blocks A x -> mem s' !! x = mem s !! x) /\
      (p = NULL /\ heap_ok k morecore s' A E \/
       exists n E', aligned p /\ nbytes <= 8 * (n - 1) < nbytes + 8 /\ heap_ok k morecore s' ((p - 8, n) :: A) E' /\
         forall x, p - 8 <= x < p - 8 + 8 * n -> ~ in_blocks A x)) s) /\
  (forall b A', A ≡ₚ b :: A' ->
    wp (mspace_k_r_malloc_free k (b.1 + 8)) (fun _ s' =>
      (forall x, in_blocks A' x -> mem s' !! x = mem s !! x) /\ heap_ok k morecore s' A' E) s).
Proof.
  split.
  - intros nbytes Hb. eapply wp_mono; [by eapply wp_malloc|]. intros p s' [Hm Hr]. split; [exact Hm|].
    destruct Hr as [(-> & HL & Hi)|(a & L' & E' & -> & H' & Hi & _)]; [left; split; [done|by split; [|left]]|right].
    destruct (malloc_units_spec nbytes Hb) as [_ Hn]. exists (malloc_units nbytes), E'. replace (a + 8 - 8) with a by lia.
    destruct (h_used _ _ _ _ _ H' (a, malloc_units nbytes) (list_elem_of_here _ _)) as [(? & Ha & ? & ?) _]. cbn [fst snd] in *.
    split_and!; [|lia|lia|by split; [|left; exists L']|].
    + unfold aligned in *. rewrite <- (Z.mul_1_l 8) at 1. by rewrite Z.mod_add.
    + intros x Hx (b & HbA & Hbx). destruct (in_split A b HbA) as [A' HA].
      destruct (used_apart k (mem s') ((a, malloc_units nbytes) :: A) L' E' (a, malloc_units nbytes) b A' H'); [by rewrite HA|cbn in *; lia..].
  - intros b A' HA. destruct H as [Hi [[L HL]|(_ & -> & _)]]; [|by apply Permutation_nil_cons in HA].
    assert (heap k (mem s) (b :: A') L E) as H' by (by eapply heap_perm). eapply wp_mono; [by eapply wp_free|].
    intros _ s' (m' & L' & -> & H2 & Ht & _). rewrite mem_set_mem. split.
    + intros x Hx. by eapply (freed_owned k).
    + split; [|left; exists L'; by rewrite mem_set_mem]. apply src_stable; [done|]. eapply touched_mono; [exact Ht|].
      intros u Hu. rewrite <- (h_units _ _ _ _ _ H'), elem_of_app, units_of_cons. rewrite units_of_cons in Hu. set_solver.
Qed.
End spec.

(** C18: a pool of fixed size is safe for clients that keep to the rules. After it is
    made, in every state its clients reach by allocating, freeing what they hold and
    writing into what they hold, the blocks held are inside the pool and do not
    overlap, and the next allocation (of at most 2^32 - 16 bytes) or free returns. A successful allocation is
    of memory no client holds, and no operation changes what a client holds. *)
Theorem fixed_pool_safe {S} `{!Memory S} f pool size (s0 s1 s : S) A
    (HL : pool_layout f pool size) (Hm : pool_mapped f pool size s0)
    (Hc : mspace_fixed_pool_create f pool size s0 = Ret tt s1) (Hr : rtc (client f) (s1, []) (s, A)) :
  (forall b, b ∈ A -> pool <= b.1 /\ b.1 + 8 * b.2 <= pool + size) /\
  (forall b c A', A ≡ₚ b :: c :: A' -> b.1 + 8 * b.2 <= c.1 \/ c.1 + 8 * c.2 <= b.1) /\
  (forall bytes, 0 <= bytes <= 2 ^ 32 - 16 ->
    wp (_mspace_fixed_pool_alloc f bytes) (fun r s' =>
      (forall x, in_blocks A x -> mem s' !! x = mem s !! x) /\
      (r = (NULL, 1) \/ r.2 = 0 /\ aligned r.1 /\ pool <= r.1 /\ r.1 + bytes <= pool + size /\
        forall x, r.1 <= x < r.1 + bytes -> ~ in_blocks A x)) s) /\
  (forall b A' bytes, A ≡ₚ b :: A' ->
    wp (_mspace_fixed_pool_free f (b.1 + 8) bytes) (fun _ s' => forall x, in_blocks A' x -> mem s' !! x = mem s !! x) s).
Proof.
  assert (pool_ok f pool size HL s A) as Hok.
  { eapply clients_ok; [exact Hr|]. by eapply created_ok. }
  pose proof (pool_range f pool size HL s A Hok) as Hrange. destruct Hok as [E Hok].
  split; [|split; [|split]].
  - intros b Hb. destruct (Hrange b Hb) as (? & ? & _). done.
  - intros b c A' HA. destruct Hok as [_ [[L H]|(_ & -> & _)]]; [by eapply used_apart|by apply Permutation_nil_cons in HA].
  - intros bytes Hb. eapply wp_mono; [by eapply (wp_pool_alloc f pool size HL)|]. intros [p e] s' [He Ha]. cbn in He, Ha.
    pose proof (allocated_ok f pool size HL _ _ _ _ _ _ Ha) as Hok'. destruct Ha as [Hsame _]. split; [exact Hsame|].
    destruct Hok' as [[-> _]|[Hp Hok']]; [left; by rewrite He|right]. destruct (malloc_units_spec bytes Hb) as [Hn1 Hn2].
    destruct (pool_range f pool size HL _ _ Hok' _ (list_elem_of_here _ _)) as (R1 & R2 & R3). cbn [fst snd] in *.
    destruct (Z.eqb_spec p NULL) as [->|_]; [unfold NULL in Hp; lia|]. split_and!; [done| |lia|lia|].
    + unfold aligned in *. replace p with (p - 8 + 1 * 8) by lia. by rewrite Z.mod_add.
    + intros x Hx (b & HbA & Hbx). destruct (in_split A b HbA) as [A' HA]. destruct Hok' as (E' & _ & [[L' H']|(_ & ? & _)]); [|done].
      destruct (used_apart (f + 8) (mem s') _ L' E' (p - 8, malloc_units bytes) b A' H'); [by rewrite HA|cbn in *; lia..].
  - intros b A' bytes HA. destruct Hok as [Hi [[L H]|(_ & -> & _)]]; [|by apply Permutation_nil_cons in HA].
    eapply wp_mono; [eapply (wp_pool_free f pool size HL b bytes s A' E)|by intros _ s' [_ ?]].
    split; [exact Hi|]. left. exists L. by eapply heap_perm.
Qed.

(** *** A pool of 64 bytes *)
Definition mem0 : gmap Z Z :=
  list_to_map ((fun i => (0x1000 + 4 * i, 7)) <$> (seqZ 0 8 ++ seqZ 0x400 16)).
Lemma mem0_layout : pool_layout 0x1000 0x2000 64.
Proof. split_and!; try done. by right. Qed.
Lemma mem0_mapped : pool_mapped 0x1000 0x2000 64 mem0.
Proof.
  split.
  - intros i Hi. assert (i = 0 \/ i = 1 \/ i = 2 \/ i = 3 \/ i = 4) as Hc by lia.
    destruct Hc as [->|[->|[->|[->| ->]]]]; by eexists.
  - intros x Hx Hr. pose proof (Z.div_mod x 4 ltac:(done)). rewrite Hx in *.
    assert (exists i, x = 0x2000 + 4 * Z.of_nat i /\ (i < 16)%nat) as (i & -> & Hi) by (exists (Z.to_nat (x / 4 - 0x800)); lia).
    do 16 (destruct i as [|i]; [by eexists|]). lia.
Qed.
(** Two blocks are allocated, the first is freed and the second written. *)
Definition mem1 : gmap Z Z := match mspace_fixed_pool_create 0x1000 0x2000 64 mem0 with Ret _ s => s | _ => ∅ end.
Definition malloc_run (n : Z) (s : gmap Z Z) : Z * gmap Z Z :=
  match _mspace_fixed_pool_alloc 0x1000 n s with Ret (p, _) s' => (p, s') | _ => (0, s) end.
Definition mem2 : gmap Z Z := (malloc_run 8 mem1).2.
Definition mem3 : gmap Z Z := (malloc_run 20 mem2).2.
Definition mem4 : gmap Z Z := match _mspace_fixed_pool_free 0x1000 0x2008 8 mem3 with Ret _ s => s | _ => ∅ end.

Lemma mem4_reached : rtc (client 0x1000) (mem1, []) (mem4, [(0x2010, 4)]).
Proof.
  eapply rtc_l; [eapply (Client_alloc 0x1000 8 mem1 [] 0x2008 mem2); [lia|vm_compute; reflexivity]|].
  eapply rtc_l; [eapply (Client_alloc 0x1000 20 mem2 _ 0x2018 mem3); [lia|vm_compute; reflexivity]|].
  eapply rtc_l; [|apply rtc_refl].
  eapply (Client_free 0x1000 (0x2000, 2) 8 mem3 _ [(0x2010, 4)] mem4); [apply Permutation_swap|vm_compute; reflexivity].
Qed.

Lemma fixed_pool_safe_witness :
  (malloc_run 30 mem4).1 = NULL /\ (malloc_run 4 mem4).1 = 0x2008 /\
  wp (_mspace_fixed_pool_alloc 0x1000 4) (fun r s' => r = (NULL, 1) \/ forall x, r.1 <= x < r.1 + 4 -> ~ (0x2010 <= x < 0x2030)) mem4.
Proof.
  split; [vm_compute; reflexivity|]. split; [vm_compute; reflexivity|].
  destruct (fixed_pool_safe 0x1000 0x2000 64 mem0 mem1 mem4 [(0x2010, 4)] mem0_layout mem0_mapped) as (_ & _ & H & _);
    [vm_compute; reflexivity|exact mem4_reached|].
  eapply wp_mono; [apply (H 4); lia|]. intros r s' [_ [->|(_ & _ & _ & _ & Hx)]]; [by left|right].
  intros x H1 H2. apply (Hx x H1). exists (0x2010, 4). split; [left|cbn; lia].
Defined.

#[local] Instance mem0_source : MemorySource (0x1000 + 8) (fixed_pool_morecore (S:=gmap Z Z) 0x1000) := pool_source 0x1000 0x2000 64 mem0_layout.
Lemma malloc_free_correct_witness :
  wp (mspace_k_r_malloc_alloc (fixed_pool_morecore 0x1000) 0x1008 24) (fun p s' => p = NULL \/ aligned p) mem1.
Proof.
  assert (heap_ok 0x1008 (fixed_pool_morecore 0x1000) mem1 [] []) as H.
  { pose proof (wp_pool_create 0x1000 0x2000 64 mem0_layout mem0 mem0_mapped) as W. exact W. }
  destruct (malloc_free_correct 0x1008 (fixed_pool_morecore 0x1000) ltac:(lia) ltac:(reflexivity) ltac:(lia) mem1 [] [] H) as [Ha _].
  eapply wp_mono; [apply (Ha 24); lia|]. intros p s' [_ [[-> _]|(n & E' & Hp & _)]]; [by left|by right].
Defined.
