(* ===== verification/CspaceAlloc.v ===== *)
(** * Allocators of capability slots (libs/libsel4allocman/src/cspace)

    simple1level.c hands out a range of slots once; single_level.c keeps a bitmap of
    the free slots of a CNode; two_level.c keeps a CNode of CNodes that are made on
    demand. A structure of C is a record, and a pointer to one that can be NULL an
    option of the address and the structure. *)
From stdpp Require Import base list gmap.
From Stdlib Require Import ZArith Lia.
From S2P Require Import Prelude.
From S2P Require Import AllocBase.

(** ** simple1level.c *)
Record cspace_simple1level_config := mk_simple1level_config {
  s1_cnode : Z; s1_cnode_size_bits : Z; s1_cnode_guard_bits : Z; s1_first_slot : Z; s1_end_slot : Z }.
Record cspace_simple1level := mk_simple1level { s1_config : cspace_simple1level_config; s1_current_slot : Z }.

Definition cspace_simple1level_create (config : cspace_simple1level_config) : cspace_simple1level :=
  mk_simple1level config config.(s1_first_slot).
Definition _cspace_simple1level_make_path (c : cspace_simple1level) (slot : Z) : cspacepath_t :=
  mk_cspacepath slot (c.(s1_config).(s1_cnode_size_bits) +w c.(s1_config).(s1_cnode_guard_bits))
    c.(s1_config).(s1_cnode) 0 0 slot 1.
(** The error code is 1 without a path. *)
Definition _cspace_simple1level_alloc : M cspace_simple1level (option cspacepath_t) :=
  let* c := get in
  if c.(s1_current_slot) =? c.(s1_config).(s1_end_slot) then ret None
  else
    modify (fun c => mk_simple1level c.(s1_config) (c.(s1_current_slot) +w 1)) ;;;
    ret (Some (_cspace_simple1level_make_path c c.(s1_current_slot))).
Definition _cspace_simple1level_free (slot : cspacepath_t) : M cspace_simple1level unit := ret tt.

(** ** single_level.c *)
Record cspace_single_level_config := mk_single_level_config {
  cnode : Z; cnode_size_bits : Z; cnode_guard_bits : Z; first_slot : Z; end_slot : Z }.
(** [bitmap] is the address of the array and its words. *)
Record cspace_single_level := mk_single_level {
  sl_config : cspace_single_level_config; sl_bitmap_ptr : Z; sl_bitmap : list Z;
  sl_bitmap_length : Z; sl_last_entry : Z }.
Definition upd_sl_bitmap (v : list Z) (c : cspace_single_level) : cspace_single_level :=
  mk_single_level c.(sl_config) c.(sl_bitmap_ptr) v c.(sl_bitmap_length) c.(sl_last_entry).
Definition upd_sl_last_entry (v : Z) (c : cspace_single_level) : cspace_single_level :=
  mk_single_level c.(sl_config) c.(sl_bitmap_ptr) c.(sl_bitmap) c.(sl_bitmap_length) v.

Definition _cspace_single_level_make_path (c : cspace_single_level) (slot : Z) : cspacepath_t :=
  mk_cspacepath slot (c.(sl_config).(cnode_size_bits) +w c.(sl_config).(cnode_guard_bits))
    c.(sl_config).(cnode) 0 0 slot 1.

(** An access outside the array is undefined. *)
Definition array_get (l : list Z) (i : Z) : option Z := if i <? 0 then None else l !! Z.to_nat i.
Definition bitmap_get (i : Z) : M cspace_single_level Z := fun c => of_option (array_get c.(sl_bitmap) i) c.
Definition bitmap_set (i v : Z) : M cspace_single_level unit :=
  bitmap_get i ;;; modify (fun c => upd_sl_bitmap (<[Z.to_nat i := v]> c.(sl_bitmap)) c).
(** [__builtin_clz] *)
Definition CLZ (x : Z) : Z := 31 - Z.log2 x.

(** The loop of the allocation: the next entry that is not used up, or the starting one *)
Fixpoint next_entry (fuel : nat) (i : Z) : M cspace_single_level Z :=
  match fuel with
  | O => halt_with NoFuel
  | S fuel' =>
      let* c := get in
      let i := ((i +w 1) mod c.(sl_bitmap_length)) in
      let* w := bitmap_get i in
      if (w =? 0) && negb (i =? c.(sl_last_entry)) then next_entry fuel' i else ret i
  end.

Definition take_slot (i : Z) : M cspace_single_level (option cspacepath_t) :=
  let* w := bitmap_get i in
  let index := 31 - CLZ w in
  bitmap_set i (w &w wnot (BIT index)) ;;;
  let* c := get in
  ret (Some (_cspace_single_level_make_path c (c.(sl_config).(first_slot) +w ((i *w 32) +w index)))).

Definition _cspace_single_level_alloc : M cspace_single_level (option cspacepath_t) :=
  let* c := get in
  let i := c.(sl_last_entry) in
  let* w := bitmap_get i in
  if w =? 0 then
    assert (negb (c.(sl_bitmap_length) =? 0)) ;;;
    assert (c.(sl_last_entry) <? c.(sl_bitmap_length)) ;;;
    let* i := next_entry (Z.to_nat c.(sl_bitmap_length)) i in
    if i =? c.(sl_last_entry) then ret None
    else
      modify (upd_sl_last_entry i) ;;;
      take_slot i
  else take_slot i.

(** The error code *)
Definition _cspace_single_level_alloc_at (slot : Z) : M cspace_single_level Z :=
  let* c := get in
  let index := slot -w c.(sl_config).(first_slot) in
  if index / 32 >=? c.(sl_bitmap_length) then ret 1
  else
    let* w := bitmap_get (index / 32) in
    if (w &w BIT (index mod 32)) =? 0 then ret 1
    else
      bitmap_set (index / 32) (w &w wnot (BIT (index mod 32))) ;;;
      ret 0.

Definition _cspace_single_level_free (slot : cspacepath_t) : M cspace_single_level unit :=
  let* c := get in
  let index := slot.(capPtr) -w c.(sl_config).(first_slot) in
  let* w := bitmap_get (index / 32) in
  assert ((w &w BIT (index mod 32)) =? 0) ;;;
  bitmap_set (index / 32) (w |w BIT (index mod 32)).

Section create.
Context {S : Type} (A : allocman_ops S).

(** The padding of the last word is marked as allocated. *)
Definition initial_bitmap (num_slots num_entries : Z) : list Z :=
  let l := replicate (Z.to_nat num_entries) wordMax in
  if num_slots mod 32 =? 0 then l
  else
    let excess := num_slots mod 32 in
    let last := Z.to_nat (num_entries - 1) in
    foldl (fun l i => alter (fun w => Z.lxor w (BIT i)) last l) l (seqZ excess (32 - excess)).

(** The error code or the structure *)
Definition cspace_single_level_create (config : cspace_single_level_config) : M S (Z + cspace_single_level) :=
  let num_slots := config.(end_slot) -w config.(first_slot) in
  let length := num_slots / 32 in
  let num_entries := if num_slots mod 32 =? 0 then length else length +w 1 in
  let* r := allocman_mspace_alloc A (num_entries *w 4) in
  let '(ptr, error) := r in
  if negb (error =? 0) then ret (inl error)
  else ret (inr (mk_single_level config ptr (initial_bitmap num_slots num_entries) length 0)).
Definition cspace_single_level_destroy (c : cspace_single_level) : M S unit :=
  allocman_mspace_free A c.(sl_bitmap_ptr) (c.(sl_bitmap_length) *w 4).
End create.

(** ** two_level.c *)
Record cspace_two_level_config := mk_two_level_config {
  t_cnode : Z; t_cnode_size_bits : Z; t_cnode_guard_bits : Z; t_first_slot : Z; t_end_slot : Z;
  level_two_bits : Z; start_existing_index : Z; end_existing_index : Z;
  start_existing_slot : Z; end_existing_slot : Z }.
Record cspace_two_level_node := mk_two_level_node {
  count : Z; second_level : cspace_single_level; cookie : Z; cookie_valid : bool }.
Record cspace_two_level := mk_two_level {
  t_config : cspace_two_level_config; first_level : cspace_single_level;
  second_levels_ptr : Z; second_levels : list (option (Z * cspace_two_level_node)); last_second_level : Z }.
Definition upd_first_level (v : cspace_single_level) (c : cspace_two_level) : cspace_two_level :=
  mk_two_level c.(t_config) v c.(second_levels_ptr) c.(second_levels) c.(last_second_level).
Definition upd_second_levels (v : list (option (Z * cspace_two_level_node))) (c : cspace_two_level) : cspace_two_level :=
  mk_two_level c.(t_config) c.(first_level) c.(second_levels_ptr) v c.(last_second_level).
Definition upd_last_second_level (v : Z) (c : cspace_two_level) : cspace_two_level :=
  mk_two_level c.(t_config) c.(first_level) c.(second_levels_ptr) c.(second_levels) v.
Definition upd_count (v : Z) (n : cspace_two_level_node) : cspace_two_level_node :=
  mk_two_level_node v n.(second_level) n.(cookie) n.(cookie_valid).
Definition upd_second_level (v : cspace_single_level) (n : cspace_two_level_node) : cspace_two_level_node :=
  mk_two_level_node n.(count) v n.(cookie) n.(cookie_valid).

(** sizeof(struct cspace_two_level_node), and the type and size of the new CNodes *)
Definition sizeof_two_level_node : Z := 44.
Definition seL4_SlotBits : Z := 4.
Definition seL4_CapTableObject : Z := 4.

Section two_level.
Context {S : Type} (A : allocman_ops S).
Abbreviation T := (M (S * cspace_two_level)).

Definition in_env {B} (m : M S B) : T B := zoom fst (fun s x => (s, x.2)) m.
Definition in_own {B} (m : M cspace_two_level B) : T B := zoom snd (fun c x => (x.1, c)) m.
Definition on_first {B} (m : M cspace_single_level B) : T B := in_own (zoom first_level upd_first_level m).

(** [second_levels[i]], and the structure it points to *)
Definition get_second (i : Z) : T (option (Z * cspace_two_level_node)) :=
  let* x := get in
  of_option (if i <? 0 then None else x.2.(second_levels) !! Z.to_nat i).
Definition set_second (i : Z) (v : option (Z * cspace_two_level_node)) : T unit :=
  get_second i ;;; in_own (modify (fun c => upd_second_levels (<[Z.to_nat i := v]> c.(second_levels)) c)).
Definition get_node (i : Z) : T (Z * cspace_two_level_node) :=
  let* n := get_second i in of_option n.
Definition mod_node (i : Z) (f : cspace_two_level_node -> cspace_two_level_node) : T unit :=
  let* n := get_node i in set_second i (Some (n.1, f n.2)).
Definition on_second {B} (i : Z) (m : M cspace_single_level B) : T B :=
  let* n := get_node i in
  match m n.2.(second_level) with
  | Ret b c => mod_node i (upd_second_level c) ;;; ret b
  | Stop e => halt_with e
  end.

Definition _cspace_two_level_make_path (slot : Z) : T cspacepath_t :=
  let* x := get in
  let bits := x.2.(t_config).(level_two_bits) in
  let l1slot := slot >>w bits in
  let l2slot := slot &w MASK bits in
  let* n := get_second l1slot in
  match n with
  | None => fail
  | Some n =>
      let l1_path := _cspace_single_level_make_path x.2.(first_level) l1slot in
      let l2_path := _cspace_single_level_make_path n.2.(second_level) l2slot in
      ret (mk_cspacepath ((l1_path.(capPtr) <<w l2_path.(capDepth)) |w l2_path.(capPtr))
        (l1_path.(capDepth) +w l2_path.(capDepth)) l1_path.(root)
        ((l1_path.(capPtr) <<w l2_path.(destDepth)) |w l2_path.(dest))
        (l1_path.(capDepth) +w l2_path.(destDepth)) l2_path.(offset) 0)
  end.

(** The structure gets garbage: [uninit] stands for what the memory holds. *)
Definition _create_second_level (uninit : cspace_two_level_node) (index : Z) (alloc_node : bool) : T Z :=
  let* x := get in
  let bits := x.2.(t_config).(level_two_bits) in
  let single_config := mk_single_level_config 0 bits 0 0 (BIT bits) in
  let* r := in_env (allocman_mspace_alloc A sizeof_two_level_node) in
  let '(ptr, error) := r in
  set_second index (if ptr =? NULL then None else Some (ptr, uninit)) ;;;
  if negb (error =? 0) then ret error
  else
    let* error :=
      (if alloc_node then
         let path := _cspace_single_level_make_path x.2.(first_level) index in
         let* r := in_env (allocman_utspace_alloc A (bits +w seL4_SlotBits) seL4_CapTableObject path) in
         mod_node index (fun n => mk_two_level_node n.(count) n.(second_level) (fst r) true) ;;;
         ret (snd r)
       else
         mod_node index (fun n => mk_two_level_node n.(count) n.(second_level) n.(cookie) false) ;;;
         ret 0) in
    if negb (error =? 0) then
      in_env (allocman_mspace_free A ptr sizeof_two_level_node) ;;;
      set_second index None ;;;
      ret error
    else
      let* r := in_env (cspace_single_level_create A single_config) in
      match r with
      | inl error =>
          let* n := get_node index in
          in_env (allocman_utspace_free A n.2.(cookie) (bits +w seL4_SlotBits)) ;;;
          in_env (allocman_mspace_free A ptr sizeof_two_level_node) ;;;
          set_second index None ;;;
          ret error
      | inr c =>
          mod_node index (upd_second_level c) ;;;
          mod_node index (upd_count 0) ;;;
          ret 0
      end.

Definition _cspace_two_level_alloc_at (uninit : cspace_two_level_node) (slot : Z) : T Z :=
  let* x := get in
  let bits := x.2.(t_config).(level_two_bits) in
  let l1slot := slot >>w bits in
  let l2slot := slot &w MASK bits in
  let* n := get_second l1slot in
  let* error :=
    (match n with
     | Some _ => ret 0
     | None =>
         let* error := on_first (_cspace_single_level_alloc_at l1slot) in
         if negb (error =? 0) then ret error else _create_second_level uninit l1slot true
     end) in
  if negb (error =? 0) then ret error
  else
    let* error := on_second l1slot (_cspace_single_level_alloc_at l2slot) in
    if negb (error =? 0) then ret error
    else
      mod_node l1slot (fun n => upd_count (n.(count) +w 1) n) ;;;
      ret 0.

(** The hunt for a second level with room: all of them once, from the last one used *)
Fixpoint hunt (fuel : nat) (i : Z) (first : bool) : T (Z * bool) :=
  match fuel with
  | O => halt_with NoFuel
  | Datatypes.S fuel' =>
      let* x := get in
      let c := x.2 in
      if first || negb (i =? c.(last_second_level)) then
        let* n := get_second i in
        match n with
        | Some n =>
            if n.2.(count) <? MASK c.(t_config).(level_two_bits) then ret (i, true)
            else hunt fuel' ((i +w 1) mod BIT c.(t_config).(t_cnode_size_bits)) false
        | None => hunt fuel' ((i +w 1) mod BIT c.(t_config).(t_cnode_size_bits)) false
        end
      else ret (i, false)
  end.

(** A path, or the error code *)
Definition _cspace_two_level_alloc (uninit : cspace_two_level_node) : T (Z + cspacepath_t) :=
  let* x := get in
  let* r := hunt (Datatypes.S (length x.2.(second_levels))) x.2.(last_second_level) true in
  let '(i, found) := r in
  let* error :=
    (if found then ret 0
     else
       let* l1slot := on_first _cspace_single_level_alloc in
       match l1slot with
       | None => ret 1
       | Some l1slot => _create_second_level uninit l1slot.(offset) true
       end) in
  if negb (error =? 0) then ret (inl error)
  else
    in_own (modify (upd_last_second_level i)) ;;;
    let* level2_slot := on_second i _cspace_single_level_alloc in
    match level2_slot with
    | None => fail
    | Some level2_slot =>
        mod_node i (fun n => upd_count (n.(count) +w 1) n) ;;;
        let* path := _cspace_two_level_make_path ((i <<w x.2.(t_config).(level_two_bits)) |w level2_slot.(capPtr)) in
        ret (inr path)
    end.

(** [seL4_CNode_Delete] on the CNode's slot: a system call *)
Context (seL4_CNode_Delete : Z -> Z -> Z -> M S Z).

Definition _destroy_second_level (index : Z) : T unit :=
  let* x := get in
  let bits := x.2.(t_config).(level_two_bits) in
  let* n := get_node index in
  in_env (cspace_single_level_destroy A n.2.(second_level)) ;;;
  when n.2.(cookie_valid)
    (let* error := in_env (seL4_CNode_Delete x.2.(t_config).(t_cnode) index (32 -w bits)) in
     assert (error =? 0) ;;;
     in_env (allocman_utspace_free A n.2.(cookie) (bits +w seL4_SlotBits))) ;;;
  in_env (allocman_mspace_free A n.1 sizeof_two_level_node) ;;;
  let* x := get in
  on_first (_cspace_single_level_free (_cspace_single_level_make_path x.2.(first_level) index)).

Definition _cspace_two_level_free (slot : cspacepath_t) : T unit :=
  let* x := get in
  let bits := x.2.(t_config).(level_two_bits) in
  let l1slot := slot.(capPtr) >>w bits in
  let l2slot := slot.(capPtr) &w MASK bits in
  let* n := get_node l1slot in
  let path := _cspace_single_level_make_path n.2.(second_level) l2slot in
  on_second l1slot (_cspace_single_level_free path) ;;;
  mod_node l1slot (fun n => upd_count (n.(count) -w 1) n) ;;;
  let* n := get_node l1slot in
  when (n.2.(count) =? 0)
    (_destroy_second_level l1slot ;;;
     set_second l1slot None).

Definition cspace_two_level_destroy : T unit :=
  let* x := get in
  let c := x.2 in
  for_upto (Z.to_nat (BIT c.(t_config).(t_cnode_size_bits))) 0 (fun i =>
    let* n := get_second i in
    match n with Some _ => _destroy_second_level i | None => ret tt end) ;;;
  in_env (allocman_mspace_free A c.(second_levels_ptr) (4 *w BIT c.(t_config).(t_cnode_size_bits))) ;;;
  let* x := get in
  in_env (cspace_single_level_destroy A x.2.(first_level)).

(** A loop left at the first error *)
Fixpoint until_error (l : list Z) (f : Z -> T Z) : T Z :=
  match l with
  | [] => ret 0
  | i :: l' => let* error := f i in if negb (error =? 0) then ret error else until_error l' f
  end.

Definition fill_existing (uninit : cspace_two_level_node) (config : cspace_two_level_config) : T Z :=
  let* error := until_error (seqZ config.(start_existing_index) (config.(end_existing_index) - config.(start_existing_index)))
    (fun i =>
      let* error := on_first (_cspace_single_level_alloc_at i) in
      if negb (error =? 0) then ret error else _create_second_level uninit i false) in
  if negb (error =? 0) then ret error
  else until_error (seqZ config.(start_existing_slot) (config.(end_existing_slot) - config.(start_existing_slot)))
    (_cspace_two_level_alloc_at uninit).

Definition cspace_two_level_create (uninit : cspace_two_level_node) (config : cspace_two_level_config) : M S (Z + cspace_two_level) :=
  let single_config := mk_single_level_config config.(t_cnode) config.(t_cnode_size_bits) config.(t_cnode_guard_bits)
    config.(t_first_slot) config.(t_end_slot) in
  let bytes := 4 *w BIT config.(t_cnode_size_bits) in
  let* r := allocman_mspace_alloc A bytes in
  let '(ptr, error) := r in
  if negb (error =? 0) then ret (inl error)
  else
    let* r := cspace_single_level_create A single_config in
    match r with
    | inl error => allocman_mspace_free A ptr bytes ;;; ret (inl error)
    | inr first => fun s =>
        let c := mk_two_level config first ptr (replicate (Z.to_nat (BIT config.(t_cnode_size_bits))) None) 0 in
        match (let* error := fill_existing uninit config in
               if negb (error =? 0) then cspace_two_level_destroy ;;; ret error else ret 0) (s, c) with
        | Ret error (s', c') => Ret (if negb (error =? 0) then inl error else inr c') s'
        | Stop e => Stop e
        end
    end.
End two_level.
