(* ===== verification/CspaceAllocSpec.v ===== *)
(** * Allocators of capability slots: theorems

    The bitmap of one CNode as a set of free slots, and two levels of CNodes as a map
    from the second-level CNodes to theirs. *)
From stdpp Require Import base list gmap sets.
From Stdlib Require Import ZArith Lia.
From S2P Require Import Prelude.
From S2P Require Import Words.
From S2P Require Import AllocBase.
From S2P Require Import CspaceAlloc.


(** The highest bit of a word *)
Lemma top_bit w : is_word w -> w <> 0 -> 0 <= 31 - CLZ w < 32 /\ Z.testbit w (31 - CLZ w) = true.
Proof.
  intros Hw Hw0. unfold CLZ. replace (31 - (31 - Z.log2 w)) with (Z.log2 w) by lia. destruct Hw as [H0 H1].
  split; [|apply Z.bit_log2; lia]. split; [apply Z.log2_nonneg|]. apply Z.log2_lt_pow2; [lia|done].
Qed.

(** ** One level: the bitmap is a set of slots

    [single_rep c F]: the words are bits, the hint is an entry, the slots do not wrap,
    and the set bits below [sl_bitmap_length] are the slots of [F]. *)
Definition bit_at (c : cspace_single_level) (k : Z) : bool := Z.testbit (c.(sl_bitmap) !!! Z.to_nat (k / 32)) (k mod 32).
Record single_rep (c : cspace_single_level) (F : gset Z) : Prop := {
  sr_words : Forall is_word c.(sl_bitmap);
  sr_length : 0 < c.(sl_bitmap_length) <= Z.of_nat (length c.(sl_bitmap));
  sr_last : 0 <= c.(sl_last_entry) < c.(sl_bitmap_length);
  sr_range : 0 <= c.(sl_config).(first_slot) /\ c.(sl_config).(first_slot) + 32 * c.(sl_bitmap_length) <= 2 ^ 32;
  sr_free : forall slot, slot ∈ F <->
    exists k, slot = c.(sl_config).(first_slot) + k /\ 0 <= k < 32 * c.(sl_bitmap_length) /\ bit_at c k = true }.
(** The operations change the bits and the hint only. *)
Definition same_single (c c' : cspace_single_level) : Prop :=
  c'.(sl_config) = c.(sl_config) /\ c'.(sl_bitmap_ptr) = c.(sl_bitmap_ptr) /\
  c'.(sl_bitmap_length) = c.(sl_bitmap_length) /\ length c'.(sl_bitmap) = length c.(sl_bitmap).

Section single.
Implicit Types c : cspace_single_level.

Lemma rep_word c F i : single_rep c F -> 0 <= i < c.(sl_bitmap_length) ->
  array_get c.(sl_bitmap) i = Some (c.(sl_bitmap) !!! Z.to_nat i) /\ is_word (c.(sl_bitmap) !!! Z.to_nat i).
Proof.
  intros H Hi. pose proof (sr_length _ _ H). unfold array_get. rewrite (proj2 (Z.ltb_ge i 0)) by lia.
  destruct (lookup_lt_is_Some_2 c.(sl_bitmap) (Z.to_nat i)) as [w E]; [lia|].
  rewrite (list_lookup_total_correct _ _ _ E). split; [done|]. by eapply Forall_lookup_1; [apply H|].
Qed.
Lemma wp_bitmap_get c F i Q : single_rep c F -> 0 <= i < c.(sl_bitmap_length) ->
  Q (c.(sl_bitmap) !!! Z.to_nat i) c -> wp (bitmap_get i) Q c.
Proof. intros H Hi HQ. unfold wp, bitmap_get. by rewrite (proj1 (rep_word c F i H Hi)). Qed.
Lemma wp_bitmap_set c F i v (Q : unit -> cspace_single_level -> Prop) : single_rep c F -> 0 <= i < c.(sl_bitmap_length) ->
  Q tt (upd_sl_bitmap (<[Z.to_nat i := v]> c.(sl_bitmap)) c) -> wp (bitmap_set i v) Q c.
Proof. intros H Hi HQ. unfold bitmap_set. apply wp_bind. eapply wp_bitmap_get; done. Qed.

(** The bit of another slot does not change, the bit of the slot is the new one. *)
Lemma bit_at_set c F i v k : single_rep c F -> 0 <= i < c.(sl_bitmap_length) -> 0 <= k < 32 * c.(sl_bitmap_length) ->
  bit_at (upd_sl_bitmap (<[Z.to_nat i := v]> c.(sl_bitmap)) c) k = if k / 32 =? i then Z.testbit v (k mod 32) else bit_at c k.
Proof.
  intros H Hi Hk. unfold bit_at. cbn. pose proof (sr_length _ _ H). assert (0 <= k / 32) by (apply Z.div_pos; lia).
  destruct (Z.eqb_spec (k / 32) i) as [<- |Hn].
  - rewrite list_lookup_total_insert_eq; [done|]. lia.
  - rewrite list_lookup_total_insert_ne; [done|]. lia.
Qed.
Lemma index_split i j k : 0 <= j < 32 -> k = 32 * i + j <-> k / 32 = i /\ k mod 32 = j.
Proof.
  intros Hj. pose proof (Z.div_mod k 32 ltac:(done)). pose proof (Z.mod_pos_bound k 32 ltac:(done)). split; [|lia].
  intros ->. split; [symmetry; apply (Z.div_unique _ _ _ j); lia|symmetry; apply (Z.mod_unique _ _ i); lia].
Qed.

(** A word in which one bit may change *)
Lemma rep_set c F F' i j v : single_rep c F -> 0 <= i < c.(sl_bitmap_length) -> 0 <= j < 32 -> is_word v ->
  (forall n, 0 <= n < 32 -> n <> j -> Z.testbit v n = Z.testbit (c.(sl_bitmap) !!! Z.to_nat i) n) ->
  (forall slot, slot ∈ F' <->
    if decide (slot = c.(sl_config).(first_slot) + (32 * i + j)) then Z.testbit v j = true else slot ∈ F) ->
  single_rep (upd_sl_bitmap (<[Z.to_nat i := v]> c.(sl_bitmap)) c) F'.
Proof.
  intros H Hi Hj Hv Hn HF. pose proof H as [Hw Hlen Hla Hr Hf]. split; cbn; [|by rewrite length_insert|done|done|].
  - by apply Forall_insert.
  - intros slot. rewrite HF. case_decide as Hs.
    + split.
      * intros Hb. exists (32 * i + j). split; [done|]. split; [lia|]. rewrite (bit_at_set c F) by (done || lia).
        rewrite (proj1 (proj1 (index_split i j _ Hj) eq_refl)), (proj2 (proj1 (index_split i j _ Hj) eq_refl)).
        by rewrite Z.eqb_refl.
      * intros (k & -> & Hk & Hb). assert (k = 32 * i + j) as E by lia. rewrite (bit_at_set c F) in Hb by done.
        apply (index_split i j k Hj) in E as [Ek1 Ek2]. by rewrite Ek1, Ek2, Z.eqb_refl in Hb.
    + assert (forall k, slot = c.(sl_config).(first_slot) + k -> 0 <= k < 32 * c.(sl_bitmap_length) ->
        bit_at (upd_sl_bitmap (<[Z.to_nat i := v]> c.(sl_bitmap)) c) k = bit_at c k) as Hsame.
      { intros k Ek Hk. rewrite (bit_at_set c F) by done. destruct (Z.eqb_spec (k / 32) i) as [Ei|]; [|done].
        unfold bit_at. rewrite Ei. apply Hn; [apply Z.mod_pos_bound; lia|]. intros Ej.
        apply Hs. rewrite Ek. f_equal. by apply index_split. }
      rewrite Hf. split; intros (k & Ek & Hk & Hb); exists k; (split; [done|]); (split; [done|]); by rewrite Hsame in * by done.
Qed.

(** Taking a free slot, giving back a used one *)
Lemma rep_take c F i j : single_rep c F -> 0 <= i < c.(sl_bitmap_length) -> 0 <= j < 32 ->
  single_rep (upd_sl_bitmap (<[Z.to_nat i := clear_bit (c.(sl_bitmap) !!! Z.to_nat i) j]> c.(sl_bitmap)) c)
    (F ∖ {[c.(sl_config).(first_slot) + (32 * i + j)]}).
Proof.
  intros H Hi Hj. pose proof (proj2 (rep_word c F i H Hi)) as Hw. apply (rep_set c F _ i j); try done.
  - by apply clear_bit_word.
  - intros n Hn Hne. rewrite clear_bit_bits by (done || lia). rewrite (proj2 (Z.eqb_neq j n)) by done. apply andb_true_r.
  - intros slot. rewrite elem_of_difference, elem_of_singleton. case_decide as Hs; [|naive_solver].
    rewrite clear_bit_bits, Z.eqb_refl, andb_false_r by (done || lia). naive_solver.
Qed.
Lemma rep_give c F i j : single_rep c F -> 0 <= i < c.(sl_bitmap_length) -> 0 <= j < 32 ->
  single_rep (upd_sl_bitmap (<[Z.to_nat i := c.(sl_bitmap) !!! Z.to_nat i |w BIT j]> c.(sl_bitmap)) c)
    (F ∪ {[c.(sl_config).(first_slot) + (32 * i + j)]}).
Proof.
  intros H Hi Hj. pose proof (proj2 (rep_word c F i H Hi)) as Hw. apply (rep_set c F _ i j); try done.
  - by apply set_bit_word.
  - intros n Hn Hne. rewrite set_bit_bits by (done || lia). rewrite (proj2 (Z.eqb_neq j n)) by done. apply orb_false_r.
  - intros slot. rewrite elem_of_union, elem_of_singleton. case_decide as Hs; [|naive_solver].
    rewrite set_bit_bits, Z.eqb_refl, orb_true_r by (done || lia). naive_solver.
Qed.
Lemma rep_last c F i : single_rep c F -> 0 <= i < c.(sl_bitmap_length) -> single_rep (upd_sl_last_entry i c) F.
Proof. intros [] Hi. by split. Qed.
(** What the bits say *)
Lemma rep_bit c F i j : single_rep c F -> 0 <= i < c.(sl_bitmap_length) -> 0 <= j < 32 ->
  Z.testbit (c.(sl_bitmap) !!! Z.to_nat i) j = bool_decide (c.(sl_config).(first_slot) + (32 * i + j) ∈ F).
Proof.
  intros H Hi Hj. destruct (proj1 (index_split i j _ Hj) eq_refl) as [E1 E2].
  apply eq_true_iff_eq. rewrite bool_decide_eq_true, (sr_free _ _ H). split.
  - intros Hb. exists (32 * i + j). split; [done|]. split; [lia|]. unfold bit_at. by rewrite E1, E2.
  - intros (k & Ek & Hk & Hb). assert (k = 32 * i + j) as -> by lia. unfold bit_at in Hb. by rewrite E1, E2 in Hb.
Qed.
Lemma rep_empty c F : single_rep c F -> (forall i, 0 <= i < c.(sl_bitmap_length) -> c.(sl_bitmap) !!! Z.to_nat i = 0) -> F = ∅.
Proof.
  intros H Hz. apply set_eq. intros slot. rewrite (sr_free _ _ H), elem_of_empty. split; [|done].
  intros (k & _ & Hk & Hb). unfold bit_at in Hb. rewrite Hz in Hb; [by rewrite Z.bits_0 in Hb|].
  split; [apply Z.div_pos; lia|]. apply Z.div_lt_upper_bound; lia.
Qed.

(** The search for an entry: it comes back to the hint when all of them are used up. *)
Lemma wp_next_entry c F fuel j : single_rep c F -> 0 <= j -> j + Z.of_nat fuel = c.(sl_bitmap_length) -> (0 < fuel)%nat ->
  (forall d, 0 <= d <= j -> c.(sl_bitmap) !!! Z.to_nat ((c.(sl_last_entry) + d) mod c.(sl_bitmap_length)) = 0) ->
  wp (next_entry fuel ((c.(sl_last_entry) + j) mod c.(sl_bitmap_length)))
    (fun i c' => c' = c /\ 0 <= i < c.(sl_bitmap_length) /\
      if i =? c.(sl_last_entry) then forall k, 0 <= k < c.(sl_bitmap_length) -> c.(sl_bitmap) !!! Z.to_nat k = 0
      else c.(sl_bitmap) !!! Z.to_nat i <> 0) c.
Proof.
  intros H. revert j. pose proof (sr_length _ _ H) as Hlen. pose proof (sr_last _ _ H) as Hla. pose proof (sr_range _ _ H) as Hr.
  set (L := c.(sl_bitmap_length)) in *. set (l := c.(sl_last_entry)) in *.
  induction fuel as [|fuel IH]; intros j Hj Hf Hpos Hz; [lia|]. cbn [next_entry]. apply wp_bind, wp_get.
  assert (((l + j) mod L +w 1) mod L = (l + (j + 1)) mod L) as Ei.
  { pose proof (Z.mod_pos_bound (l + j) L ltac:(lia)). unfold wadd, wrap. rewrite (Z.mod_small _ (2 ^ 32)) by lia.
    rewrite Z.add_mod_idemp_l by lia. by rewrite Z.add_assoc. }
  fold L. rewrite Ei. pose proof (Z.mod_pos_bound (l + (j + 1)) L ltac:(lia)) as Hb. cbv zeta.
  apply wp_bind. eapply wp_bitmap_get; [exact H|exact Hb|].
  set (w := c.(sl_bitmap) !!! Z.to_nat ((l + (j + 1)) mod L)). fold l.
  destruct (Z.eqb_spec w 0) as [Hw|Hw]; cbn [andb].
  - assert (forall d, 0 <= d <= j + 1 -> c.(sl_bitmap) !!! Z.to_nat ((l + d) mod L) = 0) as Hz'.
    { intros d Hd. destruct (decide (d = j + 1)) as [-> |]; [done|]. apply Hz. lia. }
    destruct (Z.eqb_spec ((l + (j + 1)) mod L) l) as [El|El]; cbn [negb].
    + apply wp_ret. split; [done|]. split; [done|]. rewrite (proj2 (Z.eqb_eq _ _) El). intros k Hk.
      (* a whole round *)
      assert (j + 1 = L) as EL.
      { destruct (decide (j + 1 = L)) as [|Hne]; [done|]. exfalso. assert (j + 1 < L) by lia.
        destruct (Z.lt_ge_cases (l + (j + 1)) L) as [Hlt|Hge]; [rewrite Z.mod_small in El; lia|].
        rewrite <- (Z.mod_unique (l + (j + 1)) L 1 (l + (j + 1) - L)) in El by lia. lia. }
      destruct (Z.le_gt_cases l k) as [Hlk|Hlk].
      * specialize (Hz' (k - l) ltac:(lia)). by replace ((l + (k - l)) mod L) with k in Hz' by (rewrite Z.mod_small; lia).
      * specialize (Hz' (k - l + L) ltac:(lia)).
        by replace ((l + (k - l + L)) mod L) with k in Hz' by (apply (Z.mod_unique _ _ 1); lia).
    + apply IH; try done; try lia. destruct (decide (fuel = 0%nat)) as [-> |]; [|lia]. exfalso. apply El.
      replace (j + 1) with L by lia. rewrite <- (Z.mod_unique (l + L) L 1 l); lia.
  - apply wp_ret. split; [done|]. split; [done|]. destruct (Z.eqb_spec ((l + (j + 1)) mod L) l) as [El|El]; [|done].
    exfalso. apply Hw. unfold w. rewrite El. specialize (Hz 0 ltac:(lia)). rewrite Z.add_0_r, Z.mod_small in Hz by lia. done.
Qed.

Lemma same_single_refl c : same_single c c.
Proof. done. Qed.
Lemma same_single_set c i v : same_single c (upd_sl_bitmap (<[i := v]> c.(sl_bitmap)) c).
Proof. split_and!; try done. cbn. apply length_insert. Qed.
Lemma same_single_path c c' slot : same_single c c' -> _cspace_single_level_make_path c' slot = _cspace_single_level_make_path c slot.
Proof. intros (E & _). unfold _cspace_single_level_make_path. by rewrite E. Qed.

(** What an allocation does to the set of free slots *)
Definition allocates c F (r : option cspacepath_t) c' : Prop :=
  same_single c c' /\
  match r with
  | Some p => exists slot, slot ∈ F /\ p = _cspace_single_level_make_path c slot /\ single_rep c' (F ∖ {[slot]})
  | None => F = ∅ /\ c' = c
  end.

Lemma wp_take_slot c F i : single_rep c F -> 0 <= i < c.(sl_bitmap_length) -> c.(sl_bitmap) !!! Z.to_nat i <> 0 ->
  wp (take_slot i) (allocates c F) c.
Proof.
  intros H Hi Hw. pose proof (sr_range _ _ H) as Hr. destruct (rep_word c F i H Hi) as [_ Hword].
  destruct (top_bit _ Hword Hw) as [Hj Hb]. unfold take_slot. apply wp_bind. eapply wp_bitmap_get; [done|done|]. cbv zeta.
  set (w := c.(sl_bitmap) !!! Z.to_nat i) in *. set (j := 31 - CLZ w) in *. fold (clear_bit w j).
  apply wp_bind. eapply wp_bitmap_set; [done|done|]. apply wp_bind, wp_get, wp_ret. split; [apply same_single_set|].
  exists (c.(sl_config).(first_slot) + (32 * i + j)). split; [|split].
  - pose proof (rep_bit c F i j H Hi Hj) as E. fold w in E. rewrite E in Hb. by apply bool_decide_eq_true in Hb.
  - rewrite (same_single_path _ _ _ (same_single_set c _ _)). f_equal. unfold wmul, wadd, wrap. cbn.
    rewrite (Z.mod_small (i * 32)) by lia. rewrite (Z.mod_small (i * 32 + j)) by lia. rewrite Z.mod_small by lia. lia.
  - by apply rep_take.
Qed.

Lemma wp_single_alloc c F : single_rep c F -> wp _cspace_single_level_alloc (allocates c F) c.
Proof.
  intros H. pose proof (sr_last _ _ H) as Hla. pose proof (sr_length _ _ H) as Hlen.
  unfold _cspace_single_level_alloc. apply wp_bind, wp_get. cbv zeta. apply wp_bind. eapply wp_bitmap_get; [done|done|].
  destruct (Z.eqb_spec (c.(sl_bitmap) !!! Z.to_nat c.(sl_last_entry)) 0) as [Hw|Hw]; [|by apply wp_take_slot].
  apply wp_bind, wp_assert; [by destruct (Z.eqb_spec c.(sl_bitmap_length) 0); [lia|]|].
  apply wp_bind, wp_assert; [apply Z.ltb_lt; lia|]. apply wp_bind.
  replace (next_entry _ c.(sl_last_entry)) with
    (next_entry (Z.to_nat c.(sl_bitmap_length)) ((c.(sl_last_entry) + 0) mod c.(sl_bitmap_length)))
    by (by rewrite Z.add_0_r, Z.mod_small by lia).
  eapply wp_mono; [apply (wp_next_entry c F)|]; try done; try lia.
  { intros d Hd. replace d with 0 by lia. rewrite Z.add_0_r, Z.mod_small by lia. done. }
  intros i c' (-> & Hi & Hz). destruct (Z.eqb_spec i c.(sl_last_entry)) as [Ei|Ei].
  - apply wp_ret. split; [done|]. split; [|done]. by apply (rep_empty c).
  - apply wp_bind, wp_modify. eapply wp_mono; [apply (wp_take_slot _ F); [by apply rep_last|done|done]|].
    intros r c' [Hs Hr]. split; [done|]. destruct r as [p|].
    + destruct Hr as (slot & ? & -> & ?). by exists slot.
    + destruct Hr as [HF _]. exfalso. apply Hz. apply Z.bits_inj'. intros n Hn. rewrite Z.bits_0.
      destruct (Z.lt_ge_cases n 32) as [Hn32|Hn32].
      * rewrite (rep_bit c F) by done. apply bool_decide_eq_false. rewrite HF. apply not_elem_of_empty.
      * destruct (rep_word c F i H Hi) as [_ Hword]. apply is_word_bits in Hword as [_ Hword]. by apply Hword.
Qed.

(** The entry and the bit of a slot; a slot before the first wraps to an index past the end. *)
Lemma slot_index c F slot : single_rep c F -> is_word slot ->
  let index := slot -w c.(sl_config).(first_slot) in
  (if decide (c.(sl_config).(first_slot) <= slot < c.(sl_config).(first_slot) + 32 * c.(sl_bitmap_length)) then
     slot = c.(sl_config).(first_slot) + (32 * (index / 32) + index mod 32) /\ 0 <= index / 32 < c.(sl_bitmap_length)
   else c.(sl_bitmap_length) <= index / 32 /\ slot ∉ F) /\ 0 <= index mod 32 < 32.
Proof.
  intros H Hslot index. pose proof (sr_range _ _ H) as [Hr0 Hr1]. pose proof (sr_length _ _ H) as Hlen.
  split; [|apply Z.mod_pos_bound; lia]. unfold is_word in *. case_decide as Hin.
  - assert (index = slot - c.(sl_config).(first_slot)) as E by (unfold index, wsub, wrap; apply Z.mod_small; lia).
    pose proof (Z.div_mod index 32 ltac:(done)). split; [lia|]. split; [apply Z.div_pos; lia|apply Z.div_lt_upper_bound; lia].
  - split.
    + apply Z.div_le_lower_bound; [lia|].
      destruct (Z.lt_ge_cases slot c.(sl_config).(first_slot)) as [Hl|Hl].
      * assert (index = slot - c.(sl_config).(first_slot) + 2 ^ 32) as ->; [|lia].
        unfold index, wsub, wrap. symmetry. apply (Z.mod_unique _ _ (-1)); lia.
      * assert (index = slot - c.(sl_config).(first_slot)) as ->; [|lia]. unfold index, wsub, wrap. apply Z.mod_small; lia.
    + rewrite (sr_free _ _ H). intros (k & -> & Hk & _). lia.
Qed.

Lemma wp_single_alloc_at c F slot : single_rep c F -> is_word slot ->
  wp (_cspace_single_level_alloc_at slot) (fun error c' =>
    same_single c c' /\
    if decide (slot ∈ F) then error = 0 /\ single_rep c' (F ∖ {[slot]}) else error = 1 /\ c' = c) c.
Proof.
  intros H Hslot. destruct (slot_index c F slot H Hslot) as [Hi Hj].
  unfold _cspace_single_level_alloc_at. apply wp_bind, wp_get. cbv zeta.
  set (index := slot -w c.(sl_config).(first_slot)) in *.
  case_decide as Hin.
  - destruct Hi as [Es Hi]. rewrite Z.geb_leb, (proj2 (Z.leb_gt _ _)) by lia. apply wp_bind. eapply wp_bitmap_get; [done|done|].
    rewrite land_BIT, (rep_bit c F), <- Es by done. case_bool_decide as HF; cbn [negb].
    + apply wp_bind. eapply wp_bitmap_set; [done|done|]. apply wp_ret.
      split; [apply same_single_set|]. rewrite decide_True by done. split; [done|]. rewrite Es. by apply rep_take.
    + apply wp_ret. by rewrite decide_False by done.
  - destruct Hi as [Hi HF]. rewrite Z.geb_leb, (proj2 (Z.leb_le _ _)) by lia. apply wp_ret. by rewrite decide_False by done.
Qed.

(** A slot is given back once: the assertion of the code needs that it is in use. *)
Lemma wp_single_free c F p : single_rep c F -> is_word p.(capPtr) -> p.(capPtr) ∉ F ->
  c.(sl_config).(first_slot) <= p.(capPtr) < c.(sl_config).(first_slot) + 32 * c.(sl_bitmap_length) ->
  wp (_cspace_single_level_free p) (fun _ c' => same_single c c' /\ single_rep c' (F ∪ {[p.(capPtr)]})) c.
Proof.
  intros H Hslot HF Hin. destruct (slot_index c F _ H Hslot) as [Hi Hj]. rewrite decide_True in Hi by done. destruct Hi as [Es Hi].
  unfold _cspace_single_level_free. apply wp_bind, wp_get. cbv zeta.
  set (index := p.(capPtr) -w c.(sl_config).(first_slot)) in *.
  apply wp_bind. eapply wp_bitmap_get; [done|done|]. apply wp_bind, wp_assert.
  - rewrite land_BIT, (rep_bit c F), <- Es by done. by rewrite bool_decide_eq_false_2.
  - eapply wp_bitmap_set; [done|done|]. split; [apply same_single_set|]. rewrite Es. by apply rep_give.
Qed.
End single.


(** ** A new bitmap *)
Section new_bitmap.
Lemma flip_other (l : list Z) last bits k : k <> last ->
  foldl (fun l i => alter (fun w => Z.lxor w (BIT i)) last l) l bits !! k = l !! k.
Proof.
  intros Hk. revert l. induction bits as [|b bits IH]; intros l; [done|]. cbn. rewrite IH. by apply list_lookup_alter_ne.
Qed.
Lemma flip_length (l : list Z) last bits :
  length (foldl (fun l i => alter (fun w => Z.lxor w (BIT i)) last l) l bits) = length l.
Proof. revert l. induction bits as [|b bits IH]; intros l; [done|]. cbn. rewrite IH. apply length_alter. Qed.
Lemma flip_words (l : list Z) last bits : Forall is_word l -> Forall (fun b => 0 <= b < 32) bits ->
  Forall is_word (foldl (fun l i => alter (fun w => Z.lxor w (BIT i)) last l) l bits).
Proof.
  revert l. induction bits as [|b bits IH]; intros l Hl Hb; [done|]. apply Forall_cons in Hb as [Hb Hbs]. cbn. apply IH; [|done].
  apply Forall_alter; [done|]. intros w _ Hw. apply is_word_bits. split.
  - apply Z.lxor_nonneg. rewrite BIT_pow by done. destruct Hw. lia.
  - intros i Hi. rewrite Z.lxor_spec, BIT_bits by lia. apply is_word_bits in Hw as [_ Hw]. rewrite Hw by done.
    by rewrite (proj2 (Z.eqb_neq b i)) by lia.
Qed.

Lemma initial_bitmap_ok n e : 0 <= n -> e = n / 32 + (if n mod 32 =? 0 then 0 else 1) ->
  length (initial_bitmap n e) = Z.to_nat e /\ Forall is_word (initial_bitmap n e) /\
  forall i, 0 <= i < n / 32 -> initial_bitmap n e !!! Z.to_nat i = wordMax.
Proof.
  intros Hn ->. assert (0 <= n / 32) as Hq by (apply Z.div_pos; lia). pose proof (Z.mod_pos_bound n 32 ltac:(done)) as Hm.
  assert (forall k, Forall is_word (replicate k wordMax)) as Hrep.
  { intros k. apply Forall_replicate. unfold is_word, wordMax. lia. }
  unfold initial_bitmap. cbv zeta. destruct (Z.eqb_spec (n mod 32) 0) as [E|E].
  - split; [apply length_replicate|]. split; [done|]. intros i Hi. apply lookup_total_replicate_2. lia.
  - rewrite flip_length, length_replicate. split; [done|]. split.
    + apply flip_words; [done|]. apply Forall_forall. intros b Hb%elem_of_seqZ. lia.
    + intros i Hi. rewrite list_lookup_total_alt, flip_other by lia. rewrite lookup_replicate_2 by lia. done.
Qed.
End new_bitmap.

(** The slots the structure hands out: whole words of the range *)
Definition managed (config : cspace_single_level_config) : gset Z :=
  list_to_set (seqZ config.(first_slot) (32 * ((config.(end_slot) - config.(first_slot)) / 32))).

Section create.
Context {S : Type} (A : allocman_ops S).
Lemma single_create config s p error s' :
  0 <= config.(first_slot) -> config.(first_slot) + 32 <= config.(end_slot) -> config.(end_slot) < 2 ^ 32 ->
  let bytes := 4 * ((config.(end_slot) - config.(first_slot) + 31) / 32) in
  allocman_mspace_alloc A bytes s = Ret (p, error) s' ->
  exists r, cspace_single_level_create A config s = Ret r s' /\
    if error =? 0 then exists c, r = inr c /\ c.(sl_config) = config /\ c.(sl_bitmap_ptr) = p /\
      c.(sl_bitmap_length) = (config.(end_slot) - config.(first_slot)) / 32 /\ single_rep c (managed config)
    else r = inl error.
Proof.
  intros H0 H1 H2 bytes Ha. unfold cspace_single_level_create. cbv zeta.
  set (n := config.(end_slot) - config.(first_slot)) in *.
  assert (config.(end_slot) -w config.(first_slot) = n) as -> by (unfold wsub, wrap; apply Z.mod_small; lia).
  pose proof (Z.div_mod n 32 ltac:(done)) as Hd. pose proof (Z.mod_pos_bound n 32 ltac:(done)) as Hm.
  assert (1 <= n / 32) as Hq by (apply Z.div_le_lower_bound; lia).
  set (e := if n mod 32 =? 0 then n / 32 else n / 32 +w 1).
  assert (e = n / 32 + (if n mod 32 =? 0 then 0 else 1)) as He.
  { unfold e. destruct (n mod 32 =? 0); [lia|]. unfold wadd, wrap. apply Z.mod_small. lia. }
  assert (e *w 4 = bytes) as ->.
  { unfold bytes, wmul, wrap. rewrite Z.mod_small by (rewrite He; destruct (n mod 32 =? 0); lia). rewrite (Z.mul_comm e). f_equal. rewrite He.
    destruct (Z.eqb_spec (n mod 32) 0) as [E|E]; [apply (Z.div_unique _ _ _ 31); lia|].
    apply (Z.div_unique _ _ _ (n mod 32 - 1)); lia. }
  rewrite (bind_ret _ _ _ _ _ Ha). destruct (Z.eqb_spec error 0) as [->|He0]; cbn [negb]; (eexists; split; [reflexivity|]); [|done].
  destruct (initial_bitmap_ok n e) as (Hl & Hw & Hall); [lia|done|].
  eexists. split; [reflexivity|]. cbn. split_and!; try done.
  assert (Z.to_nat e = length (initial_bitmap n e)) as Hl' by done.
  split; cbn; try done; fold n.
  - rewrite Hl. rewrite He. destruct (n mod 32 =? 0); lia.
  - lia.
  - lia.
  - intros slot. unfold managed. rewrite elem_of_list_to_set, elem_of_seqZ. fold n. split.
    + intros Hs. exists (slot - config.(first_slot)). split; [lia|]. split; [lia|]. unfold bit_at. cbn.
      rewrite Hall. 2: { split; [apply Z.div_pos; lia|apply Z.div_lt_upper_bound; lia]. }
      pose proof (Z.mod_pos_bound (slot - config.(first_slot)) 32 ltac:(done)).
      rewrite wordMax_bits by lia. apply Z.ltb_lt. lia.
    + intros (k & -> & Hk & _). lia.
Qed.
End create.

(** C19: the bitmap allocator of a CNode refines a set of free slots. A new one has the
    slots of the range, up to the last multiple of 32 of them, or the error of its
    memory allocation. An allocation returns the path of a slot of the set and removes exactly it; it
    fails, and changes nothing, only when the set is empty. The allocation of a given slot succeeds
    iff it is in the set, and freeing puts a slot that was in use back. *)
Theorem single_level_refines {S} (A : allocman_ops S) :
  (forall config s p error s',
     0 <= config.(first_slot) -> config.(first_slot) + 32 <= config.(end_slot) -> config.(end_slot) < 2 ^ 32 ->
     allocman_mspace_alloc A (4 * ((config.(end_slot) - config.(first_slot) + 31) / 32)) s = Ret (p, error) s' ->
     exists r, cspace_single_level_create A config s = Ret r s' /\
       if error =? 0 then exists c, r = inr c /\ c.(sl_config) = config /\ c.(sl_bitmap_ptr) = p /\
         c.(sl_bitmap_length) = (config.(end_slot) - config.(first_slot)) / 32 /\ single_rep c (managed config)
       else r = inl error) /\
  (forall c F, single_rep c F ->
     wp _cspace_single_level_alloc (fun r c' => same_single c c' /\
       match r with
       | Some p => exists slot, slot ∈ F /\ p = _cspace_single_level_make_path c slot /\ single_rep c' (F ∖ {[slot]})
       | None => F = ∅ /\ c' = c
       end) c /\
     (forall slot, is_word slot ->
       wp (_cspace_single_level_alloc_at slot) (fun error c' => same_single c c' /\
         if decide (slot ∈ F) then error = 0 /\ single_rep c' (F ∖ {[slot]}) else error = 1 /\ c' = c) c) /\
     (forall p, p.(capPtr) ∉ F ->
       c.(sl_config).(first_slot) <= p.(capPtr) < c.(sl_config).(first_slot) + 32 * c.(sl_bitmap_length) ->
       wp (_cspace_single_level_free p) (fun _ c' => same_single c c' /\ single_rep c' (F ∪ {[p.(capPtr)]})) c)).
Proof.
  split; [apply single_create|]. intros c F H. split; [exact (wp_single_alloc c F H)|].
  split; [intros slot Hslot; by apply wp_single_alloc_at|]. intros p HF Hin. apply wp_single_free; try done.
  pose proof (sr_range _ _ H). unfold is_word. lia.
Qed.

(** A CNode of 8 bits whose slots 16 to 80 are managed, with memory that is always there *)
Definition demo_ops : allocman_ops Z := {|
  allocman_mspace_alloc n s := Ret (s, 0) (s + n);
  allocman_mspace_free _ _ := ret tt;
  allocman_cspace_alloc := ret (1, mk_cspacepath 0 0 0 0 0 0 0);
  allocman_cspace_free _ := ret tt;
  allocman_utspace_alloc _ _ _ := ret (1, 0);
  allocman_utspace_free _ _ := ret tt |}.
Definition demo_config : cspace_single_level_config := mk_single_level_config 2 8 24 16 80.
Definition demo_single : cspace_single_level := mk_single_level demo_config 4096 [wordMax; wordMax] 2 0.

Lemma single_level_refines_witness :
  exists F, single_rep demo_single F /\ wp _cspace_single_level_alloc (fun r c' => same_single demo_single c' /\
    match r with
    | Some p => exists slot, slot ∈ F /\ p = _cspace_single_level_make_path demo_single slot /\ single_rep c' (F ∖ {[slot]})
    | None => F = ∅ /\ c' = demo_single
    end) demo_single.
Proof.
  destruct (proj1 (single_level_refines demo_ops) demo_config 4096 4096 0 4104) as (r & Hr & c & -> & _ & _ & _ & H);
    [cbn; lia|cbn; lia|cbn; lia|reflexivity|].
  assert (c = demo_single) as -> by (vm_compute in Hr; by injection Hr).
  exists (managed demo_config). split; [exact H|].
  exact (proj1 (proj2 (single_level_refines demo_ops) demo_single (managed demo_config) H)).
Defined.
(** The first slot it hands out is the last one of the first word. *)
Example demo_alloc : exists c', _cspace_single_level_alloc demo_single = Ret (Some (mk_cspacepath 47 32 2 0 0 47 1)) c'.
Proof. eexists. vm_compute. reflexivity. Qed.


(** ** Two levels: a map from the CNodes in use to their free slots *)
Record node_rep (bits : Z) (n : cspace_two_level_node) (F : gset Z) : Prop := {
  nr_single : single_rep n.(second_level) F;
  nr_config : n.(second_level).(sl_config) = mk_single_level_config 0 bits 0 0 (BIT bits);
  nr_length : 32 * n.(second_level).(sl_bitmap_length) = 2 ^ bits;
  nr_count : n.(count) = 2 ^ bits - Z.of_nat (size F) }.

Record two_rep (c : cspace_two_level) (F1 : gset Z) (m : gmap Z (gset Z)) : Prop := {
  tr_bits : 5 <= c.(t_config).(level_two_bits) < 32 /\ 0 <= c.(t_config).(t_cnode_size_bits) /\
    c.(t_config).(level_two_bits) + c.(t_config).(t_cnode_size_bits) <= 32;
  tr_first : single_rep c.(first_level) F1;
  tr_range : c.(first_level).(sl_config).(first_slot) + 32 * c.(first_level).(sl_bitmap_length) <= 2 ^ c.(t_config).(t_cnode_size_bits);
  tr_levels : Z.of_nat (length c.(second_levels)) = 2 ^ c.(t_config).(t_cnode_size_bits);
  tr_last : 0 <= c.(last_second_level) < 2 ^ c.(t_config).(t_cnode_size_bits);
  tr_node : forall i n, c.(second_levels) !! i = Some (Some n) ->
    exists F, m !! Z.of_nat i = Some F /\ node_rep c.(t_config).(level_two_bits) n.2 F;
  tr_key : forall i F, m !! i = Some F -> 0 <= i /\ (exists n, c.(second_levels) !! Z.to_nat i = Some (Some n)) /\ (i ∉ F1) /\
    c.(first_level).(sl_config).(first_slot) <= i < c.(first_level).(sl_config).(first_slot) + 32 * c.(first_level).(sl_bitmap_length) }.

(** The path of a slot of a second level *)
Definition two_level_path (c : cspace_two_level) (i slot : Z) : cspacepath_t :=
  let bits := c.(t_config).(level_two_bits) in
  let depth := c.(first_level).(sl_config).(cnode_size_bits) +w c.(first_level).(sl_config).(cnode_guard_bits) in
  mk_cspacepath (2 ^ bits * i + slot) (depth +w bits) c.(first_level).(sl_config).(cnode) i depth slot 0.

Section two_level.
Context {S : Type} (A : allocman_ops S).
Implicit Types (s : S) (c : cspace_two_level).

Lemma wp_get_second i v c s (Q : _ -> S * cspace_two_level -> Prop) :
  0 <= i -> c.(second_levels) !! Z.to_nat i = Some v -> Q v (s, c) -> wp (get_second i) Q (s, c).
Proof.
  intros Hi E HQ. unfold get_second. apply wp_bind, wp_get. rewrite (proj2 (Z.ltb_ge i 0)) by lia. cbn. by rewrite E.
Qed.
Lemma wp_set_second i v w c s (Q : _ -> S * cspace_two_level -> Prop) :
  0 <= i -> c.(second_levels) !! Z.to_nat i = Some v ->
  Q tt (s, upd_second_levels (<[Z.to_nat i := w]> c.(second_levels)) c) -> wp (set_second i w) Q (s, c).
Proof.
  intros Hi E HQ. unfold set_second. apply wp_bind. eapply wp_get_second; [done|done|]. by apply wp_zoom, wp_modify.
Qed.
Lemma wp_get_node i n c s (Q : _ -> S * cspace_two_level -> Prop) :
  0 <= i -> c.(second_levels) !! Z.to_nat i = Some (Some n) -> Q n (s, c) -> wp (get_node i) Q (s, c).
Proof. intros Hi E HQ. unfold get_node. apply wp_bind. eapply wp_get_second; [done|done|]. by eapply wp_of_option. Qed.
Lemma wp_mod_node i n f c s (Q : _ -> S * cspace_two_level -> Prop) :
  0 <= i -> c.(second_levels) !! Z.to_nat i = Some (Some n) ->
  Q tt (s, upd_second_levels (<[Z.to_nat i := Some (n.1, f n.2)]> c.(second_levels)) c) -> wp (mod_node i f) Q (s, c).
Proof.
  intros Hi E HQ. unfold mod_node. apply wp_bind. eapply wp_get_node; [done|done|]. by eapply wp_set_second.
Qed.
Lemma wp_on_second {B} i n (op : M cspace_single_level B) c s (Q : B -> S * cspace_two_level -> Prop) :
  0 <= i -> c.(second_levels) !! Z.to_nat i = Some (Some n) ->
  wp op (fun b x => Q b (s, upd_second_levels (<[Z.to_nat i := Some (n.1, upd_second_level x n.2)]> c.(second_levels)) c))
    n.2.(second_level) -> wp (on_second i op) Q (s, c).
Proof.
  intros Hi E H. unfold on_second. apply wp_bind. eapply wp_get_node; [done|done|].
  unfold wp in *. destruct (op n.2.(second_level)) as [b x|]; [|done]. apply wp_bind. by eapply wp_mod_node.
Qed.
Lemma wp_on_first {B} (op : M cspace_single_level B) c s (Q : B -> S * cspace_two_level -> Prop) :
  wp op (fun b x => Q b (s, upd_first_level x c)) c.(first_level) -> wp (on_first op) Q (s, c).
Proof. intros H. unfold on_first. by apply wp_zoom, wp_zoom. Qed.

(** *** The hunt for room *)
Definition room c i : Prop :=
  exists n, c.(second_levels) !! Z.to_nat i = Some (Some n) /\ n.2.(count) < MASK c.(t_config).(level_two_bits).

Lemma wp_hunt s c F1 m fuel j : two_rep c F1 m -> 0 <= j ->
  let L := 2 ^ c.(t_config).(t_cnode_size_bits) in
  j + Z.of_nat fuel = L + 1 -> (0 < fuel)%nat ->
  (forall d, 0 <= d < j -> ~ room c ((c.(last_second_level) + d) mod L)) ->
  wp (hunt fuel ((c.(last_second_level) + j) mod L) (j =? 0))
    (fun r x => x = (s, c) /\ 0 <= r.1 < L /\ if r.2 then room c r.1 else r.1 = c.(last_second_level) /\ forall k, 0 <= k < L -> ~ room c k) (s, c).
Proof.
  intros H. revert j. pose proof (tr_bits _ _ _ H) as (Hb & Hc & Hbc). pose proof (tr_last _ _ _ H) as Hla.
  set (L := 2 ^ c.(t_config).(t_cnode_size_bits)) in *. set (l := c.(last_second_level)) in *.
  assert (BIT c.(t_config).(t_cnode_size_bits) = L) as EL by (apply BIT_pow; lia).
  assert (L <= 2 ^ 27) as HL by (apply Z.pow_le_mono_r; lia).
  induction fuel as [|fuel IH]; intros j Hj; cbv zeta; intros Hf Hpos Hz; [lia|]. cbn [hunt]. apply wp_bind, wp_get. cbn [fst snd]. fold l.
  pose proof (Z.mod_pos_bound (l + j) L ltac:(lia)) as Hi.
  assert (((l + j) mod L +w 1) mod BIT c.(t_config).(t_cnode_size_bits) = (l + (j + 1)) mod L) as ->.
  { rewrite EL. unfold wadd, wrap. rewrite (Z.mod_small _ (2 ^ 32)) by lia. rewrite Z.add_mod_idemp_l by lia. by rewrite Z.add_assoc. }
  assert ((j =? 0) || negb ((l + j) mod L =? l) = negb (j =? L)) as ->.
  { destruct (Z.eqb_spec j L) as [->|HjL]; cbn [negb].
    - rewrite <- (Z.mod_unique (l + L) L 1 l) by lia. rewrite Z.eqb_refl. cbn. by rewrite orb_false_r, (proj2 (Z.eqb_neq L 0)) by lia.
    - destruct (Z.eqb_spec j 0) as [|Hj0]; [done|]. cbn. apply negb_true_iff, Z.eqb_neq.
      destruct (Z.lt_ge_cases (l + j) L) as [Hlt|Hge]; [rewrite Z.mod_small; lia|].
      rewrite <- (Z.mod_unique (l + j) L 1 (l + j - L)); lia. }
  assert (~ room c ((l + j) mod L) -> forall d, 0 <= d < j + 1 -> ~ room c ((l + d) mod L)) as Hz'.
  { intros Hn d Hd. destruct (decide (d = j)) as [->|]; [done|]. apply Hz. lia. }
  destruct (Z.eqb_spec j L) as [->|HjL]; cbn [negb].
  - apply wp_ret. cbn. split; [done|]. split; [done|]. split; [symmetry; apply (Z.mod_unique _ _ 1); lia|]. intros k Hk.
    destruct (Z.le_gt_cases l k) as [Hlk|Hlk].
    + specialize (Hz (k - l) ltac:(lia)). by replace ((l + (k - l)) mod L) with k in Hz by (rewrite Z.mod_small; lia).
    + specialize (Hz (k - l + L) ltac:(lia)). by replace ((l + (k - l + L)) mod L) with k in Hz by (apply (Z.mod_unique _ _ 1); lia).
  - assert ((fuel = 0)%nat -> False) as Hfuel by lia.
    assert (~ room c ((l + j) mod L) -> wp (hunt fuel ((l + (j + 1)) mod L) false)
      (fun r x => x = (s, c) /\ 0 <= r.1 < L /\ if r.2 then room c r.1 else r.1 = c.(last_second_level) /\ forall k, 0 <= k < L -> ~ room c k) (s, c)) as Hnext.
    { intros Hn. replace false with (j + 1 =? 0) by (apply Z.eqb_neq; lia). apply IH; try lia. by apply Hz'. }
    destruct (lookup_lt_is_Some_2 c.(second_levels) (Z.to_nat ((l + j) mod L))) as [v E].
    { pose proof (tr_levels _ _ _ H). lia. }
    apply wp_bind. eapply wp_get_second; [lia|exact E|]. destruct v as [n|].
    + destruct (Z.ltb_spec n.2.(count) (MASK c.(t_config).(level_two_bits))) as [Hr|Hr].
      * apply wp_ret. cbn. split; [done|]. split; [done|]. by exists n.
      * apply Hnext. intros (n' & E' & Hr'). rewrite E in E'. injection E' as <-. lia.
    + apply Hnext. intros (n' & E' & Hr'). by rewrite E in E'.
Qed.

(** *** One node changes *)
Lemma single_slots x F slot : single_rep x F -> slot ∈ F ->
  x.(sl_config).(first_slot) <= slot < x.(sl_config).(first_slot) + 32 * x.(sl_bitmap_length).
Proof. intros H Hs. apply (sr_free _ _ H) in Hs as (k & -> & Hk & _). lia. Qed.
Lemma slots_size (F : gset Z) b : 0 <= b -> (forall x, x ∈ F -> 0 <= x < b) -> Z.of_nat (size F) <= b.
Proof.
  intros Hb HF. assert (F ⊆ (list_to_set (seqZ 0 b) : gset Z)) as Hs.
  { intros x Hx. apply elem_of_list_to_set, elem_of_seqZ. specialize (HF x Hx). lia. }
  apply subseteq_size in Hs. rewrite size_list_to_set in Hs by apply NoDup_seqZ. rewrite length_seqZ in Hs. lia.
Qed.
Lemma node_slots bits n F slot : node_rep bits n F -> slot ∈ F -> 0 <= slot < 2 ^ bits.
Proof. intros [Hs Hc Hl _] Hin. apply (single_slots _ _ _ Hs) in Hin. rewrite Hc in Hin. cbn in Hin. lia. Qed.
Lemma size_without (F : gset Z) slot : slot ∈ F -> Z.of_nat (size (F ∖ {[slot]})) = Z.of_nat (size F) - 1.
Proof.
  intros H. rewrite size_difference by set_solver. rewrite size_singleton.
  assert (size F <> 0%nat) by (intros E%size_empty_inv; set_solver). lia.
Qed.
Lemma size_with (F : gset Z) slot : slot ∉ F -> Z.of_nat (size (F ∪ {[slot]})) = Z.of_nat (size F) + 1.
Proof. intros H. rewrite size_union by set_solver. rewrite size_singleton. lia. Qed.

Lemma node_take bits n F slot x : 5 <= bits < 32 -> node_rep bits n F -> slot ∈ F -> same_single n.(second_level) x ->
  single_rep x (F ∖ {[slot]}) -> node_rep bits (upd_count (n.(count) +w 1) (upd_second_level x n)) (F ∖ {[slot]}).
Proof.
  intros Hb H Hin (E1 & _ & E3 & _) Hx. destruct H as [Hs Hc Hl Hn]. split; cbn; [done|by rewrite E1|by rewrite E3|].
  rewrite size_without, Hn by done.
  assert (size F <> 0%nat) by (intros E%size_empty_inv; set_solver).
  assert (2 ^ bits <= 2 ^ 31) by (apply Z.pow_le_mono_r; lia).
  assert (Z.of_nat (size F) <= 2 ^ bits) by (apply slots_size; [lia|]; intros y Hy; by eapply node_slots).
  unfold wadd, wrap. rewrite Z.mod_small; lia.
Qed.
Lemma node_give bits n F slot x : 5 <= bits < 32 -> node_rep bits n F -> slot ∉ F -> 0 <= slot < 2 ^ bits ->
  same_single n.(second_level) x -> single_rep x (F ∪ {[slot]}) ->
  node_rep bits (upd_count (n.(count) -w 1) (upd_second_level x n)) (F ∪ {[slot]}).
Proof.
  intros Hb H Hin Hr (E1 & _ & E3 & _) Hx. pose proof H as [Hs Hc Hl Hn]. split; cbn; [done|by rewrite E1|by rewrite E3|].
  rewrite Hn. pose proof (size_with F slot Hin) as Hsz.
  assert (2 ^ bits <= 2 ^ 31) by (apply Z.pow_le_mono_r; lia).
  assert (Z.of_nat (size (F ∪ {[slot]})) <= 2 ^ bits).
  { apply slots_size; [lia|]. intros y [Hy|Hy%elem_of_singleton]%elem_of_union; [by eapply node_slots|by subst]. }
  unfold wsub, wrap. rewrite Z.mod_small; lia.
Qed.

Lemma two_rep_node c F1 m i n n' F' : two_rep c F1 m -> 0 <= i -> c.(second_levels) !! Z.to_nat i = Some (Some n) ->
  node_rep c.(t_config).(level_two_bits) n'.2 F' ->
  two_rep (upd_second_levels (<[Z.to_nat i := Some n']> c.(second_levels)) c) F1 (<[i := F']> m).
Proof.
  intros H Hi E Hn. pose proof H as [Hb Hf Hra Hl Hla Hnode Hkey]. split; cbn; try done.
  - by rewrite length_insert.
  - intros j nj Ej. apply list_lookup_insert_Some in Ej as [(<- & [= <-] & _)|[Hne Ej]].
    + exists F'. rewrite Z2Nat.id by done. by rewrite lookup_insert_eq.
    + destruct (Hnode j nj Ej) as (Fj & EF & Hj). exists Fj. rewrite lookup_insert_ne by lia. done.
  - intros j Fj. destruct (decide (j = i)) as [-> |Hne].
    + intros _. destruct (Hnode _ _ E) as (F & EF & _). rewrite Z2Nat.id in EF by done.
      destruct (Hkey i F EF) as (_ & _ & Hout & Hin). split; [done|]. split; [|done].
      exists n'. apply list_lookup_insert_eq. by eapply lookup_lt_Some.
    + rewrite lookup_insert_ne by done. intros EF. destruct (Hkey j Fj EF) as (Hj & (nj & Ej) & Hrest).
      split; [done|]. split; [|done]. exists nj. rewrite list_lookup_insert_ne by lia. done.
Qed.

Lemma rep_room c F1 m : two_rep c F1 m ->
  (exists i, 0 <= i /\ room c i) <-> exists i F, m !! i = Some F /\ (1 < size F)%nat.
Proof.
  intros H. pose proof (tr_bits _ _ _ H) as (Hb & _). split.
  - intros (i & Hi & n & E & Hc). destruct (tr_node _ _ _ H _ _ E) as (F & EF & Hn). rewrite Z2Nat.id in EF by done.
    exists i, F. split; [done|]. rewrite (nr_count _ _ _ Hn), MASK_pow in Hc by lia. lia.
  - intros (i & F & EF & Hs). destruct (tr_key _ _ _ H _ _ EF) as (Hi & (n & E) & _).
    exists i. split; [done|]. exists n. split; [done|]. destruct (tr_node _ _ _ H _ _ E) as (F' & EF' & Hn).
    rewrite Z2Nat.id, EF in EF' by done. injection EF' as <-. rewrite (nr_count _ _ _ Hn), MASK_pow by lia. lia.
Qed.

(** *** Paths *)
Lemma split_slot bits i slot : 0 <= bits < 32 -> 0 <= i -> 0 <= slot < 2 ^ bits -> 2 ^ bits * i + slot < 2 ^ 32 ->
  (i <<w bits) |w slot = 2 ^ bits * i + slot /\ (2 ^ bits * i + slot) >>w bits = i /\ (2 ^ bits * i + slot) &w MASK bits = slot.
Proof.
  intros Hb Hi Hs Hw. assert (i <<w bits = Z.shiftl i bits) as ->.
  { unfold wshl, wrap. apply Z.mod_small. rewrite Z.shiftl_mul_pow2 by lia. nia. }
  split; [rewrite lor_disjoint by lia; lia|]. split.
  - unfold wshr. rewrite Z.shiftr_div_pow2 by lia. symmetry. apply (Z.div_unique _ _ _ slot); lia.
  - rewrite land_MASK by done. symmetry. apply (Z.mod_unique _ _ i); lia.
Qed.
Lemma index_bound c F1 m i : two_rep c F1 m -> 0 <= i -> is_Some (c.(second_levels) !! Z.to_nat i) ->
  2 ^ c.(t_config).(level_two_bits) * i + 2 ^ c.(t_config).(level_two_bits) <= 2 ^ 32.
Proof.
  intros H Hi Hl%lookup_lt_is_Some. pose proof (tr_levels _ _ _ H) as Hlen. pose proof (tr_bits _ _ _ H) as (Hb & Hc & Hbc).
  assert (2 ^ c.(t_config).(level_two_bits) * 2 ^ c.(t_config).(t_cnode_size_bits) <= 2 ^ 32).
  { rewrite <- Z.pow_add_r by lia. apply Z.pow_le_mono_r; lia. }
  assert (i + 1 <= 2 ^ c.(t_config).(t_cnode_size_bits)) by lia. nia.
Qed.
Lemma wp_two_path c F1 m i n slot s (Q : _ -> S * cspace_two_level -> Prop) : two_rep c F1 m -> 0 <= i ->
  c.(second_levels) !! Z.to_nat i = Some (Some n) -> 0 <= slot < 2 ^ c.(t_config).(level_two_bits) ->
  Q (two_level_path c i slot) (s, c) ->
  wp (_cspace_two_level_make_path ((i <<w c.(t_config).(level_two_bits)) |w slot)) Q (s, c).
Proof.
  intros H Hi E Hs HQ. pose proof (tr_bits _ _ _ H) as (Hb & Hc & Hbc). pose proof (index_bound _ _ _ _ H Hi ltac:(eauto)) as Hbd.
  destruct (split_slot c.(t_config).(level_two_bits) i slot) as (E1 & E2 & E3); [lia|done|done|lia|].
  unfold _cspace_two_level_make_path. apply wp_bind, wp_get. cbn [fst snd]. cbv zeta. rewrite E1, E2, E3.
  apply wp_bind. eapply wp_get_second; [done|exact E|]. apply wp_ret.
  destruct (tr_node _ _ _ H _ _ E) as (F & _ & Hn). unfold _cspace_single_level_make_path, two_level_path in *.
  rewrite (nr_config _ _ _ Hn). cbn [capPtr capDepth root dest destDepth offset cnode_size_bits cnode_guard_bits cnode].
  set (b := c.(t_config).(level_two_bits)) in *.
  set (d := c.(first_level).(sl_config).(cnode_size_bits) +w c.(first_level).(sl_config).(cnode_guard_bits)) in *.
  assert (b +w 0 = b) as -> by (unfold wadd, wrap; rewrite Z.add_0_r; apply Z.mod_small; lia).
  assert (d +w 0 = d) as -> by (unfold d, wadd, wrap; rewrite Z.add_0_r; apply Z.mod_mod; done).
  assert ((i <<w 0) |w 0 = i) as ->; [|by rewrite E1].
  unfold wshl, wrap. rewrite Z.shiftl_0_r, Z.lor_0_r. apply Z.mod_small. nia.
Qed.

(** *** The operations *)
Lemma upd_first_same c x : x = c.(first_level) -> upd_first_level x c = c.
Proof. intros ->. by destruct c. Qed.

(** From the second level that was found, the last part of the allocation *)
Definition allocated s c F1 m (r : Z + cspacepath_t) (x : S * cspace_two_level) : Prop :=
  x.1 = s /\ exists i F slot, m !! i = Some F /\ slot ∈ F /\ r = inr (two_level_path c i slot) /\
    two_rep x.2 F1 (<[i := F ∖ {[slot]}]> m).
Definition finish (bits i : Z) : M (S * cspace_two_level) (Z + cspacepath_t) :=
  in_own (modify (upd_last_second_level i)) ;;;
  let* level2_slot := on_second i _cspace_single_level_alloc in
  match level2_slot with
  | None => fail
  | Some level2_slot =>
      mod_node i (fun n => upd_count (n.(count) +w 1) n) ;;;
      let* path := _cspace_two_level_make_path ((i <<w bits) |w level2_slot.(capPtr)) in
      ret (inr path)
  end.
Lemma wp_finish s c F1 m i F : two_rep c F1 m -> m !! i = Some F -> F <> ∅ ->
  wp (finish c.(t_config).(level_two_bits) i) (fun r x => x.1 = s /\ exists slot, slot ∈ F /\
    r = inr (two_level_path c i slot) /\ two_rep x.2 F1 (<[i := F ∖ {[slot]}]> m)) (s, c).
Proof.
  intros H EF HF. pose proof (tr_bits _ _ _ H) as (Hb & _). destruct (tr_key _ _ _ H _ _ EF) as (Hi & (n & E) & _).
  destruct (tr_node _ _ _ H _ _ E) as (F' & EF' & Hn). rewrite Z2Nat.id, EF in EF' by done. injection EF' as <-.
  assert (0 <= i < 2 ^ c.(t_config).(t_cnode_size_bits)) as Hir.
  { split; [done|]. pose proof (tr_levels _ _ _ H). apply lookup_lt_Some in E. lia. }
  unfold finish. apply wp_bind, wp_zoom, wp_modify. cbn [fst snd].
  set (c1 := upd_last_second_level i c). assert (two_rep c1 F1 m) as H1 by (destruct H; by split).
  apply wp_bind. eapply wp_on_second; [done|exact E|]. eapply wp_mono; [apply (wp_single_alloc _ F), Hn|].
  intros r x [Hsame Hr]. destruct r as [p|]; [|by destruct Hr as [? _]]. destruct Hr as (slot & Hin & -> & Hx).
  pose proof (node_slots _ _ _ _ Hn Hin) as Hslot.
  pose proof (node_take _ _ _ _ _ Hb Hn Hin Hsame Hx) as Hn'.
  assert (Z.to_nat i < length c.(second_levels))%nat as Hlt by by eapply lookup_lt_Some.
  apply wp_bind. eapply wp_mod_node; [done|by apply list_lookup_insert_eq|]. cbn [fst snd second_levels upd_second_levels c1 upd_last_second_level].
  rewrite list_insert_insert_eq.
  pose proof (two_rep_node c1 F1 m i n (n.1, upd_count (n.2.(count) +w 1) (upd_second_level x n.2)) _ H1 Hi E Hn') as H2.
  apply wp_bind. eapply (wp_two_path _ F1 _ _ _ _ _ _ H2 Hi); [cbn; by apply list_lookup_insert_eq|done|].
  apply wp_ret. split; [done|]. exists slot. by split_and!.
Qed.

Lemma wp_two_alloc uninit s c F1 m : two_rep c F1 m ->
  ((exists i F, m !! i = Some F /\ (1 < size F)%nat) -> wp (_cspace_two_level_alloc A uninit) (allocated s c F1 m) (s, c)) /\
  (~ (exists i F, m !! i = Some F /\ (1 < size F)%nat) -> F1 = ∅ ->
   wp (_cspace_two_level_alloc A uninit) (fun r x => r = inl 1 /\ x = (s, c)) (s, c)).
Proof.
  intros H. rewrite <- (rep_room _ _ _ H).
  pose proof (tr_bits _ _ _ H) as (Hb & Hc & Hbc). pose proof (tr_last _ _ _ H) as Hla. pose proof (tr_levels _ _ _ H) as Hlen.
  assert (wp (hunt (Datatypes.S (length c.(second_levels))) c.(last_second_level) true)
    (fun r x => x = (s, c) /\ 0 <= r.1 < 2 ^ c.(t_config).(t_cnode_size_bits) /\
      if r.2 then room c r.1 else r.1 = c.(last_second_level) /\ forall k, 0 <= k < 2 ^ c.(t_config).(t_cnode_size_bits) -> ~ room c k) (s, c)) as Hh.
  { replace c.(last_second_level) with ((c.(last_second_level) + 0) mod 2 ^ c.(t_config).(t_cnode_size_bits)) at 1
      by (rewrite Z.add_0_r; apply Z.mod_small; lia).
    apply (wp_hunt s c F1 m _ 0 H); [lia|lia|lia|intros d Hd; lia]. }
  unfold _cspace_two_level_alloc. split.
  - intros (i0 & Hi0 & Hroom). apply wp_bind, wp_get. cbn [fst snd]. apply wp_bind. eapply wp_mono; [exact Hh|]. cbv beta.
    intros [i found] x (-> & Hi & Hr). cbn [fst snd] in *. destruct found.
    + apply wp_bind, wp_ret. cbn [negb Z.eqb]. destruct Hr as (n & E & Hcount).
      destruct (tr_node _ _ _ H _ _ E) as (F & EF & Hn). rewrite Z2Nat.id in EF by lia.
      eapply wp_mono; [apply (wp_finish s c F1 m i F H EF)|intros r x (? & slot & ?); split; [done|]; exists i, F, slot; tauto]. intros ->. rewrite (nr_count _ _ _ Hn), MASK_pow, size_empty in Hcount by lia. cbn in Hcount. lia.
    + destruct (proj2 Hr i0); [|done]. split; [done|]. destruct Hroom as (n & E & _). apply lookup_lt_Some in E. lia.
  - intros Hno HF1. apply wp_bind, wp_get. cbn [fst snd]. apply wp_bind. eapply wp_mono; [exact Hh|]. cbv beta.
    intros [i found] x (-> & Hi & Hr). cbn [fst snd] in *. destruct found; [destruct Hno; exists i; split; [lia|done]|].
    apply wp_bind, wp_bind, wp_on_first. eapply wp_mono; [apply (wp_single_alloc _ F1), H|].
    intros r x [_ Hx]. destruct r as [p|]; [destruct Hx as (slot & Hin & _); subst; set_solver|]. destruct Hx as [_ ->].
    rewrite upd_first_same by done. apply wp_ret. cbn. by apply wp_ret.
Qed.

(** *** Making a second level *)
Definition all_slots (bits : Z) : gset Z := list_to_set (seqZ 0 (2 ^ bits)).
(** The allocation manager gives what a second level at index [i] takes: the structure, the CNode and the bitmap. *)
Definition serves c i s s' : Prop := exists ptr s1 cookie s2 bitmap,
  allocman_mspace_alloc A sizeof_two_level_node s = Ret (ptr, 0) s1 /\ ptr <> NULL /\
  allocman_utspace_alloc A (c.(t_config).(level_two_bits) +w seL4_SlotBits) seL4_CapTableObject
    (_cspace_single_level_make_path c.(first_level) i) s1 = Ret (cookie, 0) s2 /\
  allocman_mspace_alloc A (4 * (2 ^ c.(t_config).(level_two_bits) / 32)) s2 = Ret (bitmap, 0) s'.

Lemma whole_words bits : 5 <= bits -> 2 ^ bits / 32 * 32 = 2 ^ bits /\ (2 ^ bits + 31) / 32 = 2 ^ bits / 32.
Proof.
  intros Hb. assert (2 ^ bits = 2 ^ (bits - 5) * 32) as E by (change 32 with (2 ^ 5); rewrite <- Z.pow_add_r by lia; f_equal; lia).
  rewrite E, Z.div_mul by done. split; [done|]. symmetry. apply (Z.div_unique _ _ _ 31); lia.
Qed.
Lemma size_all bits : 0 <= bits -> Z.of_nat (size (all_slots bits)) = 2 ^ bits.
Proof. intros Hb. unfold all_slots. rewrite size_list_to_set by apply NoDup_seqZ. rewrite length_seqZ. lia. Qed.

Lemma new_node bits s bitmap s' : 5 <= bits < 32 -> allocman_mspace_alloc A (4 * (2 ^ bits / 32)) s = Ret (bitmap, 0) s' ->
  exists x, cspace_single_level_create A (mk_single_level_config 0 bits 0 0 (BIT bits)) s = Ret (inr x) s' /\
    forall k v, node_rep bits (mk_two_level_node 0 x k v) (all_slots bits).
Proof.
  intros Hb Ha. destruct (whole_words bits) as [E1 E2]; [lia|]. assert (2 ^ 5 <= 2 ^ bits < 2 ^ 32) as Hp.
  { split; [apply Z.pow_le_mono_r; lia|apply Z.pow_lt_mono_r; lia]. }
  destruct (single_create A (mk_single_level_config 0 bits 0 0 (BIT bits)) s bitmap 0 s') as (r & Hr & x & -> & Ec & _ & El & Hx);
    [cbn; lia|cbn; rewrite BIT_pow; lia|cbn; rewrite BIT_pow; lia|cbn [first_slot end_slot]; by rewrite BIT_pow, Z.sub_0_r, E2 by lia|].
  cbn [first_slot end_slot] in El. exists x. split; [exact Hr|]. intros k v. unfold managed in Hx. cbn [first_slot end_slot] in Hx.
  rewrite BIT_pow, Z.sub_0_r in El, Hx by lia. split; cbn [second_level count].
  - unfold all_slots. by rewrite <- E1, Z.mul_comm.
  - exact Ec.
  - rewrite El. lia.
  - rewrite size_all; lia.
Qed.

Lemma wp_create_second uninit s s' c i (Q : Z -> S * cspace_two_level -> Prop) :
  5 <= c.(t_config).(level_two_bits) < 32 -> 0 <= i -> is_Some (c.(second_levels) !! Z.to_nat i) -> serves c i s s' ->
  (forall n, node_rep c.(t_config).(level_two_bits) n.2 (all_slots c.(t_config).(level_two_bits)) ->
    Q 0 (s', upd_second_levels (<[Z.to_nat i := Some n]> c.(second_levels)) c)) ->
  wp (_create_second_level A uninit i true) Q (s, c).
Proof.
  intros Hb Hi [v E] (ptr & s1 & cookie & s2 & bitmap & H1 & Hp & H2 & H3) HQ.
  assert (Z.to_nat i < length c.(second_levels))%nat as Hlt by by eapply lookup_lt_Some.
  destruct (new_node _ _ _ _ Hb H3) as (x & Hx & Hn).
  unfold _create_second_level. apply wp_bind, wp_get. cbn [fst snd]. cbv zeta.
  apply wp_bind, wp_zoom. unfold wp at 1. cbn [fst snd]. rewrite H1. rewrite (proj2 (Z.eqb_neq ptr NULL)) by done. cbn [negb Z.eqb].
  apply wp_bind. eapply wp_set_second; [done|exact E|]. apply wp_bind. apply wp_bind, wp_zoom. unfold wp at 1. cbn [fst snd first_level upd_second_levels].
  rewrite H2. apply wp_bind. eapply wp_mod_node; [done|by apply list_lookup_insert_eq|]. cbn [fst snd second_levels upd_second_levels].
  apply wp_ret. cbn [negb Z.eqb]. rewrite list_insert_insert_eq.
  apply wp_bind, wp_zoom. unfold wp at 1. cbn [fst snd]. rewrite Hx. cbn [fst snd].
  apply wp_bind. eapply wp_mod_node; [done|by apply list_lookup_insert_eq|]. cbn [fst snd second_levels upd_second_levels].
  rewrite !list_insert_insert_eq. apply wp_bind. eapply wp_mod_node; [done|by apply list_lookup_insert_eq|]. cbn [fst snd second_levels upd_second_levels].
  apply wp_ret. rewrite !list_insert_insert_eq. apply (HQ (ptr, _)). apply Hn.
Qed.

(** The slot taken from the first level is the index of the new second level. *)
Lemma rep_new c F1 m i x n : two_rep c F1 m -> i ∈ F1 -> same_single c.(first_level) x -> single_rep x (F1 ∖ {[i]}) ->
  node_rep c.(t_config).(level_two_bits) n.2 (all_slots c.(t_config).(level_two_bits)) ->
  two_rep (upd_second_levels (<[Z.to_nat i := Some n]> c.(second_levels)) (upd_first_level x c)) (F1 ∖ {[i]})
    (<[i := all_slots c.(t_config).(level_two_bits)]> m).
Proof.
  intros H Hi (E1 & _ & E3 & _) Hx Hn. pose proof H as [Hb Hf Hra Hl Hla Hnode Hkey].
  pose proof (single_slots _ _ _ Hf Hi) as Hir. pose proof (proj1 (sr_range _ _ Hf)) as H0.
  assert (Z.to_nat i < length c.(second_levels))%nat as Hlt by lia.
  split; cbn; try done.
  - by rewrite E1, E3.
  - by rewrite length_insert.
  - intros j nj Ej. apply list_lookup_insert_Some in Ej as [(<- & [= <-] & _)|[Hne Ej]].
    + rewrite Z2Nat.id, lookup_insert_eq by lia. eauto.
    + rewrite lookup_insert_ne by lia. eauto.
  - intros j Fj Ej. destruct (decide (j = i)) as [-> |Hne].
    + split; [lia|]. split; [exists n; by apply list_lookup_insert_eq|]. split; [set_solver|]. by rewrite E1, E3.
    + rewrite lookup_insert_ne in Ej by done. destruct (Hkey j Fj Ej) as (Hj & (nj & Enj) & Hout & Hrange).
      split; [done|]. split; [exists nj; rewrite list_lookup_insert_ne by lia; done|]. split; [set_solver|]. by rewrite E1, E3.
Qed.

(** No second level has room, the first level has a slot: a new one is made, and the allocation goes on where it began
    to look, as if it were there. *)
Lemma two_alloc_new uninit s c F1 m : two_rep c F1 m -> ~ (exists i F, m !! i = Some F /\ (1 < size F)%nat) -> F1 <> ∅ ->
  (forall i, i ∈ F1 -> exists s', serves c i s s') ->
  exists i s' c', i ∈ F1 /\ serves c i s s' /\ two_rep c' (F1 ∖ {[i]}) (<[i := all_slots c.(t_config).(level_two_bits)]> m) /\
    c'.(t_config) = c.(t_config) /\ c'.(last_second_level) = c.(last_second_level) /\
    (forall j slot, two_level_path c' j slot = two_level_path c j slot) /\
    _cspace_two_level_alloc A uninit (s, c) = finish c.(t_config).(level_two_bits) c.(last_second_level) (s', c').
Proof.
  intros H Hno HF1 Hsv. rewrite <- (rep_room _ _ _ H) in Hno. pose proof (tr_bits _ _ _ H) as (Hb & Hc & Hbc).
  pose proof (tr_last _ _ _ H) as Hla. pose proof (tr_levels _ _ _ H) as Hlen.
  assert (hunt (Datatypes.S (length c.(second_levels))) c.(last_second_level) true (s, c) = Ret (c.(last_second_level), false) (s, c)) as Hh.
  { pose proof (wp_hunt s c F1 m (Datatypes.S (length c.(second_levels))) 0 H ltac:(lia) ltac:(lia) ltac:(lia) ltac:(intros d Hd; lia)) as Hw.
    rewrite Z.add_0_r, Z.mod_small in Hw by lia. apply wp_inv in Hw as ([i0 f] & x & E & -> & Hi0 & Hf). cbn [fst snd] in *.
    destruct f; [destruct Hno; exists i0; split; [lia|done]|]. destruct Hf as [-> _]. exact E. }
  destruct (wp_inv _ _ _ (wp_single_alloc _ F1 (tr_first _ _ _ H))) as (r & x & Ea & Hsame & Hr).
  destruct r as [p|]; [|by destruct Hr]. destruct Hr as (i & Hi & -> & Hx). destruct (Hsv i Hi) as (s' & Hs').
  pose proof (single_slots _ _ _ (tr_first _ _ _ H) Hi) as Hir. pose proof (proj1 (sr_range _ _ (tr_first _ _ _ H))) as H0. pose proof (tr_range _ _ _ H) as Hra.
  assert (wp (_create_second_level A uninit i true) (fun e y => e = 0 /\ exists n, y = (s', upd_second_levels (<[Z.to_nat i := Some n]> c.(second_levels)) (upd_first_level x c)) /\
    node_rep c.(t_config).(level_two_bits) n.2 (all_slots c.(t_config).(level_two_bits))) (s, upd_first_level x c)) as Hcr.
  { eapply wp_create_second; cbn [t_config upd_first_level second_levels]; [done|lia|apply lookup_lt_is_Some; lia| |].
    - destruct Hs' as (ptr & s1 & k & s2 & b & ? & ? & Hu & ?). exists ptr, s1, k, s2, b. split_and!; try done. cbn.
      unfold _cspace_single_level_make_path in *. destruct Hsame as (-> & _). done.
    - intros n Hn. split; [done|]. by exists n. }
  apply wp_inv in Hcr as (e & y & Ec & -> & n & -> & Hn).
  exists i, s', (upd_second_levels (<[Z.to_nat i := Some n]> c.(second_levels)) (upd_first_level x c)).
  split; [done|]. split; [done|]. split; [by apply rep_new|]. split; [done|]. split; [done|]. split.
  { intros j slot. unfold two_level_path. cbn. by destruct Hsame as (-> & _). }
  unfold _cspace_two_level_alloc. unfold bind at 1, get at 1. cbn [fst snd]. rewrite (bind_ret _ _ _ _ _ Hh).
  assert (on_first _cspace_single_level_alloc (s, c) = Ret (Some (_cspace_single_level_make_path c.(first_level) i)) (s, upd_first_level x c)) as Hof.
  { unfold on_first, in_own, zoom. cbn [fst snd]. by rewrite Ea. }
  unfold bind at 1 2. rewrite Hof. cbn [offset _cspace_single_level_make_path]. rewrite Ec. reflexivity.
Qed.
(** On an entry that is NULL, and on a second level without free slots *)
Lemma finish_null bits s c i : 0 <= i -> c.(second_levels) !! Z.to_nat i = Some None -> finish bits i (s, c) = Stop Undefined.
Proof.
  intros Hi E. unfold finish, in_own, zoom, bind, modify. cbn [fst snd]. unfold on_second, bind, get_node, bind, get_second, bind, get.
  cbn [fst snd second_levels upd_last_second_level]. rewrite (proj2 (Z.ltb_ge i 0)) by lia. by rewrite E.
Qed.
Lemma finish_full bits s c F1 m i : two_rep c F1 m -> m !! i = Some ∅ -> finish bits i (s, c) = Stop Failed.
Proof.
  intros H EF. destruct (tr_key _ _ _ H _ _ EF) as (Hi & (n & E) & _).
  destruct (tr_node _ _ _ H _ _ E) as (F' & EF' & Hn). rewrite Z2Nat.id, EF in EF' by done. injection EF' as <-.
  assert (Z.to_nat i < length c.(second_levels))%nat as Hlt by by eapply lookup_lt_Some.
  unfold finish, bind at 1, in_own, zoom, modify. cbn [fst snd].
  assert (wp (on_second i _cspace_single_level_alloc) (fun r _ => r = None) (s, upd_last_second_level i c)) as Hw.
  { eapply wp_on_second; [done|exact E|]. eapply wp_mono; [apply (wp_single_alloc _ ∅), Hn|].
    intros [p|] x [_ Hr]; [destruct Hr as (slot & Hin & _); set_solver|done]. }
  apply wp_inv in Hw as (r & y & Er & ->). by rewrite (bind_ret _ _ _ _ _ Er).
Qed.

(** Freeing. When the last slot of a second level comes back, its CNode is deleted and
    its memory returned: these calls are the parameters. *)
Context (seL4_CNode_Delete : Z -> Z -> Z -> M S Z).
Record frees_return : Prop := {
  fr_mspace p n s : wp (allocman_mspace_free A p n) (fun _ _ => True) s;
  fr_utspace cookie bits s : wp (allocman_utspace_free A cookie bits) (fun _ _ => True) s;
  fr_delete cnode index depth s : wp (seL4_CNode_Delete cnode index depth) (fun error _ => error = 0) s }.
Hypothesis HF : frees_return.

Lemma wp_in_env {B} (op : M S B) s c (Q : B -> S * cspace_two_level -> Prop) (P : B -> Prop) :
  wp op (fun b _ => P b) s -> (forall b s', P b -> Q b (s', c)) -> wp (in_env op) Q (s, c).
Proof. intros H HQ. apply wp_zoom. cbn. eapply wp_mono; [exact H|]. intros b s' Hb. by apply HQ. Qed.

(** A second level that is empty goes, and its slot of the first level is free again. *)
Lemma rep_gone c F1 m i x : two_rep c F1 m -> 0 <= i -> (exists F, m !! i = Some F) ->
  same_single c.(first_level) x -> single_rep x (F1 ∪ {[i]}) ->
  two_rep (upd_second_levels (<[Z.to_nat i := None]> c.(second_levels)) (upd_first_level x c)) (F1 ∪ {[i]}) (delete i m).
Proof.
  intros H Hi [F EF] Hsame Hx. pose proof H as [Hb Hf Hra Hl Hla Hnode Hkey]. split; cbn; try done.
  - by destruct Hsame as (-> & _ & -> & _).
  - by rewrite length_insert.
  - intros j nj Ej. apply list_lookup_insert_Some in Ej as [(_ & ? & _)|[Hne Ej]]; [done|].
    destruct (Hnode j nj Ej) as (Fj & EFj & Hj). exists Fj. rewrite lookup_delete_ne by lia. done.
  - intros j Fj Ej. destruct (decide (j = i)) as [-> |Hne]; [by rewrite lookup_delete_eq in Ej|].
    rewrite lookup_delete_ne in Ej by done. destruct (Hkey j Fj Ej) as (Hj & (nj & Enj) & Hout & Hrange).
    split; [done|]. split; [exists nj; rewrite list_lookup_insert_ne by lia; done|]. split; [set_solver|].
    destruct Hsame as (-> & _ & -> & _). done.
Qed.

Lemma wp_destroy_node s c F1 m i n : two_rep c F1 m -> 0 <= i -> c.(second_levels) !! Z.to_nat i = Some (Some n) ->
  wp (_destroy_second_level A seL4_CNode_Delete i)
    (fun _ x => exists y, x.2 = upd_first_level y c /\ same_single c.(first_level) y /\ single_rep y (F1 ∪ {[i]})) (s, c).
Proof.
  intros H Hi E. destruct (tr_node _ _ _ H _ _ E) as (F & EF & _). rewrite Z2Nat.id in EF by done.
  destruct (tr_key _ _ _ H _ _ EF) as (_ & _ & Hout & Hin).
  unfold _destroy_second_level. apply wp_bind, wp_get. cbn [fst snd]. cbv zeta. apply wp_bind. eapply wp_get_node; [done|exact E|].
  apply wp_bind. eapply (wp_in_env _ _ _ _ (fun _ => True)); [apply HF|]. intros _ s1 _.
  assert (forall s, wp (in_env (allocman_mspace_free A n.1 sizeof_two_level_node) ;;;
    let* x := get in on_first (_cspace_single_level_free (_cspace_single_level_make_path x.2.(first_level) i)))
    (fun _ x => exists y, x.2 = upd_first_level y c /\ same_single c.(first_level) y /\ single_rep y (F1 ∪ {[i]})) (s, c)) as Hend.
  { intros s2. apply wp_bind. eapply (wp_in_env _ _ _ _ (fun _ => True)); [apply HF|]. intros _ s3 _.
    apply wp_bind, wp_get. cbn [snd]. apply wp_on_first.
    pose proof (sr_range _ _ (tr_first _ _ _ H)) as Hr.
    eapply wp_mono; [apply (wp_single_free _ F1); [apply H|cbn; unfold is_word; lia|done|done]|].
    intros [] y Hy. exists y. done. }
  apply wp_bind. unfold when. destruct n.2.(cookie_valid); [|apply wp_ret, Hend].
  apply wp_bind. eapply (wp_in_env _ _ _ _ (fun e => e = 0)); [apply HF|]. intros e s2 ->.
  apply wp_bind, wp_assert; [done|]. eapply (wp_in_env _ _ _ _ (fun _ => True)); [apply HF|]. intros _ s3 _. apply Hend.
Qed.

Lemma wp_two_free s c F1 m i F slot p : two_rep c F1 m -> m !! i = Some F -> slot ∉ F ->
  0 <= slot < 2 ^ c.(t_config).(level_two_bits) -> p.(capPtr) = 2 ^ c.(t_config).(level_two_bits) * i + slot ->
  wp (_cspace_two_level_free A seL4_CNode_Delete p) (fun _ x =>
    if decide (Z.of_nat (size F) + 1 = 2 ^ c.(t_config).(level_two_bits)) then two_rep x.2 (F1 ∪ {[i]}) (delete i m)
    else x.1 = s /\ two_rep x.2 F1 (<[i := F ∪ {[slot]}]> m)) (s, c).
Proof.
  intros H EF Hout Hslot Hp. pose proof (tr_bits _ _ _ H) as (Hb & Hc & Hbc).
  destruct (tr_key _ _ _ H _ _ EF) as (Hi & (n & E) & _).
  destruct (tr_node _ _ _ H _ _ E) as (F' & EF' & Hn). rewrite Z2Nat.id, EF in EF' by done. injection EF' as <-.
  pose proof (index_bound _ _ _ _ H Hi ltac:(eauto)) as Hbd.
  destruct (split_slot c.(t_config).(level_two_bits) i slot) as (_ & E2 & E3); [lia|done|done|lia|].
  assert (Z.to_nat i < length c.(second_levels))%nat as Hlt by by eapply lookup_lt_Some.
  unfold _cspace_two_level_free. apply wp_bind, wp_get. cbn [fst snd]. cbv zeta. rewrite Hp, E2, E3.
  apply wp_bind. eapply wp_get_node; [done|exact E|]. apply wp_bind. eapply wp_on_second; [done|exact E|].
  eapply wp_mono; [apply (wp_single_free _ F); [apply Hn|cbn; unfold is_word; nia|done|cbn]|].
  { rewrite (nr_config _ _ _ Hn). cbn. rewrite (nr_length _ _ _ Hn). lia. }
  intros _ x [Hsame Hx]. cbn [capPtr _cspace_single_level_make_path] in Hx.
  pose proof (node_give _ _ _ _ _ Hb Hn Hout Hslot Hsame Hx) as Hn'.
  apply wp_bind. eapply wp_mod_node; [done|by apply list_lookup_insert_eq|].
  cbn [fst snd second_levels upd_second_levels]. rewrite list_insert_insert_eq. cbn [count upd_second_level].
  set (n' := upd_count (n.2.(count) -w 1) (upd_second_level x n.2)) in *.
  pose proof (two_rep_node c F1 m i n (n.1, n') _ H Hi E Hn') as H2.
  set (c2 := upd_second_levels _ c) in *.
  apply wp_bind. eapply wp_get_node; [done|by apply list_lookup_insert_eq|].
  pose proof (nr_count _ _ _ Hn') as Hcount. rewrite size_with in Hcount by done. cbn [snd]. rewrite Hcount.
  destruct (Z.eqb_spec (2 ^ c.(t_config).(level_two_bits) - (Z.of_nat (size F) + 1)) 0) as [E0|E0]; unfold when.
  - apply wp_bind. eapply wp_mono; [apply (wp_destroy_node _ _ F1 _ i (n.1, n') H2 Hi); by apply list_lookup_insert_eq|].
    intros _ [s' c'] (y & Ey & Hsy & Hy). cbn [snd] in Ey. subst c'.
    eapply wp_set_second; [done|by apply list_lookup_insert_eq|]. rewrite decide_True by lia. cbn [snd].
    rewrite <- (delete_insert_eq m i (F ∪ {[slot]})).
    apply (rep_gone c2 F1 _ i y H2 Hi); [|done|done]. exists (F ∪ {[slot]}). by rewrite lookup_insert_eq.
  - apply wp_ret. rewrite decide_False by lia. done.
Qed.
End two_level.


(** A new structure without CNodes that exist already *)
Lemma two_level_create {S} (A : allocman_ops S) seL4_CNode_Delete uninit config s p1 s1 p2 s2 :
  5 <= config.(level_two_bits) < 32 -> 0 <= config.(t_cnode_size_bits) ->
  config.(level_two_bits) + config.(t_cnode_size_bits) <= 32 ->
  0 <= config.(t_first_slot) -> config.(t_first_slot) + 32 <= config.(t_end_slot) <= 2 ^ config.(t_cnode_size_bits) ->
  config.(start_existing_index) = config.(end_existing_index) -> config.(start_existing_slot) = config.(end_existing_slot) ->
  allocman_mspace_alloc A (4 * 2 ^ config.(t_cnode_size_bits)) s = Ret (p1, 0) s1 ->
  allocman_mspace_alloc A (4 * ((config.(t_end_slot) - config.(t_first_slot) + 31) / 32)) s1 = Ret (p2, 0) s2 ->
  exists c, cspace_two_level_create A seL4_CNode_Delete uninit config s = Ret (inr c) s2 /\ c.(t_config) = config /\ c.(last_second_level) = 0 /\
    two_rep c (list_to_set (seqZ config.(t_first_slot) (32 * ((config.(t_end_slot) - config.(t_first_slot)) / 32)))) ∅.
Proof.
  intros Hb Hc Hbc H0 [H1 H2'] Hi Hs Ha1 Ha2. unfold cspace_two_level_create. cbv zeta.
  assert (0 < 2 ^ config.(t_cnode_size_bits) <= 2 ^ 27) as Hsz by (split; [lia|apply Z.pow_le_mono_r; lia]).
  assert (config.(t_end_slot) < 2 ^ 32) as H2 by lia.
  assert (4 *w BIT config.(t_cnode_size_bits) = 4 * 2 ^ config.(t_cnode_size_bits)) as ->.
  { rewrite BIT_pow by lia. unfold wmul, wrap. apply Z.mod_small. lia. }
  rewrite (bind_ret _ _ _ _ _ Ha1). cbn [negb Z.eqb].
  set (sc := mk_single_level_config _ _ _ _ _).
  destruct (single_create A sc s1 p2 0 s2) as (r & Hr & c1 & -> & E1 & E2 & E3 & Hrep); [done..|].
  rewrite (bind_ret _ _ _ _ _ Hr). unfold fill_existing. rewrite Hi, Hs, !Z.sub_diag. cbn.
  eexists. split; [reflexivity|]. split; [done|]. split; [done|]. split; cbn; try done.
  - rewrite E1, E3. subst sc. cbn. pose proof (Z.mul_div_le (t_end_slot config - t_first_slot config) 32 ltac:(done)). lia.
  - rewrite length_replicate, BIT_pow by lia. lia.
  - lia.
  - intros i n Hn. by apply lookup_replicate in Hn as [? _].
Qed.


(** Second levels of 32 slots, CNode 0 exists and its slot 0 is in use. *)
Definition demo_two_config : cspace_two_level_config := mk_two_level_config 2 5 22 0 32 5 0 1 0 1.
Definition no_node : cspace_two_level_node := mk_two_level_node 0 demo_single 0 false.
Definition demo_first : cspace_single_level :=
  mk_single_level (mk_single_level_config 2 5 22 0 32) 4224 [wordMax - 1] 1 0.
Definition demo_second : cspace_single_level :=
  mk_single_level (mk_single_level_config 0 5 0 0 32) 4272 [wordMax - 1] 1 0.
Definition demo_two : cspace_two_level :=
  mk_two_level demo_two_config demo_first 4096 (Some (4228, mk_two_level_node 1 demo_second 0 false) :: replicate 31 None) 0.
Definition demo_slots : gset Z := list_to_set (seqZ 0 32) ∖ {[0]}.
Lemma demo_single_rep config p : config.(first_slot) = 0 -> config.(end_slot) = 32 ->
  single_rep (mk_single_level config p [wordMax - 1] 1 0) demo_slots.
Proof.
  intros E0 E1. destruct (single_create demo_ops config p p 0 (p + 4)) as (r & Hr & c & -> & Hc & Hp & Hl & Hrep);
    rewrite ?E0, ?E1; try lia; [reflexivity|].
  pose proof (rep_take c _ 0 0 Hrep) as Ht. rewrite Hl, Hc, E0, E1 in Ht. specialize (Ht ltac:(done) ltac:(done)).
  unfold cspace_single_level_create in Hr. rewrite E0, E1 in Hr. cbn in Hr. injection Hr as <-.
  unfold managed in Ht. rewrite E0, E1 in Ht. exact Ht.
Qed.
Lemma demo_two_rep : two_rep demo_two demo_slots {[0 := demo_slots]}.
Proof.
  split; cbn; try lia; try done.
  - by apply demo_single_rep.
  - intros i n E. destruct i as [|i]; [|by apply (lookup_replicate 31) in E as [? _]]. injection E as <-.
    exists demo_slots. split; [done|]. split; try done. by apply demo_single_rep.
  - intros i F [<- <-]%lookup_singleton_Some. split; [done|]. split; [by eexists|]. split; [unfold demo_slots; set_solver|cbn; lia].
Qed.

(** The structure is what [cspace_two_level_create] builds. *)
Example demo_two_create : cspace_two_level_create demo_ops (fun _ _ _ => ret 0) no_node demo_two_config 4096 = Ret (inr demo_two) 4276.
Proof. vm_compute. reflexivity. Qed.
(** Without a CNode that exists, the first allocation makes a second level and then
    goes on with entry [last_second_level], which is NULL. *)
Example demo_two_fresh :
  match cspace_two_level_create demo_ops (fun _ _ _ => ret 0) no_node (mk_two_level_config 2 5 22 0 32 5 0 0 0 0) 4096 with
  | Ret (inr c) s => match _cspace_two_level_alloc demo_ops no_node (s, c) with Stop Undefined => true | _ => false end
  | _ => false
  end = true.
Proof. vm_compute. reflexivity. Qed.
