(* ===== verification/UtSpace.v ===== *)
(** * Allocators of untyped memory (libs/libsel4allocman/src/utspace)

    twinkle.c carves objects off a list of untypeds, one after the other; split.c
    splits untypeds in halves and merges them again. A structure of C is a record; the
    nodes of split.c are a map from their addresses. The calls of the
    kernel and of the allocation manager are parameters. *)
From stdpp Require Import base list gmap.
From Stdlib Require Import ZArith Lia.
From S2P Require Import Prelude.
From S2P Require Import AllocBase.
From S2P Require Import CspaceAlloc.

(** ** Sizes of objects (libsel4vka/include/vka/object.h, utspace.h) *)
Definition seL4_UntypedObject : Z := 0.
Definition seL4_TCBObject : Z := 1.
Definition seL4_EndpointObject : Z := 2.
Definition seL4_AsyncEndpointObject : Z := 3.
Definition seL4_ARM_SmallPageObject : Z := 5.
Definition seL4_ARM_LargePageObject : Z := 6.
Definition seL4_ARM_SectionObject : Z := 7.
Definition seL4_ARM_SuperSectionObject : Z := 8.
Definition seL4_ARM_PageTableObject : Z := 9.
Definition seL4_ARM_PageDirectoryObject : Z := 10.
Definition seL4_PageBits : Z := 12.
Definition seL4_TCBBits : Z := 9.
Definition seL4_EndpointBits : Z := 4.
Definition seL4_PageTableBits : Z := 10.
Definition seL4_PageDirBits : Z := 14.

Section sizes.
Context {S : Type}.
Definition vka_get_object_size (objectType objectSize : Z) : M S Z :=
  if objectType =? seL4_UntypedObject then ret objectSize
  else if objectType =? seL4_TCBObject then ret seL4_TCBBits
  else if objectType =? seL4_EndpointObject then ret seL4_EndpointBits
  else if objectType =? seL4_AsyncEndpointObject then ret seL4_EndpointBits
  else if objectType =? seL4_CapTableObject then ret (seL4_SlotBits +w objectSize)
  else if objectType =? seL4_ARM_SmallPageObject then ret seL4_PageBits
  else if objectType =? seL4_ARM_LargePageObject then ret 16
  else if objectType =? seL4_ARM_SectionObject then ret 20
  else if objectType =? seL4_ARM_SuperSectionObject then ret 24
  else if objectType =? seL4_ARM_PageTableObject then ret seL4_PageTableBits
  else if objectType =? seL4_ARM_PageDirectoryObject then ret seL4_PageDirBits
  else fail.
Definition get_sel4_object_size (type size_bits : Z) : M S Z :=
  if type =? seL4_CapTableObject then ret (size_bits -w seL4_SlotBits) else vka_get_object_size type size_bits.
End sizes.

(** The calls of the kernel, with their error codes *)
Record sel4_calls (S : Type) := mk_sel4_calls {
  seL4_Untyped_Retype : Z -> Z -> Z -> Z -> Z -> Z -> Z -> Z -> M S Z;
  seL4_CNode_Delete : Z -> Z -> Z -> M S Z }.
Arguments seL4_Untyped_Retype {S}. Arguments seL4_CNode_Delete {S}.

(** ** twinkle.c *)
Record utspace_twinkle_ut := mk_twinkle_ut { tw_path : cspacepath_t; tw_offset : Z; tw_size_bits : Z }.
(** [uts] is the address of the array and its entries. *)
Record utspace_twinkle := mk_twinkle { num_uts : Z; uts_ptr : Z; uts : list utspace_twinkle_ut }.

Definition _round_up (v bits : Z) : Z :=
  let mask := MASK bits in
  if negb (v &w mask =? 0) then (v &w wnot mask) +w BIT bits else v.
Definition utspace_twinkle_create : utspace_twinkle := mk_twinkle 0 NULL [].
Definition sizeof_twinkle_ut : Z := 36.

Section twinkle.
Context {S : Type} (A : allocman_ops S) (K : sel4_calls S).
Abbreviation T := (M (S * utspace_twinkle)).
Definition twinkle_env {B} (m : M S B) : T B := zoom fst (fun s x => (s, x.2)) m.
Definition put_twinkle (t : utspace_twinkle) : T unit := modify (fun x => (x.1, t)).

(** The physical addresses are not used. *)
Definition _utspace_twinkle_add_uts (new : list (cspacepath_t * Z)) : T Z :=
  let* x := get in
  let t := x.2 in
  let num := Z.of_nat (length new) in
  let* r := twinkle_env (allocman_mspace_alloc A (sizeof_twinkle_ut *w (num +w t.(num_uts)))) in
  let '(new_uts, error) := r in
  if negb (error =? 0) then ret error
  else
    when (negb (t.(uts_ptr) =? NULL))
      (twinkle_env (allocman_mspace_free A t.(uts_ptr) (sizeof_twinkle_ut *w t.(num_uts)))) ;;;
    let added := (fun u => mk_twinkle_ut u.1 0 u.2) <$> new in
    put_twinkle (mk_twinkle (t.(num_uts) +w num) new_uts
      ((if t.(uts_ptr) =? NULL then [] else take (Z.to_nat t.(num_uts)) t.(uts)) ++ added)) ;;;
    ret 0.

(** [uts[i]] *)
Definition get_ut (t : utspace_twinkle) (i : Z) : T utspace_twinkle_ut :=
  of_option (if i <? 0 then None else t.(uts) !! Z.to_nat i).
Definition ut_fits (size_bits : Z) (u : utspace_twinkle_ut) : bool :=
  _round_up u.(tw_offset) size_bits +w BIT size_bits <=? BIT u.(tw_size_bits).
Definition ut_waste (size_bits : Z) (u : utspace_twinkle_ut) : Z := _round_up u.(tw_offset) size_bits -w u.(tw_offset).

Fixpoint first_fit (t : utspace_twinkle) (size_bits : Z) (fuel : nat) (i : Z) : T Z :=
  match fuel with
  | O => ret i
  | Datatypes.S fuel' =>
      let* u := get_ut t i in
      if ut_fits size_bits u then ret i else first_fit t size_bits fuel' (i + 1)
  end.
Fixpoint least_waste (t : utspace_twinkle) (size_bits : Z) (fuel : nat) (i j : Z) : T Z :=
  match fuel with
  | O => ret i
  | Datatypes.S fuel' =>
      let* ui := get_ut t i in
      let* uj := get_ut t j in
      if ui.(tw_size_bits) =? uj.(tw_size_bits) then
        least_waste t size_bits fuel'
          (if ut_fits size_bits uj && (ut_waste size_bits uj <? ut_waste size_bits ui) then j else i) (j + 1)
      else ret i
  end.

(** The cookie and the error code *)
Definition _utspace_twinkle_alloc (size_bits type : Z) (slot : cspacepath_t) : T (Z * Z) :=
  let* sel4_size_bits := get_sel4_object_size type size_bits in
  let* size := vka_get_object_size type sel4_size_bits in
  if negb (size_bits =? size) || (size_bits =? 0) then ret (0, 1)
  else
    let* x := get in
    let t := x.2 in
    let* i := first_fit t size_bits (Z.to_nat t.(num_uts)) 0 in
    if i =? t.(num_uts) then ret (0, 1)
    else
      let* i := least_waste t size_bits (Z.to_nat (t.(num_uts) - i)) i i in
      let* u := get_ut t i in
      let* sel4_error := twinkle_env (seL4_Untyped_Retype K u.(tw_path).(capPtr) type sel4_size_bits
        slot.(root) slot.(dest) slot.(destDepth) slot.(offset) 1) in
      if negb (sel4_error =? 0) then ret (0, 1)
      else
        put_twinkle (mk_twinkle t.(num_uts) t.(uts_ptr) (<[Z.to_nat i :=
          mk_twinkle_ut u.(tw_path) (_round_up u.(tw_offset) size_bits +w BIT size_bits) u.(tw_size_bits)]> t.(uts))) ;;;
        ret (0, 0).
Definition _utspace_twinkle_free (size_bits cookie : Z) : T unit := ret tt.
End twinkle.

(** ** split.c *)
Record utspace_split_node := mk_split_node {
  ut : cspacepath_t; parent : Z; sibling : Z; allocated : Z; n_paddr : Z; n_next : Z; n_prev : Z }.
Record utspace_split := mk_split { nodes : gmap Z utspace_split_node; heads : list Z }.
Definition upd_nodes (v : gmap Z utspace_split_node) (x : utspace_split) : utspace_split := mk_split v x.(heads).
Definition upd_heads (v : list Z) (x : utspace_split) : utspace_split := mk_split x.(nodes) v.
Definition upd_ut (v : cspacepath_t) (n : utspace_split_node) : utspace_split_node :=
  mk_split_node v n.(parent) n.(sibling) n.(allocated) n.(n_paddr) n.(n_next) n.(n_prev).
Definition upd_parent (v : Z) (n : utspace_split_node) : utspace_split_node :=
  mk_split_node n.(ut) v n.(sibling) n.(allocated) n.(n_paddr) n.(n_next) n.(n_prev).
Definition upd_sibling (v : Z) (n : utspace_split_node) : utspace_split_node :=
  mk_split_node n.(ut) n.(parent) v n.(allocated) n.(n_paddr) n.(n_next) n.(n_prev).
Definition upd_allocated (v : Z) (n : utspace_split_node) : utspace_split_node :=
  mk_split_node n.(ut) n.(parent) n.(sibling) v n.(n_paddr) n.(n_next) n.(n_prev).
Definition upd_paddr (v : Z) (n : utspace_split_node) : utspace_split_node :=
  mk_split_node n.(ut) n.(parent) n.(sibling) n.(allocated) v n.(n_next) n.(n_prev).
Definition upd_next (v : Z) (n : utspace_split_node) : utspace_split_node :=
  mk_split_node n.(ut) n.(parent) n.(sibling) n.(allocated) n.(n_paddr) v n.(n_prev).
Definition upd_prev (v : Z) (n : utspace_split_node) : utspace_split_node :=
  mk_split_node n.(ut) n.(parent) n.(sibling) n.(allocated) n.(n_paddr) n.(n_next) v.

(** sizeof( *node) *)
Definition sizeof_split_node : Z := 52.

Section split.
Context {S : Type} (A : allocman_ops S) (K : sel4_calls S).
(** What the memory of a new node holds *)
Context (uninit : utspace_split_node).
Abbreviation T := (M (S * utspace_split)).
Definition split_env {B} (m : M S B) : T B := zoom fst (fun s x => (s, x.2)) m.
Definition get_split_node (p : Z) : T utspace_split_node := fun x => of_option (x.2.(nodes) !! p) x.
Definition mod_split_node (p : Z) (f : utspace_split_node -> utspace_split_node) : T unit :=
  let* n := get_split_node p in
  modify (fun x => (x.1, upd_nodes (<[p := f n]> x.2.(nodes)) x.2)).
Definition get_head (k : Z) : T Z := fun x => of_option (if k <? 0 then None else x.2.(heads) !! Z.to_nat k) x.
Definition set_head (k v : Z) : T unit :=
  get_head k ;;; modify (fun x => (x.1, upd_heads (<[Z.to_nat k := v]> x.2.(heads)) x.2)).

(** [head] is the entry [k] of the heads. *)
Definition _remove_node (k node : Z) : T unit :=
  let* n := get_split_node node in
  (if negb (n.(n_prev) =? NULL) then mod_split_node n.(n_prev) (upd_next n.(n_next)) else set_head k n.(n_next)) ;;;
  let* n := get_split_node node in
  when (negb (n.(n_next) =? NULL)) (mod_split_node n.(n_next) (upd_prev n.(n_prev))) ;;;
  mod_split_node node (upd_allocated 1).

Definition _insert_node (k node : Z) : T unit :=
  let* head := get_head k in
  mod_split_node node (upd_next head) ;;;
  mod_split_node node (upd_prev NULL) ;;;
  when (negb (head =? NULL)) (mod_split_node head (upd_prev node)) ;;;
  set_head k node ;;;
  mod_split_node node (upd_allocated 0).

(** The memory of a node comes and goes. *)
Definition alloc_split_node : T Z :=
  let* r := split_env (allocman_mspace_alloc A sizeof_split_node) in
  let '(node, error) := r in
  if negb (error =? 0) then ret NULL
  else
    modify (fun x => (x.1, upd_nodes (<[node := uninit]> x.2.(nodes)) x.2)) ;;;
    ret node.
Definition free_split_node (node : Z) : T unit :=
  modify (fun x => (x.1, upd_nodes (delete node x.2.(nodes)) x.2)) ;;;
  split_env (allocman_mspace_free A node sizeof_split_node).

Definition vka_cnode_delete (path : cspacepath_t) : M S Z :=
  seL4_CNode_Delete K path.(root) path.(capPtr) path.(capDepth).

Definition _new_node : T Z :=
  let* node := alloc_split_node in
  if node =? NULL then ret NULL
  else
    let* r := split_env (allocman_cspace_alloc A) in
    let '(error, path) := r in
    if negb (error =? 0) then
      free_split_node node ;;;
      ret NULL
    else
      mod_split_node node (upd_ut path) ;;;
      ret node.

Definition _delete_node (node : Z) : T unit :=
  let* n := get_split_node node in
  split_env (vka_cnode_delete n.(ut)) ;;;
  split_env (allocman_cspace_free A n.(ut)) ;;;
  free_split_node node.

Definition _insert_new_node (k : Z) (path : cspacepath_t) (paddr : Z) : T Z :=
  let* node := alloc_split_node in
  if node =? NULL then ret 1
  else
    mod_split_node node (upd_parent NULL) ;;;
    mod_split_node node (upd_ut path) ;;;
    mod_split_node node (upd_paddr paddr) ;;;
    _insert_node k node ;;;
    ret 0.

Definition utspace_split_create : utspace_split := mk_split ∅ (replicate 32 NULL).

(** [paddr] is NULL or has an entry for each untyped. *)
Fixpoint _utspace_split_add_uts (uts : list (cspacepath_t * Z)) (paddr : option (list Z)) : T Z :=
  match uts with
  | [] => ret 0
  | (path, size_bits) :: uts' =>
      let* p := match paddr with None => ret 0 | Some (a :: _) => ret a | Some [] => halt_with Undefined end in
      let* error := _insert_new_node size_bits path p in
      if negb (error =? 0) then ret error else _utspace_split_add_uts uts' (tail <$> paddr)
  end.

(** The first half and the second half are retyped to the two children. *)
Definition retype_child (node child : utspace_split_node) (size_bits : Z) : M S Z :=
  seL4_Untyped_Retype K node.(ut).(capPtr) seL4_UntypedObject size_bits
    child.(ut).(root) child.(ut).(dest) child.(ut).(destDepth) child.(ut).(offset) 1.

(** Parent, sibling and physical address of the children *)
Definition link_children (size_bits node node_l node_r : Z) : T unit :=
  mod_split_node node_r (upd_parent node) ;;;
  mod_split_node node_l (upd_parent node) ;;;
  mod_split_node node_l (upd_sibling node_r) ;;;
  mod_split_node node_r (upd_sibling node_l) ;;;
  let* n := get_split_node node in
  if negb (n.(n_paddr) =? 0) then
    mod_split_node node_l (upd_paddr n.(n_paddr)) ;;;
    mod_split_node node_r (upd_paddr (n.(n_paddr) +w BIT size_bits))
  else
    mod_split_node node_r (upd_paddr 0) ;;;
    mod_split_node node_l (upd_paddr 0).

Definition split_node (size_bits node node_l node_r : Z) : T Z :=
  let* n := get_split_node node in
  let* l := get_split_node node_l in
  let* sel4_error := split_env (retype_child n l size_bits) in
  if negb (sel4_error =? 0) then
    _delete_node node_l ;;;
    _delete_node node_r ;;;
    ret 1
  else
    let* r := get_split_node node_r in
    let* sel4_error := split_env (retype_child n r size_bits) in
    if negb (sel4_error =? 0) then
      split_env (vka_cnode_delete l.(ut)) ;;;
      _delete_node node_l ;;;
      _delete_node node_r ;;;
      ret 1
    else
      _remove_node (size_bits +w 1) node ;;;
      link_children size_bits node node_l node_r ;;;
      _insert_node size_bits node_r ;;;
      _insert_node size_bits node_l ;;;
      ret 0.

Fixpoint _refill_pool (fuel : nat) (size_bits : Z) : T Z :=
  match fuel with
  | O => halt_with NoFuel
  | Datatypes.S fuel' =>
      let* head := get_head size_bits in
      if negb (head =? NULL) then ret 0
      else if size_bits >=? 30 then ret 1
      else
        let* error := _refill_pool fuel' (size_bits +w 1) in
        if negb (error =? 0) then ret 1
        else
          let* node := get_head (size_bits +w 1) in
          let* node_l := _new_node in
          if node_l =? NULL then ret 1
          else
            let* node_r := _new_node in
            if node_r =? NULL then
              _delete_node node_l ;;;
              ret 1
            else split_node size_bits node node_l node_r
  end.
(** There are 32 sizes. *)
Definition split_fuel : nat := 32.

(** The cookie and the error code *)
Definition _utspace_split_alloc (size_bits type : Z) (slot : cspacepath_t) : T (Z * Z) :=
  let* sel4_size_bits := get_sel4_object_size type size_bits in
  let* size := vka_get_object_size type sel4_size_bits in
  if negb (size_bits =? size) || (size_bits =? 0) then ret (0, 1)
  else
    let* error := _refill_pool split_fuel size_bits in
    if negb (error =? 0) then ret (0, 1)
    else
      let* node := get_head size_bits in
      let* n := get_split_node node in
      let* sel4_error := split_env (seL4_Untyped_Retype K n.(ut).(capPtr) type sel4_size_bits
        slot.(root) slot.(dest) slot.(destDepth) slot.(offset) 1) in
      if negb (sel4_error =? 0) then ret (0, 1)
      else
        _remove_node size_bits node ;;;
        ret (node, 0).

Fixpoint split_free (fuel : nat) (cookie size_bits : Z) : T unit :=
  match fuel with
  | O => halt_with NoFuel
  | Datatypes.S fuel' =>
      let node := cookie in
      let* n := get_split_node node in
      let parent := n.(parent) in
      let* merge :=
        (if parent =? NULL then ret false
         else let* s := get_split_node n.(sibling) in ret (s.(allocated) =? 0)) in
      if merge then
        _remove_node size_bits n.(sibling) ;;;
        let* n := get_split_node node in
        _delete_node n.(sibling) ;;;
        _delete_node node ;;;
        split_free fuel' parent (size_bits +w 1)
      else _insert_node size_bits node
  end.
Definition _utspace_split_free (cookie size_bits : Z) : T unit := split_free split_fuel cookie size_bits.

Definition _utspace_split_paddr (cookie size_bits : Z) : T Z :=
  let* n := get_split_node cookie in ret n.(n_paddr).
End split.
