(* ===== verification/UtLists.v ===== *)
(** * The free lists of the splitting allocator

    Intrusive doubly linked lists, one for each size: taking a node out and putting it
    in front. *)
From stdpp Require Import base list gmap.
From Stdlib Require Import ZArith Lia.
From S2P Require Import Prelude.
From S2P Require Import AllocBase.
From S2P Require Import DList.
From S2P Require Import CspaceAlloc.
From S2P Require Import UtSpace.


(** ** The heap of nodes

    [cores] is the heap without the links: what the lists do not touch. *)
Definition slinks (m : gmap Z utspace_split_node) : links := links_of n_prev n_next m.
Definition core (n : utspace_split_node) : utspace_split_node := upd_next 0 (upd_prev 0 n).
Definition cores (m : gmap Z utspace_split_node) : gmap Z utspace_split_node := core <$> m.

Lemma cores_alter f g p m : (forall n, core (f n) = g (core n)) -> cores (alter f p m) = alter g p (cores m).
Proof.
  intros H. unfold cores. apply map_eq. intros q. rewrite lookup_fmap, !lookup_alter_at, lookup_fmap.
  case_decide; [|done]. subst. destruct (m !! q); cbn; [by rewrite H|done].
Qed.
Lemma cores_links f p m : (forall n, core (f n) = core n) -> cores (alter f p m) = cores m.
Proof. intros H. rewrite (cores_alter f id) by done. apply map_eq. intros q. rewrite lookup_alter_at, option_fmap_id. by case_decide. Qed.
Lemma cores_lookup m p c : cores m !! p = Some c -> exists n, m !! p = Some n /\ c = core n.
Proof. unfold cores. rewrite lookup_fmap. destruct (m !! p); cbn; intros [= <-]. by eexists. Qed.
Lemma cores_dom m : dom (cores m) = dom m.
Proof. apply dom_fmap_L. Qed.

(** ** The free lists *)
Definition with_list (L : Z -> list Z) (k : Z) (l : list Z) : Z -> list Z := fun j => if j =? k then l else L j.
Record lists_ok (x : utspace_split) (L : Z -> list Z) : Prop := {
  lo_null : x.(nodes) !! NULL = None;
  lo_length : length x.(heads) = 32%nat;
  lo_seg : forall k, 0 <= k < 32 -> x.(heads) !! Z.to_nat k = Some (hd NULL (L k)) /\ dseg (slinks x.(nodes)) NULL (L k) NULL;
  lo_disjoint : forall j k p, p ∈ L j -> p ∈ L k -> j = k;
  lo_range : forall k p, p ∈ L k -> 0 <= k < 32 }.

Section lists.
Context {S : Type}.
Implicit Types (s : S) (x : utspace_split) (L : Z -> list Z).

Lemma list_node x L k p : lists_ok x L -> p ∈ L k -> p <> NULL /\ is_Some (x.(nodes) !! p).
Proof.
  intros H Hp. destruct (lo_seg _ _ H k (lo_range _ _ H _ _ Hp)) as [_ Hs].
  destruct (dseg_in _ _ _ _ _ Hs Hp) as [? Hl]. split; [done|]. unfold slinks in Hl. by rewrite links_of_is_Some in Hl.
Qed.

(** Reads and writes of the heap *)
Lemma wp_get_split_node p n x s (Q : _ -> S * utspace_split -> Prop) :
  x.(nodes) !! p = Some n -> Q n (s, x) -> wp (get_split_node p) Q (s, x).
Proof. intros E HQ. unfold wp, get_split_node. cbn. by rewrite E. Qed.
Lemma wp_mod_split_node p f x s (Q : _ -> S * utspace_split -> Prop) :
  is_Some (x.(nodes) !! p) -> Q tt (s, upd_nodes (alter f p x.(nodes)) x) -> wp (mod_split_node p f) Q (s, x).
Proof.
  intros [n E] HQ. unfold mod_split_node. apply wp_bind. eapply wp_get_split_node; [done|]. apply wp_modify. cbn.
  by erewrite insert_alter.
Qed.
Lemma wp_get_head k h x s (Q : _ -> S * utspace_split -> Prop) :
  0 <= k -> x.(heads) !! Z.to_nat k = Some h -> Q h (s, x) -> wp (get_head k) Q (s, x).
Proof. intros Hk E HQ. unfold wp, get_head. rewrite (proj2 (Z.ltb_ge k 0)) by lia. cbn. by rewrite E. Qed.
Lemma wp_set_head k h v x s (Q : _ -> S * utspace_split -> Prop) :
  0 <= k -> x.(heads) !! Z.to_nat k = Some h -> Q tt (s, upd_heads (<[Z.to_nat k := v]> x.(heads)) x) ->
  wp (set_head k v) Q (s, x).
Proof. intros Hk E HQ. unfold set_head. apply wp_bind. by eapply wp_get_head. Qed.

(** A write to a field of the core *)
Lemma lists_core x L f p : lists_ok x L -> (forall n, n_prev (f n) = n_prev n) -> (forall n, n_next (f n) = n_next n) ->
  lists_ok (upd_nodes (alter f p x.(nodes)) x) L.
Proof.
  intros H H1 H2. destruct H as [Hn Hl Hs Hd Hr]. split; cbn; try done.
  - by rewrite lookup_alter_at, Hn; case_decide.
  - intros k Hk. destruct (Hs k Hk) as [Hh Hseg]. split; [done|]. eapply dseg_ext; [|exact Hseg].
    intros q _. by apply links_of_same.
Qed.

(** The heads after one of them changes *)
Lemma heads_with x k v j h : length x.(heads) = 32%nat -> 0 <= k < 32 -> 0 <= j < 32 ->
  (j <> k -> x.(heads) !! Z.to_nat j = Some h) -> (j = k -> v = h) ->
  <[Z.to_nat k := v]> x.(heads) !! Z.to_nat j = Some h.
Proof.
  intros Hl Hk Hj Hne Heq. destruct (decide (j = k)) as [->|Hn].
  - rewrite list_lookup_insert_eq by lia. by rewrite Heq.
  - rewrite list_lookup_insert_ne by lia. by apply Hne.
Qed.

(** The nodes after [node] leaves its list *)
Definition without (p : Z) (n : utspace_split_node) (m : gmap Z utspace_split_node) : gmap Z utspace_split_node :=
  alter (upd_allocated 1) p (alter (upd_prev n.(n_prev)) n.(n_next) (alter (upd_next n.(n_next)) n.(n_prev) m)).

Lemma slinks_without p n m q :
  slinks (without p n m) q = link n.(n_prev) n.(n_next) (slinks m) q.
Proof.
  unfold slinks, without. rewrite links_of_same by done.
  rewrite (links_of_prev n_prev n_next _ n.(n_prev)) by done.
  rewrite (links_of_next n_prev n_next _ n.(n_next)) by done.
  unfold link. destruct (links_of n_prev n_next m q) as [[u v]|]; done.
Qed.
Lemma cores_without p n m : cores (without p n m) = alter (upd_allocated 1) p (cores m).
Proof. unfold without. rewrite (cores_alter _ (upd_allocated 1)) by done. by rewrite !cores_links. Qed.

Lemma lists_remove x L k l1 p l2 n : lists_ok x L -> L k = l1 ++ p :: l2 -> x.(nodes) !! p = Some n ->
  n.(n_prev) = lastd NULL l1 /\ n.(n_next) = hd NULL l2 /\
  lists_ok (mk_split (without p n x.(nodes))
    (if n.(n_prev) =? NULL then <[Z.to_nat k := n.(n_next)]> x.(heads) else x.(heads))) (with_list L k (l1 ++ l2)).
Proof.
  intros H EL En. assert (p ∈ L k) as Hp by (rewrite EL; set_solver).
  pose proof (lo_range _ _ H _ _ Hp) as Hk. destruct (lo_seg _ _ H k Hk) as [Hh Hs]. rewrite EL in Hs, Hh.
  pose proof Hs as (Hs1 & Hp0 & Hpl & Hs2)%dseg_app. unfold slinks, links_of in Hpl. rewrite En in Hpl. cbn in Hpl.
  injection Hpl as Eprev Enext. split; [done|]. split; [done|].
  assert (forall j q, j <> k -> q ∈ L j -> q <> n.(n_prev) /\ q <> n.(n_next)) as Hother.
  { intros j q Hj Hq. destruct (list_node _ _ _ _ H Hq) as [Hq0 _]. rewrite Eprev, Enext.
    assert (forall y, y ∈ L k -> q <> y) as Hy by (intros y Hy ->; apply Hj; by eapply lo_disjoint).
    split.
    - destruct (decide (l1 = [])) as [->|Hl]; [done|]. apply Hy. rewrite EL. apply elem_of_app. left. by apply lastd_in.
    - destruct l2; [done|]. apply Hy. rewrite EL. set_solver. }
  split; cbn.
  - unfold without. rewrite !lookup_alter_at, (lo_null _ _ H). by repeat case_decide.
  - case_match; rewrite ?length_insert; by apply H.
  - intros j Hj. unfold with_list. destruct (Z.eqb_spec j k) as [->|Hjk].
    + split.
      * rewrite Eprev, Enext. destruct l1 as [|a l1].
        -- cbn. by rewrite list_lookup_insert_eq by (rewrite (lo_length _ _ H); lia).
        -- rewrite (proj2 (Z.eqb_neq _ _)); [done|]. intros E0.
           pose proof (dseg_null_last _ _ _ _ Hs1) as Hx. specialize (Hx E0). done.
      * eapply dseg_ext; [intros q _; apply slinks_without|]. rewrite Eprev, Enext. eapply dlist_remove. exact Hs.
    + destruct (lo_seg _ _ H j Hj) as [Hhj Hsj]. split.
      * case_match; [|done]. by rewrite list_lookup_insert_ne by lia.
      * eapply dseg_ext; [|exact Hsj]. intros q Hq. rewrite slinks_without. by apply link_other; eapply Hother.
  - intros i j q. unfold with_list. 
    destruct (Z.eqb_spec i k) as [->|], (Z.eqb_spec j k) as [->|]; try done; intros Hi Hj;
      try (by eapply (lo_disjoint _ _ H); [exact Hi|exact Hj]).
    + symmetry. eapply (lo_disjoint _ _ H); [exact Hj|]. rewrite EL. set_solver.
    + eapply (lo_disjoint _ _ H); [exact Hi|]. rewrite EL. set_solver.
  - intros j q. unfold with_list. destruct (Z.eqb_spec j k) as [->|]; [done|apply H].
Qed.

Lemma wp_remove_node s x L k l1 p l2 : lists_ok x L -> L k = l1 ++ p :: l2 ->
  wp (_remove_node k p) (fun _ y => y.1 = s /\ lists_ok y.2 (with_list L k (l1 ++ l2)) /\
    cores y.2.(nodes) = alter (upd_allocated 1) p (cores x.(nodes))) (s, x).
Proof.
  intros H EL. assert (p ∈ L k) as Hp by (rewrite EL; set_solver).
  pose proof (lo_range _ _ H _ _ Hp) as Hk. destruct (list_node _ _ _ _ H Hp) as [Hp0 [n En]].
  destruct (lists_remove _ _ _ _ _ _ _ H EL En) as (Eprev & Enext & Hok).
  destruct (lo_seg _ _ H k Hk) as [Hh Hs]. rewrite EL in Hs. pose proof (dseg_NoDup _ _ _ Hs) as Hnd.
  assert ((p ∉ l1) /\ p ∉ l2) as [Hp1 Hp2].
  { apply NoDup_app in Hnd as (_ & Hd & Hnd2). apply NoDup_cons in Hnd2 as [? _]. split; [|done].
    intros Hin. apply (Hd p Hin). set_solver. }
  assert (forall q, q ∈ L k -> is_Some (x.(nodes) !! q)) as Hin by (intros q Hq; by eapply list_node).
  assert (n.(n_prev) <> NULL -> is_Some (x.(nodes) !! n.(n_prev))) as Hprev.
  { intros Hn. rewrite Eprev in *. apply Hin. rewrite EL. apply elem_of_app. left. apply lastd_in. by intros ->. }
  assert (n.(n_next) <> NULL -> is_Some (x.(nodes) !! n.(n_next))) as Hnext.
  { intros Hn. rewrite Enext in *. apply Hin. rewrite EL. destruct l2; [done|]. set_solver. }
  assert (n.(n_prev) <> p) as Hne by (rewrite Eprev; by apply lastd_ne).
  unfold _remove_node. apply wp_bind. eapply wp_get_split_node; [done|]. apply wp_bind.
  set (h' := if n.(n_prev) =? NULL then <[Z.to_nat k := n.(n_next)]> x.(heads) else x.(heads)) in *.
  assert (wp (if negb (n.(n_prev) =? NULL) then mod_split_node n.(n_prev) (upd_next n.(n_next)) else set_head k n.(n_next))
    (fun _ y => y = (s, mk_split (alter (upd_next n.(n_next)) n.(n_prev) x.(nodes)) h')) (s, x)) as W.
  { unfold h'. destruct (Z.eqb_spec n.(n_prev) NULL) as [E|E]; cbn [negb].
    - eapply wp_set_head; [lia|exact Hh|]. rewrite E, alter_None; [done|]. apply H.
    - apply wp_mod_split_node; [by apply Hprev|done]. }
  eapply wp_mono; [exact W|]. intros _ ? ->. clear W. set (m1 := alter (upd_next n.(n_next)) n.(n_prev) x.(nodes)).
  assert (m1 !! p = Some n) as En1 by (unfold m1; by rewrite lookup_alter_ne by done).
  apply wp_bind. eapply wp_get_split_node; [exact En1|]. apply wp_bind.
  assert (wp (when (negb (n.(n_next) =? NULL)) (mod_split_node n.(n_next) (upd_prev n.(n_prev))))
    (fun _ y => y = (s, mk_split (alter (upd_prev n.(n_prev)) n.(n_next) m1) h')) (s, mk_split m1 h')) as W.
  { unfold when. destruct (Z.eqb_spec n.(n_next) NULL) as [E|E]; cbn [negb].
    - apply wp_ret. rewrite E, alter_None; [done|]. unfold m1. rewrite lookup_alter_at, (lo_null _ _ H). by case_decide.
    - apply wp_mod_split_node; [|done]. cbn. unfold m1. by apply is_Some_alter, Hnext. }
  eapply wp_mono; [exact W|]. intros _ ? ->. clear W.
  apply wp_mod_split_node; [cbn; apply is_Some_alter; rewrite En1; by eexists|]. cbn.
  split; [done|]. split; [exact Hok|]. apply cores_without.
Qed.

(** The nodes after [p] was put before [h] *)
Definition before (p h : Z) (m : gmap Z utspace_split_node) : gmap Z utspace_split_node :=
  alter (upd_allocated 0) p (alter (upd_prev p) h (alter (upd_prev NULL) p (alter (upd_next h) p m))).
Lemma slinks_before p h m q : m !! NULL = None -> slinks (before p h m) q = link p h (link NULL p (slinks m)) q.
Proof.
  intros H0. unfold slinks, before. rewrite links_of_same by done.
  rewrite (links_of_prev n_prev n_next _ p) by done. rewrite (links_of_prev n_prev n_next _ NULL) by done.
  rewrite (links_of_next n_prev n_next _ h) by done. unfold link.
  destruct (links_of n_prev n_next m q) as [[u v]|] eqn:E; [|done]. cbn.
  destruct (Z.eqb_spec q NULL) as [->|]; [|done]. unfold links_of in E. by rewrite H0 in E.
Qed.
Lemma cores_before p h m : cores (before p h m) = alter (upd_allocated 0) p (cores m).
Proof. unfold before. rewrite (cores_alter _ (upd_allocated 0)) by done. by rewrite !cores_links. Qed.

Lemma lists_insert x L k p : lists_ok x L -> 0 <= k < 32 -> is_Some (x.(nodes) !! p) -> (forall j, p ∉ L j) ->
  lists_ok (mk_split (before p (hd NULL (L k)) x.(nodes)) (<[Z.to_nat k := p]> x.(heads))) (with_list L k (p :: L k)).
Proof.
  intros H Hk Hp Hout. pose proof (lo_null _ _ H) as H0.
  assert (p <> NULL) as Hp0 by (intros ->; rewrite H0 in Hp; by destruct Hp).
  destruct (lo_seg _ _ H k Hk) as [Hh Hs]. split; cbn.
  - unfold before. rewrite !lookup_alter_at, H0. by repeat case_decide.
  - rewrite length_insert. apply H.
  - intros j Hj. unfold with_list. destruct (Z.eqb_spec j k) as [->|Hjk].
    + rewrite list_lookup_insert_eq by (rewrite (lo_length _ _ H); lia). split; [done|].
      eapply dseg_ext; [intros q _; by apply slinks_before|].
      apply (dlist_insert _ [] p (L k)); [exact Hs|done|apply Hout|]. unfold slinks. by rewrite links_of_is_Some.
    + destruct (lo_seg _ _ H j Hj) as [Hhj Hsj]. rewrite list_lookup_insert_ne by lia. split; [done|].
      eapply dseg_ext; [|exact Hsj]. intros q Hq. rewrite slinks_before by done.
      destruct (list_node _ _ _ _ H Hq) as [Hq0 _]. assert (q <> p) as Hqp by (intros ->; by apply (Hout j)).
      rewrite link_other; [by apply link_other|done|]. apply not_eq_sym, hd_ne; [done|].
      intros Hin. apply Hjk. by eapply (lo_disjoint _ _ H).
  - intros i j q. unfold with_list. destruct (Z.eqb_spec i k) as [->|], (Z.eqb_spec j k) as [->|]; try done; intros Hi Hj.
    + apply elem_of_cons in Hi as [->|Hi]; [by destruct (Hout j)|]. by eapply (lo_disjoint _ _ H).
    + apply elem_of_cons in Hj as [->|Hj]; [by destruct (Hout i)|]. by eapply (lo_disjoint _ _ H).
    + by eapply (lo_disjoint _ _ H).
  - intros j q. unfold with_list. destruct (Z.eqb_spec j k) as [->|]; [done|apply H].
Qed.

Lemma wp_insert_node s x L k p : lists_ok x L -> 0 <= k < 32 -> is_Some (x.(nodes) !! p) -> (forall j, p ∉ L j) ->
  wp (_insert_node k p) (fun _ y => y.1 = s /\ lists_ok y.2 (with_list L k (p :: L k)) /\
    cores y.2.(nodes) = alter (upd_allocated 0) p (cores x.(nodes))) (s, x).
Proof.
  intros H Hk Hp Hout. destruct (lo_seg _ _ H k Hk) as [Hh Hs]. pose proof (lists_insert _ _ _ _ H Hk Hp Hout) as Hok.
  unfold _insert_node. apply wp_bind. eapply wp_get_head; [lia|exact Hh|]. set (h := hd NULL (L k)) in *.
  apply wp_bind, wp_mod_split_node; [done|]. apply wp_bind, wp_mod_split_node; [cbn; by apply is_Some_alter|]. cbn.
  set (m1 := alter (upd_prev NULL) p (alter (upd_next h) p x.(nodes))). apply wp_bind.
  assert (wp (when (negb (h =? NULL)) (mod_split_node h (upd_prev p)))
    (fun _ y => y = (s, mk_split (alter (upd_prev p) h m1) x.(heads))) (s, mk_split m1 x.(heads))) as W.
  { unfold when. destruct (Z.eqb_spec h NULL) as [E|E]; cbn [negb].
    - apply wp_ret. rewrite E, alter_None; [done|]. unfold m1. rewrite !lookup_alter_at, (lo_null _ _ H). by repeat case_decide.
    - apply wp_mod_split_node; [|done]. cbn. unfold m1. rewrite !is_Some_alter. unfold h in *.
      destruct (L k) as [|a l] eqn:EL; [done|]. eapply (list_node x L k); [done|]. rewrite EL. set_solver. }
  eapply wp_mono; [exact W|]. intros _ ? ->. clear W. apply wp_bind. eapply wp_set_head; [lia|exact Hh|].
  apply wp_mod_split_node; [cbn; unfold m1; by rewrite !is_Some_alter|]. cbn.
  split; [done|]. split; [exact Hok|]. apply cores_before.
Qed.

(** A node that is in no list comes or goes. *)
Lemma lists_new x L p n : lists_ok x L -> p <> NULL -> (forall j, p ∉ L j) -> lists_ok (upd_nodes (<[p := n]> x.(nodes)) x) L.
Proof.
  intros H Hp Hout. destruct H as [Hn Hl Hs Hd Hr]. split; cbn; try done.
  - by rewrite lookup_insert_ne.
  - intros k Hk. destruct (Hs k Hk) as [Hh Hseg]. split; [done|]. eapply dseg_ext; [|exact Hseg].
    intros q Hq. unfold slinks, links_of. rewrite lookup_insert_ne; [done|]. intros ->. by apply (Hout k).
Qed.
Lemma lists_gone x L p : lists_ok x L -> (forall j, p ∉ L j) -> lists_ok (upd_nodes (delete p x.(nodes)) x) L.
Proof.
  intros H Hout. destruct H as [Hn Hl Hs Hd Hr]. split; cbn; try done.
  - rewrite lookup_delete. by case_decide.
  - intros k Hk. destruct (Hs k Hk) as [Hh Hseg]. split; [done|]. eapply dseg_ext; [|exact Hseg].
    intros q Hq. unfold slinks, links_of. rewrite lookup_delete_ne; [done|]. intros ->. by apply (Hout k).
Qed.
Lemma lists_create : lists_ok utspace_split_create (fun _ => []).
Proof.
  split; cbn; try done; try set_solver. intros k Hk. split; [|done]. apply (lookup_replicate_2 32). lia.
Qed.
End lists.
