(* ===== verification/UtTree.v ===== *)
(** * The blocks of the splitting allocator

    What the nodes stand for, as a forest of halves: well-formedness, and how it changes when
    a block is taken, given back, split or merged. *)
From stdpp Require Import base list gmap.
From Stdlib Require Import ZArith Lia.
From S2P Require Import Prelude.
From S2P Require Import Words.
From S2P Require Import AllocBase.
From S2P Require Import DList.
From S2P Require Import UtSpace.


(** ** Blocks

    What a node stands for: a power of two of bytes at an offset of the untyped it was
    split from ([b_root] is the node of that one), which is free, in use, or split into two nodes. *)
Inductive status := Free | Used | Split (l r : Z).
Record block := mk_block { b_bits : Z; b_root : Z; b_off : Z; b_st : status }.
Definition set_st (st : status) (b : block) : block := mk_block b.(b_bits) b.(b_root) b.(b_off) st.
Definition leaf (b : block) : Prop := b.(b_st) = Free \/ b.(b_st) = Used.
Definition flag (st : status) : Z := match st with Free => 0 | _ => 1 end.
Definition apart (b c : block) : Prop :=
  b.(b_root) <> c.(b_root) \/ b.(b_off) + 2 ^ b.(b_bits) <= c.(b_off) \/ c.(b_off) + 2 ^ c.(b_bits) <= b.(b_off).

Implicit Types (C : gmap Z utspace_split_node) (G : gmap Z block).

(** A node is a root or one of the two halves of its parent. *)
Definition half_of G (p : Z) (n : utspace_split_node) (b : block) : Prop :=
  exists pb l r, G !! n.(parent) = Some pb /\ pb.(b_bits) = b.(b_bits) + 1 /\ pb.(b_st) = Split l r /\
    pb.(b_root) = b.(b_root) /\ l <> r /\
    ((p = l /\ n.(sibling) = r /\ b.(b_off) = pb.(b_off)) \/
     (p = r /\ n.(sibling) = l /\ b.(b_off) = pb.(b_off) + 2 ^ b.(b_bits))).
(** The physical address, zero for unknown, follows the offset in the root. *)
Definition placed C G (n : utspace_split_node) (b : block) : Prop :=
  exists rb rn, G !! b.(b_root) = Some rb /\ C !! b.(b_root) = Some rn /\ rn.(parent) = NULL /\
    0 <= b.(b_off) /\ b.(b_off) + 2 ^ b.(b_bits) <= 2 ^ rb.(b_bits) /\
    0 <= rn.(n_paddr) /\ rn.(n_paddr) + 2 ^ rb.(b_bits) <= 2 ^ 32 /\
    n.(n_paddr) = (if rn.(n_paddr) =? 0 then 0 else rn.(n_paddr) + b.(b_off)).
Record node_ok C G (p : Z) (n : utspace_split_node) (b : block) : Prop := {
  no_null : p <> NULL;
  no_bits : 0 <= b.(b_bits) < 32;
  no_flag : n.(allocated) = flag b.(b_st);
  no_up : if n.(parent) =? NULL then b.(b_root) = p /\ b.(b_off) = 0 else half_of G p n b;
  no_down : forall l r c, b.(b_st) = Split l r -> c = l \/ c = r ->
    is_Some (G !! c) /\ exists nc, C !! c = Some nc /\ nc.(parent) = p;
  no_placed : placed C G n b }.
Record tree_ok C G : Prop := {
  to_node : forall p b, G !! p = Some b -> exists n, C !! p = Some n /\ node_ok C G p n b;
  to_apart : forall p q b c, p <> q -> G !! p = Some b -> G !! q = Some c -> leaf b -> leaf c -> apart b c;
  (** the leaves cover all the memory *)
  to_cover : forall p b o, G !! p = Some b -> b.(b_root) = p -> 0 <= o < 2 ^ b.(b_bits) ->
    exists q c, G !! q = Some c /\ leaf c /\ c.(b_root) = p /\ c.(b_off) <= o < c.(b_off) + 2 ^ c.(b_bits) }.

Section tree.
(** Nodes that are not blocks do not matter. *)
Lemma tree_frame C C' G : tree_ok C G -> (forall p, is_Some (G !! p) -> C' !! p = C !! p) -> tree_ok C' G.
Proof.
  intros [Hn Ha Hc] H. split; [|done|done]. intros p b Eb. destruct (Hn p b Eb) as (n & En & [H1 H2 H3 H4 H5 H6]).
  exists n. split; [rewrite H by (by eexists); done|]. split; try done.
  - intros l r c Es Hcl. destruct (H5 l r c Es Hcl) as (Hs & nc & Enc & Hp). split; [done|]. exists nc.
    by rewrite H by done.
  - destruct H6 as (rb & rn & Er & Ern & Hrest). exists rb, rn. split; [done|]. by rewrite H by (by eexists).
Qed.

(** A block of the same size and place, where nothing was known of the status *)
Lemma half_st G p n b q qb st : half_of G p n b -> G !! q = Some qb -> leaf qb -> half_of (<[q := set_st st qb]> G) p n b.
Proof.
  intros (pb & l & r & Ep & H1 & Hsp & Hrest) Eq Hl. exists pb, l, r. split; [|done].
  rewrite lookup_insert_ne; [done|]. intros ->. rewrite Eq in Ep. injection Ep as ->. destruct Hl; congruence.
Qed.
Lemma placed_st C G n b q qb st f : (forall m, parent (f m) = parent m) -> (forall m, n_paddr (f m) = n_paddr m) ->
  placed C G n b -> G !! q = Some qb -> placed (alter f q C) (<[q := set_st st qb]> G) n b.
Proof.
  intros Hf1 Hf2 (rb & rn & Er & Ern & Hrest) Eq. destruct (decide (b.(b_root) = q)) as [E|Hn].
  - rewrite E in *. rewrite Eq in Er. injection Er as <-. exists (set_st st qb), (f rn).
    rewrite E, lookup_insert_eq, lookup_alter_eq, Ern. cbn. by rewrite Hf1, Hf2.
  - exists rb, rn. by rewrite lookup_insert_ne, lookup_alter_ne by done.
Qed.

(** A leaf is taken or given back. *)
Lemma tree_leaf C G p b st : tree_ok C G -> G !! p = Some b -> leaf b -> st = Free \/ st = Used ->
  tree_ok (alter (upd_allocated (flag st)) p C) (<[p := set_st st b]> G).
Proof.
  intros H Eb Hl Hst. assert (forall q c, <[p := set_st st b]> G !! q = Some c ->
    exists c0, G !! q = Some c0 /\ c = (if decide (p = q) then set_st st c0 else c0)) as Hlook.
  { intros q c. rewrite lookup_insert. case_decide; [|by eauto]. subst. intros [= <-]. by exists b. }
  assert (forall q c, leaf c -> leaf (if decide (p = q) then set_st st c else c)) as Hleaf.
  { intros q c Hc. case_decide; [|done]. destruct Hst as [-> | ->]; [by left|by right]. }
  split.
  - intros q c Ec. destruct (Hlook q c Ec) as (c0 & Ec0 & ->). destruct (to_node _ _ H q c0 Ec0) as (n & En & [H1 H2 H3 H4 H5 H6]).
    exists (if decide (p = q) then upd_allocated (flag st) n else n). split.
    { rewrite lookup_alter_at. case_decide; subst; by rewrite En. }
    split; try (case_decide; subst; done).
    + assert (forall m c1, m.(parent) = n.(parent) -> m.(sibling) = n.(sibling) -> c1.(b_bits) = c0.(b_bits) -> c1.(b_root) = c0.(b_root) ->
        c1.(b_off) = c0.(b_off) -> if m.(parent) =? NULL then c1.(b_root) = q /\ c1.(b_off) = 0 else half_of (<[p := set_st st b]> G) q m c1) as Hg.
      { intros m c1 E0 E1 E2 E3 E4. rewrite E0, E3, E4. destruct (n.(parent) =? NULL); [done|].
        apply (half_st _ _ _ _ _ _ st) with (2 := Eb) in H4; [|done].
        destruct H4 as (pb & l & r & X1 & X2). exists pb, l, r. by rewrite E0, E1, E2, E3, E4. }
      case_decide; by apply Hg.
    + intros l r c1 Es Hc1. assert (c0.(b_st) = Split l r) as Es'.
      { case_decide; [|done]. cbn in Es. destruct Hst; congruence. }
      clear Es. destruct (H5 l r c1 Es' Hc1) as (Hs & nc & Enc & Hpar). split.
      { destruct (decide (p = c1)) as [->|]; [rewrite lookup_insert_eq; by eexists|by rewrite lookup_insert_ne]. }
      destruct (decide (p = c1)) as [->|]; [rewrite lookup_alter_eq, Enc; by eexists|rewrite lookup_alter_ne by done; by exists nc].
    + apply (placed_st _ _ _ _ p b st (upd_allocated (flag st))) in H6; [|done..].
      destruct H6 as (rb & rn & X). exists rb, rn. case_decide; exact X.
  - intros q1 q2 c1 c2 Hne E1 E2 L1 L2. destruct (Hlook _ _ E1) as (d1 & Ed1 & ->), (Hlook _ _ E2) as (d2 & Ed2 & ->).
    assert (forall q c, G !! q = Some c -> leaf (if decide (p = q) then set_st st c else c) -> leaf c) as Hback.
    { intros q c Eq Hlc. case_decide; [subst; rewrite Eb in Eq; by injection Eq as <-|done]. }
    assert (apart d1 d2) as Ha by (apply (to_apart _ _ H q1 q2); eauto).
    by repeat case_decide.
  - intros q c o Ec Er Ho. destruct (Hlook _ _ Ec) as (c0 & Ec0 & ->).
    assert (c0.(b_root) = q /\ 0 <= o < 2 ^ c0.(b_bits)) as [Er0 Ho0] by (by destruct (decide (p = q))).
    destruct (to_cover _ _ H q c0 o Ec0 Er0 Ho0) as (q' & d & Ed & Hd & Hr & Hod).
    exists q', (if decide (p = q') then set_st st d else d). split.
    { destruct (decide (p = q')) as [->|]; [|by rewrite lookup_insert_ne].
      rewrite lookup_insert_eq. rewrite Eb in Ed. by injection Ed as ->. }
    split; [by apply Hleaf|]. by destruct (decide (p = q')).
Qed.

(** [grows G G']: the blocks stay, and those that were split stay split. *)
Definition grows G G' : Prop := forall q c, G !! q = Some c -> exists st, G' !! q = Some (set_st st c) /\ (leaf c \/ st = c.(b_st)).
Lemma half_grows G G' p n b b' : grows G G' -> half_of G p n b -> b'.(b_bits) = b.(b_bits) -> b'.(b_root) = b.(b_root) ->
  b'.(b_off) = b.(b_off) -> half_of G' p n b'.
Proof.
  intros Hg (pb & l & r & Ep & H1 & Hsp & H2 & H3) E1 E2 E3. destruct (Hg _ _ Ep) as (st & Ep' & [[Hl|Hl]| ->]); [congruence..|].
  exists (set_st pb.(b_st) pb), l, r. rewrite E1, E2, E3. done.
Qed.
Lemma placed_grows C C' G G' n b b' : grows G G' -> (forall q, is_Some (G !! q) -> C' !! q = C !! q) -> placed C G n b ->
  b'.(b_bits) = b.(b_bits) -> b'.(b_root) = b.(b_root) -> b'.(b_off) = b.(b_off) -> placed C' G' n b'.
Proof.
  intros Hg HC (rb & rn & Er & Ern & Hrest) E1 E2 E3. destruct (Hg _ _ Er) as (st & Er' & _).
  exists (set_st st rb), rn. rewrite E1, E2, E3. split; [done|]. by rewrite HC by (by eexists).
Qed.
Lemma node_grows C C' G G' p n b b' : grows G G' -> (forall q, is_Some (G !! q) -> C' !! q = C !! q) -> node_ok C G p n b ->
  b'.(b_bits) = b.(b_bits) -> b'.(b_root) = b.(b_root) -> b'.(b_off) = b.(b_off) -> flag b'.(b_st) = flag b.(b_st) ->
  (forall l r c, b'.(b_st) = Split l r -> c = l \/ c = r -> is_Some (G' !! c) /\ exists nc, C' !! c = Some nc /\ nc.(parent) = p) ->
  node_ok C' G' p n b'.
Proof.
  intros Hg HC [H1 H2 H3 H4 H5 H6] E1 E2 E3 E4 Hd. split; [done|by rewrite E1|by rewrite E4| |done|by eapply placed_grows].
  destruct (n.(parent) =? NULL); [by rewrite E2, E3|]. by eapply half_grows.
Qed.
Lemma down_grows C C' G G' p n b l r c : grows G G' -> (forall q, is_Some (G !! q) -> C' !! q = C !! q) -> node_ok C G p n b ->
  b.(b_st) = Split l r -> c = l \/ c = r -> is_Some (G' !! c) /\ exists nc, C' !! c = Some nc /\ nc.(parent) = p.
Proof.
  intros Hg HC H Es Hc. destruct (no_down _ _ _ _ _ H l r c Es Hc) as ([cb Ec] & nc & Enc & Hp).
  destruct (Hg _ _ Ec) as (st & Ec' & _). split; [by eexists|]. exists nc. by rewrite HC by (by eexists).
Qed.

(** An untyped is added. *)
Lemma tree_root C C' G p n k : tree_ok C G -> G !! p = None -> p <> NULL -> 0 <= k < 32 -> C' !! p = Some n ->
  n.(parent) = NULL -> n.(allocated) = 0 -> 0 <= n.(n_paddr) -> n.(n_paddr) + 2 ^ k <= 2 ^ 32 ->
  (forall q, is_Some (G !! q) -> C' !! q = C !! q) -> tree_ok C' (<[p := mk_block k p 0 Free]> G).
Proof.
  intros H Ep Hp Hk En Hpar Hal Hpa0 Hpa1 HC. set (b0 := mk_block k p 0 Free).
  assert (grows G (<[p := b0]> G)) as Hg.
  { intros q c Eq. exists c.(b_st). rewrite lookup_insert_ne by congruence. split; [by destruct c|by right]. }
  assert (forall q c, G !! q = Some c -> c.(b_root) <> p) as Hroot.
  { intros q c Eq E. destruct (to_node _ _ H q c Eq) as (m & _ & Hm). destruct (no_placed _ _ _ _ _ Hm) as (rb & rn & Er & _). congruence. }
  split.
  - intros q c Eq. apply lookup_insert_Some in Eq as [[<- <-]|[Hne Eq]].
    + exists n. split; [done|]. split; cbn; try done.
      * by rewrite Hpar.
      * exists b0, n. cbn. rewrite lookup_insert_eq. split_and!; try done; try lia. destruct (Z.eqb_spec n.(n_paddr) 0); lia.
    + destruct (to_node _ _ H q c Eq) as (m & Em & Hm). exists m. split; [by rewrite HC by (by eexists)|].
      eapply node_grows; try done. intros l r d. by eapply down_grows.
  - intros q1 q2 c1 c2 Hne E1 E2 L1 L2.
    apply lookup_insert_Some in E1 as [[<- <-]|[Hn1 E1]], E2 as [[<- <-]|[Hn2 E2]]; [done| | |by apply (to_apart _ _ H q1 q2)].
    + left. apply not_eq_sym. by eapply Hroot.
    + left. by eapply Hroot.
  - intros q c o Eq Er Ho. apply lookup_insert_Some in Eq as [[<- <-]|[Hne Eq]].
    + exists p, b0. rewrite lookup_insert_eq. split; [done|]. split; [by left|]. cbn in *. lia.
    + destruct (to_cover _ _ H q c o Eq Er Ho) as (q' & d & Ed & Hrest). exists q', d.
      rewrite lookup_insert_ne by congruence. done.
Qed.

(** A block in use becomes two free ones. *)
Definition halves G (p : Z) (b : block) (l r : Z) : gmap Z block :=
  let k := b.(b_bits) - 1 in
  <[l := mk_block k b.(b_root) b.(b_off) Free]> (<[r := mk_block k b.(b_root) (b.(b_off) + 2 ^ k) Free]>
    (<[p := set_st (Split l r) b]> G)).
Lemma halves_lookup G p b l r q c : is_Some (G !! p) -> G !! l = None -> G !! r = None -> l <> r ->
  halves G p b l r !! q = Some c <->
  (q = l /\ c = mk_block (b.(b_bits) - 1) b.(b_root) b.(b_off) Free) \/
  (q = r /\ c = mk_block (b.(b_bits) - 1) b.(b_root) (b.(b_off) + 2 ^ (b.(b_bits) - 1)) Free) \/
  (q = p /\ c = set_st (Split l r) b) \/ (q <> p /\ q <> l /\ q <> r /\ G !! q = Some c).
Proof.
  intros Hp El Er Hlr. assert (p <> l) by (intros ->; rewrite El in Hp; by destruct Hp).
  assert (p <> r) by (intros ->; rewrite Er in Hp; by destruct Hp).
  unfold halves. cbv zeta. rewrite !lookup_insert_Some. naive_solver.
Qed.

Definition half_l (b : block) : block := mk_block (b.(b_bits) - 1) b.(b_root) b.(b_off) Free.
Definition half_r (b : block) : block := mk_block (b.(b_bits) - 1) b.(b_root) (b.(b_off) + 2 ^ (b.(b_bits) - 1)) Free.

Section halves.
Context C C' G (p : Z) (b : block) (l r : Z) (np nl nr : utspace_split_node).
Hypothesis H : tree_ok C G.
Hypothesis Eb : G !! p = Some b.
Hypothesis Hused : b.(b_st) = Used.
Hypothesis Hbits : 1 <= b.(b_bits).
Hypothesis El : G !! l = None.
Hypothesis Er : G !! r = None.
Hypothesis Hlr : l <> r.
Hypothesis Hl0 : l <> NULL.
Hypothesis Hr0 : r <> NULL.
Hypothesis HC : forall q, is_Some (G !! q) -> C' !! q = C !! q.
Hypothesis Ep : C !! p = Some np.
Hypothesis Enl : C' !! l = Some nl /\ nl.(parent) = p /\ nl.(sibling) = r /\ nl.(allocated) = 0 /\ nl.(n_paddr) = np.(n_paddr).
Hypothesis Enr : C' !! r = Some nr /\ nr.(parent) = p /\ nr.(sibling) = l /\ nr.(allocated) = 0 /\
  nr.(n_paddr) = (if np.(n_paddr) =? 0 then 0 else np.(n_paddr) +w BIT (b.(b_bits) - 1)).

Lemma halves_l : halves G p b l r !! l = Some (half_l b).
Proof. apply halves_lookup; eauto. Qed.
Lemma halves_r : halves G p b l r !! r = Some (half_r b).
Proof. apply halves_lookup; eauto. Qed.
Lemma halves_p : halves G p b l r !! p = Some (set_st (Split l r) b).
Proof. apply halves_lookup; eauto. Qed.
Lemma halves_pow : 2 ^ b.(b_bits) = 2 * 2 ^ (b.(b_bits) - 1) /\ 0 < 2 ^ (b.(b_bits) - 1).
Proof. rewrite <- Z.pow_succ_r by lia. split; [f_equal; lia|]. apply Z.pow_pos_nonneg; lia. Qed.
Lemma halves_grow : grows G (halves G p b l r).
Proof.
  intros q c Eq. destruct (decide (q = p)) as [->|Hqp].
  - rewrite Eb in Eq. injection Eq as <-. exists (Split l r). split; [|left; by right].
    apply halves_lookup; eauto.
  - exists c.(b_st). split; [|by right]. apply halves_lookup; eauto. right. right. right.
    split_and!; [done|congruence|congruence|by destruct c].
Qed.
Lemma halves_in q : q = l \/ q = r -> is_Some (halves G p b l r !! q).
Proof. intros [-> | ->]; eexists; apply halves_lookup; eauto. Qed.
(** The node of the block, and where it is *)
Lemma whole_node : node_ok C G p np b.
Proof. destruct (to_node _ _ H p b Eb) as (n & En & Hn). rewrite Ep in En. by injection En as <-. Qed.

Lemma half_node q c : q = l \/ q = r -> halves G p b l r !! q = Some c -> exists n, C' !! q = Some n /\ node_ok C' (halves G p b l r) q n c.
Proof.
  intros Hq Hc. pose proof halves_pow as [Hpow Hpos]. pose proof whole_node as Hw. pose proof (no_bits _ _ _ _ _ Hw) as Hb.
  pose proof (no_null _ _ _ _ _ Hw) as Hp0.
  pose proof halves_p as Epp.
  destruct (no_placed _ _ _ _ _ Hw) as (rb & rn & Erb & Ern & Hrp & Ho0 & Ho1 & Hpa0 & Hpa1 & Hpa).
  destruct (halves_grow _ _ Erb) as (st & Erb' & _).
  assert (np.(n_paddr) = 0 <-> rn.(n_paddr) = 0) as Hz by (destruct (Z.eqb_spec rn.(n_paddr) 0); lia).
  destruct Hq as [-> | ->].
  - rewrite halves_l in Hc. injection Hc as <-. destruct Enl as (E1 & E2 & E3 & E4 & E5). exists nl. split; [done|]. split; cbn; try done; try lia.
    + rewrite E2, (proj2 (Z.eqb_neq p NULL)) by done. exists (set_st (Split l r) b), l, r. cbn. rewrite E2. 
      split_and!; try done; [lia|]. left. by rewrite E3.
    + exists (set_st st rb), rn. cbn. rewrite HC by (by eexists). split_and!; try done; [lia|]. by rewrite E5.
  - rewrite halves_r in Hc. injection Hc as <-. destruct Enr as (E1 & E2 & E3 & E4 & E5). exists nr. split; [done|]. split; cbn; try done; try lia.
    + rewrite E2, (proj2 (Z.eqb_neq p NULL)) by done. exists (set_st (Split l r) b), l, r. cbn. rewrite E2. 
      split_and!; try done; [lia|]. right. by rewrite E3.
    + exists (set_st st rb), rn. cbn. rewrite HC by (by eexists). split_and!; try done; [lia|lia|]. rewrite E5.
      destruct (Z.eqb_spec np.(n_paddr) 0), (Z.eqb_spec rn.(n_paddr) 0); try lia.
      rewrite BIT_pow by lia. unfold wadd, wrap. rewrite Z.mod_small; lia.
Qed.

Lemma half_apart q c d : q <> p -> G !! q = Some c -> leaf c -> apart b c -> d = l \/ d = r ->
  forall e, halves G p b l r !! d = Some e -> apart e c.
Proof.
  intros Hqp Eq Hlc Ha Hd e He. pose proof halves_pow as [Hpow Hpos]. unfold apart in *. destruct Hd as [-> | ->].
  - rewrite halves_l in He. injection He as <-. cbn. destruct Ha as [?|[?|?]]; [by left|right; left; lia|right; right; lia].
  - rewrite halves_r in He. injection He as <-. cbn. destruct Ha as [?|[?|?]]; [by left|right; left; lia|right; right; lia].
Qed.
Lemma apart_sym c d : apart c d -> apart d c.
Proof. intros [?|[?|?]]; [left; congruence|by right; right|by right; left]. Qed.
(** A leaf of the new forest is a half or was a leaf before. *)
Lemma halves_leaf q c : halves G p b l r !! q = Some c -> leaf c -> (q = l \/ q = r) \/ (q <> p /\ G !! q = Some c).
Proof.
  intros Hc Hl. apply halves_lookup in Hc; [|by eauto..].
  destruct Hc as [[? _]|[[? _]|[[? ->]|(? & ? & ? & ?)]]]; [by left; left|by left; right| |by right].
  by destruct Hl.
Qed.

Lemma tree_split : tree_ok C' (halves G p b l r).
Proof.
  pose proof halves_pow as [Hpow Hpos]. pose proof halves_grow as Hg. split.
  - intros q c Hc. pose proof Hc as Hc'. apply halves_lookup in Hc'; [|by eauto..].
    destruct Hc' as [[-> _]|[[-> _]|[[-> ->]|(Hqp & Hql & Hqr & Eq)]]]; [apply half_node; by auto..| |].
    + exists np. split; [rewrite HC by (by eexists); done|]. apply (node_grows C C' G _ _ _ b); [done|done|exact whole_node|done|done|done|by rewrite Hused|].
      cbn. intros l' r' d [= <- <-] Hd. split; [by apply halves_in|]. destruct Hd as [-> | ->]; [exists nl; by destruct Enl as (? & ? & _)|exists nr; by destruct Enr as (? & ? & _)].
    + destruct (to_node _ _ H q c Eq) as (m & Em & Hm). exists m. split; [by rewrite HC by (by eexists)|].
      eapply node_grows; try done. intros l' r' d. by eapply down_grows.
  - intros q1 q2 c1 c2 Hne E1 E2 L1 L2.
    destruct (halves_leaf _ _ E1 L1) as [H1|[H1 G1]], (halves_leaf _ _ E2 L2) as [H2|[H2 G2]].
    + unfold apart. destruct H1 as [-> | ->], H2 as [-> | ->]; try done; rewrite halves_l, halves_r in *;
        injection E1 as <-; injection E2 as <-; cbn; lia.
    + eapply (half_apart q2); eauto. eapply (to_apart _ _ H p q2); eauto. by right.
    + apply apart_sym. eapply (half_apart q1); eauto. eapply (to_apart _ _ H p q1); eauto. by right.
    + by apply (to_apart _ _ H q1 q2).
  - intros q c o Eq Erq Ho. assert (exists c0, G !! q = Some c0 /\ c0.(b_root) = q /\ c0.(b_bits) = c.(b_bits)) as (c0 & E0 & R0 & B0).
    { apply halves_lookup in Eq; [|by eauto..]. destruct Eq as [[-> ->]|[[-> ->]|[[-> ->]|(? & ? & ? & ?)]]]; [| |by exists b|by exists c].
      all: cbn in Erq; destruct (no_placed _ _ _ _ _ whole_node) as (rb & rn & Erb & _); congruence. }
    destruct (to_cover _ _ H q c0 o E0 R0) as (q' & d & Ed & Hd & Rd & Hod); [by rewrite B0|].
    destruct (decide (q' = p)) as [->|Hn].
    + rewrite Eb in Ed. injection Ed as <-. destruct (Z.lt_ge_cases o (b.(b_off) + 2 ^ (b.(b_bits) - 1))).
      * exists l, (half_l b). split; [apply halves_l|]. split; [by left|]. cbn. split; [done|lia].
      * exists r, (half_r b). split; [apply halves_r|]. split; [by left|]. cbn. split; [done|lia].
    + exists q', d. split; [|done]. apply halves_lookup; [by eauto..|]. right. right. right. split_and!; [done|congruence|congruence|done].
Qed.
End halves.

(** Two halves in use become the block again. *)
Section merge.
Context C C' G (p : Z) (b bl br : block) (l r : Z).
Hypothesis H : tree_ok C G.
Hypothesis Eb : G !! p = Some b.
Hypothesis Hsplit : b.(b_st) = Split l r.
Hypothesis El : G !! l = Some bl.
Hypothesis Er : G !! r = Some br.
Hypothesis Hul : leaf bl.
Hypothesis Hur : leaf br.
Hypothesis HC : forall q, is_Some (G !! q) -> q <> l -> q <> r -> C' !! q = C !! q.
Definition merged_halves : gmap Z block := <[p := set_st Used b]> (delete l (delete r G)).

Lemma not_leaf_split c l' r' : c.(b_st) = Split l' r' -> ~ leaf c.
Proof. intros E [F|F]; congruence. Qed.
Lemma merge_children : l <> r /\ p <> l /\ p <> r /\ b.(b_bits) = bl.(b_bits) + 1 /\ br.(b_bits) = bl.(b_bits) /\
  bl.(b_root) = b.(b_root) /\ br.(b_root) = b.(b_root) /\ bl.(b_off) = b.(b_off) /\ br.(b_off) = b.(b_off) + 2 ^ bl.(b_bits) /\
  (exists nl, C !! l = Some nl /\ nl.(parent) = p) /\ (exists nr, C !! r = Some nr /\ nr.(parent) = p) /\ p <> NULL /\ 0 <= bl.(b_bits).
Proof.
  destruct (to_node _ _ H p b Eb) as (np & Enp & Hp). pose proof (no_null _ _ _ _ _ Hp) as Hp0.
  destruct (no_down _ _ _ _ _ Hp l r l Hsplit) as (_ & nl & Enl & Hpl); [by left|].
  destruct (no_down _ _ _ _ _ Hp l r r Hsplit) as (_ & nr & Enr & Hpr); [by right|].
  destruct (to_node _ _ H l bl El) as (nl' & Enl' & Hl). rewrite Enl in Enl'. injection Enl' as <-.
  destruct (to_node _ _ H r br Er) as (nr' & Enr' & Hr). rewrite Enr in Enr'. injection Enr' as <-.
  pose proof (no_up _ _ _ _ _ Hl) as Ul. pose proof (no_up _ _ _ _ _ Hr) as Ur.
  rewrite Hpl in Ul. rewrite Hpr in Ur. rewrite (proj2 (Z.eqb_neq p NULL)) in Ul, Ur by done.
  destruct Ul as (pb & l1 & r1 & X1 & X2 & X3 & X4 & X5 & X6), Ur as (pb' & l2 & r2 & Y1 & Y2 & Y3 & Y4 & Y5 & Y6).
  rewrite Hpl, Eb in X1. rewrite Hpr, Eb in Y1. injection X1 as <-. injection Y1 as <-. rewrite Hsplit in X3, Y3.
  injection X3 as <- <-. injection Y3 as <- <-.
  assert (p <> l) by (intros ->; rewrite El in Eb; injection Eb as ->; by eapply not_leaf_split).
  assert (p <> r) by (intros ->; rewrite Er in Eb; injection Eb as ->; by eapply not_leaf_split).
  destruct X6 as [(_ & _ & X6)|(? & _)]; [|done]. destruct Y6 as [(? & _)|(_ & _ & Y6)]; [done|].
  pose proof (no_bits _ _ _ _ _ Hl).
  assert (br.(b_bits) = bl.(b_bits)) as Ebits by lia. rewrite Ebits in Y6.
  split_and!; try done; try lia; [by exists nl|by exists nr].
Qed.
Lemma merged_lookup q c : merged_halves !! q = Some c <->
  (q = p /\ c = set_st Used b) \/ (q <> p /\ q <> l /\ q <> r /\ G !! q = Some c).
Proof. unfold merged_halves. rewrite lookup_insert_Some, !lookup_delete_Some. naive_solver. Qed.
(** A block that is not one of the halves *)
Lemma merged_stays q c : G !! q = Some c -> q <> l -> q <> r -> exists st, merged_halves !! q = Some (set_st st c) /\ (q <> p -> st = c.(b_st)).
Proof.
  intros Eq Hl Hr. destruct (decide (q = p)) as [->|Hn].
  - rewrite Eb in Eq. injection Eq as <-. exists Used. split; [apply merged_lookup; by left|done].
  - exists c.(b_st). split; [apply merged_lookup; right; by destruct c|done].
Qed.

Lemma merged_node q c m : G !! q = Some c -> q <> l -> q <> r -> C !! q = Some m -> node_ok C G q m c ->
  forall st, merged_halves !! q = Some (set_st st c) -> node_ok C' merged_halves q m (set_st st c).
Proof.
  intros Eq Hql Hqr Em Hm st Est. destruct merge_children as (Hlr & Hpl & Hpr & M1 & M2 & M3 & M4 & M5 & M6 & (nl & Enl & Pl) & (nr & Enr & Pr) & Hp0 & M7).
  assert (st = c.(b_st) \/ q = p /\ st = Used) as Hst.
  { apply merged_lookup in Est as [[? E]|(Hn & _ & _ & E)]; [right; split; [done|by apply (f_equal b_st) in E]|].
    left. rewrite Eq in E. injection E as E. by apply (f_equal b_st) in E. }
  destruct Hm as [H1 H2 H3 H4 H5 H6]. split; cbn; try done.
  - destruct Hst as [-> |[-> ->]]; [done|]. rewrite H3. rewrite Eb in Eq. injection Eq as <-. by rewrite Hsplit.
  - destruct (m.(parent) =? NULL); [done|]. destruct H4 as (pb & l' & r' & Ep & X1 & X2 & X3).
    assert (m.(parent) <> l) by (intros E; rewrite E, El in Ep; injection Ep as ->; by eapply not_leaf_split).
    assert (m.(parent) <> r) by (intros E; rewrite E, Er in Ep; injection Ep as ->; by eapply not_leaf_split).
    assert (m.(parent) <> p).
    { intros E. rewrite E, Eb in Ep. injection Ep as <-. rewrite Hsplit in X2. injection X2 as <- <-.
      destruct X3 as (_ & _ & [(? & _)|(? & _)]); congruence. }
    exists pb, l', r'. split; [|done]. apply merged_lookup. by right.
  - intros l' r' d Es Hd. destruct Hst as [-> |[-> ->]]; [|done].
    destruct (H5 l' r' d Es Hd) as ([e Ee] & nd & End & Pd).
    assert (q <> p) as Hqp by (intros ->; apply merged_lookup in Est as [[_ E]|(? & _)]; [|done]; apply (f_equal b_st) in E; cbn in E; congruence).
    assert (d <> l) by (intros ->; congruence). assert (d <> r) by (intros ->; congruence).
    destruct (merged_stays _ _ Ee) as (st' & Est' & _); [done..|]. split; [by eexists|]. exists nd.
    by rewrite HC by (done || by eexists).
  - destruct H6 as (rb & rn & Erb & Ern & Prn & Hrest).
    assert (c.(b_root) <> l) by (intros E; rewrite E in *; congruence). assert (c.(b_root) <> r) by (intros E; rewrite E in *; congruence).
    destruct (merged_stays _ _ Erb) as (st' & Est' & _); [done..|]. exists (set_st st' rb), rn. cbn.
    split; [done|]. by rewrite HC by (done || by eexists).
Qed.

Lemma tree_merge : tree_ok C' merged_halves.
Proof.
  destruct merge_children as (Hlr & Hpl & Hpr & M1 & M2 & M3 & M4 & M5 & M6 & (nl & Enl & Pl) & (nr & Enr & Pr) & Hp0 & M7).
  assert (2 ^ b.(b_bits) = 2 * 2 ^ bl.(b_bits) /\ 0 < 2 ^ bl.(b_bits)) as [Hpow Hpos].
  { rewrite M1, Z.pow_add_r by lia. split; [lia|]. apply Z.pow_pos_nonneg; lia. }
  assert (forall q c, merged_halves !! q = Some c -> leaf c -> q <> p -> apart (set_st Used b) c) as Hwhole.
  { intros q c Eq Lc Hqp. apply merged_lookup in Eq as [[? _]|(_ & Hql & Hqr & Eq)]; [done|].
    pose proof (to_apart _ _ H l q bl c ltac:(congruence) El Eq Hul Lc) as A1.
    pose proof (to_apart _ _ H r q br c ltac:(congruence) Er Eq Hur Lc) as A2.
    assert (0 < 2 ^ c.(b_bits)).
    { destruct (to_node _ _ H q c Eq) as (m & _ & Hm). pose proof (no_bits _ _ _ _ _ Hm). apply Z.pow_pos_nonneg; lia. }
    unfold apart in *. cbn. rewrite M2, M4, M6 in A2. rewrite M3, M5 in A1.
    destruct A1 as [?|[?|?]], A2 as [?|[?|?]]; try (by left); right; lia. }
  split.
  - intros q c Eq. pose proof Eq as Eq'. apply merged_lookup in Eq' as [[-> ->]|(Hqp & Hql & Hqr & Eg)].
    + destruct (to_node _ _ H p b Eb) as (m & Em & Hm). exists m. split; [by rewrite HC by (done || by eexists)|].
      by eapply merged_node.
    + destruct (to_node _ _ H q c Eg) as (m & Em & Hm). exists m. split; [by rewrite HC by (done || by eexists)|].
      pose proof (merged_node q c m Eg Hql Hqr Em Hm c.(b_st)) as X. replace (set_st c.(b_st) c) with c in X by (by destruct c). by apply X.
  - intros q1 q2 c1 c2 Hne E1 E2 L1 L2.
    destruct (decide (q1 = p)) as [->|N1].
    + pose proof E1 as E1'. apply merged_lookup in E1' as [[_ ->]|(? & _)]; [|done]. by eapply Hwhole.
    + destruct (decide (q2 = p)) as [->|N2].
      * pose proof E2 as E2'. apply merged_lookup in E2' as [[_ ->]|(? & _)]; [|done]. apply apart_sym. by eapply Hwhole.
      * apply merged_lookup in E1 as [[? _]|(_ & _ & _ & E1)]; [done|].
        apply merged_lookup in E2 as [[? _]|(_ & _ & _ & E2)]; [done|]. by apply (to_apart _ _ H q1 q2).
  - intros q c o Eq Eroot Ho.
    assert (exists c0, G !! q = Some c0 /\ c0.(b_root) = q /\ c0.(b_bits) = c.(b_bits)) as (c0 & E0 & R0 & B0).
    { apply merged_lookup in Eq as [[-> ->]|(_ & _ & _ & Eq)]; [by exists b|by exists c]. }
    destruct (to_cover _ _ H q c0 o E0 R0) as (q' & d & Ed & Ld & Rd & Hod); [by rewrite B0|].
    assert (q' = l \/ q' = r -> exists q1 d1, merged_halves !! q1 = Some d1 /\ leaf d1 /\ d1.(b_root) = q /\
      d1.(b_off) <= o < d1.(b_off) + 2 ^ d1.(b_bits)) as Hhalf.
    { intros Hq'. exists p, (set_st Used b). split; [apply merged_lookup; by left|]. split; [by right|]. cbn.
      destruct Hq' as [-> | ->]; [rewrite El in Ed|rewrite Er in Ed]; injection Ed as <-; rewrite ?M2 in Hod; split; (congruence || lia). }
    destruct (decide (q' = l)) as [|N1]; [by apply Hhalf; left|]. destruct (decide (q' = r)) as [|N2]; [by apply Hhalf; right|].
    exists q', d. split; [|done]. apply merged_lookup. right. split_and!; try done.
    intros ->. rewrite Eb in Ed. injection Ed as <-. by eapply not_leaf_split.
Qed.
End merge.
End tree.
