(* ===== verification/UtSplit.v ===== *)
(** * The splitting allocator: taking and splitting blocks

    The state as a forest of blocks with its free lists ([split_inv]), against the
    interface of the source of nodes; how nodes come and go, and how a free list is
    filled by splitting a block of the next size. *)
From stdpp Require Import base list gmap.
From Stdlib Require Import ZArith Lia.
From S2P Require Import Prelude.
From S2P Require Import Words.
From S2P Require Import AllocBase.
From S2P Require Import DList.
From S2P Require Import CspaceAlloc.
From S2P Require Import UtSpace.
From S2P Require Import UtLists.
From S2P Require Import UtTree.


(** ** Interface: where the nodes come from

    Memory for a node is not one of the nodes in use; slots and the calls of the kernel
    do not touch the nodes. [ns_inv s X]: the nodes in use are [X]. *)
Class NodeSource {S} (A : allocman_ops S) (K : sel4_calls S) := {
  ns_inv : S -> gset Z -> Prop;
  ns_alloc s X : ns_inv s X -> wp (allocman_mspace_alloc A sizeof_split_node) (fun r s' =>
    if r.2 =? 0 then r.1 <> NULL /\ (r.1 ∉ X) /\ ns_inv s' ({[r.1]} ∪ X) else ns_inv s' X) s;
  ns_free s X p : ns_inv s X -> p ∈ X -> wp (allocman_mspace_free A p sizeof_split_node) (fun _ s' => ns_inv s' (X ∖ {[p]})) s;
  ns_slot s X : ns_inv s X -> wp (allocman_cspace_alloc A) (fun _ s' => ns_inv s' X) s;
  ns_slot_free s X path : ns_inv s X -> wp (allocman_cspace_free A path) (fun _ s' => ns_inv s' X) s;
  ns_retype s X a1 a2 a3 a4 a5 a6 a7 a8 : ns_inv s X -> wp (seL4_Untyped_Retype K a1 a2 a3 a4 a5 a6 a7 a8) (fun _ s' => ns_inv s' X) s;
  ns_delete s X a1 a2 a3 : ns_inv s X -> wp (seL4_CNode_Delete K a1 a2 a3) (fun _ s' => ns_inv s' X) s }.

(** ** The invariant *)
Record split_rep (x : utspace_split) (G : gmap Z block) (L : Z -> list Z) : Prop := {
  sr_lists : lists_ok x L;
  sr_tree : tree_ok (cores x.(nodes)) G;
  sr_free : forall k p, p ∈ L k <-> exists b, G !! p = Some b /\ b.(b_bits) = k /\ b.(b_st) = Free }.

(** Neither the blocks in use nor the untypeds change. *)
Definition same_used (G G' : gmap Z block) : Prop := forall p b, b.(b_st) = Used -> G' !! p = Some b <-> G !! p = Some b.
Definition is_root (G : gmap Z block) (p k : Z) : Prop := exists b, G !! p = Some b /\ b.(b_root) = p /\ b.(b_bits) = k.
Definition same_roots (G G' : gmap Z block) : Prop := forall p k, is_root G' p k <-> is_root G p k.
(** No two free halves of a block, apart from those with [p] *)
Definition is_free (G : gmap Z block) (p : Z) : Prop := exists b, G !! p = Some b /\ b.(b_st) = Free.
Definition merged_but (p : Z) (G : gmap Z block) : Prop :=
  forall q b l r, G !! q = Some b -> b.(b_st) = Split l r -> is_free G l -> is_free G r -> l = p \/ r = p.
Definition merged (G : gmap Z block) : Prop :=
  forall q b l r, G !! q = Some b -> b.(b_st) = Split l r -> is_free G l -> is_free G r -> False.

Section blocks.
Implicit Types (x : utspace_split) (G : gmap Z block).

Lemma rep_out x G L p : split_rep x G L -> G !! p = None -> forall j, p ∉ L j.
Proof. intros H E j (b & Eb & _)%(sr_free _ _ _ H). congruence. Qed.
Lemma rep_used_out x G L p b : split_rep x G L -> G !! p = Some b -> b.(b_st) <> Free -> forall j, p ∉ L j.
Proof. intros H E Hst j (c & Ec & _ & Hc)%(sr_free _ _ _ H). congruence. Qed.
Lemma rep_node x G L p b : split_rep x G L -> G !! p = Some b ->
  exists n, x.(nodes) !! p = Some n /\ node_ok (cores x.(nodes)) G p (core n) b.
Proof.
  intros H Eb. destruct (to_node _ _ (sr_tree _ _ _ H) p b Eb) as (c & Ec & Hc).
  apply cores_lookup in Ec as (n & En & ->). by exists n.
Qed.
(** Nodes outside the forest come, change and go. *)
Lemma rep_frame x x' G L : split_rep x G L -> lists_ok x' L ->
  (forall p, is_Some (G !! p) -> cores x'.(nodes) !! p = cores x.(nodes) !! p) -> split_rep x' G L.
Proof. intros [H1 H2 H3] Hl HC. split; [done|by eapply tree_frame|done]. Qed.

Lemma used_set G p b st : G !! p = Some b -> b.(b_st) <> Used -> st <> Used -> same_used G (<[p := set_st st b]> G).
Proof.
  intros Eb Hb Hst q c Hc. destruct (decide (p = q)) as [->|Hn]; [|by rewrite lookup_insert_ne].
  rewrite lookup_insert_eq, Eb. split; intros [= <-]; done.
Qed.
Lemma roots_set G p b st : G !! p = Some b -> same_roots G (<[p := set_st st b]> G).
Proof.
  intros Eb q k. unfold is_root. destruct (decide (p = q)) as [->|Hn]; [|by rewrite lookup_insert_ne].
  rewrite lookup_insert_eq, Eb. split; intros (c & [= <-] & Hr & Hk); eauto.
Qed.
Lemma used_trans G1 G2 G3 : same_used G1 G2 -> same_used G2 G3 -> same_used G1 G3.
Proof. intros H1 H2 p b Hb. rewrite (H2 p b Hb). by apply H1. Qed.
Lemma roots_trans G1 G2 G3 : same_roots G1 G2 -> same_roots G2 G3 -> same_roots G1 G3.
Proof. intros H1 H2 p k. rewrite (H2 p k). by apply H1. Qed.
Lemma used_refl G : same_used G G.
Proof. done. Qed.
Lemma roots_refl G : same_roots G G.
Proof. done. Qed.

(** *** A block leaves its list or joins it *)
Lemma list_not_both l1 (p : Z) l2 q : NoDup (l1 ++ p :: l2) -> q ∈ l1 ++ l2 <-> q ∈ l1 ++ p :: l2 /\ q <> p.
Proof.
  intros (Hn1 & Hd & Hn2)%NoDup_app. apply NoDup_cons in Hn2 as [Hp _]. 
  assert (p ∉ l1) by (intros Hin; apply (Hd p Hin); set_solver). rewrite !elem_of_app, elem_of_cons.
  split; [|naive_solver]. intros [Hq|Hq]; split; try tauto; by intros ->.
Qed.
Lemma wp_take_block {S} (s : S) x G L p b : split_rep x G L -> G !! p = Some b -> b.(b_st) = Free ->
  wp (_remove_node b.(b_bits) p) (fun _ y => y.1 = s /\ dom y.2.(nodes) = dom x.(nodes) /\
    cores y.2.(nodes) = alter (upd_allocated 1) p (cores x.(nodes)) /\ exists L', split_rep y.2 (<[p := set_st Used b]> G) L') (s, x).
Proof.
  intros H Eb Hf. assert (p ∈ L b.(b_bits)) as Hp by (apply (sr_free _ _ _ H); eauto).
  pose proof Hp as (l1 & l2 & EL)%list_elem_of_split.
  pose proof (lo_seg _ _ (sr_lists _ _ _ H) _ (lo_range _ _ (sr_lists _ _ _ H) _ _ Hp)) as [_ Hs].
  pose proof (dseg_NoDup _ _ _ Hs) as Hnd. rewrite EL in Hnd.
  eapply wp_mono; [apply (wp_remove_node s x L _ l1 p l2); [apply H|done]|].
  intros _ [s' y] (Es & Hl & Ec). cbn in *. split; [done|]. split.
  { rewrite <- (cores_dom y.(nodes)), <- (cores_dom x.(nodes)), Ec. apply dom_alter_L. }
  split; [exact Ec|]. exists (with_list L b.(b_bits) (l1 ++ l2)). split; [done| |].
  - rewrite Ec. apply (tree_leaf _ _ _ _ Used); [apply H|done|by left|by right].
  - intros k q. unfold with_list. destruct (Z.eqb_spec k b.(b_bits)) as [->|Hk].
    + rewrite list_not_both, <- EL, (sr_free _ _ _ H) by done. destruct (decide (p = q)) as [->|Hq].
      * rewrite lookup_insert_eq. split; [by intros [_ ?]|]. by intros (c & [= <-] & _ & ?).
      * rewrite lookup_insert_ne by done. split; [by intros [? _]|]. intros ?. by split; [|congruence].
    + rewrite (sr_free _ _ _ H). destruct (decide (p = q)) as [->|Hq]; [|by rewrite lookup_insert_ne].
      rewrite lookup_insert_eq, Eb. split; intros (c & [= <-] & ? & ?); [congruence|done].
Qed.
Lemma wp_give_block {S} (s : S) x G L p b : split_rep x G L -> G !! p = Some b -> b.(b_st) = Used ->
  wp (_insert_node b.(b_bits) p) (fun _ y => y.1 = s /\ dom y.2.(nodes) = dom x.(nodes) /\
    exists L', split_rep y.2 (<[p := set_st Free b]> G) L') (s, x).
Proof.
  intros H Eb Hu. destruct (rep_node _ _ _ _ _ H Eb) as (n & En & Hn). pose proof (no_bits _ _ _ _ _ Hn) as Hk.
  eapply wp_mono; [apply (wp_insert_node s x L _ p); [apply H|done|by eexists|]|].
  { eapply rep_used_out; [done|done|congruence]. }
  intros _ [s' y] (Es & Hl & Ec). cbn in *. split; [done|]. split.
  { rewrite <- (cores_dom y.(nodes)), <- (cores_dom x.(nodes)), Ec. apply dom_alter_L. }
  eexists. split; [done| |].
  - rewrite Ec. apply (tree_leaf _ _ _ _ Free); [apply H|done|by right|by left].
  - intros k q. unfold with_list. destruct (Z.eqb_spec k b.(b_bits)) as [->|Hq].
    + rewrite elem_of_cons, (sr_free _ _ _ H). destruct (decide (p = q)) as [->|Hq].
      * rewrite lookup_insert_eq. split; [|by left]. intros _. by exists (set_st Free b).
      * rewrite lookup_insert_ne by done. split; [by intros [->|?]|by right].
    + rewrite (sr_free _ _ _ H). destruct (decide (p = q)) as [->|Hq']; [|by rewrite lookup_insert_ne].
      rewrite lookup_insert_eq, Eb. split; intros (c & [= <-] & ? & ?); cbn in *; congruence.
Qed.
End blocks.


(** ** Nodes come and go *)
Section operations.
Context {S : Type} (A : allocman_ops S) (K : sel4_calls S) `{!NodeSource A K} (uninit : utspace_split_node).
Implicit Types (s : S) (x : utspace_split) (G : gmap Z block) (z : S * utspace_split).
Definition split_inv z G : Prop := ns_inv z.1 (dom z.2.(nodes)) /\ exists L, split_rep z.2 G L.

Lemma wp_split_env {B} (op : M S B) (P : B -> S -> Prop) s x (Q : B -> S * utspace_split -> Prop) :
  wp op P s -> (forall r s', P r s' -> Q r (s', x)) -> wp (split_env op) Q (s, x).
Proof. intros H HQ. apply wp_zoom. cbn. eapply wp_mono; [exact H|]. intros r s' Hr. by apply HQ. Qed.

Lemma rep_lists_frame x G L f p : split_rep x G L -> G !! p = None -> (forall n, n_prev (f n) = n_prev n) ->
  (forall n, n_next (f n) = n_next n) -> split_rep (upd_nodes (alter f p x.(nodes)) x) G L.
Proof.
  intros H Ep H1 H2. eapply rep_frame; [exact H|by apply lists_core; [apply H|..]|].
  intros q [b Eq]. cbn. unfold cores. rewrite !lookup_fmap, lookup_alter_ne; [done|congruence].
Qed.
Lemma rep_insert x G L p n : split_rep x G L -> G !! p = None -> p <> NULL -> split_rep (upd_nodes (<[p := n]> x.(nodes)) x) G L.
Proof.
  intros H Ep Hp. eapply rep_frame; [exact H|apply lists_new; [apply H|done|by eapply rep_out]|].
  intros q [b Eq]. cbn. unfold cores. rewrite !lookup_fmap, lookup_insert_ne; [done|congruence].
Qed.
Lemma rep_delete x G L p : split_rep x G L -> G !! p = None -> split_rep (upd_nodes (delete p x.(nodes)) x) G L.
Proof.
  intros H Ep. eapply rep_frame; [exact H|apply lists_gone; [apply H|by eapply rep_out]|].
  intros q [b Eq]. cbn. unfold cores. rewrite !lookup_fmap, lookup_delete_ne; [done|congruence].
Qed.
Lemma rep_fresh x G L p : split_rep x G L -> p ∉ dom x.(nodes) -> G !! p = None.
Proof.
  intros H Hp. destruct (G !! p) as [b|] eqn:E; [|done]. exfalso. destruct (rep_node _ _ _ _ _ H E) as (n & En & _).
  apply Hp, elem_of_dom. by eexists.
Qed.

(** A new node is outside the forest. *)
Lemma wp_alloc_split_node s x : ns_inv s (dom x.(nodes)) ->
  wp (alloc_split_node A uninit) (fun r y =>
    if r =? NULL then ns_inv y.1 (dom x.(nodes)) /\ y.2 = x
    else (r ∉ dom x.(nodes)) /\ ns_inv y.1 ({[r]} ∪ dom x.(nodes)) /\ y.2 = upd_nodes (<[r := uninit]> x.(nodes)) x) (s, x).
Proof.
  intros H. unfold alloc_split_node. apply wp_bind. eapply wp_split_env; [by apply ns_alloc|].
  intros [p e] s' Hr. cbn in Hr. destruct (Z.eqb_spec e 0) as [->|He]; cbn [negb].
  - destruct Hr as (Hp & Hout & Hs). apply wp_bind, wp_modify, wp_ret. cbn. by rewrite (proj2 (Z.eqb_neq p NULL)).
  - by apply wp_ret.
Qed.
Lemma wp_free_split_node s x p : ns_inv s (dom x.(nodes)) -> p ∈ dom x.(nodes) ->
  wp (free_split_node A p) (fun _ y => ns_inv y.1 (dom x.(nodes) ∖ {[p]}) /\ y.2 = upd_nodes (delete p x.(nodes)) x) (s, x).
Proof.
  intros H Hp. unfold free_split_node. apply wp_bind, wp_modify. cbn. eapply wp_split_env; [by apply ns_free|]. by intros [] s1 Hs.
Qed.
Lemma wp_delete_node s x p : ns_inv s (dom x.(nodes)) -> is_Some (x.(nodes) !! p) ->
  wp (_delete_node A K p) (fun _ y => ns_inv y.1 (dom x.(nodes) ∖ {[p]}) /\ y.2 = upd_nodes (delete p x.(nodes)) x) (s, x).
Proof.
  intros H [n En]. unfold _delete_node. apply wp_bind. eapply wp_get_split_node; [done|].
  apply wp_bind. eapply wp_split_env; [by apply ns_delete|]. intros e1 s1 H1. cbn in H1.
  apply wp_bind. eapply wp_split_env; [by apply ns_slot_free|]. intros [] s2 H2. cbn in H2.
  apply wp_free_split_node; [done|]. apply elem_of_dom. by eexists.
Qed.
(** Deleting a node that is not in the forest *)
Lemma wp_drop_node z G p : split_inv z G -> is_Some (z.2.(nodes) !! p) -> G !! p = None ->
  wp (_delete_node A K p) (fun _ y => split_inv y G /\ y.2.(nodes) = delete p z.2.(nodes)) z.
Proof.
  intros [Hs [L HL]] Hp Ep. destruct z as [s x]. eapply wp_mono; [by apply wp_delete_node|].
  intros _ [s' y] [Hs' Ey]. cbn in *. subst y. split; [|done]. split; cbn; [by rewrite dom_delete_L|].
  exists L. by apply rep_delete.
Qed.
Lemma wp_new_node z G : split_inv z G ->
  wp (_new_node A uninit) (fun r y => split_inv y G /\
    if r =? NULL then dom y.2.(nodes) = dom z.2.(nodes)
    else (r ∉ dom z.2.(nodes)) /\ G !! r = None /\ dom y.2.(nodes) = {[r]} ∪ dom z.2.(nodes)) z.
Proof.
  intros [Hs [L HL]]. destruct z as [s x]. cbn in *. unfold _new_node. apply wp_bind.
  eapply wp_mono; [by apply wp_alloc_split_node|]. intros p [s1 y] Hr. cbn in Hr.
  destruct (Z.eqb_spec p NULL) as [->|Hp].
  - destruct Hr as [Hs1 ->]. apply wp_ret. rewrite Z.eqb_refl. split; [split; [done|by exists L]|done].
  - destruct Hr as (Hout & Hs1 & ->). pose proof (rep_fresh _ _ _ _ HL Hout) as Ep.
    pose proof (rep_insert x G L p uninit HL Ep Hp) as HL1.
    assert (dom (<[p := uninit]> x.(nodes)) = {[p]} ∪ dom x.(nodes)) as Edom by apply dom_insert_L.
    apply wp_bind. eapply wp_split_env; [by apply ns_slot|]. intros [e path] s2 Hs2.
    destruct (Z.eqb_spec e 0) as [->|He]; cbn [negb].
    + apply wp_bind, wp_mod_split_node; [cbn; rewrite lookup_insert_eq; by eexists|]. apply wp_ret.
      rewrite (proj2 (Z.eqb_neq p NULL)) by done. cbn. rewrite dom_alter_L, Edom. split; [|done].
      split; cbn; [by rewrite dom_alter_L, Edom|]. exists L. by apply (rep_lists_frame _ _ _ (upd_ut path) p HL1 Ep).
    + apply wp_bind. eapply wp_mono; [apply wp_free_split_node; cbn; rewrite Edom; [done|set_solver]|].
      intros _ [s3 y] [Hs3 Ey]. cbn [fst snd] in *. subst y. apply wp_ret. rewrite Z.eqb_refl. cbn.
      rewrite delete_insert_id by (by apply not_elem_of_dom). split; [|done].
      cbn in Hs3. rewrite Edom in Hs3. replace (({[p]} ∪ dom x.(nodes)) ∖ {[p]}) with (dom x.(nodes)) in Hs3 by set_solver.
      split; [done|]. exists L. by destruct x.
Qed.
End operations.
Arguments split_inv {S A K NodeSource0} z G.


(** ** Splitting a block *)
Section splitting.
Context {S : Type} (A : allocman_ops S) (K : sel4_calls S) `{!NodeSource A K} (uninit : utspace_split_node).
Implicit Types (s : S) (x : utspace_split) (G : gmap Z block) (z : S * utspace_split).

Lemma alter_swap {B} (f g : B -> B) i j (m : gmap Z B) : i <> j -> alter f i (alter g j m) = alter g j (alter f i m).
Proof. intros H. apply map_eq. intros q. rewrite !lookup_alter_at. by repeat case_decide; subst. Qed.

Lemma wp_link_children s x L k p l r np : lists_ok x L -> x.(nodes) !! p = Some np -> is_Some (x.(nodes) !! l) ->
  is_Some (x.(nodes) !! r) -> l <> r -> p <> l -> p <> r ->
  wp (link_children k p l r) (fun _ y => y.1 = s /\ lists_ok y.2 L /\ dom y.2.(nodes) = dom x.(nodes) /\
    (forall q, q <> l -> q <> r -> y.2.(nodes) !! q = x.(nodes) !! q) /\
    (exists n, y.2.(nodes) !! l = Some n /\ n.(parent) = p /\ n.(sibling) = r /\ n.(n_paddr) = np.(n_paddr)) /\
    (exists n, y.2.(nodes) !! r = Some n /\ n.(parent) = p /\ n.(sibling) = l /\
      n.(n_paddr) = if np.(n_paddr) =? 0 then 0 else np.(n_paddr) +w BIT k)) (s, x).
Proof.
  intros HL Ep El Er Hlr Hpl Hpr. unfold link_children.
  do 4 (apply wp_bind, wp_mod_split_node; [cbn; by rewrite ?is_Some_alter|]; cbn).
  set (m4 := alter (upd_sibling l) r _).
  assert (m4 !! p = Some np) as Ep4 by (unfold m4; by rewrite !lookup_alter_ne by done).
  assert (lists_ok (mk_split m4 x.(heads)) L) as HL4.
  { unfold m4. do 4 (refine (lists_core (mk_split _ _) L _ _ _ _ _); [|done|done]). by destruct x. }
  assert (is_Some (m4 !! l) /\ is_Some (m4 !! r)) as [El4 Er4] by (unfold m4; by rewrite !is_Some_alter).
  destruct El as [nl El], Er as [nr Er].
  apply wp_bind. eapply wp_get_split_node; [exact Ep4|].
  assert (forall v w, lists_ok (mk_split (alter (upd_paddr v) l (alter (upd_paddr w) r m4)) x.(heads)) L) as HL6.
  { intros v w. do 2 (refine (lists_core (mk_split _ _) L _ _ _ _ _); [|done|done]). done. }
  assert (forall v w m6, m6 = alter (upd_paddr v) l (alter (upd_paddr w) r m4) -> dom m6 = dom x.(nodes) /\
    (forall q, q <> l -> q <> r -> m6 !! q = x.(nodes) !! q) /\
    (exists n, m6 !! l = Some n /\ n.(parent) = p /\ n.(sibling) = r /\ n.(n_paddr) = v) /\
    (exists n, m6 !! r = Some n /\ n.(parent) = p /\ n.(sibling) = l /\ n.(n_paddr) = w)) as Hm6.
  { intros v w m6 ->. unfold m4. split; [by rewrite !dom_alter_L|]. split; [intros q Hl Hr; by rewrite !lookup_alter_ne by done|].
    split.
    - rewrite lookup_alter_eq. rewrite !(lookup_alter_ne _ _ r l) by done. rewrite !lookup_alter_eq, lookup_alter_ne, El by done.
      cbn. eexists. split; [reflexivity|done].
    - rewrite lookup_alter_ne, !lookup_alter_eq by done. rewrite !(lookup_alter_ne _ _ l r) by done. rewrite lookup_alter_eq, Er.
      cbn. eexists. split; [reflexivity|done]. }
  destruct (Z.eqb_spec np.(n_paddr) 0) as [E|E]; cbn [negb].
  - apply wp_bind, wp_mod_split_node; [cbn; by rewrite ?is_Some_alter|]. cbn.
    apply wp_mod_split_node; [cbn; by rewrite ?is_Some_alter|]. cbn. rewrite E.
    split; [done|]. split; [by apply HL6|]. by apply Hm6.
  - apply wp_bind, wp_mod_split_node; [cbn; by rewrite ?is_Some_alter|]. cbn.
    apply wp_mod_split_node; [cbn; by rewrite ?is_Some_alter|]. cbn.
    rewrite (alter_swap _ _ r l) by done. split; [done|]. split; [by apply HL6|]. by apply Hm6.
Qed.

Lemma halves_used G p b l r : halves (<[p := set_st Used b]> G) p (set_st Used b) l r = halves G p b l r.
Proof. unfold halves. cbn. by rewrite insert_insert_eq. Qed.

(** The free blocks after the split *)
Lemma halves_free_list G p b l r L : G !! p = Some b -> b.(b_st) = Used -> G !! l = None -> G !! r = None -> l <> r ->
  (forall k q, q ∈ L k <-> exists c, G !! q = Some c /\ c.(b_bits) = k /\ c.(b_st) = Free) ->
  forall k q, q ∈ with_list (with_list L (b.(b_bits) - 1) (r :: L (b.(b_bits) - 1))) (b.(b_bits) - 1) (l :: r :: L (b.(b_bits) - 1)) k <->
    exists c, halves G p b l r !! q = Some c /\ c.(b_bits) = k /\ c.(b_st) = Free.
Proof.
  intros Eb Hu El Er Hlr HL k q. set (k0 := b.(b_bits) - 1).
  assert (q ∈ L k <-> exists c, (q <> p /\ q <> l /\ q <> r /\ G !! q = Some c) /\ c.(b_bits) = k /\ c.(b_st) = Free) as Hold.
  { rewrite HL. split; intros (c & Hc & Hk & Hf); exists c; [|by destruct Hc as (_ & _ & _ & ?)]. split_and!; try done; congruence. }
  unfold with_list. transitivity ((k = k0 /\ (q = l \/ q = r)) \/ q ∈ L k).
  - destruct (Z.eqb_spec k k0) as [->|Hk]; [rewrite !elem_of_cons; tauto|]. tauto.
  - rewrite Hold. split.
    + intros [(-> & [-> | ->])|(c & Hc & Hk & Hf)].
      * exists (half_l b). split; [by apply halves_l|done].
      * exists (half_r b). split; [by apply halves_r|done].
      * exists c. split; [|done]. apply halves_lookup; eauto 6.
    + intros (c & Hc & Hk & Hf). apply halves_lookup in Hc; [|by eauto..].
      destruct Hc as [[-> ->]|[[-> ->]|[[-> ->]|Hc]]]; [left; by auto|left; by auto|done|]. right. by exists c.
Qed.

Lemma cores_some m q n : m !! q = Some n -> cores m !! q = Some (core n).
Proof. intros E. unfold cores. by rewrite lookup_fmap, E. Qed.

(** The two children join the forest and the free list. *)
Lemma wp_insert_children s s0 x0 x G L p b l r np : split_rep x0 G L -> G !! p = Some b -> b.(b_st) = Used -> 1 <= b.(b_bits) ->
  lists_ok x L -> (forall q, is_Some (G !! q) -> x.(nodes) !! q = x0.(nodes) !! q) -> x0.(nodes) !! p = Some np ->
  G !! l = None -> G !! r = None -> l <> r ->
  (exists n, x.(nodes) !! l = Some n /\ n.(parent) = p /\ n.(sibling) = r /\ n.(n_paddr) = np.(n_paddr)) ->
  (exists n, x.(nodes) !! r = Some n /\ n.(parent) = p /\ n.(sibling) = l /\
    n.(n_paddr) = if np.(n_paddr) =? 0 then 0 else np.(n_paddr) +w BIT (b.(b_bits) - 1)) ->
  s = s0 ->
  wp (_insert_node (b.(b_bits) - 1) r ;;; _insert_node (b.(b_bits) - 1) l ;;; ret 0)
    (fun e y => e = 0 /\ y.1 = s0 /\ dom y.2.(nodes) = dom x.(nodes) /\
      exists L', split_rep y.2 (halves G p b l r) L' /\ L' (b.(b_bits) - 1) = l :: r :: L (b.(b_bits) - 1)) (s, x).
Proof.
  intros H Eb Hu Hb HL HC Enp El Er Hlr (nl & Enl & Pl & Sl & Al) (nr & Enr & Pr & Sr & Ar) ->. set (k := b.(b_bits) - 1).
  destruct (rep_node _ _ _ _ _ H Eb) as (np' & Enp' & Hp). rewrite Enp in Enp'. injection Enp' as <-.
  pose proof (no_bits _ _ _ _ _ Hp) as Hbits.
  assert (forall j, l ∉ L j) as Hlout by (by eapply rep_out). assert (forall j, r ∉ L j) as Hrout by (by eapply rep_out).
  apply wp_bind. eapply wp_mono; [apply (wp_insert_node s0 x L k r HL); [unfold k; lia|by eexists|done]|].
  intros [] [s1 y] (Es1 & HL1 & Ec1). cbn in *. subst s1.
  assert (forall q, is_Some (y.(nodes) !! q) <-> is_Some (x.(nodes) !! q)) as Hdom1.
  { intros q. rewrite <- !elem_of_dom, <- (cores_dom y.(nodes)), <- (cores_dom x.(nodes)), Ec1. by rewrite dom_alter_L. }
  apply wp_bind. eapply wp_mono; [apply (wp_insert_node s0 y _ k l HL1); [unfold k; lia|by apply Hdom1; eexists|]|].
  { intros j. unfold with_list. destruct (j =? k); [|apply Hlout]. apply not_elem_of_cons. split; [done|apply Hlout]. }
  intros [] [s2 y2] (Es2 & HL2 & Ec2). cbn in *. subst s2. apply wp_ret. split; [done|]. split; [done|]. split.
  { rewrite <- (cores_dom y2.(nodes)), <- (cores_dom x.(nodes)), Ec2, Ec1. by rewrite !dom_alter_L. }
  assert (with_list L k (r :: L k) k = r :: L k) as Ek by (unfold with_list; by rewrite Z.eqb_refl).
  rewrite Ek in HL2. exists (with_list (with_list L k (r :: L k)) k (l :: r :: L k)). split; [|unfold with_list; by rewrite Z.eqb_refl].
  split; [exact HL2| |].
  - rewrite Ec2, Ec1. pose proof (lo_null _ _ HL) as H0.
    eapply (tree_split (cores x0.(nodes)) _ G p b l r (core np) (upd_allocated 0 (core nl)) (upd_allocated 0 (core nr))).
    + apply H.
    + done.
    + done.
    + done.
    + done.
    + done.
    + done.
    + intros ->. congruence.
    + intros ->. congruence.
    + intros q Hq. rewrite !lookup_alter_ne by (intros ->; rewrite ?El, ?Er in Hq; by destruct Hq).
      unfold cores. by rewrite !lookup_fmap, HC.
    + by apply cores_some.
    + rewrite lookup_alter_eq, lookup_alter_ne, (cores_some _ _ _ Enl) by done. by split_and!.
    + rewrite lookup_alter_ne, lookup_alter_eq, (cores_some _ _ _ Enr) by done. by split_and!.
  - apply halves_free_list; try done. apply (sr_free _ _ _ H).
Qed.

Lemma split_inv_drop2 z G l r : split_inv z G -> is_Some (z.2.(nodes) !! l) -> is_Some (z.2.(nodes) !! r) -> l <> r ->
  G !! l = None -> G !! r = None ->
  wp (_delete_node A K l ;;; _delete_node A K r ;;; ret 1) (fun e y => e = 1 /\ split_inv y G) z.
Proof.
  intros H Hl Hr Hlr El Er. apply wp_bind. eapply wp_mono; [by apply (wp_drop_node A K z G l)|].
  intros [] y1 [H1 E1]. apply wp_bind. eapply wp_mono; [apply (wp_drop_node A K y1 G r); [done|by rewrite E1, lookup_delete_ne|done]|].
  intros [] y2 [H2 E2]. by apply wp_ret.
Qed.

(** Success makes two free blocks of one, and the first of them heads its list; failure leaves things as they were. *)
Lemma wp_split_node z G p b l r k : split_inv z G -> G !! p = Some b -> b.(b_st) = Free -> b.(b_bits) = k + 1 -> 0 <= k ->
  is_Some (z.2.(nodes) !! l) -> is_Some (z.2.(nodes) !! r) -> l <> r -> G !! l = None -> G !! r = None ->
  wp (split_node A K k p l r) (fun e y => (e = 1 /\ split_inv y G) \/
    (e = 0 /\ split_inv y (halves G p b l r) /\ y.2.(heads) !! Z.to_nat k = Some l)) z.
Proof.
  intros [Hs [L HL]] Eb Hf Hbits Hk0 Hl Hr Hlr El Er. destruct z as [s x]. cbn in *.
  destruct (rep_node _ _ _ _ _ HL Eb) as (np & Enp & Hp). pose proof (no_bits _ _ _ _ _ Hp) as Hbb.
  pose proof Hl as [nl Enl]. pose proof Hr as [nr Enr].
  assert (forall s', ns_inv s' (dom x.(nodes)) -> wp (_delete_node A K l ;;; _delete_node A K r ;;; ret 1)
    (fun e y => (e = 1 /\ split_inv y G) \/ (e = 0 /\ split_inv y (halves G p b l r) /\ y.2.(heads) !! Z.to_nat k = Some l)) (s', x)) as Hfail.
  { intros s' Hs'. eapply wp_mono; [apply (split_inv_drop2 (s', x) G l r); try done; split; [done|by exists L]|]. intros e y ?. by left. }
  unfold split_node. apply wp_bind. eapply wp_get_split_node; [done|]. apply wp_bind. eapply wp_get_split_node; [done|].
  apply wp_bind. eapply wp_split_env; [apply (ns_retype _ _ _ _ _ _ _ _ _ _ Hs)|]. intros e1 s1 Hs1. cbn in Hs1.
  destruct (negb (e1 =? 0)); [by apply Hfail|].
  apply wp_bind. eapply wp_get_split_node; [done|].
  apply wp_bind. eapply wp_split_env; [apply (ns_retype _ _ _ _ _ _ _ _ _ _ Hs1)|]. intros e2 s2 Hs2. cbn in Hs2.
  destruct (negb (e2 =? 0)).
  { apply wp_bind. eapply wp_split_env; [by apply ns_delete|]. intros e3 s3 Hs3. by apply Hfail. }
  assert (k +w 1 = b.(b_bits)) as -> by (unfold wadd, wrap; rewrite Z.mod_small; lia).
  apply wp_bind. eapply wp_mono; [apply (wp_take_block s2 x G L p b HL Eb Hf)|]. intros [] [s3 x3] (E3 & D3 & _ & L3 & HL3). cbn in *. subst s3.
  assert (p <> l) as Hpl by (intros ->; congruence). assert (p <> r) as Hpr by (intros ->; congruence).
  set (G1 := <[p := set_st Used b]> G) in *.
  assert (G1 !! p = Some (set_st Used b)) as Eb1 by apply lookup_insert_eq.
  destruct (rep_node _ _ _ _ _ HL3 Eb1) as (np3 & Enp3 & _).
  assert (forall q, is_Some (x.(nodes) !! q) -> is_Some (x3.(nodes) !! q)) as Hd3 by (intros q; by rewrite <- !elem_of_dom, D3).
  apply wp_bind. eapply wp_mono; [apply (wp_link_children s2 x3 L3 k p l r np3); [apply HL3|done|by apply Hd3|by apply Hd3|done|done|done]|].
  intros [] [s4 x4] (E4 & HL4 & D4 & Hsame & Hnl & Hnr). cbn in *. subst s4.
  replace k with ((set_st Used b).(b_bits) - 1) by (cbn; lia).
  eapply wp_mono; [apply (wp_insert_children s2 s2 x3 x4 G1 L3 p (set_st Used b) l r np3); try done|].
  - cbn. lia.
  - intros q [c Eq]. apply Hsame; intros ->; unfold G1 in Eq; rewrite lookup_insert_ne in Eq by done; congruence.
  - unfold G1. by rewrite lookup_insert_ne.
  - unfold G1. by rewrite lookup_insert_ne.
  - cbn. by replace (b.(b_bits) - 1) with k by lia.
  - intros e [s5 x5] (-> & E5 & D5 & L5 & HL5 & EL5). cbn in *. subst s5. unfold G1 in HL5. rewrite halves_used in HL5.
    right. split; [done|]. split; [split; cbn; [by rewrite D5, D4, D3|by exists L5]|].
    destruct (lo_seg _ _ (sr_lists _ _ _ HL5) (b.(b_bits) - 1) ltac:(lia)) as [Hh _]. by rewrite EL5 in Hh.
Qed.
End splitting.


(** ** Which halves are free *)
Section merging.
Implicit Types (G : gmap Z block).
Lemma merged_any p G : merged G -> merged_but p G.
Proof. intros H q b l r Eq Es Hl Hr. destruct (H q b l r Eq Es Hl Hr). Qed.
Lemma merged_take G p b st : merged_but p G -> G !! p = Some b -> leaf b -> st = Used -> merged (<[p := set_st st b]> G).
Proof.
  intros H Eb Hleaf -> q c l r Eq Es (bl & El & Fl) (br & Er & Fr).
  assert (forall a ba, <[p := set_st Used b]> G !! a = Some ba -> b_st ba = Free -> a <> p /\ is_free G a) as Hback.
  { intros a ba Ea Fa. apply lookup_insert_Some in Ea as [[<- <-]|[Hn Ea]]; [done|]. split; [done|]. by exists ba. }
  destruct (Hback _ _ El Fl) as [Nl Il], (Hback _ _ Er Fr) as [Nr Ir].
  apply lookup_insert_Some in Eq as [[<- <-]|[Hn Eq]]; [done|].
  destruct (H q c l r Eq Es Il Ir); done.
Qed.
Lemma merged_halves_but C G p b l r : tree_ok C G -> merged_but p G -> G !! p = Some b -> G !! l = None -> G !! r = None -> l <> r ->
  merged_but l (halves G p b l r).
Proof.
  intros HT H Eb El Er Hlr q c l' r' Eq Es Fl Fr. pose proof Eq as Eq'.
  apply halves_lookup in Eq'; [|by eauto..]. destruct Eq' as [[-> ->]|[[-> ->]|[[-> ->]|(Hqp & Hql & Hqr & Eg)]]]; [done|done| |].
  - cbn in Es. injection Es as <- <-. by left.
  - exfalso. destruct (to_node _ _ HT q c Eg) as (n & _ & Hn).
    assert (forall a, a = l' \/ a = r' -> is_free (halves G p b l r) a -> a <> p /\ is_free G a) as Hback.
    { intros a Ha (ba & Ea & Fa). destruct (no_down _ _ _ _ _ Hn l' r' a Es Ha) as ([ca Ca] & _).
      apply halves_lookup in Ea; [|by eauto..]. destruct Ea as [[-> _]|[[-> _]|[[-> ->]|(Hap & _ & _ & Ea)]]]; [congruence|congruence|done|].
      split; [done|by exists ba]. }
    destruct (Hback l') as [Nl Il]; [by left|done|]. destruct (Hback r') as [Nr Ir]; [by right|done|].
    destruct (H q c l' r' Eg Es Il Ir); done.
Qed.

(** The halves keep the blocks in use and the roots. *)
Lemma halves_same_used G p b l r : G !! p = Some b -> b.(b_st) = Free -> G !! l = None -> G !! r = None -> l <> r -> same_used G (halves G p b l r).
Proof.
  intros Eb Hf El Er Hlr q c Hc. rewrite halves_lookup by eauto. split.
  - intros [[-> ->]|[[-> ->]|[[-> ->]|(_ & _ & _ & ?)]]]; done.
  - intros Eq. right. right. right. split_and!; [|congruence|congruence|done]. intros ->. congruence.
Qed.
Lemma halves_same_roots C G p b l r : tree_ok C G -> G !! p = Some b -> G !! l = None -> G !! r = None -> l <> r -> same_roots G (halves G p b l r).
Proof.
  intros HT Eb El Er Hlr q k. assert (is_Some (G !! b.(b_root))) as Hroot.
  { destruct (to_node _ _ HT p b Eb) as (n & _ & Hn). destruct (no_placed _ _ _ _ _ Hn) as (rb & _ & Erb & _). by eexists. }
  unfold is_root. split.
  - intros (c & Eq & Hr & Hk). apply halves_lookup in Eq; [|by eauto..].
    destruct Eq as [[-> ->]|[[-> ->]|[[-> ->]|(_ & _ & _ & ?)]]]; cbn in *.
    + rewrite Hr, El in Hroot. by destruct Hroot.
    + rewrite Hr, Er in Hroot. by destruct Hroot.
    + by exists b.
    + by exists c.
  - intros (c & Eq & Hr & Hk). destruct (decide (q = p)) as [->|Hn].
    + rewrite Eb in Eq. injection Eq as <-. exists (set_st (Split l r) b). split; [by apply halves_p|done].
    + exists c. split; [|done]. apply halves_lookup; [by eauto..|]. right. right. right. split_and!; [done|congruence|congruence|done].
Qed.
End merging.

(** ** Filling a free list *)
Section refill.
Context {S : Type} (A : allocman_ops S) (K : sel4_calls S) `{!NodeSource A K} (uninit : utspace_split_node).
Implicit Types (s : S) (x : utspace_split) (G : gmap Z block) (z : S * utspace_split).

(** From [G], with a free block of [2^k] bytes at the head of its list when [e] is zero *)
Definition refilled (k : Z) G (e : Z) z : Prop :=
  (e = 0 \/ e = 1) /\ exists G', split_inv z G' /\ same_used G G' /\ same_roots G G' /\
    (e = 0 -> exists p b, z.2.(heads) !! Z.to_nat k = Some p /\ G' !! p = Some b /\ b.(b_st) = Free /\ b.(b_bits) = k /\
      (merged G -> merged_but p G')).

Lemma head_block x G L k h : split_rep x G L -> 0 <= k < 32 -> x.(heads) !! Z.to_nat k = Some h -> h <> NULL ->
  exists b, G !! h = Some b /\ b.(b_st) = Free /\ b.(b_bits) = k.
Proof.
  intros H Hk Eh Hn. destruct (lo_seg _ _ (sr_lists _ _ _ H) k Hk) as [Eh' _]. rewrite Eh in Eh'. injection Eh' as ->.
  assert (hd NULL (L k) ∈ L k) as Hin by (apply hd_in; by intros E; rewrite E in Hn).
  apply (sr_free _ _ _ H) in Hin as (b & Eb & Ek & Ef). by exists b.
Qed.
Lemma null_outside z G : split_inv z G -> z.2.(nodes) !! NULL = None.
Proof. intros [_ [L HL]]. apply (lo_null _ _ (sr_lists _ _ _ HL)). Qed.

(** The two nodes for the halves *)
Lemma wp_split_head z G p b k : split_inv z G -> G !! p = Some b -> b.(b_st) = Free -> b.(b_bits) = k + 1 -> 0 <= k ->
  wp (let* node_l := _new_node A uninit in
      if node_l =? NULL then ret 1
      else
        let* node_r := _new_node A uninit in
        if node_r =? NULL then _delete_node A K node_l ;;; ret 1
        else split_node A K k p node_l node_r)
    (fun e y => (e = 1 /\ split_inv y G) \/ (e = 0 /\ exists l r, G !! l = None /\ G !! r = None /\ l <> r /\ l <> NULL /\
      split_inv y (halves G p b l r) /\ y.2.(heads) !! Z.to_nat k = Some l)) z.
Proof.
  intros H Eb Hf Hbits Hk. apply wp_bind. eapply wp_mono; [by apply wp_new_node|]. intros l z1 [H1 Hl]. cbv beta.
  destruct (Z.eqb_spec l NULL) as [->|Hl0]; [apply wp_ret; by left|]. destruct Hl as (Hlout & El & D1).
  apply wp_bind. eapply wp_mono; [by apply wp_new_node|]. intros r z2 [H2 Hr]. cbv beta.
  assert (is_Some (z1.2.(nodes) !! l)) as Hl1 by (apply elem_of_dom; rewrite D1; set_solver).
  destruct (Z.eqb_spec r NULL) as [->|Hr0].
  - apply wp_bind. eapply wp_mono; [apply (wp_drop_node A K z2 G l); [done| |done]|].
    { apply elem_of_dom. rewrite Hr. by apply elem_of_dom. }
    intros [] z3 [H3 _]. apply wp_ret. by left.
  - destruct Hr as (Hrout & Er & D2). assert (l <> r) by (intros ->; apply Hrout, elem_of_dom; done).
    eapply wp_mono; [apply (wp_split_node A K z2 G p b l r k); try done|].
    + apply elem_of_dom. rewrite D2, D1. set_solver.
    + apply elem_of_dom. rewrite D2. set_solver.
    + intros e y [[-> Hy]|(-> & Hy & Hh)]; [by left|]. right. split; [done|]. exists l, r. by split_and!.
Qed.

Lemma wp_refill_pool fuel k z G : split_inv z G -> 0 <= k < 32 -> 32 <= k + Z.of_nat fuel ->
  wp (_refill_pool A K uninit fuel k) (refilled k G) z.
Proof.
  revert k. induction fuel as [|fuel IH]; intros k H Hk Hfuel; [lia|]. cbn [_refill_pool].
  pose proof H as [Hs [L HL]]. destruct z as [s x]. cbn in Hs, HL.
  destruct (lo_seg _ _ (sr_lists _ _ _ HL) k Hk) as [Eh _].
  apply wp_bind. eapply wp_get_head; [lia|exact Eh|]. destruct (Z.eqb_spec (hd NULL (L k)) NULL) as [E0|E0]; cbn [negb].
  - destruct (Z.geb_spec k 30) as [Hge|Hlt].
    { apply wp_ret. split; [by right|]. exists G. split_and!; try done. }
    apply wp_bind. assert (k +w 1 = k + 1) as -> by (unfold wadd, wrap; apply Z.mod_small; lia).
    eapply wp_mono; [apply (IH (k + 1)); [done|lia|lia]|]. intros e z1 (He & G1 & H1 & U1 & R1 & Hhead).
    destruct He as [-> | ->]; cbn [negb Z.eqb]; [|apply wp_ret; split; [by right|]; by exists G1].
    destruct (Hhead eq_refl) as (p & b & Eh1 & Eb & Hf & Hbits & Hmerged).
    destruct z1 as [s1 x1]. cbn in Eh1. apply wp_bind. eapply wp_get_head; [lia|exact Eh1|].
    eapply wp_mono; [apply (wp_split_head (s1, x1) G1 p b k); [done|done|done|done|lia]|].
    intros e y [[-> Hy]|(-> & l & r & El & Er & Hlr & Hl0 & Hy & Hh)]; [split; [by right|]; by exists G1|].
    destruct H1 as [_ [L1 HL1]]. pose proof (sr_tree _ _ _ HL1) as HT.
    split; [by left|]. exists (halves G1 p b l r). split; [done|].
    split; [eapply used_trans; [exact U1|by apply halves_same_used]|].
    split; [eapply roots_trans; [exact R1|by eapply halves_same_roots]|].
    intros _. exists l, (half_l b). split; [done|]. split; [by apply halves_l|]. split; [done|]. split; [cbn; lia|].
    intros Hm. eapply merged_halves_but; eauto.
  - apply wp_ret. split; [by left|]. exists G. split_and!; try done. intros _.
    destruct (head_block _ _ _ _ _ HL Hk Eh E0) as (b & Eb & Hf & Hbits). exists (hd NULL (L k)), b.
    split_and!; try done. apply merged_any.
Qed.
End refill.
