(* ===== verification/UtSplitSpec.v ===== *)
(** * The splitting allocator: theorem

    Giving blocks back, allocation, new untypeds, and the whole allocator. *)
From stdpp Require Import base list gmap.
From Stdlib Require Import ZArith Lia.
From S2P Require Import Prelude.
From S2P Require Import Words.
From S2P Require Import AllocBase.
From S2P Require Import DList.
From S2P Require Import CspaceAlloc.
From S2P Require Import UtSpace.
From S2P Require Import UtLists.
From S2P Require Import UtTree.
From S2P Require Import UtSplit.



(** ** Giving a block back *)
Definition drops_used (G : gmap Z block) (p : Z) (G' : gmap Z block) : Prop :=
  forall q c, c.(b_st) = Used -> G' !! q = Some c <-> q <> p /\ G !! q = Some c.
Definition adds_used (G : gmap Z block) (p : Z) (b : block) (G' : gmap Z block) : Prop :=
  (forall c, G !! p = Some c -> c.(b_st) <> Used) /\
  forall q c, c.(b_st) = Used -> G' !! q = Some c <-> (q = p /\ c = b) \/ (q <> p /\ G !! q = Some c).

Section giving.
Implicit Types (C : gmap Z utspace_split_node) (G : gmap Z block).
Lemma drops_give G p b : G !! p = Some b -> drops_used G p (<[p := set_st Free b]> G).
Proof.
  intros Eb q c Hc. destruct (decide (p = q)) as [->|Hn].
  - rewrite lookup_insert_eq. split; [by intros [= <-]|by intros [? _]].
  - rewrite lookup_insert_ne by done. split; [|by intros [_ ?]]. intros E. split; [congruence|done].
Qed.
Lemma merged_give G p b : merged G -> G !! p = Some b ->
  (forall q c l r, G !! q = Some c -> c.(b_st) = Split l r -> (p = l -> ~ is_free G r) /\ (p = r -> ~ is_free G l)) ->
  (forall q c l r, G !! q = Some c -> c.(b_st) = Split l r -> l <> r) -> b.(b_st) = Used ->
  merged (<[p := set_st Free b]> G).
Proof.
  intros H Eb Hsib Hne Hu q c l r Eq Es Fl Fr. 
  assert (G !! q = Some c) as Eq'.
  { apply lookup_insert_Some in Eq as [[_ <-]|[_ ?]]; [done|done]. }
  assert (forall a, a <> p -> is_free (<[p := set_st Free b]> G) a -> is_free G a) as Hback.
  { intros a Ha (ba & Ea & Fa). exists ba. by rewrite lookup_insert_ne in Ea. }
  specialize (Hne q c l r Eq' Es). destruct (Hsib q c l r Eq' Es) as [Hl Hr].
  destruct (decide (l = p)) as [->|Nl]; [apply Hl; [done|]; by apply Hback|].
  destruct (decide (r = p)) as [->|Nr]; [apply Hr; [done|]; by apply Hback|].
  eapply H; eauto.
Qed.

(** Two halves merge. *)
Lemma merged_halves_used G p b l r : G !! p = Some b -> b.(b_st) = Split l r ->
  forall q c, c.(b_st) = Used -> merged_halves G p b l r !! q = Some c <->
    (q = p /\ c = set_st Used b) \/ (q <> p /\ q <> l /\ q <> r /\ G !! q = Some c).
Proof. intros Eb Es q c Hc. unfold merged_halves. rewrite lookup_insert_Some, !lookup_delete_Some. naive_solver. Qed.
Lemma merged_halves_roots C G p b bl br l r : tree_ok C G -> G !! p = Some b -> b.(b_st) = Split l r ->
  G !! l = Some bl -> G !! r = Some br -> leaf bl -> leaf br -> same_roots G (merged_halves G p b l r).
Proof.
  intros HT Eb Es El Er Hl Hr.
  destruct (merge_children C G p b bl br l r HT Eb Es El Er Hl Hr) as (Hlr & Hpl & Hpr & _ & _ & _ & _ & _ & _ & (nl & Enl & Pl) & (nr & Enr & Pr) & Hp0 & _).
  assert (forall q c, G !! q = Some c -> c.(b_root) = q -> q <> l /\ q <> r) as Hroot.
  { intros q c Eq Ec. destruct (to_node _ _ HT q c Eq) as (n & En & Hn).
    destruct (no_placed _ _ _ _ _ Hn) as (rb & rn & _ & Ern & Prn & _). rewrite Ec in Ern. split; intros ->; congruence. }
  intros q k. unfold is_root. unfold merged_halves. split.
  - intros (c & Eq & Hc & Hk). apply lookup_insert_Some in Eq as [[<- <-]|[_ Eq]]; [by exists b|].
    rewrite !lookup_delete_Some in Eq. exists c. by destruct Eq as (_ & _ & ?).
  - intros (c & Eq & Hc & Hk). destruct (Hroot q c Eq Hc) as [Nl Nr]. destruct (decide (q = p)) as [->|Hn].
    + rewrite Eb in Eq. injection Eq as <-. exists (set_st Used b). by rewrite lookup_insert_eq.
    + exists c. rewrite lookup_insert_ne, !lookup_delete_ne by done. done.
Qed.
Lemma merged_halves_merged G p b l r : merged G -> G !! p = Some b -> b.(b_st) = Split l r -> merged (merged_halves G p b l r).
Proof.
  intros H Eb Es q c l' r' Eq Esq Fl Fr. unfold merged_halves in *.
  assert (forall a, is_free (<[p := set_st Used b]> (delete l (delete r G))) a -> is_free G a) as Hback.
  { intros a (ba & Ea & Fa). apply lookup_insert_Some in Ea as [[_ <-]|[_ Ea]]; [done|].
    rewrite !lookup_delete_Some in Ea. exists ba. by destruct Ea as (_ & _ & ?). }
  apply lookup_insert_Some in Eq as [[_ <-]|[_ Eq]]; [done|]. rewrite !lookup_delete_Some in Eq. destruct Eq as (_ & _ & Eq).
  eapply H; eauto.
Qed.
(** The set of blocks in use, when a block in use is merged with its free half *)
Lemma drops_merge G G' p q b bq pp pb l r : G !! p = Some b -> b.(b_st) = Used -> G !! q = Some bq -> bq.(b_st) = Free ->
  G !! pp = Some pb -> pb.(b_st) = Split l r -> ((p = l /\ q = r) \/ (p = r /\ q = l)) ->
  drops_used (merged_halves (<[q := set_st Used bq]> G) pp pb l r) pp G' -> drops_used G p G'.
Proof.
  intros Eb Hu Eq Hf Epp Es Hpq H a c Hc. rewrite (H a c Hc).
  assert (pp <> p) by congruence. assert (pp <> q) by congruence. assert (p <> q) by congruence.
  unfold merged_halves. destruct (decide (a = pp)) as [->|Ha].
  - split; [by intros [? _]|]. intros [_ E]. congruence.
  - rewrite lookup_insert_ne, !lookup_delete_Some, lookup_insert_Some by done. split.
    + intros (_ & Hl & Hr & [[<- _]|[_ E]]); [exfalso|]; destruct Hpq as [[-> ->]|[-> ->]]; try done; by split; [congruence|].
    + intros [Hap E]. split; [done|]. assert (a <> q) by (intros ->; congruence).
      destruct Hpq as [[-> ->]|[-> ->]]; split_and!; try congruence; right; done.
Qed.
End giving.


Section free.
Context {S : Type} (A : allocman_ops S) (K : sel4_calls S) `{!NodeSource A K} (uninit : utspace_split_node).
Implicit Types (s : S) (x : utspace_split) (G : gmap Z block) (z : S * utspace_split).

(** The node of a block, and the node it was split from *)
Lemma parent_block x G L p b n : split_rep x G L -> G !! p = Some b -> x.(nodes) !! p = Some n -> n.(parent) <> NULL ->
  exists pb l r bs ns, G !! n.(parent) = Some pb /\ pb.(b_st) = Split l r /\ pb.(b_bits) = b.(b_bits) + 1 /\ l <> r /\
    ((p = l /\ n.(sibling) = r) \/ (p = r /\ n.(sibling) = l)) /\ G !! n.(sibling) = Some bs /\
    bs.(b_bits) = b.(b_bits) /\ x.(nodes) !! n.(sibling) = Some ns /\ ns.(allocated) = flag bs.(b_st).
Proof.
  intros H Eb En Hpar. destruct (rep_node _ _ _ _ _ H Eb) as (n' & En' & Hn). rewrite En in En'. injection En' as <-.
  pose proof (no_up _ _ _ _ _ Hn) as Hup. cbn in Hup. rewrite (proj2 (Z.eqb_neq n.(parent) NULL)) in Hup by done.
  destruct Hup as (pb & l & r & Epb & Hbits & Hst & Hr & Hlr & Hpq). cbn in Epb, Hpq.
  destruct (rep_node _ _ _ _ _ H Epb) as (np & Enp & Hp).
  assert (n.(sibling) = l \/ n.(sibling) = r) as Hsib by (destruct Hpq as [(_ & ? & _)|(_ & ? & _)]; auto).
  destruct (no_down _ _ _ _ _ Hp l r _ Hst Hsib) as ([bs Ebs] & nsc & Ens & Hnp).
  destruct (rep_node _ _ _ _ _ H Ebs) as (ns & Ens' & Hns). exists pb, l, r, bs, ns.
  pose proof (no_flag _ _ _ _ _ Hns) as Hfl. pose proof (no_up _ _ _ _ _ Hns) as Hup.
  rewrite (cores_some _ _ _ Ens') in Ens. injection Ens as <-. rewrite Hnp, (proj2 (Z.eqb_neq n.(parent) NULL)) in Hup by done.
  destruct Hup as (pb' & l' & r' & Epb' & Hbits' & _). rewrite Hnp, Epb in Epb'. injection Epb' as <-.
  split_and!; try done; [|lia]. destruct Hpq as [(? & ? & _)|(? & ? & _)]; [by left|by right].
Qed.

(** The sibling of a block that goes back *)
Lemma give_siblings x G L p b n : split_rep x G L -> G !! p = Some b -> x.(nodes) !! p = Some n ->
  (n.(parent) <> NULL -> ~ is_free G n.(sibling)) ->
  forall q c l r, G !! q = Some c -> c.(b_st) = Split l r -> (p = l -> ~ is_free G r) /\ (p = r -> ~ is_free G l).
Proof.
  intros H Eb En Hsib q c l r Eq Es.
  assert (p = l \/ p = r -> n.(parent) = q /\ q <> NULL) as Hpar.
  { intros Hp. destruct (rep_node _ _ _ _ _ H Eq) as (nq & Enq & Hq).
    destruct (no_down _ _ _ _ _ Hq l r p Es Hp) as (_ & np & Enp & Hnp).
    rewrite (cores_some _ _ _ En) in Enp. injection Enp as <-. split; [done|]. apply Hq. }
  assert (p = l \/ p = r -> n.(sibling) = (if decide (p = l) then r else l)) as Hs.
  { intros Hp. destruct (Hpar Hp) as [Epar Hq0]. destruct (parent_block _ _ _ _ _ _ H Eb En) as (pb & l' & r' & bs & ns & Epb & Est & _ & Hlr & Hor & _); [by rewrite Epar|].
    rewrite Epar, Eq in Epb. injection Epb as <-. rewrite Es in Est. injection Est as <- <-.
    case_decide; destruct Hor as [[? ?]|[? ?]]; congruence. }
  split; intros Hp.
  - destruct Hpar as [Epar Hq0]; [by left|]. pose proof (Hs (or_introl Hp)) as E. rewrite decide_True in E by done.
    rewrite <- E. apply Hsib. by rewrite Epar.
  - destruct Hpar as [Epar Hq0]; [by right|]. pose proof (Hs (or_intror Hp)) as E.
    case_decide as Hl; [|rewrite <- E; apply Hsib; by rewrite Epar].
    exfalso. destruct (parent_block _ _ _ _ _ _ H Eb En) as (pb & l' & r' & bs & ns & Epb & Est & _ & Hlr & _); [by rewrite Epar|].
    rewrite Epar, Eq in Epb. injection Epb as <-. rewrite Es in Est. injection Est as <- <-. congruence.
Qed.
Lemma split_distinct x G L q c l r : split_rep x G L -> G !! q = Some c -> c.(b_st) = Split l r -> l <> r.
Proof.
  intros H Eq Es. destruct (rep_node _ _ _ _ _ H Eq) as (nq & Enq & Hq).
  destruct (no_down _ _ _ _ _ Hq l r l Es) as ([bl El] & ncl & Enl & Pl); [by left|].
  apply cores_lookup in Enl as (nl & Enl & ->). cbn in Pl.
  destruct (parent_block _ _ _ _ _ _ H El Enl) as (pb & l' & r' & bs & ns & Epb & Est & _ & Hlr & _).
  { rewrite Pl. apply Hq. }
  rewrite Pl, Eq in Epb. injection Epb as <-. rewrite Es in Est. by injection Est as <- <-.
Qed.

Definition freed G (p : Z) z : Prop :=
  exists G', split_inv z G' /\ drops_used G p G' /\ same_roots G G' /\ (merged G -> merged G').

Lemma wp_give z G p b n : split_inv z G -> G !! p = Some b -> b.(b_st) = Used -> z.2.(nodes) !! p = Some n ->
  (n.(parent) <> NULL -> ~ is_free G n.(sibling)) -> wp (_insert_node b.(b_bits) p) (fun _ y => freed G p y) z.
Proof.
  intros [Hs [L HL]] Eb Hu En Hsib. destruct z as [s x]. cbn in *.
  eapply wp_mono; [by apply (wp_give_block s x G L p b)|]. intros [] [s' y] (E1 & Hd & L' & HL'). cbn in *. subst s'.
  exists (<[p := set_st Free b]> G). split; [split; cbn; [by rewrite Hd|by exists L']|].
  split; [by apply drops_give|]. split; [by apply roots_set|]. intros Hm.
  apply merged_give; try done; [by eapply give_siblings|]. intros q c l r. by eapply split_distinct.
Qed.

(** Both halves leave the forest. *)
Lemma rep_merge x G L p b bl br l r x' : split_rep x G L -> G !! p = Some b -> b.(b_st) = Split l r ->
  G !! l = Some bl -> G !! r = Some br -> bl.(b_st) = Used -> br.(b_st) = Used ->
  x'.(nodes) = delete l (delete r x.(nodes)) \/ x'.(nodes) = delete r (delete l x.(nodes)) -> x'.(heads) = x.(heads) ->
  split_rep x' (merged_halves G p b l r) L.
Proof.
  intros H Eb Es El Er Ul Ur Hx Hh.
  assert (forall j, l ∉ L j) as Hl by (eapply rep_used_out; [done|done|congruence]).
  assert (forall j, r ∉ L j) as Hr by (eapply rep_used_out; [done|done|congruence]).
  assert (x' = upd_nodes (delete l (delete r x.(nodes))) x) as ->.
  { destruct x', x. cbn in *. subst. destruct Hx as [-> | ->]; [done|]. unfold upd_nodes. cbn. f_equal. apply delete_delete. }
  split.
  - exact (lists_gone (upd_nodes (delete r x.(nodes)) x) L l (lists_gone x L r (sr_lists _ _ _ H) Hr) Hl).
  - apply (tree_merge (cores x.(nodes)) _ G p b bl br l r); try done; [apply H|by right|by right|].
    intros q _ Nl Nr. cbn. unfold cores. rewrite !lookup_fmap, !lookup_delete_ne by done. done.
  - intros k q. rewrite (sr_free _ _ _ H). unfold merged_halves. split; intros (c & Ec & Hk & Hf).
    + exists c. split; [|done]. rewrite lookup_insert_ne by congruence. rewrite !lookup_delete_ne by congruence. done.
    + apply lookup_insert_Some in Ec as [[_ <-]|[_ Ec]]; [done|]. rewrite !lookup_delete_Some in Ec. exists c. by destruct Ec as (_ & _ & ?).
Qed.

Lemma wp_split_free fuel k z G p b : split_inv z G -> G !! p = Some b -> b.(b_st) = Used -> b.(b_bits) = k ->
  32 <= k + Z.of_nat fuel -> wp (split_free A K fuel p k) (fun _ y => freed G p y) z.
Proof.
  revert k z G p b. induction fuel as [|fuel IH]; intros k z G p b H Eb Hu <- Hfuel.
  { exfalso. destruct H as [_ [L HL]]. destruct (rep_node _ _ _ _ _ HL Eb) as (n & _ & Hn). pose proof (no_bits _ _ _ _ _ Hn). lia. }
  pose proof H as [Hs [L HL]]. destruct z as [s x]. cbn in Hs, HL.
  destruct (rep_node _ _ _ _ _ HL Eb) as (n & En & Hn). cbn [split_free].
  apply wp_bind. eapply wp_get_split_node; [exact En|]. cbv zeta. apply wp_bind.
  destruct (Z.eqb_spec n.(parent) NULL) as [Epar|Hpar]; [apply wp_ret; by eapply wp_give|].
  destruct (parent_block _ _ _ _ _ _ HL Eb En Hpar) as (pb & l & r & bs & ns & Epb & Est & Hbits & Hlr & Hor & Ebs & Hsb & Ens & Hflag).
  apply wp_bind. eapply wp_get_split_node; [exact Ens|]. apply wp_ret.
  destruct (Z.eqb_spec ns.(allocated) 0) as [E0|E0].
  2: { eapply wp_give; try done. intros _ (c & Ec & Fc). rewrite Ebs in Ec. injection Ec as <-. rewrite Fc in Hflag. done. }
  assert (bs.(b_st) = Free) as Hf by (rewrite Hflag in E0; by destruct bs.(b_st)).
  set (q := n.(sibling)) in *. assert (p <> q) as Hpq by (destruct Hor as [[-> ->]|[-> ->]]; congruence).
  rewrite <- Hsb. apply wp_bind. eapply wp_mono; [by apply (wp_take_block s x G L q bs)|].
  intros [] [s1 x1] (E1 & D1 & C1 & L1 & HL1). cbn in *. subst s1. set (G1 := <[q := set_st Used bs]> G) in *.
  assert (exists n1, x1.(nodes) !! p = Some n1 /\ n1.(sibling) = q) as (n1 & En1 & Es1).
  { assert (cores x1.(nodes) !! p = Some (core n)) as Ec by (rewrite C1, lookup_alter_ne by done; by apply cores_some).
    apply cores_lookup in Ec as (n1 & En1 & Ec). exists n1. split; [done|]. by apply (f_equal sibling) in Ec. }
  assert (is_Some (x1.(nodes) !! q)) as Hq1 by (rewrite <- elem_of_dom, D1; apply elem_of_dom; by eexists).
  apply wp_bind. eapply wp_get_split_node; [exact En1|]. rewrite Es1. apply wp_bind.
  eapply wp_mono; [apply wp_delete_node; [by rewrite D1|done]|]. intros [] [s2 x2] [Hs2 E2]. cbn in *. subst x2.
  apply wp_bind. eapply wp_mono; [apply wp_delete_node; cbn; [by rewrite dom_delete_L|rewrite lookup_delete_ne by done; by eexists]|].
  intros [] [s3 x3] [Hs3 E3]. cbn in *. subst x3.
  assert (bs.(b_bits) +w 1 = b.(b_bits) + 1) as ->.
  { rewrite Hsb. pose proof (no_bits _ _ _ _ _ Hn). unfold wadd, wrap. apply Z.mod_small. lia. }
  assert (n.(parent) <> q) as Hparq by (intros E; rewrite E, Ebs in Epb; injection Epb as ->; congruence).
  assert (n.(parent) <> p) as Hparp by (intros E; rewrite E, Eb in Epb; injection Epb as ->; congruence).
  assert (G1 !! n.(parent) = Some pb) as Epb1 by (unfold G1; by rewrite lookup_insert_ne).
  assert (exists bl br, G1 !! l = Some bl /\ G1 !! r = Some br /\ bl.(b_st) = Used /\ br.(b_st) = Used) as (bl & br & El1 & Er1 & Ul & Ur).
  { unfold G1. destruct Hor as [[-> ->]|[-> ->]]; [exists b, (set_st Used bs)|exists (set_st Used bs), b];
      rewrite lookup_insert_eq, lookup_insert_ne by done; done. }
  pose proof (rep_merge x1 G1 L1 n.(parent) pb bl br l r (mk_split (delete p (delete q x1.(nodes))) x1.(heads)) HL1 Epb1 Est El1 Er1 Ul Ur) as HL3.
  specialize (HL3 ltac:(cbn; destruct Hor as [[-> ->]|[-> ->]]; auto) eq_refl).
  set (G2 := merged_halves G1 n.(parent) pb l r) in *.
  eapply wp_mono; [apply (IH _ _ G2 n.(parent) (set_st Used pb)); try done|].
  - split; cbn; [by rewrite !dom_delete_L in *|by exists L1].
  - unfold G2, merged_halves. apply lookup_insert_eq.
  - lia.
  - intros _ y (G' & H' & Hdrop & Hroots & Hm). exists G'. split; [done|]. split; [|split].
    + unfold G2, G1 in Hdrop. eapply (drops_merge G G' p q b bs n.(parent) pb l r); try done.
    + eapply roots_trans; [|exact Hroots]. eapply roots_trans; [by apply (roots_set G q bs Used)|].
      apply (merged_halves_roots (cores x1.(nodes)) G1 n.(parent) pb bl br l r); try done; [apply HL1|by right|by right].
    + intros HG. apply Hm. unfold G2. apply merged_halves_merged; [|done|done].
      apply (merged_take G q bs Used); [by apply merged_any|done|by left|done].
Qed.
End free.


(** ** Allocation, new untypeds, physical addresses *)
Section alloc.
Context {S : Type} (A : allocman_ops S) (K : sel4_calls S) `{!NodeSource A K} (uninit : utspace_split_node).
Implicit Types (s : S) (x : utspace_split) (G : gmap Z block) (z : S * utspace_split).

(** The sizes are defined for the objects of the kernel. *)
Lemma object_sizes type size : 0 <= type <= 10 ->
  exists v w, forall z, get_sel4_object_size (S:=S * utspace_split) type size z = Ret v z /\
    vka_get_object_size (S:=S * utspace_split) type v z = Ret w z.
Proof.
  intros Ht. assert (type = 0 \/ type = 1 \/ type = 2 \/ type = 3 \/ type = 4 \/ type = 5 \/ type = 6 \/ type = 7 \/
    type = 8 \/ type = 9 \/ type = 10) as Hc by lia.
  repeat (destruct Hc as [-> | Hc]; [eexists _, _; intros z; split; reflexivity|]). subst. eexists _, _. intros z. split; reflexivity.
Qed.

Definition allocates_block G (size_bits : Z) (r : Z * Z) z : Prop :=
  (r = (0, 1) /\ exists G', split_inv z G' /\ same_used G G' /\ same_roots G G') \/
  (r.2 = 0 /\ exists G' b, split_inv z G' /\ b.(b_st) = Used /\ b.(b_bits) = size_bits /\ G' !! r.1 = Some b /\
    adds_used G r.1 b G' /\ same_roots G G' /\ (merged G -> merged G')).

Lemma adds_take G G' p b : same_used G G' -> G' !! p = Some b -> b.(b_st) = Free ->
  adds_used G p (set_st Used b) (<[p := set_st Used b]> G').
Proof.
  intros HU Eb Hf. split.
  - intros c Ec Hc. apply (HU p c Hc) in Ec. congruence.
  - intros q c Hc. destruct (decide (p = q)) as [->|Hn].
    + rewrite lookup_insert_eq. split; [intros [= <-]; by left|]. by intros [[_ ->]|[? _]].
    + rewrite lookup_insert_ne by done. rewrite (HU q c Hc). split; [by right|]. by intros [[-> _]|[_ ?]].
Qed.

Lemma wp_utspace_split_alloc z G size_bits type slot : split_inv z G -> 0 <= size_bits < 32 -> 0 <= type <= 10 ->
  wp (_utspace_split_alloc A K uninit size_bits type slot) (allocates_block G size_bits) z.
Proof.
  intros H Hk Ht. destruct (object_sizes type size_bits Ht) as (v & w & Hv). unfold _utspace_split_alloc.
  assert (forall r z' G', r = (0, 1) -> split_inv z' G' -> same_used G G' -> same_roots G G' -> allocates_block G size_bits r z') as Hfail.
  { intros r z' G' -> ? ? ?. left. split; [done|]. by exists G'. }
  apply wp_bind. unfold wp at 1. rewrite (proj1 (Hv z)). apply wp_bind. unfold wp at 1. rewrite (proj2 (Hv z)).
  destruct (negb (size_bits =? w) || (size_bits =? 0)); [apply wp_ret; by apply (Hfail _ _ G)|].
  apply wp_bind. eapply wp_mono; [apply (wp_refill_pool A K uninit split_fuel size_bits z G H Hk); unfold split_fuel; lia|].
  intros e [s1 x1] (He & G1 & H1 & U1 & R1 & Hhead). destruct He as [-> | ->]; cbn [negb Z.eqb]; [|apply wp_ret; by apply (Hfail _ _ G1)].
  destruct (Hhead eq_refl) as (p & b & Eh & Eb & Hf & Hbits & Hm). cbn in Eh.
  pose proof H1 as [Hs1 [L1 HL1]]. cbn in Hs1, HL1. destruct (rep_node _ _ _ _ _ HL1 Eb) as (n & En & Hn).
  apply wp_bind. eapply wp_get_head; [lia|exact Eh|]. apply wp_bind. eapply wp_get_split_node; [exact En|].
  apply wp_bind. eapply wp_split_env; [apply (ns_retype _ _ _ _ _ _ _ _ _ _ Hs1)|]. intros e2 s2 Hs2. cbn in Hs2.
  destruct (negb (e2 =? 0)).
  { apply wp_ret. apply (Hfail _ _ G1); [done| |done|done]. split; [done|by exists L1]. }
  apply wp_bind. rewrite <- Hbits. eapply wp_mono; [by apply (wp_take_block s2 x1 G1 L1 p b)|].
  intros [] [s3 x3] (E3 & D3 & _ & L3 & HL3). cbn in *. subst s3. apply wp_ret. right. split; [done|].
  exists (<[p := set_st Used b]> G1), (set_st Used b). cbn. split; [split; cbn; [by rewrite D3|by exists L3]|].
  split_and!; try done; [apply lookup_insert_eq|by apply adds_take| |].
  - eapply roots_trans; [exact R1|by apply roots_set].
  - intros HG. apply (merged_take G1 p b Used); [by apply Hm|done|by left|done].
Qed.

(** An untyped of known size is added as a free block. *)
Lemma wp_insert_new_node z G k path paddr : split_inv z G -> 0 <= k < 32 -> 0 <= paddr -> paddr + 2 ^ k <= 2 ^ 32 ->
  wp (_insert_new_node A uninit k path paddr) (fun e y => (e = 1 /\ split_inv y G) \/
    (e = 0 /\ exists p, G !! p = None /\ split_inv y (<[p := mk_block k p 0 Free]> G))) z.
Proof.
  intros [Hs [L HL]] Hk Hp0 Hp1. destruct z as [s x]. cbn in *. unfold _insert_new_node. apply wp_bind.
  eapply wp_mono; [by apply wp_alloc_split_node|]. intros p [s1 y] Hr. cbn in Hr.
  destruct (Z.eqb_spec p NULL) as [->|Hp]; [destruct Hr as [Hs1 ->]; apply wp_ret; left; split; [done|split; [done|by exists L]]|].
  destruct Hr as (Hout & Hs1 & ->). pose proof (rep_fresh _ _ _ _ HL Hout) as Ep.
  pose proof (rep_insert x G L p uninit HL Ep Hp) as HL1.
  apply wp_bind, wp_mod_split_node; [cbn; rewrite lookup_insert_eq; by eexists|].
  apply wp_bind, wp_mod_split_node; [cbn; rewrite is_Some_alter, lookup_insert_eq; by eexists|].
  apply wp_bind, wp_mod_split_node; [cbn; rewrite !is_Some_alter, lookup_insert_eq; by eexists|]. cbn.
  set (m := alter (upd_paddr paddr) p _).
  assert (split_rep (mk_split m x.(heads)) G L) as HL2.
  { unfold m. do 3 (refine (rep_lists_frame (mk_split _ _) G L _ _ _ Ep _ _); [|done|done]). exact HL1. }
  assert (exists n, m !! p = Some n /\ n.(parent) = NULL /\ n.(n_paddr) = paddr) as (n & En & Pn & An).
  { unfold m. rewrite !lookup_alter_eq, lookup_insert_eq. cbn. eexists. split; [reflexivity|done]. }
  assert (dom m = {[p]} ∪ dom x.(nodes)) as Dm by (unfold m; by rewrite !dom_alter_L, dom_insert_L).
  apply wp_bind. eapply wp_mono; [apply (wp_insert_node s1 _ L k p); [apply HL2|done|cbn; by eexists|by eapply rep_out]|].
  intros [] [s2 y] (E2 & HLy & Cy). cbn in *. subst s2. apply wp_ret. right. split; [done|]. exists p. split; [done|].
  assert (G !! p = None -> forall q, is_Some (G !! q) -> q <> p) as Hne by (intros E q [c Eq] ->; congruence).
  split; cbn.
  - assert (dom y.(nodes) = {[p]} ∪ dom x.(nodes)) as ->; [|done].
    rewrite <- (cores_dom y.(nodes)), Cy, dom_alter_L, cores_dom. done.
  - eexists. split; [exact HLy| |].
    + rewrite Cy. apply (tree_root (cores m) _ G p (upd_allocated 0 (core n)) k);
        [apply HL2|done|done|done| |done|done|cbn; lia|cbn; lia|].
      * by rewrite lookup_alter_eq, lookup_fmap, En.
      * intros q Hq. rewrite lookup_alter_ne; [done|]. apply not_eq_sym. by apply Hne.
    + intros k' q. unfold with_list. destruct (Z.eqb_spec k' k) as [->|Hkk].
      * rewrite elem_of_cons, (sr_free _ _ _ HL2). destruct (decide (p = q)) as [->|Hn].
        -- rewrite lookup_insert_eq. split; [|by left]. intros _. by eexists.
        -- rewrite lookup_insert_ne by done. split; [by intros [->|?]|by right].
      * rewrite (sr_free _ _ _ HL2). destruct (decide (p = q)) as [->|Hn]; [|by rewrite lookup_insert_ne].
        rewrite lookup_insert_eq, Ep. split; intros (c & [= <-] & ? & ?). done.
Qed.

Lemma wp_paddr z G p b k (Q : Z -> S * utspace_split -> Prop) : split_inv z G -> G !! p = Some b ->
  (forall rn rb, z.2.(nodes) !! b.(b_root) = Some rn -> rn.(parent) = NULL -> G !! b.(b_root) = Some rb ->
    0 <= b.(b_off) -> b.(b_off) + 2 ^ b.(b_bits) <= 2 ^ rb.(b_bits) ->
    Q (if rn.(n_paddr) =? 0 then 0 else rn.(n_paddr) + b.(b_off)) z) -> wp (_utspace_split_paddr p k) Q z.
Proof.
  intros [Hs [L HL]] Eb HQ. destruct z as [s x]. cbn in *. destruct (rep_node _ _ _ _ _ HL Eb) as (n & En & Hn).
  destruct (no_placed _ _ _ _ _ Hn) as (rb & rc & Erb & Ern & Prn & H1 & H2 & _ & _ & E).
  apply cores_lookup in Ern as (rn & Ern & ->). cbn in *. unfold _utspace_split_paddr. apply wp_bind.
  eapply wp_get_split_node; [done|]. apply wp_ret. rewrite E. by eapply HQ.
Qed.
End alloc.


(** ** The allocator *)
Section whole.
Context {S : Type} (A : allocman_ops S) (K : sel4_calls S) `{!NodeSource A K} (uninit : utspace_split_node).
Implicit Types (s : S) (x : utspace_split) (G : gmap Z block) (z : S * utspace_split).

Lemma split_inv_create s : ns_inv s ∅ -> split_inv (s, utspace_split_create) ∅.
Proof.
  intros H. split; cbn; [by rewrite dom_empty_L|]. exists (fun _ => []). split; cbn.
  - exact lists_create.
  - split; cbn; try done.
  - intros k p. split; [by intros ?%elem_of_nil|]. by intros (b & Eb & _).
Qed.

Definition paddr_head (paddr : option (list Z)) : option Z :=
  match paddr with None => Some 0 | Some (a :: _) => Some a | Some [] => None end.
Fixpoint uts_ok (uts : list (cspacepath_t * Z)) (paddr : option (list Z)) : Prop :=
  match uts with
  | [] => True
  | (_, k) :: uts' => 0 <= k < 32 /\ (exists p, paddr_head paddr = Some p /\ 0 <= p /\ p + 2 ^ k <= 2 ^ 32) /\ uts_ok uts' (tail <$> paddr)
  end.
(** The blocks that are there stay, and there is a new free one for each of [uts]. *)
Definition adds_roots G (uts : list (cspacepath_t * Z)) G' : Prop :=
  (forall p b, G !! p = Some b -> G' !! p = Some b) /\
  exists ps, NoDup ps /\ Forall2 (fun p u => G !! p = None /\ G' !! p = Some (mk_block u.2 p 0 Free)) ps uts.

Lemma merged_root G p k : merged G -> G !! p = None -> (forall q c l r, G !! q = Some c -> c.(b_st) = Split l r -> is_Some (G !! l) /\ is_Some (G !! r)) ->
  merged (<[p := mk_block k p 0 Free]> G).
Proof.
  intros H Ep Hin q c l r Eq Es (bl & El & Fl) (br & Er & Fr).
  apply lookup_insert_Some in Eq as [[_ <-]|[_ Eq]]; [done|]. destruct (Hin q c l r Eq Es) as [[cl Cl] [cr Cr]].
  apply (H q c l r Eq Es); [exists bl|exists br]; split; try done; by rewrite lookup_insert_ne in * by congruence.
Qed.
Lemma split_children z G q c l r : split_inv z G -> G !! q = Some c -> c.(b_st) = Split l r -> is_Some (G !! l) /\ is_Some (G !! r).
Proof.
  intros [_ [L HL]] Eq Es. destruct (rep_node _ _ _ _ _ HL Eq) as (n & _ & Hn).
  split; eapply (no_down _ _ _ _ _ Hn); eauto.
Qed.

Lemma wp_utspace_split_add_uts uts paddr z G : split_inv z G -> uts_ok uts paddr ->
  wp (_utspace_split_add_uts A uninit uts paddr) (fun e y => exists G', split_inv y G' /\ same_used G G' /\
    (merged G -> merged G') /\ (forall p b, G !! p = Some b -> G' !! p = Some b) /\
    (e = 0 \/ e = 1) /\ (e = 0 -> adds_roots G uts G')) z.
Proof.
  revert paddr z G. induction uts as [|[path k] uts IH]; intros paddr z G H Hok; cbn [_utspace_split_add_uts].
  { apply wp_ret. exists G. split_and!; try done; [by left|]. intros _. split; [done|]. exists []. split; constructor. }
  destruct Hok as (Hk & (p0 & Ep0 & Hp0 & Hp1) & Hok). apply wp_bind.
  apply (wp_exact _ _ _ p0 z); [destruct paddr as [[|a l]|]; by simplify_eq/=|].
  apply wp_bind. eapply wp_mono; [by apply (wp_insert_new_node A K uninit z G k path p0)|]. cbv beta.
  intros e y [[-> Hy]|(-> & p & Ep & Hy)]; cbn [negb Z.eqb].
  { apply wp_ret. exists G. split_and!; try done. by right. }
  set (G1 := <[p := mk_block k p 0 Free]> G) in *.
  assert (forall q b, G !! q = Some b -> G1 !! q = Some b) as Hstay by (intros q b E; unfold G1; rewrite lookup_insert_ne; [done|congruence]).
  assert (same_used G G1) as HU.
  { intros q b Hb. unfold G1. rewrite lookup_insert_Some. split; [intros [[_ <-]|[_ ?]]; done|]. intros E. right. split; [congruence|done]. }
  eapply wp_mono; [by apply (IH _ y G1)|]. intros e z' (G' & H' & U' & M' & S' & He & Hadd).
  exists G'. split; [done|]. split; [by eapply used_trans|]. split.
  { intros HG. apply M', merged_root; [done|done|]. intros q c l r. by apply (split_children z G). }
  split; [by auto|]. split; [done|]. intros E0. destruct (Hadd E0) as (_ & ps & Hnd & Hps). split; [by auto|].
  exists (p :: ps). split.
  - constructor; [|done]. intros Hin. apply list_elem_of_lookup in Hin as [i Hi].
    destruct (Forall2_lookup_l _ _ _ _ _ Hps Hi) as (u & _ & En & _). unfold G1 in En. by rewrite lookup_insert_eq in En.
  - constructor.
    + split; [done|]. apply S'. unfold G1. by rewrite lookup_insert_eq.
    + eapply Forall2_impl; [exact Hps|]. cbn. intros q u [En Eq]. split; [|done]. unfold G1 in En. by apply lookup_insert_None in En as [? _].
Qed.

(** With nothing in use, everything has merged. *)
Lemma merged_whole z G : split_inv z G -> merged G -> (forall p b, G !! p = Some b -> b.(b_st) <> Used) ->
  forall p b, G !! p = Some b -> b.(b_st) = Free /\ b.(b_root) = p.
Proof.
  intros H Hm Hu. assert (forall k p b, b.(b_bits) <= k -> G !! p = Some b -> b.(b_st) = Free) as Hfree.
  { intros k. destruct (Z.lt_ge_cases k 0) as [Hneg|Hk].
    - intros p b Hb Eb. exfalso. destruct H as [_ [L HL]]. destruct (rep_node _ _ _ _ _ HL Eb) as (n & _ & Hn).
      pose proof (no_bits _ _ _ _ _ Hn). lia.
    - revert k Hk. apply (natlike_ind (fun k => forall p b, b.(b_bits) <= k -> G !! p = Some b -> b.(b_st) = Free));
        [|intros k Hk IH]; intros p b Hb Eb; (destruct b.(b_st) as [| |l r] eqn:Es; [done|by destruct (Hu p b Eb)|]); exfalso.
      all: destruct H as [_ [L HL]]; destruct (rep_node _ _ _ _ _ HL Eb) as (n & _ & Hn).
      all: destruct (no_down _ _ _ _ _ Hn l r l Es) as ([bl El] & nl & Enl & Pl); [by left|].
      all: destruct (no_down _ _ _ _ _ Hn l r r Es) as ([br Er] & nr & Enr & Pr); [by right|].
      all: apply cores_lookup in Enl as (nl' & Enl & ->); apply cores_lookup in Enr as (nr' & Enr & ->); cbn in Pl, Pr.
      all: pose proof (no_null _ _ _ _ _ Hn) as Hp0.
      all: destruct (parent_block _ _ _ _ _ _ HL El Enl) as (pb & l1 & r1 & bs & ns & Epb & _ & Hbl & _); [by rewrite Pl|].
      all: destruct (parent_block _ _ _ _ _ _ HL Er Enr) as (pb' & l2 & r2 & bs' & ns' & Epb' & _ & Hbr & _); [by rewrite Pr|].
      all: rewrite Pl, Eb in Epb; injection Epb as <-; rewrite Pr, Eb in Epb'; injection Epb' as <-.
      + destruct (rep_node _ _ _ _ _ HL El) as (? & _ & Hnl). pose proof (no_bits _ _ _ _ _ Hnl). lia.
      + apply (Hm p b l r Eb Es); [exists bl|exists br]; (split; [done|]); eapply IH; eauto; lia. }
  intros p b Eb. split; [by eapply (Hfree b.(b_bits)); [lia|]|].
  destruct H as [_ [L HL]]. destruct (rep_node _ _ _ _ _ HL Eb) as (n & En & Hn). pose proof (no_up _ _ _ _ _ Hn) as Hup. cbn in Hup.
  destruct (n.(parent) =? NULL) eqn:E; [by destruct Hup|]. exfalso. apply Z.eqb_neq in E.
  destruct (parent_block _ _ _ _ _ _ HL Eb En E) as (pb & l & r & bs & ns & Epb & Est & _).
  pose proof (Hfree _ _ _ (Z.le_refl _) Epb). congruence.
Qed.

(** A block in use is inside its untyped and apart from the others in use. *)
Lemma block_apart z G p b : split_inv z G -> G !! p = Some b -> b.(b_st) = Used ->
  (forall q c, q <> p -> G !! q = Some c -> c.(b_st) = Used -> apart b c) /\
  (exists k, is_root G b.(b_root) k /\ 0 <= b.(b_off) /\ b.(b_off) + 2 ^ b.(b_bits) <= 2 ^ k).
Proof.
  intros [_ [L HL]] Eb Hu. split.
  - intros q c Hq Eq Hc. apply (to_apart _ _ (sr_tree _ _ _ HL) p q); [congruence|done|done|by right|by right].
  - destruct (rep_node _ _ _ _ _ HL Eb) as (n & _ & Hn).
    destruct (no_placed _ _ _ _ _ Hn) as (rb & rn & Er & Ern & Prn & H0 & H1 & _). exists rb.(b_bits). split; [|done].
    exists rb. split; [done|]. split; [|done]. destruct (to_node _ _ (sr_tree _ _ _ HL) _ _ Er) as (rn' & Ern' & Hrn).
    rewrite Ern in Ern'. injection Ern' as <-. pose proof (no_up _ _ _ _ _ Hrn) as Hup. rewrite Prn in Hup. by destruct Hup.
Qed.
End whole.


(** C21: the splitting allocator of untyped memory. [split_inv z G]: the nodes and free
    lists represent the blocks [G], a forest of halves whose leaves tile the untypeds that were added.
    An allocation returns the node of a block of the size asked for, inside one of the untypeds
    and apart from all blocks in use, and adds exactly this block to those in use; or it reports an error
    and the blocks in use are the same. Freeing takes exactly the block out. Adding untypeds makes each
    of them a free block. If no two free halves of a block are there, there are none after
    a successful allocation or a free; so when nothing is in use any more, every untyped is whole again. *)
Theorem split_allocator_correct {S} (A : allocman_ops S) (K : sel4_calls S) `{!NodeSource A K} uninit z G : split_inv z G ->
  (forall size_bits type slot, 0 <= size_bits < 32 -> 0 <= type <= 10 ->
   wp (_utspace_split_alloc A K uninit size_bits type slot) (fun r y =>
     (r = (0, 1) /\ exists G', split_inv y G' /\ same_used G G' /\ same_roots G G') \/
     (r.2 = 0 /\ exists G' b, split_inv y G' /\ b.(b_st) = Used /\ b.(b_bits) = size_bits /\
       adds_used G r.1 b G' /\ same_roots G G' /\ (merged G -> merged G') /\
       (forall q c, q <> r.1 -> G' !! q = Some c -> c.(b_st) = Used -> apart b c) /\
       (exists k, is_root G b.(b_root) k /\ 0 <= b.(b_off) /\ b.(b_off) + 2 ^ size_bits <= 2 ^ k))) z) /\
  (forall p b, G !! p = Some b -> b.(b_st) = Used ->
   wp (_utspace_split_free A K p b.(b_bits)) (fun _ y =>
     exists G', split_inv y G' /\ drops_used G p G' /\ same_roots G G' /\ (merged G -> merged G')) z) /\
  (forall uts paddr, uts_ok uts paddr ->
   wp (_utspace_split_add_uts A uninit uts paddr) (fun e y => exists G', split_inv y G' /\ same_used G G' /\
     (merged G -> merged G') /\ (e = 0 -> adds_roots G uts G')) z) /\
  (merged G -> (forall p b, G !! p = Some b -> b.(b_st) <> Used) ->
   forall p b, G !! p = Some b -> b.(b_st) = Free /\ b.(b_root) = p).
Proof.
  intros H. split; [|split; [|split]].
  - intros size_bits type slot Hk Ht. eapply wp_mono; [by apply (wp_utspace_split_alloc A K uninit z G)|].
    intros r y [Hr|(Hr & G' & b & Hy & Hu & Hb & Eb & Ha & HR & Hm)]; [by left|]. right. split; [done|].
    destruct (block_apart A K y G' r.1 b Hy Eb Hu) as [Hap (k & Hk1 & Hk2 & Hk3)].
    exists G', b. split_and!; try done. exists k. rewrite <- Hb. split; [by apply HR|done].
  - intros p b Eb Hu. apply (wp_split_free A K split_fuel b.(b_bits) z G p b H Eb Hu eq_refl).
    unfold split_fuel. destruct H as [_ [L HL]]. destruct (rep_node _ _ _ _ _ HL Eb) as (n & _ & Hn).
    pose proof (no_bits _ _ _ _ _ Hn). lia.
  - intros uts paddr Hok. eapply wp_mono; [by apply (wp_utspace_split_add_uts A K uninit uts paddr z G)|].
    intros e y (G' & H1 & H2 & H3 & _ & _ & H4). by exists G'.
  - by apply (merged_whole A K z G).
Qed.

(** A source that hands out one address after the other, and an untyped of 64 KiB *)
Definition split_ops : allocman_ops Z := {|
  allocman_mspace_alloc n s := Ret (s, 0) (s + n);
  allocman_mspace_free _ _ := ret tt;
  allocman_cspace_alloc := ret (0, mk_cspacepath 9 32 2 0 0 9 1);
  allocman_cspace_free _ := ret tt;
  allocman_utspace_alloc _ _ _ := ret (0, 1);
  allocman_utspace_free _ _ := ret tt |}.
Definition split_calls : sel4_calls Z := {| seL4_Untyped_Retype _ _ _ _ _ _ _ _ := ret 0; seL4_CNode_Delete _ _ _ := ret 0 |}.
#[export] Instance split_source : NodeSource split_ops split_calls.
Proof.
  refine {| ns_inv s X := 0 < s /\ forall p, p ∈ X -> p < s |}; try done.
  - intros s X [Hs HX]. unfold wp. cbn. unfold sizeof_split_node, NULL. split; [lia|].
    split; [intros Hin; specialize (HX _ Hin); lia|]. split; [lia|].
    intros p [->%elem_of_singleton|Hp]%elem_of_union; [lia|]. specialize (HX p Hp). lia.
  - intros s X p [Hs HX] _. unfold wp. cbn. split; [done|]. intros q [Hq _]%elem_of_difference. by apply HX.
Defined.
Definition split_path : cspacepath_t := mk_cspacepath 7 32 2 0 0 7 1.
Definition split_garbage : utspace_split_node := mk_split_node split_path 0 0 0 0 0 0.
Definition split_start : Z * utspace_split :=
  (4148, mk_split {[4096 := mk_split_node split_path 0 0 0 65536 0 0]} (<[16%nat := 4096]> (replicate 32 NULL))).
Lemma split_start_inv : exists G, split_inv split_start G.
Proof.
  assert (ns_inv (A:=split_ops) (K:=split_calls) 4096 ∅) as Hs by (cbn; split; [lia|set_solver]).
  assert (uts_ok [(split_path, 16)] (Some [65536])) as Hok.
  { split; [lia|]. split; [by exists 65536|done]. }
  pose proof (wp_utspace_split_add_uts split_ops split_calls split_garbage _ _ _ ∅ (split_inv_create split_ops split_calls 4096 Hs) Hok) as W.
  assert (_utspace_split_add_uts split_ops split_garbage [(split_path, 16)] (Some [65536]) (4096, utspace_split_create) = Ret 0 split_start) as E by reflexivity.
  unfold wp in W. rewrite E in W. destruct W as (G & HG & _). by exists G.
Qed.
Lemma split_allocator_correct_witness :
  exists G, split_inv split_start G /\
  wp (_utspace_split_alloc split_ops split_calls split_garbage 12 seL4_ARM_SmallPageObject split_path) (fun r y =>
     (r = (0, 1) /\ exists G', split_inv y G' /\ same_used G G' /\ same_roots G G') \/
     (r.2 = 0 /\ exists G' b, split_inv y G' /\ b.(b_st) = Used /\ b.(b_bits) = 12 /\
       adds_used G r.1 b G' /\ same_roots G G' /\ (merged G -> merged G') /\
       (forall q c, q <> r.1 -> G' !! q = Some c -> c.(b_st) = Used -> apart b c) /\
       (exists k, is_root G b.(b_root) k /\ 0 <= b.(b_off) /\ b.(b_off) + 2 ^ 12 <= 2 ^ k))) split_start.
Proof.
  destruct split_start_inv as [G HG]. exists G. split; [exact HG|].
  apply (proj1 (split_allocator_correct split_ops split_calls split_garbage split_start G HG)).
  - lia.
  - unfold seL4_ARM_SmallPageObject. lia.
Defined.
(** A page of 64 KiB splits four times, and freeing it merges everything again. *)
Example split_run :
  match _utspace_split_alloc split_ops split_calls split_garbage 12 seL4_ARM_SmallPageObject split_path split_start with
  | Ret (cookie, error) y =>
      (error, heads y.2, match _utspace_split_free split_ops split_calls cookie 12 y with Ret _ y' => heads y'.2 | Stop _ => [] end)
  | Stop _ => (1, [], [])
  end =
  (0, [0; 0; 0; 0; 0; 0; 0; 0; 0; 0; 0; 0; 4512; 4408; 4304; 4200; 0; 0; 0; 0; 0; 0; 0; 0; 0; 0; 0; 0; 0; 0; 0; 0],
   <[16%nat := 4096]> (replicate 32 NULL)).
Proof. vm_compute. reflexivity. Qed.
