(* ===== verification/Hashmap.v ===== *)
(** * The hash map of the runtime (src/crust/libs/c_hashmap/hashmap.c)

    Open addressing with linear probing over at most eight entries, in a table that
    doubles when a place cannot be found. A key is the contents of the string it points to: the
    map keeps the pointer, and its strings do not change while they are keys. Memory comes
    from calloc and goes back with free, which are parameters. [unsigned long] has 32 bits. *)
From stdpp Require Import base list gmap.
From Stdlib Require Import ZArith Lia.
From S2P Require Import Prelude.
From S2P Require Import AllocBase.

Definition MAP_MISSING : Z := -3.
Definition MAP_FULL : Z := -2.
Definition MAP_OMEM : Z := -1.
Definition MAP_OK : Z := 0.
Definition INITIAL_SIZE : Z := 256.
Definition MAX_CHAIN_LENGTH : nat := 8.

(** Bytes without the terminating zero *)
Abbreviation key_string := (list Z).
Record hashmap_element := mk_element { e_key : option key_string; in_use : Z; e_data : Z }.
#[export] Instance hashmap_element_eq_dec : EqDecision hashmap_element.
Proof. solve_decision. Defined.
(** [hm_ptr] is the address of the array and [hm_data] its elements. *)
Record hashmap_map := mk_hashmap { table_size : Z; hm_size : Z; hm_ptr : Z; hm_data : list hashmap_element }.
Definition sizeof_element : Z := 12.
Definition sizeof_hashmap_map : Z := 12.
(** What calloc gives *)
Definition empty_element : hashmap_element := mk_element None 0 NULL.

(** ** The hash function *)
Definition crc32_tab : list Z := [
  0x00000000; 0x77073096; 0xee0e612c; 0x990951ba; 0x076dc419; 0x706af48f; 0xe963a535; 0x9e6495a3;
  0x0edb8832; 0x79dcb8a4; 0xe0d5e91e; 0x97d2d988; 0x09b64c2b; 0x7eb17cbd; 0xe7b82d07; 0x90bf1d91;
  0x1db71064; 0x6ab020f2; 0xf3b97148; 0x84be41de; 0x1adad47d; 0x6ddde4eb; 0xf4d4b551; 0x83d385c7;
  0x136c9856; 0x646ba8c0; 0xfd62f97a; 0x8a65c9ec; 0x14015c4f; 0x63066cd9; 0xfa0f3d63; 0x8d080df5;
  0x3b6e20c8; 0x4c69105e; 0xd56041e4; 0xa2677172; 0x3c03e4d1; 0x4b04d447; 0xd20d85fd; 0xa50ab56b;
  0x35b5a8fa; 0x42b2986c; 0xdbbbc9d6; 0xacbcf940; 0x32d86ce3; 0x45df5c75; 0xdcd60dcf; 0xabd13d59;
  0x26d930ac; 0x51de003a; 0xc8d75180; 0xbfd06116; 0x21b4f4b5; 0x56b3c423; 0xcfba9599; 0xb8bda50f;
  0x2802b89e; 0x5f058808; 0xc60cd9b2; 0xb10be924; 0x2f6f7c87; 0x58684c11; 0xc1611dab; 0xb6662d3d;
  0x76dc4190; 0x01db7106; 0x98d220bc; 0xefd5102a; 0x71b18589; 0x06b6b51f; 0x9fbfe4a5; 0xe8b8d433;
  0x7807c9a2; 0x0f00f934; 0x9609a88e; 0xe10e9818; 0x7f6a0dbb; 0x086d3d2d; 0x91646c97; 0xe6635c01;
  0x6b6b51f4; 0x1c6c6162; 0x856530d8; 0xf262004e; 0x6c0695ed; 0x1b01a57b; 0x8208f4c1; 0xf50fc457;
  0x65b0d9c6; 0x12b7e950; 0x8bbeb8ea; 0xfcb9887c; 0x62dd1ddf; 0x15da2d49; 0x8cd37cf3; 0xfbd44c65;
  0x4db26158; 0x3ab551ce; 0xa3bc0074; 0xd4bb30e2; 0x4adfa541; 0x3dd895d7; 0xa4d1c46d; 0xd3d6f4fb;
  0x4369e96a; 0x346ed9fc; 0xad678846; 0xda60b8d0; 0x44042d73; 0x33031de5; 0xaa0a4c5f; 0xdd0d7cc9;
  0x5005713c; 0x270241aa; 0xbe0b1010; 0xc90c2086; 0x5768b525; 0x206f85b3; 0xb966d409; 0xce61e49f;
  0x5edef90e; 0x29d9c998; 0xb0d09822; 0xc7d7a8b4; 0x59b33d17; 0x2eb40d81; 0xb7bd5c3b; 0xc0ba6cad;
  0xedb88320; 0x9abfb3b6; 0x03b6e20c; 0x74b1d29a; 0xead54739; 0x9dd277af; 0x04db2615; 0x73dc1683;
  0xe3630b12; 0x94643b84; 0x0d6d6a3e; 0x7a6a5aa8; 0xe40ecf0b; 0x9309ff9d; 0x0a00ae27; 0x7d079eb1;
  0xf00f9344; 0x8708a3d2; 0x1e01f268; 0x6906c2fe; 0xf762575d; 0x806567cb; 0x196c3671; 0x6e6b06e7;
  0xfed41b76; 0x89d32be0; 0x10da7a5a; 0x67dd4acc; 0xf9b9df6f; 0x8ebeeff9; 0x17b7be43; 0x60b08ed5;
  0xd6d6a3e8; 0xa1d1937e; 0x38d8c2c4; 0x4fdff252; 0xd1bb67f1; 0xa6bc5767; 0x3fb506dd; 0x48b2364b;
  0xd80d2bda; 0xaf0a1b4c; 0x36034af6; 0x41047a60; 0xdf60efc3; 0xa867df55; 0x316e8eef; 0x4669be79;
  0xcb61b38c; 0xbc66831a; 0x256fd2a0; 0x5268e236; 0xcc0c7795; 0xbb0b4703; 0x220216b9; 0x5505262f;
  0xc5ba3bbe; 0xb2bd0b28; 0x2bb45a92; 0x5cb36a04; 0xc2d7ffa7; 0xb5d0cf31; 0x2cd99e8b; 0x5bdeae1d;
  0x9b64c2b0; 0xec63f226; 0x756aa39c; 0x026d930a; 0x9c0906a9; 0xeb0e363f; 0x72076785; 0x05005713;
  0x95bf4a82; 0xe2b87a14; 0x7bb12bae; 0x0cb61b38; 0x92d28e9b; 0xe5d5be0d; 0x7cdcefb7; 0x0bdbdf21;
  0x86d3d2d4; 0xf1d4e242; 0x68ddb3f8; 0x1fda836e; 0x81be16cd; 0xf6b9265b; 0x6fb077e1; 0x18b74777;
  0x88085ae6; 0xff0f6a70; 0x66063bca; 0x11010b5c; 0x8f659eff; 0xf862ae69; 0x616bffd3; 0x166ccf45;
  0xa00ae278; 0xd70dd2ee; 0x4e048354; 0x3903b3c2; 0xa7672661; 0xd06016f7; 0x4969474d; 0x3e6e77db;
  0xaed16a4a; 0xd9d65adc; 0x40df0b66; 0x37d83bf0; 0xa9bcae53; 0xdebb9ec5; 0x47b2cf7f; 0x30b5ffe9;
  0xbdbdf21c; 0xcabac28a; 0x53b39330; 0x24b4a3a6; 0xbad03605; 0xcdd70693; 0x54de5729; 0x23d967bf;
  0xb3667a2e; 0xc4614ab8; 0x5d681b02; 0x2a6f2b94; 0xb40bbe37; 0xc30c8ea1; 0x5a05df1b; 0x2d02ef8d].

Definition crc32 (s : list Z) : Z :=
  foldl (fun crc32val b => Z.lxor (crc32_tab !!! Z.to_nat (Z.land (Z.lxor crc32val b) 0xff)) (crc32val >>w 8)) 0 s.

(** Before the remainder by the size of the table *)
Definition mix (key : Z) : Z :=
  let key := key +w (key <<w 12) in
  let key := Z.lxor key (key >>w 22) in
  let key := key +w (key <<w 4) in
  let key := Z.lxor key (key >>w 9) in
  let key := key +w (key <<w 10) in
  let key := Z.lxor key (key >>w 2) in
  let key := key +w (key <<w 7) in
  let key := Z.lxor key (key >>w 12) in
  (key >>w 3) *w 2654435761.
Definition hashmap_hash_int (m : hashmap_map) (keystring : key_string) : Z := mix (crc32 keystring) mod m.(table_size).

(** ** The operations *)
Section hashmap.
Context {S : Type} (calloc : Z -> Z -> M S Z) (malloc : Z -> M S Z) (free : Z -> M S unit).
Abbreviation T := (M (S * hashmap_map)).
Definition hm_env {B} (op : M S B) : T B := zoom fst (fun s x => (s, x.2)) op.
Definition hm_get : T hashmap_map := gets snd.
Definition hm_put (m : hashmap_map) : T unit := modify (fun x => (x.1, m)).
(** [m->data[i]] *)
Definition hm_element (m : hashmap_map) (i : Z) : T hashmap_element :=
  of_option (if i <? 0 then None else m.(hm_data) !! Z.to_nat i).
(** strcmp on a NULL pointer is undefined. *)
Definition same_key (e : hashmap_element) (key : key_string) : T bool :=
  let* k := of_option e.(e_key) in ret (bool_decide (k = key)).

Definition hashmap_new : M S (option (Z * hashmap_map)) :=
  let* m := malloc sizeof_hashmap_map in
  if m =? NULL then ret None
  else
    let* data := calloc INITIAL_SIZE sizeof_element in
    if data =? NULL then
      free data ;;;
      free m ;;;
      ret None
    else ret (Some (m, mk_hashmap INITIAL_SIZE 0 data (replicate (Z.to_nat INITIAL_SIZE) empty_element))).

(** The linear probing of [hashmap_hash] *)
Fixpoint probe (m : hashmap_map) (key : key_string) (n : nat) (curr : Z) : T Z :=
  match n with
  | O => ret MAP_FULL
  | Datatypes.S n' =>
      let* e := hm_element m curr in
      if e.(in_use) =? 0 then ret curr
      else
        let* same := (if e.(in_use) =? 1 then same_key e key else ret false) in
        if same then ret curr else probe m key n' ((curr + 1) mod m.(table_size))
  end.
Definition hashmap_hash (key : key_string) : T Z :=
  let* m := hm_get in
  if m.(hm_size) >=? m.(table_size) / 2 then ret MAP_FULL
  else probe m key MAX_CHAIN_LENGTH (hashmap_hash_int m key).

(** The loop of [hashmap_rehash] over the old array *)
Fixpoint rehash_elements (put : key_string -> Z -> T Z) (curr : list hashmap_element) : T Z :=
  match curr with
  | [] => ret MAP_OK
  | e :: curr' =>
      if e.(in_use) =? 0 then rehash_elements put curr'
      else
        let* key := of_option e.(e_key) in
        let* status := put key e.(e_data) in
        if negb (status =? MAP_OK) then ret status else rehash_elements put curr'
  end.
(** [put] is the recursive call; the doubled size must be an int. *)
Definition hashmap_rehash (put : key_string -> Z -> T Z) : T Z :=
  let* m := hm_get in
  if 2 * m.(table_size) >=? 2 ^ 31 then halt_with Undefined
  else
    let* temp := hm_env (calloc (2 * m.(table_size)) sizeof_element) in
    if temp =? NULL then ret MAP_OMEM
    else
      hm_put (mk_hashmap (2 * m.(table_size)) 0 temp (replicate (Z.to_nat (2 * m.(table_size))) empty_element)) ;;;
      let* status := rehash_elements put m.(hm_data) in
      if negb (status =? MAP_OK) then ret status
      else
        hm_env (free m.(hm_ptr)) ;;;
        ret MAP_OK.

(** One level of fuel for each time the table doubles *)
Fixpoint put_fuel (fuel : nat) (key : key_string) (value : Z) : T Z :=
  match fuel with
  | O => halt_with NoFuel
  | Datatypes.S fuel' =>
      let* index := hashmap_hash key in
      if index =? MAP_FULL then
        let* status := hashmap_rehash (put_fuel fuel') in
        if status =? MAP_OMEM then ret MAP_OMEM else put_fuel fuel' key value
      else
        let* m := hm_get in
        hm_put (mk_hashmap m.(table_size) (m.(hm_size) + 1) m.(hm_ptr)
          (<[Z.to_nat index := mk_element (Some key) 1 value]> m.(hm_data))) ;;;
        ret MAP_OK
  end.
Definition hashmap_fuel : nat := 30.
Definition hashmap_put : key_string -> Z -> T Z := put_fuel hashmap_fuel.

(** The status and what the result points to *)
Fixpoint get_probe (m : hashmap_map) (key : key_string) (n : nat) (curr : Z) : T (Z * Z) :=
  match n with
  | O => ret (MAP_MISSING, NULL)
  | Datatypes.S n' =>
      let* e := hm_element m curr in
      let* same := (if e.(in_use) =? 1 then same_key e key else ret false) in
      if same then ret (MAP_OK, e.(e_data)) else get_probe m key n' ((curr + 1) mod m.(table_size))
  end.
Definition hashmap_get (key : key_string) : T (Z * Z) :=
  let* m := hm_get in
  get_probe m key MAX_CHAIN_LENGTH (hashmap_hash_int m key).

Fixpoint remove_probe (m : hashmap_map) (key : key_string) (n : nat) (curr : Z) : T Z :=
  match n with
  | O => ret MAP_MISSING
  | Datatypes.S n' =>
      let* e := hm_element m curr in
      let* same := (if e.(in_use) =? 1 then same_key e key else ret false) in
      if same then
        hm_put (mk_hashmap m.(table_size) (m.(hm_size) - 1) m.(hm_ptr) (<[Z.to_nat curr := empty_element]> m.(hm_data))) ;;;
        ret MAP_OK
      else remove_probe m key n' ((curr + 1) mod m.(table_size))
  end.
Definition hashmap_remove (key : key_string) : T Z :=
  let* m := hm_get in
  remove_probe m key MAX_CHAIN_LENGTH (hashmap_hash_int m key).

Definition hashmap_length (m : option hashmap_map) : Z := match m with Some m => m.(hm_size) | None => 0 end.

(** The callback must not touch the map. *)
Fixpoint iterate_elements (f : Z -> Z -> M S Z) (item : Z) (l : list hashmap_element) : T Z :=
  match l with
  | [] => ret MAP_OK
  | e :: l' =>
      if negb (e.(in_use) =? 0) then
        let* status := hm_env (f item e.(e_data)) in
        if negb (status =? MAP_OK) then ret status else iterate_elements f item l'
      else iterate_elements f item l'
  end.
Definition hashmap_iterate (f : Z -> Z -> M S Z) (item : Z) : T Z :=
  let* m := hm_get in
  if hashmap_length (Some m) <=? 0 then ret MAP_MISSING
  else iterate_elements f item (take (Z.to_nat m.(table_size)) m.(hm_data)).

Definition hashmap_free (ptr : Z) (m : hashmap_map) : M S unit :=
  free m.(hm_ptr) ;;;
  free ptr.
End hashmap.
