(* ===== verification/HashmapTable.v ===== *)
(** * The hash map: its table

    The table of the hash function, the values a table has for a key in the order a lookup comes
    by them, the invariant of the table, and what writing an element makes of them. *)
From stdpp Require Import base list gmap.
From Stdlib Require Import ZArith Lia.
From S2P Require Import Prelude.
From S2P Require Import AllocBase.
From S2P Require Import Hashmap.


(** ** The table of the hash function

    An entry is the remainder of eight shifts: the table is the polynomial. *)
Definition crc_step (c : Z) : Z := if Z.testbit c 0 then Z.lxor (c >>w 1) 0xedb88320 else c >>w 1.
Lemma crc32_tab_polynomial i : 0 <= i < 256 -> crc32_tab !!! Z.to_nat i = Nat.iter 8 crc_step i.
Proof.
  intros Hi. assert (Forall (fun i => crc32_tab !!! Z.to_nat i = Nat.iter 8 crc_step i) (seqZ 0 256)) as H.
  { apply (bool_decide_unpack _). vm_compute. exact I. }
  rewrite Forall_forall in H. apply H, elem_of_seqZ. lia.
Qed.

(** ** What a table contains *)
Implicit Types (m : hashmap_map) (key k : key_string) (l : list hashmap_element).
Definition pair_of (e : hashmap_element) : option (key_string * Z) :=
  if e.(in_use) =? 0 then None else k ← e.(e_key); Some (k, e.(e_data)).
Definition pairs l : list (key_string * Z) := omap pair_of l.
Definition holds m (i : Z) k (v : Z) : Prop := 0 <= i /\ m.(hm_data) !! Z.to_nat i = Some (mk_element (Some k) 1 v).
(** The entry number [d] of the chain of a key *)
Definition chain m k (d : Z) : Z := (hashmap_hash_int m k + d) mod m.(table_size).
(** The values of a key, as they follow each other along its chain: a key may be there more than
    once. *)
Definition value_of k (e : hashmap_element) : option Z :=
  p ← pair_of e; if decide (p.1 = k) then Some p.2 else None.
Definition chain_value m k (d : Z) : option Z := m.(hm_data) !! Z.to_nat (chain m k d) ≫= value_of k.
Definition stack m k : list Z := omap (chain_value m k) (seqZ 0 8).
(** For each key the value that comes last in the array *)
Definition contents m : gmap key_string Z := list_to_map (reverse (pairs m.(hm_data))).
(** All values in the order of the array *)
Abbreviation values m := (pairs m.(hm_data)).*2.
(** The number of elements in use *)
Definition used m : Z := Z.of_nat (length (pairs m.(hm_data))).

Definition element_ok (e : hashmap_element) : Prop := e.(in_use) = 0 \/ exists k v, e = mk_element (Some k) 1 v.
(** Every element is free or holds a key of which it is one of the eight entries. *)
Record table_ok m : Prop := {
  tk_size : exists j, 8 <= j <= 28 /\ m.(table_size) = 2 ^ j;
  tk_length : Z.of_nat (length m.(hm_data)) = m.(table_size);
  tk_element : forall i e, m.(hm_data) !! i = Some e -> e.(in_use) = 0 \/
    exists k v d, e = mk_element (Some k) 1 v /\ 0 <= d < 8 /\ Z.of_nat i = chain m k d }.
(** No key is there twice. *)
Definition once m : Prop := forall i j k v w, holds m i k v -> holds m j k w -> i = j.
Definition absent m key : Prop := forall i v, ~ holds m i key v.
(** Probing for the key finds it before a free element. *)
Definition reachable m k : Prop :=
  exists d v, 0 <= d < 8 /\ holds m (chain m k d) k v /\
    forall d', 0 <= d' < d -> exists k' w, holds m (chain m k d') k' w.
(** Every key is there once, where probing finds it. *)
Definition solid m : Prop := once m /\ forall i k v, holds m i k v -> reachable m k.
Definition counted m : Prop := used m <= m.(hm_size).
Definition exact m : Prop := m.(hm_size) = used m.

#[local] Opaque mix crc32.
Lemma value_of_Some k e v : element_ok e -> value_of k e = Some v <-> e = mk_element (Some k) 1 v.
Proof.
  unfold value_of, pair_of. intros [E0|(k' & v' & ->)].
  - rewrite E0. cbn. split; [done|]. intros ->. done.
  - cbn. case_decide; simplify_eq/=; naive_solver.
Qed.
Lemma pairs_elem l k v : (forall i e, l !! i = Some e -> element_ok e) ->
  (k, v) ∈ pairs l <-> exists i, l !! i = Some (mk_element (Some k) 1 v).
Proof.
  intros H. unfold pairs. rewrite list_elem_of_omap. split.
  - intros (e & He & Ep). apply list_elem_of_lookup in He as [i Ei]. exists i. unfold pair_of in Ep.
    destruct (H i e Ei) as [E0|(k' & v' & ->)]; [by rewrite E0 in Ep|]. cbn in Ep. by injection Ep as -> ->.
  - intros [i Ei]. exists (mk_element (Some k) 1 v). split; [by eapply list_elem_of_lookup_2|done].
Qed.
Lemma pairs_nodup l : (forall i e, l !! i = Some e -> element_ok e) ->
  (forall i j k v w, l !! i = Some (mk_element (Some k) 1 v) -> l !! j = Some (mk_element (Some k) 1 w) -> i = j) ->
  NoDup (pairs l).*1.
Proof.
  induction l as [|e l IH]; intros H1 H2; [constructor|].
  assert (NoDup (pairs l).*1) as Hl.
  { apply IH; [intros i; apply (H1 (Datatypes.S i))|]. intros i j k v w Hi Hj. 
    assert (Datatypes.S i = Datatypes.S j) by (by eapply (H2 (Datatypes.S i) (Datatypes.S j))). lia. }
  cbn. destruct (H1 0%nat e eq_refl) as [E0|(k & v & ->)]; [unfold pair_of; by rewrite E0|]. cbn. constructor; [|done].
  intros ([k' w] & Ek & Hin)%list_elem_of_fmap. cbn in Ek. subst k'.
  apply pairs_elem in Hin as [i Hi]; [|intros i; apply (H1 (Datatypes.S i))].
  assert (0%nat = Datatypes.S i) by (by eapply (H2 0%nat (Datatypes.S i) k v w)). done.
Qed.

Lemma used_insert l i e e' : l !! i = Some e ->
  (length (pairs (<[i := e']> l)) + length (pairs [e]) = length (pairs l) + length (pairs [e']))%nat.
Proof.
  intros E. pose proof (lookup_lt_Some _ _ _ E) as Hi. rewrite insert_take_drop by done.
  rewrite <- (take_drop_middle l i e E) at 3. unfold pairs. rewrite !omap_app, !length_app. cbn.
  destruct (pair_of e), (pair_of e'); cbn; lia.
Qed.

Section tables.
Context m (H : table_ok m).
Lemma table_elements i e : m.(hm_data) !! i = Some e -> element_ok e.
Proof using H. intros Ei. destruct (tk_element _ H i e Ei) as [?|(k & v & d & -> & _)]; [by left|right; eauto]. Qed.
Lemma pairs_holds k v : (k, v) ∈ pairs m.(hm_data) <-> exists i, holds m i k v.
Proof using H.
  rewrite pairs_elem by apply table_elements. unfold holds. split; intros [i Hi].
  - exists (Z.of_nat i). rewrite Nat2Z.id. split; [lia|done].
  - exists (Z.to_nat i). by destruct Hi.
Qed.
Lemma contents_last k v : contents m !! k = Some v -> exists i, holds m i k v.
Proof using H. intros E%elem_of_list_to_map_2. rewrite elem_of_reverse in E. by apply pairs_holds. Qed.
Lemma contents_none k : contents m !! k = None <-> absent m k.
Proof using H.
  unfold contents. rewrite <- not_elem_of_list_to_map, fmap_reverse, elem_of_reverse. split.
  - intros Hn i v Hi. apply Hn, list_elem_of_fmap. exists (k, v). split; [done|]. apply pairs_holds. eauto.
  - intros Ha ([k' v] & -> & Hin)%list_elem_of_fmap. apply pairs_holds in Hin as [i Hi]. by destruct (Ha i v).
Qed.
Lemma contents_holds k v : once m -> contents m !! k = Some v <-> exists i, holds m i k v.
Proof using H.
  intros Ho. split; [apply contents_last|]. intros [i Hi]. destruct (contents m !! k) as [w|] eqn:E.
  - apply contents_last in E as [j Hj]. pose proof (Ho _ _ _ _ _ Hi Hj) as ->.
    destruct Hi as [_ E1], Hj as [_ E2]. rewrite E1 in E2. by injection E2 as ->.
  - apply contents_none in E. by destruct (E i v).
Qed.
Lemma table_pos : 256 <= m.(table_size) <= 2 ^ 28.
Proof using H.
  destruct (tk_size _ H) as (j & Hj & ->). change 256 with (2 ^ 8). split; apply Z.pow_le_mono_r; lia.
Qed.
Lemma chain_range k d : 0 <= chain m k d < m.(table_size).
Proof using H. pose proof table_pos. apply Z.mod_pos_bound. lia. Qed.
Lemma chain_next k d : (chain m k d + 1) mod m.(table_size) = chain m k (d + 1).
Proof using H. pose proof table_pos. unfold chain. rewrite Z.add_mod_idemp_l by lia. by rewrite Z.add_assoc. Qed.
Lemma chain_start k : hashmap_hash_int m k = chain m k 0.
Proof using H.
  pose proof table_pos. unfold chain, hashmap_hash_int. rewrite Z.add_0_r. symmetry. apply Z.mod_mod. lia.
Qed.
(** The eight entries of a chain are different. *)
Lemma mod_window t h d d' : 8 <= t -> 0 <= d < 8 -> 0 <= d' < 8 -> (h + d) mod t = (h + d') mod t -> d = d'.
Proof using.
  intros Ht Hd Hd' E. pose proof (Z.div_mod (h + d) t ltac:(lia)) as E1.
  pose proof (Z.div_mod (h + d') t ltac:(lia)) as E2. rewrite E in E1.
  assert (d - d' = t * ((h + d) / t - (h + d') / t)) as E3 by lia.
  generalize dependent ((h + d) / t - (h + d') / t). clear -Ht Hd Hd'. intros q E3.
  destruct (Z_lt_le_dec 0 q); [nia|]. destruct (Z_lt_le_dec q 0); nia.
Qed.
Lemma chain_inj k d d' : 0 <= d < 8 -> 0 <= d' < 8 -> chain m k d = chain m k d' -> d = d'.
Proof using H. intros Hd Hd' E. pose proof table_pos as [Ht _]. eapply mod_window; [|done|done|exact E]. clear -Ht. lia. Qed.
Lemma chain_element k d : exists e, m.(hm_data) !! Z.to_nat (chain m k d) = Some e /\ element_ok e.
Proof using H.
  pose proof (chain_range k d) as Hr. pose proof (tk_length _ H) as Hl.
  destruct (lookup_lt_is_Some_2 m.(hm_data) (Z.to_nat (chain m k d))) as [e E]; [lia|].
  exists e. split; [done|]. by eapply table_elements.
Qed.
(** A key that is there is in its chain. *)
Lemma holds_chain i k v : holds m i k v -> exists d, 0 <= d < 8 /\ i = chain m k d.
Proof using H.
  intros [Hi E]. destruct (tk_element _ H _ _ E) as [E0|(k' & v' & d & [= <- <-] & Hd & Ei)]; [done|].
  exists d. split; [done|]. lia.
Qed.
Lemma chain_value_holds k d v : chain_value m k d = Some v <-> holds m (chain m k d) k v.
Proof using H.
  unfold chain_value, holds. destruct (chain_element k d) as (e & -> & He). cbn -[value_of]. rewrite value_of_Some by done.
  pose proof (chain_range k d). split; [intros ->; split; [lia|done]|by intros [_ [= ->]]].
Qed.
Lemma stack_holds k v : v ∈ stack m k <-> exists i, holds m i k v.
Proof using H.
  unfold stack. rewrite list_elem_of_omap. split.
  - intros (d & _ & Hd%chain_value_holds). eauto.
  - intros [i Hi]. destruct (holds_chain _ _ _ Hi) as (d & Hd & ->). exists d. split; [|by apply chain_value_holds].
    apply elem_of_seqZ. lia.
Qed.
Lemma stack_nil k : stack m k = [] <-> absent m k.
Proof using H.
  split.
  - intros E i v Hi. assert (v ∈ stack m k) as Hv by (apply stack_holds; eauto). rewrite E in Hv. by apply elem_of_nil in Hv.
  - intros Ha. destruct (stack m k) as [|v vs] eqn:E; [done|]. assert (v ∈ stack m k) as Hv by (rewrite E; left).
    apply stack_holds in Hv as [i Hi]. by destruct (Ha i v).
Qed.
(** What comes before an entry of the chain, what is there, and what comes after *)
Lemma stack_split k d : 0 <= d < 8 -> stack m k =
  omap (chain_value m k) (seqZ 0 d) ++ option_list (chain_value m k d) ++ omap (chain_value m k) (seqZ (d + 1) (7 - d)).
Proof using.
  intros Hd. unfold stack. replace 8 with (d + (8 - d)) at 1 by lia. rewrite seqZ_app by lia. rewrite omap_app. f_equal.
  rewrite Z.add_0_l, seqZ_cons by lia. replace (Z.succ d) with (d + 1) by lia. replace (Z.pred (8 - d)) with (7 - d) by lia.
  cbn [omap list_omap]. destruct (chain_value m k d); done.
Qed.
Lemma omap_none {A B} (f : A -> option B) (l : list A) : (forall a, a ∈ l -> f a = None) -> omap f l = [].
Proof using.
  intros Hf. induction l as [|a l IH]; [done|]. cbn. rewrite (Hf a) by left. apply IH. intros b Hb. apply Hf. by right.
Qed.
Lemma stack_first k d : 0 <= d < 8 -> (forall d' v, 0 <= d' < d -> ~ holds m (chain m k d') k v) ->
  stack m k = option_list (chain_value m k d) ++ omap (chain_value m k) (seqZ (d + 1) (7 - d)).
Proof using H.
  intros Hd Hn. rewrite (stack_split k d Hd), omap_none; [done|]. intros d' Hd'%elem_of_seqZ.
  destruct (chain_value m k d') as [v|] eqn:E; [|done]. apply chain_value_holds in E. destruct (Hn d' v); [lia|done].
Qed.
(** A table that has every key at most once is a finite map. *)
Lemma stack_contents k : once m -> stack m k = option_list (contents m !! k).
Proof using H.
  intros Ho. destruct (contents m !! k) as [v|] eqn:E; [|by apply stack_nil, contents_none].
  apply contents_last in E as [i Hi]. destruct (holds_chain _ _ _ Hi) as (d & Hd & ->).
  assert (forall d' w, 0 <= d' < 8 -> d' <> d -> ~ holds m (chain m k d') k w) as Hn.
  { intros d' w Hd' Hne Hh. apply Hne, (chain_inj k); [done|done|]. by eapply Ho. }
  rewrite (stack_first k d Hd) by (intros; apply Hn; lia). rewrite (proj2 (chain_value_holds k d v) Hi).
  rewrite omap_none; [done|]. intros d' Hd'%elem_of_seqZ.
  destruct (chain_value m k d') as [w|] eqn:E; [|done]. apply chain_value_holds in E. destruct (Hn d' w); [lia|lia|done].
Qed.
Lemma key_dec k : (exists d v, 0 <= d < 8 /\ holds m (chain m k d) k v) \/ absent m k.
Proof using H.
  destruct (contents m !! k) as [v|] eqn:E; [left|right; by apply contents_none].
  apply contents_last in E as [i Hi]. destruct (holds_chain _ _ _ Hi) as (d & Hd & ->). eauto.
Qed.
Lemma solid_finds k : solid m -> absent m k \/ reachable m k.
Proof using H. intros [_ Hs]. destruct (key_dec k) as [(d & v & _ & Hh)|Ha]; [right; by eapply Hs|by left]. Qed.
End tables.

(** ** Setting an element *)
Definition vacant m (i : Z) : Prop := 0 <= i /\ exists e, m.(hm_data) !! Z.to_nat i = Some e /\ e.(in_use) = 0.
Definition blocked m key (d : Z) : Prop := exists k w, holds m (chain m key d) k w /\ k <> key.
(** No place is found for the key: half of the table counts as used, or other keys have the chain. *)
Definition crowded m key : Prop :=
  m.(table_size) / 2 <= m.(hm_size) \/ forall d, 0 <= d < 8 -> blocked m key d.
(** Where [hashmap_hash] tells to store a key: everything before is taken by other keys. *)
Record place m key (i : Z) : Prop := {
  pl_chain : exists d, 0 <= d < 8 /\ i = chain m key d /\ forall d', 0 <= d' < d -> blocked m key d';
  pl_element : vacant m i \/ exists v, holds m i key v }.
Definition set_at m (i : Z) (e : hashmap_element) (n : Z) : hashmap_map :=
  mk_hashmap m.(table_size) n m.(hm_ptr) (<[Z.to_nat i := e]> m.(hm_data)).

Lemma blocked_absurd m key d v : blocked m key d -> ~ holds m (chain m key d) key v.
Proof. intros (k & w & [_ E1] & Hne) [_ E2]. rewrite E1 in E2. by injection E2. Qed.
Lemma vacant_absurd m i k v : vacant m i -> ~ holds m i k v.
Proof. intros (_ & e & E & E0) [_ E2]. rewrite E in E2. by injection E2 as ->. Qed.
Lemma holds_inj m i k v k' v' : holds m i k v -> holds m i k' v' -> k = k' /\ v = v'.
Proof. intros [_ E1] [_ E2]. rewrite E1 in E2. by injection E2. Qed.
(** The key is at its place when probing finds it. *)
Lemma place_reachable m key i : place m key i -> reachable m key <-> exists v, holds m i key v.
Proof.
  intros [(d & Hd & -> & Hb) Hv]. split.
  - intros (d0 & v0 & Hd0 & Hh & Hr). destruct (Z_lt_le_dec d0 d) as [Hlt|Hle].
    { by destruct (blocked_absurd m key d0 v0 (Hb d0 ltac:(lia))). }
    destruct (Z.eq_dec d0 d) as [->|Hne]; [eauto|]. destruct (Hr d ltac:(lia)) as (k' & w & Hk).
    destruct Hv as [Hv|Hv]; [by destruct (vacant_absurd _ _ _ _ Hv Hk)|done].
  - intros [v Hh]. exists d, v. split_and!; [lia|lia|done|]. intros d' Hd'. destruct (Hb d' Hd') as (k & w & Hk & _). eauto.
Qed.
Lemma place_not_crowded m key i : m.(hm_size) < m.(table_size) / 2 -> place m key i -> ~ crowded m key.
Proof.
  intros Hn [(d & Hd & -> & _) Hv] [Hc|Hc]; [lia|]. destruct (Hc d Hd) as (k & w & Hk & Hne).
  destruct Hv as [Hv|[v Hv]]; [by destruct (vacant_absurd _ _ _ _ Hv Hk)|]. by destruct (holds_inj _ _ _ _ _ _ Hk Hv).
Qed.

Section setting.
#[local] Opaque mix crc32.
Context m (H : table_ok m) key (d : Z) (Hd : 0 <= d < 8).
Abbreviation i := (chain m key d).
Lemma set_lookup e n j : 0 <= j -> (set_at m i e n).(hm_data) !! Z.to_nat j = if decide (j = i) then Some e else m.(hm_data) !! Z.to_nat j.
Proof using H.
  intros Hj. pose proof (chain_range m H key d) as Hr. pose proof (tk_length _ H) as Hl. unfold set_at. cbn -[chain].
  destruct (decide (j = i)) as [->|Hne]; [apply list_lookup_insert_eq; lia|apply list_lookup_insert_ne; lia].
Qed.
Lemma set_chain e n k d' : chain (set_at m i e n) k d' = chain m k d'.
Proof using. done. Qed.
Lemma set_ok e n : e.(in_use) = 0 \/ (exists v, e = mk_element (Some key) 1 v) -> table_ok (set_at m i e n).
Proof using H Hd.
  intros He. split; [apply (tk_size _ H)|unfold set_at; cbn -[chain]; rewrite length_insert; apply (tk_length _ H)|].
  intros j e' Ej. rewrite <- (Nat2Z.id j) in Ej. rewrite set_lookup in Ej by lia.
  destruct (decide _) as [->|Hne]; [|rewrite Nat2Z.id in Ej; by apply (tk_element _ H)]. injection Ej as <-.
  destruct He as [He|[v ->]]; [by left|right]. exists key, v, d. split; [done|]. split; [done|]. rewrite set_chain. lia.
Qed.
Lemma put_holds v n j k w : holds (set_at m i (mk_element (Some key) 1 v) n) j k w <->
  (j = i /\ k = key /\ w = v) \/ (j <> i /\ holds m j k w).
Proof using H Hd.
  pose proof (chain_range m H key d) as Hr. unfold holds. destruct (Z_lt_le_dec j 0); [lia|]. rewrite set_lookup by done.
  destruct (decide (j = i)) as [->|Hne]; [|tauto]. split; [intros [_ [= <- <-]]; by left|].
  intros [(_ & -> & ->)|[? _]]; [|done]. split; [lia|done].
Qed.
Lemma drop_holds n j k w : holds (set_at m i empty_element n) j k w <-> j <> i /\ holds m j k w.
Proof using H Hd.
  unfold holds. destruct (Z_lt_le_dec j 0); [lia|]. rewrite set_lookup by done.
  destruct (decide (j = i)) as [->|Hne]; [|tauto]. split; [by intros [_ ?]|by intros [? _]].
Qed.

(** The values of the keys *)
Lemma set_value e n k d' : chain_value (set_at m i e n) k d' =
  if decide (chain m k d' = i) then value_of k e else chain_value m k d'.
Proof using H.
  unfold chain_value. rewrite set_chain, set_lookup by apply (chain_range m H). by destruct (decide _).
Qed.
Lemma stack_set_other e n k : (vacant m i \/ exists v, holds m i key v) -> k <> key -> value_of k e = None ->
  stack (set_at m i e n) k = stack m k.
Proof using H.
  intros Hi Hne He. apply list_omap_ext. apply Forall2_same_length_lookup. split; [done|]. intros j a b Ea Eb.
  rewrite Ea in Eb. injection Eb as <-. rewrite set_value. destruct (decide _) as [Ei|]; [|done]. rewrite He. symmetry.
  destruct (chain_value m k a) as [w|] eqn:E; [|done]. apply chain_value_holds in E; [|done]. rewrite Ei in E.
  destruct Hi as [Hi|[v Hi]]; [by destruct (vacant_absurd _ _ _ _ Hi E)|]. by destruct (holds_inj _ _ _ _ _ _ Hi E).
Qed.
Lemma stack_set_same e n : stack (set_at m i e n) key =
  omap (chain_value m key) (seqZ 0 d) ++ option_list (value_of key e) ++ omap (chain_value m key) (seqZ (d + 1) (7 - d)).
Proof using H Hd.
  rewrite (stack_split _ key d Hd), set_value, decide_True by done. f_equal; [|f_equal].
  1,2: apply list_omap_ext, Forall2_same_length_lookup; split; [done|]; intros j a b Ea Eb; rewrite Ea in Eb; injection Eb as <-;
    apply list_elem_of_lookup_2, elem_of_seqZ in Ea; rewrite set_value, decide_False; [done|];
    intros E%chain_inj; lia || done.
Qed.
Lemma stack_put v n : (forall d', 0 <= d' < d -> blocked m key d') -> (vacant m i \/ exists w, holds m i key w) ->
  ((exists w, holds m i key w) -> stack (set_at m i (mk_element (Some key) 1 v) n) key = v :: tail (stack m key)) /\
  ((~ exists w, holds m i key w) -> stack (set_at m i (mk_element (Some key) 1 v) n) key = v :: stack m key).
Proof using H Hd.
  intros Hb Hi. rewrite stack_set_same. rewrite (stack_first m H key d Hd) by (intros d' w Hd'; by apply blocked_absurd, Hb).
  rewrite omap_none.
  2: { intros d' Hd'%elem_of_seqZ. destruct (chain_value m key d') as [w|] eqn:E; [|done].
    apply chain_value_holds in E; [|done]. by destruct (blocked_absurd m key d' w (Hb d' ltac:(lia))). }
  assert (value_of key (mk_element (Some key) 1 v) = Some v) as -> by (apply value_of_Some; [right; eauto|done]). cbn. split.
  - intros [w Hw]. by rewrite (proj2 (chain_value_holds m H key d w) Hw).
  - intros Hn. destruct (chain_value m key d) as [w|] eqn:E; [|done]. apply chain_value_holds in E; [|done]. destruct Hn. eauto.
Qed.
Lemma stack_drop v n : (forall d' v, 0 <= d' < d -> ~ holds m (chain m key d') key v) -> holds m i key v ->
  stack m key = v :: stack (set_at m i empty_element n) key.
Proof using H Hd.
  intros Hb Hv. rewrite stack_set_same, (stack_first m H key d Hd) by done.
  rewrite (proj2 (chain_value_holds m H key d v) Hv). rewrite (omap_none _ (seqZ 0 d)); [done|].
  intros d' Hd'%elem_of_seqZ. destruct (chain_value m key d') as [w|] eqn:E; [|done]. apply chain_value_holds in E; [|done].
  destruct (Hb d' w); [lia|done].
Qed.

(** The number of elements in use *)
Lemma used_set_at e e' n : m.(hm_data) !! Z.to_nat i = Some e ->
  used (set_at m i e' n) = used m - Z.of_nat (length (pairs [e])) + Z.of_nat (length (pairs [e'])).
Proof using. intros E. pose proof (used_insert _ _ _ e' E). unfold used, set_at. cbn [hm_data]. lia. Qed.
Lemma drop_used v n : holds m i key v -> used (set_at m i empty_element n) = used m - 1.
Proof using. intros [_ E]. rewrite (used_set_at _ _ _ E). cbn. lia. Qed.
Lemma put_used v n : (vacant m i -> used (set_at m i (mk_element (Some key) 1 v) n) = used m + 1) /\
  ((exists w, holds m i key w) -> used (set_at m i (mk_element (Some key) 1 v) n) = used m).
Proof using.
  split.
  - intros (_ & e & E & E0). rewrite (used_set_at _ _ _ E). cbn. unfold pair_of. rewrite E0. cbn. lia.
  - intros [w [_ E]]. rewrite (used_set_at _ _ _ E). cbn. lia.
Qed.

(** On a table where probing finds every key, a put is an insertion. *)
Lemma put_once v n : once m -> (vacant m i \/ exists w, holds m i key w) -> (absent m key \/ exists w, holds m i key w) ->
  once (set_at m i (mk_element (Some key) 1 v) n).
Proof using H Hd.
  intros Ho Hi Hk a b k x y. rewrite !put_holds. intros [(-> & -> & ->)|(Na & Ha)] [(-> & ? & ->)|(Nb & Hb)]; subst; [done| | |by eapply Ho].
  - destruct Hk as [Hk|[w Hk]]; [by destruct (Hk b y)|]. by eapply Ho.
  - destruct Hk as [Hk|[w Hk]]; [by destruct (Hk a x)|]. by eapply Ho.
Qed.
Lemma put_contents v n : once m -> (vacant m i \/ exists w, holds m i key w) -> (absent m key \/ exists w, holds m i key w) ->
  contents (set_at m i (mk_element (Some key) 1 v) n) = <[key := v]> (contents m).
Proof using H Hd.
  intros Ho Hi Hk. pose proof (put_once v n Ho Hi Hk) as Ho'.
  assert (table_ok (set_at m i (mk_element (Some key) 1 v) n)) as H' by (apply set_ok; eauto).
  apply map_eq. intros k. apply option_eq. intros w. rewrite contents_holds by done.
  setoid_rewrite (put_holds v). rewrite lookup_insert_Some. split.
  - intros (j & [(-> & -> & ->)|(Hne & Hj)]); [by left|right]. split; [|apply contents_holds; eauto].
    intros <-. destruct Hk as [Hk|[w' Hk]]; [by destruct (Hk j w)|]. by destruct Hne; eapply Ho.
  - intros [[<- <-]|[Hne Hw]]; [exists i; by left|]. apply contents_holds in Hw as [j Hj]; [|done|done].
    exists j. right. split; [|done]. intros ->. destruct Hi as [Hi|[w' Hi]]; [by eapply vacant_absurd|].
    by destruct (holds_inj _ _ _ _ _ _ Hi Hj).
Qed.
Lemma put_solid v n : (forall d', 0 <= d' < d -> blocked m key d') -> (vacant m i \/ exists w, holds m i key w) ->
  (absent m key \/ exists w, holds m i key w) -> solid m -> solid (set_at m i (mk_element (Some key) 1 v) n).
Proof using H Hd.
  intros Hb Hi Hk [Ho Hs]. split; [by apply put_once|]. intros j k w Hj. apply put_holds in Hj as [(-> & -> & ->)|(Hne & Hj)].
  - exists d, v. split; [done|]. rewrite set_chain. split; [apply put_holds; by left|].
    intros d' Hd'. rewrite set_chain. destruct (Hb d' Hd') as (k' & w & Hk' & Hkk). exists k', w. apply put_holds.
    right. split; [|done]. intros E. apply chain_inj in E; lia || done.
  - destruct (Hs _ _ _ Hj) as (d0 & v0 & Hd0 & H0 & Hr). pose proof (Ho _ _ _ _ _ H0 Hj) as Ej.
    exists d0, v0. rewrite set_chain, Ej. split; [done|]. rewrite Ej in H0. split; [apply put_holds; by right|].
    intros d' Hd'. rewrite set_chain. destruct (Hr d' Hd') as (k' & w' & Hk').
    destruct (decide (chain m k d' = i)) as [E|Hn]; [rewrite E; exists key, v; apply put_holds; by left|].
    exists k', w'. apply put_holds. by right.
Qed.
End setting.
