(* ===== verification/HashmapSpec.v ===== *)
(** * The hash map: theorems

    Probing, doubling of the table against an interface of the heap, and the map. *)
From stdpp Require Import base list gmap.
From Stdlib Require Import ZArith Lia.
From S2P Require Import Prelude.
From S2P Require Import AllocBase.
From S2P Require Import Hashmap.
From S2P Require Import HashmapTable.

Implicit Types (m : hashmap_map) (key k : key_string) (l : list hashmap_element).
(** ** Probing *)
Section probing.
#[local] Opaque mix crc32.
Context {S : Type}.
Abbreviation T := (S * hashmap_map)%type.
Implicit Types x : T.

Lemma wp_hm_element m i e (Q : hashmap_element -> T -> Prop) x :
  0 <= i -> m.(hm_data) !! Z.to_nat i = Some e -> Q e x -> wp (hm_element m i) Q x.
Proof. intros Hi E HQ. unfold hm_element. eapply wp_of_option; [|exact HQ]. by destruct (Z.ltb_spec i 0); [lia|]. Qed.

Lemma chain_entry m key d : table_ok m -> exists e, m.(hm_data) !! Z.to_nat (chain m key d) = Some e /\
  (if e.(in_use) =? 1 then same_key (S := S) e key else ret false) = ret (bool_decide (e = mk_element (Some key) 1 e.(e_data))) /\
  (e = mk_element (Some key) 1 e.(e_data) <-> exists v, holds m (chain m key d) key v) /\
  ((e.(in_use) =? 0) = true -> vacant m (chain m key d)) /\
  ((e.(in_use) =? 0) = false -> e <> mk_element (Some key) 1 e.(e_data) -> blocked m key d).
Proof.
  intros H. destruct (chain_element m H key d) as (e & E & He). pose proof (chain_range m H key d) as Hr.
  exists e. split; [done|]. split; [|split; [|split]].
  - destruct He as [E0|(k' & v' & ->)].
    + rewrite E0. cbn. rewrite bool_decide_eq_false_2; [done|]. intros Ee. rewrite Ee in E0. done.
    + cbn. unfold same_key, of_option. cbn [e_key e_data]. change (let* k := ret k' in ret (bool_decide (k = key))) with (ret (S := S * hashmap_map) (bool_decide (k' = key))).
      f_equal. apply bool_decide_ext. split; [by intros ->|by intros [= ->]].
  - split; [intros Ee; exists e.(e_data); split; [lia|by rewrite <- Ee]|]. intros (v & _ & E2). rewrite E in E2. by injection E2 as ->.
  - intros E0%Z.eqb_eq. split; [lia|eauto].
  - intros E0%Z.eqb_neq Hne. destruct He as [?|(k' & v & ->)]; [done|]. exists k', v. split; [by split; [lia|]|]. by intros ->.
Qed.

Lemma wp_probe m key n d (Q : Z -> T -> Prop) x : table_ok m -> Z.of_nat n + d = 8 -> 0 <= d ->
  (forall d', 0 <= d' < d -> blocked m key d') -> ((forall d', 0 <= d' < 8 -> blocked m key d') -> Q MAP_FULL x) ->
  (forall i, place m key i -> Q i x) -> wp (probe m key n (chain m key d)) Q x.
Proof.
  intros H. revert d. induction n as [|n IH]; intros d Hn Hd Hb HF HP; cbn [probe].
  { ustep. apply HF. intros d' Hd'. apply Hb. lia. }
  destruct (chain_entry m key d H) as (e & E & Es & Eh & Ev & Eb). pose proof (chain_range m H key d) as Hr.
  ustep. eapply wp_hm_element; [lia|exact E|]. destruct (e.(in_use) =? 0) eqn:E0.
  { ustep. apply HP. split; [exists d; split_and!; [lia|lia|done|done]|by left; apply Ev]. }
  rewrite Es. ustep. ustep. destruct (bool_decide_reflect (e = mk_element (Some key) 1 e.(e_data))) as [Ee|Ee].
  { ustep. apply HP. split; [exists d; split_and!; [lia|lia|done|done]|by right; apply Eh]. }
  rewrite chain_next by done. apply IH; [lia|lia| |done|done]. intros d' Hd'.
  destruct (Z.eq_dec d' d) as [->|]; [by apply Eb|apply Hb; lia].
Qed.
Lemma wp_hash m key (Q : Z -> T -> Prop) s : table_ok m -> (crowded m key -> Q MAP_FULL (s, m)) ->
  (forall i, ~ crowded m key -> place m key i -> Q i (s, m)) -> wp (hashmap_hash key) Q (s, m).
Proof.
  intros H HF HP. unfold hashmap_hash, hm_get. ustep. ustep. cbn [snd].
  destruct (Z.geb_spec m.(hm_size) (m.(table_size) / 2)); [ustep; apply HF; by left|].
  rewrite (chain_start m H). apply wp_probe; try done.
  - intros; lia.
  - intros Hb. apply HF. by right.
  - intros i Hi. apply HP; [|done]. by eapply place_not_crowded.
Qed.

Lemma absent_chain m key : table_ok m -> (forall d v, 0 <= d < 8 -> ~ holds m (chain m key d) key v) -> absent m key.
Proof. intros H Hn i v Hh. destruct (holds_chain _ H _ _ _ Hh) as (d & Hd & ->). by apply (Hn d v). Qed.
(** A lookup stops at the first entry of the chain that holds the key. *)
Definition first_at m key (d : Z) (v : Z) : Prop :=
  0 <= d < 8 /\ holds m (chain m key d) key v /\ forall d' v, 0 <= d' < d -> ~ holds m (chain m key d') key v.
Lemma first_stack m key d v : table_ok m -> first_at m key d v -> stack m key = v :: tail (stack m key).
Proof.
  intros H (Hd & Hh & Hn). rewrite (stack_first m H key d Hd Hn). by rewrite (proj2 (chain_value_holds m H key d v) Hh).
Qed.
Lemma wp_get_probe m key n d (Q : Z * Z -> T -> Prop) x : table_ok m -> Z.of_nat n + d = 8 -> 0 <= d ->
  (forall d' v, 0 <= d' < d -> ~ holds m (chain m key d') key v) -> (absent m key -> Q (MAP_MISSING, NULL) x) ->
  (forall d v, first_at m key d v -> Q (MAP_OK, v) x) -> wp (get_probe m key n (chain m key d)) Q x.
Proof.
  intros H. revert d. induction n as [|n IH]; intros d Hn Hd Hb HF HP; cbn [get_probe].
  { ustep. apply HF, absent_chain; [done|]. intros. apply Hb. lia. }
  destruct (chain_entry m key d H) as (e & E & Es & Eh & _). pose proof (chain_range m H key d) as Hr.
  ustep. eapply wp_hm_element; [lia|exact E|]. rewrite Es. ustep. ustep.
  destruct (bool_decide_reflect (e = mk_element (Some key) 1 e.(e_data))) as [Ee|Ee].
  { ustep. apply (HP d). split_and!; [lia|lia| |done]. split; [lia|]. by rewrite <- Ee. }
  rewrite chain_next by done. apply IH; [lia|lia| |done|done]. intros d' v Hd'.
  destruct (Z.eq_dec d' d) as [->|]; [|apply Hb; lia]. intros Hh. apply Ee, Eh. eauto.
Qed.
Lemma wp_hashmap_get m key (Q : Z * Z -> T -> Prop) s : table_ok m ->
  Q (match stack m key with v :: _ => (MAP_OK, v) | [] => (MAP_MISSING, NULL) end) (s, m) ->
  wp (hashmap_get key) Q (s, m).
Proof.
  intros H HQ. unfold hashmap_get, hm_get. ustep. ustep. cbn [snd]. rewrite (chain_start m H).
  apply wp_get_probe; [done|done|done|intros; lia| |].
  - intros Ha%stack_nil; [|done]. by rewrite Ha in HQ.
  - intros d v Hf. by rewrite (first_stack m key d v H Hf) in HQ.
Qed.

Lemma wp_remove_probe m key n d (Q : Z -> T -> Prop) s : table_ok m -> Z.of_nat n + d = 8 -> 0 <= d ->
  (forall d' v, 0 <= d' < d -> ~ holds m (chain m key d') key v) -> (absent m key -> Q MAP_MISSING (s, m)) ->
  (forall d v, first_at m key d v ->
    Q MAP_OK (s, set_at m (chain m key d) empty_element (m.(hm_size) - 1))) ->
  wp (remove_probe m key n (chain m key d)) Q (s, m).
Proof.
  intros H. revert d. induction n as [|n IH]; intros d Hn Hd Hb HF HP; cbn [remove_probe].
  { ustep. apply HF, absent_chain; [done|]. intros. apply Hb. lia. }
  destruct (chain_entry m key d H) as (e & E & Es & Eh & _). pose proof (chain_range m H key d) as Hr.
  ustep. eapply wp_hm_element; [lia|exact E|]. rewrite Es. ustep. ustep.
  destruct (bool_decide_reflect (e = mk_element (Some key) 1 e.(e_data))) as [Ee|Ee].
  { unfold hm_put. ustep. ustep. ustep. apply (HP d e.(e_data)). split_and!; [lia|lia| |done]. split; [lia|]. by rewrite <- Ee. }
  rewrite chain_next by done. apply IH; [lia|lia| |done|done]. intros d' v Hd'.
  destruct (Z.eq_dec d' d) as [->|]; [|apply Hb; lia]. intros Hh. apply Ee, Eh. eauto.
Qed.
(** A remove takes the first value of the key and nothing else. *)
Record removed m key (vs : list Z) m' : Prop := {
  rm_table : table_ok m';
  rm_array : m'.(table_size) = m.(table_size) /\ m'.(hm_ptr) = m.(hm_ptr);
  rm_size : m'.(hm_size) = m.(hm_size) - 1 /\ used m' = used m - 1;
  rm_stack : stack m' key = vs;
  rm_others : forall k, k <> key -> stack m' k = stack m k }.
Lemma wp_hashmap_remove m key s : table_ok m -> wp (hashmap_remove key) (fun st x => x.1 = s /\
    match stack m key with [] => st = MAP_MISSING /\ x.2 = m | _ :: vs => st = MAP_OK /\ removed m key vs x.2 end) (s, m).
Proof.
  intros H. unfold hashmap_remove, hm_get. ustep. ustep. cbn [snd]. rewrite (chain_start m H).
  apply wp_remove_probe; [done|done|done|intros; lia| |].
  - intros Ha%stack_nil; [|done]. by rewrite Ha.
  - intros d v (Hd & Hh & Hn). rewrite (stack_drop m H key d Hd v (m.(hm_size) - 1) Hn Hh). split; [done|]. split; [done|].
    cbn [snd]. split; [apply set_ok; [done|done|by left]|done| |done|].
    + split; [done|]. by eapply drop_used.
    + intros k Hk. apply stack_set_other; [done|right; eauto|done|done].
Qed.
End probing.


(** ** The memory the map is in

    [live s E] says which blocks are allocated. As the language requires, calloc does not
    give an array whose size is not a machine word. *)
Class Heap {S} (calloc : Z -> Z -> M S Z) (malloc : Z -> M S Z) (free : Z -> M S unit) := {
  live : S -> gset Z -> Prop;
  heap_calloc s E n z : live s E -> wp (calloc n z) (fun p s' => ((p = NULL) /\ live s' E) \/
    ((p <> NULL) /\ (p ∉ E) /\ n * z < 2 ^ 32 /\ live s' ({[p]} ∪ E))) s;
  heap_malloc s E n : live s E -> wp (malloc n) (fun p s' => ((p = NULL) /\ live s' E) \/
    ((p <> NULL) /\ (p ∉ E) /\ live s' ({[p]} ∪ E))) s;
  heap_free s E p : live s E -> p ∈ E -> wp (free p) (fun _ s' => live s' (E ∖ {[p]})) s;
  heap_free_null s E : live s E -> wp (free NULL) (fun _ s' => live s' E) s }.

(** The blocks other than the map's *)
Abbreviation others E m := (E ∖ {[m.(hm_ptr)]}).
(** What holds of the table after every put *)
Record sound m (E : gset Z) m' (E' : gset Z) : Prop := {
  so_table : table_ok m';
  so_counted : counted m';
  so_size : m.(table_size) <= m'.(table_size);
  so_ptr : m'.(hm_ptr) ∈ E';
  so_blocks : others E m ⊆ others E' m' }.
(** A put that found a place: the value is the first of its key. It takes the place of the value
    that was the first, if probing finds the key. *)
Definition stored m key (v : Z) m' : Prop :=
  m'.(table_size) = m.(table_size) /\ m'.(hm_ptr) = m.(hm_ptr) /\ m'.(hm_size) = m.(hm_size) + 1 /\
  (reachable m key -> stack m' key = v :: tail (stack m key)) /\
  (~ reachable m key -> stack m' key = v :: stack m key) /\
  forall k, k <> key -> stack m' k = stack m k.
(** A table that was rebuilt: one value of each key is left. *)
Definition rebuilt m (c : gmap key_string Z) m' : Prop :=
  2 * m.(table_size) <= m'.(table_size) /\ solid m' /\ contents m' = c.
Record put_done m (E : gset Z) key (v : Z) m' (E' : gset Z) : Prop := {
  pd_sound : sound m E m' E';
  pd_blocks : others E' m' = others E m;
  pd_stored : ~ crowded m key -> stored m key v m';
  pd_rebuilt : crowded m key -> rebuilt m (<[key := v]> (contents m)) m';
  pd_contents : once m -> absent m key \/ reachable m key -> once m' /\ contents m' = <[key := v]> (contents m);
  pd_solid : solid m -> solid m';
  pd_exact : once m -> exact m -> absent m key -> exact m' }.
(** A put that ran out of memory: it did nothing, or it left a part of the elements in a bigger table. *)
Definition salvaged m m' : Prop :=
  2 * m.(table_size) <= m'.(table_size) /\ solid m' /\ (once m -> exact m') /\
  forall k w, contents m' !! k = Some w -> w ∈ stack m k.
Record put_failed m (E : gset Z) key m' (E' : gset Z) : Prop := {
  pf_sound : sound m E m' E';
  pf_crowded : crowded m key;
  pf_state : m' = m \/ salvaged m m' }.

Section putting.
#[local] Opaque mix crc32.
Context {S : Type} (calloc : Z -> Z -> M S Z) (malloc : Z -> M S Z) (free : Z -> M S unit) `{!Heap calloc malloc free}.
Abbreviation T := (S * hashmap_map)%type.

Lemma sound_refl m E : table_ok m -> counted m -> m.(hm_ptr) ∈ E -> sound m E m E.
Proof. by split. Qed.
Lemma sound_trans m1 E1 m2 E2 m3 E3 : sound m1 E1 m2 E2 -> sound m2 E2 m3 E3 -> sound m1 E1 m3 E3.
Proof. intros [? ? ? ? ?] [? ? ? ? ?]. split; try done; [lia|set_solver]. Qed.

Lemma wp_store_key m (E : gset Z) key v i s (Q : Z -> T -> Prop) : table_ok m -> counted m -> m.(hm_ptr) ∈ E ->
  ~ crowded m key -> place m key i -> (forall m', put_done m E key v m' E -> Q MAP_OK (s, m')) ->
  wp (let* m := hm_get in
      hm_put (mk_hashmap m.(table_size) (m.(hm_size) + 1) m.(hm_ptr) (<[Z.to_nat i := mk_element (Some key) 1 v]> m.(hm_data))) ;;;
      ret MAP_OK) Q (s, m).
Proof.
  intros H Hc HE Hcr HP HQ. unfold hm_get, hm_put. ustep. ustep. ustep. ustep. ustep.
  pose proof (place_reachable m key i HP) as Hrc. destruct HP as [(d & Hd & -> & Hb) Hi].
  assert (absent m key \/ reachable m key -> absent m key \/ exists w, holds m (chain m key d) key w) as Hk.
  { intros [?|?%Hrc]; auto. }
  destruct (put_used m key d v (m.(hm_size) + 1)) as [Hu1 Hu2]. unfold counted in Hc.
  apply (HQ (set_at m (chain m key d) (mk_element (Some key) 1 v) (m.(hm_size) + 1))). split.
  - split; try done; [apply set_ok; eauto|]. unfold counted. cbn [set_at hm_size].
    destruct Hi as [Hi%Hu1|Hi%Hu2]; lia.
  - done.
  - intros _. destruct (stack_put m H key d Hd v (m.(hm_size) + 1) Hb Hi) as [S1 S2]. split; [done|]. split; [done|]. split; [done|].
    split; [intros ?%Hrc; by apply S1|]. split; [intros Hr; apply S2; by rewrite <- Hrc|]. intros k Hne. apply stack_set_other; try done.
    unfold value_of. cbn. by rewrite decide_False by congruence.
  - done.
  - intros Ho Ha%Hk. split; [by apply put_once|by apply put_contents].
  - intros Hs. apply put_solid; try done. by apply Hk, solid_finds.
  - intros _ Hx Ha. unfold exact in *. cbn [set_at hm_size].
    destruct Hi as [Hi%Hu1|[w Hi]]; [lia|by destruct (Ha _ _ Hi)].
Qed.

Definition put_spec (put : key_string -> Z -> M T Z) (t : Z) : Prop := forall s m E key v,
  live s E -> m.(hm_ptr) ∈ E -> table_ok m -> counted m -> t <= m.(table_size) ->
  wp (put key v) (fun st x => exists E', live x.1 E' /\
    ((st = MAP_OK /\ put_done m E key v x.2 E') \/ (st = MAP_OMEM /\ put_failed m E key x.2 E'))) (s, m).

Lemma pairs_cons k v l : pairs (mk_element (Some k) 1 v :: l) = (k, v) :: pairs l.
Proof. done. Qed.
Lemma pairs_free e l : e.(in_use) = 0 -> pairs (e :: l) = pairs l.
Proof. intros E0. unfold pairs. cbn. unfold pair_of at 1. by rewrite E0. Qed.
Abbreviation last_of l := (list_to_map (reverse (pairs l)) : gmap key_string Z).
Lemma last_of_cons k (v : Z) l (c : gmap key_string Z) :
  last_of (mk_element (Some k) 1 v :: l) ∪ c = last_of l ∪ <[k := v]> c.
Proof. rewrite pairs_cons, reverse_cons, list_to_map_app. cbn. by rewrite insert_empty, <- (assoc_L (∪)), <- insert_union_singleton_l. Qed.
(** The keys are different and none of them is in the table. *)
Definition distinct l m : Prop := NoDup (pairs l).*1 /\ forall k v, (k, v) ∈ pairs l -> absent m k.

Lemma distinct_free e l m : e.(in_use) = 0 -> distinct (e :: l) m <-> distinct l m.
Proof. intros E0. unfold distinct. by rewrite pairs_free. Qed.
Lemma distinct_head k v l m : distinct (mk_element (Some k) 1 v :: l) m -> absent m k.
Proof. intros [_ Hd]. apply (Hd k v). rewrite pairs_cons. left. Qed.
Lemma distinct_tail k v l m m' : table_ok m -> table_ok m' -> contents m' = <[k := v]> (contents m) ->
  distinct (mk_element (Some k) 1 v :: l) m -> distinct l m'.
Proof.
  intros H H' Hcc [Hn Hd]. rewrite pairs_cons, fmap_cons in Hn. apply NoDup_cons in Hn as [Hk Hn]. split; [done|].
  intros k' w Hin. apply contents_none; [done|]. rewrite Hcc. rewrite lookup_insert_ne.
  - apply contents_none; [done|]. apply (Hd k' w). rewrite pairs_cons. by right.
  - intros <-. apply Hk. apply list_elem_of_fmap. by exists (k, w).
Qed.

(** The loop over the old table, which fills a table where probing finds every key *)
Lemma wp_rehash_elements put t l : put_spec put t -> forall s m E,
  live s E -> m.(hm_ptr) ∈ E -> table_ok m -> counted m -> solid m -> t <= m.(table_size) ->
  (forall i e, l !! i = Some e -> element_ok e) ->
  wp (rehash_elements put l) (fun st x => exists E', live x.1 E' /\ sound m E x.2 E' /\ solid x.2 /\
    (distinct l m -> exact m -> exact x.2) /\
    ((st = MAP_OK /\ others E' x.2 = others E m /\ contents x.2 = last_of l ∪ contents m) \/
     (st = MAP_OMEM /\ forall k w, contents x.2 !! k = Some w -> (k, w) ∈ pairs l \/ contents m !! k = Some w))) (s, m).
Proof.
  intros Hput. induction l as [|e l IH]; intros s m E HL HE H Hc Hs Ht Hl; cbn [rehash_elements].
  { ustep. exists E. split; [done|]. split; [by split|]. split; [done|]. split; [done|]. left.
    split; [done|]. split; [done|]. cbn. by rewrite (left_id ∅ _). }
  pose proof (fun i => Hl (Datatypes.S i)) as Hl'. cbn in Hl'.
  destruct (Hl 0%nat e eq_refl) as [E0|(k & v & ->)].
  { rewrite E0, (pairs_free e l E0). cbn -[pairs list_to_map contents].
    eapply wp_mono; [by apply (IH s m E)|]. intros st x (E' & H1 & H2 & H3 & H4 & H5). exists E'. split_and!; try done.
    by rewrite distinct_free. }
  cbn -[pairs list_to_map contents]. ustep. ustep. ustep. eapply wp_mono; [exact (Hput s m E k v HL HE H Hc Ht)|].
  intros st [s1 m1] (E1 & HL1 & [[-> HP]|[-> HP]]); cbn [fst snd] in *.
  - cbn -[pairs list_to_map contents]. destruct HP as [HS Hb _ _ Hcc Hso Hex]. specialize (Hso Hs).
    destruct (Hcc (proj1 Hs) (solid_finds m H k Hs)) as [_ Hk].
    eapply wp_mono; [apply (IH s1 m1 E1); try done; try apply HS; []|]; [pose proof (so_size _ _ _ _ HS); lia|].
    intros st [s2 m2] (E2 & HL2 & HS2 & Hso2 & Hx2 & HR); cbn [fst snd] in *. exists E2. split; [done|].
    split; [by eapply sound_trans|]. split; [done|]. split.
    { intros Hd Hx. apply Hx2; [|by apply Hex; [apply Hs|done|eapply distinct_head]]. by eapply (distinct_tail k v); [exact H|apply HS| |]. }
    destruct HR as [(-> & Hb2 & Hc2)|(-> & Hv2)]; [left|right]; (split; [done|]).
    + split; [congruence|]. by rewrite last_of_cons, <- Hk.
    + intros k' w Hw. rewrite pairs_cons, elem_of_cons. destruct (Hv2 k' w Hw) as [?|Hw']; [by left; right|].
      rewrite Hk in Hw'. apply lookup_insert_Some in Hw' as [[-> ->]|[_ ?]]; [by left; left|by right].
  - cbn -[pairs list_to_map contents]. exists E1. destruct HP as [HS _ HP]. split; [done|]. split; [done|].
    destruct HP as [->|(_ & Hso & Hx & HP)]; (split; [done|]); (split; [intros; try apply Hx; first [done|apply Hs]|]); right; (split; [done|]).
    + intros k' w Hw. by right.
    + intros k' w Hw. right. apply HP in Hw. rewrite (stack_contents m H k' (proj1 Hs)) in Hw.
      destruct (contents m !! k') as [w'|]; [|by apply elem_of_nil in Hw]. by apply list_elem_of_singleton in Hw as ->.
Qed.

Definition new_table (t p : Z) : hashmap_map := mk_hashmap t 0 p (replicate (Z.to_nat t) empty_element).
Lemma new_table_absent t p k : absent (new_table t p) k.
Proof. intros i v [_ [E _]%lookup_replicate]. done. Qed.
Lemma new_table_pairs t p : pairs (new_table t p).(hm_data) = [].
Proof. cbn. induction (Z.to_nat t); [done|]. by rewrite replicate_S, pairs_free. Qed.
Lemma new_table_ok t p : (exists j, 8 <= j <= 28 /\ t = 2 ^ j) ->
  table_ok (new_table t p) /\ solid (new_table t p) /\ exact (new_table t p) /\ contents (new_table t p) = ∅.
Proof.
  intros Ht. assert (table_ok (new_table t p)) as H.
  { split; [done| |].
    - destruct Ht as (j & Hj & ->). cbn -[Z.pow]. rewrite length_replicate. pose proof (Z.pow_pos_nonneg 2 j). lia.
    - intros i e [-> _]%lookup_replicate. by left. }
  split; [done|]. split; [split|split].
  - intros i j k v w Hh. by destruct (new_table_absent _ _ _ _ _ Hh).
  - intros i k v Hh. by destruct (new_table_absent _ _ _ _ _ Hh).
  - unfold exact, used. by rewrite new_table_pairs.
  - unfold contents. by rewrite new_table_pairs.
Qed.
Lemma exact_counted m : exact m -> counted m.
Proof. unfold exact, counted. lia. Qed.

Lemma wp_hm_env {B} (op : M S B) (Q : B -> T -> Prop) s m : wp op (fun b s' => Q b (s', m)) s -> wp (hm_env op) Q (s, m).
Proof. intros W. apply wp_zoom. exact W. Qed.

Lemma once_distinct m t p : table_ok m -> once m -> distinct m.(hm_data) (new_table t p).
Proof.
  intros H Ho. split; [|intros; apply new_table_absent]. apply pairs_nodup; [by apply table_elements|].
  intros i j k v w Hi Hj.
  assert (Z.of_nat i = Z.of_nat j); [|lia]. eapply Ho; split; [lia|by rewrite Nat2Z.id|lia|by rewrite Nat2Z.id].
Qed.
Lemma wp_hashmap_rehash put s m E : put_spec put (2 * m.(table_size)) ->
  live s E -> m.(hm_ptr) ∈ E -> table_ok m -> counted m ->
  wp (hashmap_rehash calloc free put) (fun st x => exists E', live x.1 E' /\ sound m E x.2 E' /\
    ((st = MAP_OK /\ others E' x.2 = others E m /\ rebuilt m (contents m) x.2 /\ (once m -> exact x.2)) \/
     (st = MAP_OMEM /\ (x.2 = m \/ salvaged m x.2)))) (s, m).
Proof.
  intros Hput HL HE H Hc. unfold hashmap_rehash, hm_get, hm_put. ustep. ustep. cbn [snd].
  pose proof (table_pos m H) as Ht. destruct (Z.geb_spec (2 * m.(table_size)) (2 ^ 31)) as [Hlt|_]; [lia|]. ustep. apply wp_hm_env.
  eapply wp_mono; [apply (heap_calloc s E _ _ HL)|]. intros p s1 [[-> HL1]|(Hp & HpE & Hn & HL1)]; cbv beta.
  { rewrite Z.eqb_refl. ustep. exists E. split; [done|]. split; [by apply sound_refl|]. right. auto. }
  destruct (Z.eqb_spec p NULL) as [|_]; [done|]. ustep. ustep. fold (new_table (2 * m.(table_size)) p).
  destruct (new_table_ok (2 * m.(table_size)) p) as (H1 & Hs1 & Hx1 & Hc1).
  { destruct (tk_size _ H) as (j & Hj & Ej). exists (j + 1). split; [|rewrite Z.pow_add_r, <- Ej by lia; lia].
    destruct (Z.eq_dec j 28) as [->|]; [|lia]. rewrite Ej in Hn. unfold sizeof_element in Hn. lia. }
  pose proof (once_distinct m (2 * m.(table_size)) p H) as Hd.
  set (m1 := new_table (2 * m.(table_size)) p) in *. ustep.
  eapply wp_mono; [apply (wp_rehash_elements put _ m.(hm_data) Hput s1 m1 ({[p]} ∪ E)); try done|].
  - cbn. set_solver.
  - by apply exact_counted.
  - by apply table_elements.
  - assert (others ({[p]} ∪ E) m1 = E) as Eo by (cbn; set_solver). rewrite Eo, Hc1, map_union_empty. fold (contents m).
    intros st [s2 m2] (E2 & HL2 & [Hk2 Hn2 Hz2 Hp2 Hb2] & Hs2 & Hx2 & HR). rewrite Eo in Hb2. cbn [fst snd] in *.
    assert (2 * m.(table_size) <= m2.(table_size)) as Hz by done.
    assert (once m -> exact m2) as Hx by (intros Ho; by apply Hx2; [apply Hd|]).
    destruct HR as [(-> & Eo2 & Hc2)|(-> & Hv2)]; cbn -[contents].
    + ustep. apply wp_hm_env. eapply wp_mono; [apply (heap_free s2 E2 _ HL2); set_solver|]. intros [] s3 HL3. ustep.
      exists (E2 ∖ {[m.(hm_ptr)]}). split; [done|]. cbn [snd]. assert (m2.(hm_ptr) <> m.(hm_ptr)) by (intros Ep; rewrite Ep in *; set_solver).
      split; [split; [done|done|lia|set_solver|set_solver]|]. left. split; [done|]. split; [set_solver|]. by split.
    + exists E2. split; [done|]. split; [split; [done|done|lia|done|set_solver]|]. right. split; [done|]. right.
      split; [done|]. split; [done|]. split; [done|]. intros k w Hw. apply stack_holds, pairs_holds; [done|done|].
      by destruct (Hv2 k w Hw).
Qed.

(** A put after the table was rebuilt *)
Lemma rebuilt_done m E key v m1 E1 m' E' : table_ok m -> crowded m key -> sound m E m1 E1 -> others E1 m1 = others E m ->
  rebuilt m (contents m) m1 -> (once m -> exact m1) -> put_done m1 E1 key v m' E' -> put_done m E key v m' E'.
Proof.
  intros H Hcr HS Hb (Hz & Hs1 & Hc1) Hx HD. pose proof (so_table _ _ _ _ HS) as H1.
  destruct (pd_contents _ _ _ _ _ _ HD (proj1 Hs1) (solid_finds m1 H1 key Hs1)) as [Ho' Hc']. rewrite Hc1 in Hc'.
  pose proof (so_size _ _ _ _ (pd_sound _ _ _ _ _ _ HD)) as Hz'. pose proof (pd_solid _ _ _ _ _ _ HD Hs1) as Hs'. split; try done.
  - eapply sound_trans; [exact HS|]. apply HD.
  - rewrite <- Hb. apply HD.
  - intros _. split; [lia|done].
  - intros Ho _ Ha. apply (pd_exact _ _ _ _ _ _ HD (proj1 Hs1)); [auto|]. apply contents_none; [done|]. rewrite Hc1.
    by apply contents_none.
Qed.
Lemma rebuilt_failed m E key m1 E1 m' E' : table_ok m -> crowded m key -> sound m E m1 E1 ->
  rebuilt m (contents m) m1 -> (once m -> exact m1) -> put_failed m1 E1 key m' E' -> put_failed m E key m' E'.
Proof.
  intros H Hcr HS (Hz & Hs1 & Hc1) Hx HF. pose proof (so_table _ _ _ _ HS) as H1. split; [|done|].
  { eapply sound_trans; [exact HS|]. apply HF. }
  pose proof (so_size _ _ _ _ (pf_sound _ _ _ _ _ HF)) as Hz'.
  assert (forall k w, contents m1 !! k = Some w -> w ∈ stack m k) as Hv.
  { intros k w Hw. apply stack_holds; [done|]. apply contents_last; [done|]. by rewrite <- Hc1. }
  right. destruct (pf_state _ _ _ _ _ HF) as [->|(_ & Hs' & Hx' & Hv')]; (split; [lia|]); (split; [done|]).
  - by split.
  - split; [intros Ho; apply Hx', Hs1|]. intros k w Hw%Hv'. rewrite (stack_contents m1 H1 k (proj1 Hs1)) in Hw.
    destruct (contents m1 !! k) as [w'|] eqn:E2; [|by apply elem_of_nil in Hw]. apply list_elem_of_singleton in Hw as ->. auto.
Qed.

(** The sizes of the table are bounded, so a put ends. *)
Lemma put_fuel_spec fuel j : 8 <= j -> 29 <= j + Z.of_nat fuel -> put_spec (put_fuel calloc free fuel) (2 ^ j).
Proof.
  revert j. induction fuel as [|fuel IH]; intros j Hj Hf s m E key v HL HE H Hc Ht; pose proof (table_pos m H) as Hp.
  { pose proof (Z.pow_le_mono_r 2 29 j ltac:(lia) ltac:(lia)). lia. }
  cbn [put_fuel]. ustep. apply wp_hash; [done| |].
  2: { intros i Hcr HP. destruct (Z.eqb_spec i MAP_FULL) as [->|_].
    { destruct HP as [(d & Hd & Ei & _) _]. pose proof (chain_range m H key d). unfold MAP_FULL in Ei. lia. }
    apply (wp_store_key m E); try done. intros m' Hm. exists E. auto. }
  intros Hcr. change (MAP_FULL =? MAP_FULL) with true. cbv iota. ustep.
  assert (2 ^ (j + 1) <= 2 * m.(table_size)) as Hj1 by (rewrite Z.pow_add_r by lia; lia).
  eapply wp_mono; [apply (wp_hashmap_rehash (put_fuel calloc free fuel) s m E); try done|].
  { intros s' m' E' k' v' ? ? ? ? ?. apply (IH (j + 1)); try done; lia. }
  intros st [s1 m1] (E1 & HL1 & HS & [(-> & Hb & HR & Hx)|[-> HP]]); cbn [fst snd] in *.
  - change (MAP_OK =? MAP_OMEM) with false. cbv iota. pose proof HS as [H1 Hc1 Hz1 Hp1 _].
    eapply wp_mono; [apply (IH (j + 1) ltac:(lia) ltac:(lia) s1 m1 E1 key v); try done; destruct HR; lia|].
    intros st x (E2 & HL2 & [[-> HD]|[-> HD]]); exists E2; (split; [done|]); [left|right]; (split; [done|]).
    + by eapply rebuilt_done.
    + by eapply rebuilt_failed.
  - change (MAP_OMEM =? MAP_OMEM) with true. cbv iota. ustep. exists E1. split; [done|]. right. split; [done|]. by split.
Qed.
Lemma wp_hashmap_put s m E key v : live s E -> m.(hm_ptr) ∈ E -> table_ok m -> counted m ->
  wp (hashmap_put calloc free key v) (fun st x => exists E', live x.1 E' /\
    ((st = MAP_OK /\ put_done m E key v x.2 E') \/ (st = MAP_OMEM /\ put_failed m E key x.2 E'))) (s, m).
Proof.
  intros HL HE H Hc. destruct (table_pos m H) as [Ht _].
  by apply (put_fuel_spec hashmap_fuel 8 ltac:(lia) ltac:(unfold hashmap_fuel; lia)).
Qed.

Lemma wp_hashmap_new s E : live s E -> wp (hashmap_new calloc malloc free) (fun r s' =>
  match r with
  | None => live s' E
  | Some (p, m) => live s' ({[p; m.(hm_ptr)]} ∪ E) /\ (p ∉ E) /\ (m.(hm_ptr) ∉ E) /\ p <> m.(hm_ptr) /\
      table_ok m /\ exact m /\ solid m /\ forall k, stack m k = []
  end) s.
Proof.
  intros HL. unfold hashmap_new. ustep. eapply wp_mono; [apply (heap_malloc s E _ HL)|].
  intros p s1 [[-> HL1]|(Hp & HpE & HL1)]; [rewrite Z.eqb_refl; by ustep|]. destruct (Z.eqb_spec p NULL); [done|]. ustep.
  eapply wp_mono; [apply (heap_calloc s1 _ _ _ HL1)|]. intros q s2 [[-> HL2]|(Hq & HqE & _ & HL2)].
  - rewrite Z.eqb_refl. ustep. eapply wp_mono; [apply (heap_free_null s2 _ HL2)|]. intros [] s3 HL3. ustep.
    eapply wp_mono; [apply (heap_free s3 _ p HL3); set_solver|]. intros [] s4 HL4. ustep.
    by replace (({[p]} ∪ E) ∖ {[p]}) with E in HL4 by set_solver.
  - destruct (Z.eqb_spec q NULL); [done|]. ustep. fold (new_table INITIAL_SIZE q).
    destruct (new_table_ok INITIAL_SIZE q) as (H & Hs & Hx & _); [by exists 8|].
    split; [cbn [new_table hm_ptr]; by replace ({[p; q]} ∪ E) with ({[q]} ∪ ({[p]} ∪ E)) by set_solver|].
    assert (forall k, stack (new_table INITIAL_SIZE q) k = []) by (intros k; apply stack_nil; [done|apply new_table_absent]).
    split_and!; try done; cbn; set_solver.
Qed.
Lemma wp_hashmap_free s E p m : live s E -> p ∈ E -> m.(hm_ptr) ∈ E -> p <> m.(hm_ptr) ->
  wp (hashmap_free free p m) (fun _ s' => live s' (E ∖ {[p; m.(hm_ptr)]})) s.
Proof.
  intros HL HpE HmE Hne. unfold hashmap_free. ustep. eapply wp_mono; [by apply (heap_free s E _ HL)|]. intros [] s1 HL1.
  eapply wp_mono; [apply (heap_free s1 _ p HL1); set_solver|]. intros [] s2 HL2.
  by replace (E ∖ {[p; m.(hm_ptr)]}) with (E ∖ {[m.(hm_ptr)]} ∖ {[p]}) by set_solver.
Qed.

(** What a callback does with each value: it goes on, or it gives the status to stop with. *)
Definition visits (f : Z -> Z -> M S Z) (item : Z) (I : list Z -> S -> Prop) (J : Z -> list Z -> S -> Prop) : Prop :=
  forall vs v s, I vs s ->
    wp (f item v) (fun st s' => (st = MAP_OK /\ I (vs ++ [v]) s') \/ (st <> MAP_OK /\ J st (vs ++ [v]) s')) s.
Lemma wp_iterate_elements f item I J l done s m : visits f item I J ->
  (forall i e, l !! i = Some e -> element_ok e) -> I done s ->
  wp (iterate_elements f item l) (fun st x => x.2 = m /\
    ((st = MAP_OK /\ I (done ++ (pairs l).*2) x.1) \/
     (st <> MAP_OK /\ exists vs, vs `prefix_of` (pairs l).*2 /\ J st (done ++ vs) x.1))) (s, m).
Proof using.
  intros Hf. revert done s. induction l as [|e l IH]; intros vs s Hl HI; cbn [iterate_elements].
  { ustep. split; [done|]. left. by rewrite app_nil_r. }
  pose proof (fun i => Hl (Datatypes.S i)) as Hl'. cbn in Hl'. destruct (Hl 0%nat e eq_refl) as [E0|(k & v & ->)].
  - rewrite (pairs_free e l E0), E0. cbn. by apply IH.
  - rewrite pairs_cons. cbn -[pairs]. ustep. apply wp_hm_env. eapply wp_mono; [by apply Hf|]. intros st s1 [[-> HI1]|[Hne HJ]].
    + cbn -[pairs]. eapply wp_mono; [by apply (IH (vs ++ [v]) s1)|]. intros st x (Ex & [[-> HR]|(Hne & ws & Hws & HJ)]); (split; [done|]).
      * left. by rewrite cons_middle, (app_assoc vs [v]).
      * right. split; [done|]. exists (v :: ws). split; [by apply prefix_cons|]. by rewrite cons_middle, (app_assoc vs [v]).
    + destruct (Z.eqb_spec st MAP_OK) as [|_]; [done|]. cbn -[pairs]. split; [done|]. right. split; [done|].
      exists [v]. split; [|done]. by apply prefix_cons, prefix_nil.
Qed.
Lemma wp_hashmap_iterate f item I J s m : visits f item I J -> I [] s -> table_ok m -> counted m ->
  wp (hashmap_iterate f item) (fun st x => x.2 = m /\
    ((st = MAP_MISSING /\ m.(hm_size) <= 0 /\ values m = [] /\ I [] x.1) \/
     (st = MAP_OK /\ 0 < m.(hm_size) /\ I (values m) x.1) \/
     (st <> MAP_OK /\ 0 < m.(hm_size) /\ exists vs, vs `prefix_of` values m /\ J st vs x.1))) (s, m).
Proof using.
  intros Hf HI H Hc. unfold hashmap_iterate, hm_get, hashmap_length. ustep. ustep. cbn [snd]. unfold counted, used in Hc.
  destruct (Z.leb_spec m.(hm_size) 0).
  { ustep. split; [done|]. left. split; [done|]. split; [done|]. split; [|done].
    destruct (pairs m.(hm_data)); [done|]. cbn in Hc. lia. }
  pose proof (tk_length _ H) as Hlen. rewrite take_ge by lia.
  eapply wp_mono; [apply (wp_iterate_elements f item I J _ [] s m Hf); [by apply table_elements|done]|].
  intros st x (-> & [[-> HR]|(Hne & HR)]); (split; [done|]); right; [left|right]; auto.
Qed.
(** The array holds what the stacks say; if no key is there twice, each key's value once. *)
Lemma values_stack m k v : table_ok m -> (k, v) ∈ pairs m.(hm_data) <-> v ∈ stack m k.
Proof using. intros H. by rewrite stack_holds, pairs_holds. Qed.
Lemma values_once m : table_ok m -> once m -> values m ≡ₚ (map_to_list (contents m)).*2.
Proof using.
  intros H Ho. apply fmap_Permutation. unfold contents. rewrite map_to_list_to_map; [by rewrite reverse_Permutation|].
  destruct (once_distinct m 0 0 H Ho) as [Hn _]. by rewrite fmap_reverse, reverse_Permutation.
Qed.
End putting.


(** ** The map

    What each operation returns, and what it makes of the values each key has. The first value
    of a key is the one a lookup finds. *)
Definition puts_as_specified {S} calloc malloc free `{!Heap (S := S) calloc malloc free} s m (E : gset Z) : Prop :=
  forall key v, wp (hashmap_put calloc free key v) (fun st x => exists E', live x.1 E' /\
    ((st = MAP_OK /\ put_done m E key v x.2 E') \/ (st = MAP_OMEM /\ put_failed m E key x.2 E'))) (s, m).
Definition gets_as_specified {S} (s : S) m : Prop := forall key,
  wp (hashmap_get key) (fun r x => x = (s, m) /\
    r = match stack m key with v :: _ => (MAP_OK, v) | [] => (MAP_MISSING, NULL) end) (s, m).
Definition removes_as_specified {S} (s : S) m : Prop := forall key,
  wp (hashmap_remove key) (fun st x => x.1 = s /\
    match stack m key with [] => st = MAP_MISSING /\ x.2 = m | _ :: vs => st = MAP_OK /\ removed m key vs x.2 end) (s, m).
Definition iterates_as_specified {S} (s : S) m : Prop := forall (f : Z -> Z -> M S Z) item I J,
  visits f item I J -> I [] s -> wp (hashmap_iterate f item) (fun st x => x.2 = m /\
    ((st = MAP_MISSING /\ m.(hm_size) <= 0 /\ values m = [] /\ I [] x.1) \/
     (st = MAP_OK /\ 0 < m.(hm_size) /\ I (values m) x.1) \/
     (st <> MAP_OK /\ 0 < m.(hm_size) /\ exists vs, vs `prefix_of` values m /\ J st vs x.1))) (s, m).
(** A table where probing finds every key is a finite map. *)
Definition is_map m : Prop :=
  (forall k, stack m k = option_list (contents m !! k)) /\ values m ≡ₚ (map_to_list (contents m)).*2 /\
  forall k, absent m k \/ reachable m k.

(** C24: what the hash map stores, duplicates included. A key has a list of values: those of its
    elements, along its chain. In a new map every list is empty. A get returns the first value of the
    key, or MAP_MISSING and NULL. A remove takes the first value of the key, and the next one, if there is
    one, is found from then on; with no value it returns MAP_MISSING. A put that finds a place replaces the
    first value if probing finds the key before a free element, and else adds one in front, whether or not
    the key is further on; it adds one to the size in any case, and
    other keys keep their values. A put that finds no place, exactly when the size is
    half of the table or other keys have the chain, doubles the table, any number of times: then every
    key has one value, the last in the array, and the put key its new one. It ends, and no block is lost;
    or it returns MAP_OMEM, with the map as it was or in a bigger table that has for each key at most
    one of its values. A table where probing finds every key, as a new one, stays one by puts, and
    represents a finite map on which put is insertion. Iteration returns MAP_MISSING if the size is not
    positive, and then no element is in use; else it calls the function on the value of
    every element in the order of the array, until it returns a status other than MAP_OK. *)
Theorem hashmap_correct {S} calloc malloc free `{!Heap (S := S) calloc malloc free} s (E : gset Z) : live s E ->
  wp (hashmap_new calloc malloc free) (fun r s' =>
    match r with
    | None => live s' E
    | Some (p, m) => live s' ({[p; m.(hm_ptr)]} ∪ E) /\ (p ∉ E) /\ (m.(hm_ptr) ∉ E) /\ p <> m.(hm_ptr) /\
        table_ok m /\ exact m /\ solid m /\ forall k, stack m k = []
    end) s /\
  forall m, table_ok m -> counted m -> m.(hm_ptr) ∈ E ->
    puts_as_specified calloc malloc free s m E /\ gets_as_specified s m /\ removes_as_specified s m /\
    iterates_as_specified s m /\ (forall k v, (k, v) ∈ pairs m.(hm_data) <-> v ∈ stack m k) /\ (solid m -> is_map m) /\
    forall p, p ∈ E -> p <> m.(hm_ptr) -> wp (hashmap_free free p m) (fun _ s' => live s' (E ∖ {[p; m.(hm_ptr)]})) s.
Proof.
  intros HL. split; [by apply wp_hashmap_new|]. intros m H Hc HE. split_and!.
  - intros key v. by eapply wp_hashmap_put.
  - intros key. by apply wp_hashmap_get.
  - intros key. by apply wp_hashmap_remove.
  - intros f item I J Hf HI. by apply wp_hashmap_iterate.
  - intros k v. by apply values_stack.
  - intros Hs. split; [|split]; [intros k; apply stack_contents; [done|apply Hs]|apply values_once; [done|apply Hs]|].
    intros k. by apply solid_finds.
  - intros p Hp Hne. by apply wp_hashmap_free.
Qed.

(** A heap that never reuses a block *)
Definition bump (n : Z) : M Z Z := fun s => if n <? 2 ^ 32 then Ret s (s + 1) else Ret NULL s.
Definition bump_calloc (n z : Z) : M Z Z := bump (n * z).
Definition bump_free (p : Z) : M Z unit := ret tt.
#[export] Instance bump_heap : Heap bump_calloc bump bump_free.
Proof.
  refine {| live := fun s E => 0 < s /\ forall p, p ∈ E -> p < s |}.
  - intros s E n z [Hs HE]. unfold bump_calloc, bump, wp. destruct (Z.ltb_spec (n * z) (2 ^ 32)); [right|left; done].
    split; [unfold NULL; lia|]. split; [intros Hp%HE; lia|]. split; [done|]. split; [lia|].
    intros p [->%elem_of_singleton|Hp%HE]%elem_of_union; lia.
  - intros s E n [Hs HE]. unfold bump, wp. destruct (Z.ltb_spec n (2 ^ 32)); [right|left; done].
    split; [unfold NULL; lia|]. split; [intros Hp%HE; lia|]. split; [lia|].
    intros p [->%elem_of_singleton|Hp%HE]%elem_of_union; lia.
  - intros s E p [Hs HE] _. cbn. split; [done|]. intros q [Hq _]%elem_of_difference. by apply HE.
  - intros s E H. done.
Defined.
Definition key_ac : key_string := [97; 99].
Definition key_ad : key_string := [97; 100].
(** A table with a key twice: the second value of the key is what a remove leaves. *)
Definition twice : hashmap_map :=
  let m := set_at (new_table 256 1) (chain (new_table 256 1) key_ad 0) (mk_element (Some key_ad) 1 3) 1 in
  set_at m (chain m key_ad 1) (mk_element (Some key_ad) 1 2) 2.
Lemma twice_ok : table_ok twice.
Proof.
  destruct (new_table_ok 256 1) as (H & _); [by exists 8|]. unfold twice. apply set_ok; [|lia|right; eauto].
  apply set_ok; [done|lia|right; eauto].
Qed.
Lemma twice_stack : stack twice key_ad = [3; 2] /\ counted twice.
Proof. split; [by vm_compute|]. unfold counted. apply (bool_decide_unpack _). by vm_compute. Qed.
Lemma hashmap_correct_witness : live (2 : Z) {[1]} /\ stack twice key_ad = [3; 2] /\
  wp (hashmap_get key_ad) (fun r x => x = (2, twice) /\ r = (MAP_OK, 3)) (2, twice) /\
  wp (hashmap_remove key_ad) (fun st x => st = MAP_OK /\ stack x.2 key_ad = [2]) (2, twice) /\
  wp (hashmap_put bump_calloc bump_free [97] 7) (fun st x => exists E', live x.1 E' /\
    ((st = MAP_OK /\ put_done twice {[1]} [97] 7 x.2 E') \/
     (st = MAP_OMEM /\ put_failed twice {[1]} [97] x.2 E'))) (2, twice).
Proof.
  assert (live (2 : Z) {[1]}) as HL by (split; [lia|intros p ->%elem_of_singleton; lia]). split; [exact HL|].
  destruct twice_stack as [Es Hc]. split; [exact Es|].
  destruct (hashmap_correct bump_calloc bump bump_free 2 {[1]} HL) as [_ HC].
  destruct (HC twice twice_ok Hc) as (Hput & Hget & Hrem & _); [by apply elem_of_singleton|].
  pose proof (Hget key_ad) as G. pose proof (Hrem key_ad) as R. rewrite Es in G, R. split; [exact G|]. split; [|exact (Hput [97] 7)].
  eapply wp_mono; [exact R|]. intros st x (_ & -> & HR). split; [done|]. apply HR.
Defined.

(** ** What the operations do not promise

    Two keys with the same hash: once the first is removed, a put of the second takes its element and
    leaves the old one behind. The put counts a key that was there already. *)
Abbreviation bump_put := (hashmap_put bump_calloc bump_free).
Example put_counts_twice :
  wp (bump_put key_ac 1 ;;; bump_put key_ac 2) (fun st x => st = MAP_OK /\ hashmap_length (Some x.2) = 2 /\
    contents x.2 = {[key_ac := 2]}) (2, new_table 256 1).
Proof. vm_compute. split; [reflexivity|]. split; reflexivity. Qed.
Example removed_key_comes_back :
  wp (bump_put key_ac 1 ;;; bump_put key_ad 2 ;;; hashmap_remove key_ac ;;; bump_put key_ad 3 ;;;
      hashmap_remove key_ad ;;; hashmap_get (S := Z) key_ad) (fun r _ => r = (MAP_OK, 2)) (2, new_table 256 1).
Proof. vm_compute. reflexivity. Qed.
