(* ===== verification/Cpio.v ===== *)
(** * The archive of the boot image (src/zener/libs/libcpio)

    The initial programs of the system are found in a cpio archive in memory. The state is a
    memory of bytes (a [char] is unsigned on ARM); addresses and [unsigned long] have 32 bits. *)
From stdpp Require Import base list gmap.
From Stdlib Require Import ZArith Lia.
From S2P Require Import Prelude.
From S2P Require Import AllocBase.

(** ** Bytes in memory *)
Abbreviation bytes := (gmap Z Z).
Definition load8 (a : Z) : M bytes Z := fun s => of_option (s !! a) s.
Definition store8 (a v : Z) : M bytes unit := fun s =>
  match s !! a with Some _ => Ret tt (<[a := v]> s) | None => Stop Undefined end.
(** A string loop reads another byte each time round, and a loop over the archive another header: one
    iteration more than there are bytes is enough, when the loop ends. *)
Definition memory_fuel : M bytes nat := gets (fun s => Datatypes.S (size s)).

(** A string in memory or a string literal, which is followed by its zero *)
Inductive cstring := Ptr (a : Z) | Literal (l : list Z).
Definition char_at (s : cstring) (i : Z) : M bytes Z :=
  match s with
  | Ptr a => load8 (a +w i)
  | Literal l => of_option ((l ++ [0]) !! Z.to_nat i)
  end.

(** "070701" and "TRAILER!!!" *)
Definition CPIO_HEADER_MAGIC : list Z := [48; 55; 48; 55; 48; 49].
Definition CPIO_FOOTER_MAGIC : list Z := [84; 82; 65; 73; 76; 69; 82; 33; 33; 33].
Definition CPIO_ALIGNMENT : Z := 4.

(** ** The header *)
Definition sizeof_cpio_header : Z := 110.
Definition c_magic (archive : Z) : Z := archive.
Definition c_filesize (archive : Z) : Z := archive +w 54.
Definition c_namesize (archive : Z) : Z := archive +w 94.

Definition align_up (n align : Z) : Z := (n +w align -w 1) &w wnot (align -w 1).

(** The value of a digit *)
Definition hex_digit (c : Z) : option Z :=
  if (48 <=? c) && (c <=? 57) then Some (c - 48)
  else if (97 <=? c) && (c <=? 102) then Some (c - 97 + 10)
  else if (65 <=? c) && (c <=? 70) then Some (c - 65 + 10)
  else None.
Fixpoint parse_hex_loop (n : nat) (s i r : Z) : M bytes Z :=
  match n with
  | O => ret r
  | Datatypes.S n' =>
      let r := r *w 16 in
      let* c := load8 (s +w i) in
      match hex_digit c with
      | Some d => parse_hex_loop n' s (i + 1) (r +w d)
      | None => ret r
      end
  end.
Definition parse_hex_str (s : Z) (max_len : nat) : M bytes Z := parse_hex_loop max_len s 0 0.

Fixpoint strncmp_loop (fuel : nat) (a b : cstring) (n i : Z) : M bytes Z :=
  match fuel with
  | O => halt_with NoFuel
  | Datatypes.S fuel' =>
      if i <? n then
        let* x := char_at a i in
        let* y := char_at b i in
        if negb (x =? y) then ret (x - y)
        else if x =? 0 then ret 0
        else strncmp_loop fuel' a b n (i + 1)
      else ret 0
  end.
Definition cpio_strncmp (a b : cstring) (n : Z) : M bytes Z :=
  let* fuel := memory_fuel in strncmp_loop fuel a b n 0.

Fixpoint strcpy_loop (fuel : nat) (to from : Z) : M bytes unit :=
  match fuel with
  | O => halt_with NoFuel
  | Datatypes.S fuel' =>
      let* c := load8 from in
      if c =? 0 then ret tt
      else
        store8 to c ;;;
        strcpy_loop fuel' (to +w 1) (from +w 1)
  end.
Definition cpio_strcpy (to from : Z) : M bytes Z :=
  let save := to in
  let* fuel := memory_fuel in
  strcpy_loop fuel to from ;;;
  ret save.

Fixpoint strlen_loop (fuel : nat) (str s : Z) : M bytes Z :=
  match fuel with
  | O => halt_with NoFuel
  | Datatypes.S fuel' =>
      let* c := load8 s in
      if c =? 0 then ret (s -w str) else strlen_loop fuel' str (s +w 1)
  end.
Definition cpio_strlen (str : Z) : M bytes Z := let* fuel := memory_fuel in strlen_loop fuel str str.

(** ** Parsing

    What the caller's variables contain after a call: [None] is a variable that was not written. *)
Record cpio_out := mk_out { filename : option Z; filesize : option Z; data : option Z; next : option Z }.
Definition no_out : cpio_out := mk_out None None None None.
Definition cpio_parse_header (archive : Z) (out : cpio_out) : M bytes (Z * cpio_out) :=
  let* c := cpio_strncmp (Ptr (c_magic archive)) (Literal CPIO_HEADER_MAGIC) 6 in
  if negb (c =? 0) then ret (-1, out)
  else
    let* size := parse_hex_str (c_filesize archive) 8 in
    let name := archive +w sizeof_cpio_header in
    let out := mk_out (Some name) out.(filesize) out.(data) out.(next) in
    let* c := cpio_strncmp (Ptr name) (Literal CPIO_FOOTER_MAGIC) 11 in
    if c =? 0 then ret (1, out)
    else
      let* filename_length := parse_hex_str (c_namesize archive) 8 in
      let d := align_up (archive +w sizeof_cpio_header +w filename_length) CPIO_ALIGNMENT in
      ret (0, mk_out (Some name) (Some size) (Some d) (Some (align_up (d +w size) CPIO_ALIGNMENT))).

(** A loop goes on with [next], which a call that returned 0 has set. *)
Fixpoint get_entry_loop (n : nat) (header : Z) (out : cpio_out) : M bytes (Z * cpio_out) :=
  match n with
  | O => ret (default NULL out.(data), out)
  | Datatypes.S n' =>
      let* r := cpio_parse_header header out in
      let out := r.2 in
      if negb (r.1 =? 0) then ret (NULL, out)
      else let* header := of_option out.(next) in get_entry_loop n' header out
  end.
(** The result, and the variables [name] and [size] point to *)
Definition cpio_get_entry (archive n : Z) : M bytes (Z * cpio_out) :=
  get_entry_loop (Z.to_nat (n + 1)) archive no_out.

Fixpoint get_file_loop (fuel : nat) (header name : Z) (out : cpio_out) : M bytes (Z * cpio_out) :=
  match fuel with
  | O => halt_with NoFuel
  | Datatypes.S fuel' =>
      let* r := cpio_parse_header header out in
      let out := r.2 in
      if negb (r.1 =? 0) then ret (NULL, out)
      else
        let* current_filename := of_option out.(filename) in
        let* c := cpio_strncmp (Ptr current_filename) (Ptr name) (2 ^ 32 - 1) in
        if c =? 0 then let* result := of_option out.(data) in ret (result, out)
        else let* header := of_option out.(next) in get_file_loop fuel' header name out
  end.
Definition cpio_get_file (archive name : Z) : M bytes (Z * cpio_out) :=
  let* fuel := memory_fuel in get_file_loop fuel archive name no_out.

Record cpio_info_t := mk_cpio_info { file_count : Z; max_path_sz : Z }.
Fixpoint info_loop (fuel : nat) (header : Z) (info : cpio_info_t) : M bytes (Z * cpio_info_t) :=
  match fuel with
  | O => halt_with NoFuel
  | Datatypes.S fuel' =>
      let* r := cpio_parse_header header no_out in
      if r.1 =? -1 then ret (-1, info)
      else if r.1 =? 1 then ret (0, info)
      else
        let info := mk_cpio_info (info.(file_count) +w 1) info.(max_path_sz) in
        let* header := of_option r.2.(next) in
        let* current_filename := of_option r.2.(filename) in
        let* current_path_sz := cpio_strlen current_filename in
        let info := if current_path_sz >? info.(max_path_sz)
          then mk_cpio_info info.(file_count) current_path_sz else info in
        info_loop fuel' header info
  end.
(** With [info] not NULL; else the result is 1. *)
Definition cpio_info (archive : Z) : M bytes (Z * cpio_info_t) :=
  let* fuel := memory_fuel in info_loop fuel archive (mk_cpio_info 0 0).

(** [buf] is the array of buffers. *)
Fixpoint ls_loop (fuel : nat) (header : Z) (buf : list Z) (buf_len i : Z) : M bytes unit :=
  match fuel with
  | O => halt_with NoFuel
  | Datatypes.S fuel' =>
      if i <? buf_len then
        let* r := cpio_parse_header header no_out in
        if negb (r.1 =? 0) then ret tt
        else
          let* current_filename := of_option r.2.(filename) in
          let* to := of_option (buf !! Z.to_nat i) in
          let* _ := cpio_strcpy to current_filename in
          let* header := of_option r.2.(next) in
          ls_loop fuel' header buf buf_len (i + 1)
      else ret tt
  end.
Definition cpio_ls (archive : Z) (buf : list Z) (buf_len : Z) : M bytes unit :=
  let* fuel := memory_fuel in ls_loop fuel archive buf buf_len 0.
