(* ===== verification/CpioFormat.v ===== *)
(** * The archive of the boot image: format

    Bytes, strings and numbers in memory, the format of an archive as an encoder, and what parsing
    a header of an encoded archive gives. *)
From stdpp Require Import base list gmap.
From Stdlib Require Import ZArith Lia.
From S2P Require Import Prelude.
From S2P Require Import Words.
From S2P Require Import AllocBase.
From S2P Require Import Cpio.


(** ** Bytes in memory *)
Implicit Types (m : bytes) (a : Z) (l s t : list Z).
Definition at_bytes m a l : Prop := (map_seqZ a l : bytes) ⊆ m.
Lemma at_bytes_app m a l l' : at_bytes m a (l ++ l') <-> at_bytes m a l /\ at_bytes m (a + Z.of_nat (length l)) l'.
Proof.
  unfold at_bytes. rewrite map_seqZ_app. pose proof (map_seqZ_app_disjoint (M := gmap Z) a l l') as Hd. split.
  - intros H. split; (etransitivity; [|exact H]); [by apply map_union_subseteq_l|by apply map_union_subseteq_r].
  - intros [H1 H2]. by apply map_union_least.
Qed.
Lemma at_bytes_cons m a c l : at_bytes m a (c :: l) <-> m !! a = Some c /\ at_bytes m (a + 1) l.
Proof.
  rewrite (at_bytes_app m a [c] l). unfold at_bytes at 1. rewrite map_seqZ_singleton. by rewrite map_singleton_subseteq_l.
Qed.
Lemma at_bytes_lookup m a l i c : at_bytes m a l -> l !! i = Some c -> m !! (a + Z.of_nat i) = Some c.
Proof. intros H E. eapply lookup_weaken; [|exact H]. by apply lookup_map_seqZ_Some_inv. Qed.
Lemma at_bytes_size m a l : at_bytes m a l -> (length l <= size m)%nat.
Proof.
  intros H%map_subseteq_size. etransitivity; [|exact H].
  rewrite <- length_map_to_list, map_to_list_seqZ, length_zip_with, length_seqZ. lia.
Qed.

Section reading.
Lemma wp_load8 a c (Q : Z -> bytes -> Prop) m : m !! a = Some c -> Q c m -> wp (load8 a) Q m.
Proof. intros E HQ. unfold wp, load8, of_option. by rewrite E. Qed.
Lemma wp_memory_fuel (Q : nat -> bytes -> Prop) m : Q (Datatypes.S (size m)) m -> wp memory_fuel Q m.
Proof. done. Qed.

(** ** Strings *)
Definition zstring s : Prop := Forall (fun c => 0 < c) s.
(** From the character number [i], [x] is the string [s] and its zero. *)
Definition string_at m (x : cstring) (i : Z) s : Prop :=
  forall j c, (s ++ [0]) !! j = Some c -> char_at x (i + Z.of_nat j) m = Ret c m.
Lemma string_at_head m x i c s : string_at m x i (c :: s) -> char_at x i m = Ret c m /\ string_at m x (i + 1) s.
Proof.
  intros H. split; [rewrite <- (Z.add_0_r i); by apply (H 0%nat)|]. intros j c' E.
  replace (i + 1 + Z.of_nat j) with (i + Z.of_nat (Datatypes.S j)) by lia. by apply H.
Qed.
Lemma string_at_nil m x i : string_at m x i [] -> char_at x i m = Ret 0 m.
Proof. intros H. rewrite <- (Z.add_0_r i). by apply (H 0%nat). Qed.
Lemma string_at_ptr m a s : at_bytes m a (s ++ [0]) -> 0 <= a -> a + Z.of_nat (length s) < 2 ^ 32 -> string_at m (Ptr a) 0 s.
Proof.
  intros H Ha Hl j c E. cbn [char_at]. assert (a +w (0 + Z.of_nat j) = a + Z.of_nat j) as ->.
  { apply lookup_lt_Some in E. rewrite length_app in E. cbn in E. unfold wadd, wrap. apply Z.mod_small. lia. }
  unfold load8, of_option. by rewrite (at_bytes_lookup _ _ _ _ _ H E).
Qed.
Lemma string_at_literal m s : string_at m (Literal s) 0 s.
Proof. intros j c E. cbn [char_at]. rewrite Z.add_0_l, Nat2Z.id, E. done. Qed.

(** The comparison of strings decides equality, when one of them ends within the limit. *)
Lemma strncmp_loop_spec m x y n s : forall t i fuel, zstring s -> zstring t -> string_at m x i s -> string_at m y i t ->
  (Nat.min (length s) (length t) < fuel)%nat -> i + Z.of_nat (Nat.min (length s) (length t)) < n ->
  exists r, strncmp_loop fuel x y n i m = Ret r m /\ (r = 0 <-> s = t).
Proof.
  induction s as [|c s IH]; intros t i fuel Hs Ht Hx Hy Hf Hn; (destruct fuel as [|fuel]; [lia|]); cbn [strncmp_loop];
    destruct (Z.ltb_spec i n) as [_|]; try lia; destruct t as [|d t].
  - rewrite (bind_ret _ _ _ _ _ (string_at_nil _ _ _ Hx)), (bind_ret _ _ _ _ _ (string_at_nil _ _ _ Hy)). by exists 0.
  - apply string_at_head in Hy as [Hd _]. rewrite (bind_ret _ _ _ _ _ (string_at_nil _ _ _ Hx)), (bind_ret _ _ _ _ _ Hd).
    apply Forall_cons in Ht as [Hd0 _]. destruct (Z.eqb_spec 0 d); [lia|]. exists (0 - d). split; [done|]. split; [lia|done].
  - apply string_at_head in Hx as [Hc _]. rewrite (bind_ret _ _ _ _ _ Hc), (bind_ret _ _ _ _ _ (string_at_nil _ _ _ Hy)).
    apply Forall_cons in Hs as [Hc0 _]. destruct (Z.eqb_spec c 0); [lia|]. exists (c - 0). split; [done|]. split; [lia|done].
  - apply string_at_head in Hx as [Hc Hx], Hy as [Hd Hy]. rewrite (bind_ret _ _ _ _ _ Hc), (bind_ret _ _ _ _ _ Hd).
    apply Forall_cons in Hs as [Hc0 Hs], Ht as [Hd0 Ht]. destruct (Z.eqb_spec c d) as [->|Hne]; cbn [negb].
    + destruct (Z.eqb_spec d 0); [lia|]. destruct (IH t (i + 1) fuel) as (r & E & Hr); try done; [cbn in Hf; lia|cbn in Hn; lia|].
      exists r. split; [done|]. rewrite Hr. split; [by intros ->|by intros [= ->]].
    + exists (c - d). split; [done|]. split; [lia|by intros [= ? ?]].
Qed.
Lemma wp_strncmp m x y n s t (Q : Z -> bytes -> Prop) : zstring s -> zstring t -> string_at m x 0 s -> string_at m y 0 t ->
  (Nat.min (length s) (length t) <= size m)%nat -> Z.of_nat (Nat.min (length s) (length t)) < n ->
  (forall r, (r = 0 <-> s = t) -> Q r m) -> wp (cpio_strncmp x y n) Q m.
Proof.
  intros Hs Ht Hx Hy Hf Hn HQ. unfold cpio_strncmp. ustep. apply wp_memory_fuel.
  destruct (strncmp_loop_spec m x y n s t 0 (Datatypes.S (size m))) as (r & E & Hr); try done; [lia|].
  eapply wp_exact; [exact E|]. by apply HQ.
Qed.
(** Characters without a zero, as many as are compared *)
Lemma strncmp_loop_prefix m x y n l : forall i fuel, zstring l ->
  (forall j c, l !! j = Some c -> char_at x (i + Z.of_nat j) m = Ret c m /\ char_at y (i + Z.of_nat j) m = Ret c m) ->
  (length l < fuel)%nat -> i + Z.of_nat (length l) = n -> strncmp_loop fuel x y n i m = Ret 0 m.
Proof.
  induction l as [|c l IH]; intros i fuel Hl H Hf Hn; (destruct fuel as [|fuel]; [cbn in Hf; lia|]); cbn [strncmp_loop].
  - cbn in Hn. by destruct (Z.ltb_spec i n); [lia|].
  - destruct (H 0%nat c eq_refl) as [Hx Hy]. rewrite Z.add_0_r in Hx, Hy. cbn in Hn.
    destruct (Z.ltb_spec i n); [|lia]. rewrite (bind_ret _ _ _ _ _ Hx), (bind_ret _ _ _ _ _ Hy), Z.eqb_refl.
    apply Forall_cons in Hl as [Hc Hl]. cbn [negb]. destruct (Z.eqb_spec c 0); [lia|]. apply IH; [done| |cbn in Hf; lia|lia].
    intros j d E. replace (i + 1 + Z.of_nat j) with (i + Z.of_nat (Datatypes.S j)) by lia. by apply H.
Qed.

Lemma strlen_loop_spec m a s : forall fuel b, 0 <= a -> zstring s -> at_bytes m b (s ++ [0]) -> a <= b ->
  b + Z.of_nat (length s) < 2 ^ 32 -> (length s < fuel)%nat ->
  strlen_loop fuel a b m = Ret (b - a + Z.of_nat (length s)) m.
Proof.
  induction s as [|c s IH]; intros fuel b Ha Hs H Hb Hl Hf; (destruct fuel as [|fuel]; [cbn in Hf; lia|]); cbn [strlen_loop].
  - apply at_bytes_cons in H as [E _]. cbn in Hl. unfold bind at 1, load8, of_option. rewrite E. cbn. f_equal. unfold wsub, wrap.
    rewrite Z.mod_small; lia.
  - cbn [app length] in *. apply at_bytes_cons in H as [E H]. apply Forall_cons in Hs as [Hc Hs].
    unfold bind at 1, load8 at 1, of_option. rewrite E. unfold ret. destruct (Z.eqb_spec c 0); [lia|].
    assert (b +w 1 = b + 1) as -> by (unfold wadd, wrap; apply Z.mod_small; lia).
    rewrite IH; try done; [f_equal; lia|lia|lia|lia].
Qed.
Lemma wp_strlen m a s (Q : Z -> bytes -> Prop) : zstring s -> at_bytes m a (s ++ [0]) -> 0 <= a ->
  a + Z.of_nat (length s) < 2 ^ 32 -> Q (Z.of_nat (length s)) m -> wp (cpio_strlen a) Q m.
Proof.
  intros Hs H Ha Hl HQ. unfold cpio_strlen. ustep. apply wp_memory_fuel. pose proof (at_bytes_size _ _ _ H) as Hz.
  rewrite length_app in Hz. cbn in Hz. eapply wp_exact; [apply (strlen_loop_spec m a s); try done; lia|]. by rewrite Z.sub_diag.
Qed.

(** A copy writes the characters without the zero. *)
Lemma strcpy_loop_spec s : forall m fuel to from (Q : unit -> bytes -> Prop), zstring s -> at_bytes m from (s ++ [0]) ->
  0 <= from -> from + Z.of_nat (length s) < 2 ^ 32 -> 0 <= to -> to + Z.of_nat (length s) <= 2 ^ 32 ->
  (forall j, to <= j < to + Z.of_nat (length s) -> is_Some (m !! j)) ->
  (to + Z.of_nat (length s) <= from \/ from + Z.of_nat (length s) + 1 <= to) -> (length s < fuel)%nat ->
  Q tt ((map_seqZ to s : bytes) ∪ m) -> wp (strcpy_loop fuel to from) Q m.
Proof.
  induction s as [|c s IH]; intros m fuel to from Q Hs H Hf0 Hf Ht0 Ht Hm Hd Hfu HQ; (destruct fuel as [|fuel]; [cbn in Hfu; lia|]); cbn [strcpy_loop].
  - apply at_bytes_cons in H as [E _]. ustep. eapply wp_load8; [exact E|]. cbn.
    assert ((map_seqZ to [] : bytes) ∪ m = m) as E0 by apply map_empty_union. by rewrite E0 in HQ.
  - cbn [app length] in *. apply at_bytes_cons in H as [E H]. apply Forall_cons in Hs as [Hc Hs].
    ustep. eapply wp_load8; [exact E|]. destruct (Z.eqb_spec c 0); [lia|]. ustep.
    destruct (Hm to ltac:(lia)) as [o Eo]. unfold wp at 1, store8. rewrite Eo. rewrite map_seqZ_cons in HQ.
    destruct (decide (s = [])) as [->|Hne].
    { destruct fuel as [|fuel]; [cbn in Hfu; lia|]. cbn [strcpy_loop]. cbn in Hf, Hd. apply at_bytes_cons in H as [E0 _]. ustep.
      assert (from +w 1 = from + 1) as -> by (unfold wadd, wrap; apply Z.mod_small; lia).
      eapply wp_load8; [rewrite lookup_insert_ne by lia; exact E0|]. cbn.
      assert (map_seqZ (Z.succ to) [] = (∅ : bytes)) as E2 by done. by rewrite E2, insert_empty, <- insert_union_singleton_l in HQ. }
    assert (0 < Z.of_nat (length s)) as Hpos by (destruct s; [done|cbn; lia]).
    assert (to +w 1 = to + 1) as -> by (unfold wadd, wrap; apply Z.mod_small; lia).
    assert (from +w 1 = from + 1) as -> by (unfold wadd, wrap; apply Z.mod_small; lia).
    apply IH; [done| |lia|lia|lia|lia| |lia|lia|].
    + unfold at_bytes. etransitivity; [|apply insert_subseteq_r; [|exact H]]; [done|]. 
      apply lookup_map_seqZ_None. rewrite length_app. cbn. lia.
    + intros j Hj. apply lookup_insert_is_Some'. right. apply Hm. lia.
    + rewrite <- insert_union_r, insert_union_l; [exact HQ|]. apply lookup_map_seqZ_None. lia.
Qed.
End reading.


(** ** Numbers *)
Definition hex_char (d : Z) : Z := if d <? 10 then 48 + d else 55 + d.
Fixpoint hex (k : nat) (n : Z) : list Z :=
  match k with O => [] | Datatypes.S k => hex k (n / 16) ++ [hex_char (n mod 16)] end.
Definition hex_value (l : list Z) (r : Z) : Z := foldl (fun r c => r * 16 + default 0 (hex_digit c)) r l.

Section numbers.
Lemma hex_char_digit d : 0 <= d < 16 -> hex_digit (hex_char d) = Some d.
Proof.
  intros Hd. unfold hex_char, hex_digit. destruct (Z.ltb_spec d 10).
  - destruct (Z.leb_spec 48 (48 + d)), (Z.leb_spec (48 + d) 57); try lia. cbn. f_equal. lia.
  - destruct (Z.leb_spec (55 + d) 57), (Z.leb_spec 48 (55 + d)), (Z.leb_spec 97 (55 + d)), (Z.leb_spec (55 + d) 102),
      (Z.leb_spec 65 (55 + d)), (Z.leb_spec (55 + d) 70); try lia; cbn; f_equal; lia.
Qed.
Lemma length_hex k n : length (hex k n) = k.
Proof. revert n. induction k as [|k IH]; intros n; cbn [hex]; [done|]. rewrite length_app, IH. cbn. lia. Qed.
Lemma hex_digits k n : Forall (fun c => is_Some (hex_digit c)) (hex k n).
Proof.
  revert n. induction k as [|k IH]; intros n; cbn [hex]; [constructor|]. apply Forall_app. split; [done|].
  constructor; [|done]. rewrite hex_char_digit by (apply Z.mod_pos_bound; lia). by eexists.
Qed.
Lemma hex_value_hex k n : 0 <= n < 16 ^ Z.of_nat k -> hex_value (hex k n) 0 = n.
Proof.
  revert n. induction k as [|k IH]; intros n Hn; [cbn in *; lia|]. cbn [hex]. unfold hex_value. rewrite foldl_app.
  fold (hex_value (hex k (n / 16)) 0). rewrite Nat2Z.inj_succ, Z.pow_succ_r in Hn by lia.
  rewrite IH by (split; [apply Z.div_pos; lia|apply Z.div_lt_upper_bound; lia]). cbn.
  rewrite hex_char_digit by (apply Z.mod_pos_bound; lia). cbn. pose proof (Z.div_mod n 16). lia.
Qed.
Lemma parse_hex_loop_spec m l : forall (s i r : Z), at_bytes m (s + i) l -> 0 <= s -> 0 <= i -> s + i + Z.of_nat (length l) <= 2 ^ 32 ->
  Forall (fun c => is_Some (hex_digit c)) l -> parse_hex_loop (length l) s i (wrap r) m = Ret (wrap (hex_value l r)) m.
Proof.
  induction l as [|c l IH]; intros s i r H Hs Hi Hl Hd; [done|]. cbn [length parse_hex_loop] in *.
  apply at_bytes_cons in H as [E H]. apply Forall_cons in Hd as [[d Ed] Hd].
  assert (s +w i = s + i) as -> by (unfold wadd, wrap; apply Z.mod_small; lia).
  unfold bind, load8 at 1, of_option. rewrite E. unfold ret. rewrite Ed.
  assert (wrap r *w 16 +w d = wrap (r * 16 + d)) as ->.
  { unfold wadd, wmul, wrap. rewrite Z.mul_mod_idemp_l, Z.add_mod_idemp_l by lia. done. }
  rewrite IH; try done; [|by rewrite Z.add_assoc|lia|lia]. cbn. by rewrite Ed.
Qed.
Lemma wp_parse_hex m (s n : Z) (Q : Z -> bytes -> Prop) : at_bytes m s (hex 8 n) -> 0 <= s -> s + 8 <= 2 ^ 32 -> is_word n ->
  Q n m -> wp (parse_hex_str s 8) Q m.
Proof.
  intros H Hs Hl Hn HQ. eapply wp_exact; [|exact HQ]. unfold parse_hex_str. change 0 with (wrap 0) at 2.
  rewrite <- (length_hex 8 n) at 1. rewrite parse_hex_loop_spec; [|by rewrite Z.add_0_r|lia|lia|rewrite length_hex; lia|apply hex_digits].
  unfold is_word in Hn. rewrite hex_value_hex by (change (16 ^ Z.of_nat 8) with (2 ^ 32); done). by unfold wrap; rewrite Z.mod_small.
Qed.
Lemma align_up_4 n : 0 <= n -> n + 4 <= 2 ^ 32 -> align_up n CPIO_ALIGNMENT = n + (- n) mod 4.
Proof.
  intros Hn Hl. unfold align_up, CPIO_ALIGNMENT. assert (n +w 4 -w 1 = n + 3) as ->.
  { unfold wsub, wadd, wrap. rewrite Zminus_mod_idemp_l. rewrite Z.mod_small; lia. }
  change (4 -w 1) with (MASK 2). rewrite land_not_MASK by (unfold is_word; lia). change (2 ^ 2) with 4.
  pose proof (Z.div_mod (n + 3) 4). pose proof (Z.mod_pos_bound (n + 3) 4). pose proof (Z.mod_pos_bound (- n) 4).
  pose proof (Z.div_mod (- n) 4). lia.
Qed.
End numbers.

(** ** The format

    An entry of a new ASCII archive: the header, the name and its zero, and the data, each padded to
    four bytes; the other fields of the header can be anything. *)
Record entry := mk_entry { e_name : list Z; e_data : list Z; e_ids : list Z; e_devices : list Z; e_check : list Z }.
Definition pad (n : Z) : list Z := replicate (Z.to_nat ((- n) mod 4)) 0.
Definition header_bytes (e : entry) (size namesize : Z) : list Z :=
  CPIO_HEADER_MAGIC ++ e.(e_ids) ++ hex 8 size ++ e.(e_devices) ++ hex 8 namesize ++ e.(e_check).
Definition name_end (e : entry) : Z := 110 + Z.of_nat (length e.(e_name)) + 1.
Definition data_size (e : entry) : Z := Z.of_nat (length e.(e_data)).
Definition data_start (e : entry) : Z := name_end e + (- name_end e) mod 4.
Definition entry_size (e : entry) : Z := data_start e + data_size e + (- data_size e) mod 4.
Definition encode_entry (e : entry) : list Z :=
  header_bytes e (data_size e) (Z.of_nat (length e.(e_name)) + 1) ++ (e.(e_name) ++ [0]) ++ pad (name_end e) ++
  e.(e_data) ++ pad (data_size e).
Definition fields_ok (e : entry) : Prop :=
  length e.(e_ids) = 48%nat /\ length e.(e_devices) = 32%nat /\ length e.(e_check) = 8%nat.
Record entry_ok (e : entry) : Prop := {
  eo_fields : fields_ok e;
  eo_name : zstring e.(e_name);
  eo_trailer : e.(e_name) <> CPIO_FOOTER_MAGIC }.
(** What the trailer's fields are *)
Definition trailer (f : entry) : list Z := header_bytes f 0 11 ++ CPIO_FOOTER_MAGIC ++ [0].
Fixpoint archive (es : list entry) (f : entry) : list Z :=
  match es with [] => trailer f | e :: es => encode_entry e ++ archive es f end.

Section format.
Implicit Types (e f : entry) (es : list entry).
Lemma length_pad n : Z.of_nat (length (pad n)) = (- n) mod 4.
Proof. unfold pad. rewrite length_replicate. apply Z2Nat.id, Z.mod_pos_bound. lia. Qed.
Lemma length_header e size n : fields_ok e -> length (header_bytes e size n) = 110%nat.
Proof. intros (H1 & H2 & H3). unfold header_bytes. rewrite !length_app, !length_hex, H1, H2, H3. done. Qed.
Lemma length_encode e : fields_ok e -> Z.of_nat (length (encode_entry e)) = entry_size e.
Proof.
  intros H. unfold encode_entry. rewrite !length_app, length_header, !Nat2Z.inj_add, !length_pad by done.
  unfold entry_size, data_start. cbn [length].
  assert (name_end e = 110 + Z.of_nat (length (e_name e)) + 1) by done. assert (data_size e = Z.of_nat (length (e_data e))) by done. lia.
Qed.
Lemma entry_size_bound e : 111 <= name_end e /\ name_end e <= data_start e /\ 0 <= data_size e /\ data_start e + data_size e <= entry_size e.
Proof.
  unfold entry_size, data_start, name_end, data_size.
  pose proof (Z.mod_pos_bound (- (110 + Z.of_nat (length (e_name e)) + 1)) 4). 
  pose proof (Z.mod_pos_bound (- Z.of_nat (length (e_data e))) 4). lia.
Qed.

(** The parts of a header and of an entry in memory *)
Lemma at_header m a e size n : fields_ok e -> at_bytes m a (header_bytes e size n) ->
  at_bytes m a CPIO_HEADER_MAGIC /\ at_bytes m (a + 54) (hex 8 size) /\ at_bytes m (a + 94) (hex 8 n).
Proof.
  intros (H1 & H2 & H3). unfold header_bytes. rewrite !at_bytes_app, !length_hex, H1, H2. cbn [length CPIO_HEADER_MAGIC].
  rewrite <- !Z.add_assoc. tauto.
Qed.
Lemma at_entry m a e : fields_ok e -> at_bytes m a (encode_entry e) ->
  at_bytes m a (header_bytes e (data_size e) (Z.of_nat (length e.(e_name)) + 1)) /\
  at_bytes m (a + 110) (e.(e_name) ++ [0]) /\ at_bytes m (a + data_start e) e.(e_data).
Proof.
  intros H. unfold encode_entry. rewrite at_bytes_app, length_header by done.
  rewrite (at_bytes_app m _ (e.(e_name) ++ [0])), (at_bytes_app m _ (pad _)), (at_bytes_app m _ e.(e_data)).
  rewrite length_app, Nat2Z.inj_add, length_pad. intros (H1 & H2 & _ & H4 & _). split; [done|]. split; [done|].
  assert (name_end e = 110 + Z.of_nat (length (e_name e)) + 1) as En by done. cbn [length] in H4.
  match type of H4 with at_bytes _ ?x _ => replace (a + data_start e) with x; [done|] end. unfold data_start. lia.
Qed.
End format.

(** ** The header of an entry, and of the trailer *)
Section parsing.
Implicit Types (e f : entry) (es : list entry) (out : cpio_out).
Definition parsed a e : cpio_out :=
  mk_out (Some (a + 110)) (Some (data_size e)) (Some (a + data_start e)) (Some (a + entry_size e)).
Lemma wp_magic m a (Q : Z -> bytes -> Prop) : at_bytes m a CPIO_HEADER_MAGIC -> 0 <= a -> a + 6 <= 2 ^ 32 ->
  Q 0 m -> wp (cpio_strncmp (Ptr (c_magic a)) (Literal CPIO_HEADER_MAGIC) 6) Q m.
Proof.
  intros H Ha Hl HQ. unfold cpio_strncmp, c_magic. ustep. apply wp_memory_fuel. pose proof (at_bytes_size _ _ _ H) as Hz.
  eapply wp_exact; [apply (strncmp_loop_prefix m _ _ 6 CPIO_HEADER_MAGIC 0)|exact HQ].
  - repeat constructor; lia.
  - intros j c E. rewrite Z.add_0_l. cbn [char_at]. rewrite Nat2Z.id, (lookup_app_l_Some _ _ _ _ E). split; [|done].
    pose proof (lookup_lt_Some _ _ _ E) as Hj. cbn in Hj.
    assert (a +w Z.of_nat j = a + Z.of_nat j) as -> by (unfold wadd, wrap; apply Z.mod_small; lia).
    unfold load8, of_option. by rewrite (at_bytes_lookup _ _ _ _ _ H E).
  - cbn in *. lia.
  - done.
Qed.
Lemma wp_footer m b s (Q : Z -> bytes -> Prop) : at_bytes m b (s ++ [0]) -> zstring s -> (10 <= size m)%nat -> 0 <= b ->
  b + Z.of_nat (length s) < 2 ^ 32 -> (forall r, (r = 0 <-> s = CPIO_FOOTER_MAGIC) -> Q r m) ->
  wp (cpio_strncmp (Ptr b) (Literal CPIO_FOOTER_MAGIC) 11) Q m.
Proof.
  intros H Hs Hm Hb Hl HQ. apply (wp_strncmp m _ _ 11 s CPIO_FOOTER_MAGIC); try done.
  - repeat constructor; lia.
  - by apply string_at_ptr.
  - apply string_at_literal.
  - change (length CPIO_FOOTER_MAGIC) with 10%nat. lia.
  - change (length CPIO_FOOTER_MAGIC) with 10%nat. lia.
Qed.
Lemma wp_parse_entry m a e out (Q : Z * cpio_out -> bytes -> Prop) : entry_ok e -> at_bytes m a (encode_entry e) ->
  0 <= a -> a mod 4 = 0 -> a + entry_size e + 4 <= 2 ^ 32 -> Q (0, parsed a e) m -> wp (cpio_parse_header a out) Q m.
Proof.
  intros [Hf Hn Ht] H Ha Ha4 Hl HQ. pose proof (entry_size_bound e) as (Hb1 & Hb2 & Hb3 & Hb4).
  destruct (at_entry m a e Hf H) as (Hh & Hna & _). destruct (at_header m a e _ _ Hf Hh) as (Hm & Hs & Hns).
  pose proof (at_bytes_size _ _ _ Hh) as Hz. rewrite length_header in Hz by done. unfold name_end in Hb1, Hb2 at 1.
  unfold cpio_parse_header, c_filesize, c_namesize, sizeof_cpio_header.
  assert (forall k, 0 <= k <= 110 -> a +w k = a + k) as Hw by (intros k Hk; unfold wadd, wrap; apply Z.mod_small; lia).
  rewrite !Hw by lia. ustep. apply wp_magic; [done|lia|lia|]. cbn [negb]. rewrite Z.eqb_refl. cbn [negb]. ustep.
  eapply wp_parse_hex; [exact Hs|lia|lia|unfold is_word; lia|]. cbv zeta. ustep.
  apply (wp_footer m (a + 110) e.(e_name)); [done|done|lia|lia|lia|]. intros r Hr.
  destruct (Z.eqb_spec r 0) as [E|_]; [by destruct Ht; apply Hr|]. ustep.
  eapply wp_parse_hex; [exact Hns|lia|lia|unfold is_word; lia|]. ustep.
  assert (a + 110 +w (Z.of_nat (length (e_name e)) + 1) = a + name_end e) as ->.
  { unfold wadd, wrap, name_end. rewrite Z.mod_small; lia. }
  assert ((- (a + name_end e)) mod 4 = (- name_end e) mod 4) as E1.
  { replace (- (a + name_end e)) with (- name_end e - a) by lia. rewrite Zminus_mod, Ha4, Z.sub_0_r. apply Zmod_mod. }
  rewrite align_up_4 by (unfold name_end; lia). rewrite E1. 
  replace (a + name_end e + - name_end e mod 4) with (a + data_start e) by (unfold data_start; lia).
  assert ((a + data_start e) mod 4 = 0) as E2.
  { rewrite Z.add_mod, Ha4 by lia. unfold data_start. pose proof (Z.div_mod (- name_end e) 4).
    rewrite Z.add_0_l, Zmod_mod. replace (name_end e + - name_end e mod 4) with ((- (- name_end e / 4)) * 4) by lia. apply Z.mod_mul. lia. }
  assert (a + data_start e +w data_size e = a + data_start e + data_size e) as ->.
  { unfold wadd, wrap. rewrite Z.mod_small; lia. }
  rewrite align_up_4 by lia.
  assert ((- (a + data_start e + data_size e)) mod 4 = (- data_size e) mod 4) as ->.
  { replace (- (a + data_start e + data_size e)) with (- data_size e - (a + data_start e)) by lia.
    rewrite Zminus_mod, E2, Z.sub_0_r. apply Zmod_mod. }
  unfold parsed, entry_size in HQ. by rewrite !Z.add_assoc in HQ.
Qed.
Lemma wp_parse_trailer m a f out (Q : Z * cpio_out -> bytes -> Prop) : fields_ok f -> at_bytes m a (trailer f) ->
  0 <= a -> a + 121 <= 2 ^ 32 -> (forall out', Q (1, out') m) -> wp (cpio_parse_header a out) Q m.
Proof.
  intros Hf H Ha Hl HQ. unfold trailer in H. apply at_bytes_app in H as [Hh Hn]. rewrite length_header in Hn by done.
  destruct (at_header m a f _ _ Hf Hh) as (Hm & Hs & _). pose proof (at_bytes_size _ _ _ Hh) as Hz. rewrite length_header in Hz by done.
  unfold cpio_parse_header, c_filesize, sizeof_cpio_header.
  assert (forall k, 0 <= k <= 110 -> a +w k = a + k) as Hw by (intros k Hk; unfold wadd, wrap; apply Z.mod_small; lia).
  rewrite !Hw by lia. ustep. apply wp_magic; [done|lia|lia|]. rewrite Z.eqb_refl. cbn [negb]. ustep.
  eapply wp_parse_hex; [exact Hs|lia|lia|done|]. cbv zeta. ustep.
  apply (wp_footer m (a + 110) CPIO_FOOTER_MAGIC); [done|repeat constructor; lia|lia|lia|cbn; lia|]. intros r Hr.
  rewrite (proj2 Hr eq_refl), Z.eqb_refl. ustep. apply HQ.
Qed.
End parsing.
