(* ===== verification/CpioSpec.v ===== *)
(** * The archive of the boot image: theorem

    Archives in memory, the functions on them, and what they do on memory that is not an archive. *)
From stdpp Require Import base list gmap.
From Stdlib Require Import ZArith Lia.
From S2P Require Import Prelude.
From S2P Require Import Words.
From S2P Require Import AllocBase.
From S2P Require Import Cpio.
From S2P Require Import CpioFormat.

Implicit Types (m : bytes) (a : Z) (l s t : list Z) (e f : entry) (es : list entry).
(** ** An archive in memory *)
Definition archive_size es f : Z := Z.of_nat (length (archive es f)).
Record located m a es f : Prop := {
  lo_bytes : at_bytes m a (archive es f);
  lo_range : 0 <= a /\ a + archive_size es f <= 2 ^ 32;
  lo_aligned : a mod 4 = 0;
  lo_entries : Forall entry_ok es;
  lo_trailer : fields_ok f }.
(** Where entry number [n] is *)
Definition entry_offset es (n : nat) : Z := foldr Z.add 0 (entry_size <$> take n es).
Definition same_name t e : Prop := e.(e_name) = t.
#[export] Instance same_name_dec t e : Decision (same_name t e).
Proof. unfold same_name. apply _. Defined.
Definition longest_name es : Z := foldr Z.max 0 ((fun e => Z.of_nat (length e.(e_name))) <$> es).

Section archives.
Lemma entry_size_aligned e : entry_size e mod 4 = 0.
Proof.
  unfold entry_size, data_start. pose proof (Z.div_mod (- name_end e) 4). pose proof (Z.div_mod (- data_size e) 4).
  replace (name_end e + - name_end e mod 4 + data_size e + - data_size e mod 4) with
    ((- (- name_end e / 4) - (- data_size e / 4)) * 4) by lia. apply Z.mod_mul. lia.
Qed.
Lemma archive_size_cons e es f : fields_ok e -> archive_size (e :: es) f = entry_size e + archive_size es f.
Proof. intros H. unfold archive_size. cbn [archive]. rewrite length_app, Nat2Z.inj_add, length_encode by done. done. Qed.
Lemma archive_size_min es f : fields_ok f -> 121 <= archive_size es f.
Proof.
  intros H. unfold archive_size. induction es as [|e es IH]; cbn [archive]; unfold trailer; rewrite length_app; [|lia].
  rewrite length_header by done. cbn. lia.
Qed.
Lemma located_cons m a e es f : located m a (e :: es) f ->
  entry_ok e /\ at_bytes m a (encode_entry e) /\ 0 <= a /\ a + entry_size e + 121 <= 2 ^ 32 /\ located m (a + entry_size e) es f.
Proof.
  intros [Hb [Ha Hr] H4 He Hf]. apply Forall_cons in He as [He Hes]. pose proof (eo_fields _ He) as Hfe.
  rewrite archive_size_cons in Hr by done. pose proof (archive_size_min es f Hf). pose proof (entry_size_bound e).
  cbn [archive] in Hb. apply at_bytes_app in Hb as [Hb1 Hb2]. rewrite length_encode in Hb2 by done.
  split_and!; try done; try lia. split; try done; [lia|]. by rewrite Z.add_mod, H4, entry_size_aligned by lia.
Qed.
Lemma wp_parse_cons m a e es f out (Q : Z * cpio_out -> bytes -> Prop) : located m a (e :: es) f ->
  Q (0, parsed a e) m -> wp (cpio_parse_header a out) Q m.
Proof.
  intros H HQ. pose proof (lo_aligned _ _ _ _ H). destruct (located_cons _ _ _ _ _ H) as (? & ? & ? & ? & _).
  apply (wp_parse_entry m a e); try done. lia.
Qed.
Lemma wp_parse_nil m a f out (Q : Z * cpio_out -> bytes -> Prop) : located m a [] f ->
  (forall out', Q (1, out') m) -> wp (cpio_parse_header a out) Q m.
Proof.
  intros [Hb [Ha Hr] _ _ Hf] HQ. pose proof (archive_size_min [] f Hf). apply (wp_parse_trailer m a f); try done. lia.
Qed.
Lemma located_name m a e es f : located m a (e :: es) f ->
  zstring e.(e_name) /\ at_bytes m (a + 110) (e.(e_name) ++ [0]) /\ 110 <= a + 110 /\
  a + 110 + Z.of_nat (length e.(e_name)) < 2 ^ 32 /\ (length e.(e_name) < size m)%nat.
Proof.
  intros H. destruct (located_cons _ _ _ _ _ H) as (He & Hb & Ha & Hr & _). destruct He as [Hf Hn _].
  destruct (at_entry m a e Hf Hb) as (_ & Hna & _). pose proof (at_bytes_size _ _ _ Hna) as Hz. rewrite length_app in Hz. cbn in Hz.
  pose proof (entry_size_bound e) as Hs. unfold name_end in Hs at 2. split_and!; try done; lia.
Qed.
Lemma located_nth m a es f n e : located m a es f -> es !! n = Some e ->
  located m (a + entry_offset es n) (e :: drop (Datatypes.S n) es) f.
Proof.
  revert a n. induction es as [|e' es IH]; intros a [|n] H E; try done.
  - injection E as ->. by rewrite Z.add_0_r.
  - destruct (located_cons _ _ _ _ _ H) as (_ & _ & _ & _ & H'). specialize (IH _ _ H' E).
    unfold entry_offset in *. cbn. by rewrite Z.add_assoc.
Qed.
Lemma located_data m a es f n e : located m a es f -> es !! n = Some e ->
  at_bytes m (a + entry_offset es n + data_start e) e.(e_data).
Proof.
  intros H E. destruct (located_cons _ _ _ _ _ (located_nth _ _ _ _ _ _ H E)) as (He & Hb & _).
  by apply at_entry; [apply He|].
Qed.
Lemma archive_size_count es f : fields_ok f -> Forall entry_ok es -> Z.of_nat (length es) + 121 <= archive_size es f.
Proof.
  intros Hf. induction 1 as [|e es He Hes IH]; [by apply archive_size_min|].
  rewrite archive_size_cons by apply He. pose proof (entry_size_bound e). cbn [length]. lia.
Qed.
Lemma located_fuel m a es f : located m a es f -> (length es < size m)%nat.
Proof.
  intros [Hb _ _ He Hf]. apply at_bytes_size in Hb. pose proof (archive_size_count es f Hf He). unfold archive_size in *. lia.
Qed.

(** ** The operations *)
Lemma wp_get_entry_loop f es : forall m a n out, located m a es f ->
  wp (get_entry_loop (Datatypes.S n) a out) (fun r m' => m' = m /\
    match es !! n with
    | Some e => r = (a + entry_offset es n + data_start e, parsed (a + entry_offset es n) e)
    | None => r.1 = NULL
    end) m.
Proof.
  induction es as [|e es IH]; intros m a n out H; cbn [get_entry_loop]; ustep.
  { eapply wp_parse_nil; [done|]. intros out'. by split. }
  eapply wp_parse_cons; [done|]. rewrite Z.eqb_refl. cbn [negb snd fst]. ustep. eapply wp_of_option; [done|].
  destruct (located_cons _ _ _ _ _ H) as (_ & _ & _ & _ & H'). destruct n as [|n].
  - cbn [get_entry_loop]. ustep. split; [done|]. cbn. by rewrite Z.add_0_r.
  - eapply wp_mono; [by apply (IH m (a + entry_size e) n)|]. intros r m' [-> Hr]. split; [done|]. cbn [lookup list_lookup].
    unfold entry_offset in *. cbn [take fmap list_fmap foldr]. rewrite Z.add_assoc. done.
Qed.
Lemma wp_get_file_loop f t p es : zstring t -> forall m a fuel out, located m a es f -> string_at m (Ptr p) 0 t ->
  (length es < fuel)%nat -> wp (get_file_loop fuel a p out) (fun r m' => m' = m /\
    match list_find (same_name t) es with
    | Some (n, e) => r = (a + entry_offset es n + data_start e, parsed (a + entry_offset es n) e)
    | None => r.1 = NULL
    end) m.
Proof.
  intros Ht. induction es as [|e es IH]; intros m a fuel out H Hp Hf; (destruct fuel as [|fuel]; [cbn in Hf; lia|]); cbn [get_file_loop]; ustep.
  { eapply wp_parse_nil; [done|]. intros out'. by split. }
  eapply wp_parse_cons; [done|]. rewrite Z.eqb_refl. cbn [negb snd fst]. ustep. eapply wp_of_option; [done|]. ustep.
  destruct (located_cons _ _ _ _ _ H) as (_ & _ & _ & _ & H'). destruct (located_name _ _ _ _ _ H) as (Hn & Hb & Ha & Hr & Hz).
  apply (wp_strncmp m _ _ _ e.(e_name) t); try done; [by apply string_at_ptr; lia || done|lia|lia|].
  intros r Hrt. cbn [list_find]. destruct (Z.eqb_spec r 0) as [E|E].
  - rewrite decide_True by (unfold same_name; tauto). ustep. eapply wp_of_option; [done|]. ustep. split; [done|]. cbn. by rewrite Z.add_0_r.
  - rewrite decide_False by (unfold same_name; tauto). ustep. eapply wp_of_option; [done|]. eapply wp_mono; [apply (IH m (a + entry_size e)); try done; cbn in Hf; lia|].
    intros r' m' [-> Hr']. split; [done|]. destruct (list_find _ es) as [[n e']|]; cbn; [|done].
    unfold entry_offset in *. cbn. by rewrite Z.add_assoc.
Qed.
Lemma wp_info_loop f es : forall m a fuel fc mx, located m a es f -> 0 <= fc -> fc + Z.of_nat (length es) < 2 ^ 32 ->
  (length es < fuel)%nat -> wp (info_loop fuel a (mk_cpio_info fc mx)) (fun r m' => m' = m /\
    r.1 = 0 /\ r.2.(file_count) = fc + Z.of_nat (length es) /\
    r.2.(max_path_sz) = foldl (fun x e => Z.max x (Z.of_nat (length e.(e_name)))) mx es) m.
Proof.
  induction es as [|e es IH]; intros m a fuel fc mx H Hc Hcl Hf; (destruct fuel as [|fuel]; [cbn in Hf; lia|]); cbn [info_loop]; ustep.
  { eapply wp_parse_nil; [done|]. intros out'. cbn. unfold wp, ret. cbn. split_and!; [done|done|lia|done]. }
  eapply wp_parse_cons; [done|]. cbn [fst snd]. change (0 =? -1) with false. change (0 =? 1) with false. cbv iota zeta.
  ustep. eapply wp_of_option; [done|]. ustep. eapply wp_of_option; [done|].
  destruct (located_cons _ _ _ _ _ H) as (_ & _ & _ & _ & H'). destruct (located_name _ _ _ _ _ H) as (Hn & Hb & Ha & Hr & Hz).
  ustep. apply (wp_strlen m _ e.(e_name)); try done; [lia|].
  cbn [file_count max_path_sz]. assert (fc +w 1 = fc + 1) as -> by (unfold wadd, wrap; apply Z.mod_small; cbn in Hcl; lia).
  assert ((if Z.of_nat (length (e_name e)) >? mx then mk_cpio_info (fc + 1) (Z.of_nat (length (e_name e))) else mk_cpio_info (fc + 1) mx) =
    mk_cpio_info (fc + 1) (Z.max mx (Z.of_nat (length e.(e_name))))) as ->.
  { destruct (Z.gtb_spec (Z.of_nat (length (e_name e))) mx); f_equal; lia. }
  cbn [length] in *. eapply wp_mono; [apply (IH m (a + entry_size e) fuel); try done; lia|].
  intros r m' (-> & Hr0 & Hrc & Hrm). cbn in *. split; [done|]. split; [done|]. split; [lia|done].
Qed.
End archives.


(** ** The list of names *)
Fixpoint copy_names m (bufs : list Z) es : bytes :=
  match bufs, es with
  | b :: bufs, e :: es => copy_names ((map_seqZ b e.(e_name) : bytes) ∪ m) bufs es
  | _, _ => m
  end.
(** A buffer for the name, outside of the archive *)
Record buffer_ok m (lo hi : Z) (x : Z * entry) : Prop := {
  bu_range : 0 <= x.1 /\ x.1 + Z.of_nat (length x.2.(e_name)) <= 2 ^ 32;
  bu_mapped : forall j, x.1 <= j < x.1 + Z.of_nat (length x.2.(e_name)) -> is_Some (m !! j);
  bu_apart : x.1 + Z.of_nat (length x.2.(e_name)) <= lo \/ hi <= x.1 }.

Section names.
Lemma at_bytes_union m a l b s : at_bytes m a l -> (b + Z.of_nat (length s) <= a \/ a + Z.of_nat (length l) <= b) ->
  at_bytes ((map_seqZ b s : bytes) ∪ m) a l.
Proof.
  intros H Hd. unfold at_bytes in *. apply map_subseteq_spec. intros i c E. apply lookup_union_Some_raw. right.
  split; [|by eapply lookup_weaken]. apply lookup_map_seqZ_None. apply mk_is_Some, lookup_map_seqZ_is_Some in E. lia.
Qed.
Lemma located_union m a es f b s : located m a es f ->
  (b + Z.of_nat (length s) <= a \/ a + archive_size es f <= b) -> located ((map_seqZ b s : bytes) ∪ m) a es f.
Proof. intros [Hb ? ? ? ?] Hd. split; try done. by apply at_bytes_union. Qed.
Lemma buffer_ok_mono m lo hi lo' hi' b s x : buffer_ok m lo hi x -> lo <= lo' -> hi' <= hi ->
  buffer_ok ((map_seqZ b s : bytes) ∪ m) lo' hi' x.
Proof.
  intros [? Hm ?] ? ?. split; [done| |lia]. intros j Hj. destruct (Hm j Hj) as [c E]. rewrite lookup_union, E.
  destruct ((map_seqZ b s : bytes) !! j); cbn; by eexists.
Qed.
Lemma wp_strcpy m to from s (Q : Z -> bytes -> Prop) : zstring s -> at_bytes m from (s ++ [0]) -> 0 <= from ->
  from + Z.of_nat (length s) < 2 ^ 32 -> 0 <= to -> to + Z.of_nat (length s) <= 2 ^ 32 ->
  (forall j, to <= j < to + Z.of_nat (length s) -> is_Some (m !! j)) ->
  (to + Z.of_nat (length s) <= from \/ from + Z.of_nat (length s) + 1 <= to) ->
  Q to ((map_seqZ to s : bytes) ∪ m) -> wp (cpio_strcpy to from) Q m.
Proof.
  intros Hs H Hf Hfl Ht Htl Hm Hd HQ. unfold cpio_strcpy. cbv zeta. ustep. apply wp_memory_fuel. ustep.
  pose proof (at_bytes_size _ _ _ H) as Hz. rewrite length_app in Hz. cbn in Hz.
  apply (strcpy_loop_spec s); try done. lia.
Qed.
Lemma wp_ls_loop f es : forall m a fuel pre bufs n i, located m a es f -> Z.of_nat (length pre) = i ->
  i + Z.of_nat (length bufs) = n -> Forall (buffer_ok m a (a + archive_size es f)) (zip bufs es) -> (length es < fuel)%nat ->
  wp (ls_loop fuel a (pre ++ bufs) n i) (fun _ m' => m' = copy_names m bufs es) m.
Proof.
  induction es as [|e es IH]; intros m a fuel pre bufs n i H Hp Hn Hb Hf; (destruct fuel as [|fuel]; [cbn in Hf; lia|]); cbn [ls_loop].
  { destruct (Z.ltb_spec i n); [|ustep; by destruct bufs]. ustep. eapply wp_parse_nil; [done|]. intros out'.
    change (wp (ret tt) (fun _ m' => m' = copy_names m bufs []) m). ustep. by destruct bufs. }
  destruct bufs as [|b bufs]; cbn [length] in Hn; (destruct (Z.ltb_spec i n); [|try lia]); [lia|by ustep|].
  ustep. eapply wp_parse_cons; [done|]. rewrite Z.eqb_refl. cbn [negb fst snd]. ustep. eapply wp_of_option; [done|]. ustep.
  eapply wp_of_option. { rewrite lookup_app_r by lia. by replace (Z.to_nat i - length pre)%nat with 0%nat by lia. } ustep.
  cbn [zip zip_with] in Hb. apply Forall_cons in Hb as [[[Hr0 Hr] Hm Ha] Hb]. cbn [fst snd] in *.
  destruct (located_name _ _ _ _ _ H) as (Hna & Hbn & Han & Hrn & _). destruct (located_cons _ _ _ _ _ H) as (He & _ & Ha0 & Hra & H').
  pose proof (entry_size_bound e) as Hes. rewrite archive_size_cons in Ha, Hb by apply He. unfold name_end in Hes at 2.
  pose proof (archive_size_min es f (lo_trailer _ _ _ _ H)).
  apply (wp_strcpy m b (a + 110) e.(e_name)); try done; [lia|lia|]. ustep. eapply wp_of_option; [done|].
  rewrite (cons_middle b pre bufs), (app_assoc pre [b] bufs). cbn [copy_names length] in *.
  apply IH; [by apply located_union; [done|lia]|rewrite length_app; cbn; lia|lia| |lia].
  eapply Forall_impl; [exact Hb|]. intros x Hx. eapply buffer_ok_mono; [exact Hx|lia|lia].
Qed.
End names.

(** ** The archive *)
(** C25: the functions read back what an archive in the new ASCII format contains, at any aligned address
    and with any values in the fields they do not use: the number of entries and the longest
    name, the name, size and data of every entry by its number, NULL for a number that is too
    large, the first entry of a name and NULL for a name that is not there, and the list of the names, which
    are copied without a zero. All loops end and only the archive, the name and the buffers are accessed. *)
Theorem cpio_correct m a es f : located m a es f ->
  wp (cpio_info a) (fun r m' => m' = m /\ r.1 = 0 /\ r.2.(file_count) = Z.of_nat (length es) /\
    r.2.(max_path_sz) = foldl (fun x e => Z.max x (Z.of_nat (length e.(e_name)))) 0 es) m /\
  (forall n e, es !! n = Some e ->
    wp (cpio_get_entry a (Z.of_nat n)) (fun r m' => m' = m /\ exists name d, r.1 = d /\ r.2.(filename) = Some name /\
      r.2.(filesize) = Some (data_size e) /\ at_bytes m name (e.(e_name) ++ [0]) /\ at_bytes m d e.(e_data)) m) /\
  (forall n, Z.of_nat (length es) <= n -> wp (cpio_get_entry a n) (fun r m' => m' = m /\ r.1 = NULL) m) /\
  (forall p t, zstring t -> string_at m (Ptr p) 0 t ->
    wp (cpio_get_file a p) (fun r m' => m' = m /\
      match list_find (same_name t) es with
      | Some (_, e) => r.2.(filesize) = Some (data_size e) /\ at_bytes m r.1 e.(e_data)
      | None => r.1 = NULL
      end) m) /\
  (forall bufs, Forall (buffer_ok m a (a + archive_size es f)) (zip bufs es) ->
    wp (cpio_ls a bufs (Z.of_nat (length bufs))) (fun _ m' => m' = copy_names m bufs es) m).
Proof.
  intros H. pose proof (located_fuel _ _ _ _ H) as Hf. split_and!.
  - unfold cpio_info. ustep. apply wp_memory_fuel. apply (wp_info_loop f es); try done; [|lia].
    pose proof (archive_size_count es f (lo_trailer _ _ _ _ H) (lo_entries _ _ _ _ H)). destruct (lo_range _ _ _ _ H). lia.
  - intros n e E. unfold cpio_get_entry. replace (Z.to_nat (Z.of_nat n + 1)) with (Datatypes.S n) by lia.
    eapply wp_mono; [by apply (wp_get_entry_loop f es)|]. cbv beta. rewrite E. intros r m' [-> ->]. split; [done|].
    do 2 eexists. split_and!; try done; [|by eapply located_data].
    by eapply located_name, located_nth.
  - intros n Hn. unfold cpio_get_entry. replace (Z.to_nat (n + 1)) with (Datatypes.S (Z.to_nat n)) by lia.
    eapply wp_mono; [by apply (wp_get_entry_loop f es)|]. cbv beta. by rewrite lookup_ge_None_2 by lia.
  - intros p t Ht Hp. unfold cpio_get_file. ustep. apply wp_memory_fuel.
    eapply wp_mono; [apply (wp_get_file_loop f t p es Ht); try done; lia|]. intros r m' [-> Hr]. split; [done|].
    destruct (list_find _ es) as [[n e]|] eqn:E; [|done]. apply list_find_Some in E as (E & _). subst r.
    split; [done|by eapply located_data].
  - intros bufs Hb. unfold cpio_ls. ustep. apply wp_memory_fuel. apply (wp_ls_loop f es m a _ []); try done. lia.
Qed.

(** Two files at address 4096 and buffers after the archive *)
Definition demo_fields : entry := mk_entry [] [] (replicate 48 48) (replicate 32 48) (replicate 8 48).
Definition demo_file (name content : list Z) : entry :=
  mk_entry name content demo_fields.(e_ids) demo_fields.(e_devices) demo_fields.(e_check).
Definition demo_entries : list entry := [demo_file [97] [1; 2; 3; 4; 5]; demo_file [98; 99] [6]].
Definition demo_memory : bytes := map_seqZ 4096 (archive demo_entries demo_fields ++ replicate 16 7).
Lemma demo_located : located demo_memory 4096 demo_entries demo_fields.
Proof.
  split; [|by vm_compute|done| |done].
  - unfold at_bytes, demo_memory. rewrite map_seqZ_app. apply map_union_subseteq_l.
  - repeat constructor; done || lia.
Qed.
Lemma cpio_correct_witness : located demo_memory 4096 demo_entries demo_fields /\
  wp (cpio_get_entry 4096 1) (fun r m' => m' = demo_memory /\ exists name d, r.1 = d /\ r.2.(filename) = Some name /\
    r.2.(filesize) = Some 1 /\ at_bytes demo_memory name [98; 99; 0] /\ at_bytes demo_memory d [6]) demo_memory.
Proof.
  split; [exact demo_located|].
  destruct (cpio_correct demo_memory 4096 demo_entries demo_fields demo_located) as (_ & HE & _).
  exact (HE 1%nat (demo_file [98; 99] [6]) eq_refl).
Defined.
(** The whole run: the names that [cpio_ls] writes run into what the buffers contained before. *)
Example ls_without_zero :
  wp (cpio_ls 4096 [4096 + archive_size demo_entries demo_fields] 1) (fun _ m' =>
    m' !! (4096 + archive_size demo_entries demo_fields) = Some 97 /\
    m' !! (4096 + archive_size demo_entries demo_fields + 1) = Some 7) demo_memory.
Proof. vm_compute. split; reflexivity. Qed.

(** ** What is not an archive

    A character that is not a digit has already shifted the number. *)
Example hex_of_short_number : parse_hex_str 0 8 (map_seqZ 0 [49; 50; 32; 32; 32; 32; 32; 32]) =
  Ret 0x120 (map_seqZ 0 [49; 50; 32; 32; 32; 32; 32; 32]).
Proof. reflexivity. Qed.
(** An entry whose size reaches back to its own header: the search for another name never ends. *)
Definition looping_memory : bytes := map_seqZ 4096
  (header_bytes demo_fields (2 ^ 32 - 112) 2 ++ [97; 0] ++ [98; 0]).
Lemma search_loops fuel out : get_file_loop fuel 4096 (4096 + 112) out looping_memory = Stop NoFuel.
Proof.
  revert out. induction fuel as [|fuel IH]; intros out; [done|]. cbn [get_file_loop].
  assert (cpio_parse_header 4096 out looping_memory =
    Ret (0, mk_out (Some (4096 + 110)) (Some (2 ^ 32 - 112)) (Some (4096 + 112)) (Some 4096)) looping_memory) as E by (destruct out; vm_compute; done).
  rewrite (bind_ret _ _ _ _ _ E). cbn [fst snd]. rewrite Z.eqb_refl. cbn [negb].
  assert (cpio_strncmp (Ptr (4096 + 110)) (Ptr (4096 + 112)) (2 ^ 32 - 1) looping_memory = Ret (-1) looping_memory) as E2 by (vm_compute; done).
  unfold of_option at 1. unfold bind at 1. unfold ret at 1. cbn [filename]. rewrite (bind_ret _ _ _ _ _ E2).
  change (-1 =? 0) with false. cbv iota. apply IH.
Qed.
