(* ===== verification/VSpaceEntries.v ===== *)
(** * Address spaces: the entries of an address space

    The words of page tables and page directories as the addresses they map, and an address space in memory: the
    user part of a directory and its tables, what an address is translated to, and how writing entries
    changes that. *)
From stdpp Require Import base list gmap.
From Stdlib Require Import ZArith Lia.
From S2P Require Import Prelude.
From S2P Require Import Words.
From S2P Require Import Structures.
From S2P Require Import KernelState.
From S2P Require Import VSpace.
From S2P Require Import VSpaceInv.

(** ** Entries

    An entry of a table is the address of a frame plus low bits. *)
Section entries.
Lemma high_bits w k : is_word w -> 0 <= k <= 32 -> field_high (32 - k) w = 2 ^ k * (w / 2 ^ k).
Proof.
  intros Hw Hk. unfold field_high. replace (32 - (32 - k)) with k by lia.
  rewrite Z.mul_comm, <- Z.shiftl_mul_pow2, <- Z.shiftr_div_pow2 by lia. apply Z.bits_inj'. intros i Hi.
  rewrite Z.land_spec, !Z.shiftl_spec by lia. destruct (Z_lt_le_dec i k).
  - rewrite !(Z.testbit_neg_r _ (i - k)) by lia. apply andb_false_r.
  - rewrite Z.shiftr_spec by lia. replace (i - k + k) with i by lia. rewrite Z.testbit_ones by lia.
    destruct (Z_lt_le_dec i 32) as [|Hge].
    + replace ((0 <=? i - k) && (i - k <? 32 - k)) with true by (symmetry; apply andb_true_iff; lia). apply andb_true_r.
    + rewrite (proj2 (proj1 (is_word_bits w) Hw) i) by lia. done.
Qed.
Lemma frame_or p low k : is_word p -> 0 <= k <= 32 -> p mod 2 ^ k = 0 -> 0 <= low < 2 ^ k -> p |w low = p + low.
Proof.
  intros Hp Hk Hm Hl. pose proof (Z.pow_pos_nonneg 2 k). pose proof (Z.div_mod p (2 ^ k)) as E.
  assert (p = Z.shiftl (p / 2 ^ k) k) as Ep by (rewrite Z.shiftl_mul_pow2 by lia; lia).
  rewrite Ep at 1. rewrite lor_disjoint by lia. lia.
Qed.
Lemma frame_high p low k : is_word p -> 0 <= k <= 32 -> p mod 2 ^ k = 0 -> 0 <= low < 2 ^ k -> field_high (32 - k) (p + low) = p.
Proof.
  intros Hp Hk Hm Hl. pose proof (Z.pow_pos_nonneg 2 k ltac:(lia) ltac:(lia)). pose proof (Z.div_mod p (2 ^ k)) as E.
  assert (2 ^ 32 = 2 ^ (32 - k) * 2 ^ k) as E32 by (rewrite <- Z.pow_add_r by lia; f_equal; lia).
  assert ((p + low) / 2 ^ k = p / 2 ^ k) as Ed.
  { replace (p + low) with (low + p / 2 ^ k * 2 ^ k) by lia. rewrite Z.div_add, Z.div_small by lia. lia. }
  assert (p / 2 ^ k < 2 ^ (32 - k)) by (apply Z.div_lt_upper_bound; [lia|]; unfold is_word in Hp; lia).
  rewrite high_bits; [rewrite Ed; lia| |done]. unfold is_word in *. nia.
Qed.
Lemma frame_high0 p k : is_word p -> 0 <= k <= 32 -> p mod 2 ^ k = 0 -> field_high (32 - k) p = p.
Proof.
  intros Hp Hk Hm. pose proof (Z.pow_pos_nonneg 2 k ltac:(lia) ltac:(lia)). rewrite <- (Z.add_0_r p) at 1. apply frame_high; done || lia.
Qed.
Lemma frame_bits p low k i : p mod 2 ^ k = 0 -> 0 <= low < 2 ^ k -> 0 <= i < k -> Z.testbit (p + low) i = Z.testbit low i.
Proof.
  intros Hm Hl Hi. pose proof (Z.pow_pos_nonneg 2 k ltac:(lia) ltac:(lia)).
  rewrite <- (Z.mod_pow2_bits_low (p + low) k i), <- (Z.mod_pow2_bits_low low k i) by lia. f_equal.
  rewrite Z.add_mod, Hm, Z.add_0_l, Z.mod_mod by lia. done.
Qed.
Lemma frame_get p low k s w : p mod 2 ^ k = 0 -> 0 <= low < 2 ^ k -> 0 <= s -> 0 <= w -> s + w <= k ->
  bf_get (p + low) s w = bf_get low s w.
Proof.
  intros Hm Hl Hs Hw Hk. unfold bf_get. apply Z.bits_inj'. intros i Hi. rewrite !Z.land_spec, !Z.shiftr_spec, Z.testbit_ones by lia.
  destruct (Z.ltb_spec i w); [|by rewrite !andb_false_r]. by rewrite (frame_bits p low k) by lia.
Qed.

(** What an entry maps *)
Definition pte_maps (w : Z) : option (Z * Z) :=
  match pte_get_pteType w with
  | pte_pte_large => Some (pte_pte_large_get_address w, ARMLargePage)
  | pte_pte_small => Some (pte_pte_small_get_address w, ARMSmallPage)
  | pte_pte_invalid => None
  end.
Definition pde_maps (w : Z) : option (Z * Z) :=
  Some (pde_pde_section_get_address w, if pde_pde_section_get_size w =? 0 then ARMSection else ARMSuperSection).
Definition is_rights (r : Z) : Prop := r = VMNoAccess \/ r = VMKernelOnly \/ r = VMReadOnly \/ r = VMReadWrite.

Lemma small_entry p nG S APX TEX ap C B xn : is_word p -> p mod 2 ^ 12 = 0 ->
  0 <= pte_pte_small_new 0 nG S APX TEX ap C B xn < 2 ^ 12 -> Z.testbit (pte_pte_small_new 0 nG S APX TEX ap C B xn) 1 = true ->
  pte_maps (pte_pte_small_new p nG S APX TEX ap C B xn) = Some (p, ARMSmallPage).
Proof.
  intros Hp Hm Hl Ht. assert (pte_pte_small_new p nG S APX TEX ap C B xn = p + pte_pte_small_new 0 nG S APX TEX ap C B xn) as ->.
  { rewrite <- (frame_or p _ 12) by (try done; lia). unfold pte_pte_small_new. change (field_high 20 0) with 0. rewrite Z.lor_0_l, !Z.lor_assoc.
    assert (field_high 20 p = p) as -> by (by apply (frame_high0 p 12)). done. }
  unfold pte_maps, pte_get_pteType, bf_flag. rewrite (frame_bits p _ 12), Ht by (done || lia).
  do 2 f_equal. by apply (frame_high p _ 12).
Qed.
Lemma large_entry p xn TEX nG S APX ap C B r : is_word p -> p mod 2 ^ 16 = 0 ->
  0 <= pte_pte_large_new 0 xn TEX nG S APX ap C B r < 2 ^ 16 -> Z.testbit (pte_pte_large_new 0 xn TEX nG S APX ap C B r) 1 = false ->
  Z.testbit (pte_pte_large_new 0 xn TEX nG S APX ap C B r) 0 = true ->
  pte_maps (pte_pte_large_new p xn TEX nG S APX ap C B r) = Some (p, ARMLargePage).
Proof.
  intros Hp Hm Hl H1 H0. assert (pte_pte_large_new p xn TEX nG S APX ap C B r = p + pte_pte_large_new 0 xn TEX nG S APX ap C B r) as ->.
  { rewrite <- (frame_or p _ 16) by (try done; lia). unfold pte_pte_large_new. change (field_high 16 0) with 0. rewrite Z.lor_0_l, !Z.lor_assoc.
    assert (field_high 16 p = p) as -> by (by apply (frame_high0 p 16)). done. }
  unfold pte_maps, pte_get_pteType, bf_flag. rewrite !(frame_bits p _ 16), H1, H0 by (done || lia).
  do 2 f_equal. by apply (frame_high p _ 16).
Qed.
Lemma section_entry p size nG S APX TEX ap P D xn C B : is_word p -> p mod 2 ^ 20 = 0 ->
  let low := pde_pde_section_new 0 size nG S APX TEX ap P D xn C B in
  0 <= low < 2 ^ 20 -> bf_get low 0 2 = 2 -> 
  pde_get_pdeType (pde_pde_section_new p size nG S APX TEX ap P D xn C B) = pde_pde_section /\
  pde_maps (pde_pde_section_new p size nG S APX TEX ap P D xn C B) = Some (p, if bf_get low 18 1 =? 0 then ARMSection else ARMSuperSection).
Proof.
  intros Hp Hm low Hl H2. assert (pde_pde_section_new p size nG S APX TEX ap P D xn C B = p + low) as ->.
  { rewrite <- (frame_or p _ 20) by (try done; lia). unfold low, pde_pde_section_new. change (field_high 12 0) with 0. rewrite Z.lor_0_l, !Z.lor_assoc.
    assert (field_high 12 p = p) as -> by (by apply (frame_high0 p 20)). done. }
  unfold pde_maps, pde_get_pdeType, pde_pde_section_get_size. rewrite !(frame_get p _ 20) by (done || lia). rewrite H2.
  split; [done|]. do 2 f_equal. by apply (frame_high p _ 20).
Qed.

(** The entries the kernel makes *)
Lemma wp_makeUserPTE s sz p c xn r Q : sz = ARMSmallPage \/ sz = ARMLargePage -> is_word p -> p mod 2 ^ pageBitsForSize sz = 0 -> is_rights r ->
  (forall e, pte_maps e = Some (p, sz) -> Q e s) -> wp (makeUserPTE sz p c xn r) Q s.
Proof.
  intros Hsz Hp Hm Hr HQ. unfold makeUserPTE, APFromVMRights. destruct Hsz as [-> | ->]; cbn in Hm.
  - destruct Hr as [-> |[-> |[-> | ->]]]; destruct c, xn; cbn [Z.eqb]; apply HQ, small_entry; try done.
  - destruct Hr as [-> |[-> |[-> | ->]]]; destruct c, xn; cbn [Z.eqb]; apply HQ, large_entry; try done.
Qed.
Lemma wp_makeUserPDE s sz p P c xn r Q : sz = ARMSection \/ sz = ARMSuperSection -> is_word p -> p mod 2 ^ pageBitsForSize sz = 0 -> is_rights r ->
  (forall e, pde_get_pdeType e = pde_pde_section -> pde_maps e = Some (p, sz) -> Q e s) -> wp (makeUserPDE sz p P c xn 0 r) Q s.
Proof.
  intros Hsz Hp Hm Hr HQ. 
  assert (p mod 2 ^ 20 = 0) as Hm20.
  { destruct Hsz as [-> | ->]; [exact Hm|]. change (pageBitsForSize ARMSuperSection) with 24 in Hm. apply Z.mod_divide in Hm as [q ->]; [|done].
    replace (q * 2 ^ 24) with (q * 16 * 2 ^ 20) by lia. by apply Z.mod_mul. }
  assert (forall size, size = 0 \/ size = 1 -> forall nG S APX TEX ap D C B, 
    let low := pde_pde_section_new 0 size nG S APX TEX ap P D xn C B in 0 <= low < 2 ^ 20 -> bf_get low 0 2 = 2 -> bf_get low 18 1 = size ->
    sz = (if size =? 0 then ARMSection else ARMSuperSection) -> 
    Q (pde_pde_section_new p size nG S APX TEX ap P D xn C B) s) as HS.
  { intros size Hz nG S APX TEX ap D C B low Hl H2 H18 Esz.
    destruct (section_entry p size nG S APX TEX ap P D xn C B Hp Hm20 Hl H2) as [H3 H4]. apply HQ; [done|].
    fold low in H4. rewrite H4, H18, Esz. done. }
  unfold makeUserPDE, APFromVMRights. clear HQ Hm Hm20.
  destruct Hsz as [-> | ->]; destruct Hr as [-> |[-> |[-> | ->]]]; destruct c; destruct xn, P;
    cbn [Z.eqb]; apply HS; by auto || done.
Qed.
End entries.


(** ** An address space in memory

    The user part of a page directory and the page tables it refers to: they do not overlap each other or the
    words that the ASID allocator uses. *)
Definition user_index (i : Z) : Prop := 0 <= i < 0xf00.
Definition table_of (w : Z) : Z := ptrFromPAddr (pde_pde_coarse_get_address w).
Definition refers (s : kstate) (pd i w : Z) : Prop :=
  user_index i /\ ksMem s (pd + 4 * i) = Some w /\ pde_get_pdeType w = pde_pde_coarse.
Definition in_space (s : kstate) (pd x : Z) : Prop :=
  (exists i, user_index i /\ x = pd + 4 * i) \/ (exists i w j, refers s pd i w /\ 0 <= j < 256 /\ x = table_of w + 4 * j).
Record space_ok (s : kstate) (pd : Z) : Prop := {
  so_pd : 0 <= pd /\ pd mod 2 ^ 14 = 0 /\ pd + 2 ^ 14 <= 2 ^ 32;
  so_words : forall i, user_index i -> is_Some (ksMem s (pd + 4 * i));
  so_tables : forall i w, refers s pd i w -> table_of w + 1024 <= 2 ^ 32 /\
    (table_of w + 1024 <= pd \/ pd + 2 ^ 14 <= table_of w) /\ forall j, 0 <= j < 256 -> is_Some (ksMem s (table_of w + 4 * j));
  so_once : forall i j w w', refers s pd i w -> refers s pd j w' -> table_of w = table_of w' -> i = j;
  so_slots : forall a pd', 0 < a < numASIDs -> asid_pd_of s a = Some pd' -> ~ in_space s pd (pd_asid_slot pd');
  so_pools : forall a, 0 <= a < numASIDs -> asid_pool s (a >>w asidLowBits) <> NULL -> ~ in_space s pd (asid_entry s a) }.

(** The frame an address is translated to, and its size *)
Definition pde_leaf (w : Z) : option (Z * Z) := if pde_get_pdeType w == pde_pde_section then pde_maps w else None.
Definition translation (s : kstate) (pd va : Z) : option (Z * Z) :=
  w ← ksMem s (pd + 4 * (va / 2 ^ 20));
  if pde_get_pdeType w == pde_pde_coarse then ksMem s (table_of w + 4 * ((va / 2 ^ 12) mod 256)) ≫= pte_maps else pde_leaf w.

(** [n] words from [base] on are set to [e]. *)
Record filled (m m' : Z -> option Z) (base n e : Z) : Prop := {
  fi_set : forall k, 0 <= k < n -> m' (base + 4 * k) = Some e;
  fi_rest : forall x, (forall k, 0 <= k < n -> x <> base + 4 * k) -> m' x = m x }.

Section spaces.
Implicit Types (s : kstate).
Lemma table_aligned w : table_of w mod 1024 = 0 /\ 0 <= table_of w < 2 ^ 32.
Proof.
  unfold table_of, ptrFromPAddr, pde_pde_coarse_get_address. split; [|apply Z.mod_pos_bound; lia].
  assert (field_high 22 w mod 1024 = 0) as E.
  { change 1024 with (2 ^ 10). apply Z.bits_inj'. intros i Hi. rewrite Z.bits_0.
    destruct (Z_lt_le_dec i 10); [|by apply Z.mod_pow2_bits_high]. rewrite Z.mod_pow2_bits_low by lia.
    unfold field_high. rewrite Z.land_spec, Z.shiftl_spec, (Z.testbit_neg_r _ (i - (32 - 22))) by lia. apply andb_false_r. }
  unfold wadd, wrap. change (2 ^ 32) with (1024 * 4194304). rewrite Z.rem_mul_r by lia.
  rewrite (Z.mul_comm 1024), Z.mod_add, Z.mod_mod by lia. rewrite Z.add_mod, E by lia. done.
Qed.
Lemma tables_apart w w' : table_of w <> table_of w' -> table_of w + 1024 <= table_of w' \/ table_of w' + 1024 <= table_of w.
Proof.
  intros Hne. destruct (table_aligned w) as [Ha _], (table_aligned w') as [Hb _].
  pose proof (Z.div_mod (table_of w) 1024). pose proof (Z.div_mod (table_of w') 1024). lia.
Qed.
Lemma word_at_eq p i : 0 <= p -> 0 <= i -> p + 4 * i < 2 ^ 32 -> word_at p i = p + 4 * i.
Proof.
  intros Hp Hi H. unfold word_at, wshl, wadd, wrap. rewrite Z.shiftl_mul_pow2 by lia. change (2 ^ 2) with 4.
  rewrite (Z.mod_small (i * 4)) by lia. rewrite Z.mod_small by lia. lia.
Qed.
Lemma user_va va : 0 <= va < kernelBase -> user_index (va / 2 ^ 20).
Proof. unfold kernelBase, user_index. intros H. split; [apply Z.div_pos; lia|apply Z.div_lt_upper_bound; lia]. Qed.
Lemma lookupPDSlot_eq s pd va : space_ok s pd -> 0 <= va < kernelBase -> lookupPDSlot pd va = pd + 4 * (va / 2 ^ 20).
Proof.
  intros H Hva. pose proof (user_va va Hva) as Hu. destruct (so_pd _ _ H) as (? & ? & ?). unfold user_index in Hu.
  unfold lookupPDSlot, wshr. rewrite Z.shiftr_div_pow2 by lia. apply word_at_eq; lia.
Qed.
Lemma pt_index va : 0 <= va -> (va >>w 12) &w 0xff = (va / 2 ^ 12) mod 256 /\ (va >>w 12) &w MASK 8 = (va / 2 ^ 12) mod 256.
Proof.
  intros H. unfold wshr. rewrite Z.shiftr_div_pow2 by lia. rewrite land_MASK by lia. change 0xff with (Z.ones 8).
  by rewrite Z.land_ones by lia.
Qed.
Lemma table_slot s pd i w j : space_ok s pd -> refers s pd i w -> 0 <= j < 256 -> word_at (table_of w) j = table_of w + 4 * j.
Proof. intros H Hr Hj. destruct (so_tables _ _ H i w Hr) as (? & _). pose proof (table_aligned w). apply word_at_eq; lia. Qed.

Lemma resolve_translation s pd va : space_ok s pd -> 0 <= va < kernelBase -> resolveVAddr pd va s = Ret (translation s pd va) s.
Proof.
  intros H Hva. pose proof (user_va va Hva) as Hu. unfold resolveVAddr, translation. rewrite (lookupPDSlot_eq s) by done.
  destruct (so_words _ _ H _ Hu) as [w Ew]. unfold read_word, bind, get. rewrite Ew. unfold of_option, ret. cbn [mbind option_bind].
  unfold pde_leaf, pde_maps. destruct (pde_get_pdeType w) eqn:Et; [done| |done|done].
  rewrite bool_decide_eq_true_2 by done. fold (table_of w). unfold lookupPTSlot_nofail. rewrite (proj2 (pt_index va ltac:(lia))).
  assert (0 <= (va / 2 ^ 12) mod 256 < 256) as Hj by (apply Z.mod_pos_bound; lia).
  assert (refers s pd (va / 2 ^ 20) w) as Hr by done. rewrite (table_slot s pd (va / 2 ^ 20)) by done.
  destruct (so_tables _ _ H _ _ Hr) as (_ & _ & Hw). destruct (Hw _ Hj) as [e Ee]. rewrite Ee. cbn. unfold pte_maps.
  by destruct (pte_get_pteType e).
Qed.

(** ** Changing entries *)
Section filling.
Context (s s' : kstate) (pd : Z) (H : space_ok s pd).
Lemma fill_table i w j n e va : refers s pd i w -> 0 <= j -> j + n <= 256 -> filled (ksMem s) (ksMem s') (table_of w + 4 * j) n e ->
  0 <= va < kernelBase -> translation s' pd va =
    if decide (va / 2 ^ 20 = i /\ j <= (va / 2 ^ 12) mod 256 < j + n) then pte_maps e else translation s pd va.
Proof.
  intros Hr Hj Hn [Hs Hf] Hva. pose proof (user_va va Hva) as Hu. unfold user_index in Hu. destruct (so_pd _ _ H) as (Hp0 & Hpa & Hp1).
  destruct (so_tables _ _ H i w Hr) as (Ht & Ht2 & _). unfold translation.
  rewrite (Hf (pd + 4 * (va / 2 ^ 20))) by (intros k Hk; lia).
  assert (0 <= (va / 2 ^ 12) mod 256 < 256) as Hj2 by (apply Z.mod_pos_bound; lia). set (j' := (va / 2 ^ 12) mod 256) in *.
  destruct (so_words _ _ H _ Hu) as [v Ev]. rewrite Ev. cbn [mbind option_bind].
  destruct (bool_decide_reflect (pde_get_pdeType v = pde_pde_coarse)) as [Et|Et].
  - assert (refers s pd (va / 2 ^ 20) v) as Hrv by done. destruct (decide (va / 2 ^ 20 = i)) as [E|Hne].
    + assert (v = w) as -> by (destruct Hr as (_ & Er & _); congruence). destruct (decide (_ /\ _)) as [[_ Hjj]|Hn2].
      * replace (table_of w + 4 * j') with (table_of w + 4 * j + 4 * (j' - j)) by lia. by rewrite Hs by lia.
      * rewrite Hf; [done|]. intros k Hk Ek. apply Hn2. split; [done|]. lia.
    + rewrite decide_False by (intros [? _]; done). rewrite Hf; [done|]. intros k Hk Ek.
      destruct (tables_apart v w); [|lia|lia]. intros Eq. by apply Hne, (so_once _ _ H _ _ _ _ Hrv Hr).
  - rewrite decide_False; [done|]. intros [E _]. apply Et. destruct Hr as (_ & Er & Ec). congruence.
Qed.
Lemma fill_directory i n e va : 0 <= i -> i + n <= 0xf00 -> pde_get_pdeType e <> pde_pde_coarse ->
  filled (ksMem s) (ksMem s') (pd + 4 * i) n e -> 0 <= va < kernelBase -> translation s' pd va =
    if decide (i <= va / 2 ^ 20 < i + n) then pde_leaf e else translation s pd va.
Proof.
  intros Hi Hn He [Hs Hf] Hva. pose proof (user_va va Hva) as Hu. unfold translation. destruct (so_pd _ _ H) as (Hp0 & Hpa & Hp1).
  destruct (decide _) as [Hd|Hd].
  - replace (pd + 4 * (va / 2 ^ 20)) with (pd + 4 * i + 4 * (va / 2 ^ 20 - i)) by lia. rewrite Hs by lia. cbn [mbind option_bind].
    by rewrite bool_decide_eq_false_2.
  - rewrite Hf by (intros k Hk E; apply Hd; lia). destruct (so_words _ _ H _ Hu) as [v Ev]. rewrite Ev. cbn [mbind option_bind].
    destruct (bool_decide_reflect (pde_get_pdeType v = pde_pde_coarse)) as [Et|Et]; [|done].
    assert (refers s pd (va / 2 ^ 20) v) as Hrv by done. destruct (so_tables _ _ H _ _ Hrv) as (? & ? & _).
    assert (0 <= (va / 2 ^ 12) mod 256 < 256) by (apply Z.mod_pos_bound; lia). rewrite Hf; [done|]. intros k Hk. lia.
Qed.
End filling.

(** Writing in the space: the ASID allocator is not affected. *)
Lemma space_asid_pd s s' pd : space_ok s pd -> armKSASIDTable s' = armKSASIDTable s ->
  (forall x, ~ in_space s pd x -> ksMem s' x = ksMem s x) -> forall a, 0 <= a < numASIDs -> asid_pd_of s' a = asid_pd_of s a.
Proof.
  intros H Et Hm a Ha. unfold asid_pd_of, asid_entry, asid_pool. rewrite Et. fold (asid_pool s (a >>w asidLowBits)).
  destruct (Z.eqb_spec (asid_pool s (a >>w asidLowBits)) NULL) as [|Hne]; [done|]. fold (asid_entry s a).
  by rewrite Hm by (by apply (so_pools _ _ H)).
Qed.
Lemma space_hwasid s s' pd : space_ok s pd -> armKSASIDTable s' = armKSASIDTable s -> armKSHWASIDTable s' = armKSHWASIDTable s ->
  armKSNextASID s' = armKSNextASID s -> (forall x, ~ in_space s pd x -> ksMem s' x = ksMem s x) -> hwasid_wf s -> hwasid_wf s'.
Proof.
  intros H Et Eh En Hm W. pose proof (space_asid_pd s s' pd H Et Hm) as Hp.
  assert (forall a, asid_pool s' a = asid_pool s a) as Epool by (intros a; unfold asid_pool; by rewrite Et).
  assert (forall a, asid_entry s' a = asid_entry s a) as Eent by (intros a; unfold asid_entry; by rewrite Epool).
  assert (forall h, hwasid_entry s' h = hwasid_entry s h) as Ehw by (intros h; unfold hwasid_entry; by rewrite Eh).
  assert (forall a p, 0 < a < numASIDs -> asid_pd_of s a = Some p -> ksMem s' (pd_asid_slot p) = ksMem s (pd_asid_slot p)) as Hsl.
  { intros a p Ha Ep. by eapply Hm, (so_slots _ _ H). }
  split.
  - rewrite En. apply W.
  - intros a Ha. rewrite Epool, Eent. intros Hne. destruct (hw_pool _ W a Ha Hne) as [E1 E2]. rewrite Hm by (by apply (so_pools _ _ H)).
    split; [done|]. intros a' p Ha'. rewrite Hp by lia. by apply E2.
  - intros h Hh. rewrite Ehw. intros Hne. destruct (hw_entry _ W h Hh Hne) as (Hr & p & w & Ep & Ew & Hv). split; [done|].
    exists p, w. rewrite Hp by lia. split; [done|]. by rewrite (Hsl _ _ Hr Ep).
  - intros a p Ha. rewrite Hp by lia. intros Ep. destruct (hw_stored _ W a p Ha Ep) as (w & Ew & Hw). exists w.
    rewrite (Hsl _ _ Ha Ep). split; [done|]. by rewrite Ehw.
  - intros a a' p p' Ha Ha'. rewrite !Hp by lia. by apply (hw_inj _ W).
Qed.
(** The space stays one, when no new tables are referred to. *)
Lemma space_keeps s s' pd : space_ok s pd -> armKSASIDTable s' = armKSASIDTable s ->
  (forall x, ~ in_space s pd x -> ksMem s' x = ksMem s x) -> (forall x, is_Some (ksMem s x) -> is_Some (ksMem s' x)) ->
  (forall i w, refers s' pd i w -> refers s pd i w) -> space_ok s' pd.
Proof.
  intros H Et Hm Hd Hr. pose proof (space_asid_pd s s' pd H Et Hm) as Hp.
  assert (forall x, in_space s' pd x -> in_space s pd x) as Hin.
  { intros x [?|(i & w & j & Hrw & ?)]; [by left|right]. exists i, w, j. split; [by apply Hr|done]. }
  split.
  - apply H.
  - intros i Hi. by apply Hd, (so_words _ _ H).
  - intros i w Hw. destruct (so_tables _ _ H i w (Hr _ _ Hw)) as (? & ? & Hj). split; [done|]. split; [done|]. intros j Hjj. by apply Hd, Hj.
  - intros i j w w' Hi Hj. apply (so_once _ _ H); by apply Hr.
  - intros a p Ha. rewrite Hp by lia. intros Ep Hi. by apply (so_slots _ _ H a p Ha Ep), Hin.
  - intros a Ha. unfold asid_entry, asid_pool. rewrite Et. intros Hne Hi. by apply (so_pools _ _ H a Ha Hne), Hin.
Qed.
End spaces.
