(* ===== verification/VSpaceMap.v ===== *)
(** * Address spaces: mapping and unmapping a page

    The state after the entries of a page were written: for the functions that choose the entries
    ([createSafeMappingEntries_PTE], [createSafeMappingEntries_PDE]), the ones that write them
    ([performPageInvocationMapPTE], [performPageInvocationMapPDE]) and the ones that remove them
    ([unmapSmallPage], [unmapLargePage], [unmapSection], [unmapSuperSection]). *)
From stdpp Require Import base list gmap.
From Stdlib Require Import ZArith Lia.
From S2P Require Import Prelude.
From S2P Require Import Words.
From S2P Require Import Structures.
From S2P Require Import KernelState.
From S2P Require Import VSpace.
From S2P Require Import VSpaceInv.
From S2P Require Import Scheduler.
From S2P Require Import VSpaceEntries.

(** ** Writing entries *)
Section writing.
Implicit Types (s : kstate).
Lemma filled_step m m' base n e : 0 <= n -> filled m m' base n e -> filled m (mem_set m' (base + 4 * n) e) base (n + 1) e.
Proof.
  intros Hn [Hs Hf]. split.
  - intros k Hk. destruct (Z.eq_dec k n) as [->|]; [apply mem_set_eq|]. rewrite mem_set_ne by lia. apply Hs. lia.
  - intros x Hx. rewrite mem_set_ne by (apply Hx; lia). apply Hf. intros k Hk. apply Hx. lia.
Qed.
Lemma wp_fill s base n e (Q : unit -> kstate -> Prop) : 0 <= base -> 0 <= n -> base + 4 * n <= 2 ^ 32 ->
  (forall k, 0 <= k < n -> is_Some (ksMem s (base + 4 * k))) ->
  (forall m', filled (ksMem s) m' base n e -> (forall x, is_Some (ksMem s x) -> is_Some (m' x)) -> Q tt (upd_ksMem m' s)) ->
  wp (for_upto (Z.to_nat n) 0 (fun i => write_word (word_at base i) e)) Q s.
Proof.
  intros Hb Hn Hl Hw HQ. apply (wp_for_upto (fun j s' => exists m', s' = upd_ksMem m' s /\ filled (ksMem s) m' base j e /\
    forall x, is_Some (ksMem s x) -> is_Some (m' x))).
  - exists (ksMem s). split; [by destruct s|]. split; [|done]. split; [lia|done].
  - intros j s' Hj (m' & -> & Hf & Hd). rewrite word_at_eq by lia. destruct (Hd (base + 4 * j)) as [v Ev]; [apply Hw; lia|].
    eapply wp_write_word; [exact Ev|]. ksimp. exists (mem_set m' (base + 4 * j) e). split; [by destruct s|].
    split; [by apply filled_step; [lia|]|]. intros x Hx. destruct (decide (x = base + 4 * j)) as [->|]; [rewrite mem_set_eq; by eexists|].
    rewrite mem_set_ne by done. by apply Hd.
  - intros s' (m' & -> & Hf & Hd). apply HQ; [|done]. by replace (0 + Z.of_nat (Z.to_nat n)) with n in Hf by lia.
Qed.

(** Only memory and the hardware may be different, and the hardware has seen more. *)
Definition mem_frame s s' : Prop :=
  s' = upd_ksHw (ksHw s') (upd_ksMem (ksMem s') s) /\ hw_log (ksHw s) `prefix_of` hw_log (ksHw s').
Lemma mem_frame_mem s m : mem_frame s (upd_ksMem m s).
Proof. split; [by destruct s|done]. Qed.
Lemma mem_frame_emit s s' op : mem_frame s s' -> mem_frame s (upd_ksHw (upd_hw_log (hw_log (ksHw s') ++ [op]) (ksHw s')) s').
Proof. intros [E P]. split; [by rewrite E|]. ksimp. cbn. by apply prefix_app_r. Qed.

Lemma wp_loadHWASID s asid pd (Q : Z -> kstate -> Prop) : hwasid_wf s -> 0 < asid < numASIDs -> asid_pd_of s asid = Some pd ->
  (forall w, ksMem s (pd_asid_slot pd) = Some w -> Q w s) -> wp (loadHWASID asid) Q s.
Proof.
  intros W Ha Hp HQ. destruct (hw_stored _ W _ _ Ha Hp) as (w & Hw & _). unfold loadHWASID. wstep.
  eapply wp_asid_pd; [lia|exact Hp|]. eapply wp_read_word; [exact Hw|]. by apply HQ.
Qed.
(** Entries of the space are written; the TLB entries of the address space are flushed if there was a mapping. *)
Lemma wp_write_entries s pd asid (mapped : Z -> K bool) e base n (Q : unit -> kstate -> Prop) :
  space_ok s pd -> hwasid_wf s -> 0 < asid < numASIDs -> asid_pd_of s asid = Some pd ->
  (forall P s', is_Some (ksMem s' base) -> (forall b, P b s') -> wp (mapped base) P s') ->
  0 <= base -> 0 < n -> base + 4 * n <= 2 ^ 32 -> (forall k, 0 <= k < n -> in_space s pd (base + 4 * k)) ->
  (forall k, 0 <= k < n -> is_Some (ksMem s (base + 4 * k))) ->
  (forall s', filled (ksMem s) (ksMem s') base n e -> (forall x, is_Some (ksMem s x) -> is_Some (ksMem s' x)) ->
    (forall x, ~ in_space s pd x -> ksMem s' x = ksMem s x) -> mem_frame s s' -> Q tt s') ->
  wp (write_entries mapped asid e base n) Q s.
Proof.
  intros H W Ha Hp Hmap Hb Hn Hl Hin Hw HQ. unfold write_entries. wstep. apply Hmap.
  { rewrite <- (Z.add_0_r base). replace 0 with (4 * 0) by lia. apply Hw. lia. }
  intros b. wstep. apply wp_fill; [done|lia|done|done|]. intros m' Hf Hd.
  assert (forall x, ~ in_space s pd x -> m' x = ksMem s x) as Hout.
  { intros x Hx. apply (fi_rest _ _ _ _ _ Hf). intros k Hk ->. by apply Hx, Hin. }
  assert (asid_pd_of (upd_ksMem m' s) asid = Some pd) as Hp' by (rewrite (space_asid_pd s _ pd H); [done|done|done|lia]).
  assert (hwasid_wf (upd_ksMem m' s)) as W' by (by apply (space_hwasid s _ pd)).
  unfold cleanCacheRange_PoU, hw_emit. wstep. wstep. ksimp.
  assert (mem_frame s (upd_ksMem m' s)) as F1 by apply mem_frame_mem.
  pose proof (mem_frame_emit _ _ (HwCleanCacheRange_PoU base (LAST_BYTE base n) (addrFromPPtr base)) F1) as F2. destruct b; cbn [when].
  - unfold invalidateTLBByASID. wstep.
    apply (wp_loadHWASID _ asid pd); [by apply (hwasid_wf_ext (upd_ksMem m' s))|done|done|].
    intros w _. destruct (negb _); [|unfold invalidateTLB_ASID, hw_emit]; wstep; apply HQ; try done. by apply mem_frame_emit.
  - wstep. by apply HQ.
Qed.
End writing.

(** ** Mapping *)
Definition is_table_size (sz : Z) : Prop := sz = ARMSmallPage \/ sz = ARMLargePage.
Definition is_directory_size (sz : Z) : Prop := sz = ARMSection \/ sz = ARMSuperSection.
Definition same_page (sz va va' : Z) : Prop := va' / 2 ^ pageBitsForSize sz = va / 2 ^ pageBitsForSize sz.
#[export] Instance same_page_dec sz va va' : Decision (same_page sz va va').
Proof. unfold same_page. apply _. Defined.
Definition page_aligned (sz va : Z) : Prop := va mod 2 ^ pageBitsForSize sz = 0.
(** What a failed operation changes *)
Definition error_frame (s s' : kstate) : Prop :=
  s' = upd_current_lookup_fault (current_lookup_fault s') (upd_current_syscall_error (current_syscall_error s') s).

Section mapping.
Context (s : kstate) (pd : Z) (H : space_ok s pd).
Definition entries_of (sz : Z) : Z := if (sz =? ARMSmallPage) || (sz =? ARMSection) then 1 else 16.
(** Where the entries for a page are: in a table, or in the directory *)
Lemma page_in_table sz va va' n j : is_table_size sz -> page_aligned sz va -> 0 <= va -> 0 <= va' -> n = entries_of sz ->
  j = (va / 2 ^ 12) mod 256 -> j + n <= 256 /\
  (same_page sz va va' <-> va' / 2 ^ 20 = va / 2 ^ 20 /\ j <= (va' / 2 ^ 12) mod 256 < j + n).
Proof.
  intros Hsz Ha Hv Hv' -> ->. unfold page_aligned, same_page in *.
  change (2 ^ 20) with (2 ^ 12 * 256). rewrite <- !Z.div_div by lia.
  assert (0 <= va / 2 ^ 12) by (apply Z.div_pos; lia). assert (0 <= va' / 2 ^ 12) by (apply Z.div_pos; lia).
  destruct Hsz as [-> | ->].
  - change (entries_of ARMSmallPage) with 1. change (pageBitsForSize ARMSmallPage) with 12.
    pose proof (Z.div_mod (va / 2 ^ 12) 256 ltac:(lia)). pose proof (Z.div_mod (va' / 2 ^ 12) 256 ltac:(lia)).
    pose proof (Z.mod_pos_bound (va / 2 ^ 12) 256 ltac:(lia)). split; [lia|]. split; [intros E; rewrite E; lia|lia].
  - change (entries_of ARMLargePage) with 16. change (pageBitsForSize ARMLargePage) with 16 in *.
    change (2 ^ 16) with (2 ^ 12 * 16) in *. rewrite <- !Z.div_div by lia.
    assert ((va / 2 ^ 12) mod 16 = 0) as E16.
    { rewrite Z.rem_mul_r in Ha by lia. pose proof (Z.mod_pos_bound va (2 ^ 12)). pose proof (Z.mod_pos_bound (va / 2 ^ 12) 16). lia. }
    set (q := va / 2 ^ 12) in *. set (q' := va' / 2 ^ 12) in *. clearbody q q'. clear -E16.
    split; [Z.to_euclidean_division_equations; lia|]. split; Z.to_euclidean_division_equations; lia.
Qed.
Lemma page_in_directory sz va va' n i : is_directory_size sz -> page_aligned sz va -> 0 <= va < kernelBase -> 0 <= va' -> n = entries_of sz ->
  i = va / 2 ^ 20 -> 0 <= i /\ i + n <= 0xf00 /\ (same_page sz va va' <-> i <= va' / 2 ^ 20 < i + n).
Proof.
  intros Hsz Ha Hv Hv' -> ->. unfold page_aligned, same_page, kernelBase in *.
  assert (0 <= va / 2 ^ 20 < 0xf00) by (split; [apply Z.div_pos; lia|apply Z.div_lt_upper_bound; lia]).
  assert (0 <= va' / 2 ^ 20) by (apply Z.div_pos; lia).
  destruct Hsz as [-> | ->].
  - change (entries_of ARMSection) with 1. change (pageBitsForSize ARMSection) with 20. split; [lia|]. split; [lia|]. lia.
  - change (entries_of ARMSuperSection) with 16. change (pageBitsForSize ARMSuperSection) with 24 in *.
    change (2 ^ 24) with (2 ^ 20 * 16) in *. rewrite <- !Z.div_div by lia.
    assert ((va / 2 ^ 20) mod 16 = 0) as E16.
    { rewrite Z.rem_mul_r in Ha by lia. pose proof (Z.mod_pos_bound va (2 ^ 20)). pose proof (Z.mod_pos_bound (va / 2 ^ 20) 16). lia. }
    set (q := va / 2 ^ 20) in *. set (q' := va' / 2 ^ 20) in *. clearbody q q'. clear -E16 H0 H1.
    split; [lia|]. split; [|split]; Z.to_euclidean_division_equations; lia.
Qed.
End mapping.


Lemma wp_for_until_reads {S} (f : Z -> M S bool) (P : Z -> bool -> Prop) n (s : S) (Q : bool -> S -> Prop) : forall i,
  (forall k (R : bool -> S -> Prop), i <= k < i + Z.of_nat n -> (forall b, P k b -> R b s) -> wp (f k) R s) ->
  (forall k, i <= k < i + Z.of_nat n -> P k true -> Q true s) -> ((forall k, i <= k < i + Z.of_nat n -> P k false) -> Q false s) ->
  wp (for_until n i f) Q s.
Proof.
  induction n as [|n IH]; intros i Hf Ht HF; [apply HF; lia|]. unfold wp. cbn [for_until].
  assert (wp (f i) (fun b s' => s' = s /\ P i b) s) as W by (apply Hf; [lia|done]).
  unfold wp in W. destruct (f i s) as [b s'|]; [|done]. destruct W as [-> HP]. destruct b; [by apply (Ht i); [lia|]|].
  apply IH; [intros k R Hk; apply Hf; lia|intros k Hk; apply Ht; lia|]. intros Hall. apply HF. intros k Hk.
  destruct (Z.eq_dec k i) as [->|]; [done|apply Hall; lia].
Qed.

(** Nothing is mapped in the page, and there is a table for its entries. *)
Definition page_free (s : kstate) (pd sz va : Z) : Prop :=
  if (sz =? ARMSmallPage) || (sz =? ARMLargePage)
  then exists w, refers s pd (va / 2 ^ 20) w /\ forall k e, 0 <= k < entries_of sz ->
    ksMem s (table_of w + 4 * ((va / 2 ^ 12) mod 256 + k)) = Some e -> pte_get_pteType e = pte_pte_invalid
  else forall k e, 0 <= k < entries_of sz -> ksMem s (pd + 4 * (va / 2 ^ 20 + k)) = Some e -> pde_get_pdeType e = pde_pde_invalid.

Section creating.
Context (s : kstate) (pd : Z) (H : space_ok s pd).
Lemma error_frame_refl : error_frame s s.
Proof. by destruct s. Qed.
Lemma refers_same i w w' : refers s pd i w -> refers s pd i w' -> w = w'.
Proof using. intros (_ & E & _) (_ & E' & _). congruence. Qed.
Lemma wp_lookupPTSlot va Q : 0 <= va < kernelBase ->
  (forall w, refers s pd (va / 2 ^ 20) w -> Q (EXCEPTION_NONE, table_of w + 4 * ((va / 2 ^ 12) mod 256)) s) ->
  ((forall w, ~ refers s pd (va / 2 ^ 20) w) -> forall f, Q (EXCEPTION_LOOKUP_FAULT, NULL) (upd_current_lookup_fault f s)) ->
  wp (lookupPTSlot pd va) Q s.
Proof.
  intros Hva HQ HF. pose proof (user_va va Hva) as Hu. destruct (so_words _ _ H _ Hu) as [w Ew]. unfold lookupPTSlot.
  rewrite (lookupPDSlot_eq s) by done. wstep. eapply wp_read_word; [exact Ew|].
  destruct (bool_decide_reflect (pde_get_pdeType w = pde_pde_coarse)) as [Et|Et]; cbn [negb].
  - assert (refers s pd (va / 2 ^ 20) w) as Hr by done. fold (table_of w). cbv zeta.
    rewrite (proj1 (pt_index va ltac:(lia))), (table_slot s pd (va / 2 ^ 20)) by (done || apply Z.mod_pos_bound; lia). wstep. by apply HQ.
  - unfold set_current_lookup_fault. wstep. wstep. wstep. apply HF. intros w' (_ & Ew' & Ec). congruence.
Qed.

(** The errors of the two functions that choose the entries *)
Lemma wp_delete_first Q : (forall s', error_frame s s' -> Q (cm_error EXCEPTION_SYSCALL_ERROR) s') ->
  wp (let* e := throw seL4_DeleteFirst in ret (cm_error e)) Q s.
Proof. intros HQ. unfold throw, syscall_error_with. wstep. wstep. wstep. wstep. wstep. apply HQ. by destruct s. Qed.

Lemma wp_createSafe_PTE base va sz rights attr Q : is_table_size sz -> page_aligned sz va -> 0 <= va < kernelBase ->
  is_word base -> page_aligned sz base -> is_rights rights ->
  (forall e w, pte_maps e = Some (base, sz) -> refers s pd (va / 2 ^ 20) w ->
    Q (mk_cm_ret EXCEPTION_NONE e (table_of w + 4 * ((va / 2 ^ 12) mod 256)) (entries_of sz)) s) ->
  (~ page_free s pd sz va -> forall s', error_frame s s' -> Q (cm_error EXCEPTION_SYSCALL_ERROR) s') ->
  wp (createSafeMappingEntries_PTE base va sz rights attr pd) Q s.
Proof.
  intros Hsz Hav Hva Hb Hab Hr HQ HE. unfold createSafeMappingEntries_PTE.
  assert (0 <= (va / 2 ^ 12) mod 256 < 256) as Hj by (apply Z.mod_pos_bound; lia).
  assert (forall f (Q : create_mappings_ret -> kstate -> Prop), (forall s', error_frame s s' -> Q (cm_error EXCEPTION_SYSCALL_ERROR) s') ->
    wp (let* e := throw_failed_lookup false in ret (cm_error e)) Q (upd_current_lookup_fault f s)) as HL.
  { intros f Q' HQ'. unfold throw_failed_lookup, syscall_error_with. wstep. wstep. wstep. wstep. wstep. apply HQ'. by destruct s. }
  destruct (page_in_table sz va va (entries_of sz) _ Hsz Hav ltac:(lia) ltac:(lia) eq_refl eq_refl) as [Hjn _].
  destruct Hsz as [-> | ->].
  - change (ARMSmallPage =? ARMSmallPage) with true. cbv iota. wstep. apply wp_makeUserPTE; [by left|done|done|done|]. intros e He. wstep. apply wp_lookupPTSlot; [done| |].
    + intros w Hw. cbn [fst snd]. rewrite bool_decide_eq_true_2 by done. cbn [negb].
      destruct (so_tables _ _ H _ _ Hw) as (_ & _ & Hwd). destruct (Hwd _ Hj) as [old Eo]. wstep. eapply wp_read_word; [exact Eo|].
      destruct (bool_decide_reflect (pte_get_pteType old = pte_pte_large)) as [El|El]; [|wstep; by apply (HQ e w)].
      apply wp_delete_first, HE. intros (w' & Hw' & Hfree). rewrite (refers_same _ _ _ Hw' Hw) in Hfree.
      rewrite (Hfree 0 old) in El; [done|done|by rewrite Z.add_0_r].
    + intros Hn f. cbn [fst]. apply HL, HE. intros (w' & Hw' & _). by apply (Hn w').
  - change (ARMLargePage =? ARMSmallPage) with false. change (ARMLargePage =? ARMLargePage) with true. cbv iota. wstep. apply wp_makeUserPTE; [by right|done|done|done|]. intros e He. wstep. apply wp_lookupPTSlot; [done| |].
    + intros w Hw. cbn [fst snd]. rewrite bool_decide_eq_true_2 by done. cbn [negb]. change (entries_of ARMLargePage) with 16 in *.
      destruct (so_tables _ _ H _ _ Hw) as (Ht & _ & Hwd). wstep.
      apply (wp_for_until_reads _ (fun k b => b = true -> exists old, ksMem s (table_of w + 4 * ((va / 2 ^ 12) mod 256 + k)) = Some old /\ pte_get_pteType old = pte_pte_small)).
      * intros k R Hk R1. change (Z.of_nat (Z.to_nat PAGES_PER_LARGE_PAGE)) with 16 in Hk. wstep.
        pose proof (table_aligned w). rewrite word_at_eq by lia. rewrite <- Z.add_assoc, <- Z.mul_add_distr_l.
        destruct (Hwd ((va / 2 ^ 12) mod 256 + k)) as [old Eo]; [lia|]. eapply wp_read_word; [exact Eo|].
        wstep. apply R1. intros Eb%bool_decide_eq_true. by exists old.
      * intros k Hk Hold. destruct (Hold eq_refl) as (old & Eo & Et). apply wp_delete_first, HE. intros (w' & Hw' & Hfree).
        rewrite (refers_same _ _ _ Hw' Hw) in Hfree. by rewrite (Hfree k old) in Et.
      * intros _. wstep. by apply (HQ e w).
    + intros Hn f. cbn [fst]. apply HL, HE. intros (w' & Hw' & _). by apply (Hn w').
Qed.
(** For the directory, the entries that are replaced are not tables. *)
Lemma wp_createSafe_PDE base va sz rights attr Q : is_directory_size sz -> page_aligned sz va -> 0 <= va < kernelBase ->
  is_word base -> page_aligned sz base -> is_rights rights ->
  (forall e, pde_get_pdeType e = pde_pde_section -> pde_maps e = Some (base, sz) ->
    (forall k w, 0 <= k < entries_of sz -> ~ refers s pd (va / 2 ^ 20 + k) w) ->
    Q (mk_cm_ret EXCEPTION_NONE e (pd + 4 * (va / 2 ^ 20)) (entries_of sz)) s) ->
  (~ page_free s pd sz va -> forall s', error_frame s s' -> Q (cm_error EXCEPTION_SYSCALL_ERROR) s') ->
  wp (createSafeMappingEntries_PDE base va sz rights attr pd) Q s.
Proof.
  intros Hsz Hav Hva Hb Hab Hr HQ HE. unfold createSafeMappingEntries_PDE. rewrite (lookupPDSlot_eq s) by done. cbv zeta.
  destruct (page_in_directory sz va va _ _ Hsz Hav ltac:(lia) ltac:(lia) eq_refl eq_refl) as (Hi & Hin & _).
  destruct (so_pd _ _ H) as (Hp0 & _ & Hp1).
  assert (forall size old, pde_get_pdeType old = pde_pde_coarse -> pde_clash size old = true) as Hcl.
  { intros size old E. unfold pde_clash. rewrite E. done. }
  destruct Hsz as [-> | ->].
  - change (ARMSection =? ARMSection) with true. cbv iota. wstep. apply wp_makeUserPDE; [by left|done|done|done|]. intros e He1 He2. change (entries_of ARMSection) with 1 in *.
    destruct (so_words _ _ H (va / 2 ^ 20)) as [old Eo]; [unfold user_index; lia|]. wstep. eapply wp_read_word; [exact Eo|].
    destruct (pde_clash 0 old) eqn:Ec; [apply wp_delete_first, HE; intros Hfree|].
    { unfold pde_clash in Ec. rewrite (Hfree 0 old) in Ec; [done|done|by rewrite Z.add_0_r]. } wstep. apply (HQ e); try done.
    intros k w Hk (_ & Ew & Et). replace (va / 2 ^ 20 + k) with (va / 2 ^ 20) in Ew by lia.
    assert (w = old) as -> by congruence. by rewrite (Hcl 0) in Ec.
  - change (ARMSuperSection =? ARMSection) with false. change (ARMSuperSection =? ARMSuperSection) with true. cbv iota. wstep. apply wp_makeUserPDE; [by right|done|done|done|]. intros e He1 He2. change (entries_of ARMSuperSection) with 16 in *.
    wstep.
    apply (wp_for_until_reads _ (fun k b => exists old, ksMem s (pd + 4 * (va / 2 ^ 20 + k)) = Some old /\ b = pde_clash 1 old)).
    + intros k R Hk R1. change (Z.of_nat (Z.to_nat SECTIONS_PER_SUPER_SECTION)) with 16 in Hk. wstep.
      rewrite word_at_eq by lia. rewrite <- Z.add_assoc, <- Z.mul_add_distr_l.
      destruct (so_words _ _ H (va / 2 ^ 20 + k)) as [old Eo]; [unfold user_index; lia|]. eapply wp_read_word; [exact Eo|].
      wstep. apply R1. by exists old.
    + intros k Hk (old & Eo & Ec). apply wp_delete_first, HE. intros Hfree. unfold pde_clash in Ec.
      by rewrite (Hfree k old) in Ec.
    + intros Hall. wstep. apply (HQ e); try done. intros k w Hk (_ & Ew & Et). destruct (Hall k) as (old & Eo & Ec).
      { change (Z.of_nat (Z.to_nat SECTIONS_PER_SUPER_SECTION)) with 16. lia. }
      assert (w = old) as -> by congruence. by rewrite (Hcl 1) in Ec.
Qed.
End creating.


(** ** The state after the entries of a page were written *)
Record page_set (s s' : kstate) (pd sz va : Z) (r : option (Z * Z)) : Prop := {
  ps_hwasid : hwasid_wf s';
  ps_space : space_ok s' pd;
  ps_pds : forall a, 0 <= a < numASIDs -> asid_pd_of s' a = asid_pd_of s a;
  ps_slots : forall a p, 0 < a < numASIDs -> asid_pd_of s a = Some p -> ksMem s' (pd_asid_slot p) = ksMem s (pd_asid_slot p);
  ps_translation : forall va', 0 <= va' < kernelBase ->
    translation s' pd va' = if decide (same_page sz va va') then r else translation s pd va' }.

Section setting.
Context (s s' : kstate) (pd sz va : Z) (H : space_ok s pd) (W : hwasid_wf s) (Hav : page_aligned sz va) (Hva : 0 <= va < kernelBase).
Hypothesis Hsame : armKSASIDTable s' = armKSASIDTable s /\ armKSHWASIDTable s' = armKSHWASIDTable s /\ armKSNextASID s' = armKSNextASID s.
Hypothesis Hdom : forall x, is_Some (ksMem s x) -> is_Some (ksMem s' x).
Lemma table_page_set w e : is_table_size sz -> refers s pd (va / 2 ^ 20) w ->
  filled (ksMem s) (ksMem s') (table_of w + 4 * ((va / 2 ^ 12) mod 256)) (entries_of sz) e -> page_set s s' pd sz va (pte_maps e).
Proof.
  intros Hsz Hr Hf. destruct Hsame as (Et & Eh & En).
  assert (0 <= (va / 2 ^ 12) mod 256 < 256) as Hj by (apply Z.mod_pos_bound; lia).
  destruct (page_in_table sz va va _ _ Hsz Hav ltac:(lia) ltac:(lia) eq_refl eq_refl) as [Hjn _].
  assert (forall x, ~ in_space s pd x -> ksMem s' x = ksMem s x) as Hm.
  { intros x Hx. apply (fi_rest _ _ _ _ _ Hf). intros k Hk ->. apply Hx. right.
    exists (va / 2 ^ 20), w, ((va / 2 ^ 12) mod 256 + k). split; [done|]. split; [lia|]. lia. }
  destruct (so_tables _ _ H _ _ Hr) as (_ & Hap & _). destruct (so_pd _ _ H) as (_ & _ & Hp1).
  split; [by eapply space_hwasid| |by eapply space_asid_pd|intros a p Ha' Ep; by eapply Hm, (so_slots _ _ H)|].
  - apply (space_keeps s s' pd H Et Hm Hdom). intros i v (Hu & Ev & Ec). split; [done|]. split; [|done].
    rewrite <- Ev. symmetry. apply (fi_rest _ _ _ _ _ Hf). intros k Hk. unfold user_index in Hu. lia.
  - intros va' Hva'. rewrite (fill_table s s' pd H (va / 2 ^ 20) w ((va / 2 ^ 12) mod 256) _ e va' Hr ltac:(lia) Hjn Hf Hva').
    destruct (page_in_table sz va va' _ _ Hsz Hav ltac:(lia) ltac:(lia) eq_refl eq_refl) as [_ Hp].
    destruct (decide _) as [D|D], (decide _) as [D'|D']; tauto.
Qed.
Lemma directory_page_set e : is_directory_size sz -> pde_get_pdeType e <> pde_pde_coarse ->
  filled (ksMem s) (ksMem s') (pd + 4 * (va / 2 ^ 20)) (entries_of sz) e -> page_set s s' pd sz va (pde_leaf e).
Proof.
  intros Hsz He Hf. destruct Hsame as (Et & Eh & En).
  destruct (page_in_directory sz va va _ _ Hsz Hav ltac:(lia) ltac:(lia) eq_refl eq_refl) as (Hi & Hin & _).
  assert (forall x, ~ in_space s pd x -> ksMem s' x = ksMem s x) as Hm.
  { intros x Hx. apply (fi_rest _ _ _ _ _ Hf). intros k Hk ->. apply Hx. left. exists (va / 2 ^ 20 + k). unfold user_index. lia. }
  split; [by eapply space_hwasid| |by eapply space_asid_pd|intros a p Ha' Ep; by eapply Hm, (so_slots _ _ H)|].
  - apply (space_keeps s s' pd H Et Hm Hdom). intros i v (Hu & Ev & Ec). split; [done|]. split; [|done].
    destruct (decide (va / 2 ^ 20 <= i < va / 2 ^ 20 + entries_of sz)) as [D|D].
    + replace (pd + 4 * i) with (pd + 4 * (va / 2 ^ 20) + 4 * (i - va / 2 ^ 20)) in Ev by lia.
      rewrite (fi_set _ _ _ _ _ Hf) in Ev by lia. congruence.
    + rewrite <- Ev. symmetry. apply (fi_rest _ _ _ _ _ Hf). intros k Hk. lia.
  - intros va' Hva'. rewrite (fill_directory s s' pd H _ _ e va' Hi Hin He Hf Hva').
    destruct (page_in_directory sz va va' _ _ Hsz Hav ltac:(lia) ltac:(lia) eq_refl eq_refl) as (_ & _ & Hp).
    destruct (decide _) as [D|D], (decide _) as [D'|D']; tauto.
Qed.
End setting.

(** States with the same memory and ASID tables *)
Lemma space_ok_ext s s' pd : ksMem s' = ksMem s -> armKSASIDTable s' = armKSASIDTable s -> space_ok s pd -> space_ok s' pd.
Proof.
  intros Em Et H. apply (space_keeps s s' pd H Et); [by rewrite Em|by rewrite Em|].
  intros i w (? & ? & ?). split; [done|]. by rewrite <- Em.
Qed.
Lemma translation_ext s s' pd va : ksMem s' = ksMem s -> translation s' pd va = translation s pd va.
Proof. intros Em. unfold translation. by rewrite Em. Qed.

(** ** Mapping a frame: the end of the decoding of a map invocation, and the invocation *)
Definition map_frame (asid : Z) (c : cap) (ctSlot base va sz rights attr pd : Z) : K exception_t :=
  if (sz =? ARMSmallPage) || (sz =? ARMLargePage) then
    let* r := createSafeMappingEntries_PTE base va sz rights attr pd in
    if cm_status r != EXCEPTION_NONE then ret (cm_status r)
    else performPageInvocationMapPTE asid c ctSlot (cm_entry r) (cm_base r) (cm_length r)
  else
    let* r := createSafeMappingEntries_PDE base va sz rights attr pd in
    if cm_status r != EXCEPTION_NONE then ret (cm_status r)
    else performPageInvocationMapPDE asid c ctSlot (cm_entry r) (cm_base r) (cm_length r).

Definition page_size_ok (sz : Z) : Prop := is_table_size sz \/ is_directory_size sz.
Lemma wp_map_frame s pd asid c ctSlot ct base va sz rights attr : space_ok s pd -> hwasid_wf s -> 0 < asid < numASIDs ->
  asid_pd_of s asid = Some pd -> ksCtes s !! ctSlot = Some ct -> page_size_ok sz -> page_aligned sz va -> 0 <= va < kernelBase ->
  is_word base -> page_aligned sz base -> is_rights rights ->
  wp (map_frame asid c ctSlot base va sz rights attr pd) (fun st s' =>
    (st = EXCEPTION_NONE /\ mem_frame (upd_ksCtes (<[ctSlot := upd_cte_cap c ct]> (ksCtes s)) s) s' /\
      page_set s s' pd sz va (Some (base, sz))) \/
    (st = EXCEPTION_SYSCALL_ERROR /\ ~ page_free s pd sz va /\ error_frame s s')) s.
Proof.
  intros H W Ha Hp Hct Hsz Hav Hva Hb Hab Hr. unfold map_frame.
  set (s1 := upd_ksCtes (<[ctSlot := upd_cte_cap c ct]> (ksCtes s)) s).
  assert (space_ok s1 pd) as H1 by (by apply (space_ok_ext s)). assert (hwasid_wf s1) as W1 by (by apply (hwasid_wf_ext s)).
  assert (forall P s' b, is_Some (ksMem s' b) -> (forall x, P x s') -> wp (pteCheckIfMapped b) P s') as HM1.
  { intros P s' b [w Ew] HP. unfold pteCheckIfMapped. wstep. eapply wp_read_word; [exact Ew|]. by wstep. }
  assert (forall P s' b, is_Some (ksMem s' b) -> (forall x, P x s') -> wp (pdeCheckIfMapped b) P s') as HM2.
  { intros P s' b [w Ew] HP. unfold pdeCheckIfMapped. wstep. eapply wp_read_word; [exact Ew|]. by wstep. }
  assert (0 <= (va / 2 ^ 12) mod 256 < 256) as Hj by (apply Z.mod_pos_bound; lia).
  assert (entries_of sz = 1 \/ entries_of sz = 16) as Hn by (unfold entries_of; destruct (_ || _); auto).
  destruct Hsz as [Hsz|Hsz].
  - assert ((sz =? ARMSmallPage) || (sz =? ARMLargePage) = true) as -> by (by destruct Hsz as [-> | ->]).
    destruct (page_in_table sz va va _ _ Hsz Hav ltac:(lia) ltac:(lia) eq_refl eq_refl) as [Hjn _].
    wstep. apply (wp_createSafe_PTE s pd H); try done; [|intros Hnf s' Hs'; right; by split]. intros e w He Hw.
    cbn [cm_status cm_entry cm_base cm_length]. rewrite bool_decide_eq_true_2 by done. cbn [negb].
    unfold performPageInvocationMapPTE, set_cap. wstep. eapply wp_mod_cte; [exact Hct|]. fold s1. wstep.
    destruct (so_tables _ _ H _ _ Hw) as (Ht & _ & Hwd). pose proof (table_aligned w).
    apply (wp_write_entries s1 pd asid); try done; try lia; [exact (fun P s' => HM1 P s' _)| | |].
    + intros k Hk. right. exists (va / 2 ^ 20), w, ((va / 2 ^ 12) mod 256 + k). split; [done|]. split; [lia|]. lia.
    + intros k Hk. rewrite <- Z.add_assoc, <- Z.mul_add_distr_l. apply Hwd. lia.
    + intros s2 Hf Hd _ Fr. wstep. left. split; [done|]. split; [done|].
      rewrite <- He. apply (table_page_set s s2 pd sz va H W Hav Hva) with (w := w); [by rewrite (proj1 Fr)|done|done|done|done].
  - assert ((sz =? ARMSmallPage) || (sz =? ARMLargePage) = false) as -> by (by destruct Hsz as [-> | ->]).
    destruct (page_in_directory sz va va _ _ Hsz Hav ltac:(lia) ltac:(lia) eq_refl eq_refl) as (Hi & Hin & _).
    wstep. apply (wp_createSafe_PDE s pd H); try done; [|intros Hnf s' Hs'; right; by split]. intros e Het He Hold.
    cbn [cm_status cm_entry cm_base cm_length]. rewrite bool_decide_eq_true_2 by done. cbn [negb].
    unfold performPageInvocationMapPDE, set_cap. wstep. eapply wp_mod_cte; [exact Hct|]. fold s1. wstep.
    destruct (so_pd _ _ H) as (Hp0 & _ & Hp1).
    apply (wp_write_entries s1 pd asid); try done; try lia; [exact (fun P s' => HM2 P s' _)| | |].
    + intros k Hk. left. exists (va / 2 ^ 20 + k). unfold user_index. lia.
    + intros k Hk. rewrite <- Z.add_assoc, <- Z.mul_add_distr_l. apply (so_words _ _ H). unfold user_index. lia.
    + intros s2 Hf Hd _ Fr. wstep. left. split; [done|]. split; [done|].
      assert (pde_leaf e = Some (base, sz)) as <- by (unfold pde_leaf; by rewrite bool_decide_eq_true_2).
      apply (directory_page_set s s2 pd sz va H W Hav Hva); [by rewrite (proj1 Fr)|done|done|by rewrite Het|done].
Qed.


(** ** Removing entries *)
Lemma Some_pair_snd {A B} (a a' : A) (b b' : B) : Some (a, b) = Some (a', b') -> b = b'.
Proof. intros E. exact (f_equal (fun o => match o with Some p => p.2 | None => b end) E). Qed.

Section removing.
Context (s : kstate) (pd va addr : Z) (H : space_ok s pd) (W : hwasid_wf s) (Hva : 0 <= va < kernelBase).
Implicit Types Q : bool -> kstate -> Prop.
Lemma translation_table w e : refers s pd (va / 2 ^ 20) w -> ksMem s (table_of w + 4 * ((va / 2 ^ 12) mod 256)) = Some e ->
  translation s pd va = pte_maps e.
Proof using. intros (_ & Ew & Et) Ee. unfold translation. rewrite Ew. cbn [mbind option_bind]. by rewrite bool_decide_eq_true_2, Ee by done. Qed.
Lemma translation_directory w : ksMem s (pd + 4 * (va / 2 ^ 20)) = Some w -> pde_get_pdeType w <> pde_pde_coarse ->
  translation s pd va = pde_leaf w.
Proof using. intros Ew Et. unfold translation. rewrite Ew. cbn [mbind option_bind]. by rewrite bool_decide_eq_false_2. Qed.
(** The size says in which of the two levels the entry is. *)
Lemma table_size_refers sz : is_table_size sz -> translation s pd va = Some (addr, sz) -> exists w, refers s pd (va / 2 ^ 20) w.
Proof using H Hva.
  intros Hsz Et. pose proof (user_va va Hva) as Hu. destruct (so_words _ _ H _ Hu) as [w Ew].
  destruct (decide (pde_get_pdeType w = pde_pde_coarse)) as [|Hn]; [by exists w|].
  rewrite (translation_directory w Ew Hn) in Et. unfold pde_leaf, pde_maps in Et. destruct (bool_decide _); [|done].
  apply Some_pair_snd in Et. subst sz. by destruct Hsz, (_ =? 0).
Qed.
Lemma directory_size_leaf sz w : is_directory_size sz -> ksMem s (pd + 4 * (va / 2 ^ 20)) = Some w ->
  translation s pd va = Some (addr, sz) -> pde_leaf w = Some (addr, sz).
Proof using H Hva.
  intros Hsz Ew Et. destruct (decide (pde_get_pdeType w = pde_pde_coarse)) as [Ec|Hn]; [|by rewrite <- (translation_directory w)].
  pose proof (user_va va Hva) as Hu. assert (refers s pd (va / 2 ^ 20) w) as Hr by done.
  destruct (so_tables _ _ H _ _ Hr) as (_ & _ & Hj). destruct (Hj ((va / 2 ^ 12) mod 256)) as [e Ee]; [apply Z.mod_pos_bound; lia|].
  rewrite (translation_table w e Hr Ee) in Et. unfold pte_maps in Et. by destruct (pte_get_pteType e), Hsz; simplify_eq.
Qed.

Lemma wp_remove_table sz w Q : is_table_size sz -> page_aligned sz va -> refers s pd (va / 2 ^ 20) w ->
  (forall s', page_set s s' pd sz va None -> mem_frame s s' -> Q true s') ->
  let slot := table_of w + 4 * ((va / 2 ^ 12) mod 256) in forall (emit : K unit),
  (forall (P : unit -> kstate -> Prop) s', (forall op, P tt (upd_ksHw (upd_hw_log (hw_log (ksHw s') ++ [op]) (ksHw s')) s')) -> wp emit P s') ->
  wp (for_upto (Z.to_nat (entries_of sz)) 0 (fun i => write_word (word_at slot i) pte_pte_invalid_new) ;;; emit ;;; ret true) Q s.
Proof using H W Hva.
  intros Hsz Hav Hr HQ slot emit He. assert (0 <= (va / 2 ^ 12) mod 256 < 256) as Hj by (apply Z.mod_pos_bound; lia).
  destruct (page_in_table sz va va _ _ Hsz Hav ltac:(lia) ltac:(lia) eq_refl eq_refl) as [Hjn _].
  assert (entries_of sz = 1 \/ entries_of sz = 16) as Hn by (unfold entries_of; destruct (_ || _); auto).
  destruct (so_tables _ _ H _ _ Hr) as (Ht & _ & Hwd). pose proof (table_aligned w). wstep. apply wp_fill; unfold slot; try lia.
  - intros k Hk. rewrite <- Z.add_assoc, <- Z.mul_add_distr_l. apply Hwd. lia.
  - intros m' Hf Hd. wstep. apply He. intros op. wstep. apply HQ; [|by apply mem_frame_emit, mem_frame_mem].
    change None with (pte_maps pte_pte_invalid_new). by apply (table_page_set s _ pd sz va H W Hav Hva) with (w := w).
Qed.
Lemma wp_remove_directory sz Q : is_directory_size sz -> page_aligned sz va ->
  (forall s', page_set s s' pd sz va None -> mem_frame s s' -> Q true s') ->
  let slot := pd + 4 * (va / 2 ^ 20) in forall (emit : K unit),
  (forall (P : unit -> kstate -> Prop) s', (forall op, P tt (upd_ksHw (upd_hw_log (hw_log (ksHw s') ++ [op]) (ksHw s')) s')) -> wp emit P s') ->
  wp (for_upto (Z.to_nat (entries_of sz)) 0 (fun i => write_word (word_at slot i) (pde_pde_invalid_new 0 false)) ;;; emit ;;; ret true) Q s.
Proof using H W Hva.
  intros Hsz Hav HQ slot emit He.
  destruct (page_in_directory sz va va _ _ Hsz Hav ltac:(lia) ltac:(lia) eq_refl eq_refl) as (Hi & Hin & _).
  destruct (so_pd _ _ H) as (Hp0 & _ & Hp1).
  assert (entries_of sz = 1 \/ entries_of sz = 16) as Hn by (unfold entries_of; destruct (_ || _); auto).
  wstep. apply wp_fill; unfold slot; try lia.
  - intros k Hk. rewrite <- Z.add_assoc, <- Z.mul_add_distr_l. apply (so_words _ _ H). unfold user_index. lia.
  - intros m' Hf Hd. wstep. apply He. intros op. wstep. apply HQ; [|by apply mem_frame_emit, mem_frame_mem].
    change None with (pde_leaf (pde_pde_invalid_new 0 false)). by apply (directory_page_set s _ pd sz va H W Hav Hva).
Qed.

(** One entry, written without a loop *)
Lemma write_as_loop slot e (K0 : K bool) Q : 0 <= slot < 2 ^ 32 ->
  wp (for_upto 1 0 (fun i => write_word (word_at slot i) e) ;;; K0) Q s -> wp (write_word slot e ;;; K0) Q s.
Proof using.
  intros Hs. assert (word_at slot 0 = slot) as E by (rewrite word_at_eq by lia; lia). unfold wp, bind. cbn [for_upto]. rewrite E.
  unfold bind. destruct (write_word slot e s) as [[] s'|]; done.
Qed.
Lemma wp_emit op (P : unit -> kstate -> Prop) s' :
  (forall op, P tt (upd_ksHw (upd_hw_log (hw_log (ksHw s') ++ [op]) (ksHw s')) s')) -> wp (hw_emit op) P s'.
Proof using. intros HP. unfold hw_emit. wstep. apply HP. Qed.

(** The removal for each page size: [removal sz m] says when [m] removes. *)
Definition removal (sz : Z) (m : K bool) : Prop := page_aligned sz va -> forall Q,
  (translation s pd va = Some (addr, sz) -> forall s', page_set s s' pd sz va None -> mem_frame s s' -> Q true s') ->
  (translation s pd va <> Some (addr, sz) -> forall f, Q false s /\ Q false (upd_current_lookup_fault f s)) -> wp m Q s.
Lemma wp_kept sz Q : translation s pd va <> Some (addr, sz) ->
  (translation s pd va <> Some (addr, sz) -> forall f, Q false s /\ Q false (upd_current_lookup_fault f s)) -> wp (ret false) Q s.
Proof using. intros Hn HF. wstep. by apply (HF Hn lookup_fault_invalid_root). Qed.
Lemma table_removal sz m : is_table_size sz ->
  (page_aligned sz va -> forall w e Q, refers s pd (va / 2 ^ 20) w -> ksMem s (table_of w + 4 * ((va / 2 ^ 12) mod 256)) = Some e ->
    (translation s pd va = Some (addr, sz) -> forall s', page_set s s' pd sz va None -> mem_frame s s' -> Q true s') ->
    (translation s pd va <> Some (addr, sz) -> forall f, Q false s /\ Q false (upd_current_lookup_fault f s)) ->
    wp (m (table_of w + 4 * ((va / 2 ^ 12) mod 256))) Q s) ->
  removal sz (let* lu_ret := lookupPTSlot pd va in if fst lu_ret != EXCEPTION_NONE then ret false else m (snd lu_ret)).
Proof using H Hva.
  intros Hsz Hm Hav Q HT HF. assert (0 <= (va / 2 ^ 12) mod 256 < 256) as Hj by (apply Z.mod_pos_bound; lia).
  wstep. apply wp_lookupPTSlot; [done|done| |].
  - intros w Hw. cbn [fst snd]. rewrite bool_decide_eq_true_2 by done. cbn [negb].
    destruct (so_tables _ _ H _ _ Hw) as (_ & _ & Hwd). destruct (Hwd _ Hj) as [e Ee]. by apply (Hm Hav w e).
  - intros Hn f. cbn [fst]. rewrite bool_decide_eq_false_2 by done. cbn [negb]. wstep.
    apply HF. intros E. destruct (table_size_refers sz Hsz E) as [w Hw]. by apply (Hn w).
Qed.
Lemma small_removal : removal ARMSmallPage (unmapSmallPage pd va addr).
Proof using H W Hva.
  unfold unmapSmallPage. apply (table_removal ARMSmallPage (fun slot =>
    let* pte := read_word slot in
    if pte_get_pteType pte != pte_pte_small then ret false
    else if negb (pte_pte_small_get_address pte =? addr) then ret false
    else write_word slot pte_pte_invalid_new ;;; cleanByVA_PoU slot (addrFromPPtr slot) ;;; ret true)); [by left|].
  intros Hav w e Q Hw Ee HT HF. pose proof (so_tables _ _ H _ _ Hw) as (Ht & _). pose proof (table_aligned w).
  assert (0 <= (va / 2 ^ 12) mod 256 < 256) as Hj by (apply Z.mod_pos_bound; lia).
  pose proof (translation_table w e Hw Ee) as Etr. wstep. eapply wp_read_word; [exact Ee|]. unfold pte_maps in Etr.
  destruct (bool_decide_reflect (pte_get_pteType e = pte_pte_small)) as [Et|Et]; cbn [negb].
  2: { apply (wp_kept ARMSmallPage); [|done]. rewrite Etr. by destruct (pte_get_pteType e). }
  rewrite Et in Etr. destruct (Z.eqb_spec (pte_pte_small_get_address e) addr) as [Ea|Ea]; cbn [negb].
  - apply write_as_loop; [lia|]. apply (wp_remove_table ARMSmallPage w); try done; [by left| |intros; by apply wp_emit].
    intros s' Hs' Fr. apply HT; [by rewrite Etr, Ea|done|done].
  - apply (wp_kept ARMSmallPage); [|done]. rewrite Etr. congruence.
Qed.
Lemma large_removal : removal ARMLargePage (unmapLargePage pd va addr).
Proof using H W Hva.
  unfold unmapLargePage. apply (table_removal ARMLargePage (fun slot =>
    let* pte := read_word slot in
    if pte_get_pteType pte != pte_pte_large then ret false
    else if negb (pte_pte_large_get_address pte =? addr) then ret false
    else
      for_upto (Z.to_nat PAGES_PER_LARGE_PAGE) 0 (fun i => write_word (word_at slot i) pte_pte_invalid_new) ;;;
      cleanCacheRange_PoU slot (LAST_BYTE slot PAGES_PER_LARGE_PAGE) (addrFromPPtr slot) ;;; ret true)); [by right|].
  intros Hav w e Q Hw Ee HT HF. pose proof (so_tables _ _ H _ _ Hw) as (Ht & _). pose proof (table_aligned w).
  pose proof (translation_table w e Hw Ee) as Etr. wstep. eapply wp_read_word; [exact Ee|]. unfold pte_maps in Etr.
  destruct (bool_decide_reflect (pte_get_pteType e = pte_pte_large)) as [Et|Et]; cbn [negb].
  2: { apply (wp_kept ARMLargePage); [|done]. rewrite Etr. by destruct (pte_get_pteType e). }
  rewrite Et in Etr. destruct (Z.eqb_spec (pte_pte_large_get_address e) addr) as [Ea|Ea]; cbn [negb].
  - apply (wp_remove_table ARMLargePage w); try done; [by right| |intros; by apply wp_emit].
    intros s' Hs' Fr. apply HT; [by rewrite Etr, Ea|done|done].
  - apply (wp_kept ARMLargePage); [|done]. rewrite Etr. congruence.
Qed.
Lemma section_size_bit w : pde_pde_section_get_size w = 0 \/ pde_pde_section_get_size w = 1.
Proof using. unfold pde_pde_section_get_size, bf_get. rewrite Z.land_ones by lia. pose proof (Z.mod_pos_bound (Z.shiftr w 18) (2 ^ 1)). lia. Qed.
(** The checks on an entry of the directory *)
Lemma directory_removal sz bit m : is_directory_size sz -> (bit = if sz =? ARMSection then 0 else 1) ->
  (page_aligned sz va -> forall Q, (forall s', page_set s s' pd sz va None -> mem_frame s s' -> Q true s') -> wp m Q s) ->
  removal sz (let* pde := read_word (pd + 4 * (va / 2 ^ 20)) in
    if pde_get_pdeType pde != pde_pde_section then ret false
    else if negb (pde_pde_section_get_size pde =? bit) then ret false
    else if negb (pde_pde_section_get_address pde =? addr) then ret false else m).
Proof using H Hva.
  intros Hsz Hbit Hm Hav Q HT HF. destruct (so_words _ _ H _ (user_va va Hva)) as [w Ew]. wstep. eapply wp_read_word; [exact Ew|].
  pose proof (directory_size_leaf sz w Hsz Ew) as Hl. unfold pde_leaf, pde_maps in Hl.
  assert ((if bit =? 0 then ARMSection else ARMSuperSection) = sz) as Esz by (subst bit; by destruct Hsz as [-> | ->]).
  destruct (bool_decide_reflect (pde_get_pdeType w = pde_pde_section)) as [Et|Et]; cbn [negb].
  2: { apply (wp_kept sz); [by intros ?%Hl|done]. }
  destruct (Z.eqb_spec (pde_pde_section_get_size w) bit) as [Es|Es]; cbn [negb].
  2: { apply (wp_kept sz); [|done]. intros Htr%Hl. apply Some_pair_snd in Htr as Hz. apply Es. subst bit.
       destruct (section_size_bit w) as [Eb|Eb]; rewrite Eb in *; by destruct Hsz as [-> | ->]. }
  destruct (Z.eqb_spec (pde_pde_section_get_address w) addr) as [Ea|Ea]; cbn [negb].
  2: { apply (wp_kept sz); [|done]. intros ?%Hl. congruence. }
  apply (Hm Hav). intros s' Hs' Fr. apply HT; [|done|done].
  rewrite (translation_directory w Ew) by (by rewrite Et). unfold pde_leaf, pde_maps. by rewrite bool_decide_eq_true_2, Es, Ea, Esz.
Qed.
Lemma section_removal : removal ARMSection (unmapSection pd va addr).
Proof using H W Hva.
  unfold unmapSection. rewrite (lookupPDSlot_eq s) by done. apply (directory_removal ARMSection 0); [by left|done|].
  intros Hav Q HT. pose proof (user_va va Hva) as Hu. unfold user_index in Hu. destruct (so_pd _ _ H) as (? & _ & ?).
  apply write_as_loop; [lia|]. apply (wp_remove_directory ARMSection); [by left|done|done|intros; by apply wp_emit].
Qed.
Lemma supersection_removal : removal ARMSuperSection (unmapSuperSection pd va addr).
Proof using H W Hva.
  unfold unmapSuperSection. rewrite (lookupPDSlot_eq s) by done. apply (directory_removal ARMSuperSection 1); [by right|done|].
  intros Hav Q HT. apply (wp_remove_directory ARMSuperSection); [by right|done|done|intros; by apply wp_emit].
Qed.

Definition remove_page (sz : Z) : K bool :=
  if sz =? ARMSmallPage then unmapSmallPage pd va addr
  else if sz =? ARMLargePage then unmapLargePage pd va addr
  else if sz =? ARMSection then unmapSection pd va addr
  else if sz =? ARMSuperSection then unmapSuperSection pd va addr
  else fail.
Lemma page_removal sz : page_size_ok sz -> removal sz (remove_page sz).
Proof using H W Hva.
  intros [[-> | ->]|[-> | ->]]; [exact small_removal|exact large_removal|exact section_removal|exact supersection_removal].
Qed.
End removing.
