(* ===== verification/VSpaceMapSpec.v ===== *)
(** * Address spaces: theorem on mappings

    Mapping and unmapping a page change the translation of that page alone, and what [flushPage] does to the TLB. *)
From stdpp Require Import base list gmap.
From Stdlib Require Import ZArith Lia.
From S2P Require Import Prelude.
From S2P Require Import Words.
From S2P Require Import Structures.
From S2P Require Import KernelState.
From S2P Require Import VSpace.
From S2P Require Import VSpaceInv.
From S2P Require Import Scheduler.
From S2P Require Import System.
From S2P Require Import VSpaceEntries.
From S2P Require Import VSpaceMap.

(** ** Flushing a page

    The flush may switch to the address space and back; the ASID allocator may give it a hardware number. *)
Record flushed (s s' : kstate) : Prop := {
  fl_hwasid : hwasid_wf s';
  fl_frame : vm_frame s s';
  fl_slots : slots_only s s';
  fl_log : hw_log (ksHw s) `prefix_of` hw_log (ksHw s') }.
Lemma flushed_refl s : hwasid_wf s -> flushed s s.
Proof. intros W. split; [done|apply vm_frame_refl|apply slots_only_refl|done]. Qed.
Lemma flushed_trans s1 s2 s3 : flushed s1 s2 -> flushed s2 s3 -> flushed s1 s3.
Proof.
  intros [] []. split; [done|by eapply vm_frame_trans|by eapply slots_only_trans|by etransitivity].
Qed.
Lemma flushed_emit s op : hwasid_wf s -> flushed s (upd_ksHw (upd_hw_log (hw_log (ksHw s) ++ [op]) (ksHw s)) s).
Proof.
  intros W. split; [by apply (hwasid_wf_ext s)|by destruct s|by apply slots_only_same|]. ksimp. cbn. by apply prefix_app_r.
Qed.

Lemma wp_setVMRoot_flush s t (Q : unit -> kstate -> Prop) : hwasid_wf s -> thread_vm s t -> (forall s', flushed s s' -> Q tt s') -> wp (setVMRoot t) Q s.
Proof.
  intros W (c & Hc & Hv) HQ. eapply wp_mono; [by eapply wp_setVMRoot|]. intros [] s' (W' & F & SO & HL). apply HQ. split; [done|done|done|].
  destruct (selected_pd s (cte_cap c)) as [[a p]|].
  - destruct HL as (h & l & _ & _ & _ & ->). by apply prefix_app_r.
  - rewrite HL. by apply prefix_app_r.
Qed.

Section flushing.
Context (s : kstate) (pd asid : Z) (W : hwasid_wf s) (Ha : 0 < asid < numASIDs) (Hp : asid_pd_of s asid = Some pd).
Lemma wp_switch_flush Q : (forall s', flushed s s' -> (stored_valid (default 0 (ksMem s (pd_asid_slot pd))) = true -> ksMem s' = ksMem s) -> Q s') ->
  wp (armv_contextSwitch pd asid) (fun _ => Q) s.
Proof using W Ha Hp.
  intros HQ. eapply wp_mono; [by apply wp_armv_contextSwitch|]. intros _ s' (W' & F & SO & Hm & _ & h & l & _ & _ & _ & El).
  apply HQ; [|done]. split; [done|done|done|]. rewrite El. by apply prefix_app_r.
Qed.
Lemma wp_setVMRootForFlush (Q : bool -> kstate -> Prop) : thread_vm s (ksCurThread s) ->
  (forall b s', flushed s s' -> (stored_valid (default 0 (ksMem s (pd_asid_slot pd))) = true -> ksMem s' = ksMem s) -> Q b s') ->
  wp (setVMRootForFlush pd asid) Q s.
Proof using W Ha Hp.
  intros (c & Hc & _) HQ. unfold setVMRootForFlush. wrun.
  pose proof (flushed_refl s W).
  assert (wp (armv_contextSwitch pd asid ;;; ret true) Q s) as HS.
  { wstep. apply wp_switch_flush. intros s' ? ?. wstep. by apply HQ. }
  destruct (cte_cap c); try exact HS. destruct capPDIsMapped; [|exact HS].
  destruct (_ =? pd); [|exact HS]. wstep. by apply HQ.
Qed.
(** The TLB entry of the page is invalidated, if the address space had a hardware number. *)
Definition invalidation (sz va w : Z) : hw_op := HwInvalidateTLB_VAASID ((va &w wnot (MASK 12)) |w stored_hwasid w).
Lemma wp_flushPage sz va (Q : unit -> kstate -> Prop) : page_aligned sz va -> 0 <= va -> page_size_ok sz -> thread_vm s (ksCurThread s) ->
  (forall s', flushed s s' -> (forall w, ksMem s (pd_asid_slot pd) = Some w -> stored_valid w = true ->
      exists l l', hw_log (ksHw s') = hw_log (ksHw s) ++ l ++ invalidation sz va w :: l') -> Q tt s') ->
  wp (flushPage sz pd asid va) Q s.
Proof using W Ha Hp.
  intros Hav Hva Hsz HT HQ. unfold flushPage. wstep. apply wp_assert.
  { apply Z.eqb_eq. unfold page_aligned in Hav. rewrite land_MASK; [done|]. by destruct Hsz as [[-> | ->]|[-> | ->]]. }
  wstep. apply wp_setVMRootForFlush; [done|]. intros b s1 F1 Hm1. wstep.
  assert (asid_pd_of s1 asid = Some pd) as Hp1 by (rewrite (proj1 (fl_slots _ _ F1)) by lia; done).
  destruct (hw_stored _ W _ _ Ha Hp) as (w0 & Hw0 & _).
  apply (wp_loadHWASID s1 asid pd); [apply F1|done|done|]. intros w Hw.
  fold (stored_valid w) (stored_hwasid w). destruct (stored_valid w) eqn:Ev; cbn [when].
  - unfold invalidateTLB_VAASID, hw_emit. wstep. wstep. wstep. wstep.
    fold (invalidation sz va w).
    match goal with |- wp _ _ ?x => assert (flushed s1 x) as F2 by (apply flushed_emit, F1); set (s2 := x) in * end.
    assert (forall s', flushed s2 s' -> Q tt s') as HQ2.
    { intros s' F3. apply HQ; [by eapply flushed_trans; [exact F1|]; eapply flushed_trans|]. intros v Ew Ewv.
      rewrite Hw0 in Ew. injection Ew as ->. assert (w = v) as ->.
      { rewrite Hm1 in Hw by (rewrite Hw0; exact Ewv). congruence. }
      destruct (fl_log _ _ F1) as [l1 E1], (fl_log _ _ F3) as [l3 E3]. exists l1, l3. rewrite E3. unfold s2. ksimp. cbn [hw_log upd_hw_log].
      rewrite E1, <- !app_assoc. done. }
    destruct b; cbn [when]; [|wstep; apply HQ2, flushed_refl, F2].
    apply wp_setVMRoot_flush; [apply F2| |done]. destruct HT as (c & Hc & Hv).
    pose proof (fl_frame _ _ (flushed_trans _ _ _ F1 F2)) as Fr. exists c. by rewrite Fr.
  - wstep. apply HQ; [done|]. intros v Ew Ewv. rewrite Hm1 in Hw by (rewrite Ew; exact Ewv). congruence.
Qed.
End flushing.

(** ** Unmapping *)
Lemma flushed_space s s' pd : space_ok s pd -> flushed s s' ->
  space_ok s' pd /\ forall va, 0 <= va < kernelBase -> translation s' pd va = translation s pd va.
Proof.
  intros H [_ F (Hpd & Hm & Hd) _].
  assert (armKSASIDTable s' = armKSASIDTable s) as Et by (by rewrite F).
  assert (forall x, in_space s pd x -> ksMem s' x = ksMem s x) as Hin.
  { intros x Hx. apply Hm. intros a p Ha Ep ->. by apply (so_slots _ _ H a p Ha Ep). }
  assert (forall i w, refers s' pd i w <-> refers s pd i w) as Hr.
  { intros i w. unfold refers. split; intros (Hu & Ew & Ec); (split; [done|]; split; [|done]); rewrite <- Ew.
    - symmetry. apply Hin. left. by exists i.
    - apply Hin. left. by exists i. }
  split.
  - split.
    + apply H.
    + intros i Hi. by apply Hd, (so_words _ _ H).
    + intros i w Hw%Hr. destruct (so_tables _ _ H i w Hw) as (? & ? & Hj). split; [done|]. split; [done|]. intros j Hjj. by apply Hd, Hj.
    + intros i j w w' Hi%Hr Hj%Hr. by apply (so_once _ _ H).
    + intros a p Ha. rewrite Hpd by lia. intros Ep Hi. apply (so_slots _ _ H a p Ha Ep).
      destruct Hi as [?|(i & w & j & Hrw%Hr & ?)]; [by left|right; by exists i, w, j].
    + intros a Ha. unfold asid_entry, asid_pool. rewrite Et. intros Hne Hi. apply (so_pools _ _ H a Ha Hne).
      destruct Hi as [?|(i & w & j & Hrw%Hr & ?)]; [by left|right; by exists i, w, j].
  - intros va Hva. unfold translation. pose proof (user_va va Hva) as Hu.
    rewrite Hin by (left; by exists (va / 2 ^ 20)). destruct (so_words _ _ H _ Hu) as [w Ew]. rewrite Ew. cbn [mbind option_bind].
    destruct (bool_decide_reflect (pde_get_pdeType w = pde_pde_coarse)); [|done]. rewrite Hin; [done|]. right.
    exists (va / 2 ^ 20), w, ((va / 2 ^ 12) mod 256). split; [done|]. split; [apply Z.mod_pos_bound; lia|done].
Qed.

Record page_gone (s s' : kstate) (pd sz va : Z) (addr : Z) : Prop := {
  pg_hwasid : hwasid_wf s';
  pg_space : space_ok s' pd;
  pg_frame : vm_frame s s';
  pg_pds : forall a, 0 <= a < numASIDs -> asid_pd_of s' a = asid_pd_of s a;
  pg_translation : forall va', 0 <= va' < kernelBase -> translation s' pd va' =
    if decide (translation s pd va = Some (addr, sz) /\ same_page sz va va') then None else translation s pd va';
  pg_tlb : translation s pd va = Some (addr, sz) -> forall w, ksMem s (pd_asid_slot pd) = Some w -> stored_valid w = true ->
    exists l l', hw_log (ksHw s') = hw_log (ksHw s) ++ l ++ invalidation sz va w :: l' }.
Lemma page_kept s s' pd sz va addr : space_ok s pd -> hwasid_wf s -> ksMem s' = ksMem s -> armKSASIDTable s' = armKSASIDTable s ->
  armKSHWASIDTable s' = armKSHWASIDTable s -> armKSNextASID s' = armKSNextASID s -> vm_frame s s' ->
  translation s pd va <> Some (addr, sz) -> page_gone s s' pd sz va addr.
Proof.
  intros H W Em Et Eh En Fr Hn.
  split; [by apply (hwasid_wf_ext s)|by apply (space_ok_ext s)|done|intros a _; by apply asid_pd_of_same| |done].
  intros va' _. rewrite decide_False by tauto. by apply translation_ext.
Qed.
Lemma wp_unmapPage s pd asid sz va pptr (Q : unit -> kstate -> Prop) : space_ok s pd -> hwasid_wf s -> 0 < asid < numASIDs ->
  asid_pd_of s asid = Some pd -> page_size_ok sz -> page_aligned sz va -> 0 <= va < kernelBase -> thread_vm s (ksCurThread s) ->
  (forall s', page_gone s s' pd sz va (addrFromPPtr pptr) -> Q tt s') -> wp (unmapPage sz asid va pptr) Q s.
Proof.
  intros H W Ha Hp Hsz Hav Hva HT HQ. unfold unmapPage. cbv zeta. wstep. eapply wp_mono; [apply wp_findPDForASID; [done|lia]|].
  rewrite Hp. intros r s' [-> ->]. cbn [fst snd]. rewrite bool_decide_eq_true_2 by done. cbn [negb]. wstep.
  fold (remove_page pd va (addrFromPPtr pptr) sz). apply (page_removal s pd va (addrFromPPtr pptr) H W Hva sz Hsz Hav).
  - intros Etr s1 PS [E1 P1]. cbn [when].
    assert (ksMem s1 (pd_asid_slot pd) = ksMem s (pd_asid_slot pd)) as Esl by (by eapply (ps_slots _ _ _ _ _ _ PS)).
    apply (wp_flushPage s1 pd asid (ps_hwasid _ _ _ _ _ _ PS) Ha); [by rewrite (ps_pds _ _ _ _ _ _ PS) by lia|done|lia|done| |].
    { destruct HT as (c & Hc & Hv). exists c. rewrite E1. done. }
    intros s2 F2 HTLB. destruct (flushed_space s1 s2 pd (ps_space _ _ _ _ _ _ PS) F2) as [H2 T2]. apply HQ. split; [apply F2|done| | | |].
    + eapply vm_frame_trans; [|apply F2]. rewrite E1. by destruct s.
    + intros a Ha'. rewrite (proj1 (fl_slots _ _ F2)) by done. by apply PS.
    + intros va' Hva'. rewrite T2, (ps_translation _ _ _ _ _ _ PS) by done.
      destruct (decide (same_page sz va va')), (decide (_ /\ _)); tauto.
    + intros _ w Ew Ev. rewrite <- Esl in Ew. destruct (HTLB w Ew Ev) as (l & l' & El). destruct P1 as [l1 E1'].
      exists (l1 ++ l), l'. rewrite El, E1', <- !app_assoc. done.
  - intros Etr f. cbn [when]. split; wstep; apply HQ; apply page_kept; try done; by destruct s.
Qed.


(** What an address of an address space is mapped to, as the kernel's own lookup [resolveVAddr] finds it: the
    physical address of the frame and its size *)
Definition address_map (s : kstate) (pd va : Z) : option (Z * Z) :=
  match resolveVAddr pd va s with Ret r _ => r | Stop _ => None end.
Lemma address_map_translation s pd va : space_ok s pd -> 0 <= va < kernelBase -> address_map s pd va = translation s pd va.
Proof. intros H Hva. unfold address_map. by rewrite resolve_translation. Qed.

(** An address space that the map of addresses [f] describes *)
Definition space_maps (s : kstate) (pd : Z) (f : Z -> option (Z * Z)) : Prop :=
  hwasid_wf s /\ space_ok s pd /\ forall va, 0 <= va < kernelBase -> address_map s pd va = f va.
(** The map with one page set to [r], as a function of the address *)
Definition with_page (sz va : Z) (r : option (Z * Z)) (f : Z -> option (Z * Z)) (va' : Z) : option (Z * Z) :=
  if decide (same_page sz va va') then r else f va'.

(** C27: Mapping and unmapping a page change the translation of that page and of no other address. Take an address space
    whose directory and tables do not overlap and an address that the page's size divides. Mapping a frame
    there makes exactly the addresses of the page resolve to the frame, with every other translation
    unchanged, and writes nothing but memory, the capability's slot and the cache maintenance; or it reports an
    error that changes no more than the error record, and only if the page is not free (no table for it, or an
    entry in use). Unmapping a frame removes exactly the translations of the page if that frame is mapped there with that
    size; in any other case no translation changes. If the address space holds a hardware number when its page
    is removed, the page's TLB entry for that number is invalidated. *)
Theorem page_map_unmap s pd asid sz va : space_ok s pd -> hwasid_wf s -> 0 < asid < numASIDs ->
  asid_pd_of s asid = Some pd -> page_size_ok sz -> page_aligned sz va -> 0 <= va < kernelBase ->
  (forall c ctSlot ct base rights attr, ksCtes s !! ctSlot = Some ct -> is_word base -> page_aligned sz base -> is_rights rights ->
    wp (map_frame asid c ctSlot base va sz rights attr pd) (fun st s' =>
      (st = EXCEPTION_NONE /\ space_maps s' pd (with_page sz va (Some (base, sz)) (address_map s pd)) /\
        mem_frame (upd_ksCtes (<[ctSlot := upd_cte_cap c ct]> (ksCtes s)) s) s') \/
      (st = EXCEPTION_SYSCALL_ERROR /\ ~ page_free s pd sz va /\ error_frame s s')) s) /\
  (forall pptr, thread_vm s (ksCurThread s) ->
    wp (unmapPage sz asid va pptr) (fun _ s' => vm_frame s s' /\
      if decide (address_map s pd va = Some (addrFromPPtr pptr, sz))
      then space_maps s' pd (with_page sz va None (address_map s pd)) /\
        forall w, ksMem s (pd_asid_slot pd) = Some w -> stored_valid w = true ->
          exists l l', hw_log (ksHw s') = hw_log (ksHw s) ++ l ++ invalidation sz va w :: l'
      else space_maps s' pd (address_map s pd)) s).
Proof.
  intros H W Ha Hp Hsz Hav Hva. unfold with_page. split.
  - intros c ctSlot ct base rights attr Hct Hb Hab Hr. eapply wp_mono; [by apply (wp_map_frame s pd asid c ctSlot ct)|].
    intros st s' [(-> & Fr & PS)|?]; [left|by right]. split; [done|]. split; [|done].
    split; [apply PS|]. split; [apply PS|]. intros va' Hva'. rewrite !address_map_translation by (done || apply PS). by apply PS.
  - intros pptr HT. apply (wp_unmapPage s pd asid); try done. intros s' PG. split; [apply PG|].
    rewrite (address_map_translation s pd va) by done.
    assert (forall va', 0 <= va' < kernelBase -> address_map s' pd va' =
      if decide (translation s pd va = Some (addrFromPPtr pptr, sz) /\ same_page sz va va') then None else address_map s pd va') as Hm.
    { intros va' Hva'. rewrite !address_map_translation by (done || apply PG). by apply PG. }
    destruct (decide (translation s pd va = _)) as [D|D].
    + split; [|by apply PG]. split; [apply PG|]. split; [apply PG|]. intros va' Hva'. rewrite Hm by done.
      destruct (decide (_ /\ _)), (decide (same_page _ _ _)); tauto.
    + split; [apply PG|]. split; [apply PG|]. intros va' Hva'. rewrite Hm by done. by rewrite decide_False by tauto.
Qed.

(** The first address space of the example system is empty. *)
Lemma sys_empty i : user_index i -> ksMem sys (pd1 + 4 * i) = Some 0.
Proof.
  intros Hi. unfold user_index in Hi. change (ksMem sys) with sysMem. unfold sysMem. change (word_at pd2 PD_ASID_SLOT) with 0xe000ffc0. unfold pd1, poolAt.
  repeat (rewrite (proj2 (Z.eqb_neq _ _)) by lia). done.
Qed.
Lemma sys_refers i w : ~ refers sys pd1 i w.
Proof. intros (Hi & Ew & Ec). rewrite sys_empty in Ew by done. injection Ew as <-. done. Qed.
Lemma sys_in_space x : in_space sys pd1 x -> pd1 <= x < pd1 + 0x3c00.
Proof. unfold in_space, user_index. intros [(i & Hi & ->)|(i & w & j & []%sys_refers & _)]. lia. Qed.
Lemma sys_space : space_ok sys pd1.
Proof.
  split.
  - done.
  - intros i Hi. by rewrite sys_empty.
  - by intros i w ?%sys_refers.
  - by intros i j w w' ?%sys_refers.
  - intros a p Ha [[-> ->]|[-> ->]]%sys_pds Hi%sys_in_space; [| |lia]; revert Hi.
    + change (pd_asid_slot pd1) with 0xe000bfc0. unfold pd1. lia.
    + change (pd_asid_slot pd2) with 0xe000ffc0. unfold pd1. lia.
  - intros a Ha Hn Hi%sys_in_space. destruct (sys_pool a Ha Hn) as [? E]. rewrite E in Hi. revert Hi. unfold poolAt, pd1. lia.
Qed.
Lemma sys_same_page : same_page ARMSection 0x300000 0x312345.
Proof. unfold same_page. vm_compute. reflexivity. Qed.
Lemma sys_other_page : ~ same_page ARMSection 0x300000 0x412345.
Proof. unfold same_page. change (pageBitsForSize ARMSection) with 20. intros E. vm_compute in E. discriminate E. Qed.
Lemma sys_unmapped va : 0 <= va < kernelBase -> address_map sys pd1 va = None.
Proof.
  intros Hva. rewrite (address_map_translation _ _ _ sys_space) by done. unfold translation.
  rewrite sys_empty by (by apply user_va). reflexivity.
Qed.
Lemma sys_page_free : page_free sys pd1 ARMSection 0x300000.
Proof.
  unfold page_free. change (ARMSection =? ARMSmallPage) with false. change (ARMSection =? ARMLargePage) with false. cbv iota.
  intros k e Hk. change (entries_of ARMSection) with 1 in Hk. rewrite sys_empty; [by intros [= <-]|].
  change (0x300000 / 2 ^ 20) with 3. unfold user_index. lia.
Qed.

(** A section of the first address space is mapped. *)
Lemma page_map_unmap_witness :
  wp (map_frame 1 (Cap_frame ARMSection 1 VMReadWrite 0x300000 0 0xe0100000) (slotAt 0) 0x40000000 0x300000 ARMSection VMReadWrite 0 pd1)
    (fun st s' => st = EXCEPTION_NONE /\ address_map s' pd1 0x312345 = Some (0x40000000, ARMSection) /\ address_map s' pd1 0x412345 = None) sys.
Proof.
  destruct (page_map_unmap sys pd1 1 ARMSection 0x300000 sys_space sys_hwasid) as [HM _].
  - done.
  - reflexivity.
  - by right; left.
  - reflexivity.
  - split; done.
  - specialize (HM (Cap_frame ARMSection 1 VMReadWrite 0x300000 0 0xe0100000) (slotAt 0)
      (mk_cte (Cap_untyped 4 12 0xe0003000) (mk_mdb_node (slotAt 1) true true NULL)) 0x40000000 VMReadWrite 0 eq_refl
      ltac:(split; done) eq_refl ltac:(by right; right; right)).
    eapply wp_mono; [exact HM|]. intros st s' [(-> & (_ & _ & Hm) & _)|(_ & Hf & _)]; [|by destruct (Hf sys_page_free)].
    split; [reflexivity|]. clear HM.
    split; (etransitivity; [apply Hm; split; reflexivity || discriminate|]; unfold with_page).
    + rewrite decide_True by exact sys_same_page. reflexivity.
    + rewrite decide_False by exact sys_other_page. apply sys_unmapped. split; done.
Defined.
