(* ===== verification/Allocman.v ===== *)
(** * The allocation manager (libs/libsel4allocman/src/allocman.c)

    The manager dispatches the allocation of memory, capability slots and untyped memory to three allocators,
    which call the manager in turn. Requests that come while an allocator may not be entered are served from
    reserves, and frees are queued; both are made up for at the end of the outermost operation. *)
From stdpp Require Import base list gmap.
From Stdlib Require Import ZArith Lia.
From S2P Require Import Prelude.
From S2P Require Import AllocBase.

(** ** Data (include/allocman/allocman.h, properties.h) *)
Record allocman_properties := mk_properties {
  alloc_can_free : bool; free_can_alloc : bool; alloc_can_alloc : bool; free_can_free : bool }.
Definition allocman_default_properties : allocman_properties := mk_properties false false false false.

(** What an allocator attaches: its functions are in [allocator_calls] below, [space_ptr] is the pointer that is
    passed to them. *)
Record space_interface := mk_interface { properties : allocman_properties; space_ptr : Z }.

(** A dynamic array with its count: [array] is its address, [room] the number of elements in the memory
    allocated for it, [items] the elements below the count; what is above is never read. *)
Record stack (A : Type) := mk_stack { array : Z; room : Z; items : list A }.
Arguments mk_stack {A}. Arguments array {A}. Arguments room {A}. Arguments items {A}.
Definition count {A} (k : stack A) : Z := Z.of_nat (length k.(items)).
Definition set_items {A} (l : list A) (k : stack A) : stack A := mk_stack k.(array) k.(room) l.
Definition no_stack {A} : stack A := mk_stack NULL 0 [].

(** The reserve for one kind of request: [chunk.count] resources are desired. A kind is a size of memory, or the
    size and the type of an object. *)
Record reserve (K V : Type) := mk_reserve { kind : K; desired : Z; chunks : stack V }.
Arguments mk_reserve {K V}. Arguments kind {K V}. Arguments desired {K V}. Arguments chunks {K V}.
Definition upd_chunks {K V} (v : stack V) (r : reserve K V) : reserve K V := mk_reserve r.(kind) r.(desired) v.

(** The three allocators have the same fields in the structure, [have_mspace], [mspace], [mspace_alloc_depth],
    [mspace_free_depth] and so on; the macros of the source paste these names together. *)
Record space_state := mk_space_state {
  have : bool;
  interface : space_interface;
  alloc_depth : Z;
  free_depth : Z }.
Definition upd_have (v : bool) (a : space_state) : space_state := mk_space_state v a.(interface) a.(alloc_depth)
  a.(free_depth).
Definition upd_interface (v : space_interface) (a : space_state) : space_state := mk_space_state a.(have) v
  a.(alloc_depth) a.(free_depth).
Definition upd_alloc_depth (v : Z) (a : space_state) : space_state := mk_space_state a.(have) a.(interface) v
  a.(free_depth).
Definition upd_free_depth (v : Z) (a : space_state) : space_state := mk_space_state a.(have) a.(interface)
  a.(alloc_depth) v.

(** The addresses of the arrays [mspace_chunk], [mspace_chunk_count] and [mspace_chunks] are the triple
    [mspace_arrays]; an element of all three is a reserve. A freed block is its address and size, a freed
    object its size and cookie, an object in reserve its cookie and slot. *)
Record allocman := mk_allocman {
  mspace : space_state;
  cspace : space_state;
  utspace : space_state;
  in_operation : bool;
  refilling_watermark : bool;
  used_watermark : bool;
  desired_freed_slots : Z;
  freed_slots : stack cspacepath_t;
  desired_freed_mspace_chunks : Z;
  freed_mspace_chunks : stack (Z * Z);
  desired_freed_utspace_chunks : Z;
  freed_utspace_chunks : stack (Z * Z);
  desired_cspace_slots : Z;
  cspace_slots : stack cspacepath_t;
  mspace_arrays : Z * Z * Z;
  mspace_reserves : list (reserve Z Z);
  utspace_arrays : Z * Z * Z;
  utspace_reserves : list (reserve (Z * Z) (Z * cspacepath_t)) }.
Definition upd_mspace (v : space_state) (a : allocman) : allocman := mk_allocman v a.(cspace) a.(utspace)
  a.(in_operation) a.(refilling_watermark) a.(used_watermark) a.(desired_freed_slots) a.(freed_slots)
  a.(desired_freed_mspace_chunks) a.(freed_mspace_chunks) a.(desired_freed_utspace_chunks) a.(freed_utspace_chunks)
  a.(desired_cspace_slots) a.(cspace_slots) a.(mspace_arrays) a.(mspace_reserves) a.(utspace_arrays)
  a.(utspace_reserves).
Definition upd_cspace (v : space_state) (a : allocman) : allocman := mk_allocman a.(mspace) v a.(utspace)
  a.(in_operation) a.(refilling_watermark) a.(used_watermark) a.(desired_freed_slots) a.(freed_slots)
  a.(desired_freed_mspace_chunks) a.(freed_mspace_chunks) a.(desired_freed_utspace_chunks) a.(freed_utspace_chunks)
  a.(desired_cspace_slots) a.(cspace_slots) a.(mspace_arrays) a.(mspace_reserves) a.(utspace_arrays)
  a.(utspace_reserves).
Definition upd_utspace (v : space_state) (a : allocman) : allocman := mk_allocman a.(mspace) a.(cspace) v
  a.(in_operation) a.(refilling_watermark) a.(used_watermark) a.(desired_freed_slots) a.(freed_slots)
  a.(desired_freed_mspace_chunks) a.(freed_mspace_chunks) a.(desired_freed_utspace_chunks) a.(freed_utspace_chunks)
  a.(desired_cspace_slots) a.(cspace_slots) a.(mspace_arrays) a.(mspace_reserves) a.(utspace_arrays)
  a.(utspace_reserves).
Definition upd_in_operation (v : bool) (a : allocman) : allocman := mk_allocman a.(mspace) a.(cspace) a.(utspace) v
  a.(refilling_watermark) a.(used_watermark) a.(desired_freed_slots) a.(freed_slots)
  a.(desired_freed_mspace_chunks) a.(freed_mspace_chunks) a.(desired_freed_utspace_chunks) a.(freed_utspace_chunks)
  a.(desired_cspace_slots) a.(cspace_slots) a.(mspace_arrays) a.(mspace_reserves) a.(utspace_arrays)
  a.(utspace_reserves).
Definition upd_refilling_watermark (v : bool) (a : allocman) : allocman := mk_allocman a.(mspace) a.(cspace)
  a.(utspace) a.(in_operation) v a.(used_watermark) a.(desired_freed_slots) a.(freed_slots)
  a.(desired_freed_mspace_chunks) a.(freed_mspace_chunks) a.(desired_freed_utspace_chunks) a.(freed_utspace_chunks)
  a.(desired_cspace_slots) a.(cspace_slots) a.(mspace_arrays) a.(mspace_reserves) a.(utspace_arrays)
  a.(utspace_reserves).
Definition upd_used_watermark (v : bool) (a : allocman) : allocman := mk_allocman a.(mspace) a.(cspace) a.(utspace)
  a.(in_operation) a.(refilling_watermark) v a.(desired_freed_slots) a.(freed_slots)
  a.(desired_freed_mspace_chunks) a.(freed_mspace_chunks) a.(desired_freed_utspace_chunks) a.(freed_utspace_chunks)
  a.(desired_cspace_slots) a.(cspace_slots) a.(mspace_arrays) a.(mspace_reserves) a.(utspace_arrays)
  a.(utspace_reserves).
Definition upd_desired_freed_slots (v : Z) (a : allocman) : allocman := mk_allocman a.(mspace) a.(cspace)
  a.(utspace) a.(in_operation) a.(refilling_watermark) a.(used_watermark) v a.(freed_slots)
  a.(desired_freed_mspace_chunks) a.(freed_mspace_chunks) a.(desired_freed_utspace_chunks) a.(freed_utspace_chunks)
  a.(desired_cspace_slots) a.(cspace_slots) a.(mspace_arrays) a.(mspace_reserves) a.(utspace_arrays)
  a.(utspace_reserves).
Definition upd_freed_slots (v : stack cspacepath_t) (a : allocman) : allocman := mk_allocman a.(mspace) a.(cspace)
  a.(utspace) a.(in_operation) a.(refilling_watermark) a.(used_watermark) a.(desired_freed_slots) v
  a.(desired_freed_mspace_chunks) a.(freed_mspace_chunks) a.(desired_freed_utspace_chunks) a.(freed_utspace_chunks)
  a.(desired_cspace_slots) a.(cspace_slots) a.(mspace_arrays) a.(mspace_reserves) a.(utspace_arrays)
  a.(utspace_reserves).
Definition upd_desired_freed_mspace_chunks (v : Z) (a : allocman) : allocman := mk_allocman a.(mspace) a.(cspace)
  a.(utspace) a.(in_operation) a.(refilling_watermark) a.(used_watermark) a.(desired_freed_slots) a.(freed_slots) v
  a.(freed_mspace_chunks) a.(desired_freed_utspace_chunks) a.(freed_utspace_chunks) a.(desired_cspace_slots)
  a.(cspace_slots) a.(mspace_arrays) a.(mspace_reserves) a.(utspace_arrays) a.(utspace_reserves).
Definition upd_freed_mspace_chunks (v : stack (Z * Z)) (a : allocman) : allocman := mk_allocman a.(mspace)
  a.(cspace) a.(utspace) a.(in_operation) a.(refilling_watermark) a.(used_watermark) a.(desired_freed_slots)
  a.(freed_slots) a.(desired_freed_mspace_chunks) v a.(desired_freed_utspace_chunks) a.(freed_utspace_chunks)
  a.(desired_cspace_slots) a.(cspace_slots) a.(mspace_arrays) a.(mspace_reserves) a.(utspace_arrays)
  a.(utspace_reserves).
Definition upd_desired_freed_utspace_chunks (v : Z) (a : allocman) : allocman := mk_allocman a.(mspace) a.(cspace)
  a.(utspace) a.(in_operation) a.(refilling_watermark) a.(used_watermark) a.(desired_freed_slots) a.(freed_slots)
  a.(desired_freed_mspace_chunks) a.(freed_mspace_chunks) v a.(freed_utspace_chunks) a.(desired_cspace_slots)
  a.(cspace_slots) a.(mspace_arrays) a.(mspace_reserves) a.(utspace_arrays) a.(utspace_reserves).
Definition upd_freed_utspace_chunks (v : stack (Z * Z)) (a : allocman) : allocman := mk_allocman a.(mspace)
  a.(cspace) a.(utspace) a.(in_operation) a.(refilling_watermark) a.(used_watermark) a.(desired_freed_slots)
  a.(freed_slots) a.(desired_freed_mspace_chunks) a.(freed_mspace_chunks) a.(desired_freed_utspace_chunks) v
  a.(desired_cspace_slots) a.(cspace_slots) a.(mspace_arrays) a.(mspace_reserves) a.(utspace_arrays)
  a.(utspace_reserves).
Definition upd_desired_cspace_slots (v : Z) (a : allocman) : allocman := mk_allocman a.(mspace) a.(cspace)
  a.(utspace) a.(in_operation) a.(refilling_watermark) a.(used_watermark) a.(desired_freed_slots) a.(freed_slots)
  a.(desired_freed_mspace_chunks) a.(freed_mspace_chunks) a.(desired_freed_utspace_chunks) a.(freed_utspace_chunks)
  v a.(cspace_slots) a.(mspace_arrays) a.(mspace_reserves) a.(utspace_arrays) a.(utspace_reserves).
Definition upd_cspace_slots (v : stack cspacepath_t) (a : allocman) : allocman := mk_allocman a.(mspace) a.(cspace)
  a.(utspace) a.(in_operation) a.(refilling_watermark) a.(used_watermark) a.(desired_freed_slots) a.(freed_slots)
  a.(desired_freed_mspace_chunks) a.(freed_mspace_chunks) a.(desired_freed_utspace_chunks) a.(freed_utspace_chunks)
  a.(desired_cspace_slots) v a.(mspace_arrays) a.(mspace_reserves) a.(utspace_arrays) a.(utspace_reserves).
Definition upd_mspace_arrays (v : Z * Z * Z) (a : allocman) : allocman := mk_allocman a.(mspace) a.(cspace)
  a.(utspace) a.(in_operation) a.(refilling_watermark) a.(used_watermark) a.(desired_freed_slots) a.(freed_slots)
  a.(desired_freed_mspace_chunks) a.(freed_mspace_chunks) a.(desired_freed_utspace_chunks) a.(freed_utspace_chunks)
  a.(desired_cspace_slots) a.(cspace_slots) v a.(mspace_reserves) a.(utspace_arrays) a.(utspace_reserves).
Definition upd_mspace_reserves (v : list (reserve Z Z)) (a : allocman) : allocman := mk_allocman a.(mspace)
  a.(cspace) a.(utspace) a.(in_operation) a.(refilling_watermark) a.(used_watermark) a.(desired_freed_slots)
  a.(freed_slots) a.(desired_freed_mspace_chunks) a.(freed_mspace_chunks) a.(desired_freed_utspace_chunks)
  a.(freed_utspace_chunks) a.(desired_cspace_slots) a.(cspace_slots) a.(mspace_arrays) v a.(utspace_arrays)
  a.(utspace_reserves).
Definition upd_utspace_arrays (v : Z * Z * Z) (a : allocman) : allocman := mk_allocman a.(mspace) a.(cspace)
  a.(utspace) a.(in_operation) a.(refilling_watermark) a.(used_watermark) a.(desired_freed_slots) a.(freed_slots)
  a.(desired_freed_mspace_chunks) a.(freed_mspace_chunks) a.(desired_freed_utspace_chunks) a.(freed_utspace_chunks)
  a.(desired_cspace_slots) a.(cspace_slots) a.(mspace_arrays) a.(mspace_reserves) v a.(utspace_reserves).
Definition upd_utspace_reserves (v : list (reserve (Z * Z) (Z * cspacepath_t))) (a : allocman) : allocman := mk_allocman a.(mspace)
  a.(cspace) a.(utspace) a.(in_operation) a.(refilling_watermark) a.(used_watermark) a.(desired_freed_slots)
  a.(freed_slots) a.(desired_freed_mspace_chunks) a.(freed_mspace_chunks) a.(desired_freed_utspace_chunks)
  a.(freed_utspace_chunks) a.(desired_cspace_slots) a.(cspace_slots) a.(mspace_arrays) a.(mspace_reserves)
  a.(utspace_arrays) v.

Inductive space := Mspace | Cspace | Utspace.
Definition get_space (x : space) (a : allocman) : space_state :=
  match x with Mspace => a.(mspace) | Cspace => a.(cspace) | Utspace => a.(utspace) end.
Definition set_space (x : space) (v : space_state) (a : allocman) : allocman :=
  match x with Mspace => upd_mspace v a | Cspace => upd_cspace v a | Utspace => upd_utspace v a end.

Definition _can_alloc (c : space_state) : bool :=
  let in_alloc := c.(alloc_depth) >? 0 in
  let in_free := c.(free_depth) >? 0 in
  (c.(interface).(properties).(alloc_can_alloc) || negb in_alloc) &&
  (c.(interface).(properties).(free_can_alloc) || negb in_free).
Definition _can_free (c : space_state) : bool :=
  let in_alloc := c.(alloc_depth) >? 0 in
  let in_free := c.(free_depth) >? 0 in
  (c.(interface).(properties).(alloc_can_free) || negb in_alloc) &&
  (c.(interface).(properties).(free_can_free) || negb in_free).

(** The sizes of the structures *)
Definition sizeof_cspacepath : Z := 28.
Definition sizeof_mspace_chunk : Z := 8.
Definition sizeof_utspace_chunk : Z := 12.
Definition sizeof_utspace_allocation : Z := 32.
Definition sizeof_freed_chunk : Z := 8.
Definition sizeof_word : Z := 4.

(** A state with a manager in it *)
Class Managed (S : Type) := {
  am : S -> allocman;
  set_am : allocman -> S -> S;
  am_set_am a s : am (set_am a s) = a;
  set_am_set_am a a' s : set_am a (set_am a' s) = set_am a s;
  set_am_am s : set_am (am s) s = s }.

(** The functions of the interfaces. They get the operations of the manager, which they may call, the pointer of
    the interface, and their arguments. *)
Record allocator_calls (S : Type) := mk_allocator_calls {
  mspace_alloc : allocman_ops S -> Z -> Z -> M S (Z * Z);
  mspace_free : allocman_ops S -> Z -> Z -> Z -> M S unit;
  cspace_alloc : allocman_ops S -> Z -> M S (cspacepath_t * Z);
  cspace_free : allocman_ops S -> Z -> cspacepath_t -> M S unit;
  utspace_alloc : allocman_ops S -> Z -> Z -> Z -> cspacepath_t -> M S (Z * Z);
  utspace_free : allocman_ops S -> Z -> Z -> Z -> M S unit;
  utspace_add_uts : allocman_ops S -> Z -> list (cspacepath_t * Z * Z) -> M S Z }.
Arguments mspace_alloc {S}. Arguments mspace_free {S}. Arguments cspace_alloc {S}. Arguments cspace_free {S}.
Arguments utspace_alloc {S}. Arguments utspace_free {S}. Arguments utspace_add_uts {S}.

(** The operations of the manager that it calls itself: those of [allocman_ops], with the flag of the internal
    functions that says whether the reserves may be used, values before error codes. *)
Record internal (S : Type) := mk_internal {
  _allocman_mspace_alloc : Z -> bool -> M S (Z * Z);
  _allocman_cspace_alloc : bool -> M S (cspacepath_t * Z);
  _allocman_utspace_alloc : Z -> Z -> cspacepath_t -> bool -> M S (Z * Z);
  _allocman_mspace_free : Z -> Z -> M S unit;
  _allocman_cspace_free : cspacepath_t -> M S unit;
  _allocman_utspace_free : Z -> Z -> M S unit }.
Arguments _allocman_mspace_alloc {S}. Arguments _allocman_cspace_alloc {S}. Arguments _allocman_utspace_alloc {S}.
Arguments _allocman_mspace_free {S}. Arguments _allocman_cspace_free {S}. Arguments _allocman_utspace_free {S}.

(** ** The operations *)
Section manager.
Context {S : Type} `{!Managed S}.
Implicit Types (a : allocman) (R : internal S).
(** The interfaces, the kernel's operation that moves a capability, what a slot that was not allocated holds, and
    a bound for the loops that work off the queues *)
Context (calls : allocator_calls S) (seL4_CNode_Move : Z -> Z -> Z -> Z -> Z -> Z -> M S Z) (uninit : cspacepath_t) (rounds : nat).

Definition get_am : M S allocman := gets am.
Definition mod_am (f : allocman -> allocman) : M S unit := modify (fun s => set_am (f (am s)) s).
Definition mod_space (x : space) (f : space_state -> space_state) : M S unit :=
  mod_am (fun a => set_space x (f (get_space x a)) a).
(** Storing an element at the count and increasing it; taking the last element off. Outside the memory of the
    array this is undefined. *)
Definition push {A} (read : allocman -> stack A) (write : stack A -> allocman -> allocman) (v : A) : M S unit :=
  let* a := get_am in
  let k := read a in
  if count k <? k.(room) then mod_am (write (set_items (k.(items) ++ [v]) k)) else halt_with Undefined.
Definition pop {A} (read : allocman -> stack A) (write : stack A -> allocman -> allocman) : M S A :=
  let* a := get_am in
  let k := read a in
  let* v := of_option (last k.(items)) in
  mod_am (write (set_items (removelast k.(items)) k)) ;;; ret v.

(** How the manager passes itself to the allocators *)
Definition ops_of R : allocman_ops S := {|
  allocman_mspace_alloc size := R.(_allocman_mspace_alloc) size true;
  allocman_mspace_free := R.(_allocman_mspace_free);
  allocman_cspace_alloc := let* r := R.(_allocman_cspace_alloc) true in ret (r.2, r.1);
  allocman_cspace_free := R.(_allocman_cspace_free);
  allocman_utspace_alloc size_bits type path := R.(_allocman_utspace_alloc) size_bits type path true;
  allocman_utspace_free := R.(_allocman_utspace_free) |}.

(** [R] is what a function calls of the manager itself. *)
Definition _start_operation : M S bool :=
  let* a := get_am in
  mod_am (upd_in_operation true) ;;; ret (negb a.(in_operation)).

(** A full queue fails an assertion. (A build without assertions returns and leaks the resource.) *)
Definition allocman_cspace_queue_for_free (path : cspacepath_t) : M S unit :=
  let* a := get_am in
  if count a.(freed_slots) =? a.(desired_freed_slots) then halt_with (Overflow (count a.(freed_slots)) a.(desired_freed_slots))
  else push freed_slots upd_freed_slots path.
Definition allocman_mspace_queue_for_free (ptr bytes : Z) : M S unit :=
  let* a := get_am in
  if count a.(freed_mspace_chunks) =? a.(desired_freed_mspace_chunks) then halt_with (Overflow (count a.(freed_mspace_chunks)) a.(desired_freed_mspace_chunks))
  else push freed_mspace_chunks upd_freed_mspace_chunks (ptr, bytes).
Definition allocman_utspace_queue_for_free (cookie size_bits : Z) : M S unit :=
  let* a := get_am in
  if count a.(freed_utspace_chunks) =? a.(desired_freed_utspace_chunks) then halt_with (Overflow (count a.(freed_utspace_chunks)) a.(desired_freed_utspace_chunks))
  else push freed_utspace_chunks upd_freed_utspace_chunks (size_bits, cookie).

(** *** The reserves *)
Definition _try_watermark_cspace : M S (cspacepath_t * Z) :=
  let* a := get_am in
  if count a.(cspace_slots) =? 0 then ret (uninit, 1)
  else
    mod_am (upd_used_watermark true) ;;;
    let* slot := pop cspace_slots upd_cspace_slots in ret (slot, 0).

(** The loops look for the first reserve of the kind that is not empty. *)
Fixpoint find_reserve {K V} (p : K -> bool) (l : list (reserve K V)) (i : nat) : option nat :=
  match l with
  | [] => None
  | r :: l => if p r.(kind) && (count r.(chunks) >? 0) then Some i else find_reserve p l (Datatypes.S i)
  end.
Definition reserve_chunks {K V} (read : allocman -> list (reserve K V)) (i : nat) (a : allocman) : stack V :=
  match read a !! i with Some r => r.(chunks) | None => no_stack end.
Definition upd_reserve_chunks {K V} (read : allocman -> list (reserve K V)) (write : list (reserve K V) -> allocman -> allocman)
    (i : nat) (v : stack V) (a : allocman) : allocman := write (alter (upd_chunks v) i (read a)) a.

Definition _try_watermark_mspace (size : Z) : M S (Z * Z) :=
  let* a := get_am in
  match find_reserve (fun k => k =? size) a.(mspace_reserves) 0 with
  | None => ret (NULL, 1)
  | Some i =>
      let* v := pop (reserve_chunks mspace_reserves i) (upd_reserve_chunks mspace_reserves upd_mspace_reserves i) in
      mod_am (upd_used_watermark true) ;;; ret (v, 0)
  end.

(** libsel4vka/include/vka/capops.h *)
Definition vka_cnode_move (dest src : cspacepath_t) : M S Z :=
  seL4_CNode_Move dest.(root) dest.(capPtr) dest.(capDepth) src.(root) src.(capPtr) src.(capDepth).

Definition _try_watermark_utspace R (size_bits type : Z) (path : cspacepath_t) : M S (Z * Z) :=
  let* a := get_am in
  match find_reserve (fun k => (k.1 =? size_bits) && (k.2 =? type)) a.(utspace_reserves) 0 with
  | None => ret (0, 1)
  | Some i =>
      let* result := of_option (last (reserve_chunks utspace_reserves i a).(items)) in
      let* error := vka_cnode_move path result.2 in
      if negb (error =? 0) then ret (0, 1)
      else
        mod_am (upd_used_watermark true) ;;;
        pop (reserve_chunks utspace_reserves i) (upd_reserve_chunks utspace_reserves upd_utspace_reserves i) ;;;
        R.(_allocman_cspace_free) result.2 ;;;
        ret (result.1, 0)
  end.

(** *** Refilling them *)
(** [while (num > 0)], taking off an element and freeing it; the result is [did_allocation]. *)
Fixpoint drain {A} (fuel : nat) (read : allocman -> stack A) (write : stack A -> allocman -> allocman)
    (free : A -> M S unit) : M S bool :=
  match fuel with
  | O => halt_with NoFuel
  | Datatypes.S fuel' =>
      let* a := get_am in
      if count (read a) >? 0 then
        let* v := pop read write in
        free v ;;; drain fuel' read write free ;;; ret true
      else ret false
  end.
(** [for (i = 0; i < num; i++)] with a body that returns [found_empty_pool] and [did_allocation] *)
Fixpoint refill_loop (fuel : nat) (i : nat) (num : allocman -> nat) (f : nat -> M S (bool * bool)) : M S (bool * bool) :=
  match fuel with
  | O => halt_with NoFuel
  | Datatypes.S fuel' =>
      let* a := get_am in
      if (i <? num a)%nat then
        let* r := f i in
        let* r' := refill_loop fuel' (Datatypes.S i) num f in ret (r.1 || r'.1, r.2 || r'.2)
      else ret (false, false)
  end.

Definition refill_cspace R : M S (bool * bool) :=
  let* a := get_am in
  if count a.(cspace_slots) <? a.(desired_cspace_slots) then
    let* r := R.(_allocman_cspace_alloc) false in
    let '(slot, error) := r in
    if error =? 0 then push cspace_slots upd_cspace_slots slot ;;; ret (true, true) else ret (true, false)
  else ret (false, false).
Definition refill_utspace R (i : nat) : M S (bool * bool) :=
  let* a := get_am in
  let* r := of_option (a.(utspace_reserves) !! i) in
  if count r.(chunks) <? r.(desired) then
    let* s := R.(_allocman_cspace_alloc) true in
    let '(slot, error) := s in
    if error =? 0 then
      let* u := R.(_allocman_utspace_alloc) r.(kind).1 r.(kind).2 slot false in
      let '(cookie, error) := u in
      if error =? 0 then
        push (reserve_chunks utspace_reserves i) (upd_reserve_chunks utspace_reserves upd_utspace_reserves i) (cookie, slot) ;;;
        ret (true, true)
      else R.(_allocman_cspace_free) slot ;;; ret (true, false)
    else ret (true, false)
  else ret (false, false).
Definition refill_mspace R (i : nat) : M S (bool * bool) :=
  let* a := get_am in
  let* r := of_option (a.(mspace_reserves) !! i) in
  if count r.(chunks) <? r.(desired) then
    let* p := R.(_allocman_mspace_alloc) r.(kind) false in
    let '(result, error) := p in
    if error =? 0 then
      push (reserve_chunks mspace_reserves i) (upd_reserve_chunks mspace_reserves upd_mspace_reserves i) result ;;;
      ret (true, true)
    else ret (true, false)
  else ret (false, false).
(** One round of the loop of [_refill_watermark] *)
Definition refill_round R : M S (bool * bool) :=
  let* d1 := drain rounds freed_slots upd_freed_slots R.(_allocman_cspace_free) in
  let* d2 := drain rounds freed_mspace_chunks upd_freed_mspace_chunks (fun c => R.(_allocman_mspace_free) c.1 c.2) in
  let* d3 := drain rounds freed_utspace_chunks upd_freed_utspace_chunks (fun c => R.(_allocman_utspace_free) c.2 c.1) in
  let* r1 := refill_cspace R in
  let* a := get_am in
  let* r2 := refill_loop (Datatypes.S (length a.(utspace_reserves))) 0 (fun a => length a.(utspace_reserves)) (refill_utspace R) in
  let* a := get_am in
  let* r3 := refill_loop (Datatypes.S (length a.(mspace_reserves))) 0 (fun a => length a.(mspace_reserves)) (refill_mspace R) in
  ret (r1.1 || r2.1 || r3.1, d1 || d2 || d3 || r1.2 || r2.2 || r3.2).
(** [n] more rounds are allowed after this one. *)
Fixpoint refill_rounds R (n : nat) : M S bool :=
  let* r := refill_round R in
  match n with
  | O => ret r.1
  | Datatypes.S n' => if r.1 && r.2 then refill_rounds R n' else ret r.1
  end.
Definition _refill_watermark R : M S bool :=
  let* a := get_am in
  if a.(refilling_watermark) || negb a.(used_watermark) then ret false
  else
    mod_am (upd_refilling_watermark true) ;;;
    let* found_empty_pool := refill_rounds R 3 in
    mod_am (upd_refilling_watermark false) ;;;
    when (negb found_empty_pool) (mod_am (upd_used_watermark false)) ;;;
    ret found_empty_pool.
Definition _end_operation R (root : bool) : M S unit :=
  mod_am (upd_in_operation (negb root)) ;;;
  when root (let* _ := _refill_watermark R in ret tt).

(** *** Allocating and freeing *)
(** The macro ALLOCMAN_FREE *)
Definition ALLOCMAN_FREE R (x : space) (queue_for_free free : M S unit) : M S unit :=
  let* a := get_am in
  assert (get_space x a).(have) ;;;
  if negb (_can_free (get_space x a)) then queue_for_free
  else
    let* root := _start_operation in
    mod_space x (fun c => upd_free_depth (c.(free_depth) +w 1) c) ;;;
    free ;;;
    mod_space x (fun c => upd_free_depth (c.(free_depth) -w 1) c) ;;;
    _end_operation R root.

(** The functions [_allocman_mspace_alloc], [_allocman_cspace_alloc] and [_allocman_utspace_alloc] differ in the
    types and in what they return with an error, [none]. *)
Definition _allocman_alloc {V} R (x : space) (none : V) (alloc try_watermark : M S (V * Z)) (use_watermark : bool) : M S (V * Z) :=
  let* a := get_am in
  if negb (get_space x a).(have) then ret (none, 1)
  else if negb (_can_alloc (get_space x a)) then
    if use_watermark then try_watermark else ret (none, 1)
  else
    let* root_op := _start_operation in
    mod_space x (fun c => upd_alloc_depth (c.(alloc_depth) +w 1) c) ;;;
    let* r := alloc in
    mod_space x (fun c => upd_alloc_depth (c.(alloc_depth) -w 1) c) ;;;
    let '(v, error) := r in
    if error =? 0 then _end_operation R root_op ;;; ret (v, 0)
    else if use_watermark then
      let* r := try_watermark in
      _end_operation R root_op ;;; ret r
    else _end_operation R root_op ;;; ret (none, 1).

(** The pointer that the interface of [x] gets *)
Definition with_space {B} (x : space) (f : Z -> M S B) : M S B :=
  let* a := get_am in f (get_space x a).(interface).(space_ptr).

(** The manager's functions, calling [R] *)
Definition manager R : internal S :=
  let A := ops_of R in {|
  _allocman_mspace_alloc size := _allocman_alloc R Mspace NULL
    (with_space Mspace (fun p => calls.(mspace_alloc) A p size)) (_try_watermark_mspace size);
  _allocman_cspace_alloc := _allocman_alloc R Cspace uninit
    (with_space Cspace (fun p => calls.(cspace_alloc) A p)) _try_watermark_cspace;
  _allocman_utspace_alloc size_bits type path := _allocman_alloc R Utspace 0
    (with_space Utspace (fun p => calls.(utspace_alloc) A p size_bits type path)) (_try_watermark_utspace R size_bits type path);
  _allocman_mspace_free ptr bytes := ALLOCMAN_FREE R Mspace (allocman_mspace_queue_for_free ptr bytes)
    (with_space Mspace (fun p => calls.(mspace_free) A p ptr bytes));
  _allocman_cspace_free path := ALLOCMAN_FREE R Cspace (allocman_cspace_queue_for_free path)
    (with_space Cspace (fun p => calls.(cspace_free) A p path));
  _allocman_utspace_free cookie size_bits := ALLOCMAN_FREE R Utspace (allocman_utspace_queue_for_free cookie size_bits)
    (with_space Utspace (fun p => calls.(utspace_free) A p cookie size_bits)) |}.
(** Calls nested [depth] deep *)
Definition too_deep : internal S := mk_internal S (fun _ _ => halt_with NoFuel) (fun _ => halt_with NoFuel)
  (fun _ _ _ _ => halt_with NoFuel) (fun _ _ => halt_with NoFuel) (fun _ => halt_with NoFuel) (fun _ _ => halt_with NoFuel).
Fixpoint nested (depth : nat) : internal S :=
  match depth with O => too_deep | Datatypes.S depth' => manager (nested depth') end.
End manager.

(** ** Setting up a manager

    [R] is the manager's own operations, as the other functions call them. *)
Definition no_space : space_state := mk_space_state false (mk_interface allocman_default_properties NULL) 0 0.
Section setup.
Context {S : Type} `{!Managed S}.
Implicit Types (a : allocman).
Context (calls : allocator_calls S) (rounds : nat) (R : internal S).

Definition allocman_create (interface : space_interface) : M S Z :=
  mod_am (fun _ => mk_allocman (mk_space_state true interface 0 0) no_space no_space false false false
    0 no_stack 0 no_stack 0 no_stack 0 no_stack (NULL, NULL, NULL) [] (NULL, NULL, NULL) []) ;;;
  ret 0.

Definition allocman_fill_reserves : M S bool :=
  let* root := _start_operation in
  mod_am (upd_used_watermark true) ;;;
  let* full := _refill_watermark rounds R in
  _end_operation rounds R root ;;; ret full.

(** The macro ALLOCMAN_ATTACH *)
Definition ALLOCMAN_ATTACH (x : space) (i : space_interface) : M S Z :=
  let* root := _start_operation in
  assert root ;;;
  let* a := get_am in
  if (get_space x a).(have) then ret 1
  else
    mod_space x (fun c => upd_have true (upd_interface i c)) ;;;
    _end_operation rounds R root ;;; ret 0.
Definition allocman_attach_utspace : space_interface -> M S Z := ALLOCMAN_ATTACH Utspace.
Definition allocman_attach_cspace : space_interface -> M S Z := ALLOCMAN_ATTACH Cspace.

(** How many elements of a size fit the memory asked for, which is computed in 32 bits *)
Definition room_for (item_size num : Z) : Z := (item_size *w num) / item_size.

(** [array] and [count] are in the stack that [read] selects, [size] is the number desired. The elements are
    copied before the old array is freed; the count is the one after that. *)
Definition resize_array {A} (num item_size : Z) (read : allocman -> stack A) (write : stack A -> allocman -> allocman)
    (size : allocman -> Z) (set_size : Z -> allocman -> allocman) : M S Z :=
  let* root := _start_operation in
  assert root ;;;
  let* r := R.(_allocman_mspace_alloc) (item_size *w num) true in
  let '(new_array, error) := r in
  if negb (error =? 0) then ret error
  else
    let* a := get_am in
    if num <? count (read a) then ret (-1)
    else
      let copied := if (read a).(array) =? NULL then [] else (read a).(items) in
      when (negb ((read a).(array) =? NULL))
        (R.(_allocman_mspace_free) (read a).(array) (item_size *w size a)) ;;;
      let* a := get_am in
      (if count (read a) >? Z.of_nat (length copied) then halt_with Undefined
       else mod_am (fun a => write (mk_stack new_array (room_for item_size num) (take (Z.to_nat (count (read a))) copied))
              (set_size num a))) ;;;
      mod_am (upd_used_watermark true) ;;;
      _end_operation rounds R root ;;; ret error.
Definition allocman_configure_cspace_reserve (num : Z) : M S Z :=
  resize_array num sizeof_cspacepath cspace_slots upd_cspace_slots desired_cspace_slots upd_desired_cspace_slots.
Definition allocman_configure_max_freed_slots (num : Z) : M S Z :=
  resize_array num sizeof_cspacepath freed_slots upd_freed_slots desired_freed_slots upd_desired_freed_slots.
Definition allocman_configure_max_freed_memory_chunks (num : Z) : M S Z :=
  resize_array num sizeof_freed_chunk freed_mspace_chunks upd_freed_mspace_chunks
    desired_freed_mspace_chunks upd_desired_freed_mspace_chunks.
Definition allocman_configure_max_freed_untyped_chunks (num : Z) : M S Z :=
  resize_array num sizeof_freed_chunk freed_utspace_chunks upd_freed_utspace_chunks
    desired_freed_utspace_chunks upd_desired_freed_utspace_chunks.

(** The functions that add a reserve differ in the kind of request and the sizes of the structures. [same] compares
    kinds, [arrays] are the addresses of the three arrays. *)
Definition configure_reserve {K V} (same : K -> K -> bool) (sizeof_chunk sizeof_item : Z)
    (read : allocman -> list (reserve K V)) (write : list (reserve K V) -> allocman -> allocman)
    (arrays : allocman -> Z * Z * Z) (set_arrays : Z * Z * Z -> allocman -> allocman) (k : K) (num : Z) : M S Z :=
  let alloc_array size := let* a := get_am in
    R.(_allocman_mspace_alloc) (size *w (Z.of_nat (length (read a)) +w 1)) true in
  let free_array p size := let* a := get_am in
    R.(_allocman_mspace_free) p (size *w (Z.of_nat (length (read a)) +w 1)) in
  let free_old p size := let* a := get_am in
    R.(_allocman_mspace_free) (p (arrays a)) (size *w Z.of_nat (length (read a))) in
  let* root := _start_operation in
  let* a := get_am in
  if existsb (fun r => same r.(kind) k) (read a) then ret 1
  else
    let* r := alloc_array sizeof_chunk in
    let '(new_chunk, error) := r in
    if negb (error =? 0) then ret error
    else
      let* r := alloc_array sizeof_word in
      let '(new_counts, error) := r in
      if negb (error =? 0) then free_array new_chunk sizeof_chunk ;;; ret error
      else
        let* r := alloc_array sizeof_word in
        let '(new_chunks, error) := r in
        if negb (error =? 0) then
          free_array new_chunk sizeof_chunk ;;; free_array new_counts sizeof_word ;;; ret error
        else
          let* r := R.(_allocman_mspace_alloc) (sizeof_item *w num) true in
          let '(new_alloc, error) := r in
          if negb (error =? 0) then
            free_array new_chunk sizeof_chunk ;;; free_array new_counts sizeof_word ;;;
            free_array new_chunks sizeof_word ;;; ret error
          else
            let* a := get_am in
            let copy := read a in
            when (negb (Z.of_nat (length copy) =? 0))
              (free_old (fun p => p.1.1) sizeof_chunk ;;; free_old (fun p => p.1.2) sizeof_word ;;;
               free_old snd sizeof_word) ;;;
            mod_am (fun a => write (copy ++ [mk_reserve k num (mk_stack new_alloc (room_for sizeof_item num) [])])
              (set_arrays (new_chunk, new_counts, new_chunks) a)) ;;;
            mod_am (upd_used_watermark true) ;;;
            _end_operation rounds R root ;;; ret 0.
Definition allocman_configure_utspace_reserve (size_bits type num : Z) : M S Z :=
  configure_reserve (fun k k' => (k.1 =? k'.1) && (k.2 =? k'.2)) sizeof_utspace_chunk sizeof_utspace_allocation
    utspace_reserves upd_utspace_reserves utspace_arrays upd_utspace_arrays (size_bits, type) num.
Definition allocman_configure_mspace_reserve (size num : Z) : M S Z :=
  configure_reserve Z.eqb sizeof_mspace_chunk sizeof_word
    mspace_reserves upd_mspace_reserves mspace_arrays upd_mspace_arrays size num.

(** include/allocman/allocman.h *)
Definition allocman_utspace_add_uts (uts : list (cspacepath_t * Z * Z)) : M S Z :=
  let* a := get_am in
  assert a.(utspace).(have) ;;;
  let* error := calls.(utspace_add_uts) (ops_of R) a.(utspace).(interface).(space_ptr) uts in
  if negb (error =? 0) then ret error else let* _ := allocman_fill_reserves in ret 0.
End setup.

(** The manager that a program uses: calls nest at most nine deep. *)
Definition allocman_depth : nat := 9.
Section library.
Context {S : Type} `{!Managed S} (calls : allocator_calls S) (seL4_CNode_Move : Z -> Z -> Z -> Z -> Z -> Z -> M S Z).
Context (uninit : cspacepath_t) (rounds : nat).
Definition allocman_self : internal S := nested calls seL4_CNode_Move uninit rounds allocman_depth.
Definition allocman_library : allocman_ops S := ops_of allocman_self.
End library.
