(* ===== verification/AllocmanLedger.v ===== *)
(** * The allocation manager: accounts

    What the manager and the allocators hold as multisets of resources, the contract of an allocator, and how the accounts
    change when the manager moves a resource to or from one of its queues and reserves. *)
From stdpp Require Import base gmultiset list gmap.
From Stdlib Require Import ZArith Lia.
From S2P Require Import Prelude.
From S2P Require Import AllocBase.
From S2P Require Import Allocman.

(** ** Runs that may overflow a queue

    A queue that is full stops the manager. [wpf m Q s]: from [s], [m] returns in a state that
    satisfies [Q], or stops because a queue has as many elements as it may. No other assertion fails. *)
Definition wpf {S A} (m : M S A) (Q : A -> S -> Prop) (s : S) : Prop :=
  match m s with Ret a s' => Q a s' | Stop (Overflow n m) => m <= n | Stop _ => False end.
Section wpf.
Context {S : Type}.
Implicit Types s : S.
Lemma wpf_wp {A} (m : M S A) Q s : wp m Q s -> wpf m Q s.
Proof. unfold wp, wpf. by destruct (m s). Qed.
Lemma wpf_ret {A} (a : A) Q s : Q a s -> wpf (ret a) Q s.
Proof. done. Qed.
Lemma wpf_bind {A B} (m : M S A) (k : A -> M S B) Q s : wpf m (fun a => wpf (k a) Q) s -> wpf (bind m k) Q s.
Proof. unfold wpf, bind. by destruct (m s). Qed.
Lemma wpf_mono {A} (m : M S A) (P Q : A -> S -> Prop) s : wpf m P s -> (forall a s', P a s' -> Q a s') -> wpf m Q s.
Proof. unfold wpf. destruct (m s) as [|[]]; naive_solver. Qed.
Lemma wpf_modify (f : S -> S) (Q : unit -> S -> Prop) s : Q tt (f s) -> wpf (modify f) Q s.
Proof. done. Qed.
Lemma wpf_assert (b : bool) (Q : unit -> S -> Prop) s : b = true -> Q tt s -> wpf (assert b) Q s.
Proof. by intros ->. Qed.
Lemma wpf_overflow {A} n k (Q : A -> S -> Prop) s : k <= n -> wpf (halt_with (Overflow n k)) Q s.
Proof. done. Qed.
Lemma wpf_of_option {A} (o : option A) (a : A) Q s : o = Some a -> Q a s -> wpf (of_option o) Q s.
Proof. by intros ->. Qed.
Context `{!Managed S}.
Lemma wpf_get_am (Q : allocman -> S -> Prop) s : Q (am s) s -> wpf get_am Q s.
Proof. done. Qed.
Lemma wpf_mod_am f (Q : unit -> S -> Prop) s : Q tt (set_am (f (am s)) s) -> wpf (mod_am f) Q s.
Proof. done. Qed.
End wpf.
Ltac fstep :=
  lazymatch goal with
  | |- wpf (bind _ _) _ _ => apply wpf_bind
  | |- wpf (ret _) _ _ => apply wpf_ret
  | |- wpf get_am _ _ => apply wpf_get_am
  | |- wpf (mod_am _) _ _ => apply wpf_mod_am
  | |- wpf (mod_space _ _) _ _ => apply wpf_mod_am
  end; rewrite ?am_set_am, ?set_am_set_am.

(** ** What the manager deals with *)
Inductive resource := RBlock (p size : Z) | RSlot (path : cspacepath_t) | RObject (cookie size_bits : Z).
#[export] Instance resource_eq_dec : EqDecision resource.
Proof. solve_decision. Defined.
#[export] Instance cspacepath_countable : Countable cspacepath_t.
Proof.
  refine (inj_countable' (fun p => (capPtr p, capDepth p, root p, dest p, destDepth p, offset p, window p))
    (fun x => let '(a, b, c, d, e, f, g) := x in mk_cspacepath a b c d e f g) _). by intros [].
Defined.
#[export] Instance resource_countable : Countable resource.
Proof.
  refine (inj_countable' (fun r => match r with RBlock p z => inl (p, z) | RSlot p => inr (inl p) | RObject c z => inr (inr (c, z)) end)
    (fun x => match x with inl (p, z) => RBlock p z | inr (inl p) => RSlot p | inr (inr (c, z)) => RObject c z end) _). by intros [].
Defined.
Definition freed_block (c : Z * Z) : resource := RBlock c.1 c.2.
Definition freed_object (c : Z * Z) : resource := RObject c.2 c.1.
Definition reserved_blocks (r : reserve Z Z) : list resource := (fun p => RBlock p r.(kind)) <$> r.(chunks).(items).
Definition reserved_objects (r : reserve (Z * Z) (Z * cspacepath_t)) : list resource :=
  r.(chunks).(items) ≫= fun c => [RObject c.1 r.(kind).1; RSlot c.2].
(** The resources in the queues and the reserves *)
Definition in_manager_list (a : allocman) : list resource :=
  (RSlot <$> a.(cspace_slots).(items)) ++ (RSlot <$> a.(freed_slots).(items)) ++
  (freed_block <$> a.(freed_mspace_chunks).(items)) ++ (freed_object <$> a.(freed_utspace_chunks).(items)) ++
  (a.(mspace_reserves) ≫= reserved_blocks) ++ (a.(utspace_reserves) ≫= reserved_objects).
Definition in_manager (a : allocman) : gmultiset resource := list_to_set_disj (in_manager_list a).

Definition busy (x : space) (a : allocman) : bool := (get_space x a).(alloc_depth) + (get_space x a).(free_depth) >? 0.
Definition idle (a : allocman) : nat := length (List.filter (fun x => negb (busy x a)) [Mspace; Cspace; Utspace]).

(** A manager without the contents of its queues and reserves *)
Definition empty_reserve {K V} (r : reserve K V) : reserve K V := upd_chunks (set_items [] r.(chunks)) r.
Definition skeleton (a : allocman) : allocman :=
  mk_allocman a.(mspace) a.(cspace) a.(utspace) a.(in_operation) a.(refilling_watermark) false
    a.(desired_freed_slots) (set_items [] a.(freed_slots)) a.(desired_freed_mspace_chunks) (set_items [] a.(freed_mspace_chunks))
    a.(desired_freed_utspace_chunks) (set_items [] a.(freed_utspace_chunks)) a.(desired_cspace_slots)
    (set_items [] a.(cspace_slots)) a.(mspace_arrays) (empty_reserve <$> a.(mspace_reserves))
    a.(utspace_arrays) (empty_reserve <$> a.(utspace_reserves)).
(** [a'] has the configuration of [a] and no more in its reserves. *)
Record within (a a' : allocman) : Prop := {
  wi_skeleton : skeleton a' = skeleton a;
  wi_cspace : count a'.(cspace_slots) <= count a.(cspace_slots);
  wi_mspace : forall i, count (reserve_chunks mspace_reserves i a') <= count (reserve_chunks mspace_reserves i a);
  wi_utspace : forall i, count (reserve_chunks utspace_reserves i a') <= count (reserve_chunks utspace_reserves i a) }.

Definition space_state_ok (c : space_state) : Prop :=
  c.(have) = true /\ c.(interface).(properties) = allocman_default_properties /\ 0 <= c.(alloc_depth) <= 1 /\ 0 <= c.(free_depth) <= 1.
Definition reserve_ok {K V} (r : reserve K V) : Prop := r.(desired) <= r.(chunks).(room).
(** The arrays have room for what is desired, the queues are within it, and the three allocators are attached and have
    the default properties: none of them is entered while it runs. *)
Record manager_ok (a : allocman) : Prop := {
  mo_spaces : forall x, space_state_ok (get_space x a);
  mo_slots : count a.(freed_slots) <= a.(desired_freed_slots) <= a.(freed_slots).(room);
  mo_blocks : count a.(freed_mspace_chunks) <= a.(desired_freed_mspace_chunks) <= a.(freed_mspace_chunks).(room);
  mo_objects : count a.(freed_utspace_chunks) <= a.(desired_freed_utspace_chunks) <= a.(freed_utspace_chunks).(room);
  mo_cspace : a.(desired_cspace_slots) <= a.(cspace_slots).(room);
  mo_mspace : Forall reserve_ok a.(mspace_reserves);
  mo_utspace : Forall reserve_ok a.(utspace_reserves) }.

(** ** What is promised of the allocators

    A ledger reads off a state, for each allocator, its own state, the resources it has given out and not got back,
    and the resources of other allocators that it uses itself; [ready] says that no operation of it is under way. *)
Record ledger (S : Type) := mk_ledger {
  ledger_state : Type;
  st : space -> S -> ledger_state;
  given : space -> ledger_state -> gmultiset resource;
  own : space -> ledger_state -> gmultiset resource;
  ready : space -> ledger_state -> Prop }.
Arguments st {S}. Arguments given {S}. Arguments own {S}. Arguments ready {S}.

Section contract.
Context {S : Type} `{!Managed S} (L : ledger S).
Implicit Types (a : allocman) (C : gmultiset resource).
Definition all_given (s : S) : gmultiset resource :=
  L.(given) Mspace (L.(st) Mspace s) ⊎ L.(given) Cspace (L.(st) Cspace s) ⊎ L.(given) Utspace (L.(st) Utspace s).
Definition idle_own1 (x : space) (s : S) : gmultiset resource := if busy x (am s) then ∅ else L.(own) x (L.(st) x s).
Definition idle_own (s : S) : gmultiset resource := idle_own1 Mspace s ⊎ idle_own1 Cspace s ⊎ idle_own1 Utspace s.
(** Besides the manager and the allocators that do not run, the resources [C] are in use; every resource that was
    given out is in exactly one place. *)
Record accounts (s : S) (C : gmultiset resource) : Prop := {
  ac_manager : manager_ok (am s);
  ac_ready : forall x, busy x (am s) = false -> L.(ready) x (L.(st) x s);
  ac_given : C ⊎ in_manager (am s) ⊎ idle_own s = all_given s }.
Definition stock (s : S) : nat := size (in_manager (am s)) + size (idle_own s).
(** What no operation changes while an operation is in progress *)
Definition undisturbed (s s' : S) : Prop :=
  within (am s) (am s') /\ forall x, busy x (am s) = true -> L.(st) x s' = L.(st) x s.
(** An operation is in progress, so the reserves are not refilled. *)
Definition quiet a : Prop := a.(in_operation) = true \/ a.(refilling_watermark) = true.

Definition alloc_spec (k : nat) {V} (r : V -> resource) (m : M S (V * Z)) : Prop := forall s C,
  quiet (am s) -> (idle (am s) <= k)%nat -> accounts s C ->
  wpf m (fun v s' => undisturbed s s' /\ accounts s' (if v.2 =? 0 then {[+ r v.1 +]} ⊎ C else C)) s.
Definition free_spec (k : nat) (x : space) (r : resource) (m : M S unit) : Prop := forall s C,
  quiet (am s) -> (idle (am s) <= k)%nat -> accounts s ({[+ r +]} ⊎ C) ->
  wpf m (fun _ s' => undisturbed s s' /\ accounts s' C /\ (stock s' <= stock s + if busy x (am s) then 1 else 0)%nat) s.
(** The operations an allocator may call, with at most [k] others that do not run *)
Record ops_ok (k : nat) (A : allocman_ops S) : Prop := {
  oo_mspace_alloc size : alloc_spec k (fun p => RBlock p size) (A.(allocman_mspace_alloc) size);
  oo_cspace_alloc : alloc_spec k RSlot (let* r := A.(allocman_cspace_alloc) in ret (r.2, r.1));
  oo_utspace_alloc size_bits type path : alloc_spec k (fun c => RObject c size_bits) (A.(allocman_utspace_alloc) size_bits type path);
  oo_mspace_free p size : free_spec k Mspace (RBlock p size) (A.(allocman_mspace_free) p size);
  oo_cspace_free path : free_spec k Cspace (RSlot path) (A.(allocman_cspace_free) path);
  oo_utspace_free cookie size_bits : free_spec k Utspace (RObject cookie size_bits) (A.(allocman_utspace_free) cookie size_bits) }.

(** The contract of a function of the interface [x]: called with any such operations while nothing else of [x] is
    running, it returns with the allocator ready again and has given out [r] or taken it back. Freeing
    only frees. *)
Definition alloc_iface (x : space) {V} (r : V -> resource) (f : allocman_ops S -> M S (V * Z)) : Prop := forall A k s C,
  ops_ok k A -> quiet (am s) -> (idle (am s) <= k)%nat -> busy x (am s) = true -> L.(ready) x (L.(st) x s) ->
  accounts s (C ⊎ L.(own) x (L.(st) x s)) ->
  wpf (f A) (fun v s' => within (am s) (am s') /\ (forall y, y <> x -> busy y (am s) = true -> L.(st) y s' = L.(st) y s) /\
    L.(ready) x (L.(st) x s') /\
    accounts s' ((if v.2 =? 0 then {[+ r v.1 +]} ⊎ C else C) ⊎ L.(own) x (L.(st) x s'))) s.
Definition free_iface (x : space) (r : resource) (f : allocman_ops S -> M S unit) : Prop := forall A k s C,
  ops_ok k A -> quiet (am s) -> (idle (am s) <= k)%nat -> busy x (am s) = true -> L.(ready) x (L.(st) x s) ->
  accounts s ({[+ r +]} ⊎ C ⊎ L.(own) x (L.(st) x s)) ->
  wpf (f A) (fun _ s' => within (am s) (am s') /\ (forall y, y <> x -> busy y (am s) = true -> L.(st) y s' = L.(st) y s) /\
    L.(ready) x (L.(st) x s') /\ accounts s' (C ⊎ L.(own) x (L.(st) x s')) /\
    (stock s' + size (L.(own) x (L.(st) x s')) <= stock s + size (L.(own) x (L.(st) x s)))%nat) s.

(** An allocator's state is not part of the manager's. *)
Class Framed : Prop := { framed x a s : L.(st) x (set_am a s) = L.(st) x s }.
Class Allocators (calls : allocator_calls S) (seL4_CNode_Move : Z -> Z -> Z -> Z -> Z -> Z -> M S Z) (rounds : nat) : Prop := {
  allocators_framed :: Framed;
  mspace_alloc_ok p size : alloc_iface Mspace (fun v => RBlock v size) (fun A => calls.(mspace_alloc) A p size);
  cspace_alloc_ok p : alloc_iface Cspace RSlot (fun A => calls.(cspace_alloc) A p);
  utspace_alloc_ok p size_bits type path :
    alloc_iface Utspace (fun v => RObject v size_bits) (fun A => calls.(utspace_alloc) A p size_bits type path);
  mspace_free_ok p ptr size : free_iface Mspace (RBlock ptr size) (fun A => calls.(mspace_free) A p ptr size);
  cspace_free_ok p path : free_iface Cspace (RSlot path) (fun A => calls.(cspace_free) A p path);
  utspace_free_ok p cookie size_bits : free_iface Utspace (RObject cookie size_bits) (fun A => calls.(utspace_free) A p cookie size_bits);
  (** The kernel's operation is none of theirs. *)
  move_ok r1 p1 d1 r2 p2 d2 s : wp (seL4_CNode_Move r1 p1 d1 r2 p2 d2) (fun _ s' => am s' = am s /\ forall x, L.(st) x s' = L.(st) x s) s;
  (** No block and no slot is given out twice. *)
  given_once s r : (forall x, L.(ready) x (L.(st) x s)) -> (if r is RObject _ _ then False else True) ->
    (multiplicity r (all_given s) <= 1)%nat;
  (** There are not more resources than the loops over the queues may take rounds. *)
  given_bound s : (forall x, L.(ready) x (L.(st) x s)) -> (size (all_given s) < rounds)%nat }.
End contract.

(** ** The manager's own state *)
#[export] Instance space_eq_dec : EqDecision space.
Proof. solve_decision. Defined.
Section state.
Implicit Types (a : allocman).
Lemma removelast_last {A} (l : list A) v : last l = Some v -> l = removelast l ++ [v].
Proof. intros E. apply last_Some in E as [l' ->]. by rewrite removelast_last. Qed.
Lemma within_refl a : within a a.
Proof. by split. Qed.
Lemma within_trans a1 a2 a3 : within a1 a2 -> within a2 a3 -> within a1 a3.
Proof. intros [E1 C1 M1 U1] [E2 C2 M2 U2]. split; [congruence|lia|intros i; specialize (M1 i); specialize (M2 i); lia|intros i; specialize (U1 i); specialize (U2 i); lia]. Qed.
Lemma get_space_skeleton x a : get_space x (skeleton a) = get_space x a.
Proof. by destruct x. Qed.
Lemma within_space x a a' : within a a' -> get_space x a' = get_space x a.
Proof. intros [E _ _ _]. apply (f_equal (get_space x)) in E. by rewrite !get_space_skeleton in E. Qed.
Lemma within_busy x a a' : within a a' -> busy x a' = busy x a.
Proof. intros W. unfold busy. by rewrite (within_space x a a'). Qed.
Lemma within_idle a a' : within a a' -> idle a' = idle a.
Proof. intros W. unfold idle. cbn [List.filter]. by rewrite !(within_busy _ _ _ W). Qed.
Lemma within_flags a a' : within a a' -> in_operation a' = in_operation a /\ refilling_watermark a' = refilling_watermark a.
Proof. intros [E _ _ _]. split; [apply (f_equal in_operation) in E|apply (f_equal refilling_watermark) in E]; exact E. Qed.
Lemma within_quiet a a' : within a a' -> quiet a -> quiet a'.
Proof. intros [E1 E2]%within_flags. unfold quiet. by rewrite E1, E2. Qed.

Lemma get_set_space x y c a : get_space y (set_space x c a) = if decide (x = y) then c else get_space y a.
Proof. by destruct x, y. Qed.
Lemma in_manager_set_space x c a : in_manager (set_space x c a) = in_manager a.
Proof. by destruct x. Qed.

(** Only the kind, the number desired, and the memory of a reserve count for the skeleton. *)
Lemma skeleton_chunks {K V} (l l' : list (reserve K V)) : empty_reserve <$> l' = empty_reserve <$> l ->
  Forall reserve_ok l -> Forall reserve_ok l'.
Proof.
  revert l'. induction l as [|r l IH]; intros [|r' l']; cbn; [done..|]. intros [= _ Ed _ Er El] [Hr Hl]%Forall_cons. constructor; [|by apply IH].
  unfold reserve_ok in *. by rewrite Ed, Er.
Qed.
Lemma manager_ok_ext a a' : skeleton a' = skeleton a -> count a'.(freed_slots) = count a.(freed_slots) ->
  count a'.(freed_mspace_chunks) = count a.(freed_mspace_chunks) -> count a'.(freed_utspace_chunks) = count a.(freed_utspace_chunks) ->
  manager_ok a -> manager_ok a'.
Proof.
  intros E C1 C2 C3 [Hs H1 H2 H3 H4 H5 H6]. unfold skeleton, set_items in E. injection E as ? ? ? ? ? Ed1 ? Er1 Ed2 ? Er2 Ed3 ? Er3 Ed4 ? Er4 ? E5 ? E6.
  split; [|rewrite C1, Ed1, Er1; done|rewrite C2, Ed2, Er2; done|rewrite C3, Ed3, Er3; done|by rewrite Ed4, Er4|by eapply skeleton_chunks|by eapply skeleton_chunks].
  intros x. specialize (Hs x). by destruct x; cbn in *; congruence.
Qed.
End state.

(** Taking the last element off a reserve *)
Section reserves.
Context {K V : Type}.
Implicit Types (l : list (reserve K V)).
Lemma bind_alter (f : reserve K V -> list resource) l i r k : l !! i = Some r ->
  (alter (upd_chunks k) i l ≫= f) ++ f r ≡ₚ (l ≫= f) ++ f (upd_chunks k r).
Proof.
  intros Hi. assert (alter (upd_chunks k) i l = take i l ++ upd_chunks k r :: drop (Datatypes.S i) l) as ->.
  { rewrite <- (take_drop_middle l i r Hi) at 1. rewrite alter_app_r_alt by (rewrite length_take; lia).
    rewrite length_take, Nat.min_l by (apply lookup_lt_Some in Hi; lia). by rewrite Nat.sub_diag. }
  rewrite <- (take_drop_middle l i r Hi) at 3. rewrite !bind_app, !bind_cons. solve_Permutation.
Qed.
Lemma alter_same l i r : l !! i = Some r -> alter (upd_chunks (set_items r.(chunks).(items) r.(chunks))) i l = l.
Proof.
  intros Hi. apply list_eq. intros j. destruct (decide (i = j)) as [<-|Hn]; [|by rewrite list_lookup_alter_ne].
  rewrite list_lookup_alter_eq, Hi. cbn. by destruct r as [? ? []].
Qed.
Lemma alter_empty l i r k : l !! i = Some r -> k.(array) = r.(chunks).(array) -> k.(room) = r.(chunks).(room) ->
  empty_reserve <$> alter (upd_chunks k) i l = empty_reserve <$> l.
Proof.
  intros Hi Ea Er. apply list_eq. intros j. rewrite !list_lookup_fmap. destruct (decide (i = j)) as [<-|Hn].
  - rewrite list_lookup_alter_eq, Hi. cbn. unfold empty_reserve, upd_chunks, set_items. cbn. by rewrite Ea, Er.
  - by rewrite list_lookup_alter_ne.
Qed.
End reserves.

(** ** The places where the manager keeps resources: its queues and reserves *)
Record place {A} (valid : allocman -> Prop) (read : allocman -> stack A) (write : stack A -> allocman -> allocman)
    (res : allocman -> A -> list resource) : Prop := {
  pl_manager a l : valid a ->
    in_manager_list (write (set_items l (read a)) a) ++ ((read a).(items) ≫= res a) ≡ₚ in_manager_list a ++ (l ≫= res a);
  pl_same a : valid a -> write (set_items (read a).(items) (read a)) a = a;
  pl_skeleton a l : valid a -> skeleton (write (set_items l (read a)) a) = skeleton a;
  pl_fewer a l : valid a -> (length l <= length (read a).(items))%nat -> manager_ok a ->
    manager_ok (write (set_items l (read a)) a) /\ within a (write (set_items l (read a)) a) }.

Section places.
Implicit Types (a : allocman).
Lemma set_items_same {A} (k : stack A) : set_items k.(items) k = k.
Proof. by destruct k. Qed.
Lemma fmap_bind {A B} (f : A -> B) l : l ≫= (fun x => [f x]) = f <$> l.
Proof. induction l; [done|]. cbn. by f_equal. Qed.
Definition always (a : allocman) : Prop := True.
Ltac simple_place :=
  split;
  [intros a l _; unfold in_manager_list; cbn; rewrite !fmap_bind; solve_Permutation
  |intros a _; destruct a; cbn; by rewrite set_items_same
  |done
  |intros a l _ Hl [Hs H1 H2 H3 H4 H5 H6]; split; [split; cbn; unfold count in *; cbn; done || lia || (intros []; apply (Hs Mspace) || apply (Hs Cspace) || apply (Hs Utspace))
    |split; cbn; unfold count in *; cbn; done || lia]].
Lemma cspace_slots_place : place always cspace_slots upd_cspace_slots (fun _ v => [RSlot v]).
Proof. simple_place. Qed.
Lemma freed_slots_place : place always freed_slots upd_freed_slots (fun _ v => [RSlot v]).
Proof. simple_place. Qed.
Lemma freed_blocks_place : place always freed_mspace_chunks upd_freed_mspace_chunks (fun _ v => [freed_block v]).
Proof. simple_place. Qed.
Lemma freed_objects_place : place always freed_utspace_chunks upd_freed_utspace_chunks (fun _ v => [freed_object v]).
Proof. simple_place. Qed.

(** The reserve [i] *)
Definition has_reserve {K V} (reserves : allocman -> list (reserve K V)) (i : nat) (a : allocman) : Prop := is_Some (reserves a !! i).
Definition block_of (i : nat) a (p : Z) : list resource :=
  match a.(mspace_reserves) !! i with Some r => [RBlock p r.(kind)] | None => [] end.
Definition object_of (i : nat) a (c : Z * cspacepath_t) : list resource :=
  match a.(utspace_reserves) !! i with Some r => [RObject c.1 r.(kind).1; RSlot c.2] | None => [] end.
Lemma reserve_chunks_alter {K V} (l : list (reserve K V)) i j k (w : list (reserve K V) -> allocman -> allocman) (read : allocman -> list (reserve K V)) a :
  (forall l a, read (w l a) = l) -> read a = l ->
  reserve_chunks read j (upd_reserve_chunks read w i k a) = if decide (i = j /\ is_Some (l !! i)) then k else reserve_chunks read j a.
Proof.
  intros Hw <-. unfold upd_reserve_chunks, reserve_chunks. rewrite Hw. destruct (decide (i = j)) as [<-|Hn].
  - rewrite list_lookup_alter_eq. destruct (read a !! i); cbn; [rewrite decide_True by eauto; done|rewrite decide_False; [done|by intros [_ []]]].
  - rewrite list_lookup_alter_ne, decide_False by tauto. done.
Qed.
Lemma mspace_skeleton i a l : has_reserve mspace_reserves i a ->
  skeleton (upd_reserve_chunks mspace_reserves upd_mspace_reserves i (set_items l (reserve_chunks mspace_reserves i a)) a) = skeleton a.
Proof. intros [r Hr]. unfold upd_reserve_chunks, reserve_chunks, skeleton. cbn. rewrite Hr. by rewrite (alter_empty _ _ r). Qed.
Lemma utspace_skeleton i a l : has_reserve utspace_reserves i a ->
  skeleton (upd_reserve_chunks utspace_reserves upd_utspace_reserves i (set_items l (reserve_chunks utspace_reserves i a)) a) = skeleton a.
Proof. intros [r Hr]. unfold upd_reserve_chunks, reserve_chunks, skeleton. cbn. rewrite Hr. by rewrite (alter_empty _ _ r). Qed.
Lemma mspace_place i : place (has_reserve mspace_reserves i) (reserve_chunks mspace_reserves i)
  (upd_reserve_chunks mspace_reserves upd_mspace_reserves i) (block_of i).
Proof.
  split; [| |intros a l H; by apply mspace_skeleton|].
  - intros a l [r Hr]. unfold reserve_chunks, block_of, upd_reserve_chunks, in_manager_list. cbn. rewrite Hr.
    pose proof (bind_alter reserved_blocks _ _ _ (set_items l r.(chunks)) Hr) as E. unfold reserved_blocks at 2 4 in E. cbn in E.
    rewrite !fmap_bind. rewrite <- !app_assoc. do 4 f_equiv. rewrite (Permutation_app_comm (_ ≫= reserved_objects)), app_assoc, E. solve_Permutation.
  - intros a [r Hr]. unfold upd_reserve_chunks, reserve_chunks. rewrite Hr, (alter_same _ _ _ Hr). by destruct a.
  - intros a l H Hl Hok. pose proof (mspace_skeleton i a l H). split; [by apply (manager_ok_ext a)|]. split; [done|done| |done].
    intros j. rewrite (reserve_chunks_alter a.(mspace_reserves)) by done. destruct (decide _) as [[-> _]|]; [|done].
    unfold count. cbn. lia.
Qed.
Lemma utspace_place i : place (has_reserve utspace_reserves i) (reserve_chunks utspace_reserves i)
  (upd_reserve_chunks utspace_reserves upd_utspace_reserves i) (object_of i).
Proof.
  split; [| |intros a l H; by apply utspace_skeleton|].
  - intros a l [r Hr]. unfold reserve_chunks, object_of, upd_reserve_chunks, in_manager_list. cbn. rewrite Hr.
    pose proof (bind_alter reserved_objects _ _ _ (set_items l r.(chunks)) Hr) as E. unfold reserved_objects at 2 4 in E. cbn in E.
    rewrite <- !app_assoc. do 5 f_equiv. exact E.
  - intros a [r Hr]. unfold upd_reserve_chunks, reserve_chunks. rewrite Hr, (alter_same _ _ _ Hr). by destruct a.
  - intros a l H Hl Hok. pose proof (utspace_skeleton i a l H). split; [by apply (manager_ok_ext a)|]. split; [done|done|done|].
    intros j. rewrite (reserve_chunks_alter a.(utspace_reserves)) by done. destruct (decide _) as [[-> _]|]; [|done].
    unfold count. cbn. lia.
Qed.
End places.

(** ** Accounts when the manager's state changes *)
Lemma size_list_to_set_disj (l : list resource) : size (list_to_set_disj l : gmultiset resource) = length l.
Proof. induction l as [|r l IH]; [done|]. rewrite list_to_set_disj_cons. cbn [length]. by rewrite gmultiset_size_disj_union, gmultiset_size_singleton, IH. Qed.
Section place_manager.
Context {A : Type} {valid : allocman -> Prop} {read : allocman -> stack A} {write : stack A -> allocman -> allocman}.
Context {res : allocman -> A -> list resource} (P : place valid read write res).
Implicit Types (a : allocman).
Lemma in_manager_write a l : valid a ->
  in_manager (write (set_items l (read a)) a) ⊎ list_to_set_disj ((read a).(items) ≫= res a) =
  in_manager a ⊎ list_to_set_disj (l ≫= res a).
Proof. intros V. unfold in_manager. rewrite <- !list_to_set_disj_app. by apply list_to_set_disj_perm, (pl_manager _ _ _ _ P). Qed.
Lemma in_manager_last a v : valid a -> last (read a).(items) = Some v ->
  in_manager a = in_manager (write (set_items (removelast (read a).(items)) (read a)) a) ⊎ list_to_set_disj (res a v).
Proof.
  intros V E%removelast_last. pose proof (in_manager_write a (removelast (read a).(items)) V) as Hw.
  rewrite E in Hw at 2. rewrite bind_app, list_to_set_disj_app in Hw. cbn in Hw. rewrite app_nil_r in Hw. multiset_solver.
Qed.
Lemma in_manager_push a v : valid a ->
  in_manager (write (set_items ((read a).(items) ++ [v]) (read a)) a) = in_manager a ⊎ list_to_set_disj (res a v).
Proof.
  intros V. pose proof (in_manager_write a ((read a).(items) ++ [v]) V) as Hw.
  rewrite bind_app, list_to_set_disj_app in Hw. cbn in Hw. rewrite app_nil_r in Hw. multiset_solver.
Qed.
End place_manager.

Section accounting.
Context {S : Type} `{!Managed S} (L : ledger S).
Context `{!Framed L}.
Implicit Types (a : allocman) (C : gmultiset resource) (s : S).
Lemma st_am x a s : L.(st) x (set_am a s) = L.(st) x s.
Proof using Framed0. apply Framed0. Qed.
Lemma all_given_am a s : all_given L (set_am a s) = all_given L s.
Proof using Framed0. unfold all_given. by rewrite !st_am. Qed.
Lemma idle_own_am a s : (forall x, busy x a = busy x (am s)) -> idle_own L (set_am a s) = idle_own L s.
Proof using Framed0. intros Hb. unfold idle_own, idle_own1. by rewrite !am_set_am, !Hb, !st_am. Qed.
Lemma accounts_am a C C' s : accounts L s C -> (forall x, busy x a = busy x (am s)) -> manager_ok a ->
  C' ⊎ in_manager a = C ⊎ in_manager (am s) -> accounts L (set_am a s) C'.
Proof using Framed0.
  intros [Hm Hr Hg] Hb Ha E. split.
  - by rewrite am_set_am.
  - intros x. rewrite am_set_am, Hb, st_am. auto.
  - by rewrite am_set_am, idle_own_am, all_given_am, E.
Qed.
Lemma skeleton_busy a a' x : skeleton a' = skeleton a -> busy x a' = busy x a.
Proof. intros E. unfold busy. apply (f_equal (get_space x)) in E. rewrite !get_space_skeleton in E. by rewrite E. Qed.

(** Flags and depths are of no account. *)
Lemma accounts_flags C s b1 b2 b3 : accounts L s C ->
  accounts L (set_am (upd_in_operation b1 (upd_refilling_watermark b2 (upd_used_watermark b3 (am s)))) s) C.
Proof using Framed0.
  intros A. apply (accounts_am _ C); [done|by intros []| |by destruct (am s)].
  destruct (ac_manager _ _ _ A) as [Hs ? ? ? ? ? ?]. by split.
Qed.

Lemma undisturbed_refl s : undisturbed L s s.
Proof. split; [apply within_refl|done]. Qed.
Lemma undisturbed_trans s1 s2 s3 : undisturbed L s1 s2 -> undisturbed L s2 s3 -> undisturbed L s1 s3.
Proof.
  intros [W1 K1] [W2 K2]. split; [by eapply within_trans|]. intros x Hx. rewrite K2, K1; [done|done|]. by rewrite (within_busy _ _ _ W1).
Qed.
Lemma undisturbed_am s a : within (am s) a -> undisturbed L s (set_am a s).
Proof using Framed0. intros W. split; [by rewrite am_set_am|]. intros x _. apply st_am. Qed.

(** *** Taking a resource from a place and putting one there *)
Section place.
Context {A : Type} {valid : allocman -> Prop} {read : allocman -> stack A} {write : stack A -> allocman -> allocman}.
Context {res : allocman -> A -> list resource} (P : place valid read write res).
Lemma wpf_pop s C v (Q : A -> S -> Prop) : valid (am s) -> accounts L s C -> last (read (am s)).(items) = Some v ->
  (forall s', (exists a, s' = set_am a s) -> accounts L s' (list_to_set_disj (res (am s) v) ⊎ C) -> undisturbed L s s' ->
    (stock L s' + length (res (am s) v) = stock L s)%nat -> Q v s') -> wpf (pop read write) Q s.
Proof using P Framed0.
  intros V AC E HQ. unfold pop. fstep. fstep. fstep. apply (wpf_of_option _ v); [exact E|]. fstep. fstep. fstep.
  assert (length (removelast (read (am s)).(items)) <= length (read (am s)).(items))%nat as Hl.
  { rewrite (removelast_last _ _ E) at 2. rewrite length_app. lia. }
  destruct (pl_fewer _ _ _ _ P (am s) _ V Hl (ac_manager _ _ _ AC)) as [Hok W].
  pose proof (in_manager_last P (am s) v V E) as Em. set (a' := write _ (am s)) in *.
  assert (forall x, busy x a' = busy x (am s)) as Hb by (intros x; by apply skeleton_busy, (wi_skeleton _ _ W)).
  apply HQ; [by eexists| |by apply undisturbed_am|].
  - apply (accounts_am _ C); [done|done|done|]. rewrite Em. multiset_solver.
  - unfold stock. rewrite am_set_am, idle_own_am by done. rewrite Em, gmultiset_size_disj_union.
    rewrite size_list_to_set_disj. lia.
Qed.
Lemma wpf_push s C v (Q : unit -> S -> Prop) : valid (am s) -> accounts L s (list_to_set_disj (res (am s) v) ⊎ C) ->
  count (read (am s)) < (read (am s)).(room) ->
  manager_ok (write (set_items ((read (am s)).(items) ++ [v]) (read (am s))) (am s)) ->
  (let a := write (set_items ((read (am s)).(items) ++ [v]) (read (am s))) (am s) in
    accounts L (set_am a s) C -> skeleton a = skeleton (am s) ->
    (stock L (set_am a s) = stock L s + length (res (am s) v))%nat -> Q tt (set_am a s)) -> wpf (push read write v) Q s.
Proof using P Framed0.
  intros V AC Hr Hok HQ. unfold push. fstep. fstep. rewrite (proj2 (Z.ltb_lt _ _)) by done. fstep.
  pose proof (in_manager_push P (am s) v V) as Em. pose proof (pl_skeleton _ _ _ _ P (am s) ((read (am s)).(items) ++ [v]) V) as Es.
  cbv zeta in HQ. set (a' := write _ (am s)) in *.
  assert (forall x, busy x a' = busy x (am s)) as Hb by (intros x; by apply skeleton_busy).
  apply HQ; [|done|].
  - eapply accounts_am; [exact AC|done|done|]. rewrite Em. clear -a'. multiset_solver.
  - unfold stock. rewrite am_set_am, idle_own_am by done. rewrite Em, gmultiset_size_disj_union, size_list_to_set_disj. lia.
Qed.
End place.
End accounting.
