(* ===== verification/AllocmanRun.v ===== *)
(** * The allocation manager: nested calls

    Entering and leaving an allocator, the operations while another one is in progress, and the manager calling itself: by
    induction on the number of allocators that do not run, every operation keeps the accounts. *)
From stdpp Require Import base gmultiset list gmap.
From Stdlib Require Import ZArith Lia.
From S2P Require Import Prelude.
From S2P Require Import AllocBase.
From S2P Require Import Allocman.
From S2P Require Import AllocmanLedger.

(** ** Running an allocator *)
Record toggles (f g : space_state -> space_state) : Prop := {
  to_on c : space_state_ok c -> c.(alloc_depth) + c.(free_depth) <= 0 -> space_state_ok (f c) /\ (f c).(alloc_depth) + (f c).(free_depth) > 0;
  to_off c : space_state_ok c -> c.(alloc_depth) + c.(free_depth) <= 0 -> g (f c) = c }.
Lemma alloc_toggles : toggles (fun c => upd_alloc_depth (c.(alloc_depth) +w 1)%word c) (fun c => upd_alloc_depth (c.(alloc_depth) -w 1)%word c).
Proof.
  split; intros [h i ad fd] (? & ? & ? & ?) Hd; cbn in *; assert (ad = 0) as -> by lia; assert (fd = 0) as -> by lia;
    [split; [done|reflexivity]|reflexivity].
Qed.
Lemma free_toggles : toggles (fun c => upd_free_depth (c.(free_depth) +w 1)%word c) (fun c => upd_free_depth (c.(free_depth) -w 1)%word c).
Proof.
  split; intros [h i ad fd] (? & ? & ? & ?) Hd; cbn in *; assert (ad = 0) as -> by lia; assert (fd = 0) as -> by lia;
    [split; [done|reflexivity]|reflexivity].
Qed.
Lemma busy_false x a : busy x a = false <-> (get_space x a).(alloc_depth) + (get_space x a).(free_depth) <= 0.
Proof. unfold busy. lia. Qed.
Lemma can_alloc_busy x a : manager_ok a -> _can_alloc (get_space x a) = negb (busy x a).
Proof.
  intros [Hs _ _ _ _ _ _]. destruct (Hs x) as (_ & Hp & ? & ?). unfold _can_alloc, busy. rewrite Hp. cbn [alloc_can_alloc free_can_alloc orb allocman_default_properties]. cbv zeta.
  destruct (get_space x a) as [? ? ad fd]. cbn in *. destruct (Z.gtb_spec ad 0), (Z.gtb_spec fd 0), (Z.gtb_spec (ad + fd) 0); cbn; done || lia.
Qed.
Lemma can_free_busy x a : manager_ok a -> _can_free (get_space x a) = negb (busy x a).
Proof.
  intros [Hs _ _ _ _ _ _]. destruct (Hs x) as (_ & Hp & ? & ?). unfold _can_free, busy. rewrite Hp. cbn [alloc_can_free free_can_free orb allocman_default_properties]. cbv zeta.
  destruct (get_space x a) as [? ? ad fd]. cbn in *. destruct (Z.gtb_spec ad 0), (Z.gtb_spec fd 0), (Z.gtb_spec (ad + fd) 0); cbn; done || lia.
Qed.
Lemma busy_set_space x y c a : busy y (set_space x c a) = if decide (x = y) then c.(alloc_depth) + c.(free_depth) >? 0 else busy y a.
Proof. unfold busy. rewrite get_set_space. by destruct (decide _). Qed.
Lemma idle_enter x c a : busy x a = false -> c.(alloc_depth) + c.(free_depth) > 0 -> (idle (set_space x c a) < idle a)%nat.
Proof.
  intros Hb Hc. assert ((alloc_depth c + free_depth c >? 0) = true) as E by lia.
  unfold idle. cbn [List.filter]. rewrite !busy_set_space, E.
  destruct x; repeat (destruct (decide _); try done); rewrite Hb; cbn [negb]; repeat destruct (busy _ a); cbn; lia.
Qed.
Lemma skeleton_set_space x c a : skeleton (set_space x c a) = set_space x c (skeleton a).
Proof. by destruct x. Qed.
Lemma set_set_space x c c' a : set_space x c (set_space x c' a) = set_space x c a.
Proof. by destruct x. Qed.
Lemma set_get_space x a : set_space x (get_space x a) a = a.
Proof. by destruct x, a. Qed.
Lemma manager_ok_space x c a : manager_ok a -> space_state_ok c -> manager_ok (set_space x c a).
Proof.
  intros [Hs ? ? ? ? ? ?] Hc. split; try by destruct x. intros y. rewrite get_set_space. by destruct (decide _).
Qed.
(** Entering an allocator and leaving it again *)
Lemma within_leave x f g a a' : toggles f g -> manager_ok a -> busy x a = false -> within (set_space x (f (get_space x a)) a) a' ->
  within a (set_space x (g (get_space x a')) a').
Proof.
  intros T Ha Hb%busy_false W. assert (get_space x a' = f (get_space x a)) as E.
  { rewrite (within_space x _ _ W), get_set_space. by destruct (decide _). }
  rewrite E, (to_off _ _ T) by (done || apply Ha). destruct W as [Es Wc Wm Wu]. split.
  - rewrite skeleton_set_space, Es, skeleton_set_space, set_set_space, <- (get_space_skeleton x a). apply set_get_space.
  - destruct x; exact Wc.
  - intros i. specialize (Wm i). destruct x; exact Wm.
  - intros i. specialize (Wu i). destruct x; exact Wu.
Qed.

Section running.
Context {S : Type} `{!Managed S} (L : ledger S).
Context `{!Framed L}.
Implicit Types (a : allocman) (C : gmultiset resource) (s : S).
Lemma idle_own_remove x a s : busy x (am s) = false -> (forall y, busy y a = (if decide (x = y) then true else busy y (am s))) ->
  idle_own L s = idle_own L (set_am a s) ⊎ L.(own) x (L.(st) x s).
Proof using Framed0.
  intros Hb Ha. unfold idle_own, idle_own1. rewrite !am_set_am, !Ha, !(st_am L). clear Ha Framed0.
  destruct x; rewrite ?Hb; repeat (destruct (decide _); try done); repeat destruct (busy _ _); multiset_solver.
Qed.
(** A function of the interface [x] between the two changes of the depth *)
Lemma wpf_inside x f g {V B} (m : M S V) (k : V -> M S B) (Q : B -> S -> Prop) C0 (C1 : V -> gmultiset resource) (D : nat -> nat -> Prop) s :
  toggles f g -> busy x (am s) = false -> accounts L s C0 ->
  (forall s1, in_operation (am s1) = in_operation (am s) -> (idle (am s1) < idle (am s))%nat -> busy x (am s1) = true ->
    L.(ready) x (L.(st) x s1) -> accounts L s1 (C0 ⊎ L.(own) x (L.(st) x s1)) ->
    wpf m (fun v s2 => within (am s1) (am s2) /\ (forall y, y <> x -> busy y (am s1) = true -> L.(st) y s2 = L.(st) y s1) /\
      L.(ready) x (L.(st) x s2) /\ accounts L s2 (C1 v ⊎ L.(own) x (L.(st) x s2)) /\
      D (stock L s2 + size (L.(own) x (L.(st) x s2)))%nat (stock L s1 + size (L.(own) x (L.(st) x s1)))%nat) s1) ->
  (forall v s3, undisturbed L s s3 -> accounts L s3 (C1 v) -> D (stock L s3) (stock L s) -> wpf (k v) Q s3) ->
  wpf (mod_space x f ;;; let* v := m in mod_space x g ;;; k v) Q s.
Proof using Framed0.
  intros T Hb AC Hm Hk. pose proof (ac_manager _ _ _ AC) as Hok. pose proof (proj1 (busy_false _ _) Hb) as Hd.
  destruct (to_on _ _ T _ (mo_spaces _ Hok x) Hd) as [Hf1 Hf2].
  set (a1 := set_space x (f (get_space x (am s))) (am s)).
  assert (forall y, busy y a1 = if decide (x = y) then true else busy y (am s)) as Hb1.
  { intros y. unfold a1. rewrite busy_set_space. destruct (decide _); [lia|done]. }
  pose proof (idle_own_remove x a1 s Hb Hb1) as Ho1. fstep. fstep. fold a1. fstep.
  assert (accounts L (set_am a1 s) (C0 ⊎ own L x (st L x (set_am a1 s)))) as AC1.
  { destruct AC as [_ Hr Hg]. split; rewrite ?am_set_am, ?(st_am L).
    - by apply manager_ok_space.
    - intros y. rewrite Hb1, (st_am L). destruct (decide _); [done|apply Hr].
    - rewrite (all_given_am L a1 s). unfold a1 at 1. rewrite in_manager_set_space. rewrite Ho1 in Hg. clear -Hg Framed0. multiset_solver. }
  assert (stock L (set_am a1 s) + size (own L x (st L x (set_am a1 s))) = stock L s)%nat as Hst.
  { unfold stock. rewrite Ho1, am_set_am, (st_am L). unfold a1 at 1. rewrite in_manager_set_space, gmultiset_size_disj_union. lia. }
  eapply wpf_mono; [apply Hm|].
  - rewrite am_set_am. by destruct x.
  - rewrite am_set_am. by apply idle_enter.
  - rewrite am_set_am, Hb1. by rewrite decide_True.
  - rewrite (st_am L). by apply AC.
  - exact AC1.
  - rewrite am_set_am. intros v s2 (W & Kp & Hr & AC2 & HD). fstep. fstep.
    pose proof (within_leave x f g _ _ T Hok Hb W) as W3. set (a3 := set_space x (g (get_space x (am s2))) (am s2)) in *.
    assert (forall y, busy y (am s2) = if decide (x = y) then true else busy y a3) as Hb2.
    { intros y. rewrite (within_busy y _ _ W), Hb1, (within_busy y _ _ W3). done. }
    assert (busy x a3 = false) as Hb3 by (by rewrite (within_busy x _ _ W3)).
    pose proof (idle_own_remove x (am s2) (set_am a3 s2)) as Ho2. rewrite !am_set_am, set_am_set_am, set_am_am, (st_am L) in Ho2.
    specialize (Ho2 Hb3 Hb2). rewrite Hst in HD. apply Hk.
    + split; [by rewrite am_set_am|]. intros y Hy. rewrite (st_am L).
      assert (y <> x) as Hyx by congruence. rewrite Kp; [apply (st_am L)|done|]. rewrite Hb1. by destruct (decide _).
    + destruct AC2 as [Hok2 Hr2 Hg2]. split; rewrite ?am_set_am.
      * unfold a3. apply manager_ok_space; [done|]. rewrite (within_space x _ _ W). unfold a1. rewrite get_set_space, decide_True by done. rewrite (to_off _ _ T) by (done || apply Hok). apply Hok.
      * intros y Hy. rewrite (st_am L). destruct (decide (x = y)) as [<-|]; [done|]. apply Hr2. rewrite Hb2. by destruct (decide _).
      * rewrite (all_given_am L a3 s2), Ho2. unfold a3 at 1. rewrite in_manager_set_space. clear -Hg2 Framed0. multiset_solver.
    + replace (stock L (set_am a3 s2)) with (stock L s2 + size (own L x (st L x s2)))%nat; [done|]. unfold stock.
      rewrite Ho2, am_set_am. unfold a3 at 1. rewrite in_manager_set_space, gmultiset_size_disj_union. lia.
Qed.
End running.

(** ** The operations while another one is in progress *)
Section quiet.
Context {S : Type} `{!Managed S} (L : ledger S) `{!Framed L} (rounds : nat).
Implicit Types (a : allocman) (C : gmultiset resource) (s : S).
(** The flag [in_operation] set to [b] *)
Definition flagged (b : bool) (s : S) : S := set_am (upd_in_operation b (am s)) s.
Lemma am_flagged b s : am (flagged b s) = upd_in_operation b (am s).
Proof using. apply am_set_am. Qed.
Lemma flagged_flagged b b' s : flagged b (flagged b' s) = flagged b s.
Proof using. unfold flagged. by rewrite am_set_am, set_am_set_am. Qed.
Lemma flagged_same s : flagged (in_operation (am s)) s = s.
Proof using. unfold flagged. assert (upd_in_operation (in_operation (am s)) (am s) = am s) as -> by (by destruct (am s)). apply set_am_am. Qed.
Lemma accounts_flagged b s C : accounts L s C -> accounts L (flagged b s) C.
Proof using Framed0.
  intros A. pose proof (accounts_flags L C s b (am s).(refilling_watermark) (am s).(used_watermark) A) as E. unfold flagged.
  destruct (am s). exact E.
Qed.
Lemma stock_flagged b s : stock L (flagged b s) = stock L s.
Proof using Framed0. unfold stock, flagged. rewrite am_set_am, (idle_own_am L) by (by intros []). done. Qed.
Lemma busy_flagged x b s : busy x (am (flagged b s)) = busy x (am s).
Proof using. rewrite am_flagged. by destruct x. Qed.
Lemma idle_flagged b s : idle (am (flagged b s)) = idle (am s).
Proof using. unfold idle. cbn [List.filter]. by rewrite !busy_flagged. Qed.
Lemma undisturbed_flagged b s s' : undisturbed L (flagged true s) s' -> undisturbed L (flagged b s) (flagged b s').
Proof using Framed0.
  intros [[E Wc Wm Wu] K]. rewrite am_flagged in E, Wc, Wm, Wu. split.
  - rewrite !am_flagged. split; [|exact Wc|exact Wm|exact Wu].
    assert (forall a, skeleton (upd_in_operation b a) = upd_in_operation b (skeleton a)) as Hs by done.
    rewrite !Hs, E. done.
  - intros x. rewrite busy_flagged. intros Hb. unfold flagged at 1. rewrite (st_am L), K; [|by rewrite busy_flagged].
    unfold flagged. by rewrite !(st_am L).
Qed.
(** At the end of a quiet operation nothing is refilled. *)
Lemma wpf_end_quiet R b (Q : unit -> S -> Prop) s : b = true \/ refilling_watermark (am s) = true -> Q tt (flagged b s) ->
  wpf (_end_operation rounds R (negb b)) Q s.
Proof using.
  intros Hq HQ. unfold _end_operation. fstep. fstep. rewrite negb_involutive. fold (flagged b s).
  destruct b; cbn [negb when]; [done|]. destruct Hq as [|Hq]; [done|].
  fstep. unfold _refill_watermark. fstep. fstep. rewrite am_flagged. cbn [refilling_watermark upd_in_operation]. rewrite Hq. cbn [orb]. fstep. by fstep.
Qed.
Lemma quiet_flagged b s : quiet (am s) -> (b = true \/ b = (am s).(in_operation)) -> quiet (am (flagged b s)).
Proof using. rewrite am_flagged. intros [E|E] [-> | ->]; by (left + right). Qed.

(** *** Allocating and freeing

    The functions start in states with [pre] and lead to states related by [fin]; [E] says whether the end of the operation
    bounds the stock. *)
Section dispatch.
Context (R : internal S) (pre : S -> Prop) (fin : S -> S -> Prop) (E : Prop).
Hypothesis Hpre : forall x s, pre s -> busy x (am s) = true -> quiet (am s).
Hypothesis Hfin : forall s s', undisturbed L s s' -> fin s s'.
Hypothesis Hend : forall s s' C, pre s -> undisturbed L (flagged true s) s' -> accounts L s' C ->
  wpf (_end_operation rounds R (negb (am s).(in_operation))) (fun _ s'' => fin s s'' /\ accounts L s'' C /\ (E -> stock L s'' <= stock L s')%nat) s'.
Lemma some_idle k x s : (idle (am s) <= k)%nat -> busy x (am s) = false -> (0 < k)%nat.
Proof using. intros Hi Eb. revert Hi. unfold idle. cbn [List.filter]. destruct x; rewrite Eb; cbn [negb]; repeat destruct (busy _ _); cbn; lia. Qed.

Section allocating.
Context (k : nat) (x : space) {V : Type} (r : V -> resource).
(** What the interface does, where operations like those of [k] are at hand *)
Definition runs (m : M S (V * Z)) : Prop := forall s C, quiet (am s) -> (idle (am s) < k)%nat -> busy x (am s) = true ->
  L.(ready) x (L.(st) x s) -> accounts L s (C ⊎ L.(own) x (L.(st) x s)) ->
  wpf m (fun v s' => within (am s) (am s') /\ (forall y, y <> x -> busy y (am s) = true -> L.(st) y s' = L.(st) y s) /\
    L.(ready) x (L.(st) x s') /\ accounts L s' ((if v.2 =? 0 then {[+ r v.1 +]} ⊎ C else C) ⊎ L.(own) x (L.(st) x s'))) s.
Lemma alloc_general none m try use s C : ((0 < k)%nat -> runs m) -> (use = true -> alloc_spec L k r try) ->
  pre s -> (idle (am s) <= k)%nat -> accounts L s C ->
  wpf (_allocman_alloc rounds R x none m try use) (fun v s' => fin s s' /\ accounts L s' (if v.2 =? 0 then {[+ r v.1 +]} ⊎ C else C)) s.
Proof using Framed0 Hpre Hfin Hend.
  intros Hm Ht Hp Hi AC. pose proof (ac_manager _ _ _ AC) as Hok. unfold _allocman_alloc. fstep. fstep.
  assert (wpf (ret (none, 1)) (fun v s' => fin s s' /\ accounts L s' (if v.2 =? 0 then {[+ r v.1 +]} ⊎ C else C)) s) as Hnone.
  { fstep. by split; [apply Hfin, undisturbed_refl|]. }
  destruct (have _) eqn:Eh; cbn [negb]; [|exact Hnone].
  rewrite can_alloc_busy by done. destruct (busy x (am s)) eqn:Eb; cbn [negb].
  { destruct use; [|exact Hnone]. eapply wpf_mono; [apply Ht; try done; by eapply Hpre|]. intros v s' [U ?]. split; [by apply Hfin|done]. }
  unfold _start_operation. do 6 fstep. fold (flagged true s). pose proof (some_idle k x s Hi Eb) as Hk.
  eapply (wpf_inside L) with (C0 := C) (C1 := fun v => if v.2 =? 0 then {[+ r v.1 +]} ⊎ C else C) (D := fun _ _ => True);
    [exact alloc_toggles|by rewrite busy_flagged|by apply accounts_flagged| |].
  { intros s1 Ef Hi1 Hb1 Hr1 AC1. rewrite idle_flagged in Hi1. eapply wpf_mono; [apply (Hm Hk s1 C)|]; try done.
    - left. by rewrite Ef, am_flagged.
    - lia.
    - intros v s2 (? & ? & ? & ?). by split_and!. }
  intros [v e] s3 Us AC3 _. cbn [fst snd] in AC3.
  destruct (Z.eqb_spec e 0) as [->|He]; [|destruct use].
  - fstep. eapply wpf_mono; [by eapply Hend|]. intros [] s4 (? & ? & _). by fstep.
  - fstep. eapply wpf_mono; [apply Ht with (C := C); [done| | |exact AC3]|].
    + eapply within_quiet; [apply Us|]. left. by rewrite am_flagged.
    + rewrite (within_idle _ _ (proj1 Us)), idle_flagged. done.
    + intros [v' e'] s4 [U4 AC4]. fstep. eapply wpf_mono; [eapply Hend; [done|by eapply undisturbed_trans|exact AC4]|].
      intros [] s5 (? & ? & _). by fstep.
  - fstep. eapply wpf_mono; [by eapply Hend|]. intros [] s4 (? & ? & _). by fstep.
Qed.
End allocating.

Section freeing.
Context (k : nat) (x : space) (r : resource).
Definition takes_back (m : M S unit) : Prop := forall s C, quiet (am s) -> (idle (am s) < k)%nat -> busy x (am s) = true ->
  L.(ready) x (L.(st) x s) -> accounts L s ({[+ r +]} ⊎ C ⊎ L.(own) x (L.(st) x s)) ->
  wpf m (fun _ s' => within (am s) (am s') /\ (forall y, y <> x -> busy y (am s) = true -> L.(st) y s' = L.(st) y s) /\
    L.(ready) x (L.(st) x s') /\ accounts L s' (C ⊎ L.(own) x (L.(st) x s')) /\
    (stock L s' + size (L.(own) x (L.(st) x s')) <= stock L s + size (L.(own) x (L.(st) x s)))%nat) s.
Definition queues (m : M S unit) : Prop := forall s C, accounts L s ({[+ r +]} ⊎ C) ->
  wpf m (fun _ s' => undisturbed L s s' /\ accounts L s' C /\ (stock L s' <= stock L s + 1)%nat) s.
Lemma free_general m queue s C : ((0 < k)%nat -> takes_back m) -> queues queue ->
  pre s -> (idle (am s) <= k)%nat -> accounts L s ({[+ r +]} ⊎ C) ->
  wpf (ALLOCMAN_FREE rounds R x queue m) (fun _ s' => fin s s' /\ accounts L s' C /\
    (E -> stock L s' <= stock L s + if busy x (am s) then 1 else 0)%nat) s.
Proof using Framed0 Hpre Hfin Hend.
  intros Hm Ht Hp Hi AC. pose proof (ac_manager _ _ _ AC) as Hok. unfold ALLOCMAN_FREE. fstep. fstep.
  fstep. apply wpf_assert; [apply (mo_spaces _ Hok x)|].
  rewrite can_free_busy by done. destruct (busy x (am s)) eqn:Eb; cbn [negb].
  { eapply wpf_mono; [by apply Ht|]. intros [] s' (U & ? & ?). split; [by apply Hfin|done]. }
  unfold _start_operation. do 6 fstep. fold (flagged true s). pose proof (some_idle k x s Hi Eb) as Hk.
  eapply (wpf_inside L) with (C0 := {[+ r +]} ⊎ C) (C1 := fun _ => C) (D := le);
    [exact free_toggles|by rewrite busy_flagged|by apply accounts_flagged| |].
  { intros s1 Ef Hi1 Hb1 Hr1 AC1. rewrite idle_flagged in Hi1. eapply wpf_mono; [apply (Hm Hk s1 C)|]; try done.
    - left. by rewrite Ef, am_flagged.
    - lia. }
  intros _ s3 Us AC3 HD. rewrite stock_flagged in HD. eapply wpf_mono; [by eapply Hend|].
  intros [] s4 (? & ? & Hs). split_and!; try done. intros HE. specialize (Hs HE). lia.
Qed.
End freeing.
End dispatch.

(** Within another operation *)
Lemma end_quiet R s s' C : quiet (am s) -> undisturbed L (flagged true s) s' -> accounts L s' C ->
  wpf (_end_operation rounds R (negb (am s).(in_operation)))
    (fun _ s'' => undisturbed L s s'' /\ accounts L s'' C /\ (True -> stock L s'' <= stock L s')%nat) s'.
Proof using Framed0.
  intros Hq Us AC. apply wpf_end_quiet.
  - destruct Us as [W _]. destruct Hq as [|Hr]; [by left|right]. destruct (within_flags _ _ W) as [_ ->]. by rewrite am_flagged.
  - split; [|split; [by apply accounts_flagged|by rewrite stock_flagged]].
    apply (undisturbed_flagged (in_operation (am s))) in Us. by rewrite flagged_same in Us.
Qed.
Lemma alloc_quiet k x {V} (r : V -> resource) R none m try use : ((0 < k)%nat -> runs k x r m) -> (use = true -> alloc_spec L k r try) ->
  alloc_spec L k r (_allocman_alloc rounds R x none m try use).
Proof using Framed0.
  intros Hm Ht s C Hq Hi AC. eapply (alloc_general R (fun s => quiet (am s)) (undisturbed L)) with (E := True); try done.
  intros. by apply end_quiet.
Qed.
Lemma free_quiet k x r R m queue : ((0 < k)%nat -> takes_back k x r m) -> queues r queue -> free_spec L k x r (ALLOCMAN_FREE rounds R x queue m).
Proof using Framed0.
  intros Hm Ht s C Hq Hi AC. eapply wpf_mono; [eapply (free_general R (fun s => quiet (am s)) (undisturbed L)) with (E := True); try done|].
  - intros. by apply end_quiet.
  - intros [] s' (? & ? & ?). split_and!; auto.
Qed.
End quiet.

(** *** The queues and the reserves *)
Lemma single_list (r : resource) : list_to_set_disj [r] = ({[+ r +]} : gmultiset resource).
Proof. multiset_solver. Qed.
Section places_used.
Context {S : Type} `{!Managed S} (L : ledger S) `{!Framed L} (rounds : nat).
Implicit Types (a : allocman) (C : gmultiset resource) (s : S).
Lemma undisturbed_skeleton s a : skeleton a = skeleton (am s) -> a.(cspace_slots) = (am s).(cspace_slots) ->
  a.(mspace_reserves) = (am s).(mspace_reserves) -> a.(utspace_reserves) = (am s).(utspace_reserves) -> undisturbed L s (set_am a s).
Proof using Framed0.
  intros E Ec Em Eu. apply (undisturbed_am L). split; [done|by rewrite Ec|intros i; unfold reserve_chunks; by rewrite Em|intros i; unfold reserve_chunks; by rewrite Eu].
Qed.
Ltac queue_is_ok place bounds :=
  intros s C AC; pose proof (ac_manager _ _ _ AC) as Hok; pose proof (bounds _ Hok) as Hs;
  cbv beta delta [allocman_cspace_queue_for_free allocman_mspace_queue_for_free allocman_utspace_queue_for_free]; fstep; fstep;
  match goal with |- context [?n =? ?m] => destruct (Z.eqb_spec n m) as [|Hn] end; [apply wpf_overflow; lia|];
  apply (wpf_push L place s C); [done|by rewrite single_list|lia| |];
  [destruct Hok as [H1 H2 H3 H4 H5 H6 H7]; split; try done;
    first [by intros []; apply (H1 _)|cbn; unfold count in *; cbn; rewrite length_app; cbn; lia]
  |intros a AC' Es Est; split; [by apply undisturbed_skeleton|split; [done|by rewrite Est]]].
Lemma queue_slot path : queues L (RSlot path) (allocman_cspace_queue_for_free path).
Proof using Framed0. queue_is_ok freed_slots_place mo_slots. Qed.
Lemma queue_block ptr bytes : queues L (RBlock ptr bytes) (allocman_mspace_queue_for_free ptr bytes).
Proof using Framed0. queue_is_ok freed_blocks_place mo_blocks. Qed.
Lemma queue_object cookie size_bits : queues L (RObject cookie size_bits) (allocman_utspace_queue_for_free cookie size_bits).
Proof using Framed0. queue_is_ok freed_objects_place mo_objects. Qed.

(** Setting [used_watermark] *)
Lemma used_accounts b s C : accounts L s C -> accounts L (set_am (upd_used_watermark b (am s)) s) C.
Proof using Framed0.
  intros A. pose proof (accounts_flags L C s (am s).(in_operation) (am s).(refilling_watermark) b A) as E. destruct (am s). exact E.
Qed.
Lemma used_undisturbed b s : undisturbed L s (set_am (upd_used_watermark b (am s)) s).
Proof using Framed0. by apply undisturbed_skeleton. Qed.

Lemma watermark_cspace k uninit : alloc_spec L k RSlot (_try_watermark_cspace uninit).
Proof using Framed0.
  intros s C Hq Hi AC. unfold _try_watermark_cspace. fstep. fstep.
  destruct (Z.eqb_spec (count (am s).(cspace_slots)) 0) as [|Hn].
  { fstep. by split; [apply undisturbed_refl|]. }
  fstep. fstep. set (s1 := set_am (upd_used_watermark true (am s)) s). fstep.
  destruct (last (am s1).(cspace_slots).(items)) as [slot|] eqn:El.
  2:{ apply last_None in El. unfold s1, count in *. rewrite am_set_am in El. cbn in El. by rewrite El in Hn. }
  apply (wpf_pop L cspace_slots_place s1 C slot); [done|by apply used_accounts|exact El|].
  intros s2 _ AC2 U2 _. fstep. rewrite single_list in AC2. split; [|done]. eapply undisturbed_trans; [apply used_undisturbed|exact U2].
Qed.
Lemma find_reserve_spec {K V} (p : K -> bool) (l : list (reserve K V)) i j : find_reserve p l i = Some j ->
  exists r, l !! (j - i)%nat = Some r /\ (i <= j)%nat /\ p r.(kind) = true /\ r.(chunks).(items) <> [].
Proof using.
  revert i. induction l as [|r l IH]; intros i; [done|]. cbn [find_reserve].
  destruct (p (kind r) && (count (chunks r) >? 0)) eqn:E.
  - intros [= <-]. apply andb_true_iff in E as [E1 E2]. exists r. rewrite Nat.sub_diag. split_and!; [done|lia|done|].
    unfold count in E2. intros E3. by rewrite E3 in E2.
  - intros (r' & Hr & Hj & ?)%IH. exists r'. replace (j - i)%nat with (Datatypes.S (j - Datatypes.S i)) by lia. split_and!; [done|lia|tauto..].
Qed.
Lemma watermark_mspace k size : alloc_spec L k (fun p => RBlock p size) (_try_watermark_mspace size).
Proof using Framed0.
  intros s C Hq Hi AC. unfold _try_watermark_mspace. fstep. fstep.
  destruct (find_reserve _ _ 0) as [i|] eqn:Ef; [|fstep; by split; [apply undisturbed_refl|]].
  apply find_reserve_spec in Ef as (r & Hr & _ & Hk%Z.eqb_eq & Hne). rewrite Nat.sub_0_r in Hr. fstep.
  destruct (last r.(chunks).(items)) as [p|] eqn:El; [|by apply last_None in El].
  apply (wpf_pop L (mspace_place i) s C p); [by eexists|done|unfold reserve_chunks; by rewrite Hr|].
  intros s2 _ AC2 U2 _. unfold block_of in AC2. rewrite Hr, Hk, single_list in AC2. fstep. fstep. fstep. cbn [fst snd].
  split; [|by apply used_accounts]. eapply undisturbed_trans; [exact U2|apply used_undisturbed].
Qed.
End places_used.

(** ** The manager calls itself *)
Section knot.
Context {S : Type} `{!Managed S} (L : ledger S).
Context (calls : allocator_calls S) (seL4_CNode_Move : Z -> Z -> Z -> Z -> Z -> Z -> M S Z) (uninit : cspacepath_t) (rounds : nat).
Context `{!Allocators L calls seL4_CNode_Move rounds}.
Implicit Types (a : allocman) (C : gmultiset resource) (s : S).
#[local] Instance knot_framed : Framed L := allocators_framed L.
Lemma accounts_ext s s' C : am s' = am s -> (forall x, L.(st) x s' = L.(st) x s) -> accounts L s C -> accounts L s' C.
Proof using.
  intros Ea Es [Hm Hr Hg]. split; [by rewrite Ea|intros x; rewrite Ea, Es; apply Hr|].
  unfold idle_own, idle_own1, all_given in *. rewrite !Es, Ea. done.
Qed.
Lemma watermark_utspace k R size_bits type path : (forall slot, free_spec L k Cspace (RSlot slot) (R.(_allocman_cspace_free) slot)) ->
  alloc_spec L k (fun c => RObject c size_bits) (_try_watermark_utspace seL4_CNode_Move R size_bits type path).
Proof using Allocators0.
  intros HF s C Hq Hi AC. unfold _try_watermark_utspace. fstep. fstep.
  destruct (find_reserve _ _ 0) as [i|] eqn:Ef; [|fstep; by split; [apply undisturbed_refl|]].
  apply find_reserve_spec in Ef as (r & Hr & _ & Hk & Hne). rewrite Nat.sub_0_r in Hr.
  apply andb_true_iff in Hk as [Hk%Z.eqb_eq _].
  assert (reserve_chunks utspace_reserves i (am s) = r.(chunks)) as Ec by (unfold reserve_chunks; by rewrite Hr).
  destruct (last r.(chunks).(items)) as [[cookie slot]|] eqn:El; [|by apply last_None in El].
  fstep. apply (wpf_of_option _ (cookie, slot)); [by rewrite Ec|]. fstep. apply wpf_wp. eapply wp_mono; [apply (move_ok L)|].
  intros e s1 [Ea Es]. assert (accounts L s1 C) as AC1 by by eapply accounts_ext.
  assert (undisturbed L s s1) as U1 by (split; [rewrite Ea; apply within_refl|intros x _; apply Es]).
  destruct (e =? 0); cbn [negb]; [|fstep; by split].
  fstep. fstep. set (s2 := set_am (upd_used_watermark true (am s1)) s1). fstep.
  apply (wpf_pop L (utspace_place i) s2 C (cookie, slot)); [|exact (used_accounts L true s1 C AC1)| |].
  { unfold s2. rewrite am_set_am, Ea. by eexists. }
  { unfold s2. rewrite am_set_am, Ea. unfold reserve_chunks. cbn [utspace_reserves upd_used_watermark]. by rewrite Hr. }
  intros s3 _ AC3 U3 _. fstep.
  assert (list_to_set_disj (object_of i (am s2) (cookie, slot)) ⊎ C = {[+ RSlot slot +]} ⊎ ({[+ RObject cookie size_bits +]} ⊎ C)) as E.
  { unfold object_of, s2. rewrite am_set_am, Ea. cbn [utspace_reserves upd_used_watermark]. rewrite Hr. cbn [fst snd]. rewrite Hk. clear. multiset_solver. }
  rewrite E in AC3. assert (undisturbed L s s3) as U by (eapply undisturbed_trans; [exact U1|]; eapply undisturbed_trans; [exact (used_undisturbed L true s1)|exact U3]).
  eapply wpf_mono; [eapply HF; [|by rewrite (within_idle _ _ (proj1 U))|exact AC3]|].
  { by eapply within_quiet; [apply U|]. }
  intros _ s4 (U4 & AC4 & _). fstep. split; [by eapply undisturbed_trans|done].
Qed.

(** Nested calls: as deep as two for every allocator that does not run *)
Record self_ok (k : nat) (R : internal S) : Prop := {
  so_mspace_alloc size use : alloc_spec L k (fun p => RBlock p size) (R.(_allocman_mspace_alloc) size use);
  so_cspace_alloc use : alloc_spec L k RSlot (R.(_allocman_cspace_alloc) use);
  so_utspace_alloc size_bits type path use : alloc_spec L k (fun c => RObject c size_bits) (R.(_allocman_utspace_alloc) size_bits type path use) }.
Record self_frees (k : nat) (R : internal S) : Prop := {
  sf_mspace_free p size : free_spec L k Mspace (RBlock p size) (R.(_allocman_mspace_free) p size);
  sf_cspace_free path : free_spec L k Cspace (RSlot path) (R.(_allocman_cspace_free) path);
  sf_utspace_free cookie size_bits : free_spec L k Utspace (RObject cookie size_bits) (R.(_allocman_utspace_free) cookie size_bits) }.
Lemma ops_self k R : self_ok k R -> self_frees k R -> ops_ok L k (ops_of R).
Proof using.
  intros [HM HC HU] [FM FC FU]. split; intros; cbn; auto.
  intros s C Hq Hi AC. fstep. fstep. eapply wpf_mono; [by apply HC|]. intros [v e] s' HQ. fstep. fstep. exact HQ.
Qed.
Lemma iface_runs k x {V} (r : V -> resource) (f : Z -> allocman_ops S -> M S (V * Z)) A :
  (forall p, alloc_iface L x r (f p)) -> ((0 < k)%nat -> ops_ok L (k - 1) A) ->
  (0 < k)%nat -> runs L k x r (with_space x (fun p => f p A)).
Proof using.
  intros HI HO Hk s C Hq Hi Hb Hr AC. unfold with_space. fstep. fstep. eapply (HI _ A (k - 1)%nat); try done; [by apply HO|lia].
Qed.
Lemma iface_takes_back k x (r : resource) (f : Z -> allocman_ops S -> M S unit) A :
  (forall p, free_iface L x r (f p)) -> ((0 < k)%nat -> ops_ok L (k - 1) A) ->
  (0 < k)%nat -> takes_back L k x r (with_space x (fun p => f p A)).
Proof using.
  intros HI HO Hk s C Hq Hi Hb Hr AC. unfold with_space. fstep. fstep. eapply (HI _ A (k - 1)%nat); try done; [by apply HO|lia].
Qed.
Abbreviation manager := (manager calls seL4_CNode_Move uninit rounds).
Abbreviation nested := (nested calls seL4_CNode_Move uninit rounds).
Lemma manager_frees k R : ((0 < k)%nat -> ops_ok L (k - 1) (ops_of R)) -> self_frees k (manager R).
Proof using Allocators0.
  intros HO. split; intros; apply (free_quiet L).
  - apply (iface_takes_back k Mspace _ (fun q A => calls.(mspace_free) A q p size)); [|done]. intros q. by eapply mspace_free_ok.
  - by apply (queue_block L).
  - apply (iface_takes_back k Cspace _ (fun q A => calls.(cspace_free) A q path)); [|done]. intros q. by eapply cspace_free_ok.
  - by apply (queue_slot L).
  - apply (iface_takes_back k Utspace _ (fun q A => calls.(utspace_free) A q cookie size_bits)); [|done]. intros q. by eapply utspace_free_ok.
  - by apply (queue_object L).
Qed.
Lemma manager_allocs k R : ((0 < k)%nat -> ops_ok L (k - 1) (ops_of R)) -> self_frees k R -> self_ok k (manager R).
Proof using Allocators0.
  intros HO HF. split; intros; apply (alloc_quiet L).
  - apply (iface_runs k Mspace _ (fun q A => calls.(mspace_alloc) A q size)); [|done]. intros q. by eapply mspace_alloc_ok.
  - intros _. by apply (watermark_mspace L).
  - apply (iface_runs k Cspace _ (fun q A => calls.(cspace_alloc) A q)); [|done]. intros q. by eapply cspace_alloc_ok.
  - intros _. by apply (watermark_cspace L).
  - apply (iface_runs k Utspace _ (fun q A => calls.(utspace_alloc) A q size_bits type path)); [|done]. intros q. by eapply utspace_alloc_ok.
  - intros _. apply watermark_utspace, HF.
Qed.
Lemma nested_ok k n : (self_frees k (nested (1 + 2 * k + n))) /\ self_ok k (nested (2 + 2 * k + n)).
Proof using Allocators0.
  revert n. induction k as [|k IH]; intros n.
  - split; [apply manager_frees; lia|]. apply manager_allocs; [lia|]. apply manager_frees. lia.
  - assert (forall m, ops_ok L k (ops_of (nested (2 + 2 * k + m)))) as HO.
    { intros m. apply ops_self; [apply IH|]. replace (2 + 2 * k + m)%nat with (1 + 2 * k + (1 + m))%nat by lia. apply IH. }
    replace (1 + 2 * Datatypes.S k + n)%nat with (Datatypes.S (2 + 2 * k + n)) by lia.
    replace (2 + 2 * Datatypes.S k + n)%nat with (Datatypes.S (Datatypes.S (2 + 2 * k + n))) by lia.
    cbn [nested]. assert (self_frees (Datatypes.S k) (manager (nested (2 + 2 * k + n)))) as HF.
    { apply manager_frees. intros _. replace (Datatypes.S k - 1)%nat with k by lia. apply HO. }
    split; [exact HF|]. apply manager_allocs; [|exact HF]. intros _. replace (Datatypes.S k - 1)%nat with k by lia.
    specialize (HO (1 + n)%nat). replace (2 + 2 * k + (1 + n))%nat with (Datatypes.S (2 + 2 * k + n)) in HO by lia. exact HO.
Qed.
End knot.
