(* ===== verification/AllocmanRefill.v ===== *)
(** * The allocation manager: refilling the reserves

    The loops at the end of an outermost operation, and the operations of a program. *)
From stdpp Require Import base gmultiset list gmap.
From Stdlib Require Import ZArith Lia.
From S2P Require Import Prelude.
From S2P Require Import AllocBase.
From S2P Require Import Allocman.
From S2P Require Import AllocmanLedger.
From S2P Require Import AllocmanRun.

(** ** Refilling the reserves *)
Definition reserve_full {K V} (r : reserve K V) : Prop := r.(desired) <= count r.(chunks).
Record full (a : allocman) : Prop := {
  fu_cspace : a.(desired_cspace_slots) <= count a.(cspace_slots);
  fu_mspace : Forall reserve_full a.(mspace_reserves);
  fu_utspace : Forall reserve_full a.(utspace_reserves) }.
Section skeletons.
Implicit Types (a : allocman).
Lemma skeleton_reserve {K V} (l l' : list (reserve K V)) i r : empty_reserve <$> l' = empty_reserve <$> l -> l !! i = Some r ->
  exists r', l' !! i = Some r' /\ r'.(kind) = r.(kind) /\ r'.(desired) = r.(desired) /\ r'.(chunks).(room) = r.(chunks).(room).
Proof.
  intros E Hr. pose proof (f_equal (fun l => l !! i) E) as Ei. rewrite !list_lookup_fmap, Hr in Ei. cbn in Ei.
  destruct (l' !! i) as [r'|]; [|done]. cbn in Ei. unfold empty_reserve, upd_chunks, set_items in Ei. injection Ei as ? ? ? ?. by exists r'.
Qed.
Lemma skeleton_mspace a a' : skeleton a' = skeleton a -> empty_reserve <$> a'.(mspace_reserves) = empty_reserve <$> a.(mspace_reserves).
Proof. intros E. exact (f_equal mspace_reserves E). Qed.
Lemma skeleton_utspace a a' : skeleton a' = skeleton a -> empty_reserve <$> a'.(utspace_reserves) = empty_reserve <$> a.(utspace_reserves).
Proof. intros E. exact (f_equal utspace_reserves E). Qed.
Lemma skeleton_lengths a a' : skeleton a' = skeleton a ->
  length a'.(mspace_reserves) = length a.(mspace_reserves) /\ length a'.(utspace_reserves) = length a.(utspace_reserves).
Proof.
  intros E. split; [rewrite <- (length_fmap empty_reserve a'.(mspace_reserves)), (skeleton_mspace _ _ E)|
    rewrite <- (length_fmap empty_reserve a'.(utspace_reserves)), (skeleton_utspace _ _ E)]; apply length_fmap.
Qed.
End skeletons.

Section refill.
Context {S : Type} `{!Managed S} (L : ledger S).
Context (calls : allocator_calls S) (seL4_CNode_Move : Z -> Z -> Z -> Z -> Z -> Z -> M S Z) (uninit : cspacepath_t) (rounds : nat).
Context `{!Allocators L calls seL4_CNode_Move rounds}.
#[local] Instance refill_framed : Framed L := allocators_framed L.
Implicit Types (a : allocman) (C : gmultiset resource) (s : S).
Context (sk : allocman) (Hsk : refilling_watermark sk = true) (Hidle : forall x, busy x sk = false).
Context (R : internal S) (HA : self_ok L 3 R) (HF : self_frees L 3 R).
(** During the refilling *)
Definition refilling s C : Prop := skeleton (am s) = sk /\ accounts L s C.
Lemma refilling_quiet s C : refilling s C -> quiet (am s) /\ (idle (am s) <= 3)%nat /\ forall x, busy x (am s) = false.
Proof using Hsk Hidle.
  intros [E _]. split; [right; by rewrite <- Hsk, <- E|]. split.
  - unfold idle. cbn [List.filter]. repeat destruct (busy _ _); cbn; lia.
  - intros x. rewrite <- (Hidle x), <- E. by destruct x.
Qed.
Lemma refilling_next s s' C C' : refilling s C -> undisturbed L s s' -> accounts L s' C' -> refilling s' C'.
Proof using. intros [E _] [W _] AC. split; [by rewrite (wi_skeleton _ _ W)|done]. Qed.
Lemma stock_bound s C : refilling s C -> (stock L s < rounds)%nat.
Proof using Hsk Hidle Allocators0.
  intros HI. pose proof (refilling_quiet s C HI) as (_ & _ & Hb). destruct HI as [_ AC].
  eapply Nat.le_lt_trans; [|apply (given_bound L s); intros x; apply AC, Hb].
  pose proof (f_equal size (ac_given _ _ _ AC)) as Hle. rewrite !gmultiset_size_disj_union in Hle. unfold stock. lia.
Qed.
Lemma drain_ok {A} {read write} {res : A -> resource} (P : place always read write (fun _ v => [res v])) x free fuel s C :
  (forall v, free_spec L 3 x (res v) (free v)) -> refilling s C -> (stock L s < fuel)%nat ->
  wpf (drain fuel read write free) (fun _ s' => refilling s' C) s.
Proof using Hsk Hidle Allocators0.
  intros HFr. revert s. induction fuel as [|fuel IH]; intros s HI Hf; [lia|]. cbn [drain]. fstep. fstep.
  destruct (count (read (am s)) >? 0) eqn:Ec; [|by fstep]. fstep.
  destruct (last (read (am s)).(items)) as [v|] eqn:El; [|apply last_None in El; unfold count in Ec; by rewrite El in Ec].
  apply (wpf_pop L P s C v); [done|apply HI|done|]. intros s1 _ AC1 U1 Hs1. rewrite single_list in AC1. cbn [length] in Hs1.
  pose proof (refilling_next _ _ _ _ HI U1 AC1) as HI1. pose proof (refilling_quiet _ _ HI1) as (Hq & Hi & Hb).
  fstep. eapply wpf_mono; [by apply (HFr v s1 C)|]. intros _ s2 (U2 & AC2 & Hs2). rewrite Hb in Hs2.
  fstep. eapply wpf_mono; [apply IH; [by eapply refilling_next|lia]|]. intros ? ? HI3. fstep. exact HI3.
Qed.
Lemma push_ok {A} {valid read write} {res : allocman -> A -> list resource} (P : place valid read write res) s C v :
  valid (am s) -> refilling s (list_to_set_disj (res (am s) v) ⊎ C) -> count (read (am s)) < (read (am s)).(room) ->
  (forall k a, freed_slots (write k a) = freed_slots a /\ freed_mspace_chunks (write k a) = freed_mspace_chunks a /\
    freed_utspace_chunks (write k a) = freed_utspace_chunks a) ->
  wpf (push read write v) (fun _ s' => refilling s' C) s.
Proof using Allocators0.
  intros V [E AC] Hc Hw. apply (wpf_push L P s C v _ V AC Hc).
  - destruct (Hw (set_items (items (read (am s)) ++ [v]) (read (am s))) (am s)) as (E1 & E2 & E3).
    eapply manager_ok_ext; [by apply (pl_skeleton _ _ _ _ P)| | | |apply AC]; congruence.
  - intros a AC' Es _. split; [by rewrite am_set_am, <- E|done].
Qed.
(** What a part of a round has done: when it found no empty reserve, nothing *)
Definition part_ok (s : S) C (P : allocman -> Prop) (r : bool * bool) (s' : S) : Prop :=
  refilling s' C /\ (r.1 = false -> s' = s /\ P (am s)).
Lemma refill_cspace_ok s C : refilling s C -> wpf (refill_cspace R) (part_ok s C (fun a => a.(desired_cspace_slots) <= count a.(cspace_slots))) s.
Proof using Hsk Hidle Allocators0 HA.
  intros HI. pose proof (refilling_quiet _ _ HI) as (Hq & Hi & _). unfold refill_cspace. fstep. fstep.
  destruct (Z.ltb_spec (count (am s).(cspace_slots)) (am s).(desired_cspace_slots)); [|fstep; by split].
  fstep. eapply wpf_mono; [apply (so_cspace_alloc _ _ _ HA false s C Hq Hi), HI|]. intros [slot e] s1 [U1 AC1]. cbn [fst snd] in AC1.
  pose proof (refilling_next _ _ _ _ HI U1 AC1) as HI1. destruct (e =? 0); [|by fstep; split].
  fstep. eapply wpf_mono; [apply (push_ok cspace_slots_place s1 C slot)|].
  - done.
  - by rewrite single_list.
  - destruct U1 as [[E Hc _ _] _]. pose proof (f_equal (fun a => a.(cspace_slots).(room)) E) as Er. cbn in Er. rewrite Er.
    destruct HI as [_ AC]. pose proof (mo_cspace _ (ac_manager _ _ _ AC)). lia.
  - done.
  - intros [] s2 HI2. fstep. by split.
Qed.
Lemma refill_mspace_ok i s C : refilling s C -> (i < length (am s).(mspace_reserves))%nat ->
  wpf (refill_mspace R i) (part_ok s C (fun a => forall r, a.(mspace_reserves) !! i = Some r -> reserve_full r)) s.
Proof using Hsk Hidle Allocators0 HA.
  intros HI [r Hr]%lookup_lt_is_Some. pose proof (refilling_quiet _ _ HI) as (Hq & Hi & _). unfold refill_mspace. fstep. fstep.
  fstep. apply (wpf_of_option _ r); [done|]. destruct (Z.ltb_spec (count r.(chunks)) r.(desired)).
  2:{ fstep. split; [done|]. intros _. split; [done|]. intros r' Hr'. assert (r' = r) as -> by congruence. done. }
  fstep. eapply wpf_mono; [apply (so_mspace_alloc _ _ _ HA r.(kind) false s C Hq Hi), HI|]. intros [p e] s1 [U1 AC1]. cbn [fst snd] in AC1.
  pose proof (refilling_next _ _ _ _ HI U1 AC1) as HI1. destruct (e =? 0); [|by fstep; split].
  destruct U1 as [[E _ Hm _] _]. destruct (skeleton_reserve _ _ _ _ (skeleton_mspace _ _ E) Hr) as (r1 & Hr1 & Hk1 & Hd1 & Hro1).
  specialize (Hm i). unfold reserve_chunks in Hm. rewrite Hr, Hr1 in Hm.
  fstep. eapply wpf_mono; [apply (push_ok (mspace_place i) s1 C p)|].
  - by eexists.
  - unfold block_of. by rewrite Hr1, Hk1, single_list.
  - unfold reserve_chunks. rewrite Hr1, Hro1. destruct HI as [_ AC].
    pose proof (proj1 (Forall_lookup _ _) (mo_mspace _ (ac_manager _ _ _ AC)) i r Hr) as Hro. unfold reserve_ok in Hro. lia.
  - done.
  - intros [] s2 HI2. fstep. by split.
Qed.
Lemma refill_utspace_ok i s C : refilling s C -> (i < length (am s).(utspace_reserves))%nat ->
  wpf (refill_utspace R i) (part_ok s C (fun a => forall r, a.(utspace_reserves) !! i = Some r -> reserve_full r)) s.
Proof using Hsk Hidle Allocators0 HA HF.
  intros HI [r Hr]%lookup_lt_is_Some. pose proof (refilling_quiet _ _ HI) as (Hq & Hi & _). unfold refill_utspace. fstep. fstep.
  fstep. apply (wpf_of_option _ r); [done|]. destruct (Z.ltb_spec (count r.(chunks)) r.(desired)).
  2:{ fstep. split; [done|]. intros _. split; [done|]. intros r' Hr'. assert (r' = r) as -> by congruence. done. }
  fstep. eapply wpf_mono; [apply (so_cspace_alloc _ _ _ HA true s C Hq Hi), HI|]. intros [slot e] s1 [U1 AC1]. cbn [fst snd] in AC1.
  pose proof (refilling_next _ _ _ _ HI U1 AC1) as HI1. destruct (e =? 0); [|by fstep; split].
  pose proof (refilling_quiet _ _ HI1) as (Hq1 & Hi1 & _).
  fstep. eapply wpf_mono; [apply (so_utspace_alloc _ _ _ HA r.(kind).1 r.(kind).2 slot false s1 _ Hq1 Hi1 AC1)|].
  intros [cookie e2] s2 [U2 AC2]. cbn [fst snd] in AC2. pose proof (refilling_next _ _ _ _ HI1 U2 AC2) as HI2.
  destruct (e2 =? 0).
  - destruct (undisturbed_trans _ _ _ _ U1 U2) as [[E _ _ Hu] _]. destruct (skeleton_reserve _ _ _ _ (skeleton_utspace _ _ E) Hr) as (r1 & Hr1 & Hk1 & Hd1 & Hro1).
    specialize (Hu i). unfold reserve_chunks in Hu. rewrite Hr, Hr1 in Hu.
    fstep. eapply wpf_mono; [apply (push_ok (utspace_place i) s2 C (cookie, slot))|].
    + by eexists.
    + unfold object_of. rewrite Hr1, Hk1. cbn [fst snd]. destruct HI2 as [? AC]. split; [done|].
      assert (list_to_set_disj [RObject cookie r.(kind).1; RSlot slot] ⊎ C = {[+ RObject cookie r.(kind).1 +]} ⊎ ({[+ RSlot slot +]} ⊎ C)) as -> by (clear; multiset_solver).
      done.
    + unfold reserve_chunks. rewrite Hr1, Hro1. destruct HI as [_ AC].
      pose proof (proj1 (Forall_lookup _ _) (mo_utspace _ (ac_manager _ _ _ AC)) i r Hr) as Hro. unfold reserve_ok in Hro. lia.
    + done.
    + intros [] s3 HI3. fstep. by split.
  - pose proof (refilling_quiet _ _ HI2) as (Hq2 & Hi2 & _). fstep.
    eapply wpf_mono; [apply (sf_cspace_free _ _ _ HF slot s2 C Hq2 Hi2 AC2)|]. intros _ s3 (U3 & AC3 & _). fstep.
    split; [by eapply refilling_next|done].
Qed.
End refill.

Section rounds.
Context {S : Type} `{!Managed S} (L : ledger S).
Context (calls : allocator_calls S) (seL4_CNode_Move : Z -> Z -> Z -> Z -> Z -> Z -> M S Z) (uninit : cspacepath_t) (rounds : nat).
Context `{!Allocators L calls seL4_CNode_Move rounds}.
#[local] Instance rounds_framed : Framed L := allocators_framed L.
Implicit Types (a : allocman) (C : gmultiset resource) (s : S).
Section round.
Context (sk : allocman) (Hsk : refilling_watermark sk = true) (Hidle : forall x, busy x sk = false).
Context (R : internal S) (HA : self_ok L 3 R) (HF : self_frees L 3 R).
Abbreviation refilling := (refilling L sk).
Abbreviation part_ok := (part_ok L sk).
Lemma refill_loop_ok num f (P : nat -> allocman -> Prop) C :
  (forall a a', skeleton a' = skeleton a -> num a' = num a) ->
  (forall i s, refilling s C -> (i < num (am s))%nat -> wpf (f i) (part_ok s C (P i)) s) ->
  forall fuel i s, refilling s C -> (i <= num (am s) < fuel + i)%nat ->
  wpf (refill_loop fuel i num f) (part_ok s C (fun a => forall j, (i <= j < num a)%nat -> P j a)) s.
Proof using.
  intros Hn Hf. induction fuel as [|fuel IH]; intros i s HI Hi; [lia|].
  cbn [refill_loop]. fstep. fstep. destruct (Nat.ltb_spec i (num (am s))) as [Hlt|Hge].
  2:{ fstep. split; [done|]. intros _. split; [done|]. intros j Hj. lia. }
  fstep. eapply wpf_mono; [by apply Hf|]. intros [b1 d1] s1 [HI1 Hb1]. cbn [fst] in Hb1.
  assert (num (am s1) = num (am s)) as En by (apply Hn; by rewrite (proj1 HI1), (proj1 HI)).
  fstep. eapply wpf_mono; [apply IH; [done|lia]|]. intros [b2 d2] s2 [HI2 Hb2]. cbn [fst] in Hb2.
  fstep. split; [done|]. cbn [fst]. intros [E1 E2]%orb_false_iff. destruct (Hb1 E1) as [-> HP1], (Hb2 E2) as [-> HP2].
  split; [done|]. intros j Hj. destruct (decide (j = i)) as [->|]; [done|]. apply HP2. lia.
Qed.
Lemma refill_round_ok s C : refilling s C ->
  wpf (refill_round rounds R) (fun r s' => refilling s' C /\ (r.1 = false -> full (am s'))) s.
Proof using Hsk Hidle Allocators0 HA HF.
  intros HI. unfold refill_round. assert (forall s, refilling s C -> (stock L s < rounds)%nat) as Hst by (intros; by eapply stock_bound).
  fstep. eapply wpf_mono; [eapply (drain_ok L calls seL4_CNode_Move rounds sk Hsk Hidle freed_slots_place Cspace); [by apply HF|done|by apply Hst]|].
  intros d1 s1 HI1. fstep.
  eapply wpf_mono; [eapply (drain_ok L calls seL4_CNode_Move rounds sk Hsk Hidle freed_blocks_place Mspace); [intros [p z]; exact (sf_mspace_free _ _ _ HF p z)|exact HI1|apply Hst, HI1]|].
  intros d2 s2 HI2. fstep.
  eapply wpf_mono; [eapply (drain_ok L calls seL4_CNode_Move rounds sk Hsk Hidle freed_objects_place Utspace); [intros [z c]; exact (sf_utspace_free _ _ _ HF c z)|exact HI2|apply Hst, HI2]|].
  intros d3 s3 HI3. fstep.
  eapply wpf_mono; [apply (refill_cspace_ok L calls seL4_CNode_Move rounds sk Hsk Hidle R HA), HI3|]. intros [b1 e1] s4 [HI4 Hb1]. cbn [fst] in Hb1. fstep. fstep.
  fstep. eapply wpf_mono; [apply (refill_loop_ok (fun a => length a.(utspace_reserves)) _
    (fun i a => forall r, a.(utspace_reserves) !! i = Some r -> reserve_full r) C)|].
  { intros a a' E. apply (skeleton_lengths _ _ E). }
  { intros i s' HI' Hi. by apply (refill_utspace_ok L calls seL4_CNode_Move rounds sk Hsk Hidle R HA HF). }
  { done. }
  { lia. }
  intros [b2 e2] s5 [HI5 Hb2]. cbn [fst] in Hb2. fstep. fstep.
  fstep. eapply wpf_mono; [apply (refill_loop_ok (fun a => length a.(mspace_reserves)) _
    (fun i a => forall r, a.(mspace_reserves) !! i = Some r -> reserve_full r) C)|].
  { intros a a' E. apply (skeleton_lengths _ _ E). }
  { intros i s' HI' Hi. by apply (refill_mspace_ok L calls seL4_CNode_Move rounds sk Hsk Hidle R HA). }
  { done. }
  { lia. }
  intros [b3 e3] s6 [HI6 Hb3]. cbn [fst] in Hb3. fstep. split; [done|]. cbn [fst].
  intros [[E1 E2]%orb_false_iff E3]%orb_false_iff.
  destruct (Hb1 E1) as [-> P1], (Hb2 E2) as [-> P2], (Hb3 E3) as [-> P3]. split; [done| |].
  - apply Forall_lookup. intros i r Hr. apply (P3 i); [|done]. apply lookup_lt_Some in Hr. lia.
  - apply Forall_lookup. intros i r Hr. apply (P2 i); [|done]. apply lookup_lt_Some in Hr. lia.
Qed.
Lemma refill_rounds_ok n s C : refilling s C ->
  wpf (refill_rounds rounds R n) (fun found s' => refilling s' C /\ (found = false -> full (am s'))) s.
Proof using Hsk Hidle Allocators0 HA HF.
  revert s. induction n as [|n IH]; intros s HI; cbn [refill_rounds]; fstep; (eapply wpf_mono; [by apply refill_round_ok|]);
    intros [b d] s1 [HI1 Hb]; cbn [fst snd] in *; [by fstep|].
  destruct (b && d) eqn:E; [by apply IH|by fstep].
Qed.
End round.
End rounds.

(** ** Operations of a program *)
(** No operation is under way. *)
Record calm (a : allocman) : Prop := {
  ca_operation : a.(in_operation) = false;
  ca_refilling : a.(refilling_watermark) = false;
  ca_idle x : busy x a = false }.
Section calm.
Context {S : Type} `{!Managed S} (L : ledger S).
Context (calls : allocator_calls S) (seL4_CNode_Move : Z -> Z -> Z -> Z -> Z -> Z -> M S Z) (uninit : cspacepath_t) (rounds : nat).
Context `{!Allocators L calls seL4_CNode_Move rounds}.
#[local] Instance calm_framed : Framed L := allocators_framed L.
Implicit Types (a : allocman) (C : gmultiset resource) (s : S).
(** The configuration stays, and no operation is under way. *)
Definition steady s s' : Prop := skeleton (am s') = skeleton (am s).
Lemma steady_calm s s' : steady s s' -> calm (am s) -> calm (am s').
Proof using.
  intros E [H1 H2 H3]. split; [by rewrite <- H1; apply (f_equal in_operation) in E|by rewrite <- H2; apply (f_equal refilling_watermark) in E|].
  intros x. rewrite <- (H3 x). by apply skeleton_busy.
Qed.
Lemma refill_flag b s C : accounts L s C -> accounts L (set_am (upd_refilling_watermark b (am s)) s) C.
Proof using Allocators0.
  intros A. pose proof (accounts_flags L C s (am s).(in_operation) b (am s).(used_watermark) A) as E. destruct (am s). exact E.
Qed.
Lemma refill_watermark_ok R s C : self_ok L 3 R -> self_frees L 3 R -> (am s).(refilling_watermark) = false -> (forall x, busy x (am s) = false) ->
  accounts L s C -> wpf (_refill_watermark rounds R) (fun found s' => steady s s' /\ accounts L s' C /\
    ((am s).(used_watermark) = true -> found = false -> full (am s') /\ (am s').(used_watermark) = false)) s.
Proof using Allocators0.
  intros HA HF Hr Hb AC. unfold _refill_watermark. fstep. fstep. rewrite Hr. cbn [orb].
  destruct (used_watermark (am s)) eqn:Eu; cbn [negb]; [|fstep; by split].
  fstep. fstep. set (s1 := set_am (upd_refilling_watermark true (am s)) s). fstep.
  eapply wpf_mono; [apply (refill_rounds_ok L calls seL4_CNode_Move rounds (skeleton (am s1))) with (C := C)|].
  - unfold s1. by rewrite am_set_am.
  - intros x. unfold s1. rewrite am_set_am. rewrite <- (Hb x). by destruct x.
  - done.
  - done.
  - split; [done|]. by apply refill_flag.
  - intros found s2 [[E2 AC2] Hf]. fstep. fstep. fstep.
    assert (skeleton (upd_refilling_watermark false (am s2)) = skeleton (am s)) as E3.
    { transitivity (upd_refilling_watermark false (skeleton (am s2))); [done|]. rewrite E2. unfold s1. rewrite am_set_am.
      destruct (am s). cbn in *. by subst. }
    pose proof (refill_flag false _ _ AC2) as AC3. destruct found; cbn [negb when].
    + fstep. fstep. split; [|by split]. unfold steady. by rewrite ?am_set_am.
    + fstep. fstep. split; [|split].
      * unfold steady. rewrite ?am_set_am. exact E3.
      * pose proof (used_accounts L false _ _ AC3) as AC4. by rewrite am_set_am, set_am_set_am in AC4.
      * intros _ _. rewrite ?am_set_am. destruct (Hf eq_refl) as [F1 F2 F3]. by split.
Qed.
Context (R : internal S) (HA : self_ok L 3 R) (HF : self_frees L 3 R) (HO : ops_ok L 2 (ops_of R)).
Lemma calm_idle s : (idle (am s) <= 3)%nat.
Proof using. unfold idle. cbn [List.filter]. repeat destruct (busy _ _); cbn; lia. Qed.
Lemma end_calm s s' C : calm (am s) -> undisturbed L (flagged true s) s' -> accounts L s' C ->
  wpf (_end_operation rounds R (negb (am s).(in_operation))) (fun _ s'' => steady s s'' /\ accounts L s'' C /\ (False -> stock L s'' <= stock L s')%nat) s'.
Proof using Allocators0 HA HF.
  intros HC U AC. rewrite (ca_operation _ HC). unfold _end_operation. cbn [negb when]. fstep. fstep. fstep. fold (flagged false s').
  assert (undisturbed L s (flagged false s')) as [W _].
  { apply (undisturbed_flagged L false) in U. rewrite <- (ca_operation _ HC) in U at 1. by rewrite flagged_same in U. }
  eapply wpf_mono; [apply refill_watermark_ok with (C := C); try done|].
  - destruct (within_flags _ _ W) as [_ ->]. apply HC.
  - intros x. rewrite (within_busy x _ _ W). apply HC.
  - by apply (accounts_flagged L).
  - intros found s2 (E & AC2 & _). fstep. split; [|by split]. unfold steady in *. rewrite E. apply (wi_skeleton _ _ W).
Qed.
Lemma alloc_calm x {V} (r : V -> resource) none m try use s C : runs L 3 x r m -> alloc_spec L 3 r try -> calm (am s) -> accounts L s C ->
  wpf (_allocman_alloc rounds R x none m try use) (fun v s' => steady s s' /\ accounts L s' (if v.2 =? 0 then {[+ r v.1 +]} ⊎ C else C)) s.
Proof using Allocators0 HA HF.
  intros Hm Ht HC AC. eapply (alloc_general L rounds R (fun s => calm (am s)) steady False) with (k := 3%nat); try done.
  - intros y s' Hs' Hb. by rewrite (ca_idle _ Hs' y) in Hb.
  - intros s1 s2 [W _]. apply W.
  - apply end_calm.
  - apply calm_idle.
Qed.
Lemma free_calm x r m queue s C : takes_back L 3 x r m -> queues L r queue -> calm (am s) -> accounts L s ({[+ r +]} ⊎ C) ->
  wpf (ALLOCMAN_FREE rounds R x queue m) (fun _ s' => steady s s' /\ accounts L s' C) s.
Proof using Allocators0 HA HF.
  intros Hm Ht HC AC. eapply wpf_mono; [eapply (free_general L rounds R (fun s => calm (am s)) steady False) with (k := 3%nat); try done|].
  - intros y s' Hs' Hb. by rewrite (ca_idle _ Hs' y) in Hb.
  - intros s1 s2 [W _]. apply W.
  - apply end_calm.
  - apply calm_idle.
  - intros [] s' (? & ? & _). by split.
Qed.
End calm.
