(* ===== verification/AllocmanDemo.v ===== *)
(** * The allocation manager: allocators that keep the contract

    The bitmap allocator of slots, a counter for memory, and an allocator of objects that gets its nodes from the manager. *)
From stdpp Require Import base gmultiset list gmap.
From Stdlib Require Import ZArith Lia.
From S2P Require Import Prelude.
From S2P Require Import AllocBase.
From S2P Require Import CspaceAlloc.
From S2P Require Import CspaceAllocSpec.
From S2P Require Import Allocman.
From S2P Require Import AllocmanLedger.
From S2P Require Import AllocmanRun.
From S2P Require Import AllocmanRefill.

(** ** Three allocators that keep the contract

    Memory is given out by a counter, slots by the bitmap of single_level.c, and an object has a node in memory
    from the manager, which is its cookie. *)
Record demo := mk_demo {
  d_am : allocman; d_next : Z; d_blocks : list (Z * Z); d_slots : cspace_single_level; d_objects : list (Z * Z) }.
#[export, refine] Instance demo_managed : Managed demo := {
  am := d_am; set_am a s := mk_demo a s.(d_next) s.(d_blocks) s.(d_slots) s.(d_objects) }.
Proof. all: by intros; repeat match goal with s : demo |- _ => destruct s end. Defined.
Fixpoint remove1 (x : Z * Z) (l : list (Z * Z)) : list (Z * Z) :=
  match l with [] => [] | y :: l => if decide (x = y) then l else y :: remove1 x l end.
Definition upd_objects (l : list (Z * Z)) (s : demo) : demo := mk_demo s.(d_am) s.(d_next) s.(d_blocks) s.(d_slots) l.
Definition demo_limit : nat := 64.
Definition demo_path : cspacepath_t := mk_cspacepath 0 0 0 0 0 0 0.
Definition demo_calls : allocator_calls demo := {|
  mspace_alloc _ _ size s :=
    if bool_decide (length s.(d_blocks) < demo_limit)%nat
    then Ret (s.(d_next), 0) (mk_demo s.(d_am) (s.(d_next) + 1) ((s.(d_next), size) :: s.(d_blocks)) s.(d_slots) s.(d_objects))
    else Ret (NULL, 1) s;
  mspace_free _ _ p size := modify (fun s => mk_demo s.(d_am) s.(d_next) (remove1 (p, size) s.(d_blocks)) s.(d_slots) s.(d_objects));
  cspace_alloc _ _ := zoom d_slots (fun c s => mk_demo s.(d_am) s.(d_next) s.(d_blocks) c s.(d_objects))
    (let* r := _cspace_single_level_alloc in ret (match r with Some p => (p, 0) | None => (demo_path, 1) end));
  cspace_free _ _ path := zoom d_slots (fun c s => mk_demo s.(d_am) s.(d_next) s.(d_blocks) c s.(d_objects)) (_cspace_single_level_free path);
  utspace_alloc A _ size_bits _ _ :=
    let* s := get in
    if bool_decide (length s.(d_objects) < demo_limit)%nat then
      let* r := A.(allocman_mspace_alloc) 8 in
      if r.2 =? 0 then modify (fun s => upd_objects ((r.1, size_bits) :: s.(d_objects)) s) ;;; ret (r.1, 0) else ret (0, 1)
    else ret (0, 1);
  utspace_free A _ cookie size_bits :=
    modify (fun s => upd_objects (remove1 (cookie, size_bits) s.(d_objects)) s) ;;; A.(allocman_mspace_free) cookie 8;
  utspace_add_uts _ _ _ := ret 0 |}.
Definition demo_move (r1 p1 d1 r2 p2 d2 : Z) : M demo Z := ret 0.

Inductive demo_part := PBlocks (next : Z) (l : list (Z * Z)) | PSlots (c : cspace_single_level) | PObjects (l : list (Z * Z)).
Definition slot_range (c : cspace_single_level) : list Z := seqZ c.(sl_config).(first_slot) (32 * c.(sl_bitmap_length)).
Definition used_slots (c : cspace_single_level) : list resource :=
  (fun slot => RSlot (_cspace_single_level_make_path c slot)) <$>
    filter (fun slot => bit_at c (slot - c.(sl_config).(first_slot)) = false) (slot_range c).
Definition made_object (c : Z * Z) : resource := RObject c.1 c.2.
Definition its_node (c : Z * Z) : resource := RBlock c.1 8.
Definition demo_ledger : ledger demo := {|
  ledger_state := demo_part;
  st x s := match x with Mspace => PBlocks s.(d_next) s.(d_blocks) | Cspace => PSlots s.(d_slots) | Utspace => PObjects s.(d_objects) end;
  given x p := list_to_set_disj (match p with PBlocks _ l => freed_block <$> l | PSlots c => used_slots c | PObjects l => made_object <$> l end);
  own x p := match p with PObjects l => list_to_set_disj (its_node <$> l) | _ => ∅ end;
  ready x p := match p with
    | PBlocks n l => NoDup (fst <$> l) /\ Forall (fun c => c.1 < n) l /\ (length l <= demo_limit)%nat
    | PSlots c => (exists F, single_rep c F) /\ c.(sl_bitmap_length) = 2
    | PObjects l => (length l <= demo_limit)%nat
    end |}.

Lemma remove1_in x l : x ∈ l -> l ≡ₚ x :: remove1 x l.
Proof.
  induction l as [|y l IH]; [by intros ?%not_elem_of_nil|]. cbn. intros H. destruct (decide (x = y)) as [->|Hn]; [done|].
  rewrite (IH ltac:(set_solver)) at 1. apply perm_swap.
Qed.
Lemma filter_grow (P P' : Z -> Prop) `{!forall x, Decision (P x)} `{!forall x, Decision (P' x)} (l : list Z) slot : NoDup l -> slot ∈ l -> ~ P slot ->
  (forall x, x ∈ l -> P' x <-> P x \/ x = slot) -> filter P' l ≡ₚ slot :: filter P l.
Proof.
  intros Hl Hin Hn HP. apply NoDup_Permutation; [by apply NoDup_filter|apply NoDup_cons; split; [|by apply NoDup_filter]|].
  - by intros [? _]%list_elem_of_filter.
  - intros x. rewrite elem_of_cons, !list_elem_of_filter. split.
    + intros [H1 H2]. destruct (proj1 (HP x H2) H1); tauto.
    + intros [-> | [? ?]]; (split; [apply HP; tauto|done]).
Qed.
#[export] Instance demo_framed : Framed demo_ledger.
Proof. split. by intros []. Qed.

Section step.
Context {S : Type} `{!Managed S} (L : ledger S).
(** An allocator that is running changes its own state. *)
Lemma accounts_step x s s' C C' : accounts L s C -> am s' = am s -> busy x (am s) = true -> (forall y, y <> x -> L.(st) y s' = L.(st) y s) ->
  C' ⊎ L.(given) x (L.(st) x s) = C ⊎ L.(given) x (L.(st) x s') -> accounts L s' C' /\ stock L s' = stock L s.
Proof.
  intros [Hm Hr Hg] Ea Hb Hs Hc.
  assert (idle_own L s' = idle_own L s) as Eo.
  { unfold idle_own, idle_own1. rewrite Ea. destruct x; rewrite Hb, !Hs; done. }
  split; [split|].
  - by rewrite Ea.
  - rewrite Ea. intros y Hy. rewrite Hs by congruence. by apply Hr.
  - rewrite Eo, Ea. unfold all_given in *.
    destruct x; [rewrite (Hs Cspace), (Hs Utspace) by done|rewrite (Hs Mspace), (Hs Utspace) by done|rewrite (Hs Mspace), (Hs Cspace) by done];
      clear -Hg Hc; multiset_solver.
  - unfold stock. by rewrite Eo, Ea.
Qed.
End step.

Lemma list_to_set_disj_in {A} `{Countable A} (x : A) l : x ∈ (list_to_set_disj l : gmultiset A) <-> x ∈ l.
Proof. rewrite elem_of_list_to_set_disj. done. Qed.
Ltac ledger_simpl := cbn [given own st demo_ledger d_blocks d_slots d_objects d_next fmap list_fmap map upd_objects];
  rewrite ?list_to_set_disj_cons.
Lemma demo_given_in s C r : accounts demo_ledger s ({[+ r +]} ⊎ C) -> r ∈ all_given demo_ledger s.
Proof. intros [_ _ E]. rewrite <- E. multiset_solver. Qed.
Lemma demo_given s r : r ∈ all_given demo_ledger s <->
  (exists c, r = freed_block c /\ c ∈ s.(d_blocks)) \/ r ∈ used_slots s.(d_slots) \/ (exists c, r = made_object c /\ c ∈ s.(d_objects)).
Proof.
  unfold all_given. cbn [given st demo_ledger]. rewrite !gmultiset_elem_of_disj_union, !list_to_set_disj_in, !list_elem_of_fmap. tauto.
Qed.
Lemma used_slots_in c r : r ∈ used_slots c <-> exists slot, r = RSlot (_cspace_single_level_make_path c slot) /\
  bit_at c (slot - c.(sl_config).(first_slot)) = false /\ slot ∈ slot_range c.
Proof. unfold used_slots. rewrite list_elem_of_fmap. by setoid_rewrite list_elem_of_filter. Qed.
Lemma demo_mspace_alloc p size : alloc_iface demo_ledger Mspace (fun v => RBlock v size) (fun A => demo_calls.(mspace_alloc) A p size).
Proof.
  intros A k s C _ _ _ Hb (Hn & Hf & Hl) AC. unfold demo_calls, wpf. cbn [mspace_alloc]. case_bool_decide as Hlt.
  - set (s' := mk_demo _ _ _ _ _). split; [apply within_refl|]. split; [by intros []|]. split.
    { cbn. split; [constructor; [|done]|split; [constructor; [cbn; lia|]|lia]].
      - intros (c & Ec & Hc)%list_elem_of_fmap. pose proof (proj1 (Forall_forall _ _) Hf c Hc). cbn in *. lia.
      - eapply Forall_impl; [exact Hf|]. cbn. lia. }
    cbn [fst snd]. cbn [own demo_ledger]. apply (accounts_step demo_ledger Mspace s s' _ _ AC); [done|done|by intros []|].
    unfold s'. ledger_simpl. change (freed_block (d_next s, size)) with (RBlock (d_next s) size). clear. multiset_solver.
  - split; [apply within_refl|]. by split.
Qed.
Lemma demo_mspace_free p ptr size : free_iface demo_ledger Mspace (RBlock ptr size) (fun A => demo_calls.(mspace_free) A p ptr size).
Proof.
  intros A k s C _ _ _ Hb (Hn & Hf & Hl) AC. unfold demo_calls. cbn [mspace_free]. apply wpf_modify. set (s' := mk_demo _ _ _ _ _).
  assert ((ptr, size) ∈ s.(d_blocks)) as Hin.
  { rewrite <- (gmultiset_disj_union_assoc _ _ _) in AC.
    apply demo_given_in, demo_given in AC as [([a b] & [= -> ->] & ?)|[(slot & [=] & _)%used_slots_in|(c & [=] & _)]]. done. }
  pose proof (remove1_in _ _ Hin) as Hp.
  split; [apply within_refl|]. split; [by intros []|]. split.
  { cbn. rewrite Hp in Hn, Hf, Hl. cbn in Hn, Hl. apply NoDup_cons in Hn as [_ Hn]. apply Forall_cons in Hf as [_ Hf]. split_and!; [done|done|lia]. }
  cbn [own demo_ledger]. edestruct (accounts_step demo_ledger Mspace s s' _ (C ⊎ ∅) AC) as [AC' Hst]; [done|done|by intros []| |by rewrite Hst].
  unfold s'. ledger_simpl. apply (fmap_Permutation freed_block) in Hp. apply list_to_set_disj_perm in Hp. rewrite Hp. ledger_simpl.
  change (freed_block (ptr, size)) with (RBlock ptr size). clear. multiset_solver.
Qed.
(** The bitmap *)
Lemma used_free c F slot : single_rep c F -> slot ∈ slot_range c ->
  bit_at c (slot - c.(sl_config).(first_slot)) = false <-> slot ∉ F.
Proof.
  intros H Hin%elem_of_seqZ. rewrite (sr_free _ _ H). split.
  - intros Hb (k & -> & Hk & Hbit). replace (first_slot (sl_config c) + k - first_slot (sl_config c)) with k in Hb by lia. congruence.
  - intros Hn. apply not_true_is_false. intros Hb. apply Hn. exists (slot - c.(sl_config).(first_slot)). split_and!; [lia|lia|lia|done].
Qed.
Lemma slot_in_range c F slot : single_rep c F -> slot ∈ F -> slot ∈ slot_range c.
Proof. intros H (k & -> & Hk & _)%(sr_free _ _ H). apply elem_of_seqZ. lia. Qed.
Lemma used_grow c c' F slot : single_rep c F -> slot ∈ F -> single_rep c' (F ∖ {[slot]}) -> same_single c c' ->
  used_slots c' ≡ₚ RSlot (_cspace_single_level_make_path c slot) :: used_slots c.
Proof.
  intros H Hin H' Hs. pose proof Hs as (Ec & _ & El & _). unfold used_slots.
  assert (slot_range c' = slot_range c) as Er by (unfold slot_range; by rewrite Ec, El).
  assert (_cspace_single_level_make_path c' = _cspace_single_level_make_path c) as -> by (unfold _cspace_single_level_make_path; by rewrite Ec).
  rewrite Er. apply (fmap_Permutation (fun slot => RSlot (_cspace_single_level_make_path c slot)) _ (slot :: _)), filter_grow; [apply NoDup_seqZ|by eapply slot_in_range| |].
  - rewrite (used_free c F) by (done || by eapply slot_in_range). tauto.
  - intros x Hx. rewrite (used_free c F), (used_free c' (F ∖ {[slot]})) by (done || by rewrite Er). destruct (decide (x = slot)); set_solver.
Qed.
Lemma demo_cspace_alloc p : alloc_iface demo_ledger Cspace RSlot (fun A => demo_calls.(cspace_alloc) A p).
Proof.
  intros A k s C _ _ _ Hb ((F & HF) & Hl) AC. apply wpf_wp. unfold demo_calls. cbn [cspace_alloc]. apply wp_zoom, wp_bind.
  eapply wp_mono; [by apply wp_single_alloc|]. intros r c' [Hs Hr]. apply wp_ret. set (s' := mk_demo _ _ _ _ _).
  split; [apply within_refl|]. split; [by intros []|]. destruct r as [path|].
  - destruct Hr as (slot & Hin & -> & HF'). split; [split; [by eexists|cbn; destruct Hs as (_ & _ & El & _); lia]|].
    cbn [fst snd]. cbn [own demo_ledger]. apply (accounts_step demo_ledger Cspace s s' _ _ AC); [done|done|by intros []|].
    pose proof (used_grow _ _ _ _ HF Hin HF' Hs) as Hp. apply list_to_set_disj_perm in Hp. unfold s'. ledger_simpl. rewrite Hp. ledger_simpl. clear. multiset_solver.
  - destruct Hr as [_ Ec]. split; [split; [exists F|]; cbn; by rewrite Ec|]. cbn [fst snd]. cbn [own demo_ledger].
    apply (accounts_step demo_ledger Cspace s s' _ _ AC); [done|done|by intros []|]. unfold s'. ledger_simpl. by rewrite Ec.
Qed.
Lemma demo_cspace_free p path : free_iface demo_ledger Cspace (RSlot path) (fun A => demo_calls.(cspace_free) A p path).
Proof.
  intros A k s C _ _ _ Hb ((F & HF) & Hl) AC. unfold demo_calls. cbn [cspace_free].
  assert (exists slot, path = _cspace_single_level_make_path s.(d_slots) slot /\ (slot ∉ F) /\ (slot ∈ slot_range s.(d_slots))) as (slot & -> & Hn & Hin).
  { rewrite <- (gmultiset_disj_union_assoc _ _ _) in AC.
    apply demo_given_in, demo_given in AC as [([a b] & [=] & ?)|[(slot & [= ->] & Hb' & Hin)%used_slots_in|(c & [=] & _)]].
    exists slot. split_and!; [done|by apply (used_free (d_slots s))|done]. }
  pose proof Hin as Hr%elem_of_seqZ. pose proof (sr_range _ _ HF) as Hb2.
  apply wpf_wp, wp_zoom. eapply wp_mono; [apply (wp_single_free _ F); [done|cbn; unfold is_word; lia|exact Hn|cbn; lia]|].
  intros [] c' [Hs HF']. cbn [capPtr _cspace_single_level_make_path] in HF'. set (s' := mk_demo _ _ _ _ _).
  split; [apply within_refl|]. split; [by intros []|]. split; [split; [by eexists|cbn; destruct Hs as (_ & _ & El & _); lia]|].
  cbn [own demo_ledger]. edestruct (accounts_step demo_ledger Cspace s s' _ (C ⊎ ∅) AC) as [AC' Hst]; [done|done|by intros []| |by rewrite Hst].
  assert (single_rep s.(d_slots) ((F ∪ {[slot]}) ∖ {[slot]})) as HF2.
  { assert ((F ∪ {[slot]}) ∖ {[slot]} = F) as -> by set_solver. exact HF. }
  assert (same_single c' s.(d_slots)) as Hs2 by (destruct Hs as (? & ? & ? & ?); by split_and!).
  pose proof (used_grow c' _ _ slot HF' ltac:(set_solver) HF2 Hs2) as Hp. rewrite (same_single_path _ _ _ Hs) in Hp.
  apply list_to_set_disj_perm in Hp. unfold s'. ledger_simpl. rewrite Hp. ledger_simpl. clear. multiset_solver.
Qed.
(** The allocator of objects calls the manager for its nodes. *)
Lemma demo_utspace_alloc p size_bits type path :
  alloc_iface demo_ledger Utspace (fun v => RObject v size_bits) (fun A => demo_calls.(utspace_alloc) A p size_bits type path).
Proof.
  intros A k s C HO Hq Hi Hb Hl AC. unfold demo_calls. cbn [utspace_alloc]. apply wpf_bind. unfold wpf at 1, get.
  case_bool_decide as Hlt; [|fstep; split; [apply within_refl|by split]].
  fstep. eapply wpf_mono; [by apply (oo_mspace_alloc _ _ _ HO 8 s _ Hq Hi AC)|]. intros [v e] s1 [[W K] AC1]. cbn [fst snd] in *.
  pose proof (K Utspace Hb) as Eo. injection Eo as Eo.
  assert (forall y, y <> Utspace -> busy y (am s) = true -> demo_ledger.(st) y s1 = demo_ledger.(st) y s) as K' by (intros; by apply K).
  destruct (e =? 0).
  - fstep. apply wpf_modify. fstep. set (s2 := upd_objects _ s1).
    split; [exact W|]. split; [intros [] ?; try done; by apply K'|]. split; [cbn; rewrite Eo; lia|]. cbn [fst snd].
    apply (accounts_step demo_ledger Utspace s1 s2 _ _ AC1); [done|by rewrite (within_busy _ _ _ W)|by intros []|].
    unfold s2. ledger_simpl. rewrite Eo. ledger_simpl. change (its_node (v, size_bits)) with (RBlock v 8). change (made_object (v, size_bits)) with (RObject v size_bits).
    clear. multiset_solver.
  - fstep. split; [exact W|]. split; [done|]. split; [cbn; by rewrite Eo|]. cbn [fst snd own demo_ledger]. cbn [own demo_ledger st] in AC1 |- *. by rewrite Eo.
Qed.
Lemma demo_utspace_free p cookie size_bits :
  free_iface demo_ledger Utspace (RObject cookie size_bits) (fun A => demo_calls.(utspace_free) A p cookie size_bits).
Proof.
  intros A k s C HO Hq Hi Hb Hl AC. unfold demo_calls. cbn [utspace_free].
  assert ((cookie, size_bits) ∈ s.(d_objects)) as Hin.
  { rewrite <- (gmultiset_disj_union_assoc _ _ _) in AC.
    apply demo_given_in, demo_given in AC as [([a b] & [=] & ?)|[(slot & [=] & _)%used_slots_in|([a b] & [= -> ->] & ?)]]. done. }
  pose proof (remove1_in _ _ Hin) as Hp. pose proof (Permutation_length Hp) as Hlen. cbn [length] in Hlen.
  fstep. apply wpf_modify. set (s1 := upd_objects _ s). set (l := remove1 (cookie, size_bits) (d_objects s)) in *.
  pose proof (list_to_set_disj_perm _ _ (fmap_Permutation its_node _ _ Hp)) as Hn. pose proof (list_to_set_disj_perm _ _ (fmap_Permutation made_object _ _ Hp)) as Hg.
  cbn [fmap list_fmap map] in Hn, Hg. rewrite list_to_set_disj_cons in Hn, Hg.
  destruct (accounts_step demo_ledger Utspace s s1 _ ({[+ RBlock cookie 8 +]} ⊎ (C ⊎ list_to_set_disj (its_node <$> l))) AC) as [AC1 Hst]; [done|done|by intros []| |].
  { unfold s1. ledger_simpl. cbn [fmap list_fmap map] in *. rewrite Hn, Hg. change (its_node (cookie, size_bits)) with (RBlock cookie 8).
    change (made_object (cookie, size_bits)) with (RObject cookie size_bits). clear. multiset_solver. }
  eapply wpf_mono; [by apply (oo_mspace_free _ _ _ HO cookie 8 s1 _ Hq Hi AC1)|]. intros [] s2 ([W K] & AC2 & Hst2).
  pose proof (K Utspace Hb) as Eo. injection Eo as Eo. split; [exact W|]. split; [intros y Hy Hby; rewrite (K y Hby); by destruct y|].
  split; [cbn; rewrite Eo; fold l; cbn in Hl; lia|]. cbn [own demo_ledger st]. rewrite Eo. split; [exact AC2|].
  cbn [fmap list_fmap map] in *. rewrite Hn, gmultiset_size_disj_union, gmultiset_size_singleton. cbn [d_objects upd_objects]. fold l.
  destruct (busy Mspace (am s1)); lia.
Qed.

Lemma multiplicity_list (r : resource) l : NoDup l -> (multiplicity r (list_to_set_disj l : gmultiset resource) <= 1)%nat.
Proof.
  induction 1 as [|x l Hx _ IH]; [cbn; rewrite multiplicity_empty; lia|].
  rewrite list_to_set_disj_cons, multiplicity_disj_union. destruct (decide (r = x)) as [->|Hn].
  - rewrite multiplicity_singleton. rewrite ?decide_True by done. assert (multiplicity x (list_to_set_disj l : gmultiset resource) = 0)%nat as ->; [|lia].
    destruct (multiplicity x _) eqn:E; [done|]. exfalso. apply Hx, list_to_set_disj_in, elem_of_multiplicity. lia.
  - rewrite multiplicity_singleton_ne by done. lia.
Qed.
Lemma multiplicity_not_in (r : resource) l : r ∉ l -> multiplicity r (list_to_set_disj l : gmultiset resource) = 0%nat.
Proof. intros Hn. destruct (multiplicity r _) eqn:E; [done|]. exfalso. apply Hn, list_to_set_disj_in, elem_of_multiplicity. lia. Qed.
Lemma demo_size s : (forall x, demo_ledger.(ready) x (demo_ledger.(st) x s)) -> (size (all_given demo_ledger s) < 1000)%nat.
Proof.
  intros Hr. destruct (Hr Mspace) as (_ & _ & H1), (Hr Cspace) as [_ H2]. pose proof (Hr Utspace) as H3. cbn in H3.
  unfold all_given. cbn [given st demo_ledger]. rewrite !gmultiset_size_disj_union, !size_list_to_set_disj, !length_fmap.
  pose proof (length_filter (fun slot => bit_at (d_slots s) (slot - first_slot (sl_config (d_slots s))) = false) (slot_range (d_slots s))) as H4.
  assert (length (slot_range (d_slots s)) = 64)%nat as E by (unfold slot_range; rewrite length_seqZ, H2; reflexivity). unfold demo_limit in *. unfold used_slots. rewrite length_fmap. lia.
Qed.
Lemma demo_once s r : (forall x, demo_ledger.(ready) x (demo_ledger.(st) x s)) -> (if r is RObject _ _ then False else True) ->
  (multiplicity r (all_given demo_ledger s) <= 1)%nat.
Proof.
  intros Hr Hu. destruct (Hr Mspace) as (H1 & _). unfold all_given. cbn [given st demo_ledger]. rewrite !multiplicity_disj_union.
  assert (NoDup (freed_block <$> d_blocks s)) as N1.
  { apply NoDup_fmap_1 with (f := fun r => match r with RBlock p _ => p | _ => 0 end). rewrite <- list_fmap_compose.
    rewrite (list_fmap_ext _ fst) by done. exact H1. }
  assert (NoDup (used_slots (d_slots s))) as N2.
  { apply NoDup_fmap_2_strong; [|by apply NoDup_filter, NoDup_seqZ]. by intros x y _ _ [= ->]. }
  rewrite (multiplicity_not_in r (made_object <$> _)).
  2:{ intros (c & -> & _)%list_elem_of_fmap. done. }
  pose proof (multiplicity_list r _ N1). pose proof (multiplicity_list r _ N2). destruct r as [p z|path|].
  - rewrite (multiplicity_not_in (RBlock p z) (used_slots _)); [lia|]. by intros (? & [=] & _)%used_slots_in.
  - rewrite (multiplicity_not_in (RSlot path) (freed_block <$> _)); [lia|]. by intros (? & [=] & _)%list_elem_of_fmap.
  - done.
Qed.
#[export] Instance demo_allocators : Allocators demo_ledger demo_calls demo_move 1000.
Proof.
  split.
  - apply _.
  - apply demo_mspace_alloc.
  - apply demo_cspace_alloc.
  - apply demo_utspace_alloc.
  - apply demo_mspace_free.
  - apply demo_cspace_free.
  - apply demo_utspace_free.
  - by intros.
  - intros. by apply demo_once.
  - intros. by apply demo_size.
Qed.
