(* ===== verification/AllocmanSpec.v ===== *)
(** * The allocation manager: theorem

    No resource is lost or given out twice, whatever the allocators call. *)
From stdpp Require Import base gmultiset list gmap.
From Stdlib Require Import ZArith Lia.
From S2P Require Import Prelude.
From S2P Require Import AllocBase.
From S2P Require Import CspaceAlloc.
From S2P Require Import CspaceAllocSpec.
From S2P Require Import Allocman.
From S2P Require Import AllocmanLedger.
From S2P Require Import AllocmanRun.
From S2P Require Import AllocmanRefill.
From S2P Require Import AllocmanDemo.

(** ** The theorem *)
Section library_ok.
Context {S : Type} `{!Managed S} (L : ledger S).
Context (calls : allocator_calls S) (seL4_CNode_Move : Z -> Z -> Z -> Z -> Z -> Z -> M S Z) (uninit : cspacepath_t) (rounds : nat).
Context `{!Allocators L calls seL4_CNode_Move rounds}.
Abbreviation nested := (nested calls seL4_CNode_Move uninit rounds).
Lemma nested_self : self_ok L 3 (nested 8) /\ self_frees L 3 (nested 8) /\ ops_ok L 2 (ops_of (nested 8)).
Proof using Allocators0.
  split; [|split].
  - apply (proj2 (nested_ok L calls seL4_CNode_Move uninit rounds 3 0)).
  - apply (proj1 (nested_ok L calls seL4_CNode_Move uninit rounds 3 1)).
  - apply ops_self; [apply (proj2 (nested_ok L calls seL4_CNode_Move uninit rounds 2 2))|
      apply (proj1 (nested_ok L calls seL4_CNode_Move uninit rounds 2 3))].
Qed.
Lemma not_given_twice s r C : calm (am s) -> accounts L s ({[+ r +]} ⊎ C) -> (if r is RObject _ _ then False else True) -> r ∉ C.
Proof using Allocators0.
  intros HC [_ Hr Hg] Hu Hin. assert (multiplicity r (all_given L s) <= 1)%nat as Hm.
  { apply (given_once L); [|done]. intros x. apply Hr, HC. }
  rewrite <- Hg, !multiplicity_disj_union, multiplicity_singleton in Hm. rewrite ?decide_True in Hm by done.
  assert (0 < multiplicity r C)%nat by (by apply elem_of_multiplicity). lia.
Qed.
(** How an allocation ends: with an error and the same resources in use, or with a new one *)
Definition allocated {V} (r : V -> resource) s C (v : V * Z) s' : Prop :=
  steady s s' /\
  if v.2 =? 0 then accounts L s' ({[+ r v.1 +]} ⊎ C) /\ (if r v.1 is RObject _ _ then True else r v.1 ∉ C)
  else accounts L s' C.
Lemma library_allocates x {V} (r : V -> resource) none m try s C : runs L 3 x r m -> alloc_spec L 3 r try ->
  calm (am s) -> accounts L s C ->
  wpf (_allocman_alloc rounds (nested 8) x none m try true) (allocated r s C) s.
Proof using Allocators0.
  intros Hm Ht HC AC. destruct nested_self as (HA & HF & _). eapply wpf_mono; [by eapply (alloc_calm L)|].
  intros [v e] s' [St AC']. split; [done|]. cbn [fst snd] in *. destruct (e =? 0); [|done]. split; [done|].
  destruct (r v) eqn:Er; try done; rewrite <- Er in *; eapply (not_given_twice s'); try done; rewrite ?Er; try done; by eapply steady_calm.
Qed.
Lemma library_mspace_alloc size s C : calm (am s) -> accounts L s C ->
  wpf (_allocman_mspace_alloc (nested 9) size true) (allocated (fun p => RBlock p size) s C) s.
Proof using Allocators0.
  destruct nested_self as (_ & _ & HO). apply library_allocates; [|by apply (watermark_mspace L)].
  apply (iface_runs L 3 Mspace _ (fun q A => calls.(mspace_alloc) A q size)); [|done|lia]. intros q. by eapply mspace_alloc_ok.
Qed.
Lemma library_cspace_alloc s C : calm (am s) -> accounts L s C ->
  wpf (_allocman_cspace_alloc (nested 9) true) (allocated RSlot s C) s.
Proof using Allocators0.
  destruct nested_self as (_ & _ & HO). apply library_allocates; [|by apply (watermark_cspace L)].
  apply (iface_runs L 3 Cspace _ (fun q A => calls.(cspace_alloc) A q)); [|done|lia]. intros q. by eapply cspace_alloc_ok.
Qed.
Lemma library_utspace_alloc size_bits type path s C : calm (am s) -> accounts L s C ->
  wpf (_allocman_utspace_alloc (nested 9) size_bits type path true) (allocated (fun c => RObject c size_bits) s C) s.
Proof using Allocators0.
  destruct nested_self as (_ & HF & HO). apply library_allocates; [|by eapply watermark_utspace, HF].
  apply (iface_runs L 3 Utspace _ (fun q A => calls.(utspace_alloc) A q size_bits type path)); [|done|lia]. intros q. by eapply utspace_alloc_ok.
Qed.
Definition free_resource (A : allocman_ops S) (r : resource) : M S unit :=
  match r with
  | RBlock p size => A.(allocman_mspace_free) p size
  | RSlot path => A.(allocman_cspace_free) path
  | RObject cookie size_bits => A.(allocman_utspace_free) cookie size_bits
  end.
Lemma library_free r s C : calm (am s) -> accounts L s ({[+ r +]} ⊎ C) ->
  wpf (free_resource (ops_of (nested 9)) r) (fun _ s' => steady s s' /\ accounts L s' C) s.
Proof using Allocators0.
  destruct nested_self as (HA & HF & HO). intros HC AC. destruct r; cbn [free_resource ops_of allocman_mspace_free allocman_cspace_free allocman_utspace_free];
    (eapply (free_calm L calls seL4_CNode_Move rounds (nested 8) HA HF); [| |exact HC|exact AC]).
  - apply (iface_takes_back L 3 Mspace _ (fun q A => calls.(mspace_free) A q p size)); [|done|lia]. intros q. by eapply mspace_free_ok.
  - by apply (queue_block L).
  - apply (iface_takes_back L 3 Cspace _ (fun q A => calls.(cspace_free) A q path)); [|done|lia]. intros q. by eapply cspace_free_ok.
  - by apply (queue_slot L).
  - apply (iface_takes_back L 3 Utspace _ (fun q A => calls.(utspace_free) A q cookie size_bits)); [|done|lia]. intros q. by eapply utspace_free_ok.
  - by apply (queue_object L).
Qed.
Lemma library_fill s C : calm (am s) -> accounts L s C ->
  wpf (allocman_fill_reserves rounds (nested 9)) (fun not_full s' => steady s s' /\ accounts L s' C /\ (not_full = false -> full (am s'))) s.
Proof using Allocators0.
  intros HC AC. unfold allocman_fill_reserves, _start_operation. do 6 fstep. fstep. fstep. rewrite (ca_operation _ HC). cbn [negb].
  assert (self_ok L 3 (nested 9) /\ self_frees L 3 (nested 9)) as [HA HF].
  { split; [apply (proj2 (nested_ok L calls seL4_CNode_Move uninit rounds 3 1))|apply (proj1 (nested_ok L calls seL4_CNode_Move uninit rounds 3 2))]. }
  set (s1 := set_am _ s).
  assert (accounts L s1 C) as AC1.
  { pose proof (accounts_flags L C s true (am s).(refilling_watermark) true AC) as E. unfold s1. destruct (am s). exact E. }
  assert (skeleton (upd_in_operation false (am s1)) = skeleton (am s)) as E1.
  { unfold s1. rewrite am_set_am. pose proof (ca_operation _ HC). destruct (am s). cbn in *. by subst. }
  fstep. eapply wpf_mono; [apply (refill_watermark_ok L calls seL4_CNode_Move rounds (nested 9) s1 C HA HF); [| |done]|].
  { unfold s1. rewrite am_set_am. apply HC. }
  { intros x. rewrite <- (ca_idle _ HC x). unfold s1. rewrite am_set_am. by destruct x. }
  intros found s2 (St & AC2 & Hf). unfold _end_operation. cbn [negb when]. do 4 fstep. fold (flagged false s2).
  assert (skeleton (am (flagged false s2)) = skeleton (am s)) as E2.
  { rewrite am_flagged, <- E1. unfold steady in St. change (upd_in_operation false (skeleton (am s2)) = upd_in_operation false (skeleton (am s1))). by rewrite St. }
  pose proof (accounts_flagged L false _ _ AC2) as AC3. destruct found.
  - eapply wpf_mono; [apply (refill_watermark_ok L calls seL4_CNode_Move rounds (nested 9) _ C HA HF); [| |done]|].
    + etransitivity; [exact (f_equal refilling_watermark E2)|apply HC].
    + intros x. etransitivity; [by apply skeleton_busy|apply HC].
    + intros found' s4 (St4 & AC4 & _). do 2 fstep. split_and!; [|done|done]. unfold steady in *. by rewrite St4.
  - destruct (Hf ltac:(unfold s1; by rewrite am_set_am) eq_refl) as [Hfull Hu]. unfold _refill_watermark. fstep. fstep.
    rewrite am_flagged. cbn [used_watermark upd_in_operation refilling_watermark]. rewrite Hu. cbn [negb]. rewrite orb_true_r. do 3 fstep.
    split_and!; [done|done|]. intros _. rewrite am_flagged. by destruct Hfull.
Qed.
End library_ok.

(** C22: The allocation manager keeps the accounts of everything the three allocators give out, through all their calls back
    to it. Take allocators that keep the contract [Allocators]: with manager operations that keep
    the accounts they return, having given out a new resource or taken one back. All three are attached, with the default
    properties, and the queues and reserves have memory for what is desired ([manager_ok], part of [accounts]). Between operations,
    with [C] in use by programs, everything given out is in exactly one place: in [C], a reserve or a queue of the
    manager, or in use by an allocator. Then each operation of the manager returns, or stops at the assertion that a queue
    for frees is full, where it does hold as many elements as it may; no other assertion fails: calls nest at most nine
    deep, no allocator is entered while it runs, and no reserve
    or queue is written outside its array. An allocation adds to [C] a block or slot that was not in it, or reports an
    error and leaves [C] in use; freeing a resource of [C] takes exactly it out; and filling the
    reserves reports success only when each of them is full. During an operation the same holds of what the
    allocators call. *)
Theorem allocman_keeps_accounts {S} `{!Managed S} (L : ledger S) calls seL4_CNode_Move uninit rounds
    `{!Allocators L calls seL4_CNode_Move rounds} s C : calm (am s) -> accounts L s C ->
  let A := allocman_library calls seL4_CNode_Move uninit rounds in
  (forall size, wpf (A.(allocman_mspace_alloc) size) (allocated L (fun p => RBlock p size) s C) s) /\
  wpf A.(allocman_cspace_alloc) (fun r => allocated L RSlot s C (r.2, r.1)) s /\
  (forall size_bits type path,
    wpf (A.(allocman_utspace_alloc) size_bits type path) (allocated L (fun c => RObject c size_bits) s C) s) /\
  (forall r C', C = {[+ r +]} ⊎ C' -> wpf (free_resource A r) (fun _ s' => steady s s' /\ accounts L s' C') s) /\
  wpf (allocman_fill_reserves rounds (allocman_self calls seL4_CNode_Move uninit rounds))
    (fun not_full s' => steady s s' /\ accounts L s' C /\ (not_full = false -> full (am s'))) s /\
  ops_ok L 3 A.
Proof.
  intros HC AC A. split; [|split; [|split; [|split; [|split]]]].
  - intros size. by eapply (library_mspace_alloc L).
  - apply wpf_bind. eapply wpf_mono; [by eapply (library_cspace_alloc L)|]. by intros [v e] s'.
  - intros size_bits type path. by eapply (library_utspace_alloc L).
  - intros r C' ->. by eapply (library_free L).
  - by eapply (library_fill L).
  - apply ops_self; [apply (proj2 (nested_ok L calls seL4_CNode_Move uninit rounds 3 1))|
      apply (proj1 (nested_ok L calls seL4_CNode_Move uninit rounds 3 2))].
Qed.

(** *** Where the manager is left in an operation, or does not work off its queues *)
Section left_over.
Context {S : Type} `{!Managed S} (rounds : nat) (R : internal S).
(** Attaching an allocator where there is one reports an error without ending the operation. *)
Lemma attach_again x i s : in_operation (am s) = false -> (get_space x (am s)).(have) = true ->
  ALLOCMAN_ATTACH rounds R x i s = Ret 1 (flagged true s).
Proof.
  intros Ho Hh. unfold ALLOCMAN_ATTACH, _start_operation, bind, get_am, gets, mod_am, modify, ret. rewrite Ho. cbn [negb assert].
  unfold ret. rewrite am_set_am. assert (get_space x (upd_in_operation true (am s)) = get_space x (am s)) as -> by (by destruct x).
  by rewrite Hh.
Qed.
(** In an operation that was not ended nothing is refilled at the end of the next one. *)
Lemma operation_left s : in_operation (am s) = true -> _start_operation s = Ret false s /\ _end_operation rounds R false s = Ret tt s.
Proof.
  intros Ho. assert (upd_in_operation true (am s) = am s) as E by (destruct (am s); cbn in *; by subst).
  unfold _start_operation, _end_operation, bind, get_am, gets, mod_am, modify, ret. cbn [negb when]. unfold ret. by rewrite Ho, E, set_am_am.
Qed.
(** As long as no reserve was used, resources that were queued are not freed. *)
Lemma queues_left s : (am s).(used_watermark) = false -> _refill_watermark rounds R s = Ret false s.
Proof. intros Hu. unfold _refill_watermark, bind, get_am, gets. by rewrite Hu, orb_true_r. Qed.
End left_over.

(** A manager with all three attached, a reserve of two slots and queues for freed resources *)
Definition demo_space : space_state := mk_space_state true (mk_interface allocman_default_properties NULL) 0 0.
Definition demo_manager : allocman := mk_allocman demo_space demo_space demo_space false false true
  4 (mk_stack 4096 4 []) 4 (mk_stack 8192 4 []) 4 (mk_stack 12288 4 []) 2 (mk_stack 16384 2 [])
  (20480, 20488, 20492) [mk_reserve 8 2 (mk_stack 20496 2 [])] (NULL, NULL, NULL) [].
Definition demo_state : demo := mk_demo demo_manager 1 [] demo_single [].
Lemma demo_calm : calm (am demo_state).
Proof. split; [done|done|]. by intros []. Qed.
Lemma demo_accounts : accounts demo_ledger demo_state ∅.
Proof.
  split.
  - split; try done; [by intros []|].
    constructor; [done|constructor].
  - intros x _. destruct x.
    + cbn. split; [constructor|split; [constructor|unfold demo_limit; lia]].
    + split; [|done]. exists (managed demo_config).
      destruct (single_create demo_ops demo_config 4096 4096 0 4104 ltac:(done) ltac:(done) ltac:(done) eq_refl) as (r & Hr & H).
      cbn [Z.eqb] in H. destruct H as (c & -> & _ & _ & _ & H). assert (c = demo_single) as -> by (vm_compute in Hr; by injection Hr). exact H.
    + cbn. lia.
  - vm_compute. reflexivity.
Qed.
(** A slot is allocated; the reserve of slots is filled at the end of the operation. *)
Definition demo_library : allocman_ops demo := allocman_library demo_calls demo_move demo_path 1000.
Definition demo_slot : cspacepath_t := mk_cspacepath 47 32 2 0 0 47 1.
Lemma demo_runs : match demo_library.(allocman_cspace_alloc) demo_state with
  | Ret (e, p) s' => bool_decide (e = 0 /\ p = demo_slot /\ count s'.(d_am).(cspace_slots) = 2) | Stop _ => false end = true.
Proof. vm_compute. reflexivity. Qed.
Definition demo_outcome (r : outcome demo (Z * cspacepath_t)) : Prop := exists s',
  r = Ret (0, demo_slot) s' /\ steady demo_state s' /\ accounts demo_ledger s' {[+ RSlot demo_slot +]} /\ count s'.(d_am).(cspace_slots) = 2.
Lemma demo_allocated (m : M demo (Z * cspacepath_t)) : 
  match m demo_state with
  | Ret (e, p) s' => bool_decide (e = 0 /\ p = demo_slot /\ count s'.(d_am).(cspace_slots) = 2) | Stop _ => false end = true ->
  wpf m (fun r => allocated demo_ledger RSlot demo_state ∅ (r.2, r.1)) demo_state -> demo_outcome (m demo_state).
Proof.
  intros E H. unfold wpf in H. destruct (m demo_state) as [[e p] s'|st]; [|discriminate E].
  apply bool_decide_eq_true in E as (-> & -> & Ec). destruct H as [H1 [H2 _]]. exists s'.
  split; [reflexivity|]. split; [exact H1|]. split; [|exact Ec]. by rewrite gmultiset_disj_union_right_id in H2.
Qed.
Lemma allocman_keeps_accounts_witness : demo_outcome (demo_library.(allocman_cspace_alloc) demo_state).
Proof.
  apply demo_allocated; [exact demo_runs|].
  exact (proj1 (proj2 (allocman_keeps_accounts demo_ledger demo_calls demo_move demo_path 1000 demo_state ∅ demo_calm demo_accounts))).
Defined.
