(* ===== verification/UVspace.v ===== *)
(** * The manager of virtual address spaces (libs/libsel4utils/src/vspace/vspace.c)

    A user-level manager keeps, for every page of an address space, the capability that is mapped there or the
    mark that the page is reserved, in a table of two levels, and the list of the reservations. The tables of the
    second level come from the address space that loaded this one (or, in the first one, from the allocator); they
    and the reservations are in memory, and are here in maps from their addresses. The contents of pages are not
    modelled. The build is the one for 32-bit ARM. *)
From stdpp Require Import base list gmap.
From Stdlib Require Import ZArith Lia.
From S2P Require Import Prelude.
From S2P Require Import Structures.
From S2P Require Import AllocBase.
From S2P Require Import CapOps.

(** ** Constants and data (include/sel4utils/vspace.h, vspace_internal.h) *)
Definition VSPACE_LEVEL_BITS : Z := 10.
Definition VSPACE_LEVEL_SIZE : Z := BIT VSPACE_LEVEL_BITS.
Definition PAGE_BITS_4K : Z := 12.
Definition PAGE_SIZE_4K : Z := BIT PAGE_BITS_4K.
Definition seL4_PageBits : Z := 12.
Definition seL4_PageTableBits : Z := 10.
Definition seL4_NoError : Z := 0.
Definition seL4_AllRights : Z := 7.
Definition seL4_ARM_PageCacheable : Z := 1.
Definition seL4_ARM_Default_VMAttributes : Z := 3.
Definition KERNEL_RESERVED_START : Z := 0xE0000000.
Definition KERNEL_RESERVED_END : Z := 0xFFFFF000.
Definition RESERVED : Z := 0xFFFFFFFF.
Definition EMPTY : Z := 0.
Definition FIRST_VADDR : Z := PAGE_SIZE_4K.
Definition PAGES_FOR_BOTTOM_LEVEL : Z := 2.
Definition BOTTOM_LEVEL_BITS_OFFSET : Z := 32 - 2 * VSPACE_LEVEL_BITS.
Definition TOP_LEVEL_BITS_OFFSET : Z := 32 - VSPACE_LEVEL_BITS.
Definition LEVEL_MASK : Z := MASK VSPACE_LEVEL_BITS.
Definition BOTTOM_LEVEL_INDEX (x : Z) : Z := (x >>w BOTTOM_LEVEL_BITS_OFFSET) &w LEVEL_MASK.
Definition TOP_LEVEL_INDEX (x : Z) : Z := (x >>w TOP_LEVEL_BITS_OFFSET) &w LEVEL_MASK.
Definition VSPACE_FREE : Z := 0xffffffff.
Definition VSPACE_PRESERVE : Z := 0.

(** The macros of libutils. [b] is not negative in the uses of the macros; MASK asserts that it is at most 31. *)
Definition BYTES_TO_4K_PAGES (b : Z) : Z := b / PAGE_SIZE_4K + (if b mod PAGE_SIZE_4K >? 0 then 1 else 0).
Definition ROUND_DOWN (n b : Z) : Z := n -w n mod b.
Definition ROUND_UP (n b : Z) : Z := n +w (if n mod b =? 0 then 0 else b - n mod b).

Record bottom_level_t := mk_bottom_level { bottom_level : list Z; cookies : list Z }.
Definition upd_bottom_level (v : list Z) (l : bottom_level_t) : bottom_level_t := mk_bottom_level v l.(cookies).
Definition upd_cookies (v : list Z) (l : bottom_level_t) : bottom_level_t := mk_bottom_level l.(bottom_level) v.
(** All bytes zero *)
Definition zero_level : bottom_level_t :=
  mk_bottom_level (replicate (Z.to_nat VSPACE_LEVEL_SIZE) 0) (replicate (Z.to_nat VSPACE_LEVEL_SIZE) 0).
Definition sizeof_bottom_level_t : Z := 8192.

Record sel4utils_res_t := mk_res {
  start : Z; end_ : Z; rights : Z; cacheable : Z; malloced : Z; next : Z }.
Definition upd_start (v : Z) (r : sel4utils_res_t) := mk_res v r.(end_) r.(rights) r.(cacheable) r.(malloced) r.(next).
Definition upd_end (v : Z) (r : sel4utils_res_t) := mk_res r.(start) v r.(rights) r.(cacheable) r.(malloced) r.(next).
Definition upd_rights (v : Z) (r : sel4utils_res_t) := mk_res r.(start) r.(end_) v r.(cacheable) r.(malloced) r.(next).
Definition upd_cacheable (v : Z) (r : sel4utils_res_t) := mk_res r.(start) r.(end_) r.(rights) v r.(malloced) r.(next).
Definition upd_malloced (v : Z) (r : sel4utils_res_t) := mk_res r.(start) r.(end_) r.(rights) r.(cacheable) v r.(next).
Definition upd_next (v : Z) (r : sel4utils_res_t) := mk_res r.(start) r.(end_) r.(rights) r.(cacheable) r.(malloced) v.
Definition sizeof_sel4utils_res_t : Z := 24.

(** [bottom_levels] and [reservations] are the memory of the tables and of the reservations. The function
    [map_page] of the structure is a parameter of the operations. *)
Record sel4utils_alloc_data := mk_data {
  page_directory : Z;
  vka : Z;
  top_level : list Z;
  next_bottom_level_vaddr : Z;
  last_allocated : Z;
  bootstrap : Z;
  reservation_head : Z;
  bottom_levels : gmap Z bottom_level_t;
  reservations : gmap Z sel4utils_res_t }.
Definition upd_top_level (v : list Z) (d : sel4utils_alloc_data) := mk_data d.(page_directory) d.(vka) v
  d.(next_bottom_level_vaddr) d.(last_allocated) d.(bootstrap) d.(reservation_head) d.(bottom_levels) d.(reservations).
Definition upd_next_bottom_level_vaddr (v : Z) (d : sel4utils_alloc_data) := mk_data d.(page_directory) d.(vka)
  d.(top_level) v d.(last_allocated) d.(bootstrap) d.(reservation_head) d.(bottom_levels) d.(reservations).
Definition upd_last_allocated (v : Z) (d : sel4utils_alloc_data) := mk_data d.(page_directory) d.(vka) d.(top_level)
  d.(next_bottom_level_vaddr) v d.(bootstrap) d.(reservation_head) d.(bottom_levels) d.(reservations).
Definition upd_reservation_head (v : Z) (d : sel4utils_alloc_data) := mk_data d.(page_directory) d.(vka) d.(top_level)
  d.(next_bottom_level_vaddr) d.(last_allocated) d.(bootstrap) v d.(bottom_levels) d.(reservations).
Definition upd_bottom_levels (v : gmap Z bottom_level_t) (d : sel4utils_alloc_data) := mk_data d.(page_directory) d.(vka)
  d.(top_level) d.(next_bottom_level_vaddr) d.(last_allocated) d.(bootstrap) d.(reservation_head) v d.(reservations).
Definition upd_reservations (v : gmap Z sel4utils_res_t) (d : sel4utils_alloc_data) := mk_data d.(page_directory) d.(vka)
  d.(top_level) d.(next_bottom_level_vaddr) d.(last_allocated) d.(bootstrap) d.(reservation_head) d.(bottom_levels) v.

(** ** What the manager calls

    The functions of an allocator (libsel4vka/include/vka/vka.h), by the address of its structure, those of the
    address space that loads, by its address; the system calls; malloc and free. *)
Record vka_t (E : Type) := mk_vka {
  fn_cspace_alloc : M E (Z * Z);
  fn_cspace_make_path : Z -> cspacepath_t;
  fn_cspace_free : Z -> M E unit;
  fn_utspace_alloc : cspacepath_t -> Z -> Z -> M E (Z * Z);
  fn_utspace_free : Z -> Z -> Z -> M E unit }.
Arguments mk_vka {E}. Arguments fn_cspace_alloc {E}. Arguments fn_cspace_make_path {E}. Arguments fn_cspace_free {E}.
Arguments fn_utspace_alloc {E}. Arguments fn_utspace_free {E}.
Record vka_object_t := mk_object { cptr : Z; ut : Z; obj_type : Z; obj_size_bits : Z }.
Record vspace_calls (E : Type) := mk_calls {
  vka_at : Z -> vka_t E;
  vspace_new_pages : Z -> Z -> Z -> Z -> M E Z;
  vspace_unmap_pages : Z -> Z -> Z -> Z -> Z -> M E unit;
  seL4_ARM_Page_Map : Z -> Z -> Z -> Z -> Z -> M E Z;
  seL4_ARM_Page_Unmap : Z -> M E Z;
  seL4_ARM_PageTable_Map : Z -> Z -> Z -> Z -> M E Z;
  seL4_CNode_Delete : Z -> Z -> Z -> M E Z;
  malloc : Z -> M E Z;
  free : Z -> M E unit;
  allocated_object : option (vka_object_t -> M E unit) }.
Arguments mk_calls {E}. Arguments vka_at {E}. Arguments vspace_new_pages {E}. Arguments vspace_unmap_pages {E}.
Arguments seL4_ARM_Page_Map {E}. Arguments seL4_ARM_Page_Unmap {E}. Arguments seL4_ARM_PageTable_Map {E}.
Arguments seL4_CNode_Delete {E}. Arguments malloc {E}. Arguments free {E}. Arguments allocated_object {E}.

(** libsel4vka/include/vka/kobject_t.h; -1 is a word. *)
Definition kobject_frame_type (objectSize : Z) : Z :=
  if objectSize =? seL4_PageBits then seL4_ARM_SmallPageObject
  else if objectSize =? 16 then seL4_ARM_LargePageObject
  else if objectSize =? 20 then seL4_ARM_SectionObject
  else if objectSize =? 24 then seL4_ARM_SuperSectionObject
  else wordMax.

Section vspace.
Context {E : Type} (calls : vspace_calls E) (uninitialised : sel4utils_res_t).
Abbreviation T := (M (E * sel4utils_alloc_data)).
Definition env {B} (op : M E B) : T B := zoom fst (fun e x => (e, x.2)) op.
Definition get_alloc_data : T sel4utils_alloc_data := gets snd.
Definition mod_data (f : sel4utils_alloc_data -> sel4utils_alloc_data) : T unit := modify (fun x => (x.1, f x.2)).

(** ** Objects (libsel4vka/include/vka/object.h) *)
Definition vka_alloc_object (a type size_bits : Z) : M E (Z * vka_object_t) :=
  let v := calls.(vka_at) a in
  let* r := v.(fn_cspace_alloc) in
  if negb (r.1 =? 0) then ret (r.1, mk_object 0 0 0 0)
  else
    let path := v.(fn_cspace_make_path) r.2 in
    let* u := v.(fn_utspace_alloc) path type size_bits in
    if negb (u.1 =? 0) then
      v.(fn_cspace_free) r.2 ;;;
      ret (u.1, mk_object 0 0 0 0)
    else ret (0, mk_object r.2 u.2 type size_bits).
Definition vka_free_object (a : Z) (o : vka_object_t) : M E unit :=
  let v := calls.(vka_at) a in
  let path := v.(fn_cspace_make_path) o.(cptr) in
  calls.(seL4_CNode_Delete) path.(root) path.(capPtr) path.(capDepth) ;;;
  v.(fn_cspace_free) o.(cptr) ;;;
  v.(fn_utspace_free) o.(obj_type) o.(obj_size_bits) o.(ut).
Definition vka_alloc_frame (a size_bits : Z) : M E (Z * vka_object_t) :=
  vka_alloc_object a (kobject_frame_type size_bits) size_bits.
Definition vka_alloc_page_table (a : Z) : M E (Z * vka_object_t) :=
  vka_alloc_object a seL4_ARM_PageTableObject seL4_PageTableBits.

(** ** Mapping a page (src/mapping.c)

    The result is the error and the objects made: at most one page table. *)
Definition sel4utils_map_page (a pd frame vaddr rights cacheable : Z) : M E (Z * list vka_object_t) :=
  assert (a != NULL) ;;;
  assert (pd != 0) ;;;
  assert (frame != 0) ;;;
  assert (vaddr != 0) ;;;
  assert (rights != 0) ;;;
  let attr := if word_bool cacheable then seL4_ARM_PageCacheable else 0 in
  let* error := calls.(seL4_ARM_Page_Map) frame pd vaddr rights attr in
  if error =? seL4_FailedLookup then
    let* o := vka_alloc_page_table a in
    let* error :=
      if o.1 =? 0 then calls.(seL4_ARM_PageTable_Map) o.2.(cptr) pd vaddr seL4_ARM_Default_VMAttributes
      else ret o.1 in
    if error =? seL4_DeleteFirst then
      vka_free_object a o.2 ;;;
      let* error := calls.(seL4_ARM_Page_Map) frame pd vaddr rights attr in
      ret (error, [])
    else
      let* error := (if error =? 0 then calls.(seL4_ARM_Page_Map) frame pd vaddr rights attr else ret error) in
      ret (error, [o.2])
  else ret (error, []).

(** vspace_maybe_call_allocated_object, for a list of objects *)
Definition maybe_call_allocated_object (o : vka_object_t) : M E unit :=
  match calls.(allocated_object) with Some f => f o | None => ret tt end.
Fixpoint call_allocated_objects (l : list vka_object_t) : M E unit :=
  match l with [] => ret tt | o :: l => maybe_call_allocated_object o ;;; call_allocated_objects l end.

Definition sel4utils_map_page_pd (cap vaddr rights cacheable size_bits : Z) : T Z :=
  let* data := get_alloc_data in
  let* r := env (sel4utils_map_page data.(vka) data.(page_directory) cap vaddr rights cacheable) in
  if negb (r.1 =? 0) then ret (-1)
  else
    env (call_allocated_objects r.2) ;;;
    ret seL4_NoError.

(** ** The table *)
(** [data->top_level[TOP_LEVEL_INDEX(vaddr)]] and the table at an address *)
Definition level_ptr (vaddr : Z) : T Z :=
  let* data := get_alloc_data in of_option (data.(top_level) !! Z.to_nat (TOP_LEVEL_INDEX vaddr)).
Definition level_at (p : Z) : T bottom_level_t :=
  let* data := get_alloc_data in of_option (data.(bottom_levels) !! p).
Definition set_level_ptr (vaddr p : Z) : T unit :=
  mod_data (fun data => upd_top_level (<[Z.to_nat (TOP_LEVEL_INDEX vaddr) := p]> data.(top_level)) data).
Definition set_level (p : Z) (l : bottom_level_t) : T unit :=
  mod_data (fun data => upd_bottom_levels (<[p := l]> data.(bottom_levels)) data).
Definition level_entry (l : list Z) (vaddr : Z) : T Z := of_option (l !! Z.to_nat (BOTTOM_LEVEL_INDEX vaddr)).

Section update.
Context (create_level : Z -> T Z).
Definition assure_level (vaddr : Z) : T Z :=
  let* p := level_ptr vaddr in
  if p =? NULL then
    let* error := create_level vaddr in
    if negb (error =? 0) then ret (-1) else ret 0
  else ret 0.
Definition update_entry (vaddr page cookie : Z) : T Z :=
  let* error := assure_level vaddr in
  if negb (error =? seL4_NoError) then ret (-1)
  else
    let* p := level_ptr vaddr in
    assert (p != RESERVED) ;;;
    assert (p != NULL) ;;;
    let* l := level_at p in
    let i := Z.to_nat (BOTTOM_LEVEL_INDEX vaddr) in
    set_level p (mk_bottom_level (<[i := page]> l.(bottom_level)) (<[i := cookie]> l.(cookies))) ;;;
    ret seL4_NoError.
Definition update (vaddr page cookie : Z) : T Z :=
  if page =? RESERVED then ret (-1)
  else
    assert (page != 0) ;;;
    let* p := level_ptr vaddr in
    assert (p != RESERVED) ;;;
    update_entry vaddr page cookie.
End update.

(** *** New tables

    [alloc_and_map_bootstrap_frame] and [bootstrap_create_level] are in bootstrap.c: the first address space has
    addresses for its tables. To enter a new table it may need another one; the depth is a bound on that. *)
Definition alloc_and_map_bootstrap_frame (vaddr : Z) : T (Z * vka_object_t) :=
  let* data := get_alloc_data in
  let* o := env (vka_alloc_frame data.(vka) seL4_PageBits) in
  if negb (o.1 =? 0) then ret (o.1, mk_object 0 0 0 0)
  else
    let* r := env (sel4utils_map_page data.(vka) data.(page_directory) o.2.(cptr) vaddr seL4_AllRights 1) in
    if negb (r.1 =? 0) then
      env (vka_free_object data.(vka) o.2) ;;;
      ret (r.1, o.2)
    else
      env (call_allocated_objects r.2) ;;;
      ret (seL4_NoError, o.2).
(** The loop over the pages of a table: [None] if one of them cannot be had, or the address after them *)
Fixpoint bootstrap_pages (create_level : Z -> T Z) (n : nat) (pt_vaddr : Z) : T (option Z) :=
  match n with
  | O => ret (Some pt_vaddr)
  | S n =>
      let* o := alloc_and_map_bootstrap_frame pt_vaddr in
      if negb (o.1 =? seL4_NoError) then ret None
      else
        let* error := update create_level pt_vaddr o.2.(cptr) o.2.(ut) in
        assert (error =? seL4_NoError) ;;;
        bootstrap_pages create_level n (pt_vaddr +w PAGE_SIZE_4K)
  end.
Definition create_level_with (bootstrap_create_level : Z -> T Z) (vaddr : Z) : T Z :=
  let* data := get_alloc_data in
  if data.(bootstrap) =? NULL then bootstrap_create_level vaddr
  else
    let* p := env (calls.(vspace_new_pages) data.(bootstrap) seL4_AllRights PAGES_FOR_BOTTOM_LEVEL seL4_PageBits) in
    if p =? NULL then ret (-1)
    else
      set_level p zero_level ;;;
      set_level_ptr vaddr p ;;;
      ret 0.
Fixpoint bootstrap_create_level (depth : nat) (vaddr : Z) : T Z :=
  match depth with
  | O => halt_with NoFuel
  | S depth =>
      let* data := get_alloc_data in
      let* r := bootstrap_pages (create_level_with (bootstrap_create_level depth)) (Z.to_nat PAGES_FOR_BOTTOM_LEVEL)
        data.(next_bottom_level_vaddr) in
      match r with
      | None => ret (-1)
      | Some pt_vaddr =>
          let* data := get_alloc_data in
          set_level data.(next_bottom_level_vaddr) zero_level ;;;
          set_level_ptr vaddr data.(next_bottom_level_vaddr) ;;;
          mod_data (upd_next_bottom_level_vaddr pt_vaddr) ;;;
          ret 0
      end
  end.
Definition bootstrap_depth : nat := 4.
Definition create_level : Z -> T Z := create_level_with (bootstrap_create_level bootstrap_depth).
Abbreviation update_entry' := (update_entry create_level).

(** *** Entries *)
Definition reserve (vaddr : Z) : T Z :=
  let* p := level_ptr vaddr in
  assert (p != RESERVED) ;;;
  update_entry' vaddr RESERVED 0.
Definition clear (vaddr : Z) : T unit :=
  let* p := level_ptr vaddr in
  assert (p != NULL) ;;;
  assert (p != RESERVED) ;;;
  update_entry' vaddr 0 0 ;;;
  let* data := get_alloc_data in
  when (vaddr <? data.(last_allocated)) (mod_data (upd_last_allocated vaddr)).
Definition get_cap (vaddr : Z) : T Z :=
  let* p := level_ptr vaddr in
  if p =? NULL then ret 0 else let* l := level_at p in level_entry l.(bottom_level) vaddr.
Definition get_cookie (vaddr : Z) : T Z :=
  let* p := level_ptr vaddr in
  if p =? NULL then ret 0 else let* l := level_at p in level_entry l.(cookies) vaddr.
Definition is_available (vaddr : Z) : T bool :=
  let* p := level_ptr vaddr in
  if p =? NULL then ret true
  else if p =? RESERVED then ret false
  else let* l := level_at p in let* c := level_entry l.(bottom_level) vaddr in ret (c =? 0).
Definition is_reserved (vaddr : Z) : T bool :=
  let* p := level_ptr vaddr in
  if p =? RESERVED then ret true
  else if p =? NULL then ret false
  else let* l := level_at p in let* c := level_entry l.(bottom_level) vaddr in ret (c =? RESERVED).

(** [1 << size_bits] is undefined if it is not an [int]. *)
Definition page_bytes (size_bits : Z) : T Z :=
  of_option (if (0 <=? size_bits) && (size_bits <=? 30) then Some (2 ^ size_bits) else None).
(** The number of times round [for (int i = 0; i < (1 << size_bits); i += PAGE_SIZE_4K)] *)
Definition page_rounds (bytes : Z) : nat := Z.to_nat ((bytes + (PAGE_SIZE_4K - 1)) / PAGE_SIZE_4K).
Fixpoint entries_loop (f : Z -> T Z) (n : nat) (vaddr : Z) : T Z :=
  match n with
  | O => ret seL4_NoError
  | S n =>
      let* error := f vaddr in
      if error =? seL4_NoError then entries_loop f n (vaddr +w PAGE_SIZE_4K) else ret error
  end.
Definition update_entries (vaddr cap size_bits cookie : Z) : T Z :=
  let* bytes := page_bytes size_bits in
  entries_loop (fun v => update create_level v cap cookie) (page_rounds bytes) vaddr.
Definition reserve_entries (vaddr size_bits : Z) : T Z :=
  let* bytes := page_bytes size_bits in
  entries_loop reserve (page_rounds bytes) vaddr.
Definition clear_entries (vaddr size_bits : Z) : T unit :=
  let* bytes := page_bytes size_bits in
  assert (vaddr &w (bytes - 1) == 0) ;;;
  entries_loop (fun v => clear v ;;; ret seL4_NoError) (page_rounds bytes) vaddr ;;;
  ret tt.

(** ** Ranges *)
(** [num_pages * (1 << size_bits)] in pages of 4K *)
Definition num_4k_pages (num_pages size_bits : Z) : T Z :=
  let* bytes := page_bytes size_bits in ret (BYTES_TO_4K_PAGES (num_pages *w bytes)).
(** The loops that check [n] pages, until one fails *)
Fixpoint all_pages (ok : Z -> T bool) (n : nat) (vaddr : Z) : T bool :=
  match n with
  | O => ret true
  | S n => let* b := ok vaddr in if b then all_pages ok n (vaddr +w PAGE_SIZE_4K) else ret false
  end.
Definition check_empty_range (vaddr num_pages size_bits : Z) : T bool :=
  let* n := num_4k_pages num_pages size_bits in
  all_pages (fun v => let* a := is_available v in if a then let* r := is_reserved v in ret (negb r) else ret false)
    (Z.to_nat n) vaddr.
Definition check_reserved_range (vaddr num_pages size_bits : Z) : T bool :=
  let* n := num_4k_pages num_pages size_bits in all_pages is_reserved (Z.to_nat n) vaddr.
Definition res_at (p : Z) : T sel4utils_res_t :=
  let* data := get_alloc_data in of_option (data.(reservations) !! p).
Definition mod_res (p : Z) (f : sel4utils_res_t -> sel4utils_res_t) : T unit :=
  let* r := res_at p in mod_data (fun data => upd_reservations (<[p := f r]> data.(reservations)) data).
Definition check_reservation_bounds (r : sel4utils_res_t) (vaddr num_pages size_bits : Z) : T bool :=
  let* bytes := page_bytes size_bits in
  ret ((vaddr >=? r.(start)) && (vaddr +w num_pages *w bytes <=? r.(end_))).
Definition check_reservation (r : sel4utils_res_t) (vaddr num_pages size_bits : Z) : T bool :=
  let* bounds := check_reservation_bounds r vaddr num_pages size_bits in
  let* reserved := check_reserved_range vaddr num_pages size_bits in
  ret (bounds && reserved).

(** ** The list of reservations

    A walk over it takes at most one step more than there are reservations in memory. *)
Definition res_fuel (data : sel4utils_alloc_data) : nat := Datatypes.S (size data.(reservations)).
Fixpoint insert_after (fuel : nat) (reservation at_ prev current : Z) : T unit :=
  match fuel with
  | O => halt_with NoFuel
  | S fuel =>
      if current =? NULL then mod_res prev (upd_next reservation)
      else
        let* c := res_at current in
        if at_ >? c.(start) then
          mod_res reservation (upd_next current) ;;;
          mod_res prev (upd_next reservation)
        else insert_after fuel reservation at_ current c.(next)
  end.
Definition insert_reservation (reservation : Z) : T unit :=
  assert (reservation != NULL) ;;;
  mod_res reservation (upd_next NULL) ;;;
  let* data := get_alloc_data in
  let* r := res_at reservation in
  let* first := (if data.(reservation_head) =? NULL then ret true
                 else let* h := res_at data.(reservation_head) in ret (r.(start) >? h.(start))) in
  if (first : bool) then
    mod_res reservation (upd_next data.(reservation_head)) ;;;
    mod_data (upd_reservation_head reservation)
  else
    let* h := res_at data.(reservation_head) in
    insert_after (res_fuel data) reservation r.(start) data.(reservation_head) h.(next).
Fixpoint remove_after (fuel : nat) (reservation prev current : Z) : T unit :=
  match fuel with
  | O => halt_with NoFuel
  | S fuel =>
      if current =? NULL then
        mod_res prev (upd_next NULL) ;;;
        mod_res reservation (upd_next NULL)
      else if current =? reservation then
        let* r := res_at reservation in
        mod_res prev (upd_next r.(next)) ;;;
        mod_res reservation (upd_next NULL)
      else
        let* c := res_at current in
        remove_after fuel reservation current c.(next)
  end.
Definition remove_reservation (reservation : Z) : T unit :=
  let* data := get_alloc_data in
  if reservation =? data.(reservation_head) then
    let* h := res_at data.(reservation_head) in
    mod_data (upd_reservation_head h.(next)) ;;;
    mod_res reservation (upd_next NULL)
  else
    let* prev := res_at data.(reservation_head) in
    remove_after (res_fuel data) reservation data.(reservation_head) prev.(next).
Fixpoint find_reserve_from (fuel : nat) (current vaddr : Z) : T Z :=
  match fuel with
  | O => halt_with NoFuel
  | S fuel =>
      if current =? NULL then ret NULL
      else
        let* c := res_at current in
        if (vaddr >=? c.(start)) && (vaddr <? c.(end_)) then ret current
        else find_reserve_from fuel c.(next) vaddr
  end.
Definition find_reserve (vaddr : Z) : T Z :=
  let* data := get_alloc_data in find_reserve_from (res_fuel data) data.(reservation_head) vaddr.

(** The number of pages from an address to another one bounds the loops that go there. *)
Definition steps_to (v e : Z) : nat := Datatypes.S (Z.to_nat ((e - v + (PAGE_SIZE_4K - 1)) / PAGE_SIZE_4K)).
Fixpoint reserve_until (fuel : nat) (v e error : Z) : T Z :=
  match fuel with
  | O => halt_with NoFuel
  | S fuel =>
      if (v <? e) && (error =? seL4_NoError) then
        let* error := reserve v in reserve_until fuel (v +w PAGE_SIZE_4K) e error
      else ret v
  end.
Definition perform_reservation (reservation vaddr bytes rights cacheable : Z) : T unit :=
  assert (reservation != NULL) ;;;
  mod_res reservation (upd_start (ROUND_DOWN vaddr PAGE_SIZE_4K)) ;;;
  mod_res reservation (upd_end (ROUND_UP (vaddr +w bytes) PAGE_SIZE_4K)) ;;;
  mod_res reservation (upd_rights rights) ;;;
  mod_res reservation (upd_cacheable cacheable) ;;;
  let* r := res_at reservation in
  let* v := reserve_until (steps_to r.(start) r.(end_)) r.(start) r.(end_) seL4_NoError in
  mod_res reservation (upd_end v) ;;;
  insert_reservation reservation.

(** ** Finding a range *)
Fixpoint find_range_from (fuel : nat) (size_bits n current contiguous start : Z) : T Z :=
  match fuel with
  | O => halt_with NoFuel
  | S fuel =>
      if contiguous <? n then
        let* a := is_available current in
        let* aligned := (if a : bool then assert (size_bits <=? 31) ;;; ret (start &w MASK size_bits == 0) else ret false) in
        let start := if aligned : bool then start else current +w PAGE_SIZE_4K in
        let contiguous := if aligned then contiguous + 1 else 0 in
        let current := current +w PAGE_SIZE_4K in
        if current >=? KERNEL_RESERVED_START then ret NULL
        else find_range_from fuel size_bits n current contiguous start
      else
        mod_data (upd_last_allocated current) ;;;
        ret start
  end.
Definition find_range (num_pages size_bits : Z) : T Z :=
  let* n := num_4k_pages num_pages size_bits in
  let* data := get_alloc_data in
  find_range_from (steps_to data.(last_allocated) KERNEL_RESERVED_START) size_bits n data.(last_allocated) 0
    data.(last_allocated).

(** ** Pages *)
Section pages.
(** The function [map_page] of the structure *)
Context (map_page : Z -> Z -> Z -> Z -> Z -> T Z).
Fixpoint map_pages_loop (n : nat) (caps : list Z) (cookies : option (list Z)) (vaddr size_bits rights cacheable : Z) : T Z :=
  match n with
  | O => ret seL4_NoError
  | S n =>
      let* cap := of_option (head caps) in
      assert (cap != 0) ;;;
      let* error := map_page cap vaddr rights cacheable size_bits in
      if negb (error =? seL4_NoError) then ret error
      else
        let* cookie := match cookies with None => ret 0 | Some l => of_option (head l) end in
        let* error := update_entries vaddr cap size_bits cookie in
        let* bytes := page_bytes size_bits in
        if negb (error =? seL4_NoError) then ret error
        else map_pages_loop n (tail caps) (tail <$> cookies) (vaddr +w bytes) size_bits rights cacheable
  end.
Definition map_pages_at_vaddr (caps : list Z) (cookies : option (list Z)) (vaddr num_pages size_bits rights cacheable : Z) :
    T Z :=
  map_pages_loop (Z.to_nat num_pages) caps cookies vaddr size_bits rights cacheable.
Definition sel4utils_map_pages_at_vaddr (caps : list Z) (cookies : option (list Z)) (vaddr num_pages size_bits
    reservation : Z) : T Z :=
  let* res := res_at reservation in
  let* ok := check_reservation res vaddr num_pages size_bits in
  if negb ok then ret (-1)
  else map_pages_at_vaddr caps cookies vaddr num_pages size_bits res.(rights) res.(cacheable).
Definition sel4utils_get_cap (vaddr : Z) : T Z :=
  let* cap := get_cap vaddr in ret (if cap =? RESERVED then 0 else cap).
Definition sel4utils_get_cookie (vaddr : Z) : T Z := get_cookie vaddr.
Definition sel4utils_map_pages (caps : list Z) (cookies : option (list Z)) (rights num_pages size_bits cacheable : Z) :
    T Z :=
  let* vaddr := find_range num_pages size_bits in
  if vaddr =? NULL then ret NULL
  else
    let* error := map_pages_at_vaddr caps cookies vaddr num_pages size_bits rights cacheable in
    ret (if error =? seL4_NoError then vaddr else NULL).

Fixpoint unmap_loop (n : nat) (reserve_ vka_ vaddr size_bits : Z) : T unit :=
  match n with
  | O => ret tt
  | S n =>
      let* cap := sel4utils_get_cap vaddr in
      when (negb (cap =? 0)) (let* c := get_cap vaddr in env (calls.(seL4_ARM_Page_Unmap) c) ;;; ret tt) ;;;
      when (negb (vka_ =? VSPACE_PRESERVE))
        (let v := calls.(vka_at) vka_ in
         let path := v.(fn_cspace_make_path) cap in
         env (calls.(seL4_CNode_Delete) path.(root) path.(capPtr) path.(capDepth)) ;;;
         env (v.(fn_cspace_free) cap) ;;;
         let* cookie := sel4utils_get_cookie vaddr in
         env (v.(fn_utspace_free) (kobject_frame_type size_bits) size_bits cookie)) ;;;
      (if reserve_ =? NULL then clear_entries vaddr size_bits
       else reserve_entries vaddr size_bits ;;; ret tt) ;;;
      let* bytes := page_bytes size_bits in
      unmap_loop n reserve_ vka_ (vaddr +w bytes) size_bits
  end.
Definition sel4utils_unmap_pages (vaddr num_pages size_bits vka_ : Z) : T unit :=
  let* data := get_alloc_data in
  let* reserve_ := find_reserve vaddr in
  let vka_ := if vka_ =? VSPACE_FREE then data.(vka) else vka_ in
  unmap_loop (Z.to_nat num_pages) reserve_ vka_ vaddr size_bits.

(** The loop of [new_pages_at_vaddr]: the error and the number of rounds that were completed *)
Fixpoint new_pages_loop (n : nat) (i vaddr size_bits rights cacheable error : Z) : T (Z * Z) :=
  match n with
  | O => ret (error, i)
  | S n =>
      let* data := get_alloc_data in
      let* o := env (vka_alloc_frame data.(vka) size_bits) in
      if negb (o.1 =? 0) then ret (error, i)
      else
        let* error := map_page o.2.(cptr) vaddr rights cacheable size_bits in
        if error =? seL4_NoError then
          let* error := update_entries vaddr o.2.(cptr) size_bits o.2.(ut) in
          let* bytes := page_bytes size_bits in
          new_pages_loop n (i + 1) (vaddr +w bytes) size_bits rights cacheable error
        else
          env (vka_free_object data.(vka) o.2) ;;;
          ret (error, i)
  end.
Definition new_pages_at_vaddr (vaddr num_pages size_bits rights cacheable : Z) : T Z :=
  let* r := new_pages_loop (Z.to_nat num_pages) 0 vaddr size_bits rights cacheable seL4_NoError in
  let* data := get_alloc_data in
  when (r.2 <? num_pages) (sel4utils_unmap_pages vaddr r.2 size_bits data.(vka)) ;;;
  ret r.1.
Definition sel4utils_new_pages_at_vaddr (vaddr num_pages size_bits reservation : Z) : T Z :=
  let* res := res_at reservation in
  let* ok := check_reservation res vaddr num_pages size_bits in
  if negb ok then ret (-1) else new_pages_at_vaddr vaddr num_pages size_bits res.(rights) res.(cacheable).
Definition sel4utils_new_pages (rights num_pages size_bits : Z) : T Z :=
  let* vaddr := find_range num_pages size_bits in
  if vaddr =? NULL then ret NULL
  else
    let* error := new_pages_at_vaddr vaddr num_pages size_bits rights 1 in
    ret (if error =? seL4_NoError then vaddr else NULL).
End pages.

(** ** Reservations

    A new one is a part of memory whose contents are not known. The operations with a result give the error and
    the address of the range, or the address of the reservation. *)
Definition sel4utils_reserve_range_no_alloc (reservation size rights cacheable : Z) : T (Z * Z) :=
  let* vaddr := find_range (BYTES_TO_4K_PAGES size) seL4_PageBits in
  if vaddr =? NULL then ret (-1, NULL)
  else
    mod_res reservation (upd_malloced 0) ;;;
    perform_reservation reservation vaddr size rights cacheable ;;;
    ret (0, vaddr).
Definition malloc_res : T Z :=
  let* p := env (calls.(malloc) sizeof_sel4utils_res_t) in
  when (negb (p =? NULL)) (mod_data (fun data => upd_reservations (<[p := uninitialised]> data.(reservations)) data)) ;;;
  ret p.
Definition free_res (p : Z) : T unit :=
  mod_data (fun data => upd_reservations (delete p data.(reservations)) data) ;;;
  env (calls.(free) p).
Definition sel4utils_reserve_range (size rights cacheable : Z) : T (Z * Z) :=
  let* res := malloc_res in
  if res =? NULL then ret (NULL, NULL)
  else
    mod_res res (upd_malloced 1) ;;;
    let* r := sel4utils_reserve_range_no_alloc res size rights cacheable in
    if negb (r.1 =? 0) then free_res res ;;; ret (NULL, NULL) else ret (res, r.2).
Definition sel4utils_reserve_range_at_no_alloc (reservation vaddr size rights cacheable : Z) : T Z :=
  let* ok := check_empty_range vaddr (BYTES_TO_4K_PAGES size) seL4_PageBits in
  if negb ok then ret (-1)
  else
    perform_reservation reservation vaddr size rights cacheable ;;;
    ret 0.
Definition sel4utils_reserve_range_at (vaddr size rights cacheable : Z) : T Z :=
  let* res := malloc_res in
  if res =? NULL then ret NULL
  else
    let* error := sel4utils_reserve_range_at_no_alloc res vaddr size rights cacheable in
    if negb (error =? 0) then free_res res ;;; ret NULL else ret res.

(** The loop that clears what is reserved *)
Definition clear_reserved (v : Z) : T unit :=
  let* c := get_cap v in when (c =? RESERVED) (clear v).
Fixpoint clear_until (fuel : nat) (v e : Z) : T unit :=
  match fuel with
  | O => halt_with NoFuel
  | S fuel =>
      if v <? e then clear_reserved v ;;; clear_until fuel (v +w PAGE_SIZE_4K) e else ret tt
  end.
Definition sel4utils_free_reservation_no_alloc (res : Z) : T unit :=
  let* r := res_at res in
  clear_until (steps_to r.(start) r.(end_)) r.(start) r.(end_) ;;;
  remove_reservation res.
Definition sel4utils_free_reservation (reservation : Z) : T unit :=
  sel4utils_free_reservation_no_alloc reservation ;;;
  free_res reservation.
Definition sel4utils_free_reservation_by_vaddr (vaddr : Z) : T unit :=
  let* r := find_reserve vaddr in sel4utils_free_reservation r.

(** The two loops of sel4utils_move_resize_reservation go over a range but for the part of it in [lo, hi). *)
Fixpoint outside_until (f : Z -> T unit) (fuel : nat) (lo hi v e : Z) : T unit :=
  match fuel with
  | O => halt_with NoFuel
  | S fuel =>
      if v <? e then
        if (v <? lo) || (v >=? hi) then f v ;;; outside_until f fuel lo hi (v +w PAGE_SIZE_4K) e
        else outside_until f fuel lo hi (hi -w PAGE_SIZE_4K +w PAGE_SIZE_4K) e
      else ret tt
  end.
Definition reserve_asserted (v : Z) : T unit := let* error := reserve v in assert (error =? 0).
Definition sel4utils_move_resize_reservation (reservation vaddr bytes : Z) : T Z :=
  assert (reservation != NULL) ;;;
  let* res := res_at reservation in
  let new_start := ROUND_DOWN vaddr PAGE_SIZE_4K in
  let new_end := ROUND_UP (vaddr +w bytes) PAGE_SIZE_4K in
  let* before := (if new_start <? res.(start) then
    check_empty_range new_start (BYTES_TO_4K_PAGES (res.(start) -w new_start)) seL4_PageBits else ret true) in
  if negb before then ret (-1)
  else
    let* behind := (if new_end >? res.(end_) then
      check_empty_range res.(end_) (BYTES_TO_4K_PAGES (new_end -w res.(end_))) seL4_PageBits else ret true) in
    if negb behind then ret (-2)
    else
      outside_until reserve_asserted (steps_to new_start new_end) res.(start) res.(end_) new_start new_end ;;;
      outside_until clear_reserved (steps_to res.(start) res.(end_)) new_start new_end res.(start) res.(end_) ;;;
      mod_res reservation (upd_start new_start) ;;;
      mod_res reservation (upd_end new_end) ;;;
      when (negb (res.(start) =? new_start))
        (remove_reservation reservation ;;;
         insert_reservation reservation) ;;;
      ret 0.

Definition sel4utils_get_root : T Z := let* data := get_alloc_data in ret data.(page_directory).

(** ** Making and taking down an address space *)
(** common_init of bootstrap.c; the functions of the interface are the operations above. *)
Definition common_init (vka_ page_directory_ : Z) : T unit :=
  mod_data (fun data => mk_data page_directory_ vka_ data.(top_level) data.(next_bottom_level_vaddr) 0x10000000
    data.(bootstrap) NULL data.(bottom_levels) data.(reservations)).
Definition common_init_post_bootstrap : T unit :=
  let first := TOP_LEVEL_INDEX KERNEL_RESERVED_START in
  for_upto (Z.to_nat (TOP_LEVEL_INDEX KERNEL_RESERVED_END - first + 1)) first
    (fun i => mod_data (fun data => upd_top_level (<[Z.to_nat i := RESERVED]> data.(top_level)) data)).
(** The new page of the top level holds zeros, as every new page does. *)
Definition sel4utils_get_vspace (loader vka_ page_directory_ : Z) : T Z :=
  common_init vka_ page_directory_ ;;;
  mod_data (fun data => mk_data data.(page_directory) data.(vka) data.(top_level) data.(next_bottom_level_vaddr)
    data.(last_allocated) loader data.(reservation_head) data.(bottom_levels) data.(reservations)) ;;;
  let* p := env (calls.(vspace_new_pages) loader seL4_AllRights 1 seL4_PageBits) in
  if p =? NULL then ret (-1)
  else
    mod_data (upd_top_level (replicate (Z.to_nat VSPACE_LEVEL_SIZE) NULL)) ;;;
    common_init_post_bootstrap ;;;
    ret 0.

Fixpoint free_reservations (fuel : nat) : T unit :=
  match fuel with
  | O => halt_with NoFuel
  | S fuel =>
      let* data := get_alloc_data in
      if data.(reservation_head) =? NULL then ret tt
      else
        let res := data.(reservation_head) in
        sel4utils_free_reservation_no_alloc res ;;;
        let* r := res_at res in
        when (word_bool r.(malloced)) (free_res res) ;;;
        free_reservations fuel
  end.
(** [page4k] after the loop over the cookies [l] that follow the one at [i] *)
Fixpoint same_cookies (cookie : Z) (l : list Z) : Z :=
  match l with [] => 0 | c :: l => if c =? cookie then 1 + same_cookies cookie l else 0 end.
Section tear_down.
(** The address of the top level *)
Context (top_level_vaddr : Z).
Definition tear_down_page (idx bottom i vka_ : Z) : T unit :=
  let* l := level_at bottom in
  let* cookie := of_option (l.(cookies) !! Z.to_nat i) in
  let vaddr := (idx <<w TOP_LEVEL_BITS_OFFSET) |w (i <<w BOTTOM_LEVEL_BITS_OFFSET) in
  when (negb (cookie =? 0))
    (let page4k := 1 + same_cookies cookie (drop (Z.to_nat (i + 1)) l.(cookies)) in
     sel4utils_unmap_pages vaddr 1 (PAGE_BITS_4K *w page4k) vka_).
Definition tear_down_level (vka_ idx : Z) : T unit :=
  let* data := get_alloc_data in
  let* p := of_option (data.(top_level) !! Z.to_nat idx) in
  when (negb (p =? NULL) && negb (p =? RESERVED))
    (for_upto (Z.to_nat VSPACE_LEVEL_SIZE) 0 (fun i => tear_down_page idx p i vka_) ;;;
     env (calls.(vspace_unmap_pages) data.(bootstrap) p PAGES_FOR_BOTTOM_LEVEL PAGE_BITS_4K VSPACE_FREE)).
Definition sel4utils_tear_down (vka_ : Z) : T unit :=
  let* data := get_alloc_data in
  if data.(bootstrap) =? NULL then ret tt
  else
    let vka_ := if vka_ =? VSPACE_FREE then data.(vka) else vka_ in
    free_reservations (res_fuel data) ;;;
    let first := TOP_LEVEL_INDEX FIRST_VADDR in
    let last := TOP_LEVEL_INDEX KERNEL_RESERVED_START + 1 in
    for_upto (Z.to_nat (last - first)) first (tear_down_level vka_) ;;;
    env (calls.(vspace_unmap_pages) data.(bootstrap) top_level_vaddr 1 PAGE_BITS_4K VSPACE_FREE).
End tear_down.
End vspace.
