(* ===== verification/UVspaceTable.v ===== *)
(** * The manager of virtual address spaces: its table

    What the table of two levels maps every page to, the invariant of the table, the laws of what the manager
    calls, and what the operations on one entry and on a range of pages make of the table: what is checked, reserved,
    entered and cleared, and the search for a free range. *)
From stdpp Require Import base list gmap.
From Stdlib Require Import ZArith Lia.
From S2P Require Import Prelude.
From S2P Require Import Words.
From S2P Require Import Structures.
From S2P Require Import AllocBase.
From S2P Require Import UVspace.

(** ** Pages *)
(** The address of page [k], and the number of pages of the address space below the kernel *)
Definition page_addr (k : Z) : Z := k * 4096.
Definition user_pages : Z := 0xE0000.
Definition all_pages_count : Z := 0x100000.

Lemma page_size : PAGE_SIZE_4K = 4096.
Proof. reflexivity. Qed.
Lemma page_next k : 0 <= k < all_pages_count - 1 -> page_addr k +w PAGE_SIZE_4K = page_addr (k + 1).
Proof. unfold page_addr, all_pages_count, wadd, wrap. rewrite page_size. intros. rewrite Z.mod_small; lia. Qed.
Lemma top_index k : 0 <= k < all_pages_count -> TOP_LEVEL_INDEX (page_addr k) = k / 1024.
Proof.
  unfold page_addr, all_pages_count, TOP_LEVEL_INDEX, LEVEL_MASK. intros H.
  rewrite land_MASK by (unfold VSPACE_LEVEL_BITS; lia). unfold wshr, TOP_LEVEL_BITS_OFFSET, VSPACE_LEVEL_BITS.
  rewrite Z.shiftr_div_pow2 by lia. change (2 ^ (32 - 10)) with (1024 * 4096).
  rewrite Z.div_mul_cancel_r by lia. apply Z.mod_small. change (2 ^ 10) with 1024.
  split; [apply Z.div_pos; lia|apply Z.div_lt_upper_bound; lia].
Qed.
Lemma bottom_index k : 0 <= k < all_pages_count -> BOTTOM_LEVEL_INDEX (page_addr k) = k mod 1024.
Proof.
  unfold page_addr, all_pages_count, BOTTOM_LEVEL_INDEX, LEVEL_MASK. intros H.
  rewrite land_MASK by (unfold VSPACE_LEVEL_BITS; lia). unfold wshr, BOTTOM_LEVEL_BITS_OFFSET, VSPACE_LEVEL_BITS.
  rewrite Z.shiftr_div_pow2 by lia. change (2 ^ (32 - 2 * 10)) with 4096. rewrite Z.div_mul by lia. done.
Qed.

(** *** Addresses that are not aligned

    An address is looked up as the page it is in; a range of bytes from it ends at page [end_page]. *)
Definition end_page (v size : Z) : Z := (v + size + 4095) / 4096.
Lemma page_of v : 0 <= v < 2 ^ 32 -> 0 <= v / 4096 < all_pages_count /\ page_addr (v / 4096) = v - v mod 4096.
Proof.
  unfold all_pages_count, page_addr. intros H. pose proof (Z.div_mod v 4096 ltac:(lia)). pose proof (Z.mod_pos_bound v 4096 ltac:(lia)).
  split; [split; [apply Z.div_pos; lia|apply Z.div_lt_upper_bound; lia]|lia].
Qed.
Lemma top_index_any v : 0 <= v < 2 ^ 32 -> TOP_LEVEL_INDEX v = TOP_LEVEL_INDEX (page_addr (v / 4096)).
Proof.
  intros H. unfold TOP_LEVEL_INDEX, page_addr, wshr, TOP_LEVEL_BITS_OFFSET, VSPACE_LEVEL_BITS. f_equal.
  rewrite !Z.shiftr_div_pow2 by lia. change (2 ^ (32 - 10)) with (4096 * 1024). rewrite <- !Z.div_div by lia. by rewrite Z.div_mul.
Qed.
Lemma bottom_index_any v : 0 <= v < 2 ^ 32 -> BOTTOM_LEVEL_INDEX v = BOTTOM_LEVEL_INDEX (page_addr (v / 4096)).
Proof.
  intros H. unfold BOTTOM_LEVEL_INDEX, page_addr, wshr, BOTTOM_LEVEL_BITS_OFFSET, VSPACE_LEVEL_BITS. f_equal.
  rewrite !Z.shiftr_div_pow2 by lia. change (2 ^ (32 - 2 * 10)) with 4096. by rewrite Z.div_mul.
Qed.
Lemma round_down_any v : 0 <= v < 2 ^ 32 -> ROUND_DOWN v PAGE_SIZE_4K = page_addr (v / 4096).
Proof.
  intros H. destruct (page_of v H) as [_ ->]. unfold ROUND_DOWN, wsub, wrap. rewrite page_size. apply Z.mod_small.
  pose proof (Z.mod_pos_bound v 4096 ltac:(lia)). pose proof (Z.mod_le v 4096 ltac:(lia) ltac:(lia)). lia.
Qed.
Lemma round_up_any v size : 0 <= v -> 0 <= size -> v + size + 4095 < 2 ^ 32 ->
  ROUND_UP (v +w size) PAGE_SIZE_4K = page_addr (end_page v size).
Proof.
  intros H H' Hlt. unfold ROUND_UP, end_page, page_addr, wadd, wrap. rewrite page_size, (Z.mod_small (v + size)) by lia.
  pose proof (Z.div_mod (v + size) 4096 ltac:(lia)) as E1. pose proof (Z.mod_pos_bound (v + size) 4096 ltac:(lia)) as E2.
  pose proof (Z.div_mod (v + size + 4095) 4096 ltac:(lia)) as E3. pose proof (Z.mod_pos_bound (v + size + 4095) 4096 ltac:(lia)) as E4.
  destruct (Z.eqb_spec ((v + size) mod 4096) 0); rewrite Z.mod_small; lia.
Qed.
(** The pages that are touched are those that are counted, or one more if the address is not aligned. *)
Lemma end_page_cases v size : 0 <= v -> 0 <= size -> let n := BYTES_TO_4K_PAGES size in
  end_page v size = v / 4096 + n \/ v mod 4096 <> 0 /\ end_page v size = v / 4096 + n + 1.
Proof.
  intros H H' n. unfold n, BYTES_TO_4K_PAGES, end_page. rewrite page_size, Z.gtb_ltb.
  pose proof (Z.div_mod v 4096 ltac:(lia)). pose proof (Z.mod_pos_bound v 4096 ltac:(lia)).
  pose proof (Z.div_mod size 4096 ltac:(lia)). pose proof (Z.mod_pos_bound size 4096 ltac:(lia)).
  pose proof (Z.div_mod (v + size + 4095) 4096 ltac:(lia)). pose proof (Z.mod_pos_bound (v + size + 4095) 4096 ltac:(lia)).
  destruct (Z.ltb_spec 0 (size mod 4096)); lia.
Qed.

(** ** What the table says of a page: the capability and the cookie *)
Implicit Types (d : sel4utils_alloc_data) (k : Z) (g : Z -> Z * Z).
Definition entry d k : Z * Z :=
  let p := d.(top_level) !!! Z.to_nat (k / 1024) in
  if p =? NULL then (EMPTY, 0)
  else if p =? RESERVED then (RESERVED, 0)
  else match d.(bottom_levels) !! p with
       | Some l => (l.(bottom_level) !!! Z.to_nat (k mod 1024), l.(cookies) !!! Z.to_nat (k mod 1024))
       | None => (EMPTY, 0)
       end.
Definition full_level (l : bottom_level_t) : Prop := length l.(bottom_level) = 1024%nat /\ length l.(cookies) = 1024%nat.
(** There are entries for the kernel, which are reserved, and tables of their own for the others. *)
Record table_ok d : Prop := {
  to_length : length d.(top_level) = 1024%nat;
  to_kernel : forall i, (896 <= i < 1024)%nat -> d.(top_level) !! i = Some RESERVED;
  to_user : forall i p, (i < 896)%nat -> d.(top_level) !! i = Some p -> p = NULL \/
    p <> RESERVED /\ exists l, d.(bottom_levels) !! p = Some l /\ full_level l;
  to_once : forall i j p, (i < 896)%nat -> (j < 896)%nat -> d.(top_level) !! i = Some p -> d.(top_level) !! j = Some p ->
    p <> NULL -> i = j;
  to_loader : d.(bootstrap) <> NULL;
  to_vka : d.(vka) <> NULL;
  to_root : d.(page_directory) <> 0;
  to_last : exists m, 0 <= m < user_pages /\ d.(last_allocated) = page_addr m }.
(** The table for the page is there. *)
Definition has_level d k : Prop := d.(top_level) !!! Z.to_nat (k / 1024) <> NULL.
Lemma entry_level d k : (entry d k).1 <> EMPTY -> has_level d k.
Proof. unfold entry, has_level. intros H E. rewrite E in H. done. Qed.

Lemma entry_kernel d k : table_ok d -> user_pages <= k < all_pages_count -> entry d k = (RESERVED, 0).
Proof.
  unfold user_pages, all_pages_count. intros Ht Hk. unfold entry.
  rewrite (list_lookup_total_correct _ _ RESERVED); [done|]. apply (to_kernel _ Ht).
  assert (896 <= k / 1024) by (apply Z.div_le_lower_bound; lia). assert (k / 1024 < 1024) by (apply Z.div_lt_upper_bound; lia). lia.
Qed.
Lemma page_index k : 0 <= k < user_pages -> (Z.to_nat (k / 1024) < 896)%nat.
Proof. unfold user_pages. intros. apply Nat2Z.inj_lt. rewrite Z2Nat.id by (apply Z.div_pos; lia). apply Z.div_lt_upper_bound; lia. Qed.
Lemma entry_index k : (Z.to_nat (k mod 1024) < 1024)%nat.
Proof. pose proof (Z.mod_pos_bound k 1024). lia. Qed.
Lemma index_inj j k : 0 <= j -> 0 <= k -> Z.to_nat (j / 1024) = Z.to_nat (k / 1024) ->
  Z.to_nat (j mod 1024) = Z.to_nat (k mod 1024) -> j = k.
Proof.
  intros Hj Hk E1%Z2Nat.inj E2%Z2Nat.inj; try (apply Z.div_pos; lia); try (apply Z.mod_pos_bound; lia).
  pose proof (Z.div_mod j 1024). pose proof (Z.div_mod k 1024). lia.
Qed.

(** ** The laws of what the manager calls

    [I L R e]: in the state [e] of the rest of the system, the tables at [L] and the reservations at [R] are the
    manager's. *)
Section laws.
Context {E : Type} (calls : vspace_calls E) (I : gset Z -> gset Z -> E -> Prop).
Definition keeps {A} (op : M E A) (post : A -> Prop) : Prop :=
  forall L R e, I L R e -> wp op (fun a e' => post a /\ I L R e') e.
Record vka_laws (v : vka_t E) : Prop := {
  vl_cspace_alloc : keeps v.(fn_cspace_alloc) (fun r => r.1 = 0 -> r.2 <> 0 /\ r.2 <> RESERVED);
  vl_cspace_free c : keeps (v.(fn_cspace_free) c) (fun _ => True);
  vl_utspace_alloc p t b : keeps (v.(fn_utspace_alloc) p t b) (fun _ => True);
  vl_utspace_free t b u : keeps (v.(fn_utspace_free) t b u) (fun _ => True) }.
Record calls_laws : Prop := {
  cl_vka a : vka_laws (calls.(vka_at) a);
  cl_new_pages l r n b L R e : I L R e -> wp (calls.(vspace_new_pages) l r n b) (fun p e' =>
    p = NULL /\ I L R e' \/ p <> NULL /\ p <> RESERVED /\ (p ∉ L) /\ I ({[p]} ∪ L) R e') e;
  cl_Page_Map f pd v r a : keeps (calls.(seL4_ARM_Page_Map) f pd v r a) (fun _ => True);
  cl_Page_Unmap c : keeps (calls.(seL4_ARM_Page_Unmap) c) (fun _ => True);
  cl_PageTable_Map t pd v a : keeps (calls.(seL4_ARM_PageTable_Map) t pd v a) (fun _ => True);
  cl_Delete r c b : keeps (calls.(seL4_CNode_Delete) r c b) (fun _ => True);
  cl_malloc n L R e : I L R e -> wp (calls.(malloc) n) (fun p e' =>
    p = NULL /\ I L R e' \/ p <> NULL /\ (p ∉ R) /\ I L ({[p]} ∪ R) e') e;
  cl_free p L R e : I L R e -> p ∈ R -> wp (calls.(free) p) (fun _ e' => I L (R ∖ {[p]}) e') e;
  cl_allocated_object f o : calls.(allocated_object) = Some f -> keeps (f o) (fun _ => True) }.
(** The loader runs out of pages for tables, in some state; or it does not, in any. *)
Definition tables_fail : Prop := exists l r n b L R e e', I L R e /\ calls.(vspace_new_pages) l r n b e = Ret NULL e'.
Definition plenty : Prop := ~ tables_fail.
End laws.

(** ** Stages

    What an operation has done so far to the table: the entries are [g], and there is no other change. *)
Definition same_rest d d' : Prop := d'.(page_directory) = d.(page_directory) /\ d'.(vka) = d.(vka) /\
  d'.(bootstrap) = d.(bootstrap) /\ d'.(reservation_head) = d.(reservation_head) /\ d'.(reservations) = d.(reservations).
Definition set_page k (v : Z * Z) g : Z -> Z * Z := fun j => if j =? k then v else g j.

Section stages.
Context {E : Type} (calls : vspace_calls E) (I : gset Z -> gset Z -> E -> Prop) (laws : calls_laws calls I).
Abbreviation X := (E * sel4utils_alloc_data)%type.
Implicit Types (x : X) (e : E).
Definition env_ok x : Prop := I (dom x.2.(bottom_levels)) (dom x.2.(reservations)) x.1.
Record stage x0 g x : Prop := {
  sg_table : table_ok x.2;
  sg_env : env_ok x;
  sg_rest : same_rest x0.2 x.2;
  sg_entry : forall k, 0 <= k < all_pages_count -> entry x.2 k = g k;
  sg_level : forall k, has_level x0.2 k -> has_level x.2 k }.
Lemma stage_start x : table_ok x.2 -> env_ok x -> stage x (entry x.2) x.
Proof. by split. Qed.
Lemma stage_ext x0 g g' x : stage x0 g x -> (forall k, 0 <= k < all_pages_count -> g k = g' k) -> stage x0 g' x.
Proof. intros [H1 H2 H3 H4 H5] Hg. split; try done. intros k Hk. by rewrite H4, Hg. Qed.

(** Reading a level *)
Lemma wp_env {A} (op : M E A) (Q : A -> X -> Prop) x : wp op (fun a e => Q a (e, x.2)) x.1 -> wp (env op) Q x.
Proof. intros H. unfold env. by apply wp_zoom. Qed.
Lemma wp_level_ptr d e k (Q : Z -> X -> Prop) : table_ok d -> 0 <= k < all_pages_count ->
  Q (d.(top_level) !!! Z.to_nat (k / 1024)) (e, d) -> wp (level_ptr (page_addr k)) Q (e, d).
Proof.
  intros Ht Hk HQ. unfold level_ptr. rewrite top_index by done. apply wp_bind, wp_gets. eapply wp_of_option; [|exact HQ].
  apply list_lookup_lookup_total_lt. rewrite (to_length _ Ht). unfold all_pages_count in Hk.
  apply Nat2Z.inj_lt. rewrite Z2Nat.id by (apply Z.div_pos; lia). apply Z.div_lt_upper_bound; lia.
Qed.
Lemma top_lookup d k : table_ok d -> 0 <= k < user_pages ->
  d.(top_level) !! Z.to_nat (k / 1024) = Some (d.(top_level) !!! Z.to_nat (k / 1024)).
Proof. intros Ht Hk. apply list_lookup_lookup_total_lt. rewrite (to_length _ Ht). pose proof (page_index k Hk). lia. Qed.
Lemma level_full d k : table_ok d -> 0 <= k < user_pages -> has_level d k ->
  exists p l, d.(top_level) !! Z.to_nat (k / 1024) = Some p /\ d.(top_level) !!! Z.to_nat (k / 1024) = p /\ p <> NULL /\
    p <> RESERVED /\ d.(bottom_levels) !! p = Some l /\ full_level l.
Proof.
  intros Ht Hk Hl. pose proof (top_lookup d k Ht Hk) as Ep.
  destruct (to_user _ Ht _ _ (page_index k Hk) Ep) as [|[Hr (l & El & Hf)]]; [done|]. by eexists _, l.
Qed.

(** *** A new table *)
Definition with_level d k p : sel4utils_alloc_data :=
  upd_top_level (<[Z.to_nat (k / 1024) := p]> d.(top_level)) (upd_bottom_levels (<[p := zero_level]> d.(bottom_levels)) d).
Lemma top_insert d k p j : table_ok d -> 0 <= k < user_pages -> 0 <= j ->
  <[Z.to_nat (k / 1024) := p]> d.(top_level) !!! Z.to_nat (j / 1024) =
    if k / 1024 =? j / 1024 then p else d.(top_level) !!! Z.to_nat (j / 1024).
Proof.
  intros Ht Hk Hj. pose proof (page_index k Hk). pose proof (to_length _ Ht).
  destruct (Z.eqb_spec (k / 1024) (j / 1024)) as [Eq|Hne]; [rewrite <- Eq; apply list_lookup_total_insert_eq; lia|].
  apply list_lookup_total_insert_ne. intros Eq. destruct Hne. pose proof (Z.div_pos k 1024). pose proof (Z.div_pos j 1024).
  lia.
Qed.
Lemma zero_full : full_level zero_level.
Proof. by split. Qed.
Lemma with_level_ok d k p : table_ok d -> 0 <= k < user_pages -> ~ has_level d k ->
  p <> NULL -> p <> RESERVED -> p ∉ dom d.(bottom_levels) -> table_ok (with_level d k p).
Proof.
  intros Ht Hk Hn Hp Hr Hf. pose proof (page_index k Hk) as Hi. pose proof (to_length _ Ht) as Hlen.
  apply not_elem_of_dom in Hf.
  assert (forall i q, d.(top_level) !! i = Some q -> (i < 896)%nat -> q <> p) as Hnp.
  { intros i q Eq Hlt ->. destruct (to_user _ Ht _ _ Hlt Eq) as [|[_ (l & El & _)]]; [done|congruence]. }
  split; unfold with_level; cbn; try apply Ht.
  - by rewrite length_insert.
  - intros i Hlt. rewrite list_lookup_insert_ne by lia. by apply (to_kernel _ Ht).
  - intros i q Hlt Eq. apply list_lookup_insert_Some in Eq as [(<- & <- & _)|[Hne Eq]].
    + right. split; [done|]. exists zero_level. rewrite lookup_insert_eq. by split; [|apply zero_full].
    + destruct (to_user _ Ht _ _ Hlt Eq) as [->|[Hq (l & El & Hl)]]; [by left|right]. split; [done|]. exists l.
      rewrite lookup_insert_ne; [done|]. intros <-. by eapply Hnp.
  - intros i j q Hli Hlj Ei Ej Hq. apply list_lookup_insert_Some in Ei as [(<- & <- & _)|[Hni Ei]];
      apply list_lookup_insert_Some in Ej as [(<- & Eq & _)|[Hnj Ej]]; try done.
    + by destruct (Hnp _ _ Ej Hlj).
    + subst q. by destruct (Hnp _ _ Ei Hli).
    + by eapply (to_once _ Ht).
Qed.

Lemma zero_entry k : (zero_level.(bottom_level) !!! Z.to_nat (k mod 1024), zero_level.(cookies) !!! Z.to_nat (k mod 1024)) =
  (EMPTY, 0).
Proof.
  pose proof (entry_index k). unfold zero_level. cbn [bottom_level cookies]. change (Z.to_nat VSPACE_LEVEL_SIZE) with 1024%nat.
  by rewrite lookup_total_replicate_2.
Qed.
Lemma with_level_entry d k p j : table_ok d -> 0 <= k < user_pages -> ~ has_level d k -> p <> NULL -> p <> RESERVED ->
  p ∉ dom d.(bottom_levels) -> 0 <= j < user_pages -> entry (with_level d k p) j = entry d j.
Proof.
  intros Ht Hk Hn Hp Hr Hf Hj. apply not_elem_of_dom in Hf. unfold entry, with_level. cbn [top_level bottom_levels].
  cbn. rewrite top_insert by (done || unfold user_pages in *; lia). destruct (Z.eqb_spec (k / 1024) (j / 1024)) as [Eq|Hne].
  - assert (d.(top_level) !!! Z.to_nat (j / 1024) = NULL) as ->.
    { destruct (decide (d.(top_level) !!! Z.to_nat (j / 1024) = NULL)) as [|H]; [done|]. destruct Hn. unfold has_level. by rewrite Eq. }
    destruct (Z.eqb_spec p NULL); [done|]. destruct (Z.eqb_spec p RESERVED); [done|]. rewrite lookup_insert_eq, zero_entry. done.
  - destruct (_ =? NULL) eqn:E0; [done|]. destruct (_ =? RESERVED) eqn:E1; [done|]. rewrite lookup_insert_ne; [done|].
    intros Eq. apply Z.eqb_neq in E0, E1. pose proof (top_lookup d j Ht Hj) as Ej.
    destruct (to_user _ Ht _ _ (page_index j Hj) Ej) as [|[_ (l & El & _)]]; [done|]. congruence.
Qed.

(** *** A new entry *)
Definition with_entry d k p l (v : Z * Z) : sel4utils_alloc_data :=
  let i := Z.to_nat (k mod 1024) in
  upd_bottom_levels (<[p := mk_bottom_level (<[i := v.1]> l.(bottom_level)) (<[i := v.2]> l.(cookies))]> d.(bottom_levels)) d.
Section one.
Context d k p l (Ht : table_ok d) (Hk : 0 <= k < user_pages) (Ep : d.(top_level) !! Z.to_nat (k / 1024) = Some p)
  (Hp : p <> NULL) (Hr : p <> RESERVED) (El : d.(bottom_levels) !! p = Some l) (Hf : full_level l).
Lemma with_entry_ok v : table_ok (with_entry d k p l v).
Proof.
  split; unfold with_entry; cbn; try apply Ht.
  intros i q Hlt Eq. destruct (to_user _ Ht _ _ Hlt Eq) as [|[Hq (m & Em & Hm)]]; [by left|right]. split; [done|].
  destruct (decide (q = p)) as [->|Hne]; [|exists m; by rewrite lookup_insert_ne].
  rewrite lookup_insert_eq. eexists. split; [done|]. unfold full_level. cbn. rewrite !length_insert. exact Hf.
Qed.
Lemma with_entry_entry v j : 0 <= j < user_pages -> entry (with_entry d k p l v) j = set_page k v (entry d) j.
Proof.
  intros Hj. unfold set_page. destruct Hf as [Hf1 Hf2]. pose proof (entry_index k) as Hi.
  assert (forall q, d.(top_level) !!! Z.to_nat (j / 1024) = q -> q = p -> Z.to_nat (j / 1024) = Z.to_nat (k / 1024)) as Hone.
  { intros q Eq ->. pose proof (top_lookup d j Ht Hj) as Ej. rewrite Eq in Ej.
    eapply (to_once _ Ht); [by apply page_index..|exact Ej|exact Ep|exact Hp]. }
  unfold entry, with_entry. cbn. specialize (Hone _ eq_refl). destruct (Z.eqb_spec j k) as [->|Hne].
  - rewrite (list_lookup_total_correct _ _ _ Ep). destruct (Z.eqb_spec p NULL); [done|]. destruct (Z.eqb_spec p RESERVED); [done|].
    rewrite lookup_insert_eq. cbn. rewrite !list_lookup_total_insert_eq by lia. by destruct v.
  - destruct (_ =? NULL); [done|]. destruct (_ =? RESERVED); [done|].
    destruct (decide (d.(top_level) !!! Z.to_nat (j / 1024) = p)) as [Eq|Hnp]; [|by rewrite lookup_insert_ne].
    rewrite Eq, lookup_insert_eq, El. cbn. specialize (Hone Eq).
    assert (Z.to_nat (k mod 1024) <> Z.to_nat (j mod 1024)) as Hm.
    { intros Em. apply Hne. apply index_inj; [unfold user_pages in *; lia..|done|done]. }
    by rewrite !list_lookup_total_insert_ne.
Qed.
End one.

(** *** The update of an entry *)
Definition can_update x k : Prop := plenty calls I \/ has_level x.2 k.
Lemma wp_create_level x0 g x k : stage x0 g x -> 0 <= k < user_pages -> ~ has_level x.2 k ->
  wp (create_level calls (page_addr k)) (fun err x' => stage x0 g x' /\
    (err = 0 /\ has_level x'.2 k \/ err = -1 /\ tables_fail calls I)) x.
Proof.
  intros [Ht He Hr Hg Hl] Hk Hn. destruct x as [e d]. cbn in *. unfold create_level, create_level_with.
  apply wp_bind, wp_gets. cbn. destruct (Z.eqb_spec d.(bootstrap) NULL) as [Eb|_]; [by destruct (to_loader _ Ht)|].
  apply wp_bind, wp_env. cbn.
  pose proof (cl_new_pages _ _ laws d.(bootstrap) seL4_AllRights PAGES_FOR_BOTTOM_LEVEL seL4_PageBits _ _ _ He) as W.
  destruct (wp_inv _ _ _ W) as (p & e' & Eq & H). eapply wp_exact; [exact Eq|].
  destruct H as [[-> H]|(H1 & H2 & H3 & H4)].
  { rewrite Z.eqb_refl. apply wp_ret. split; [by split|]. right. split; [done|]. do 8 eexists. split; [exact He|exact Eq]. }
  destruct (Z.eqb_spec p NULL); [done|].
  assert (0 <= k < all_pages_count) as Hk' by (unfold user_pages, all_pages_count in *; lia).
  unfold set_level, set_level_ptr. rewrite top_index by done. apply wp_bind, wp_modify, wp_bind, wp_modify, wp_ret. cbn.
  change (upd_top_level _ _) with (with_level d k p).
  split; [split; cbn|left; split; [done|]].
  - by apply with_level_ok.
  - unfold env_ok. cbn. by rewrite dom_insert_L.
  - exact Hr.
  - intros j Hj. rewrite <- Hg by done. destruct (Z_lt_le_dec j user_pages) as [Hj'|Hj']; [apply with_level_entry; done || lia|].
    by rewrite !entry_kernel by (done || lia || by apply with_level_ok).
  - intros j Hj. specialize (Hl j Hj). unfold has_level, with_level in *. cbn.
    destruct (decide (Z.to_nat (k / 1024) = Z.to_nat (j / 1024))) as [Eq'|Hne]; [|by rewrite list_lookup_total_insert_ne].
    rewrite Eq' in *. rewrite list_lookup_total_insert_eq; [done|]. rewrite <- Eq', (to_length _ Ht). pose proof (page_index k Hk). lia.
  - unfold has_level, with_level. cbn. rewrite list_lookup_total_insert_eq; [done|]. rewrite (to_length _ Ht).
    pose proof (page_index k Hk). lia.
Qed.
(** The change of one page, or no change and an error because its table is not there and cannot be had *)
Definition changed x0 g x k (v : Z * Z) (err : Z) x' : Prop :=
  err = 0 /\ stage x0 (set_page k v g) x' \/ err <> 0 /\ (tables_fail calls I /\ ~ has_level x.2 k) /\ stage x0 g x'.
Lemma wp_assure_level x0 g x k : stage x0 g x -> 0 <= k < user_pages ->
  wp (assure_level (create_level calls) (page_addr k)) (fun err x' => stage x0 g x' /\
    (err = 0 /\ has_level x'.2 k \/ err = -1 /\ tables_fail calls I /\ ~ has_level x.2 k)) x.
Proof.
  intros Hs Hk. unfold assure_level. apply wp_bind. destruct x as [e d]. apply wp_level_ptr; [apply Hs|unfold user_pages, all_pages_count in *; lia|].
  destruct (Z.eqb_spec (d.(top_level) !!! Z.to_nat (k / 1024)) NULL) as [Eq|Hne]; [|apply wp_ret; split; [done|by left]].
  assert (~ has_level d k) as Hn by (intros Hh; by apply Hh). apply wp_bind.
  eapply wp_mono; [apply (wp_create_level x0 g); [exact Hs|done|done]|].
  intros err x' (Hs' & [[-> H]|[-> H]]); apply wp_ret; (split; [done|]); [left|right]; done.
Qed.
Lemma wp_update_entry_any x0 g x k c ck : stage x0 g x -> 0 <= k < user_pages ->
  wp (update_entry (create_level calls) (page_addr k) c ck) (changed x0 g x k (c, ck)) x.
Proof.
  intros Hs Hk. unfold update_entry. apply wp_bind.
  assert (0 <= k < all_pages_count) as Hk' by (unfold user_pages, all_pages_count in *; lia).
  eapply wp_mono; [by apply (wp_assure_level x0 g)|]. intros err [e d] ([Ht He Hr Hg Hl] & [[-> Hh]|(-> & Hf & Hn)]); cbn [fst snd] in *.
  2: { cbn. apply wp_ret. right. split; [done|]. split; [done|by split]. }
  change (negb (0 =? seL4_NoError)) with false.
  cbn iota. destruct (level_full d k Ht Hk Hh) as (p & l & Ep & Ep' & Hp & Hres & El & Hf).
  apply wp_bind, wp_level_ptr; [done|done|]. rewrite Ep'. apply wp_bind, wp_assert; [by rewrite bool_decide_false|].
  apply wp_bind, wp_assert; [by rewrite bool_decide_false|]. apply wp_bind, wp_bind, wp_gets. eapply wp_of_option; [exact El|].
  cbv zeta. rewrite bottom_index by done. apply wp_bind, wp_modify, wp_ret. cbn.
  change (upd_bottom_levels _ _) with (with_entry d k p l (c, ck)). left. split; [done|]. split; cbn.
  - by apply with_entry_ok.
  - unfold env_ok. cbn. rewrite dom_insert_L. replace ({[p]} ∪ dom d.(bottom_levels)) with (dom d.(bottom_levels)); [done|].
    apply elem_of_dom_2 in El. set_solver.
  - exact Hr.
  - intros j Hj. destruct (Z_lt_le_dec j user_pages) as [Hj'|Hj'].
    + rewrite with_entry_entry by (done || lia). unfold set_page. destruct (j =? k); [done|by apply Hg].
    + unfold set_page. destruct (Z.eqb_spec j k); [lia|]. rewrite <- Hg by done.
      by rewrite !entry_kernel by (done || lia || by apply with_entry_ok).
  - exact Hl.
Qed.
Lemma can_update_changed x0 g x k v err x' : can_update x k -> changed x0 g x k v err x' -> err = 0 /\ stage x0 (set_page k v g) x'.
Proof. intros [Hp|Hp] [H|(_ & [Hf Hn] & _)]; [done|by destruct Hp|done|done]. Qed.
Lemma wp_update_entry x0 g x k c ck : stage x0 g x -> 0 <= k < user_pages -> can_update x k ->
  wp (update_entry (create_level calls) (page_addr k) c ck) (fun err x' => err = 0 /\ stage x0 (set_page k (c, ck) g) x') x.
Proof. intros Hs Hk Hc. eapply wp_mono; [by apply wp_update_entry_any|]. intros err x'. by apply can_update_changed. Qed.

(** *** Reading an entry *)
Lemma stage_entry x0 g e d k : stage x0 g (e, d) -> 0 <= k < all_pages_count -> g k = entry d k.
Proof. intros Hs Hk. symmetry. by apply (sg_entry _ _ _ Hs). Qed.
Lemma top_full d k : table_ok d -> 0 <= k < all_pages_count ->
  let p := d.(top_level) !!! Z.to_nat (k / 1024) in
  p = NULL /\ entry d k = (EMPTY, 0) \/ p = RESERVED /\ entry d k = (RESERVED, 0) \/
  p <> NULL /\ p <> RESERVED /\ exists l, d.(bottom_levels) !! p = Some l /\
    l.(bottom_level) !! Z.to_nat (k mod 1024) = Some (entry d k).1 /\ l.(cookies) !! Z.to_nat (k mod 1024) = Some (entry d k).2.
Proof.
  intros Ht Hk p. pose proof (entry_index k) as Hi. unfold entry. fold p. destruct (Z.eqb_spec p NULL); [by left|].
  destruct (Z.eqb_spec p RESERVED); [by right; left|]. right; right. split; [done|]. split; [done|].
  destruct (Z_lt_le_dec k user_pages) as [Hu|Hu].
  - destruct (level_full d k Ht ltac:(lia)) as (q & l & _ & Eq & _ & _ & El & Hf1 & Hf2); [done|]. subst q. fold p in El.
    exists l. split; [done|]. rewrite El. cbn. rewrite !list_lookup_lookup_total_lt by lia. done.
  - pose proof (entry_kernel d k Ht ltac:(lia)) as Ek. unfold entry in Ek. fold p in Ek.
    destruct (Z.eqb_spec p NULL); [done|]. destruct (Z.eqb_spec p RESERVED); [done|].
    destruct n0. unfold p. rewrite (list_lookup_total_correct _ _ RESERVED); [done|]. apply (to_kernel _ Ht).
    unfold user_pages, all_pages_count in *.
    assert (896 <= k / 1024) by (apply Z.div_le_lower_bound; lia). assert (k / 1024 < 1024) by (apply Z.div_lt_upper_bound; lia). lia.
Qed.
Lemma user_top d k : table_ok d -> 0 <= k < user_pages -> d.(top_level) !!! Z.to_nat (k / 1024) <> RESERVED.
Proof.
  intros Ht Hk. destruct (to_user _ Ht _ _ (page_index k Hk) (top_lookup d k Ht Hk)) as [->|[H _]]; [done|exact H].
Qed.
Lemma wp_level_entry l k v e d (Q : Z -> X -> Prop) : 0 <= k < all_pages_count -> l !! Z.to_nat (k mod 1024) = Some v ->
  Q v (e, d) -> wp (level_entry l (page_addr k)) Q (e, d).
Proof. intros Hk Hl HQ. unfold level_entry. rewrite bottom_index by done. by eapply wp_of_option. Qed.
Lemma wp_level_at p l e d (Q : bottom_level_t -> X -> Prop) : d.(bottom_levels) !! p = Some l -> Q l (e, d) -> wp (level_at p) Q (e, d).
Proof. intros El HQ. unfold level_at. apply wp_bind, wp_gets. by eapply wp_of_option. Qed.

Lemma available_any v : 0 <= v < 2 ^ 32 -> is_available (E := E) v = is_available (page_addr (v / 4096)).
Proof. intros H. unfold is_available, level_ptr, level_entry. by rewrite (top_index_any v H), (bottom_index_any v H). Qed.
Lemma reserved_any v : 0 <= v < 2 ^ 32 -> is_reserved (E := E) v = is_reserved (page_addr (v / 4096)).
Proof. intros H. unfold is_reserved, level_ptr, level_entry. by rewrite (top_index_any v H), (bottom_index_any v H). Qed.
Lemma get_cap_any v : 0 <= v < 2 ^ 32 -> get_cap (E := E) v = get_cap (page_addr (v / 4096)).
Proof. intros H. unfold get_cap, level_ptr, level_entry. by rewrite (top_index_any v H), (bottom_index_any v H). Qed.
Section reads.
Context x0 g x k (Hs : stage x0 g x) (Hk : 0 <= k < all_pages_count).
Ltac read_entry :=
  intros HQ; destruct x as [e d]; pose proof (sg_table _ _ _ Hs) as Ht; cbn [snd] in Ht; apply wp_bind, wp_level_ptr; [done|done|];
  rewrite (stage_entry _ _ _ _ _ Hs Hk) in HQ; revert HQ;
  destruct (top_full d k Ht Hk) as [[-> ->]|[[-> ->]|(H1 & H2 & l & El & Ei & Ec)]].
Ltac read_level H1 H2 El := apply Z.eqb_neq in H1; apply Z.eqb_neq in H2; rewrite ?H1, ?H2; apply wp_bind; eapply wp_level_at; [exact El|].
Lemma wp_is_available (Q : bool -> X -> Prop) : Q ((g k).1 =? EMPTY) x -> wp (is_available (page_addr k)) Q x.
Proof.
  unfold is_available. read_entry; intros HQ; [by apply wp_ret|by apply wp_ret|]. read_level H1 H2 El.
  apply wp_bind. eapply wp_level_entry; [done|exact Ei|]. by apply wp_ret.
Qed.
Lemma wp_is_reserved (Q : bool -> X -> Prop) : Q ((g k).1 =? RESERVED) x -> wp (is_reserved (page_addr k)) Q x.
Proof.
  unfold is_reserved. read_entry; intros HQ; [by apply wp_ret|by apply wp_ret|]. read_level H1 H2 El.
  apply wp_bind. eapply wp_level_entry; [done|exact Ei|]. by apply wp_ret.
Qed.
Lemma wp_page_cap (Q : Z -> X -> Prop) : k < user_pages -> Q (g k).1 x -> wp (get_cap (page_addr k)) Q x.
Proof.
  intros Hu HQ. destruct x as [e d]. pose proof (sg_table _ _ _ Hs) as Ht. cbn [snd] in Ht. unfold get_cap.
  apply wp_bind, wp_level_ptr; [done|done|]. rewrite (stage_entry _ _ _ _ _ Hs Hk) in HQ.
  destruct (top_full d k Ht Hk) as [[-> Ee]|[[Eq _]|(H1 & H2 & l & El & Ei & Ec)]].
  - rewrite Ee in HQ. by apply wp_ret.
  - destruct (user_top d k Ht ltac:(lia) Eq).
  - apply Z.eqb_neq in H1. rewrite H1. apply wp_bind. eapply wp_level_at; [exact El|]. by eapply wp_level_entry.
Qed.
Lemma wp_page_cookie (Q : Z -> X -> Prop) : k < user_pages -> Q (g k).2 x -> wp (get_cookie (page_addr k)) Q x.
Proof.
  intros Hu HQ. destruct x as [e d]. pose proof (sg_table _ _ _ Hs) as Ht. cbn [snd] in Ht. unfold get_cookie.
  apply wp_bind, wp_level_ptr; [done|done|]. rewrite (stage_entry _ _ _ _ _ Hs Hk) in HQ.
  destruct (top_full d k Ht Hk) as [[-> Ee]|[[Eq _]|(H1 & H2 & l & El & Ei & Ec)]].
  - rewrite Ee in HQ. by apply wp_ret.
  - destruct (user_top d k Ht ltac:(lia) Eq).
  - apply Z.eqb_neq in H1. rewrite H1. apply wp_bind. eapply wp_level_at; [exact El|]. by eapply wp_level_entry.
Qed.
End reads.

(** *** One entry *)
Definition can_update_all x0 (a b : Z) : Prop := plenty calls I \/ forall k, a <= k < b -> has_level x0.2 k.
Lemma can_update_at x0 g x a b k : stage x0 g x -> can_update_all x0 a b -> a <= k < b -> can_update x k.
Proof. intros Hs [H|H] Hk; [by left|right]. apply (sg_level _ _ _ Hs). by apply H. Qed.
Lemma stage_can_update x0 g x k : stage x0 g x -> 0 <= k < user_pages -> (g k).1 <> EMPTY -> can_update x k.
Proof.
  intros Hs Hk Hg. right. apply entry_level. rewrite (sg_entry _ _ _ Hs); [done|]. unfold user_pages, all_pages_count in *. lia.
Qed.
Lemma user_all k : 0 <= k < user_pages -> 0 <= k < all_pages_count.
Proof. unfold user_pages, all_pages_count. lia. Qed.
Lemma wp_reserve_any x0 g x k : stage x0 g x -> 0 <= k < user_pages ->
  wp (reserve calls (page_addr k)) (changed x0 g x k (RESERVED, 0)) x.
Proof.
  intros Hs Hk. unfold reserve. apply wp_bind. destruct x as [e d]. apply wp_level_ptr; [apply Hs|by apply user_all|].
  apply wp_bind, wp_assert; [|by apply wp_update_entry_any]. rewrite bool_decide_false; [done|]. apply (user_top d k (sg_table _ _ _ Hs) Hk).
Qed.
Lemma wp_reserve x0 g x k : stage x0 g x -> 0 <= k < user_pages -> can_update x k ->
  wp (reserve calls (page_addr k)) (fun err x' => err = 0 /\ stage x0 (set_page k (RESERVED, 0) g) x') x.
Proof. intros Hs Hk Hc. eapply wp_mono; [by apply wp_reserve_any|]. intros err x'. by apply can_update_changed. Qed.
Lemma wp_update_any x0 g x k c ck : stage x0 g x -> 0 <= k < user_pages -> c <> 0 -> c <> RESERVED ->
  wp (update (create_level calls) (page_addr k) c ck) (changed x0 g x k (c, ck)) x.
Proof.
  intros Hs Hk H0 Hr. unfold update. destruct (Z.eqb_spec c RESERVED); [done|].
  apply wp_bind, wp_assert; [by rewrite bool_decide_false|]. apply wp_bind. destruct x as [e d].
  apply wp_level_ptr; [apply Hs|by apply user_all|].
  apply wp_bind, wp_assert; [|by apply wp_update_entry_any]. rewrite bool_decide_false; [done|]. apply (user_top d k (sg_table _ _ _ Hs) Hk).
Qed.
Lemma last_ok x0 g e d k : stage x0 g (e, d) -> 0 <= k < user_pages -> stage x0 g (e, upd_last_allocated (page_addr k) d).
Proof. intros [[] He Hr Hg Hl] Hk. split; cbn in *; try done. split; try done. cbn. by exists k. Qed.
Lemma wp_clear x0 g x k : stage x0 g x -> 0 <= k < user_pages -> has_level x.2 k ->
  wp (clear calls (page_addr k)) (fun _ x' => stage x0 (set_page k (EMPTY, 0) g) x') x.
Proof.
  intros Hs Hk Hh. unfold clear. apply wp_bind. destruct x as [e d]. apply wp_level_ptr; [apply Hs|by apply user_all|].
  apply wp_bind, wp_assert; [rewrite bool_decide_false; [done|exact Hh]|].
  apply wp_bind, wp_assert; [rewrite bool_decide_false; [done|]; apply (user_top d k (sg_table _ _ _ Hs) Hk)|].
  apply wp_bind. eapply wp_mono; [apply wp_update_entry; [exact Hs|done|by right]|]. intros err [e' d'] [_ Hs'].
  apply wp_bind, wp_gets. cbn. unfold when. destruct (_ <? _); [|by apply wp_ret]. apply wp_modify. cbn. by apply last_ok.
Qed.

(** *** Ranges of pages *)
Definition set_range (a b : Z) (v : Z * Z) g : Z -> Z * Z := fun j => if (a <=? j) && (j <? b) then v else g j.
Lemma set_range_step a b v g j : a < b -> set_range (a + 1) b v (set_page a v g) j = set_range a b v g j.
Proof.
  intros H. unfold set_range, set_page. destruct (Z.leb_spec (a + 1) j), (Z.leb_spec a j), (Z.ltb_spec j b), (Z.eqb_spec j a); cbn; try done; lia.
Qed.
Lemma set_range_empty a b v g j : b <= a -> set_range a b v g j = g j.
Proof. intros H. unfold set_range. destruct (Z.leb_spec a j), (Z.ltb_spec j b); cbn; try done. lia. Qed.
Lemma set_range_join a b c v g j : a <= b <= c -> set_range b c v (set_range a b v g) j = set_range a c v g j.
Proof.
  intros H. unfold set_range. destruct (Z.leb_spec b j), (Z.leb_spec a j), (Z.ltb_spec j b), (Z.ltb_spec j c); cbn; try done; lia.
Qed.
(** All pages are changed, or those before one that fails. *)
Definition changed_range (F : Z -> Prop) x0 g (a b : Z) (v : Z * Z) (err : Z) x' : Prop :=
  err = 0 /\ stage x0 (set_range a b v g) x' \/
  err <> 0 /\ exists j, a <= j < b /\ F j /\ stage x0 (set_range a j v g) x'.
Lemma wp_entries_loop_any F x0 f v n a g x : 0 <= a -> a + Z.of_nat n <= user_pages ->
  (forall j g x, a <= j < a + Z.of_nat n -> stage x0 g x -> wp (f (page_addr j)) (fun err x' =>
    err = 0 /\ stage x0 (set_page j v g) x' \/ err <> 0 /\ F j /\ stage x0 g x') x) ->
  stage x0 g x ->
  wp (entries_loop f n (page_addr a)) (changed_range F x0 g a (a + Z.of_nat n) v) x.
Proof.
  revert a g x. induction n as [|n IH]; intros a g x Ha Hn Hf Hs; cbn [entries_loop].
  - apply wp_ret. left. split; [done|]. eapply stage_ext; [exact Hs|]. intros k _. rewrite set_range_empty; [done|lia].
  - apply wp_bind. eapply wp_mono; [apply Hf; [lia|exact Hs]|]. intros err x' [[-> Hs']|(Hne & HF & Hs')].
    2: { change seL4_NoError with 0. rewrite (proj2 (Z.eqb_neq err 0) Hne). apply wp_ret. right. split; [done|]. exists a. split; [lia|].
      split; [done|]. eapply stage_ext; [exact Hs'|]. intros k _. rewrite set_range_empty; [done|lia]. }
    change (0 =? seL4_NoError) with true. cbn iota. rewrite page_next by (unfold user_pages, all_pages_count in *; lia).
    eapply wp_mono; [apply (IH (a + 1)); [lia|lia| |exact Hs']|].
    + intros j g' x'' Hj. apply Hf. lia.
    + replace (a + 1 + Z.of_nat n) with (a + Z.of_nat (S n)) by lia.
      intros err x'' [[-> Hs'']|(Hne & j & Hj & HF & Hs'')]; [left|right]; (split; [done|]); [|exists j; split; [lia|]; split; [done|]];
        (eapply stage_ext; [exact Hs''|]); intros k _; cbn beta; apply set_range_step; lia.
Qed.
Lemma wp_entries_loop x0 f v n a g x : 0 <= a -> a + Z.of_nat n <= user_pages ->
  (forall j g x, a <= j < a + Z.of_nat n -> stage x0 g x ->
    wp (f (page_addr j)) (fun err x' => err = 0 /\ stage x0 (set_page j v g) x') x) ->
  stage x0 g x ->
  wp (entries_loop f n (page_addr a)) (fun err x' => err = 0 /\ stage x0 (set_range a (a + Z.of_nat n) v g) x') x.
Proof.
  intros Ha Hn Hf Hs. eapply wp_mono; [apply (wp_entries_loop_any (fun _ => False) x0 f v n a g x Ha Hn); [|done]|].
  - intros j g' x' Hj Hs'. eapply wp_mono; [by apply Hf|]. intros err x'' H. by left.
  - by intros err x' [H|(_ & _ & _ & [] & _)].
Qed.
(** The table for the page is not there and cannot be had. *)
Definition no_table x0 k : Prop := tables_fail calls I /\ ~ has_level x0.2 k.
Lemma no_table_stage x0 g x k : stage x0 g x -> no_table x k -> no_table x0 k.
Proof. intros Hs [Hf Hn]. split; [done|]. intros H. by apply Hn, (sg_level _ _ _ Hs). Qed.
Lemma no_table_empty x0 g k : stage x0 g x0 -> 0 <= k < all_pages_count -> no_table x0 k -> (g k).1 = EMPTY.
Proof.
  intros Hs Hk [_ Hn]. rewrite <- (sg_entry _ _ _ Hs) by done. destruct (decide ((entry x0.2 k).1 = EMPTY)) as [|H]; [done|].
  by destruct Hn; apply entry_level.
Qed.
Lemma can_update_range x0 g a b v err x' : can_update_all x0 a b -> changed_range (no_table x0) x0 g a b v err x' ->
  err = 0 /\ stage x0 (set_range a b v g) x'.
Proof. intros [Hp|Hp] [H|(_ & j & Hj & [Hf Hn] & _)]; [done|by destruct Hp|done|by destruct Hn; apply Hp]. Qed.
Lemma wp_all_pages (f : Z -> M X bool) (ok : Z -> bool) n a x (Q : bool -> X -> Prop) : 0 <= a -> a + Z.of_nat n <= all_pages_count ->
  (forall j (R : bool -> X -> Prop), a <= j < a + Z.of_nat n -> R (ok j) x -> wp (f (page_addr j)) R x) ->
  (forall r, (r = true <-> forall j, a <= j < a + Z.of_nat n -> ok j = true) -> Q r x) ->
  wp (all_pages f n (page_addr a)) Q x.
Proof.
  revert a. induction n as [|n IH]; intros a Ha Hn Hf HQ; cbn [all_pages].
  - apply wp_ret, HQ. split; [intros _ j Hj; lia|done].
  - apply wp_bind, Hf; [lia|]. destruct (ok a) eqn:Ea.
    + destruct n as [|n]; [apply wp_ret, HQ; split; [intros _ j Hj; by replace j with a by lia|done]|].
      rewrite page_next by lia. apply IH; [lia|lia|intros j R Hj; apply Hf; lia|]. intros r Hr. apply HQ. rewrite Hr.
      split; intros H j Hj; [|apply H; lia]. destruct (decide (j = a)) as [->|Hne]; [done|apply H; lia].
    + apply wp_ret, HQ. split; [done|]. intros H. rewrite <- Ea. apply H. lia.
Qed.
Lemma all_pages_any (f : Z -> M X bool) n v : (forall v, 0 <= v < 2 ^ 32 -> f v = f (page_addr (v / 4096))) ->
  0 <= v -> v + (Z.of_nat n - 1) * 4096 < 2 ^ 32 -> all_pages f n v = all_pages f n (page_addr (v / 4096)).
Proof.
  intros Hf. revert v. induction n as [|n IH]; intros v Hv Hn; [done|]. cbn [all_pages]. rewrite (Hf v) by lia.
  destruct n as [|n]; [done|]. destruct (page_of v ltac:(lia)) as [Hk Ep].
  assert (v +w PAGE_SIZE_4K = v + 4096) as -> by (unfold wadd, wrap; rewrite page_size, Z.mod_small; lia).
  pose proof (Z.div_add v 1 4096 ltac:(lia)) as E1. rewrite Z.mul_1_l in E1. destruct (page_of (v + 4096) ltac:(lia)) as [Hk' _].
  rewrite page_next by lia. by rewrite IH, E1 by lia.
Qed.
End stages.

(** * Ranges of pages *)
(** ** Sizes *)
(** The 4K pages of a page of [2 ^ size_bits] bytes *)
Definition unit_pages (size_bits : Z) : Z := 2 ^ (size_bits - 12).
Definition frame_bits_ok (size_bits : Z) : Prop := 12 <= size_bits <= 30.
Lemma unit_bytes sb : frame_bits_ok sb -> 2 ^ sb = page_addr (unit_pages sb).
Proof. intros H. unfold page_addr, unit_pages, frame_bits_ok in *. change 4096 with (2 ^ 12). rewrite <- Z.pow_add_r by lia. f_equal. lia. Qed.
Lemma unit_pos sb : frame_bits_ok sb -> 0 < unit_pages sb.
Proof. intros H. apply Z.pow_pos_nonneg; unfold frame_bits_ok in H; lia. Qed.
Lemma page_bits_ok : frame_bits_ok seL4_PageBits.
Proof. unfold frame_bits_ok, seL4_PageBits. lia. Qed.
Lemma pages_of_bytes k : 0 <= k -> BYTES_TO_4K_PAGES (page_addr k) = k.
Proof. intros. unfold BYTES_TO_4K_PAGES, page_addr. rewrite page_size, Z.div_mul, Z.mod_mul by lia. cbn. lia. Qed.
Lemma page_rounds_unit sb : frame_bits_ok sb -> page_rounds (2 ^ sb) = Z.to_nat (unit_pages sb).
Proof.
  intros H. unfold page_rounds. rewrite unit_bytes, page_size by done. unfold page_addr. f_equal.
  rewrite Z.div_add_l by lia. rewrite Z.div_small by lia. lia.
Qed.
Lemma steps_pages a b : steps_to (page_addr a) (page_addr b) = Datatypes.S (Z.to_nat (b - a)).
Proof.
  unfold steps_to, page_addr. rewrite page_size. do 2 f_equal. replace (b * 4096 - a * 4096) with ((b - a) * 4096) by lia.
  rewrite Z.div_add_l by lia. rewrite Z.div_small by lia. lia.
Qed.
Lemma page_lt a b : (page_addr a <? page_addr b) = (a <? b).
Proof. unfold page_addr. destruct (Z.ltb_spec a b); [apply Z.ltb_lt|apply Z.ltb_ge]; lia. Qed.
Lemma page_ge a b : (page_addr a >=? page_addr b) = (b <=? a).
Proof. unfold page_addr. rewrite Z.geb_leb. destruct (Z.leb_spec b a); [apply Z.leb_le|apply Z.leb_gt]; lia. Qed.
Lemma page_plus a n : 0 <= a -> 0 <= n -> a + n < all_pages_count -> page_addr a +w page_addr n = page_addr (a + n).
Proof. unfold page_addr, all_pages_count, wadd, wrap. intros. rewrite Z.mod_small; lia. Qed.
Lemma page_aligned_down k : 0 <= k < all_pages_count -> ROUND_DOWN (page_addr k) PAGE_SIZE_4K = page_addr k.
Proof.
  unfold ROUND_DOWN, page_addr, all_pages_count, wsub, wrap. intros. rewrite page_size, Z.mod_mul, Z.sub_0_r by lia. apply Z.mod_small. lia.
Qed.
Lemma page_aligned_up k : 0 <= k < all_pages_count -> ROUND_UP (page_addr k) PAGE_SIZE_4K = page_addr k.
Proof.
  unfold ROUND_UP, page_addr, all_pages_count, wadd, wrap. intros. rewrite page_size, Z.mod_mul by lia. cbn. rewrite Z.mod_small; lia.
Qed.
Lemma kernel_start : KERNEL_RESERVED_START = page_addr user_pages.
Proof. reflexivity. Qed.

Section ranges.
Context {E : Type} (calls : vspace_calls E) (I : gset Z -> gset Z -> E -> Prop) (laws : calls_laws calls I).
Abbreviation X := (E * sel4utils_alloc_data)%type.
Implicit Types (x : X) (e : E).
Abbreviation stage := (stage I).
Lemma wp_page_bytes sb x (Q : Z -> X -> Prop) : frame_bits_ok sb -> Q (2 ^ sb) x -> wp (page_bytes sb) Q x.
Proof.
  intros H HQ. unfold page_bytes. eapply wp_of_option; [|exact HQ]. unfold frame_bits_ok in H.
  destruct (Z.leb_spec 0 sb), (Z.leb_spec sb 30); try done; lia.
Qed.
Lemma wp_num_4k_pages n sb x (Q : Z -> X -> Prop) : frame_bits_ok sb -> 0 <= n -> n * unit_pages sb < all_pages_count ->
  Q (n * unit_pages sb) x -> wp (num_4k_pages n sb) Q x.
Proof.
  intros H H0 Hn HQ. unfold num_4k_pages. apply wp_bind, wp_page_bytes; [done|]. apply wp_ret.
  rewrite unit_bytes by done. unfold wmul, wrap. pose proof (unit_pos sb H).
  replace (n * page_addr (unit_pages sb)) with (page_addr (n * unit_pages sb)) by (unfold page_addr; lia).
  assert (0 <= n * unit_pages sb) by nia.
  rewrite Z.mod_small by (unfold page_addr, all_pages_count in *; lia). by rewrite pages_of_bytes.
Qed.

(** ** Entering and clearing a page of any size *)
Section page.
Context x0 g x k sb (Hs : stage x0 g x) (Hb : frame_bits_ok sb) (Hk : 0 <= k) (Hn : k + unit_pages sb <= user_pages).
Lemma wp_update_entries_any c ck : c <> 0 -> c <> RESERVED ->
  wp (update_entries calls (page_addr k) c sb ck) (changed_range I (no_table calls I x0) x0 g k (k + unit_pages sb) (c, ck)) x.
Proof.
  intros H0 Hr. pose proof (unit_pos sb Hb). unfold update_entries. apply wp_bind, wp_page_bytes; [done|].
  rewrite page_rounds_unit by done. rewrite <- (Z2Nat.id (unit_pages sb)) in Hn |- * by lia. rewrite Nat2Z.id.
  apply wp_entries_loop_any; [lia|lia| |done]. intros j g' x' Hj Hs'. eapply wp_mono; [apply wp_update_any; [done|done|lia|done|done]|].
  intros err x'' [H1|(Hne & Hf & H1)]; [by left|right]. split; [done|]. split; [exact (no_table_stage _ _ _ _ _ _ Hs' Hf)|done].
Qed.
Lemma wp_update_entries c ck : can_update_all calls I x0 k (k + unit_pages sb) -> c <> 0 -> c <> RESERVED ->
  wp (update_entries calls (page_addr k) c sb ck) (fun err x' => err = 0 /\ stage x0 (set_range k (k + unit_pages sb) (c, ck) g) x') x.
Proof. intros Hc H0 Hr. eapply wp_mono; [by apply wp_update_entries_any|]. intros err x'. by apply can_update_range. Qed.
Lemma wp_reserve_entries : can_update_all calls I x0 k (k + unit_pages sb) ->
  wp (reserve_entries calls (page_addr k) sb) (fun err x' => err = 0 /\ stage x0 (set_range k (k + unit_pages sb) (RESERVED, 0) g) x') x.
Proof.
  intros Hc. pose proof (unit_pos sb Hb). unfold reserve_entries. apply wp_bind, wp_page_bytes; [done|].
  rewrite page_rounds_unit by done. rewrite <- (Z2Nat.id (unit_pages sb)) in Hc, Hn |- * by lia. rewrite Nat2Z.id.
  apply wp_entries_loop; [lia|lia| |done]. intros j g' x' Hj Hs'. apply wp_reserve; [done|done|lia|].
  eapply can_update_at; [done|exact Hc|lia].
Qed.
Lemma wp_clear_entries : k mod unit_pages sb = 0 -> (forall j, k <= j < k + unit_pages sb -> has_level x0.2 j) ->
  wp (clear_entries calls (page_addr k) sb) (fun _ x' => stage x0 (set_range k (k + unit_pages sb) (EMPTY, 0) g) x') x.
Proof.
  intros Ha Hl. pose proof (unit_pos sb Hb). unfold clear_entries. apply wp_bind, wp_page_bytes; [done|].
  apply wp_bind, wp_assert.
  { apply bool_decide_eq_true. replace (2 ^ sb - 1) with (Z.ones sb) by (rewrite Z.ones_equiv; lia).
    unfold frame_bits_ok in Hb. rewrite Z.land_ones by lia. rewrite unit_bytes by done. unfold page_addr.
    rewrite Z.mul_mod_distr_r by lia. by rewrite Ha. }
  apply wp_bind. rewrite page_rounds_unit by done. rewrite <- (Z2Nat.id (unit_pages sb)) in Hl, Hn |- * by lia. rewrite Nat2Z.id.
  eapply wp_mono; [apply wp_entries_loop; [lia|lia| |exact Hs]|].
  - intros j g' x' Hj Hs'. apply wp_bind. eapply wp_mono; [apply wp_clear; [exact laws|exact Hs'|lia|]|].
    + apply (sg_level _ _ _ _ Hs'), Hl. lia.
    + intros [] x'' Hs''. by apply wp_ret.
  - intros err x' [_ Hs']. by apply wp_ret.
Qed.
End page.

(** ** The loops of the reservations *)
Section until.
Context x0.
(** The pages are reserved up to one whose table cannot be had; the loop ends behind that one. *)
Lemma wp_reserve_until n a b g x : 0 <= a -> a <= b <= user_pages -> (Z.to_nat (b - a) < n)%nat -> stage x0 g x ->
  wp (reserve_until calls n (page_addr a) (page_addr b) 0) (fun v x' =>
    v = page_addr b /\ stage x0 (set_range a b (RESERVED, 0) g) x' \/
    exists j, a <= j < b /\ no_table calls I x0 j /\ v = page_addr (j + 1) /\ stage x0 (set_range a j (RESERVED, 0) g) x') x.
Proof.
  revert a g x. induction n as [|n IH]; intros a g x Ha Hb Hn Hs; [lia|]. cbn [reserve_until]. rewrite page_lt.
  destruct (Z.ltb_spec a b); cbn.
  - apply wp_bind. eapply wp_mono; [apply wp_reserve_any; [exact laws|exact Hs|lia]|].
    intros err x' [[-> Hs']|(Hne & Hf & Hs')]; rewrite page_next by (unfold user_pages, all_pages_count in *; lia).
    + eapply wp_mono; [apply (IH (a + 1)); [lia|lia|lia|exact Hs']|].
      intros v x'' [[-> Hs'']|(j & Hj & Hnt & -> & Hs'')]; [left; split; [done|]|right; exists j; split; [lia|]; split; [done|]; split; [done|]];
        (eapply stage_ext; [exact Hs''|]); intros k _; apply set_range_step; lia.
    + destruct n as [|n]; [lia|]. cbn [reserve_until]. change seL4_NoError with 0. rewrite (proj2 (Z.eqb_neq err 0) Hne), andb_false_r.
      apply wp_ret. right. exists a. split; [lia|]. split; [exact (no_table_stage _ _ _ _ _ _ Hs Hf)|]. split; [done|].
      eapply stage_ext; [exact Hs'|]. intros k _. rewrite set_range_empty; [done|lia].
  - replace b with a by lia. apply wp_ret. left. split; [done|]. eapply stage_ext; [exact Hs|]. intros k _. rewrite set_range_empty; [done|lia].
Qed.

(** A change of every page of a range but for the part [lo, hi) of it *)
Definition map_outside (h : Z * Z -> Z * Z) (lo hi a b : Z) g : Z -> Z * Z :=
  fun j => if (a <=? j) && (j <? b) && negb ((lo <=? j) && (j <? hi)) then h (g j) else g j.
Lemma map_outside_step h lo hi a b g j : a < b -> (a < lo \/ hi <= a) ->
  map_outside h lo hi (a + 1) b (set_page a (h (g a)) g) j = map_outside h lo hi a b g j.
Proof.
  intros H H'. unfold map_outside, set_page. destruct (Z.eqb_spec j a) as [->|Hne].
  - destruct (Z.leb_spec (a + 1) a), (Z.leb_spec a a), (Z.ltb_spec a b), (Z.leb_spec lo a), (Z.ltb_spec a hi); cbn; try done; lia.
  - destruct (Z.leb_spec (a + 1) j), (Z.leb_spec a j), (Z.ltb_spec j b); cbn; try done; lia.
Qed.
Lemma map_outside_skip h lo hi a b g j : lo <= a < hi -> map_outside h lo hi hi b g j = map_outside h lo hi a b g j.
Proof.
  intros H. unfold map_outside.
  destruct (Z.leb_spec hi j), (Z.leb_spec a j), (Z.ltb_spec j b), (Z.leb_spec lo j), (Z.ltb_spec j hi); cbn; try done; lia.
Qed.
Lemma map_outside_empty h lo hi a b g j : b <= a -> map_outside h lo hi a b g j = g j.
Proof. intros H. unfold map_outside. destruct (Z.leb_spec a j), (Z.ltb_spec j b); cbn; try done; lia. Qed.
Lemma wp_outside_until f h n lo hi a b g x : 0 <= a -> b <= user_pages -> 0 <= hi <= user_pages ->
  (forall j g x, a <= j < b -> (j < lo \/ hi <= j) -> stage x0 g x ->
    wp (f (page_addr j)) (fun _ x' => stage x0 (set_page j (h (g j)) g) x') x) ->
  (Z.to_nat (b - a) < n)%nat -> stage x0 g x ->
  wp (outside_until f n (page_addr lo) (page_addr hi) (page_addr a) (page_addr b))
    (fun _ x' => stage x0 (map_outside h lo hi a b g) x') x.
Proof.
  revert a g x. induction n as [|n IH]; intros a g x Ha Hb Hhi Hf Hn Hs; [lia|]. cbn [outside_until]. rewrite !page_lt, page_ge.
  destruct (Z.ltb_spec a b); cbn [andb].
  - destruct (Z.ltb_spec a lo), (Z.leb_spec hi a); cbn [orb].
    1-3: apply wp_bind; (eapply wp_mono; [apply Hf; [lia|lia|exact Hs]|]); intros [] x' Hs';
      rewrite page_next by (unfold user_pages, all_pages_count in *; lia);
      (eapply wp_mono; [apply (IH (a + 1)); [lia|lia|lia|intros j g' x'' Hj; apply Hf; lia|lia|exact Hs']|]);
      intros [] x'' Hs''; eapply stage_ext; [exact Hs''|]; intros k _; cbn beta; apply map_outside_step; lia.
    replace (page_addr hi -w PAGE_SIZE_4K +w PAGE_SIZE_4K) with (page_addr hi).
    + eapply wp_mono; [apply (IH hi); [lia|lia|lia|intros j g' x'' Hj; apply Hf; lia|lia|exact Hs]|].
      intros [] x' Hs'. eapply stage_ext; [exact Hs'|]. intros k _. cbn beta. by apply map_outside_skip.
    + unfold wadd, wsub, wrap. rewrite page_size. rewrite Z.add_mod_idemp_l by lia.
      rewrite Z.mod_small; unfold page_addr, user_pages in *; lia.
  - apply wp_ret. eapply stage_ext; [exact Hs|]. intros k _. by rewrite map_outside_empty.
Qed.
Definition release (v : Z * Z) : Z * Z := if v.1 =? RESERVED then (EMPTY, 0) else v.
Lemma set_page_same k g j : set_page k (g k) g j = g j.
Proof. unfold set_page. by destruct (Z.eqb_spec j k) as [->|]. Qed.
Lemma wp_clear_reserved k g x : 0 <= k < user_pages -> stage x0 g x ->
  wp (clear_reserved calls (page_addr k)) (fun _ x' => stage x0 (set_page k (release (g k)) g) x') x.
Proof.
  intros Hk Hs. unfold clear_reserved. apply wp_bind. eapply wp_page_cap; [exact Hs|by apply user_all|lia|].
  unfold when, release. destruct (Z.eqb_spec (g k).1 RESERVED) as [Eg|Hne].
  - apply wp_clear; [done|done|done|]. apply entry_level. rewrite (sg_entry _ _ _ _ Hs) by by apply user_all. by rewrite Eg.
  - apply wp_ret. eapply stage_ext; [exact Hs|]. intros j _. by rewrite set_page_same.
Qed.
Lemma wp_clear_until n a b g x : 0 <= a -> b <= user_pages -> (Z.to_nat (b - a) < n)%nat -> stage x0 g x ->
  wp (clear_until calls n (page_addr a) (page_addr b)) (fun _ x' => stage x0 (map_outside release b b a b g) x') x.
Proof.
  revert a g x. induction n as [|n IH]; intros a g x Ha Hb Hn Hs; [lia|]. cbn [clear_until]. rewrite page_lt.
  destruct (Z.ltb_spec a b).
  - apply wp_bind. eapply wp_mono; [apply wp_clear_reserved; [lia|exact Hs]|]. intros [] x' Hs'.
    rewrite page_next by (unfold user_pages, all_pages_count in *; lia).
    eapply wp_mono; [apply (IH (a + 1)); [lia|lia|lia|exact Hs']|].
    intros [] x'' Hs''. eapply stage_ext; [exact Hs''|]. intros k _. apply map_outside_step; lia.
  - apply wp_ret. eapply stage_ext; [exact Hs|]. intros k _. by rewrite map_outside_empty.
Qed.
End until.

(** ** Checks of a range *)
Definition range_is (P : Z * Z -> Prop) (a b : Z) g : Prop := forall j, a <= j < b -> P (g j).
Definition is_empty (v : Z * Z) : Prop := v.1 = EMPTY.
Definition is_res (v : Z * Z) : Prop := v.1 = RESERVED.
Section all_empty.
Context x0 g x (Hs : stage x0 g x).
Lemma wp_all_empty n k (Q : bool -> X -> Prop) : 0 <= k -> 0 <= n -> k + n <= all_pages_count ->
  (forall r, (r = true <-> range_is is_empty k (k + n) g) -> Q r x) ->
  wp (all_pages (fun v => let* a := is_available v in if a then let* r := is_reserved v in ret (negb r) else ret false)
    (Z.to_nat n) (page_addr k)) Q x.
Proof.
  intros Hk H0 Hn HQ. apply wp_all_pages with (fun j => (g j).1 =? EMPTY).
  - done.
  - lia.
  - intros j R Hj HR. apply wp_bind. eapply wp_is_available; [exact Hs|lia|].
    destruct (Z.eqb_spec (g j).1 EMPTY) as [Eg|Hne]; [|by apply wp_ret].
    apply wp_bind. eapply wp_is_reserved; [exact Hs|lia|]. apply wp_ret. by rewrite Eg.
  - intros r Hr. apply HQ. rewrite Hr, Z2Nat.id by lia. unfold range_is, is_empty. by setoid_rewrite Z.eqb_eq.
Qed.
(** Also from an address that is not aligned *)
Lemma wp_check_empty_any v n (Q : bool -> X -> Prop) : 0 <= n -> v / 4096 + n < all_pages_count /\
  v + (n - 1) * 4096 < 2 ^ 32 -> 0 <= v < 2 ^ 32 ->
  (forall ok, (ok = true <-> range_is is_empty (v / 4096) (v / 4096 + n) g) -> Q ok x) -> wp (check_empty_range v n seL4_PageBits) Q x.
Proof.
  intros H0 [Hn Hn'] Hv HQ. destruct (page_of v Hv) as [Hk _]. assert (n * unit_pages seL4_PageBits = n) as En by apply Z.mul_1_r.
  unfold check_empty_range. apply wp_bind, wp_num_4k_pages; [apply page_bits_ok|lia|lia|]. rewrite En.
  rewrite all_pages_any by (lia || intros w Hw; by rewrite (available_any w Hw), (reserved_any w Hw)). apply wp_all_empty; [lia|lia|lia|done].
Qed.
End all_empty.
Section checks.
Context x0 g x k n sb (Hs : stage x0 g x) (Hb : frame_bits_ok sb) (Hk : 0 <= k) (H0 : 0 <= n)
  (Hn : k + n * unit_pages sb < all_pages_count).
Lemma wp_check_empty_range (Q : bool -> X -> Prop) :
  (forall r, (r = true <-> range_is is_empty k (k + n * unit_pages sb) g) -> Q r x) ->
  wp (check_empty_range (page_addr k) n sb) Q x.
Proof.
  intros HQ. pose proof (unit_pos sb Hb). assert (0 <= n * unit_pages sb) by nia.
  unfold check_empty_range. apply wp_bind, wp_num_4k_pages; [done|lia|lia|]. eapply wp_all_empty; [exact Hs|lia|lia|lia|done].
Qed.
Lemma wp_check_reserved_range (Q : bool -> X -> Prop) :
  (forall r, (r = true <-> range_is is_res k (k + n * unit_pages sb) g) -> Q r x) ->
  wp (check_reserved_range (page_addr k) n sb) Q x.
Proof.
  intros HQ. pose proof (unit_pos sb Hb). assert (0 <= n * unit_pages sb) by nia.
  unfold check_reserved_range. apply wp_bind, wp_num_4k_pages; [done|lia|lia|].
  apply wp_all_pages with (fun j => (g j).1 =? RESERVED).
  - done.
  - lia.
  - intros j R Hj HR. eapply wp_is_reserved; [exact Hs|lia|exact HR].
  - intros r Hr. apply HQ. rewrite Hr, Z2Nat.id by lia. unfold range_is, is_res. by setoid_rewrite Z.eqb_eq.
Qed.
End checks.

(** ** The search for a free range: the first one from [last_allocated] on *)
Definition fits_range g n sb k : Prop := page_addr k mod 2 ^ sb = 0 /\ k + n < user_pages /\ range_is is_empty k (k + n) g.
Lemma aligned_test sb v : frame_bits_ok sb -> bool_decide (v &w MASK sb = 0) = bool_decide (v mod 2 ^ sb = 0).
Proof. intros H. unfold frame_bits_ok in H. by rewrite land_MASK by lia. Qed.
Section search.
Context x0 g x (Hs : stage x0 g x) sb n (Hb : frame_bits_ok sb) (Hn : 0 < n) (m : Z).
Definition searched (k : Z) : Prop := forall j, m <= j < k -> ~ fits_range g n sb j.
Definition found (r : Z) x' : Prop := r = NULL /\ x' = x /\ (forall k, m <= k -> ~ fits_range g n sb k) \/
  exists k, r = page_addr k /\ m <= k /\ fits_range g n sb k /\ searched k /\
    x' = (x.1, upd_last_allocated (page_addr (k + n)) x.2).
Lemma wp_find_range_from fuel cur c : 0 <= m -> m <= cur - c -> 0 <= c <= n -> cur < user_pages ->
  range_is is_empty (cur - c) cur g -> (0 < c -> page_addr (cur - c) mod 2 ^ sb = 0) -> searched (cur - c) ->
  (Z.to_nat (user_pages - cur) < fuel)%nat ->
  wp (find_range_from fuel sb n (page_addr cur) c (page_addr (cur - c))) found x.
Proof.
  revert cur c. induction fuel as [|fuel IH]; intros cur c Hm Hmc Hc Hu He Ha Hsr Hf; [lia|]. cbn [find_range_from].
  destruct (Z.ltb_spec c n) as [Hlt|Hge].
  - apply wp_bind. eapply wp_is_available; [exact Hs|unfold user_pages, all_pages_count in *; lia|].
    rewrite page_next by (unfold user_pages, all_pages_count in *; lia). rewrite kernel_start, page_ge. apply wp_bind.
    set (ok := ((g cur).1 =? EMPTY) && bool_decide (page_addr (cur - c) mod 2 ^ sb = 0)).
    assert (forall Q : bool -> X -> Prop, Q ok x -> wp (if (g cur).1 =? EMPTY then
      assert (sb <=? 31);;; ret (bool_decide (page_addr (cur - c) &w MASK sb = 0)) else ret false) Q x) as W.
    { intros Q HQ. unfold ok in HQ. destruct (_ =? EMPTY); [|by apply wp_ret]. apply wp_bind, wp_assert.
      - unfold frame_bits_ok in Hb. apply Z.leb_le. lia.
      - apply wp_ret. by rewrite aligned_test. }
    apply W. clear W. cbv zeta.
    set (c' := if ok then c + 1 else 0).
    assert (m <= cur + 1 - c' /\ 0 <= c' <= n /\ range_is is_empty (cur + 1 - c') (cur + 1) g /\
      (0 < c' -> page_addr (cur + 1 - c') mod 2 ^ sb = 0) /\ searched (cur + 1 - c') /\
      (if ok then page_addr (cur - c) else page_addr (cur + 1)) = page_addr (cur + 1 - c')) as (H1 & H2 & H3 & H4 & H5 & H6).
    { unfold c'. destruct ok eqn:Eo; unfold ok in Eo.
      - apply andb_true_iff in Eo as [E1%Z.eqb_eq E2%bool_decide_eq_true]. replace (cur + 1 - (c + 1)) with (cur - c) by lia.
        split; [done|]. split; [lia|]. split; [|done]. intros j Hj. destruct (decide (j = cur)) as [->|]; [done|]. apply He. lia.
      - rewrite Z.sub_0_r. split; [lia|]. split; [lia|]. split; [intros j Hj; lia|]. split; [lia|]. split; [|done].
        intros j Hj. destruct (Z_lt_le_dec j (cur - c)) as [Hj'|Hj']; [apply Hsr; lia|]. intros (F1 & F2 & F3).
        apply andb_false_iff in Eo as [E1%Z.eqb_neq|E2%bool_decide_eq_false].
        + destruct E1. apply F3. lia.
        + destruct (decide (0 < c)) as [Hp|Hz]; [by destruct E2; apply Ha|]. by replace j with (cur - c) in F1 by lia. }
    rewrite H6. destruct (Z.leb_spec user_pages (cur + 1)).
    + apply wp_ret. left. split; [done|]. split; [done|]. intros k Hk HF. destruct (Z_lt_le_dec k (cur + 1 - c')).
      * by apply (H5 k).
      * destruct HF as (_ & F2 & _). lia.
    + apply (IH (cur + 1) c'); try done; lia.
  - assert (c = n) as -> by lia. apply wp_bind, wp_modify, wp_ret. right. exists (cur - n). split; [done|]. split; [done|].
    split; [|split; [done|by replace (cur - n + n) with cur by lia]]. split; [apply Ha; lia|]. split; [lia|].
    by replace (cur - n + n) with cur by lia.
Qed.
End search.
Lemma wp_find_range x0 g x sb n : stage x0 g x -> frame_bits_ok sb -> 0 < n -> n * unit_pages sb < all_pages_count ->
  exists m, 0 <= m < user_pages /\ x.2.(last_allocated) = page_addr m /\
    wp (find_range n sb) (found g x sb (n * unit_pages sb) m) x.
Proof.
  intros Hs Hb Hn Hlt. destruct (to_last _ (sg_table _ _ _ _ Hs)) as (m & Hm & El). exists m. split; [done|]. split; [done|].
  pose proof (unit_pos sb Hb). unfold find_range. apply wp_bind, wp_num_4k_pages; [done|lia|done|]. apply wp_bind, wp_gets.
  rewrite El, kernel_start, steps_pages.
  pose proof (wp_find_range_from x0 g x Hs sb (n * unit_pages sb) Hb ltac:(nia) m
    (Datatypes.S (Z.to_nat (user_pages - m))) m 0) as W. rewrite Z.sub_0_r in W.
  assert (0 < n * unit_pages sb) by nia. apply W; try lia; intros j Hj; lia.
Qed.
(** Moving [last_allocated] on, and not past the kernel *)
Lemma found_stage x0 g x sb n k : stage x0 g x -> 0 < n -> 0 <= k -> fits_range g n sb k ->
  stage x0 g (x.1, upd_last_allocated (page_addr (k + n)) x.2).
Proof. intros Hs Hn Hk (_ & Hu & _). destruct x as [e d]. apply last_ok; [done|lia]. Qed.
End ranges.
