(* ===== verification/UVspaceList.v ===== *)
(** * The manager of virtual address spaces: the list of the reservations

    The reservations are linked by pointers, sorted by their addresses from the last one down, and do not overlap. *)
From stdpp Require Import base list gmap sorting.
From Stdlib Require Import ZArith Lia.
From S2P Require Import Prelude.
From S2P Require Import AllocBase.
From S2P Require Import UVspace.
From S2P Require Import UVspaceTable.

#[export] Instance res_inhabited : Inhabited sel4utils_res_t := populate (mk_res 0 0 0 0 0 0).
Abbreviation heap := (gmap Z sel4utils_res_t).
Implicit Types (m : heap) (p q : Z) (l : list Z) (d : sel4utils_alloc_data).

(** ** Linked lists of reservations *)
Fixpoint chain m p l : Prop :=
  match l with
  | [] => p = NULL
  | q :: l => p = q /\ q <> NULL /\ is_Some (m !! q) /\ chain m (m !!! q).(next) l
  end.
Lemma chain_in m p l q : chain m p l -> q ∈ l -> q <> NULL /\ is_Some (m !! q).
Proof. revert p. induction l as [|a l IH]; intros p H Hq; [by apply not_elem_of_nil in Hq|]. destruct H as (_ & H1 & H2 & H3).
  apply elem_of_cons in Hq as [->|Hq]; [done|by eapply IH]. Qed.
Lemma chain_ext m m' p l : (forall q, q ∈ l -> is_Some (m' !! q) /\ (m' !!! q).(next) = (m !!! q).(next)) -> chain m p l -> chain m' p l.
Proof.
  revert p. induction l as [|a l IH]; intros p Hm; [done|]. intros (-> & H1 & H2 & H3). destruct (Hm a) as [G1 G2]; [by left|].
  split; [done|]. split; [done|]. split; [done|]. rewrite G2. apply IH; [|done]. intros q Hq. apply Hm. by right.
Qed.
Lemma chain_app m p l1 q l2 : chain m p (l1 ++ q :: l2) -> chain m (m !!! q).(next) l2.
Proof. revert p. induction l1 as [|a l1 IH]; intros p; [by intros (_ & _ & _ & H)|]. intros (_ & _ & _ & H). by eapply IH. Qed.
Lemma chain_replace m m' p l1 q l2 l2' : NoDup (l1 ++ q :: l2) -> chain m p (l1 ++ q :: l2) ->
  (forall r, r ∈ l1 -> m' !! r = m !! r) -> is_Some (m' !! q) -> chain m' (m' !!! q).(next) l2' -> chain m' p (l1 ++ q :: l2').
Proof.
  revert p. induction l1 as [|a l1 IH]; intros p Hn H Hl Hq Hc; cbn in *.
  - by destruct H as (-> & H & _).
  - destruct H as (-> & H1 & H2 & H3). assert (m' !! a = m !! a) as Ea by (apply Hl; by left).
    split; [done|]. split; [done|]. split; [by rewrite Ea|]. unfold lookup_total, map_lookup_total in *. rewrite Ea.
    apply NoDup_cons in Hn as [_ Hn]. apply IH; try done. intros r Hr. apply Hl. by right.
Qed.
Lemma chain_length m p l : chain m p l -> NoDup l -> (length l <= size m)%nat.
Proof.
  intros Hc Hn. rewrite <- (size_dom m), <- (size_list_to_set (C := gset Z) l Hn). apply subseteq_size.
  intros q Hq. apply elem_of_list_to_set in Hq. apply elem_of_dom. by eapply chain_in.
Qed.

(** ** Order *)
Definition behind m p q : Prop := (m !!! q).(end_) <= (m !!! p).(start).
Definition spans m p (a b : Z) : Prop := is_Some (m !! p) /\ (m !!! p).(start) = page_addr a /\ (m !!! p).(end_) = page_addr b /\
  0 <= a < b /\ b <= user_pages.
Definition apart m p q : Prop := behind m p q \/ behind m q p.
Record list_ok d l : Prop := {
  lo_chain : chain d.(reservations) d.(reservation_head) l;
  lo_spans : forall p, p ∈ l -> exists a b, spans d.(reservations) p a b;
  lo_sorted : StronglySorted (behind d.(reservations)) l }.
Lemma sorted_nodup m l : (forall p, p ∈ l -> exists a b, spans m p a b) -> StronglySorted (behind m) l -> NoDup l.
Proof.
  induction l as [|p l IH]; intros Hs H; [constructor|]. apply StronglySorted_cons in H as [Hf H]. constructor.
  - intros Hp. rewrite Forall_forall in Hf. specialize (Hf p Hp). destruct (Hs p) as (a & b & _ & E1 & E2 & Hab & _); [by left|].
    unfold behind in Hf. rewrite E1, E2 in Hf. unfold page_addr in Hf. lia.
  - apply IH; [|done]. intros q Hq. apply Hs. by right.
Qed.
Lemma sorted_apart m l p q : StronglySorted (behind m) l -> p ∈ l -> q ∈ l -> p <> q -> apart m p q.
Proof.
  induction l as [|r l IH]; intros H Hp Hq Hne; [by apply not_elem_of_nil in Hp|]. apply StronglySorted_cons in H as [Hf H].
  rewrite Forall_forall in Hf. apply elem_of_cons in Hp as [->|Hp]; apply elem_of_cons in Hq as [->|Hq]; try done.
  - left. by apply Hf.
  - right. by apply Hf.
  - by apply IH.
Qed.
(** All fields but the link are the same. *)
Definition same_fields m m' : Prop := forall q, (m !! q = None /\ m' !! q = None) \/
  exists r n, m !! q = Some r /\ m' !! q = Some (upd_next n r).
Lemma same_fields_refl m : same_fields m m.
Proof. intros q. destruct (m !! q) as [r|] eqn:Eq; [|by left]. right. exists r, r.(next). by destruct r. Qed.
Lemma same_fields_next m p n r : m !! p = Some r -> same_fields m (<[p := upd_next n r]> m).
Proof.
  intros Er q. destruct (decide (q = p)) as [->|Hne].
  - right. exists r, n. by rewrite lookup_insert_eq.
  - rewrite lookup_insert_ne by done. apply same_fields_refl.
Qed.
Lemma same_fields_trans m1 m2 m3 : same_fields m1 m2 -> same_fields m2 m3 -> same_fields m1 m3.
Proof.
  intros H1 H2 q. destruct (H1 q) as [[E1 E2]|(r & n & E1 & E2)], (H2 q) as [[E3 E4]|(r' & n' & E3 & E4)]; try congruence; [by left|].
  right. exists r, n'. split; [done|]. rewrite E4. rewrite E2 in E3. by injection E3 as <-.
Qed.
Lemma same_fields_span m m' q : same_fields m m' -> (m' !!! q).(start) = (m !!! q).(start) /\ (m' !!! q).(end_) = (m !!! q).(end_) /\
  (is_Some (m !! q) <-> is_Some (m' !! q)).
Proof.
  intros H. unfold lookup_total, map_lookup_total. destruct (H q) as [[E1 E2]|(r & n & E1 & E2)]; rewrite E1, E2; cbn; [done|].
  split; [done|]. split; [done|]. by split; intros _; eexists.
Qed.
Lemma same_fields_dom m m' : same_fields m m' -> dom m' = dom m.
Proof. intros H. apply set_eq. intros q. rewrite !elem_of_dom. symmetry. apply (same_fields_span m m' q H). Qed.
Lemma behind_same m m' p q : same_fields m m' -> behind m p q -> behind m' p q.
Proof. unfold behind. intros H. destruct (same_fields_span _ _ p H) as (-> & _ & _), (same_fields_span _ _ q H) as (_ & -> & _). done. Qed.
Lemma spans_same m m' p a b : same_fields m m' -> spans m p a b -> spans m' p a b.
Proof. intros H (H1 & H2). destruct (same_fields_span _ _ p H) as (E1 & E2 & E3). unfold spans. rewrite E1, E2. split; [by apply E3|done]. Qed.
Lemma sorted_same m m' l : same_fields m m' -> StronglySorted (behind m) l -> StronglySorted (behind m') l.
Proof.
  intros H. induction 1 as [|p l Hs IH Hf]; [constructor|]. constructor; [done|]. eapply Forall_impl; [exact Hf|]. intros q. by apply behind_same.
Qed.

(** ** The operations on the list *)
Section operations.
Context {E : Type}.
Abbreviation X := (E * sel4utils_alloc_data)%type.
Implicit Types (e : E) (x : X).
Definition with_res d m : sel4utils_alloc_data := upd_reservations m d.
Lemma wp_res_at p e d (Q : sel4utils_res_t -> X -> Prop) : is_Some (d.(reservations) !! p) ->
  Q (d.(reservations) !!! p) (e, d) -> wp (res_at p) Q (e, d).
Proof.
  intros [r Er] HQ. unfold res_at. apply wp_bind, wp_gets. eapply wp_of_option; [exact Er|].
  by rewrite (lookup_total_correct _ _ _ Er) in HQ.
Qed.
Lemma wp_mod_res p f e d (Q : unit -> X -> Prop) : is_Some (d.(reservations) !! p) ->
  Q tt (e, with_res d (<[p := f (d.(reservations) !!! p)]> d.(reservations))) -> wp (mod_res p f) Q (e, d).
Proof. intros H HQ. unfold mod_res. apply wp_bind, wp_res_at; [done|]. by apply wp_modify. Qed.
Lemma lookup_insert_total m p r : <[p := r]> m !!! p = r.
Proof. apply lookup_total_insert_eq. Qed.

(** The place of a reservation that starts at [a] in the rest of a list: behind those that start at [a] or above *)
Definition placed m (a : Z) l l1 l2 : Prop := l = l1 ++ l2 /\ (forall q, q ∈ l1 -> a <= (m !!! q).(start)) /\
  match l2 with [] => True | q :: _ => (m !!! q).(start) < a end.
Definition inserted m p prev l (a : Z) m' : Prop := same_fields m m' /\
  (forall q, q ∉ prev :: p :: l -> m' !! q = m !! q) /\
  exists l1 l2, placed m a l l1 l2 /\ chain m' (m' !!! prev).(next) (l1 ++ p :: l2).
Lemma wp_insert_after n p a prev cur l e d : let m := d.(reservations) in
  chain m cur l -> NoDup (prev :: p :: l) -> is_Some (m !! prev) -> is_Some (m !! p) -> p <> NULL -> (m !!! prev).(next) = cur ->
  (m !!! p).(next) = NULL -> (length l < n)%nat ->
  wp (insert_after n p a prev cur) (fun _ x => exists m', x = (e, with_res d m') /\ inserted m p prev l a m') (e, d).
Proof.
  revert prev cur l d. induction n as [|n IH]; intros prev cur l d m Hc Hn Hprev Hp Hp0 Hnext Hpn Hf; [lia|]. cbn [insert_after].
  assert (prev <> p) as Hpp by (apply NoDup_cons in Hn as [Hn _]; set_solver).
  destruct l as [|q l].
  - cbn in Hc. rewrite Hc. cbn. apply wp_mod_res; [done|]. eexists. split; [done|].
    set (m' := <[prev := upd_next p (m !!! prev)]> m). split; [|split].
    + destruct Hprev as [r Er]. rewrite (lookup_total_correct _ _ _ Er). by apply same_fields_next.
    + intros q Hq. apply lookup_insert_ne. set_solver.
    + exists [], []. split; [split; [done|]; split; [by intros q ?%elem_of_nil|done]|]. unfold m'. rewrite lookup_insert_total. cbn. split; [done|]. split; [done|].
      rewrite lookup_insert_ne by done. split; [done|]. by rewrite lookup_total_insert_ne.
  - destruct Hc as (-> & Hq0 & Hqs & Hc). destruct (Z.eqb_spec q NULL); [done|]. apply wp_bind, wp_res_at; [done|].
    assert (q <> p /\ q <> prev) as [Hqp Hqprev] by (apply NoDup_cons in Hn as [Hn1 [Hn2 _]%NoDup_cons]; set_solver).
    rewrite Z.gtb_ltb. change (d.(reservations)) with m. destruct (Z.ltb_spec (m !!! q).(start) a) as [Hlt|Hge].
    + apply wp_bind, wp_mod_res; [done|]. apply wp_mod_res; [cbn; rewrite lookup_insert_ne by done; done|]. cbn.
      rewrite lookup_total_insert_ne by done.
      set (m1 := <[p := upd_next q (m !!! p)]> m). set (m' := <[prev := upd_next p (m !!! prev)]> m1).
      assert (forall r, r <> p -> r <> prev -> m' !! r = m !! r) as Hm.
      { intros r H1 H2. unfold m', m1. by rewrite !lookup_insert_ne. }
      exists m'. split; [done|]. split; [|split].
      * destruct Hprev as [r Er], Hp as [r' Er']. eapply same_fields_trans.
        -- apply (same_fields_next m p q r' Er').
        -- unfold m', m1. rewrite (lookup_total_correct _ _ _ Er'), (lookup_total_correct _ _ _ Er). apply same_fields_next. by rewrite lookup_insert_ne.
      * intros r Hr. apply Hm; set_solver.
      * exists [], (q :: l). split; [split; [done|]; split; [by intros r ?%elem_of_nil|done]|]. unfold m'. rewrite lookup_insert_total. cbn.
        split; [done|]. split; [done|]. rewrite lookup_insert_ne by done. unfold m1 at 1. rewrite lookup_insert_eq. split; [done|].
        rewrite lookup_total_insert_ne by done. unfold m1 at 1. rewrite lookup_insert_total. cbn. fold m'.
        split; [done|]. split; [done|]. rewrite (Hm q) by done. split; [done|]. unfold lookup_total, map_lookup_total. rewrite (Hm q) by done.
        eapply chain_ext; [|exact Hc]. intros r Hr. unfold lookup_total, map_lookup_total.
        apply NoDup_cons in Hn as [Hn1 [Hn2 _]%NoDup_cons]. rewrite Hm by set_solver. split; [|done]. by eapply chain_in.
    + eapply wp_mono; [apply (IH q (m !!! q).(next) l d); try done|].
      * apply NoDup_cons in Hn as [_ Hn]. apply NoDup_cons in Hn as [Hn1 Hn2]. apply NoDup_cons in Hn2 as [Hn2 Hn3].
        apply NoDup_cons. split; [set_solver|]. apply NoDup_cons. split; [set_solver|done].
      * cbn in Hf. lia.
      * intros [] x (m' & -> & Hs & Hfr & l1 & l2 & (Hl & Hl1 & Hl2) & Hch). exists m'. split; [done|]. split; [done|]. split.
        { intros r Hr. apply Hfr. set_solver. }
        assert (m' !! prev = m !! prev) as Eprev.
        { apply Hfr. apply NoDup_cons in Hn as [Hn _]. set_solver. }
        exists (q :: l1), l2. split; [split; [by rewrite Hl|]|].
        { split; [|done]. intros r [->|Hr]%elem_of_cons; [done|by apply Hl1]. }
        unfold lookup_total at 1, map_lookup_total at 1. rewrite Eprev. fold (m !!! prev). cbn [app chain].
        change (default inhabitant (m !! prev)) with (m !!! prev). rewrite Hnext.
        split; [done|]. split; [done|]. split; [by apply (same_fields_span m m' q Hs)|done].
Qed.
Lemma fuel_enough m p l : chain m p l -> NoDup l -> (length l < Datatypes.S (size m))%nat.
Proof. intros H1 H2. pose proof (chain_length m p l H1 H2). lia. Qed.
Lemma total_ext m m' q : m' !! q = m !! q -> m' !!! q = m !!! q.
Proof. unfold lookup_total, map_lookup_total. by intros ->. Qed.
Definition with_list d h m : sel4utils_alloc_data := upd_reservation_head h (with_res d m).
#[local] Arguments insert_after : simpl never.
Section insert.
Context p l e d (Hc : chain d.(reservations) d.(reservation_head) l) (Hn : NoDup (p :: l)) (Hp : is_Some (d.(reservations) !! p))
  (Hp0 : p <> NULL).
Abbreviation m := d.(reservations).
(** The reservation with its link cleared *)
Abbreviation m0 := (<[p := upd_next NULL (m !!! p)]> m).
Lemma cleared_same : same_fields m m0.
Proof. destruct Hp as [r Er]. rewrite (lookup_total_correct _ _ _ Er). by apply same_fields_next. Qed.
Lemma cleared_other q : q ∈ l -> m0 !! q = m !! q /\ m0 !!! q = m !!! q.
Proof. intros Hq. apply NoDup_cons in Hn as [Hpl _]. rewrite lookup_insert_ne, lookup_total_insert_ne by (intros ->; done). done. Qed.
Lemma cleared_chain : chain m0 d.(reservation_head) l.
Proof.
  eapply chain_ext; [|exact Hc]. intros q Hq. destruct (cleared_other q Hq) as [-> ->]. split; [|done]. by eapply chain_in.
Qed.
Definition inserted_list (x : X) : Prop := exists h m' l1 l2, x = (e, with_list d h m') /\ same_fields m m' /\
  placed m (m !!! p).(start) l l1 l2 /\ chain m' h (l1 ++ p :: l2).
Lemma wp_insert_head : (forall q l', l = q :: l' -> (m !!! q).(start) < (m !!! p).(start)) ->
  wp (mod_res p (upd_next d.(reservation_head));;; mod_data (upd_reservation_head p)) (fun _ => inserted_list) (e, with_res d m0).
Proof.
  intros Hl. apply wp_bind, wp_mod_res; [cbn; by rewrite lookup_insert_eq|]. apply wp_modify. cbn. rewrite insert_insert_eq, lookup_insert_total.
  change (upd_next d.(reservation_head) (upd_next NULL (m !!! p))) with (upd_next d.(reservation_head) (m !!! p)).
  set (m' := <[p := upd_next d.(reservation_head) (m !!! p)]> m). assert (same_fields m m') as Hm'.
  { destruct Hp as [r Er]. unfold m'. rewrite (lookup_total_correct _ _ _ Er). by apply (same_fields_next m p). }
  exists p, m', [], l. split; [done|]. split; [done|].
  split; [split; [done|]; split; [by intros r ?%elem_of_nil|destruct l; [done|by eapply Hl]]|].
  cbn. split; [done|]. split; [done|]. split; [by apply (same_fields_span m m' p Hm')|]. unfold m' at 2. rewrite lookup_insert_total. cbn.
  eapply chain_ext; [|exact Hc]. intros q Hq. apply NoDup_cons in Hn as [Hpl _]. unfold m'.
  rewrite lookup_insert_ne, lookup_total_insert_ne by (intros ->; done). split; [|done]. by eapply chain_in.
Qed.
Lemma wp_insert_tail q l' : l = q :: l' -> (m !!! p).(start) <= (m !!! q).(start) ->
  wp (insert_after (Datatypes.S (size m0)) p (m !!! p).(start) q (m !!! q).(next)) (fun _ => inserted_list) (e, with_res d m0).
Proof.
  intros El Hge. pose proof Hn as Hn'. pose proof cleared_chain as Hc0. destruct (cleared_other q ltac:(rewrite El; by left)) as [E1 E2].
  rewrite El in Hn', Hc0. apply NoDup_cons in Hn' as [Hpl Hnl]. destruct Hc0 as (Eh & Hq0 & Hqs & Hc0). rewrite E2 in Hc0.
  apply NoDup_cons in Hnl as [Hq Hnl].
  eapply wp_mono; [apply (wp_insert_after _ p (m !!! p).(start) q (m !!! q).(next) l' e (with_res d m0)); cbn; try done|].
  - apply NoDup_cons. split; [set_solver|]. apply NoDup_cons. split; [set_solver|done].
  - by rewrite lookup_insert_eq.
  - by rewrite E2.
  - by rewrite lookup_insert_total.
  - by eapply fuel_enough.
  - cbn. intros [] x (m' & -> & H1 & H2 & l1 & l2 & (Hl & Hl1 & Hl2) & H3).
    pose proof cleared_same as H0. exists q, m', (q :: l1), l2. split; [by rewrite <- Eh; destruct d|]. split; [by eapply same_fields_trans|].
    assert (forall r, (m0 !!! r).(start) = (m !!! r).(start)) as Hst by (intros r; apply (same_fields_span m m0 r H0)).
    split; [split; [by rewrite El, Hl|]; split|].
    + intros r [->|Hr]%elem_of_cons; [lia|]. rewrite <- (Hst r). by apply Hl1.
    + destruct l2 as [|r l2]; [done|]. by rewrite <- Hst.
    + cbn. split; [done|]. split; [done|]. split; [|done]. by apply (same_fields_span m0 m' q H1).
Qed.
Lemma wp_insert_reservation : wp (insert_reservation p) (fun _ => inserted_list) (e, d).
Proof.
  unfold insert_reservation. apply wp_bind, wp_assert; [by rewrite bool_decide_false|].
  apply wp_bind, wp_mod_res; [done|]. apply wp_bind, wp_gets. cbn.
  apply wp_bind, wp_res_at; [cbn; by rewrite lookup_insert_eq|]. cbn. rewrite lookup_insert_total. cbn. apply wp_bind.
  pose proof Hc as Hh. assert (l = [] \/ exists q l', l = q :: l') as [El|(q & l' & El)] by (destruct l; eauto); rewrite El in Hh.
  - cbn in Hh. replace (d.(reservation_head) =? NULL) with true by (by rewrite Hh). apply wp_ret. cbn iota.
    apply wp_insert_head. intros q l' E'. congruence.
  - destruct Hh as (Eh & Hq0 & Hqs & _). destruct (cleared_other q ltac:(rewrite El; by left)) as [E1 E2].
    replace (d.(reservation_head) =? NULL) with false by (rewrite Eh; symmetry; by apply Z.eqb_neq).
    apply wp_bind. rewrite Eh. apply wp_res_at; [cbn; by rewrite E1|]. apply wp_ret. cbn. rewrite E2, Z.gtb_ltb.
    destruct (Z.ltb_spec (m !!! q).(start) (m !!! p).(start)) as [Hlt|Hge].
    + rewrite <- Eh. apply wp_insert_head. intros q' l'' E'. rewrite El in E'. by injection E' as <- _.
    + apply wp_bind, wp_res_at; [cbn; by rewrite E1|]. cbn. rewrite E2. by eapply wp_insert_tail.
Qed.
End insert.

#[local] Arguments remove_after : simpl never.
(** Linking past the reservation [p] that follows [prev] *)
Lemma unlink_same m prev p r : is_Some (m !! prev) -> is_Some (m !! p) -> prev <> p ->
  let m' := <[p := upd_next NULL (m !!! p)]> (<[prev := upd_next r (m !!! prev)]> m) in
  same_fields m m' /\ (m' !!! prev).(next) = r /\ (forall q, q <> prev -> q <> p -> m' !! q = m !! q).
Proof.
  intros [a Ea] [b Eb] Hne m'. split; [|split].
  - unfold m'. rewrite (lookup_total_correct _ _ _ Ea), (lookup_total_correct _ _ _ Eb). eapply same_fields_trans; [by apply (same_fields_next m prev r a)|]. apply same_fields_next. by rewrite lookup_insert_ne.
  - unfold m'. rewrite lookup_total_insert_ne by done. by rewrite lookup_insert_total.
  - intros q H1 H2. unfold m'. by rewrite !lookup_insert_ne.
Qed.
Lemma wp_remove_after n p prev cur l1 l2 e d : let m := d.(reservations) in
  chain m cur (l1 ++ p :: l2) -> NoDup (prev :: l1 ++ p :: l2) -> is_Some (m !! prev) -> (m !!! prev).(next) = cur ->
  (length l1 < n)%nat ->
  wp (remove_after n p prev cur) (fun _ x => exists m', x = (e, with_res d m') /\ same_fields m m' /\
    (forall q, q ∉ prev :: l1 ++ p :: l2 -> m' !! q = m !! q) /\ chain m' (m' !!! prev).(next) (l1 ++ l2)) (e, d).
Proof.
  revert prev cur l1 d. induction n as [|n IH]; intros prev cur l1 d m Hc Hn Hprev Hnext Hf; [lia|].
  change (remove_after (Datatypes.S n) p prev cur) with (if cur =? NULL then
        mod_res (E:=E) prev (upd_next NULL) ;;; mod_res p (upd_next NULL)
      else if cur =? p then
        let* r := res_at p in mod_res prev (upd_next r.(next)) ;;; mod_res p (upd_next NULL)
      else let* c := res_at cur in remove_after n p cur c.(next)).
  pose proof Hn as [Hnp Hn']%NoDup_cons. destruct l1 as [|q l1].
  - destruct Hc as (-> & Hp0 & Hp & Hc). destruct (Z.eqb_spec p NULL); [done|]. rewrite Z.eqb_refl.
    assert (prev <> p) as Hne by set_solver. apply wp_bind, wp_res_at; [done|]. apply wp_bind, wp_mod_res; [done|].
    apply wp_mod_res; [cbn; by rewrite lookup_insert_ne|]. cbn. rewrite lookup_total_insert_ne by done.
    destruct (unlink_same m prev p (m !!! p).(next) Hprev Hp Hne) as (H1 & H2 & H3). change (d.(reservations)) with m.
    eexists. split; [done|]. split; [exact H1|]. split; [intros q Hq; apply H3; set_solver|]. rewrite H2.
    eapply chain_ext; [|exact Hc]. intros q Hq. apply NoDup_cons in Hn' as [Hn1 Hn2].
    assert (q <> prev /\ q <> p) as [Hq1 Hq2] by set_solver. rewrite (total_ext _ _ q (H3 q Hq1 Hq2)), (H3 q Hq1 Hq2).
    split; [by eapply chain_in|done].
  - destruct Hc as (-> & Hq0 & Hqs & Hc). destruct (Z.eqb_spec q NULL); [done|]. cbn in Hn'. apply NoDup_cons in Hn' as [Hq Hn'].
    destruct (Z.eqb_spec q p) as [->|Hqp]; [set_solver|]. apply wp_bind, wp_res_at; [done|].
    eapply wp_mono; [apply (IH q (m !!! q).(next) l1 d); try done|]; [by apply NoDup_cons|cbn in Hf; lia|].
    intros [] x (m' & -> & H1 & H2 & H3). exists m'. split; [done|]. split; [done|]. split; [intros r Hr; apply H2; set_solver|].
    assert (m' !!! prev = m !!! prev) as -> by (apply total_ext, H2; set_solver). rewrite Hnext. cbn.
    split; [done|]. split; [done|]. split; [by apply (same_fields_span m m' q H1)|done].
Qed.
Lemma wp_remove_reservation p l1 l2 e d : let m := d.(reservations) in
  chain m d.(reservation_head) (l1 ++ p :: l2) -> NoDup (l1 ++ p :: l2) ->
  wp (remove_reservation p) (fun _ x => exists h m', x = (e, with_list d h m') /\ same_fields m m' /\ chain m' h (l1 ++ l2)) (e, d).
Proof.
  intros m Hc Hn. unfold remove_reservation. apply wp_bind, wp_gets. cbn. destruct l1 as [|q l1].
  - destruct Hc as (Eh & Hp0 & Hp & Hc). rewrite Eh, Z.eqb_refl. apply wp_bind, wp_res_at; [done|]. apply wp_bind, wp_modify. cbn.
    apply wp_mod_res; [done|]. cbn. destruct Hp as [r Er]. change (d.(reservations)) with m. rewrite (lookup_total_correct _ _ _ Er) in *.
    exists r.(next), (<[p := upd_next NULL r]> m). split; [by destruct d|]. split; [by apply same_fields_next|]. eapply chain_ext; [|exact Hc].
    intros q Hq. apply NoDup_cons in Hn as [Hn _]. rewrite lookup_insert_ne, lookup_total_insert_ne by (intros ->; done).
    split; [by eapply chain_in|done].
  - pose proof Hc as (Eh & Hq0 & Hqs & Hc'). rewrite Eh. assert (p <> q) as Hpq by (apply NoDup_cons in Hn as [Hn _]; set_solver).
    destruct (Z.eqb_spec p q); [done|]. apply wp_bind, wp_res_at; [done|].
    eapply wp_mono; [apply (wp_remove_after _ p q (m !!! q).(next) l1 l2 e d); try done|].
    + pose proof (chain_length _ _ _ Hc Hn) as Hlen. unfold res_fuel. fold m. cbn in Hlen. rewrite length_app in Hlen. lia.
    + intros [] x (m' & -> & H1 & H2 & H3). exists q, m'. split; [by rewrite <- Eh; destruct d|]. split; [done|]. cbn.
      split; [done|]. split; [done|]. split; [by apply (same_fields_span m m' q H1)|done].
Qed.
Definition covers d p (v : Z) : bool := ((d.(reservations) !!! p).(start) <=? v) && (v <? (d.(reservations) !!! p).(end_)).
Lemma wp_find_reserve_from n v cur l e d (Q : Z -> X -> Prop) : chain d.(reservations) cur l -> (length l < n)%nat ->
  Q (default NULL (head (filter (fun p => covers d p v = true) l))) (e, d) -> wp (find_reserve_from n cur v) Q (e, d).
Proof.
  revert cur l. induction n as [|n IH]; intros cur l Hc Hf HQ; [lia|]. cbn [find_reserve_from]. destruct l as [|q l].
  - cbn in Hc. rewrite Hc. by apply wp_ret.
  - destruct Hc as (-> & Hq0 & Hqs & Hc). destruct (Z.eqb_spec q NULL); [done|]. apply wp_bind, wp_res_at; [done|].
    rewrite filter_cons in HQ. rewrite Z.geb_leb. change (_ && _) with (covers d q v).
    destruct (decide (covers d q v = true)) as [Ec|Ec]; [by rewrite Ec; apply wp_ret|].
    apply not_true_is_false in Ec. rewrite Ec. apply (IH _ l); [done|cbn in Hf; lia|done].
Qed.
Lemma wp_find_reserve v l e d (Q : Z -> X -> Prop) : list_ok d l ->
  Q (default NULL (head (filter (fun p => covers d p v = true) l))) (e, d) -> wp (find_reserve v) Q (e, d).
Proof.
  intros Hl HQ. unfold find_reserve. apply wp_bind, wp_gets. cbn [snd]. eapply wp_find_reserve_from; [apply Hl| |exact HQ].
  eapply fuel_enough; [apply Hl|]. eapply sorted_nodup; apply Hl.
Qed.
End operations.

(** ** Putting a reservation into the list *)
Lemma resv_sorted_insert m p l l1 l2 : (forall q, q ∈ l -> exists a b, spans m q a b) -> (exists a b, spans m p a b) -> StronglySorted (behind m) l ->
  (forall q, q ∈ l -> apart m p q) -> placed m (m !!! p).(start) l l1 l2 -> StronglySorted (behind m) (l1 ++ p :: l2).
Proof.
  intros Hs (a & b & _ & Ea & Eb & Hab & _) Hl Hp (-> & H1 & H2). apply StronglySorted_app in Hl as (Hl12 & Hl1 & Hl2).
  assert (forall q, q ∈ l1 ++ l2 -> exists c, (m !!! q).(start) = c /\ c < (m !!! q).(end_)) as Hq.
  { intros q Hq. destruct (Hs q Hq) as (c & c' & _ & -> & -> & Hc & _). eexists. split; [done|]. unfold page_addr. lia. }
  assert ((m !!! p).(start) < (m !!! p).(end_)) as Hpp by (rewrite Ea, Eb; unfold page_addr; lia).
  assert (forall q, q ∈ l2 -> behind m p q) as Hb2.
  { destruct l2 as [|r l2]; [by intros q ?%elem_of_nil|]. intros q Hq2.
    assert ((m !!! q).(start) < (m !!! p).(start)) as Hlt.
    { apply elem_of_cons in Hq2 as [->|Hq2]; [done|]. apply StronglySorted_cons in Hl2 as [Hf _]. rewrite Forall_forall in Hf.
      specialize (Hf q Hq2). unfold behind in Hf. destruct (Hq q) as (c & Ec & Hc); [set_solver|]. lia. }
    destruct (Hp q) as [H|H]; [set_solver|done|]. unfold behind in *. lia. }
  apply StronglySorted_app. split; [|split; [done|apply StronglySorted_cons; split; [by apply Forall_forall|done]]].
  intros q r Hq1 [->|Hr]%elem_of_cons; [|by apply Hl12].
  destruct (Hp q) as [H|H]; [set_solver| |done]. specialize (H1 q Hq1). unfold behind in *.
  destruct (Hq q) as (c & Ec & Hc); [set_solver|]. lia.
Qed.

Lemma sorted_delete m l1 p l2 : StronglySorted (behind m) (l1 ++ p :: l2) -> StronglySorted (behind m) (l1 ++ l2).
Proof.
  intros (H & H1 & [_ H2]%StronglySorted_cons)%StronglySorted_app. apply StronglySorted_app. split; [|done].
  intros q r Hq Hr. apply H; [done|by right].
Qed.
Section kept.
Context {E : Type}.
Abbreviation X := (E * sel4utils_alloc_data)%type.
Implicit Types (e : E) (x : X).
(** What remains of the list, without the reservation, is sorted and linked. *)
Lemma wp_insert_ok p l e d a b : list_ok d l -> spans d.(reservations) p a b -> p <> NULL -> p ∉ l ->
  (forall q, q ∈ l -> apart d.(reservations) p q) ->
  wp (insert_reservation p) (fun _ x => exists h m' l', x = (e, with_list d h m') /\ same_fields d.(reservations) m' /\
    l' ≡ₚ p :: l /\ list_ok (with_list d h m') l') (e, d).
Proof.
  intros [Hc Hs Hl] Hp Hp0 Hpl Ha.
  eapply wp_mono; [apply (wp_insert_reservation p l e d Hc); [|apply Hp|done]|].
  - apply NoDup_cons. split; [done|]. by eapply sorted_nodup.
  - intros [] x (h & m' & l1 & l2 & -> & H1 & H2 & H3). exists h, m', (l1 ++ p :: l2). split; [done|]. split; [done|].
    pose proof H2 as (-> & _ & _). split; [by rewrite Permutation_middle|]. split; [done| |].
    + intros q Hq. rewrite elem_of_app, elem_of_cons in Hq. destruct (decide (q = p)) as [->|Hne].
      * exists a, b. by eapply spans_same.
      * destruct (Hs q) as (c & c' & Hc'); [rewrite elem_of_app; tauto|]. exists c, c'. by eapply spans_same.
    + eapply sorted_same; [exact H1|]. eapply resv_sorted_insert; eauto.
Qed.
(** Of the reservation that is removed only the links matter. *)
Lemma wp_remove_rest p l e d : chain d.(reservations) d.(reservation_head) l -> NoDup l -> p ∈ l ->
  (forall q, q ∈ l -> q <> p -> exists a b, spans d.(reservations) q a b) ->
  (forall l1 l2, l = l1 ++ p :: l2 -> StronglySorted (behind d.(reservations)) (l1 ++ l2)) ->
  wp (remove_reservation p) (fun _ x => exists h m' l', x = (e, with_list d h m') /\ same_fields d.(reservations) m' /\
    l ≡ₚ p :: l' /\ list_ok (with_list d h m') l') (e, d).
Proof.
  intros Hc Hn Hp Hs Hl. apply list_elem_of_split in Hp as (l1 & l2 & ->).
  eapply wp_mono; [by apply wp_remove_reservation|]. intros [] x (h & m' & -> & H1 & H2). exists h, m', (l1 ++ l2).
  split; [done|]. split; [done|]. split; [by rewrite Permutation_middle|]. split; [done| |].
  - intros q Hq. apply NoDup_app in Hn as (_ & Hn1 & [Hn2 _]%NoDup_cons).
    assert (q <> p) by (intros ->; apply elem_of_app in Hq as [Hq|Hq]; [apply (Hn1 p Hq); by left|done]).
    destruct (Hs q) as (c & c' & Hc'); [set_solver|done|]. exists c, c'. by eapply spans_same.
  - eapply sorted_same; [exact H1|]. by apply Hl.
Qed.
Lemma wp_remove_ok p l e d : list_ok d l -> p ∈ l ->
  wp (remove_reservation p) (fun _ x => exists h m' l', x = (e, with_list d h m') /\ same_fields d.(reservations) m' /\
    l ≡ₚ p :: l' /\ list_ok (with_list d h m') l') (e, d).
Proof.
  intros [Hc Hs Hl] Hp. apply wp_remove_rest; [done|by eapply sorted_nodup|done|by intros; apply Hs|].
  intros l1 l2 ->. by eapply sorted_delete.
Qed.
End kept.
