(* ===== verification/UVspaceOps.v ===== *)
(** * The manager of virtual address spaces: its operations on an abstract address space

    The abstract address space: what every page is mapped to, and the reservations. What the operations make of it, and
    what the functions of the interface that reserve and give back ranges do. *)
From stdpp Require Import base list gmap sorting.
From Stdlib Require Import ZArith Lia.
From S2P Require Import Prelude.
From S2P Require Import Structures.
From S2P Require Import AllocBase.
From S2P Require Import UVspace.
From S2P Require Import UVspaceTable.
From S2P Require Import UVspaceList.

(** ** Reservations and mappings *)
Record resv := mk_resv { r_at : Z; r_from : Z; r_to : Z; r_rights : Z; r_cacheable : Z }.
Definition in_resv (r : resv) (k : Z) : Prop := r.(r_from) <= k < r.(r_to).
Implicit Types (R : list resv) (r : resv) (g : Z -> Z * Z) (l : list Z) (d : sel4utils_alloc_data).
(** A reserved page is in a reservation, which keeps all its pages from others. *)
Record consistent R g : Prop := {
  cs_held : forall r k, r ∈ R -> in_resv r k -> (g k).1 <> EMPTY;
  cs_reserved : forall k, 0 <= k < user_pages -> (g k).1 = RESERVED -> (g k).2 = 0 /\ exists r, r ∈ R /\ in_resv r k;
  cs_apart : forall r s k, r ∈ R -> s ∈ R -> in_resv r k -> in_resv s k -> r = s;
  cs_bounds : forall r, r ∈ R -> r.(r_at) <> NULL /\ 0 <= r.(r_from) < r.(r_to) /\ r.(r_to) <= user_pages;
  cs_empty : forall k, 0 <= k < all_pages_count -> (g k).1 = EMPTY -> (g k).2 = 0 }.
Definition view d (p : Z) : resv :=
  let r := d.(reservations) !!! p in mk_resv p (r.(start) / 4096) (r.(end_) / 4096) r.(rights) r.(cacheable).
Lemma page_div k : page_addr k / 4096 = k.
Proof. unfold page_addr. apply Z.div_mul. lia. Qed.
Lemma view_span d p a b : spans d.(reservations) p a b -> (view d p).(r_from) = a /\ (view d p).(r_to) = b.
Proof. intros (_ & E1 & E2 & _). unfold view. cbn. by rewrite E1, E2, !page_div. Qed.
Lemma view_same d d' p : same_fields d.(reservations) d'.(reservations) -> view d' p = view d p.
Proof.
  intros H. unfold view, lookup_total, map_lookup_total. destruct (H p) as [[E1 E2]|(r & n & E1 & E2)]; by rewrite E1, E2.
Qed.

Lemma dom_insert_same (m : gmap Z sel4utils_res_t) p (r0 : sel4utils_res_t) : is_Some (m !! p) -> dom (<[p := r0]> m) = dom m.
Proof. intros H%elem_of_dom. rewrite dom_insert_L. set_solver. Qed.

Section ops.
Context {E : Type} (calls : vspace_calls E) (uninitialised : sel4utils_res_t) (I : gset Z -> gset Z -> E -> Prop)
  (laws : calls_laws calls I).
Abbreviation X := (E * sel4utils_alloc_data)%type.
Implicit Types (x : X) (e : E).
Abbreviation stage := (stage I).
(** The manager's state [x] stands for the reservations [R] and the mappings [g]. *)
Record manages_list l R g x : Prop := {
  mn_stage : stage x g x;
  mn_list : list_ok x.2 l;
  mn_views : R ≡ₚ view x.2 <$> l;
  mn_consistent : consistent R g }.
Definition manages R g x : Prop := exists l, manages_list l R g x.
(** The same but for the reserved pages, which need not be those of the reservations *)
Definition represents R g x : Prop := exists l, stage x g x /\ list_ok x.2 l /\ R ≡ₚ view x.2 <$> l.

Lemma stage_rebase x0 g x : stage x0 g x -> stage x g x.
Proof. intros []. by split. Qed.
Lemma list_apart l R x : list_ok x.2 l -> R ≡ₚ view x.2 <$> l ->
  (forall r s k, r ∈ R -> s ∈ R -> in_resv r k -> in_resv s k -> r = s) /\
  (forall r, r ∈ R -> r.(r_at) <> NULL /\ 0 <= r.(r_from) < r.(r_to) /\ r.(r_to) <= user_pages).
Proof.
  intros Hl HR. assert (forall r, r ∈ R -> exists p a b, p ∈ l /\ r = view x.2 p /\ spans x.2.(reservations) p a b) as Hr.
  { intros r Hr. rewrite HR in Hr. apply list_elem_of_fmap in Hr as (p & -> & Hp).
    destruct (lo_spans _ _ Hl p Hp) as (a & b & Hab). eauto 6. }
  split.
  - intros r s k Hr1 Hs1 Hk1 Hk2. destruct (Hr r Hr1) as (p & a & b & Hp & -> & Hab), (Hr s Hs1) as (q & a' & b' & Hq & -> & Hab').
    destruct (decide (p = q)) as [->|Hne]; [done|]. unfold in_resv in *.
    destruct (view_span _ _ _ _ Hab) as [E1 E2], (view_span _ _ _ _ Hab') as [E1' E2']. rewrite E1, E2, E1', E2' in *.
    destruct (sorted_apart _ _ p q (lo_sorted _ _ Hl) Hp Hq Hne) as [H|H]; unfold behind in H;
      destruct Hab as (_ & F1 & F2 & _), Hab' as (_ & F1' & F2' & _); rewrite ?F1, ?F2, ?F1', ?F2' in H; unfold page_addr in H; lia.
  - intros r Hr1. destruct (Hr r Hr1) as (p & a & b & Hp & -> & Hab). split; [by eapply chain_in; [apply Hl|]|].
    destruct (view_span _ _ _ _ Hab) as [-> ->]. apply Hab.
Qed.
(** A reservation of the abstract address space is one of the list. *)
Lemma manages_at l R g x r : manages_list l R g x -> r ∈ R -> r.(r_at) ∈ l /\ r = view x.2 r.(r_at) /\
  spans x.2.(reservations) r.(r_at) r.(r_from) r.(r_to).
Proof.
  intros H Hr. rewrite (mn_views _ _ _ _ H) in Hr. apply list_elem_of_fmap in Hr as (p & -> & Hp). cbn [r_at view]. split; [done|].
  split; [done|]. destruct (lo_spans _ _ (mn_list _ _ _ _ H) p Hp) as (a & b & Hab). by destruct (view_span _ _ _ _ Hab) as [-> ->].
Qed.

(** ** The function that maps a page *)
Abbreviation T := (M X).
Definition map_page_ok (map_page : Z -> Z -> Z -> Z -> Z -> T Z) : Prop := forall x0 g x c v rt a b, stage x0 g x ->
  c <> 0 -> v <> 0 -> rt <> 0 -> wp (map_page c v rt a b) (fun _ x' => stage x0 g x') x.
Lemma stage_env x0 g e d (e' : E) : stage x0 g (e, d) -> I (dom d.(bottom_levels)) (dom d.(reservations)) e' -> stage x0 g (e', d).
Proof. intros [] He. by split. Qed.
Lemma wp_keeps {A} (op : M E A) (post : A -> Prop) x0 g x (Q : A -> X -> Prop) : keeps I op post -> stage x0 g x ->
  (forall a x', post a -> stage x0 g x' -> x'.2 = x.2 -> Q a x') -> wp (env op) Q x.
Proof.
  intros Hop Hs HQ. destruct x as [e d]. apply wp_env. cbn. eapply wp_mono; [apply Hop, Hs|]. intros a e' [Hp He].
  apply HQ; [done| |done]. by eapply stage_env.
Qed.
Lemma env_keeps_bind {A B} (op : M E A) (k : A -> M E B) (P : A -> Prop) (Q : B -> Prop) : keeps I op P -> (forall a, P a -> keeps I (k a) Q) ->
  keeps I (bind op k) Q.
Proof. intros H1 H2 L R e He. apply wp_bind. eapply wp_mono; [by apply H1|]. intros a e' [Ha He']. by apply H2. Qed.
Lemma env_keeps_ret {A} (a : A) (P : A -> Prop) : P a -> keeps I (ret a) P.
Proof. intros HP L R e He. by apply wp_ret. Qed.
Lemma env_keeps_weaken {A} (op : M E A) (P Q : A -> Prop) : keeps I op P -> (forall a, P a -> Q a) -> keeps I op Q.
Proof. intros H HPQ L R e He. eapply wp_mono; [by apply H|]. intros a e' [Ha He']. split; [by apply HPQ|done]. Qed.
Lemma env_keeps_assert b : b = true -> keeps I (assert b) (fun _ => True).
Proof. intros ->. by apply env_keeps_ret. Qed.
Definition good_object (r : Z * vka_object_t) : Prop := r.1 = 0 -> r.2.(cptr) <> 0 /\ r.2.(cptr) <> RESERVED.
Lemma alloc_object_keeps a t b : keeps I (vka_alloc_object calls a t b) good_object.
Proof.
  unfold vka_alloc_object. cbv zeta. eapply env_keeps_bind; [apply (cl_vka _ _ laws)|]. intros [err slot] Hslot. cbn in *.
  destruct (Z.eqb_spec err 0) as [->|Hne]; cbn; [|by apply env_keeps_ret].
  eapply env_keeps_bind; [apply (cl_vka _ _ laws)|]. intros [err u] _. cbn. destruct (Z.eqb_spec err 0) as [->|Hne]; cbn.
  - apply env_keeps_ret. intros _. by apply Hslot.
  - eapply env_keeps_bind; [apply (cl_vka _ _ laws)|]. intros _ _. by apply env_keeps_ret.
Qed.
Lemma free_object_keeps a o : keeps I (vka_free_object calls a o) (fun _ => True).
Proof.
  unfold vka_free_object. cbv zeta. eapply env_keeps_bind; [apply laws|]. intros _ _.
  eapply env_keeps_bind; [apply (cl_vka _ _ laws)|]. intros _ _. apply (cl_vka _ _ laws).
Qed.
Lemma map_page_keeps a pd f v rt c : a <> NULL -> pd <> 0 -> f <> 0 -> v <> 0 -> rt <> 0 ->
  keeps I (sel4utils_map_page calls a pd f v rt c) (fun _ => True).
Proof.
  intros H1 H2 H3 H4 H5. unfold sel4utils_map_page.
  do 5 (eapply env_keeps_bind; [apply env_keeps_assert; by rewrite bool_decide_false|]; intros _ _). cbv zeta.
  eapply env_keeps_bind; [apply laws|]. intros err _. destruct (err =? seL4_FailedLookup); [|by apply env_keeps_ret].
  eapply env_keeps_bind; [apply alloc_object_keeps|]. intros o _. eapply (env_keeps_bind _ _ (fun _ => True)).
  { destruct (o.1 =? 0); [apply laws|by apply env_keeps_ret]. }
  intros err' _. destruct (err' =? seL4_DeleteFirst).
  - eapply env_keeps_bind; [apply free_object_keeps|]. intros _ _. eapply env_keeps_bind; [apply laws|]. intros err'' _. by apply env_keeps_ret.
  - eapply (env_keeps_bind _ _ (fun _ => True)); [destruct (err' =? 0); [apply laws|by apply env_keeps_ret]|]. intros err'' _. by apply env_keeps_ret.
Qed.
Lemma call_objects_keeps os : keeps I (call_allocated_objects calls os) (fun _ => True).
Proof.
  induction os as [|o os IH]; cbn; [by apply env_keeps_ret|]. eapply (env_keeps_bind _ _ (fun _ => True)); [|by intros _ _].
  unfold maybe_call_allocated_object. destruct (allocated_object calls) eqn:Ea; [|by apply env_keeps_ret]. by apply (cl_allocated_object _ _ laws).
Qed.
(** The function that is used unless a client gives its own *)
Lemma map_page_pd_ok : map_page_ok (sel4utils_map_page_pd calls).
Proof.
  intros x0 g x c v rt a b Hs Hc Hv Hr. unfold sel4utils_map_page_pd. apply wp_bind, wp_gets. apply wp_bind.
  eapply wp_keeps; [apply map_page_keeps; try done; apply (sg_table _ _ _ _ Hs)|exact Hs|].
  intros [err o] x' _ Hs' _. cbn. destruct (err =? 0); cbn; [|by apply wp_ret].
  apply wp_bind. eapply wp_keeps; [apply call_objects_keeps|exact Hs'|]. intros [] x'' _ Hs'' _. by apply wp_ret.
Qed.

(** ** Making a reservation *)
Lemma stage_with_list e d g h m' : stage (e, d) g (e, d) -> dom m' = dom d.(reservations) ->
  stage (e, with_list d h m') g (e, with_list d h m').
Proof.
  intros [[] He Hr Hg Hl] Hm. split; [by split| |done|exact Hg|done]. unfold env_ok in *. cbn in *. by rewrite Hm.
Qed.
Lemma list_ok_other d d' l : list_ok d l -> d'.(reservation_head) = d.(reservation_head) ->
  (forall q, q ∈ l -> d'.(reservations) !! q = d.(reservations) !! q) -> list_ok d' l.
Proof.
  intros [Hc Hs Hl] Eh Hm. assert (forall q, q ∈ l -> d'.(reservations) !!! q = d.(reservations) !!! q) as Ht.
  { intros q Hq. by apply total_ext, Hm. }
  split.
  - rewrite Eh. eapply chain_ext; [|exact Hc]. intros q Hq. rewrite Ht, Hm by done. split; [by eapply chain_in|done].
  - intros q Hq. destruct (Hs q Hq) as (a & b & Hab). exists a, b. unfold spans in *. by rewrite Ht, Hm.
  - clear -Hl Ht. induction Hl as [|p l Hl IH Hf]; [constructor|]. constructor; [apply IH; intros q Hq; apply Ht; by right|].
    rewrite Forall_forall in *. intros q Hq. unfold behind. rewrite !Ht by (by left || by right). by apply Hf.
Qed.
Lemma view_other d d' p : d'.(reservations) !! p = d.(reservations) !! p -> view d' p = view d p.
Proof. intros H. unfold view. by rewrite (total_ext _ _ _ H). Qed.
(** A range of pages that no reservation has *)
Definition unreserved R (a b : Z) : Prop := forall j r, a <= j < b -> r ∈ R -> ~ in_resv r j.
Lemma empty_unreserved R g a b : consistent R g -> range_is is_empty a b g -> unreserved R a b.
Proof. intros Hc He j r Hj Hr Hi. apply (cs_held _ _ Hc r j Hr Hi). by apply He. Qed.
Lemma unreserved_apart l R g x p k k' m : manages_list l R g x -> 0 <= k < k' -> unreserved R k k' ->
  (forall q, q ∈ l -> m !!! q = x.2.(reservations) !!! q) -> (m !!! p).(start) = page_addr k -> (m !!! p).(end_) = page_addr k' ->
  forall q, q ∈ l -> apart m p q.
Proof.
  intros H Hk He Hm Es Ee q Hq. destruct (lo_spans _ _ (mn_list _ _ _ _ H) q Hq) as (a & b & Hab).
  destruct (view_span _ _ _ _ Hab) as [E1 E2]. destruct Hab as (_ & F1 & F2 & Hab & _).
  unfold apart, behind. rewrite (Hm q Hq), Es, Ee, F1, F2. unfold page_addr.
  destruct (Z_le_gt_dec b k); [lia|]. destruct (Z_le_gt_dec k' a); [lia|]. exfalso.
  apply (He (Z.max a k) (view x.2 q)); [lia| |].
  - rewrite (mn_views _ _ _ _ H). by apply list_elem_of_fmap_2.
  - unfold in_resv. rewrite E1, E2. lia.
Qed.
Lemma consistent_insert R g k k' p rt ch : consistent R g ->
  (forall r s j, r ∈ mk_resv p k k' rt ch :: R -> s ∈ mk_resv p k k' rt ch :: R -> in_resv r j -> in_resv s j -> r = s) ->
  (forall r, r ∈ mk_resv p k k' rt ch :: R -> r.(r_at) <> NULL /\ 0 <= r.(r_from) < r.(r_to) /\ r.(r_to) <= user_pages) ->
  consistent (mk_resv p k k' rt ch :: R) (set_range k k' (RESERVED, 0) g).
Proof.
  intros H Ha Hb. split; [| |done|done|intros j Hj; unfold set_range; destruct (_ && _); [done|by apply (cs_empty _ _ H)]].
  - intros r j Hr Hj. unfold set_range. destruct ((k <=? j) && (j <? k')) eqn:Ej; [done|].
    apply elem_of_cons in Hr as [->|Hr]; [|by eapply cs_held]. unfold in_resv in Hj. cbn in Hj. lia.
  - intros j Hj. unfold set_range. destruct ((k <=? j) && (j <? k')) eqn:Ej.
    + intros _. split; [done|]. eexists. split; [by left|]. unfold in_resv. cbn. lia.
    + intros Hg. destruct (cs_reserved _ _ H j Hj Hg) as (H0 & r & Hr & Hjr). split; [done|]. exists r. split; [by right|done].
Qed.
Section perform.
Context (p k k' rt ch : Z) l R g e d (H : manages_list l R g (e, d)) (Hp : is_Some (d.(reservations) !! p)) (Hpl : p ∉ l) (Hp0 : p <> NULL)
  (Hk : 0 <= k < k') (Hu : k' <= user_pages) (He : unreserved R k k').
(** The reservation before it is put into the list *)
Abbreviation r1 b := (upd_end (page_addr k') (upd_cacheable ch (upd_rights rt (upd_end (page_addr b)
  (upd_start (page_addr k) (d.(reservations) !!! p)))))).
Lemma wp_perform_insert b e2 d2 g2 : stage (e2, d2) g2 (e2, d2) ->
  d2.(reservation_head) = d.(reservation_head) -> d2.(reservations) = <[p := r1 b]> d.(reservations) ->
  wp (insert_reservation p) (fun _ x' => represents (mk_resv p k k' rt ch :: R) g2 x' /\
    (g2 = set_range k k' (RESERVED, 0) g -> manages (mk_resv p k k' rt ch :: R) g2 x')) (e2, d2).
Proof.
  intros Hs Eh Em. assert (forall q, q ∈ l -> d2.(reservations) !! q = d.(reservations) !! q) as Ho.
  { intros q Hq. rewrite Em. apply lookup_insert_ne. by intros ->. }
  pose proof (list_ok_other d d2 l (mn_list _ _ _ _ H) Eh Ho) as Hl2.
  assert (spans d2.(reservations) p k k') as Hsp.
  { rewrite Em. unfold spans. rewrite lookup_insert_eq, lookup_insert_total. cbn. split; [done|]. done. }
  eapply wp_mono; [apply (wp_insert_ok p l e2 d2 k k' Hl2 Hsp Hp0 Hpl)|].
  - eapply unreserved_apart; [exact H|done|done| |apply Hsp..]. intros q Hq. by apply total_ext, Ho.
  - intros [] x' (h & m' & l' & -> & H1 & H2 & H3).
    assert (mk_resv p k k' rt ch :: R ≡ₚ view (with_list d2 h m') <$> l') as Hv.
    { rewrite H2, fmap_cons. assert (view (with_list d2 h m') p = mk_resv p k k' rt ch) as ->.
      - rewrite (view_same d2) by done. unfold view. rewrite Em, lookup_insert_total. cbn. by rewrite !page_div.
      - apply perm_skip. rewrite (mn_views _ _ _ _ H). apply reflexive_eq, list_fmap_ext. intros i q Hq. apply list_elem_of_lookup_2 in Hq. symmetry.
        rewrite (view_same d2) by done. by apply view_other, Ho. }
    assert (stage (e2, with_list d2 h m') g2 (e2, with_list d2 h m')) as Hs2.
    { apply stage_with_list; [done|]. by apply same_fields_dom. }
    split; [by exists l'|]. intros ->. exists l'. split; [done|done|done|].
    destruct (list_apart l' (mk_resv p k k' rt ch :: R) (e2, with_list d2 h m') H3 Hv) as [Ha Hb].
    apply consistent_insert; [apply H|exact Ha|exact Hb].
Qed.
End perform.

Lemma stage_with_res e d g m' : stage (e, d) g (e, d) -> dom m' = dom d.(reservations) ->
  stage (e, with_res d m') g (e, with_res d m').
Proof. intros H Hm. pose proof (stage_with_list e d g d.(reservation_head) m' H Hm) as W. by destruct d. Qed.
Lemma wp_mod_res_insert p f e d (r0 : sel4utils_res_t) m' (Q : unit -> X -> Prop) : Q tt (e, with_res d (<[p := f r0]> m')) ->
  wp (mod_res p f) Q (e, with_res d (<[p := r0]> m')).
Proof.
  intros HQ. apply wp_mod_res; [cbn; by rewrite lookup_insert_eq|]. cbn. rewrite lookup_insert_total, insert_insert_eq. exact HQ.
Qed.
(** A reservation that ends behind a page whose table cannot be had: that page is not reserved. *)
Definition cut_short R g x p k k' rt ch x' : Prop := exists j, k <= j < k' /\ no_table calls I x j /\ (g j).1 = EMPTY /\
  represents (mk_resv p k (j + 1) rt ch :: R) (set_range k j (RESERVED, 0) g) x'.
Lemma cut_short_top R g x x1 p k k' rt ch x' : x1.2.(top_level) = x.2.(top_level) -> cut_short R g x1 p k k' rt ch x' ->
  cut_short R g x p k k' rt ch x'.
Proof. intros Et (j & Hj & [Hf Hn] & H). exists j. split; [done|]. split; [|done]. split; [done|]. unfold has_level in *. by rewrite <- Et. Qed.
Lemma unreserved_shorter R a b c : unreserved R a b -> c <= b -> unreserved R a c.
Proof. intros H Hc j r Hj. apply H. lia. Qed.
Lemma wp_perform_reservation (p v bytes rt ch : Z) l R g e d : manages_list l R g (e, d) ->
  is_Some (d.(reservations) !! p) -> p ∉ l -> p <> NULL -> 0 <= v -> 0 <= bytes -> v + bytes + 4095 < 2 ^ 32 ->
  let k := v / 4096 in let k' := end_page v bytes in k < k' -> k' <= user_pages -> unreserved R k k' ->
  wp (perform_reservation calls p v bytes rt ch) (fun _ x' =>
    manages (mk_resv p k k' rt ch :: R) (set_range k k' (RESERVED, 0) g) x' \/ cut_short R g (e, d) p k k' rt ch x') (e, d).
Proof.
  intros H Hp Hnl Hp0 Hv Hby Hov k k' Hk Hu He. destruct (page_of v ltac:(lia)) as [[Hk0 _] _]. fold k in Hk0.
  unfold perform_reservation. apply wp_bind, wp_assert; [by rewrite bool_decide_false|].
  rewrite round_down_any, round_up_any by lia. fold k k'.
  apply wp_bind, wp_mod_res; [done|]. do 3 (apply wp_bind, wp_mod_res_insert).
  apply wp_bind, wp_res_at; [cbn; by rewrite lookup_insert_eq|].
  match goal with |- context [with_res d (<[p := ?r]> _)] => set (r0 := r) end.
  change (reservations (with_res d (<[p := r0]> d.(reservations)))) with (<[p := r0]> d.(reservations)). rewrite lookup_insert_total.
  change (start r0) with (page_addr k). change (end_ r0) with (page_addr k'). rewrite steps_pages. apply wp_bind.
  assert (stage (e, with_res d (<[p := r0]> d.(reservations))) g (e, with_res d (<[p := r0]> d.(reservations)))) as Hs1.
  { apply stage_with_res; [apply H|]. by apply dom_insert_same. }
  eapply wp_mono; [eapply (wp_reserve_until calls I laws _ _ k k' g); [lia|lia|lia|exact Hs1]|].
  assert (forall g2 e2 d2 b, k < b <= k' -> stage (e, with_res d (<[p := r0]> d.(reservations))) g2 (e2, d2) ->
    wp (mod_res p (upd_end (page_addr b)) ;;; insert_reservation p) (fun _ x' => represents (mk_resv p k b rt ch :: R) g2 x' /\
      (g2 = set_range k b (RESERVED, 0) g -> manages (mk_resv p k b rt ch :: R) g2 x')) (e2, d2)) as Hins.
  { intros g2 e2 d2 b Hb Hs2. destruct (sg_rest _ _ _ _ Hs2) as (_ & _ & _ & Eh & Er). cbn in Eh, Er.
    apply wp_bind, wp_mod_res; [cbn; rewrite Er; by rewrite lookup_insert_eq|]. rewrite Er, lookup_insert_total, insert_insert_eq.
    eapply (wp_perform_insert p k b rt ch l R g e d) with (b := k'); try done; [lia|lia|eapply unreserved_shorter; [exact He|lia]|].
    apply stage_with_res; [by eapply stage_rebase|]. rewrite Er. by rewrite !dom_insert_same. }
  intros v' [e2 d2] [[-> Hs2]|(j & Hj & Hnt & -> & Hs2)].
  - eapply wp_mono; [apply Hins; [lia|exact Hs2]|]. intros [] x' [_ Hm]. left. by apply Hm.
  - eapply wp_mono; [apply Hins; [lia|exact Hs2]|]. intros [] x' [Hr _]. right. exists j. split; [done|]. split; [done|]. split; [|done].
    eapply no_table_empty; [exact Hs1|unfold user_pages, all_pages_count in *; lia|exact Hnt].
Qed.

(** *** Memory for reservations *)
Lemma manages_env l R g e d e' m' : manages_list l R g (e, d) -> (forall q, q ∈ l -> m' !! q = d.(reservations) !! q) ->
  I (dom d.(bottom_levels)) (dom m') e' -> manages_list l R g (e', with_res d m').
Proof.
  intros [[[] He Hr Hg Hlv] Hl Hv Hc] Hm He'. split; [split; [by split|done|done|exact Hg|done]| | |exact Hc].
  - by apply (list_ok_other d).
  - rewrite Hv. apply reflexive_eq, list_fmap_ext. intros i q Hq. apply list_elem_of_lookup_2 in Hq. symmetry. by apply view_other, Hm.
Qed.
Lemma listed_dom l R g e d q : manages_list l R g (e, d) -> q ∈ l -> q ∈ dom d.(reservations).
Proof. intros H Hq. apply elem_of_dom. eapply chain_in; [apply (mn_list _ _ _ _ H)|done]. Qed.
Lemma wp_malloc_res l R g e d (Q : Z -> X -> Prop) : manages_list l R g (e, d) ->
  (forall x', calls.(malloc) sizeof_sel4utils_res_t e = Ret NULL x'.1 -> manages_list l R g x' -> Q NULL x') ->
  (forall p e' d', p <> NULL -> p ∉ l -> is_Some (d'.(reservations) !! p) -> manages_list l R g (e', d') ->
    d'.(last_allocated) = d.(last_allocated) -> d'.(top_level) = d.(top_level) -> Q p (e', d')) ->
  wp (malloc_res calls uninitialised) Q (e, d).
Proof.
  intros H H0 H1. unfold malloc_res. apply wp_bind, wp_env. cbn.
  pose proof (cl_malloc _ _ laws sizeof_sel4utils_res_t _ _ _ (sg_env _ _ _ _ (mn_stage _ _ _ _ H))) as W.
  apply wp_inv in W as (p & e' & Em & [[-> He]|(Hp0 & Hp & He)]); (eapply wp_exact; [exact Em|]).
  - apply wp_bind, wp_ret, wp_ret, H0; [done|]. replace d with (with_res d d.(reservations)) by by destruct d. by eapply manages_env.
  - apply wp_bind. destruct (Z.eqb_spec p NULL); [done|]. apply wp_modify, wp_ret.
    assert (p ∉ l) as Hpl by (intros Hpl; apply Hp; by eapply listed_dom).
    apply H1; [done|done|cbn; by rewrite lookup_insert_eq| |done|done].
    eapply manages_env; [exact H| |by rewrite dom_insert_L]. intros q Hq. apply lookup_insert_ne. by intros ->.
Qed.
Lemma wp_free_res l R g p x : manages_list l R g x -> p ∉ l -> is_Some (x.2.(reservations) !! p) ->
  wp (free_res calls p) (fun _ => manages_list l R g) x.
Proof.
  intros H Hp Hs. destruct x as [e d]. unfold free_res. apply wp_bind, wp_modify, wp_env. cbn.
  eapply wp_mono; [apply (cl_free _ _ laws); [apply (sg_env _ _ _ _ (mn_stage _ _ _ _ H))|by apply elem_of_dom]|].
  intros [] e' He. eapply (manages_env _ _ _ e d); [exact H| |by rewrite dom_delete_L].
  intros q Hq. apply lookup_delete_ne. by intros ->.
Qed.
End ops.

(** * Functions of the interface *)
(** Sizes of up to the whole address space less a page *)
Definition size_ok (size : Z) : Prop := 0 < size <= 0xFFFFF000.
Lemma pages_pos size : size_ok size -> 0 < BYTES_TO_4K_PAGES size < all_pages_count.
Proof.
  unfold size_ok, BYTES_TO_4K_PAGES, all_pages_count. rewrite page_size. intros H.
  pose proof (Z.div_mod size 4096 ltac:(lia)). pose proof (Z.mod_pos_bound size 4096 ltac:(lia)).
  rewrite Z.gtb_ltb. destruct (Z.ltb_spec 0 (size mod 4096)); lia.
Qed.
Lemma end_page_aligned k size : 0 <= k -> size_ok size -> end_page (page_addr k) size = k + BYTES_TO_4K_PAGES size.
Proof.
  intros Hk Hs. unfold size_ok in Hs. pose proof (end_page_cases (page_addr k) size ltac:(unfold page_addr; lia) ltac:(lia)) as H. cbv zeta in H.
  rewrite page_div in H. destruct H as [|[Hm _]]; [done|]. destruct Hm. unfold page_addr. by apply Z.mod_mul.
Qed.
Lemma unit_page : unit_pages seL4_PageBits = 1.
Proof. reflexivity. Qed.

Section calls.
Context {E : Type} (calls : vspace_calls E) (uninitialised : sel4utils_res_t) (I : gset Z -> gset Z -> E -> Prop)
  (laws : calls_laws calls I).
Abbreviation X := (E * sel4utils_alloc_data)%type.
Implicit Types (x : X) (e : E).
Abbreviation stage := (stage I).
Abbreviation manages_list := (manages_list I).
Abbreviation manages := (manages I).

Lemma manages_intro l R g x : manages_list l R g x -> manages R g x.
Proof. by exists l. Qed.
(** ** Reserving *)
Lemma page_range_bound k size : size_ok size -> 0 <= k -> k + BYTES_TO_4K_PAGES size < user_pages -> page_addr k + size + 4095 < 2 ^ 32.
Proof using.
  unfold size_ok, BYTES_TO_4K_PAGES, user_pages, page_addr. rewrite page_size, Z.gtb_ltb. intros.
  pose proof (Z.div_mod size 4096 ltac:(lia)). pose proof (Z.mod_pos_bound size 4096 ltac:(lia)). destruct (Z.ltb_spec 0 (size mod 4096)); lia.
Qed.
Lemma range_bound v size : size_ok size -> 0 <= v -> v + size + 4095 < 2 ^ 32 -> v / 4096 + BYTES_TO_4K_PAGES size < all_pages_count /\
  v + (BYTES_TO_4K_PAGES size - 1) * 4096 < 2 ^ 32.
Proof using.
  unfold size_ok, BYTES_TO_4K_PAGES, all_pages_count. rewrite page_size, Z.gtb_ltb. intros.
  pose proof (Z.div_mod size 4096 ltac:(lia)). pose proof (Z.mod_pos_bound size 4096 ltac:(lia)).
  pose proof (Z.div_mod v 4096 ltac:(lia)). pose proof (Z.mod_pos_bound v 4096 ltac:(lia)). destruct (Z.ltb_spec 0 (size mod 4096)); lia.
Qed.
(** Free pages are below the kernel. *)
Lemma empty_user x g a n : stage x g x -> 0 <= a -> 0 < n -> a + n < all_pages_count -> range_is is_empty a (a + n) g -> a + n <= user_pages.
Proof using.
  intros Hs Ha Hn Hall He. destruct (Z_le_gt_dec (a + n) user_pages); [done|]. exfalso.
  specialize (He (a + n - 1) ltac:(lia)). unfold is_empty in He.
  rewrite <- (sg_entry _ _ _ _ Hs) in He by lia. rewrite entry_kernel in He; [done|apply Hs|lia].
Qed.
(** Why no range is found: the first that fits from [last_allocated] on is at address 0, or there is none. *)
Definition no_range g n sb x : Prop := exists m, x.2.(last_allocated) = page_addr m /\
  forall k, m <= k -> fits_range g n sb k -> k = 0 \/ exists j, m <= j < k /\ fits_range g n sb j.
Definition no_memory x : Prop := exists e', calls.(malloc) sizeof_sel4utils_res_t x.1 = Ret NULL e'.
Lemma manages_last l R g e d k : manages_list l R g (e, d) -> 0 <= k < user_pages ->
  manages_list l R g (e, upd_last_allocated (page_addr k) d).
Proof. intros [Hs Hl Hv Hc] Hk. split; [|by apply (list_ok_other d)|done|done]. eapply stage_rebase. by apply last_ok. Qed.
Abbreviation cut_short := (cut_short calls I).
Lemma wp_reserve_range_no_alloc p size rt ch l R g e d : manages_list l R g (e, d) -> size_ok size ->
  is_Some (d.(reservations) !! p) -> p ∉ l -> p <> NULL ->
  wp (sel4utils_reserve_range_no_alloc calls p size rt ch) (fun o x' => let n := BYTES_TO_4K_PAGES size in
    o = (-1, NULL) /\ manages_list l R g x' /\ is_Some (x'.2.(reservations) !! p) /\ no_range g n seL4_PageBits (e, d) \/
    exists k, o = (0, page_addr k) /\ 0 < k /\ fits_range g n seL4_PageBits k /\
      (manages (mk_resv p k (k + n) rt ch :: R) (set_range k (k + n) (RESERVED, 0) g) x' \/
       cut_short R g (e, d) p k (k + n) rt ch x')) (e, d).
Proof.
  intros H Hsize Hp Hnl Hp0. pose proof (pages_pos size Hsize) as Hn. unfold sel4utils_reserve_range_no_alloc. apply wp_bind.
  destruct (wp_find_range I (e, d) g (e, d) seL4_PageBits (BYTES_TO_4K_PAGES size) (mn_stage _ _ _ _ _ H) page_bits_ok) as (m & Hm & El & W);
    [lia|rewrite unit_page; lia|]. rewrite unit_page, Z.mul_1_r in W. eapply wp_mono; [exact W|]. clear W.
  intros v x' [(-> & -> & Hno)|(k & -> & Hk & Hfit & Hfirst & ->)].
  - apply wp_ret. left. split; [done|]. split; [done|]. split; [done|]. exists m. split; [done|]. intros k Hk Hf. by destruct (Hno k Hk).
  - pose proof Hfit as (_ & Hu & He). cbn [fst snd]. pose proof (manages_last _ _ _ _ _ (k + BYTES_TO_4K_PAGES size) H ltac:(lia)) as H'.
    destruct (Z.eqb_spec (page_addr k) NULL) as [E0|Hne].
    + apply wp_ret. left. split; [done|]. split; [done|]. split; [done|]. exists m. split; [done|]. intros j Hj Hfj.
      assert (k = 0) as -> by (unfold page_addr, NULL in E0; lia). destruct (decide (j = 0)); [by left|right]. exists 0. split; [lia|done].
    + assert (0 < k) by (unfold page_addr, NULL in Hne; lia). apply wp_bind, wp_mod_res; [done|]. apply wp_bind.
      pose proof (end_page_aligned k size ltac:(lia) Hsize) as Eend.
      eapply wp_mono; [apply (wp_perform_reservation calls I laws p (page_addr k) size rt ch l R g)|]; rewrite ?Eend, ?page_div.
      * eapply manages_env; [exact H'| |].
        -- intros q Hq. apply lookup_insert_ne. by intros ->.
        -- rewrite dom_insert_same by done. apply H'.
      * cbn. by rewrite lookup_insert_eq.
      * done.
      * done.
      * unfold page_addr. lia.
      * unfold size_ok in Hsize. lia.
      * apply page_range_bound; [done|lia|lia].
      * lia.
      * lia.
      * eapply empty_unreserved; [apply H|exact He].
      * intros [] x' Hx'. apply wp_ret. right. exists k. split; [done|]. split; [done|]. split; [done|].
        destruct Hx' as [?|Hx']; [by left|right]. (eapply cut_short_top; [|exact Hx']); first [done|exact Etop].
Qed.
Lemma wp_reserve_range size rt ch R g x : manages R g x -> size_ok size ->
  wp (sel4utils_reserve_range calls uninitialised size rt ch) (fun o x' => let n := BYTES_TO_4K_PAGES size in
    o.1 = NULL /\ manages R g x' /\ (no_memory x \/ no_range g n seL4_PageBits x) \/
    exists p k, o = (p, page_addr k) /\ p <> NULL /\ 0 < k /\ fits_range g n seL4_PageBits k /\
      (manages (mk_resv p k (k + n) rt ch :: R) (set_range k (k + n) (RESERVED, 0) g) x' \/
       cut_short R g x p k (k + n) rt ch x')) x.
Proof.
  intros [l H] Hsize. destruct x as [e d]. unfold sel4utils_reserve_range. apply wp_bind.
  eapply wp_malloc_res; [exact laws|exact H| |].
  - intros x' Hm H'. apply wp_ret. left. split; [done|]. split; [by exists l|]. left. by exists x'.1.
  - intros p e' d' Hp0 Hp Hs H' Elast Etop. destruct (Z.eqb_spec p NULL); [done|]. apply wp_bind, wp_mod_res; [done|]. apply wp_bind.
    eapply wp_mono; [apply (wp_reserve_range_no_alloc p size rt ch l R g); try done|].
    + eapply manages_env; [exact H'| |].
      * intros q Hq. apply lookup_insert_ne. by intros ->.
      * rewrite dom_insert_same by done. apply H'.
    + cbn. by rewrite lookup_insert_eq.
    + cbv zeta. intros r x' [(-> & Hx' & Hsx & Hno)|(k & -> & Hk & Hf & Hx')].
      * apply wp_bind. eapply wp_mono; [eapply wp_free_res; [exact laws|exact Hx'|done|done]|]. intros [] x'' Hx''. apply wp_ret.
        left. split; [done|]. split; [by exists l|]. right. destruct Hno as (m & Hm & Hno). exists m. cbn in *. by rewrite <- Elast.
      * apply wp_ret. right. exists p, k. split; [done|]. split; [done|]. split; [done|]. split; [done|].
        destruct Hx' as [?|Hx']; [by left|right]. (eapply cut_short_top; [|exact Hx']); first [done|exact Etop].
Qed.
(** The pages that are checked, from that of [v] on, are those of [size] bytes; those that are reserved go up to
    [end_page]. *)
Lemma wp_reserve_range_at v size rt ch R g x : manages R g x -> size_ok size -> 0 <= v -> v + size + 4095 < 2 ^ 32 ->
  let a := v / 4096 in let n := BYTES_TO_4K_PAGES size in let b := end_page v size in
  b = a + n \/ b <= user_pages /\ unreserved R (a + n) b ->
  wp (sel4utils_reserve_range_at calls uninitialised v size rt ch) (fun p x' =>
    p = NULL /\ manages R g x' /\ (no_memory x \/ ~ range_is is_empty a (a + n) g) \/
    p <> NULL /\ range_is is_empty a (a + n) g /\ b <= user_pages /\
      (manages (mk_resv p a b rt ch :: R) (set_range a b (RESERVED, 0) g) x' \/ cut_short R g x p a b rt ch x')) x.
Proof.
  intros [l H] Hsize Hv Hov a n b Hlast. pose proof (pages_pos size Hsize) as Hn. fold n in Hn. unfold size_ok in Hsize.
  destruct (page_of v ltac:(lia)) as [Ha Ea]. fold a in Ha, Ea. pose proof (end_page_cases v size Hv ltac:(lia)) as Hb. cbv zeta in Hb. fold a n b in Hb.
  pose proof (range_bound v size ltac:(done) Hv Hov) as Hall. fold a n in Hall. destruct x as [e d].
  unfold sel4utils_reserve_range_at. apply wp_bind. eapply wp_malloc_res; [exact laws|exact H| |].
  - intros x' Hm H'. apply wp_ret. left. split; [done|]. split; [by exists l|]. left. by exists x'.1.
  - intros p e' d' Hp0 Hp Hs H' _ Etop. destruct (Z.eqb_spec p NULL); [done|]. apply wp_bind. unfold sel4utils_reserve_range_at_no_alloc. apply wp_bind.
    fold n. eapply (wp_check_empty_any I _ g); [apply H'|lia|done|lia|].
    intros ok Hok. fold a in Hok. destruct ok; cbn [negb].
    + assert (range_is is_empty a (a + n) g) as He by by apply Hok.
      pose proof (empty_user (e', d') g a n (mn_stage _ _ _ _ _ H') ltac:(lia) ltac:(lia) ltac:(lia) He) as Hu.
      assert (b <= user_pages) as Hub by (destruct Hlast as [->|[? _]]; lia).
      apply wp_bind. eapply wp_mono; [apply (wp_perform_reservation calls I laws p v size rt ch l R g); try done; try lia|].
      * fold a b. intros j r Hj Hr. destruct (Z_lt_le_dec j (a + n)).
        -- eapply (empty_unreserved R g a (a + n)); [apply H|done|lia|done].
        -- destruct Hlast as [->|[_ Hun]]; [lia|]. apply Hun; [lia|done].
      * fold a b. intros [] x' Hx'. apply wp_ret, wp_ret. right. split; [done|]. split; [done|]. split; [done|].
        destruct Hx' as [?|Hx']; [by left|right]. (eapply cut_short_top; [|exact Hx']); first [done|exact Etop].
    + apply wp_ret. cbn. apply wp_bind. eapply wp_mono; [eapply wp_free_res; [exact laws|exact H'|done|done]|]. intros [] x'' Hx''. apply wp_ret.
      left. split; [done|]. split; [by exists l|]. right. intros Hc. by apply Hok in Hc.
Qed.

(** ** Changes of the mappings *)
Lemma manages_stage l R g g' x x' : manages_list l R g x -> stage x g' x' -> consistent R g' -> manages_list l R g' x'.
Proof.
  intros [Hs Hl Hv _] Hs' Hc. destruct (sg_rest _ _ _ _ Hs') as (_ & _ & _ & Eh & Er).
  split; [by eapply stage_rebase| | |done].
  - apply (list_ok_other x.2); [done|done|]. intros q _. by rewrite Er.
  - rewrite Hv. apply reflexive_eq, list_fmap_ext. intros i q Hq. symmetry. apply view_other. by rewrite Er.
Qed.
Lemma consistent_ext R g g' : consistent R g -> (forall k, g k = g' k) -> consistent R g'.
Proof. intros [H1 H2 H3 H4 H5] Hg. split; [| |done|done|]; intros; rewrite <- !Hg in *; eauto. Qed.
Lemma in_range a b j : reflect (a <= j < b) ((a <=? j) && (j <? b)).
Proof. apply iff_reflect. rewrite andb_true_iff, Z.leb_le, Z.ltb_lt. lia. Qed.
(** Mapping capabilities, wherever it is *)
Lemma consistent_map R g a b c ck : consistent R g -> c <> EMPTY -> c <> RESERVED -> consistent R (set_range a b (c, ck) g).
Proof.
  intros [H1 H2 H3 H4 H5] Hc Hr. split; [| |done|done|]; unfold set_range; [| |intros k Hk; destruct (in_range a b k); [done|by apply H5]].
  - intros r k Hr' Hk. destruct (in_range a b k); [done|by eapply H1].
  - intros k Hk. destruct (in_range a b k); [done|by apply H2].
Qed.
(** Reserving pages of a reservation again *)
Lemma consistent_reserve R g a b r : consistent R g -> r ∈ R -> r.(r_from) <= a -> b <= r.(r_to) ->
  consistent R (set_range a b (RESERVED, 0) g).
Proof.
  intros [H1 H2 H3 H4 H5] Hr Ha Hb. split; [| |done|done|]; unfold set_range; [| |intros k Hk; destruct (in_range a b k); [done|by apply H5]].
  - intros s k Hs Hk. destruct (in_range a b k); [done|by eapply H1].
  - intros k Hk. destruct (in_range a b k) as [Hi|]; [|by apply H2]. intros _. split; [done|]. exists r. split; [done|].
    unfold in_resv. lia.
Qed.
(** Clearing pages that no reservation has *)
Lemma consistent_clear R g a b : consistent R g -> (forall r j, r ∈ R -> a <= j < b -> ~ in_resv r j) ->
  consistent R (set_range a b (EMPTY, 0) g).
Proof.
  intros [H1 H2 H3 H4 H5] Hn. split; [| |done|done|]; unfold set_range; [| |intros k Hk; destruct (in_range a b k); [done|by apply H5]].
  - intros s k Hs Hk. destruct (in_range a b k) as [Hi|]; [by destruct (Hn s k)|by eapply H1].
  - intros k Hk. destruct (in_range a b k); [done|by apply H2].
Qed.

(** ** Finding a reservation *)
Lemma covers_view l R g e d p k : manages_list l R g (e, d) -> p ∈ l -> covers d p (page_addr k) = true <-> in_resv (view d p) k.
Proof.
  intros H Hp. destruct (lo_spans _ _ (mn_list _ _ _ _ _ H) p Hp) as (a & b & Hab). cbn in Hab.
  destruct (view_span _ _ _ _ Hab) as [E1 E2]. unfold in_resv. rewrite E1, E2. destruct Hab as (_ & F1 & F2 & _).
  unfold covers. rewrite F1, F2. unfold page_addr. destruct (Z.leb_spec (a * 4096) (k * 4096)), (Z.ltb_spec (k * 4096) (b * 4096)); cbn; split; try done; lia.
Qed.
Lemma found_reserve l R g e d k : manages_list l R g (e, d) ->
  let p := default NULL (head (filter (fun p => covers d p (page_addr k) = true) l)) in
  (forall r, r ∈ R -> in_resv r k -> p = r.(r_at)) /\ ((forall r, r ∈ R -> ~ in_resv r k) -> p = NULL).
Proof.
  intros H p. assert (forall q, q ∈ filter (fun p => covers d p (page_addr k) = true) l -> view d q ∈ R /\ in_resv (view d q) k) as Hq.
  { intros q [Hc Hq]%list_elem_of_filter. split; [|by eapply covers_view].
    pose proof (mn_views _ _ _ _ _ H) as ->. by apply (list_elem_of_fmap_2 (view d)). }
  split.
  - intros r Hr Hk. destruct (manages_at _ _ _ _ _ _ H Hr) as (Hl & Er & _). cbn in Er.
    assert (r.(r_at) ∈ filter (fun p => covers d p (page_addr k) = true) l) as Hf.
    { apply list_elem_of_filter. split; [|done]. eapply covers_view; [done|done|]. by rewrite <- Er. }
    unfold p. destruct (filter _ l) as [|q f]; [by apply not_elem_of_nil in Hf|]. cbn. destruct (Hq q) as [Hv Hi]; [by left|].
    by rewrite <- (cs_apart _ _ (mn_consistent _ _ _ _ _ H) _ _ _ Hv Hr Hi Hk).
  - intros Hn. unfold p. destruct (filter _ l) as [|q f]; [done|]. destruct (Hq q) as [Hv Hi]; [by left|]. by destruct (Hn _ Hv).
Qed.

(** ** Giving a reservation back *)
Definition map_range (h : Z * Z -> Z * Z) (a b : Z) g : Z -> Z * Z := fun j => if (a <=? j) && (j <? b) then h (g j) else g j.
Lemma map_range_outside h a b g j : map_outside h b b a b g j = map_range h a b g j.
Proof. unfold map_outside, map_range. destruct (in_range a b j), (in_range b b j); cbn; try done; lia. Qed.
Lemma view_nodup l d : NoDup l -> NoDup (view d <$> l).
Proof. intros H. apply NoDup_fmap_2; [|done]. intros p q Hpq. by injection Hpq. Qed.
Lemma consistent_free R R' g r : consistent R g -> R ≡ₚ r :: R' -> NoDup R ->
  consistent R' (map_range release r.(r_from) r.(r_to) g).
Proof.
  intros [H1 H2 H3 H4 H5] HR Hn. rewrite HR in Hn. apply NoDup_cons in Hn as [Hr Hn].
  assert (r ∈ R) as Hr' by (rewrite HR; by left). assert (forall s, s ∈ R' -> s ∈ R) as Hs by (intros s Hs; rewrite HR; by right).
  split; [| |intros s t k Hs1 Ht1; apply H3; by apply Hs|intros s Hs1; by apply H4, Hs|]; unfold map_range.
  - intros s k Hsr Hk. destruct (in_range r.(r_from) r.(r_to) k) as [Hi|]; [|apply (H1 s k); [by apply Hs|done]].
    destruct Hr. by rewrite (H3 r s k Hr' (Hs s Hsr) Hi Hk).
  - intros k Hk. destruct (in_range r.(r_from) r.(r_to) k) as [Hi|Hni].
    + unfold release. destruct (Z.eqb_spec (g k).1 RESERVED) as [|Hne]; [done|]. intros Hg. done.
    + intros Hg. destruct (H2 k Hk Hg) as (H0 & s & Hsr & Hks). split; [done|]. exists s. split; [|done].
      rewrite HR in Hsr. apply elem_of_cons in Hsr as [->|Hsr]; done.
  - intros k Hk. destruct (in_range r.(r_from) r.(r_to) k); [|by apply H5]. unfold release. destruct (_ =? _); [done|by apply H5].
Qed.
Lemma wp_free_reservation R g x r : manages R g x -> r ∈ R ->
  wp (sel4utils_free_reservation calls r.(r_at)) (fun _ x' => exists R', R ≡ₚ r :: R' /\
    manages R' (map_range release r.(r_from) r.(r_to) g) x') x.
Proof.
  intros [l H] Hr. destruct (manages_at _ _ _ _ _ _ H Hr) as (Hl & Er & Hsp). destruct x as [e d]. cbn in *.
  pose proof Hsp as (Hs & E1 & E2 & Hab & Hu). pose proof (mn_list _ _ _ _ _ H) as Hlo. cbn in Hlo.
  assert (NoDup l) as Hn by (eapply sorted_nodup; apply Hlo).
  unfold sel4utils_free_reservation, sel4utils_free_reservation_no_alloc.
  apply wp_bind, wp_bind, wp_res_at; [done|]. rewrite E1, E2, steps_pages. apply wp_bind.
  eapply wp_mono; [eapply (wp_clear_until calls I laws _ _ _ _ g); [lia|lia|lia|apply H]|].
  intros [] [e1 d1] Hs1. destruct (sg_rest _ _ _ _ Hs1) as (_ & _ & _ & Eh1 & Er1). cbn in Eh1, Er1.
  assert (list_ok d1 l) as Hl1 by (apply (list_ok_other d); [done|done|]; intros q _; by rewrite Er1).
  eapply wp_mono; [by apply (wp_remove_ok r.(r_at) l e1 d1)|]. intros [] x' (h & m' & l' & -> & Hm & Hperm & Hlo').
  assert (manages_list l' (view d <$> l') (map_range release r.(r_from) r.(r_to) g) (e1, with_list d1 h m')) as H'.
  { split.
    - eapply stage_ext; [apply stage_with_list; [by eapply stage_rebase|by apply same_fields_dom]|]. intros k _. apply map_range_outside.
    - done.
    - apply reflexive_eq, list_fmap_ext. intros i q Hq. cbn. rewrite (view_same d1 (with_list d1 h m')) by done. symmetry. apply view_other. by rewrite Er1.
    - eapply consistent_free; [apply H| |].
      + rewrite (mn_views _ _ _ _ _ H), Hperm, fmap_cons. cbn [snd]. by rewrite <- Er.
      + rewrite (mn_views _ _ _ _ _ H). by apply view_nodup. }
  eapply wp_mono; [eapply wp_free_res; [exact laws|exact H'| |]|].
  - rewrite Hperm in Hn. by apply NoDup_cons in Hn as [Hn _].
  - cbn. apply (same_fields_span _ _ _ Hm). by rewrite Er1.
  - intros [] x'' Hx''. exists (view d <$> l'). split; [|by exists l'].
    rewrite (mn_views _ _ _ _ _ H), Hperm, fmap_cons. cbn [snd]. by rewrite <- Er.
Qed.
End calls.
