(* ===== verification/UVspacePages.v ===== *)
(** * The manager of virtual address spaces: pages and moving

    Mapping, making and unmapping pages; and sel4utils_move_resize_reservation, which gives a reservation another
    range that may overlap its old one. *)
From stdpp Require Import base list gmap sorting.
From Stdlib Require Import ZArith Lia.
From S2P Require Import Prelude.
From S2P Require Import Structures.
From S2P Require Import AllocBase.
From S2P Require Import UVspace.
From S2P Require Import UVspaceTable.
From S2P Require Import UVspaceList.
From S2P Require Import UVspaceOps.

Implicit Types (R : list resv) (r : resv) (g : Z -> Z * Z) (l : list Z) (d : sel4utils_alloc_data).
(** The mappings after capabilities are entered for consecutive pages of [2 ^ sb] bytes *)
Fixpoint enter_pages (sb k : Z) (caps : list Z) (cookies : option (list Z)) g : Z -> Z * Z :=
  match caps with
  | [] => g
  | c :: caps => enter_pages sb (k + unit_pages sb) caps (tail <$> cookies)
      (set_range k (k + unit_pages sb) (c, from_option (fun l => default 0 (head l)) 0 cookies) g)
  end.
Lemma unit_one sb : frame_bits_ok sb -> 1 <= unit_pages sb.
Proof. intros H. pose proof (unit_pos sb H). lia. Qed.

Section pages.
Context {E : Type} (calls : vspace_calls E) (I : gset Z -> gset Z -> E -> Prop) (laws : calls_laws calls I).
Context (map_page : Z -> Z -> Z -> Z -> Z -> M (E * sel4utils_alloc_data) Z) (maps : map_page_ok I map_page).
Abbreviation X := (E * sel4utils_alloc_data)%type.
Implicit Types (x : X) (e : E).
Abbreviation stage := (stage I).
Abbreviation manages_list := (manages_list I).
Abbreviation manages := (manages I).
Lemma next_page k sb : frame_bits_ok sb -> 0 <= k -> k + unit_pages sb <= user_pages -> page_addr k +w 2 ^ sb = page_addr (k + unit_pages sb).
Proof.
  intros Hb Hk Hn. rewrite unit_bytes by done. pose proof (unit_pos sb Hb). apply page_plus; unfold user_pages, all_pages_count in *; lia.
Qed.

(** ** Unmapping *)
Section drop.
Context x0 g x k (Hs : stage x0 g x) (Hk : 0 <= k < user_pages) (Q : unit -> X -> Prop) (HQ : forall x', stage x0 g x' -> Q tt x').
Lemma wp_unmap_page c : wp (when c (let* c := get_cap (page_addr k) in env (seL4_ARM_Page_Unmap calls c) ;;; ret tt)) Q x.
Proof.
  unfold when. destruct c; [|by apply wp_ret, HQ]. apply wp_bind. eapply wp_page_cap; [exact Hs|by apply user_all|lia|].
  apply wp_bind. eapply wp_keeps; [apply laws|exact Hs|]. intros err x' _ Hs' _. by apply wp_ret, HQ.
Qed.
Lemma wp_free_page c a cap sb : wp (when c (let v0 := vka_at calls a in let path := fn_cspace_make_path v0 cap in
  env (seL4_CNode_Delete calls (root path) (capPtr path) (capDepth path));;; env (fn_cspace_free v0 cap);;;
  let* cookie := sel4utils_get_cookie (page_addr k) in env (fn_utspace_free v0 (kobject_frame_type sb) sb cookie))) Q x.
Proof.
  unfold when. destruct c; [|by apply wp_ret, HQ]. cbv zeta. apply wp_bind. eapply wp_keeps; [apply laws|exact Hs|].
  intros err x1 _ Hs1 _. apply wp_bind. eapply wp_keeps; [apply (cl_vka _ _ laws)|exact Hs1|]. intros [] x2 _ Hs2 _.
  apply wp_bind. eapply wp_page_cookie; [exact Hs2|by apply user_all|lia|]. eapply wp_keeps; [apply (cl_vka _ _ laws)|exact Hs2|].
  intros [] x3 _ Hs3 _. by apply HQ.
Qed.
End drop.
(** The pages become reserved where they are in a reservation, and free elsewhere. *)
Lemma wp_unmap_loop x0 res v a n sb k g x : stage x0 g x -> frame_bits_ok sb -> 0 <= k -> k + Z.of_nat n * unit_pages sb <= user_pages ->
  (forall j, k <= j < k + Z.of_nat n * unit_pages sb -> has_level x0.2 j) ->
  v = (if res =? NULL then EMPTY else RESERVED, 0) -> (res = NULL -> k mod unit_pages sb = 0) ->
  wp (unmap_loop calls n res a (page_addr k) sb) (fun _ x' => stage x0 (set_range k (k + Z.of_nat n * unit_pages sb) v g) x') x.
Proof.
  intros Hs Hb. pose proof (unit_one sb Hb) as Hu. revert k g x Hs. induction n as [|n IH]; intros k g x Hs Hk Hn Hl Hv Ha.
  - apply wp_ret. eapply stage_ext; [exact Hs|]. intros j _. rewrite set_range_empty; [done|lia].
  - cbn [unmap_loop]. assert (k + unit_pages sb <= user_pages) as Hk' by lia. assert (0 <= k < user_pages) as Hku by lia.
    apply wp_bind, wp_bind. eapply wp_page_cap; [exact Hs|by apply user_all|lia|]. apply wp_ret. apply wp_bind.
    eapply wp_unmap_page; [exact Hs|done|]. clear x Hs. intros x Hs. apply wp_bind. eapply wp_free_page; [exact Hs|done|].
    clear x Hs. intros x Hs. apply wp_bind.
    assert (forall j, k <= j < k + unit_pages sb -> has_level x0.2 j) as Hl1 by (intros j Hj; apply Hl; nia).
    assert (wp (if res =? NULL then clear_entries calls (page_addr k) sb else reserve_entries calls (page_addr k) sb;;; ret tt)
      (fun _ x' => stage x0 (set_range k (k + unit_pages sb) v g) x') x) as W.
    { rewrite Hv. destruct (Z.eqb_spec res NULL) as [->|Hne].
      - apply wp_clear_entries; try done. by apply Ha.
      - apply wp_bind. eapply wp_mono; [apply wp_reserve_entries; try done; by right|]. intros err x' [_ Hs']. by apply wp_ret. }
    eapply wp_mono; [exact W|]. clear W x Hs. intros [] x Hs. apply wp_bind, wp_page_bytes; [done|]. rewrite next_page by done.
    eapply wp_mono; [apply (IH (k + unit_pages sb)); [exact Hs|lia|lia| |done|]|].
    + intros j Hj. apply Hl. lia.
    + intros E0. specialize (Ha E0). rewrite <- (Z.mul_1_l (unit_pages sb)) at 1. rewrite Z.mod_add by lia. done.
    + intros [] x' Hs'. eapply stage_ext; [exact Hs'|]. intros j _. cbn beta.
      replace (k + unit_pages sb + Z.of_nat n * unit_pages sb) with (k + Z.of_nat (Datatypes.S n) * unit_pages sb) by lia.
      apply set_range_join. lia.
Qed.
(** Pages of one reservation *)
Definition within r k n : Prop := r.(r_from) <= k /\ k + n <= r.(r_to).
Lemma held_levels R g x r k n : consistent R g -> stage x g x -> r ∈ R -> within r k n -> forall j, k <= j < k + n -> has_level x.2 j.
Proof.
  intros Hc Hs Hr [Hw1 Hw2] j Hj. destruct (cs_bounds _ _ Hc r Hr) as (_ & Hb & Hu). apply entry_level.
  rewrite (sg_entry _ _ _ _ Hs) by (unfold user_pages, all_pages_count in *; lia). apply (cs_held _ _ Hc r); [done|]. unfold in_resv. lia.
Qed.
Lemma wp_unmap_reserved R g x r a n sb k : manages R g x -> r ∈ R -> frame_bits_ok sb -> 0 <= n -> in_resv r k -> within r k (n * unit_pages sb) ->
  wp (sel4utils_unmap_pages calls (page_addr k) n sb a) (fun _ => manages R (set_range k (k + n * unit_pages sb) (RESERVED, 0) g)) x.
Proof.
  intros [l H] Hr Hb Hn Hk Hw. pose proof (unit_one sb Hb). pose proof (cs_bounds _ _ (mn_consistent _ _ _ _ _ H) r Hr) as (Hp & Hfr & Hu).
  pose proof (held_levels R g x r k _ (mn_consistent _ _ _ _ _ H) (mn_stage _ _ _ _ _ H) Hr Hw) as Hl.
  pose proof (mn_consistent _ _ _ _ _ H) as Hc. destruct Hw as [Hw1 Hw2]. destruct x as [e d].
  unfold sel4utils_unmap_pages. apply wp_bind, wp_gets. apply wp_bind. eapply wp_find_reserve; [apply H|]. cbv zeta. cbn [snd].
  destruct (found_reserve I l R g e d k H) as [Hf _]. rewrite (Hf r Hr Hk).
  rewrite <- (Z2Nat.id n) in Hl, Hw2 |- * by lia. rewrite Nat2Z.id.
  eapply wp_mono; [apply (wp_unmap_loop (e, d) _ (RESERVED, 0)); [apply H|done|lia|lia|done| |done]|].
  - by rewrite (proj2 (Z.eqb_neq _ _) Hp).
  - intros [] x' Hs'. exists l. eapply manages_stage; [exact H|exact Hs'|]. by apply (consistent_reserve R g _ _ r).
Qed.
Lemma wp_unmap_mapped R g x a n sb k : manages R g x -> frame_bits_ok sb -> 0 <= n -> 0 <= k -> k + n * unit_pages sb <= user_pages ->
  k mod unit_pages sb = 0 -> (forall r, r ∈ R -> ~ in_resv r k) -> (forall j, k <= j < k + n * unit_pages sb -> (g j).1 <> EMPTY /\ forall r, r ∈ R -> ~ in_resv r j) ->
  wp (sel4utils_unmap_pages calls (page_addr k) n sb a) (fun _ => manages R (set_range k (k + n * unit_pages sb) (EMPTY, 0) g)) x.
Proof.
  intros [l H] Hb Hn Hk Hu Ha Hnk Hj. pose proof (unit_one sb Hb). destruct x as [e d].
  unfold sel4utils_unmap_pages. apply wp_bind, wp_gets. apply wp_bind. eapply wp_find_reserve; [apply H|]. cbv zeta. cbn [snd].
  destruct (found_reserve I l R g e d k H) as [_ Hf]. rewrite (Hf Hnk).
  rewrite <- (Z2Nat.id n) in Hj, Hu |- * by lia. rewrite Nat2Z.id.
  eapply wp_mono; [apply (wp_unmap_loop (e, d) _ (EMPTY, 0)); [apply H|done|done|done| |done|done]|].
  - intros j Hjr. apply entry_level. rewrite (sg_entry _ _ _ _ (mn_stage _ _ _ _ _ H)) by (unfold user_pages, all_pages_count in *; lia). by apply Hj.
  - intros [] x' Hs'. exists l. eapply manages_stage; [exact H|exact Hs'|]. apply consistent_clear; [apply H|].
    intros r j Hr Hjr. by apply Hj.
Qed.

(** ** Mapping *)
Definition good_cap (c : Z) : Prop := c <> EMPTY /\ c <> RESERVED.
Lemma consistent_enter R sb k caps cookies g : consistent R g -> Forall good_cap caps -> consistent R (enter_pages sb k caps cookies g).
Proof.
  intros H Hc. revert k cookies g H. induction Hc as [|c caps [Hc0 Hcr] Hc IH]; intros k cookies g H; cbn; [done|]. by apply IH, consistent_map.
Qed.
Lemma enter_outside sb k caps cookies g j : frame_bits_ok sb -> j < k \/ k + Z.of_nat (length caps) * unit_pages sb <= j ->
  enter_pages sb k caps cookies g j = g j.
Proof.
  intros Hb. pose proof (unit_one sb Hb). revert k cookies g. induction caps as [|c caps IH]; intros k cookies g Hj; cbn in *; [done|].
  rewrite IH by lia. unfold set_range. destruct (in_range k (k + unit_pages sb) j); [nia|done].
Qed.
Lemma levels_tail x0 k n sb : frame_bits_ok sb -> can_update_all calls I x0 k (k + Z.of_nat (Datatypes.S n) * unit_pages sb) ->
  can_update_all calls I x0 k (k + unit_pages sb) /\ can_update_all calls I x0 (k + unit_pages sb) (k + unit_pages sb + Z.of_nat n * unit_pages sb).
Proof.
  intros Hb. pose proof (unit_one sb Hb). intros [Hp|Hp]; [by split; left|]. split; right; intros j Hj; apply Hp; nia.
Qed.
Definition cookie_of (cookies : option (list Z)) : Z := from_option (fun l => default 0 (head l)) 0 cookies.
Lemma wp_cookie cookies n x (Q : Z -> X -> Prop) : (forall l, cookies = Some l -> (Datatypes.S n <= length l)%nat) -> Q (cookie_of cookies) x ->
  wp match cookies with None => ret 0 | Some l => of_option (head l) end Q x.
Proof using.
  intros Hck HQ. destruct cookies as [[|a l]|]; [by specialize (Hck [] eq_refl); cbn in Hck; lia|by eapply wp_of_option|by apply wp_ret].
Qed.
(** The pages that are entered: the first [i]. With an error, page [i] may be entered up to one whose table cannot be had. *)
Definition entered x0 sb k (n : nat) (caps : list Z) cookies g err x' : Prop := exists i, (i <= n)%nat /\
  let g' := enter_pages sb k (take i caps) cookies g in
  (stage x0 g' x' /\ (err = 0 /\ i = n \/ err <> 0 /\ (i < n)%nat) \/
   err <> 0 /\ (i < n)%nat /\ exists j c ck, let ki := k + Z.of_nat i * unit_pages sb in ki <= j < ki + unit_pages sb /\
     no_table calls I x0 j /\ caps !! i = Some c /\ stage x0 (set_range ki j (c, ck) g') x').
Lemma wp_map_pages_loop_any x0 n caps cookies rt ch sb k g x : stage x0 g x -> frame_bits_ok sb -> 0 < k ->
  k + Z.of_nat n * unit_pages sb <= user_pages -> rt <> 0 ->
  (n <= length caps)%nat -> Forall good_cap caps -> (forall l, cookies = Some l -> (n <= length l)%nat) ->
  wp (map_pages_loop calls map_page n caps cookies (page_addr k) sb rt ch) (entered x0 sb k n caps cookies g) x.
Proof.
  intros Hs Hb. pose proof (unit_one sb Hb) as Hu. revert caps cookies k g x Hs.
  induction n as [|n IH]; intros caps cookies k g x Hs Hk Hn Hrt Hcl Hcaps Hck; cbn [map_pages_loop].
  - apply wp_ret. exists 0%nat. rewrite take_0. split; [done|]. left. split; [done|]. by left.
  - destruct caps as [|c caps]; [cbn in Hcl; lia|]. apply Forall_cons in Hcaps as [[Hc0 Hcr] Hcaps].
    apply wp_bind. eapply wp_of_option; [done|].
    apply wp_bind, wp_assert; [by rewrite bool_decide_false|]. apply wp_bind.
    eapply wp_mono; [apply maps; [exact Hs|done|unfold page_addr; lia|done]|]. intros err x1 Hs1. cbn beta. change seL4_NoError with 0.
    destruct (Z.eqb_spec err 0) as [->|Hne]; cbn [negb].
    2: { apply wp_ret. exists 0%nat. split; [lia|]. left. split; [done|]. right. split; [done|lia]. }
    apply wp_bind. eapply wp_cookie; [exact Hck|]. apply wp_bind.
    eapply wp_mono; [apply (wp_update_entries_any calls I laws x0 g x1 k sb Hs1 Hb ltac:(lia) ltac:(nia) c (cookie_of cookies) Hc0 Hcr)|].
    intros err x2 [[-> Hs2]|(Hne & j & Hj & Hnt & Hs2)]; apply wp_bind, wp_page_bytes; [done| |done|].
    + change (0 =? 0) with true. cbn [negb tail]. rewrite next_page by (done || nia).
      eapply wp_mono; [apply (IH caps (tail <$> cookies) (k + unit_pages sb)); [exact Hs2|lia|lia|done|cbn in Hcl; lia|done|]|].
      * intros l' El. destruct cookies as [l|]; [|done]. injection El as <-. specialize (Hck l eq_refl). destruct l; cbn in *; lia.
      * intros err x3 (i & Hi & [[Hs3 Herr]|(Hne & Hlt & j & c' & ck & Hj & Hnt & Hc' & Hs3)]); exists (Datatypes.S i); (split; [lia|]).
        -- left. split; [done|]. destruct Herr as [[-> ->]|[He Hlt]]; [by left|right]. split; [done|lia].
        -- right. split; [done|]. split; [lia|]. exists j, c', ck. cbv zeta in *.
           replace (k + Z.of_nat (Datatypes.S i) * unit_pages sb) with (k + unit_pages sb + Z.of_nat i * unit_pages sb) by lia. done.
    + rewrite (proj2 (Z.eqb_neq err 0) Hne). cbn [negb]. apply wp_ret. exists 0%nat. split; [lia|]. right. split; [done|]. split; [lia|].
      exists j, c, (cookie_of cookies). cbv zeta. rewrite Z.mul_0_l, Z.add_0_r. done.
Qed.
Lemma wp_map_pages_loop x0 n caps cookies rt ch sb k g x : stage x0 g x -> frame_bits_ok sb -> 0 < k ->
  k + Z.of_nat n * unit_pages sb <= user_pages -> (forall j, k <= j < k + Z.of_nat n * unit_pages sb -> has_level x0.2 j) -> rt <> 0 ->
  (n <= length caps)%nat -> Forall good_cap caps -> (forall l, cookies = Some l -> (n <= length l)%nat) ->
  wp (map_pages_loop calls map_page n caps cookies (page_addr k) sb rt ch) (fun err x' => exists i, (i <= n)%nat /\
    stage x0 (enter_pages sb k (take i caps) cookies g) x' /\ (err = 0 /\ i = n \/ err <> 0 /\ (i < n)%nat)) x.
Proof.
  intros Hs Hb Hk Hn Hl Hrt Hcl Hcaps Hck. pose proof (unit_one sb Hb) as Hu. eapply wp_mono; [by apply (wp_map_pages_loop_any x0 n)|].
  intros err x' (i & Hi & [H|(_ & Hlt & j & c & ck & Hj & [_ Hnt] & _)]); [by exists i|]. destruct Hnt. apply Hl. cbv zeta in Hj. nia.
Qed.
Section reserved.
Context R g x r n sb k (H : manages R g x) (Hr : r ∈ R) (Hb : frame_bits_ok sb) (Hn : 0 < n) (Hk : 0 < k)
  (Hall : k + n * unit_pages sb < all_pages_count).
Lemma within_bound : within r k (n * unit_pages sb) -> 0 <= k /\ k + n * unit_pages sb <= user_pages /\ in_resv r k.
Proof.
  intros [Hw1 Hw2]. destruct H as [l Hl]. pose proof (cs_bounds _ _ (mn_consistent _ _ _ _ _ Hl) r Hr) as (_ & Hfr & Hu).
  pose proof (unit_one sb Hb). unfold in_resv. split; [lia|]. split; [lia|]. nia.
Qed.
(** The pages are in the reservation, and nothing is mapped there. *)
Definition free_in_resv : Prop := within r k (n * unit_pages sb) /\ range_is is_res k (k + n * unit_pages sb) g.
Lemma wp_in_reservation {A} (body : sel4utils_res_t -> bool -> M X A) (Q : A -> X -> Prop) :
  (forall res b, res.(rights) = r.(r_rights) -> (b = true <-> free_in_resv) -> wp (body res b) Q x) ->
  wp (let* res := res_at r.(r_at) in let* ok := check_reservation res (page_addr k) n sb in body res ok) Q x.
Proof.
  intros HQ. destruct H as [l Hl]. destruct (manages_at _ _ _ _ _ _ Hl Hr) as (_ & Er & Hsp). destruct x as [e d].
  destruct Hsp as (Hs & E1 & E2 & Hfr & Hu). cbn in Hs, E1, E2. pose proof (unit_one sb Hb).
  apply wp_bind, wp_res_at; [done|]. unfold check_reservation, check_reservation_bounds.
  apply wp_bind, wp_bind, wp_bind, wp_page_bytes; [done|]. apply wp_ret, wp_bind.
  eapply (wp_check_reserved_range I (e, d) g); [apply Hl|done|lia|lia|done|]. intros b Hb'. apply wp_ret, HQ; [by rewrite Er|].
  rewrite E1, E2, unit_bytes by done. unfold wmul, wrap. replace (n * page_addr (unit_pages sb)) with (page_addr (n * unit_pages sb)) by (unfold page_addr; lia).
  assert (0 <= n * unit_pages sb) by nia.
  rewrite Z.mod_small by (unfold page_addr, all_pages_count in *; lia). rewrite page_plus by lia.
  rewrite andb_true_iff, Hb', andb_true_iff, Z.geb_le, Z.leb_le. unfold free_in_resv, within, page_addr.
  split; intros [[F1 F2] F3]; (split; [lia|done]).
Qed.
Lemma wp_map_pages_at_vaddr caps cookies : r.(r_rights) <> 0 -> n <= Z.of_nat (length caps) -> Forall good_cap caps ->
  (forall l, cookies = Some l -> n <= Z.of_nat (length l)) ->
  wp (sel4utils_map_pages_at_vaddr calls map_page caps cookies (page_addr k) n sb r.(r_at)) (fun err x' =>
    err = -1 /\ ~ free_in_resv /\ manages R g x' \/
    free_in_resv /\ exists i, Z.of_nat i <= n /\ manages R (enter_pages sb k (take i caps) cookies g) x' /\
      (err = 0 /\ Z.of_nat i = n \/ err <> 0 /\ Z.of_nat i < n)) x.
Proof.
  intros Hrt Hcl Hcaps Hck. unfold sel4utils_map_pages_at_vaddr. apply wp_in_reservation. intros res b Ert Eb. destruct b; cbn [negb].
  - assert (free_in_resv) as Hf by by apply Eb. destruct (within_bound (proj1 Hf)) as (_ & Hu & _). destruct H as [l Hl].
    unfold map_pages_at_vaddr. rewrite Ert. eapply wp_mono; [apply (wp_map_pages_loop x (Z.to_nat n)); try done|].
    + apply Hl.
    + by rewrite Z2Nat.id by lia.
    + rewrite Z2Nat.id by lia. eapply held_levels; [apply Hl|apply Hl|exact Hr|apply Hf].
    + lia.
    + intros l' El. specialize (Hck l' El). lia.
    + intros err x' (i & Hi & Hs & Herr). right. split; [done|]. exists i. split; [lia|]. split.
      * exists l. eapply manages_stage; [exact Hl|exact Hs|]. apply consistent_enter; [apply Hl|]. by apply Forall_take.
      * destruct Herr as [[-> ->]|[He Hlt]]; [left|right]; (split; [done|lia]).
  - apply wp_ret. left. split; [done|]. split; [|done]. intros Hf. by apply Eb in Hf.
Qed.
End reserved.

(** ** New pages *)
Lemma wp_alloc_frame x0 g x a sb (Q : Z * vka_object_t -> X -> Prop) : stage x0 g x ->
  (forall o x', vka_alloc_frame calls a sb x.1 = Ret o x'.1 -> good_object o -> stage x0 g x' -> x'.2 = x.2 -> Q o x') ->
  wp (env (vka_alloc_frame calls a sb)) Q x.
Proof.
  intros Hs HQ. destruct x as [e d]. apply wp_env. cbn. pose proof (alloc_object_keeps calls I laws a (kobject_frame_type sb) sb _ _ _ (sg_env _ _ _ _ Hs)) as W.
  destruct (wp_inv _ _ _ W) as (o & e' & Eq & Ho & He'). eapply wp_exact; [exact Eq|]. apply HQ; [done|done| |done]. by eapply stage_env.
Qed.
(** No frame can be had, or the function that maps a page fails. *)
Definition frame_short x sb : Prop := exists err o e', vka_alloc_frame calls x.2.(vka) sb x.1 = Ret (err, o) e' /\ err <> 0.
Definition map_fails x : Prop := exists c v rt a b err x', map_page c v rt a b x = Ret err x' /\ err <> 0.
Definition ends_loop x sb err : Prop := err = 0 /\ frame_short x sb \/ err <> 0 /\ map_fails x.
Lemma wp_new_pages_loop x0 n i rt ch sb k g x err0 : stage x0 g x -> frame_bits_ok sb -> 0 < k ->
  k + Z.of_nat n * unit_pages sb <= user_pages -> can_update_all calls I x0 k (k + Z.of_nat n * unit_pages sb) -> rt <> 0 -> err0 = 0 ->
  wp (new_pages_loop calls map_page n i (page_addr k) sb rt ch err0) (fun o x' => exists caps cookies, (length caps <= n)%nat /\
    Forall good_cap caps /\ stage x0 (enter_pages sb k caps (Some cookies) g) x' /\ o.2 = i + Z.of_nat (length caps) /\
    (length caps = n -> o.1 = 0) /\
    ((length caps < n)%nat -> exists x1, stage x0 (enter_pages sb k caps (Some cookies) g) x1 /\ ends_loop x1 sb o.1)) x.
Proof.
  intros Hs Hb. pose proof (unit_one sb Hb) as Hu. revert i k g x err0 Hs.
  induction n as [|n IH]; intros i k g x err0 Hs Hk Hn Hl Hrt He; cbn [new_pages_loop].
  - apply wp_ret. exists [], []. cbn. split; [done|]. split; [constructor|]. split; [done|]. split; [lia|]. split; [done|lia].
  - assert (forall err x' x1, stage x0 g x' -> stage x0 g x1 -> ends_loop x1 sb err -> exists caps cookies,
      (length caps <= Datatypes.S n)%nat /\ Forall good_cap caps /\
      stage x0 (enter_pages sb k caps (Some cookies) g) x' /\ (err, i).2 = i + Z.of_nat (length caps) /\
      (length caps = Datatypes.S n -> (err, i).1 = 0) /\ ((length caps < Datatypes.S n)%nat ->
        exists x1, stage x0 (enter_pages sb k caps (Some cookies) g) x1 /\ ends_loop x1 sb (err, i).1)) as Hstop.
    { intros err x' x1 Hs' Hs1 Hend. exists [], []. cbn. split; [lia|]. split; [constructor|]. split; [done|]. split; [lia|]. split; [done|]. by exists x1. }
    destruct (levels_tail x0 k n sb Hb Hl) as [Hl1 Hl2]. apply wp_bind, wp_gets. apply wp_bind. eapply wp_alloc_frame; [exact Hs|].
    intros [err o] x1 Eal Hgood Hs1 _. cbn [fst snd] in *. destruct (Z.eqb_spec err 0) as [->|Hne]; cbn [negb].
    2: { apply wp_ret. apply (Hstop err0 x1 x); [done|done|]. left. split; [done|]. by exists err, o, x1.1. }
    destruct (Hgood eq_refl) as [Hc0 Hcr]. cbn in Hc0, Hcr. apply wp_bind.
    destruct (wp_inv _ _ _ (maps x0 g x1 o.(cptr) (page_addr k) rt ch sb Hs1 Hc0 ltac:(unfold page_addr; lia) Hrt)) as (err & x2 & Emap & Hs2).
    eapply wp_exact; [exact Emap|]. change seL4_NoError with 0. destruct (Z.eqb_spec err 0) as [->|Hne].
    + apply wp_bind. eapply wp_mono; [apply (wp_update_entries calls I laws x0 g x2 k sb Hs2 Hb ltac:(lia) ltac:(nia) _ o.(ut) Hl1 Hc0 Hcr)|].
      intros err2 x3 [-> Hs3]. apply wp_bind, wp_page_bytes; [done|]. rewrite next_page by (done || nia).
      eapply wp_mono; [apply (IH (i + 1) (k + unit_pages sb)); [exact Hs3|lia|lia|done|done|done]|].
      intros [e' i'] x4 (caps & cks & Hlen & Hcaps & Hs4 & Hi & He' & Hend). exists (o.(cptr) :: caps), (o.(ut) :: cks). cbn in *.
      split; [lia|]. split; [by constructor|]. split; [done|]. split; [lia|]. split; [intros Hlen'; apply He'; lia|].
      intros Hlt. apply Hend. lia.
    + apply wp_bind. eapply wp_keeps; [apply (free_object_keeps calls I laws)|exact Hs2|]. intros [] x3 _ Hs3 _. apply wp_ret.
      apply (Hstop err x3 x1); [done|done|]. right. split; [done|]. by repeat eexists.
Qed.
(** The loop ends before page [n]: after some pages, which are unmapped again. *)
Definition stopped R g sb k n err : Prop := exists caps cookies x1, Z.of_nat (length caps) < n /\ Forall good_cap caps /\
  manages R (enter_pages sb k caps (Some cookies) g) x1 /\ ends_loop x1 sb err.
Lemma manages_ext R g g' x : manages R g' x -> consistent R g -> (forall j, 0 <= j < all_pages_count -> g' j = g j) -> manages R g x.
Proof. intros [l [Hs Hl Hv Hc]] Hc' Hg. exists l. split; [|done|done|done]. by eapply stage_ext. Qed.
(** Reserving again what was mapped in free pages of a reservation undoes it. *)
Lemma enter_undone R g sb k caps cookies n j : consistent R g -> frame_bits_ok sb -> range_is is_res k (k + n * unit_pages sb) g ->
  0 <= k -> k + n * unit_pages sb <= user_pages -> Z.of_nat (length caps) <= n ->
  set_range k (k + Z.of_nat (length caps) * unit_pages sb) (RESERVED, 0) (enter_pages sb k caps cookies g) j = g j.
Proof.
  intros Hc Hb Hres Hk Hu Hn. pose proof (unit_one sb Hb). unfold set_range.
  destruct (in_range k (k + Z.of_nat (length caps) * unit_pages sb) j) as [Hj|Hj]; [|apply enter_outside; [done|lia]].
  assert (k <= j < k + n * unit_pages sb) as Hj' by nia. specialize (Hres j Hj'). unfold is_res in Hres.
  destruct (cs_reserved _ _ Hc j ltac:(lia) Hres) as [E2 _]. by rewrite (surjective_pairing (g j)), Hres, E2.
Qed.
Lemma wp_new_pages_at_vaddr R g x r n sb k : manages R g x -> r ∈ R -> frame_bits_ok sb -> 0 < n -> 0 < k ->
  k + n * unit_pages sb < all_pages_count -> r.(r_rights) <> 0 ->
  wp (sel4utils_new_pages_at_vaddr calls map_page (page_addr k) n sb r.(r_at)) (fun err x' =>
    manages R g x' /\ (err = -1 /\ ~ free_in_resv g r n sb k \/ free_in_resv g r n sb k /\ stopped R g sb k n err) \/
    free_in_resv g r n sb k /\ err = 0 /\ exists caps cookies, Z.of_nat (length caps) = n /\ Forall good_cap caps /\
      manages R (enter_pages sb k caps (Some cookies) g) x') x.
Proof.
  intros H Hr Hb Hn Hk Hall Hrt. pose proof (unit_one sb Hb) as Hu1. unfold sel4utils_new_pages_at_vaddr.
  apply (wp_in_reservation R g x r n sb k H Hr Hb Hn Hk Hall). intros res b Ert Eb.
  destruct b; cbn [negb]; [|apply wp_ret; left; split; [done|]; left; split; [done|]; intros Hf; by apply Eb in Hf].
  assert (free_in_resv g r n sb k) as Hf by by apply Eb. destruct (within_bound R g x r n sb k H Hr Hb Hn Hk Hall (proj1 Hf)) as (_ & Hu & Hkr).
  pose proof H as [l Hl]. pose proof (mn_consistent _ _ _ _ _ Hl) as Hc. unfold new_pages_at_vaddr. rewrite Ert. apply wp_bind.
  eapply wp_mono; [apply (wp_new_pages_loop x (Z.to_nat n)); try done; [apply Hl|by rewrite Z2Nat.id by lia|]|].
  { rewrite Z2Nat.id by lia. right. eapply held_levels; [apply Hl|apply Hl|exact Hr|apply Hf]. }
  intros [err i] x1 (caps & cks & Hlen & Hcaps & Hs1 & Hi & Herr & Hend). cbn in Hi, Herr, Hend.
  assert (forall x1, stage x (enter_pages sb k caps (Some cks) g) x1 -> manages R (enter_pages sb k caps (Some cks) g) x1) as Hm.
  { intros x2 Hs2. exists l. eapply manages_stage; [exact Hl|exact Hs2|]. by apply consistent_enter. }
  pose proof (Hm x1 Hs1) as H1. apply wp_bind, wp_gets. cbn [snd fst]. rewrite Hi, Z.add_0_l. apply wp_bind. unfold when.
  destruct (Z.ltb_spec (Z.of_nat (length caps)) n) as [Hlt|Hge].
  - eapply wp_mono; [apply (wp_unmap_reserved R _ x1 r _ (Z.of_nat (length caps)) sb k H1 Hr Hb); [lia|done|]|].
    + destruct Hf as [[Hw1 Hw2] _]. split; [done|]. nia.
    + intros [] x2 H2. apply wp_ret. left. split; [|right; split; [done|]].
      * eapply manages_ext; [exact H2|done|]. intros j _. apply (enter_undone R g sb k caps (Some cks) n); [done|done|apply Hf|lia|done|lia].
      * destruct (Hend ltac:(lia)) as (x3 & Hs3 & He). exists caps, cks, x3. auto.
  - apply wp_ret, wp_ret. right. split; [done|]. split; [apply Herr; lia|]. exists caps, cks. split; [lia|done].
Qed.
(** What is mapped at a page *)
Lemma wp_sel4utils_get_cap R g x v : manages R g x -> let k := v / 4096 in 0 <= v -> k < user_pages ->
  wp (sel4utils_get_cap v) (fun c x' => x' = x /\ c = if (g k).1 =? RESERVED then 0 else (g k).1) x.
Proof.
  intros [l H] k Hv Hu. assert (0 <= k < user_pages) as Hk by (split; [apply Z.div_pos; lia|done]).
  assert (v < 2 ^ 32) by (pose proof (Z.div_mod v 4096 ltac:(lia)); pose proof (Z.mod_pos_bound v 4096 ltac:(lia)); unfold k, user_pages in *; lia).
  unfold sel4utils_get_cap. rewrite get_cap_any by lia. fold k. apply wp_bind. eapply wp_page_cap; [apply H|by apply user_all|lia|]. by apply wp_ret.
Qed.

(** ** Pages anywhere *)
Lemma enter_good sb caps cookies : frame_bits_ok sb -> Forall good_cap caps -> forall k g j,
  k <= j < k + Z.of_nat (length caps) * unit_pages sb -> good_cap (enter_pages sb k caps cookies g j).1.
Proof.
  intros Hb Hc. pose proof (unit_one sb Hb). revert cookies. induction Hc as [|c caps Hc0 Hc IH]; intros cookies k g j Hj; cbn in *; [lia|].
  destruct (Z_lt_le_dec j (k + unit_pages sb)) as [Hlt|Hge]; [|apply IH; nia].
  rewrite enter_outside by (done || lia). unfold set_range. destruct (in_range k (k + unit_pages sb) j); [exact Hc0|lia].
Qed.
Lemma enter_cleared sb k caps cookies g n j : frame_bits_ok sb -> range_is (fun v => v = (EMPTY, 0)) k (k + n * unit_pages sb) g ->
  Z.of_nat (length caps) <= n ->
  set_range k (k + Z.of_nat (length caps) * unit_pages sb) (EMPTY, 0) (enter_pages sb k caps cookies g) j = g j.
Proof.
  intros Hb He Hn. pose proof (unit_one sb Hb). unfold set_range.
  destruct (in_range k (k + Z.of_nat (length caps) * unit_pages sb) j) as [Hj|Hj]; [|apply enter_outside; [done|lia]].
  symmetry. apply He. nia.
Qed.
(** The range that is found, and what follows from it *)
Lemma wp_found_range R g x n sb (Q : Z -> X -> Prop) : manages R g x -> frame_bits_ok sb -> 0 < n -> n * unit_pages sb < all_pages_count ->
  (forall x', manages R g x' -> no_range g (n * unit_pages sb) sb x -> Q NULL x') ->
  (forall k x', 0 < k -> fits_range g (n * unit_pages sb) sb k -> k mod unit_pages sb = 0 ->
    (forall r j, r ∈ R -> k <= j < k + n * unit_pages sb -> ~ in_resv r j) -> manages R g x' -> x'.2.(top_level) = x.2.(top_level) ->
    Q (page_addr k) x') ->
  wp (find_range n sb) Q x.
Proof.
  intros [l H] Hb Hn Hall H0 H1. pose proof (unit_one sb Hb).
  destruct (wp_find_range I x g x sb n (mn_stage _ _ _ _ _ H) Hb Hn Hall) as (m & Hm & El & W).
  eapply wp_mono; [exact W|]. intros v x' [(-> & -> & Hno)|(k & -> & Hk & Hfit & _ & ->)].
  { apply H0; [by exists l|]. exists m. split; [done|]. intros k Hk Hf. by destruct (Hno k Hk). }
  pose proof Hfit as (Ha & Hu & He). destruct x as [e d]. cbn [fst snd].
  assert (manages R g (e, upd_last_allocated (page_addr (k + n * unit_pages sb)) d)) as H'.
  { exists l. apply manages_last; [done|nia]. }
  destruct (decide (k = 0)) as [->|Hk0].
  { apply H0; [done|]. exists m. split; [done|]. intros j Hj Hf. destruct (decide (j = 0)); [by left|right]. exists 0. split; [lia|done]. }
  apply H1; [lia|done| | |done|done].
  - rewrite unit_bytes in Ha by done. unfold page_addr in Ha. rewrite Z.mul_mod_distr_r in Ha by lia. lia.
  - intros r j Hr Hj Hrj. apply (cs_held _ _ (mn_consistent _ _ _ _ _ H) r j Hr Hrj). by apply He.
Qed.
(** Mapping anywhere: no range, or one in which the first [i] pages are entered. With an error, page [i] may be entered
    up to one whose table cannot be had. *)
Definition mapped_anywhere R g x n sb (caps : list Z) cookies v x' : Prop :=
  v = NULL /\ manages R g x' /\ no_range g (n * unit_pages sb) sb x \/
  exists k i, 0 < k /\ fits_range g (n * unit_pages sb) sb k /\ Z.of_nat i <= n /\ let g' := enter_pages sb k (take i caps) cookies g in
    (manages R g' x' /\ (v = page_addr k /\ Z.of_nat i = n \/ v = NULL /\ Z.of_nat i < n) \/
     v = NULL /\ Z.of_nat i < n /\ exists j c ck, let ki := k + Z.of_nat i * unit_pages sb in ki <= j < ki + unit_pages sb /\
       no_table calls I x j /\ caps !! i = Some c /\ manages R (set_range ki j (c, ck) g') x').
Lemma wp_map_pages R g x caps cookies rt n sb ch : manages R g x -> frame_bits_ok sb -> 0 < n ->
  n * unit_pages sb < all_pages_count -> rt <> 0 -> n <= Z.of_nat (length caps) -> Forall good_cap caps ->
  (forall l, cookies = Some l -> n <= Z.of_nat (length l)) ->
  wp (sel4utils_map_pages calls map_page caps cookies rt n sb ch) (mapped_anywhere R g x n sb caps cookies) x.
Proof.
  intros H Hb Hn Hall Hrt Hcl Hcaps Hck. unfold sel4utils_map_pages. apply wp_bind. apply (wp_found_range R g); try done.
  - intros x' H' Hno. apply wp_ret. by left.
  - intros k x1 Hk Hfit Hmod Hfree [l Hl] Et. pose proof Hfit as (_ & Hu & He).
    replace (page_addr k =? NULL) with false by (symmetry; apply Z.eqb_neq; unfold page_addr, NULL; lia).
    unfold map_pages_at_vaddr. apply wp_bind. eapply wp_mono; [apply (wp_map_pages_loop_any x1 (Z.to_nat n)); try done|].
    + apply Hl.
    + rewrite Z2Nat.id by lia. lia.
    + lia.
    + intros l' El. specialize (Hck l' El). lia.
    + pose proof (consistent_enter R sb k) as Hce. change seL4_NoError with 0.
      intros err x' (i & Hi & Herr). apply wp_ret. right. exists k, i. split; [done|]. split; [done|]. split; [lia|]. cbv zeta in *.
      assert (consistent R (enter_pages sb k (take i caps) cookies g)) as Hcons by (apply Hce; [apply Hl|by apply Forall_take]).
      destruct Herr as [[Hs Herr]|(Hne & Hlt & j & c & ck & Hj & [Hf Hn'] & Hc & Hs)]; [left|right].
      * split; [exists l; by eapply manages_stage|]. destruct Herr as [[-> ->]|[He' Hlt]]; [left; split; [done|lia]|right].
        rewrite (proj2 (Z.eqb_neq err 0) He'). split; [done|lia].
      * rewrite (proj2 (Z.eqb_neq err 0) Hne). split; [done|]. split; [lia|]. exists j, c, ck. split; [done|].
        split; [split; [done|unfold has_level in *; by rewrite <- Et]|]. split; [done|]. exists l. eapply manages_stage; [exact Hl|exact Hs|].
        destruct (Forall_lookup_1 _ _ _ _ Hcaps Hc) as [Hc0 Hcr]. by apply consistent_map.
Qed.
(** What new pages anywhere come to: no range, all pages, or none of them; then the address is returned though a
    frame could not be had, or NULL if a page could not be mapped. *)
Definition made_anywhere R g x n sb v x' : Prop :=
  v = NULL /\ manages R g x' /\ no_range g (n * unit_pages sb) sb x \/
  exists k, 0 < k /\ fits_range g (n * unit_pages sb) sb k /\
    (v = page_addr k /\ (exists caps cookies, Z.of_nat (length caps) = n /\ Forall good_cap caps /\
       manages R (enter_pages sb k caps (Some cookies) g) x') \/
     manages R g x' /\ exists err, stopped R g sb k n err /\ v = if err =? 0 then page_addr k else NULL).
Lemma wp_new_pages R g x rt n sb : plenty calls I -> manages R g x -> frame_bits_ok sb -> 0 < n -> n * unit_pages sb < all_pages_count ->
  rt <> 0 -> wp (sel4utils_new_pages calls map_page rt n sb) (made_anywhere R g x n sb) x.
Proof.
  intros Hpl H Hb Hn Hall Hrt. unfold sel4utils_new_pages. apply wp_bind. apply (wp_found_range R g); try done.
  - intros x' H' Hno. apply wp_ret. by left.
  - intros k x1 Hk Hfit Hmod Hfree [l Hl] _. pose proof Hfit as (_ & Hu & He). pose proof (unit_one sb Hb).
    replace (page_addr k =? NULL) with false by (symmetry; apply Z.eqb_neq; unfold page_addr, NULL; lia).
    apply wp_bind. unfold new_pages_at_vaddr. apply wp_bind.
    eapply wp_mono; [apply (wp_new_pages_loop x1 (Z.to_nat n)); try done; [apply Hl|rewrite Z2Nat.id by lia; lia|by left]|].
    intros [err i] x2 (caps & cks & Hlen & Hcaps & Hs2 & Hi & Herr & Hend). cbn in Hi, Herr, Hend.
    assert (forall x2, stage x1 (enter_pages sb k caps (Some cks) g) x2 -> manages R (enter_pages sb k caps (Some cks) g) x2) as Hm.
    { intros x3 Hs3. exists l. eapply manages_stage; [exact Hl|exact Hs3|]. apply consistent_enter; [apply Hl|done]. }
    pose proof (Hm x2 Hs2) as H2. apply wp_bind, wp_gets. cbn [snd fst]. rewrite Hi, Z.add_0_l. apply wp_bind. unfold when. change seL4_NoError with 0.
    destruct (Z.ltb_spec (Z.of_nat (length caps)) n) as [Hlt|Hge].
    + eapply wp_mono; [apply (wp_unmap_mapped R _ x2 _ (Z.of_nat (length caps)) sb k H2 Hb); [lia|lia|nia|done| |]|].
      * intros r Hr. apply Hfree; [done|nia].
      * intros j Hj. split; [by apply enter_good|]. intros r Hr. apply Hfree; [done|nia].
      * intros [] x3 H3. apply wp_ret, wp_ret. right. exists k. split; [done|]. split; [done|]. right. split.
        -- eapply manages_ext; [exact H3|apply Hl|]. intros j _.
           apply (enter_cleared sb k caps (Some cks) g n); [done| |lia]. intros p Hp.
           specialize (He p Hp). unfold is_empty in He. assert ((g p).2 = 0) as E2 by
             (apply (cs_empty _ _ (mn_consistent _ _ _ _ _ Hl)); [unfold user_pages, all_pages_count in *; lia|done]).
           by rewrite (surjective_pairing (g p)), He, E2.
        -- exists err. split; [|done]. destruct (Hend ltac:(lia)) as (x4 & Hs4 & He4). exists caps, cks, x4. auto.
    + apply wp_ret, wp_ret, wp_ret. right. exists k. rewrite Herr by lia. split; [done|]. split; [done|]. left. split; [done|]. exists caps, cks. split; [lia|done].
Qed.
End pages.

(** * Moving a reservation *)

(** ** The list, when the range of one of its reservations changes *)
Section list.
Context {E : Type}.
Abbreviation X := (E * sel4utils_alloc_data)%type.
Context (d : sel4utils_alloc_data) l (Hlo : list_ok d l) (p a b a' b' : Z) (Hp : p ∈ l) (Hsp : spans d.(reservations) p a b)
  (Hab : 0 <= a' < b') (Hu : b' <= user_pages)
  (Hfree : forall q c c', q ∈ l -> q <> p -> spans d.(reservations) q c c' -> c' <= a' \/ b' <= c).
Abbreviation m := d.(reservations).
Definition moved_res : sel4utils_res_t := upd_end (page_addr b') (upd_start (page_addr a') (m !!! p)).
Abbreviation m1 := (<[p := moved_res]> m).
Lemma moved_other q : q <> p -> m1 !! q = m !! q /\ m1 !!! q = m !!! q.
Proof. intros Hq. by rewrite lookup_insert_ne, lookup_total_insert_ne. Qed.
Lemma moved_chain : chain m1 d.(reservation_head) l.
Proof.
  eapply chain_ext; [|apply Hlo]. intros q Hq. destruct (decide (q = p)) as [->|Hne].
  - by rewrite lookup_insert_eq, lookup_insert_total.
  - destruct (moved_other q Hne) as [-> ->]. split; [by eapply chain_in; [apply Hlo|]|done].
Qed.
Lemma moved_spans q : q ∈ l -> exists c c', spans m1 q c c'.
Proof.
  intros Hq. destruct (decide (q = p)) as [->|Hne].
  - exists a', b'. unfold spans. rewrite lookup_insert_eq, lookup_insert_total. done.
  - destruct (lo_spans _ _ Hlo q Hq) as (c & c' & Hc). exists c, c'. unfold spans. destruct (moved_other q Hne) as [-> ->]. exact Hc.
Qed.
Lemma moved_apart q : q ∈ l -> q <> p -> apart m1 p q.
Proof.
  intros Hq Hne. destruct (lo_spans _ _ Hlo q Hq) as (c & c' & Hc). pose proof (Hfree q c c' Hq Hne Hc) as Hd.
  destruct Hc as (_ & E1 & E2 & _). unfold apart, behind. destruct (moved_other q Hne) as [_ ->].
  rewrite lookup_insert_total, E1, E2. unfold moved_res, page_addr. cbn. lia.
Qed.
Lemma sorted_ext m' m'' ls : (forall q, q ∈ ls -> m'' !!! q = m' !!! q) -> StronglySorted (behind m') ls -> StronglySorted (behind m'') ls.
Proof.
  intros Hm. induction 1 as [|q ls Hs IH Hf]; [constructor|]. constructor; [apply IH; intros r Hr; apply Hm; by right|].
  rewrite Forall_forall in *. intros r Hr. unfold behind. rewrite !Hm by (by left || by right). by apply Hf.
Qed.
Lemma moved_rest l1 l2 : l = l1 ++ p :: l2 -> StronglySorted (behind m1) (l1 ++ l2).
Proof.
  intros El. pose proof (lo_sorted _ _ Hlo) as Hs. assert (NoDup l) as Hn by (eapply sorted_nodup; apply Hlo). rewrite El in Hs, Hn.
  eapply sorted_ext; [|by eapply sorted_delete]. intros q Hq. apply moved_other.
  apply NoDup_app in Hn as (_ & Hn1 & [Hn2 _]%NoDup_cons). intros ->. apply elem_of_app in Hq as [Hq|Hq]; [apply (Hn1 p Hq); by left|done].
Qed.
(** With the same start it has the same place. *)
Lemma moved_in_place : a' = a -> StronglySorted (behind m1) l.
Proof.
  intros Ea. pose proof Hp as Hp'. apply list_elem_of_split in Hp' as (l1 & l2 & El). pose proof (moved_rest l1 l2 El) as Hr.
  pose proof (lo_sorted _ _ Hlo) as Hs. rewrite El in Hs |- *. apply StronglySorted_app in Hs as (H12 & Hs1 & [Hf Hs2]%StronglySorted_cons).
  apply StronglySorted_app in Hr as (Hr12 & Hr1 & Hr2). assert (NoDup l) as Hn by (eapply sorted_nodup; apply Hlo). rewrite El in Hn.
  apply NoDup_app in Hn as (_ & Hn1 & [Hn2 _]%NoDup_cons). destruct Hsp as (_ & E1 & E2 & Hab' & _).
  apply StronglySorted_app. split; [|split; [done|apply StronglySorted_cons; split; [|done]]].
  - intros q r Hq [->|Hrr]%elem_of_cons; [|by apply Hr12]. assert (q <> p) as Hqp by (intros ->; apply (Hn1 p Hq); by left).
    destruct (moved_apart q) as [Hb|Hb]; [rewrite El; set_solver|done| |done]. specialize (H12 q p Hq ltac:(by left)).
    destruct (lo_spans _ _ Hlo q) as (c & c' & _ & F1 & F2 & Hc & _); [rewrite El; set_solver|]. unfold behind in *.
    destruct (moved_other q Hqp) as [_ Eq]. rewrite Eq in *. rewrite lookup_insert_total in *. unfold moved_res in *. cbn in *.
    rewrite F1, F2, E2 in *. unfold page_addr in *. lia.
  - rewrite Forall_forall in *. intros q Hq. specialize (Hf q Hq). unfold behind in *. assert (q <> p) as Hqp by (intros ->; done).
    destruct (moved_other q Hqp) as [_ ->]. rewrite lookup_insert_total. unfold moved_res. cbn. by rewrite Ea, <- E1.
Qed.
Lemma wp_reinsert (e : E) : wp (when (negb (page_addr a =? page_addr a')) (remove_reservation p ;;; insert_reservation p))
  (fun _ x => exists h m' l', x = (e, with_list d h m') /\ same_fields m1 m' /\ l' ≡ₚ l /\ list_ok (with_list d h m') l') (e, with_res d m1).
Proof.
  assert (NoDup l) as Hn by (eapply sorted_nodup; apply Hlo). unfold when. destruct (Z.eqb_spec (page_addr a) (page_addr a')) as [Ea|Hne]; cbn [negb].
  - apply wp_ret. exists d.(reservation_head), m1, l. split; [by destruct d|]. split; [apply same_fields_refl|]. split; [done|].
    split; cbn; [apply moved_chain|apply moved_spans|apply moved_in_place; unfold page_addr in Ea; lia].
  - apply wp_bind. eapply wp_mono; [apply (wp_remove_rest p l e (with_res d m1)); cbn|].
    + apply moved_chain.
    + done.
    + done.
    + intros q Hq _. by apply moved_spans.
    + apply moved_rest.
    + cbn. intros [] x (h & m' & l' & -> & Hm & Hperm & Hlo'). rewrite Hperm in Hn. apply NoDup_cons in Hn as [Hpl Hn].
      assert (forall q, q ∈ l' -> q ∈ l /\ q <> p) as Hq by (intros q Hq; split; [rewrite Hperm; by right|by intros ->]).
      eapply wp_mono; [apply (wp_insert_ok p l' e _ a' b' Hlo')|].
      * eapply spans_same; [exact Hm|]. unfold spans. rewrite lookup_insert_eq, lookup_insert_total. done.
      * by eapply chain_in; [apply Hlo|].
      * done.
      * intros q Hq'. destruct (Hq q Hq') as [Hq1 Hq2]. destruct (moved_apart q Hq1 Hq2) as [Ha|Ha]; [left|right]; by eapply behind_same.
      * cbn. intros [] x (h2 & m2 & l2 & -> & Hm2 & Hperm2 & Hlo2). exists h2, m2, l2. split; [done|].
        split; [by eapply same_fields_trans|]. split; [by rewrite Hperm2, Hperm|done].
Qed.
End list.

(** ** The mappings *)
Definition moved (a b a' b' : Z) g : Z -> Z * Z := map_outside release a' b' a b (map_outside (fun _ => (RESERVED, 0)) a b a' b' g).
(** What the reservation gains is free. *)
Definition can_move r (a' b' : Z) g : Prop := forall j, a' <= j < b' -> in_resv r j \/ (g j).1 = EMPTY.
Lemma can_move_checks r a' b' g : r.(r_from) < r.(r_to) -> a' < b' -> (a' < r.(r_from) -> range_is is_empty a' r.(r_from) g) ->
  (r.(r_to) < b' -> range_is is_empty r.(r_to) b' g) -> can_move r a' b' g.
Proof.
  intros Hr Hab H1 H2 j Hj. unfold in_resv. destruct (Z_lt_le_dec j r.(r_from)) as [Hl|Hl]; [right; apply H1; lia|].
  destruct (Z_lt_le_dec j r.(r_to)) as [Hl'|Hl']; [left; lia|right; apply H2; lia].
Qed.
Section moved.
Context R R0 r g (a' b' : Z) (Hc : consistent R g) (HR : R ≡ₚ r :: R0) (Hn : NoDup R) (Hm : can_move r a' b' g).
Lemma rest_in s : s ∈ R0 -> s ∈ R /\ s <> r.
Proof. intros Hs. split; [rewrite HR; by right|]. intros ->. rewrite HR in Hn. by apply NoDup_cons in Hn as [Hn1 _]. Qed.
Lemma moved_in : r ∈ R.
Proof. rewrite HR. by left. Qed.
Lemma moved_free s j : s ∈ R -> s <> r -> in_resv s j -> ~ in_resv r j /\ ~ a' <= j < b'.
Proof.
  intros Hs Hne Hj. assert (~ in_resv r j) as Hr by (intros Hr; apply Hne; by apply (cs_apart _ _ Hc s r j Hs moved_in)).
  split; [done|]. intros Hj'. destruct (Hm j Hj') as [|He]; [done|]. by apply (cs_held _ _ Hc s j).
Qed.
Lemma moved_cases j : in_resv (mk_resv r.(r_at) a' b' r.(r_rights) r.(r_cacheable)) j /\
    (in_resv r j /\ moved r.(r_from) r.(r_to) a' b' g j = g j \/ ~ in_resv r j /\ moved r.(r_from) r.(r_to) a' b' g j = (RESERVED, 0)) \/
  ~ a' <= j < b' /\ (in_resv r j /\ moved r.(r_from) r.(r_to) a' b' g j = release (g j) \/ ~ in_resv r j /\ moved r.(r_from) r.(r_to) a' b' g j = g j).
Proof.
  unfold moved, map_outside, in_resv. cbn. destruct (in_range a' b' j) as [H1|H1], (in_range r.(r_from) r.(r_to) j) as [H2|H2]; cbn; tauto.
Qed.
Lemma consistent_moved : let r' := mk_resv r.(r_at) a' b' r.(r_rights) r.(r_cacheable) in
  (forall s t j, s ∈ r' :: R0 -> t ∈ r' :: R0 -> in_resv s j -> in_resv t j -> s = t) ->
  (forall s, s ∈ r' :: R0 -> s.(r_at) <> NULL /\ 0 <= s.(r_from) < s.(r_to) /\ s.(r_to) <= user_pages) ->
  consistent (r' :: R0) (moved r.(r_from) r.(r_to) a' b' g).
Proof.
  intros r' Ha Hb. split; [| |done|done|].
  - intros s j Hs Hj. destruct (moved_cases j) as [[H1 [[H2 ->]|[H2 ->]]]|[H1 [[H2 ->]|[H2 ->]]]]; [by apply (cs_held _ _ Hc r j moved_in)|done| |].
    all: apply elem_of_cons in Hs as [->|Hs]; [done|]; destruct (rest_in s Hs) as [Hs1 Hs2]; destruct (moved_free s j Hs1 Hs2 Hj) as [H3 H4].
    + done.
    + by apply (cs_held _ _ Hc s j).
  - intros j Hj. destruct (moved_cases j) as [[H1 [[H2 ->]|[H2 ->]]]|[H1 [[H2 ->]|[H2 ->]]]].
    + intros Hg. destruct (cs_reserved _ _ Hc j Hj Hg) as [H0 _]. split; [done|]. exists r'. split; [by left|done].
    + intros _. split; [done|]. exists r'. split; [by left|done].
    + unfold release. destruct (Z.eqb_spec (g j).1 RESERVED); by intros ?.
    + intros Hg. destruct (cs_reserved _ _ Hc j Hj Hg) as (H0 & s & Hs & Hsj). split; [done|]. exists s. split; [|done].
      rewrite HR in Hs. apply elem_of_cons in Hs as [->|Hs]; [done|by right].
  - intros j Hj. destruct (moved_cases j) as [[H1 [[H2 ->]|[H2 ->]]]|[H1 [[H2 ->]|[H2 ->]]]]; try done; [by apply (cs_empty _ _ Hc)| |by apply (cs_empty _ _ Hc)].
    unfold release. destruct (_ =? _); [done|by apply (cs_empty _ _ Hc)].
Qed.
End moved.

Section move.
Context {E : Type} (calls : vspace_calls E) (I : gset Z -> gset Z -> E -> Prop) (laws : calls_laws calls I).
Abbreviation X := (E * sel4utils_alloc_data)%type.
Implicit Types (x : X) (e : E).
Abbreviation stage := (stage I).
Abbreviation manages_list := (manages_list I).
Abbreviation manages := (manages I).
Lemma page_minus a b : 0 <= a <= b -> b < all_pages_count -> page_addr b -w page_addr a = page_addr (b - a).
Proof. unfold page_addr, all_pages_count, wsub, wrap. intros. rewrite Z.mod_small; lia. Qed.
(** The two loops *)
Lemma wp_move_loops {A} x a b a' b' g (Q : A -> X -> Prop) (k : M X A) : plenty calls I -> stage x g x -> 0 <= a < b -> b <= user_pages -> 0 <= a' < b' -> b' <= user_pages ->
  (forall x', stage x (moved a b a' b' g) x' -> wp k Q x') ->
  wp (outside_until (reserve_asserted calls) (steps_to (page_addr a') (page_addr b')) (page_addr a) (page_addr b) (page_addr a') (page_addr b') ;;;
      outside_until (clear_reserved calls) (steps_to (page_addr a) (page_addr b)) (page_addr a') (page_addr b') (page_addr a) (page_addr b) ;;; k) Q x.
Proof.
  intros Hpl Hs Hab Hu Hab' Hu' HQ. rewrite !steps_pages. apply wp_bind.
  eapply wp_mono; [apply (wp_outside_until I x _ (fun _ => (RESERVED, 0)) _ a b a' b' g); [lia|lia|lia| |lia|exact Hs]|].
  - intros j g' x' Hj _ Hs'. unfold reserve_asserted. apply wp_bind. eapply wp_mono; [apply wp_reserve; [exact laws|exact Hs'|lia|by left]|].
    intros err x'' [-> Hs'']. by apply wp_assert.
  - intros [] x1 Hs1. apply wp_bind. eapply wp_mono; [eapply (wp_outside_until I x _ release _ a' b' a b); [lia|lia|lia| |lia|exact Hs1]|].
    + intros j g' x' Hj _ Hs'. eapply (wp_clear_reserved calls I laws); [lia|exact Hs'].
    + intros [] x2 Hs2. by apply HQ.
Qed.
Definition moved_to R r (a' b' : Z) g x' : Prop := exists R0, R ≡ₚ r :: R0 /\
  manages (mk_resv r.(r_at) a' b' r.(r_rights) r.(r_cacheable) :: R0) (moved r.(r_from) r.(r_to) a' b' g) x'.
Section one.
Context R g e d r l (a' b' : Z) (H : manages_list l R g (e, d)) (Hr : r ∈ R) (Hab : 0 <= a' < b') (Hu : b' <= user_pages)
  (Hm : can_move r a' b' g).
Lemma move_apart q c c' : q ∈ l -> q <> r.(r_at) -> spans d.(reservations) q c c' -> c' <= a' \/ b' <= c.
Proof.
  intros Hq Hne Hsp. destruct (manages_at _ _ _ _ _ _ H Hr) as (_ & Er & _). cbn [snd] in Er.
  destruct (view_span _ _ _ _ Hsp) as [E1 E2]. destruct Hsp as (_ & _ & _ & Hc & _).
  assert (view d q ∈ R) as Hv by (rewrite (mn_views _ _ _ _ _ H); by apply (list_elem_of_fmap_2 (view d))).
  destruct (Z_le_gt_dec c' a'); [lia|]. destruct (Z_le_gt_dec b' c); [lia|]. exfalso.
  assert (in_resv (view d q) (Z.max a' c)) as Hj by (unfold in_resv; rewrite E1, E2; lia).
  destruct (Hm (Z.max a' c)) as [Hi|He]; [lia| |].
  - assert (view d q = r) as Eq by (eapply (cs_apart _ _ (mn_consistent _ _ _ _ _ H)); eauto). apply Hne. by rewrite <- Eq.
  - by apply (cs_held _ _ (mn_consistent _ _ _ _ _ H) _ _ Hv Hj).
Qed.
Lemma wp_move_finish e1 d1 (Q : Z -> X -> Prop) : stage (e, d) (moved r.(r_from) r.(r_to) a' b' g) (e1, d1) ->
  (forall x', moved_to R r a' b' g x' -> Q 0 x') ->
  wp (mod_res r.(r_at) (upd_start (page_addr a')) ;;; mod_res r.(r_at) (upd_end (page_addr b')) ;;;
      when (negb (page_addr r.(r_from) =? page_addr a')) (remove_reservation r.(r_at) ;;; insert_reservation r.(r_at)) ;;; ret 0) Q (e1, d1).
Proof.
  intros Hs1 HQ. destruct (manages_at _ _ _ _ _ _ H Hr) as (Hp & Er & Hsp). cbn [snd] in Er, Hsp.
  destruct (sg_rest _ _ _ _ Hs1) as (_ & _ & _ & Eh & Em). cbn in Eh, Em. pose proof Hsp as (Hs & _).
  assert (list_ok d1 l) as Hlo by (apply (list_ok_other d); [apply H|done|]; intros q _; by rewrite Em).
  assert (spans d1.(reservations) r.(r_at) r.(r_from) r.(r_to)) as Hsp1 by by rewrite Em.
  assert (NoDup l) as Hn by (eapply sorted_nodup; apply Hlo).
  apply wp_bind, wp_mod_res; [by rewrite Em|]. apply wp_bind, wp_mod_res_insert. apply wp_bind.
  eapply wp_mono; [apply (wp_reinsert d1 l Hlo r.(r_at) r.(r_from) r.(r_to) a' b' Hp Hsp1 Hab Hu)|].
  { intros q c c' Hq Hne Hc. eapply move_apart; [exact Hq|done|]. by rewrite <- Em. }
  intros [] x (h & m' & l' & -> & Hsame & Hperm & Hlo'). apply wp_ret, HQ.
  pose proof Hp as Hp'. apply elem_of_Permutation in Hp' as [l0 Hl0].
  assert (R ≡ₚ r :: (view d <$> l0)) as HR by (rewrite (mn_views _ _ _ _ _ H), Hl0, fmap_cons; cbn [snd]; by rewrite <- Er).
  assert (NoDup R) as HnR by (rewrite (mn_views _ _ _ _ _ H); by apply view_nodup).
  exists (view d <$> l0). split; [done|]. exists l'.
  assert (mk_resv r.(r_at) a' b' r.(r_rights) r.(r_cacheable) :: (view d <$> l0) ≡ₚ view (with_list d1 h m') <$> l') as Hv.
  { rewrite Hperm, Hl0, fmap_cons.
    assert (forall q, view (with_list d1 h m') q = view (with_res d1 (<[r.(r_at) := moved_res d1 r.(r_at) a' b']> d1.(reservations))) q) as Hvq.
    { intros q. by apply view_same. }
    assert (view (with_list d1 h m') r.(r_at) = mk_resv r.(r_at) a' b' r.(r_rights) r.(r_cacheable)) as ->.
    { rewrite Hvq. unfold view. cbn [with_res upd_reservations reservations]. rewrite lookup_insert_total. unfold moved_res. cbn. rewrite !page_div, Em.
      by rewrite Er. }
    apply perm_skip, reflexive_eq, list_fmap_ext. intros i q Hq. apply list_elem_of_lookup_2 in Hq. rewrite Hvq.
    symmetry. apply view_other. cbn. rewrite Em. apply lookup_insert_ne. intros <-. rewrite Hl0 in Hn. by apply NoDup_cons in Hn as [Hn _]. }
  destruct (list_apart l' _ (e1, with_list d1 h m') Hlo' Hv) as [Ha Hb]. split; [|done|done|].
  - apply stage_with_list; [by eapply stage_rebase|]. rewrite (same_fields_dom _ _ Hsame). by apply dom_insert_same; rewrite Em.
  - eapply consistent_moved; [apply H|exact HR|exact HnR|exact Hm|exact Ha|exact Hb].
Qed.
End one.

(** The check of a part of the new range that the old one does not have *)
Lemma wp_check_part (c : bool) a b g x (Q : bool -> X -> Prop) : stage x g x -> 0 <= a -> b <= user_pages -> (c = true -> a < b) ->
  (forall ok, (ok = true <-> (c = true -> range_is is_empty a b g)) -> Q ok x) ->
  wp (if c then check_empty_range (page_addr a) (BYTES_TO_4K_PAGES (page_addr b -w page_addr a)) seL4_PageBits else ret true) Q x.
Proof.
  intros Hs Ha Hb Hc HQ. destruct c; [|apply wp_ret, HQ; split; [by intros _ ?|done]]. specialize (Hc eq_refl).
  rewrite page_minus by (unfold user_pages, all_pages_count in *; lia). rewrite pages_of_bytes by lia.
  eapply (wp_check_empty_range I x g); [exact Hs|apply page_bits_ok|done|lia|rewrite unit_page; unfold user_pages, all_pages_count in *; lia|].
  intros ok Hok. apply HQ. rewrite Hok, unit_page. replace (a + (b - a) * 1) with b by lia. split; [by intros ? _|by intros He; apply He].
Qed.
(** The pages that are checked: from the new start up to the reservation, and from its end to the new one *)
Definition gap_free r (a' b' : Z) g : Prop := range_is is_empty a' r.(r_from) g /\ range_is is_empty r.(r_to) b' g.
Lemma end_bounds v size : 0 <= v -> size_ok size -> end_page v size <= user_pages ->
  v + size + 4095 < 2 ^ 32 /\ 0 <= v / 4096 /\ v / 4096 < end_page v size.
Proof using.
  unfold size_ok, end_page, user_pages. intros Hv Hs Hu.
  pose proof (Z.div_mod v 4096 ltac:(lia)). pose proof (Z.mod_pos_bound v 4096 ltac:(lia)).
  pose proof (Z.div_mod (v + size + 4095) 4096 ltac:(lia)). pose proof (Z.mod_pos_bound (v + size + 4095) 4096 ltac:(lia)). lia.
Qed.
Lemma wp_move_resize R g x r v size : plenty calls I -> manages R g x -> r ∈ R -> 0 <= v -> size_ok size ->
  let k := v / 4096 in let b' := end_page v size in b' <= user_pages ->
  wp (sel4utils_move_resize_reservation calls r.(r_at) v size) (fun err x' =>
    (err = -1 \/ err = -2) /\ ~ gap_free r k b' g /\ manages R g x' \/ err = 0 /\ gap_free r k b' g /\ moved_to R r k b' g x') x.
Proof.
  intros Hpl [l H] Hr Hv Hsize k b' Hu. destruct (end_bounds v size Hv Hsize Hu) as (Hov & Hk & Hkb). fold k b' in Hk, Hkb.
  assert (manages R g x) as HR by by exists l. destruct (manages_at _ _ _ _ _ _ H Hr) as (_ & _ & Hsp). destruct x as [e d].
  destruct Hsp as (Hs & E1 & E2 & Hab & Hub). cbn in Hs, E1, E2. destruct (cs_bounds _ _ (mn_consistent _ _ _ _ _ H) r Hr) as (Hp0 & _ & _).
  unfold sel4utils_move_resize_reservation. apply wp_bind, wp_assert; [by rewrite bool_decide_false|]. apply wp_bind, wp_res_at; [done|].
  unfold size_ok in Hsize. rewrite round_down_any, round_up_any by lia. fold k b'. cbv zeta. rewrite E1, E2.
  apply wp_bind. rewrite page_lt. apply (wp_check_part (k <? r.(r_from)) k r.(r_from) g); [apply H|done|lia|intros Hlt%Z.ltb_lt; done|].
  intros ok1 Hok1. assert (ok1 = true <-> range_is is_empty k r.(r_from) g) as Hok1'.
  { rewrite Hok1. split; [|done]. intros Hx j Hj. apply Hx; [apply Z.ltb_lt; lia|done]. }
  destruct ok1; cbn [negb]; [|apply wp_ret; left; split; [by left|]; split; [|done]; intros [Hg _]; by apply Hok1' in Hg].
  apply wp_bind. rewrite Z.gtb_ltb, page_lt. apply (wp_check_part (r.(r_to) <? b') r.(r_to) b' g); [apply H|lia|done|intros Hlt%Z.ltb_lt; done|].
  intros ok2 Hok2. assert (ok2 = true <-> range_is is_empty r.(r_to) b' g) as Hok2'.
  { rewrite Hok2. split; [|done]. intros Hx j Hj. apply Hx; [apply Z.ltb_lt; lia|done]. }
  destruct ok2; cbn [negb]; [|apply wp_ret; left; split; [by right|]; split; [|done]; intros [_ Hg]; by apply Hok2' in Hg].
  assert (gap_free r k b' g) as Hgap by (split; [by apply Hok1'|by apply Hok2']).
  apply (wp_move_loops (e, d) r.(r_from) r.(r_to) k b' g); [done|apply H|lia|done|lia|done|]. intros [e1 d1] Hs1.
  eapply (wp_move_finish R g e d r l k b' H Hr ltac:(lia) Hu); [|exact Hs1|].
  - apply can_move_checks; [lia|lia|intros _; apply Hgap|intros _; apply Hgap].
  - intros x' Hx'. right. done.
Qed.
End move.
