(* ===== verification/UVspaceSpec.v ===== *)
(** * The manager of virtual address spaces: its theorem

    The functions of the interface keep the reservations apart and the mappings inside them. The
    theorem is applied to a concrete system, in which they run. *)
From stdpp Require Import base list gmap sorting.
From Stdlib Require Import ZArith Lia.
From S2P Require Import Prelude.
From S2P Require Import Structures.
From S2P Require Import AllocBase.
From S2P Require Import UVspace.
From S2P Require Import UVspaceTable.
From S2P Require Import UVspaceList.
From S2P Require Import UVspaceOps.
From S2P Require Import UVspacePages.

(** ** A new address space *)
Definition fresh_top : list Z := replicate 896 NULL ++ replicate 128 RESERVED.
Definition nothing_mapped (k : Z) : Z * Z := if k <? user_pages then (EMPTY, 0) else (RESERVED, 0).
Section fresh.
Context {E : Type} (calls : vspace_calls E) (I : gset Z -> gset Z -> E -> Prop).
Implicit Types (d : sel4utils_alloc_data) (e : E).
Lemma fresh_table d : d.(top_level) = fresh_top -> d.(bootstrap) <> NULL -> d.(vka) <> NULL -> d.(page_directory) <> 0 ->
  d.(last_allocated) = 0x10000000 -> table_ok d.
Proof.
  intros Et H1 H2 H3 El. split; try done.
  - by rewrite Et.
  - intros i Hi. rewrite Et. unfold fresh_top. rewrite lookup_app_r by (rewrite length_replicate; lia). apply lookup_replicate.
    split; [done|]. rewrite length_replicate. lia.
  - intros i p Hi. rewrite Et. unfold fresh_top. rewrite lookup_app_l by (by rewrite length_replicate).
    intros [-> _]%lookup_replicate. by left.
  - intros i j p Hi _. rewrite Et. unfold fresh_top. rewrite lookup_app_l by (by rewrite length_replicate).
    by intros [-> _]%lookup_replicate.
  - exists 0x10000. by rewrite El.
Qed.
Lemma fresh_entry d k : d.(top_level) = fresh_top -> table_ok d -> 0 <= k < all_pages_count -> entry d k = nothing_mapped k.
Proof.
  intros Et Ht Hk. unfold nothing_mapped. destruct (Z.ltb_spec k user_pages); [|apply entry_kernel; [done|lia]].
  unfold entry. rewrite Et. unfold fresh_top. pose proof (page_index k ltac:(lia)). rewrite lookup_total_app_l by (rewrite length_replicate; lia).
  by rewrite lookup_total_replicate_2.
Qed.
Lemma fresh_manages e d : d.(top_level) = fresh_top -> table_ok d -> d.(reservation_head) = NULL ->
  I (dom d.(bottom_levels)) (dom d.(reservations)) e -> manages I [] nothing_mapped (e, d).
Proof.
  intros Et Ht Eh He. exists []. split.
  - eapply stage_ext; [by apply (stage_start I)|]. intros k Hk. by apply fresh_entry.
  - split; [done|by intros p ?%elem_of_nil|constructor].
  - done.
  - split; [by intros r k ?%elem_of_nil| |by intros r s k ?%elem_of_nil|by intros r ?%elem_of_nil|].
    + intros k Hk. unfold nothing_mapped. by destruct (Z.ltb_spec k user_pages); [|lia].
    + intros k Hk. unfold nothing_mapped. by destruct (k <? user_pages).
Qed.
End fresh.

Section get_vspace.
Context {E : Type} (calls : vspace_calls E) (I : gset Z -> gset Z -> E -> Prop).
Implicit Types (d : sel4utils_alloc_data) (e : E).
Lemma reserve_kernel e pd a nb la lo rh bl rs :
  common_init_post_bootstrap (e, mk_data pd a (replicate (Z.to_nat VSPACE_LEVEL_SIZE) NULL) nb la lo rh bl rs) =
    Ret tt (e, mk_data pd a fresh_top nb la lo rh bl rs).
Proof. vm_compute. reflexivity. Qed.
(** The page of the top level is the manager's from now on: the laws hold with it among the tables. *)
Definition with_table (p : Z) (L R : gset Z) : E -> Prop := I ({[p]} ∪ L) R.
Lemma with_table_laws p : calls_laws calls I -> calls_laws calls (with_table p).
Proof.
  intros laws. assert (forall A (op : M E A) P, keeps I op P -> keeps (with_table p) op P) as Hk by (intros A op P Hop L R e He; by apply Hop).
  split; intros; try (apply Hk; by apply laws).
  - split; intros; apply Hk; by apply (cl_vka _ _ laws).
  - eapply wp_mono; [by apply (cl_new_pages _ _ laws)|]. intros q e' [[-> He]|(H1 & H2 & H3 & He)]; [by left|right].
    split; [done|]. split; [done|]. split; [set_solver|]. unfold with_table. by replace ({[p]} ∪ ({[q]} ∪ L)) with ({[q]} ∪ ({[p]} ∪ L)) by set_solver.
  - eapply wp_mono; [by apply (cl_malloc _ _ laws)|]. intros q e' [[-> He]|(H1 & H2 & He)]; [by left|right]. done.
  - by apply (cl_free _ _ laws).
Qed.
Definition no_top_level loader e : Prop := exists e', calls.(vspace_new_pages) loader seL4_AllRights 1 seL4_PageBits e = Ret NULL e'.
Lemma wp_get_vspace loader a pd e d : calls_laws calls I -> loader <> NULL -> a <> NULL -> pd <> 0 ->
  I (dom d.(bottom_levels)) (dom d.(reservations)) e ->
  wp (sel4utils_get_vspace calls loader a pd) (fun err x' => err = -1 /\ no_top_level loader e \/
    err = 0 /\ exists p, manages (with_table p) [] nothing_mapped x') (e, d).
Proof.
  intros laws Hl Ha Hp He. unfold sel4utils_get_vspace, common_init. apply wp_bind, wp_modify, wp_bind, wp_modify.
  apply wp_bind, wp_env. cbn [fst snd].
  destruct (wp_inv _ _ _ (cl_new_pages _ _ laws loader seL4_AllRights 1 seL4_PageBits _ _ _ He)) as (p & e' & Eq & Hpg).
  eapply wp_exact; [exact Eq|]. destruct Hpg as [[-> _]|(Hp0 & _ & _ & He')].
  { rewrite Z.eqb_refl. apply wp_ret. left. split; [done|]. by exists e'. }
  destruct (Z.eqb_spec p NULL) as [|_]; [done|].
  apply wp_bind, wp_modify, wp_bind. eapply wp_exact; [apply reserve_kernel|]. apply wp_ret. right. split; [done|]. exists p.
  apply fresh_manages; [done|by apply fresh_table|done|exact He'].
Qed.
End get_vspace.


(** ** A system it runs in

    New tables, reservations and slots come from counters. *)
Record demo := mk_demo { tables : Z; blocks : Z; slots : Z }.
Definition demo_vka : vka_t demo := mk_vka
  (fun e => Ret (0, 2 * e.(slots)) (mk_demo e.(tables) e.(blocks) (e.(slots) + 1)))
  (fun c => mk_cspacepath c 32 1 0 0 0 0) (fun _ => ret tt) (fun _ _ _ => ret (0, 5)) (fun _ _ _ => ret tt).
Definition demo_calls : vspace_calls demo := mk_calls (fun _ => demo_vka)
  (fun _ _ _ _ e => Ret (8192 * e.(tables)) (mk_demo (e.(tables) + 1) e.(blocks) e.(slots)))
  (fun _ _ _ _ _ => ret tt) (fun _ _ _ _ _ => ret 0) (fun _ => ret 0) (fun _ _ _ _ => ret 0) (fun _ _ _ => ret 0)
  (fun _ e => Ret (32 * e.(blocks)) (mk_demo e.(tables) (e.(blocks) + 1) e.(slots))) (fun _ => ret tt) None.
Definition demo_I (L R : gset Z) (e : demo) : Prop := 0 < e.(tables) /\ 0 < e.(blocks) /\ 0 < e.(slots) /\
  (forall p, p ∈ L -> p < 8192 * e.(tables)) /\ (forall p, p ∈ R -> p < 32 * e.(blocks)).
Definition demo_data : sel4utils_alloc_data := mk_data 1 2 fresh_top 0 0x10000000 3 NULL ∅ ∅.
Definition demo_x : demo * sel4utils_alloc_data := (mk_demo 1 1 1, demo_data).
Definition demo_res : sel4utils_res_t := mk_res 0 0 0 0 0 0.
Lemma demo_keeps {A} (a : A) (P : A -> Prop) : P a -> keeps demo_I (ret a) P.
Proof. intros HP L R e He. by apply wp_ret. Qed.
Lemma demo_laws : calls_laws demo_calls demo_I.
Proof.
  split; intros; cbn; try (by apply demo_keeps).
  - split; intros; try (by apply demo_keeps). intros L R e (H1 & H2 & H3 & H4). unfold wp. cbn. unfold demo_I, RESERVED. cbn.
    repeat split; try lia; apply H4.
  - destruct H as (H1 & H2 & H3 & H4 & H5). unfold wp. right. unfold NULL, RESERVED, demo_I. cbn. split; [lia|]. split; [lia|].
    split; [intros Hp; specialize (H4 _ Hp); lia|]. split; [lia|]. split; [done|]. split; [done|]. split; [|done].
    intros q [->%elem_of_singleton|Hq]%elem_of_union; [lia|]. specialize (H4 q Hq). lia.
  - destruct H as (H1 & H2 & H3 & H4 & H5). unfold wp. right. unfold NULL, demo_I. cbn. split; [lia|].
    split; [intros Hp; specialize (H5 _ Hp); lia|]. split; [done|]. split; [lia|]. split; [done|]. split; [done|].
    intros q [->%elem_of_singleton|Hq]%elem_of_union; [lia|]. specialize (H5 q Hq). lia.
  - apply wp_ret. destruct H as (H1 & H2 & H3 & H4 & H5). repeat split; try done. intros q Hq. apply H5. set_solver.
  - done.
Qed.
Lemma demo_plenty : plenty demo_calls demo_I.
Proof. intros (l & r & n & b & L & R & e & e' & (H1 & _) & Eq). cbn in Eq. injection Eq as Ep _. unfold NULL in Ep. lia. Qed.
Lemma demo_manages : manages demo_I [] nothing_mapped demo_x.
Proof.
  apply fresh_manages; [done|by apply fresh_table|done|]. unfold demo_I. cbn. repeat split; try done; intros p; set_solver.
Qed.
Definition demo_reserve : M (demo * sel4utils_alloc_data) (Z * Z) := sel4utils_reserve_range demo_calls demo_res 0x3000 7 1.
(** The reservation is at address 32 and gets the three pages from 0x10000000 on. *)
Lemma demo_reserved : match demo_reserve demo_x with Ret o _ => bool_decide (o = (32, 0x10000000)) | Stop _ => false end = true.
Proof. vm_compute. reflexivity. Qed.

(** ** What the code does not do

    When a frame cannot be had, [new_pages_at_vaddr] returns success. *)
Section surprises.
Context {E : Type} (calls : vspace_calls E).
Lemma frame_shortage map_page n i v sb rt ch (e e' : E) d err o : vka_alloc_frame calls d.(vka) sb e = Ret (err, o) e' -> err <> 0 ->
  new_pages_loop calls map_page (Datatypes.S n) i v sb rt ch seL4_NoError (e, d) = Ret (0, i) (e', d).
Proof.
  intros Ea He. cbn [new_pages_loop]. unfold bind, get_alloc_data, gets, env, zoom. cbn [fst snd]. rewrite Ea. cbn [fst snd].
  by rewrite (proj2 (Z.eqb_neq err 0) He).
Qed.
(** When a page cannot be reserved, the reservation ends behind it. *)
Lemma reserve_shortage n v b err (x x' : E * sel4utils_alloc_data) : v < b -> reserve calls v x = Ret err x' -> err <> 0 ->
  reserve_until calls (Datatypes.S (Datatypes.S n)) v b seL4_NoError x = Ret (v +w PAGE_SIZE_4K) x'.
Proof.
  intros Hv Er He. cbn [reserve_until]. rewrite (proj2 (Z.ltb_lt v b) Hv). cbn. unfold bind. rewrite Er.
  rewrite (proj2 (Z.eqb_neq err seL4_NoError) He), andb_false_r. done.
Qed.
End surprises.
(** A range that does not start at a page touches a page more than is checked. *)
Lemma unaligned_range : BYTES_TO_4K_PAGES 0x1000 = 1 /\
  ROUND_UP (0x10000800 +w 0x1000) PAGE_SIZE_4K - ROUND_DOWN 0x10000800 PAGE_SIZE_4K = 2 * PAGE_SIZE_4K.
Proof. split; reflexivity. Qed.
(** A reservation that was allocated is marked as one that was not. *)
Lemma reserved_not_malloced : match demo_reserve demo_x with Ret _ x => (x.2.(reservations) !!! 32).(malloced) | Stop _ => -1 end = 0.
Proof. vm_compute. reflexivity. Qed.

